(* ===== verification/_CoqProject ===== *)
-Q . S2P
Prelude.v
Stddef.v
Bitmap.v
Lrpc.v
TimerHeap.v
Timer.v
Mutex.v
Sync.v
Tcache.v
Mempool.v
Mbuf.v
Transport.v
Chksum.v
Arp.v
Core.v
TcpState.v
TcpOut.v
TcpConn.v
TcpIn.v
TcpWire.v
Tcp.v
TcpStream.v
TcpRecv.v
IokState.v
IokSched.v
IokInv.v
IokBase.v
IokCores.v
IokInit.v
IokPoll.v
IokMach.v
IokSimple.v
IokSimpleInv.v
IokThms.v
RtState.v
RtSched.v
RtQueue.v
RtMach.v
RtInv.v
RtSteps.v
RtCalls.v
RtThms.v
Udp.v
UdpMach.v
UdpInv.v
UdpThms.v
Rcu.v
Poll.v
Page.v
Slab.v
SlabInv.v
SlabSrc.v
SlabThms.v
Smalloc.v
Shm.v
Control.v
ControlProc.v
ControlThms.v
TcpSend.v
TcpRtx.v
TcpSender.v
TcpWhole.v
Dlist.v
DlistThms.v
Hlist.v
IokData.v
IokFrame.v
IokDataInv.v
IokDataTx.v
IokDataBurst.v
IokDataMach.v
IokDataThms.v
IokNuma.v
IokNumaInv.v
IokNumaThms.v
Kthread.v
