(* ===== verification/Prelude.v ===== *)
(** * Verification of the Shenango runtime and of its IOKernel

    The repository is AIFM, a runtime for remote memory (C++, src/aifm), on top of
    Shenango (C, src/shenango), a library operating system: a runtime linked into each
    process (src/shenango/runtime) that multiplexes user-level threads over kernel
    threads and has its own network stack, a base library (src/shenango/base), packet
    buffers (src/shenango/net), and the IOKernel (src/shenango/iokernel), one process
    per machine that owns the network card and moves cores between the processes.  This
    development models the C code of Shenango.

    ** How the parts interact

    A process has kthreads.  A kthread runs uthreads from its run queue and steals from
    the queues of others; a uthread that has to wait parks on a mutex, a condition
    variable, a timer or a socket and is made ready again by another.  Memory for
    threads, stacks and packets comes from per-thread caches over pools and slabs.
    Packets reach the runtime over shared-memory channels from the IOKernel, pass the
    Ethernet, IP, ARP and ICMP code, are matched with a socket by the transport table and
    processed by UDP or TCP; packets of the runtime go back over such channels.  The
    IOKernel's control thread registers a process from what it wrote to shared memory; its
    data plane moves packets, completions and commands, reads the queue lengths each
    kthread publishes, detects congestion and gives or takes cores by a policy.

    ** Files

    This file: machine-width integers ([u16], [u32], [u64], [s32]), the result type
    [res] (a value, or [Bug] for a failed assertion or an access out of bounds) and its
    monad, automation and the lemmas the components share.

    Base library.
    - Stddef.v (inc/base/stddef.h), Bitmap.v (base/bitmap.c, inc/base/bitmap.h).
    - Dlist.v (inc/base/list.h, base/list.c): circular lists over a memory of pointers;
      DlistThms.v: the operations against sequences.  Hlist.v (list.h,
      inc/runtime/rculist.h): the lists of hash tables, and a reader of one while a writer
      stores to it.
    - Lrpc.v (base/lrpc.c, inc/base/lrpc.h): the channels, as functions and as single
      loads and stores of a sender and a receiver that interleave.
    - Tcache.v (base/tcache.c): magazines linked through the free items themselves, over
      an allocator given by the class [TcacheOps].
    - Mempool.v (base/mempool.c, inc/base/mempool.h): layout and allocation of items; an
      instance of [TcacheOps].
    - Page.v (base/page.c, inc/base/page.h): address arithmetic and large pages.  Slab.v
      (base/slab.c): the class [PageSource], slab nodes and their machine; SlabInv.v (the
      invariant), SlabSrc.v (large pages and, over them, small pages are sources),
      SlabThms.v (the theorems).

    Runtime.
    - TimerHeap.v, Timer.v (runtime/timer.c): the 4-ary heap over an array whose entries
      know their position; starting, cancelling, merging and firing of timers.
    - Mutex.v (runtime/sync.c): mutexes and condition variables, one atomic access of
      one thread per step.  Sync.v: read-write mutexes, wait groups, barriers.
    - RtState.v, RtSched.v, RtMach.v (runtime/defs.h, runtime/sched.c,
      [softirq_run_thread]): run queues, stealing, priorities, parking, switching; the
      kthreads as a machine.  RtQueue.v (rings as lists), RtInv.v (the invariant),
      RtSteps.v and RtCalls.v (each step keeps it), RtThms.v (the theorems).
    - Kthread.v (runtime/kthread.c): parking, waking and the steering of flows, one access
      to shared memory per step.
    - Rcu.v (runtime/rcu.c): readers, writers and the worker as a machine.  Poll.v
      (runtime/poll.c).  Smalloc.v (runtime/smalloc.c): size classes over caches, and the
      runs of a thread that uses them.

    Network stack.
    - Mbuf.v (inc/net/mbuf.h, net/mbuf.c), Chksum.v (inc/asm/chksum.h,
      inc/net/chksum.h), Transport.v (runtime/net/transport.c), Arp.v
      (runtime/net/arp.c), Core.v (runtime/net/core.c, icmp.c).
    - Udp.v (runtime/net/udp.c), UdpMach.v (a socket and the threads that use it),
      UdpInv.v (its invariants), UdpThms.v (the theorems).
    - TcpState.v (tcp.h, waitq.h), TcpOut.v (tcp_out.c), TcpConn.v (tcp.c: timers, life
      cycle), TcpIn.v (tcp_in.c), Tcp.v (tcp.c: sockets).  TcpWire.v: headers.
      TcpStream.v and TcpRecv.v: the byte stream at the receiver.  TcpSend.v, TcpRtx.v and
      TcpSender.v: the transmit queue, retransmission and the operations of a sender.
      TcpWhole.v: runs of a sender and of the receiver that gets its packets.

    IOKernel.
    - IokState.v (defs.h, ref.h, ksched.h), IokSched.v (sched.c), IokInit.v
      ([sched_init]), IokSimple.v (simple.c), IokNuma.v (numa.c), and parts of
      dp_clients.c in IokMach.v.
    - IokInv.v, IokBase.v, IokCores.v, IokPoll.v: invariants and the poll loop over any
      policy; IokMach.v: the class [SchedPolicy], what a policy promises for processes
      whose configuration it can handle (its parameter [cfgok]), and the machine;
      IokSimpleInv.v: the simple policy is an instance for every configuration; IokNumaInv.v:
      the NUMA policy is one for processes whose preferred socket exists, by a projection
      to the simple policy's books; IokThms.v, IokNumaThms.v: theorems.
    - Shm.v (inc/iokernel/shm.h): pointers into shared memory.  Control.v (control.c):
      the control plane; ControlProc.v (what it accepts of a process), ControlThms.v (its
      machine and theorems).
    - IokData.v (tx.c, rx.c, commands.c, mempool_completion.c): the data path.  IokFrame.v
      (the class [PolicyFrame]: what the scheduler leaves alone), IokDataInv.v (the
      invariant), IokDataTx.v and IokDataBurst.v (each operation keeps it), IokDataMach.v
      (the machine of data path, scheduler and clients), IokDataThms.v (the theorems).

    ** How code is modelled

    Operations keep the names of the C functions.  State is passed explicitly; a struct
    is a record, an enum an inductive type, a pointer an address or an index, a list or
    ring as the code has it.  A failed [assert] or [BUG_ON] and an access out of bounds
    is [Bug].  Code that takes one lock for all it does is one step; code that relies on
    finer synchronisation (channels, mutexes, kthreads, lists under read-copy-update) is a
    machine whose steps are the atomic accesses or the critical sections, under any
    interleaving.  Hash functions, clocks, random numbers, memory that may run out,
    hardware and the kernel module are parameters or choices of the model.

    ** What the theorems show

    - Channels: the functions refine a bounded queue; under any interleaving what is
      received is a prefix of what was sent.
    - Lists: the operations on pointers are those on sequences, and [list_check] ends on
      every memory and is exact; a reader of a hash chain ends and sees every node that
      stays in it.
    - Timers: whatever the handlers do, each one called is that of the earliest pending
      timer and not early; each operation keeps the heap; the softirq terminates.
    - Synchronisation: exclusion of mutexes and read-write mutexes, no lost waiter and
      no lost signal.
    - Memory: no item is lost or handed out twice by any sequence of calls of any
      threads; pools lay out disjoint items; items of slabs are exclusive and traceable
      to their page, and pages without items go back; sized requests get items that fit.
    - Read-copy-update: no reader sees a freed object, and grace periods end.  Polling
      keeps every event until it is delivered or disarmed.
    - Thread scheduler: each uthread is in exactly one place, no assertion fails, stacks
      are exclusive, the published queue length, the effect of priorities.  Kthreads that
      park leave enough of them spinning, and flows end up at kthreads that run.
    - Network: the checksum is that of RFC 1071; frames that are built are parsed back;
      a packet is matched with the entry its headers name; packets that wait for an
      address are not lost.
    - UDP: datagrams arrive as they were sent and are read in order from a bounded queue,
      sockets without a hardware flow are freed once and not too early, sleepers are
      woken; where the code falls short of this the theorems say so.
    - TCP: whatever the network does to the data segments of a peer, what is read is a
      prefix of its stream, and a segment with the next byte makes that byte readable; a
      sender puts only pieces of its stream on the wire, keeps what is not acknowledged
      and leaves buffers alone that the driver has; from end to end, what is read is a
      prefix of what was written.
    - IOKernel scheduler: each active kthread has exactly one core and each core at most
      one, no operation faults, reference counts are exact, flows lead to active kthreads;
      both policies keep their books, and the simple one honours guarantees.
    - IOKernel control plane: it survives all clients, owns exactly what they need, and
      passes on only processes whose fixed-size objects are inside their region.
    - IOKernel data plane: packets, buffers and references are conserved and in order, and
      no operation faults as long as its surroundings keep to the rules of [dop_ok].
    Where a theorem needs a condition that the code does not check, a lemma next to it
    runs the case in which the condition fails.

    ** Bounds and fuel

    Loops that are not structural take a bound that their callers compute: the length of
    the array or queue they walk ([find_next_loop], [pop_high], [steal_loop], the loops
    that prioritize a status), the number of cells of the memory ([for_each_loop],
    [check_loop]), the size of the heap ([sift_up_loop], [sift_down_loop]), the number of
    magazines, at most that of items ([tcache_reclaim]), the number of polled kthreads
    ([tx_pull]), the bytes left ([tcp_tx_send_loop], [scatter]), the ports
    ([affinity_next], [ephemeral_loop]).  The lemmas on these loops show that the bound is
    never reached, or that the loop of the code ends there, so that no theorem holds only
    because a loop gave up.

    ** Not modelled

    - src/aifm, bindings, shims, applications (C++, Rust, vendored programs).
    - Input, output and set-up: configuration, statistics, logging, mapping of memory and
      system calls (base/cpu.c, init.c, log.c, mem.c, pci.c, sysfs.c, stat.c, thread.c,
      time.c; runtime/cfg.c, init.c, ioqueues.c, stat.c, pmc.c; iokernel/dpdk.c, main.c,
      stat.c, ksched.c), the kernel module, preemption signals, assembly switches and
      stacks (runtime/preempt.c, stack.c), text parsing and debug output.
    - Code over SPDK and rdma-core (runtime/storage.c, runtime/net/directpath).
    - The policies ias and mis, which decide on floating-point estimates and hardware
      performance counters; base/jenkins_hash.c, which nothing uses.
    - Parts of files that are modelled, as for instance of runtime/kthread.c
      the allocation of kthreads, of dp_clients.c the queues to the control thread. *)

From Stdlib Require Export ZArith Lia.
From stdpp Require Export base tactics option list gmap numbers.

#[export] Set Default Goal Selector "!".
Open Scope Z_scope.

(** ** Machine-width integers

    An unsigned w-bit C integer is a [Z] in [0, 2^w); every arithmetic
    operation whose result may leave that range is wrapped explicitly. *)

Definition M16 : Z := 65536.
Definition M32 : Z := 4294967296.
Definition M64 : Z := 18446744073709551616.

Arguments M16 : simpl never.
Arguments M32 : simpl never.
Arguments M64 : simpl never.

Definition u16 (x : Z) : Z := x mod M16.
Definition u32 (x : Z) : Z := x mod M32.
Definition u64 (x : Z) : Z := x mod M64.

(** The value of the conversion [(int32_t)x] for an unsigned 32-bit [x]. *)
Definition s32 (x : Z) : Z := if u32 x <? 2147483648 then u32 x else u32 x - M32.

Definition in_u16 (x : Z) : Prop := 0 <= x < M16.
Definition in_u32 (x : Z) : Prop := 0 <= x < M32.
Definition in_u64 (x : Z) : Prop := 0 <= x < M64.

(** [ulia] decides linear goals about wrapped integers: it exposes the moduli
    and eliminates [mod] and [/] by their Euclidean equations. *)
Ltac ulia :=
  unfold s32, u16, u32, u64, in_u16, in_u32, in_u64, M16, M32, M64 in *;
  Z.to_euclidean_division_equations; lia.

Lemma u32_range x : in_u32 (u32 x).
Proof. ulia. Qed.

Lemma u32_id x : in_u32 x -> u32 x = x.
Proof. ulia. Qed.

Lemma u64_range x : in_u64 (u64 x).
Proof. ulia. Qed.

Lemma u64_id x : in_u64 x -> u64 x = x.
Proof. ulia. Qed.

Lemma u32_add_l x y : u32 (u32 x + y) = u32 (x + y).
Proof. unfold u32, M32. apply Zplus_mod_idemp_l. Qed.

Lemma u32_add_r x y : u32 (x + u32 y) = u32 (x + y).
Proof. unfold u32, M32. apply Zplus_mod_idemp_r. Qed.

Lemma u32_sub_l x y : u32 (u32 x - y) = u32 (x - y).
Proof. unfold u32, M32. apply Zminus_mod_idemp_l. Qed.

Lemma u32_sub_r x y : u32 (x - u32 y) = u32 (x - y).
Proof. unfold u32, M32. apply Zminus_mod_idemp_r. Qed.

Lemma u32_u32 x : u32 (u32 x) = u32 x.
Proof. apply u32_id, u32_range. Qed.

Create HintDb cintdb.
Create Rewrite HintDb cint.
#[export] Hint Rewrite u32_add_l u32_add_r u32_sub_l u32_sub_r u32_u32 : cint.
#[export] Hint Resolve u32_range u64_range u32_id u64_id : cintdb.

(** ** Error numbers (errno.h) *)

Definition ENOMEM : Z := 12.
Definition EINVAL : Z := 22.

(** ** Outcomes

    [BUG()], [BUG_ON()], [panic()] and a failed [assert()] of a debug build stop
    the program: the computation has no result.  [Ok a] is a normal return. *)

Inductive res (A : Type) : Type :=
| Ok (a : A)
| Bug.
Arguments Ok {A} _.
Arguments Bug {A}.

#[export] Instance res_ret : MRet res := fun A a => Ok a.
#[export] Instance res_bind : MBind res := fun A B f r =>
  match r with Ok a => f a | Bug => Bug end.

Definition BUG_ON (b : bool) : res unit := if b then Bug else Ok tt.

Lemma BUG_ON_false : BUG_ON false = Ok tt.
Proof. reflexivity. Qed.

Lemma res_bind_ok {A B} (r : res A) (f : A -> res B) b :
  (r ≫= f) = Ok b <-> exists a, r = Ok a /\ f a = Ok b.
Proof. destruct r; cbn; naive_solver. Qed.

(** ** Signed integers *)

Definition INT_MAX : Z := 2147483647.
Definition INT_MIN : Z := -2147483648.

(** Addition of two C [int]s: an overflow is undefined. *)
Definition int_add (a b : Z) : res Z :=
  if (INT_MIN <=? a + b) && (a + b <=? INT_MAX) then Ok (a + b) else Bug.

(** ** Boolean tests of the code

    [bdestruct] turns the integer comparisons of the code into the
    propositions they decide, one goal per outcome. *)

Ltac bdestruct1 :=
  match goal with
  | |- context [?x <? ?y] => destruct (Z.ltb_spec x y)
  | |- context [?x <=? ?y] => destruct (Z.leb_spec x y)
  | |- context [?x =? ?y] => destruct (Z.eqb_spec x y)
  | |- context [?x >? ?y] => rewrite (Z.gtb_ltb x y)
  | |- context [?x >=? ?y] => rewrite (Z.geb_leb x y)
  end.
Ltac bdestruct := repeat bdestruct1.

Ltac bprop :=
  repeat match goal with
  | H : _ && _ = true |- _ => apply andb_prop in H; destruct H
  | H : _ || _ = false |- _ => apply orb_false_elim in H; destruct H
  | H : negb _ = true |- _ => apply negb_true_iff in H
  | H : negb _ = false |- _ => apply negb_false_iff in H
  | H : (_ <? _) = true |- _ => apply Z.ltb_lt in H
  | H : (_ <? _) = false |- _ => apply Z.ltb_ge in H
  | H : (_ <=? _) = true |- _ => apply Z.leb_le in H
  | H : (_ <=? _) = false |- _ => apply Z.leb_gt in H
  | H : (_ =? _) = true |- _ => apply Z.eqb_eq in H
  | H : (_ =? _) = false |- _ => apply Z.eqb_neq in H
  end.

Lemma int_add_ok a b c : int_add a b = Ok c -> c = a + b /\ INT_MIN <= a + b <= INT_MAX.
Proof. unfold int_add. destruct (_ && _) eqn:E; [|done]. intros [= <-]. bprop. lia. Qed.

(** ** Lists *)

Lemma elem_of_concat {A} (x : A) (ls : list (list A)) :
  x ∈ concat ls <-> exists l, x ∈ l /\ l ∈ ls.
Proof. induction ls as [|l ls IH]; cbn; [|rewrite elem_of_app, IH]; set_solver. Qed.
