(* ===== verification/Stddef.v ===== *)
(** * inc/base/stddef.h: serial-number comparison and alignment helpers *)

From S2P Require Import Prelude.

(** ** Definitions *)

Definition wraps_lt (a b : Z) : bool := s32 (a - b) <? 0.
Definition wraps_lte (a b : Z) : bool := s32 (a - b) <=? 0.
Definition wraps_gt (a b : Z) : bool := s32 (b - a) <? 0.
Definition wraps_gte (a b : Z) : bool := s32 (b - a) <=? 0.

Definition is_power_of_two (x : Z) : bool :=
  negb (x =? 0) && (Z.land x (x - 1) =? 0).

(** [align_up]/[align_down] on a 64-bit [size_t]. *)
Definition align_up (x align : Z) : Z := u64 (Z.lor (u64 (x - 1)) (align - 1) + 1).
Definition align_down (x align : Z) : Z := Z.land x (Z.lnot (align - 1)).
Definition div_up (x d : Z) : Z := (x + d - 1) / d.

(** ** Serial numbers

    The four comparisons agree with the order of the unwrapped positions as
    long as these are less than half the sequence space apart. *)

Definition near (a b : Z) : Prop := -2147483648 < a - b < 2147483648.

Lemma s32_u32_diff a b : near a b -> s32 (u32 a - u32 b) = a - b.
Proof. unfold near. unfold s32. rewrite u32_sub_l, u32_sub_r. bdestruct; ulia. Qed.

Lemma wraps_lt_near a b : near a b -> wraps_lt (u32 a) (u32 b) = (a <? b).
Proof. intros H. unfold wraps_lt. rewrite s32_u32_diff by done. bdestruct; lia. Qed.

Lemma wraps_lte_near a b : near a b -> wraps_lte (u32 a) (u32 b) = (a <=? b).
Proof. intros H. unfold wraps_lte. rewrite s32_u32_diff by done. bdestruct; lia. Qed.

Lemma wraps_gt_near a b : near a b -> wraps_gt (u32 a) (u32 b) = (b <? a).
Proof.
  intros H. unfold wraps_gt. rewrite s32_u32_diff by (unfold near in *; lia).
  bdestruct; lia.
Qed.

Lemma wraps_gte_near a b : near a b -> wraps_gte (u32 a) (u32 b) = (b <=? a).
Proof.
  intros H. unfold wraps_gte. rewrite s32_u32_diff by (unfold near in *; lia).
  bdestruct; lia.
Qed.

(** ** Alignment *)

Lemma lor_ones a k : 0 <= k -> Z.lor a (Z.ones k) = 2 ^ k * (a / 2 ^ k) + Z.ones k.
Proof.
  intros Hk. assert (Hd : Z.land (Z.ldiff a (Z.ones k)) (Z.ones k) = 0).
  { apply Z.bits_inj'. intros i Hi. rewrite Z.land_spec, Z.ldiff_spec, Z.bits_0. destruct (Z.testbit a i), (Z.testbit (Z.ones k) i); done. }
  assert (E : Z.lor a (Z.ones k) = Z.lor (Z.ldiff a (Z.ones k)) (Z.ones k)).
  { apply Z.bits_inj'. intros i Hi. rewrite !Z.lor_spec, Z.ldiff_spec. destruct (Z.testbit a i), (Z.testbit (Z.ones k) i); done. }
  rewrite E, <- Z.lxor_lor, <- Z.add_nocarry_lxor by done. rewrite Z.ldiff_ones_r, Z.shiftl_mul_pow2, Z.shiftr_div_pow2 by done. lia.
Qed.

(** [align_up] rounds up to a multiple. *)
Lemma align_up_spec x k : 0 <= k < 64 -> 0 < x -> x + 2 ^ k <= M64 -> align_up x (2 ^ k) = 2 ^ k * ((x + 2 ^ k - 1) / 2 ^ k).
Proof.
  intros Hk Hx Hm. assert (Hp : 0 < 2 ^ k) by (apply Z.pow_pos_nonneg; lia). unfold align_up. rewrite (u64_id (x - 1)) by (unfold in_u64; lia).
  replace (x - 1) with (Z.pred x) by lia.
  replace (2 ^ k - 1) with (Z.ones k) by (rewrite Z.ones_equiv; lia). rewrite lor_ones by lia. rewrite Z.ones_equiv.
  replace (x + 2 ^ k - 1) with (Z.pred x + 1 * 2 ^ k) by lia. rewrite Z.div_add by lia.
  assert (Hq : 2 ^ k * (Z.pred x / 2 ^ k) <= Z.pred x) by (apply Z.mul_div_le; lia). assert (0 <= Z.pred x / 2 ^ k) by (apply Z.div_pos; lia).
  rewrite u64_id; [lia|]. unfold in_u64. nia.
Qed.
