(* ===== verification/Bitmap.v ===== *)
(** * base/bitmap.c, inc/base/bitmap.h: bit arrays

    A bitmap is the array of [unsigned long] words behind the pointer, a
    [list Z] of 64-bit words.  A read or write outside the array is undefined
    behaviour in C: the operation has no result ([None]). *)

From S2P Require Import Prelude Stddef.

(** ** Definitions *)

Definition BITS_PER_LONG : Z := 64.
Definition BITMAP_LONG_SIZE (nbits : Z) : Z := div_up nbits BITS_PER_LONG.
Definition BITMAP_POS_IDX (pos : Z) : nat := Z.to_nat (pos / BITS_PER_LONG).
Definition BITMAP_POS_SHIFT (pos : Z) : Z := pos mod BITS_PER_LONG.

Definition bit_of (pos : Z) : Z := u64 (Z.shiftl 1 (BITMAP_POS_SHIFT pos)).
Definition lnot64 (x : Z) : Z := u64 (Z.lnot x).

(** [bits[i] = f(bits[i])]. *)
Definition word_update (f : Z -> Z) (i : nat) (bits : list Z) : option (list Z) :=
  match bits !! i with
  | Some w => Some (<[i := f w]> bits)
  | None => None
  end.

Definition bitmap_set (bits : list Z) (pos : Z) : option (list Z) :=
  word_update (fun w => Z.lor w (bit_of pos)) (BITMAP_POS_IDX pos) bits.

Definition bitmap_clear (bits : list Z) (pos : Z) : option (list Z) :=
  word_update (fun w => Z.land w (lnot64 (bit_of pos))) (BITMAP_POS_IDX pos) bits.

Definition bitmap_test (bits : list Z) (pos : Z) : option bool :=
  match bits !! BITMAP_POS_IDX pos with
  | Some w => Some (negb (Z.land w (bit_of pos) =? 0))
  | None => None
  end.

(** [__builtin_popcountl] *)
Fixpoint pos_popcount (p : positive) : Z :=
  match p with
  | xH => 1
  | xO q => pos_popcount q
  | xI q => 1 + pos_popcount q
  end.

Definition popcountl (w : Z) : Z :=
  match w with Zpos p => pos_popcount p | _ => 0 end.

(** The loops [for (i = 0; i < BITMAP_LONG_SIZE(nbits); i++)]: [n] words are
    left, [i] is the current one. *)
Fixpoint popcount_loop (n i : nat) (bits : list Z) (val : Z) : option Z :=
  match n with
  | O => Some val
  | S n' =>
      match bits !! i with
      | Some w => popcount_loop n' (S i) bits (val + popcountl w)
      | None => None
      end
  end.

Definition bitmap_popcount (bits : list Z) (nbits : Z) : option Z :=
  popcount_loop (Z.to_nat (BITMAP_LONG_SIZE nbits)) 0 bits 0.

Fixpoint zip_loop (op : Z -> Z -> Z) (n i : nat) (dst src1 src2 : list Z)
  : option (list Z) :=
  match n with
  | O => Some dst
  | S n' =>
      match dst !! i, src1 !! i, src2 !! i with
      | Some _, Some a, Some b =>
          zip_loop op n' (S i) (<[i := op a b]> dst) src1 src2
      | _, _, _ => None
      end
  end.

Definition bitmap_and (dst src1 src2 : list Z) (nbits : Z) : option (list Z) :=
  zip_loop Z.land (Z.to_nat (BITMAP_LONG_SIZE nbits)) 0 dst src1 src2.
Definition bitmap_or (dst src1 src2 : list Z) (nbits : Z) : option (list Z) :=
  zip_loop Z.lor (Z.to_nat (BITMAP_LONG_SIZE nbits)) 0 dst src1 src2.
Definition bitmap_xor (dst src1 src2 : list Z) (nbits : Z) : option (list Z) :=
  zip_loop Z.lxor (Z.to_nat (BITMAP_LONG_SIZE nbits)) 0 dst src1 src2.

(** [memset] of the first [BITMAP_LONG_SIZE nbits] words. *)
Definition bitmap_init (bits : list Z) (nbits : Z) (state : bool) : option (list Z) :=
  let n := Z.to_nat (BITMAP_LONG_SIZE nbits) in
  if decide (n <= length bits)%nat
  then Some (replicate n (if state then M64 - 1 else 0) ++ drop n bits)
  else None.

(** The atomic variants act on one word with one read-modify-write. *)
Definition bitmap_atomic_set (bits : list Z) (pos : Z) : option (list Z) :=
  word_update (fun w => Z.lor w (bit_of pos)) (BITMAP_POS_IDX pos) bits.

Definition bitmap_atomic_test_and_set (bits : list Z) (pos : Z)
  : option (list Z * bool) :=
  match bits !! BITMAP_POS_IDX pos with
  | Some w =>
      Some (<[BITMAP_POS_IDX pos := Z.lor w (bit_of pos)]> bits,
            negb (Z.land w (bit_of pos) =? 0))
  | None => None
  end.

Definition bitmap_atomic_clear (bits : list Z) (pos : Z) : option (list Z) :=
  word_update (fun w => Z.land w (lnot64 (bit_of pos))) (BITMAP_POS_IDX pos) bits.

Definition bitmap_atomic_test (bits : list Z) (pos : Z) : option bool :=
  match bits !! BITMAP_POS_IDX pos with
  | Some w => Some (negb (Z.land w (bit_of pos) =? 0))
  | None => None
  end.

(** [__builtin_ffsl]: one plus the index of the least significant set bit. *)
Fixpoint pos_ctz (p : positive) : Z :=
  match p with
  | xO q => 1 + pos_ctz q
  | _ => 0
  end.

Definition ffsl (w : Z) : Z :=
  match w with Zpos p => 1 + pos_ctz p | _ => 0 end.

(** The scan of [bitmap_find_next]: [n] bounds the iterations left, [idx] is
    the first bit of the current word and [mask] selects the bits that count. *)
Fixpoint find_next_loop (n : nat) (bits : list Z) (nbits idx mask : Z)
  (invert : bool) : option Z :=
  if nbits <=? idx then Some nbits else
  match n with
  | O => None
  | S n' =>
      match bits !! BITMAP_POS_IDX idx with
      | None => None
      | Some w =>
          let val := Z.land (if invert then lnot64 w else w) mask in
          if negb (val =? 0) then Some (Z.min (idx + ffsl val - 1) nbits)
          else find_next_loop n' bits nbits (idx + BITS_PER_LONG) (M64 - 1) invert
      end
  end.

Definition bitmap_find_next (bits : list Z) (nbits pos : Z) (invert : bool)
  : option Z :=
  find_next_loop (S (Z.to_nat (nbits / BITS_PER_LONG))) bits nbits
    (align_down pos BITS_PER_LONG) (lnot64 (bit_of pos - 1)) invert.

Definition bitmap_find_next_cleared (bits : list Z) (nbits pos : Z) : option Z :=
  bitmap_find_next bits nbits pos true.
Definition bitmap_find_next_set (bits : list Z) (nbits pos : Z) : option Z :=
  bitmap_find_next bits nbits pos false.

(** [bitmap_for_each_set]: the positions the macro's loop visits, in order. *)
Fixpoint for_each_loop (n : nat) (bits : list Z) (nbits pos : Z) (invert : bool)
  : option (list Z) :=
  match n with
  | O => None
  | S n' =>
      match bitmap_find_next bits nbits (pos + 1) invert with
      | None => None
      | Some p =>
          if p <? nbits
          then l ← for_each_loop n' bits nbits p invert; Some (p :: l)
          else Some []
      end
  end.

Definition bitmap_for_each_set (bits : list Z) (nbits : Z) : option (list Z) :=
  for_each_loop (S (Z.to_nat nbits)) bits nbits (-1) false.
Definition bitmap_for_each_cleared (bits : list Z) (nbits : Z) : option (list Z) :=
  for_each_loop (S (Z.to_nat nbits)) bits nbits (-1) true.

(** ** Specification

    The value of bit [i] of the array, [false] outside it. *)
Definition bit_at (bits : list Z) (i : Z) : bool :=
  match bits !! BITMAP_POS_IDX i with
  | Some w => Z.testbit w (BITMAP_POS_SHIFT i)
  | None => false
  end.

(** Every word is an [unsigned long]. *)
Definition bitmap_wf (bits : list Z) : Prop := Forall in_u64 bits.

(** The array has room for [nbits] bits. *)
Definition bitmap_fits (bits : list Z) (nbits : Z) : Prop :=
  0 <= nbits <= BITS_PER_LONG * Z.of_nat (length bits).

(** [r] is the first position from [lo] on that satisfies [P], or [nb]. *)
Definition is_next (P : Z -> bool) (lo nb r : Z) : Prop :=
  (r = nb /\ forall i, lo <= i < nb -> P i = false) \/
  (lo <= r < nb /\ P r = true /\ forall i, lo <= i < r -> P i = false).

(** ** Words *)

Section words.

Lemma shift_range pos : 0 <= BITMAP_POS_SHIFT pos < 64.
Proof. unfold BITMAP_POS_SHIFT, BITS_PER_LONG. ulia. Qed.

Lemma pow2_lt_M64 k : 0 <= k < 64 -> 0 < 2 ^ k < M64.
Proof.
  intros Hk. split; [apply Z.pow_pos_nonneg; lia|].
  change M64 with (2 ^ 64). apply Z.pow_lt_mono_r; lia.
Qed.

Lemma bit_of_pow2 pos : bit_of pos = 2 ^ BITMAP_POS_SHIFT pos.
Proof.
  unfold bit_of. pose proof (shift_range pos).
  rewrite Z.shiftl_mul_pow2, Z.mul_1_l by lia.
  apply u64_id. pose proof (pow2_lt_M64 (BITMAP_POS_SHIFT pos)). unfold in_u64. lia.
Qed.

Lemma testbit_bit_of pos j :
  0 <= j -> Z.testbit (bit_of pos) j = (j =? BITMAP_POS_SHIFT pos).
Proof.
  intros Hj. rewrite bit_of_pow2. pose proof (shift_range pos).
  rewrite Z.pow2_bits_eqb by lia. apply Z.eqb_sym.
Qed.

Lemma testbit_u64 x j : 0 <= j < 64 -> Z.testbit (u64 x) j = Z.testbit x j.
Proof. intros. change (u64 x) with (x mod 2 ^ 64). by rewrite Z.mod_pow2_bits_low by lia. Qed.

Lemma testbit_u64_high x j : 64 <= j -> Z.testbit (u64 x) j = false.
Proof. intros. change (u64 x) with (x mod 2 ^ 64). rewrite Z.mod_pow2_bits_high; lia. Qed.

Lemma testbit_lnot64 w j :
  0 <= j < 64 -> Z.testbit (lnot64 w) j = negb (Z.testbit w j).
Proof. intros. unfold lnot64. rewrite testbit_u64, Z.lnot_spec by lia. done. Qed.

Lemma in_u64_testbit_high w j : in_u64 w -> 64 <= j -> Z.testbit w j = false.
Proof. intros Hw Hj. rewrite <- (u64_id w Hw). by apply testbit_u64_high. Qed.

(** A 64-bit word is zero when all its 64 bits are. *)
Lemma u64_zero_iff w :
  in_u64 w -> (w = 0 <-> forall j, 0 <= j < 64 -> Z.testbit w j = false).
Proof.
  intros Hw. split; [intros ->; intros; apply Z.testbit_0_l|].
  intros H. apply Z.bits_inj'. intros n Hn. rewrite Z.testbit_0_l.
  destruct (Z.lt_ge_cases n 64); [by apply H|by apply in_u64_testbit_high].
Qed.

Lemma land_in_u64 a b : in_u64 b -> in_u64 (Z.land a b).
Proof.
  intros Hb. unfold in_u64. split; [apply Z.land_nonneg; right; unfold in_u64 in Hb; lia|].
  replace (Z.land a b) with (u64 (Z.land a b)); [apply u64_range|].
  apply Z.bits_inj'. intros n Hn. destruct (Z.lt_ge_cases n 64).
  - by rewrite testbit_u64 by lia.
  - rewrite testbit_u64_high by lia. rewrite Z.land_spec.
    rewrite (in_u64_testbit_high b) by done. by rewrite andb_false_r.
Qed.

Lemma lor_in_u64 a b : in_u64 a -> in_u64 b -> in_u64 (Z.lor a b).
Proof.
  intros Ha Hb. replace (Z.lor a b) with (u64 (Z.lor a b)); [apply u64_range|].
  apply Z.bits_inj'. intros n Hn. destruct (Z.lt_ge_cases n 64).
  - by rewrite testbit_u64 by lia.
  - rewrite testbit_u64_high, Z.lor_spec by lia.
    by rewrite !in_u64_testbit_high.
Qed.

Lemma bit_of_in_u64 pos : in_u64 (bit_of pos).
Proof. apply u64_range. Qed.

(** [ffsl] finds the least set bit. *)
Lemma pos_ctz_spec p :
  0 <= pos_ctz p /\ Z.testbit (Zpos p) (pos_ctz p) = true /\
  forall i, 0 <= i < pos_ctz p -> Z.testbit (Zpos p) i = false.
Proof.
  induction p as [p IH|p IH|]; cbn [pos_ctz].
  - split_and!; [done|by rewrite Pos2Z.inj_xI, Z.testbit_odd_0|lia].
  - destruct IH as (H0 & Ht & Hb). rewrite Pos2Z.inj_xO. split_and!; [lia| |].
    + rewrite Z.add_1_l, Z.testbit_even_succ by lia. done.
    + intros i Hi. destruct (Z.eq_dec i 0) as [->|].
      { apply Z.testbit_even_0. }
      replace i with (Z.succ (i - 1)) by lia. rewrite Z.testbit_even_succ by lia.
      apply Hb. lia.
  - split_and!; [done|done|lia].
Qed.

Lemma ffsl_spec w :
  in_u64 w -> w <> 0 ->
  0 <= ffsl w - 1 < 64 /\ Z.testbit w (ffsl w - 1) = true /\
  forall i, 0 <= i < ffsl w - 1 -> Z.testbit w i = false.
Proof.
  intros Hw Hnz. destruct w as [|p|p]; [done| |unfold in_u64 in Hw; lia].
  destruct (pos_ctz_spec p) as (H0 & Ht & Hb). cbn [ffsl].
  replace (1 + pos_ctz p - 1) with (pos_ctz p) by lia. split_and!; [done| |done|done].
  destruct (Z.lt_ge_cases (pos_ctz p) 64) as [|Hge]; [done|].
  by rewrite (in_u64_testbit_high _ _ Hw Hge) in Ht.
Qed.

(** [~((1UL << s) - 1)] has exactly the bits from [s] on. *)
Lemma testbit_mask pos j :
  0 <= j < 64 ->
  Z.testbit (lnot64 (bit_of pos - 1)) j = (BITMAP_POS_SHIFT pos <=? j).
Proof.
  intros Hj. rewrite testbit_lnot64, bit_of_pow2 by done. pose proof (shift_range pos).
  replace (2 ^ BITMAP_POS_SHIFT pos - 1) with (Z.ones (BITMAP_POS_SHIFT pos))
    by (rewrite Z.ones_equiv; lia).
  bdestruct.
  - rewrite Z.ones_spec_high by lia. done.
  - rewrite Z.ones_spec_low by lia. done.
Qed.

Lemma testbit_ones64 j : 0 <= j < 64 -> Z.testbit (M64 - 1) j = true.
Proof. intros. change (M64 - 1) with (Z.ones 64). apply Z.ones_spec_low. lia. Qed.

Lemma land_bit_of_zero w pos :
  negb (Z.land w (bit_of pos) =? 0) = Z.testbit w (BITMAP_POS_SHIFT pos).
Proof.
  pose proof (shift_range pos).
  destruct (Z.testbit w (BITMAP_POS_SHIFT pos)) eqn:E.
  - rewrite negb_true_iff, Z.eqb_neq. intros Hz.
    apply (f_equal (fun x => Z.testbit x (BITMAP_POS_SHIFT pos))) in Hz.
    rewrite Z.land_spec, testbit_bit_of, E, Z.eqb_refl, Z.testbit_0_l in Hz; [done|lia].
  - rewrite negb_false_iff, Z.eqb_eq. apply u64_zero_iff.
    { apply land_in_u64, bit_of_in_u64. }
    intros j Hj. rewrite Z.land_spec, testbit_bit_of by lia.
    destruct (Z.eqb_spec j (BITMAP_POS_SHIFT pos)) as [->|]; [by rewrite E|].
    apply andb_false_r.
Qed.

End words.

(** ** Arrays *)

Section arrays.
Implicit Types bits : list Z.

Lemma pos_idx_word idx j :
  0 <= idx -> idx mod 64 = 0 -> 0 <= j < 64 ->
  BITMAP_POS_IDX (idx + j) = BITMAP_POS_IDX idx /\ BITMAP_POS_SHIFT (idx + j) = j.
Proof.
  intros. unfold BITMAP_POS_IDX, BITMAP_POS_SHIFT, BITS_PER_LONG.
  split; [f_equal|]; ulia.
Qed.

Lemma pos_idx_inj i k :
  0 <= i -> 0 <= k -> BITMAP_POS_IDX i = BITMAP_POS_IDX k ->
  BITMAP_POS_SHIFT i = BITMAP_POS_SHIFT k -> i = k.
Proof.
  intros ?? H1 H2. unfold BITMAP_POS_IDX, BITMAP_POS_SHIFT, BITS_PER_LONG in *.
  apply Z2Nat.inj in H1; ulia.
Qed.

Lemma fits_lookup bits nbits i :
  bitmap_fits bits nbits -> 0 <= i < nbits -> is_Some (bits !! BITMAP_POS_IDX i).
Proof.
  intros [_ Hf] Hi. apply lookup_lt_is_Some_2. unfold BITMAP_POS_IDX, BITS_PER_LONG in *.
  assert (i / 64 < Z.of_nat (length bits)) by ulia. assert (0 <= i / 64) by ulia. lia.
Qed.

Lemma fits_words bits nbits :
  bitmap_fits bits nbits -> (Z.to_nat (BITMAP_LONG_SIZE nbits) <= length bits)%nat.
Proof.
  unfold bitmap_fits, BITMAP_LONG_SIZE, div_up, BITS_PER_LONG. intros ?.
  assert ((nbits + 64 - 1) / 64 <= Z.of_nat (length bits)) by ulia. lia.
Qed.

Lemma bitmap_test_bit_at bits nbits pos :
  bitmap_fits bits nbits -> 0 <= pos < nbits ->
  bitmap_test bits pos = Some (bit_at bits pos).
Proof.
  intros Hf Hp. destruct (fits_lookup _ _ _ Hf Hp) as [w Hw].
  unfold bitmap_test, bit_at. rewrite Hw. by rewrite land_bit_of_zero.
Qed.

(** The effect of one read-modify-write of the word of [pos]. *)
Lemma word_update_bit_at f bits bits' pos i :
  0 <= pos -> 0 <= i ->
  word_update f (BITMAP_POS_IDX pos) bits = Some bits' ->
  bit_at bits' i =
    match bits !! BITMAP_POS_IDX i with
    | Some w => Z.testbit (if decide (BITMAP_POS_IDX i = BITMAP_POS_IDX pos) then f w else w)
                  (BITMAP_POS_SHIFT i)
    | None => false
    end.
Proof.
  intros Hp Hi Hu. unfold word_update in Hu.
  destruct (bits !! BITMAP_POS_IDX pos) as [w|] eqn:Hw; simplify_eq.
  unfold bit_at. case_decide as E.
  - rewrite E, list_lookup_insert_eq, Hw by (by eapply lookup_lt_Some). done.
  - by rewrite list_lookup_insert_ne by done.
Qed.

Lemma bitmap_set_bit_at bits bits' pos i :
  0 <= pos -> 0 <= i -> bitmap_set bits pos = Some bits' ->
  bit_at bits' i = (i =? pos) || bit_at bits i.
Proof.
  intros Hp Hi Hs. rewrite (word_update_bit_at _ _ _ _ _ Hp Hi Hs).
  unfold bitmap_set, word_update in Hs.
  destruct (bits !! BITMAP_POS_IDX pos) as [w|] eqn:Hw; simplify_eq.
  unfold bit_at. case_decide as E.
  - rewrite E, Hw, Z.lor_spec, testbit_bit_of by (pose proof (shift_range i); lia).
    rewrite orb_comm. f_equal.
    destruct (Z.eqb_spec i pos) as [->|Hne]; [apply Z.eqb_refl|].
    apply Z.eqb_neq. intros ?. by apply Hne, pos_idx_inj.
  - destruct (Z.eqb_spec i pos) as [->|]; [done|].
    by destruct (bits !! BITMAP_POS_IDX i).
Qed.

Lemma bitmap_clear_bit_at bits bits' pos i :
  0 <= pos -> 0 <= i -> bitmap_clear bits pos = Some bits' ->
  bit_at bits' i = negb (i =? pos) && bit_at bits i.
Proof.
  intros Hp Hi Hs. rewrite (word_update_bit_at _ _ _ _ _ Hp Hi Hs).
  unfold bitmap_clear, word_update in Hs.
  destruct (bits !! BITMAP_POS_IDX pos) as [w|] eqn:Hw; simplify_eq.
  unfold bit_at. case_decide as E.
  - rewrite E, Hw, Z.land_spec, testbit_lnot64, testbit_bit_of
      by (pose proof (shift_range i); lia).
    rewrite andb_comm. do 2 f_equal.
    destruct (Z.eqb_spec i pos) as [->|Hne]; [apply Z.eqb_refl|].
    apply Z.eqb_neq. intros ?. by apply Hne, pos_idx_inj.
  - destruct (Z.eqb_spec i pos) as [->|]; [done|].
    by destruct (bits !! BITMAP_POS_IDX i).
Qed.

(** ** The scan *)

Lemma find_next_loop_spec bits nbits inv n idx lo mask :
  bitmap_wf bits -> bitmap_fits bits nbits ->
  0 <= idx -> idx mod 64 = 0 -> idx <= lo < idx + 64 ->
  nbits - idx <= 64 * Z.of_nat n ->
  in_u64 mask ->
  (forall j, 0 <= j < 64 -> Z.testbit mask j = (lo <=? idx + j)) ->
  exists r, find_next_loop n bits nbits idx mask inv = Some r /\
    is_next (fun i => xorb inv (bit_at bits i)) lo nbits r.
Proof.
  intros Hwf Hfit. revert idx lo mask.
  induction n as [|n IH]; intros idx lo mask Hidx Hal Hlo Hfuel Hm Hmask; cbn [find_next_loop];
    (destruct (Z.leb_spec nbits idx) as [Hend|Hlt];
      [exists nbits; split; [done|left; split; [done|lia]]|]); [lia|].
  destruct (fits_lookup _ _ idx Hfit) as [w Hw]; [lia|]. rewrite Hw.
  assert (Hin : in_u64 w) by (by eapply Forall_lookup_1).
  set (val := Z.land (if inv then lnot64 w else w) mask).
  assert (Hval : in_u64 val) by (by apply land_in_u64).
  assert (Hbit : forall j, 0 <= j < 64 ->
            Z.testbit val j = xorb inv (bit_at bits (idx + j)) && (lo <=? idx + j)).
  { intros j Hj. destruct (pos_idx_word idx j Hidx Hal Hj) as [E1 E2].
    unfold val, bit_at. rewrite Z.land_spec, Hmask, E1, E2, Hw by done. f_equal.
    destruct inv; [rewrite testbit_lnot64 by done|]; by destruct (Z.testbit w j). }
  destruct (Z.eqb_spec val 0) as [Hz|Hnz]; cbn [negb].
  - destruct (IH (idx + BITS_PER_LONG) (idx + 64) (M64 - 1)) as (r & Hr & Hnext);
      unfold BITS_PER_LONG in *; try lia.
    + ulia.
    + unfold in_u64, M64. lia.
    + intros j Hj. rewrite testbit_ones64 by done. bdestruct; [done|lia].
    + exists r. split; [done|]. rewrite u64_zero_iff in Hz by done.
      assert (Hno : forall i, lo <= i < idx + 64 -> xorb inv (bit_at bits i) = false).
      { intros i Hi. specialize (Hz (i - idx) ltac:(lia)). rewrite Hbit in Hz by lia.
        replace (idx + (i - idx)) with i in Hz by lia.
        by rewrite (proj2 (Z.leb_le lo i)), andb_true_r in Hz by lia. }
      destruct Hnext as [[-> Hn]|(Hr1 & Hr2 & Hn)].
      * left. split; [done|]. intros i Hi.
        destruct (Z.lt_ge_cases i (idx + 64)); [apply Hno; lia|apply Hn; lia].
      * right. split_and!; [lia|lia|done|]. intros i Hi.
        destruct (Z.lt_ge_cases i (idx + 64)); [apply Hno; lia|apply Hn; lia].
  - destruct (ffsl_spec val Hval Hnz) as (Hf1 & Hf2 & Hf3).
    rewrite Hbit in Hf2 by done. apply andb_prop in Hf2 as [Hf2 Hf2']. bprop.
    assert (Hno : forall i, lo <= i < idx + (ffsl val - 1) -> xorb inv (bit_at bits i) = false).
    { intros i Hi. specialize (Hf3 (i - idx) ltac:(lia)). rewrite Hbit in Hf3 by lia.
      replace (idx + (i - idx)) with i in Hf3 by lia.
      by rewrite (proj2 (Z.leb_le lo i)), andb_true_r in Hf3 by lia. }
    eexists; split; [done|].
    destruct (Z.lt_ge_cases (idx + (ffsl val - 1)) nbits).
    + right. replace (Z.min (idx + ffsl val - 1) nbits) with (idx + (ffsl val - 1)) by lia.
      split_and!; [lia|lia|done|done].
    + left. split; [lia|]. intros i Hi. apply Hno. lia.
Qed.

Lemma align_down_64 pos : 0 <= pos -> align_down pos BITS_PER_LONG = 64 * (pos / 64).
Proof.
  intros Hp. unfold align_down, BITS_PER_LONG. rewrite <- Z.ldiff_land.
  change (64 - 1) with (Z.ones 6). rewrite Z.ldiff_ones_r by lia.
  rewrite Z.shiftl_mul_pow2, Z.shiftr_div_pow2 by lia. change (2 ^ 6) with 64. lia.
Qed.

Lemma bitmap_find_next_spec bits nbits pos inv :
  bitmap_wf bits -> bitmap_fits bits nbits -> 0 <= pos ->
  exists r, bitmap_find_next bits nbits pos inv = Some r /\
    is_next (fun i => xorb inv (bit_at bits i)) pos nbits r.
Proof.
  intros Hwf Hfit Hp. unfold bitmap_find_next. rewrite align_down_64 by done.
  apply find_next_loop_spec; try done; try ulia.
  - unfold bitmap_fits, BITS_PER_LONG in *.
    assert (0 <= nbits / 64) by ulia. rewrite Nat2Z.inj_succ, Z2Nat.id by lia. ulia.
  - apply u64_range.
  - intros j Hj. rewrite testbit_mask by done. unfold BITMAP_POS_SHIFT, BITS_PER_LONG.
    bdestruct; try done; ulia.
Qed.

(** The positions that satisfy [P] among those from [lo] up to [nb]. *)
Definition positions (P : Z -> bool) (lo nb : Z) : list Z :=
  filter (fun i => P i = true) (seqZ lo (nb - lo)).

Lemma positions_skip P lo r nb :
  lo <= r <= nb -> (forall i, lo <= i < r -> P i = false) ->
  positions P lo nb = positions P r nb.
Proof.
  intros Hr Hno. unfold positions.
  replace (nb - lo) with ((r - lo) + (nb - r)) by lia.
  rewrite seqZ_app, list.filter_app by lia.
  assert (Hnil : filter (fun i => P i = true) (seqZ lo (r - lo)) = []).
  { apply elem_of_nil_inv. intros i [HP Hi%elem_of_seqZ]%list_elem_of_filter.
    rewrite Hno in HP by lia. done. }
  rewrite Hnil. cbn. do 2 f_equal; lia.
Qed.

Lemma positions_next P lo nb r :
  lo <= nb -> is_next P lo nb r ->
  positions P lo nb = if r <? nb then r :: positions P (r + 1) nb else [].
Proof.
  intros Hlo [[-> Hno]|(Hr & HP & Hno)].
  - rewrite Z.ltb_irrefl, (positions_skip P lo nb nb) by (try done; lia).
    unfold positions. by rewrite Z.sub_diag.
  - rewrite (proj2 (Z.ltb_lt r nb)) by lia.
    rewrite (positions_skip P lo r nb) by (try done; lia). unfold positions.
    rewrite seqZ_cons by lia. rewrite filter_cons_True by done.
    do 3 f_equal; lia.
Qed.

Lemma for_each_loop_spec bits nbits inv n pos :
  bitmap_wf bits -> bitmap_fits bits nbits ->
  -1 <= pos < nbits \/ pos = -1 -> nbits - pos <= Z.of_nat n ->
  for_each_loop n bits nbits pos inv =
    Some (positions (fun i => xorb inv (bit_at bits i)) (pos + 1) nbits).
Proof.
  intros Hwf Hfit. revert pos. induction n as [|n IH]; intros pos Hpos Hn.
  { unfold bitmap_fits in Hfit. lia. }
  cbn [for_each_loop].
  destruct (bitmap_find_next_spec bits nbits (pos + 1) inv) as (r & -> & Hnext);
    [done|done|lia|].
  assert (Hn0 : 0 <= nbits) by apply Hfit.
  rewrite (positions_next _ (pos + 1) nbits r ltac:(lia) Hnext).
  destruct (Z.ltb_spec r nbits) as [Hlt|]; [|done].
  assert (pos + 1 <= r) by (destruct Hnext as [[? _]|[? _]]; lia).
  rewrite IH by lia. done.
Qed.

End arrays.

(** ** Properties *)

(**  [bitmap_for_each_set] visits exactly the set bits below [nbits], each
    once and in increasing order, for any bitmap whose array holds [nbits]
    bits (equivalence with filtering all positions by their bit). *)
Theorem bitmap_for_each_set_correct bits nbits :
  bitmap_wf bits -> bitmap_fits bits nbits ->
  bitmap_for_each_set bits nbits =
    Some (filter (fun i => bit_at bits i = true) (seqZ 0 nbits)).
Proof.
  intros Hwf Hfit. unfold bitmap_for_each_set.
  rewrite for_each_loop_spec by (try done; unfold bitmap_fits in Hfit; lia).
  unfold positions. by rewrite Z.sub_0_r.
Qed.

Lemma bitmap_for_each_set_correct_witness :
  bitmap_for_each_set [5; 2 ^ 63; 1] 140 = Some [0; 2; 127; 128].
Proof.
  rewrite (bitmap_for_each_set_correct [5; 2 ^ 63; 1] 140).
  - vm_compute. reflexivity.
  - repeat constructor; unfold in_u64, M64; lia.
  - split; vm_compute; discriminate.
Defined.
