(* ===== verification/Lrpc.v ===== *)
(** * base/lrpc.c, inc/base/lrpc.h: shared-memory channels

    One sender and one receiver share a table of [size] messages and the word
    [recv_head_wb].  The operations are modelled twice: as the functions of the
    source, and as a step relation whose steps are the individual shared-memory
    accesses of the two sides, interleaved arbitrarily. *)

From S2P Require Import Prelude Stddef.

(** ** Data *)

Record lrpc_msg := LrpcMsg { msg_cmd : Z; msg_payload : Z }.

Definition LRPC_DONE_PARITY : Z := 9223372036854775808.
Definition LRPC_CMD_MASK : Z := 9223372036854775807.

(** The memory both sides map: the table and the receiver's published head. *)
Record lrpc_shm := LrpcShm { tbl : list lrpc_msg; recv_head_wb : Z }.

Record lrpc_chan_out := LrpcOut { send_head : Z; send_tail : Z; out_size : Z }.
Record lrpc_chan_in := LrpcIn { recv_head : Z; in_size : Z }.

(** ** Operations *)

Definition slot (head size : Z) : nat := Z.to_nat (Z.land head (size - 1)).

Definition parity_of (head size : Z) : Z :=
  if negb (Z.land head size =? 0) then 0 else LRPC_DONE_PARITY.

(** An access outside the table is undefined behaviour: no result. *)
Definition tbl_read (m : lrpc_shm) (i : nat) : res lrpc_msg :=
  match tbl m !! i with Some x => Ok x | None => Bug end.

Definition store_payload (m : lrpc_shm) (i : nat) (payload : Z) : res lrpc_shm :=
  x ← tbl_read m i;
  Ok (LrpcShm (<[i := LrpcMsg (msg_cmd x) payload]> (tbl m)) (recv_head_wb m)).

Definition store_cmd (m : lrpc_shm) (i : nat) (cmd : Z) : res lrpc_shm :=
  x ← tbl_read m i;
  Ok (LrpcShm (<[i := LrpcMsg cmd (msg_payload x)]> (tbl m)) (recv_head_wb m)).

(** The slow path: refresh [send_tail] from the receiver before giving up. *)
Definition __lrpc_send (c : lrpc_chan_out) (m : lrpc_shm) (cmd payload : Z)
  : res (lrpc_chan_out * lrpc_shm * bool) :=
  _ ← BUG_ON (negb (u32 (send_head c - send_tail c) =? out_size c));
  let c := LrpcOut (send_head c) (recv_head_wb m) (out_size c) in
  if u32 (send_head c - send_tail c) =? out_size c then Ok (c, m, false) else
  let dst := slot (send_head c) (out_size c) in
  m ← store_payload m dst payload;
  let cmd := Z.lor cmd (parity_of (send_head c) (out_size c)) in
  m ← store_cmd m dst cmd;
  Ok (LrpcOut (u32 (send_head c + 1)) (send_tail c) (out_size c), m, true).

Definition lrpc_send (c : lrpc_chan_out) (m : lrpc_shm) (cmd payload : Z)
  : res (lrpc_chan_out * lrpc_shm * bool) :=
  _ ← BUG_ON (negb (Z.land cmd LRPC_DONE_PARITY =? 0));
  if out_size c <=? u32 (send_head c - send_tail c)
  then __lrpc_send c m cmd payload else
  let dst := slot (send_head c) (out_size c) in
  let cmd := Z.lor cmd (parity_of (send_head c) (out_size c)) in
  m ← store_payload m dst payload;
  m ← store_cmd m dst cmd;
  Ok (LrpcOut (u32 (send_head c + 1)) (send_tail c) (out_size c), m, true).

Definition lrpc_get_cached_send_window (c : lrpc_chan_out) : Z :=
  u32 (out_size c - send_head c + send_tail c).

Definition lrpc_get_cached_length (c : lrpc_chan_out) : Z :=
  u32 (send_head c - send_tail c).

Definition lrpc_poll_send_tail (c : lrpc_chan_out) (m : lrpc_shm)
  : lrpc_chan_out * Z :=
  (LrpcOut (send_head c) (recv_head_wb m) (out_size c), recv_head_wb m).

Definition lrpc_init_out (size : Z) : Z * option lrpc_chan_out :=
  if negb (is_power_of_two size) then (- EINVAL, None) else (0, Some (LrpcOut 0 0 size)).

Definition lrpc_init_in (size : Z) : Z * option lrpc_chan_in :=
  if negb (is_power_of_two size) then (- EINVAL, None) else (0, Some (LrpcIn 0 size)).

Definition lrpc_recv (c : lrpc_chan_in) (m : lrpc_shm)
  : res (lrpc_chan_in * lrpc_shm * option (Z * Z)) :=
  let i := slot (recv_head c) (in_size c) in
  x ← tbl_read m i;
  let cmd := msg_cmd x in
  if negb (Z.land cmd LRPC_DONE_PARITY =? parity_of (recv_head c) (in_size c))
  then Ok (c, m, None) else
  let c := LrpcIn (u32 (recv_head c + 1)) (in_size c) in
  Ok (c, LrpcShm (tbl m) (recv_head c),
      Some (Z.land cmd LRPC_CMD_MASK, msg_payload x)).

Definition lrpc_empty (c : lrpc_chan_in) (m : lrpc_shm) : res bool :=
  x ← tbl_read m (slot (recv_head c) (in_size c));
  Ok (negb (Z.land (msg_cmd x) LRPC_DONE_PARITY =? parity_of (recv_head c) (in_size c))).

(** ** The two sides as interleaved steps

    Each step is one access to shared memory; [sent] and [rcvd] record the
    messages whose send, respectively receive, took effect. *)

Inductive sender_pc :=
| SIdle
| SRoom (cmd payload : Z)      (* there is room for the message *)
| SPayload (cmd payload : Z).  (* its payload is in the table *)

Inductive receiver_pc :=
| RIdle
| RSeen (cmd : Z)              (* a command word with the right parity was loaded *)
| RTaken.                      (* the payload was read, the head not yet published *)

Record chan_state := Chan {
  st_out : lrpc_chan_out; st_in : lrpc_chan_in; st_mem : lrpc_shm;
  st_spc : sender_pc; st_rpc : receiver_pc;
  sent : list (Z * Z); rcvd : list (Z * Z) }.

Inductive chan_step : chan_state -> chan_state -> Prop :=
| step_send_fast o i m rp sn rc cmd payload :
    in_u64 cmd -> Z.land cmd LRPC_DONE_PARITY = 0 ->
    u32 (send_head o - send_tail o) < out_size o ->
    chan_step (Chan o i m SIdle rp sn rc) (Chan o i m (SRoom cmd payload) rp sn rc)
| step_send_refresh o i m rp sn rc cmd payload :
    in_u64 cmd -> Z.land cmd LRPC_DONE_PARITY = 0 ->
    out_size o <= u32 (send_head o - send_tail o) ->
    u32 (send_head o - recv_head_wb m) <> out_size o ->
    chan_step (Chan o i m SIdle rp sn rc)
      (Chan (LrpcOut (send_head o) (recv_head_wb m) (out_size o)) i m
         (SRoom cmd payload) rp sn rc)
| step_send_full o i m rp sn rc :
    out_size o <= u32 (send_head o - send_tail o) ->
    u32 (send_head o - recv_head_wb m) = out_size o ->
    chan_step (Chan o i m SIdle rp sn rc)
      (Chan (LrpcOut (send_head o) (recv_head_wb m) (out_size o)) i m SIdle rp sn rc)
| step_send_payload o i m m' rp sn rc cmd payload :
    store_payload m (slot (send_head o) (out_size o)) payload = Ok m' ->
    chan_step (Chan o i m (SRoom cmd payload) rp sn rc)
      (Chan o i m' (SPayload cmd payload) rp sn rc)
| step_send_publish o i m m' rp sn rc cmd payload :
    store_cmd m (slot (send_head o) (out_size o))
      (Z.lor cmd (parity_of (send_head o) (out_size o))) = Ok m' ->
    chan_step (Chan o i m (SPayload cmd payload) rp sn rc)
      (Chan (LrpcOut (u32 (send_head o + 1)) (send_tail o) (out_size o)) i m' SIdle rp
         (sn ++ [(cmd, payload)]) rc)
| step_recv_load o i m sp sn rc x :
    tbl_read m (slot (recv_head i) (in_size i)) = Ok x ->
    Z.land (msg_cmd x) LRPC_DONE_PARITY = parity_of (recv_head i) (in_size i) ->
    chan_step (Chan o i m sp RIdle sn rc) (Chan o i m sp (RSeen (msg_cmd x)) sn rc)
| step_recv_read o i m sp sn rc x cmd :
    tbl_read m (slot (recv_head i) (in_size i)) = Ok x ->
    chan_step (Chan o i m sp (RSeen cmd) sn rc)
      (Chan o (LrpcIn (u32 (recv_head i + 1)) (in_size i)) m sp RTaken sn
         (rc ++ [(Z.land cmd LRPC_CMD_MASK, msg_payload x)]))
| step_recv_publish o i m sp sn rc :
    chan_step (Chan o i m sp RTaken sn rc)
      (Chan o i (LrpcShm (tbl m) (recv_head i)) sp RIdle sn rc).

(** The channel right after both [lrpc_init_*] calls on a zeroed region. *)
Definition chan_init (size : Z) : chan_state :=
  Chan (LrpcOut 0 0 size) (LrpcIn 0 size)
    (LrpcShm (replicate (Z.to_nat size) (LrpcMsg 0 0)) 0) SIdle RIdle [] [].

(** ** Ring arithmetic

    [k] is the exponent of the power-of-two size; positions count the messages
    since initialization and are not wrapped. *)

Section ring.
Context (k : Z) (Hk : 0 <= k < 32).

Definition par (p : Z) : Z := if Z.testbit p k then 0 else LRPC_DONE_PARITY.
Definition ring (p : Z) : nat := Z.to_nat (p mod 2 ^ k).

Lemma size_pos : 0 < 2 ^ k <= 2147483648.
Proof using Hk.
  split; [apply Z.pow_pos_nonneg; lia|].
  change 2147483648 with (2 ^ 31). apply Z.pow_le_mono_r; lia.
Qed.

Lemma u32_testbit p : Z.testbit (u32 p) k = Z.testbit p k.
Proof using Hk. change (u32 p) with (p mod 2 ^ 32). by rewrite Z.mod_pow2_bits_low by lia. Qed.

Lemma slot_ring p : slot (u32 p) (2 ^ k) = ring p.
Proof using Hk.
  unfold slot, ring. replace (2 ^ k - 1) with (Z.ones k) by (rewrite Z.ones_equiv; lia).
  rewrite Z.land_ones by lia. f_equal. unfold u32. change M32 with (2 ^ 32).
  apply Z.mod_mod_divide.
  exists (2 ^ (32 - k)). rewrite <- Z.pow_add_r by lia. f_equal. lia.
Qed.

Lemma parity_of_par p : parity_of (u32 p) (2 ^ k) = par p.
Proof using Hk.
  unfold parity_of, par. rewrite <- (u32_testbit p).
  destruct (Z.testbit (u32 p) k) eqn:E.
  - destruct (Z.eqb_spec (Z.land (u32 p) (2 ^ k)) 0) as [Hz|]; [|done].
    apply (f_equal (fun x => Z.testbit x k)) in Hz.
    rewrite Z.land_spec, E, Z.pow2_bits_true, Z.testbit_0_l in Hz by lia. done.
  - replace (Z.land (u32 p) (2 ^ k)) with 0; [done|]. symmetry.
    apply Z.bits_inj'. intros n Hn. rewrite Z.land_spec, Z.testbit_0_l.
    destruct (Z.eq_dec k n) as [<-|]; [by rewrite E|].
    rewrite Z.pow2_bits_false by lia. apply andb_false_r.
Qed.

(** One lap later the expected parity is the other one. *)
Lemma par_next_lap p : par (p + 2 ^ k) <> par p.
Proof using Hk.
  unfold par. pose proof size_pos as Hs.
  assert (Hodd : forall x, Z.testbit x k = Z.odd (x / 2 ^ k)).
  { intros x. rewrite Z.testbit_odd, Z.shiftr_div_pow2 by lia. done. }
  rewrite !Hodd. replace (p + 2 ^ k) with (p + 1 * 2 ^ k) by lia.
  rewrite Z.div_add, Z.odd_add by lia. by destruct (Z.odd (p / 2 ^ k)).
Qed.

Lemma ring_bound p : 0 <= p mod 2 ^ k < 2 ^ k.
Proof using Hk. pose proof size_pos. apply Z.mod_pos_bound. lia. Qed.

Lemma ring_lt p : (ring p < Z.to_nat (2 ^ k))%nat.
Proof using Hk. unfold ring. pose proof (ring_bound p). apply Z2Nat.inj_lt; lia. Qed.

Lemma ring_inj p q : ring p = ring q -> - (2 ^ k) < p - q < 2 ^ k -> p = q.
Proof using Hk.
  unfold ring. intros H Hpq. pose proof size_pos as Hs.
  pose proof (ring_bound p). pose proof (ring_bound q).
  apply Z2Nat.inj in H; [|lia|lia].
  pose proof (Z.div_mod p (2 ^ k) ltac:(lia)). pose proof (Z.div_mod q (2 ^ k) ltac:(lia)).
  set (s := 2 ^ k) in *. clearbody s.
  assert (Hd : s * (p / s - q / s) = p - q) by lia.
  assert (p / s - q / s = 0) by (generalize dependent (p / s - q / s); intros; nia). nia.
Qed.

Lemma ring_lap p : ring (p + 2 ^ k) = ring p.
Proof using Hk.
  unfold ring. f_equal. pose proof size_pos.
  replace (p + 2 ^ k) with (p + 1 * 2 ^ k) by lia. by rewrite Z.mod_add by lia.
Qed.

(** Decoding an encoded command word. *)
Lemma cmd_small c : in_u64 c -> Z.land c LRPC_DONE_PARITY = 0 -> 0 <= c < LRPC_DONE_PARITY.
Proof using.
  intros Hc Hz. unfold in_u64 in Hc.
  assert (Hb : Z.testbit c 63 = false).
  { apply (f_equal (fun x => Z.testbit x 63)) in Hz.
    rewrite Z.land_spec, Z.testbit_0_l in Hz. change LRPC_DONE_PARITY with (2 ^ 63) in Hz.
    rewrite Z.pow2_bits_true, andb_true_r in Hz by lia. done. }
  split; [lia|]. rewrite Z.testbit_odd, Z.shiftr_div_pow2 in Hb by lia.
  change LRPC_DONE_PARITY with (2 ^ 63). change M64 with (2 * 2 ^ 63) in Hc.
  assert (c / 2 ^ 63 < 2) by (apply Z.div_lt_upper_bound; lia).
  assert (0 <= c / 2 ^ 63) by (apply Z.div_pos; lia).
  destruct (Z.eq_dec (c / 2 ^ 63) 1) as [E|]; [by rewrite E in Hb|].
  assert (E : c / 2 ^ 63 = 0) by lia. apply Z.div_small_iff in E; lia.
Qed.

Lemma land_parity_small c : 0 <= c < LRPC_DONE_PARITY -> Z.land c LRPC_DONE_PARITY = 0.
Proof using.
  intros Hc. apply Z.bits_inj'. intros n Hn. rewrite Z.land_spec, Z.testbit_0_l.
  change LRPC_DONE_PARITY with (2 ^ 63) in *.
  destruct (Z.eq_dec 63 n) as [<-|]; [|rewrite Z.pow2_bits_false by lia; apply andb_false_r].
  rewrite <- (Z.mod_small c (2 ^ 63)) by lia. by rewrite Z.mod_pow2_bits_high by lia.
Qed.

Lemma par_cases p : par p = 0 \/ par p = LRPC_DONE_PARITY.
Proof using. unfold par. destruct (Z.testbit p k); auto. Qed.

Lemma decode_parity c p :
  0 <= c < LRPC_DONE_PARITY -> Z.land (Z.lor c (par p)) LRPC_DONE_PARITY = par p.
Proof using.
  intros Hc. rewrite Z.land_lor_distr_l, land_parity_small, Z.lor_0_l by done.
  by destruct (par_cases p) as [-> | ->].
Qed.

Lemma decode_cmd c p :
  0 <= c < LRPC_DONE_PARITY -> Z.land (Z.lor c (par p)) LRPC_CMD_MASK = c.
Proof using.
  intros Hc. rewrite Z.land_lor_distr_l.
  replace (Z.land (par p) LRPC_CMD_MASK) with 0 by (by destruct (par_cases p) as [-> | ->]).
  rewrite Z.lor_0_r. change LRPC_CMD_MASK with (Z.ones 63).
  rewrite Z.land_ones by lia. apply Z.mod_small. done.
Qed.

End ring.

(** ** Invariant *)

(** What the table holds while the messages [W..H) are in flight: each of them
    encoded in its slot, and in every slot still free for the sender a command
    word whose parity makes the receiver see an empty slot. *)
Definition tbl_inv (k : Z) (t : list lrpc_msg) (sn : list (Z * Z)) (W H : Z) : Prop :=
  length t = Z.to_nat (2 ^ k) /\
  (forall p c y, W <= p < H -> sn !! Z.to_nat p = Some (c, y) ->
     t !! ring k p = Some (LrpcMsg (Z.lor c (par k p)) y)) /\
  (forall q x, H <= q < W + 2 ^ k -> t !! ring k q = Some x ->
     Z.land (msg_cmd x) LRPC_DONE_PARITY <> par k q).

Record chan_inv (k : Z) (s : chan_state) (T W : Z) : Prop := {
  ci_osize : out_size (st_out s) = 2 ^ k;
  ci_isize : in_size (st_in s) = 2 ^ k;
  ci_head : send_head (st_out s) = u32 (Z.of_nat (length (sent s)));
  ci_tail : send_tail (st_out s) = u32 T;
  ci_rhead : recv_head (st_in s) = u32 (Z.of_nat (length (rcvd s)));
  ci_wb : recv_head_wb (st_mem s) = u32 W;
  ci_order : 0 <= T <= W /\ W <= Z.of_nat (length (rcvd s)) <= Z.of_nat (length (sent s));
  ci_bound : Z.of_nat (length (sent s)) - T <= 2 ^ k;
  ci_cmds : Forall (fun x => 0 <= x.1 < LRPC_DONE_PARITY) (sent s);
  ci_tbl : tbl_inv k (tbl (st_mem s)) (sent s) W (Z.of_nat (length (sent s)));
  ci_rcvd : rcvd s = take (length (rcvd s)) (sent s);
  ci_spc : match st_spc s with
           | SIdle => True
           | SRoom c y => 0 <= c < LRPC_DONE_PARITY /\ Z.of_nat (length (sent s)) - T < 2 ^ k
           | SPayload c y =>
               0 <= c < LRPC_DONE_PARITY /\ Z.of_nat (length (sent s)) - T < 2 ^ k /\
               exists c0, tbl (st_mem s) !! ring k (Z.of_nat (length (sent s))) = Some (LrpcMsg c0 y)
           end;
  ci_rpc : match st_rpc s with
           | RIdle => W = Z.of_nat (length (rcvd s))
           | RSeen cmd =>
               W = Z.of_nat (length (rcvd s)) /\
               exists c y, sent s !! length (rcvd s) = Some (c, y) /\
                 cmd = Z.lor c (par k W)
           | RTaken => W = Z.of_nat (length (rcvd s)) - 1
           end }.

Section tbl_inv.
Context (k : Z) (Hk : 0 <= k < 32).
Implicit Types (t : list lrpc_msg) (sn : list (Z * Z)).

Lemma tbl_lookup_slot t sn W H p : tbl_inv k t sn W H -> is_Some (t !! ring k p).
Proof using Hk. intros [Hl _]. apply lookup_lt_is_Some_2. rewrite Hl. by apply ring_lt. Qed.

Lemma tbl_inv_init size sn :
  size = 2 ^ k -> tbl_inv k (replicate (Z.to_nat size) (LrpcMsg 0 0)) sn 0 0.
Proof using Hk.
  intros ->. split_and!; [by rewrite length_replicate|lia|].
  intros q x Hq Hx. apply lookup_replicate in Hx as [-> _]. cbn. unfold par.
  rewrite Z.testbit_odd, Z.shiftr_div_pow2, Z.div_small by lia. done.
Qed.

(** The sender may write the payload of the free slot [H] at any time. *)
Lemma tbl_inv_payload t sn W H c0 y0 y :
  tbl_inv k t sn W H -> W <= H < W + 2 ^ k ->
  t !! ring k H = Some (LrpcMsg c0 y0) ->
  tbl_inv k (<[ring k H := LrpcMsg c0 y]> t) sn W H.
Proof using Hk.
  intros (Hl & Hpub & Hfree) HW Ht. split_and!.
  - by rewrite length_insert.
  - intros p c y' Hp Hs. rewrite list_lookup_insert_ne; [by apply Hpub|].
    intros Heq%ring_inj; lia.
  - intros q x Hq Hx. destruct (decide (ring k H = ring k q)) as [E|E].
    + apply ring_inj in E as <-; [|lia|lia].
      rewrite list_lookup_insert_eq in Hx by (rewrite Hl; by apply ring_lt).
      simplify_eq. by apply (Hfree H (LrpcMsg c0 y0)).
    + rewrite list_lookup_insert_ne in Hx by done. by eapply Hfree.
Qed.

(** Storing the command word puts message [H] in flight. *)
Lemma tbl_inv_publish t sn W c y :
  let H := Z.of_nat (length sn) in
  tbl_inv k t sn W H -> 0 <= W <= H -> H < W + 2 ^ k ->
  tbl_inv k (<[ring k H := LrpcMsg (Z.lor c (par k H)) y]> t) (sn ++ [(c, y)]) W (H + 1).
Proof using Hk.
  intros H (Hl & Hpub & Hfree) HW HH. split_and!.
  - by rewrite length_insert.
  - intros p c' y' Hp Hs. destruct (Z.eq_dec p H) as [->|Hne].
    + subst H. rewrite Nat2Z.id, lookup_app_r, Nat.sub_diag in Hs by lia. cbn in Hs. simplify_eq.
      rewrite list_lookup_insert_eq; [done|]. rewrite Hl. by apply ring_lt.
    + rewrite lookup_app_l in Hs by lia.
      rewrite list_lookup_insert_ne; [by apply Hpub; [lia|]|].
      intros Heq%ring_inj; lia.
  - intros q x Hq Hx. rewrite list_lookup_insert_ne in Hx by (intros Heq%ring_inj; lia).
    eapply Hfree; [|done]. lia.
Qed.

(** Publishing the receiver's head frees the slot of the oldest message. *)
Lemma tbl_inv_consume t sn W H c y :
  tbl_inv k t sn W H -> 0 <= W < H -> sn !! Z.to_nat W = Some (c, y) ->
  0 <= c < LRPC_DONE_PARITY ->
  tbl_inv k t sn (W + 1) H.
Proof using Hk.
  intros (Hl & Hpub & Hfree) HW Hs Hc. split_and!; [done| |].
  - intros p c' y' Hp Hs'. apply Hpub; [lia|done].
  - intros q x Hq Hx. destruct (Z.eq_dec q (W + 2 ^ k)) as [->|]; [|apply Hfree; [lia|done]].
    rewrite ring_lap, (Hpub W c y) in Hx by (try done; lia). simplify_eq. cbn.
    rewrite decode_parity by done. apply not_eq_sym. by apply par_next_lap.
Qed.

(** What a load of slot [R] tells the receiver. *)
Lemma tbl_inv_load t sn R H x :
  tbl_inv k t sn R H -> 0 <= R <= H -> H = Z.of_nat (length sn) -> H - R <= 2 ^ k ->
  Forall (fun x => 0 <= x.1 < LRPC_DONE_PARITY) sn ->
  t !! ring k R = Some x ->
  if decide (R < H)
  then exists c y, sn !! Z.to_nat R = Some (c, y) /\ x = LrpcMsg (Z.lor c (par k R)) y /\
         Z.land (msg_cmd x) LRPC_DONE_PARITY = par k R /\ 0 <= c < LRPC_DONE_PARITY
  else Z.land (msg_cmd x) LRPC_DONE_PARITY <> par k R.
Proof using Hk.
  intros (Hl & Hpub & Hfree) HR HH Hsz Hcm Hx. case_decide as Hlt.
  - destruct (lookup_lt_is_Some_2 sn (Z.to_nat R)) as [[c y] Hs]; [lia|].
    exists c, y. rewrite (Hpub R c y) in Hx by (try done; lia). simplify_eq.
    eapply Forall_lookup_1 in Hcm as Hc; [|done]. cbn in Hc.
    split_and!; try done; [by apply decode_parity|lia|lia].
  - pose proof (size_pos k Hk). eapply (Hfree R); [lia|done].
Qed.

End tbl_inv.

(** ** Every interleaving preserves the invariant *)

Lemma u32_distance a b : 0 <= a - b < M32 -> u32 (u32 a - u32 b) = a - b.
Proof. intros H. autorewrite with cint. by apply u32_id. Qed.

Lemma tbl_read_ok m i x : tbl_read m i = Ok x <-> tbl m !! i = Some x.
Proof. unfold tbl_read. destruct (tbl m !! i); naive_solver. Qed.

Lemma store_payload_ok m m' i y :
  store_payload m i y = Ok m' ->
  exists c0 y0, tbl m !! i = Some (LrpcMsg c0 y0) /\
    m' = LrpcShm (<[i := LrpcMsg c0 y]> (tbl m)) (recv_head_wb m).
Proof.
  unfold store_payload. intros ([c0 y0] & Hx%tbl_read_ok & H)%res_bind_ok. naive_solver.
Qed.

Lemma store_cmd_ok m m' i c :
  store_cmd m i c = Ok m' ->
  exists c0 y0, tbl m !! i = Some (LrpcMsg c0 y0) /\
    m' = LrpcShm (<[i := LrpcMsg c y0]> (tbl m)) (recv_head_wb m).
Proof.
  unfold store_cmd. intros ([c0 y0] & Hx%tbl_read_ok & H)%res_bind_ok. naive_solver.
Qed.

Lemma chan_inv_init k : 0 <= k < 32 -> chan_inv k (chan_init (2 ^ k)) 0 0.
Proof.
  intros Hk. pose proof (size_pos k Hk). constructor; cbn; try done; try lia.
  by apply tbl_inv_init.
Qed.

Lemma rcvd_snoc {A} (l r : list A) x :
  r = take (length r) l -> l !! length r = Some x -> r ++ [x] = take (length (r ++ [x])) l.
Proof.
  intros Hr Hx. rewrite length_app. cbn. rewrite Nat.add_1_r, (take_S_r _ _ x) by done.
  by f_equal.
Qed.

Section steps.
Context (k : Z) (Hk : 0 <= k < 32).

(** Sender steps leave [T] and [W] at most refreshed from the shared word. *)
Lemma chan_step_inv s s' T W :
  chan_step s s' -> chan_inv k s T W -> exists T' W', chan_inv k s' T' W'.
Proof using Hk.
  intros Hstep Hinv. pose proof (size_pos k Hk) as Hsz.
  destruct Hinv as [Ho Hi Hh Ht Hr Hw Hord Hb Hc Htbl Hrc Hs Hp].
  destruct Hstep as [o i m rp sn rc cmd y Hin Hcmd Hroom | o i m rp sn rc cmd y Hin Hcmd Hfull Hroom
    | o i m rp sn rc Hfull Hroom | o i m m' rp sn rc cmd y Hst | o i m m' rp sn rc cmd y Hst
    | o i m sp sn rc x Hx Hpar | o i m sp sn rc x cmd Hx | o i m sp sn rc]; cbn in *.
  - exists T, W. constructor; cbn; try done. split; [by apply cmd_small|].
    rewrite Hh, Ht, Ho, u32_distance in Hroom by (unfold M32; lia). lia.
  - exists W, W. constructor; cbn; try done; try lia. split; [by apply cmd_small|].
    rewrite Hh, Hw, Ho, u32_distance in Hroom by (unfold M32; lia). lia.
  - exists W, W. constructor; cbn; try done; lia.
  - exists T, W. apply store_payload_ok in Hst as (c0 & y0 & Hl & ->).
    rewrite Hh, Ho, slot_ring in * by done.
    constructor; cbn; try done.
    + eapply tbl_inv_payload; [done|done|lia|done].
    + destruct Hs. split_and!; [lia|lia|done|]. exists c0.
      rewrite list_lookup_insert_eq; [done|]. by eapply lookup_lt_Some.
  - exists T, W. destruct Hs as (Hcm & Hlt & c0 & Hpay).
    apply store_cmd_ok in Hst as (c1 & y1 & Hl & ->).
    rewrite Hh, Ho, slot_ring, parity_of_par in * by done.
    rewrite Hpay in Hl. simplify_eq.
    constructor; cbn; try done; try (rewrite length_app; cbn; lia).
    + rewrite length_app. cbn. autorewrite with cint. f_equal. lia.
    + apply Forall_app. split; [done|]. by apply Forall_singleton.
    + rewrite length_app. cbn. rewrite Nat2Z.inj_add. apply tbl_inv_publish; [done|done|lia|lia].
    + rewrite Hrc at 1. rewrite take_app_le by lia. done.
    + destruct rp; try done. destruct Hp as (-> & c & y' & Hs & ->). split; [done|].
      exists c, y'. split; [|done]. by apply lookup_app_l_Some.
  - exists T, W. subst W. rewrite Hr, Hi, slot_ring, parity_of_par in * by done.
    apply tbl_read_ok in Hx. constructor; cbn; try done. split; [done|].
    eapply tbl_inv_load in Hx; try done; try lia. case_decide; [|done].
    destruct Hx as (c & y & Hs' & -> & _ & _). exists c, y. by rewrite Nat2Z.id in Hs'.
  - exists T, W. destruct Hp as (-> & c & y & Hsn & ->).
    rewrite Hr, Hi, slot_ring in * by done. apply tbl_read_ok in Hx.
    pose proof (lookup_lt_Some _ _ _ Hsn) as Hlt.
    eapply tbl_inv_load in Hx; try done; try lia. case_decide; [|lia].
    destruct Hx as (c' & y' & Hs' & -> & _ & Hc'). rewrite Nat2Z.id, Hsn in Hs'. simplify_eq.
    constructor; cbn; try done; try (rewrite length_app; cbn; lia).
    + rewrite length_app. cbn. autorewrite with cint. f_equal. lia.
    + rewrite decode_cmd by done. by apply rcvd_snoc.
  - exists T, (W + 1). subst W. rewrite Hr.
    constructor; cbn; try done; try lia; [f_equal; lia|].
    destruct (lookup_lt_is_Some_2 sn (length rc - 1)) as [[c y] Hs']; [lia|].
    eapply Forall_lookup_1 in Hc as Hcc; [|done].
    eapply (tbl_inv_consume k Hk _ _ _ _ c y); [done|lia| |done].
    rewrite <- Hs'. f_equal. lia.
Qed.

Lemma chan_reachable_inv s :
  rtc chan_step (chan_init (2 ^ k)) s -> exists T W, chan_inv k s T W.
Proof using Hk.
  intros Hr. assert (Hi : exists T W, chan_inv k (chan_init (2 ^ k)) T W).
  { exists 0, 0. by apply chan_inv_init. }
  induction Hr as [s|s1 s2 s3 H12 H23 IH]; [done|].
  destruct Hi as (T & W & Hi). eapply IH, chan_step_inv; done.
Qed.

End steps.

(** ** The functions refine a bounded FIFO queue

    Calls that do not overlap are runs of the steps above from idle to idle, so
    the same invariant relates the channel to the queue [drop (length rcvd) sent]. *)

Inductive chan_op := OpSend (cmd payload : Z) | OpRecv.
Inductive chan_reply := Sent (ok : bool) | Received (msg : option (Z * Z)).

Definition run_op (c : lrpc_chan_out * lrpc_chan_in * lrpc_shm) (op : chan_op)
  : res (lrpc_chan_out * lrpc_chan_in * lrpc_shm * chan_reply) :=
  let '(o, i, m) := c in
  match op with
  | OpSend cmd y => r ← lrpc_send o m cmd y; let '(o, m, b) := r in Ok (o, i, m, Sent b)
  | OpRecv => r ← lrpc_recv i m; let '(i, m, x) := r in Ok (o, i, m, Received x)
  end.

Fixpoint run_ops (c : lrpc_chan_out * lrpc_chan_in * lrpc_shm) (ops : list chan_op)
  : res (list chan_reply) :=
  match ops with
  | [] => Ok []
  | op :: ops =>
      r ← run_op c op; let '(c, x) := r in xs ← run_ops c ops; Ok (x :: xs)
  end.

(** The specification: a FIFO queue of at most [size] messages. *)
Definition queue_op (size : Z) (q : list (Z * Z)) (op : chan_op) : list (Z * Z) * chan_reply :=
  match op with
  | OpSend cmd y =>
      if Z.of_nat (length q) <? size then (q ++ [(cmd, y)], Sent true) else (q, Sent false)
  | OpRecv => match q with [] => ([], Received None) | x :: q => (q, Received (Some x)) end
  end.

Fixpoint queue_ops (size : Z) (q : list (Z * Z)) (ops : list chan_op) : list chan_reply :=
  match ops with
  | [] => []
  | op :: ops => let '(q, x) := queue_op size q op in x :: queue_ops size q ops
  end.

Definition op_ok (op : chan_op) : Prop :=
  match op with
  | OpSend cmd _ => in_u64 cmd /\ Z.land cmd LRPC_DONE_PARITY = 0
  | OpRecv => True
  end.

Definition chan_rep (k : Z) (c : lrpc_chan_out * lrpc_chan_in * lrpc_shm) (q : list (Z * Z)) : Prop :=
  let '(o, i, m) := c in
  exists sn rc T W, chan_inv k (Chan o i m SIdle RIdle sn rc) T W /\ q = drop (length rc) sn.

Section refinement.
Context (k : Z) (Hk : 0 <= k < 32).

Lemma store_slot_total m sn W H p :
  tbl_inv k (tbl m) sn W H -> exists x, tbl_read m (ring k p) = Ok x.
Proof using Hk.
  intros Ht. destruct (tbl_lookup_slot k Hk _ _ _ _ p Ht) as [x Hx]. exists x.
  by apply tbl_read_ok.
Qed.

(** From a state with room, the two stores of a send complete. *)
Lemma send_stores o i m sn rc T W cmd y :
  chan_inv k (Chan o i m (SRoom cmd y) RIdle sn rc) T W ->
  exists m1 m2 T' W',
    store_payload m (slot (send_head o) (out_size o)) y = Ok m1 /\
    store_cmd m1 (slot (send_head o) (out_size o))
      (Z.lor cmd (parity_of (send_head o) (out_size o))) = Ok m2 /\
    chan_inv k (Chan (LrpcOut (u32 (send_head o + 1)) (send_tail o) (out_size o)) i m2 SIdle RIdle
      (sn ++ [(cmd, y)]) rc) T' W'.
Proof using Hk.
  intros Hi. pose proof (ci_tbl _ _ _ _ Hi) as Ht. cbn in Ht.
  assert (Hslot : slot (send_head o) (out_size o) = ring k (Z.of_nat (length sn))).
  { pose proof (ci_head _ _ _ _ Hi) as Eh. pose proof (ci_osize _ _ _ _ Hi) as Es.
    cbn in Eh, Es. rewrite Eh, Es. by apply slot_ring. }
  destruct (store_slot_total _ _ _ _ (Z.of_nat (length sn)) Ht) as [x1 Hx1].
  assert (H1 : exists m1, store_payload m (slot (send_head o) (out_size o)) y = Ok m1).
  { unfold store_payload. rewrite Hslot, Hx1. by eexists. }
  destruct H1 as [m1 H1].
  destruct (chan_step_inv k Hk _ _ _ _ (step_send_payload o i m m1 RIdle sn rc cmd y H1) Hi)
    as (T1 & W1 & Hi1).
  destruct (store_slot_total _ _ _ _ (Z.of_nat (length sn)) (ci_tbl _ _ _ _ Hi1)) as [x2 Hx2].
  assert (H2 : exists m2, store_cmd m1 (slot (send_head o) (out_size o))
      (Z.lor cmd (parity_of (send_head o) (out_size o))) = Ok m2).
  { unfold store_cmd. cbn in Hx2. rewrite Hslot, Hx2. by eexists. }
  destruct H2 as [m2 H2].
  destruct (chan_step_inv k Hk _ _ _ _ (step_send_publish o i m1 m2 RIdle sn rc cmd y H2) Hi1)
    as (T2 & W2 & Hi2).
  eauto 10.
Qed.

Lemma inv_distance o i m sp rp sn rc T W :
  chan_inv k (Chan o i m sp rp sn rc) T W ->
  u32 (send_head o - send_tail o) = Z.of_nat (length sn) - T /\
  u32 (send_head o - recv_head_wb m) = Z.of_nat (length sn) - W /\
  out_size o = 2 ^ k /\ 0 <= T <= W /\ Z.of_nat (length sn) - T <= 2 ^ k.
Proof using Hk.
  intros [Ho _ Hh Ht _ Hw Hord Hb _ _ _ _ _]; cbn in *. pose proof (size_pos k Hk).
  rewrite Hh, Ht, Hw, !u32_distance by (unfold M32; lia). lia.
Qed.

Lemma lrpc_send_rep o i m q cmd y :
  op_ok (OpSend cmd y) -> chan_rep k (o, i, m) q ->
  exists c', run_op (o, i, m) (OpSend cmd y) = Ok (c', (queue_op (2 ^ k) q (OpSend cmd y)).2) /\
    chan_rep k c' (queue_op (2 ^ k) q (OpSend cmd y)).1.
Proof using Hk.
  intros [Hin Hcm] (sn & rc & T & W & Hi & ->). cbn [run_op queue_op].
  destruct (inv_distance _ _ _ _ _ _ _ _ _ Hi) as (Hd1 & Hd2 & Hsz & HTW & HHT).
  pose proof (ci_rpc _ _ _ _ Hi) as Hrc. pose proof (ci_order _ _ _ _ Hi) as Hord. cbn in Hrc, Hord.
  rewrite length_drop, Nat2Z.inj_sub by lia.
  unfold lrpc_send. rewrite Hcm. cbn [Z.eqb negb BUG_ON mbind res_bind].
  rewrite Hd1, Hsz.
  destruct (Z.leb_spec (2 ^ k) (Z.of_nat (length sn) - T)) as [Hfull|Hroom].
  - unfold __lrpc_send. rewrite Hsz, Hd1.
    replace (Z.of_nat (length sn) - T =? 2 ^ k) with true by (symmetry; apply Z.eqb_eq; lia).
    cbn [negb BUG_ON mbind res_bind send_head send_tail out_size]. rewrite Hd2.
    destruct (Z.eqb_spec (Z.of_nat (length sn) - W) (2 ^ k)) as [Heq|Hne].
    + destruct (chan_step_inv k Hk _ _ _ _
        (step_send_full o i m RIdle sn rc ltac:(rewrite Hsz, Hd1; lia) ltac:(rewrite Hd2, Hsz; lia)) Hi)
        as (T' & W' & Hi').
      replace (Z.of_nat (length sn) - Z.of_nat (length rc) <? 2 ^ k) with false
        by (symmetry; apply Z.ltb_ge; lia).
      rewrite Hsz in Hi'. eexists; split; [done|]. do 4 eexists. split; [done|done].
    + destruct (chan_step_inv k Hk _ _ _ _
        (step_send_refresh o i m RIdle sn rc cmd y Hin Hcm ltac:(rewrite Hsz, Hd1; lia)
           ltac:(rewrite Hd2, Hsz; lia)) Hi) as (T' & W' & Hi').
      destruct (send_stores _ _ _ _ _ _ _ _ _ Hi') as (m1 & m2 & T2 & W2 & H1 & H2 & Hi2).
      cbn [send_head send_tail out_size] in *. rewrite Hsz in *. rewrite H1. cbn [mbind res_bind].
      rewrite H2. cbn [mbind res_bind].
      replace (Z.of_nat (length sn) - Z.of_nat (length rc) <? 2 ^ k) with true
        by (symmetry; apply Z.ltb_lt; lia).
      eexists; split; [done|]. do 4 eexists. split; [done|]. cbn.
      by rewrite drop_app_le by lia.
  - destruct (chan_step_inv k Hk _ _ _ _
      (step_send_fast o i m RIdle sn rc cmd y Hin Hcm ltac:(rewrite Hsz, Hd1; lia)) Hi)
      as (T' & W' & Hi').
    destruct (send_stores _ _ _ _ _ _ _ _ _ Hi') as (m1 & m2 & T2 & W2 & H1 & H2 & Hi2).
    rewrite Hsz in H1, H2, Hi2.
    rewrite H1. cbn [mbind res_bind]. rewrite H2. cbn [mbind res_bind].
    replace (Z.of_nat (length sn) - Z.of_nat (length rc) <? 2 ^ k) with true
      by (symmetry; apply Z.ltb_lt; lia).
    eexists; split; [done|]. do 4 eexists. split; [done|]. cbn.
    by rewrite drop_app_le by lia.
Qed.

Lemma lrpc_recv_rep o i m q :
  chan_rep k (o, i, m) q ->
  exists c', run_op (o, i, m) OpRecv = Ok (c', (queue_op (2 ^ k) q OpRecv).2) /\
    chan_rep k c' (queue_op (2 ^ k) q OpRecv).1.
Proof using Hk.
  intros (sn & rc & T & W & Hi & ->). cbn [run_op].
  destruct (inv_distance _ _ _ _ _ _ _ _ _ Hi) as (_ & _ & _ & HTW & HHT).
  pose proof Hi as [_ His _ _ Hrh _ Hord _ Hcms Ht _ _ Hrc]; cbn in *. subst W.
  assert (Hslot : slot (recv_head i) (in_size i) = ring k (Z.of_nat (length rc))).
  { rewrite Hrh, His. by apply slot_ring. }
  assert (Hpar : parity_of (recv_head i) (in_size i) = par k (Z.of_nat (length rc))).
  { rewrite Hrh, His. by apply parity_of_par. }
  destruct (store_slot_total _ _ _ _ (Z.of_nat (length rc)) Ht) as [x Hx].
  unfold lrpc_recv. rewrite Hslot, Hx, Hpar. cbn [mbind res_bind].
  assert (Hl := Hx). apply tbl_read_ok in Hl.
  eapply tbl_inv_load in Hl; try done; try lia. case_decide as Hlt.
  - destruct Hl as (c & y & Hs & Hxe & Hdec & Hc).
    rewrite Hdec, Z.eqb_refl. cbn [negb]. rewrite Nat2Z.id in Hs.
    rewrite (drop_S _ _ _ Hs). rewrite <- Hslot in Hx.
    destruct (chan_step_inv k Hk _ _ _ _ (step_recv_load o i m SIdle sn rc x Hx
       ltac:(by rewrite Hpar)) Hi) as (T1 & W1 & Hi1).
    destruct (chan_step_inv k Hk _ _ _ _ (step_recv_read o i m SIdle sn rc x _ Hx) Hi1)
      as (T2 & W2 & Hi2).
    destruct (chan_step_inv k Hk _ _ _ _ (step_recv_publish o _ m SIdle sn _) Hi2)
      as (T3 & W3 & Hi3).
    subst x. cbn [msg_cmd msg_payload] in *. rewrite decode_cmd in * by done.
    eexists; split; [done|]. do 4 eexists. split; [done|]. rewrite length_app. cbn.
    by rewrite Nat.add_1_r.
  - destruct (Z.eqb_spec (Z.land (msg_cmd x) LRPC_DONE_PARITY) (par k (Z.of_nat (length rc))));
      [done|]. cbn [negb]. rewrite drop_ge by lia.
    eexists; split; [done|]. do 4 eexists. split; [done|]. by rewrite drop_ge by lia.
Qed.

Lemma run_ops_rep ops c q :
  Forall op_ok ops -> chan_rep k c q -> run_ops c ops = Ok (queue_ops (2 ^ k) q ops).
Proof using Hk.
  revert c q. induction ops as [|op ops IH]; intros c q Hops Hrep; [done|].
  apply Forall_cons_1 in Hops as [Hop Hops]. destruct c as [[o i] m]. cbn [run_ops queue_ops].
  assert (Hstep : exists c', run_op (o, i, m) op = Ok (c', (queue_op (2 ^ k) q op).2) /\
      chan_rep k c' (queue_op (2 ^ k) q op).1).
  { destruct op; [by apply lrpc_send_rep|by apply lrpc_recv_rep]. }
  destruct Hstep as (c' & Hrun & Hrep'). rewrite Hrun. cbn [mbind res_bind].
  destruct (queue_op (2 ^ k) q op) as [q' x]. cbn in *. by rewrite (IH c' q').
Qed.

End refinement.

(** ** Properties *)

(** Every interleaving of the shared-memory accesses of one sender and one
    receiver delivers the messages in the order they were sent, without loss,
    duplication or corruption: what was received is always a prefix of what
    was sent, and at most [size] messages are in flight. *)
Theorem lrpc_fifo k s :
  0 <= k < 32 -> rtc chan_step (chan_init (2 ^ k)) s ->
  rcvd s = take (length (rcvd s)) (sent s) /\
  Z.of_nat (length (sent s)) - Z.of_nat (length (rcvd s)) <= 2 ^ k.
Proof.
  intros Hk Hr. destruct (chan_reachable_inv k Hk s Hr) as (T & W & Hi).
  destruct Hi. split; [done|lia].
Qed.

Lemma lrpc_fifo_witness :
  exists s, rtc chan_step (chan_init (2 ^ 1)) s /\ sent s = [(7, 9)] /\ rcvd s = [(7, 9)] /\
    rcvd s = take (length (rcvd s)) (sent s) /\
    Z.of_nat (length (sent s)) - Z.of_nat (length (rcvd s)) <= 2 ^ 1.
Proof.
  assert (H : exists s, rtc chan_step (chan_init (2 ^ 1)) s /\ sent s = [(7, 9)] /\ rcvd s = [(7, 9)]).
  { eexists. split.
    - eapply rtc_l; [apply (step_send_fast _ _ _ _ _ _ 7 9); [split; vm_compute; done|done|done]|].
      eapply rtc_l; [eapply step_send_payload; reflexivity|].
      eapply rtc_l; [eapply step_send_publish; reflexivity|].
      eapply rtc_l; [eapply step_recv_load; reflexivity|].
      eapply rtc_l; [eapply step_recv_read; reflexivity|].
      eapply rtc_refl.
    - vm_compute. done. }
  destruct H as (s & Hr & Hs & Hrc). exists s.
  pose proof (lrpc_fifo 1 s ltac:(lia) Hr). tauto.
Defined.

(** C6.  Refinement: any sequence of calls to [lrpc_send] and [lrpc_recv] on a
    channel of [2^k] slots, started on a zeroed table, answers exactly as a
    FIFO queue bounded by [2^k] messages does; no call fails an assertion or
    leaves the table, for any number of wrap-arounds of the 32-bit heads. *)
Theorem lrpc_refines_queue k ops :
  0 <= k < 32 -> Forall op_ok ops ->
  run_ops (LrpcOut 0 0 (2 ^ k), LrpcIn 0 (2 ^ k),
           LrpcShm (replicate (Z.to_nat (2 ^ k)) (LrpcMsg 0 0)) 0) ops
  = Ok (queue_ops (2 ^ k) [] ops).
Proof.
  intros Hk Hops. apply run_ops_rep; [done|done|].
  exists [], [], 0, 0. split; [by apply chan_inv_init|done].
Qed.

Lemma lrpc_refines_queue_witness :
  run_ops (LrpcOut 0 0 2, LrpcIn 0 2, LrpcShm (replicate 2 (LrpcMsg 0 0)) 0)
    [OpSend 1 10; OpSend 2 20; OpSend 3 30; OpRecv; OpSend 4 40; OpRecv; OpRecv; OpRecv]
  = Ok [Sent true; Sent true; Sent false; Received (Some (1, 10)); Sent true;
        Received (Some (2, 20)); Received (Some (4, 40)); Received None].
Proof.
  rewrite (lrpc_refines_queue 1); [reflexivity|lia|].
  repeat constructor; unfold in_u64, M64; lia.
Defined.
