(* ===== verification/TimerHeap.v ===== *)
(** * runtime/timer.c, part 1: the 4-ary timer heap

    The heap is the array [k->timers] of (deadline, entry pointer) cells, of
    which the first [n] are in use; every entry records its cell number in
    [idx].  Entry pointers are [nat] identities into a store of
    [struct timer_entry].  Array cells are read and written with the total list
    operations: the invariants below keep every index in range. *)

From S2P Require Import Prelude.

(** ** Data *)

Definition D : nat := 4.

Record timer_idx := TimerIdx { deadline_us : Z; te : nat }.
#[export] Instance timer_idx_inhabited : Inhabited timer_idx := populate (TimerIdx 0 0).

(** [fn] and [arg] identify the handler; they are not interpreted here. *)
Record timer_entry := TimerEntry {
  armed : bool; idx : nat; fn : Z; arg : Z; localk : nat }.

Definition set_armed (b : bool) (e : timer_entry) : timer_entry :=
  TimerEntry b (idx e) (fn e) (arg e) (localk e).
Definition set_idx (i : nat) (e : timer_entry) : timer_entry :=
  TimerEntry (armed e) i (fn e) (arg e) (localk e).
Definition set_localk (k : nat) (e : timer_entry) : timer_entry :=
  TimerEntry (armed e) (idx e) (fn e) (arg e) k.

Abbreviation heap_t := (list timer_idx).
Abbreviation ents_t := (gmap nat timer_entry).

(** ** Operations *)

(** [for (i = n-1; i > 1; i--)]: note the bound, cell 1 is never compared. *)
Fixpoint is_valid_heap_loop (heap : heap_t) (i : nat) : bool :=
  match i with
  | O | 1%nat => true
  | S i' =>
      let p := ((i - 1) / D)%nat in
      if deadline_us (heap !!! i) <? deadline_us (heap !!! p) then false
      else is_valid_heap_loop heap i'
  end.

Definition is_valid_heap (heap : heap_t) (n : nat) : bool :=
  is_valid_heap_loop heap (n - 1).

(** [heap[i] = heap[p]; heap[i].e->idx = i; heap[p] = tmp; heap[p].e->idx = p]
    where [tmp] is the former [heap[i]]. *)
Definition exchange (heap : heap_t) (ents : ents_t) (tmp : timer_idx) (i p : nat)
  : heap_t * ents_t :=
  let heap := <[i := heap !!! p]> heap in
  let ents := alter (set_idx i) (te (heap !!! i)) ents in
  let heap := <[p := tmp]> heap in
  let ents := alter (set_idx p) (te (heap !!! p)) ents in
  (heap, ents).

Fixpoint sift_up_loop (fuel : nat) (heap : heap_t) (ents : ents_t) (tmp : timer_idx)
  (i : nat) : heap_t * ents_t :=
  match fuel with
  | O => (heap, ents)
  | S fuel =>
      if (i =? 0)%nat then (heap, ents) else
      let p := ((i - 1) / D)%nat in
      if deadline_us (heap !!! p) <=? deadline_us tmp then (heap, ents) else
      let '(heap, ents) := exchange heap ents tmp i p in
      sift_up_loop fuel heap ents tmp p
  end.

Definition sift_up (heap : heap_t) (ents : ents_t) (i : nat) : heap_t * ents_t :=
  sift_up_loop i heap ents (heap !!! i) i.

(** The scan of the children [j, j+1, ...] of a cell: [w] is the smallest
    deadline so far and [c] the cell it came from ([None] for [INT_MAX]). *)
Fixpoint min_child (heap : heap_t) (n more j : nat) (w : Z) (c : option nat)
  : option nat :=
  match more with
  | O => c
  | S more =>
      if (n <=? j)%nat then c else
      if deadline_us (heap !!! j) <? w
      then min_child heap n more (S j) (deadline_us (heap !!! j)) (Some j)
      else min_child heap n more (S j) w c
  end.

Fixpoint sift_down_loop (fuel : nat) (heap : heap_t) (ents : ents_t) (tmp : timer_idx)
  (i n : nat) : heap_t * ents_t :=
  match fuel with
  | O => (heap, ents)
  | S fuel =>
      match min_child heap n D (i * D + 1) (deadline_us tmp) None with
      | None => (heap, ents)
      | Some c =>
          let '(heap, ents) := exchange heap ents tmp i c in
          sift_down_loop fuel heap ents tmp c n
      end
  end.

Definition sift_down (heap : heap_t) (ents : ents_t) (i n : nat) : heap_t * ents_t :=
  sift_down_loop (S n) heap ents (heap !!! i) i n.

(** ** Specification *)

Definition parent (i : nat) : nat := ((i - 1) / D)%nat.
Abbreviation dl h i := (deadline_us (h !!! i)).

(** Heap order of the first [n] cells, for the parents from [b] on. *)
Definition heap_from (b n : nat) (h : heap_t) : Prop :=
  forall j, (0 < j < n)%nat -> (b <= parent j)%nat -> dl h (parent j) <= dl h j.
Definition heap_ok (n : nat) (h : heap_t) : Prop := heap_from 0 n h.

(** Heap order except below cell [i], whose children are above [i]'s parent. *)
Definition down_ok (b n : nat) (h : heap_t) (i : nat) : Prop :=
  (forall j, (0 < j < n)%nat -> (b <= parent j)%nat -> parent j <> i -> dl h (parent j) <= dl h j) /\
  (forall j, (0 < j < n)%nat -> parent j = i -> (0 < i)%nat -> (b <= parent i)%nat ->
     dl h (parent i) <= dl h j).

(** Heap order except around cell [i]. *)
Definition hole_ok (n : nat) (h : heap_t) (i : nat) : Prop :=
  (forall j, (0 < j < n)%nat -> j <> i -> parent j <> i -> dl h (parent j) <= dl h j) /\
  (forall j, (0 < j < n)%nat -> parent j = i -> (0 < i)%nat -> dl h (parent i) <= dl h j).

(** Every cell in use holds an entry of kthread [k] that knows its cell. *)
Definition heap_rep (k n : nat) (h : heap_t) (es : ents_t) : Prop :=
  forall i, (i < n)%nat -> exists t, es !! te (h !!! i) = Some t /\
    idx t = i /\ localk t = k.

(** The entries of the cells in use. *)
Definition members (n : nat) (h : heap_t) : list nat := te <$> take n h.

(** ** Indices *)

Lemma parent_lt i : (0 < i)%nat -> (parent i < i)%nat.
Proof.
  intros. unfold parent, D. apply Nat.Div0.div_lt_upper_bound; lia.
Qed.

Lemma parent_child i j : (0 < j)%nat -> (parent j = i <-> i * 4 + 1 <= j <= i * 4 + 4)%nat.
Proof.
  intros Hj. unfold parent, D.
  pose proof (Nat.div_mod_eq (j - 1) 4). pose proof (Nat.mod_upper_bound (j - 1) 4 ltac:(lia)). lia.
Qed.

(** ** One exchange *)

Definition hswap (h : heap_t) (i p : nat) : heap_t := <[p := h !!! i]> (<[i := h !!! p]> h).

Definition eswap (h : heap_t) (es : ents_t) (i p : nat) : ents_t :=
  alter (set_idx p) (te (h !!! i)) (alter (set_idx i) (te (h !!! p)) es).

Lemma exchange_heap h es i p :
  i <> p -> (i < length h)%nat -> (p < length h)%nat ->
  exchange h es (h !!! i) i p = (hswap h i p, eswap h es i p).
Proof.
  intros Hne Hi Hp. unfold exchange, hswap, eswap.
  rewrite !list_lookup_total_insert_eq by (rewrite ?length_insert; done). done.
Qed.

Lemma hswap_lookup h i p j :
  (i < length h)%nat -> (p < length h)%nat ->
  hswap h i p !!! j = if decide (j = p) then h !!! i else if decide (j = i) then h !!! p else h !!! j.
Proof.
  intros Hi Hp. unfold hswap. case_decide as E1; subst.
  { rewrite list_lookup_total_insert_eq; [done|]. by rewrite length_insert. }
  rewrite list_lookup_total_insert_ne by done. case_decide as E2; subst.
  { by rewrite list_lookup_total_insert_eq. }
  by rewrite list_lookup_total_insert_ne by done.
Qed.

Lemma hswap_length h i p : length (hswap h i p) = length h.
Proof. unfold hswap. by rewrite !length_insert. Qed.

(** The effect of any number of exchanges among the first [n] cells. *)
Inductive shuffle (n : nat) : heap_t * ents_t -> heap_t * ents_t -> Prop :=
| shuffle_refl s : shuffle n s s
| shuffle_step h es i p s' :
    i <> p -> (i < n)%nat -> (p < n)%nat -> (n <= length h)%nat ->
    shuffle n (exchange h es (h !!! i) i p) s' ->
    shuffle n (h, es) s'.

Lemma shuffle_trans n a b c : shuffle n a b -> shuffle n b c -> shuffle n a c.
Proof. induction 1; intros; [done|econstructor; eauto]. Qed.

Lemma shuffle_length n s s' : shuffle n s s' -> length s'.1 = length s.1.
Proof.
  induction 1 as [|h es i p s' Hne Hi Hp Hn _ IH]; [done|].
  rewrite exchange_heap in IH by lia. cbn in *. by rewrite IH, hswap_length.
Qed.

Lemma heap_rep_members k n h es x :
  (n <= length h)%nat -> heap_rep k n h es -> x ∈ members n h ->
  exists i t, (i < n)%nat /\ te (h !!! i) = x /\ es !! x = Some t /\ idx t = i.
Proof.
  intros Hn Hrep (c & -> & Hc)%list_elem_of_fmap.
  apply list_elem_of_lookup in Hc as [i Hc]. apply lookup_take_Some in Hc as [Hc Hi].
  destruct (Hrep i Hi) as (t & Ht & Hix & _). exists i, t.
  rewrite (list_lookup_total_correct _ _ _ Hc) in Ht |- *. done.
Qed.

Lemma heap_rep_inj k n h es i j :
  heap_rep k n h es -> (i < n)%nat -> (j < n)%nat -> te (h !!! i) = te (h !!! j) -> i = j.
Proof.
  intros Hrep Hi Hj E. destruct (Hrep i Hi) as (t & Ht & <- & _).
  destruct (Hrep j Hj) as (t' & Ht' & <- & _). rewrite E in Ht. congruence.
Qed.

Lemma exchange_rep k n h es i p :
  i <> p -> (i < n)%nat -> (p < n)%nat -> (n <= length h)%nat ->
  heap_rep k n h es ->
  heap_rep k n (exchange h es (h !!! i) i p).1 (exchange h es (h !!! i) i p).2.
Proof.
  intros Hne Hi Hp Hn Hrep. rewrite exchange_heap by lia. cbn. unfold eswap. intros j Hj.
  rewrite hswap_lookup by lia.
  assert (Hd : te (h !!! i) <> te (h !!! p)) by (intros E; by eapply Hne, heap_rep_inj).
  destruct (Hrep i Hi) as (ti & Hti & ? & ?). destruct (Hrep p Hp) as (tp & Htp & ? & ?).
  case_decide as E1; subst.
  { exists (set_idx (idx tp) ti). rewrite lookup_alter_eq, lookup_alter_ne, Hti by done. done. }
  case_decide as E2; subst.
  { exists (set_idx (idx ti) tp). rewrite lookup_alter_ne, lookup_alter_eq, Htp by done. done. }
  destruct (Hrep j Hj) as (t & Ht & ?). exists t.
  rewrite !lookup_alter_ne; [done| |]; intros E; eapply heap_rep_inj in E; eauto.
Qed.

Lemma shuffle_rep k n s s' :
  shuffle n s s' -> heap_rep k n s.1 s.2 -> heap_rep k n s'.1 s'.2.
Proof.
  induction 1 as [|h es i p s' Hne Hi Hp Hn _ IH]; [done|].
  intros Hrep. apply IH. by apply exchange_rep.
Qed.

Lemma hswap_perm n h i p :
  (i < n)%nat -> (p < n)%nat -> (n <= length h)%nat -> take n (hswap h i p) ≡ₚ take n h.
Proof.
  intros Hi Hp Hn. unfold hswap. rewrite !take_insert_lt by lia.
  set (l := take n h). assert (Hl : length l = n) by (unfold l; rewrite length_take; lia).
  assert (El : forall j, (j < n)%nat -> l !! j = Some (h !!! j)).
  { intros j Hj. unfold l. rewrite lookup_take_lt by lia. apply list_lookup_lookup_total_lt. lia. }
  clearbody l. destruct (decide (i = p)) as [->|Hne].
  { rewrite list_insert_insert_eq, list_insert_id; [done|]. by apply El. }
  apply Permutation_inj. split; [by rewrite !length_insert|].
  exists (fun j => if decide (j = i) then p else if decide (j = p) then i else j). split.
  - intros a b. repeat case_decide; congruence.
  - intros j. case_decide as E1; subst.
    { rewrite list_lookup_insert_ne, list_lookup_insert_eq by (done || lia). by rewrite El by lia. }
    case_decide as E2; subst.
    { rewrite list_lookup_insert_eq by (rewrite length_insert; lia). by rewrite El by lia. }
    by rewrite !list_lookup_insert_ne by done.
Qed.

Lemma shuffle_perm n s s' : shuffle n s s' -> take n s'.1 ≡ₚ take n s.1.
Proof.
  induction 1 as [|h es i p s' Hne Hi Hp Hn _ IH]; [done|].
  rewrite IH, exchange_heap by lia. by apply hswap_perm.
Qed.

(** Entries outside the heap are not touched, and no entry is created. *)
Lemma shuffle_frame n s s' x :
  shuffle n s s' -> x ∉ members n s.1 -> s'.2 !! x = s.2 !! x.
Proof.
  induction 1 as [|h es i p s' Hne Hi Hp Hn Hsh IH]; [done|]. cbn. intros Hx.
  assert (Hmem : forall j, (j < n)%nat -> te (h !!! j) ∈ members n h).
  { intros j Hj. unfold members. apply list_elem_of_fmap. exists (h !!! j). split; [done|].
    apply list_elem_of_lookup. exists j. rewrite lookup_take_lt by done.
    apply list_lookup_lookup_total_lt. lia. }
  rewrite IH; rewrite exchange_heap by lia; cbn; unfold eswap.
  - rewrite !lookup_alter_ne; [done| |]; intros E; apply Hx; rewrite <- E; by apply Hmem.
  - unfold members. by rewrite (hswap_perm n h i p Hi Hp Hn).
Qed.

(** Only [idx] fields change. *)
Lemma shuffle_but_idx n s s' x :
  shuffle n s s' -> set_idx 0 <$> s'.2 !! x = set_idx 0 <$> s.2 !! x.
Proof.
  induction 1 as [|h es i p s' Hne Hi Hp Hn Hsh IH]; [done|].
  rewrite IH, exchange_heap by lia. cbn. unfold eswap. rewrite !lookup_alter.
  repeat case_decide; subst; try match goal with E : te _ = te _ |- _ => rewrite E end;
    first [done | by destruct (es !! te _)].
Qed.

(** ** Sifting up *)

Definition up_ok (n : nat) (h : heap_t) (i : nat) : Prop :=
  (forall j, (0 < j < n)%nat -> j <> i -> dl h (parent j) <= dl h j) /\
  (forall j, (0 < j < n)%nat -> parent j = i -> (0 < i)%nat -> dl h (parent i) <= dl h j).

Lemma up_ok_hole n h i : up_ok n h i -> hole_ok n h i.
Proof. intros [H1 H2]. split; [intros; by apply H1|done]. Qed.

Lemma up_ok_done n h i :
  up_ok n h i -> i = 0%nat \/ dl h (parent i) <= dl h i -> heap_ok n h.
Proof.
  intros [H1 _] Hi j Hj _. destruct (decide (j = i)) as [->|]; [|by apply H1].
  destruct Hi; [lia|done].
Qed.

Lemma up_step n h i :
  hole_ok n h i -> (0 < i < n)%nat -> (n <= length h)%nat ->
  dl h i < dl h (parent i) -> up_ok n (hswap h i (parent i)) (parent i).
Proof.
  intros [H1 H2] Hi Hn Hlt. pose proof (parent_lt i ltac:(lia)) as Hp. split.
  - intros j Hj Hne. rewrite !hswap_lookup by lia.
    pose proof (parent_lt j ltac:(lia)). repeat case_decide; subst; try done; try lia.
    + transitivity (dl h (parent j)); [replace (parent j) with (parent i) by done; lia|].
      apply H1; [lia|done|lia].
    + apply H2; [lia|done|lia].
    + apply H1; [lia|done|done].
  - intros j Hj Hpj H0. rewrite !hswap_lookup by lia.
    pose proof (parent_lt j ltac:(lia)). pose proof (parent_lt (parent i) H0).
    repeat case_decide; subst; try lia; try congruence.
    + by apply H1; lia.
    + transitivity (dl h (parent i)); [apply H1; lia|]. rewrite <- Hpj. apply H1; try congruence; lia.
Qed.

Lemma sift_up_loop_S f h es tmp i :
  sift_up_loop (S f) h es tmp i =
    if (i =? 0)%nat then (h, es) else
    if dl h (parent i) <=? deadline_us tmp then (h, es) else
    let '(h', es') := exchange h es tmp i (parent i) in sift_up_loop f h' es' tmp (parent i).
Proof. reflexivity. Qed.

Lemma sift_up_loop_up n f h es tmp i :
  tmp = h !!! i -> (i <= f)%nat -> (i < n)%nat -> (n <= length h)%nat -> up_ok n h i ->
  shuffle n (h, es) (sift_up_loop f h es tmp i) /\ heap_ok n (sift_up_loop f h es tmp i).1.
Proof.
  revert h es i. induction f as [|f IH]; intros h es i -> Hf Hi Hn Hup.
  { split; [constructor|]. eapply up_ok_done; [done|left; lia]. }
  rewrite sift_up_loop_S. destruct (Nat.eqb_spec i 0) as [->|H0].
  { split; [constructor|]. eapply up_ok_done; [done|by left]. }
  destruct (Z.leb_spec (dl h (parent i)) (dl h i)) as [Hle|Hlt].
  { split; [constructor|]. eapply up_ok_done; [done|by right]. }
  pose proof (parent_lt i ltac:(lia)) as Hp.
  assert (Hsh : forall s', shuffle n (exchange h es (h !!! i) i (parent i)) s' -> shuffle n (h, es) s').
  { intros s' Hs. eapply shuffle_step; [..|done]; lia. }
  rewrite exchange_heap in * by lia.
  destruct (IH (hswap h i (parent i)) (eswap h es i (parent i)) (parent i)) as [Hs Ho].
  - rewrite hswap_lookup by lia. by rewrite decide_True by done.
  - lia.
  - lia.
  - by rewrite hswap_length.
  - apply up_step; [by apply up_ok_hole|lia|done|lia].
  - split; [|exact Ho]. by apply Hsh.
Qed.

(** Around a hole, [sift_up] either repairs the heap or leaves it alone. *)
Lemma sift_up_hole n h es i :
  (i < n)%nat -> (n <= length h)%nat -> hole_ok n h i ->
  shuffle n (h, es) (sift_up h es i) /\
  (heap_ok n (sift_up h es i).1 \/
   sift_up h es i = (h, es) /\ (i = 0%nat \/ dl h (parent i) <= dl h i)).
Proof.
  intros Hi Hn Hhole. unfold sift_up. destruct i as [|i'].
  { split; [constructor|]. right. split; [done|by left]. }
  remember (S i') as i eqn:Ei. replace (sift_up_loop i) with (sift_up_loop (S i')) by (by subst).
  rewrite sift_up_loop_S. destruct (Nat.eqb_spec i 0) as [|H0]; [lia|].
  destruct (Z.leb_spec (dl h (parent i)) (dl h i)) as [Hle|Hlt].
  { split; [constructor|]. right. split; [done|by right]. }
  pose proof (parent_lt i ltac:(lia)) as Hp.
  assert (Hsh : forall s', shuffle n (exchange h es (h !!! i) i (parent i)) s' -> shuffle n (h, es) s').
  { intros s' Hs. eapply shuffle_step; [..|done]; lia. }
  rewrite exchange_heap in * by lia.
  destruct (sift_up_loop_up n i' (hswap h i (parent i)) (eswap h es i (parent i))
    (h !!! i) (parent i)) as [Hs Ho].
  - rewrite hswap_lookup by lia. by rewrite decide_True by done.
  - lia.
  - lia.
  - by rewrite hswap_length.
  - apply up_step; [done|lia|done|lia].
  - split; [|left; exact Ho]. by apply Hsh.
Qed.

(** ** Sifting down *)

Lemma min_child_spec h n more j w c :
  match min_child h n more j w c with
  | r => (r = c /\ forall x, (j <= x < j + more)%nat -> (x < n)%nat -> w <= dl h x) \/
         exists x, r = Some x /\ (j <= x < j + more)%nat /\ (x < n)%nat /\ dl h x < w /\
           forall y, (j <= y < j + more)%nat -> (y < n)%nat -> dl h x <= dl h y
  end.
Proof.
  revert j w c. induction more as [|more IH]; intros j w c; cbn [min_child].
  { left. split; [done|lia]. }
  destruct (Nat.leb_spec n j). { left. split; [done|lia]. }
  destruct (Z.ltb_spec (dl h j) w) as [Hlt|Hge].
  - right. destruct (IH (S j) (dl h j) (Some j)) as [[-> Hall]|(x & -> & Hx & Hxn & Hlx & Hall)].
    + exists j. split_and!; try done; try lia. intros y Hy Hyn.
      destruct (decide (y = j)) as [->|]; [lia|]. apply Hall; lia.
    + exists x. split_and!; try done; try lia. intros y Hy Hyn.
      destruct (decide (y = j)) as [->|]; [lia|]. apply Hall; lia.
  - destruct (IH (S j) w c) as [[-> Hall]|(x & -> & Hx & Hxn & Hlx & Hall)].
    + left. split; [done|]. intros y Hy Hyn.
      destruct (decide (y = j)) as [->|]; [lia|]. apply Hall; lia.
    + right. exists x. split_and!; try done; try lia. intros y Hy Hyn.
      destruct (decide (y = j)) as [->|]; [lia|]. apply Hall; lia.
Qed.

Lemma down_step b n h i c :
  down_ok b n h i -> (c < n)%nat -> (n <= length h)%nat -> (0 < c)%nat -> parent c = i ->
  dl h c < dl h i ->
  (forall y, (0 < y < n)%nat -> parent y = i -> dl h c <= dl h y) ->
  down_ok b n (hswap h i c) c.
Proof.
  intros [H1 H2] Hc Hn H0 Hpc Hlt Hmin. pose proof (parent_lt c H0) as Hic. split.
  - intros j Hj Hb Hne. rewrite !hswap_lookup by lia. pose proof (parent_lt j ltac:(lia)).
    repeat case_decide; subst; try lia; try congruence.
    + apply Hmin; [lia|congruence].
    + apply H2; lia.
    + apply H1; try lia; congruence.
  - intros j Hj Hpj _ Hb. rewrite !hswap_lookup by lia. pose proof (parent_lt j ltac:(lia)).
    repeat case_decide; subst; try lia; try congruence.
    apply H1; lia.
Qed.

Lemma sift_down_loop_spec b n f h es tmp i :
  tmp = h !!! i -> (n - i < f)%nat -> (i < n)%nat -> (n <= length h)%nat -> down_ok b n h i ->
  shuffle n (h, es) (sift_down_loop f h es tmp i n) /\
  heap_from b n (sift_down_loop f h es tmp i n).1.
Proof.
  revert h es i. induction f as [|f IH]; intros h es i -> Hf Hi Hn Hd; [lia|].
  cbn [sift_down_loop].
  destruct (min_child_spec h n D (i * D + 1) (dl h i) None)
    as [[-> Hall]|(c & -> & Hc & Hcn & Hlt & Hall)]; unfold D in *.
  - split; [constructor|]. intros j Hj Hb. destruct (decide (parent j = i)) as [E|];
      [|by apply Hd]. rewrite E. apply parent_child in E; [|lia]. apply Hall; lia.
  - assert (Hpc : parent c = i) by (apply parent_child; lia).
    assert (Hsh : forall s', shuffle n (exchange h es (h !!! i) i c) s' -> shuffle n (h, es) s').
    { intros s' Hs. eapply shuffle_step; [..|done]; lia. }
    rewrite exchange_heap in * by lia.
    destruct (IH (hswap h i c) (eswap h es i c) c) as [Hs Ho].
    + rewrite hswap_lookup by lia. by rewrite decide_True by done.
    + lia.
    + lia.
    + by rewrite hswap_length.
    + apply down_step; try done; try lia. intros y Hy Hpy. apply parent_child in Hpy; [|lia].
      apply Hall; lia.
    + split; [|exact Ho]. by apply Hsh.
Qed.

Lemma sift_down_spec b n h es i :
  (i < n)%nat -> (n <= length h)%nat -> down_ok b n h i ->
  shuffle n (h, es) (sift_down h es i n) /\ heap_from b n (sift_down h es i n).1.
Proof. intros. apply sift_down_loop_spec; [done|lia|done|done|done]. Qed.

(** On a heap, [sift_down] has nothing to do. *)
Lemma heap_down_ok b n h i : heap_from b n h -> (b <= i)%nat -> down_ok b n h i.
Proof.
  intros Hh Hb. split; [intros; by apply Hh|].
  intros j Hj <- H0 Hb'. transitivity (dl h (parent j)); [|by apply Hh].
  apply Hh; [|done]. pose proof (parent_lt j). lia.
Qed.

(** The root has the earliest deadline. *)
Lemma heap_ok_root n h j : heap_ok n h -> (j < n)%nat -> dl h 0%nat <= dl h j.
Proof.
  intros Hh. induction j as [j IH] using lt_wf_ind. intros Hj.
  destruct (decide (j = 0%nat)) as [->|]; [done|].
  pose proof (parent_lt j ltac:(lia)).
  transitivity (dl h (parent j)); [apply IH; lia|apply Hh; lia].
Qed.

Lemma heap_ok_prefix n m h : heap_ok n h -> (m <= n)%nat -> heap_ok m h.
Proof. intros Hh Hm j Hj Hb. apply Hh; [lia|done]. Qed.

Lemma heap_from_ext b n h h' :
  (forall j, (j < n)%nat -> h' !!! j = h !!! j) -> heap_from b n h -> heap_from b n h'.
Proof.
  intros He Hh j Hj Hb. pose proof (parent_lt j ltac:(lia)).
  rewrite !He by lia. by apply Hh.
Qed.

Lemma sift_up_up n h es i :
  (i < n)%nat -> (n <= length h)%nat -> up_ok n h i ->
  shuffle n (h, es) (sift_up h es i) /\ heap_ok n (sift_up h es i).1.
Proof. intros. by apply sift_up_loop_up. Qed.

Lemma hole_down_ok n h i :
  hole_ok n h i -> i = 0%nat \/ dl h (parent i) <= dl h i -> down_ok 0 n h i.
Proof.
  intros [H1 H2] Hi. split; [|intros; by apply H2].
  intros j Hj _ Hne. destruct (decide (j = i)) as [->|]; [|by apply H1].
  destruct Hi; [lia|done].
Qed.

(** ** Members *)

Lemma members_elem n h x :
  (n <= length h)%nat -> x ∈ members n h <-> exists i, (i < n)%nat /\ te (h !!! i) = x.
Proof.
  intros Hn. unfold members. rewrite list_elem_of_fmap. split.
  - intros (c & -> & Hc). apply list_elem_of_lookup in Hc as [i Hc].
    apply lookup_take_Some in Hc as [Hc Hi]. exists i.
    by rewrite (list_lookup_total_correct _ _ _ Hc).
  - intros (i & Hi & <-). exists (h !!! i). split; [done|].
    apply list_elem_of_lookup. exists i. rewrite lookup_take_lt by done.
    apply list_lookup_lookup_total_lt. lia.
Qed.

Lemma take_total_snoc (h : heap_t) n : (n < length h)%nat -> take (S n) h = take n h ++ [h !!! n].
Proof. intros Hn. apply take_S_r. by apply list_lookup_lookup_total_lt. Qed.

Lemma heap_rep_ext k n h es es' :
  (n <= length h)%nat -> (forall x, x ∈ members n h -> es' !! x = es !! x) ->
  heap_rep k n h es -> heap_rep k n h es'.
Proof.
  intros Hn He Hrep i Hi. destruct (Hrep i Hi) as (t & Ht & ?). exists t.
  rewrite He; [done|]. apply members_elem; eauto.
Qed.

(** Taking the last cell out and putting it at position [i]. *)
Lemma remove_at k n h es i :
  (S n <= length h)%nat -> (i < n)%nat -> heap_ok (S n) h -> heap_rep k (S n) h es ->
  let h' := <[i := h !!! n]> h in
  let es' := alter (set_idx i) (te (h' !!! i)) es in
  hole_ok n h' i /\ heap_rep k n h' es' /\ (h !!! i) :: take n h' ≡ₚ take (S n) h /\
  (forall x, x ∉ members (S n) h -> es' !! x = es !! x) /\
  (forall x, set_idx 0 <$> es' !! x = set_idx 0 <$> es !! x).
Proof.
  intros Hlen Hi Hh Hrep h' es'.
  assert (Hlk : forall j, h' !!! j = if decide (j = i) then h !!! n else h !!! j).
  { intros j. unfold h'. case_decide as E; subst.
    - apply list_lookup_total_insert_eq. lia.
    - by apply list_lookup_total_insert_ne. }
  assert (Hi' : h' !!! i = h !!! n) by (rewrite Hlk; by rewrite decide_True).
  split_and!.
  - split.
    + intros j Hj Hne Hpne. rewrite !Hlk. rewrite !decide_False by done. apply Hh; lia.
    + intros j Hj <- H0. pose proof (parent_lt j ltac:(lia)).
      pose proof (parent_lt (parent j) H0). rewrite !Hlk. rewrite !decide_False by lia.
      transitivity (dl h (parent j)); apply Hh; lia.
  - intros j Hj. rewrite Hlk. unfold es'. rewrite Hi'. case_decide as E; subst.
    + destruct (Hrep n ltac:(lia)) as (t & Ht & Hix & Hk). exists (set_idx i t).
      rewrite lookup_alter_eq, Ht. done.
    + destruct (Hrep j ltac:(lia)) as (t & Ht & Hix & Hk). exists t.
      rewrite lookup_alter_ne; [done|]. intros Heq.
      eapply heap_rep_inj in Heq; [|done|lia|lia]. lia.
  - unfold h'. rewrite take_insert_lt, take_total_snoc by lia.
    assert (Hlt : take n h !! i = Some (h !!! i)).
    { rewrite lookup_take_lt by done. apply list_lookup_lookup_total_lt. lia. }
    rewrite <- (take_drop_middle _ _ _ Hlt) at 2.
    rewrite insert_take_drop by (by eapply lookup_lt_Some).
    rewrite Permutation_middle, <- !app_assoc. f_equiv. rewrite <- app_comm_cons.
    constructor. rewrite Permutation_app_comm. done.
  - intros x Hx. unfold es'. apply lookup_alter_ne. rewrite Hi'. intros E. apply Hx.
    rewrite <- E. apply members_elem; [lia|]. exists n. split; [lia|done].
  - intros x. unfold es'. rewrite lookup_alter. case_decide as E; [|done].
    rewrite <- E. by destruct (es !! _).
Qed.
