(* ===== verification/Timer.v ===== *)
(** * runtime/timer.c, part 2: per-kthread timers

    [k->timer_lock] serializes all accesses to one kthread's heap, so every
    operation is one transition of the state below ([timer_merge] holds both
    locks).  [spin_lock_np]/[preempt_disable] have no other effect on it. *)

From Stdlib Require Sorted.
From S2P Require Import Prelude TimerHeap.

Definition RUNTIME_MAX_TIMERS : nat := Z.to_nat 4096.

(** The timer fields of [struct kthread]; [next_timer_tsc] is the word the
    iokernel reads through [k->q_ptrs]. *)
Record timer_kthread := TimerKthread {
  timers : heap_t; timern : nat; next_timer_tsc : Z }.

Record tstate := TState { ks : gmap nat timer_kthread; ents : ents_t }.

Section timer.
Context (cycles_per_us start_tsc : Z).

(** ** Operations *)

Definition timer_init (e : nat) (f a : Z) (s : tstate) : tstate :=
  let old := default (TimerEntry false 0 0 0 0) (ents s !! e) in
  TState (ks s) (<[e := TimerEntry false (idx old) f a (localk old)]> (ents s)).

Definition update_q_ptrs (tk : timer_kthread) : timer_kthread :=
  TimerKthread (timers tk) (timern tk)
    (if (timern tk =? 0)%nat then 0
     else u64 (deadline_us (timers tk !!! 0%nat) * cycles_per_us + start_tsc)).

(** The copy loop of [timer_merge]: cell [i] of [r] goes to the end of [k]. *)
Fixpoint merge_loop (more i k : nat) (rheap heap : heap_t) (n : nat) (es : ents_t)
  : res (heap_t * nat * ents_t) :=
  match more with
  | O => Ok (heap, n, es)
  | S more =>
      let heap := <[n := rheap !!! i]> heap in
      let es := alter (set_idx n) (te (heap !!! n)) es in
      let es := alter (set_localk k) (te (heap !!! n)) es in
      let n := S n in
      _ ← BUG_ON (RUNTIME_MAX_TIMERS <=? n)%nat;
      merge_loop more (S i) k rheap heap n es
  end.

(** [for (i = k->timern / D; i >= 0; i--) sift_down(k->timers, i, k->timern)] *)
Fixpoint heapify_loop (i : nat) (heap : heap_t) (es : ents_t) (n : nat) : heap_t * ents_t :=
  let '(heap, es) := sift_down heap es i n in
  match i with
  | O => (heap, es)
  | S i => heapify_loop i heap es n
  end.

Definition timer_merge (k r : nat) (s : tstate) : res tstate :=
  match ks s !! k, ks s !! r with
  | Some tk, Some tr =>
      if (timern tr =? 0)%nat
      then Ok (TState (<[k := update_q_ptrs tk]> (ks s)) (ents s))
      else
        x ← merge_loop (timern tr) 0 k (timers tr) (timers tk) (timern tk) (ents s);
        let '(heap, n, es) := x in
        let tr := update_q_ptrs (TimerKthread (timers tr) 0 (next_timer_tsc tr)) in
        let '(heap, es) := heapify_loop (n / D) heap es n in
        let tk := update_q_ptrs (TimerKthread heap n (next_timer_tsc tk)) in
        Ok (TState (<[k := tk]> (<[r := tr]> (ks s))) es)
  | _, _ => Bug
  end.

Definition timer_earliest_deadline (k : nat) (s : tstate) : res Z :=
  match ks s !! k with
  | Some tk => Ok (if (timern tk =? 0)%nat then 0 else deadline_us (timers tk !!! 0%nat))
  | None => Bug
  end.

Definition timer_start_locked (k e : nat) (deadline : Z) (s : tstate) : res tstate :=
  match ks s !! k, ents s !! e with
  | Some tk, Some t =>
      _ ← BUG_ON (armed t);
      let i := timern tk in
      let n := S (timern tk) in
      _ ← BUG_ON (RUNTIME_MAX_TIMERS <=? n)%nat;
      let heap := <[i := TimerIdx deadline e]> (timers tk) in
      let es := alter (set_idx i) e (ents s) in
      let es := alter (set_localk k) e es in
      let '(heap, es) := sift_up heap es i in
      let es := alter (set_armed true) e es in
      Ok (TState (<[k := TimerKthread heap n (next_timer_tsc tk)]> (ks s)) es)
  | _, _ => Bug
  end.

Definition with_q_ptrs (k : nat) (s : tstate) : tstate :=
  TState (alter update_q_ptrs k (ks s)) (ents s).

(** [k] is the kthread [getk()] returns. *)
Definition timer_start (k e : nat) (deadline : Z) (s : tstate) : res tstate :=
  s ← timer_start_locked k e deadline s;
  Ok (with_q_ptrs k s).

(** The loop of [timer_cancel] retries until [e->localk] is stable under the
    lock; the transition below is its last iteration. *)
Definition timer_cancel (e : nat) (s : tstate) : res (tstate * bool) :=
  match ents s !! e with
  | None => Bug
  | Some t =>
      match ks s !! localk t with
      | None => Bug
      | Some tk =>
          if negb (armed t) then Ok (s, false) else
          let es := alter (set_armed false) e (ents s) in
          let last := (timern tk - 1)%nat in
          if (idx t =? last)%nat
          then Ok (TState (<[localk t := update_q_ptrs
                 (TimerKthread (timers tk) last (next_timer_tsc tk))]> (ks s)) es, true)
          else
            let heap := <[idx t := timers tk !!! last]> (timers tk) in
            let es := alter (set_idx (idx t)) (te (heap !!! idx t)) es in
            let '(heap, es) := sift_up heap es (idx t) in
            let '(heap, es) := sift_down heap es (idx t) last in
            Ok (TState (<[localk t := update_q_ptrs
                  (TimerKthread heap last (next_timer_tsc tk))]> (ks s)) es, true)
      end
  end.

(** [__timer_sleep]: a fresh entry [e] (the stack variable) is armed and the
    caller parks on it until [timer_finish_sleep] runs. *)
Definition __timer_sleep (k e : nat) (th deadline : Z) (s : tstate) : res tstate :=
  let s := timer_init e 1 th s in
  s ← timer_start_locked k e deadline s;
  Ok (with_q_ptrs k s).

Definition timer_sleep_until (k e : nat) (th now deadline : Z) (s : tstate) : res tstate :=
  if deadline <=? now then Ok s else __timer_sleep k e th deadline s.

Definition timer_sleep (k e : nat) (th now duration : Z) (s : tstate) : res tstate :=
  __timer_sleep k e th (u64 (now + duration)) s.

(** One iteration of [timer_softirq]: the guard of the loop, then the removal of
    the root.  [Some e] is the entry whose handler runs next. *)
Definition timer_softirq_pop (k : nat) (now : Z) (s : tstate) : res (tstate * option nat) :=
  match ks s !! k with
  | None => Bug
  | Some tk =>
      if (0 <? timern tk)%nat && (deadline_us (timers tk !!! 0%nat) <=? now) then
        let i := (timern tk - 1)%nat in
        let e := te (timers tk !!! 0%nat) in
        let '(heap, es) :=
          if (0 <? i)%nat then
            let heap := <[0%nat := timers tk !!! i]> (timers tk) in
            let es := alter (set_idx 0) (te (heap !!! 0%nat)) (ents s) in
            sift_down heap es 0 i
          else (timers tk, ents s) in
        Ok (TState (<[k := update_q_ptrs (TimerKthread heap i (next_timer_tsc tk))]> (ks s)) es,
            Some e)
      else Ok (s, None)
  end.

(** [timer_softirq]: the lock is dropped while a handler runs, so [run] is the
    handler [e->fn(e->arg)] together with whatever other cores do meanwhile;
    [now] is [microtime()] at each check of the guard. *)
Fixpoint timer_softirq_loop (budget : nat) (run : nat -> tstate -> tstate) (now : nat -> Z)
  (k : nat) (s : tstate) (fired : list nat) : res (tstate * list nat) :=
  match budget with
  | O => Ok (s, fired)
  | S budget =>
      x ← timer_softirq_pop k (now (length fired)) s;
      match x with
      | (s, None) => Ok (s, fired)
      | (s, Some e) => timer_softirq_loop budget run now k (run e s) (fired ++ [e])
      end
  end.

Definition timer_softirq (budget : nat) (run : nat -> tstate -> tstate) (now : nat -> Z)
  (k : nat) (s : tstate) : res (tstate * list nat) :=
  match ks s !! k with
  | None => Bug
  | Some tk =>
      _ ← BUG_ON (negb (is_valid_heap (timers tk) (timern tk)));
      timer_softirq_loop budget run now k s []
  end.

(** [timer_init_thread]: [aligned_alloc] may fail. *)
Definition timer_init_thread (k : nat) (alloc : option heap_t) (s : tstate) : tstate * Z :=
  match alloc with
  | None => (s, - ENOMEM)
  | Some heap =>
      (TState (<[k := TimerKthread heap
                        (default 0%nat (timern <$> ks s !! k)) 0]> (ks s)) (ents s), 0)
  end.

(** ** Specification *)

(** The timers a kthread has pending, as the cells in use. *)
Definition pending (tk : timer_kthread) : list timer_idx := take (timern tk) (timers tk).

Record kthread_inv (k : nat) (tk : timer_kthread) (es : ents_t) : Prop := {
  ki_len : length (timers tk) = RUNTIME_MAX_TIMERS;
  ki_n : (timern tk < RUNTIME_MAX_TIMERS)%nat;
  ki_heap : heap_ok (timern tk) (timers tk);
  ki_rep : heap_rep k (timern tk) (timers tk) es;
  ki_armed : forall x t, x ∈ members (timern tk) (timers tk) -> es !! x = Some t -> armed t = true;
  ki_tsc : next_timer_tsc tk = next_timer_tsc (update_q_ptrs tk) }.

Definition timer_inv (s : tstate) : Prop :=
  forall k tk, ks s !! k = Some tk -> kthread_inv k tk (ents s).

(** The entry is armed and really is in the heap it names. *)
Definition live (e : nat) (s : tstate) : Prop :=
  exists t tk, ents s !! e = Some t /\ armed t = true /\ ks s !! localk t = Some tk /\
    (idx t < timern tk)%nat /\ te (timers tk !!! idx t) = e.

(** ** Shared lemmas *)

Lemma member_entry k tk es x :
  kthread_inv k tk es -> x ∈ members (timern tk) (timers tk) ->
  exists t, es !! x = Some t /\ localk t = k /\ armed t = true /\
    (idx t < timern tk)%nat /\ te (timers tk !!! idx t) = x.
Proof using.
  intros Hk Hx. destruct Hk as [Hlen Hn _ Hrep Har _]. assert (Hx' := Hx).
  apply members_elem in Hx as (i & Hi & <-); [|lia].
  destruct (Hrep i Hi) as (t & Ht & <- & Hl). exists t. split_and!; try done. by eapply Har.
Qed.

Lemma kthread_inv_frame k tk es es' :
  kthread_inv k tk es ->
  (forall x, x ∈ members (timern tk) (timers tk) -> es' !! x = es !! x) ->
  kthread_inv k tk es'.
Proof using.
  intros Hk He. destruct Hk as [Hlen Hn Hh Hrep Har Ht]. constructor; try done.
  - eapply heap_rep_ext; [lia|done|done].
  - intros x t Hx. rewrite He by done. by apply Har.
Qed.

(** Replacing kthread [k]'s heap while changing only entries that no other
    kthread holds. *)
Lemma timer_inv_update k tk es' s :
  timer_inv s -> kthread_inv k tk es' ->
  (forall k' tk' x, k' <> k -> ks s !! k' = Some tk' ->
     x ∈ members (timern tk') (timers tk') -> es' !! x = ents s !! x) ->
  timer_inv (TState (<[k := tk]> (ks s)) es').
Proof using.
  intros Hs Hk He k' tk'. cbn. rewrite lookup_insert. case_decide as E; subst.
  { by intros [= <-]. }
  intros Hl. eapply kthread_inv_frame; [by apply Hs|]. intros x Hx. by eapply He.
Qed.

Lemma other_members s k tk k' tk' x :
  timer_inv s -> ks s !! k = Some tk -> ks s !! k' = Some tk' -> k' <> k ->
  x ∈ members (timern tk') (timers tk') -> x ∉ members (timern tk) (timers tk).
Proof using.
  intros Hs Hk Hk' Hne Hx Hx'.
  destruct (member_entry _ _ _ _ (Hs _ _ Hk) Hx') as (t & Ht & Hl & _).
  destruct (member_entry _ _ _ _ (Hs _ _ Hk') Hx) as (t' & Ht' & Hl' & _). congruence.
Qed.

Lemma unarmed_not_member s k tk e t :
  timer_inv s -> ks s !! k = Some tk -> ents s !! e = Some t -> armed t = false ->
  e ∉ members (timern tk) (timers tk).
Proof using.
  intros Hs Hk Ht Ha He. destruct (member_entry _ _ _ _ (Hs _ _ Hk) He) as (t' & ? & ? & ? & _).
  congruence.
Qed.

Lemma armed_but_idx (o o' : option timer_entry) t :
  set_idx 0 <$> o' = set_idx 0 <$> o -> o' = Some t ->
  exists t0, o = Some t0 /\ armed t0 = armed t /\ localk t0 = localk t.
Proof using.
  intros E ->. destruct o as [t0|]; [|done]. cbn in E. exists t0.
  injection E. intros. split_and!; congruence.
Qed.

Lemma update_q_ptrs_fix tk : next_timer_tsc (update_q_ptrs (update_q_ptrs tk))
  = next_timer_tsc (update_q_ptrs tk).
Proof using. reflexivity. Qed.

(** ** Starting a timer *)

Lemma start_heap k tk es e d t :
  kthread_inv k tk es -> es !! e = Some t -> e ∉ members (timern tk) (timers tk) ->
  (S (timern tk) < RUNTIME_MAX_TIMERS)%nat ->
  let n := timern tk in
  let h1 := <[n := TimerIdx d e]> (timers tk) in
  let es1 := alter (set_localk k) e (alter (set_idx n) e es) in
  up_ok (S n) h1 n /\ heap_rep k (S n) h1 es1 /\ take (S n) h1 = pending tk ++ [TimerIdx d e].
Proof using.
  intros Hk Ht He Hn n h1 es1. destruct Hk as [Hlen _ Hh Hrep _ _].
  assert (Hold : forall j, (j < n)%nat -> h1 !!! j = timers tk !!! j).
  { intros j Hj. apply list_lookup_total_insert_ne. lia. }
  assert (Hnew : h1 !!! n = TimerIdx d e) by (apply list_lookup_total_insert_eq; lia).
  split_and!.
  - split.
    + intros j Hj Hne. pose proof (parent_lt j ltac:(lia)). rewrite !Hold by lia. apply Hh; lia.
    + intros j Hj Hp H0. pose proof (parent_lt j ltac:(lia)). lia.
  - intros i Hi. destruct (decide (i = n)) as [->|].
    + rewrite Hnew. cbn. exists (set_localk k (set_idx n t)). unfold es1.
      by rewrite !lookup_alter_eq, Ht.
    + rewrite Hold by lia. destruct (Hrep i) as (t0 & Ht0 & ?); [lia|]. exists t0.
      assert (e <> te (timers tk !!! i)).
      { intros ->. apply He, members_elem; [lia|]. exists i. split; [lia|done]. }
      unfold es1. by rewrite !lookup_alter_ne by done.
  - unfold pending. rewrite take_total_snoc, Hnew by (unfold h1; rewrite length_insert; lia).
    f_equal. unfold h1. by rewrite take_insert_ge by lia.
Qed.

(** Starting an entry that is initialized and not armed, on a kthread that has
    room, succeeds and adds exactly that timer. *)
Lemma timer_start_ok k e d s tk t :
  timer_inv s -> ks s !! k = Some tk -> ents s !! e = Some t -> armed t = false ->
  (S (timern tk) < RUNTIME_MAX_TIMERS)%nat ->
  exists s' tk', timer_start k e d s = Ok s' /\ timer_inv s' /\ ks s' !! k = Some tk' /\
    pending tk' ≡ₚ pending tk ++ [TimerIdx d e] /\
    (forall k', k' <> k -> ks s' !! k' = ks s !! k').
Proof using.
  intros Hs Hk Ht Ha Hn.
  assert (He := unarmed_not_member _ _ _ _ _ Hs Hk Ht Ha).
  destruct (start_heap k tk (ents s) e d t (Hs _ _ Hk) Ht He Hn) as (Hup & Hrep & Htk).
  pose proof (Hs _ _ Hk) as [Hlen _ _ _ Har _].
  unfold timer_start, timer_start_locked. rewrite Hk, Ht, Ha. cbn [BUG_ON mbind res_bind].
  rewrite (proj2 (Nat.leb_gt _ _)) by done. cbn [BUG_ON mbind res_bind].
  set (n := timern tk) in *. set (h1 := <[n := _]> _) in *. set (es1 := alter _ e _) in *.
  destruct (sift_up_up (S n) h1 es1 n) as [Hsh Hho];
    [lia|unfold h1; rewrite length_insert; lia|done|].
  destruct (sift_up h1 es1 n) as [h2 es2] eqn:Esift. cbn [fst] in Hho.
  cbn [mbind res_bind]. unfold with_q_ptrs. cbn [ks ents].
  eexists _, (update_q_ptrs (TimerKthread h2 (S n) (next_timer_tsc tk))).
  pose proof (shuffle_length _ _ _ Hsh) as Hl2. cbn in Hl2.
  pose proof (shuffle_perm _ _ _ Hsh) as Hperm. cbn in Hperm.
  assert (Hmem : forall x, x ∈ members (S n) h2 <-> x ∈ members n (timers tk) \/ x = e).
  { intros x. unfold members. rewrite Hperm, Htk, fmap_app. unfold pending. set_solver. }
  assert (Hes : forall x, x <> e -> set_idx 0 <$> es2 !! x = set_idx 0 <$> ents s !! x).
  { intros x Hx. pose proof (shuffle_but_idx _ _ _ x Hsh) as Hb. cbn in Hb. rewrite Hb.
    unfold es1. by rewrite !lookup_alter_ne by done. }
  assert (Hl1 : (S n <= length h1)%nat) by (unfold h1; rewrite length_insert; lia).
  split_and!; [done| | | |].
  - rewrite alter_insert_eq. apply timer_inv_update; [done| |].
    + constructor; cbn; try done; try lia.
      * rewrite Hl2. unfold h1. by rewrite length_insert.
      * pose proof (shuffle_rep _ _ _ _ Hsh Hrep) as Hrep2. cbn in Hrep2.
        intros i Hi. destruct (Hrep2 i Hi) as (t2 & Ht2 & Hix & Hlk).
        rewrite lookup_alter. case_decide as E; [|by exists t2].
        exists (set_armed true t2). rewrite E, Ht2. done.
      * intros x t' Hx. rewrite lookup_alter. case_decide as E.
        { subst. destruct (es2 !! x); [|done]. by intros [= <-]. }
        intros Hx2. eapply armed_but_idx in Hx2 as (t0 & H0 & <- & _); [|by apply Hes].
        apply Hmem in Hx as [Hx| ->]; [|done]. by eapply Har.
    + intros k' tk' x Hne Hk' Hx. assert (x <> e).
      { intros ->. by eapply unarmed_not_member. }
      rewrite lookup_alter_ne by done.
      pose proof (shuffle_frame _ _ _ x Hsh) as Hf. cbn in Hf. rewrite Hf.
      * unfold es1. by rewrite !lookup_alter_ne by done.
      * unfold members. rewrite Htk, fmap_app. rewrite not_elem_of_app. split.
        { by eapply other_members. } set_solver.
  - cbn. by rewrite lookup_alter_eq, lookup_insert_eq.
  - unfold pending at 1. cbn. by rewrite Hperm, Htk.
  - intros k' Hne. cbn. by rewrite lookup_alter_ne, lookup_insert_ne by done.
Qed.

(** ** Removing a timer *)

Lemma heap_rep_set_armed k n h es b e :
  heap_rep k n h es -> heap_rep k n h (alter (set_armed b) e es).
Proof using.
  intros Hrep i Hi. destruct (Hrep i Hi) as (t & Ht & Hix & Hl).
  rewrite lookup_alter. case_decide as E; [|by exists t].
  exists (set_armed b t). by rewrite E, Ht.
Qed.

(** The heap after a removal, whichever cell it left: [h2] is the array with the
    last cell moved into the gap and sifted into place. *)
Lemma removal_inv k tk es es2 h2 c n :
  kthread_inv k tk es -> timern tk = S n -> c ∈ pending tk ->
  length h2 = length (timers tk) -> heap_ok n h2 -> heap_rep k n h2 es2 ->
  c :: take n h2 ≡ₚ pending tk ->
  (forall x t2, x <> te c -> es2 !! x = Some t2 ->
     exists t0, es !! x = Some t0 /\ armed t0 = armed t2) ->
  kthread_inv k (update_q_ptrs (TimerKthread h2 n (next_timer_tsc tk))) es2.
Proof using.
  intros [Hlen Hn _ Hrep Har _] En Hc Hl2 Hh Hrep2 Hperm Hes. constructor; cbn; try done; try lia.
  intros x t2 Hx Ht2. assert (Hne : x <> te c).
  { intros ->. assert (Hnd : NoDup (te <$> pending tk)).
    { apply NoDup_alt. intros i j y Hi Hj.
      apply list_lookup_fmap_Some in Hi as (ci & -> & Hi).
      apply list_lookup_fmap_Some in Hj as (cj & Eij & Hj).
      unfold pending in Hi, Hj. apply lookup_take_Some in Hi as [Hi ?], Hj as [Hj ?].
      eapply (heap_rep_inj _ _ _ _ i j Hrep); [done|done|].
      by rewrite (list_lookup_total_correct _ _ _ Hi), (list_lookup_total_correct _ _ _ Hj). }
    rewrite <- Hperm in Hnd. cbn in Hnd. by apply (NoDup_cons_1_1 _ _ Hnd). }
  destruct (Hes _ _ Hne Ht2) as (t0 & Ht0 & <-). eapply Har; [|done].
  change (x ∈ te <$> pending tk). rewrite <- Hperm. cbn. by right.
Qed.

Lemma pending_cell k tk es i :
  kthread_inv k tk es -> (i < timern tk)%nat -> timers tk !!! i ∈ pending tk.
Proof using.
  intros [Hlen Hn _ _ _ _] Hi. apply list_elem_of_lookup. exists i. unfold pending.
  rewrite lookup_take_lt by done. apply list_lookup_lookup_total_lt. lia.
Qed.

(** Cancelling a pending timer succeeds and removes exactly that timer. *)
Lemma timer_cancel_ok e s :
  timer_inv s -> live e s ->
  exists s' t tk tk', timer_cancel e s = Ok (s', true) /\ timer_inv s' /\
    ents s !! e = Some t /\ ks s !! localk t = Some tk /\ ks s' !! localk t = Some tk' /\
    (timers tk !!! idx t) :: pending tk' ≡ₚ pending tk /\ te (timers tk !!! idx t) = e /\
    (armed <$> ents s' !! e = Some false) /\
    (forall k', k' <> localk t -> ks s' !! k' = ks s !! k').
Proof using.
  intros Hs (t & tk & Ht & Ha & Hk & Hi & He). pose proof (Hs _ _ Hk) as Hki.
  unfold timer_cancel. rewrite Ht, Hk, Ha. cbn [negb].
  set (k := localk t) in *. set (es := alter (set_armed false) e (ents s)).
  destruct (timern tk) as [|n] eqn:En; [lia|]. replace (S n - 1)%nat with n by lia.
  assert (Hrep : heap_rep k (S n) (timers tk) es).
  { unfold es. apply heap_rep_set_armed. rewrite <- En. apply Hki. }
  pose proof (ki_len _ _ _ Hki) as Hlen. pose proof (ki_n _ _ _ Hki) as HnM. rewrite En in HnM.
  pose proof (ki_heap _ _ _ Hki) as Hheap. rewrite En in Hheap.
  assert (Hes1 : forall x, x <> e -> es !! x = ents s !! x) by (intros; by apply lookup_alter_ne).
  assert (Hother : forall k' tk' x, k' <> k -> ks s !! k' = Some tk' ->
    x ∈ members (timern tk') (timers tk') -> x ∉ members (S n) (timers tk) /\ x <> e).
  { intros k' tk' x Hne Hk' Hx. assert (Hn' : x ∉ members (S n) (timers tk)).
    { rewrite <- En. by eapply other_members. }
    split; [done|]. intros ->. apply Hn', members_elem; [lia|]. by exists (idx t). }
  destruct (Nat.eqb_spec (idx t) n) as [Eix|Hne].
  - eexists _, t, tk, _. split_and!; try done.
    + apply timer_inv_update; [done| |].
      * eapply (removal_inv _ _ _ _ _ (timers tk !!! idx t) n); try done.
        -- by eapply pending_cell; [|rewrite En].
        -- eapply heap_ok_prefix; [done|lia].
        -- intros i Hi'. apply Hrep. lia.
        -- unfold pending. rewrite En, take_total_snoc, Eix by lia. apply Permutation_cons_append.
        -- intros x t2 Hx. rewrite He in Hx. rewrite Hes1 by done. eauto.
      * intros k' tk' x Hn' Hk' Hx. apply Hes1. by eapply Hother.
    + cbn. by rewrite lookup_insert_eq.
    + unfold pending. cbn. rewrite En, take_total_snoc, Eix by lia. apply Permutation_cons_append.
    + cbn. unfold es. by rewrite lookup_alter_eq, Ht.
    + intros k' Hn'. cbn. by rewrite lookup_insert_ne.
  - destruct (remove_at k n (timers tk) es (idx t)) as (Hhole & Hrep1 & Hperm1 & Hfr1 & Hbi1);
      [lia|lia|done|done|].
    set (h1 := <[idx t := _]> _) in *. set (es1 := alter _ _ es) in *.
    assert (Hl1 : length h1 = length (timers tk)) by (unfold h1; by rewrite length_insert).
    destruct (sift_up_hole n h1 es1 (idx t)) as [Hsh1 Hcase]; [lia|lia|done|].
    destruct (sift_up h1 es1 (idx t)) as [h2 es2] eqn:E2. cbn [fst] in Hcase.
    pose proof (shuffle_length _ _ _ Hsh1) as Hl2. cbn in Hl2.
    assert (Hdown : down_ok 0 n h2 (idx t)).
    { destruct Hcase as [Hh2|[[= -> ->] Hp]]; [apply heap_down_ok; [done|lia]|by apply hole_down_ok]. }
    destruct (sift_down_spec 0 n h2 es2 (idx t)) as [Hsh2 Hh3]; [lia|lia|done|].
    destruct (sift_down h2 es2 (idx t) n) as [h3 es3] eqn:E3. cbn [fst] in Hh3.
    pose proof (shuffle_trans _ _ _ _ Hsh1 Hsh2) as Hsh.
    pose proof (shuffle_perm _ _ _ Hsh) as Hp3. cbn in Hp3.
    assert (Hperm3 : (timers tk !!! idx t) :: take n h3 ≡ₚ pending tk).
    { unfold pending. by rewrite Hp3, En. }
    assert (Hbi3 : forall x, set_idx 0 <$> es3 !! x = set_idx 0 <$> es !! x).
    { intros x. rewrite <- Hbi1. exact (shuffle_but_idx _ _ _ x Hsh). }
    eexists _, t, tk, _. split_and!; try done.
    + apply timer_inv_update; [done| |].
      * eapply (removal_inv _ _ _ _ _ (timers tk !!! idx t) n); try done.
        -- by eapply pending_cell; [|rewrite En].
        -- rewrite <- Hl1. exact (shuffle_length _ _ _ Hsh).
        -- exact (shuffle_rep _ _ _ _ Hsh Hrep1).
        -- intros x t2 Hx Ht2. rewrite He in Hx. rewrite <- Hes1 by done.
           eapply armed_but_idx in Ht2 as (t0 & H0 & Ha0 & _); [|by apply Hbi3]. eauto.
      * intros k' tk' x Hn' Hk' Hx. destruct (Hother _ _ _ Hn' Hk' Hx) as [Hx1 Hx2].
        rewrite <- Hes1, <- Hfr1 by done.
        apply (shuffle_frame _ _ _ x Hsh). cbn. intros Hin. apply Hx1.
        unfold members. rewrite <- Hperm1. cbn. by right.
    + cbn. by rewrite lookup_insert_eq.
    + exact Hperm3.
    + cbn. specialize (Hbi3 e). unfold es in Hbi3. rewrite lookup_alter_eq, Ht in Hbi3. cbn in Hbi3.
      destruct (es3 !! e) as [t3|]; [|done]. cbn in *. injection Hbi3. intros. by f_equal.
    + intros k' Hn'. cbn. by rewrite lookup_insert_ne.
Qed.

(** One iteration of [timer_softirq] fires a timer of the earliest deadline,
    exactly when that deadline has passed. *)
Lemma timer_softirq_pop_ok k now s tk :
  timer_inv s -> ks s !! k = Some tk ->
  (exists s' c tk', timer_softirq_pop k now s = Ok (s', Some (te c)) /\ timer_inv s' /\
     ks s' !! k = Some tk' /\ c :: pending tk' ≡ₚ pending tk /\ deadline_us c <= now /\
     (forall c', c' ∈ pending tk -> deadline_us c <= deadline_us c') /\
     (forall k', k' <> k -> ks s' !! k' = ks s !! k')) \/
  (timer_softirq_pop k now s = Ok (s, None) /\
     forall c, c ∈ pending tk -> now < deadline_us c).
Proof using.
  intros Hs Hk. pose proof (Hs _ _ Hk) as Hki. unfold timer_softirq_pop. rewrite Hk.
  pose proof (ki_len _ _ _ Hki) as Hlen. pose proof (ki_n _ _ _ Hki) as HnM.
  pose proof (ki_heap _ _ _ Hki) as Hheap.
  assert (Hmin : forall c', c' ∈ pending tk -> dl (timers tk) 0%nat <= deadline_us c').
  { intros c' Hc'. apply list_elem_of_lookup in Hc' as [i Hc'].
    unfold pending in Hc'. apply lookup_take_Some in Hc' as [Hc' Hi].
    rewrite <- (list_lookup_total_correct _ _ _ Hc'). by eapply heap_ok_root. }
  destruct (Nat.ltb_spec 0 (timern tk)) as [Hpos|Hz]; cbn [andb].
  2: { right. split; [done|]. intros c Hc. unfold pending in Hc.
       replace (timern tk) with 0%nat in Hc by lia. by apply not_elem_of_nil in Hc. }
  destruct (Z.leb_spec (dl (timers tk) 0%nat) now) as [Hle|Hgt].
  2: { right. split; [done|]. intros c Hc. specialize (Hmin c Hc). lia. }
  left. destruct (timern tk) as [|n] eqn:En; [lia|]. replace (S n - 1)%nat with n by lia.
  set (c := timers tk !!! 0%nat) in *.
  pose proof (ki_rep _ _ _ Hki) as Hrep. rewrite En in Hrep.
  destruct (Nat.ltb_spec 0 n) as [Hn0|Hn0].
  - destruct (remove_at k n (timers tk) (ents s) 0) as (Hhole & Hrep1 & Hperm1 & Hfr1 & Hbi1);
      [lia|lia|done|done|].
    set (h1 := <[0%nat := _]> _) in *. set (es1 := alter _ _ (ents s)) in *.
    assert (Hl1 : length h1 = length (timers tk)) by (unfold h1; by rewrite length_insert).
    destruct (sift_down_spec 0 n h1 es1 0) as [Hsh Hh2]; [lia|lia|by apply hole_down_ok; [|left]|].
    destruct (sift_down h1 es1 0 n) as [h2 es2] eqn:E2. cbn [fst] in Hh2.
    pose proof (shuffle_perm _ _ _ Hsh) as Hp2. cbn in Hp2.
    assert (Hperm2 : c :: take n h2 ≡ₚ pending tk) by (unfold pending; by rewrite Hp2, En).
    assert (Hbi2 : forall x, set_idx 0 <$> es2 !! x = set_idx 0 <$> ents s !! x).
    { intros x. rewrite <- Hbi1. exact (shuffle_but_idx _ _ _ x Hsh). }
    eexists _, c, _. split_and!; try done.
    + apply timer_inv_update; [done| |].
      * eapply (removal_inv _ _ _ _ _ c n); try done.
        -- by eapply pending_cell; [|rewrite En].
        -- rewrite <- Hl1. exact (shuffle_length _ _ _ Hsh).
        -- exact (shuffle_rep _ _ _ _ Hsh Hrep1).
        -- intros x t2 Hx Ht2.
           eapply armed_but_idx in Ht2 as (t0 & H0 & Ha0 & _); [|by apply Hbi2]. eauto.
      * intros k' tk' x Hn' Hk' Hx. pose proof (other_members _ _ _ _ _ _ Hs Hk Hk' Hn' Hx) as Hx1.
        rewrite En in Hx1. rewrite <- Hfr1 by done.
        apply (shuffle_frame _ _ _ x Hsh). cbn. intros Hin. apply Hx1.
        unfold members. rewrite <- Hperm1. cbn. by right.
    + cbn. by rewrite lookup_insert_eq.
    + exact Hperm2.
    + intros k' Hn'. cbn. by rewrite lookup_insert_ne.
  - assert (n = 0%nat) as -> by lia.
    assert (Hp1 : c :: take 0 (timers tk) ≡ₚ pending tk).
    { unfold pending. rewrite En, take_total_snoc by lia. done. }
    eexists _, c, _. split_and!; try done.
    + apply timer_inv_update; [done| |done].
      eapply (removal_inv _ _ _ _ _ c 0); try done.
      * by eapply pending_cell; [|rewrite En].
      * eapply heap_ok_prefix; [done|lia].
      * intros i Hi'. lia.
      * eauto.
    + cbn. by rewrite lookup_insert_eq.
    + exact Hp1.
    + intros k' Hn'. cbn. by rewrite lookup_insert_ne.
Qed.

(** ** Merging two heaps *)

Lemma merge_loop_ok k more i rheap heap n es :
  length heap = RUNTIME_MAX_TIMERS -> (n + more < RUNTIME_MAX_TIMERS)%nat ->
  (i + more <= length rheap)%nat ->
  heap_rep k n heap es ->
  let cells := take more (drop i rheap) in
  NoDup (te <$> cells) -> (forall x, x ∈ te <$> cells -> is_Some (es !! x) /\ x ∉ members n heap) ->
  exists heap' es', merge_loop more i k rheap heap n es = Ok (heap', (n + more)%nat, es') /\
    length heap' = RUNTIME_MAX_TIMERS /\ heap_rep k (n + more) heap' es' /\
    take (n + more) heap' = take n heap ++ cells /\
    (forall x, x ∉ te <$> cells -> es' !! x = es !! x) /\
    (forall x, armed <$> es' !! x = armed <$> es !! x).
Proof using.
  revert i heap n es. induction more as [|more IH]; intros i heap n es Hlen Hn Hi Hrep cells Hnd Hcells.
  { exists heap, es. rewrite Nat.add_0_r. unfold cells. cbn. by rewrite app_nil_r. }
  assert (Ecells : cells = rheap !!! i :: take more (drop (S i) rheap)).
  { unfold cells. by rewrite (drop_S _ (rheap !!! i)) by (apply list_lookup_lookup_total_lt; lia). }
  rewrite Ecells, fmap_cons in Hnd, Hcells. clearbody cells. subst cells.
  set (c := rheap !!! i) in *. set (cells := take more (drop (S i) rheap)) in *.
  cbn [merge_loop]. fold c. set (heap1 := <[n := c]> heap).
  assert (Hc : heap1 !!! n = c) by (apply list_lookup_total_insert_eq; lia).
  rewrite Hc. set (es1 := alter (set_localk k) (te c) (alter (set_idx n) (te c) es)).
  rewrite (proj2 (Nat.leb_gt _ _)) by lia. cbn [BUG_ON mbind res_bind].
  destruct (Hcells (te c)) as [[t Ht] Hnotin]; [by left|].
  assert (Hes1 : forall x, x <> te c -> es1 !! x = es !! x).
  { intros x Hx. unfold es1. by rewrite !lookup_alter_ne by done. }
  assert (Hmem1 : members (S n) heap1 = members n heap ++ [te c]).
  { unfold members. rewrite take_total_snoc, Hc, fmap_app by (unfold heap1; rewrite length_insert; lia).
    unfold heap1. by rewrite take_insert_ge by lia. }
  assert (Hrep1 : heap_rep k (S n) heap1 es1).
  { intros j Hj. destruct (decide (j = n)) as [->|].
    - rewrite Hc. exists (set_localk k (set_idx n t)). unfold es1. by rewrite !lookup_alter_eq, Ht.
    - unfold heap1. rewrite list_lookup_total_insert_ne by done.
      destruct (Hrep j) as (t0 & Ht0 & ?); [lia|]. exists t0. rewrite Hes1; [done|].
      intros E. apply Hnotin, members_elem; [lia|]. exists j. split; [lia|done]. }
  destruct (IH (S i) heap1 (S n) es1) as (heap' & es' & -> & Hl' & Hrep' & Htake & Hfr & Har);
    [unfold heap1; by rewrite length_insert|lia|lia|done|by apply NoDup_cons_1_2 in Hnd| |].
  { intros x Hx. destruct (Hcells x) as [Hsome Hx']; [by right|].
    assert (x <> te c) by (intros ->; by apply NoDup_cons_1_1 in Hnd).
    rewrite Hes1 by done. split; [done|]. rewrite Hmem1. set_solver. }
  exists heap', es'. replace (n + S more)%nat with (S n + more)%nat by lia. split_and!; try done.
  - rewrite Htake. unfold heap1 at 1.
    rewrite take_total_snoc, list_lookup_total_insert_eq, take_insert_ge by
      (rewrite ?length_insert; lia). by rewrite <- app_assoc.
  - intros x Hx. rewrite Hfr by set_solver. apply Hes1. set_solver.
  - intros x. rewrite Har. destruct (decide (x = te c)) as [->|]; [|by rewrite Hes1].
    unfold es1. by rewrite !lookup_alter_eq, Ht.
Qed.

Lemma heap_from_down i n h : heap_from (S i) n h -> down_ok i n h i.
Proof using.
  intros Hh. split; [intros j Hj Hb Hne; apply Hh; lia|].
  intros j Hj _ H0 Hb. pose proof (parent_lt i H0). lia.
Qed.

Lemma heapify_loop_ok i h es n :
  (i < n)%nat -> (n <= length h)%nat -> heap_from (S i) n h ->
  shuffle n (h, es) (heapify_loop i h es n) /\ heap_ok n (heapify_loop i h es n).1.
Proof using.
  revert h es. induction i as [|i IH]; intros h es Hi Hn Hh; cbn [heapify_loop];
    match goal with |- context [sift_down h es ?j n] =>
      destruct (sift_down_spec j n h es j Hi Hn (heap_from_down _ _ _ Hh)) as [Hsh Ho] end.
  - destruct (sift_down h es 0 n). done.
  - destruct (sift_down h es (S i) n) as [h1 es1].
    pose proof (shuffle_length _ _ _ Hsh) as Hl. cbn in Hl, Ho.
    destruct (IH h1 es1) as [Hsh2 Ho2]; [lia|lia|done|]. split; [|done].
    by eapply shuffle_trans.
Qed.

Lemma NoDup_members k tk es : kthread_inv k tk es -> NoDup (te <$> pending tk).
Proof using.
  intros [Hlen Hn _ Hrep _ _]. apply NoDup_alt. intros i j y Hi Hj.
  apply list_lookup_fmap_Some in Hi as (ci & -> & Hi).
  apply list_lookup_fmap_Some in Hj as (cj & Eij & Hj).
  unfold pending in Hi, Hj. apply lookup_take_Some in Hi as [Hi ?], Hj as [Hj ?].
  eapply (heap_rep_inj _ _ _ _ i j Hrep); [done|done|].
  by rewrite (list_lookup_total_correct _ _ _ Hi), (list_lookup_total_correct _ _ _ Hj).
Qed.

(** Merging moves all of [r]'s timers to [k] and leaves [r] empty. *)
Lemma timer_merge_ok k r s tk tr :
  timer_inv s -> k <> r -> ks s !! k = Some tk -> ks s !! r = Some tr ->
  (timern tk + timern tr < RUNTIME_MAX_TIMERS)%nat ->
  exists s' tk' tr', timer_merge k r s = Ok s' /\ timer_inv s' /\
    ks s' !! k = Some tk' /\ ks s' !! r = Some tr' /\
    pending tk' ≡ₚ pending tk ++ pending tr /\ pending tr' = [] /\
    (forall k', k' <> k -> k' <> r -> ks s' !! k' = ks s !! k').
Proof using.
  intros Hs Hne Hk Hr Hn. pose proof (Hs _ _ Hk) as Hki. pose proof (Hs _ _ Hr) as Hri.
  unfold timer_merge. rewrite Hk, Hr. destruct (Nat.eqb_spec (timern tr) 0) as [E0|Hpos].
  { assert (Hp : pending tr = []) by (unfold pending; by rewrite E0).
    eexists _, _, tr. split_and!; try done.
    - apply timer_inv_update; [done| |done]. destruct Hki. by constructor.
    - cbn. by rewrite lookup_insert_eq.
    - cbn. by rewrite lookup_insert_ne by done.
    - rewrite Hp, app_nil_r. done.
    - intros. cbn. by rewrite lookup_insert_ne by done. }
  pose proof (ki_len _ _ _ Hki) as Hlk. pose proof (ki_len _ _ _ Hri) as Hlr.
  pose proof (ki_n _ _ _ Hri) as Hnr.
  destruct (merge_loop_ok k (timern tr) 0 (timers tr) (timers tk) (timern tk) (ents s))
    as (h1 & es1 & -> & Hl1 & Hrep1 & Htake1 & Hfr1 & Har1);
    [done|done|lia|apply Hki|apply (NoDup_members _ _ _ Hri)| |].
  { intros x Hx. change (x ∈ members (timern tr) (timers tr)) in Hx. split.
    - destruct (member_entry _ _ _ _ Hri Hx) as (t & -> & _). done.
    - by eapply other_members. }
  change (take (timern tr) (drop 0 (timers tr))) with (pending tr) in *.
  change (take (timern tk) (timers tk)) with (pending tk) in *.
  cbn [mbind res_bind]. set (n := (timern tk + timern tr)%nat) in *.
  assert (Hdiv : (n / D < n)%nat) by (unfold D; apply Nat.div_lt; lia).
  destruct (heapify_loop_ok (n / D) h1 es1 n) as [Hsh Hh2]; [done|lia| |].
  { intros j Hj Hb. exfalso. unfold parent, D in Hb.
    pose proof (Nat.div_mod_eq n 4). pose proof (Nat.mod_upper_bound n 4 ltac:(lia)).
    pose proof (Nat.Div0.div_le_mono (j - 1) n 4 ltac:(lia)). lia. }
  destruct (heapify_loop (n / D) h1 es1 n) as [h2 es2] eqn:E2. cbn [fst] in Hh2.
  pose proof (shuffle_perm _ _ _ Hsh) as Hp2. cbn in Hp2. rewrite Htake1 in Hp2.
  pose proof (shuffle_length _ _ _ Hsh) as Hl2. cbn in Hl2.
  assert (Hfr : forall x, x ∉ te <$> pending tk ++ pending tr -> es2 !! x = ents s !! x).
  { intros x Hx. rewrite fmap_app in Hx. rewrite <- Hfr1 by set_solver.
    apply (shuffle_frame _ _ _ x Hsh). unfold members. cbn. rewrite Htake1, fmap_app. done. }
  assert (Har : forall x, armed <$> es2 !! x = armed <$> ents s !! x).
  { intros x. rewrite <- Har1. pose proof (shuffle_but_idx _ _ _ x Hsh) as Hb. cbn in Hb.
    destruct (es2 !! x), (es1 !! x); simplify_eq/=; try done. congruence. }
  eexists _, _, _. split_and!; try done.
  - intros k' tk'. cbn. rewrite lookup_insert. case_decide as Ek; subst.
    { intros [= <-]. constructor; cbn; try done; try lia.
      + exact (shuffle_rep _ _ _ _ Hsh Hrep1).
      + intros x t Hx Ht. unfold members in Hx. rewrite Hp2, fmap_app in Hx.
        apply elem_of_app in Hx as [Hx|Hx];
          [destruct (member_entry _ _ _ _ Hki Hx) as (t0 & Ht0 & _ & Ha0 & _)
          |destruct (member_entry _ _ _ _ Hri Hx) as (t0 & Ht0 & _ & Ha0 & _)];
          specialize (Har x); rewrite Ht, Ht0 in Har; cbn in Har; congruence. }
    rewrite lookup_insert. case_decide as Er; subst.
    { intros [= <-]. destruct Hri. constructor; cbn; try done; try lia.
      + intros j Hj. lia.
      + intros j Hj. lia.
      + intros x t Hx. by apply not_elem_of_nil in Hx. }
    intros Hk'. eapply kthread_inv_frame; [by apply Hs|]. intros x Hx. apply Hfr.
    rewrite fmap_app, not_elem_of_app. split; by eapply other_members.
  - cbn. by rewrite lookup_insert_eq.
  - cbn. by rewrite lookup_insert_ne, lookup_insert_eq by done.
  - exact Hp2.
  - reflexivity.
  - intros k' H1 H2. cbn. by rewrite !lookup_insert_ne by done.
Qed.

(** ** The softirq loop *)

Lemma is_valid_heap_loop_iff h i :
  is_valid_heap_loop h i = true <-> forall j, (1 < j <= i)%nat -> dl h (parent j) <= dl h j.
Proof using.
  induction i as [|[|i] IH]; [split; [lia|done]|split; [lia|done]|].
  change (is_valid_heap_loop h (S (S i))) with
    (if dl h (S (S i)) <? dl h (parent (S (S i))) then false else is_valid_heap_loop h (S i)).
  destruct (Z.ltb_spec (dl h (S (S i))) (dl h (parent (S (S i))))) as [Hlt|Hge].
  - split; [done|]. intros Hall. specialize (Hall (S (S i)) ltac:(lia)). lia.
  - rewrite IH. split; intros Hall j Hj; [|apply Hall; lia].
    destruct (decide (j = S (S i))) as [->|]; [done|apply Hall; lia].
Qed.

Lemma is_valid_heap_ok n h : heap_ok n h -> is_valid_heap h n = true.
Proof using. intros Hh. apply is_valid_heap_loop_iff. intros j Hj. apply Hh; lia. Qed.

(** A run of the loop: each cell that fires has expired when the clock is read and is the
    earliest of those pending then; it is removed, and its handler runs before the next. *)
Inductive fires (run : nat -> tstate -> tstate) (now : nat -> Z) (k : nat) : nat -> tstate -> heap_t -> tstate -> Prop :=
| fires_stop n s : fires run now k n s [] s
| fires_next n s tk c s1 tk1 cells s' :
    ks s !! k = Some tk -> c ∈ pending tk -> deadline_us c <= now n ->
    (forall c', c' ∈ pending tk -> deadline_us c <= deadline_us c') ->
    ks s1 !! k = Some tk1 -> c :: pending tk1 ≡ₚ pending tk -> (forall k', k' <> k -> ks s1 !! k' = ks s !! k') ->
    fires run now k (S n) (run (te c) s1) cells s' ->
    fires run now k n s (c :: cells) s'.

(** The callbacks may start, cancel and merge timers: all that is asked of them
    is that they keep the invariant and do not unregister kthread [k]. *)
Lemma timer_softirq_loop_fires budget run now k s fired :
  (forall e s, timer_inv s -> is_Some (ks s !! k) ->
     timer_inv (run e s) /\ is_Some (ks (run e s) !! k)) ->
  timer_inv s -> is_Some (ks s !! k) ->
  exists s' cells, timer_softirq_loop budget run now k s fired = Ok (s', fired ++ (te <$> cells)) /\
    fires run now k (length fired) s cells s' /\ timer_inv s' /\ (length cells <= budget)%nat /\
    ((length cells < budget)%nat -> forall tk' c, ks s' !! k = Some tk' -> c ∈ pending tk' ->
       now (length fired + length cells)%nat < deadline_us c).
Proof using.
  intros Hrun. revert s fired. induction budget as [|budget IH]; intros s fired Hs [tk Hk];
    cbn [timer_softirq_loop].
  { exists s, []. rewrite app_nil_r. split_and!; try done; cbn; try lia. constructor. }
  destruct (timer_softirq_pop_ok k (now (length fired)) s tk Hs Hk)
    as [(s1 & c & tk1 & -> & Hs1 & Hk1 & Hp1 & Hle & Hmin & Hoth)|[-> Hnone]]; cbn [mbind res_bind].
  - destruct (Hrun (te c) s1 Hs1 ltac:(by eexists)) as [Hs2 Hk2].
    destruct (IH (run (te c) s1) (fired ++ [te c]) Hs2 Hk2) as (s' & cells & -> & Hf & Hs' & Hlen & Hend).
    rewrite length_app, Nat.add_1_r in Hf. exists s', (c :: cells). rewrite <- app_assoc. cbn. split_and!; try done; [|lia|].
    + apply (fires_next run now k _ s tk c s1 tk1); try done. rewrite <- Hp1. by left.
    + intros Hlt. rewrite length_app in Hend. cbn in Hend. replace (length fired + S (length cells))%nat with (length fired + 1 + length cells)%nat by lia. apply Hend. lia.
  - exists s, []. rewrite app_nil_r. split_and!; try done; [constructor|cbn; lia|].
    intros _ tk' c Hk' Hc. simplify_eq. cbn. rewrite Nat.add_0_r. by apply Hnone.
Qed.

(** Handlers that, up to time [t], start or move to [k] only timers for [t] or later, do
    not disturb the order. *)
Definition later_only (run : nat -> tstate -> tstate) (k : nat) (t : Z) : Prop :=
  forall e s tk tk' c, ks s !! k = Some tk -> ks (run e s) !! k = Some tk' -> c ∈ pending tk' -> c ∈ pending tk \/ t <= deadline_us c.

Lemma fires_sorted run now k t n s cells s' :
  (forall n, now n <= t) -> later_only run k t -> fires run now k n s cells s' ->
  Sorted.StronglySorted Z.le (deadline_us <$> cells) /\
  forall d, d <= t -> (forall tk c, ks s !! k = Some tk -> c ∈ pending tk -> d <= deadline_us c) -> forall c, c ∈ cells -> d <= deadline_us c.
Proof using.
  intros Hnow Hlat. induction 1 as [|n s tk c s1 tk1 cells s' Hk Hc Hle Hmin Hk1 Hp Hoth _ [IH1 IH2]]; [split; [constructor|set_solver]|].
  assert (Hnext : forall d, d <= t -> (forall c', c' ∈ pending tk -> d <= deadline_us c') -> forall c', c' ∈ cells -> d <= deadline_us c').
  { intros d Hd Hall. apply IH2; [done|]. intros tk2 c' Hk2 Hc'. destruct (Hlat (te c) s1 tk1 tk2 c' Hk1 Hk2 Hc') as [H|H]; [|lia].
    apply Hall. rewrite <- Hp. by right. }
  split.
  - cbn. constructor; [done|]. apply Forall_fmap, Forall_forall. intros c' Hc'%list_elem_of_In. apply (Hnext (deadline_us c)); [|done|done]. specialize (Hnow n). lia.
  - intros d Hd Hall c' [->|Hc']%elem_of_cons; [by apply (Hall tk)|]. apply Hnext; [done| |done]. intros c2 Hc2. by apply (Hall tk).
Qed.

(** Handlers that leave the timers of [k] alone: the loop is a partial heap sort. *)
Lemma fires_perm run now k n s cells s' tk :
  (forall e s, ks (run e s) !! k = ks s !! k) -> fires run now k n s cells s' -> ks s !! k = Some tk ->
  exists tk', ks s' !! k = Some tk' /\ cells ++ pending tk' ≡ₚ pending tk /\
    forall c c', c ∈ cells -> c' ∈ pending tk' -> deadline_us c <= deadline_us c'.
Proof using.
  intros Hsame Hf. revert tk. induction Hf as [|n s tk c s1 tk1 cells s' Hk Hc Hle Hmin Hk1 Hp Hoth _ IH]; intros tk0 Hk0; [exists tk0; split_and!; [done|done|set_solver]|].
  assert (tk0 = tk) as -> by congruence. destruct (IH tk1) as (tk' & Hk' & Hp' & Ho); [by rewrite Hsame|]. exists tk'. split_and!; [done|cbn; by rewrite Hp'|].
  intros c1 c2 [->|H1]%elem_of_cons H2; [|by apply Ho]. apply Hmin. rewrite <- Hp, <- Hp'. right. apply elem_of_app. by right.
Qed.

(** ** Properties *)

(**  [timer_start] on an initialized, unarmed entry and a kthread with room
    never fails: it keeps the invariant of all heaps (heap order, every entry's
    [idx] and [localk] back-pointers, the deadline published to the iokernel)
    and adds exactly the given (deadline, entry) cell to that kthread. *)
Theorem timer_start_correct k e d s tk t :
  timer_inv s -> ks s !! k = Some tk -> ents s !! e = Some t -> armed t = false ->
  (S (timern tk) < RUNTIME_MAX_TIMERS)%nat ->
  exists s' tk', timer_start k e d s = Ok s' /\ timer_inv s' /\ ks s' !! k = Some tk' /\
    pending tk' ≡ₚ pending tk ++ [TimerIdx d e] /\
    (forall k', k' <> k -> ks s' !! k' = ks s !! k').
Proof using. apply timer_start_ok. Qed.

(**  [timer_cancel] of a timer that is pending returns true, disarms the
    entry and removes exactly its cell, keeping the invariant of all heaps,
    whichever position of whichever kthread's heap the entry is at. *)
Theorem timer_cancel_correct e s :
  timer_inv s -> live e s ->
  exists s' t tk tk', timer_cancel e s = Ok (s', true) /\ timer_inv s' /\
    ents s !! e = Some t /\ ks s !! localk t = Some tk /\ ks s' !! localk t = Some tk' /\
    (timers tk !!! idx t) :: pending tk' ≡ₚ pending tk /\ te (timers tk !!! idx t) = e /\
    (armed <$> ents s' !! e = Some false) /\
    (forall k', k' <> localk t -> ks s' !! k' = ks s !! k').
Proof using. apply timer_cancel_ok. Qed.

(**  [timer_merge] moves all timers of kthread [r] to kthread [k], restores
    the heap order of the union in place, re-points every moved entry to its
    new heap and cell, and leaves [r] without timers. *)
Theorem timer_merge_correct k r s tk tr :
  timer_inv s -> k <> r -> ks s !! k = Some tk -> ks s !! r = Some tr ->
  (timern tk + timern tr < RUNTIME_MAX_TIMERS)%nat ->
  exists s' tk' tr', timer_merge k r s = Ok s' /\ timer_inv s' /\
    ks s' !! k = Some tk' /\ ks s' !! r = Some tr' /\
    pending tk' ≡ₚ pending tk ++ pending tr /\ pending tr' = [] /\
    (forall k', k' <> k -> k' <> r -> ks s' !! k' = ks s !! k').
Proof using. apply timer_merge_ok. Qed.

(** C10.  [timer_softirq] with any handlers, which may start, cancel and merge timers as
    long as they keep the timers well-formed, and any clock.  It never fails the debug
    check of the heap at its entry, and calls the handlers of the cells of a run of
    [fires]: each was the earliest pending timer of the kthread when it was taken out and
    its deadline had passed; there are at most [budget], and if there are fewer, no timer
    that is pending has expired at the last look at the clock.  If meanwhile only timers
    for time [t] or later come in, and the clock does not run past [t], the handlers run in
    the order of the deadlines.  If the handlers leave the timers of the kthread alone,
    the cells that fired and those still pending are together those that were pending
    before, and none that is left is earlier than one that fired. *)
Theorem timer_softirq_fires_in_order budget run now k s tk :
  (forall e s, timer_inv s -> is_Some (ks s !! k) ->
     timer_inv (run e s) /\ is_Some (ks (run e s) !! k)) ->
  timer_inv s -> ks s !! k = Some tk ->
  exists s' cells, timer_softirq budget run now k s = Ok (s', te <$> cells) /\
    fires run now k 0 s cells s' /\ timer_inv s' /\ (length cells <= budget)%nat /\
    ((length cells < budget)%nat -> forall tk' c, ks s' !! k = Some tk' -> c ∈ pending tk' ->
       now (length cells) < deadline_us c) /\
    (forall t, (forall n, now n <= t) -> later_only run k t -> Sorted.StronglySorted Z.le (deadline_us <$> cells)) /\
    ((forall e s, ks (run e s) !! k = ks s !! k) ->
       exists tk', ks s' !! k = Some tk' /\ cells ++ pending tk' ≡ₚ pending tk /\
         forall c c', c ∈ cells -> c' ∈ pending tk' -> deadline_us c <= deadline_us c').
Proof using.
  intros Hrun Hs Hk. unfold timer_softirq. rewrite Hk, is_valid_heap_ok by apply (Hs _ _ Hk).
  cbn [negb BUG_ON mbind res_bind].
  destruct (timer_softirq_loop_fires budget run now k s [] Hrun Hs ltac:(by eexists)) as (s' & cells & E & Hf & Hs' & Hlen & Hend).
  exists s', cells. split_and!; try done.
  - intros t Hnow Hlat. by apply (fires_sorted run now k t 0 s cells s').
  - intros Hsame. by apply (fires_perm run now k 0 s).
Qed.

End timer.

(** ** Concrete states *)

(** Two kthreads without timers and the initialized entries 1, 2 and 3. *)
Definition example_state : tstate :=
  TState (<[0%nat := TimerKthread (replicate RUNTIME_MAX_TIMERS (TimerIdx 0 0)) 0 0]>
         (<[1%nat := TimerKthread (replicate RUNTIME_MAX_TIMERS (TimerIdx 0 0)) 0 0]> ∅))
    (<[1%nat := TimerEntry false 0 0 0 0]> (<[2%nat := TimerEntry false 0 0 0 0]>
     (<[3%nat := TimerEntry false 0 0 0 0]> ∅))).

Lemma example_inv : timer_inv 2000 0 example_state.
Proof.
  intros k tk Hk. assert (Hn : timern tk = 0%nat /\ length (timers tk) = RUNTIME_MAX_TIMERS /\
    next_timer_tsc tk = 0).
  { cbn in Hk. rewrite !lookup_insert in Hk. repeat case_decide; simplify_eq; cbn;
      by rewrite length_replicate. }
  destruct Hn as (Hn & Hl & Ht). constructor; rewrite ?Hn; try done.
  - unfold RUNTIME_MAX_TIMERS. lia.
  - intros j Hj. lia.
  - intros j Hj. lia.
  - intros x t Hx. by apply not_elem_of_nil in Hx.
  - unfold update_q_ptrs. by rewrite Hn.
Qed.

(** The same with timers 1, 2 and 3 started on kthread 0, with the deadlines
    30, 10 and 20. *)
Definition example_started : tstate :=
  match (s ← timer_start 2000 0 0 1 30 example_state;
         s ← timer_start 2000 0 0 2 10 s; timer_start 2000 0 0 3 20 s) with
  | Ok s => s
  | Bug => example_state
  end.

Lemma example_started_inv : timer_inv 2000 0 example_started.
Proof.
  assert (H := example_inv). unfold example_started.
  destruct (timer_start_ok 2000 0 0 1 30 example_state _ _ H eq_refl eq_refl eq_refl
    ltac:(vm_compute; lia)) as (s1 & tk1 & E1 & H1 & _).
  rewrite E1. cbn [mbind res_bind].
  vm_compute in E1. injection E1 as <-.
  edestruct (timer_start_ok 2000 0 0 2 10) as (s2 & tk2 & E2 & H2 & _);
    [exact H1|reflexivity|reflexivity|reflexivity|vm_compute; lia|].
  rewrite E2. cbn [mbind res_bind]. vm_compute in E2. injection E2 as <-.
  edestruct (timer_start_ok 2000 0 0 3 20) as (s3 & tk3 & E3 & H3 & _);
    [exact H2|reflexivity|reflexivity|reflexivity|vm_compute; lia|].
  rewrite E3. exact H3.
Qed.

Lemma timer_start_correct_witness :
  exists s' tk', timer_start 2000 0 0 2 77 example_state = Ok s' /\ ks s' !! 0%nat = Some tk' /\
    pending tk' ≡ₚ [TimerIdx 77 2].
Proof.
  destruct (timer_start_correct 2000 0 0 2 77 example_state
    (TimerKthread (replicate RUNTIME_MAX_TIMERS (TimerIdx 0 0)) 0 0) (TimerEntry false 0 0 0 0)
    example_inv eq_refl eq_refl eq_refl ltac:(vm_compute; lia))
    as (s' & tk' & H1 & _ & H2 & H3 & _).
  exists s', tk'. auto.
Defined.

(** Cancelling timer 2, the root, leaves 1 and 3. *)
Lemma timer_cancel_correct_witness :
  live 2 example_started /\
  exists s', timer_cancel 2000 0 2 example_started = Ok (s', true) /\ timer_inv 2000 0 s'.
Proof.
  assert (Hl : live 2 example_started)
    by (do 2 eexists; split_and!; [reflexivity|reflexivity|reflexivity|vm_compute; lia|reflexivity]).
  split; [exact Hl|].
  destruct (timer_cancel_correct 2000 0 2 example_started example_started_inv Hl)
    as (s' & t & tk & tk' & H1 & H2 & _).
  exists s'. auto.
Defined.

(** Kthread 1 absorbs the three timers of kthread 0. *)
Lemma timer_merge_correct_witness :
  exists s' tk', timer_merge 2000 0 1 0 example_started = Ok s' /\ ks s' !! 1%nat = Some tk' /\
    length (pending tk') = 3%nat.
Proof.
  destruct (timer_merge_correct 2000 0 1 0 example_started
    (TimerKthread (replicate RUNTIME_MAX_TIMERS (TimerIdx 0 0)) 0 0)
    (default (TimerKthread [] 0 0) (ks example_started !! 0%nat))
    example_started_inv) as (s' & tk' & tr' & H1 & _ & H2 & _ & H4 & _);
    [done|reflexivity|vm_compute; reflexivity|vm_compute; lia|].
  exists s', tk'. split_and!; [done|done|]. by rewrite H4.
Defined.

(** At time 25 the timers with the deadlines 10 and 20 fire, in this order. *)
Lemma timer_softirq_fires_in_order_witness :
  exists s', timer_softirq 2000 0 8 (fun _ s => s) (fun _ => 25) 0 example_started
    = Ok (s', [2%nat; 3%nat]) /\ exists cells : heap_t, te <$> cells = [2%nat; 3%nat] /\
      Sorted.StronglySorted Z.le (deadline_us <$> cells).
Proof.
  destruct (timer_softirq_fires_in_order 2000 0 8 (fun _ s => s) (fun _ => 25) 0 example_started
    (default (TimerKthread [] 0 0) (ks example_started !! 0%nat)))
    as (s' & cells & H & _ & _ & _ & _ & Hs & _); [auto|exact example_started_inv|vm_compute; reflexivity|].
  exists s'. assert (E : te <$> cells = [2%nat; 3%nat]).
  { assert (C : exists s0, timer_softirq 2000 0 8 (fun _ s => s) (fun _ => 25) 0 example_started
      = Ok (s0, [2%nat; 3%nat])) by (eexists; vm_compute; reflexivity).
    destruct C as [s0 C]. rewrite C in H. congruence. }
  rewrite <- E. split; [exact H|]. exists cells. split; [done|]. apply (Hs 25); [done|].
  intros e s tk tk' c Hk Hk' Hc. left. congruence.
Defined.

(** [example_started] after timer 2 has fired at time 15. *)
Definition example_fired : tstate :=
  match timer_softirq 2000 0 1 (fun _ s => s) (fun _ => 15) 0 example_started with
  | Ok (s, _) => s
  | Bug => example_started
  end.

(**  [timer_softirq] never clears [armed], so cancelling a timer that has
    already fired does not return false as documented: it returns true and
    drops another timer that is still pending.  Here timer 2 fires, and its
    cancellation makes kthread 0 forget timer 3, whose deadline is still ahead
    and whose handler has not run. *)
Theorem timer_cancel_after_fire_drops_other :
  timer_softirq 2000 0 1 (fun _ s => s) (fun _ => 15) 0 example_started
    = Ok (example_fired, [2%nat]) /\
  (pending <$> ks example_fired !! 0%nat) = Some [TimerIdx 20 3; TimerIdx 30 1] /\
  match timer_cancel 2000 0 2 example_fired with
  | Ok (s', cancelled) =>
      cancelled = true /\ (pending <$> ks s' !! 0%nat) = Some [TimerIdx 30 1]
  | Bug => False
  end.
Proof.
  split; [vm_compute; reflexivity|]. split; vm_compute; [reflexivity|]. by split.
Qed.

(** The debug check [is_valid_heap] accepts exactly the arrays whose cells
    from index 2 on are not before their parent: its loop stops at index 2, so
    cell 1 is never compared with the root. *)
Theorem is_valid_heap_skips_cell_1 h n :
  is_valid_heap h n = true <-> forall j, (1 < j < n)%nat -> dl h (parent j) <= dl h j.
Proof.
  unfold is_valid_heap. rewrite is_valid_heap_loop_iff. split; intros H j Hj; apply H; lia.
Qed.
