(* ===== verification/Mutex.v ===== *)
(** * runtime/sync.c: mutexes and condition variables

    A mutex and a condition variable shared by any number of threads.  The code
    synchronises with atomic instructions on [held] and with the two waiter
    spin locks, so the model interleaves single shared-memory accesses: each
    thread has a program counter in the functions of sync.c and sync.h, and
    [step] executes its next atomic access. *)

From stdpp Require Import functions.
From S2P Require Import Prelude.

Definition tid := nat.

(** What a thread re-acquires when [condvar_wait], [condvar_wait_spin] or
    [condvar_wait_no_lock] returns. *)
Inductive relock := RMutex | RSpin | RNone.

(** Who called [mutex_unlock]: the program, or [condvar_wait]. *)
Inductive after := ARet | AWait.

(** Program counters; each names the access that comes next. *)
Inductive pc :=
| Idle                             (* running outside these functions, mutex not held *)
| Holding                          (* running outside these functions, mutex held *)
| LockSlow                         (* __mutex_lock: spin_lock_np(&m->waiter_lock) *)
| LockLocked                       (* atomic_fetch_and_or(&m->held, WAITER_FLAG) *)
| LockTake                         (* atomic_write(&m->held, 1) *)
| LockTaken                        (* spin_unlock_np(&m->waiter_lock) *)
| LockEnq                          (* list_add_tail(&m->waiters, &myth->link) *)
| LockPark                         (* thread_park_and_unlock_np(&m->waiter_lock) *)
| Parked                           (* sleeping in __mutex_lock *)
| UnlockSlow (k : after)           (* __mutex_unlock: spin_lock_np(&m->waiter_lock) *)
| UnlockLocked (k : after)         (* list_pop(&m->waiters) *)
| UnlockFree (k : after)           (* atomic_write(&m->held, 0) *)
| UnlockDone (k : after)           (* spin_unlock_np(&m->waiter_lock) *)
| UnlockPop (k : after) (w : tid)  (* spin_unlock_np(&m->waiter_lock) *)
| UnlockWake (k : after) (w : tid) (* thread_ready(waketh) *)
| CvStart (r : relock)             (* condvar_wait*: spin_lock_np(&cv->waiter_lock) *)
| CvLocked (r : relock)            (* mutex_unlock(m), spin_unlock_np(s) or list_add_tail *)
| CvEnq (r : relock)               (* list_add_tail(&cv->waiters, &myth->link) *)
| CvPark (r : relock)              (* thread_park_and_unlock_np(&cv->waiter_lock) *)
| CvParked (r : relock)            (* sleeping in condvar_wait* *)
| CvWoken (r : relock)             (* mutex_lock(m), spin_lock_np(s) or return *)
| SigStart (all hold : bool)       (* condvar_signal/broadcast: spin_lock_np *)
| SigLocked (all hold : bool)      (* list_pop or list_append_list *)
| SigPop (hold : bool) (ws : list tid)   (* spin_unlock_np(&cv->waiter_lock) *)
| SigWake (hold : bool) (ws : list tid). (* thread_ready for each of ws, return *)

#[export] Instance relock_eq_dec : EqDecision relock.
Proof. solve_decision. Defined.
#[export] Instance after_eq_dec : EqDecision after.
Proof. solve_decision. Defined.
#[export] Instance pc_eq_dec : EqDecision pc.
Proof. solve_decision. Defined.

(** The mutex ([held], [waiter_lock], [waiters]), the condition variable
    ([waiter_lock], [waiters]), a spin lock [s] of the program for
    [condvar_wait_spin], and the program counters of the threads. *)
Record sync := Sync {
  held : Z;
  m_lock : option tid;
  m_waiters : list tid;
  cv_lock : option tid;
  cv_waiters : list tid;
  user_spin : option tid;
  pcs : tid -> pc;
}.

Definition set_held v s := Sync v (m_lock s) (m_waiters s) (cv_lock s) (cv_waiters s) (user_spin s) (pcs s).
Definition set_m_lock v s := Sync (held s) v (m_waiters s) (cv_lock s) (cv_waiters s) (user_spin s) (pcs s).
Definition set_m_waiters v s := Sync (held s) (m_lock s) v (cv_lock s) (cv_waiters s) (user_spin s) (pcs s).
Definition set_cv_lock v s := Sync (held s) (m_lock s) (m_waiters s) v (cv_waiters s) (user_spin s) (pcs s).
Definition set_cv_waiters v s := Sync (held s) (m_lock s) (m_waiters s) (cv_lock s) v (user_spin s) (pcs s).
Definition set_user_spin v s := Sync (held s) (m_lock s) (m_waiters s) (cv_lock s) (cv_waiters s) v (pcs s).
Definition goto (t : tid) (p : pc) (s : sync) : sync :=
  Sync (held s) (m_lock s) (m_waiters s) (cv_lock s) (cv_waiters s) (user_spin s) (<[t := p]> (pcs s)).

(** The outcome of a step: [None] when the thread cannot move (it spins on a
    taken lock or sleeps), [Some Bug] when an assertion fails. *)
Definition outcome := option (res sync).
Definition moves (s : sync) : outcome := Some (Ok s).

(** [1 << 31] as the bit pattern of the 32-bit [held]. *)
Definition WAITER_FLAG : Z := 2147483648.

Definition mutex_init (s : sync) : sync := set_held 0 (set_m_lock None (set_m_waiters [] s)).
Definition condvar_init (s : sync) : sync := set_cv_lock None (set_cv_waiters [] s).

Definition after_unlock (k : after) : pc :=
  match k with ARet => Idle | AWait => CvEnq RMutex end.

(** [thread_ready]: the thread must be sleeping; it continues after its park. *)
Definition thread_ready (w : tid) (s : sync) : res sync :=
  match pcs s w with
  | Parked => Ok (goto w Holding s)
  | CvParked r => Ok (goto w (CvWoken r) s)
  | _ => Bug
  end.

(** ** The fast paths of sync.h *)

Definition mutex_try_lock (t : tid) (s : sync) : outcome :=
  if held s =? 0 then moves (goto t Holding (set_held 1 s)) else moves (goto t Idle s).

Definition mutex_lock (t : tid) (s : sync) : outcome :=
  if held s =? 0 then moves (goto t Holding (set_held 1 s)) else moves (goto t LockSlow s).

Definition mutex_unlock (k : after) (t : tid) (s : sync) : outcome :=
  if held s =? 1 then moves (goto t (after_unlock k) (set_held 0 s))
  else moves (goto t (UnlockSlow k) s).

Definition mutex_held (s : sync) : bool := negb (held s =? 0).

(** ** The slow paths and the condition variable of sync.c *)

Definition spin_m (t : tid) (p : pc) (s : sync) : outcome :=
  match m_lock s with None => moves (goto t p (set_m_lock (Some t) s)) | Some _ => None end.

Definition spin_cv (t : tid) (p : pc) (s : sync) : outcome :=
  match cv_lock s with None => moves (goto t p (set_cv_lock (Some t) s)) | Some _ => None end.

Definition __mutex_lock (t : tid) (s : sync) : outcome :=
  match pcs s t with
  | LockSlow => spin_m t LockLocked s
  | LockLocked =>
      let s' := set_held (Z.lor (held s) WAITER_FLAG) s in
      moves (goto t (if held s =? 0 then LockTake else LockEnq) s')
  | LockTake => moves (goto t LockTaken (set_held 1 s))
  | LockTaken => moves (goto t Holding (set_m_lock None s))
  | LockEnq => moves (goto t LockPark (set_m_waiters (m_waiters s ++ [t]) s))
  | LockPark => moves (goto t Parked (set_m_lock None s))
  | _ => None
  end.

Definition __mutex_unlock (t : tid) (s : sync) : outcome :=
  match pcs s t with
  | UnlockSlow k => spin_m t (UnlockLocked k) s
  | UnlockLocked k =>
      match m_waiters s with
      | [] => moves (goto t (UnlockFree k) s)
      | w :: ws => moves (goto t (UnlockPop k w) (set_m_waiters ws s))
      end
  | UnlockFree k => moves (goto t (UnlockDone k) (set_held 0 s))
  | UnlockDone k => moves (goto t (after_unlock k) (set_m_lock None s))
  | UnlockPop k w => moves (goto t (UnlockWake k w) (set_m_lock None s))
  | UnlockWake k w => Some (s ← thread_ready w s; Ok (goto t (after_unlock k) s))
  | _ => None
  end.

Definition condvar_wait (t : tid) (s : sync) : outcome :=
  match pcs s t with
  | CvStart RMutex => spin_cv t (CvLocked RMutex) s
  | CvLocked RMutex => mutex_unlock AWait t s
  | CvEnq RMutex => moves (goto t (CvPark RMutex) (set_cv_waiters (cv_waiters s ++ [t]) s))
  | CvPark RMutex => moves (goto t (CvParked RMutex) (set_cv_lock None s))
  | CvWoken RMutex => mutex_lock t s
  | _ => None
  end.

Definition condvar_wait_spin (t : tid) (s : sync) : outcome :=
  match pcs s t with
  | CvStart RSpin => spin_cv t (CvLocked RSpin) s
  | CvLocked RSpin => moves (goto t (CvEnq RSpin) (set_user_spin None s))
  | CvEnq RSpin => moves (goto t (CvPark RSpin) (set_cv_waiters (cv_waiters s ++ [t]) s))
  | CvPark RSpin => moves (goto t (CvParked RSpin) (set_cv_lock None s))
  | CvWoken RSpin =>
      match user_spin s with
      | None => moves (goto t Idle (set_user_spin (Some t) s))
      | Some _ => None
      end
  | _ => None
  end.

Definition condvar_wait_no_lock (t : tid) (s : sync) : outcome :=
  match pcs s t with
  | CvStart RNone => spin_cv t (CvLocked RNone) s
  | CvLocked RNone => moves (goto t (CvPark RNone) (set_cv_waiters (cv_waiters s ++ [t]) s))
  | CvPark RNone => moves (goto t (CvParked RNone) (set_cv_lock None s))
  | CvWoken RNone => moves (goto t Idle s)
  | _ => None
  end.

(** [condvar_signal] pops one waiter, [condvar_broadcast] takes them all; both
    wake the threads they took after releasing the lock. *)
Definition condvar_signal (t : tid) (s : sync) : outcome :=
  match pcs s t with
  | SigStart false h => spin_cv t (SigLocked false h) s
  | SigLocked false h =>
      match cv_waiters s with
      | [] => moves (goto t (SigPop h []) s)
      | w :: ws => moves (goto t (SigPop h [w]) (set_cv_waiters ws s))
      end
  | _ => None
  end.

Definition condvar_broadcast (t : tid) (s : sync) : outcome :=
  match pcs s t with
  | SigStart true h => spin_cv t (SigLocked true h) s
  | SigLocked true h => moves (goto t (SigPop h (cv_waiters s)) (set_cv_waiters [] s))
  | _ => None
  end.

Definition condvar_wake (t : tid) (s : sync) : outcome :=
  match pcs s t with
  | SigPop h ws => moves (goto t (SigWake h ws) (set_cv_lock None s))
  | SigWake h [] => moves (goto t (if h then Holding else Idle) s)
  | SigWake h (w :: ws) => Some (s ← thread_ready w s; Ok (goto t (SigWake h ws) s))
  | _ => None
  end.

(** ** Threads

    A running thread calls a function; the calls that release the mutex are made
    by the thread that holds it. *)

Inductive call :=
| Lock | TryLock | Unlock | Wait | WaitSpin | WaitNoLock | Signal | Broadcast | SpinLock | SpinUnlock.

Definition start_call (t : tid) (c : call) (s : sync) : outcome :=
  match c, pcs s t with
  | Lock, Idle => mutex_lock t s
  | TryLock, Idle => mutex_try_lock t s
  | Unlock, Holding => mutex_unlock ARet t s
  | Wait, Holding =>
      (* assert_mutex_held(m) *)
      if mutex_held s then moves (goto t (CvStart RMutex) s) else Some Bug
  | WaitSpin, Idle =>
      if decide (user_spin s = Some t) then moves (goto t (CvStart RSpin) s) else None
  | WaitNoLock, Idle => moves (goto t (CvStart RNone) s)
  | Signal, Idle => moves (goto t (SigStart false false) s)
  | Signal, Holding => moves (goto t (SigStart false true) s)
  | Broadcast, Idle => moves (goto t (SigStart true false) s)
  | Broadcast, Holding => moves (goto t (SigStart true true) s)
  | SpinLock, Idle =>
      match user_spin s with None => moves (set_user_spin (Some t) s) | Some _ => None end
  | SpinUnlock, Idle =>
      if decide (user_spin s = Some t) then moves (set_user_spin None s) else None
  | _, _ => None
  end.

Definition step (t : tid) (c : call) (s : sync) : outcome :=
  match pcs s t with
  | Idle | Holding => start_call t c s
  | LockSlow | LockLocked | LockTake | LockTaken | LockEnq | LockPark => __mutex_lock t s
  | UnlockSlow _ | UnlockLocked _ | UnlockFree _ | UnlockDone _ | UnlockPop _ _
  | UnlockWake _ _ => __mutex_unlock t s
  | CvStart RMutex | CvLocked RMutex | CvEnq RMutex | CvPark RMutex | CvWoken RMutex =>
      condvar_wait t s
  | CvStart RSpin | CvLocked RSpin | CvEnq RSpin | CvPark RSpin | CvWoken RSpin =>
      condvar_wait_spin t s
  | CvStart RNone | CvLocked RNone | CvEnq RNone | CvPark RNone | CvWoken RNone =>
      condvar_wait_no_lock t s
  | SigStart false _ | SigLocked false _ => condvar_signal t s
  | SigStart true _ | SigLocked true _ => condvar_broadcast t s
  | SigPop _ _ | SigWake _ _ => condvar_wake t s
  | Parked | CvParked _ => None
  end.

Definition sync_init : sync :=
  mutex_init (condvar_init (Sync 0 None [] None [] None (fun _ => Idle))).

Inductive reachable : sync -> Prop :=
| reach_init : reachable sync_init
| reach_step s t c s' : reachable s -> step t c s = Some (Ok s') -> reachable s'.

(** ** Invariant *)

(** The thread has acquired the mutex and not yet released it: it returned from
    a lock function, is taking the free mutex inside [__mutex_lock], or is
    releasing or handing it over. *)
Definition token (p : pc) : bool :=
  match p with
  | Holding | LockTake | LockTaken | UnlockSlow _ | UnlockLocked _ | UnlockFree _
  | UnlockPop _ _ | UnlockWake _ _ | CvStart RMutex | CvLocked RMutex
  | SigStart _ true | SigLocked _ true | SigPop true _ | SigWake true _ => true
  | _ => false
  end.

(** The thread holds the waiter lock of the mutex. *)
Definition has_m_lock (p : pc) : bool :=
  match p with
  | LockLocked | LockTake | LockTaken | LockEnq | LockPark
  | UnlockLocked _ | UnlockFree _ | UnlockDone _ | UnlockPop _ _ => true
  | _ => false
  end.

(** The thread holds the waiter lock of the condition variable; [condvar_wait]
    keeps it while it releases the mutex. *)
Definition has_cv_lock (p : pc) : bool :=
  match p with
  | CvLocked _ | CvEnq _ | CvPark _ | SigLocked _ _ | SigPop _ _
  | UnlockSlow AWait | UnlockLocked AWait | UnlockFree AWait | UnlockDone AWait
  | UnlockPop AWait _ | UnlockWake AWait _ => true
  | _ => false
  end.

(** The thread is linked in, or sleeps on, the mutex or the condition variable. *)
Definition on_m (p : pc) : bool := match p with LockPark | Parked => true | _ => false end.
Definition on_cv (p : pc) : bool := match p with CvPark _ | CvParked _ => true | _ => false end.

(** The threads taken off a waiter list and not yet made ready. *)
Definition m_wakes (p : pc) : list tid :=
  match p with UnlockPop _ w | UnlockWake _ w => [w] | _ => [] end.
Definition cv_wakes (p : pc) : list tid :=
  match p with SigPop _ ws | SigWake _ ws => ws | _ => [] end.

(** [o] is the one thread whose program counter satisfies [P]. *)
Definition excl (P : pc -> bool) (f : tid -> pc) (o : option tid) : Prop :=
  forall t, P (f t) = true <-> o = Some t.

Definition held_ok (s : sync) (o : option tid) : Prop :=
  match o with
  | None => held s = 0
  | Some t => if decide (pcs s t = LockTake) then held s = WAITER_FLAG
              else held s = 1 \/ held s = 1 + WAITER_FLAG
  end.

(** Who owns what: at most one thread has the mutex, and it has it exactly when
    [held] is not zero; the waiter flag is set while a thread waits. *)
Record own_inv (s : sync) (o : option tid) : Prop := {
  own_token : excl token (pcs s) o;
  own_m_lock : excl has_m_lock (pcs s) (m_lock s);
  own_cv_lock : excl has_cv_lock (pcs s) (cv_lock s);
  own_held : held_ok s o;
  own_flag : forall t, on_m (pcs s t) = true \/ pcs s t = LockEnq -> held s = 1 + WAITER_FLAG;
}.

(** A waiter list [q] with the threads [wakes u] that [u] took off it: every
    thread that sleeps on it is in exactly one place. *)
Record queue_inv (f : tid -> pc) (q : list tid) (on : pc -> bool) (asleep : pc -> Prop)
    (wakes : pc -> list tid) : Prop := {
  q_nodup : NoDup q;
  q_on : forall t, t ∈ q -> on (f t) = true;
  q_place : forall t, on (f t) = true -> t ∈ q \/ exists u, t ∈ wakes (f u);
  q_wakes : forall u w, w ∈ wakes (f u) -> asleep (f w) /\ w ∉ q;
  q_once : forall u v w, w ∈ wakes (f u) -> w ∈ wakes (f v) -> u = v;
  q_wnodup : forall u, NoDup (wakes (f u));
}.

Definition m_asleep (p : pc) : Prop := p = Parked.
Definition cv_asleep (p : pc) : Prop := exists r, p = CvParked r.

Record sync_inv (s : sync) (o : option tid) : Prop := {
  si_own : own_inv s o;
  si_m : queue_inv (pcs s) (m_waiters s) on_m m_asleep m_wakes;
  si_cv : queue_inv (pcs s) (cv_waiters s) on_cv cv_asleep cv_wakes;
  si_free : forall t k, pcs s t = UnlockFree k -> m_waiters s = [];
}.

(** *** Waiter lists *)

(** Case analysis on whether a thread is one that moved. *)
Ltac threads :=
  repeat match goal with
  | H : context [<[?t := ?p]> ?f ?x] |- _ =>
      destruct (decide (t = x)) as [?|?];
      [subst; rewrite fn_lookup_insert in *|rewrite (fn_lookup_insert_ne f t x p) in * by done]
  | |- context [<[?t := ?p]> ?f ?x] =>
      destruct (decide (t = x)) as [?|?];
      [subst; rewrite fn_lookup_insert in *|rewrite (fn_lookup_insert_ne f t x p) in * by done]
  end.

Section queue.
Context (on : pc -> bool) (asleep : pc -> Prop) (wakes : pc -> list tid).
Hypothesis asleep_on : forall p, asleep p -> on p = true.
Hypothesis wakes_off : forall p, wakes p <> [] -> on p = false.

Abbreviation qinv f q := (queue_inv f q on asleep wakes).

(** A thread moves without touching the list. *)
Lemma queue_frame f q t p :
  qinv f q -> on p = on (f t) -> wakes p = wakes (f t) -> (asleep (f t) -> asleep p) ->
  qinv (<[t := p]> f) q.
Proof.
  intros [N O P W U D] Ho Hw Ha. split; [done|..].
  - intros x Hx. threads; [rewrite Ho|]; auto.
  - intros x Hx.
    assert (on (f x) = true) as [?|[u Hu]]%P by (threads; congruence); [auto|right].
    exists u. threads; congruence.
  - intros u w Hx. assert (Hx' : w ∈ wakes (f u)) by (threads; congruence).
    destruct (W u w Hx'). split; [|done]. threads; auto.
  - intros u v w Hu Hv. apply (U u v w); threads; congruence.
  - intros u. threads; [rewrite Hw|]; auto.
Qed.

(** A thread links itself at the tail. *)
Lemma queue_enq f q t p :
  qinv f q -> on (f t) = false -> wakes (f t) = [] -> on p = true -> wakes p = [] ->
  qinv (<[t := p]> f) (q ++ [t]).
Proof.
  intros [N O P W U D] Ho Hw Hp Hwp.
  assert (Hn : t ∉ q) by (intros H%O; congruence).
  split.
  - apply list.NoDup_app. split_and!; [done| |apply NoDup_singleton].
    intros x Hx ->%list_elem_of_singleton. done.
  - intros x [Hx| ->%list_elem_of_singleton]%elem_of_app; threads; auto.
  - intros x Hx. threads; [left; set_solver|].
    destruct (P x Hx) as [?|[u Hu]]; [left; set_solver|right; exists u].
    threads; [by rewrite Hw in Hu; inversion Hu|done].
  - intros u w Hx. destruct (decide (t = u)) as [<-|Hu].
    { rewrite fn_lookup_insert, Hwp in Hx. inversion Hx. }
    rewrite fn_lookup_insert_ne in Hx by done. destruct (W u w Hx) as [A B].
    assert (t <> w) by (intros ->; apply asleep_on in A; congruence).
    rewrite fn_lookup_insert_ne by done. set_solver.
  - intros u v w Hu Hv.
    threads; rewrite ?Hwp in *; try (by inversion Hu); try (by inversion Hv). eauto.
  - intros u. threads; [rewrite Hwp; constructor|auto].
Qed.

(** A thread takes the head of the list. *)
Lemma queue_pop f ws q t p :
  qinv f (ws ++ q) -> on (f t) = false -> wakes (f t) = [] -> on p = false -> wakes p = ws ->
  (forall w, w ∈ ws -> asleep (f w)) -> qinv (<[t := p]> f) q.
Proof.
  intros [N O P W U D] Ho Hw Hp Hwp Ha. apply list.NoDup_app in N as (N1 & N2 & N3).
  assert (Hn : t ∉ ws ++ q) by (intros H%O; congruence).
  assert (Hws : forall u w, w ∈ wakes (f u) -> w ∈ ws -> False).
  { intros u w H1 H2. destruct (W u w H1) as [_ H]. set_solver. }
  split; [done|..].
  - intros x Hx. threads; [set_solver|]. apply O. set_solver.
  - intros x Hx. threads; [congruence|].
    destruct (P x Hx) as [[?|?]%elem_of_app|[u Hu]]; [right; exists t|by left|right; exists u].
    + by rewrite fn_lookup_insert, Hwp.
    + threads; [by rewrite Hw in Hu; inversion Hu|done].
  - intros u w Hx. assert (Hwq : asleep (f w) /\ w ∉ q).
    { threads; [split; [auto|set_solver]|]. destruct (W u w Hx) as [A B]. set_solver. }
    destruct Hwq as [A B]. assert (t <> w) by (intros ->; apply asleep_on in A; congruence).
    by rewrite fn_lookup_insert_ne.
  - intros u v w Hu Hv. threads; try done; try (exfalso; eauto; fail). eauto.
  - intros u. threads; auto.
Qed.

(** A thread makes one of the threads it took ready. *)
Lemma queue_wake f q t p w pw ws :
  qinv f q -> wakes (f t) = w :: ws -> on p = false -> wakes p = ws ->
  on pw = false -> wakes pw = [] -> qinv (<[t := p]> (<[w := pw]> f)) q.
Proof.
  intros [N O P W U D] Hw Hp Hwp Hpw Hwpw.
  assert (Hwt : w ∈ wakes (f t)) by (rewrite Hw; set_solver).
  destruct (W t w Hwt) as [Aw Nw].
  assert (Ht : on (f t) = false) by (apply wakes_off; by rewrite Hw).
  assert (Hne : t <> w) by (intros ->; apply asleep_on in Aw; congruence).
  assert (Hnd : w ∉ ws /\ NoDup ws).
  { specialize (D t). rewrite Hw in D. by apply list.NoDup_cons in D. }
  assert (Hww : wakes (f w) = []).
  { destruct (decide (wakes (f w) = [])) as [?|E%wakes_off]; [done|].
    apply asleep_on in Aw. congruence. }
  assert (Hsub : forall u x, x ∈ wakes (<[t := p]> (<[w := pw]> f) u) ->
    x ∈ wakes (f u) /\ x <> w).
  { intros u x Hx. threads; try (by rewrite Hwpw in Hx; inversion Hx).
    - rewrite Hw. set_solver.
    - split; [done|]. intros ->. by apply (U t u w Hwt) in Hx. }
  split; [done|..].
  - intros x Hx. threads; [apply O in Hx; congruence|done|auto].
  - intros x Hx. threads; [congruence|congruence|].
    destruct (P x Hx) as [?|[u Hu]]; [auto|right; exists u]. threads; [| |done].
    + rewrite Hw in Hu. by apply elem_of_cons in Hu as [?|?].
    + rewrite Hww in Hu. inversion Hu.
  - intros u x Hx. destruct (Hsub u x Hx) as [Hx' Hxw]. destruct (W u x Hx') as [A B].
    split; [|done]. assert (t <> x) by (intros ->; apply asleep_on in A; congruence).
    by rewrite !fn_lookup_insert_ne.
  - intros u v x [Hu _]%Hsub [Hv _]%Hsub. eauto.
  - intros u. threads; [tauto| |auto]. rewrite Hwpw. constructor.
Qed.
End queue.

(** *** Exclusive resources *)

(** The owner of a resource after thread [t] went from [old] to [new]. *)
Definition excl_upd (new old : bool) (t : tid) (o : option tid) : option tid :=
  if new then Some t else if old then None else o.

Lemma excl_move P f o t p :
  excl P f o -> (P p = true -> o = None \/ o = Some t) ->
  excl P (<[t := p]> f) (excl_upd (P p) (P (f t)) t o).
Proof.
  intros H Hp x. unfold excl_upd. specialize (H x) as Hx. specialize (H t) as Ht.
  destruct (P p) eqn:E1, (P (f t)) eqn:E2; threads; rewrite ?E1, ?E2 in *;
    intuition congruence.
Qed.

Lemma excl_keep P f o t p : excl P f o -> P p = P (f t) -> excl P (<[t := p]> f) o.
Proof. intros H Hp x. threads; [rewrite Hp|]; apply H. Qed.

Lemma excl_ext P f g o : (forall x, f x = g x) -> excl P f o -> excl P g o.
Proof. intros E H x. rewrite <- E. apply H. Qed.

Lemma insert_swap (f : tid -> pc) t w p q x :
  t <> w -> <[t := p]> (<[w := q]> f) x = <[w := q]> (<[t := p]> f) x.
Proof.
  intros Hne. destruct (decide (t = x)) as [<-|].
  - rewrite fn_lookup_insert, fn_lookup_insert_ne by done. by rewrite fn_lookup_insert.
  - rewrite fn_lookup_insert_ne by done. destruct (decide (w = x)) as [<-|].
    + by rewrite !fn_lookup_insert.
    + by rewrite !fn_lookup_insert_ne.
Qed.

(** *** Every step keeps the invariant *)

Lemma m_asleep_on p : m_asleep p -> on_m p = true.
Proof. by intros ->. Qed.
Lemma m_wakes_off p : m_wakes p <> [] -> on_m p = false.
Proof. by destruct p. Qed.
Lemma cv_asleep_on p : cv_asleep p -> on_cv p = true.
Proof. by intros [r ->]. Qed.
Lemma cv_wakes_off p : cv_wakes p <> [] -> on_cv p = false.
Proof. by destruct p. Qed.
Lemma m_wakes_token p w : w ∈ m_wakes p -> token p = true.
Proof. destruct p; cbn; try done; intros H; inversion H. Qed.

(** A waiting thread that is not being woken by the owner is linked. *)
Lemma parked_linked s o t x :
  sync_inv s o -> o = Some t -> m_wakes (pcs s t) = [] -> on_m (pcs s x) = true ->
  x ∈ m_waiters s.
Proof.
  intros [Ho Hm _ _] -> Hw Hx. destruct (q_place _ _ _ _ _ Hm x Hx) as [?|[u Hu]]; [done|].
  assert (Some t = Some u) as [= <-]
    by (apply (own_token _ _ Ho); eauto using m_wakes_token).
  rewrite Hw in Hu. inversion Hu.
Qed.

(** One thread moves: the queues by the lemma that fits, the owners by [excl_move]. *)
Lemma own_step s o t p h ml cl mw cw us :
  own_inv s o ->
  (token p = true -> o = None \/ o = Some t) ->
  ml = excl_upd (has_m_lock p) (has_m_lock (pcs s t)) t (m_lock s) ->
  (has_m_lock p = true -> m_lock s = None \/ m_lock s = Some t) ->
  cl = excl_upd (has_cv_lock p) (has_cv_lock (pcs s t)) t (cv_lock s) ->
  (has_cv_lock p = true -> cv_lock s = None \/ cv_lock s = Some t) ->
  let s' := Sync h ml mw cl cw us (<[t := p]> (pcs s)) in
  let o' := excl_upd (token p) (token (pcs s t)) t o in
  held_ok s' o' ->
  (forall x, on_m (pcs s' x) = true \/ pcs s' x = LockEnq -> h = 1 + WAITER_FLAG) ->
  own_inv s' o'.
Proof.
  intros [T M C _ _] Ht -> Hm -> Hc s' o' Hh Hf.
  split; [by apply excl_move..|done|done].
Qed.

(** A step from a good state fails no assertion and ends in a good state. *)
Definition good (r : outcome) : Prop :=
  match r with
  | None => True
  | Some Bug => False
  | Some (Ok s) => exists o, sync_inv s o
  end.

Lemma sync_step s o t p h ml mw cl cw us :
  let f := <[t := p]> (pcs s) in
  let s' := Sync h ml mw cl cw us f in
  let o' := excl_upd (token p) (token (pcs s t)) t o in
  sync_inv s o ->
  (token p = true -> o = None \/ o = Some t) ->
  ml = excl_upd (has_m_lock p) (has_m_lock (pcs s t)) t (m_lock s) ->
  (has_m_lock p = true -> m_lock s = None \/ m_lock s = Some t) ->
  cl = excl_upd (has_cv_lock p) (has_cv_lock (pcs s t)) t (cv_lock s) ->
  (has_cv_lock p = true -> cv_lock s = None \/ cv_lock s = Some t) ->
  held_ok s' o' ->
  (forall x, on_m (f x) = true \/ f x = LockEnq -> h = 1 + WAITER_FLAG) ->
  queue_inv f mw on_m m_asleep m_wakes -> queue_inv f cw on_cv cv_asleep cv_wakes ->
  (forall x k, f x = UnlockFree k -> mw = []) ->
  good (moves s').
Proof.
  intros f s' o' [Ho _ _ _] Ht Hml Hm Hcl Hc Hh Hf Qm Qc Hfr. exists o'.
  split; [by apply own_step|done..].
Qed.

(** *** The shared parts of a step *)

Lemma held_zero s o : held_ok s o -> held s = 0 <-> o = None.
Proof. unfold held_ok, WAITER_FLAG. destruct o as [t|]; [destruct (decide _)|]; naive_solver lia. Qed.

(** [held] seen by the owner, outside the two writes of [__mutex_lock]. *)
Lemma held_owner s t : held_ok s (Some t) -> pcs s t <> LockTake -> held s = 1 \/ held s = 1 + WAITER_FLAG.
Proof. unfold held_ok. by destruct (decide _). Qed.

Lemma held_frame s o t p h ml mw cl cw us :
  held_ok s o -> h = held s -> token p = token (pcs s t) -> (token p = true -> o = Some t) ->
  (o = Some t -> token p = true) -> p <> LockTake -> pcs s t <> LockTake ->
  forall o', o' = excl_upd (token p) (token (pcs s t)) t o ->
  held_ok (Sync h ml mw cl cw us (<[t := p]> (pcs s))) o'.
Proof.
  intros H -> <- Hp Ho Hn1 Hn2 o' ->. unfold excl_upd. destruct (token p).
  - specialize (Hp eq_refl) as ->. cbn in *. rewrite fn_lookup_insert.
    destruct (decide (p = _)), (decide (pcs s t = _)); done.
  - destruct o as [x|]; [|done]. cbn in *.
    rewrite fn_lookup_insert_ne by (intros ->; naive_solver). done.
Qed.

Lemma flag_frame s t p h :
  (forall x, on_m (pcs s x) = true \/ pcs s x = LockEnq -> held s = 1 + WAITER_FLAG) ->
  h = held s -> on_m p = on_m (pcs s t) \/ pcs s t = LockEnq -> p <> LockEnq ->
  forall x, on_m (<[t := p]> (pcs s) x) = true \/ <[t := p]> (pcs s) x = LockEnq -> h = 1 + WAITER_FLAG.
Proof.
  intros H -> Hp Hn x Hx. threads; [|eauto].
  destruct Hx as [Hx|]; [|done]. destruct Hp as [Hp|Hp]; [|eauto]. rewrite Hp in Hx. eauto.
Qed.

(** When nothing waits, [held] may change. *)
Lemma flag_none s t p h :
  (forall x, on_m (pcs s x) = true \/ pcs s x = LockEnq -> held s = 1 + WAITER_FLAG) ->
  held s <> 1 + WAITER_FLAG -> on_m p = false -> p <> LockEnq ->
  forall x, on_m (<[t := p]> (pcs s) x) = true \/ <[t := p]> (pcs s) x = LockEnq -> h = 1 + WAITER_FLAG.
Proof.
  intros H Hh Hp Hn x Hx. threads; [|by apply H in Hx].
  destruct Hx as [Hx|]; [|done]. congruence.
Qed.

Lemma free_frame s t p :
  (forall x k, pcs s x = UnlockFree k -> m_waiters s = []) -> (forall k, p <> UnlockFree k) ->
  forall x k, <[t := p]> (pcs s) x = UnlockFree k -> m_waiters s = [].
Proof. intros H Hp x k Hx. threads; [by apply Hp in Hx|eauto]. Qed.

(** The two program counters differ in the locks held only. *)
Definition same_class (p q : pc) : Prop :=
  token p = token q /\ on_m p = on_m q /\ on_cv p = on_cv q /\ m_wakes p = m_wakes q /\
  cv_wakes p = cv_wakes q /\ (m_asleep q -> m_asleep p) /\ (cv_asleep q -> cv_asleep p) /\
  p <> LockTake /\ q <> LockTake /\ p <> LockEnq /\ forall k, p <> UnlockFree k.

Lemma lock_step s o t p ml cl us :
  sync_inv s o -> same_class p (pcs s t) ->
  ml = excl_upd (has_m_lock p) (has_m_lock (pcs s t)) t (m_lock s) ->
  (has_m_lock p = true -> m_lock s = None \/ m_lock s = Some t) ->
  cl = excl_upd (has_cv_lock p) (has_cv_lock (pcs s t)) t (cv_lock s) ->
  (has_cv_lock p = true -> cv_lock s = None \/ cv_lock s = Some t) ->
  good (moves (Sync (held s) ml (m_waiters s) cl (cv_waiters s) us (<[t := p]> (pcs s)))).
Proof.
  intros Hi (C1 & C2 & C3 & C4 & C5 & C6 & C7 & C8 & C9 & C10 & C11) Hml Hm Hcl Hc.
  assert (Hi' := Hi). destruct Hi as [[T M C Hh Hf] Qm Qc Hfr].
  assert (Ht : token p = true <-> o = Some t) by (rewrite C1; apply T).
  apply (sync_step s o t p); try done.
  - tauto.
  - eapply held_frame; try done; tauto.
  - apply flag_frame; auto.
  - by apply queue_frame.
  - by apply queue_frame.
  - by apply (free_frame s).
Qed.

(** *** The functions of sync.h and sync.c *)

Lemma owner_locks s o t :
  sync_inv s o -> (token (pcs s t) = true -> o = Some t) /\
  (has_m_lock (pcs s t) = true -> m_lock s = Some t) /\
  (has_cv_lock (pcs s t) = true -> cv_lock s = Some t).
Proof. intros [[T M C _ _] _ _ _]. split_and!; [apply T|apply M|apply C]. Qed.

(** What thread [t] owns at its program counter [E]. *)
Ltac owns Hi t E :=
  let F := fresh "Own" in
  pose proof (owner_locks _ _ t Hi) as F; rewrite E in F; cbn in F;
  destruct F as (OwnT & OwnM & OwnC);
  try specialize (OwnT eq_refl); try specialize (OwnM eq_refl); try specialize (OwnC eq_refl).

(** A step that changes at most the locks held: discharges [lock_step]. *)
Ltac lock_only s o t p E :=
  match goal with Hi : sync_inv s o |- _ => owns Hi t E end;
  eapply (lock_step s o t p); [eassumption|..]; rewrite ?E; cbn; unfold excl_upd; cbn;
    [repeat split; try done; try (by intros [? [=]]); eauto|try done; try tauto..].

Lemma take_good s o t :
  sync_inv s o -> held s = 0 -> pcs s t = Idle \/ pcs s t = CvWoken RMutex ->
  good (moves (goto t Holding (set_held 1 s))).
Proof.
  intros Hi Hz Et. assert (Hi' := Hi). destruct Hi as [[T M C Hh Hf] Qm Qc Hfr].
  apply (held_zero _ _ Hh) in Hz as Ho. subst o.
  apply (sync_step s None t Holding); try done.
  - auto.
  - by destruct Et as [-> | ->].
  - by destruct Et as [-> | ->].
  - cbn. rewrite fn_lookup_insert. by left.
  - apply (flag_none s); try done. by rewrite Hz.
  - by apply queue_frame; try (by destruct Et as [-> | ->]).
  - by apply queue_frame; try done; destruct Et as [-> | ->]; try done; intros [? [=]].
  - by apply (free_frame s).
Qed.

Lemma mutex_lock_good t s o :
  sync_inv s o -> pcs s t = Idle \/ pcs s t = CvWoken RMutex -> good (mutex_lock t s).
Proof.
  intros Hi Et. unfold mutex_lock. bdestruct; [by eapply take_good|].
  destruct Et as [E|E]; lock_only s o t LockSlow E.
Qed.

Lemma mutex_try_lock_good t s o :
  sync_inv s o -> pcs s t = Idle -> good (mutex_try_lock t s).
Proof.
  intros Hi E. unfold mutex_try_lock. bdestruct; [eapply take_good; eauto|].
  lock_only s o t Idle E.
Qed.
Lemma mutex_unlock_good t s o k :
  sync_inv s o ->
  match k with ARet => pcs s t = Holding | AWait => pcs s t = CvLocked RMutex end ->
  good (mutex_unlock k t s).
Proof.
  intros Hi Et. unfold mutex_unlock. bdestruct.
  2:{ destruct k; [lock_only s o t (UnlockSlow ARet) Et|lock_only s o t (UnlockSlow AWait) Et]. }
  assert (Hi' := Hi). destruct Hi as [[T M C Hh Hf] Qm Qc Hfr].
  assert (o = Some t) as -> by (apply T; by destruct k; rewrite Et).
  apply (sync_step s (Some t) t (after_unlock k)); destruct k; rewrite ?Et; try done; try tauto.
  all: try (apply (flag_none s); try done; rewrite e; done).
  all: try (by apply queue_frame; rewrite ?Et; try done; intros [r [=]]).
  all: try (by apply (free_frame s)).
  all: cbn; intros; try right; apply C; by rewrite Et.
Qed.

Lemma spin_m_good s o t p :
  sync_inv s o -> same_class p (pcs s t) -> has_m_lock p = true -> has_m_lock (pcs s t) = false ->
  has_cv_lock p = has_cv_lock (pcs s t) -> good (spin_m t p s).
Proof.
  intros Hi Hs Hp Hq Hc. unfold spin_m. destruct (m_lock s) eqn:Em; [done|].
  pose proof (owner_locks _ _ t Hi) as (_ & _ & OwnC).
  apply (lock_step s o t p); try done.
  - by rewrite Hp.
  - auto.
  - rewrite Hc. unfold excl_upd. destruct (has_cv_lock (pcs s t)); cbn; auto.
  - rewrite Hc. auto.
Qed.

Lemma spin_cv_good s o t p :
  sync_inv s o -> same_class p (pcs s t) -> has_cv_lock p = true -> has_cv_lock (pcs s t) = false ->
  has_m_lock p = has_m_lock (pcs s t) -> good (spin_cv t p s).
Proof.
  intros Hi Hs Hp Hq Hc. unfold spin_cv. destruct (cv_lock s) eqn:Em; [done|].
  pose proof (owner_locks _ _ t Hi) as (_ & OwnM & _).
  apply (lock_step s o t p); try done.
  - rewrite Hc. unfold excl_upd. destruct (has_m_lock (pcs s t)); cbn; auto.
  - rewrite Hc. auto.
  - by rewrite Hp.
  - auto.
Qed.

Ltac same E := rewrite E; repeat split; try done; try (by intros [? [=]]).

(** The flag [__mutex_lock] sets: the mutex was free, or the owner is outside
    [__mutex_lock] and will find the flag. *)
Lemma fetch_or_good t s o :
  sync_inv s o -> pcs s t = LockLocked ->
  good (moves (goto t (if held s =? 0 then LockTake else LockEnq)
    (set_held (Z.lor (held s) WAITER_FLAG) s))).
Proof.
  intros Hi E. owns Hi t E. assert (Hi' := Hi). destruct Hi as [[T M C Hh Hf] Qm Qc Hfr].
  bdestruct.
  - assert (o = None) as -> by (by apply (held_zero s)).
    apply (sync_step s None t LockTake); rewrite ?E; try done; auto.
    + cbn. rewrite fn_lookup_insert. destruct (decide _); [|done]. by rewrite e.
    + apply (flag_none s); try done. by rewrite e.
    + by apply queue_frame; rewrite ?E.
    + by apply queue_frame; rewrite ?E; try done; intros [? [=]].
    + by apply (free_frame s).
  - destruct o as [u|]; [|by apply held_zero in Hh as [_ Hz]; naive_solver].
    assert (Hu : pcs s u <> LockTake).
    { intros Eu. assert (m_lock s = Some u) by (apply M; by rewrite Eu). congruence. }
    assert (Hut : t <> u) by (intros ->; specialize (T u); rewrite E in T; naive_solver).
    assert (Hor : Z.lor (held s) WAITER_FLAG = 1 + WAITER_FLAG)
      by (destruct (held_owner _ _ Hh Hu) as [-> | ->]; done).
    apply (sync_step s (Some u) t LockEnq); rewrite ?E; try done; auto.
    + cbn. rewrite fn_lookup_insert_ne by done. destruct (decide _); [done|]. by right.
    + by apply queue_frame; rewrite ?E.
    + by apply queue_frame; rewrite ?E; try done; intros [? [=]].
    + by apply (free_frame s).
Qed.

Lemma __mutex_lock_good t s o : sync_inv s o -> good (__mutex_lock t s).
Proof.
  intros Hi. unfold __mutex_lock. destruct (pcs s t) eqn:E; try done.
  - eapply spin_m_good; [done|same E|done|by rewrite E..].
  - by eapply fetch_or_good.
  - owns Hi t E. assert (Hi' := Hi). destruct Hi as [[T M C Hh Hf] Qm Qc Hfr]. subst o.
    apply (sync_step s (Some t) t LockTaken); rewrite ?E; try done; auto.
    + cbn. rewrite fn_lookup_insert. by left.
    + apply (flag_none s); try done. cbn in Hh. by rewrite decide_True in Hh by done; rewrite Hh.
    + by apply queue_frame; rewrite ?E.
    + by apply queue_frame; rewrite ?E; try done; intros [? [=]].
    + by apply (free_frame s).
  - lock_only s o t Holding E.
  - owns Hi t E. assert (Hi' := Hi). destruct Hi as [[T M C Hh Hf] Qm Qc Hfr].
    apply (sync_step s o t LockPark); rewrite ?E; try done; auto.
    + eapply (held_frame s o t LockPark); rewrite ?E; try done.
      intros ->. specialize (T t). rewrite E in T. naive_solver.
    + apply (flag_frame s); auto.
    + by apply (queue_enq _ _ _ m_asleep_on m_wakes_off); rewrite ?E.
    + by apply queue_frame; rewrite ?E; try done; intros [? [=]].
    + intros x k Hx. exfalso. threads; [done|].
      assert (m_lock s = Some x) by (apply M; by rewrite Hx). congruence.
  - lock_only s o t Parked E.
Qed.

(** [thread_ready] in the middle of a step of [t]: thread [w], which [t] took off
    a waiter list, continues. *)
Lemma unlock_wake_good t s o k w :
  sync_inv s o -> pcs s t = UnlockWake k w ->
  good (Some (s ← thread_ready w s; Ok (goto t (after_unlock k) s))).
Proof.
  intros Hi E. owns Hi t E. assert (Hi' := Hi). destruct Hi as [[T M C Hh Hf] Qm Qc Hfr]. subst o.
  assert (Hw : w ∈ m_wakes (pcs s t)) by (rewrite E; by apply list_elem_of_singleton).
  destruct (q_wakes _ _ _ _ _ Qm t w Hw) as [Ew _]. hnf in Ew.
  assert (Hne : t <> w) by (intros ->; congruence).
  assert (Hh1 : held s = 1 + WAITER_FLAG) by (apply (Hf w); rewrite Ew; by left).
  unfold thread_ready. rewrite Ew. cbn.
  exists (Some w). split.
  - split; cbn.
    + apply (excl_ext _ (<[w := Holding]> (<[t := after_unlock k]> (pcs s)))).
      { intros x. symmetry. by apply insert_swap. }
      assert (H := excl_move token _ _ t (after_unlock k) T). rewrite E in H.
      assert (H' := excl_move token _ _ w Holding (H ltac:(by destruct k))).
      apply H'. destruct k; auto.
    + apply excl_keep; [by apply excl_keep; rewrite ?Ew|].
      rewrite fn_lookup_insert_ne, E by done. by destruct k.
    + apply excl_keep; [by apply excl_keep; rewrite ?Ew|].
      rewrite fn_lookup_insert_ne, E by done. by destruct k.
    + rewrite fn_lookup_insert_ne, fn_lookup_insert by done. by right.
    + auto.
  - eapply queue_wake; try done; auto using m_asleep_on, m_wakes_off; rewrite ?E; try done; by destruct k.
  - apply queue_frame; [by apply queue_frame; rewrite ?Ew; try done; intros [? [=]]|..].
    all: cbn [goto pcs]; rewrite fn_lookup_insert_ne, E by done; destruct k; try done; by intros [? [=]].
  - intros x k' Hx. apply (Hfr x k'). cbn in Hx. threads; try done. by destruct k.
Qed.

(** Nothing waits when the owner finds the list empty. *)
Lemma unlock_free_good t s o k :
  sync_inv s o -> pcs s t = UnlockFree k -> good (moves (goto t (UnlockDone k) (set_held 0 s))).
Proof.
  intros Hi E. owns Hi t E. assert (Hi' := Hi). destruct Hi as [[T M C Hh Hf] Qm Qc Hfr]. subst o.
  apply (sync_step s (Some t) t (UnlockDone k)); rewrite ?E; try done; auto.
  - destruct k; cbn in *; auto.
  - intros x Hx. exfalso. threads; [by destruct Hx|]. destruct Hx as [Hx|Hx].
    + apply (parked_linked s (Some t) t) in Hx; [|done..|by rewrite E].
      rewrite (Hfr t k E) in Hx. inversion Hx.
    + assert (m_lock s = Some x) by (apply M; by rewrite Hx). congruence.
  - by apply queue_frame; rewrite ?E.
  - by apply queue_frame; rewrite ?E; try done; intros [? [=]].
  - by apply (free_frame s).
Qed.

Lemma unlock_empty_good t s o k :
  sync_inv s o -> pcs s t = UnlockLocked k -> m_waiters s = [] ->
  good (moves (goto t (UnlockFree k) s)).
Proof.
  intros Hi E Ew. owns Hi t E. assert (Hi' := Hi). destruct Hi as [[T M C Hh Hf] Qm Qc Hfr]. subst o.
  apply (sync_step s (Some t) t (UnlockFree k)); rewrite ?E; try done; auto.
  - destruct k; cbn in *; auto.
  - eapply (held_frame s (Some t) t (UnlockFree k)); rewrite ?E; done.
  - apply (flag_frame s); rewrite ?E; auto.
  - by apply queue_frame; rewrite ?E.
  - by apply queue_frame; rewrite ?E; try done; intros [? [=]].
Qed.

Lemma unlock_pop_good t s o k w ws :
  sync_inv s o -> pcs s t = UnlockLocked k -> m_waiters s = w :: ws ->
  good (moves (goto t (UnlockPop k w) (set_m_waiters ws s))).
Proof.
  intros Hi E Ew. owns Hi t E. assert (Hi' := Hi). destruct Hi as [[T M C Hh Hf] Qm Qc Hfr]. subst o.
  apply (sync_step s (Some t) t (UnlockPop k w)); rewrite ?E; try done; auto.
  - destruct k; cbn in *; auto.
  - eapply (held_frame s (Some t) t (UnlockPop k w)); rewrite ?E; done.
  - apply (flag_frame s); rewrite ?E; auto.
  - apply (queue_pop _ _ _ m_asleep_on m_wakes_off _ [w]); rewrite ?E; try done; [by rewrite Ew in Qm|].
    intros x ->%list_elem_of_singleton. rewrite Ew in Qm.
    assert (Hon : on_m (pcs s w) = true) by (apply (q_on _ _ _ _ _ Qm); by left).
    hnf. destruct (pcs s w) eqn:Epw; try done.
    assert (m_lock s = Some w) by (apply M; by rewrite Epw). congruence.
  - by apply queue_frame; rewrite ?E; try done; intros [? [=]].
  - intros x k' Hx. threads; [done|]. assert (m_lock s = Some x) by (apply M; by rewrite Hx). congruence.
Qed.

Lemma __mutex_unlock_good t s o : sync_inv s o -> good (__mutex_unlock t s).
Proof.
  intros Hi. unfold __mutex_unlock. destruct (pcs s t) as [] eqn:E; try done.
  - eapply spin_m_good; [done|same E|done|by rewrite E..].
  - destruct (m_waiters s) as [|w ws] eqn:Ew; [by eapply unlock_empty_good|by eapply unlock_pop_good].
  - by eapply unlock_free_good.
  - destruct k; [lock_only s o t Idle E|lock_only s o t (CvEnq RMutex) E].
  - destruct k; [lock_only s o t (UnlockWake ARet w) E|lock_only s o t (UnlockWake AWait w) E].
  - by eapply unlock_wake_good.
Qed.

(** A thread links itself on the condition variable while it holds its lock. *)
Lemma cv_enq_good t s o p r us :
  sync_inv s o -> pcs s t = p -> p = CvEnq r \/ p = CvLocked r /\ r = RNone ->
  good (moves (Sync (held s) (m_lock s) (m_waiters s) (cv_lock s) (cv_waiters s ++ [t]) us
    (<[t := CvPark r]> (pcs s)))).
Proof.
  intros Hi E Ep. assert (Hi' := Hi). destruct (owner_locks s o t Hi) as (_ & _ & OwnC).
  destruct Hi as [[T M C Hh Hf] Qm Qc Hfr]. rewrite E in OwnC.
  assert (Hp : token p = false /\ has_m_lock p = false /\ has_cv_lock p = true /\ on_m p = false /\
    on_cv p = false /\ m_wakes p = [] /\ cv_wakes p = [] /\ p <> LockTake /\ ~ m_asleep p)
    by (by destruct Ep as [-> |[-> ->]]).
  destruct Hp as (P1 & P2 & P3 & P4 & P5 & P6 & P7 & P8 & P9). specialize (OwnC P3).
  apply (sync_step s o t (CvPark r)); rewrite ?E, ?P1, ?P2, ?P3; try done; auto.
  - eapply (held_frame s o t (CvPark r)); rewrite ?E, ?P1; try done.
    intros ->. specialize (T t). rewrite E, P1 in T. naive_solver.
  - apply (flag_frame s); rewrite ?E, ?P4; auto.
  - apply queue_frame; rewrite ?E, ?P4, ?P6; try done.
  - by apply (queue_enq _ _ _ cv_asleep_on cv_wakes_off); rewrite ?E.
  - by apply (free_frame s).
Qed.

Lemma condvar_wait_good t s o : sync_inv s o -> good (condvar_wait t s).
Proof.
  intros Hi. unfold condvar_wait. destruct (pcs s t) as [] eqn:E; try done; destruct r; try done.
  - eapply spin_cv_good; [done|same E|done|by rewrite E..].
  - by eapply mutex_unlock_good.
  - by eapply (cv_enq_good t s o _ RMutex); eauto.
  - lock_only s o t (CvParked RMutex) E.
  - eapply mutex_lock_good; eauto.
Qed.

Lemma condvar_wait_spin_good t s o : sync_inv s o -> good (condvar_wait_spin t s).
Proof.
  intros Hi. unfold condvar_wait_spin. destruct (pcs s t) as [] eqn:E; try done; destruct r; try done.
  - eapply spin_cv_good; [done|same E|done|by rewrite E..].
  - lock_only s o t (CvEnq RSpin) E.
  - by eapply (cv_enq_good t s o _ RSpin); eauto.
  - lock_only s o t (CvParked RSpin) E.
  - destruct (user_spin s); [done|]. lock_only s o t Idle E.
Qed.

Lemma condvar_wait_no_lock_good t s o : sync_inv s o -> good (condvar_wait_no_lock t s).
Proof.
  intros Hi. unfold condvar_wait_no_lock. destruct (pcs s t) as [] eqn:E; try done; destruct r; try done.
  - eapply spin_cv_good; [done|same E|done|by rewrite E..].
  - by eapply (cv_enq_good t s o _ RNone); eauto.
  - lock_only s o t (CvParked RNone) E.
  - lock_only s o t Idle E.
Qed.

(** A signalling thread takes the first waiters. *)
Lemma cv_pop_good t s o all h ws q :
  sync_inv s o -> pcs s t = SigLocked all h -> cv_waiters s = ws ++ q ->
  good (moves (goto t (SigPop h ws) (set_cv_waiters q s))).
Proof.
  intros Hi E Ew. assert (Hi' := Hi). owns Hi t E.
  destruct Hi as [[T M C Hh Hf] Qm Qc Hfr].
  apply (sync_step s o t (SigPop h ws)); rewrite ?E; try done; auto.
  - assert (Ht := T t). rewrite E in Ht. cbn in Ht.
    eapply (held_frame s o t (SigPop h ws)); rewrite ?E; try done; cbn; tauto.
  - apply (flag_frame s); rewrite ?E; auto.
  - by apply queue_frame; rewrite ?E.
  - apply (queue_pop _ _ _ cv_asleep_on cv_wakes_off _ ws); rewrite ?E; try done; [by rewrite Ew in Qc|].
    intros w Hw.
    assert (Hon : on_cv (pcs s w) = true) by (apply (q_on _ _ _ _ _ Qc); rewrite Ew; set_solver).
    hnf. destruct (pcs s w) eqn:Epw; try done; [|eauto].
    assert (cv_lock s = Some w) by (apply C; by rewrite Epw). congruence.
  - by apply (free_frame s).
Qed.

Lemma condvar_signal_good t s o : sync_inv s o -> good (condvar_signal t s).
Proof.
  intros Hi. unfold condvar_signal. destruct (pcs s t) as [] eqn:E; try done; destruct all; try done.
  - eapply spin_cv_good; [done|same E|done|by rewrite E..].
  - destruct (cv_waiters s) as [|w ws] eqn:Ew; [|by eapply (cv_pop_good _ _ _ _ _ [w])].
    assert (Hs : set_cv_waiters [] s = s) by (rewrite <- Ew; by destruct s).
    rewrite <- Hs. by eapply (cv_pop_good _ _ _ _ _ []).
Qed.

Lemma condvar_broadcast_good t s o : sync_inv s o -> good (condvar_broadcast t s).
Proof.
  intros Hi. unfold condvar_broadcast. destruct (pcs s t) as [] eqn:E; try done; destruct all; try done.
  - eapply spin_cv_good; [done|same E|done|by rewrite E..].
  - eapply cv_pop_good; [done..|]. by rewrite app_nil_r.
Qed.

Lemma cv_ready_good t s o h w ws :
  sync_inv s o -> pcs s t = SigWake h (w :: ws) ->
  good (Some (s ← thread_ready w s; Ok (goto t (SigWake h ws) s))).
Proof.
  intros Hi E. assert (Hi' := Hi). destruct Hi as [[T M C Hh Hf] Qm Qc Hfr].
  assert (Hw : w ∈ cv_wakes (pcs s t)) by (rewrite E; by left).
  destruct (q_wakes _ _ _ _ _ Qc t w Hw) as [[r Ew] _].
  assert (Hne : t <> w) by (intros ->; congruence).
  unfold thread_ready. rewrite Ew. cbn.
  assert (Hk : forall P, (forall r, P (CvWoken r) = P (CvParked r)) -> (P (SigWake h ws) = P (pcs s t)) ->
    forall o, excl P (pcs s) o -> excl P (<[t := SigWake h ws]> (<[w := CvWoken r]> (pcs s))) o).
  { intros P H1 H2 o' HP. apply excl_keep; [apply excl_keep; [done|]|].
    - by rewrite Ew, H1.
    - by rewrite fn_lookup_insert_ne. }
  exists o. split.
  - split; cbn.
    + apply Hk; rewrite ?E; done.
    + apply Hk; rewrite ?E; done.
    + apply Hk; rewrite ?E; done.
    + destruct o as [u|]; [|done]. cbn in *. assert (Hu := proj2 (T u) eq_refl).
      destruct (decide (t = u)) as [<-|]; [rewrite fn_lookup_insert, E in *; done|].
      rewrite fn_lookup_insert_ne by done. destruct (decide (w = u)) as [<-|]; [by rewrite Ew in Hu|].
      by rewrite fn_lookup_insert_ne.
    + intros x Hx. apply (Hf x). threads; naive_solver.
  - apply queue_frame; [by apply queue_frame; rewrite ?Ew|..].
    all: cbn [goto pcs]; rewrite fn_lookup_insert_ne, E by done; done.
  - eapply queue_wake; try done; auto using cv_asleep_on, cv_wakes_off; by rewrite ?E.
  - intros x k' Hx. apply (Hfr x k'). cbn in Hx. by threads.
Qed.

Lemma condvar_wake_good t s o : sync_inv s o -> good (condvar_wake t s).
Proof.
  intros Hi. unfold condvar_wake. destruct (pcs s t) as [] eqn:E; try done.
  - lock_only s o t (SigWake hold ws) E.
  - destruct ws as [|w ws]; [|by eapply cv_ready_good].
    destruct hold; [lock_only s o t Holding E|lock_only s o t Idle E].
Qed.

Lemma start_call_good t c s o : sync_inv s o -> good (start_call t c s).
Proof.
  intros Hi. unfold start_call. destruct c; destruct (pcs s t) eqn:E; try done.
  - eapply mutex_lock_good; eauto.
  - by eapply mutex_try_lock_good.
  - by eapply mutex_unlock_good.
  - assert (o = Some t) as -> by (apply (owner_locks s o t Hi); by rewrite E).
    assert (Hh := own_held _ _ (si_own _ _ Hi)).
    unfold mutex_held. bdestruct; cbn; [by apply (held_zero _ _ Hh) in e|].
    lock_only s (Some t) t (CvStart RMutex) E.
  - destruct (decide _); [|done]. lock_only s o t (CvStart RSpin) E.
  - lock_only s o t (CvStart RNone) E.
  - lock_only s o t (SigStart false false) E.
  - lock_only s o t (SigStart false true) E.
  - lock_only s o t (SigStart true false) E.
  - lock_only s o t (SigStart true true) E.
  - destruct (user_spin s); [done|]. exists o. destruct Hi as [[] ? ? ?]. split; [by split|done..].
  - destruct (decide _); [|done]. exists o. destruct Hi as [[] ? ? ?]. split; [by split|done..].
Qed.

Lemma step_good t c s o : sync_inv s o -> good (step t c s).
Proof.
  intros Hi. unfold step. destruct (pcs s t); try destruct r; try destruct all; try done;
    eauto using start_call_good, __mutex_lock_good, __mutex_unlock_good, condvar_wait_good,
      condvar_wait_spin_good, condvar_wait_no_lock_good, condvar_signal_good,
      condvar_broadcast_good, condvar_wake_good.
Qed.

Lemma sync_init_inv : sync_inv sync_init None.
Proof.
  split; [split| | |]; try done; try (intros t; cbn; naive_solver).
  - split; cbn; intros; try set_solver; constructor.
  - split; cbn; intros; try set_solver; constructor.
Qed.

Lemma reachable_inv s : reachable s -> exists o, sync_inv s o.
Proof.
  induction 1 as [|s t c s' _ [o Hi] Hs]; [exists None; apply sync_init_inv|].
  assert (H := step_good t c s o Hi). by rewrite Hs in H.
Qed.

(** ** Properties *)

(** C7.  Mutual exclusion: in every reachable state of any interleaving of any
    number of threads calling the mutex and condition variable functions, at
    most one thread has acquired the mutex and not yet released it, and [held]
    is zero exactly when there is none. *)
Theorem mutex_mutual_exclusion s :
  reachable s ->
  (forall t1 t2, token (pcs s t1) = true -> token (pcs s t2) = true -> t1 = t2) /\
  (held s = 0 <-> forall t, token (pcs s t) = false).
Proof.
  intros [o [[T M C Hh Hf] _ _ _]]%reachable_inv. split.
  - intros t1 t2 H1%T H2%T. congruence.
  - rewrite (held_zero _ _ Hh). split.
    + intros -> t. apply not_true_is_false. by intros H%T.
    + intros H. destruct o as [t|]; [|done].
      specialize (H t). by rewrite (proj2 (T t) eq_refl) in H.
Qed.

(** No assertion fails: the threads that [thread_ready] is called on are
    asleep, and [condvar_wait] finds its mutex held. *)
Theorem sync_step_no_bug s t c : reachable s -> step t c s <> Some Bug.
Proof.
  intros [o Hi]%reachable_inv E. assert (H := step_good t c s o Hi). by rewrite E in H.
Qed.

(** C31.  No waiter is lost: while a thread sleeps in [mutex_lock] another thread
    has the mutex, sees the waiter flag when it releases it, and the sleeper is in
    the waiter list or is the one thread the owner is handing the mutex to. *)
Theorem mutex_no_lost_waiter s t :
  reachable s -> pcs s t = Parked ->
  held s = 1 + WAITER_FLAG /\
  exists u, token (pcs s u) = true /\ u <> t /\ (t ∈ m_waiters s \/ t ∈ m_wakes (pcs s u)).
Proof.
  intros [o Hi]%reachable_inv E. assert (Hi' := Hi). destruct Hi as [[T M C Hh Hf] Qm _ _].
  assert (Hld : held s = 1 + WAITER_FLAG) by (apply (Hf t); rewrite E; by left).
  split; [done|].
  destruct o as [u|]; [|by rewrite (proj2 (held_zero _ _ Hh) eq_refl) in Hld].
  exists u. split_and!; [by apply T| |].
  - intros ->. assert (Ht := proj2 (T t) eq_refl). by rewrite E in Ht.
  - destruct (q_place _ _ _ _ _ Qm t) as [?|[v Hv]]; [by rewrite E|by left|right].
    assert (Some u = Some v) as [= <-] by (apply T; eauto using m_wakes_token). done.
Qed.

(** The thread has released its lock inside [condvar_wait*] and sleeps or is
    about to. *)
Definition waiting_on_cv (p : pc) : bool :=
  match p with
  | CvEnq _ | CvPark _ | CvParked _ | UnlockDone AWait => true
  | _ => false
  end.

(** C32.  No signal is lost: when [condvar_signal] or [condvar_broadcast] looks
    at the waiter list, every thread that has released its lock in
    [condvar_wait], [condvar_wait_spin] or [condvar_wait_no_lock] and has not been
    chosen by another signal is asleep and in the list. *)
Theorem condvar_no_lost_signal s u all hold t :
  reachable s -> pcs s u = SigLocked all hold -> waiting_on_cv (pcs s t) = true ->
  (exists r, pcs s t = CvParked r) /\
  (t ∈ cv_waiters s \/ exists v, t ∈ cv_wakes (pcs s v)).
Proof.
  intros [o Hi]%reachable_inv E Ht. destruct Hi as [[T M C Hh Hf] _ Qc _].
  assert (Hu : cv_lock s = Some u) by (apply C; by rewrite E).
  assert (Hl : has_cv_lock (pcs s t) = true -> t = u).
  { intros H%C. congruence. }
  assert (Hs : exists r, pcs s t = CvParked r).
  { destruct (pcs s t) eqn:Et; try done; try destruct k; try done; cbn in Hl;
      try (specialize (Hl eq_refl); congruence). eauto. }
  split; [done|]. apply (q_place _ _ _ _ _ Qc). by destruct Hs as [r ->].
Qed.

(** ** Witnesses: short runs of three threads *)

Fixpoint run (script : list (tid * call)) (s : sync) : outcome :=
  match script with
  | [] => moves s
  | (t, c) :: script =>
      match step t c s with
      | Some (Ok s) => run script s
      | r => r
      end
  end.

Lemma run_reachable script s s' : reachable s -> run script s = Some (Ok s') -> reachable s'.
Proof.
  revert s. induction script as [|[t c] script IH]; intros s Hr H; cbn in H; [by injection H as <-|].
  destruct (step t c s) as [[s1|]|] eqn:E; [|done..]. eapply IH; [|done]. by eapply reach_step.
Qed.

Definition run_state (script : list (tid * call)) : sync :=
  match run script sync_init with Some (Ok s) => s | _ => sync_init end.

Lemma run_state_reachable script : reachable (run_state script).
Proof.
  unfold run_state. destruct (run script sync_init) as [[s|]|] eqn:E; try constructor.
  eapply run_reachable; [constructor|done].
Qed.

(** Thread 1 locks, thread 2 contends and parks. *)
Definition contended : list (tid * call) := [(1%nat, Lock)] ++ replicate 5 (2%nat, Lock).

(** Thread 1 waits on the condition variable, thread 2 signals. *)
Definition signalled : list (tid * call) :=
  [(1%nat, Lock)] ++ replicate 5 (1%nat, Wait) ++ replicate 2 (2%nat, Signal).

Lemma mutex_mutual_exclusion_witness :
  token (pcs (run_state contended) 1%nat) = true /\ held (run_state contended) <> 0.
Proof.
  split; [vm_compute; reflexivity|].
  destruct (mutex_mutual_exclusion (run_state contended) (run_state_reachable _)) as [_ [Hz _]].
  intros H. specialize (Hz H 1%nat). vm_compute in Hz. discriminate Hz.
Defined.

Lemma sync_step_no_bug_witness : step 1%nat Unlock (run_state contended) <> Some Bug.
Proof. apply (sync_step_no_bug (run_state contended) 1%nat Unlock (run_state_reachable _)). Defined.

Lemma mutex_no_lost_waiter_witness :
  pcs (run_state contended) 2%nat = Parked /\ held (run_state contended) = 1 + WAITER_FLAG.
Proof.
  assert (E : pcs (run_state contended) 2%nat = Parked) by (vm_compute; reflexivity).
  split; [exact E|]. apply (mutex_no_lost_waiter (run_state contended) 2%nat (run_state_reachable _) E).
Defined.

Lemma condvar_no_lost_signal_witness :
  pcs (run_state signalled) 2%nat = SigLocked false false /\
  exists r, pcs (run_state signalled) 1%nat = CvParked r.
Proof.
  assert (E : pcs (run_state signalled) 2%nat = SigLocked false false) by (vm_compute; reflexivity).
  split; [exact E|].
  apply (condvar_no_lost_signal (run_state signalled) 2%nat false false 1%nat (run_state_reachable _) E).
  vm_compute. reflexivity.
Defined.
