(* ===== verification/Sync.v ===== *)
(** * runtime/sync.c: read-write mutexes, wait groups and barriers

    Every function of these three takes the object's spin lock for its whole
    effect, so a call is one transition: the new object, whether the caller
    returns or parks, and the threads it makes ready.  A thread that has been
    taken off a waiter list owns what it waited for from that transition on;
    [thread_ready], called after the lock is released, lets it run again. *)

From stdpp Require Import functions.
From S2P Require Import Prelude.

Abbreviation thread := nat (only parsing).

(** What a call does to its caller, and the threads it passes to [thread_ready]. *)
Inductive flow := Return (b : bool) | Park.

(** ** Read-write mutexes *)

Record rwmutex := RwMutex {
  count : Z;
  read_waiters : list nat;
  write_waiters : list nat;
  read_waiter_count : Z;
}.

Definition rwmutex_init : rwmutex := RwMutex 0 [] [] 0.

Definition rwmutex_rdlock (myth : nat) (m : rwmutex) : res (rwmutex * flow) :=
  if count m >=? 0 then
    c ← int_add (count m) 1;
    Ok (RwMutex c (read_waiters m) (write_waiters m) (read_waiter_count m), Return true)
  else
    c ← int_add (read_waiter_count m) 1;
    Ok (RwMutex (count m) (read_waiters m ++ [myth]) (write_waiters m) c, Park).

Definition rwmutex_try_rdlock (m : rwmutex) : res (rwmutex * flow) :=
  if count m >=? 0 then
    c ← int_add (count m) 1;
    Ok (RwMutex c (read_waiters m) (write_waiters m) (read_waiter_count m), Return true)
  else Ok (m, Return false).

Definition rwmutex_wrlock (myth : nat) (m : rwmutex) : rwmutex * flow :=
  if count m =? 0 then
    (RwMutex (-1) (read_waiters m) (write_waiters m) (read_waiter_count m), Return true)
  else (RwMutex (count m) (read_waiters m) (write_waiters m ++ [myth]) (read_waiter_count m), Park).

Definition rwmutex_try_wrlock (m : rwmutex) : rwmutex * flow :=
  if count m =? 0 then
    (RwMutex (-1) (read_waiters m) (write_waiters m) (read_waiter_count m), Return true)
  else (m, Return false).

(** The new mutex and the threads made ready. *)
Definition rwmutex_unlock (m : rwmutex) : res (rwmutex * list nat) :=
  _ ← BUG_ON (count m =? 0); (* assert(m->count != 0) *)
  let c := if count m <? 0 then 0 else count m - 1 in
  if (c =? 0) && (read_waiter_count m >? 0) then
    Ok (RwMutex (read_waiter_count m) [] (write_waiters m) 0, read_waiters m)
  else if c =? 0 then
    match write_waiters m with
    | [] => Ok (RwMutex c (read_waiters m) [] (read_waiter_count m), [])
    | th :: ws => Ok (RwMutex (-1) (read_waiters m) ws (read_waiter_count m), [th])
    end
  else Ok (RwMutex c (read_waiters m) (write_waiters m) (read_waiter_count m), []).

(** *** The threads that use one rwmutex *)

Inductive mode := Off | Reading | Writing | WaitRead | WaitWrite.
Inductive rwcall := RdLock | TryRdLock | WrLock | TryWrLock | RwUnlock.

Record rwsys := RwSys { rw : rwmutex; modes : nat -> mode }.

(** [thread_ready] for each of the threads, which must be asleep. *)
Fixpoint rw_ready (ws : list nat) (f : nat -> mode) : res (nat -> mode) :=
  match ws with
  | [] => Ok f
  | w :: ws =>
      match f w with
      | WaitRead => rw_ready ws (<[w := Reading]> f)
      | WaitWrite => rw_ready ws (<[w := Writing]> f)
      | _ => Bug
      end
  end.

(** A call by thread [t]; [None] when [t] may not make it in its mode. *)
Definition rw_step (t : nat) (c : rwcall) (s : rwsys) : option (res rwsys) :=
  let enter r got wait :=
    Some ('(m, fl) ← r;
          Ok (RwSys m (<[t := match fl with Return true => got | Return false => Off | Park => wait end]>
            (modes s)))) in
  match c, modes s t with
  | RdLock, Off => enter (rwmutex_rdlock t (rw s)) Reading WaitRead
  | TryRdLock, Off => enter (rwmutex_try_rdlock (rw s)) Reading WaitRead
  | WrLock, Off => enter (Ok (rwmutex_wrlock t (rw s))) Writing WaitWrite
  | TryWrLock, Off => enter (Ok (rwmutex_try_wrlock (rw s))) Writing WaitWrite
  | RwUnlock, (Reading | Writing) =>
      Some ('(m, ws) ← rwmutex_unlock (rw s);
            f ← rw_ready ws (<[t := Off]> (modes s));
            Ok (RwSys m f))
  | _, _ => None
  end.

Inductive rw_reachable : rwsys -> Prop :=
| rw_reach_init : rw_reachable (RwSys rwmutex_init (fun _ => Off))
| rw_reach_step s t c s' :
    rw_reachable s -> rw_step t c s = Some (Ok s') -> rw_reachable s'.

(** ** Wait groups *)

Record waitgroup := WaitGroup { wg_cnt : Z; wg_waiters : list nat }.

Definition waitgroup_init : waitgroup := WaitGroup 0 [].

(** The new wait group and the threads made ready. *)
Definition waitgroup_add (cnt : Z) (wg : waitgroup) : res (waitgroup * list nat) :=
  c ← int_add (wg_cnt wg) cnt;
  _ ← BUG_ON (c <? 0);
  if c =? 0 then Ok (WaitGroup c [], wg_waiters wg) else Ok (WaitGroup c (wg_waiters wg), []).

Definition waitgroup_done (wg : waitgroup) : res (waitgroup * list nat) := waitgroup_add (-1) wg.

Definition waitgroup_wait (myth : nat) (wg : waitgroup) : waitgroup * flow :=
  if wg_cnt wg =? 0 then (wg, Return true)
  else (WaitGroup (wg_cnt wg) (wg_waiters wg ++ [myth]), Park).

(** ** Barriers *)

Record barrier := Barrier { waiting : Z; bcount : Z; b_waiters : list nat }.

Definition barrier_init (cnt : Z) : barrier := Barrier 0 cnt [].

Definition barrier_wait (myth : nat) (b : barrier) : res (barrier * flow * list nat) :=
  w ← int_add (waiting b) 1;
  if w >=? bcount b then Ok (Barrier 0 (bcount b) [], Return true, b_waiters b)
  else Ok (Barrier w (bcount b) (b_waiters b ++ [myth]), Park, []).

(** ** Read-write mutexes: invariant *)

(** [rs] are the threads that hold the lock for reading, [wr] the one that holds
    it for writing. *)
Record rw_inv (s : rwsys) (rs : list nat) (wr : option nat) : Prop := {
  rwi_rs : NoDup rs;
  rwi_reading : forall t, modes s t = Reading <-> t ∈ rs;
  rwi_writing : forall t, modes s t = Writing <-> wr = Some t;
  rwi_count : match wr with
              | Some _ => count (rw s) = -1 /\ rs = []
              | None => count (rw s) = Z.of_nat (length rs)
              end;
  rwi_rw : NoDup (read_waiters (rw s));
  rwi_waitr : forall t, modes s t = WaitRead <-> t ∈ read_waiters (rw s);
  rwi_rwc : read_waiter_count (rw s) = Z.of_nat (length (read_waiters (rw s)));
  rwi_ww : NoDup (write_waiters (rw s));
  rwi_waitw : forall t, modes s t = WaitWrite <-> t ∈ write_waiters (rw s);
  rwi_noread : 0 <= count (rw s) -> read_waiters (rw s) = [];
  rwi_nowrite : count (rw s) = 0 -> write_waiters (rw s) = [];
}.

Definition rw_good (r : option (res rwsys)) : Prop :=
  match r with
  | Some (Ok s) => exists rs wr, rw_inv s rs wr
  | _ => True
  end.

Ltac at_thread x t :=
  destruct (decide (t = x)) as [<-|?];
  [rewrite ?fn_lookup_insert in *|rewrite ?fn_lookup_insert_ne in * by done].

Lemma rw_ready_read ws f :
  NoDup ws -> (forall w, w ∈ ws -> f w = WaitRead) ->
  exists f', rw_ready ws f = Ok f' /\ forall x, f' x = if decide (x ∈ ws) then Reading else f x.
Proof.
  revert f. induction ws as [|w ws IH]; intros f Hn Hw; [by exists f|].
  apply list.NoDup_cons in Hn as [Hn1 Hn2]. cbn. rewrite (Hw w) by (by left).
  destruct (IH (<[w := Reading]> f) Hn2) as (f' & E & H).
  { intros x Hx. at_thread x w; [done|]. apply Hw. by right. }
  exists f'. split; [done|]. intros x. rewrite H.
  at_thread x w; [rewrite decide_False by done|]; repeat destruct (decide _); set_solver.
Qed.

Lemma rw_writer_count s rs wr : rw_inv s rs wr -> 0 <= count (rw s) -> wr = None.
Proof. intros [] H. destruct wr; [lia|done]. Qed.

(** A thread gets the lock for reading. *)
Lemma rw_grant_read t s rs wr :
  rw_inv s rs wr -> modes s t = Off -> 0 <= count (rw s) ->
  rw_inv (RwSys (RwMutex (count (rw s) + 1) (read_waiters (rw s)) (write_waiters (rw s))
    (read_waiter_count (rw s))) (<[t := Reading]> (modes s))) (t :: rs) None.
Proof.
  intros Hi Ht Hc. assert (wr = None) as -> by (by eapply rw_writer_count). destruct Hi.
  assert (Nrs : t ∉ rs) by (rewrite <- rwi_reading0; congruence).
  split; cbn; try done; try (intros; lia).
  - by apply list.NoDup_cons.
  - intros x. rewrite elem_of_cons. at_thread x t; [naive_solver|]. rewrite rwi_reading0. naive_solver.
  - intros x. at_thread x t; [naive_solver|done].
  - intros x. at_thread x t; [rewrite <- rwi_waitr0, Ht; naive_solver|done].
  - intros x. at_thread x t; [rewrite <- rwi_waitw0, Ht; naive_solver|done].
  - auto.
Qed.

(** A thread queues up to read behind a writer. *)
Lemma rw_wait_read t s rs wr :
  rw_inv s rs wr -> modes s t = Off -> count (rw s) < 0 ->
  rw_inv (RwSys (RwMutex (count (rw s)) (read_waiters (rw s) ++ [t]) (write_waiters (rw s))
    (read_waiter_count (rw s) + 1)) (<[t := WaitRead]> (modes s))) rs wr.
Proof.
  intros [] Ht Hc.
  assert (Nr : t ∉ read_waiters (rw s)) by (rewrite <- rwi_waitr0; congruence).
  split; cbn; try done; try (intros; lia).
  - intros x. at_thread x t; [rewrite <- rwi_reading0, Ht; naive_solver|done].
  - intros x. at_thread x t; [rewrite <- rwi_writing0, Ht; naive_solver|done].
  - apply list.NoDup_app. split_and!; [done|set_solver|apply NoDup_singleton].
  - intros x. rewrite elem_of_app, list_elem_of_singleton.
    at_thread x t; [naive_solver|]. rewrite rwi_waitr0. naive_solver.
  - rewrite length_app. cbn. lia.
  - intros x. at_thread x t; [rewrite <- rwi_waitw0, Ht; naive_solver|done].
Qed.

Lemma rw_grant_write t s rs wr :
  rw_inv s rs wr -> modes s t = Off -> count (rw s) = 0 ->
  rw_inv (RwSys (RwMutex (-1) (read_waiters (rw s)) (write_waiters (rw s))
    (read_waiter_count (rw s))) (<[t := Writing]> (modes s))) [] (Some t).
Proof.
  intros Hi Ht Hc. assert (wr = None) as -> by (eapply rw_writer_count; [done|lia]). destruct Hi.
  assert (rs = []) as -> by (apply nil_length_inv; lia).
  split; cbn; try done; try (intros; lia).
  - intros x. at_thread x t; [rewrite <- rwi_reading0, Ht; naive_solver|done].
  - intros x. at_thread x t; [naive_solver|]. rewrite rwi_writing0. naive_solver.
  - intros x. at_thread x t; [rewrite <- rwi_waitr0, Ht; naive_solver|done].
  - intros x. at_thread x t; [rewrite <- rwi_waitw0, Ht; naive_solver|done].
Qed.

Lemma rw_wait_write t s rs wr :
  rw_inv s rs wr -> modes s t = Off -> count (rw s) <> 0 ->
  rw_inv (RwSys (RwMutex (count (rw s)) (read_waiters (rw s)) (write_waiters (rw s) ++ [t])
    (read_waiter_count (rw s))) (<[t := WaitWrite]> (modes s))) rs wr.
Proof.
  intros [] Ht Hc.
  assert (Nr : t ∉ write_waiters (rw s)) by (rewrite <- rwi_waitw0; congruence).
  split; cbn; try done; try (intros; lia).
  - intros x. at_thread x t; [rewrite <- rwi_reading0, Ht; naive_solver|done].
  - intros x. at_thread x t; [rewrite <- rwi_writing0, Ht; naive_solver|done].
  - intros x. at_thread x t; [rewrite <- rwi_waitr0, Ht; naive_solver|done].
  - apply list.NoDup_app. split_and!; [done|set_solver|apply NoDup_singleton].
  - intros x. rewrite elem_of_app, list_elem_of_singleton.
    at_thread x t; [naive_solver|]. rewrite rwi_waitw0. naive_solver.
Qed.

Lemma rw_stay t s rs wr :
  rw_inv s rs wr -> modes s t = Off -> rw_inv (RwSys (rw s) (<[t := Off]> (modes s))) rs wr.
Proof.
  intros [] Ht. assert (E : forall x, <[t := Off]> (modes s) x = modes s x).
  { intros x. at_thread x t; congruence. }
  split; cbn; try done; intros x; by rewrite E.
Qed.

(** A thread that enters or queues up. *)
Lemma rw_enter_good t c s rs wr :
  rw_inv s rs wr -> modes s t = Off -> rw_good (rw_step t c s).
Proof.
  intros Hi Ht. unfold rw_step. rewrite Ht.
  destruct c; try done; cbn;
    unfold rwmutex_rdlock, rwmutex_try_rdlock, rwmutex_wrlock, rwmutex_try_wrlock; bdestruct; cbn.
  - destruct (int_add _ _) as [c|] eqn:Ec; cbn; [|done]. apply int_add_ok in Ec as [-> _].
    eauto using rw_grant_read.
  - destruct (int_add _ _) as [c|] eqn:Ec; cbn; [|done]. apply int_add_ok in Ec as [-> _].
    eauto using rw_wait_read.
  - destruct (int_add _ _) as [c|] eqn:Ec; cbn; [|done]. apply int_add_ok in Ec as [-> _].
    eauto using rw_grant_read.
  - eauto using rw_stay.
  - eauto using rw_grant_write.
  - eauto using rw_wait_write.
  - eauto using rw_grant_write.
  - eauto using rw_stay.
Qed.

(** A reader leaves and others stay. *)
Lemma rw_leave_reader t s rs :
  rw_inv s rs None -> modes s t = Reading -> count (rw s) <> 1 ->
  exists rs', rw_inv (RwSys (RwMutex (count (rw s) - 1) (read_waiters (rw s)) (write_waiters (rw s))
    (read_waiter_count (rw s))) (<[t := Off]> (modes s))) rs' None.
Proof.
  intros [] Ht Hc. apply rwi_reading0 in Ht as Hin.
  apply list_elem_of_split in Hin as (l1 & l2 & ->).
  assert (Hn := rwi_rs0). rewrite <- Permutation_middle in Hn. apply list.NoDup_cons in Hn as [Hn1 Hn2].
  rewrite length_app in rwi_count0. cbn in rwi_count0.
  exists (l1 ++ l2). split; cbn; try done; try (intros; lia).
  - intros x. at_thread x t; [naive_solver|]. rewrite rwi_reading0. set_solver.
  - intros x. at_thread x t; [naive_solver|done].
  - rewrite length_app. lia.
  - intros x. at_thread x t; [rewrite <- rwi_waitr0, Ht; naive_solver|done].
  - intros x. at_thread x t; [rewrite <- rwi_waitw0, Ht; naive_solver|done].
  - intros _. apply rwi_noread0. lia.
Qed.

(** Whoever leaves last leaves only waiters behind. *)
Lemma rw_leave_last t s rs wr :
  rw_inv s rs wr -> modes s t = Reading /\ count (rw s) = 1 \/ modes s t = Writing ->
  forall x, <[t := Off]> (modes s) x <> Reading /\ <[t := Off]> (modes s) x <> Writing /\
    (<[t := Off]> (modes s) x = WaitRead <-> x ∈ read_waiters (rw s)) /\
    (<[t := Off]> (modes s) x = WaitWrite <-> x ∈ write_waiters (rw s)).
Proof.
  intros [] Ht x.
  assert (Hlast : forall y, y <> t -> modes s y <> Reading /\ modes s y <> Writing).
  { intros y Hy. rewrite rwi_reading0, rwi_writing0. destruct Ht as [[Ht Hc]|Ht].
    - destruct wr as [w|]; [lia|]. split; [|done]. apply rwi_reading0 in Ht.
      destruct rs as [|a [|b rs]]; cbn in *; [lia| |lia]. set_solver.
    - apply rwi_writing0 in Ht as ->. destruct rwi_count0 as [_ ->]. set_solver. }
  rewrite <- rwi_waitr0, <- rwi_waitw0. at_thread x t; [|by specialize (Hlast x); naive_solver].
  destruct Ht as [[-> _]| ->]; naive_solver.
Qed.

(** The sleeping readers all get the lock. *)
Lemma rw_wake_readers s rs wr f :
  rw_inv s rs wr -> 0 < read_waiter_count (rw s) ->
  (forall x, f x <> Reading /\ f x <> Writing /\ (f x = WaitRead <-> x ∈ read_waiters (rw s)) /\
    (f x = WaitWrite <-> x ∈ write_waiters (rw s))) ->
  exists f', rw_ready (read_waiters (rw s)) f = Ok f' /\
    rw_inv (RwSys (RwMutex (read_waiter_count (rw s)) [] (write_waiters (rw s)) 0) f')
      (read_waiters (rw s)) None.
Proof.
  intros [] Hc Hf.
  destruct (rw_ready_read (read_waiters (rw s)) f) as (f' & E & H); [done|by intros w Hw; apply Hf|].
  exists f'. split; [done|]. split; cbn; try done; try (intros; lia); try (by constructor).
  all: intros x; rewrite H; destruct (Hf x) as (H1 & H2 & H3 & H4); destruct (decide _).
  all: rewrite ?elem_of_nil; intuition congruence.
Qed.

(** The first sleeping writer gets the lock. *)
Lemma rw_wake_writer s rs wr f w ws :
  rw_inv s rs wr -> read_waiters (rw s) = [] -> write_waiters (rw s) = w :: ws ->
  (forall x, f x <> Reading /\ f x <> Writing /\ (f x = WaitRead <-> x ∈ read_waiters (rw s)) /\
    (f x = WaitWrite <-> x ∈ write_waiters (rw s))) ->
  exists f', rw_ready [w] f = Ok f' /\
    rw_inv (RwSys (RwMutex (-1) (read_waiters (rw s)) ws (read_waiter_count (rw s))) f') [] (Some w).
Proof.
  intros [] Hr Hw Hf. exists (<[w := Writing]> f).
  assert (Ew : f w = WaitWrite) by (apply Hf; rewrite Hw; by left).
  rewrite Hw in rwi_ww0. apply list.NoDup_cons in rwi_ww0 as [Hn1 Hn2].
  split; [cbn; by rewrite Ew|]. split; cbn; try done; try (intros; lia); try (by constructor).
  all: intros x; destruct (Hf x) as (H1 & H2 & H3 & H4); at_thread x w.
  all: rewrite ?Hr, ?Hw, ?elem_of_cons, ?elem_of_nil in *; intuition congruence.
Qed.

(** The lock becomes free. *)
Lemma rw_free s rs wr f :
  rw_inv s rs wr -> read_waiters (rw s) = [] -> write_waiters (rw s) = [] ->
  (forall x, f x <> Reading /\ f x <> Writing /\ (f x = WaitRead <-> x ∈ read_waiters (rw s)) /\
    (f x = WaitWrite <-> x ∈ write_waiters (rw s))) ->
  rw_inv (RwSys (RwMutex 0 (read_waiters (rw s)) [] (read_waiter_count (rw s))) f) [] None.
Proof.
  intros [] Hr Hw Hf. rewrite Hr, Hw in *.
  split; cbn; try done; try (by constructor);
    intros x; destruct (Hf x) as (H1 & H2 & H3 & H4); rewrite ?elem_of_nil in *; intuition congruence.
Qed.

Lemma rw_unlock_last_ok s rs wr f :
  rw_inv s rs wr -> count (rw s) = 1 \/ count (rw s) = -1 ->
  (forall x, f x <> Reading /\ f x <> Writing /\ (f x = WaitRead <-> x ∈ read_waiters (rw s)) /\
    (f x = WaitWrite <-> x ∈ write_waiters (rw s))) ->
  exists s' rs' wr', ('(m, ws) ← rwmutex_unlock (rw s); f ← rw_ready ws f; Ok (RwSys m f)) = Ok s' /\
    rw_inv s' rs' wr'.
Proof.
  intros Hi Hc Hf. unfold rwmutex_unlock.
  replace (count (rw s) =? 0) with false by (bdestruct; lia). cbn.
  replace (if count (rw s) <? 0 then 0 else count (rw s) - 1) with 0 by (bdestruct; lia). cbn.
  destruct (read_waiter_count (rw s) >? 0) eqn:Er; cbn.
  - destruct (rw_wake_readers s rs wr f Hi) as (f' & -> & H); [lia|done|]. cbn. eauto.
  - assert (Hr : read_waiters (rw s) = [])
      by (destruct Hi; apply nil_length_inv; lia).
    destruct (write_waiters (rw s)) as [|w ws] eqn:Ew; cbn.
    + do 3 eexists. split; [done|]. apply (rw_free s rs wr); rewrite ?Ew; done.
    + destruct (rw_wake_writer s rs wr f w ws Hi Hr Ew) as (f' & E & H); [by rewrite Ew|].
      cbn in E. rewrite E. cbn. eauto.
Qed.

Lemma rw_unlock_ok t s rs wr :
  rw_inv s rs wr -> modes s t = Reading \/ modes s t = Writing ->
  exists s' rs' wr', rw_step t RwUnlock s = Some (Ok s') /\ rw_inv s' rs' wr'.
Proof.
  intros Hi Ht.
  assert (E : rw_step t RwUnlock s = Some ('(m, ws) ← rwmutex_unlock (rw s);
    f ← rw_ready ws (<[t := Off]> (modes s)); Ok (RwSys m f))).
  { unfold rw_step. by destruct Ht as [-> | ->]. }
  rewrite E. clear E.
  assert (Hcase : (modes s t = Reading /\ wr = None /\ 1 < count (rw s)) \/
    ((modes s t = Reading /\ count (rw s) = 1 \/ modes s t = Writing) /\
     (count (rw s) = 1 \/ count (rw s) = -1))).
  { destruct Hi. destruct Ht as [Ht|Ht].
    - apply rwi_reading0 in Ht as Hin. destruct wr as [w|]; [by destruct rwi_count0 as [_ ->]; inversion Hin|].
      destruct rs as [|a rs]; [inversion Hin|]. cbn in rwi_count0.
      destruct (decide (count (rw s) = 1)); [right; auto|left; split_and!; auto; lia].
    - apply rwi_writing0 in Ht as Hw. subst wr. right. destruct rwi_count0. auto. }
  destruct Hcase as [(Hr & -> & Hc)|[Hl Hc]].
  - destruct (rw_leave_reader t s rs Hi Hr) as [rs' H]; [lia|]. unfold rwmutex_unlock.
    replace (count (rw s) =? 0) with false by (bdestruct; lia). cbn.
    replace (count (rw s) <? 0) with false by (bdestruct; lia).
    replace (count (rw s) - 1 =? 0) with false by (bdestruct; lia). cbn. eauto.
  - destruct (rw_unlock_last_ok s rs wr (<[t := Off]> (modes s)) Hi Hc) as (s' & rs' & wr' & -> & H);
      [by eapply rw_leave_last|eauto].
Qed.

Lemma rw_reachable_inv s : rw_reachable s -> exists rs wr, rw_inv s rs wr.
Proof.
  induction 1 as [|s t c s' _ (rs & wr & Hi) Hs].
  - exists [], None. split; cbn; try done; try (by constructor); try set_solver.
  - destruct (modes s t) eqn:Et.
    + assert (H := rw_enter_good t c s rs wr Hi Et). by rewrite Hs in H.
    + destruct c; unfold rw_step in Hs; rewrite Et in Hs; try done.
      destruct (rw_unlock_ok t s rs wr Hi) as (s2 & ? & ? & H & ?); [auto|].
      unfold rw_step in H. rewrite Et in H. rewrite H in Hs. naive_solver.
    + destruct c; unfold rw_step in Hs; rewrite Et in Hs; try done.
      destruct (rw_unlock_ok t s rs wr Hi) as (s2 & ? & ? & H & ?); [auto|].
      unfold rw_step in H. rewrite Et in H. rewrite H in Hs. naive_solver.
    + unfold rw_step in Hs. rewrite Et in Hs. by destruct c.
    + unfold rw_step in Hs. rewrite Et in Hs. by destruct c.
Qed.

(** ** Properties *)

(** C29.  In every reachable state of any number of threads using a rwmutex, a
    thread that holds it for writing holds it alone. *)
Theorem rwmutex_exclusion s t u :
  rw_reachable s -> modes s t = Writing -> modes s u = Reading \/ modes s u = Writing -> t = u.
Proof.
  intros (rs & wr & [])%rw_reachable_inv Ht%rwi_writing0 Hu. subst wr.
  destruct Hu as [Hu%rwi_reading0|Hu%rwi_writing0]; [|congruence].
  destruct rwi_count0 as [_ ->]. inversion Hu.
Qed.

(**  No thread waits for a rwmutex in vain: a thread sleeps to read only
    while another one writes, to write only while another one holds the lock, and
    the release by any holder succeeds. *)
Theorem rwmutex_progress s t :
  rw_reachable s ->
  (modes s t = WaitRead -> exists u, modes s u = Writing) /\
  (modes s t = WaitWrite -> exists u, modes s u = Reading \/ modes s u = Writing) /\
  (modes s t = Reading \/ modes s t = Writing -> exists s', rw_step t RwUnlock s = Some (Ok s')).
Proof.
  intros (rs & wr & Hi)%rw_reachable_inv. split_and!.
  - destruct Hi. intros Ht%rwi_waitr0. destruct wr as [u|]; [exists u; by apply rwi_writing0|].
    rewrite rwi_noread0 in Ht by lia. inversion Ht.
  - destruct Hi. intros Ht%rwi_waitw0.
    destruct wr as [u|]; [exists u; right; by apply rwi_writing0|].
    destruct rs as [|u rs]; [|exists u; left; apply rwi_reading0; by left].
    rewrite rwi_nowrite0 in Ht by done. inversion Ht.
  - intros Ht. destruct (rw_unlock_ok t s rs wr Hi Ht) as (s' & _ & _ & H & _). eauto.
Qed.

(** *** Sequences of calls on a wait group *)

Inductive wg_op := WgAdd (cnt : Z) | WgWait (t : nat).

(** Runs the calls in order; the threads that parked and the threads that were
    made ready, both in order. *)
Fixpoint wg_run (ops : list wg_op) (wg : waitgroup) : res (waitgroup * list nat * list nat) :=
  match ops with
  | [] => Ok (wg, [], [])
  | WgAdd cnt :: ops =>
      '(wg, ready) ← waitgroup_add cnt wg;
      '(wg, parked, woken) ← wg_run ops wg;
      Ok (wg, parked, ready ++ woken)
  | WgWait t :: ops =>
      let '(wg, fl) := waitgroup_wait t wg in
      '(wg, parked, woken) ← wg_run ops wg;
      Ok (wg, match fl with Park => t :: parked | Return _ => parked end, woken)
  end.

(** The sum of the counts added. *)
Fixpoint wg_total (ops : list wg_op) : Z :=
  match ops with
  | [] => 0
  | WgAdd cnt :: ops => cnt + wg_total ops
  | WgWait _ :: ops => wg_total ops
  end.

(** Every sum along the way stays in the range of a count. *)
Fixpoint wg_counts_ok (c : Z) (ops : list wg_op) : Prop :=
  match ops with
  | [] => True
  | WgAdd cnt :: ops => 0 <= c + cnt <= INT_MAX /\ wg_counts_ok (c + cnt) ops
  | WgWait _ :: ops => wg_counts_ok c ops
  end.

Lemma wg_run_spec ops wg :
  0 <= wg_cnt wg -> (wg_cnt wg = 0 -> wg_waiters wg = []) ->
  match wg_run ops wg with
  | Ok (wg', parked, woken) =>
      wg_counts_ok (wg_cnt wg) ops /\ wg_cnt wg' = wg_cnt wg + wg_total ops /\ 0 <= wg_cnt wg' /\
      woken ++ wg_waiters wg' = wg_waiters wg ++ parked /\ (wg_cnt wg' = 0 -> wg_waiters wg' = [])
  | Bug => ~ wg_counts_ok (wg_cnt wg) ops
  end.
Proof.
  revert wg. induction ops as [|[cnt|t] ops IH]; intros [c ws] Hc Hw; cbn in *.
  - split_and!; auto; [lia|by rewrite app_nil_r].
  - unfold waitgroup_add, int_add. cbn.
    destruct ((INT_MIN <=? c + cnt) && (c + cnt <=? INT_MAX)) eqn:E; cbn.
    2:{ intros [H _]. unfold INT_MIN in E. apply andb_false_iff in E as [?|?]; bprop; lia. }
    bprop. destruct (Z.ltb_spec (c + cnt) 0); cbn; [lia|].
    destruct (Z.eqb_spec (c + cnt) 0) as [Hz|Hz]; cbn.
    + specialize (IH (WaitGroup (c + cnt) []) ltac:(cbn; lia) ltac:(done)). cbn in IH.
      destruct (wg_run ops _) as [[[wg' parked] woken]|]; cbn; [|tauto].
      destruct IH as (I1 & I2 & I3 & I4 & I5). split_and!; auto; try lia. by rewrite <- app_assoc, I4.
    + specialize (IH (WaitGroup (c + cnt) ws) ltac:(cbn; lia) ltac:(cbn; lia)). cbn in IH.
      destruct (wg_run ops _) as [[[wg' parked] woken]|]; cbn; [|tauto].
      destruct IH as (I1 & I2 & I3 & I4 & I5). split_and!; auto; lia.
  - unfold waitgroup_wait. cbn. destruct (Z.eqb_spec c 0) as [Hz|Hz].
    + specialize (IH (WaitGroup c ws) Hc Hw). cbn in IH.
      destruct (wg_run ops _) as [[[wg' parked] woken]|]; cbn; done.
    + specialize (IH (WaitGroup c (ws ++ [t])) Hc ltac:(cbn; lia)). cbn in IH.
      destruct (wg_run ops _) as [[[wg' parked] woken]|]; cbn; [|done].
      destruct IH as (H1 & H2 & H3 & H4 & H5). split_and!; auto. by rewrite H4, <- app_assoc.
Qed.

(**  A wait group, through any sequence of [waitgroup_add] and
    [waitgroup_wait]: the sequence runs exactly when no count on the way is
    negative or overflows; the count is then the sum of what was added, the threads
    that parked are woken in the order in which they parked, none twice and none
    that did not park, and nobody is left asleep when the count is zero. *)
Theorem waitgroup_accounts ops :
  match wg_run ops waitgroup_init with
  | Ok (wg, parked, woken) =>
      wg_counts_ok 0 ops /\ wg_cnt wg = wg_total ops /\ 0 <= wg_cnt wg /\
      parked = woken ++ wg_waiters wg /\ (wg_cnt wg = 0 -> wg_waiters wg = [])
  | Bug => ~ wg_counts_ok 0 ops
  end.
Proof.
  assert (H := wg_run_spec ops waitgroup_init ltac:(done) ltac:(done)).
  destruct (wg_run ops waitgroup_init) as [[[wg parked] woken]|]; [|done].
  destruct H as (H1 & H2 & H3 & H4 & H5). split_and!; auto.
Qed.

(** *** Rounds of a barrier *)

(** The calls of the threads [ts] in order, each with its outcome and the
    threads it made ready. *)
Fixpoint barrier_run (ts : list nat) (b : barrier) : res (barrier * list (nat * flow * list nat)) :=
  match ts with
  | [] => Ok (b, [])
  | t :: ts =>
      '(b, fl, ready) ← barrier_wait t b;
      '(b, outs) ← barrier_run ts b;
      Ok (b, (t, fl, ready) :: outs)
  end.

Lemma barrier_run_app ts us b :
  barrier_run (ts ++ us) b =
    ('(b, o1) ← barrier_run ts b; '(b, o2) ← barrier_run us b; Ok (b, o1 ++ o2)).
Proof.
  revert b. induction ts as [|t ts IH]; intros b; cbn.
  - by destruct (barrier_run us b) as [[]|].
  - destruct (barrier_wait t b) as [[[b1 fl] ready]|]; cbn; [|done]. rewrite IH.
    destruct (barrier_run ts b1) as [[b2 o1]|]; cbn; [|done].
    by destruct (barrier_run us b2) as [[b3 o2]|].
Qed.

(** What a round of threads sees: all but the last park, the last one returns
    true and makes them ready in their order of arrival. *)
Definition round_outcome (ts : list nat) (t : nat) : list (nat * flow * list nat) :=
  ((fun x => (x, Park, [])) <$> ts) ++ [(t, Return true, ts)].

Lemma barrier_park ts n ws :
  Z.of_nat (length ws + length ts) < n -> n <= INT_MAX ->
  barrier_run ts (Barrier (Z.of_nat (length ws)) n ws)
    = Ok (Barrier (Z.of_nat (length (ws ++ ts))) n (ws ++ ts), (fun x => (x, Park, [])) <$> ts).
Proof.
  revert ws. induction ts as [|t ts IH]; intros ws Hn Hm; cbn; [by rewrite app_nil_r|].
  unfold barrier_wait, int_add, INT_MIN. cbn in *.
  replace (_ && _) with true by (symmetry; apply andb_true_iff; split; bdestruct; lia). cbn.
  rewrite Z.geb_leb. destruct (Z.leb_spec n (Z.of_nat (length ws) + 1)); [lia|]. cbn.
  replace (Z.of_nat (length ws) + 1) with (Z.of_nat (length (ws ++ [t]))) by (rewrite length_app; cbn; lia).
  rewrite IH by (rewrite ?length_app; cbn; lia). cbn. by rewrite <- !app_assoc.
Qed.

Lemma barrier_round ts t n :
  Z.of_nat (length ts) + 1 = n -> n <= INT_MAX ->
  barrier_run (ts ++ [t]) (barrier_init n) = Ok (barrier_init n, round_outcome ts t).
Proof.
  intros Hn Hm. rewrite barrier_run_app.
  assert (H := barrier_park ts n [] ltac:(cbn; lia) Hm).
  change (Barrier (Z.of_nat (length [])) n []) with (barrier_init n) in H. rewrite H. cbn. unfold barrier_wait, int_add, INT_MIN. cbn.
  replace (_ && _) with true by (symmetry; apply andb_true_iff; split; bdestruct; lia). cbn.
  rewrite Z.geb_leb. destruct (Z.leb_spec n (Z.of_nat (length ts) + 1)); [done|lia].
Qed.

(**  A barrier for [n] threads works in rounds, any number of them: of each
    [n] arrivals the first [n - 1] park, the last one returns true and makes
    exactly these ready, and the barrier is as initialised again. *)
Theorem barrier_rounds n (rounds : list (list nat * nat)) :
  n <= INT_MAX -> Forall (fun r => Z.of_nat (length r.1) + 1 = n) rounds ->
  barrier_run (concat ((fun r => r.1 ++ [r.2]) <$> rounds)) (barrier_init n)
    = Ok (barrier_init n, concat ((fun r => round_outcome r.1 r.2) <$> rounds)).
Proof.
  intros Hm H. induction H as [|[ts t] rounds Hr _ IH]; [done|]. cbn in *.
  rewrite barrier_run_app, barrier_round by done. cbn. by rewrite IH.
Qed.

(** ** Witnesses *)

Definition rw_sys0 : rwsys := RwSys rwmutex_init (fun _ => Off).

Fixpoint rw_run (script : list (nat * rwcall)) (s : rwsys) : rwsys :=
  match script with
  | [] => s
  | (t, c) :: script =>
      match rw_step t c s with Some (Ok s') => rw_run script s' | _ => s end
  end.

Lemma rw_run_reachable script s : rw_reachable s -> rw_reachable (rw_run script s).
Proof.
  revert s. induction script as [|[t c] script IH]; intros s Hr; cbn; [done|].
  destruct (rw_step t c s) as [[s1|]|] eqn:E; [|done..]. apply IH. by eapply rw_reach_step.
Qed.

(** Thread 1 writes, threads 2 and 3 wait to read and to write. *)
Definition rw_example : rwsys :=
  rw_run [(1%nat, WrLock); (2%nat, RdLock); (3%nat, WrLock)] rw_sys0.

Lemma rw_example_reachable : rw_reachable rw_example.
Proof. apply rw_run_reachable. constructor. Qed.

Lemma rwmutex_exclusion_witness : modes rw_example 1%nat = Writing /\ modes rw_example 2%nat <> Reading.
Proof.
  split; [vm_compute; reflexivity|]. intros H.
  assert (E := rwmutex_exclusion rw_example 1%nat 2%nat rw_example_reachable
    ltac:(vm_compute; reflexivity) (or_introl H)). discriminate E.
Defined.

Lemma rwmutex_progress_witness :
  modes rw_example 2%nat = WaitRead /\ exists u, modes rw_example u = Writing.
Proof.
  assert (E : modes rw_example 2%nat = WaitRead) by (vm_compute; reflexivity).
  split; [exact E|]. apply (rwmutex_progress rw_example 2%nat rw_example_reachable). exact E.
Defined.

Lemma barrier_rounds_witness :
  barrier_run [1%nat; 2%nat; 3%nat; 3%nat; 1%nat; 2%nat] (barrier_init 3)
    = Ok (barrier_init 3, round_outcome [1%nat; 2%nat] 3%nat ++ round_outcome [3%nat; 1%nat] 2%nat).
Proof.
  apply (barrier_rounds 3 [([1%nat; 2%nat], 3%nat); ([3%nat; 1%nat], 2%nat)]); [done|].
  repeat constructor.
Defined.
