(* ===== verification/Tcache.v ===== *)
(** * base/tcache.c: magazine-based thread-local item caches

    The free items carry the links: the first two words of a free item are
    [next_item], the next item of its magazine, and [next_mag], the next magazine
    of the shared list.  The model keeps these words in a memory indexed by item
    address, so that a cache is pointers into it, as in the code.  The backing
    allocator is an interface, [TcacheOps], which Mempool.v implements. *)

From S2P Require Import Prelude.

Definition TCACHE_MAX_MAG_SIZE : nat := 64.

Record tcache_hdr := Hdr { next_item : Z; next_mag : Z }.
Definition NULL : Z := 0.

Abbreviation memory := (gmap Z tcache_hdr).

Definition load (p : Z) (mem : memory) : res tcache_hdr :=
  match mem !! p with Some h => Ok h | None => Bug end.

Definition set_next_item (p v : Z) (mem : memory) : res memory :=
  h ← load p mem; Ok (<[p := Hdr v (next_mag h)]> mem).

Definition set_next_mag (p v : Z) (mem : memory) : res memory :=
  h ← load p mem; Ok (<[p := Hdr (next_item h) v]> mem).

(** [struct tcache_ops]: allocation of [nr] items ([None] is an error return)
    and their release.  Both may overwrite the memory of the items they move.
    The laws: the free items of the allocator and what it handed out are always
    the items it manages, [pool_all]. *)
Class TcacheOps (P : Type) := {
  ops_alloc : nat -> memory -> P -> res (option (list Z) * memory * P);
  ops_free : list Z -> memory -> P -> res (memory * P);
  pool_ok : P -> Prop;
  pool_all : P -> list Z;
  pool_free : P -> list Z;
  pool_sub : forall p, pool_ok p -> pool_free p ⊆+ pool_all p;
  pool_nodup : forall p, pool_ok p -> NoDup (pool_all p);
  pool_nonnull : forall p, pool_ok p -> NULL ∉ pool_all p;
  ops_alloc_ok : forall n mem p,
    pool_ok p -> (forall x, x ∈ pool_all p -> is_Some (mem !! x)) ->
    exists r mem' p', ops_alloc n mem p = Ok (r, mem', p') /\
      pool_ok p' /\ pool_all p' = pool_all p /\
      default [] r ++ pool_free p' ≡ₚ pool_free p /\
      (forall l, r = Some l -> length l = n) /\
      (r = None -> (length (pool_free p) < n)%nat) /\
      (forall x, x ∉ pool_free p -> mem' !! x = mem !! x) /\
      (forall x, is_Some (mem !! x) -> is_Some (mem' !! x));
  ops_free_ok : forall l mem p,
    pool_ok p -> (forall x, x ∈ pool_all p -> is_Some (mem !! x)) ->
    l ++ pool_free p ⊆+ pool_all p ->
    exists mem' p', ops_free l mem p = Ok (mem', p') /\
      pool_ok p' /\ pool_all p' = pool_all p /\ pool_free p' ≡ₚ l ++ pool_free p /\
      (forall x, x ∉ l -> mem' !! x = mem !! x) /\
      (forall x, is_Some (mem !! x) -> is_Some (mem' !! x));
}.

Record tcache := Tcache { mags_allocated : Z; mag_size : nat; shared_mags : Z }.
Record tcache_perthread := Ltc { rounds : nat; capacity : nat; loaded : Z; previous : Z }.

Section tcache.
Context {P : Type} `{TcacheOps P}.

(** The memory, the shared cache and its backing allocator. *)
Record tstore := Store { mem : memory; tc : tcache; pool : P }.

(** [tcache_create]: [malloc_ok] is whether [malloc] succeeds. *)
Definition TCACHE_MIN_ITEM_SIZE : Z := 16.
Definition tcache_create (malloc_ok : bool) (msize : nat) (item_size : Z) : res (option tcache) :=
  _ ← BUG_ON (item_size <? TCACHE_MIN_ITEM_SIZE);
  _ ← BUG_ON (bool_decide (TCACHE_MAX_MAG_SIZE < msize)%nat);
  Ok (if malloc_ok then Some (Tcache 0 msize NULL) else None).

Definition tcache_init_perthread (t : tcache) : tcache_perthread := Ltc 0 (mag_size t) NULL NULL.

(** The loop of [tcache_alloc_mag] that links [items]: [pos] is the item whose
    [next_item] is written next. *)
Fixpoint link_items (pos : Z) (items : list Z) (m : memory) : res memory :=
  match items with
  | [] => set_next_item pos NULL m
  | x :: items => m ← set_next_item pos x m; link_items x items m
  end.

Definition tcache_alloc_mag (s : tstore) : res (Z * tstore) :=
  '(r, m, p) ← ops_alloc (mag_size (tc s)) (mem s) (pool s);
  match r with
  | None => Ok (NULL, Store m (tc s) p)
  | Some [] => Bug
  | Some (head :: items) =>
      m ← link_items head items m;
      Ok (head, Store m (Tcache (mags_allocated (tc s) + 1) (mag_size (tc s)) (shared_mags (tc s))) p)
  end.

(** The loop of [tcache_free_mag] that collects the items of a magazine in an
    array of [TCACHE_MAX_MAG_SIZE] entries, [more] of them left. *)
Fixpoint collect (more : nat) (hdr : Z) (m : memory) : res (list Z) :=
  match more with
  | O => Bug
  | S more =>
      h ← load hdr m;
      if next_item h =? NULL then Ok [hdr]
      else l ← collect more (next_item h) m; Ok (hdr :: l)
  end.

Definition tcache_free_mag (hdr : Z) (s : tstore) : res tstore :=
  items ← collect TCACHE_MAX_MAG_SIZE hdr (mem s);
  _ ← BUG_ON (negb (bool_decide (length items = mag_size (tc s))));
  '(m, p) ← ops_free items (mem s) (pool s);
  Ok (Store m (Tcache (mags_allocated (tc s) - 1) (mag_size (tc s)) (shared_mags (tc s))) p).

(** The label [alloc] of [__tcache_alloc]: reload the magazine and take an item. *)
Definition alloc_loaded (ltc : tcache_perthread) (s : tstore)
    : res (Z * tcache_perthread * tstore) :=
  h ← load (loaded ltc) (mem s);
  Ok (loaded ltc, Ltc (capacity ltc - 1) (capacity ltc) (next_item h) (previous ltc), s).

(** [ltc->capacity - 1] is unsigned: a capacity of zero is not supported. *)
Definition __tcache_alloc (ltc : tcache_perthread) (s : tstore)
    : res (Z * tcache_perthread * tstore) :=
  _ ← BUG_ON (negb (bool_decide (rounds ltc = 0%nat)));
  _ ← BUG_ON (negb (loaded ltc =? NULL));
  _ ← BUG_ON (bool_decide (capacity ltc = 0%nat));
  if negb (previous ltc =? NULL) then
    (* CASE 1 *)
    alloc_loaded (Ltc (rounds ltc) (capacity ltc) (previous ltc) NULL) s
  else if negb (shared_mags (tc s) =? NULL) then
    (* CASE 2 *)
    h ← load (shared_mags (tc s)) (mem s);
    alloc_loaded (Ltc (rounds ltc) (capacity ltc) (shared_mags (tc s)) (previous ltc))
      (Store (mem s) (Tcache (mags_allocated (tc s)) (mag_size (tc s)) (next_mag h)) (pool s))
  else
    (* CASE 3 *)
    '(head, s) ← tcache_alloc_mag s;
    if head =? NULL then Ok (NULL, Ltc (rounds ltc) (capacity ltc) NULL (previous ltc), s)
    else alloc_loaded (Ltc (rounds ltc) (capacity ltc) head (previous ltc)) s.

Definition tcache_alloc (ltc : tcache_perthread) (s : tstore)
    : res (Z * tcache_perthread * tstore) :=
  if bool_decide (rounds ltc = 0%nat) then __tcache_alloc ltc s
  else
    h ← load (loaded ltc) (mem s);
    Ok (loaded ltc, Ltc (rounds ltc - 1) (capacity ltc) (next_item h) (previous ltc), s).

Definition free_loaded (item prev : Z) (ltc : tcache_perthread) (s : tstore)
    : res (tcache_perthread * tstore) :=
  m ← set_next_item item NULL (mem s);
  Ok (Ltc 1 (capacity ltc) item prev, Store m (tc s) (pool s)).

Definition __tcache_free (item : Z) (ltc : tcache_perthread) (s : tstore)
    : res (tcache_perthread * tstore) :=
  _ ← BUG_ON (negb (bool_decide (rounds ltc = capacity ltc)));
  _ ← BUG_ON (loaded ltc =? NULL);
  if previous ltc =? NULL then free_loaded item (loaded ltc) ltc s
  else
    m ← set_next_mag (previous ltc) (shared_mags (tc s)) (mem s);
    free_loaded item (loaded ltc) ltc
      (Store m (Tcache (mags_allocated (tc s)) (mag_size (tc s)) (previous ltc)) (pool s)).

Definition tcache_free (item : Z) (ltc : tcache_perthread) (s : tstore)
    : res (tcache_perthread * tstore) :=
  if bool_decide (capacity ltc <= rounds ltc)%nat then __tcache_free item ltc s
  else
    m ← set_next_item item (loaded ltc) (mem s);
    Ok (Ltc (rounds ltc + 1) (capacity ltc) item (previous ltc), Store m (tc s) (pool s)).

(** The loop of [tcache_reclaim] over the magazines it took. *)
Fixpoint reclaim_loop (fuel : nat) (hdr : Z) (s : tstore) : option (res tstore) :=
  if hdr =? NULL then Some (Ok s)
  else
    match fuel with
    | O => None
    | S fuel =>
        match h ← load hdr (mem s); s ← tcache_free_mag hdr s; Ok (h, s) with
        | Ok (h, s) => reclaim_loop fuel (next_mag h) s
        | Bug => Some Bug
        end
    end.

Definition tcache_reclaim (fuel : nat) (s : tstore) : option (res tstore) :=
  reclaim_loop fuel (shared_mags (tc s))
    (Store (mem s) (Tcache (mags_allocated (tc s)) (mag_size (tc s)) NULL) (pool s)).

(** ** Representation

    [chain m p l]: the magazine at [p] holds the items [l].
    [mags m p ms]: the list of magazines at [p] is [ms]. *)

Fixpoint chain (m : memory) (p : Z) (l : list Z) : Prop :=
  match l with
  | [] => p = NULL
  | x :: l => p = x /\ x <> NULL /\ exists h, m !! x = Some h /\ chain m (next_item h) l
  end.

Fixpoint mags (m : memory) (p : Z) (ms : list (list Z)) : Prop :=
  match ms with
  | [] => p = NULL
  | l :: ms => l <> [] /\ chain m p l /\ exists h, m !! p = Some h /\ mags m (next_mag h) ms
  end.

Definition ltc_rep (n : nat) (m : memory) (ltc : tcache_perthread) (ld pv : list Z) : Prop :=
  chain m (loaded ltc) ld /\ chain m (previous ltc) pv /\ rounds ltc = length ld /\
  capacity ltc = n /\ (length ld <= n)%nat /\ (pv = [] \/ length pv = n).

Record store_rep (s : tstore) (ms : list (list Z)) : Prop := {
  sr_mags : mags (mem s) (shared_mags (tc s)) ms;
  sr_full : Forall (fun l => length l = mag_size (tc s)) ms;
  sr_pool : pool_ok (pool s);
  sr_size : (1 <= mag_size (tc s) <= TCACHE_MAX_MAG_SIZE)%nat;
  sr_mem : forall x, x ∈ pool_all (pool s) -> is_Some (mem s !! x);
}.

Lemma chain_ext m m' p l :
  chain m p l -> (forall x, x ∈ l -> next_item <$> m' !! x = next_item <$> m !! x) -> chain m' p l.
Proof.
  revert p. induction l as [|x l IH]; intros p Hc He; [done|].
  destruct Hc as (-> & Hx & h & Hm & Hc). split_and!; [done..|].
  specialize (He x ltac:(by left)) as Hex. rewrite Hm in Hex.
  destruct (m' !! x) as [h'|] eqn:E; [|done]. injection Hex as Hn. exists h'. split; [done|].
  rewrite Hn. apply IH; [done|]. intros y Hy. apply He. by right.
Qed.

Lemma chain_frame m m' p l :
  chain m p l -> (forall x, x ∈ l -> m' !! x = m !! x) -> chain m' p l.
Proof. intros Hc He. apply (chain_ext m); [done|]. intros x Hx. by rewrite He. Qed.

Lemma chain_null m p l : chain m p l -> p = NULL <-> l = [].
Proof. destruct l as [|x l]; cbn; naive_solver. Qed.

Lemma chain_head m p l : chain m p l -> p <> NULL -> p ∈ l.
Proof. destruct l as [|x l]; cbn; [done|]. intros [-> _] _. by left. Qed.

Lemma mags_frame m m' p ms :
  mags m p ms -> (forall x, x ∈ concat ms -> m' !! x = m !! x) -> mags m' p ms.
Proof.
  revert p. induction ms as [|l ms IH]; intros p Hm He; [done|].
  destruct Hm as (Hl & Hc & h & Hp & Hm). split_and!; [done| |].
  - apply (chain_frame m); [done|]. intros x Hx. apply He. cbn. set_solver.
  - exists h. split; [|apply IH; [done|]; intros x Hx; apply He; cbn; set_solver].
    rewrite He; [done|]. cbn. destruct l as [|x l]; [done|]. destruct Hc as [-> _]. set_solver.
Qed.

Lemma set_next_item_ok p v m :
  is_Some (m !! p) -> exists h, m !! p = Some h /\
    set_next_item p v m = Ok (<[p := Hdr v (next_mag h)]> m).
Proof. intros [h Hh]. exists h. split; [done|]. unfold set_next_item, load. by rewrite Hh. Qed.

(** [link_items] builds a chain and touches nothing else. *)
Lemma link_items_ok pos items m :
  NoDup (pos :: items) -> NULL ∉ pos :: items -> (forall x, x ∈ pos :: items -> is_Some (m !! x)) ->
  exists m', link_items pos items m = Ok m' /\ chain m' pos (pos :: items) /\
    (forall x, x ∉ pos :: items -> m' !! x = m !! x) /\ (forall x, is_Some (m !! x) -> is_Some (m' !! x)).
Proof.
  revert pos m. induction items as [|y items IH]; intros pos m Hn Hz Hm.
  - destruct (set_next_item_ok pos NULL m) as (h & Hh & E); [apply Hm; by left|].
    eexists. cbn [link_items]. split; [exact E|]. split_and!.
    + split_and!; [done|set_solver|]. eexists. split; [apply lookup_insert_eq|done].
    + intros x Hx. rewrite lookup_insert_ne; [done|set_solver].
    + intros x [hx Hx]. destruct (decide (pos = x)) as [<-|]; [rewrite lookup_insert_eq; eauto|].
      rewrite lookup_insert_ne; eauto.
  - destruct (set_next_item_ok pos y m) as (h & Hh & E); [apply Hm; by left|].
    apply list.NoDup_cons in Hn as [Hn1 Hn2].
    assert (Hk : forall x, is_Some (m !! x) -> is_Some (<[pos := Hdr y (next_mag h)]> m !! x)).
    { intros x [hx Hx]. destruct (decide (pos = x)) as [<-|]; [rewrite lookup_insert_eq; eauto|].
      rewrite lookup_insert_ne; eauto. }
    destruct (IH y (<[pos := Hdr y (next_mag h)]> m) Hn2) as (m' & E' & Hc & Hf & Hk');
      [set_solver|intros x Hx; apply Hk, Hm; set_solver|].
    exists m'. cbn [link_items]. rewrite E. cbn. split; [done|]. split_and!.
    + set_solver.
    + set_solver.
    + exists (Hdr y (next_mag h)). rewrite Hf by done. rewrite lookup_insert_eq. done.
    + intros x Hx. rewrite Hf by set_solver. rewrite lookup_insert_ne; [done|set_solver].
    + auto.
Qed.

Lemma collect_ok m p l n :
  chain m p l -> l <> [] -> (length l <= n)%nat -> collect n p m = Ok l.
Proof.
  revert p n. induction l as [|x l IH]; intros p n Hc Hl Hn; [done|].
  destruct n as [|n]; cbn in Hn; [lia|]. destruct Hc as (-> & Hx & h & Hm & Hc). cbn.
  unfold load. rewrite Hm. cbn. bdestruct.
  - apply (chain_null _ _ _ Hc) in e. by subst.
  - rewrite IH; [done|done| |lia]. intros ->. by cbn in Hc.
Qed.

(** Everything in the cache of one thread, the shared magazines and the pool. *)
Definition cached (ld pv : list Z) (ms : list (list Z)) (s : tstore) : list Z :=
  ld ++ pv ++ concat ms ++ pool_free (pool s).

(** What an operation leaves as it was: the parameters of the cache and the
    memory of the items [X] that it does not own. *)
Definition framed (X : list Z) (s s' : tstore) : Prop :=
  pool_all (pool s') = pool_all (pool s) /\ mag_size (tc s') = mag_size (tc s) /\
  forall x, x ∈ X -> mem s' !! x = mem s !! x.

Lemma alloc_loaded_ok n ltc s x ld pv :
  chain (mem s) (loaded ltc) (x :: ld) -> chain (mem s) (previous ltc) pv ->
  length (x :: ld) = n -> capacity ltc = n -> (pv = [] \/ length pv = n) ->
  exists ltc', alloc_loaded ltc s = Ok (x, ltc', s) /\ ltc_rep n (mem s) ltc' ld pv.
Proof.
  intros (Ex & Hx & h & Hm & Hc) Hp Hl Hn Hv. unfold alloc_loaded, load. rewrite Ex, Hm. cbn.
  eexists. split; [done|]. cbn in Hl. split_and!; cbn; auto; lia.
Qed.

Lemma pool_free_all p x : pool_ok p -> x ∈ pool_free p -> x ∈ pool_all p.
Proof. intros Hp Hx. eapply elem_of_submseteq; [exact Hx|by apply pool_sub]. Qed.

Lemma pool_free_nodup p : pool_ok p -> NoDup (pool_free p).
Proof.
  intros Hp. destruct (submseteq_Permutation _ _ (pool_sub p Hp)) as [k Hk].
  assert (Hn := pool_nodup p Hp). rewrite Hk in Hn. by apply list.NoDup_app in Hn as (? & _).
Qed.

(** A new magazine, when the shared list is empty. *)
Lemma tcache_alloc_mag_ok s :
  store_rep s [] ->
  exists head s' l, tcache_alloc_mag s = Ok (head, s') /\ store_rep s' [] /\
    chain (mem s') head l /\ (l = [] \/ length l = mag_size (tc s)) /\
    l ++ pool_free (pool s') ≡ₚ pool_free (pool s) /\
    (l = [] -> (length (pool_free (pool s)) < mag_size (tc s))%nat) /\
    (forall X, (forall x, x ∈ X -> x ∉ pool_free (pool s)) -> framed X s s').
Proof.
  intros [Hms Hfull Hp Hsz Hmem].
  destruct (ops_alloc_ok (mag_size (tc s)) (mem s) (pool s) Hp Hmem)
    as (r & m & p & E & Hp' & Hall & Hperm & Hlen & Hnone & Hf & Hk).
  unfold tcache_alloc_mag. rewrite E. cbn. destruct r as [[|head items]|]; cbn in Hperm.
  - specialize (Hlen [] eq_refl). cbn in Hlen. lia.
  - assert (Hin : forall x, x ∈ head :: items -> x ∈ pool_free (pool s))
      by (intros x Hx; rewrite <- Hperm, elem_of_cons, elem_of_app; set_solver).
    assert (Hnd : NoDup (head :: items)).
    { assert (Hn := pool_free_nodup _ Hp). rewrite <- Hperm in Hn.
      change (NoDup ((head :: items) ++ pool_free p)) in Hn. by apply list.NoDup_app in Hn as (? & _). }
    destruct (link_items_ok head items m Hnd) as (m' & -> & Hc & Hf' & Hk').
    + intros Hz. apply (pool_nonnull _ Hp). eauto using pool_free_all.
    + intros x Hx. apply Hk, Hmem. eauto using pool_free_all.
    + cbn. do 3 eexists. split; [done|]. split_and!; cbn; try done; eauto.
      * split; cbn; auto. rewrite Hall. auto.
      * intros X HX. split_and!; cbn; auto. intros x Hx.
        rewrite Hf', Hf; auto. intros Hi%Hin. by apply (HX x).
  - exists NULL, (Store m (tc s) p), []. split; [done|]. split_and!; cbn; auto.
    + split; cbn; auto. rewrite Hall. auto.
    + intros X HX. split_and!; cbn; auto.
Qed.

(** The outcome of an allocation: item [r], or none, leaves the cached items. *)
Definition alloc_post (X ld pv : list Z) (ms : list (list Z)) (s : tstore)
    (out : res (Z * tcache_perthread * tstore)) : Prop :=
  exists r ltc' s' ld' pv' ms',
    out = Ok (r, ltc', s') /\ store_rep s' ms' /\
    ltc_rep (mag_size (tc s)) (mem s') ltc' ld' pv' /\ framed X s s' /\
    (if decide (r = NULL) then [] else [r]) ++ cached ld' pv' ms' s' ≡ₚ cached ld pv ms s /\
    (r = NULL -> ld = [] /\ pv = [] /\ ms = [] /\ (length (pool_free (pool s)) < mag_size (tc s))%nat).

Lemma framed_refl X s : framed X s s.
Proof. by repeat split. Qed.

(** Allocation from the magazine [x :: l] that has just been loaded. *)
Lemma alloc_loaded_post X ltc s0 s x l pv ld0 pv0 ms ms0 :
  store_rep s ms -> mag_size (tc s) = mag_size (tc s0) -> framed X s0 s ->
  chain (mem s) (loaded ltc) (x :: l) -> chain (mem s) (previous ltc) pv ->
  length (x :: l) = mag_size (tc s0) -> capacity ltc = mag_size (tc s0) ->
  (pv = [] \/ length pv = mag_size (tc s0)) ->
  (x :: l) ++ pv ++ concat ms ++ pool_free (pool s) ≡ₚ cached ld0 pv0 ms0 s0 ->
  alloc_post X ld0 pv0 ms0 s0 (alloc_loaded ltc s).
Proof.
  intros Hs Hz Hf Hc Hp Hl Hcap Hfull Hperm.
  destruct (alloc_loaded_ok _ ltc s x l pv Hc Hp Hl Hcap Hfull) as (ltc' & E & Hrep).
  assert (Hx : x <> NULL) by (by destruct Hc as (_ & ? & _)).
  exists x, ltc', s, l, pv, ms. rewrite decide_False by done. by split_and!.
Qed.

Lemma alloc_new_post X ltc s :
  store_rep s [] -> chain (mem s) (previous ltc) [] -> capacity ltc = mag_size (tc s) ->
  rounds ltc = 0%nat -> (forall x, x ∈ X -> x ∉ pool_free (pool s)) ->
  alloc_post X [] [] [] s
    ('(head, s) ← tcache_alloc_mag s;
     if head =? NULL then Ok (NULL, Ltc (rounds ltc) (capacity ltc) NULL (previous ltc), s)
     else alloc_loaded (Ltc (rounds ltc) (capacity ltc) head (previous ltc)) s).
Proof.
  intros Hs Hp Hcap Hr HX.
  destruct (tcache_alloc_mag_ok s Hs) as (head & s' & l & -> & Hs' & Hc & Hl & Hperm & Hnone & Hf). cbn.
  specialize (Hf X HX). assert (Hm : mag_size (tc s') = mag_size (tc s)) by apply Hf.
  destruct (Z.eqb_spec head NULL) as [Hn|Hn].
  - apply (chain_null _ _ _ Hc) in Hn as ->.
    exists NULL, (Ltc (rounds ltc) (capacity ltc) NULL (previous ltc)), s', [], [], [].
    destruct (decide (NULL = NULL)); [|done]. split_and!; try done; auto.
    split_and!; cbn; auto; try lia; try (by cbn in Hp).
  - destruct l as [|x l]; [done|]. destruct Hl as [|Hl]; [done|].
    apply (alloc_loaded_post X _ s s' x l [] _ _ []); cbn; auto.
Qed.

(** [tcache_alloc] hands out one item of its cache, of the shared magazines or of
    the pool, and fails only when all of them are empty or the pool refuses. *)
Lemma tcache_alloc_ok ltc s ld pv ms X :
  store_rep s ms -> ltc_rep (mag_size (tc s)) (mem s) ltc ld pv ->
  (forall x, x ∈ X -> x ∉ pool_free (pool s)) ->
  alloc_post X ld pv ms s (tcache_alloc ltc s).
Proof.
  intros Hs (Hld & Hpv & Hr & Hc & Hle & Hfull) HX. assert (Hs' := Hs). destruct Hs.
  unfold tcache_alloc. destruct (bool_decide_reflect (rounds ltc = 0%nat)) as [Hz|Hz].
  2:{ destruct ld as [|x ld]; [cbn in Hr; lia|]. destruct Hld as (Ex & Hx & h & Hm & Hch).
      unfold load. rewrite Ex, Hm. cbn. do 6 eexists. split; [done|]. split; [done|]. split_and!.
      - split_and!; cbn in *; try done; auto; try lia.
      - apply framed_refl.
      - by rewrite decide_False.
      - done. }
  assert (ld = []) as -> by (apply nil_length_inv; lia). cbn in Hld.
  assert (Hcap : bool_decide (capacity ltc = 0%nat) = false) by (apply bool_decide_eq_false; lia).
  unfold __tcache_alloc. rewrite (bool_decide_eq_true_2 _ Hz), Hld, Hcap. cbn.
  destruct (Z.eqb_spec (previous ltc) NULL) as [Hpn|Hpn]; cbn.
  - apply (chain_null _ _ _ Hpv) in Hpn as ->.
    destruct (Z.eqb_spec (shared_mags (tc s)) NULL) as [Hsn|Hsn]; cbn.
    + destruct ms as [|[|x l] ms]; [|by destruct sr_mags0|by destruct sr_mags0 as (_ & (? & ? & _) & _); congruence].
      by apply alloc_new_post.
    + destruct ms as [|[|x l] ms]; [done|by destruct sr_mags0|].
      destruct sr_mags0 as (_ & Hch & h & Hh & Hms). unfold load. rewrite Hh. cbn.
      apply Forall_cons_1 in sr_full0 as [Hl Hfl].
      apply (alloc_loaded_post X _ s _ x l [] _ _ ms); cbn; auto; [by split|by repeat split|].
      by rewrite app_assoc.
  - destruct pv as [|x pv]; [done|]. destruct Hfull as [|Hfull]; [done|].
    apply (alloc_loaded_post X _ s s x pv [] _ _ ms); cbn; auto using framed_refl.
Qed.

(** Writing the link of an item that nothing else uses. *)
Lemma insert_frame (m : memory) p h (l : list Z) :
  p ∉ l -> forall x, x ∈ l -> <[p := h]> m !! x = m !! x.
Proof. intros Hp x Hx. rewrite lookup_insert_ne; [done|]. intros ->. done. Qed.

Lemma insert_dom (m : memory) p h x : is_Some (m !! x) -> is_Some (<[p := h]> m !! x).
Proof.
  intros Hx. destruct (decide (p = x)) as [<-|]; [rewrite lookup_insert_eq; eauto|].
  by rewrite lookup_insert_ne.
Qed.

Definition free_post (item : Z) (X ld pv : list Z) (ms : list (list Z)) (s : tstore)
    (out : res (tcache_perthread * tstore)) : Prop :=
  exists ltc' s' ld' pv' ms',
    out = Ok (ltc', s') /\ store_rep s' ms' /\
    ltc_rep (mag_size (tc s)) (mem s') ltc' (item :: ld') pv' /\ framed X s s' /\
    cached (item :: ld') pv' ms' s' ≡ₚ item :: cached ld pv ms s.

(** The freed item starts a new magazine; the full one becomes [previous]. *)
Lemma free_loaded_post item X ltc s0 s ld pv0 ms ms0 :
  store_rep s ms -> mag_size (tc s) = mag_size (tc s0) -> framed X s0 s ->
  chain (mem s) (loaded ltc) ld -> length ld = mag_size (tc s0) -> capacity ltc = mag_size (tc s0) ->
  is_Some (mem s !! item) -> item <> NULL -> item ∉ X ++ ld ++ concat ms ->
  ld ++ concat ms ++ pool_free (pool s) ≡ₚ cached ld pv0 ms0 s0 ->
  free_post item X ld pv0 ms0 s0 (free_loaded item (loaded ltc) ltc s).
Proof.
  intros Hs Hz Hf Hc Hl Hcap Hin Hnn Hout Hperm. assert (Hs' := Hs). destruct Hs.
  rewrite !not_elem_of_app in Hout. destruct Hout as (Ho1 & Ho2 & Ho3).
  destruct (set_next_item_ok item NULL (mem s)) as (h & Hh & E); [auto|].
  unfold free_loaded. rewrite E. cbn.
  exists (Ltc 1 (capacity ltc) item (loaded ltc)),
    (Store (<[item := Hdr NULL (next_mag h)]> (mem s)) (tc s) (pool s)), [], ld, ms.
  split; [done|]. split_and!.
  - split; cbn; auto using insert_dom. eapply mags_frame; [done|]. by apply insert_frame.
  - split_and!; cbn; auto; [|by eapply chain_frame; [|apply insert_frame]|lia].
    split_and!; [done..|]. eexists. rewrite lookup_insert_eq. done.
  - destruct Hf as (F1 & F2 & F3). split_and!; [done..|].
    intros x Hx. cbn. rewrite lookup_insert_ne by set_solver. auto.
  - unfold cached at 1. cbn. by rewrite Hperm.
Qed.

(** A full magazine goes to the front of the shared list. *)
Lemma push_mag_ok X p pv ms s :
  store_rep s ms -> chain (mem s) p pv -> p <> NULL -> length pv = mag_size (tc s) ->
  NoDup (X ++ pv ++ concat ms) ->
  exists m, set_next_mag p (shared_mags (tc s)) (mem s) = Ok m /\
    store_rep (Store m (Tcache (mags_allocated (tc s)) (mag_size (tc s)) p) (pool s)) (pv :: ms) /\
    framed X s (Store m (Tcache (mags_allocated (tc s)) (mag_size (tc s)) p) (pool s)).
Proof.
  intros [] Hc Hp Hl Hnd.
  destruct pv as [|x l]; [done|]. assert (Hc' := Hc). destruct Hc' as (-> & Hx & h & Hm & Hcl).
  apply list.NoDup_app in Hnd as (_ & HX & Hnd). apply list.NoDup_app in Hnd as (_ & Hd & _).
  assert (Hms : x ∉ concat ms) by (apply Hd; by left).
  assert (HxX : x ∉ X) by (intros Hi; apply (HX x Hi); set_solver).
  unfold set_next_mag, load. rewrite Hm. cbn. eexists. split; [done|]. split.
  - split; cbn; auto using insert_dom. split; [done|]. split.
    + change (chain (<[x := Hdr (next_item h) (shared_mags (tc s))]> (mem s)) x (x :: l)).
      apply (chain_ext (mem s)); [done|]. intros y _.
      destruct (decide (x = y)) as [<-|]; [by rewrite lookup_insert_eq, Hm|by rewrite lookup_insert_ne].
    + eexists. rewrite lookup_insert_eq. split; [done|]. cbn.
      eapply mags_frame; [done|]. by apply insert_frame.
  - split_and!; [done..|]. cbn. by apply insert_frame.
Qed.

(** [tcache_free] puts the item in the cache, moving full magazines on. *)
Lemma tcache_free_ok item ltc s ld pv ms X :
  store_rep s ms -> ltc_rep (mag_size (tc s)) (mem s) ltc ld pv ->
  NoDup (item :: X ++ ld ++ pv ++ concat ms) -> is_Some (mem s !! item) -> item <> NULL ->
  free_post item X ld pv ms s (tcache_free item ltc s).
Proof.
  intros Hs (Hld & Hpv & Hr & Hc & Hle & Hfull) Hnd Hin Hnn. assert (Hs' := Hs). destruct Hs.
  apply list.NoDup_cons in Hnd as [Hni Hnd]. rewrite !not_elem_of_app in Hni.
  destruct Hni as (N1 & N2 & N3 & N4).
  unfold tcache_free. destruct (bool_decide_reflect (capacity ltc <= rounds ltc)%nat) as [Hz|Hz].
  2:{ destruct (set_next_item_ok item (loaded ltc) (mem s)) as (h & Hh & E); [auto|]. rewrite E. cbn.
      do 2 eexists. exists ld, pv, ms. split; [done|]. split_and!.
      - split; cbn; auto using insert_dom. eapply mags_frame; [done|]. by apply insert_frame.
      - split_and!; cbn; auto; [|by eapply chain_frame; [|apply insert_frame]|lia|lia].
        split_and!; [done..|]. eexists. rewrite lookup_insert_eq. split; [done|]. cbn.
        by eapply chain_frame; [|apply insert_frame].
      - split_and!; [done..|]. cbn. by apply insert_frame.
      - done. }
  assert (Hlen : length ld = mag_size (tc s)) by lia.
  unfold __tcache_free. rewrite (bool_decide_eq_true_2 (rounds ltc = _)) by lia. cbn.
  destruct (Z.eqb_spec (loaded ltc) NULL) as [Hl0|Hl0]; cbn.
  { apply (chain_null _ _ _ Hld) in Hl0. subst ld. cbn in Hlen. lia. }
  destruct (Z.eqb_spec (previous ltc) NULL) as [Hpn|Hpn].
  - apply (chain_null _ _ _ Hpv) in Hpn as ->.
    apply (free_loaded_post item X ltc s s ld [] ms); auto using framed_refl. set_solver.
  - destruct Hfull as [-> |Hfull]; [done|].
    destruct (push_mag_ok (item :: X ++ ld) (previous ltc) pv ms s Hs' Hpv Hpn Hfull)
      as (m & E & Hs1 & F1 & F2 & F3); [|rewrite E; cbn].
    { cbn. rewrite <- app_assoc. apply list.NoDup_cons. split; [|done].
      rewrite !not_elem_of_app. done. }
    apply (free_loaded_post item X ltc s _ ld pv (pv :: ms)); cbn; auto.
    + split_and!; [done..|]. intros x Hx. apply F3. set_solver.
    + apply (chain_frame (mem s)); [done|]. intros x Hx. apply F3. set_solver.
    + cbn in F3. rewrite (F3 item) by (by left). done.
    + rewrite !not_elem_of_app. done.
    + unfold cached. by rewrite <- app_assoc.
Qed.

Lemma tcache_free_mag_ok s p l :
  store_rep s [] -> chain (mem s) p l -> length l = mag_size (tc s) ->
  l ++ pool_free (pool s) ⊆+ pool_all (pool s) ->
  exists s', tcache_free_mag p s = Ok s' /\ store_rep s' [] /\
    pool_free (pool s') ≡ₚ l ++ pool_free (pool s) /\
    (forall X, (forall x, x ∈ X -> x ∉ l) -> framed X s s').
Proof.
  intros [] Hc Hl Hsub.
  destruct (ops_free_ok l (mem s) (pool s)) as (m & p' & E & Hok & Hall & Hperm & Hf & Hk); [done..|].
  unfold tcache_free_mag. rewrite (collect_ok (mem s) p l); [|done|by intros ->; cbn in Hl; lia|lia].
  cbn. rewrite bool_decide_eq_true_2 by done. cbn. rewrite E. cbn.
  eexists. split; [done|]. split_and!; [|done|].
  - split; cbn; auto. rewrite Hall. auto.
  - intros X HX. split_and!; cbn; auto.
Qed.

(** The loop ends after as many steps as there are magazines. *)
Lemma reclaim_loop_ok fuel p ms s :
  store_rep s [] -> mags (mem s) p ms -> Forall (fun l => length l = mag_size (tc s)) ms ->
  concat ms ++ pool_free (pool s) ⊆+ pool_all (pool s) -> (length ms <= fuel)%nat ->
  exists s', reclaim_loop fuel p s = Some (Ok s') /\ store_rep s' [] /\
    pool_free (pool s') ≡ₚ concat ms ++ pool_free (pool s) /\
    (forall X, (forall x, x ∈ X -> x ∉ concat ms) -> framed X s s').
Proof.
  revert fuel p s. induction ms as [|l ms IH]; intros fuel p s Hs Hm Hfull Hsub Hlen.
  - cbn in Hm. subst p. exists s. split_and!; [by destruct fuel|done|done|].
    intros. apply framed_refl.
  - destruct Hm as (Hl & Hc & h & Hh & Hm). apply Forall_cons_1 in Hfull as [Hlen1 Hfull].
    cbn [concat] in *. destruct fuel as [|fuel]; cbn in Hlen; [lia|].
    assert (Hnd : NoDup ((l ++ concat ms) ++ pool_free (pool s))).
    { destruct (submseteq_Permutation _ _ Hsub) as [k Hk].
      assert (Hn := pool_nodup _ (sr_pool _ _ Hs)). rewrite Hk in Hn. by apply list.NoDup_app in Hn as (? & _). }
    assert (Hd : forall x, x ∈ concat ms -> x ∉ l).
    { apply list.NoDup_app in Hnd as (Hnd & _ & _). apply list.NoDup_app in Hnd as (_ & Hd & _).
      intros x H1 H2. by apply (Hd x). }
    rewrite <- app_assoc in Hsub.
    destruct (tcache_free_mag_ok s p l Hs Hc Hlen1) as (s1 & E & Hs1 & Hperm & Hf).
    { etrans; [|exact Hsub]. rewrite (Permutation_app_comm (concat ms)), app_assoc.
      apply submseteq_inserts_r, reflexivity. }
    destruct (Hf (concat ms) Hd) as (F1 & F2 & F3).
    destruct (IH fuel (next_mag h) s1) as (s' & E' & Hs' & Hperm' & Hf').
    + done.
    + by apply (mags_frame (mem s)).
    + by rewrite F2.
    + rewrite F1, Hperm, app_assoc, (Permutation_app_comm (concat ms)), <- app_assoc. done.
    + lia.
    + exists s'. split_and!; [|done| |].
      * cbn [reclaim_loop]. rewrite (proj2 (Z.eqb_neq _ _)) by (by rewrite (chain_null _ _ _ Hc)).
        unfold load. rewrite Hh. cbn [mbind res_bind]. rewrite E. done.
      * rewrite Hperm', Hperm, !app_assoc, (Permutation_app_comm (concat ms)). done.
      * intros X HX.
        destruct (Hf X) as (G1 & G2 & G3); [intros x Hx; specialize (HX x Hx); set_solver|].
        destruct (Hf' X) as (K1 & K2 & K3); [intros x Hx; specialize (HX x Hx); set_solver|].
        split_and!; [by rewrite K1|by rewrite K2|]. intros x Hx. by rewrite K3, G3.
Qed.

(** [tcache_reclaim] returns every shared magazine to the allocator. *)
Lemma tcache_reclaim_ok fuel s ms X :
  store_rep s ms -> concat ms ++ pool_free (pool s) ⊆+ pool_all (pool s) ->
  (length ms <= fuel)%nat -> (forall x, x ∈ X -> x ∉ concat ms) ->
  exists s', tcache_reclaim fuel s = Some (Ok s') /\ store_rep s' [] /\ framed X s s' /\
    pool_free (pool s') ≡ₚ concat ms ++ pool_free (pool s).
Proof.
  intros [] Hsub Hlen HX. unfold tcache_reclaim.
  destruct (reclaim_loop_ok fuel (shared_mags (tc s)) ms
    (Store (mem s) (Tcache (mags_allocated (tc s)) (mag_size (tc s)) NULL) (pool s)))
    as (s' & E & Hs' & Hperm & Hf); auto; [by split|].
  exists s'. split_and!; auto. by apply Hf.
Qed.

(** ** Threads that share a cache

    The program holds the items [held]; it may write to them, free them, and each
    thread uses its own handle.  A thread's fast path touches only its handle and
    its items, and the slow paths hold the locks, so calls are atomic. *)

Record tsys := Sys { store : tstore; ltcs : list tcache_perthread; held : list Z }.

Inductive top :=
| TAlloc (k : nat)
| TFree (k : nat) (item : Z)
| TWrite (item : Z) (h : tcache_hdr)
| TReclaim.

(** One call; [None] when the program may not make it. *)
Definition tc_step (op : top) (s : tsys) : option (res tsys) :=
  match op with
  | TAlloc k =>
      ltc ← ltcs s !! k;
      Some ('(r, ltc, st) ← tcache_alloc ltc (store s);
            Ok (Sys st (<[k := ltc]> (ltcs s)) (if decide (r = NULL) then held s else r :: held s)))
  | TFree k item =>
      if decide (item ∈ held s) then
        ltc ← ltcs s !! k;
        Some ('(ltc, st) ← tcache_free item ltc (store s);
              Ok (Sys st (<[k := ltc]> (ltcs s)) (list_difference (held s) [item])))
      else None
  | TWrite item h =>
      if decide (item ∈ held s) then
        Some (Ok (Sys (Store (<[item := h]> (mem (store s))) (tc (store s)) (pool (store s)))
          (ltcs s) (held s)))
      else None
  | TReclaim =>
      match tcache_reclaim (size (mem (store s))) (store s) with
      | Some r => Some (st ← r; Ok (Sys st (ltcs s) (held s)))
      | None => Some Bug
      end
  end.

Definition tc_init (m : memory) (t : tcache) (p : P) (threads : nat) : tsys :=
  Sys (Store m t p) (replicate threads (tcache_init_perthread t)) [].

Inductive tc_reachable (s0 : tsys) : tsys -> Prop :=
| tc_reach_init : tc_reachable s0 s0
| tc_reach_step s op s' : tc_reachable s0 s -> tc_step op s = Some (Ok s') -> tc_reachable s0 s'.

(** The items in the handles of the threads, with [G] the two magazines of each. *)
Definition items_of (G : list (list Z * list Z)) : list Z := concat ((fun g => g.1 ++ g.2) <$> G).

Record tsys_inv (s : tsys) (G : list (list Z * list Z)) (ms : list (list Z)) : Prop := {
  ti_store : store_rep (store s) ms;
  ti_ltcs : Forall2 (fun ltc g => ltc_rep (mag_size (tc (store s))) (mem (store s)) ltc g.1 g.2) (ltcs s) G;
  ti_items : held s ++ items_of G ++ concat ms ++ pool_free (pool (store s))
               ≡ₚ pool_all (pool (store s));
}.

Lemma items_of_app G1 G2 : items_of (G1 ++ G2) = items_of G1 ++ items_of G2.
Proof. unfold items_of. by rewrite fmap_app, concat_app. Qed.

Lemma ltc_rep_frame n m m' ltc ld pv :
  ltc_rep n m ltc ld pv -> (forall x, x ∈ ld ++ pv -> m' !! x = m !! x) -> ltc_rep n m' ltc ld pv.
Proof.
  intros (H1 & H2 & H3) Hf. split; [|split; [|done]]; eapply chain_frame; eauto; set_solver.
Qed.

Lemma handles_frame n m m' L G :
  Forall2 (fun ltc g => ltc_rep n m ltc g.1 g.2) L G ->
  (forall x, x ∈ items_of G -> m' !! x = m !! x) ->
  Forall2 (fun ltc g => ltc_rep n m' ltc g.1 g.2) L G.
Proof.
  induction 1 as [|ltc g L G H1 H2 IH]; intros Hf; constructor.
  - eapply ltc_rep_frame; [done|]. intros x Hx. apply Hf. unfold items_of. cbn. set_solver.
  - apply IH. intros x Hx. apply Hf. unfold items_of in *. cbn. set_solver.
Qed.

Lemma insert_middle {A} (l1 l2 : list A) x y : <[length l1 := y]> (l1 ++ x :: l2) = l1 ++ y :: l2.
Proof. rewrite <- (Nat.add_0_r (length l1)), insert_app_r. done. Qed.

(** One handle among the others. *)
Lemma handle_split s G ms k ltc :
  tsys_inv s G ms -> ltcs s !! k = Some ltc ->
  exists L1 L2 G1 G2 ld pv, ltcs s = L1 ++ ltc :: L2 /\ k = length L1 /\ G = G1 ++ (ld, pv) :: G2 /\
    ltc_rep (mag_size (tc (store s))) (mem (store s)) ltc ld pv /\
    (forall ltc' ld' pv' n m, n = mag_size (tc (store s)) -> ltc_rep n m ltc' ld' pv' ->
      (forall x, x ∈ items_of (G1 ++ G2) -> m !! x = mem (store s) !! x) ->
      Forall2 (fun ltc g => ltc_rep n m ltc g.1 g.2) (L1 ++ ltc' :: L2) (G1 ++ (ld', pv') :: G2)).
Proof.
  intros [_ Hl _] Hk. apply list_elem_of_split_length in Hk as (L1 & L2 & HL & Hlen).
  rewrite HL in Hl. apply Forall2_app_inv_l in Hl as (G1 & G2' & H1 & H2 & ->).
  apply Forall2_cons_inv_l in H2 as ([ld pv] & G2 & Hg & H2 & ->).
  exists L1, L2, G1, G2, ld, pv. split_and!; auto.
  intros ltc' ld' pv' n m -> Hr Hf. rewrite items_of_app in Hf.
  apply Forall2_app; [|constructor; [done|]]; (eapply handles_frame; [done|]); set_solver.
Qed.

(** The items by who has them: one handle and the shared part, or the others. *)
Lemma items_split s hd G1 ld pv G2 ms :
  hd ++ items_of (G1 ++ (ld, pv) :: G2) ++ concat ms ++ pool_free (pool s)
    ≡ₚ (hd ++ items_of (G1 ++ G2)) ++ cached ld pv ms s.
Proof.
  unfold cached. rewrite !items_of_app. unfold items_of at 2. cbn. fold (items_of G2).
  rewrite <- !app_assoc. do 2 apply Permutation_app_head.
  by rewrite (Permutation_app_swap_app pv), (Permutation_app_swap_app ld).
Qed.

Definition tc_good (s : tsys) (r : option (res tsys)) : Prop :=
  match r with
  | Some (Ok s') => exists G ms, tsys_inv s' G ms /\ pool_all (pool (store s')) = pool_all (pool (store s))
  | Some Bug => False
  | None => True
  end.

Lemma tsys_nodup s G ms :
  tsys_inv s G ms -> NoDup (held s ++ items_of G ++ concat ms ++ pool_free (pool (store s))).
Proof. intros [Hs _ ->]. apply pool_nodup, Hs. Qed.

Lemma tc_alloc_good s G ms k : tsys_inv s G ms -> tc_good s (tc_step (TAlloc k) s).
Proof.
  intros Hi. cbn. destruct (ltcs s !! k) as [ltc|] eqn:Ek; cbn; [|done].
  destruct (handle_split s G ms k ltc Hi Ek) as (L1 & L2 & G1 & G2 & ld & pv & HL & -> & -> & Hr & Hput).
  assert (Hnd := tsys_nodup _ _ _ Hi). destruct Hi as [Hs _ Hperm].
  rewrite items_split in Hnd, Hperm. apply list.NoDup_app in Hnd as (_ & Hd & _).
  destruct (tcache_alloc_ok ltc (store s) ld pv ms (held s ++ items_of (G1 ++ G2)) Hs Hr)
    as (r & ltc' & st & ld' & pv' & ms' & -> & Hs' & Hr' & (F1 & F2 & F3) & Hp & _).
  { intros x Hx Hf. apply (Hd x Hx). unfold cached. set_solver. }
  cbn. exists (G1 ++ (ld', pv') :: G2), ms'. split; [|done]. split.
  - done.
  - cbn. rewrite HL, insert_middle, F2. apply Hput; auto. intros x Hx. apply F3. set_solver.
  - cbn. rewrite F1, items_split, <- Hperm, <- Hp. by destruct (decide (r = NULL)); [|cbn; rewrite Permutation_middle].
Qed.

Lemma list_difference_one (l : list Z) x :
  NoDup l -> x ∈ l -> l ≡ₚ x :: list_difference l [x].
Proof.
  intros Hn Hx. apply NoDup_Permutation; [done| |].
  - apply list.NoDup_cons. split; [|by apply NoDup_list_difference].
    rewrite list_elem_of_difference. set_solver.
  - intros y. rewrite elem_of_cons, list_elem_of_difference, list_elem_of_singleton.
    destruct (decide (y = x)); naive_solver.
Qed.

(** Freeing a held item through one handle. *)
Lemma tc_free_post s G ms k ltc item :
  tsys_inv s G ms -> ltcs s !! k = Some ltc -> item ∈ held s ->
  exists ltc' st ld pv ms', tcache_free item ltc (store s) = Ok (ltc', st) /\ store_rep st ms' /\
    ltc_rep (mag_size (tc (store s))) (mem st) ltc' (item :: ld) pv /\
    exists G', tsys_inv (Sys st (<[k := ltc']> (ltcs s)) (list_difference (held s) [item])) G' ms' /\
      pool_all (pool st) = pool_all (pool (store s)).
Proof.
  intros Hi Ek Hh.
  destruct (handle_split s G ms k ltc Hi Ek) as (L1 & L2 & G1 & G2 & ld & pv & HL & -> & -> & Hr & Hput).
  assert (Hnd := tsys_nodup _ _ _ Hi). destruct Hi as [Hs _ Hperm].
  set (hd := list_difference (held s) [item]).
  assert (Hhd : held s ≡ₚ item :: hd).
  { apply list_difference_one; [|done]. by apply list.NoDup_app in Hnd as (? & _). }
  rewrite items_split, Hhd in Hnd, Hperm.
  assert (Hin : item ∈ pool_all (pool (store s))) by (rewrite <- Hperm; by left).
  destruct (tcache_free_ok item ltc (store s) ld pv ms (hd ++ items_of (G1 ++ G2)) Hs Hr)
    as (ltc' & st & ld' & pv' & ms' & -> & Hs' & Hr' & (F1 & F2 & F3) & Hp).
  - unfold cached in Hnd. cbn in Hnd. rewrite !app_assoc in Hnd. rewrite app_comm_cons in Hnd.
    apply list.NoDup_app in Hnd as (Hnd & _). by rewrite !app_assoc.
  - by apply (sr_mem _ _ Hs).
  - intros ->. by apply (pool_nonnull _ (sr_pool _ _ Hs)).
  - exists ltc', st, ld', pv', ms'. split_and!; [done..|].
    exists (G1 ++ (item :: ld', pv') :: G2). split; [|done]. split.
    + done.
    + cbn. rewrite HL, insert_middle, F2. apply Hput; auto. intros x Hx. apply F3. set_solver.
    + cbn. rewrite F1, items_split, <- Hperm, Hp. by rewrite <- Permutation_middle.
Qed.

Lemma tc_free_good s G ms k item : tsys_inv s G ms -> tc_good s (tc_step (TFree k item) s).
Proof.
  intros Hi. cbn. destruct (decide (item ∈ held s)) as [Hh|]; [|done].
  destruct (ltcs s !! k) as [ltc|] eqn:Ek; cbn; [|done].
  destruct (tc_free_post s G ms k ltc item Hi Ek Hh)
    as (ltc' & st & ld & pv & ms' & -> & _ & _ & G' & Hi' & Ha). cbn. eauto.
Qed.

Lemma tc_write_good s G ms item h : tsys_inv s G ms -> tc_good s (tc_step (TWrite item h) s).
Proof.
  intros Hi. cbn. destruct (decide (item ∈ held s)) as [Hh|]; [|done].
  assert (Hnd := tsys_nodup _ _ _ Hi). destruct Hi as [[] Hl Hperm].
  apply list.NoDup_app in Hnd as (_ & Hd & _). specialize (Hd item Hh).
  rewrite !not_elem_of_app in Hd. destruct Hd as (D1 & D2 & _).
  exists G, ms. split; [|done]. split; cbn.
  - split; cbn; auto using insert_dom. eapply mags_frame; [done|]. by apply insert_frame.
  - eapply handles_frame; [done|]. by apply insert_frame.
  - done.
Qed.

(** There are at most as many magazines as items, so that [size] is enough fuel
    for [tcache_reclaim]. *)
Lemma mags_bound (m : memory) n ms :
  (1 <= n)%nat -> Forall (fun l => length l = n) ms -> NoDup (concat ms) ->
  (forall x, x ∈ concat ms -> is_Some (m !! x)) -> (length ms <= size m)%nat.
Proof.
  intros Hn Hf Hnd Hm. transitivity (length (concat ms)).
  - clear Hnd Hm. induction Hf as [|l ms Hl _ IH]; cbn; [lia|]. rewrite length_app. lia.
  - rewrite <- (size_dom (D := gset Z)), <- (size_list_to_set (C := gset Z)) by done.
    apply subseteq_size. intros x. rewrite elem_of_list_to_set, elem_of_dom. auto.
Qed.

Lemma tc_reclaim_good s G ms : tsys_inv s G ms -> tc_good s (tc_step TReclaim s).
Proof.
  intros Hi. assert (Hnd := tsys_nodup _ _ _ Hi). destruct Hi as [Hs Hl Hperm]. cbn.
  assert (Hsub : concat ms ++ pool_free (pool (store s)) ⊆+ pool_all (pool (store s))).
  { rewrite <- Hperm. rewrite app_assoc. by apply submseteq_inserts_l. }
  assert (Hin : forall x, x ∈ concat ms -> x ∈ pool_all (pool (store s)))
    by (intros x Hx; rewrite <- Hperm; set_solver).
  rewrite app_assoc in Hnd. apply list.NoDup_app in Hnd as (_ & Hd & Hnd).
  apply list.NoDup_app in Hnd as (Hnd & _).
  destruct (tcache_reclaim_ok (size (mem (store s))) (store s) ms (held s ++ items_of G) Hs Hsub)
    as (st & -> & Hs' & (F1 & F2 & F3) & Hp).
  - destruct Hs. apply (mags_bound _ (mag_size (tc (store s)))); auto; lia.
  - intros x Hx Hc. apply (Hd x Hx). set_solver.
  - cbn. exists G, []. split; [|done]. split; cbn.
    + done.
    + rewrite F2. eapply handles_frame; [done|]. intros x Hx. apply F3. set_solver.
    + rewrite F1, Hp. done.
Qed.

Lemma tc_step_good s G ms op : tsys_inv s G ms -> tc_good s (tc_step op s).
Proof.
  destruct op; [apply tc_alloc_good|apply tc_free_good|apply tc_write_good|apply tc_reclaim_good].
Qed.

(** A cache that [tcache_create] returned, over an allocator that has handed out
    nothing. *)
Definition tc_fresh (m : memory) (t : tcache) (p : P) : Prop :=
  pool_ok p /\ pool_free p ≡ₚ pool_all p /\ (forall x, x ∈ pool_all p -> is_Some (m !! x)) /\
  (1 <= mag_size t)%nat /\ exists item_size, tcache_create true (mag_size t) item_size = Ok (Some t).

Lemma tc_init_inv m t p n :
  tc_fresh m t p -> tsys_inv (tc_init m t p n) (replicate n ([], [])) [].
Proof.
  intros (Hp & Hfree & Hm & Hn & sz & Hc). unfold tcache_create in Hc.
  destruct (sz <? _); cbn in Hc; [done|].
  destruct (bool_decide_reflect (TCACHE_MAX_MAG_SIZE < mag_size t)%nat) as [|Hle]; cbn in Hc; [done|].
  injection Hc as Ht. split; cbn.
  - split; cbn; auto; [by rewrite <- Ht|lia].
  - apply Forall2_replicate. split_and!; cbn; auto. lia.
  - rewrite <- Hfree. clear. induction n as [|n IH]; [done|]. exact IH.
Qed.

Lemma tc_reachable_inv m t p n s :
  tc_fresh m t p -> tc_reachable (tc_init m t p n) s ->
  exists G ms, tsys_inv s G ms /\ pool_all (pool (store s)) = pool_all p.
Proof.
  intros Hf. induction 1 as [|s op s' _ (G & ms & Hi & Hall) Hs].
  - do 2 eexists. split; [by apply tc_init_inv|done].
  - assert (Hg := tc_step_good s G ms op Hi). rewrite Hs in Hg.
    destruct Hg as (G' & ms' & Hi' & Ha). do 2 eexists. split; [done|]. by rewrite Ha.
Qed.

(** ** Properties *)

(** C11.  Conservation: in every state reached from a fresh cache by calls of any
    number of threads, with the program writing at will to the items it holds, the
    items it holds, those linked in the handles and in the shared magazines, and
    those free in the allocator are together exactly the allocator's items, each
    once. *)
Theorem tcache_conserves m t p n s :
  tc_fresh m t p -> tc_reachable (tc_init m t p n) s ->
  exists G ms,
    Forall2 (fun ltc g => ltc_rep (mag_size (tc (store s))) (mem (store s)) ltc g.1 g.2) (ltcs s) G /\
    mags (mem (store s)) (shared_mags (tc (store s))) ms /\
    held s ++ items_of G ++ concat ms ++ pool_free (pool (store s)) ≡ₚ pool_all p.
Proof.
  intros Hf Hr. destruct (tc_reachable_inv m t p n s Hf Hr) as (G & ms & [[] Hl Hp] & Ha).
  exists G, ms. rewrite <- Ha. auto.
Qed.

(** No call of a reachable state fails a check, follows a dangling link or
    does not return, and an allocation that returns an item returns one of the
    allocator's that the program does not hold; it returns NULL only when the
    handle and the shared list are empty and the allocator has less than a
    magazine left. *)
Theorem tcache_safe m t p n s :
  tc_fresh m t p -> tc_reachable (tc_init m t p n) s ->
  (forall op, tc_step op s <> Some Bug) /\
  forall k ltc, ltcs s !! k = Some ltc ->
    exists r ltc' st, tcache_alloc ltc (store s) = Ok (r, ltc', st) /\
      if decide (r = NULL)
      then loaded ltc = NULL /\ previous ltc = NULL /\ shared_mags (tc (store s)) = NULL /\
           (length (pool_free (pool (store s))) < mag_size (tc (store s)))%nat
      else r ∈ pool_all p /\ r ∉ held s.
Proof.
  intros Hf Hr. destruct (tc_reachable_inv m t p n s Hf Hr) as (G & ms & Hi & Ha). split.
  { intros op E. assert (Hg := tc_step_good s G ms op Hi). by rewrite E in Hg. }
  intros k ltc Hk.
  destruct (handle_split s G ms k ltc Hi Hk) as (L1 & L2 & G1 & G2 & ld & pv & HL & -> & -> & Hrep & _).
  assert (Hnd := tsys_nodup _ _ _ Hi). destruct Hi as [Hs _ Hperm].
  rewrite items_split in Hnd, Hperm. apply list.NoDup_app in Hnd as (_ & Hd & _).
  destruct (tcache_alloc_ok ltc (store s) ld pv ms (held s ++ items_of (G1 ++ G2)) Hs Hrep)
    as (r & ltc' & st & ld' & pv' & ms' & E & _ & _ & _ & Hp & Hnull).
  { intros x Hx Hx'. apply (Hd x Hx). unfold cached. set_solver. }
  exists r, ltc', st. split; [done|]. destruct (decide (r = NULL)) as [Hz|Hz].
  - destruct (Hnull Hz) as (-> & -> & -> & ?). destruct Hrep as (? & ? & _). by destruct Hs.
  - assert (Hin : r ∈ cached ld pv ms (store s)) by (rewrite <- Hp; by left).
    split; [rewrite <- Ha, <- Hperm; set_solver|]. intros Hh. apply (Hd r); set_solver.
Qed.

(** An item that a thread frees is the next one the same thread allocates. *)
Theorem tcache_free_alloc m t p n s k ltc item :
  tc_fresh m t p -> tc_reachable (tc_init m t p n) s -> ltcs s !! k = Some ltc -> item ∈ held s ->
  exists ltc' st ltc'' st', tcache_free item ltc (store s) = Ok (ltc', st) /\
    tcache_alloc ltc' st = Ok (item, ltc'', st').
Proof.
  intros Hf Hr Hk Hh. destruct (tc_reachable_inv m t p n s Hf Hr) as (G & ms & Hi & Ha).
  destruct (tc_free_post s G ms k ltc item Hi Hk Hh)
    as (ltc' & st & ld & pv & ms' & -> & _ & (Hc & _ & Hrn & _) & _).
  exists ltc', st. destruct Hc as (El & Hz & h & Hm & _).
  unfold tcache_alloc. rewrite bool_decide_eq_false_2 by (by rewrite Hrn).
  unfold load. rewrite El, Hm. cbn. eauto.
Qed.
End tcache.
Arguments tstore P : clear implicits.
Arguments Store {P} mem tc pool.
