(* ===== verification/Mempool.v ===== *)
(** * base/mempool.c: preallocated pools of fixed-size items

    A pool hands out the items of a buffer from a stack of free item pointers.
    [mempool_tcache_alloc] and [mempool_tcache_free] make it the backing allocator
    of a thread cache: the instance of [TcacheOps] at the end. *)

From S2P Require Import Prelude Stddef Tcache.

Record mempool := Mempool {
  free_items : list Z;
  allocated : nat;
  m_capacity : nat;
  buf : Z;
  len : Z;
  pgsize : Z;
  item_len : Z;
}.

Definition set_stack (fi : list Z) (a c : nat) (m : mempool) : mempool :=
  Mempool fi a c (buf m) (len m) (pgsize m) (item_len m).

(** ** Creation *)

(** [m->free_items[m->capacity++] = addr]. *)
Definition put (addr : Z) (m : mempool) : res mempool :=
  if decide (m_capacity m < length (free_items m))%nat
  then Ok (set_stack (<[m_capacity m := addr]> (free_items m)) (allocated m) (S (m_capacity m)) m)
  else Bug.

(** The inner loop over [j], with [n] items to go on the page at [base]. *)
Fixpoint populate_page (n : nat) (j base ilen : Z) (m : mempool) : res mempool :=
  match n with
  | O => Ok m
  | S n => m ← put (base + ilen * j) m; populate_page n (j + 1) base ilen m
  end.

(** The outer loop over [i], with [n] pages to go. *)
Fixpoint populate_pages (n : nat) (i : Z) (ipp : nat) (b psize ilen : Z) (m : mempool)
    : res mempool :=
  match n with
  | O => Ok m
  | S n =>
      m ← populate_page ipp 0 (b + psize * i) ilen m;
      populate_pages n (i + 1) ipp b psize ilen m
  end.

(** [calloc_ok] is whether [calloc] succeeds.  The loop counters are [int]s:
    with more pages or items than [INT_MAX] they overflow. *)
Definition mempool_populate (calloc_ok : bool) (b l psize ilen : Z) (m : mempool)
    : res (Z * mempool) :=
  let items_per_page := psize / ilen in
  let nr_pages := l / psize in
  if negb calloc_ok then Ok (- ENOMEM, set_stack [] (allocated m) (m_capacity m) m)
  else
    _ ← BUG_ON ((INT_MAX <? nr_pages) || (INT_MAX <? items_per_page));
    let m := set_stack (replicate (Z.to_nat (nr_pages * items_per_page)) 0) (allocated m)
               (m_capacity m) m in
    m ← populate_pages (Z.to_nat nr_pages) 0 (Z.to_nat items_per_page) b psize ilen m;
    Ok (0, m).

Definition mempool_create (calloc_ok : bool) (b l psize ilen : Z) (m : mempool)
    : res (Z * mempool) :=
  if (ilen =? 0) || negb (is_power_of_two psize) || negb (l mod psize =? 0)
  then Ok (- EINVAL, m)
  else mempool_populate calloc_ok b l psize ilen
         (Mempool (free_items m) 0 (m_capacity m) b l psize ilen).

(** ** Allocation *)

Section pool.
(** Whether the debug checks are compiled in. *)
Context (DEBUG : bool).

(** Both assertions of [mempool_common_check]; the second one is about the start
    of the pool. *)
Definition mempool_common_check (m : mempool) (item : Z) : bool :=
  (item >=? buf m) && (item <? buf m + len m) &&
  (Z.land (buf m) (pgsize m - 1) mod item_len m =? 0).

(** A 64-bit word whose first [k] bytes are set to [v]. *)
Definition memset_word (w k v : Z) : Z :=
  let k := Z.max 0 (Z.min 8 k) in
  v * ((256 ^ k - 1) / 255) + w / 256 ^ k * 256 ^ k.

(** [memset(item, v, m->item_len)] on the two words the memory records. *)
Definition poison (item v : Z) (m : mempool) (mm : memory) : memory :=
  match mm !! item with
  | Some h =>
      <[item := Hdr (memset_word (next_item h) (item_len m) v)
                    (memset_word (next_mag h) (item_len m - 8) v)]> mm
  | None => mm
  end.

Definition __mempool_alloc_debug_check (m : mempool) (item : Z) (mm : memory) : res memory :=
  if DEBUG then _ ← BUG_ON (negb (mempool_common_check m item)); Ok (poison item 171 m mm)
  else Ok mm.

Definition __mempool_free_debug_check (m : mempool) (item : Z) (mm : memory) : res memory :=
  if DEBUG then _ ← BUG_ON (negb (mempool_common_check m item)); Ok (poison item 205 m mm)
  else Ok mm.

Definition mempool_alloc (mm : memory) (m : mempool) : res (option Z * memory * mempool) :=
  if decide (m_capacity m <= allocated m)%nat then Ok (None, mm, m)
  else
    match free_items m !! allocated m with
    | None => Bug
    | Some item =>
        mm ← __mempool_alloc_debug_check m item mm;
        Ok (Some item, mm, set_stack (free_items m) (S (allocated m)) (m_capacity m) m)
    end.

Definition mempool_free (item : Z) (mm : memory) (m : mempool) : res (memory * mempool) :=
  mm ← __mempool_free_debug_check m item mm;
  match allocated m with
  | O => Bug
  | S a =>
      if decide (a < length (free_items m))%nat then
        (* assert(m->allocated <= m->capacity) *)
        if decide (a <= m_capacity m)%nat
        then Ok (mm, set_stack (<[a := item]> (free_items m)) a (m_capacity m) m)
        else Bug
      else Bug
  end.

(** ** The backing allocator of a thread cache *)

Fixpoint mempool_tcache_free (items : list Z) (mm : memory) (m : mempool) : res (memory * mempool) :=
  match items with
  | [] => Ok (mm, m)
  | item :: items =>
      '(mm, m) ← mempool_free item mm m;
      mempool_tcache_free items mm m
  end.

(** The loop of [mempool_tcache_alloc] with the items [got] allocated so far and
    [nr] to go; on failure it returns them. *)
Fixpoint tcache_alloc_loop (nr : nat) (got : list Z) (mm : memory) (m : mempool)
    : res (option (list Z) * memory * mempool) :=
  match nr with
  | O => Ok (Some got, mm, m)
  | S nr =>
      '(r, mm, m) ← mempool_alloc mm m;
      match r with
      | Some item => tcache_alloc_loop nr (got ++ [item]) mm m
      | None =>
          '(mm, m) ← mempool_tcache_free got mm m;
          Ok (None, mm, m)
      end
  end.

Definition mempool_tcache_alloc (nr : nat) (mm : memory) (m : mempool)
    : res (option (list Z) * memory * mempool) :=
  tcache_alloc_loop nr [] mm m.

(** [mempool_create_tcache]: [None] when one of the two [malloc]s fails. *)
Definition mempool_create_tcache (malloc_ok1 malloc_ok2 : bool) (mag_size : nat) (m : mempool)
    : res (option tcache) :=
  if malloc_ok1 then tcache_create malloc_ok2 mag_size (item_len m) else Ok None.
End pool.

(** ** The items of a pool *)

Definition page_items (n : nat) (base ilen : Z) : list Z := (fun j => base + ilen * j) <$> seqZ 0 (Z.of_nat n).

(** The addresses of the items, page by page. *)
Definition pool_grid (npages ipp : nat) (b psize ilen : Z) : list Z :=
  concat ((fun i => page_items ipp (b + psize * i) ilen) <$> seqZ 0 (Z.of_nat npages)).

(** Consecutive [put]s. *)
Fixpoint puts (addrs : list Z) (m : mempool) : res mempool :=
  match addrs with
  | [] => Ok m
  | a :: addrs => m ← put a m; puts addrs m
  end.

Lemma puts_app l1 l2 m : puts (l1 ++ l2) m = (m ← puts l1 m; puts l2 m).
Proof.
  revert m. induction l1 as [|a l1 IH]; intros m; cbn; [done|].
  destruct (put a m); cbn; [apply IH|done].
Qed.

Lemma populate_page_puts n j base ilen m :
  populate_page n j base ilen m = puts ((fun j => base + ilen * j) <$> seqZ j (Z.of_nat n)) m.
Proof.
  revert j m. induction n as [|n IH]; intros j m; [done|].
  rewrite seqZ_cons by lia. cbn [populate_page fmap list_fmap puts].
  destruct (put (base + ilen * j) m); cbn; [|done]. rewrite IH. do 3 f_equal; lia.
Qed.

Lemma populate_pages_puts n i ipp b psize ilen m :
  populate_pages n i ipp b psize ilen m
    = puts (concat ((fun i => page_items ipp (b + psize * i) ilen) <$> seqZ i (Z.of_nat n))) m.
Proof.
  revert i m. induction n as [|n IH]; intros i m; [done|].
  rewrite seqZ_cons by lia. cbn [populate_pages fmap list_fmap concat]. rewrite puts_app, populate_page_puts.
  fold (page_items ipp (b + psize * i) ilen).
  destruct (puts _ m); cbn; [|done]. rewrite IH. do 4 f_equal; lia.
Qed.

Lemma puts_ok addrs m :
  (m_capacity m + length addrs <= length (free_items m))%nat ->
  puts addrs m = Ok (set_stack (take (m_capacity m) (free_items m) ++ addrs ++
    drop (m_capacity m + length addrs) (free_items m)) (allocated m) (m_capacity m + length addrs) m).
Proof.
  revert m. induction addrs as [|a addrs IH]; intros m Hl; cbn in *.
  - rewrite Nat.add_0_r, take_drop. by destruct m.
  - unfold put at 1. rewrite decide_True by lia. cbn. rewrite IH; cbn; [|rewrite length_insert; lia].
    unfold set_stack. cbn. do 2 f_equal; [|lia].
    rewrite drop_insert_lt by lia.
    rewrite (take_S_r _ _ a) by (apply list_lookup_insert_eq; lia).
    rewrite take_insert_ge by lia. rewrite <- app_assoc. cbn. do 3 f_equal. by rewrite Nat.add_succ_r.
Qed.

Lemma length_page_items n base ilen : length (page_items n base ilen) = n.
Proof. unfold page_items. rewrite length_fmap, length_seqZ. lia. Qed.

Lemma length_pool_grid npages ipp b psize ilen :
  length (pool_grid npages ipp b psize ilen) = (npages * ipp)%nat.
Proof.
  unfold pool_grid. generalize 0. induction npages as [|n IH]; intros i; [done|].
  rewrite seqZ_cons by lia. cbn. rewrite length_app, length_page_items.
  replace (Z.pred _) with (Z.of_nat n) by lia. by rewrite IH.
Qed.

Lemma elem_of_page x n base ilen :
  x ∈ page_items n base ilen <-> exists j, x = base + ilen * j /\ 0 <= j < Z.of_nat n.
Proof. unfold page_items. rewrite list_elem_of_fmap. setoid_rewrite elem_of_seqZ. done. Qed.

Lemma elem_of_grid x npages ipp b psize ilen :
  x ∈ pool_grid npages ipp b psize ilen <->
  exists i j, x = b + psize * i + ilen * j /\ 0 <= i < Z.of_nat npages /\ 0 <= j < Z.of_nat ipp.
Proof.
  unfold pool_grid. rewrite elem_of_concat. split.
  - intros (l & Hx & (i & -> & Hi%elem_of_seqZ)%list_elem_of_fmap).
    apply elem_of_page in Hx as (j & -> & Hj). exists i, j. lia.
  - intros (i & j & -> & Hi & Hj). exists (page_items ipp (b + psize * i) ilen). split.
    + apply elem_of_page. exists j. lia.
    + apply list_elem_of_fmap. exists i. split; [done|]. apply elem_of_seqZ. lia.
Qed.

(** An item, relative to its page. *)
Lemma item_in_page ipp psize ilen j :
  0 < ilen -> 0 < psize -> Z.of_nat ipp = psize / ilen -> 0 <= j < Z.of_nat ipp ->
  0 <= ilen * j /\ ilen * j + ilen <= psize.
Proof.
  intros Hi Hp He Hj. split; [nia|].
  assert (ilen * (psize / ilen) <= psize) by (apply Z.mul_div_le; lia). nia.
Qed.

(** Different items do not overlap. *)
Lemma grid_disjoint ipp psize ilen i j i' j' :
  0 < ilen -> 0 < psize -> Z.of_nat ipp = psize / ilen ->
  0 <= j < Z.of_nat ipp -> 0 <= j' < Z.of_nat ipp -> (i, j) <> (i', j') ->
  psize * i + ilen * j + ilen <= psize * i' + ilen * j' \/
  psize * i' + ilen * j' + ilen <= psize * i + ilen * j.
Proof.
  intros Hi Hp He Hj Hj' Hne.
  destruct (item_in_page ipp psize ilen j Hi Hp He Hj).
  destruct (item_in_page ipp psize ilen j' Hi Hp He Hj').
  destruct (Z.lt_trichotomy i i') as [|[-> |]]; [left; nia| |right; nia].
  assert (j <> j') by congruence. destruct (Z.lt_total j j') as [|[|]]; [left; nia|done|right; nia].
Qed.

Lemma NoDup_page ipp base ilen : 0 < ilen -> NoDup (page_items ipp base ilen).
Proof.
  intros Hi. unfold page_items. apply list.NoDup_fmap_2_strong; [|apply NoDup_seqZ].
  intros x y _ _ H. nia.
Qed.

Lemma NoDup_grid npages ipp b psize ilen :
  0 < ilen -> 0 < psize -> Z.of_nat ipp = psize / ilen -> NoDup (pool_grid npages ipp b psize ilen).
Proof.
  intros Hi Hp He. unfold pool_grid. generalize 0 at 1.
  induction npages as [|n IH]; intros i; [constructor|].
  rewrite seqZ_cons by lia. cbn. replace (Z.pred _) with (Z.of_nat n) by lia.
  apply list.NoDup_app. split_and!; [by apply NoDup_page| |by apply IH].
  intros x (j & -> & Hj)%elem_of_page (l & Hx & (i' & -> & Hi'%elem_of_seqZ)%list_elem_of_fmap)%elem_of_concat.
  apply elem_of_page in Hx as (j' & Hx & Hj').
  destruct (grid_disjoint ipp psize ilen i j i' j' Hi Hp He Hj Hj'); [|nia|nia].
  intros [= -> _]. lia.
Qed.

(** The grid of a pool with the given parameters. *)
Definition mempool_items (m : mempool) : list Z :=
  pool_grid (Z.to_nat (len m / pgsize m)) (Z.to_nat (pgsize m / item_len m)) (buf m) (pgsize m) (item_len m).

Lemma mempool_create_ok b l psize ilen m :
  m_capacity m = 0%nat -> 0 < ilen -> is_power_of_two psize = true -> 0 < psize -> 0 <= l ->
  l mod psize = 0 -> l / psize <= INT_MAX -> psize / ilen <= INT_MAX ->
  exists m', mempool_create true b l psize ilen m = Ok (0, m') /\
    free_items m' = mempool_items m' /\ allocated m' = 0%nat /\ m_capacity m' = length (free_items m') /\
    buf m' = b /\ len m' = l /\ pgsize m' = psize /\ item_len m' = ilen.
Proof.
  intros Hc Hi Hp Hp0 Hl Hm Hn1 Hn2. unfold mempool_create.
  rewrite Hp, (proj2 (Z.eqb_neq ilen 0)), (proj2 (Z.eqb_eq (l mod psize) 0)) by lia. cbn.
  unfold mempool_populate. cbn -[INT_MAX].
  rewrite !(proj2 (Z.ltb_ge _ _)) by done. cbn. rewrite populate_pages_puts.
  fold (pool_grid (Z.to_nat (l / psize)) (Z.to_nat (psize / ilen)) b psize ilen).
  assert (0 <= l / psize) by (apply Z.div_pos; lia). assert (0 <= psize / ilen) by (apply Z.div_pos; lia).
  assert (Hmul : Z.to_nat (l / psize * (psize / ilen)) = (Z.to_nat (l / psize) * Z.to_nat (psize / ilen))%nat)
    by (by apply Z2Nat.inj_mul).
  rewrite puts_ok; cbn; rewrite Hc, length_pool_grid; [|rewrite length_replicate; lia].
  eexists. split; [done|]. cbn. split_and!; try done.
  - rewrite drop_ge by (rewrite length_replicate; lia). by rewrite app_nil_r.
  - rewrite !length_app, length_pool_grid, length_drop, length_replicate, take_0. cbn [length]. lia.
Qed.

(** ** The pool as the allocator of a thread cache *)

Definition mempool_free_list (m : mempool) : list Z := drop (allocated m) (free_items m).

(** The pool is created, its buffer is a valid address range and, where the
    debug checks are compiled in, its start passes them. *)
Record mempool_ok (DEBUG : bool) (m : mempool) : Prop := {
  mo_buf : 0 < buf m;
  mo_item : 0 < item_len m;
  mo_page : 0 < pgsize m;
  mo_len : 0 <= len m;
  mo_cap : m_capacity m = length (free_items m);
  mo_alloc : (allocated m <= m_capacity m)%nat;
  mo_grid : length (free_items m) = length (mempool_items m);
  mo_sub : mempool_free_list m ⊆+ mempool_items m;
  mo_debug : DEBUG = true -> Z.land (buf m) (pgsize m - 1) mod item_len m = 0;
}.

Lemma mempool_items_bounds DEBUG m x :
  mempool_ok DEBUG m -> x ∈ mempool_items m -> buf m <= x /\ x + item_len m <= buf m + len m.
Proof.
  intros [] (i & j & -> & Hi & Hj)%elem_of_grid.
  assert (0 <= pgsize m / item_len m) by (apply Z.div_pos; lia).
  destruct (item_in_page (Z.to_nat (pgsize m / item_len m)) (pgsize m) (item_len m) j); [lia..|].
  assert (pgsize m * (len m / pgsize m) <= len m) by (apply Z.mul_div_le; lia).
  assert (0 <= len m / pgsize m) by (apply Z.div_pos; lia). nia.
Qed.

Lemma mempool_items_nodup DEBUG m : mempool_ok DEBUG m -> NoDup (mempool_items m).
Proof.
  intros []. assert (0 <= pgsize m / item_len m) by (apply Z.div_pos; lia).
  apply NoDup_grid; lia.
Qed.

Lemma check_ok DEBUG m x :
  mempool_ok DEBUG m -> DEBUG = true -> x ∈ mempool_items m -> mempool_common_check m x = true.
Proof.
  intros Hm HD Hx. destruct (mempool_items_bounds DEBUG m x Hm Hx). destruct Hm.
  unfold mempool_common_check. rewrite mo_debug0 by done.
  rewrite !andb_true_iff, Z.geb_leb. split_and!; [apply Z.leb_le|apply Z.ltb_lt|apply Z.eqb_eq]; lia.
Qed.

Lemma poison_frame x v m mm y : y <> x -> poison x v m mm !! y = mm !! y.
Proof. intros Hy. unfold poison. destruct (mm !! x); [|done]. by rewrite lookup_insert_ne. Qed.

Lemma poison_dom x v m mm y : is_Some (mm !! y) -> is_Some (poison x v m mm !! y).
Proof. intros Hy. unfold poison. destruct (mm !! x); [|done]. by apply insert_dom. Qed.

(** A change of the stack that keeps the free items within the grid. *)
Lemma stack_ok DEBUG m fi a :
  mempool_ok DEBUG m -> length fi = length (free_items m) -> (a <= m_capacity m)%nat ->
  drop a fi ⊆+ mempool_items m -> mempool_ok DEBUG (set_stack fi a (m_capacity m) m).
Proof. intros [] Hl Ha Hs. split; cbn; auto; rewrite Hl; done. Qed.

Lemma mempool_alloc_ok DEBUG mm m :
  mempool_ok DEBUG m ->
  exists r mm' m', mempool_alloc DEBUG mm m = Ok (r, mm', m') /\ mempool_ok DEBUG m' /\
    mempool_items m' = mempool_items m /\
    option_list r ++ mempool_free_list m' = mempool_free_list m /\
    (r = None -> mempool_free_list m = []) /\
    (forall x, x ∉ option_list r -> mm' !! x = mm !! x) /\
    (forall x, is_Some (mm !! x) -> is_Some (mm' !! x)).
Proof.
  intros Hm. assert (Hm' := Hm). destruct Hm. unfold mempool_alloc. destruct (decide _) as [Hc|Hc].
  - exists None, mm, m. split_and!; try done. intros _. apply drop_ge. lia.
  - destruct (lookup_lt_is_Some_2 (free_items m) (allocated m)) as [item Hi]; [lia|]. rewrite Hi.
    assert (Hd : mempool_free_list m = item :: drop (S (allocated m)) (free_items m)) by (by apply drop_S).
    assert (Hin : item ∈ mempool_items m).
    { eapply elem_of_submseteq; [|exact mo_sub0]. rewrite Hd. by left. }
    assert (Hok : mempool_ok DEBUG (set_stack (free_items m) (S (allocated m)) (m_capacity m) m)).
    { apply stack_ok; [done|done|lia|]. etrans; [|exact mo_sub0]. rewrite Hd. by apply submseteq_cons. }
    unfold __mempool_alloc_debug_check. destruct DEBUG; [rewrite check_ok with (DEBUG := true) by done|]; cbn.
    + do 3 eexists. split; [done|]. split_and!; auto using poison_dom; try done.
      intros x Hx. apply poison_frame. set_solver.
    + do 3 eexists. split; [done|]. split_and!; auto; done.
Qed.

Lemma mempool_free_ok DEBUG item mm m :
  mempool_ok DEBUG m -> item :: mempool_free_list m ⊆+ mempool_items m ->
  exists mm' m', mempool_free DEBUG item mm m = Ok (mm', m') /\ mempool_ok DEBUG m' /\
    mempool_items m' = mempool_items m /\ mempool_free_list m' = item :: mempool_free_list m /\
    (forall x, x <> item -> mm' !! x = mm !! x) /\ (forall x, is_Some (mm !! x) -> is_Some (mm' !! x)).
Proof.
  intros Hm Hsub. assert (Hm' := Hm). destruct Hm.
  assert (Hin : item ∈ mempool_items m) by (eapply elem_of_submseteq; [|exact Hsub]; by left).
  assert (Hlen := submseteq_length _ _ Hsub). cbn in Hlen. unfold mempool_free_list in Hlen.
  rewrite length_drop in Hlen. destruct (allocated m) as [|a] eqn:Ea; [lia|].
  assert (Hd : drop a (<[a := item]> (free_items m)) = item :: mempool_free_list m).
  { rewrite (drop_S _ item) by (apply list_lookup_insert_eq; lia). rewrite drop_insert_lt by lia.
    unfold mempool_free_list. by rewrite Ea. }
  assert (Hok : mempool_ok DEBUG (set_stack (<[a := item]> (free_items m)) a (m_capacity m) m)).
  { apply stack_ok; [done|apply length_insert|lia|by rewrite Hd]. }
  unfold mempool_free, __mempool_free_debug_check. rewrite Ea.
  destruct DEBUG; [rewrite check_ok with (DEBUG := true) by done|]; cbn; rewrite !decide_True by lia.
  - do 2 eexists. split; [done|]. split_and!; auto using poison_dom, poison_frame.
  - do 2 eexists. split; [done|]. split_and!; auto.
Qed.

Lemma mempool_tcache_free_ok DEBUG l mm m :
  mempool_ok DEBUG m -> l ++ mempool_free_list m ⊆+ mempool_items m ->
  exists mm' m', mempool_tcache_free DEBUG l mm m = Ok (mm', m') /\ mempool_ok DEBUG m' /\
    mempool_items m' = mempool_items m /\ mempool_free_list m' ≡ₚ l ++ mempool_free_list m /\
    (forall x, x ∉ l -> mm' !! x = mm !! x) /\ (forall x, is_Some (mm !! x) -> is_Some (mm' !! x)).
Proof.
  revert mm m. induction l as [|item l IH]; intros mm m Hm Hsub; cbn.
  - exists mm, m. by split_and!.
  - destruct (mempool_free_ok DEBUG item mm m Hm) as (mm1 & m1 & -> & Hm1 & Hi1 & Hf1 & Hfr1 & Hd1).
    { etrans; [|exact Hsub]. cbn. by apply submseteq_skip, submseteq_inserts_l. }
    cbn. destruct (IH mm1 m1 Hm1) as (mm2 & m2 & -> & Hm2 & Hi2 & Hf2 & Hfr2 & Hd2).
    { rewrite Hf1, Hi1, <- Permutation_middle. exact Hsub. }
    exists mm2, m2. split_and!; auto; [congruence| |].
    + by rewrite Hf2, Hf1, <- Permutation_middle.
    + intros x Hx. rewrite Hfr2, Hfr1; [done|set_solver..].
Qed.

Lemma tcache_alloc_loop_ok DEBUG nr got mm m :
  mempool_ok DEBUG m -> got ++ mempool_free_list m ⊆+ mempool_items m ->
  exists r mm' m', tcache_alloc_loop DEBUG nr got mm m = Ok (r, mm', m') /\ mempool_ok DEBUG m' /\
    mempool_items m' = mempool_items m /\
    default [] r ++ mempool_free_list m' ≡ₚ got ++ mempool_free_list m /\
    (forall l, r = Some l -> length l = (length got + nr)%nat) /\
    (r = None -> (length (mempool_free_list m) < nr)%nat) /\
    (forall x, x ∉ got ++ mempool_free_list m -> mm' !! x = mm !! x) /\
    (forall x, is_Some (mm !! x) -> is_Some (mm' !! x)).
Proof.
  revert got mm m. induction nr as [|nr IH]; intros got mm m Hm Hsub; cbn.
  - exists (Some got), mm, m. split_and!; try done. intros l [= <-]. lia.
  - destruct (mempool_alloc_ok DEBUG mm m Hm) as (r & mm1 & m1 & -> & Hm1 & Hi1 & Hf1 & Hn1 & Hfr1 & Hd1).
    cbn. destruct r as [item|]; cbn in *.
    + destruct (IH (got ++ [item]) mm1 m1 Hm1) as (r & mm2 & m2 & -> & Hm2 & Hi2 & Hf2 & Hl2 & Hn2 & Hfr2 & Hd2).
      { rewrite Hi1, <- app_assoc. cbn. by rewrite Hf1. }
      rewrite <- Hf1. exists r, mm2, m2. split_and!; auto; [congruence| | | |].
      * rewrite Hf2, <- app_assoc. done.
      * intros l Hl. rewrite (Hl2 l Hl), length_app. cbn. lia.
      * intros Hl. specialize (Hn2 Hl). cbn. lia.
      * intros x Hx. rewrite Hfr2, Hfr1; [done|set_solver..].
    + destruct (mempool_tcache_free_ok DEBUG got mm1 m1 Hm1) as (mm2 & m2 & -> & Hm2 & Hi2 & Hf2 & Hfr2 & Hd2).
      { by rewrite Hf1, Hi1. }
      exists None, mm2, m2. rewrite Hf1 in *. split_and!; auto; [congruence|done| |].
      * intros _. rewrite (Hn1 eq_refl). cbn. lia.
      * intros x Hx. rewrite Hfr2, Hfr1; [done|set_solver..].
Qed.

(** [mempool_tcache_ops]. *)
#[export] Program Instance mempool_tcache_ops (DEBUG : bool) : TcacheOps mempool := {|
  ops_alloc := mempool_tcache_alloc DEBUG;
  ops_free := mempool_tcache_free DEBUG;
  pool_ok := mempool_ok DEBUG;
  pool_all := mempool_items;
  pool_free := mempool_free_list;
|}.
Next Obligation. intros DEBUG m []. done. Qed.
Next Obligation. apply mempool_items_nodup. Qed.
Next Obligation.
  intros DEBUG m Hm Hx. destruct (mempool_items_bounds DEBUG m NULL Hm Hx). destruct Hm. unfold NULL in *. lia.
Qed.
Next Obligation.
  intros DEBUG n mm m Hm _. apply (tcache_alloc_loop_ok DEBUG n [] mm m Hm). by destruct Hm.
Qed.
Next Obligation. intros DEBUG l mm m Hm _. by apply mempool_tcache_free_ok. Qed.

(** ** Properties *)

(** [mempool_create] on a zeroed pool: for a power-of-two page size that
    divides the length and a positive item length it succeeds when [calloc] does,
    and the items it makes lie in the buffer, do not straddle a page of it and do
    not overlap; every item that fits a page is there.  Other arguments give
    [-EINVAL] and leave the pool as it was. *)
Theorem mempool_create_items b l psize ilen m :
  m_capacity m = 0%nat -> 0 <= ilen -> 0 <= psize -> 0 <= l ->
  l / psize <= INT_MAX -> psize / ilen <= INT_MAX ->
  if decide (ilen <> 0 /\ is_power_of_two psize = true /\ l mod psize = 0) then
    exists m', mempool_create true b l psize ilen m = Ok (0, m') /\ allocated m' = 0%nat /\
      m_capacity m' = length (free_items m') /\
      (forall x, x ∈ free_items m' <-> exists i j, x = b + psize * i + ilen * j /\
        0 <= i < l / psize /\ 0 <= j < psize / ilen) /\
      (forall x, x ∈ free_items m' -> b <= x /\ x + ilen <= b + l /\
        (x - b) / psize = (x + ilen - 1 - b) / psize) /\
      (forall p q x y, free_items m' !! p = Some x -> free_items m' !! q = Some y -> p <> q ->
        x + ilen <= y \/ y + ilen <= x)
  else mempool_create true b l psize ilen m = Ok (- EINVAL, m).
Proof.
  intros Hc Hi Hp Hl Hn1 Hn2. destruct (decide _) as [(Hi0 & Hpow & Hmod)|Hbad].
  2:{ unfold mempool_create.
      destruct (Z.eqb_spec ilen 0) as [|]; [done|]. destruct (is_power_of_two psize) eqn:Ep; [|done].
      destruct (Z.eqb_spec (l mod psize) 0); [|done]. cbn. by destruct Hbad. }
  assert (psize <> 0) by (intros ->; discriminate Hpow).
  destruct (mempool_create_ok b l psize ilen m) as (m' & E & Hf & Ha & Hcap & B1 & B2 & B3 & B4); try lia; try done.
  exists m'. unfold mempool_items in Hf. rewrite B1, B2, B3, B4 in Hf.
  assert (0 <= l / psize) by (apply Z.div_pos; lia). assert (0 <= psize / ilen) by (apply Z.div_pos; lia).
  assert (Hmem : forall x, x ∈ free_items m' <-> exists i j, x = b + psize * i + ilen * j /\
    0 <= i < l / psize /\ 0 <= j < psize / ilen).
  { intros x. rewrite Hf, elem_of_grid, !Z2Nat.id by done. done. }
  split_and!; auto.
  - intros x (i & j & -> & Hi' & Hj)%Hmem.
    destruct (item_in_page (Z.to_nat (psize / ilen)) psize ilen j); [lia..|].
    assert (psize * (l / psize) <= l) by (apply Z.mul_div_le; lia).
    split_and!; [nia|nia|].
    rewrite <- (Z.div_unique_pos (b + psize * i + ilen * j - b) psize i (ilen * j)) by lia.
    apply (Z.div_unique_pos _ _ _ (ilen * j + ilen - 1)); lia.
  - intros p q x y Hx Hy Hpq.
    assert (Hne : x <> y).
    { intros <-. apply Hpq. eapply NoDup_lookup; [|done..]. rewrite Hf. apply NoDup_grid; lia. }
    apply list_elem_of_lookup_2 in Hx as (i & j & Ex & Hi' & Hj)%Hmem.
    apply list_elem_of_lookup_2 in Hy as (i' & j' & Ey & Hi'' & Hj')%Hmem.
    destruct (grid_disjoint (Z.to_nat (psize / ilen)) psize ilen i j i' j'); [lia..| |lia|lia].
    intros [= -> ->]. congruence.
Qed.

(** ** Witnesses *)

Definition pool0 : mempool := Mempool [] 0 0 0 0 0 0.

Lemma mempool_create_items_witness :
  exists m', mempool_create true 4096 8192 4096 1000 pool0 = Ok (0, m') /\ length (free_items m') = 8%nat.
Proof.
  assert (H := mempool_create_items 4096 8192 4096 1000 pool0 eq_refl ltac:(done) ltac:(done) ltac:(done)
    ltac:(done) ltac:(done)).
  rewrite decide_True in H by (split_and!; [lia|reflexivity|reflexivity]).
  destruct H as (m' & E & _). exists m'. split; [exact E|].
  vm_compute in E. injection E as <-. reflexivity.
Defined.

(** A pool of eight items under a cache with magazines of two items. *)
Definition pool8 : mempool :=
  match mempool_create true 4096 8192 4096 1000 pool0 with Ok (_, m) => m | Bug => pool0 end.

Definition mem8 : memory := list_to_map ((fun x => (x, Hdr 0 0)) <$> mempool_items pool8).

Lemma pool8_ok : mempool_ok true pool8.
Proof. split; vm_compute; try done; lia. Qed.

(** The allocator of the example, with the debug checks. *)
#[local] Instance ops8 : TcacheOps mempool := mempool_tcache_ops true.

Lemma fresh8 : tc_fresh mem8 (Tcache 0 2 NULL) pool8.
Proof.
  split_and!; [exact pool8_ok|vm_compute; reflexivity| |vm_compute; lia|exists 1000; reflexivity].
  intros x Hx. unfold mem8. exists (Hdr 0 0). apply elem_of_list_to_map_1.
  - rewrite <- list_fmap_compose. cbn. rewrite list_fmap_id. by eapply mempool_items_nodup, pool8_ok.
  - apply list_elem_of_fmap. eauto.
Qed.

(** Two threads; thread 0 takes an item. *)
Definition start8 : tsys := tc_init mem8 (Tcache 0 2 NULL) pool8 2.
Definition after8 : tsys :=
  match tc_step (TAlloc 0) start8 with Some (Ok s) => s | _ => start8 end.

Lemma after8_reachable : tc_reachable start8 after8.
Proof. eapply (tc_reach_step _ start8 (TAlloc 0)); [constructor|]. vm_compute. reflexivity. Qed.

Lemma tcache_conserves_witness :
  exists G ms, held after8 ++ items_of G ++ concat ms ++ pool_free (pool (store after8)) ≡ₚ mempool_items pool8.
Proof.
  destruct (tcache_conserves mem8 (Tcache 0 2 NULL) pool8 2 after8 fresh8 after8_reachable)
    as (G & ms & _ & _ & H). exists G, ms. exact H.
Defined.

Lemma tcache_safe_witness : tc_step TReclaim after8 <> Some Bug.
Proof.
  apply (tcache_safe mem8 (Tcache 0 2 NULL) pool8 2 after8 fresh8 after8_reachable).
Defined.

Lemma tcache_free_alloc_witness :
  exists item ltc, held after8 = [item] /\ ltcs after8 !! 1%nat = Some ltc /\
    exists ltc' st ltc'' st', tcache_free item ltc (store after8) = Ok (ltc', st) /\
      tcache_alloc ltc' st = Ok (item, ltc'', st').
Proof.
  eexists _, _. split; [vm_compute; reflexivity|]. split; [vm_compute; reflexivity|].
  eapply (tcache_free_alloc mem8 (Tcache 0 2 NULL) pool8 2 after8 1%nat); [exact fresh8|exact after8_reachable|..].
  - vm_compute. reflexivity.
  - vm_compute. by left.
Defined.
