(* ===== verification/Mbuf.v ===== *)
(** * inc/net/mbuf.h, net/mbuf.c: packet buffers

    An mbuf is a window [data, data + len) into a buffer.  [head] holds the bytes
    that were really allocated for the buffer and [data] is an offset into it;
    reading or writing a byte outside of it is undefined ([Bug]).  [head_len] is
    what the mbuf believes the length of the buffer is. *)

From S2P Require Import Prelude.

Definition MBUF_DEFAULT_LEN : Z := 2048.
Definition MBUF_DEFAULT_HEADROOM : Z := 128.
Definition USHRT_MAX : Z := 65535.

Record mbuf := Mbuf {
  head : list Z;
  data : Z;
  head_len : Z;
  len : Z;
  csum_type : Z;
  csum : Z;
  txflags : Z;
  network_off : Z;
  transport_off : Z;
}.

Definition set_window (d l : Z) (m : mbuf) : mbuf :=
  Mbuf (head m) d (head_len m) l (csum_type m) (csum m) (txflags m) (network_off m) (transport_off m).
Definition set_head (h : list Z) (m : mbuf) : mbuf :=
  Mbuf h (data m) (head_len m) (len m) (csum_type m) (csum m) (txflags m) (network_off m) (transport_off m).
Definition set_network_off (v : Z) (m : mbuf) : mbuf :=
  Mbuf (head m) (data m) (head_len m) (len m) (csum_type m) (csum m) (txflags m) v (transport_off m).
Definition set_transport_off (v : Z) (m : mbuf) : mbuf :=
  Mbuf (head m) (data m) (head_len m) (len m) (csum_type m) (csum m) (txflags m) (network_off m) v.
Definition set_meta (ct c f : Z) (m : mbuf) : mbuf :=
  Mbuf (head m) (data m) (head_len m) (len m) ct c f (network_off m) (transport_off m).

(** ** Access to the bytes, at an offset from [head] *)

Definition in_buffer (m : mbuf) (off n : Z) : bool :=
  (0 <=? off) && (0 <=? n) && (off + n <=? Z.of_nat (length (head m))).

Definition read_bytes (m : mbuf) (off n : Z) : res (list Z) :=
  if in_buffer m off n then Ok (take (Z.to_nat n) (drop (Z.to_nat off) (head m))) else Bug.

Definition write_bytes (off : Z) (l : list Z) (m : mbuf) : res mbuf :=
  if in_buffer m off (Z.of_nat (length l))
  then Ok (set_head (take (Z.to_nat off) (head m) ++ l ++ drop (Z.to_nat off + length l) (head m)) m)
  else Bug.

(** Fields of packet headers, in network byte order. *)
Definition be16 (a b : Z) : Z := a * 256 + b.
Definition be32 (a b c d : Z) : Z := ((a * 256 + b) * 256 + c) * 256 + d.

Definition hton16 (v : Z) : list Z := [v / 256 mod 256; v mod 256].
Definition hton32 (v : Z) : list Z :=
  [v / 16777216 mod 256; v / 65536 mod 256; v / 256 mod 256; v mod 256].

Lemma be16_hton16 v : in_u16 v -> be16 (v / 256 mod 256) (v mod 256) = v.
Proof. intros H. unfold be16. ulia. Qed.

Lemma be32_hton32 v :
  in_u32 v -> be32 (v / 16777216 mod 256) (v / 65536 mod 256) (v / 256 mod 256) (v mod 256) = v.
Proof. intros H. unfold be32. ulia. Qed.

Definition read8 (m : mbuf) (off : Z) : res Z :=
  l ← read_bytes m off 1; match l with [a] => Ok a | _ => Bug end.
Definition read16 (m : mbuf) (off : Z) : res Z :=
  l ← read_bytes m off 2; match l with [a; b] => Ok (be16 a b) | _ => Bug end.
Definition read32 (m : mbuf) (off : Z) : res Z :=
  l ← read_bytes m off 4; match l with [a; b; c; d] => Ok (be32 a b c d) | _ => Bug end.

(** ** The operations of mbuf.h; those that return a pointer return its offset *)

Definition __mbuf_pull (n : Z) (m : mbuf) : Z * mbuf :=
  (data m, set_window (data m + n) (u32 (len m - n)) m).

Definition mbuf_pull (n : Z) (m : mbuf) : res (Z * mbuf) :=
  _ ← BUG_ON (n >? len m);
  Ok (__mbuf_pull n m).

Definition mbuf_pull_or_null (n : Z) (m : mbuf) : option Z * mbuf :=
  if len m >=? n then let '(p, m) := __mbuf_pull n m in (Some p, m) else (None, m).

Definition mbuf_push (n : Z) (m : mbuf) : res (Z * mbuf) :=
  let d := data m - n in
  _ ← BUG_ON (d <? 0);
  Ok (d, set_window d (u32 (len m + n)) m).

Definition mbuf_put (n : Z) (m : mbuf) : res (Z * mbuf) :=
  let tmp := data m + len m in
  let l := u32 (len m + n) in
  _ ← BUG_ON (l >? head_len m);
  Ok (tmp, set_window (data m) l m).

Definition mbuf_trim (n : Z) (m : mbuf) : res (Z * mbuf) :=
  _ ← BUG_ON (n >? len m);
  let l := len m - n in
  Ok (data m + l, set_window (data m) l m).

Definition mbuf_reset (off : Z) (m : mbuf) : res mbuf :=
  let total_len := u32 (data m + len m) in
  _ ← BUG_ON (off >? total_len);
  Ok (set_window off (total_len - off) m).

Definition mbuf_headroom (m : mbuf) : Z := u32 (data m).
Definition mbuf_tailroom (m : mbuf) : Z := u32 (head_len m - data m - len m).
Definition mbuf_length (m : mbuf) : Z := len m.

Definition mbuf_mark_network_offset (m : mbuf) : res mbuf :=
  _ ← BUG_ON (data m >? USHRT_MAX);
  Ok (set_network_off (data m) m).

Definition mbuf_mark_transport_offset (m : mbuf) : res mbuf :=
  _ ← BUG_ON (data m >? USHRT_MAX);
  Ok (set_transport_off (data m) m).

(** [mbuf_init] on a buffer with the bytes [h]; the other fields keep the values
    of [m]. *)
Definition mbuf_init (h : list Z) (hlen reserve_len : Z) (m : mbuf) : res mbuf :=
  _ ← BUG_ON (reserve_len >=? hlen);
  Ok (Mbuf h reserve_len hlen 0 (csum_type m) (csum m) (txflags m) (network_off m) (transport_off m)).

(** [memcpy(mbuf_put(m, n), src, n)]. *)
Definition mbuf_append (src : list Z) (m : mbuf) : res mbuf :=
  '(p, m) ← mbuf_put (Z.of_nat (length src)) m;
  write_bytes p src m.

(** The packet with a header written in front of it. *)
Definition mbuf_prepend (src : list Z) (m : mbuf) : res mbuf :=
  '(p, m) ← mbuf_push (Z.of_nat (length src)) m;
  write_bytes p src m.

Definition mbuf_clone (dst src : mbuf) : res mbuf :=
  bytes ← read_bytes src (data src) (len src);
  dst ← mbuf_append bytes (set_window (mbuf_headroom src) (len dst) dst);
  Ok (set_meta (csum_type src) (csum src) (txflags src) dst).

(** ** Well-formed mbufs and their contents *)

Record mbuf_ok (m : mbuf) : Prop := {
  ok_data : 0 <= data m;
  ok_len : 0 <= len m;
  ok_end : data m + len m <= Z.of_nat (length (head m));
  ok_head : Z.of_nat (length (head m)) <= head_len m;
  ok_max : head_len m < M32;
}.

(** The bytes of the packet. *)
Definition payload (m : mbuf) : list Z :=
  take (Z.to_nat (len m)) (drop (Z.to_nat (data m)) (head m)).

Lemma length_payload m : mbuf_ok m -> Z.of_nat (length (payload m)) = len m.
Proof. intros []. unfold payload. rewrite length_take, length_drop. lia. Qed.

Ltac mbuf_len := unfold M32, u32 in *; rewrite ?Z.mod_small by lia; lia.

Lemma pull_payload n m :
  mbuf_ok m -> 0 <= n <= len m ->
  payload (set_window (data m + n) (len m - n) m) = drop (Z.to_nat n) (payload m).
Proof.
  intros [] Hn. unfold payload. cbn. rewrite skipn_firstn_comm.
  rewrite drop_drop. f_equal; [lia|]. f_equal. lia.
Qed.

Lemma write_bytes_ok off l m :
  0 <= off -> off + Z.of_nat (length l) <= Z.of_nat (length (head m)) ->
  exists h, write_bytes off l m = Ok (set_head h m) /\ length h = length (head m) /\
    h = take (Z.to_nat off) (head m) ++ l ++ drop (Z.to_nat off + length l) (head m).
Proof.
  intros H1 H2. unfold write_bytes, in_buffer.
  rewrite (proj2 (Z.leb_le 0 off)), (proj2 (Z.leb_le 0 _)), (proj2 (Z.leb_le _ _)) by lia. cbn.
  eexists. split; [done|]. split; [|done].
  rewrite !length_app, length_take, length_drop. lia.
Qed.

(** Reading bytes of the packet. *)
Lemma read_payload m off n :
  mbuf_ok m -> 0 <= off -> 0 <= n -> off + n <= len m ->
  read_bytes m (data m + off) n = Ok (take (Z.to_nat n) (drop (Z.to_nat off) (payload m))).
Proof.
  intros [] Ho Hn Hl. unfold read_bytes, in_buffer.
  rewrite (proj2 (Z.leb_le 0 (data m + off))), (proj2 (Z.leb_le 0 n)), (proj2 (Z.leb_le _ _)) by lia. cbn.
  f_equal. unfold payload. rewrite skipn_firstn_comm, take_take, drop_drop. f_equal; [lia|]. f_equal. lia.
Qed.

(** The mbuf with other bytes in its buffer and another window; the rest is kept. *)
Definition same_meta (m m' : mbuf) : Prop :=
  head_len m' = head_len m /\ length (head m') = length (head m) /\ csum_type m' = csum_type m /\
  csum m' = csum m /\ txflags m' = txflags m /\ network_off m' = network_off m /\
  transport_off m' = transport_off m.

(** Prepending where there is headroom. *)
Lemma mbuf_prepend_ok src m :
  mbuf_ok m -> Z.of_nat (length src) <= data m ->
  exists m', mbuf_prepend src m = Ok m' /\ mbuf_ok m' /\ payload m' = src ++ payload m /\
    data m' = data m - Z.of_nat (length src) /\ len m' = len m + Z.of_nat (length src) /\ same_meta m m'.
Proof.
  intros [] Hr. unfold mbuf_prepend, mbuf_push.
  destruct (Z.ltb_spec (data m - Z.of_nat (length src)) 0); [lia|]. cbn.
  rewrite (u32_id (len m + Z.of_nat (length src))) by (unfold in_u32; lia).
  set (m1 := set_window _ _ m).
  destruct (write_bytes_ok (data m - Z.of_nat (length src)) src m1) as (h & E & Hl & Hh); cbn; [lia..|].
  exists (set_head h m1). split; [exact E|]. cbn in Hl, Hh. split; [split; cbn; rewrite ?Hl; lia|].
  split; [|by repeat split].
  unfold payload. cbn. rewrite Hh. clear E Hh m1.
  rewrite drop_app_length' by (rewrite length_take; lia).
  rewrite take_app_ge by lia. f_equal. f_equal; [lia|]. f_equal. lia.
Qed.

(** Appending where the buffer has room. *)
Lemma mbuf_append_ok src m :
  mbuf_ok m -> data m + len m + Z.of_nat (length src) <= Z.of_nat (length (head m)) ->
  exists m', mbuf_append src m = Ok m' /\ mbuf_ok m' /\ payload m' = payload m ++ src /\
    data m' = data m /\ len m' = len m + Z.of_nat (length src) /\ head_len m' = head_len m /\
    length (head m') = length (head m).
Proof.
  intros [] Hr. unfold mbuf_append, mbuf_put.
  rewrite (u32_id (len m + Z.of_nat (length src))) by (unfold in_u32; lia).
  rewrite Z.gtb_ltb, (proj2 (Z.ltb_ge _ _)) by lia. cbn.
  destruct (write_bytes_ok (data m + len m) src
    (set_window (data m) (len m + Z.of_nat (length src)) m)) as (h & E & Hl & Hh); cbn; [lia..|].
  exists (set_head h (set_window (data m) (len m + Z.of_nat (length src)) m)). split; [exact E|].
  cbn in Hl, Hh. split; [split; cbn; rewrite ?Hl; lia|]. split_and!; cbn; auto.
  unfold payload. cbn. rewrite Hh. cbn. clear E Hh.
  rewrite drop_app_le by (rewrite length_take; lia).
  replace (Z.to_nat (data m + len m)) with (Z.to_nat (data m) + Z.to_nat (len m))%nat by lia.
  rewrite <- take_take_drop, drop_app_length', app_assoc by (rewrite length_take; lia).
  rewrite take_app_length'; [done|].
  rewrite length_app, length_take, length_drop. lia.
Qed.

(** [mbuf_clone] into a fresh buffer of at least the size copies the packet. *)
Lemma mbuf_clone_ok dst src :
  mbuf_ok dst -> mbuf_ok src -> len dst = 0 ->
  data src + len src <= Z.of_nat (length (head dst)) ->
  exists m, mbuf_clone dst src = Ok m /\ mbuf_ok m /\ payload m = payload src.
Proof.
  intros Hd Hs Hl Hr. assert (Hs' := Hs). destruct Hd, Hs. unfold mbuf_clone, mbuf_headroom, read_bytes, in_buffer.
  rewrite (proj2 (Z.leb_le 0 (data src))), (proj2 (Z.leb_le 0 (len src))), (proj2 (Z.leb_le _ _)) by lia. cbn.
  rewrite (u32_id (data src)) by (unfold in_u32; lia). fold (payload src).
  destruct (mbuf_append_ok (payload src) (set_window (data src) (len dst) dst)) as (m & -> & Hm & Hp & _).
  - split; cbn; lia.
  - cbn. rewrite (length_payload src) by done. lia.
  - cbn. eexists. split; [done|]. split; [destruct Hm; by split|].
    transitivity (payload m); [done|]. rewrite Hp. unfold payload at 1. cbn. by rewrite Hl.
Qed.

(** The window operations on a well-formed mbuf. *)
Lemma mbuf_pull_ok n m :
  mbuf_ok m -> 0 <= n ->
  match mbuf_pull n m with
  | Ok (p, m') => n <= len m /\ p = data m /\ mbuf_ok m' /\ payload m' = drop (Z.to_nat n) (payload m)
  | Bug => len m < n
  end.
Proof.
  intros Hm Hn. assert (Hm' := Hm). destruct Hm.
  unfold mbuf_pull. rewrite Z.gtb_ltb. destruct (Z.ltb_spec (len m) n); cbn; [done|].
  rewrite u32_id by (unfold in_u32; lia). split_and!; auto; [by split; cbn; lia|].
  by apply pull_payload.
Qed.

Lemma mbuf_trim_ok n m :
  mbuf_ok m -> 0 <= n ->
  match mbuf_trim n m with
  | Ok (p, m') => n <= len m /\ p = data m + len m - n /\ mbuf_ok m' /\
                  payload m' = take (Z.to_nat (len m - n)) (payload m)
  | Bug => len m < n
  end.
Proof.
  intros [] Hn. unfold mbuf_trim. rewrite Z.gtb_ltb. destruct (Z.ltb_spec (len m) n); cbn; [done|].
  split_and!; auto; [lia|by split; cbn; lia|].
  unfold payload. cbn. rewrite take_take. f_equal. lia.
Qed.

Lemma mbuf_push_ok n m :
  mbuf_ok m -> 0 <= n ->
  match mbuf_push n m with
  | Ok (p, m') => n <= data m /\ p = data m - n /\ mbuf_ok m' /\ mbuf_pull n m' = Ok (p, m) /\
                  exists l, Z.of_nat (length l) = n /\ payload m' = l ++ payload m
  | Bug => data m < n
  end.
Proof.
  intros [] Hn. unfold mbuf_push. destruct (Z.ltb_spec (data m - n) 0); cbn; [lia|].
  rewrite u32_id by (unfold in_u32; lia). split_and!; auto; [lia|by split; cbn; lia| |].
  - unfold mbuf_pull, __mbuf_pull. cbn. rewrite Z.gtb_ltb, (proj2 (Z.ltb_ge _ _)) by lia. cbn.
    rewrite u32_id by (unfold in_u32; lia). unfold set_window. cbn.
    replace (data m - n + n) with (data m) by lia. replace (len m + n - n) with (len m) by lia.
    by destruct m.
  - set (m' := set_window (data m - n) (len m + n) m).
    assert (Ho : mbuf_ok m') by (split; cbn; lia).
    exists (take (Z.to_nat n) (payload m')). rewrite length_take. assert (Hl := length_payload m' Ho).
    cbn in Hl. split; [lia|].
    assert (Hp := pull_payload n m' Ho ltac:(cbn; lia)). cbn in Hp.
    replace (data m - n + n) with (data m) in Hp by lia.
    replace (len m + n - n) with (len m) in Hp by lia.
    transitivity (take (Z.to_nat n) (payload m') ++ drop (Z.to_nat n) (payload m')); [by rewrite take_drop|].
    by rewrite <- Hp.
Qed.

(** ** Properties *)

(**  The window operations on a well-formed mbuf: [mbuf_pull] and [mbuf_trim]
    remove exactly [n] bytes of the packet from its front and its end, [mbuf_push]
    prepends [n] bytes and is undone by [mbuf_pull], each fails exactly when the
    packet or the headroom is shorter than [n], and the mbuf stays well formed. *)
Theorem mbuf_window_ops n m :
  mbuf_ok m -> 0 <= n ->
  match mbuf_pull n m with
  | Ok (p, m') => n <= len m /\ p = data m /\ mbuf_ok m' /\ payload m' = drop (Z.to_nat n) (payload m)
  | Bug => len m < n
  end /\
  match mbuf_trim n m with
  | Ok (p, m') => n <= len m /\ p = data m + len m - n /\ mbuf_ok m' /\
                  payload m' = take (Z.to_nat (len m - n)) (payload m)
  | Bug => len m < n
  end /\
  match mbuf_push n m with
  | Ok (p, m') => n <= data m /\ p = data m - n /\ mbuf_ok m' /\ mbuf_pull n m' = Ok (p, m) /\
                  exists l, Z.of_nat (length l) = n /\ payload m' = l ++ payload m
  | Bug => data m < n
  end.
Proof.
  intros Hm Hn. split_and!; [by apply mbuf_pull_ok|by apply mbuf_trim_ok|by apply mbuf_push_ok].
Qed.

(**  [mbuf_put] compares the new length with the length of the whole buffer
    and not with the room behind the data, so it accepts lengths that run past
    the end of the buffer by up to the headroom; copying there is an overflow. *)
Theorem mbuf_put_overflow m src :
  mbuf_ok m -> Z.of_nat (length (head m)) = head_len m ->
  mbuf_tailroom m < Z.of_nat (length src) <= head_len m - len m ->
  exists p m', mbuf_put (Z.of_nat (length src)) m = Ok (p, m') /\
    Z.of_nat (length (head m')) < data m' + len m' /\ mbuf_append src m = Bug.
Proof.
  intros [] He Hs. unfold mbuf_tailroom in Hs.
  rewrite u32_id in Hs by (unfold in_u32; lia).
  unfold mbuf_append, mbuf_put. rewrite u32_id by (unfold in_u32; lia).
  rewrite Z.gtb_ltb, (proj2 (Z.ltb_ge _ _)) by lia. cbn. do 2 eexists. split; [done|]. cbn. split; [lia|].
  unfold write_bytes, in_buffer. cbn. rewrite (proj2 (Z.leb_gt (data m + len m + _) _)) by lia.
  by rewrite andb_false_r.
Qed.

(** ** Witnesses *)

Definition mbuf64 : mbuf := Mbuf (replicate 64 7) 8 64 4 0 0 0 0 0.

Lemma mbuf64_ok : mbuf_ok mbuf64.
Proof. split; vm_compute; done. Qed.

Lemma mbuf_window_ops_witness :
  match mbuf_push 3 mbuf64 with Ok (p, m') => mbuf_pull 3 m' = Ok (p, mbuf64) | Bug => False end.
Proof.
  destruct (mbuf_window_ops 3 mbuf64 mbuf64_ok ltac:(done)) as (_ & _ & H).
  destruct (mbuf_push 3 mbuf64) as [[p m']|] eqn:E; [apply H|discriminate E].
Defined.

Lemma mbuf_put_overflow_witness : mbuf_append (replicate 56 1) mbuf64 = Bug.
Proof.
  destruct (mbuf_put_overflow mbuf64 (replicate 56 1) mbuf64_ok) as (p & m' & _ & _ & H);
    [reflexivity|vm_compute; split; done|exact H].
Defined.
