(* ===== verification/Transport.v ===== *)
(** * runtime/net/transport.c: the transport match table

    Incoming packets are matched with the listeners and connections in a hash
    table: first by protocol and both addresses (5-tuple), then by protocol and
    local address (3-tuple).  The CRC instruction behind the hash is a parameter:
    nothing below depends on its values. *)

From S2P Require Import Prelude Mbuf.

Definition EADDRINUSE : Z := 98.
Definition EADDRNOTAVAIL : Z := 99.

Definition TRANS_TBL_SIZE : Z := 16384.
Definition MIN_EPHEMERAL : Z := 49152.
Definition MAX_EPHEMERAL : Z := 65535.
Definition IPPROTO_TCP : Z := 6.
Definition IPPROTO_UDP : Z := 17.

Record netaddr := Netaddr { ip : Z; port : Z }.

Inductive trans_match := TRANS_MATCH_3TUPLE | TRANS_MATCH_5TUPLE.

(** [eid] is the address of the entry; the handlers it names are in the layers
    above. *)
Record trans_entry := Entry {
  eid : nat;
  match_ : trans_match;
  proto : Z;
  laddr : netaddr;
  raddr : netaddr;
}.

#[export] Instance netaddr_eq_dec : EqDecision netaddr.
Proof. solve_decision. Defined.
#[export] Instance trans_match_eq_dec : EqDecision trans_match.
Proof. solve_decision. Defined.
#[export] Instance trans_entry_eq_dec : EqDecision trans_entry.
Proof. solve_decision. Defined.

(** The table by bucket index; the counter for ephemeral ports. *)
Record ttable := Table { tbl : gmap Z (list trans_entry); ephemeral_offset : Z }.

Definition bucket (s : ttable) (i : Z) : list trans_entry := default [] (tbl s !! i).

Definition trans_init_3tuple (e : nat) (p : Z) (l : netaddr) (old : netaddr) : trans_entry :=
  Entry e TRANS_MATCH_3TUPLE p l old.

Definition trans_init_5tuple (e : nat) (p : Z) (l r : netaddr) : trans_entry :=
  Entry e TRANS_MATCH_5TUPLE p l r.

Definition trans_init : ttable := Table ∅ 0.

Section trans.
(** The CRC32c instruction and the seed chosen at start-up. *)
Context (crc32 : Z -> Z -> Z) (trans_seed : Z).

Definition hash_crc32c_one (seed v : Z) : Z := crc32 seed v.
Definition hash_crc32c_two (seed a b : Z) : Z := crc32 (crc32 seed a) b.

Definition trans_hash_3tuple (p : Z) (l : netaddr) : Z :=
  hash_crc32c_one trans_seed
    (Z.lor (Z.lor (ip l) (u64 (Z.shiftl (port l) 32))) (u64 (Z.shiftl p 48))).

Definition trans_hash_5tuple (p : Z) (l r : netaddr) : Z :=
  hash_crc32c_two trans_seed
    (Z.lor (ip l) (u64 (Z.shiftl (port l) 32)))
    (Z.lor (Z.lor (ip r) (u64 (Z.shiftl (port r) 32))) (u64 (Z.shiftl p 48))).

(** The bucket [trans_table_add] puts an entry in. *)
Definition entry_idx (e : trans_entry) : Z :=
  (match match_ e with
   | TRANS_MATCH_3TUPLE => trans_hash_3tuple (proto e) (laddr e)
   | TRANS_MATCH_5TUPLE => trans_hash_5tuple (proto e) (laddr e) (raddr e)
   end) mod TRANS_TBL_SIZE.

(** The test of the loop of [trans_table_add] on one entry of the bucket. *)
Definition conflicts (e pos : trans_entry) : bool :=
  if decide (match_ pos = match_ e) then
    if bool_decide (match_ e = TRANS_MATCH_3TUPLE) && (proto e =? proto pos) &&
       (ip (laddr e) =? ip (laddr pos)) && (port (laddr e) =? port (laddr pos)) then true
    else
      (proto e =? proto pos) && (ip (laddr e) =? ip (laddr pos)) &&
      (port (laddr e) =? port (laddr pos)) && (ip (raddr e) =? ip (raddr pos)) &&
      (port (raddr e) =? port (raddr pos))
  else false.

Definition trans_table_add (e : trans_entry) (s : ttable) : Z * ttable :=
  if port (laddr e) =? 0 then (- EINVAL, s)
  else
    let idx := entry_idx e in
    if existsb (conflicts e) (bucket s idx) then (- EADDRINUSE, s)
    else (0, Table (<[idx := e :: bucket s idx]> (tbl s)) (u32 (ephemeral_offset s + 1))).

Definition set_port (e : trans_entry) (p : Z) : trans_entry :=
  Entry (eid e) (match_ e) (proto e) (Netaddr (ip (laddr e)) p) (raddr e).

Definition num_ephemeral : Z := MAX_EPHEMERAL - MIN_EPHEMERAL + 1.

(** The loop with [more] ports to try, the next one number [next]. *)
Fixpoint ephemeral_loop (more : nat) (next offset : Z) (e : trans_entry) (s : ttable)
    : Z * trans_entry * ttable :=
  match more with
  | O => (- EADDRNOTAVAIL, e, s)
  | S more =>
      let e := set_port e (MIN_EPHEMERAL + (next + offset) mod num_ephemeral) in
      let '(ret, s) := trans_table_add e s in
      if ret =? 0 then (0, e, s) else ephemeral_loop more (next + 1) offset e s
  end.

(** Returns the result, the entry with its new port, and the table. *)
Definition trans_table_add_with_ephemeral_port (e : trans_entry) (s : ttable)
    : Z * trans_entry * ttable :=
  match match_ e with
  | TRANS_MATCH_3TUPLE => (- EINVAL, e, s)
  | TRANS_MATCH_5TUPLE =>
      let e := set_port e 0 in
      let offset := u16 (u32 (trans_hash_5tuple (proto e) (laddr e) (raddr e) + ephemeral_offset s)) in
      ephemeral_loop (Z.to_nat num_ephemeral) 0 offset e s
  end.

(** [rcu_hlist_del] unlinks the entry where it is. *)
Definition trans_table_remove (e : nat) (s : ttable) : ttable :=
  Table ((filter (fun x => eid x <> e)) <$> tbl s) (ephemeral_offset s).

(** ** Packets *)

Definition match5 (p : Z) (l r : netaddr) (e : trans_entry) : bool :=
  bool_decide (match_ e = TRANS_MATCH_5TUPLE) && (proto e =? p) &&
  (ip (laddr e) =? ip l) && (port (laddr e) =? port l) &&
  (ip (raddr e) =? ip r) && (port (raddr e) =? port r).

Definition match3 (p : Z) (l : netaddr) (e : trans_entry) : bool :=
  bool_decide (match_ e = TRANS_MATCH_3TUPLE) && (proto e =? p) &&
  (ip (laddr e) =? ip l) && (port (laddr e) =? port l).

(** The two searches of [trans_lookup], for the addresses of a packet. *)
Definition table_lookup (p : Z) (l r : netaddr) (s : ttable) : option trans_entry :=
  match find (match5 p l r) (bucket s (trans_hash_5tuple p l r mod TRANS_TBL_SIZE)) with
  | Some e => Some e
  | None => find (match3 p l) (bucket s (trans_hash_3tuple p l mod TRANS_TBL_SIZE))
  end.

(** The protocol and the local and remote addresses of a packet whose network
    header is marked and whose data starts at the transport header; [None] for
    other protocols and truncated packets. *)
Definition parse_l4 (m : mbuf) : res (option (Z * netaddr * netaddr)) :=
  p ← read8 m (network_off m + 9);
  if negb (p =? IPPROTO_UDP) && negb (p =? IPPROTO_TCP) then Ok None
  else if mbuf_length m <? 4 then Ok None
  else
    daddr ← read32 m (network_off m + 16);
    dport ← read16 m (data m + 2);
    saddr ← read32 m (network_off m + 12);
    sport ← read16 m (data m);
    Ok (Some (p, Netaddr daddr dport, Netaddr saddr sport)).

Definition trans_lookup (m : mbuf) (s : ttable) : res (option trans_entry * mbuf) :=
  m ← mbuf_mark_transport_offset m;
  r ← parse_l4 m;
  Ok (match r with Some (p, l, r) => table_lookup p l r s | None => None end, m).

(** What becomes of a packet. *)
Inductive rx_event :=
| Recv (e : trans_entry) (m : mbuf)   (* e->ops->recv(e, m) *)
| RxClosed (m : mbuf)                 (* tcp_rx_closed(m) *)
| Freed (m : mbuf).                   (* mbuf_free(m) *)

Fixpoint net_rx_trans (ms : list mbuf) (s : ttable) : res (list rx_event) :=
  match ms with
  | [] => Ok []
  | m :: ms =>
      '(e, m) ← trans_lookup m s;
      evs ← match e with
            | Some e => Ok [Recv e m]
            | None =>
                p ← read8 m (network_off m + 9);
                Ok ((if p =? IPPROTO_TCP then [RxClosed m] else []) ++ [Freed m])
            end;
      rest ← net_rx_trans ms s;
      Ok (evs ++ rest)
  end.

(** The entry whose error handler [trans_error] calls. *)
Definition trans_error (m : mbuf) (s : ttable) : res (option trans_entry) :=
  '(e, _) ← trans_lookup m s; Ok e.

(** ** What the table holds *)

(** Two entries that may not both be in the table. *)
Definition same_key (a b : trans_entry) : Prop :=
  match_ a = match_ b /\ proto a = proto b /\ laddr a = laddr b /\
  (match_ a = TRANS_MATCH_5TUPLE -> raddr a = raddr b).

Definition holds (s : ttable) (e : trans_entry) : Prop := exists i, e ∈ bucket s i.

Record table_ok (s : ttable) : Prop := {
  tok_idx : forall i e, e ∈ bucket s i -> entry_idx e = i /\ port (laddr e) <> 0;
  tok_key : forall i a b, a ∈ bucket s i -> b ∈ bucket s i -> same_key a b -> a = b;
}.

Lemma addr_eqb (a b : netaddr) : (ip a =? ip b) && (port a =? port b) = true <-> a = b.
Proof.
  rewrite andb_true_iff, !Z.eqb_eq. destruct a, b; cbn. split; [by intros [-> ->]|by intros [= -> ->]].
Qed.

Lemma conflicts_iff e x : conflicts e x = true <-> same_key e x.
Proof.
  unfold conflicts, same_key. rewrite <- !addr_eqb.
  destruct (decide (match_ x = match_ e)) as [E|E]; [|split; [done|intros [? _]; congruence]].
  rewrite E, <- (Z.eqb_eq (proto e)). destruct (match_ e); cbn.
  all: destruct (proto e =? proto x), (ip (laddr e) =? ip (laddr x)),
    (port (laddr e) =? port (laddr x)); cbn; try (split; [done|intros (_ & ? & ? & _); done]).
  rewrite bool_decide_eq_false_2 by done. cbn. split; [intros ?; by split_and!|].
  intros (_ & _ & _ & H). auto.
Qed.

Lemma same_key_idx a b : same_key a b -> entry_idx a = entry_idx b.
Proof.
  intros (H1 & H2 & H3 & H4). unfold entry_idx. rewrite <- H1, <- H2, <- H3.
  destruct (match_ a); [done|]. by rewrite H4.
Qed.

Lemma same_key_sym a b : same_key a b -> same_key b a.
Proof. intros (H1 & H2 & H3 & H4). split_and!; auto. intros H. symmetry. apply H4. congruence. Qed.

(** The bucket of an entry is the one its key hashes to. *)
Lemma holds_bucket s e : table_ok s -> holds s e <-> e ∈ bucket s (entry_idx e).
Proof. intros []. split; [|by exists (entry_idx e)]. intros [i Hi]. by destruct (tok_idx0 i e Hi) as [-> _]. Qed.

Lemma existsb_conflicts e s :
  table_ok s ->
  existsb (conflicts e) (bucket s (entry_idx e)) = true <-> exists x, holds s x /\ same_key e x.
Proof.
  intros Hs. rewrite existsb_exists. split.
  - intros (x & Hx%list_elem_of_In & Hc%conflicts_iff). exists x. split; [by eexists|done].
  - intros (x & Hx%holds_bucket & Hk); [|done]. exists x. rewrite <- list_elem_of_In, conflicts_iff.
    split; [|done]. by rewrite (same_key_idx e x).
Qed.

Lemma bucket_insert s i l j o :
  bucket (Table (<[i := l]> (tbl s)) o) j = if decide (i = j) then l else bucket s j.
Proof.
  unfold bucket. cbn. destruct (decide (i = j)) as [<-|]; [by rewrite lookup_insert_eq|].
  by rewrite lookup_insert_ne.
Qed.

(** Adding an entry, on every branch. *)
Lemma trans_table_add_cases e s :
  table_ok s ->
  (trans_table_add e s = (- EINVAL, s) /\ port (laddr e) = 0) \/
  (trans_table_add e s = (- EADDRINUSE, s) /\ port (laddr e) <> 0 /\ exists x, holds s x /\ same_key e x) \/
  (exists s', trans_table_add e s = (0, s') /\ port (laddr e) <> 0 /\
    (forall x, holds s x -> ~ same_key e x) /\ table_ok s' /\
    forall x, holds s' x <-> x = e \/ holds s x).
Proof.
  intros Hs. unfold trans_table_add. destruct (Z.eqb_spec (port (laddr e)) 0) as [Hp|Hp]; [by left|right].
  destruct (existsb _ _) eqn:Ex; [left|right].
  { split; [done|]. split; [done|]. by apply existsb_conflicts. }
  assert (Hno : forall x, holds s x -> ~ same_key e x).
  { intros x Hx Hk. assert (existsb (conflicts e) (bucket s (entry_idx e)) = true); [|congruence].
    apply existsb_conflicts; eauto. }
  eexists. split; [done|]. split_and!; [done..| |].
  - destruct Hs. split; intros i; rewrite bucket_insert.
    + intros x Hx. destruct (decide _) as [<-|]; [|auto].
      apply elem_of_cons in Hx as [-> |Hx]; [done|auto].
    + intros a b. destruct (decide (entry_idx e = i)) as [<-|]; [|apply tok_key0].
      intros [-> |Ha]%elem_of_cons [-> |Hb]%elem_of_cons Hk; [done|..|by eapply tok_key0].
      * exfalso. apply (Hno b); [by eexists|done].
      * exfalso. apply (Hno a); [by eexists|by apply same_key_sym].
  - intros x. unfold holds. setoid_rewrite bucket_insert. split.
    + intros [i Hi]. destruct (decide _); [|by right; exists i].
      apply elem_of_cons in Hi as [-> |Hi]; [by left|right; by exists (entry_idx e)].
    + intros [-> |[i Hi]].
      * exists (entry_idx e). rewrite decide_True by done. by left.
      * exists i. destruct (decide _) as [<-|]; [by right|done].
Qed.

Lemma bucket_remove e s i : bucket (trans_table_remove e s) i = filter (fun x => eid x <> e) (bucket s i).
Proof. unfold bucket. cbn. rewrite lookup_fmap. by destruct (tbl s !! i). Qed.

Lemma trans_table_remove_ok e s :
  table_ok s -> table_ok (trans_table_remove e s) /\
  forall x, holds (trans_table_remove e s) x <-> holds s x /\ eid x <> e.
Proof.
  intros []. split; [split|].
  - intros i x. rewrite bucket_remove, list_elem_of_filter. intros [_ Hx]. auto.
  - intros i a b. rewrite bucket_remove, !list_elem_of_filter. intros [_ Ha] [_ Hb]. eauto.
  - intros x. unfold holds. setoid_rewrite bucket_remove. setoid_rewrite list_elem_of_filter. naive_solver.
Qed.

Definition is5 (p : Z) (l r : netaddr) (e : trans_entry) : Prop :=
  match_ e = TRANS_MATCH_5TUPLE /\ proto e = p /\ laddr e = l /\ raddr e = r.
Definition is3 (p : Z) (l : netaddr) (e : trans_entry) : Prop :=
  match_ e = TRANS_MATCH_3TUPLE /\ proto e = p /\ laddr e = l.

Lemma match5_iff p l r e : match5 p l r e = true <-> is5 p l r e.
Proof.
  unfold match5, is5. rewrite <- (addr_eqb (laddr e)), <- (addr_eqb (raddr e)).
  rewrite !andb_true_iff, bool_decide_eq_true, !Z.eqb_eq. tauto.
Qed.

Lemma match3_iff p l e : match3 p l e = true <-> is3 p l e.
Proof.
  unfold match3, is3. rewrite <- (addr_eqb (laddr e)).
  rewrite !andb_true_iff, bool_decide_eq_true, !Z.eqb_eq. tauto.
Qed.

(** Searching the bucket of a key finds the one entry of the table with it. *)
Lemma find_iff (f : trans_entry -> bool) i s e :
  table_ok s -> (forall x, f x = true -> entry_idx x = i) ->
  (forall x y, f x = true -> f y = true -> same_key x y) ->
  find f (bucket s i) = Some e <-> holds s e /\ f e = true.
Proof.
  intros Hs Hi Hu. split.
  - intros [He Hf]%find_some. split; [|done]. exists i. by apply list_elem_of_In.
  - intros [He%holds_bucket Hf]; [|done]. rewrite (Hi e Hf) in He.
    destruct (find f (bucket s i)) as [x|] eqn:E.
    + apply find_some in E as [Hx Hfx]. apply list_elem_of_In in Hx. f_equal.
      eapply tok_key; eauto.
    + apply list_elem_of_In in He. by rewrite (find_none _ _ E e He) in Hf.
Qed.

Lemma table_lookup_iff p l r s e :
  table_ok s ->
  table_lookup p l r s = Some e <->
    holds s e /\ (is5 p l r e \/ is3 p l e /\ forall x, holds s x -> ~ is5 p l r x).
Proof.
  intros Hs. unfold table_lookup.
  assert (F5 := fun x => find_iff (match5 p l r) (trans_hash_5tuple p l r mod TRANS_TBL_SIZE) s x Hs).
  assert (F3 := fun x => find_iff (match3 p l) (trans_hash_3tuple p l mod TRANS_TBL_SIZE) s x Hs).
  assert (H5 : forall x, find (match5 p l r) (bucket s (trans_hash_5tuple p l r mod TRANS_TBL_SIZE)) = Some x
    <-> holds s x /\ is5 p l r x).
  { intros x. rewrite F5, match5_iff; [done|..].
    - intros y (H1 & H2 & H3 & H4)%match5_iff. unfold entry_idx. by rewrite H1, H2, H3, H4.
    - intros y z (?&?&?&?)%match5_iff (?&?&?&?)%match5_iff. split_and!; intros; congruence. }
  assert (H3 : forall x, find (match3 p l) (bucket s (trans_hash_3tuple p l mod TRANS_TBL_SIZE)) = Some x
    <-> holds s x /\ is3 p l x).
  { intros x. rewrite F3, match3_iff; [done|..].
    - intros y (H1 & H2 & H4)%match3_iff. unfold entry_idx. by rewrite H1, H2, H4.
    - intros y z (?&?&?)%match3_iff (?&?&?)%match3_iff. split_and!; intros; congruence. }
  clear F5 F3. destruct (find (match5 p l r) _) as [x|] eqn:E5.
  - destruct (proj1 (H5 x) eq_refl) as [Hx1 Hx2]. split.
    + intros [= <-]. auto.
    + intros [He [H|[_ H]]]; [|by destruct (H x)]. apply H5. auto.
  - rewrite H3. split.
    + intros [He Hi]. split; [done|]. right. split; [done|]. intros x Hx Hi5.
      by assert (None = Some x) by (apply H5; auto).
    + intros [He [H|[H _]]]; [|auto]. by assert (None = Some e) by (apply H5; auto).
Qed.

(** The ephemeral port search. *)
Lemma ephemeral_loop_ok more next offset e s :
  table_ok s -> match_ e = TRANS_MATCH_5TUPLE ->
  let port_no j := MIN_EPHEMERAL + (j + offset) mod num_ephemeral in
  (exists p s', ephemeral_loop more next offset e s = (0, set_port e p, s') /\
    MIN_EPHEMERAL <= p <= MAX_EPHEMERAL /\ table_ok s' /\
    (forall x, holds s x -> ~ same_key (set_port e p) x) /\
    (forall x, holds s' x <-> x = set_port e p \/ holds s x)) \/
  (exists e', ephemeral_loop more next offset e s = (- EADDRNOTAVAIL, e', s) /\
    forall j, next <= j < next + Z.of_nat more ->
      exists x, holds s x /\ same_key (set_port e (port_no j)) x).
Proof.
  intros Hs He port_no. revert next e He. induction more as [|more IH]; intros next e He.
  - right. exists e. split; [done|]. intros j Hj. lia.
  - assert (Hrange : MIN_EPHEMERAL <= port_no next <= MAX_EPHEMERAL).
    { unfold port_no. assert (H := Z.mod_pos_bound (next + offset) num_ephemeral ltac:(done)).
      unfold num_ephemeral, MIN_EPHEMERAL, MAX_EPHEMERAL in *. lia. }
    cbn [ephemeral_loop]. fold (port_no next).
    destruct (trans_table_add_cases (set_port e (port_no next)) s Hs)
      as [[_ H0]|[(-> & _ & Hc)|(s' & -> & _ & Hno & Hok & Hh)]].
    + cbn in H0. unfold MIN_EPHEMERAL in Hrange. lia.
    + cbn -[set_port ephemeral_loop].
      destruct (IH (next + 1) (set_port e (port_no next)) He) as [(p & s' & H)|(e' & E & H)].
      * left. exists p, s'. exact H.
      * right. exists e'. split; [exact E|]. intros j Hj.
        destruct (decide (j = next)) as [-> |]; [done|]. apply (H j). lia.
    + left. exists (port_no next), s'. split; [reflexivity|]. split; [exact Hrange|]. auto.
Qed.

(** Every ephemeral port is tried. *)
Lemma ephemeral_cover offset p :
  MIN_EPHEMERAL <= p <= MAX_EPHEMERAL ->
  exists j, 0 <= j < num_ephemeral /\ MIN_EPHEMERAL + (j + offset) mod num_ephemeral = p.
Proof.
  intros Hp. exists ((p - MIN_EPHEMERAL - offset) mod num_ephemeral).
  split; [by apply Z.mod_pos_bound|]. rewrite Zplus_mod_idemp_l.
  replace (p - MIN_EPHEMERAL - offset + offset) with (p - MIN_EPHEMERAL) by lia.
  rewrite Z.mod_small by (unfold num_ephemeral, MIN_EPHEMERAL, MAX_EPHEMERAL in *; lia). lia.
Qed.

Lemma trans_add_ephemeral_cases e s :
  table_ok s -> match_ e = TRANS_MATCH_5TUPLE ->
  (exists p s', trans_table_add_with_ephemeral_port e s = (0, set_port e p, s') /\
    MIN_EPHEMERAL <= p <= MAX_EPHEMERAL /\ table_ok s' /\
    (forall x, holds s x -> ~ same_key (set_port e p) x) /\
    (forall x, holds s' x <-> x = set_port e p \/ holds s x)) \/
  (exists e', trans_table_add_with_ephemeral_port e s = (- EADDRNOTAVAIL, e', s) /\
    forall p, MIN_EPHEMERAL <= p <= MAX_EPHEMERAL ->
      exists x, holds s x /\ same_key (set_port e p) x).
Proof.
  intros Hs He. unfold trans_table_add_with_ephemeral_port. rewrite He.
  set (offset := u16 _).
  destruct (ephemeral_loop_ok (Z.to_nat num_ephemeral) 0 offset (set_port e 0) s Hs He)
    as [(p & s' & H)|(e' & E & H)].
  - left. exists p, s'. exact H.
  - right. exists e'. split; [exact E|]. intros p Hp.
    destruct (ephemeral_cover offset p Hp) as (j & Hj & <-). apply (H j). lia.
Qed.

(** ** Any sequence of operations *)

(** Adding an entry that is linked already would corrupt its bucket, so the
    callers never do. *)
Inductive trans_reachable : ttable -> Prop :=
| trans_reach_init : trans_reachable trans_init
| trans_reach_add s e :
    trans_reachable s -> (forall x, holds s x -> eid x <> eid e) ->
    trans_reachable (trans_table_add e s).2
| trans_reach_ephemeral s e :
    trans_reachable s -> (forall x, holds s x -> eid x <> eid e) ->
    trans_reachable (trans_table_add_with_ephemeral_port e s).2
| trans_reach_remove s e : trans_reachable s -> trans_reachable (trans_table_remove e s).

Lemma trans_reachable_ok s : trans_reachable s -> table_ok s.
Proof.
  induction 1 as [|s e _ IH _|s e _ IH _|s e _ IH].
  - split; intros i *; unfold bucket; cbn; rewrite lookup_empty; intros Hx; inversion Hx.
  - destruct (trans_table_add_cases e s IH) as [[-> _]|[[-> _]|(s' & -> & _ & _ & Hok & _)]]; done.
  - destruct (match_ e) eqn:E.
    + unfold trans_table_add_with_ephemeral_port. by rewrite E.
    + destruct (trans_add_ephemeral_cases e s IH E) as [(p & s' & -> & _ & Hok & _)|(e' & -> & _)]; done.
  - by apply trans_table_remove_ok.
Qed.

(** ** Properties *)

(** A packet of protocol [p] from [src] to [dst], by the bytes in its buffer: those of the
    marked IP header, and the two ports the transport header starts with. *)
Record l4_packet (m : mbuf) (p : Z) (src dst : netaddr) : Prop := {
  lp_proto : read_bytes m (network_off m + 9) 1 = Ok [p];
  lp_saddr : read_bytes m (network_off m + 12) 4 = Ok (hton32 (ip src));
  lp_daddr : read_bytes m (network_off m + 16) 4 = Ok (hton32 (ip dst));
  lp_sport : read_bytes m (data m) 2 = Ok (hton16 (port src));
  lp_dport : read_bytes m (data m + 2) 2 = Ok (hton16 (port dst));
  lp_src : in_u32 (ip src) /\ in_u16 (port src);
  lp_dst : in_u32 (ip dst) /\ in_u16 (port dst);
}.

Lemma parse_l4_packet m p src dst : l4_packet m p src dst -> forall t,
  parse_l4 (set_transport_off t m) =
    Ok (if (negb (p =? IPPROTO_UDP) && negb (p =? IPPROTO_TCP)) || (mbuf_length m <? 4) then None else Some (p, dst, src)).
Proof.
  intros [H1 H2 H3 H4 H5 [H6 H7] [H8 H9]] t. unfold parse_l4, read8, read16, read32.
  change (read_bytes (set_transport_off t m)) with (read_bytes m). change (network_off (set_transport_off t m)) with (network_off m).
  change (data (set_transport_off t m)) with (data m). change (mbuf_length (set_transport_off t m)) with (mbuf_length m).
  rewrite H1. cbn [mbind res_bind]. destruct (_ && _); [done|]. destruct (mbuf_length m <? 4); [done|].
  rewrite H3, H5, H2, H4. unfold hton16, hton32. cbn [mbind res_bind orb]. rewrite !be32_hton32, !be16_hton16 by done. by destruct src, dst.
Qed.

Definition l4_proto (p : Z) : Prop := p = IPPROTO_UDP \/ p = IPPROTO_TCP.

(** What [net_rx_trans] does with a packet that matches [r]. *)
Definition delivery (p : Z) (r : option trans_entry) (m : mbuf) : list rx_event :=
  match r with Some e => [Recv e m] | None => (if p =? IPPROTO_TCP then [RxClosed m] else []) ++ [Freed m] end.

(** C12.  Whatever the hash values, after any sequence of additions and removals, a
    packet from [src] to [dst] is looked up with its destination as the local and its
    source as the remote address: a UDP or TCP packet that has its ports matches the entry
    for its protocol, local and remote address if there is one, otherwise the entry for
    its protocol and local address if there is one, and otherwise none; shorter packets
    and packets of other protocols match none.  [net_rx_trans] gives each packet in turn
    to the entry it matches, and frees the others, TCP packets after [tcp_rx_closed] has
    seen them. *)
Theorem trans_lookup_correct s m p src dst :
  trans_reachable s -> l4_packet m p src dst -> data m <= USHRT_MAX ->
  exists r, trans_lookup m s = Ok (r, set_transport_off (data m) m) /\
    (l4_proto p -> 4 <= mbuf_length m -> forall e, r = Some e <->
       holds s e /\ (is5 p dst src e \/ is3 p dst e /\ forall x, holds s x -> ~ is5 p dst src x)) /\
    (~ l4_proto p \/ mbuf_length m < 4 -> r = None) /\
    (forall ms evs, net_rx_trans ms s = Ok evs ->
       net_rx_trans (m :: ms) s = Ok (delivery p r (set_transport_off (data m) m) ++ evs)).
Proof.
  intros Hs%trans_reachable_ok Hm Hd. assert (Hp := parse_l4_packet m p src dst Hm (data m)).
  set (q := (negb (p =? IPPROTO_UDP) && negb (p =? IPPROTO_TCP)) || (mbuf_length m <? 4)) in *.
  assert (Hq : q = true <-> ~ l4_proto p \/ mbuf_length m < 4).
  { unfold q, l4_proto. rewrite orb_true_iff, andb_true_iff, !negb_true_iff, !Z.eqb_neq, Z.ltb_lt. tauto. }
  set (r := if q then None else table_lookup p dst src s).
  assert (El : trans_lookup m s = Ok (r, set_transport_off (data m) m)).
  { unfold trans_lookup, mbuf_mark_transport_offset. rewrite Z.gtb_ltb, (proj2 (Z.ltb_ge _ _)) by done. cbn [BUG_ON mbind res_bind]. rewrite Hp. subst r. by destruct q. }
  exists r. split; [done|]. split_and!.
  - subst r. intros H1 H2 e. destruct q; [|by apply table_lookup_iff]. destruct Hq as [[Hq|Hq] _]; [done|done|lia].
  - subst r. intros Hn. by rewrite (proj2 Hq Hn).
  - intros ms evs E. cbn [net_rx_trans]. rewrite El. cbn [mbind res_bind]. unfold delivery. clearbody r. destruct r as [e|]; cbn [mbind res_bind].
    + rewrite E. reflexivity.
    + unfold read8. change (read_bytes (set_transport_off (data m) m)) with (read_bytes m). change (network_off (set_transport_off (data m) m)) with (network_off m).
      rewrite (lp_proto _ _ _ _ Hm). cbn [mbind res_bind]. rewrite E. reflexivity.
Qed.

(** [trans_table_add] returns [-EINVAL] exactly for local port zero,
    [-EADDRINUSE] exactly when an entry with the same key is in the table, and
    otherwise 0 with the entry added to what the table held; [trans_table_remove]
    takes exactly the entry out. *)
Theorem trans_table_add_remove s e :
  trans_reachable s ->
  (let '(ret, s') := trans_table_add e s in
   (ret = - EINVAL <-> port (laddr e) = 0) /\
   (ret = - EADDRINUSE <-> port (laddr e) <> 0 /\ exists x, holds s x /\ same_key e x) /\
   (ret <> 0 -> s' = s) /\
   (ret = 0 -> forall x, holds s' x <-> x = e \/ holds s x)) /\
  (forall x, holds (trans_table_remove (eid e) s) x <-> holds s x /\ eid x <> eid e).
Proof.
  intros Hs%trans_reachable_ok. split; [|by apply trans_table_remove_ok].
  destruct (trans_table_add_cases e s Hs)
    as [[-> Hp]|[(-> & Hp & Hc)|(s' & -> & Hp & Hno & _ & Hh)]]; unfold EINVAL, EADDRINUSE.
  - split_and!; [done| |done|done]. split; [done|]. by intros [? _].
  - split_and!; [|done|done|done]. by split.
  - split_and!; [by split| |done|done]. split; [done|]. intros [_ (x & Hx & Hk)]. by destruct (Hno x Hx).
Qed.

(**  [trans_table_add_with_ephemeral_port] gives a 5-tuple entry a port of the
    ephemeral range that no entry with the same protocol and other addresses uses,
    and returns [-EADDRNOTAVAIL] only when every port of the range is taken; a
    3-tuple entry is refused. *)
Theorem trans_ephemeral_correct s e :
  trans_reachable s ->
  let '(ret, e', s') := trans_table_add_with_ephemeral_port e s in
  match match_ e with
  | TRANS_MATCH_3TUPLE => ret = - EINVAL /\ e' = e /\ s' = s
  | TRANS_MATCH_5TUPLE =>
      (ret = 0 /\ (exists p, e' = set_port e p /\ MIN_EPHEMERAL <= p <= MAX_EPHEMERAL) /\
        (forall x, holds s x -> ~ same_key e' x) /\
        (forall x, holds s' x <-> x = e' \/ holds s x)) \/
      (ret = - EADDRNOTAVAIL /\ s' = s /\
        forall p, MIN_EPHEMERAL <= p <= MAX_EPHEMERAL -> exists x, holds s x /\ same_key (set_port e p) x)
  end.
Proof.
  intros Hs%trans_reachable_ok. destruct (match_ e) eqn:E.
  - unfold trans_table_add_with_ephemeral_port. by rewrite E.
  - destruct (trans_add_ephemeral_cases e s Hs E) as [(p & s' & -> & Hp & _ & Hno & Hh)|(e' & -> & H)].
    + left. split_and!; auto. by exists p.
    + right. auto.
Qed.

(**  [net_error] passes egress packets to [trans_error], which takes the
    destination of a packet for the local address.  So for a packet that the
    connection [e] sent, from [laddr e] to [raddr e], the error is reported to no
    one unless something listens on the peer's address as if it were local. *)
Theorem trans_error_misses_sender s m e :
  trans_reachable s -> holds s e -> data m <= USHRT_MAX ->
  parse_l4 (set_transport_off (data m) m) = Ok (Some (proto e, raddr e, laddr e)) ->
  (forall x, holds s x -> laddr x <> raddr e) ->
  trans_error m s = Ok None.
Proof.
  intros Hs%trans_reachable_ok He Hd Hp Hno. unfold trans_error, trans_lookup, mbuf_mark_transport_offset.
  rewrite Z.gtb_ltb, (proj2 (Z.ltb_ge _ _)) by done. cbn. rewrite Hp. cbn. f_equal.
  destruct (table_lookup _ _ _ s) as [x|] eqn:E; [|done].
  apply table_lookup_iff in E as [Hx [(_ & _ & H & _)|[(_ & _ & H) _]]]; try done; by destruct (Hno x Hx).
Qed.
End trans.

(** ** Witnesses *)

(** A listener on port 80 and a connection of it, under a hash that puts all keys
    in one bucket. *)
Definition crc0 (_ _ : Z) : Z := 7.
Definition lo : netaddr := Netaddr 167772161 80.
Definition peer : netaddr := Netaddr 167772162 5000.
Definition listener : trans_entry := trans_init_3tuple 1 IPPROTO_TCP lo (Netaddr 0 0).
Definition conn : trans_entry := trans_init_5tuple 2 IPPROTO_TCP lo peer.
Definition table2 : ttable :=
  (trans_table_add crc0 0 conn (trans_table_add crc0 0 listener trans_init).2).2.

Lemma table1_holds x : holds (trans_table_add crc0 0 listener trans_init).2 x -> x = listener.
Proof.
  intros [i Hi]. unfold bucket in Hi. change (tbl _) with ({[7 := [listener]]} : gmap Z (list trans_entry)) in Hi.
  destruct (decide (7 = i)) as [<-|]; [|rewrite lookup_singleton_ne in Hi by done; inversion Hi].
  rewrite lookup_singleton_eq in Hi. by apply list_elem_of_singleton in Hi.
Qed.

Lemma table2_reachable : trans_reachable crc0 0 table2.
Proof.
  apply trans_reach_add; [apply trans_reach_add; [constructor|]|].
  - intros x [i Hi]. unfold bucket in Hi. cbn in Hi. rewrite lookup_empty in Hi. inversion Hi.
  - intros x ->%table1_holds. done.
Qed.

Lemma table2_holds x : holds table2 x <-> x = conn \/ x = listener.
Proof.
  assert (E : tbl table2 = {[7 := [conn; listener]]}) by (vm_compute; reflexivity).
  unfold holds, bucket. rewrite E. split.
  - intros [i Hi]. destruct (decide (7 = i)) as [<-|]; [|rewrite lookup_singleton_ne in Hi by done; inversion Hi].
    rewrite lookup_singleton_eq in Hi. cbn in Hi. set_solver.
  - intros H. exists 7. rewrite lookup_singleton_eq. cbn. set_solver.
Qed.

(** A TCP packet from the peer to the connection: the addresses 10.0.0.2 and 10.0.0.1,
    the ports 5000 and 80. *)
Definition ingress : mbuf :=
  Mbuf ([69; 0; 0; 24; 0; 0; 0; 0; 64; 6; 0; 0; 10; 0; 0; 2; 10; 0; 0; 1] ++ [19; 136; 0; 80])
    20 2048 4 0 0 0 0 0.

Lemma trans_lookup_correct_witness :
  l4_packet ingress IPPROTO_TCP peer lo /\ trans_lookup crc0 0 ingress table2 = Ok (Some conn, set_transport_off 20 ingress) /\
  net_rx_trans crc0 0 [ingress] table2 = Ok [Recv conn (set_transport_off 20 ingress)].
Proof.
  assert (Hp : l4_packet ingress IPPROTO_TCP peer lo) by (split; by vm_compute). split; [exact Hp|].
  destruct (trans_lookup_correct crc0 0 table2 ingress IPPROTO_TCP peer lo table2_reachable Hp) as (r & E & H & _ & Hn); [by vm_compute|].
  assert (Er : r = Some conn).
  { apply H; [by right|by vm_compute|]. split; [apply table2_holds; by left|]. left. by repeat split. }
  rewrite Er in E, Hn. split; [exact E|]. exact (Hn [] [] eq_refl).
Defined.

Lemma trans_table_add_remove_witness : (trans_table_add crc0 0 conn table2).1 = - EADDRINUSE.
Proof.
  destruct (trans_table_add_remove crc0 0 table2 conn table2_reachable) as [H _].
  destruct (trans_table_add crc0 0 conn table2) as [ret s'].
  destruct H as (_ & H & _). apply H. split; [done|]. exists conn. split; [apply table2_holds; by left|].
  by repeat split.
Defined.

Lemma trans_ephemeral_correct_witness :
  (trans_table_add_with_ephemeral_port crc0 0 listener table2).1.1 = - EINVAL.
Proof.
  assert (H := trans_ephemeral_correct crc0 0 table2 listener table2_reachable).
  destruct (trans_table_add_with_ephemeral_port crc0 0 listener table2) as [[ret e'] s'].
  destruct H as [H _]. exact H.
Defined.

(** A packet from the connection to its peer: version and protocol bytes, the
    addresses 10.0.0.1 and 10.0.0.2, the ports 80 and 5000. *)
Definition egress : mbuf :=
  Mbuf ([69; 0; 0; 24; 0; 0; 0; 0; 64; 6; 0; 0; 10; 0; 0; 1; 10; 0; 0; 2] ++ [0; 80; 19; 136])
    20 2048 4 0 0 0 0 0.

Lemma trans_error_misses_sender_witness : trans_error crc0 0 egress table2 = Ok None.
Proof.
  apply (trans_error_misses_sender crc0 0 table2 egress conn table2_reachable).
  - apply table2_holds. by left.
  - vm_compute. discriminate.
  - vm_compute. reflexivity.
  - intros x [-> | ->]%table2_holds; discriminate.
Defined.
