(* ===== verification/Chksum.v ===== *)
(** * inc/asm/chksum.h, inc/net/chksum.h: internet checksums

    [chksum_internet] is the assembly routine: 64-bit additions with carry over the
    buffer, then folding.  [__raw_cksum] adds 16-bit words.  Both are compared with
    the definition of RFC 1071: the one's complement of the one's complement sum of
    the 16-bit words (in the byte order of the machine, little endian). *)

From S2P Require Import Prelude Mbuf.

(** ** Definitions *)

Definition load16 (l : list Z) : Z :=
  match l with a :: b :: _ => a + 256 * b | [a] => a | [] => 0 end.

(** A little-endian load of the bytes [l]. *)
Fixpoint load_le (l : list Z) : Z :=
  match l with [] => 0 | a :: l => a + 256 * load_le l end.

(** [addq x, sum; adcq $0, sum]. *)
Definition add_adc (sum x : Z) : Z := u64 (u64 (sum + x) + (sum + x) / M64).

(** The loop over 8-byte chunks: [adcq], with the carry flag [c]. *)
Fixpoint sum_chunks (n : nat) (l : list Z) (sum c : Z) : Z * Z * list Z :=
  match n with
  | O => (sum, c, l)
  | S n => let s := sum + load_le (take 8 l) + c in sum_chunks n (drop 8 l) (u64 s) (s / M64)
  end.

Definition sum_tail (k : nat) (len : Z) (sl : Z * list Z) : Z * list Z :=
  if Z.testbit len (Z.of_nat (Nat.log2 k))
  then (add_adc sl.1 (load_le (take k sl.2)), drop k sl.2) else sl.

(** The fold of the 64-bit sum into 16 bits, and the complement. *)
Definition fold_sum (sum : Z) : Z :=
  let s32' := u32 sum + sum / M32 in
  let a := u32 (u32 s32' + s32' / M32) in
  let s16' := u16 a + a / M16 in
  u16 (u16 s16' + s16' / M16).

Definition chksum_internet (l : list Z) : Z :=
  let len := Z.of_nat (length l) in
  let '(sum, c, r) := sum_chunks (Z.to_nat (Z.shiftr len 3)) l 0 0 in
  let '(sum, _) := sum_tail 1 len (sum_tail 2 len (sum_tail 4 len (u64 (sum + c), r))) in
  u16 (65535 - fold_sum sum).

(** [__raw_cksum] with its 32-bit sum. *)
Fixpoint __raw_cksum (l : list Z) (sum : Z) : Z :=
  match l with
  | a :: b :: l => __raw_cksum l (u32 (sum + (a + 256 * b)))
  | [a] => u32 (sum + a)
  | [] => sum
  end.

Definition __raw_cksum_reduce (sum : Z) : Z :=
  let sum := u32 (Z.shiftr (Z.land sum 4294901760) 16 + Z.land sum 65535) in
  let sum := u32 (Z.shiftr (Z.land sum 4294901760) 16 + Z.land sum 65535) in
  u16 sum.

Definition raw_cksum (l : list Z) : Z := __raw_cksum_reduce (__raw_cksum l 0).

Definition ipv4_phdr_cksum (proto saddr daddr l4len : Z) : Z :=
  raw_cksum (hton32 saddr ++ hton32 daddr ++ [0; proto] ++ hton16 l4len).

Definition ipv4_udptcp_cksum (proto saddr daddr : Z) (l4 : list Z) : Z :=
  let cksum := u32 (raw_cksum l4 + ipv4_phdr_cksum proto saddr daddr (u16 (Z.of_nat (length l4)))) in
  let cksum := u32 (Z.shiftr (Z.land cksum 4294901760) 16 + Z.land cksum 65535) in
  let cksum := Z.land (u32 (Z.lnot cksum)) 65535 in
  if cksum =? 0 then 65535 else cksum.

(** ** The reference *)

(** The sum of the 16-bit words. *)
Fixpoint sum16 (l : list Z) : Z :=
  match l with a :: b :: l => a + 256 * b + sum16 l | [a] => a | [] => 0 end.

(** The one's complement sum: 0 only for the sum 0, else in [1, 65535]. *)
Definition ones_sum (s : Z) : Z := if s =? 0 then 0 else (s - 1) mod 65535 + 1.

Definition bytes (l : list Z) : Prop := Forall (fun b => 0 <= b < 256) l.

Lemma load_le_range l : bytes l -> 0 <= load_le l < 256 ^ Z.of_nat (length l).
Proof.
  unfold bytes. induction 1 as [|b l Hb _ IH]; cbn -[Z.pow Z.of_nat]; [done|].
  rewrite Nat2Z.inj_succ, Z.pow_succ_r by lia. lia.
Qed.

Lemma list_ind2 {A} (P : list A -> Prop) :
  P [] -> (forall a, P [a]) -> (forall a b l, P l -> P (a :: b :: l)) -> forall l, P l.
Proof.
  intros H0 H1 H2. fix IH 1. intros [|a [|b l]]; [exact H0|apply H1|apply H2, IH].
Qed.

Lemma sum16_nonneg l : bytes l -> 0 <= sum16 l.
Proof.
  induction l as [|a|a b l IH] using list_ind2; cbn; intros H; [done|by inversion H; lia|].
  apply Forall_cons_1 in H as [? H]. apply Forall_cons_1 in H as [? H]. specialize (IH H). lia.
Qed.

(** [s] stands for the sum [S]: the same residue, and zero only for zero. *)
Record rep (s S : Z) : Prop := {
  rep_lo : 0 <= s;
  rep_hi : 0 <= S;
  rep_mod : exists k, s = S + 65535 * k;
  rep_zero : s = 0 <-> S = 0;
}.

Lemma load_le_rep l : bytes l -> rep (load_le l) (sum16 l).
Proof.
  induction l as [|a|a b l IH] using list_ind2; intros H.
  - split; cbn; try done. by exists 0.
  - apply Forall_cons_1 in H as [? _]. split; cbn; [lia..| |lia]. exists 0. lia.
  - apply Forall_cons_1 in H as [? H]. apply Forall_cons_1 in H as [? H]. destruct (IH H) as [? ? [k ?] ?].
    split; cbn -[Z.mul]; [lia..| |lia]. exists (k + load_le l). lia.
Qed.

(** Addition with the carry added back, in a word of modulus [M]. *)
Lemma end_around M s x S X :
  0 < M -> (exists k, M - 1 = 65535 * k) -> rep s S -> rep x X -> s < M -> x < M ->
  let r := (s + x) mod M + (s + x) / M in rep r (S + X) /\ r < M.
Proof.
  intros HM [q Hq] [? ? [k1 Hk1] ?] [? ? [k2 Hk2] ?] Hs Hx. cbn -[Z.modulo Z.div].
  destruct (Z.ltb_spec (s + x) M) as [Hl|Hl].
  - rewrite Z.mod_small, Z.div_small by lia. split; [|lia]. split; [lia..| |lia]. exists (k1 + k2). lia.
  - assert ((s + x) / M = 1) as Hd by (symmetry; apply (Z.div_unique _ _ _ (s + x - M)); lia).
    rewrite Z.mod_eq, Hd by lia. split; [|lia]. split; [lia..| |lia]. exists (k1 + k2 - q). lia.
Qed.

Lemma M64_65535 : exists k, M64 - 1 = 65535 * k.
Proof. exists 281479271743489. done. Qed.
Lemma M32_65535 : exists k, M32 - 1 = 65535 * k.
Proof. exists 65537. done. Qed.
Lemma M16_65535 : exists k, M16 - 1 = 65535 * k.
Proof. by exists 1. Qed.

Lemma add_adc_rep s x S X :
  rep s S -> rep x X -> s < M64 -> x < M64 -> rep (add_adc s x) (S + X) /\ add_adc s x < M64.
Proof.
  intros Hs Hx H1 H2. destruct (end_around M64 s x S X ltac:(done) M64_65535 Hs Hx H1 H2) as [Hr Hl].
  unfold add_adc. fold (u64 (s + x)) in Hr, Hl. rewrite u64_id; [done|]. destruct Hr. unfold in_u64. lia.
Qed.

Lemma load8_small n l : bytes l -> (n <= 8)%nat -> load_le (take n l) < M64.
Proof.
  intros H Hn. assert (Hr := load_le_range (take n l) ltac:(by apply Forall_take)).
  eapply Z.lt_le_trans; [apply Hr|]. change M64 with (256 ^ 8). apply Z.pow_le_mono_r; [lia|].
  rewrite length_take. lia.
Qed.

Lemma sum_chunks_rep n l sum c S :
  bytes l -> rep (sum + c) S -> sum + c < M64 -> 0 <= sum -> 0 <= c ->
  (8 * n <= length l)%nat ->
  let '(sum', c', r) := sum_chunks n l sum c in
  rep (sum' + c') (S + sum16 (take (8 * n) l)) /\ sum' + c' < M64 /\ r = drop (8 * n) l.
Proof.
  revert l sum c S. induction n as [|n IH]; intros l sum c S Hb Hr Hl Hs Hc Hn.
  { cbn. rewrite Z.add_0_r. by split_and!. }
  cbn [sum_chunks]. set (w := load_le (take 8 l)).
  assert (Hw : rep w (sum16 (take 8 l))) by (apply load_le_rep; by apply Forall_take).
  destruct (end_around M64 (sum + c) w S _ ltac:(done) M64_65535 Hr Hw Hl) as [Hr' Hl'];
    [by apply load8_small|].
  replace (sum + c + w) with (sum + w + c) in Hr', Hl' by lia. fold (u64 (sum + w + c)) in Hr', Hl'.
  assert (Hrep := rep_lo _ _ Hw).
  specialize (IH (drop 8 l) (u64 (sum + w + c)) ((sum + w + c) / M64) (S + sum16 (take 8 l))).
  destruct (sum_chunks n _ _ _) as [[sum' c'] r]. destruct IH as (IH1 & IH2 & IH3); auto.
  - by apply Forall_drop.
  - apply u64_range.
  - apply Z.div_pos; [lia|done].
  - rewrite length_drop. lia.
  - split_and!; [|done|].
    + replace (8 * Datatypes.S n)%nat with (8 + 8 * n)%nat by lia.
      rewrite <- Z.add_assoc in IH1. replace (sum16 (take (8 + 8 * n) l)) with
        (sum16 (take 8 l) + sum16 (take (8 * n) (drop 8 l))); [done|].
      clear - Hn. assert (8 <= length l)%nat by lia. generalize (8 * n)%nat as k. intros k.
      do 8 (destruct l as [|? l]; [cbn in *; lia|]). cbn -[Z.mul Z.add]. rewrite drop_0. change (sum16 (take 0 l)) with 0. lia.
    + rewrite IH3, drop_drop. f_equal. lia.
Qed.

(** Adding the two halves of a word, with the carry added back. *)
Lemma fold_half M s S :
  1 < M -> (exists k, M - 1 = 65535 * k) -> rep s S -> s < M * M ->
  let a := s mod M + s / M in
  let r := a mod M + a / M in rep r S /\ r < M.
Proof.
  intros HM Hq Hr Hl. assert (Hs := rep_lo _ _ Hr).
  assert (Hm := Z.mod_pos_bound s M ltac:(lia)). assert (Hd := Z.div_pos s M Hs ltac:(lia)).
  assert (E := Z.div_mod s M ltac:(lia)). assert (Hh : s / M < M) by (apply Z.div_lt_upper_bound; lia).
  cbn -[Z.modulo Z.div]. rewrite <- (Z.add_0_r S).
  destruct Hr as [? ? [k Hk] Hz].
  destruct (Z.eqb_spec S 0) as [HS|HS].
  { assert (s = 0) as -> by tauto. rewrite Z.mod_0_l, Z.div_0_l by lia. cbn.
    subst S. split; [split; try done; by exists 0|lia]. }
  destruct Hq as [q Hq].
  assert (rep (s mod M + s / M) S) as Ha.
  { split; [lia..| |nia]. exists (k - q * (s / M)). nia. }
  set (a := s mod M + s / M) in *. assert (a < 2 * M - 1) by lia. destruct Ha as [? ? [k' Hk'] ?].
  rewrite Z.add_0_r. destruct (Z.ltb_spec a M).
  - rewrite Z.mod_small, Z.div_small by lia. split; [|lia]. split; [lia..| |lia]. exists k'. lia.
  - assert (a / M = 1) as Ed by (symmetry; apply (Z.div_unique _ _ _ (a - M)); lia).
    rewrite Z.mod_eq, Ed by lia. split; [|lia]. split; [lia..| |lia]. exists (k' - q). lia.
Qed.

Lemma rep_ones s S : rep s S -> s < M16 -> s = ones_sum S.
Proof.
  intros [? ? [k Hk] Hz] Hl. unfold ones_sum. destruct (Z.eqb_spec S 0) as [E|E]; [tauto|].
  assert (s - 1 = (S - 1) mod 65535); [|lia].
  apply (Z.mod_unique _ _ (- k)); unfold M16 in *; lia.
Qed.

Lemma fold_sum_ones s S : rep s S -> s < M64 -> fold_sum s = ones_sum S.
Proof.
  intros Hr Hl. unfold fold_sum.
  destruct (fold_half M32 s S ltac:(done) M32_65535 Hr Hl) as [Hr1 Hl1].
  set (r1 := _ + _ / M32) in Hr1, Hl1.
  assert (E1 : u32 (u32 (u32 s + s / M32) + (u32 s + s / M32) / M32) = r1).
  { apply u32_id. destruct Hr1. by split. }
  rewrite E1. destruct (fold_half M16 r1 S ltac:(done) M16_65535 Hr1 Hl1) as [Hr2 Hl2].
  set (r2 := _ + _ / M16) in Hr2, Hl2.
  assert (E2 : u16 (u16 (u16 r1 + r1 / M16) + (u16 r1 + r1 / M16) / M16) = r2).
  { apply Z.mod_small. destruct Hr2. by split. }
  rewrite E2. by apply rep_ones.
Qed.

(** ** Properties *)

Lemma sum16_app l1 l2 : (exists k, length l1 = 2 * k)%nat -> sum16 (l1 ++ l2) = sum16 l1 + sum16 l2.
Proof.
  induction l1 as [|a|a b l1 IH] using list_ind2; intros [k Hk]; cbn in *; [done|lia|].
  rewrite IH; [lia|]. exists (k - 1)%nat. lia.
Qed.

(** The tail of the buffer, after the 8-byte chunks: 4, 2 and 1 bytes as the low
    bits of the length say. *)
Lemma sum_tail_rep k len s l S rest :
  bytes l -> (k <= 8)%nat -> (k = 1 \/ exists j, k = 2 * j)%nat ->
  rep s S -> s < M64 ->
  length l = ((if Z.testbit len (Z.of_nat (Nat.log2 k)) then k else 0) + rest)%nat ->
  (k = 1%nat -> rest = 0%nat) ->
  let '(s', l') := sum_tail k len (s, l) in
  exists S', rep s' S' /\ s' < M64 /\ S + sum16 l = S' + sum16 l' /\ length l' = rest /\ bytes l'.
Proof.
  intros Hb Hk Hk' Hr Hs Hl Hrest. unfold sum_tail. cbn [fst snd].
  destruct (Z.testbit len _); [|exists S; by split_and!].
  destruct (add_adc_rep s (load_le (take k l)) S (sum16 (take k l))) as [Hr' Hs']; auto.
  { apply load_le_rep. by apply Forall_take. }
  { by apply load8_small. }
  exists (S + sum16 (take k l)). split_and!; auto.
  - rewrite <- (take_drop k l) at 1. destruct Hk' as [-> | [j ->]].
    + specialize (Hrest eq_refl). subst rest. destruct l as [|a [|]]; cbn in *; lia.
    + rewrite sum16_app; [lia|]. exists j. rewrite length_take. lia.
  - rewrite length_drop. lia.
  - by apply Forall_drop.
Qed.

Lemma len_bits n :
  (n = 8 * Z.to_nat (Z.shiftr (Z.of_nat n) 3) +
    ((if Z.testbit (Z.of_nat n) 2 then 4 else 0) +
     ((if Z.testbit (Z.of_nat n) 1 then 2 else 0) + ((if Z.testbit (Z.of_nat n) 0 then 1 else 0) + 0))))%nat.
Proof.
  rewrite Z.shiftr_div_pow2, !Z.testbit_eqb by lia. change (2 ^ 3) with 8. change (2 ^ 2) with 4.
  change (2 ^ 1) with 2. change (2 ^ 0) with 1. rewrite Z.div_1_r.
  bdestruct; Z.to_euclidean_division_equations; lia.
Qed.

Lemma chksum_internet_ones l :
  bytes l -> chksum_internet l = 65535 - ones_sum (sum16 l).
Proof.
  intros Hb. unfold chksum_internet.
  set (n := Z.to_nat (Z.shiftr (Z.of_nat (length l)) 3)).
  assert (Hn := len_bits (length l)). fold n in Hn.
  assert (Hc := sum_chunks_rep n l 0 0 0 Hb ltac:(split; try done; by exists 0) ltac:(done) ltac:(done)
    ltac:(done) ltac:(lia)).
  destruct (sum_chunks n l 0 0) as [[sum c] r]. destruct Hc as (Hr & Hl & ->).
  assert (Hu : u64 (sum + c) = sum + c) by (apply u64_id; destruct Hr; by split). rewrite Hu.
  set (len := Z.of_nat (length l)) in *.
  assert (Hd : bytes (drop (8 * n) l)) by by apply Forall_drop.
  assert (Hl0 := length_drop l (8 * n)). rewrite Hn in Hl0 at 1. rewrite Nat.add_comm, Nat.add_sub in Hl0.
  assert (H4 := sum_tail_rep 4 len (sum + c) _ _ _ Hd ltac:(lia) ltac:(right; by exists 2%nat) Hr Hl Hl0 ltac:(done)).
  destruct (sum_tail 4 len _) as [s4 l4]. destruct H4 as (S4 & Hr4 & Hs4 & E4 & Hl4 & Hb4).
  assert (H2 := sum_tail_rep 2 len s4 l4 S4 _ Hb4 ltac:(lia) ltac:(right; by exists 1%nat) Hr4 Hs4 Hl4 ltac:(done)).
  destruct (sum_tail 2 len _) as [s2 l2]. destruct H2 as (S2 & Hr2 & Hs2 & E2 & Hl2 & Hb2).
  assert (H1 := sum_tail_rep 1 len s2 l2 S2 _ Hb2 ltac:(lia) ltac:(by left) Hr2 Hs2 Hl2 ltac:(done)).
  destruct (sum_tail 1 len _) as [s1 l1]. destruct H1 as (S1 & Hr1 & Hs1 & E1 & Hl1 & _).
  destruct l1; [|done]. cbn in E1.
  rewrite (fold_sum_ones s1 S1 Hr1 Hs1).
  assert (S1 = sum16 l) as ->.
  { rewrite <- (take_drop (8 * n) l), sum16_app; [lia|]. exists (4 * n)%nat. rewrite length_take. lia. }
  apply Z.mod_small. unfold ones_sum, M16. destruct (Z.eqb_spec (sum16 l) 0); [lia|].
  assert (Hm := Z.mod_pos_bound (sum16 l - 1) 65535 ltac:(lia)). lia.
Qed.

Lemma raw_cksum_sum l sum :
  bytes l -> 0 <= sum -> sum + sum16 l < M32 -> __raw_cksum l sum = sum + sum16 l.
Proof.
  revert sum. induction l as [|a|a b l IH] using list_ind2; intros sum Hb Hs Hm; cbn -[Z.mul Z.add] in *.
  - lia.
  - apply Forall_cons_1 in Hb as [? _]. apply u32_id. split; lia.
  - apply Forall_cons_1 in Hb as [? Hb]. apply Forall_cons_1 in Hb as [? Hb].
    assert (Hn := sum16_nonneg l Hb). rewrite u32_id by (split; lia). rewrite IH; auto; lia.
Qed.

Lemma sum16_bound l : bytes l -> sum16 l <= 65535 * ((Z.of_nat (length l) + 1) / 2).
Proof.
  induction l as [|a|a b l IH] using list_ind2; intros Hb; cbn -[Z.mul Z.add Z.div] in *; [done|..].
  - apply Forall_cons_1 in Hb as [? _]. change ((Z.of_nat 1 + 1) / 2) with 1. lia.
  - apply Forall_cons_1 in Hb as [? Hb]. apply Forall_cons_1 in Hb as [? Hb]. specialize (IH Hb).
    replace (Z.of_nat (S (S (length l))) + 1) with (Z.of_nat (length l) + 1 + 1 * 2) by lia. rewrite Z.div_add by lia. lia.
Qed.

(** One fold of [__raw_cksum_reduce]. *)
Lemma fold_step s :
  in_u32 s -> u32 (Z.shiftr (Z.land s 4294901760) 16 + Z.land s 65535) = s / 65536 + s mod 65536.
Proof.
  intros Hs. change 65535 with (Z.ones 16). rewrite Z.land_ones, Z.shiftr_land by lia.
  change (Z.shiftr 4294901760 16) with (Z.ones 16). rewrite Z.land_ones, Z.shiftr_div_pow2 by lia.
  change (2 ^ 16) with 65536. ulia.
Qed.

Lemma raw_cksum_reduce_ones s : in_u32 s -> __raw_cksum_reduce s = ones_sum s.
Proof.
  intros Hs. unfold __raw_cksum_reduce. cbv zeta; rewrite (fold_step s) by done.
  rewrite fold_step by ulia. unfold ones_sum.
  destruct (Z.eqb_spec s 0) as [->|]; [done|]. ulia.
Qed.

Lemma raw_cksum_ones l : bytes l -> Z.of_nat (length l) <= 131072 -> raw_cksum l = ones_sum (sum16 l).
Proof.
  intros Hb Hl. assert (Hn := sum16_nonneg l Hb). assert (Hm := sum16_bound l Hb).
  assert (sum16 l < M32).
  { eapply Z.le_lt_trans; [exact Hm|]. unfold M32. Z.to_euclidean_division_equations. lia. }
  unfold raw_cksum. rewrite raw_cksum_sum, Z.add_0_l by (auto; lia). apply raw_cksum_reduce_ones. by split.
Qed.

Lemma ones_sum_range s : 0 <= ones_sum s <= 65535.
Proof. unfold ones_sum. destruct (s =? 0); [lia|]. assert (H := Z.mod_pos_bound (s - 1) 65535). lia. Qed.

Lemma bytes_patch l1 l2 a b :
  bytes l1 -> bytes l2 -> 0 <= a < 256 -> 0 <= b < 256 -> bytes (l1 ++ [a; b] ++ l2).
Proof. intros ? ? ? ?. apply Forall_app. split; [done|]. constructor; [done|]. by constructor. Qed.

(** A checksum that is filled in makes the checksum of the whole zero. *)
Lemma chksum_patched l1 l2 :
  bytes l1 -> bytes l2 -> (exists k, length l1 = 2 * k)%nat ->
  let ck := chksum_internet (l1 ++ [0; 0] ++ l2) in
  chksum_internet (l1 ++ [ck mod 256; ck / 256] ++ l2) = 0.
Proof.
  intros H1 H2 He ck. assert (Hb := fun a b => bytes_patch l1 l2 a b H1 H2).
  assert (Hs : forall a b, sum16 (l1 ++ [a; b] ++ l2) = a + 256 * b + (sum16 l1 + sum16 l2)).
  { intros a b. rewrite sum16_app by done. cbn -[Z.mul]. lia. }
  assert (Hck : ck = 65535 - ones_sum (sum16 (l1 ++ [0; 0] ++ l2))) by (apply chksum_internet_ones; by apply Hb).
  assert (Hr := ones_sum_range (sum16 (l1 ++ [0; 0] ++ l2))).
  rewrite chksum_internet_ones by (apply Hb; Z.to_euclidean_division_equations; lia).
  rewrite Hs in *. assert (E : ck mod 256 + 256 * (ck / 256) = ck) by (assert (X := Z.div_mod ck 256); lia).
  rewrite E. assert (N1 := sum16_nonneg l1 H1). assert (N2 := sum16_nonneg l2 H2).
  revert Hck. unfold ones_sum. generalize (sum16 l1 + sum16 l2) (Z.add_nonneg_nonneg _ _ N1 N2).
  clear. intros S HS. destruct (Z.eqb_spec (0 + 256 * 0 + S) 0) as [|Hz]; intros ->.
  - replace S with 0 by lia. done.
  - destruct (Z.eqb_spec (65535 - ((0 + 256 * 0 + S - 1) mod 65535 + 1) + S) 0);
      Z.to_euclidean_division_equations; lia.
Qed.

(** C30.  The checksums are those of RFC 1071.  For every buffer the assembly routine
    computes the complement of the one's complement sum of its 16-bit words, an odd
    last byte counted as a word of its own; for buffers of up to 128 KB, where its
    32-bit accumulator does not overflow, the portable routine computes that sum; and
    a header of any length whose checksum field, at an even offset, holds what
    [chksum_internet] gave with the field zero is verified: its checksum is 0. *)
Theorem chksum_correct :
  (forall l, bytes l -> chksum_internet l = 65535 - ones_sum (sum16 l)) /\
  (forall l, bytes l -> Z.of_nat (length l) <= 131072 -> raw_cksum l = ones_sum (sum16 l)) /\
  (forall l1 l2, bytes l1 -> bytes l2 -> (exists k, length l1 = 2 * k)%nat ->
     let ck := chksum_internet (l1 ++ [0; 0] ++ l2) in
     chksum_internet (l1 ++ [ck mod 256; ck / 256] ++ l2) = 0).
Proof.
  split_and!; [exact chksum_internet_ones|exact raw_cksum_ones|exact chksum_patched].
Qed.

Lemma chksum_correct_witness :
  chksum_internet [69; 0; 0; 60; 28; 70; 64; 0; 64; 6; 177; 230; 172; 16; 10; 99; 172; 16; 10; 12] = 0 /\
  chksum_internet [1; 2; 3] = 65535 - ones_sum (513 + 3) /\ raw_cksum [1; 2; 3] = ones_sum (513 + 3).
Proof.
  destruct chksum_correct as (H1 & H2 & H3). split_and!.
  - apply (H3 [69; 0; 0; 60; 28; 70; 64; 0; 64; 6] [172; 16; 10; 99; 172; 16; 10; 12]); [repeat constructor; done..|by exists 5%nat].
  - apply (H1 [1; 2; 3]). repeat constructor; done.
  - apply (H2 [1; 2; 3]); [repeat constructor; done|done].
Defined.
