(* ===== verification/Arp.v ===== *)
(** * runtime/net/arp.c: address resolution

    The table maps IPv4 addresses to Ethernet addresses in hash chains; an entry
    queues the packets that wait for its address.  Packets of the other layers
    are identified by a number; what the code does with them, and the ARP packets
    it sends, are events.  The ARP packets themselves are bytes of an mbuf. *)

From S2P Require Import Prelude Mbuf.

Definition EHOSTUNREACH : Z := 113.
Definition EINPROGRESS : Z := 115.

Definition ARP_SEED : Z := 3565234771. (* 0xD4812A53 *)
Definition ARP_TABLE_CAPACITY : Z := 1024.
Definition ARP_RETRIES : Z := 3.
Definition ONE_SECOND : Z := 1000000.
Definition ARP_RETRY_TIME : Z := ONE_SECOND.
Definition ARP_REPROBE_TIME : Z := 10 * ONE_SECOND.
Definition ARP_HTYPE_ETHER : Z := 1.
Definition ETHTYPE_IP : Z := 2048.
Definition ARP_OP_REQUEST : Z := 1.
Definition ARP_OP_REPLY : Z := 2.

Definition eth_addr := list Z.
Definition eth_addr_broadcast : eth_addr := replicate 6 255.
Definition eth_addr_is_multicast (a : eth_addr) : bool := Z.testbit (default 0 (a !! 0%nat)) 0.

Inductive arp_state :=
| ARP_STATE_PROBING
| ARP_STATE_VALID
| ARP_STATE_VALID_BUT_REPROBING
| ARP_STATE_STATIC.

#[export] Instance arp_state_eq_dec : EqDecision arp_state.
Proof. solve_decision. Defined.

Record arp_entry := ArpEntry {
  state : arp_state;
  ip : Z;
  eth : eth_addr;
  q : list nat;
  ts : Z;
  tries_left : Z;
}.

(** What the code does besides changing the table. *)
Inductive arp_event :=
| ArpSend (op : Z) (dhost : eth_addr) (daddr : Z) (* arp_send(op, dhost, daddr) *)
| TxEth (m : nat) (dhost : eth_addr)             (* net_tx_eth_or_free(m, ETHTYPE_IP, dhost) *)
| NetError (m : nat) (err : Z)                   (* net_error(m, err) *)
| FreeMbuf (m : nat).                            (* mbuf_free(m) *)

Abbreviation arp_tbl := (gmap Z (list arp_entry)).
Definition chain (t : arp_tbl) (i : Z) : list arp_entry := default [] (t !! i).

Section arp.
(** The CRC32c instruction. *)
Context (crc32 : Z -> Z -> Z).

Definition hash_ip (a : Z) : Z := crc32 ARP_SEED a mod ARP_TABLE_CAPACITY.

Definition lookup_entry (idx daddr : Z) (t : arp_tbl) : option arp_entry :=
  find (fun e => ip e =? daddr) (chain t idx).

(** A write through the pointer [lookup_entry] returned: to the first entry of the
    chain with the address. *)
Fixpoint update_first (daddr : Z) (f : arp_entry -> arp_entry) (l : list arp_entry) : list arp_entry :=
  match l with
  | [] => []
  | e :: l => if ip e =? daddr then f e :: l else e :: update_first daddr f l
  end.

Definition update_entry (idx daddr : Z) (f : arp_entry -> arp_entry) (t : arp_tbl) : arp_tbl :=
  <[idx := update_first daddr f (chain t idx)]> t.

Definition insert_entry (e : arp_entry) (idx : Z) (t : arp_tbl) : arp_tbl :=
  <[idx := e :: chain t idx]> t.

(** [delete_entry]: the events; the entry leaves its chain. *)
Definition delete_entry (e : arp_entry) : list arp_event :=
  concat ((fun m => [NetError m EHOSTUNREACH; FreeMbuf m]) <$> q e).

(** [create_entry] when [smalloc] succeeds; [junk] is the uninitialised Ethernet
    address. *)
Definition create_entry (daddr now : Z) (junk : eth_addr) : arp_entry :=
  ArpEntry ARP_STATE_PROBING daddr junk [] now ARP_RETRIES.

(** [arp_age_entry] at time [now_us], with [now2] the time of the second reading of
    the clock; [None] when the entry is deleted. *)
Definition arp_age_entry (now_us now2 : Z) (e : arp_entry) : option arp_entry * list arp_event :=
  let timeout := if decide (state e = ARP_STATE_VALID) then ARP_REPROBE_TIME else ARP_RETRY_TIME in
  if u64 (now_us - ts e) <? timeout then (Some e, [])
  else
    let probe st tries :=
      (Some (ArpEntry st (ip e) (eth e) (q e) now2 tries),
       [ArpSend ARP_OP_REQUEST eth_addr_broadcast (ip e)]) in
    match state e with
    | ARP_STATE_PROBING | ARP_STATE_VALID_BUT_REPROBING =>
        if tries_left e =? 0 then (None, delete_entry e)
        else probe (state e) (tries_left e - 1)
    | ARP_STATE_VALID => probe ARP_STATE_VALID_BUT_REPROBING ARP_RETRIES
    | ARP_STATE_STATIC => (Some e, [])
    end.

Fixpoint age_chain (now_us : Z) (now2 : arp_entry -> Z) (l : list arp_entry)
    : list arp_entry * list arp_event :=
  match l with
  | [] => ([], [])
  | e :: l =>
      let '(r, ev) := arp_age_entry now_us (now2 e) e in
      let '(l, evs) := age_chain now_us now2 l in
      (option_list r ++ l, ev ++ evs)
  end.

(** One pass of [arp_worker] over the chains [i], [i + 1], ... *)
Fixpoint arp_worker_pass (n : nat) (i now_us : Z) (now2 : arp_entry -> Z) (t : arp_tbl)
    : arp_tbl * list arp_event :=
  match n with
  | O => (t, [])
  | S n =>
      let '(l, ev) := age_chain now_us now2 (chain t i) in
      let '(t, evs) := arp_worker_pass n (i + 1) now_us now2 (<[i := l]> t) in
      (t, ev ++ evs)
  end.

Definition arp_worker (now_us : Z) (now2 : arp_entry -> Z) (t : arp_tbl) : arp_tbl * list arp_event :=
  arp_worker_pass (Z.to_nat ARP_TABLE_CAPACITY) 0 now_us now2 t.

(** [arp_update]: [alloc] is [Some junk] when [smalloc] succeeds. *)
Definition arp_update (daddr : Z) (dhost : eth_addr) (alloc : option eth_addr) (now : Z) (t : arp_tbl)
    : arp_tbl * list arp_event :=
  let idx := hash_ip daddr in
  let set_valid e := ArpEntry ARP_STATE_VALID (ip e) dhost [] now (tries_left e) in
  match lookup_entry idx daddr t with
  | None =>
      match alloc with
      | None => (t, [])
      | Some junk => (update_entry idx daddr set_valid (insert_entry (create_entry daddr now junk) idx t), [])
      end
  | Some e =>
      if decide (state e = ARP_STATE_STATIC) then (t, [])
      else (update_entry idx daddr set_valid t, (fun m => TxEth m dhost) <$> q e)
  end.

(** *** Lookup

    The first search runs under RCU only, the second under the lock, so the table
    may change in between: [arp_lookup_fast] and [arp_lookup_slow]. *)

Inductive lookup_result :=
| Found (dhost : eth_addr)                (* 0, [dhost_out] written *)
| NoMem                                   (* -ENOMEM *)
| InProgress.                             (* -EINPROGRESS *)

(** The hot path, and what the cold path starts with: the new entry, if the first
    search found none. *)
Definition arp_lookup_fast (daddr : Z) (alloc : option eth_addr) (now : Z) (t : arp_tbl)
    : sum lookup_result (option arp_entry) * list arp_event :=
  match lookup_entry (hash_ip daddr) daddr t with
  | Some e =>
      if decide (state e = ARP_STATE_PROBING) then (inr None, []) else (inl (Found (eth e)), [])
  | None =>
      match alloc with
      | None => (inl NoMem, [ArpSend ARP_OP_REQUEST eth_addr_broadcast daddr])
      | Some junk => (inr (Some (create_entry daddr now junk)),
                      [ArpSend ARP_OP_REQUEST eth_addr_broadcast daddr])
      end
  end.

Definition push_q (m : option nat) (e : arp_entry) : arp_entry :=
  ArpEntry (state e) (ip e) (eth e) (q e ++ option_list m) (ts e) (tries_left e).

Definition arp_lookup_slow (daddr : Z) (newe : option arp_entry) (m : option nat) (t : arp_tbl)
    : lookup_result * arp_tbl * list arp_event :=
  let idx := hash_ip daddr in
  match lookup_entry idx daddr t, newe with
  | Some e, _ =>
      if decide (state e = ARP_STATE_PROBING)
      then (InProgress, update_entry idx daddr (push_q m) t, [])
      else (Found (eth e), t, [])
  | None, Some e => (InProgress, insert_entry (push_q m e) idx t, [])
  | None, None => (InProgress, t, FreeMbuf <$> option_list m)
  end.

(** The whole of [arp_lookup]; [others] is what other threads do to the table
    between the two searches. *)
Definition arp_lookup (daddr : Z) (m : option nat) (alloc : option eth_addr) (now : Z)
    (others : arp_tbl -> arp_tbl) (t : arp_tbl) : lookup_result * arp_tbl * list arp_event :=
  match arp_lookup_fast daddr alloc now t with
  | (inl r, ev) => (r, t, ev)
  | (inr newe, ev) =>
      let '(r, t, ev') := arp_lookup_slow daddr newe m (others t) in
      (r, t, ev ++ ev')
  end.

Definition arp_init : arp_tbl := ∅.

(** [arp_init_late] adds the configured entries; [None] for a failed allocation,
    which returns with the lock held. *)
Fixpoint arp_init_late (statics : list (Z * eth_addr)) (alloc : list (option eth_addr)) (now : Z)
    (t : arp_tbl) : option arp_tbl :=
  match statics, alloc with
  | [], _ => Some t
  | (a, mac) :: statics, Some junk :: alloc =>
      let e := create_entry a now junk in
      arp_init_late statics alloc now
        (insert_entry (ArpEntry ARP_STATE_STATIC (ip e) mac (q e) (ts e) (tries_left e)) (hash_ip a) t)
  | _, _ => None
  end.
End arp.

(** ** ARP packets *)

Record net_cfg := NetCfg { cfg_addr : Z; cfg_netmask : Z; cfg_gateway : Z; cfg_mac : eth_addr }.

(** The packet [arp_send] builds in the fresh mbuf [m]. *)
Definition arp_send (cfg : net_cfg) (op : Z) (dhost : eth_addr) (daddr : Z) (m : mbuf) : res mbuf :=
  m ← mbuf_append (hton16 ARP_HTYPE_ETHER ++ hton16 ETHTYPE_IP ++ [6] ++ [4] ++ hton16 op) m;
  mbuf_append (cfg_mac cfg ++ hton32 (cfg_addr cfg) ++ dhost ++ hton32 daddr) m.

(** What [net_rx_arp] does with a packet: nothing, or [arp_update] with the
    sender's addresses and a reply if it asks for ours. *)
Definition net_rx_arp (cfg : net_cfg) (m : mbuf) : res (option (Z * eth_addr * bool)) :=
  let '(h, m) := mbuf_pull_or_null 8 m in
  let '(h2, m) := mbuf_pull_or_null 20 m in
  match h, h2 with
  | Some h, Some h2 =>
      htype ← read16 m h;
      ptype ← read16 m (h + 2);
      hlen ← read8 m (h + 4);
      plen ← read8 m (h + 5);
      if negb (htype =? ARP_HTYPE_ETHER) || negb (ptype =? ETHTYPE_IP) || negb (hlen =? 6) || negb (plen =? 4)
      then Ok None
      else
        op ← read16 m (h + 6);
        sender_ip ← read32 m (h2 + 6);
        target_ip ← read32 m (h2 + 16);
        sender_mac ← read_bytes m h2 6;
        if eth_addr_is_multicast sender_mac then Ok None
        else Ok (Some (sender_ip, sender_mac, (cfg_addr cfg =? target_ip) && (op =? ARP_OP_REQUEST)))
  | _, _ => Ok None
  end.

(** ** The packets in the table *)

Definition entries (t : arp_tbl) : list arp_entry := concat (map_to_list t).*2.
Definition queued_in (l : list arp_entry) : list nat := concat (q <$> l).
Definition queued (t : arp_tbl) : list nat := queued_in (entries t).

(** The packets an event list has sent or freed. *)
Definition disposed (ev : list arp_event) : list nat :=
  concat ((fun e => match e with TxEth m _ | FreeMbuf m => [m] | _ => [] end) <$> ev).

Arguments queued_in : simpl never.
Arguments disposed : simpl never.

Lemma queued_in_app l1 l2 : queued_in (l1 ++ l2) = queued_in l1 ++ queued_in l2.
Proof. unfold queued_in. by rewrite fmap_app, concat_app. Qed.

Lemma disposed_app e1 e2 : disposed (e1 ++ e2) = disposed e1 ++ disposed e2.
Proof. unfold disposed. by rewrite fmap_app, concat_app. Qed.

Lemma concat_perm {A} (l1 l2 : list (list A)) : l1 ≡ₚ l2 -> concat l1 ≡ₚ concat l2.
Proof.
  induction 1 as [|x l l' _ IH|x y l|l1 l2 l3 _ IH1 _ IH2]; cbn.
  - done.
  - by rewrite IH.
  - by rewrite !app_assoc, (Permutation_app_comm x y).
  - by rewrite IH1.
Qed.

Lemma queued_split t i : queued t ≡ₚ queued_in (chain t i) ++ queued (delete i t).
Proof.
  unfold queued, entries, chain. destruct (t !! i) as [l|] eqn:E; cbn [default from_option].
  - unfold id. rewrite <- queued_in_app. unfold queued_in. apply concat_perm, fmap_Permutation.
    change (l ++ concat (map_to_list (delete i t)).*2) with (concat (l :: (map_to_list (delete i t)).*2)).
    apply concat_perm. change (l :: (map_to_list (delete i t)).*2) with (((i, l) :: map_to_list (delete i t)).*2).
    apply fmap_Permutation. symmetry. by apply map_to_list_delete.
  - by rewrite delete_id.
Qed.

Lemma queued_insert t i l : queued (<[i := l]> t) ≡ₚ queued_in l ++ queued (delete i t).
Proof.
  rewrite (queued_split _ i). unfold chain. by rewrite lookup_insert_eq, delete_insert_eq.
Qed.

(** A change of one chain that moves the packets [out] out and [inn] in. *)
Lemma queued_change t i l inn out :
  queued_in (chain t i) ++ inn ≡ₚ queued_in l ++ out -> queued t ++ inn ≡ₚ queued (<[i := l]> t) ++ out.
Proof.
  intros H. rewrite (queued_split t i), queued_insert, <- !app_assoc.
  rewrite !(Permutation_app_comm (queued (delete i t))), !app_assoc. by rewrite H.
Qed.

Lemma find_split daddr l e :
  find (fun x => ip x =? daddr) l = Some e ->
  ip e = daddr /\ exists l1 l2, l = l1 ++ e :: l2 /\
    (forall f, update_first daddr f l = l1 ++ f e :: l2) /\
    (forall f, ip (f e) = daddr -> find (fun x => ip x =? daddr) (l1 ++ f e :: l2) = Some (f e)).
Proof.
  induction l as [|x l IH]; cbn; [done|]. destruct (Z.eqb_spec (ip x) daddr) as [Hx|Hx].
  - intros [= <-]. split; [done|]. exists [], l. split_and!; [done..|].
    intros f Hf. cbn. by rewrite (proj2 (Z.eqb_eq _ _)).
  - intros (He & l1 & l2 & -> & Hu & Hf)%IH. split; [done|]. exists (x :: l1), l2. split_and!; [done|..].
    + intros f. by rewrite Hu.
    + intros f Hfe. cbn. rewrite (proj2 (Z.eqb_neq _ _)) by done. auto.
Qed.

Lemma queued_in_middle l1 e l2 : queued_in (l1 ++ e :: l2) ≡ₚ q e ++ queued_in (l1 ++ l2).
Proof.
  rewrite !queued_in_app. unfold queued_in at 2. cbn. fold (queued_in l2).
  by rewrite Permutation_app_swap_app.
Qed.

(** Writing to the entry that a lookup found. *)
Lemma update_entry_queued idx daddr f t e inn out :
  lookup_entry idx daddr t = Some e -> q e ++ inn ≡ₚ q (f e) ++ out ->
  queued t ++ inn ≡ₚ queued (update_entry idx daddr f t) ++ out.
Proof.
  intros (_ & l1 & l2 & El & Hu & _)%find_split H. apply queued_change.
  rewrite Hu, El, !queued_in_middle, <- !app_assoc.
  rewrite !(Permutation_app_comm (queued_in (l1 ++ l2))), !app_assoc. by rewrite H.
Qed.

Lemma insert_entry_queued e idx t : queued t ++ q e ≡ₚ queued (insert_entry e idx t).
Proof.
  rewrite <- (app_nil_r (queued (insert_entry e idx t))). apply queued_change.
  unfold queued_in at 2. cbn. fold (queued_in (chain t idx)). rewrite app_nil_r. apply Permutation_app_comm.
Qed.

Lemma disposed_delete e : disposed (delete_entry e) = q e.
Proof.
  unfold delete_entry, disposed. induction (q e) as [|m l IH]; [done|]. cbn. by f_equal.
Qed.

Lemma disposed_tx l dhost : disposed ((fun m => TxEth m dhost) <$> l) = l.
Proof. unfold disposed. induction l as [|m l IH]; [done|]. cbn. by f_equal. Qed.

Lemma disposed_free l : disposed (FreeMbuf <$> l) = l.
Proof. unfold disposed. induction l as [|m l IH]; [done|]. cbn. by f_equal. Qed.

Lemma age_chain_queued now_us now2 l :
  queued_in l ≡ₚ queued_in (age_chain now_us now2 l).1 ++ disposed (age_chain now_us now2 l).2.
Proof.
  induction l as [|e l IH]; [done|]. cbn [age_chain].
  assert (He : q e ≡ₚ queued_in (option_list (arp_age_entry now_us (now2 e) e).1) ++
    disposed (arp_age_entry now_us (now2 e) e).2).
  { unfold arp_age_entry, queued_in. cbn.
    destruct (u64 (now_us - ts e) <? _); cbn; [by rewrite !app_nil_r|].
    destruct (state e); cbn; try (destruct (tries_left e =? 0)); cbn;
      try (fold (disposed (delete_entry e)); rewrite disposed_delete); by rewrite ?app_nil_r. }
  destruct (arp_age_entry now_us (now2 e) e) as [r ev]. destruct (age_chain now_us now2 l) as [l' evs].
  cbn in *. rewrite queued_in_app, disposed_app. unfold queued_in at 1. cbn. fold (queued_in l).
  rewrite He, IH, <- !app_assoc. apply Permutation_app_head. by rewrite Permutation_app_swap_app.
Qed.

Lemma arp_worker_pass_queued n i now_us now2 t :
  queued t ≡ₚ queued (arp_worker_pass n i now_us now2 t).1 ++ disposed (arp_worker_pass n i now_us now2 t).2.
Proof.
  revert i t. induction n as [|n IH]; intros i t; cbn; [by rewrite app_nil_r|].
  assert (Ha := age_chain_queued now_us now2 (chain t i)).
  destruct (age_chain now_us now2 (chain t i)) as [l ev]. cbn in Ha.
  specialize (IH (i + 1) (<[i := l]> t)).
  destruct (arp_worker_pass n (i + 1) now_us now2 (<[i := l]> t)) as [t' evs]. cbn in *.
  assert (Hc := queued_change t i l [] (disposed ev)). rewrite !app_nil_r in Hc.
  rewrite Hc by done. rewrite IH, disposed_app, <- app_assoc. apply Permutation_app_head, Permutation_app_comm.
Qed.

Section arp_props.
Context (crc32 : Z -> Z -> Z).

Lemma lookup_update_entry idx daddr f t e :
  lookup_entry idx daddr t = Some e -> ip (f e) = daddr ->
  lookup_entry idx daddr (update_entry idx daddr f t) = Some (f e).
Proof.
  intros (_ & l1 & l2 & El & Hu & Hf)%find_split Hi. unfold lookup_entry, update_entry, chain.
  rewrite lookup_insert_eq. cbn. fold (chain t idx). rewrite Hu. auto.
Qed.

Lemma lookup_insert_entry idx e t : lookup_entry idx (ip e) (insert_entry e idx t) = Some e.
Proof.
  unfold lookup_entry, insert_entry, chain. rewrite lookup_insert_eq. cbn. by rewrite Z.eqb_refl.
Qed.

Lemma arp_update_queued daddr dhost alloc now t :
  let '(t', ev) := arp_update crc32 daddr dhost alloc now t in queued t ≡ₚ queued t' ++ disposed ev.
Proof.
  unfold arp_update. destruct (lookup_entry _ daddr t) as [e|] eqn:E.
  - destruct (decide _); [by rewrite app_nil_r|]. rewrite disposed_tx.
    rewrite <- (app_nil_r (queued t)). eapply update_entry_queued; [done|]. cbn. by rewrite app_nil_r.
  - destruct alloc as [junk|]; [|by rewrite app_nil_r].
    assert (H1 := insert_entry_queued (create_entry daddr now junk) (hash_ip crc32 daddr) t).
    cbn in H1. rewrite app_nil_r in H1. rewrite H1, app_nil_r.
    rewrite <- (app_nil_r (queued (insert_entry _ _ _))), <- (app_nil_r (queued (update_entry _ _ _ _))).
    eapply update_entry_queued; [apply (lookup_insert_entry _ (create_entry daddr now junk))|done].
Qed.

Lemma arp_lookup_slow_queued daddr newe m t :
  (forall e, newe = Some e -> q e = []) ->
  let '(r, t', ev) := arp_lookup_slow crc32 daddr newe m t in
  match r with
  | InProgress => queued t ++ option_list m ≡ₚ queued t' ++ disposed ev
  | _ => t' = t /\ ev = []
  end.
Proof.
  intros Hn. unfold arp_lookup_slow. destruct (lookup_entry _ daddr t) as [e|] eqn:E.
  - destruct (decide _); [|done]. eapply update_entry_queued; [done|]. cbn. by rewrite app_nil_r.
  - destruct newe as [e|]; [|by rewrite disposed_free].
    assert (H1 := insert_entry_queued (push_q m e) (hash_ip crc32 daddr) t).
    cbn in H1. rewrite (Hn e eq_refl) in H1. cbn in H1. by rewrite H1, app_nil_r.
Qed.

(** ** Any sequence of operations *)

Inductive arp_op :=
| OpFast (daddr : Z) (alloc : option eth_addr) (now : Z)
| OpSlow (daddr : Z) (newe : option (eth_addr * Z)) (m : option nat)
| OpUpdate (daddr : Z) (dhost : eth_addr) (alloc : option eth_addr) (now : Z)
| OpWorker (now : Z) (now2 : arp_entry -> Z)
| OpStatic (daddr : Z) (mac : eth_addr) (now : Z).

(** One operation: the table, the packets the table took over from the caller, and
    the events. *)
Definition arp_run_op (op : arp_op) (t : arp_tbl) : arp_tbl * list nat * list arp_event :=
  match op with
  | OpFast daddr alloc now => (t, [], (arp_lookup_fast crc32 daddr alloc now t).2)
  | OpSlow daddr newe m =>
      let newe := (fun '(junk, now) => create_entry daddr now junk) <$> newe in
      let '(r, t, ev) := arp_lookup_slow crc32 daddr newe m t in
      (t, match r with InProgress => option_list m | _ => [] end, ev)
  | OpUpdate daddr dhost alloc now =>
      let '(t, ev) := arp_update crc32 daddr dhost alloc now t in (t, [], ev)
  | OpWorker now now2 => let '(t, ev) := arp_worker now now2 t in (t, [], ev)
  | OpStatic daddr mac now =>
      (insert_entry (ArpEntry ARP_STATE_STATIC daddr mac [] now ARP_RETRIES) (hash_ip crc32 daddr) t, [], [])
  end.

Fixpoint arp_run (ops : list arp_op) (t : arp_tbl) : arp_tbl * list nat * list arp_event :=
  match ops with
  | [] => (t, [], [])
  | op :: ops =>
      let '(t, taken, ev) := arp_run_op op t in
      let '(t, taken', ev') := arp_run ops t in
      (t, taken ++ taken', ev ++ ev')
  end.

Lemma arp_run_op_queued op t :
  let '(t', taken, ev) := arp_run_op op t in queued t ++ taken ≡ₚ queued t' ++ disposed ev.
Proof.
  destruct op as [daddr alloc now|daddr newe m|daddr dhost alloc now|now now2|daddr mac now]; cbn -[arp_worker].
  - unfold arp_lookup_fast. destruct (lookup_entry _ _ _); [destruct (decide _)|destruct alloc]; done.
  - assert (H := arp_lookup_slow_queued daddr ((fun '(junk, now) => create_entry daddr now junk) <$> newe) m t).
    destruct (arp_lookup_slow _ _ _ _ _) as [[r t'] ev].
    assert (Hq : forall e, ((fun '(junk, now) => create_entry daddr now junk) <$> newe) = Some e -> q e = []).
    { intros e. destruct newe as [[junk now]|]; [|done]. by intros [= <-]. }
    specialize (H Hq). destruct r; [by destruct H as [-> ->]..|done].
  - assert (H := arp_update_queued daddr dhost alloc now t).
    destruct (arp_update _ _ _ _ _ _) as [t' ev]. by rewrite app_nil_r.
  - assert (H := arp_worker_pass_queued (Z.to_nat ARP_TABLE_CAPACITY) 0 now now2 t).
    unfold arp_worker. destruct (arp_worker_pass _ _ _ _ _) as [t' ev]. by rewrite app_nil_r.
  - rewrite <- insert_entry_queued. by rewrite !app_nil_r.
Qed.

Lemma arp_run_queued ops t :
  let '(t', taken, ev) := arp_run ops t in queued t ++ taken ≡ₚ queued t' ++ disposed ev.
Proof.
  revert t. induction ops as [|op ops IH]; intros t; cbn [arp_run]; [done|].
  assert (H := arp_run_op_queued op t). destruct (arp_run_op op t) as [[t1 k1] e1].
  specialize (IH t1). destruct (arp_run ops t1) as [[t2 k2] e2].
  rewrite disposed_app, app_assoc, H, <- app_assoc, (Permutation_app_comm (disposed e1)), app_assoc, IH.
  rewrite <- app_assoc. apply Permutation_app_head, Permutation_app_comm.
Qed.

(** ** Properties *)

(** No packet is lost or used twice: through any sequence of lookups, updates
    and worker passes, with other threads in between, the packets the table took
    over are exactly those still queued and those sent or freed, each once. *)
Theorem arp_packets_conserved ops :
  let '(t, taken, ev) := arp_run ops arp_init in taken ≡ₚ queued t ++ disposed ev.
Proof. apply (arp_run_queued ops arp_init). Qed.

(**  After [arp_update] of an address that is not configured statically (and
    for a new one, if its entry can be allocated) lookups return the new Ethernet
    address, and the packets that waited were sent to it in their order. *)
Theorem arp_update_lookup daddr dhost alloc now t alloc' now' :
  match lookup_entry (hash_ip crc32 daddr) daddr t with
  | Some e => state e <> ARP_STATE_STATIC
  | None => alloc <> None
  end ->
  let '(t', ev) := arp_update crc32 daddr dhost alloc now t in
  arp_lookup_fast crc32 daddr alloc' now' t' = (inl (Found dhost), []) /\
  ev = (fun m => TxEth m dhost) <$>
    match lookup_entry (hash_ip crc32 daddr) daddr t with Some e => q e | None => [] end.
Proof.
  intros Hs. unfold arp_update, arp_lookup_fast. destruct (lookup_entry _ daddr t) as [e|] eqn:E.
  - rewrite decide_False by done. erewrite lookup_update_entry; [done|exact E|].
    by apply find_split in E as [? _].
  - destruct alloc as [junk|]; [|done].
    erewrite lookup_update_entry; [done|apply (lookup_insert_entry _ (create_entry daddr now junk))|done].
Qed.
End arp_props.

(** ** Packets on the wire *)

(** The bytes of an ARP packet. *)
Definition arp_packet (cfg : net_cfg) (op : Z) (dhost : eth_addr) (daddr : Z) : list Z :=
  (hton16 ARP_HTYPE_ETHER ++ hton16 ETHTYPE_IP ++ [6] ++ [4] ++ hton16 op) ++
  (cfg_mac cfg ++ hton32 (cfg_addr cfg) ++ dhost ++ hton32 daddr).

Lemma arp_send_ok cfg op dhost daddr m :
  mbuf_ok m -> len m = 0 -> length (cfg_mac cfg) = 6%nat -> length dhost = 6%nat ->
  data m + 28 <= Z.of_nat (length (head m)) ->
  exists m', arp_send cfg op dhost daddr m = Ok m' /\ mbuf_ok m' /\ payload m' = arp_packet cfg op dhost daddr.
Proof.
  intros Hm Hl H1 H2 Hr. unfold arp_send.
  destruct (mbuf_append_ok (hton16 ARP_HTYPE_ETHER ++ hton16 ETHTYPE_IP ++ [6] ++ [4] ++ hton16 op) m Hm)
    as (m1 & -> & Hm1 & Hp1 & Hd1 & Hl1 & _ & Hh1); [cbn; lia|].
  cbn [mbind res_bind].
  destruct (mbuf_append_ok (cfg_mac cfg ++ hton32 (cfg_addr cfg) ++ dhost ++ hton32 daddr) m1 Hm1)
    as (m2 & -> & Hm2 & Hp2 & _).
  - rewrite Hd1, Hl1, Hh1, !length_app, H1, H2. cbn. lia.
  - exists m2. split_and!; auto. rewrite Hp2, Hp1. unfold payload. rewrite Hl. done.
Qed.

Lemma net_rx_arp_ok cfg from op dhost daddr m :
  mbuf_ok m -> payload m = arp_packet from op dhost daddr ->
  length (cfg_mac from) = 6%nat -> length dhost = 6%nat -> in_u16 op -> in_u32 (cfg_addr from) -> in_u32 daddr ->
  eth_addr_is_multicast (cfg_mac from) = false ->
  net_rx_arp cfg m =
    Ok (Some (cfg_addr from, cfg_mac from, (cfg_addr cfg =? daddr) && (op =? ARP_OP_REQUEST))).
Proof.
  intros Hm Hp H1 H2 Hop Ha Hd Hmc.
  assert (Hlen : len m = 28).
  { rewrite <- (length_payload m Hm), Hp. unfold arp_packet. rewrite !length_app, H1, H2. done. }
  assert (Hread : forall off n, 0 <= off -> 0 <= n -> off + n <= 28 ->
    read_bytes m (data m + off) n = Ok (take (Z.to_nat n) (drop (Z.to_nat off) (arp_packet from op dhost daddr)))).
  { intros off n ? ? ?. rewrite <- Hp. apply read_payload; auto. lia. }
  destruct from as [addr netmask gateway mac]. cbn -[eth_addr_is_multicast] in *.
  destruct mac as [|a0 [|a1 [|a2 [|a3 [|a4 [|a5 [|]]]]]]]; try done.
  destruct dhost as [|d0 [|d1 [|d2 [|d3 [|d4 [|d5 [|]]]]]]]; try done.
  unfold net_rx_arp, mbuf_pull_or_null, __mbuf_pull. rewrite Hlen. cbn -[u32 Z.add eth_addr_is_multicast].
  change (u32 (28 - 8)) with 20. cbn -[u32 Z.add eth_addr_is_multicast].
  set (m' := set_window _ _ _).
  assert (Hr : forall off n, read_bytes m' off n = read_bytes m off n) by done.
  assert (R1 : read_bytes m' (data m) 2 = Ok [0; 1])
    by (rewrite Hr, <- (Z.add_0_r (data m)), Hread by lia; reflexivity).
  assert (R2 : read_bytes m' (data m + 2) 2 = Ok [8; 0]) by (rewrite Hr, Hread by lia; reflexivity).
  assert (R3 : read_bytes m' (data m + 4) 1 = Ok [6]) by (rewrite Hr, Hread by lia; reflexivity).
  assert (R4 : read_bytes m' (data m + 5) 1 = Ok [4]) by (rewrite Hr, Hread by lia; reflexivity).
  assert (R5 : read_bytes m' (data m + 6) 2 = Ok (hton16 op)) by (rewrite Hr, Hread by lia; reflexivity).
  assert (R6 : read_bytes m' (data m + 8 + 6) 4 = Ok (hton32 addr))
    by (rewrite Hr, <- Z.add_assoc, Hread by lia; reflexivity).
  assert (R7 : read_bytes m' (data m + 8 + 16) 4 = Ok (hton32 daddr))
    by (rewrite Hr, <- Z.add_assoc, Hread by lia; reflexivity).
  assert (R8 : read_bytes m' (data m + 8) 6 = Ok [a0; a1; a2; a3; a4; a5])
    by (rewrite Hr, Hread by lia; reflexivity).
  unfold read16, read8, read32. rewrite R1. cbn -[be16 be32 hton16 hton32 Z.add eth_addr_is_multicast].
  rewrite R2. cbn -[be16 be32 hton16 hton32 Z.add eth_addr_is_multicast]. rewrite R3, R4. cbn -[be16 be32 hton16 hton32 Z.add eth_addr_is_multicast].
  rewrite R5, R6, R7, R8. cbn -[be16 be32 Z.div Z.modulo eth_addr_is_multicast].
  rewrite be16_hton16, !be32_hton32 by done. by rewrite Hmc.
Qed.

(**  What one host sends another understands: the packet [arp_send] builds at
    host [from], received with the same bytes in any mbuf, makes [net_rx_arp] update
    the table with exactly the sender's addresses, and reply exactly when it is a
    request for the receiver's address. *)
Theorem arp_send_receive cfg from op dhost daddr m m' :
  mbuf_ok m -> len m = 0 -> data m + 28 <= Z.of_nat (length (head m)) ->
  length (cfg_mac from) = 6%nat -> length dhost = 6%nat -> in_u16 op -> in_u32 (cfg_addr from) -> in_u32 daddr ->
  eth_addr_is_multicast (cfg_mac from) = false ->
  exists sent, arp_send from op dhost daddr m = Ok sent /\
    (mbuf_ok m' -> payload m' = payload sent ->
     net_rx_arp cfg m' =
       Ok (Some (cfg_addr from, cfg_mac from, (cfg_addr cfg =? daddr) && (op =? ARP_OP_REQUEST)))).
Proof.
  intros Hm Hl Hr H1 H2 Hop Ha Hd Hmc.
  destruct (arp_send_ok from op dhost daddr m Hm Hl H1 H2 Hr) as (sent & E & _ & Hp).
  exists sent. split; [done|]. intros Hm' Hp'. apply (net_rx_arp_ok cfg from op dhost daddr); auto. congruence.
Qed.

(** An entry aged at the given times; [None] once it is deleted. *)
Fixpoint age_times (times : list Z) (e : arp_entry) : option arp_entry * list arp_event :=
  match times with
  | [] => (Some e, [])
  | now :: times =>
      match arp_age_entry now now e with
      | (None, ev) => (None, ev)
      | (Some e, ev) => let '(r, evs) := age_times times e in (r, ev ++ evs)
      end
  end.

(** Each time is at least a retry interval after the one before. *)
Fixpoint spaced (t0 : Z) (times : list Z) : Prop :=
  match times with
  | [] => True
  | t :: times => t0 + ARP_RETRY_TIME <= t < M64 /\ spaced t times
  end.

Lemma age_expired now e :
  0 <= ts e -> ts e + ARP_RETRY_TIME <= now < M64 ->
  state e = ARP_STATE_PROBING \/ state e = ARP_STATE_VALID_BUT_REPROBING ->
  arp_age_entry now now e =
    if tries_left e =? 0 then (None, delete_entry e)
    else (Some (ArpEntry (state e) (ip e) (eth e) (q e) now (tries_left e - 1)),
          [ArpSend ARP_OP_REQUEST eth_addr_broadcast (ip e)]).
Proof.
  intros H0 Ht Hs. unfold arp_age_entry.
  assert (Hu : u64 (now - ts e) = now - ts e).
  { apply u64_id. unfold in_u64, ARP_RETRY_TIME, ONE_SECOND in *. lia. }
  rewrite Hu. assert (Hlt : (now - ts e <? ARP_RETRY_TIME) = false) by (apply Z.ltb_ge; lia).
  rewrite decide_False by (destruct Hs as [-> | ->]; done). rewrite Hlt.
  by destruct Hs as [-> | ->].
Qed.

(**  A probe that is never answered is given up: an entry with [n] tries left
    that the worker finds expired [n + 1] times asks again at each of the first [n]
    and is then deleted, and every packet that waited is reported unreachable and
    freed; it is not deleted before. *)
Theorem arp_probe_gives_up e times :
  state e = ARP_STATE_PROBING \/ state e = ARP_STATE_VALID_BUT_REPROBING ->
  0 <= ts e -> 0 <= tries_left e -> spaced (ts e) times ->
  Z.of_nat (length times) = tries_left e + 1 ->
  age_times times e =
    (None, replicate (Z.to_nat (tries_left e)) (ArpSend ARP_OP_REQUEST eth_addr_broadcast (ip e)) ++ delete_entry e) /\
  forall k, (k < length times)%nat -> (age_times (take k times) e).1 <> None.
Proof.
  revert e. induction times as [|t times IH]; intros e Hs H0 Hn Hsp Hl; cbn in Hl; [lia|].
  destruct Hsp as [Ht Hsp]. assert (Ha := age_expired t e H0 Ht Hs).
  destruct (Z.eqb_spec (tries_left e) 0) as [Hz|Hz].
  - destruct times as [|]; [|cbn in Hl; lia]. cbn [age_times]. rewrite Ha, Hz. split; [done|].
    intros k Hk. cbn in Hk. assert (k = 0%nat) as -> by lia. done.
  - set (e' := ArpEntry (state e) (ip e) (eth e) (q e) t (tries_left e - 1)) in *.
    destruct (IH e') as [IH1 IH2]; cbn -[ARP_RETRY_TIME]; auto; try lia.
    { unfold ARP_RETRY_TIME, ONE_SECOND in Ht. lia. }
    split.
    + cbn [age_times]. rewrite Ha, IH1. cbn.
      replace (Z.to_nat (tries_left e)) with (S (Z.to_nat (tries_left e - 1))) by lia. done.
    + intros [|k] Hk; [done|]. cbn [age_times take]. rewrite Ha. cbn in Hk.
      specialize (IH2 k ltac:(lia)). destruct (age_times (take k times) e') as [r evs]. done.
Qed.

(** The age of an entry is an unsigned difference, and the worker reads the
    clock once per pass: an entry that is confirmed after that reading, at most half
    the clock's range later, is taken for expired and probed again at once. *)
Theorem arp_age_just_confirmed now now2 e :
  state e = ARP_STATE_VALID -> 0 <= now -> now < ts e < M64 -> ts e - now <= M64 - ARP_REPROBE_TIME ->
  arp_age_entry now now2 e =
    (Some (ArpEntry ARP_STATE_VALID_BUT_REPROBING (ip e) (eth e) (q e) now2 ARP_RETRIES),
     [ArpSend ARP_OP_REQUEST eth_addr_broadcast (ip e)]).
Proof.
  intros Hs H0 Ht Hd.
  assert (Hu : u64 (now - ts e) = now - ts e + M64).
  { unfold u64. rewrite <- (Z_mod_plus_full _ 1), Z.mod_small; lia. }
  assert (Hlt : (now - ts e + M64 <? ARP_REPROBE_TIME) = false) by (apply Z.ltb_ge; lia).
  unfold arp_age_entry. rewrite decide_True, Hu, Hlt, Hs by done. done.
Qed.

(** ** Witnesses *)

Definition host1 : net_cfg := NetCfg 167772161 4294967040 167772414 [2; 0; 0; 0; 0; 1].
Definition host2 : net_cfg := NetCfg 167772162 4294967040 167772414 [2; 0; 0; 0; 0; 2].
Definition txbuf : mbuf := Mbuf (replicate 64 0) 8 64 0 0 0 0 0 0.
Definition arp_req : mbuf :=
  match arp_send host1 ARP_OP_REQUEST eth_addr_broadcast 167772162 txbuf with Ok m => m | Bug => txbuf end.

Lemma arp_send_receive_witness :
  net_rx_arp host2 arp_req = Ok (Some (167772161, [2; 0; 0; 0; 0; 1], true)).
Proof.
  edestruct (arp_send_receive host2 host1 ARP_OP_REQUEST eth_addr_broadcast 167772162 txbuf arp_req)
    as (sent & E & H); [vm_compute; done .. |].
  apply H; [vm_compute; done|]. vm_compute in E. injection E as <-. vm_compute. reflexivity.
Defined.

Lemma arp_update_lookup_witness :
  let '(t', _) := arp_update (fun _ _ => 5) 9 [1; 2; 3; 4; 5; 6] (Some []) 100 ∅ in
  arp_lookup_fast (fun _ _ => 5) 9 None 200 t' = (inl (Found [1; 2; 3; 4; 5; 6]), []).
Proof.
  pose proof (arp_update_lookup (fun _ _ => 5) 9 [1; 2; 3; 4; 5; 6] (Some []) 100 ∅ None 200) as H.
  specialize (H (fun E => match E with eq_refl => I end)).
  destruct (arp_update (fun _ _ => 5) 9 [1; 2; 3; 4; 5; 6] (Some []) 100 ∅) as [t' ev]. apply H.
Defined.

Definition probing : arp_entry := ArpEntry ARP_STATE_PROBING 9 [] [4%nat; 5%nat] 0 3.

Lemma arp_probe_gives_up_witness :
  age_times [1000000; 2000000; 3000000; 4000000] probing =
    (None, replicate 3 (ArpSend ARP_OP_REQUEST eth_addr_broadcast 9) ++
      [NetError 4 EHOSTUNREACH; FreeMbuf 4; NetError 5 EHOSTUNREACH; FreeMbuf 5]).
Proof.
  apply (arp_probe_gives_up probing [1000000; 2000000; 3000000; 4000000]).
  - by left.
  - done.
  - done.
  - cbn. unfold ARP_RETRY_TIME, ONE_SECOND, M64. lia.
  - reflexivity.
Defined.

Definition confirmed : arp_entry := ArpEntry ARP_STATE_VALID 9 [1; 2; 3; 4; 5; 6] [] 1001 3.

Lemma arp_age_just_confirmed_witness :
  exists e', arp_age_entry 1000 1002 confirmed = (Some e', [ArpSend ARP_OP_REQUEST eth_addr_broadcast 9]) /\
    state e' = ARP_STATE_VALID_BUT_REPROBING.
Proof.
  eexists. split; [apply (arp_age_just_confirmed 1000 1002 confirmed)|];
    vm_compute; try reflexivity; try discriminate; try (split; reflexivity).
Defined.
