(* ===== verification/Core.v ===== *)
(** * runtime/net/core.c, runtime/net/icmp.c: the network stack below the transports

    Frames are byte buffers ([Mbuf]).  The receive path strips the Ethernet and IP
    headers and hands packets to ARP, ICMP or the transport layer; the transmit path
    prepends them.  What the stack cannot decide itself is an argument: the result of
    the allocator (the bytes of the buffer it returned), the answer of [arp_lookup],
    the time stamp counter hashed into the IP identification, and whether a queue of
    the driver is full. *)

From S2P Require Import Prelude Stddef Mbuf Chksum Transport Arp.

Definition CACHE_LINE_SIZE : Z := 64.
Definition sizeof_mbuf : Z := 104.
Definition MBUF_RESERVED : Z := align_up sizeof_mbuf CACHE_LINE_SIZE.
Definition SOFTIRQ_MAX_BUDGET : Z := 128.
Definition ETHTYPE_ARP : Z := 2054.
Definition IPVERSION : Z := 4.
Definition IP_MF : Z := 8192.
Definition IPPROTO_ICMP : Z := 1.
Definition CHECKSUM_TYPE_NEEDED : Z := 0.
Definition CHECKSUM_TYPE_UNNECESSARY : Z := 1.
Definition OLFLAG_IP_CHKSUM : Z := 1.
Definition OLFLAG_TCP_CHKSUM : Z := 2.
Definition OLFLAG_IPV4 : Z := 4.
Definition sizeof_eth_hdr : Z := 14.
Definition sizeof_ip_hdr : Z := 20.
Definition sizeof_tx_net_hdr : Z := 18.

(** ** Receive *)

Record rx_net_hdr := RxNetHdr {
  completion_data : Z;
  rx_rss_hash : Z;
  rx_csum_type : Z;
  rx_csum : Z;
  rx_payload : list Z;             (* [len] bytes *)
}.

(** [net_rx_alloc_mbuf] when [smalloc] succeeds: the buffer holds [hdr->len] bytes,
    the mbuf is told it holds [MBUF_DEFAULT_LEN - MBUF_RESERVED]. *)
Definition net_rx_alloc_mbuf (hdr : rx_net_hdr) : res mbuf :=
  m ← mbuf_init (rx_payload hdr) (MBUF_DEFAULT_LEN - MBUF_RESERVED) 0 (Mbuf [] 0 0 0 0 0 0 0 0);
  Ok (set_meta (rx_csum_type hdr) (rx_csum hdr) (rx_rss_hash hdr)
        (set_window (data m) (Z.of_nat (length (rx_payload hdr))) m)).

(** The IP header at [h]; [off] is tested in the byte order of the machine. *)
Definition ip_hdr_supported (m : mbuf) (h : Z) : res bool :=
  b0 ← read8 m h;
  o1 ← read8 m (h + 6);
  o2 ← read8 m (h + 7);
  Ok ((b0 / 16 =? IPVERSION) && (b0 mod 16 =? 5) && (Z.land (o1 + 256 * o2) IP_MF =? 0)).

(** [net_error]: the transport entry that is told. *)
Definition net_error (crc32 : Z -> Z -> Z) (seed : Z) (m : mbuf) (t : ttable) : res (option trans_entry) :=
  let '(h, m) := mbuf_pull_or_null sizeof_ip_hdr m in
  match h with
  | None => Ok None
  | Some h =>
      sup ← ip_hdr_supported m h;
      if negb sup then Ok None
      else
        p ← read8 m (h + 9);
        if (p =? IPPROTO_UDP) || (p =? IPPROTO_TCP) then trans_error crc32 seed m t else Ok None
  end.

(** What [net_rx_one] does with a frame. *)
Inductive rx_one :=
| RxDrop                              (* mbuf_drop(m) *)
| RxArp (m : mbuf)                    (* net_rx_arp(m) *)
| RxIcmp (m : mbuf) (h len : Z)       (* net_rx_icmp(m, iphdr, len) *)
| RxUp (m : mbuf).                    (* returned, for the transport layer *)

(** The part after the checksum test: [h] is the offset of the IP header. *)
Definition net_rx_ip (m : mbuf) (h : Z) : res rx_one :=
  sup ← ip_hdr_supported m h;
  if negb sup then Ok RxDrop
  else
    iplen ← read16 m (h + 2);
    let l := u16 (iplen - sizeof_ip_hdr) in
    if mbuf_length m <? l then Ok RxDrop
    else
      m ← (if l <? mbuf_length m then '(_, m) ← mbuf_trim (mbuf_length m - l) m; Ok m else Ok m);
      p ← read8 m (h + 9);
      Ok (if p =? IPPROTO_ICMP then RxIcmp m h l
          else if (p =? IPPROTO_UDP) || (p =? IPPROTO_TCP) then RxUp m
          else RxDrop).

Definition net_rx_one (cfg : net_cfg) (m : mbuf) : res rx_one :=
  let '(ll, m) := mbuf_pull_or_null sizeof_eth_hdr m in
  match ll with
  | None => Ok RxDrop
  | Some ll =>
      type ← read16 m (ll + 12);
      if type =? ETHTYPE_ARP then Ok (RxArp m)
      else
        dhost ← read_bytes m ll 6;
        if negb (type =? ETHTYPE_IP) || negb (bool_decide (dhost = cfg_mac cfg)) then Ok RxDrop
        else
          m ← mbuf_mark_network_offset m;
          let '(h, m) := mbuf_pull_or_null sizeof_ip_hdr m in
          match h with
          | None => Ok RxDrop
          | Some h =>
              bad ← (if csum_type m =? CHECKSUM_TYPE_UNNECESSARY then Ok false
                     else l ← read_bytes m h sizeof_ip_hdr; Ok (negb (chksum_internet l =? 0)));
              if (bad : bool) then Ok RxDrop else net_rx_ip m h
          end
  end.

(** The loop of [net_rx_softirq_direct]: the packets for the transport layer, in the
    array of [SOFTIRQ_MAX_BUDGET] entries, and what was done with the others. *)
Fixpoint rx_loop (cfg : net_cfg) (ms : list mbuf) (l4 : list mbuf) (done : list rx_one)
    : res (list mbuf * list rx_one) :=
  match ms with
  | [] => Ok (l4, done)
  | m :: ms =>
      _ ← BUG_ON (Z.of_nat (length l4) >=? SOFTIRQ_MAX_BUDGET);
      r ← net_rx_one cfg m;
      match r with
      | RxUp m => rx_loop cfg ms (l4 ++ [m]) done
      | r => rx_loop cfg ms l4 (done ++ [r])
      end
  end.

Definition net_rx_softirq_direct (crc32 : Z -> Z -> Z) (seed : Z) (cfg : net_cfg) (ms : list mbuf) (t : ttable)
    : res (list rx_event * list rx_one) :=
  '(l4, dn) ← rx_loop cfg ms [] [];
  ev ← net_rx_trans crc32 seed l4 t;
  Ok (ev, dn).

(** [net_rx_softirq]: [allocs] says which calls of [smalloc] succeed. *)
Fixpoint rx_alloc_loop (hdrs : list rx_net_hdr) (allocs : list bool) : res (list mbuf) :=
  match hdrs, allocs with
  | h :: hdrs, a :: allocs =>
      ms ← rx_alloc_loop hdrs allocs;
      if (a : bool) then m ← net_rx_alloc_mbuf h; Ok (m :: ms) else Ok ms
  | _, _ => Ok []
  end.

Definition net_rx_softirq (crc32 : Z -> Z -> Z) (seed : Z) (cfg : net_cfg) (hdrs : list rx_net_hdr)
    (allocs : list bool) (t : ttable) : res (list rx_event * list rx_one * list Z) :=
  ms ← rx_alloc_loop hdrs allocs;
  '(ev, dn) ← net_rx_softirq_direct crc32 seed cfg ms t;
  Ok (ev, dn, completion_data <$> hdrs).

(** ** Transmit *)

(** [net_tx_alloc_mbuf] when the cache has a buffer; [bytes] is what it holds. *)
Definition net_tx_alloc_mbuf (bytes : list Z) : res mbuf :=
  m ← mbuf_init bytes (MBUF_DEFAULT_LEN - MBUF_RESERVED) MBUF_DEFAULT_HEADROOM (Mbuf [] 0 0 0 0 0 0 0 0);
  Ok (set_meta CHECKSUM_TYPE_NEEDED (csum m) 0 m).

(** [hdr->completion_data], [hdr->len] and [hdr->olflags] in little endian, then two
    bytes of padding that keep their value. *)
Definition tx_net_hdr_bytes (ptr l fl pad0 pad1 : Z) : list Z :=
  ((fun i => ptr / 256 ^ i mod 256) <$> [0; 1; 2; 3; 4; 5; 6; 7]) ++
  ((fun i => l / 256 ^ i mod 256) <$> [0; 1; 2; 3]) ++
  ((fun i => fl / 256 ^ i mod 256) <$> [0; 1; 2; 3]) ++ [pad0; pad1].

(** [net_tx_iokernel]; [full] says whether [lrpc_send] fails. *)
Definition net_tx_iokernel (ptr : Z) (full : bool) (m : mbuf) : res (Z * mbuf) :=
  let l := mbuf_length m in
  '(p, m) ← mbuf_push sizeof_tx_net_hdr m;
  pad ← read_bytes m (p + 16) 2;
  m ← write_bytes p (tx_net_hdr_bytes ptr l (txflags m) (nth 0 pad 0) (nth 1 pad 0)) m;
  if full then '(_, m) ← mbuf_pull sizeof_tx_net_hdr m; Ok (-1, m) else Ok (0, m).

(** [net_tx_drain_overflow] on the overflow queue: [tx] gives the outcomes of
    [tx_single] (accepted or not), [preempt] those of [preempt_needed].  Returns the
    packets that were accepted and the queue. *)
Fixpoint net_tx_drain_overflow (tx preempt : nat -> bool) (q : list nat) : list nat * list nat :=
  match q with
  | [] => ([], [])
  | m :: q =>
      if tx 0%nat then
        if preempt 0%nat then ([m], q)
        else let '(s, q) := net_tx_drain_overflow (fun i => tx (S i)) (fun i => preempt (S i)) q in (m :: s, q)
      else ([], m :: q)
  end.

(** [net_tx_raw]: the packets the driver accepted, in order, and the queue. *)
Definition net_tx_raw (tx preempt : nat -> bool) (last : bool) (m : nat) (q : list nat) : list nat * list nat :=
  let '(s, q) := net_tx_drain_overflow tx preempt q in
  if last then (s ++ [m], q) else (s, q ++ [m]).

(** [net_tx_eth] up to [net_tx_raw]. *)
Definition net_tx_eth (cfg : net_cfg) (type : Z) (dhost : eth_addr) (m : mbuf) : res mbuf :=
  mbuf_prepend (dhost ++ cfg_mac cfg ++ hton16 type) m.

Definition iphdr_bytes (cfg : net_cfg) (proto daddr id l : Z) : list Z :=
  [69; 0] ++ hton16 l ++ [id mod 256; id / 256 mod 256] ++ [0; 0] ++ [64; proto] ++ [0; 0] ++
  hton32 (cfg_addr cfg) ++ hton32 daddr.

Definition net_push_iphdr (cfg : net_cfg) (proto daddr id : Z) (m : mbuf) : res mbuf :=
  mbuf_prepend (iphdr_bytes cfg proto daddr id (u16 (mbuf_length m + sizeof_ip_hdr))) m.

Definition net_get_ip_route (cfg : net_cfg) (daddr : Z) : Z :=
  if Z.land daddr (cfg_netmask cfg) =? Z.land (cfg_addr cfg) (cfg_netmask cfg) then daddr
  else cfg_gateway cfg.

Definition or_txflags (f : Z) (m : mbuf) : mbuf := set_meta (csum_type m) (csum m) (Z.lor (txflags m) f) m.

(** [net_tx_ip]: [arp] is the answer of [arp_lookup] for the routed address.  Returns
    the result and the mbuf. *)
Definition net_tx_ip (cfg : net_cfg) (proto daddr id : Z) (arp : lookup_result) (m : mbuf) : res (Z * mbuf) :=
  m ← net_push_iphdr cfg proto daddr id m;
  let m := or_txflags (Z.lor OLFLAG_IP_CHKSUM OLFLAG_IPV4) m in
  match arp with
  | InProgress => Ok (0, m)
  | NoMem => '(_, m) ← mbuf_pull sizeof_ip_hdr m; Ok (- ENOMEM, m)
  | Found dhost => m ← net_tx_eth cfg ETHTYPE_IP dhost m; Ok (0, m)
  end.

Fixpoint mapM_res {A B} (f : A -> res B) (l : list A) : res (list B) :=
  match l with
  | [] => Ok []
  | a :: l => b ← f a; bs ← mapM_res f l; Ok (b :: bs)
  end.

(** [net_tx_ip_burst]; the second result lists the packets handed to the driver. *)
Definition net_tx_ip_burst (cfg : net_cfg) (proto daddr : Z) (arp : lookup_result) (ms : list (Z * mbuf))
    : res (Z * list mbuf * list mbuf) :=
  _ ← BUG_ON (Z.of_nat (length ms) <=? 0);
  ms ← mapM_res (fun '(id, m) => m ← net_push_iphdr cfg proto daddr id m;
                                 Ok (or_txflags (Z.lor OLFLAG_IP_CHKSUM OLFLAG_IPV4) m)) ms;
  match arp with
  | InProgress => Ok (0, ms, [])
  | NoMem => ms ← mapM_res (fun m => '(_, m) ← mbuf_pull sizeof_ip_hdr m; Ok m) ms; Ok (- ENOMEM, ms, [])
  | Found dhost => ms ← mapM_res (net_tx_eth cfg ETHTYPE_IP dhost) ms; Ok (0, ms, ms)
  end.

(** [compute_flow_affinity]: the Toeplitz hash with the key words [key] (already in
    the order of the machine), bit by bit from the lowest set bit. *)
Definition flow_bit (key : Z -> Z) (j i : Z) : Z :=
  Z.lor (u32 (Z.shiftl (key j) (31 - i))) (u32 (Z.shiftr (key (j + 1)) (i + 1))).

Definition flow_word (key : Z -> Z) (j map ret : Z) : Z :=
  fold_left (fun ret i => if Z.testbit map (Z.of_nat i) then Z.lxor ret (flow_bit key j (Z.of_nat i)) else ret)
    (seq 0 32) ret.

Definition compute_flow_affinity (key : Z -> Z) (maxks : Z) (cfg : net_cfg) (local_port : Z) (remote : netaddr) : Z :=
  let ret := flow_word key 0 (Transport.ip remote) 0 in
  let ret := flow_word key 1 (cfg_addr cfg) ret in
  let ret := flow_word key 2 (Z.lor local_port (u32 (Z.shiftl (port remote) 16))) ret in
  ret mod maxks.

(** ** ICMP *)

Definition ICMP_MINLEN : Z := 8.
Definition ICMP_ECHOREPLY : Z := 0.
Definition ICMP_ECHO : Z := 8.

(** The echo reply in the fresh mbuf [out]; [pkt] is the offset of the ICMP packet. *)
Definition net_rx_icmp_echo (m : mbuf) (pkt l : Z) (out : mbuf) : res mbuf :=
  bytes ← read_bytes m pkt l;
  '(p, out) ← mbuf_put l out;
  out ← write_bytes p bytes out;
  out ← write_bytes p [ICMP_ECHOREPLY] out;
  out ← write_bytes (p + 2) [0; 0] out;
  b ← read_bytes out p l;
  let ck := chksum_internet b in
  write_bytes (p + 2) [ck mod 256; ck / 256] out.

Inductive icmp_action :=
| IcmpDrop
| IcmpEcho (out : mbuf) (daddr : Z)     (* net_tx_ip_or_free(out, IPPROTO_ICMP, daddr) *)
| IcmpReply (payload : option Z).       (* net_recv_ping on the payload, if it is there *)

(** [net_rx_icmp]: [out] is the mbuf of [net_tx_alloc_mbuf], if there is one. *)
Definition net_rx_icmp (m : mbuf) (h l : Z) (out : option mbuf) : res icmp_action :=
  let '(pkt, m) := mbuf_pull_or_null ICMP_MINLEN m in
  match pkt with
  | None => Ok IcmpDrop
  | Some pkt =>
      type ← read8 m pkt;
      if type =? ICMP_ECHO then
        match out with
        | None => Ok IcmpDrop
        | Some out =>
            out ← net_rx_icmp_echo m pkt l out;
            saddr ← read32 m (h + 12);
            Ok (IcmpEcho out saddr)
        end
      else if type =? ICMP_ECHOREPLY then
        let '(p, _) := mbuf_pull_or_null 16 m in Ok (IcmpReply p)
      else Ok IcmpDrop
  end.

(** ** Properties *)

(** What leaves the NIC: the frame with the IP checksum filled in, and padding. *)
Definition on_wire (f pad : list Z) : list Z :=
  let ck := chksum_internet (take 20 (drop 14 f)) in
  take 24 f ++ [ck mod 256; ck / 256] ++ drop 26 f ++ pad.

Definition frame (cfg : net_cfg) (dhost : eth_addr) (proto daddr id : Z) (p : list Z) : list Z :=
  (dhost ++ cfg_mac cfg ++ hton16 ETHTYPE_IP) ++
  iphdr_bytes cfg proto daddr id (u16 (Z.of_nat (length p) + sizeof_ip_hdr)) ++ p.

Lemma net_tx_ip_ok cfg proto daddr id dhost m :
  mbuf_ok m -> 34 <= data m -> length (cfg_mac cfg) = 6%nat -> length dhost = 6%nat ->
  exists m1, net_tx_ip cfg proto daddr id (Found dhost) m = Ok (0, m1) /\ mbuf_ok m1 /\
    payload m1 = frame cfg dhost proto daddr id (payload m).
Proof.
  intros Hm Hd H1 H2. unfold net_tx_ip, net_push_iphdr.
  set (hdr := iphdr_bytes _ _ _ _ _). assert (Hh : length hdr = 20%nat) by done.
  destruct (mbuf_prepend_ok hdr m Hm) as (m1 & -> & Hm1 & Hp1 & Hd1 & _); [lia|]. cbn.
  set (m1' := or_txflags _ m1). assert (Hm1' : mbuf_ok m1') by (destruct Hm1; by split).
  set (e := dhost ++ cfg_mac cfg ++ hton16 ETHTYPE_IP).
  assert (He : length e = 14%nat) by (unfold e; rewrite !length_app, H1, H2; done).
  unfold net_tx_eth. fold e. destruct (mbuf_prepend_ok e m1' Hm1') as (m2 & -> & Hm2 & Hp2 & _).
  { change (data m1') with (data m1). lia. }
  exists m2. split_and!; [done..|]. rewrite Hp2. change (payload m1') with (payload m1). rewrite Hp1.
  unfold frame. unfold hdr. by rewrite length_payload.
Qed.

Lemma hton16_bytes v : bytes (hton16 v).
Proof. repeat constructor; apply Z.mod_pos_bound; lia. Qed.
Lemma hton32_bytes v : bytes (hton32 v).
Proof. repeat constructor; apply Z.mod_pos_bound; lia. Qed.

(** The checksum the NIC filled in is accepted. *)
Lemma iphdr_chksum_ok cfg proto daddr id l ck :
  0 <= proto < 256 -> ck = chksum_internet (iphdr_bytes cfg proto daddr id l) ->
  chksum_internet (take 10 (iphdr_bytes cfg proto daddr id l) ++ [ck mod 256; ck / 256] ++
    drop 12 (iphdr_bytes cfg proto daddr id l)) = 0.
Proof.
  intros Hp ->.
  apply (chksum_patched (take 10 (iphdr_bytes cfg proto daddr id l)) (drop 12 (iphdr_bytes cfg proto daddr id l))).
  - cbn. repeat constructor; try lia; apply Z.mod_pos_bound; lia.
  - apply Forall_app. split; apply hton32_bytes.
  - by exists 5%nat.
Qed.

(** The windows of the receive path: the Ethernet and the IP header are stripped. *)
Lemma rx_pulls m :
  mbuf_ok m -> 34 <= len m -> data m + 14 <= USHRT_MAX ->
  let mA := set_window (data m + 14) (len m - 14) m in
  let mB := set_window (data m + 34) (len m - 34) (set_network_off (data m + 14) m) in
  mbuf_pull_or_null sizeof_eth_hdr m = (Some (data m), mA) /\
  mbuf_mark_network_offset mA = Ok (set_network_off (data m + 14) mA) /\
  mbuf_pull_or_null sizeof_ip_hdr (set_network_off (data m + 14) mA) = (Some (data m + 14), mB).
Proof.
  intros [] Hl Ho mA mB. unfold mbuf_pull_or_null, __mbuf_pull, mbuf_mark_network_offset, sizeof_eth_hdr, sizeof_ip_hdr.
  split_and!.
  - rewrite Z.geb_leb, (proj2 (Z.leb_le _ _)), u32_id by (unfold in_u32; lia). done.
  - cbn [data mA set_window]. rewrite Z.gtb_ltb, (proj2 (Z.ltb_ge _ _)) by lia. done.
  - cbn [len data set_network_off mA set_window].
    rewrite Z.geb_leb, (proj2 (Z.leb_le _ _)), u32_id by (unfold in_u32; lia).
    unfold mB, set_window, set_network_off. cbn. f_equal. f_equal; lia.
Qed.

(** The last step: [n] bytes of payload behind the IP header at [h]. *)
Lemma net_rx_ip_ok m h proto n :
  mbuf_ok m -> 0 <= n <= len m -> n + 20 < 65536 ->
  read_bytes m h 1 = Ok [69] -> read16 m (h + 2) = Ok (n + 20) ->
  read_bytes m (h + 6) 1 = Ok [0] -> read_bytes m (h + 7) 1 = Ok [0] -> read_bytes m (h + 9) 1 = Ok [proto] ->
  let m3 := set_window (data m) n m in
  net_rx_ip m h =
    Ok (if proto =? IPPROTO_ICMP then RxIcmp m3 h n
        else if (proto =? IPPROTO_UDP) || (proto =? IPPROTO_TCP) then RxUp m3 else RxDrop).
Proof.
  intros Hm Hn Hl R0 R2 R6 R7 R9 m3. unfold net_rx_ip, ip_hdr_supported, read8. rewrite R0, R6, R7. cbn -[u16 Z.add].
  rewrite R2. cbn -[u16 Z.add].
  assert (Hu : u16 (n + 20 - sizeof_ip_hdr) = n) by (unfold sizeof_ip_hdr; rewrite Z.add_simpl_r; apply Z.mod_small; unfold M16; lia).
  rewrite Hu.
  unfold mbuf_length. destruct (Z.ltb_spec (len m) n); [lia|].
  assert (E : (if n <? len m then '(_, m') ← mbuf_trim (len m - n) m; Ok m' else Ok m) = Ok m3).
  { destruct (Z.ltb_spec n (len m)).
    - unfold mbuf_trim. rewrite Z.gtb_ltb, (proj2 (Z.ltb_ge _ _)) by lia. cbn. unfold m3. do 2 f_equal. lia.
    - assert (n = len m) as -> by lia. unfold m3, set_window. by destruct m. }
  rewrite E. cbn -[Z.add]. unfold read_bytes in R9 |- *. change (in_buffer m3) with (in_buffer m).
  change (head m3) with (head m). rewrite R9. done.
Qed.

(** The receive path on the bytes of a frame with the IP header [H]. *)
Lemma net_rx_one_bytes cfg m shost H l1 l2 l3 i1 i2 ttl proto c1 c2 addrs p pad :
  mbuf_ok m -> data m + 14 <= USHRT_MAX -> length shost = 6%nat -> length (cfg_mac cfg) = 6%nat ->
  H = [69; l1; l2; l3; i1; i2; 0; 0; ttl; proto; c1; c2] ++ addrs -> length addrs = 8%nat ->
  chksum_internet H = 0 -> be16 l2 l3 = Z.of_nat (length p) + 20 -> Z.of_nat (length p) + 20 < 65536 ->
  payload m = (cfg_mac cfg ++ shost ++ [8; 0]) ++ H ++ p ++ pad ->
  let m3 := set_window (data m + 34) (Z.of_nat (length p)) (set_network_off (data m + 14) m) in
  net_rx_one cfg m =
      Ok (if proto =? IPPROTO_ICMP then RxIcmp m3 (data m + 14) (Z.of_nat (length p))
          else if (proto =? IPPROTO_UDP) || (proto =? IPPROTO_TCP) then RxUp m3 else RxDrop) /\
  mbuf_ok m3 /\ payload m3 = p.
Proof.
  intros Hm Hoff H1 H2 HH H4 Hck Hbe Hl Hp m3.
  assert (Hlen : len m = 34 + Z.of_nat (length p) + Z.of_nat (length pad)).
  { rewrite <- (length_payload m Hm), Hp, HH, !length_app, H1, H2, H4. cbn [length]. lia. }
  assert (Hread : forall off n, 0 <= off -> 0 <= n -> off + n <= 34 ->
    read_bytes m (data m + off) n = Ok (take (Z.to_nat n) (drop (Z.to_nat off) (payload m)))).
  { intros off n ? ? ?. apply read_payload; auto. lia. }
  destruct (rx_pulls m Hm ltac:(lia) Hoff) as (E1 & E2 & E3).
  set (mA := set_window (data m + 14) _ m) in *. set (mB := set_window (data m + 34) (len m - 34) (set_network_off (data m + 14) m)) in *.
  assert (HmB : mbuf_ok mB) by (destruct Hm; split; cbn; lia).
  destruct cfg as [addr mask gw mac]. cbn [cfg_mac] in *.
  destruct mac as [|d0 [|d1 [|d2 [|d3 [|d4 [|d5 [|]]]]]]]; try done.
  destruct shost as [|a0 [|a1 [|a2 [|a3 [|a4 [|a5 [|]]]]]]]; try done.
  destruct addrs as [|t0 [|t1 [|t2 [|t3 [|t4 [|t5 [|t6 [|t7 [|]]]]]]]]]; try done. cbn in HH.
  split_and!.
  - assert (R12 : read16 m (data m + 12) = Ok 2048) by (unfold read16; rewrite Hread, Hp by lia; done).
    assert (R0 : read_bytes m (data m) 6 = Ok [d0; d1; d2; d3; d4; d5])
      by (rewrite <- (Z.add_0_r (data m)), Hread, Hp by lia; done).
    assert (R14 : read_bytes m (data m + 14) sizeof_ip_hdr = Ok H)
      by (rewrite Hread, Hp, HH by (unfold sizeof_ip_hdr; lia); done).
    assert (Hip : net_rx_ip mB (data m + 14) =
      Ok (if proto =? IPPROTO_ICMP then RxIcmp m3 (data m + 14) (Z.of_nat (length p))
          else if (proto =? IPPROTO_UDP) || (proto =? IPPROTO_TCP) then RxUp m3 else RxDrop)).
    { rewrite (net_rx_ip_ok mB (data m + 14) proto (Z.of_nat (length p))); try done.
      all: try change (len mB) with (len m - 34); try lia.
      all: try change (read16 mB) with (read16 m); try change (read_bytes mB) with (read_bytes m).
      all: unfold read16; rewrite <- ?Z.add_assoc, Hread, Hp, HH by lia; rewrite <- ?Hbe; reflexivity. }
    assert (HrA : read_bytes mA = read_bytes m) by done. assert (HrA' : read16 mA = read16 m) by done.
    assert (HrB : read_bytes mB = read_bytes m) by done. clearbody mA mB m3.
    unfold net_rx_one. rewrite E1, HrA', HrA, R12. cbn [mbind res_bind].
    change (2048 =? ETHTYPE_ARP) with false. cbv iota. rewrite R0. cbn [mbind res_bind cfg_mac].
    change (2048 =? ETHTYPE_IP) with true. rewrite bool_decide_eq_true_2, E2 by done. cbn [mbind res_bind negb orb].
    rewrite E3, HrB, R14. cbn [mbind res_bind]. rewrite Hck, <- Hip. by destruct (csum_type mB =? _).
  - destruct Hm. split; cbn; lia.
  - assert (E := pull_payload 34 m Hm ltac:(lia)). rewrite Hp, HH in E.
    change (payload (set_window (data m + 34) (len m - 34) m) = p ++ pad) in E.
    transitivity (take (length p) (p ++ pad)); [|apply take_app_length]. rewrite <- E.
    unfold payload. cbn [data len head set_window set_network_off m3]. rewrite take_take. f_equal. lia.
Qed.

(** A frame that is sent and received: the transport packet arrives. *)
Lemma net_ip_carries cfg cfg' proto daddr id m pad m2 :
  mbuf_ok m -> 34 <= data m -> len m + 20 < 65536 ->
  length (cfg_mac cfg) = 6%nat -> length (cfg_mac cfg') = 6%nat ->
  0 <= proto < 256 -> in_u32 (cfg_addr cfg) -> in_u32 daddr ->
  exists m1, net_tx_ip cfg proto daddr id (Found (cfg_mac cfg')) m = Ok (0, m1) /\
    (mbuf_ok m2 -> data m2 + 14 <= USHRT_MAX -> payload m2 = on_wire (payload m1) pad ->
     exists m3, net_rx_one cfg' m2 =
         Ok (if proto =? IPPROTO_ICMP then RxIcmp m3 (network_off m3) (len m)
             else if (proto =? IPPROTO_UDP) || (proto =? IPPROTO_TCP) then RxUp m3 else RxDrop) /\
       mbuf_ok m3 /\ data m3 = data m2 + 34 /\ payload m3 = payload m /\
       read8 m3 (network_off m3 + 9) = Ok proto /\
       read32 m3 (network_off m3 + 12) = Ok (cfg_addr cfg) /\
       read32 m3 (network_off m3 + 16) = Ok daddr).
Proof.
  intros Hm Hd Hl H1 H2 Hpr Ha Hda.
  destruct (net_tx_ip_ok cfg proto daddr id (cfg_mac cfg') m Hm Hd H1 H2) as (m1 & E1 & Hm1 & Hp1).
  exists m1. split; [done|]. intros Hm2 Hoff Hp2. rewrite Hp1 in Hp2.
  set (l := u16 (Z.of_nat (length (payload m)) + sizeof_ip_hdr)) in *.
  assert (Hlp := length_payload m Hm).
  assert (Hbe : be16 (l / 256 mod 256) (l mod 256) = Z.of_nat (length (payload m)) + 20).
  { rewrite be16_hton16; unfold l, u16, sizeof_ip_hdr; [apply Z.mod_small|apply Z.mod_pos_bound]; unfold M16; lia. }
  assert (Hck := iphdr_chksum_ok cfg proto daddr id l _ Hpr eq_refl).
  set (ck := chksum_internet (iphdr_bytes cfg proto daddr id l)) in Hck.
  assert (Hp2' : payload m2 = (cfg_mac cfg' ++ cfg_mac cfg ++ [8; 0]) ++
    (take 10 (iphdr_bytes cfg proto daddr id l) ++ [ck mod 256; ck / 256] ++ drop 12 (iphdr_bytes cfg proto daddr id l)) ++
    payload m ++ pad).
  { rewrite Hp2. unfold on_wire, frame. clear -H1 H2 ck. destruct cfg as [addr mask gw mac], cfg' as [addr' mask' gw' mac'].
    cbn [cfg_mac] in *.
    destruct mac as [|a0 [|a1 [|a2 [|a3 [|a4 [|a5 [|]]]]]]]; try done.
    destruct mac' as [|d0 [|d1 [|d2 [|d3 [|d4 [|d5 [|]]]]]]]; done. }
  edestruct (net_rx_one_bytes cfg' m2 (cfg_mac cfg) _ _ _ _ _ _ _ proto _ _ (hton32 (cfg_addr cfg) ++ hton32 daddr)
    (payload m) pad Hm2 Hoff H1 H2 eq_refl eq_refl Hck Hbe ltac:(lia) Hp2') as (E & Hok & Hp3).
  eexists. split; [rewrite <- Hlp; exact E|]. split; [exact Hok|]. split; [reflexivity|]. split; [exact Hp3|].
  assert (Hlen : 34 <= len m2) by (rewrite <- (length_payload m2 Hm2), Hp2', !length_app, H1, H2; cbn; lia).
  assert (Hread : forall off n, 0 <= off -> 0 <= n -> off + n <= 34 ->
    read_bytes m2 (data m2 + off) n = Ok (take (Z.to_nat n) (drop (Z.to_nat off) (payload m2)))).
  { intros off n ? ? ?. apply read_payload; auto. lia. }
  clear E Hok Hp3. set (m3 := set_window _ _ (set_network_off _ m2)).
  assert (H3 : read_bytes m3 = read_bytes m2) by done. change (network_off m3) with (data m2 + 14). clearbody m3.
  unfold read8, read32. rewrite H3, <- !Z.add_assoc, !Hread, Hp2' by lia. clear - H1 H2 Ha Hda.
  destruct cfg as [addr mask gw mac], cfg' as [addr' mask' gw' mac']. cbn [cfg_mac cfg_addr] in *.
  destruct mac as [|a0 [|a1 [|a2 [|a3 [|a4 [|a5 [|]]]]]]]; try done.
  destruct mac' as [|d0 [|d1 [|d2 [|d3 [|d4 [|d5 [|]]]]]]]; try done.
  assert (Ea := be32_hton32 addr Ha). assert (Ed := be32_hton32 daddr Hda).
  split_and!; [reflexivity|transitivity (Ok (be32 (addr / 16777216 mod 256) (addr / 65536 mod 256) (addr / 256 mod 256) (addr mod 256)))
    |transitivity (Ok (be32 (daddr / 16777216 mod 256) (daddr / 65536 mod 256) (daddr / 256 mod 256) (daddr mod 256)))];
    try reflexivity; congruence.
Qed.

(** C13.  What the stack of one host sends, the stack of another understands: the
    frame [net_tx_ip] builds, with the checksum the NIC fills in and any padding,
    is accepted by [net_rx_one] at the host with the destination's Ethernet address,
    which hands on exactly the transport packet, with the protocol and the
    addresses of the IP header. *)
Theorem net_ip_roundtrip cfg cfg' proto daddr id m pad m2 :
  mbuf_ok m -> 34 <= data m -> len m + 20 < 65536 ->
  length (cfg_mac cfg) = 6%nat -> length (cfg_mac cfg') = 6%nat ->
  0 <= proto < 256 -> in_u32 (cfg_addr cfg) -> in_u32 daddr ->
  exists m1, net_tx_ip cfg proto daddr id (Found (cfg_mac cfg')) m = Ok (0, m1) /\
    (mbuf_ok m2 -> data m2 + 14 <= USHRT_MAX -> payload m2 = on_wire (payload m1) pad ->
     exists m3, net_rx_one cfg' m2 =
         Ok (if proto =? IPPROTO_ICMP then RxIcmp m3 (network_off m3) (len m)
             else if (proto =? IPPROTO_UDP) || (proto =? IPPROTO_TCP) then RxUp m3 else RxDrop) /\
       payload m3 = payload m /\
       read8 m3 (network_off m3 + 9) = Ok proto /\
       read32 m3 (network_off m3 + 12) = Ok (cfg_addr cfg) /\
       read32 m3 (network_off m3 + 16) = Ok daddr).
Proof.
  intros. destruct (net_ip_carries cfg cfg' proto daddr id m pad m2) as (m1 & E & H'); [done..|]. exists m1. split; [exact E|].
  intros A B C. destruct (H' A B C) as (m3 & R & _ & _ & Hp & R1 & R2 & R3). exists m3. by split_and!.
Qed.

Definition udp_bytes : list Z := [19; 136; 0; 80; 0; 12; 0; 0; 104; 105; 33; 10].
Definition l4_buf : mbuf := Mbuf (replicate 128 0 ++ udp_bytes ++ replicate 20 0) 128 160 12 0 0 0 0 0.
Definition wire_buf : mbuf :=
  match net_tx_ip host1 IPPROTO_UDP 167772162 7 (Found (cfg_mac host2)) l4_buf with
  | Ok (_, m) => let b := on_wire (payload m) (replicate 14 0) in Mbuf b 0 1920 (Z.of_nat (length b)) 0 0 0 0 0
  | Bug => l4_buf
  end.

Lemma net_ip_roundtrip_witness :
  exists m3, net_rx_one host2 wire_buf = Ok (RxUp m3) /\ payload m3 = udp_bytes /\
    read32 m3 (network_off m3 + 12) = Ok 167772161.
Proof.
  edestruct (net_ip_roundtrip host1 host2 IPPROTO_UDP 167772162 7 l4_buf (replicate 14 0) wire_buf)
    as (m1 & E & H); [split; vm_compute; done|vm_compute; done .. |].
  destruct H as (m3 & H1 & H2 & _ & H3 & _); [split; vm_compute; done|vm_compute; done| |exists m3; by split_and!].
  vm_compute in E. injection E as <-. vm_compute. reflexivity.
Defined.
