(* ===== verification/TcpState.v ===== *)
(** * runtime/net/tcp.h, runtime/net/waitq.h: the state of a TCP connection

    The connection is the record of tcp.h.  The mbufs of the receive queues are in
    the lists themselves: each is owned by one queue.  Those of the transmit side are
    shared (between the queue, the driver and a retransmission that dropped the lock)
    and are in a heap by address, with their reference counts; the connection holds
    addresses.

    Operations run in a monad over a world with the connection, the heap, the
    transport table and a trace of what the operations do outside: packets handed to
    IP, buffers freed, threads woken.  An operation returns, parks its thread on a
    wait queue (it continues at the head of its waiting loop when it is woken), or
    stops (a failed [BUG_ON] or assertion, or an access outside of a buffer or to a
    freed one). *)

From S2P Require Import Prelude Stddef Mbuf Chksum Transport Arp Core.

Definition ONE_MS : Z := 1000.
Definition ETH_MTU : Z := 1500.
Definition sizeof_tcp_hdr : Z := 20.
Definition TCP_MSS : Z := ETH_MTU - sizeof_ip_hdr - sizeof_tcp_hdr.
Definition TCP_WIN : Z := 65535 / TCP_MSS * TCP_MSS.
Definition TCP_ACK_TIMEOUT : Z := 10 * ONE_MS.
Definition TCP_CONNECT_TIMEOUT : Z := 5 * ONE_SECOND.
Definition TCP_OOQ_ACK_TIMEOUT : Z := 300 * ONE_MS.
Definition TCP_TIME_WAIT_TIMEOUT : Z := ONE_SECOND.
Definition TCP_RETRANSMIT_TIMEOUT : Z := 300 * ONE_MS.
Definition TCP_FAST_RETRANSMIT_THRESH : Z := 3.
Definition TCP_OOO_MAX_SIZE : Z := 2048.
Definition TCP_RETRANSMIT_BATCH : Z := 16.

Definition TCP_FIN : Z := 1.
Definition TCP_SYN : Z := 2.
Definition TCP_RST : Z := 4.
Definition TCP_PUSH : Z := 8.
Definition TCP_ACK : Z := 16.

Definition EAGAIN : Z := 11.
Definition EPIPE : Z := 32.
Definition ECONNABORTED : Z := 103.
Definition ECONNRESET : Z := 104.
Definition ENOBUFS : Z := 105.
Definition ETIMEDOUT : Z := 110.

Inductive tcp_state :=
| TCP_STATE_SYN_SENT
| TCP_STATE_SYN_RECEIVED
| TCP_STATE_ESTABLISHED
| TCP_STATE_FIN_WAIT1
| TCP_STATE_FIN_WAIT2
| TCP_STATE_CLOSE_WAIT
| TCP_STATE_CLOSING
| TCP_STATE_LAST_ACK
| TCP_STATE_TIME_WAIT
| TCP_STATE_CLOSED.

#[export] Instance tcp_state_eq_dec : EqDecision tcp_state.
Proof. solve_decision. Defined.

(** The values of the enumeration, which the code compares. *)
Definition st_val (s : tcp_state) : Z :=
  match s with
  | TCP_STATE_SYN_SENT => 0
  | TCP_STATE_SYN_RECEIVED => 1
  | TCP_STATE_ESTABLISHED => 2
  | TCP_STATE_FIN_WAIT1 => 3
  | TCP_STATE_FIN_WAIT2 => 4
  | TCP_STATE_CLOSE_WAIT => 5
  | TCP_STATE_CLOSING => 6
  | TCP_STATE_LAST_ACK => 7
  | TCP_STATE_TIME_WAIT => 8
  | TCP_STATE_CLOSED => 9
  end.

Definition st_eq (a b : tcp_state) : bool := st_val a =? st_val b.
Definition st_lt (a b : tcp_state) : bool := st_val a <? st_val b.

(** The [release] method of an mbuf: [sfree] of a received one, the default of a
    transmitted one, or the one of tcp_out.c, which counts references. *)
Inductive release_fn := rel_sfree | net_tx_release_mbuf | tcp_tx_release_mbuf.

Record seg := Seg {
  sid : nat;  (* the address *)
  mb : mbuf;  (* the buffer and its window *)
  seg_seq : Z;
  seg_end : Z;
  flags : Z;
  timestamp : Z;
  sref : Z;  (* ref *)
  release : release_fn;
}.

Definition set_sid (v : nat) (s : seg) : seg :=
  Seg v (mb s) (seg_seq s) (seg_end s) (flags s) (timestamp s) (sref s) (release s).
Definition set_mb (v : mbuf) (s : seg) : seg :=
  Seg (sid s) v (seg_seq s) (seg_end s) (flags s) (timestamp s) (sref s) (release s).
Definition set_seg_seq (v : Z) (s : seg) : seg :=
  Seg (sid s) (mb s) v (seg_end s) (flags s) (timestamp s) (sref s) (release s).
Definition set_seg_end (v : Z) (s : seg) : seg :=
  Seg (sid s) (mb s) (seg_seq s) v (flags s) (timestamp s) (sref s) (release s).
Definition set_flags (v : Z) (s : seg) : seg :=
  Seg (sid s) (mb s) (seg_seq s) (seg_end s) v (timestamp s) (sref s) (release s).
Definition set_timestamp (v : Z) (s : seg) : seg :=
  Seg (sid s) (mb s) (seg_seq s) (seg_end s) (flags s) v (sref s) (release s).
Definition set_sref (v : Z) (s : seg) : seg :=
  Seg (sid s) (mb s) (seg_seq s) (seg_end s) (flags s) (timestamp s) v (release s).
Definition set_release (v : release_fn) (s : seg) : seg :=
  Seg (sid s) (mb s) (seg_seq s) (seg_end s) (flags s) (timestamp s) (sref s) v.

Record tcp_pcb := Pcb {
  state : tcp_state;
  snd_una : Z;
  snd_nxt : Z;
  snd_wnd : Z;
  snd_up : Z;
  snd_wl1 : Z;
  snd_wl2 : Z;
  iss : Z;
  rcv_nxt : Z;
  rcv_wnd : Z;
  rcv_up : Z;
  irs : Z;
}.

Definition set_state (v : tcp_state) (p : tcp_pcb) : tcp_pcb :=
  Pcb v (snd_una p) (snd_nxt p) (snd_wnd p) (snd_up p) (snd_wl1 p) (snd_wl2 p) (iss p) (rcv_nxt p) (rcv_wnd p)
    (rcv_up p) (irs p).
Definition set_snd_una (v : Z) (p : tcp_pcb) : tcp_pcb :=
  Pcb (state p) v (snd_nxt p) (snd_wnd p) (snd_up p) (snd_wl1 p) (snd_wl2 p) (iss p) (rcv_nxt p) (rcv_wnd p)
    (rcv_up p) (irs p).
Definition set_snd_nxt (v : Z) (p : tcp_pcb) : tcp_pcb :=
  Pcb (state p) (snd_una p) v (snd_wnd p) (snd_up p) (snd_wl1 p) (snd_wl2 p) (iss p) (rcv_nxt p) (rcv_wnd p)
    (rcv_up p) (irs p).
Definition set_snd_wnd (v : Z) (p : tcp_pcb) : tcp_pcb :=
  Pcb (state p) (snd_una p) (snd_nxt p) v (snd_up p) (snd_wl1 p) (snd_wl2 p) (iss p) (rcv_nxt p) (rcv_wnd p)
    (rcv_up p) (irs p).
Definition set_snd_up (v : Z) (p : tcp_pcb) : tcp_pcb :=
  Pcb (state p) (snd_una p) (snd_nxt p) (snd_wnd p) v (snd_wl1 p) (snd_wl2 p) (iss p) (rcv_nxt p) (rcv_wnd p)
    (rcv_up p) (irs p).
Definition set_snd_wl1 (v : Z) (p : tcp_pcb) : tcp_pcb :=
  Pcb (state p) (snd_una p) (snd_nxt p) (snd_wnd p) (snd_up p) v (snd_wl2 p) (iss p) (rcv_nxt p) (rcv_wnd p)
    (rcv_up p) (irs p).
Definition set_snd_wl2 (v : Z) (p : tcp_pcb) : tcp_pcb :=
  Pcb (state p) (snd_una p) (snd_nxt p) (snd_wnd p) (snd_up p) (snd_wl1 p) v (iss p) (rcv_nxt p) (rcv_wnd p)
    (rcv_up p) (irs p).
Definition set_iss (v : Z) (p : tcp_pcb) : tcp_pcb :=
  Pcb (state p) (snd_una p) (snd_nxt p) (snd_wnd p) (snd_up p) (snd_wl1 p) (snd_wl2 p) v (rcv_nxt p) (rcv_wnd
    p) (rcv_up p) (irs p).
Definition set_rcv_nxt (v : Z) (p : tcp_pcb) : tcp_pcb :=
  Pcb (state p) (snd_una p) (snd_nxt p) (snd_wnd p) (snd_up p) (snd_wl1 p) (snd_wl2 p) (iss p) v (rcv_wnd p)
    (rcv_up p) (irs p).
Definition set_rcv_wnd (v : Z) (p : tcp_pcb) : tcp_pcb :=
  Pcb (state p) (snd_una p) (snd_nxt p) (snd_wnd p) (snd_up p) (snd_wl1 p) (snd_wl2 p) (iss p) (rcv_nxt p) v
    (rcv_up p) (irs p).
Definition set_rcv_up (v : Z) (p : tcp_pcb) : tcp_pcb :=
  Pcb (state p) (snd_una p) (snd_nxt p) (snd_wnd p) (snd_up p) (snd_wl1 p) (snd_wl2 p) (iss p) (rcv_nxt p)
    (rcv_wnd p) v (irs p).
Definition set_irs (v : Z) (p : tcp_pcb) : tcp_pcb :=
  Pcb (state p) (snd_una p) (snd_nxt p) (snd_wnd p) (snd_up p) (snd_wl1 p) (snd_wl2 p) (iss p) (rcv_nxt p)
    (rcv_wnd p) (rcv_up p) v.

Record tcpconn := Conn {
  c_e : trans_entry;
  pcb : tcp_pcb;
  c_lock : bool;  (* is the spin lock held? *)
  c_ref : Z;
  err : Z;
  rx_closed : bool;
  rx_exclusive : bool;
  rx_wq : list nat;  (* the waiting threads *)
  rxq_ooo_len : Z;
  rxq_ooo : list seg;
  rxq : list seg;
  tx_closed : bool;
  tx_exclusive : bool;
  tx_wq : list nat;
  tx_last_ack : Z;
  tx_last_win : Z;
  tx_pending : option nat;  (* an address *)
  txq : list nat;  (* addresses *)
  do_fast_retransmit : bool;
  fast_retransmit_last_ack : Z;
  next_timeout : Z;
  ack_delayed : bool;
  rcv_wnd_full : bool;
  ack_ts : Z;
  wait_ts : Z;  (* the union of time_wait_ts and attach_ts *)
  rep_acks : Z;
}.

Definition set_c_e (v : trans_entry) (c : tcpconn) : tcpconn :=
  Conn v (pcb c) (c_lock c) (c_ref c) (err c) (rx_closed c) (rx_exclusive c) (rx_wq c) (rxq_ooo_len c)
    (rxq_ooo c) (rxq c) (tx_closed c) (tx_exclusive c) (tx_wq c) (tx_last_ack c) (tx_last_win c) (tx_pending
    c) (txq c) (do_fast_retransmit c) (fast_retransmit_last_ack c) (next_timeout c) (ack_delayed c)
    (rcv_wnd_full c) (ack_ts c) (wait_ts c) (rep_acks c).
Definition set_pcb (v : tcp_pcb) (c : tcpconn) : tcpconn :=
  Conn (c_e c) v (c_lock c) (c_ref c) (err c) (rx_closed c) (rx_exclusive c) (rx_wq c) (rxq_ooo_len c)
    (rxq_ooo c) (rxq c) (tx_closed c) (tx_exclusive c) (tx_wq c) (tx_last_ack c) (tx_last_win c) (tx_pending
    c) (txq c) (do_fast_retransmit c) (fast_retransmit_last_ack c) (next_timeout c) (ack_delayed c)
    (rcv_wnd_full c) (ack_ts c) (wait_ts c) (rep_acks c).
Definition set_c_lock (v : bool) (c : tcpconn) : tcpconn :=
  Conn (c_e c) (pcb c) v (c_ref c) (err c) (rx_closed c) (rx_exclusive c) (rx_wq c) (rxq_ooo_len c) (rxq_ooo
    c) (rxq c) (tx_closed c) (tx_exclusive c) (tx_wq c) (tx_last_ack c) (tx_last_win c) (tx_pending c) (txq c)
    (do_fast_retransmit c) (fast_retransmit_last_ack c) (next_timeout c) (ack_delayed c) (rcv_wnd_full c)
    (ack_ts c) (wait_ts c) (rep_acks c).
Definition set_c_ref (v : Z) (c : tcpconn) : tcpconn :=
  Conn (c_e c) (pcb c) (c_lock c) v (err c) (rx_closed c) (rx_exclusive c) (rx_wq c) (rxq_ooo_len c) (rxq_ooo
    c) (rxq c) (tx_closed c) (tx_exclusive c) (tx_wq c) (tx_last_ack c) (tx_last_win c) (tx_pending c) (txq c)
    (do_fast_retransmit c) (fast_retransmit_last_ack c) (next_timeout c) (ack_delayed c) (rcv_wnd_full c)
    (ack_ts c) (wait_ts c) (rep_acks c).
Definition set_err (v : Z) (c : tcpconn) : tcpconn :=
  Conn (c_e c) (pcb c) (c_lock c) (c_ref c) v (rx_closed c) (rx_exclusive c) (rx_wq c) (rxq_ooo_len c)
    (rxq_ooo c) (rxq c) (tx_closed c) (tx_exclusive c) (tx_wq c) (tx_last_ack c) (tx_last_win c) (tx_pending
    c) (txq c) (do_fast_retransmit c) (fast_retransmit_last_ack c) (next_timeout c) (ack_delayed c)
    (rcv_wnd_full c) (ack_ts c) (wait_ts c) (rep_acks c).
Definition set_rx_closed (v : bool) (c : tcpconn) : tcpconn :=
  Conn (c_e c) (pcb c) (c_lock c) (c_ref c) (err c) v (rx_exclusive c) (rx_wq c) (rxq_ooo_len c) (rxq_ooo c)
    (rxq c) (tx_closed c) (tx_exclusive c) (tx_wq c) (tx_last_ack c) (tx_last_win c) (tx_pending c) (txq c)
    (do_fast_retransmit c) (fast_retransmit_last_ack c) (next_timeout c) (ack_delayed c) (rcv_wnd_full c)
    (ack_ts c) (wait_ts c) (rep_acks c).
Definition set_rx_exclusive (v : bool) (c : tcpconn) : tcpconn :=
  Conn (c_e c) (pcb c) (c_lock c) (c_ref c) (err c) (rx_closed c) v (rx_wq c) (rxq_ooo_len c) (rxq_ooo c) (rxq
    c) (tx_closed c) (tx_exclusive c) (tx_wq c) (tx_last_ack c) (tx_last_win c) (tx_pending c) (txq c)
    (do_fast_retransmit c) (fast_retransmit_last_ack c) (next_timeout c) (ack_delayed c) (rcv_wnd_full c)
    (ack_ts c) (wait_ts c) (rep_acks c).
Definition set_rx_wq (v : list nat) (c : tcpconn) : tcpconn :=
  Conn (c_e c) (pcb c) (c_lock c) (c_ref c) (err c) (rx_closed c) (rx_exclusive c) v (rxq_ooo_len c) (rxq_ooo
    c) (rxq c) (tx_closed c) (tx_exclusive c) (tx_wq c) (tx_last_ack c) (tx_last_win c) (tx_pending c) (txq c)
    (do_fast_retransmit c) (fast_retransmit_last_ack c) (next_timeout c) (ack_delayed c) (rcv_wnd_full c)
    (ack_ts c) (wait_ts c) (rep_acks c).
Definition set_rxq_ooo_len (v : Z) (c : tcpconn) : tcpconn :=
  Conn (c_e c) (pcb c) (c_lock c) (c_ref c) (err c) (rx_closed c) (rx_exclusive c) (rx_wq c) v (rxq_ooo c)
    (rxq c) (tx_closed c) (tx_exclusive c) (tx_wq c) (tx_last_ack c) (tx_last_win c) (tx_pending c) (txq c)
    (do_fast_retransmit c) (fast_retransmit_last_ack c) (next_timeout c) (ack_delayed c) (rcv_wnd_full c)
    (ack_ts c) (wait_ts c) (rep_acks c).
Definition set_rxq_ooo (v : list seg) (c : tcpconn) : tcpconn :=
  Conn (c_e c) (pcb c) (c_lock c) (c_ref c) (err c) (rx_closed c) (rx_exclusive c) (rx_wq c) (rxq_ooo_len c) v
    (rxq c) (tx_closed c) (tx_exclusive c) (tx_wq c) (tx_last_ack c) (tx_last_win c) (tx_pending c) (txq c)
    (do_fast_retransmit c) (fast_retransmit_last_ack c) (next_timeout c) (ack_delayed c) (rcv_wnd_full c)
    (ack_ts c) (wait_ts c) (rep_acks c).
Definition set_rxq (v : list seg) (c : tcpconn) : tcpconn :=
  Conn (c_e c) (pcb c) (c_lock c) (c_ref c) (err c) (rx_closed c) (rx_exclusive c) (rx_wq c) (rxq_ooo_len c)
    (rxq_ooo c) v (tx_closed c) (tx_exclusive c) (tx_wq c) (tx_last_ack c) (tx_last_win c) (tx_pending c) (txq
    c) (do_fast_retransmit c) (fast_retransmit_last_ack c) (next_timeout c) (ack_delayed c) (rcv_wnd_full c)
    (ack_ts c) (wait_ts c) (rep_acks c).
Definition set_tx_closed (v : bool) (c : tcpconn) : tcpconn :=
  Conn (c_e c) (pcb c) (c_lock c) (c_ref c) (err c) (rx_closed c) (rx_exclusive c) (rx_wq c) (rxq_ooo_len c)
    (rxq_ooo c) (rxq c) v (tx_exclusive c) (tx_wq c) (tx_last_ack c) (tx_last_win c) (tx_pending c) (txq c)
    (do_fast_retransmit c) (fast_retransmit_last_ack c) (next_timeout c) (ack_delayed c) (rcv_wnd_full c)
    (ack_ts c) (wait_ts c) (rep_acks c).
Definition set_tx_exclusive (v : bool) (c : tcpconn) : tcpconn :=
  Conn (c_e c) (pcb c) (c_lock c) (c_ref c) (err c) (rx_closed c) (rx_exclusive c) (rx_wq c) (rxq_ooo_len c)
    (rxq_ooo c) (rxq c) (tx_closed c) v (tx_wq c) (tx_last_ack c) (tx_last_win c) (tx_pending c) (txq c)
    (do_fast_retransmit c) (fast_retransmit_last_ack c) (next_timeout c) (ack_delayed c) (rcv_wnd_full c)
    (ack_ts c) (wait_ts c) (rep_acks c).
Definition set_tx_wq (v : list nat) (c : tcpconn) : tcpconn :=
  Conn (c_e c) (pcb c) (c_lock c) (c_ref c) (err c) (rx_closed c) (rx_exclusive c) (rx_wq c) (rxq_ooo_len c)
    (rxq_ooo c) (rxq c) (tx_closed c) (tx_exclusive c) v (tx_last_ack c) (tx_last_win c) (tx_pending c) (txq
    c) (do_fast_retransmit c) (fast_retransmit_last_ack c) (next_timeout c) (ack_delayed c) (rcv_wnd_full c)
    (ack_ts c) (wait_ts c) (rep_acks c).
Definition set_tx_last_ack (v : Z) (c : tcpconn) : tcpconn :=
  Conn (c_e c) (pcb c) (c_lock c) (c_ref c) (err c) (rx_closed c) (rx_exclusive c) (rx_wq c) (rxq_ooo_len c)
    (rxq_ooo c) (rxq c) (tx_closed c) (tx_exclusive c) (tx_wq c) v (tx_last_win c) (tx_pending c) (txq c)
    (do_fast_retransmit c) (fast_retransmit_last_ack c) (next_timeout c) (ack_delayed c) (rcv_wnd_full c)
    (ack_ts c) (wait_ts c) (rep_acks c).
Definition set_tx_last_win (v : Z) (c : tcpconn) : tcpconn :=
  Conn (c_e c) (pcb c) (c_lock c) (c_ref c) (err c) (rx_closed c) (rx_exclusive c) (rx_wq c) (rxq_ooo_len c)
    (rxq_ooo c) (rxq c) (tx_closed c) (tx_exclusive c) (tx_wq c) (tx_last_ack c) v (tx_pending c) (txq c)
    (do_fast_retransmit c) (fast_retransmit_last_ack c) (next_timeout c) (ack_delayed c) (rcv_wnd_full c)
    (ack_ts c) (wait_ts c) (rep_acks c).
Definition set_tx_pending (v : option nat) (c : tcpconn) : tcpconn :=
  Conn (c_e c) (pcb c) (c_lock c) (c_ref c) (err c) (rx_closed c) (rx_exclusive c) (rx_wq c) (rxq_ooo_len c)
    (rxq_ooo c) (rxq c) (tx_closed c) (tx_exclusive c) (tx_wq c) (tx_last_ack c) (tx_last_win c) v (txq c)
    (do_fast_retransmit c) (fast_retransmit_last_ack c) (next_timeout c) (ack_delayed c) (rcv_wnd_full c)
    (ack_ts c) (wait_ts c) (rep_acks c).
Definition set_txq (v : list nat) (c : tcpconn) : tcpconn :=
  Conn (c_e c) (pcb c) (c_lock c) (c_ref c) (err c) (rx_closed c) (rx_exclusive c) (rx_wq c) (rxq_ooo_len c)
    (rxq_ooo c) (rxq c) (tx_closed c) (tx_exclusive c) (tx_wq c) (tx_last_ack c) (tx_last_win c) (tx_pending
    c) v (do_fast_retransmit c) (fast_retransmit_last_ack c) (next_timeout c) (ack_delayed c) (rcv_wnd_full c)
    (ack_ts c) (wait_ts c) (rep_acks c).
Definition set_do_fast_retransmit (v : bool) (c : tcpconn) : tcpconn :=
  Conn (c_e c) (pcb c) (c_lock c) (c_ref c) (err c) (rx_closed c) (rx_exclusive c) (rx_wq c) (rxq_ooo_len c)
    (rxq_ooo c) (rxq c) (tx_closed c) (tx_exclusive c) (tx_wq c) (tx_last_ack c) (tx_last_win c) (tx_pending
    c) (txq c) v (fast_retransmit_last_ack c) (next_timeout c) (ack_delayed c) (rcv_wnd_full c) (ack_ts c)
    (wait_ts c) (rep_acks c).
Definition set_fast_retransmit_last_ack (v : Z) (c : tcpconn) : tcpconn :=
  Conn (c_e c) (pcb c) (c_lock c) (c_ref c) (err c) (rx_closed c) (rx_exclusive c) (rx_wq c) (rxq_ooo_len c)
    (rxq_ooo c) (rxq c) (tx_closed c) (tx_exclusive c) (tx_wq c) (tx_last_ack c) (tx_last_win c) (tx_pending
    c) (txq c) (do_fast_retransmit c) v (next_timeout c) (ack_delayed c) (rcv_wnd_full c) (ack_ts c) (wait_ts
    c) (rep_acks c).
Definition set_next_timeout (v : Z) (c : tcpconn) : tcpconn :=
  Conn (c_e c) (pcb c) (c_lock c) (c_ref c) (err c) (rx_closed c) (rx_exclusive c) (rx_wq c) (rxq_ooo_len c)
    (rxq_ooo c) (rxq c) (tx_closed c) (tx_exclusive c) (tx_wq c) (tx_last_ack c) (tx_last_win c) (tx_pending
    c) (txq c) (do_fast_retransmit c) (fast_retransmit_last_ack c) v (ack_delayed c) (rcv_wnd_full c) (ack_ts
    c) (wait_ts c) (rep_acks c).
Definition set_ack_delayed (v : bool) (c : tcpconn) : tcpconn :=
  Conn (c_e c) (pcb c) (c_lock c) (c_ref c) (err c) (rx_closed c) (rx_exclusive c) (rx_wq c) (rxq_ooo_len c)
    (rxq_ooo c) (rxq c) (tx_closed c) (tx_exclusive c) (tx_wq c) (tx_last_ack c) (tx_last_win c) (tx_pending
    c) (txq c) (do_fast_retransmit c) (fast_retransmit_last_ack c) (next_timeout c) v (rcv_wnd_full c) (ack_ts
    c) (wait_ts c) (rep_acks c).
Definition set_rcv_wnd_full (v : bool) (c : tcpconn) : tcpconn :=
  Conn (c_e c) (pcb c) (c_lock c) (c_ref c) (err c) (rx_closed c) (rx_exclusive c) (rx_wq c) (rxq_ooo_len c)
    (rxq_ooo c) (rxq c) (tx_closed c) (tx_exclusive c) (tx_wq c) (tx_last_ack c) (tx_last_win c) (tx_pending
    c) (txq c) (do_fast_retransmit c) (fast_retransmit_last_ack c) (next_timeout c) (ack_delayed c) v (ack_ts
    c) (wait_ts c) (rep_acks c).
Definition set_ack_ts (v : Z) (c : tcpconn) : tcpconn :=
  Conn (c_e c) (pcb c) (c_lock c) (c_ref c) (err c) (rx_closed c) (rx_exclusive c) (rx_wq c) (rxq_ooo_len c)
    (rxq_ooo c) (rxq c) (tx_closed c) (tx_exclusive c) (tx_wq c) (tx_last_ack c) (tx_last_win c) (tx_pending
    c) (txq c) (do_fast_retransmit c) (fast_retransmit_last_ack c) (next_timeout c) (ack_delayed c)
    (rcv_wnd_full c) v (wait_ts c) (rep_acks c).
Definition set_wait_ts (v : Z) (c : tcpconn) : tcpconn :=
  Conn (c_e c) (pcb c) (c_lock c) (c_ref c) (err c) (rx_closed c) (rx_exclusive c) (rx_wq c) (rxq_ooo_len c)
    (rxq_ooo c) (rxq c) (tx_closed c) (tx_exclusive c) (tx_wq c) (tx_last_ack c) (tx_last_win c) (tx_pending
    c) (txq c) (do_fast_retransmit c) (fast_retransmit_last_ack c) (next_timeout c) (ack_delayed c)
    (rcv_wnd_full c) (ack_ts c) v (rep_acks c).
Definition set_rep_acks (v : Z) (c : tcpconn) : tcpconn :=
  Conn (c_e c) (pcb c) (c_lock c) (c_ref c) (err c) (rx_closed c) (rx_exclusive c) (rx_wq c) (rxq_ooo_len c)
    (rxq_ooo c) (rxq c) (tx_closed c) (tx_exclusive c) (tx_wq c) (tx_last_ack c) (tx_last_win c) (tx_pending
    c) (txq c) (do_fast_retransmit c) (fast_retransmit_last_ack c) (next_timeout c) (ack_delayed c)
    (rcv_wnd_full c) (ack_ts c) (wait_ts c) v.

(** What operations do outside of the connection. *)
Inductive event :=
| EvTx (m : nat) (daddr : Z) (packet : list Z) (ret : Z)   (* net_tx_ip(m) of a packet, its result *)
| EvFree (m : nat)                                         (* a buffer is released *)
| EvReady (th : nat)                                       (* thread_ready(th) *)
| EvSpawnRetransmit                                        (* thread_spawn(tcp_retransmit, c) *)
| EvDestroy.                                               (* rcu_free(&c->e.rcu, tcp_conn_release) *)

Record world := World {
  conn : tcpconn;
  heap : gmap nat seg;
  table : ttable;
  tcp_conns : list nat;
  trace : list event;
  next_sid : nat;
  n_time : nat;  (* calls of microtime() so far *)
  n_alloc : nat;  (* of net_tx_alloc_mbuf() *)
  n_tx : nat;  (* of net_tx_ip() *)
}.

Definition set_conn (v : tcpconn) (w : world) : world :=
  World v (heap w) (table w) (tcp_conns w) (trace w) (next_sid w) (n_time w) (n_alloc w) (n_tx w).
Definition set_heap (v : gmap nat seg) (w : world) : world :=
  World (conn w) v (table w) (tcp_conns w) (trace w) (next_sid w) (n_time w) (n_alloc w) (n_tx w).
Definition set_table (v : ttable) (w : world) : world :=
  World (conn w) (heap w) v (tcp_conns w) (trace w) (next_sid w) (n_time w) (n_alloc w) (n_tx w).
Definition set_tcp_conns (v : list nat) (w : world) : world :=
  World (conn w) (heap w) (table w) v (trace w) (next_sid w) (n_time w) (n_alloc w) (n_tx w).
Definition set_trace (v : list event) (w : world) : world :=
  World (conn w) (heap w) (table w) (tcp_conns w) v (next_sid w) (n_time w) (n_alloc w) (n_tx w).
Definition set_next_sid (v : nat) (w : world) : world :=
  World (conn w) (heap w) (table w) (tcp_conns w) (trace w) v (n_time w) (n_alloc w) (n_tx w).
Definition set_n_time (v : nat) (w : world) : world :=
  World (conn w) (heap w) (table w) (tcp_conns w) (trace w) (next_sid w) v (n_alloc w) (n_tx w).
Definition set_n_alloc (v : nat) (w : world) : world :=
  World (conn w) (heap w) (table w) (tcp_conns w) (trace w) (next_sid w) (n_time w) v (n_tx w).
Definition set_n_tx (v : nat) (w : world) : world :=
  World (conn w) (heap w) (table w) (tcp_conns w) (trace w) (next_sid w) (n_time w) (n_alloc w) v.

(** What the surroundings answer, call by call: the clock, the bytes of the buffer
    an allocation returns (if it succeeds), the answer of [arp_lookup] and the IP
    identification in [net_tx_ip]; and the configuration. *)
Record env := Env {
  e_time : nat -> Z;
  e_alloc : nat -> option (list Z);
  e_arp : nat -> lookup_result;
  e_ipid : nat -> Z;
  e_cfg : net_cfg;
  e_crc32 : Z -> Z -> Z;
  e_seed : Z;
}.

(** ** The monad *)

Inductive out (A : Type) : Type :=
| Ret (a : A) (w : world)
| Park (w : world)
| Stop.
Arguments Ret {A} _ _.
Arguments Park {A} _.
Arguments Stop {A}.

Definition M (A : Type) : Type := world -> out A.

#[export] Instance M_ret : MRet M := fun A a w => Ret a w.
#[export] Instance M_bind : MBind M := fun A B f m w =>
  match m w with Ret a w => f a w | Park w => Park w | Stop => Stop end.

Lemma bind_Ret {A B} (m : M A) (f : A -> M B) w a w' : m w = Ret a w' -> (m ≫= f) w = f a w'.
Proof. intros H. unfold mbind, M_bind. by rewrite H. Qed.

Definition getw : M world := fun w => Ret w w.
Definition modw (f : world -> world) : M unit := fun w => Ret tt (f w).
Definition getc : M tcpconn := fun w => Ret (conn w) w.
Definition modc (f : tcpconn -> tcpconn) : M unit := fun w => Ret tt (set_conn (f (conn w)) w).
Definition modp (f : tcp_pcb -> tcp_pcb) : M unit := modc (fun c => set_pcb (f (pcb c)) c).
Definition emit (e : event) : M unit := modw (fun w => set_trace (trace w ++ [e]) w).
Definition stop {A} : M A := fun _ => Stop.
Definition park {A} : M A := fun w => Park w.
Definition assert_ (b : bool) : M unit := if b then mret tt else stop.
Definition when (b : bool) (m : M unit) : M unit := if b then m else mret tt.

(** A computation of the layers below. *)
Definition lift {A} (r : res A) : M A := match r with Ok a => mret a | Bug => stop end.

Fixpoint mapM_ {A} (f : A -> M unit) (l : list A) : M unit :=
  match l with [] => mret tt | a :: l => _ ← f a; mapM_ f l end.

(** *** Total correctness: the computation returns, in a state with [Q]. *)
Definition wp {A} (m : M A) (w : world) (Q : A -> world -> Prop) : Prop := exists a w', m w = Ret a w' /\ Q a w'.

Lemma wp_bind {A B} (m : M A) (f : A -> M B) w Q : wp m w (fun a w' => wp (f a) w' Q) -> wp (m ≫= f) w Q.
Proof. intros (a & w' & E & b & w'' & E' & H). exists b, w''. by rewrite (bind_Ret _ _ _ _ _ E). Qed.

Lemma wp_mono {A} (m : M A) w (P Q : A -> world -> Prop) :
  wp m w P -> (forall a w', P a w' -> Q a w') -> wp m w Q.
Proof. intros (a & w' & E & H) HPQ. exists a, w'. auto. Qed.

Lemma wp_ret {A} (a : A) w (Q : A -> world -> Prop) : Q a w -> wp (mret a) w Q.
Proof. intros H. by exists a, w. Qed.

Lemma wp_getc {B} (f : tcpconn -> M B) w Q : wp (f (conn w)) w Q -> wp (getc ≫= f) w Q.
Proof. intros H. apply wp_bind. by exists (conn w), w. Qed.

Lemma wp_getw {B} (f : world -> M B) w Q : wp (f w) w Q -> wp (getw ≫= f) w Q.
Proof. intros H. apply wp_bind. by exists w, w. Qed.

Lemma wp_modw g w (Q : unit -> world -> Prop) : Q tt (g w) -> wp (modw g) w Q.
Proof. intros H. by exists tt, (g w). Qed.

Lemma wp_modc g w (Q : unit -> world -> Prop) : Q tt (set_conn (g (conn w)) w) -> wp (modc g) w Q.
Proof. intros H. by exists tt, (set_conn (g (conn w)) w). Qed.

Lemma wp_modp g w (Q : unit -> world -> Prop) :
  Q tt (set_conn (set_pcb (g (pcb (conn w))) (conn w)) w) -> wp (modp g) w Q.
Proof. apply wp_modc. Qed.

Lemma wp_emit e w (Q : unit -> world -> Prop) : Q tt (set_trace (trace w ++ [e]) w) -> wp (emit e) w Q.
Proof. apply wp_modw. Qed.

Lemma wp_assert b w (Q : unit -> world -> Prop) : b = true -> Q tt w -> wp (assert_ b) w Q.
Proof. intros -> H. by apply wp_ret. Qed.

Lemma wp_when (b : bool) m w (Q : unit -> world -> Prop) :
  (b = true -> wp m w Q) -> (b = false -> Q tt w) -> wp (when b m) w Q.
Proof. intros H1 H2. destruct b; [by apply H1|apply wp_ret; by apply H2]. Qed.

Lemma wp_if {A} (b : bool) (m1 m2 : M A) w Q :
  (b = true -> wp m1 w Q) -> (b = false -> wp m2 w Q) -> wp (if b then m1 else m2) w Q.
Proof. destruct b; auto. Qed.

Lemma wp_lift {A} (r : res A) a w (Q : A -> world -> Prop) : r = Ok a -> Q a w -> wp (lift r) w Q.
Proof. intros -> H. by apply wp_ret. Qed.

(** One step of a monadic computation. *)
Ltac wstep :=
  lazymatch goal with
  | |- wp (mbind _ getc) _ _ => apply wp_getc
  | |- wp (mbind _ getw) _ _ => apply wp_getw
  | |- wp (mbind _ _) _ _ => apply wp_bind
  | |- wp (mret _) _ _ => apply wp_ret
  | |- wp (modc _) _ _ => apply wp_modc
  | |- wp (modp _) _ _ => apply wp_modp
  | |- wp (modw _) _ _ => apply wp_modw
  | |- wp (emit _) _ _ => apply wp_emit
  | |- wp (when _ _) _ _ => apply wp_when
  | |- wp (if _ then _ else _) _ _ => apply wp_if
  end.

Definition has (flags f : Z) : bool := negb (Z.land flags f =? 0).

(** *** Locks and wait queues *)

Definition spin_lock_np : M unit :=
  c ← getc; if c_lock c then stop else modc (set_c_lock true).
Definition spin_unlock_np : M unit :=
  c ← getc; if c_lock c then modc (set_c_lock false) else stop.
Definition assert_spin_lock_held : M unit := c ← getc; assert_ (c_lock c).

Lemma lock_held w : c_lock (conn w) = true -> assert_spin_lock_held w = Ret tt w.
Proof. intros H. unfold assert_spin_lock_held, mbind, M_bind, getc. by rewrite H. Qed.

(** [waitq_wait] of thread [self], up to the point where it parks. *)
Definition waitq_wait_rx {A} (self : nat) : M A :=
  _ ← assert_spin_lock_held;
  _ ← modc (fun c => set_rx_wq (rx_wq c ++ [self]) c);
  _ ← spin_unlock_np;
  park.

Definition waitq_wait_tx {A} (self : nat) : M A :=
  _ ← assert_spin_lock_held;
  _ ← modc (fun c => set_tx_wq (tx_wq c ++ [self]) c);
  _ ← spin_unlock_np;
  park.

(** [waitq_signal] on the receive queue. *)
Definition waitq_signal_rx : M (option nat) :=
  _ ← assert_spin_lock_held;
  c ← getc;
  match rx_wq c with
  | [] => mret None
  | th :: q => _ ← modc (set_rx_wq q); mret (Some th)
  end.

Definition waitq_signal_finish (th : option nat) : M unit :=
  match th with Some th => emit (EvReady th) | None => mret tt end.

Definition waitq_release_finish (ths : list nat) : M unit := mapM_ (fun th => emit (EvReady th)) ths.

(** [waitq_release_start] moves the waiters to a list, [waitq_release] wakes them. *)
Definition waitq_release_start_rx : M (list nat) := c ← getc; _ ← modc (set_rx_wq []); mret (rx_wq c).
Definition waitq_release_start_tx : M (list nat) := c ← getc; _ ← modc (set_tx_wq []); mret (tx_wq c).
Definition waitq_release_rx : M unit := ths ← waitq_release_start_rx; waitq_release_finish ths.
Definition waitq_release_tx : M unit := ths ← waitq_release_start_tx; waitq_release_finish ths.

(** *** Buffers of the transmit side *)

Definition get_seg (m : nat) : M seg :=
  w ← getw; match heap w !! m with Some s => mret s | None => stop end.
Definition put_seg (s : seg) : M unit := modw (fun w => set_heap (<[sid s := s]> (heap w)) w).
Definition mod_seg (m : nat) (f : seg -> seg) : M unit := s ← get_seg m; put_seg (f s).
Definition mod_mb (m : nat) (f : mbuf -> res mbuf) : M unit :=
  s ← get_seg m; b ← lift (f (mb s)); put_seg (set_mb b s).

(** [mbuf_free]: calls the release method. *)
Definition mbuf_free (m : nat) : M unit :=
  s ← get_seg m;
  let gone := _ ← modw (fun w => set_heap (delete m (heap w)) w); emit (EvFree m) in
  match release s with
  | tcp_tx_release_mbuf =>
      _ ← put_seg (set_sref (sref s - 1) s);
      if sref s - 1 =? 0 then gone else mret tt
  | _ => gone
  end.

Definition mbuf_list_free (q : list nat) : M unit := mapM_ mbuf_free q.

(** [mbuf_free] of received mbufs, which are not in the heap. *)
Definition rx_free (s : seg) : M unit := emit (EvFree (sid s)).

(** *** Reference counts of the connection *)

Definition tcp_conn_get : M unit :=
  c ← getc; _ ← assert_ (0 <? c_ref c); modc (set_c_ref (c_ref c + 1)).

Section env.
Context (E : env).

Definition microtime : M Z :=
  w ← getw; _ ← modw (set_n_time (S (n_time w))); mret (e_time E (n_time w)).

(** A fresh transmit buffer, as [net_tx_alloc_mbuf] initialises it; the TCP fields
    are not initialised (here 0). *)
Definition tx_alloc : M (option nat) :=
  w ← getw;
  _ ← modw (set_n_alloc (S (n_alloc w)));
  match e_alloc E (n_alloc w) with
  | None => mret None
  | Some bytes =>
      b ← lift (net_tx_alloc_mbuf bytes);
      let m := next_sid w in
      _ ← modw (set_next_sid (S m));
      _ ← put_seg (Seg m b 0 0 0 0 0 net_tx_release_mbuf);
      mret (Some m)
  end.

(** [net_tx_ip(m, IPPROTO_TCP, daddr)]. *)
Definition tx_ip (m : nat) (daddr : Z) : M Z :=
  w ← getw;
  _ ← modw (set_n_tx (S (n_tx w)));
  s ← get_seg m;
  '(ret, b) ← lift (net_tx_ip (e_cfg E) IPPROTO_TCP daddr (e_ipid E (n_tx w)) (e_arp E (n_tx w)) (mb s));
  _ ← put_seg (set_mb b s);
  _ ← emit (EvTx m daddr (payload (mb s)) ret);
  mret ret.
End env.
