(* ===== verification/TcpOut.v ===== *)
(** * runtime/net/tcp_out.c: the egress path of TCP *)

From S2P Require Import Prelude Stddef Mbuf Chksum Transport Arp Core TcpState.

(** The checksum of the pseudo header (without direct hardware access). *)
Definition tcp_hdr_chksum (local_ip remote_ip l : Z) : Z :=
  ipv4_phdr_cksum IPPROTO_TCP local_ip remote_ip (u16 (sizeof_tcp_hdr + l)).

(** [mbuf_push_hdr] and the stores to the fields of the header; the unused bits next
    to the data offset and the urgent pointer keep what the buffer held. *)
Definition write_tcphdr (sport dport seq ack fl win sum : Z) (m : mbuf) : res mbuf :=
  '(p, m) ← mbuf_push sizeof_tcp_hdr m;
  x2 ← read8 m (p + 12);
  urp ← read_bytes m (p + 18) 2;
  write_bytes p (hton16 sport ++ hton16 dport ++ hton32 seq ++ hton32 ack ++ [80 + x2 mod 16; fl] ++
                 hton16 win ++ [sum mod 256; sum / 256] ++ urp) m.

Section env.
Context (E : env).

Definition tcp_push_tcphdr (m : nat) (fl l4len : Z) : M unit :=
  c ← getc;
  let ack := rcv_nxt (pcb c) in
  let win := u16 (rcv_wnd (pcb c)) in
  _ ← modc (fun c => set_tx_last_win win (set_tx_last_ack ack c));
  s ← get_seg m;
  let sum := tcp_hdr_chksum (Transport.ip (laddr (c_e c))) (Transport.ip (raddr (c_e c))) (u16 l4len) in
  mod_mb m (fun b =>
    b ← write_tcphdr (port (laddr (c_e c))) (port (raddr (c_e c))) (seg_seq s) ack fl win sum b;
    mbuf_mark_transport_offset b).

Definition set_mb_txflags (f : Z) (s : seg) : seg := set_mb (set_meta (csum_type (mb s)) (csum (mb s)) f (mb s)) s.

Definition tcp_tx_raw_rst (l r : netaddr) (seq : Z) : M Z :=
  m ← tx_alloc E;
  match m with
  | None => mret (- ENOMEM)
  | Some m =>
      _ ← mod_seg m (set_mb_txflags OLFLAG_TCP_CHKSUM);
      _ ← mod_mb m (write_tcphdr (port l) (port r) seq 0 TCP_RST 0
                      (tcp_hdr_chksum (Transport.ip l) (Transport.ip r) 0));
      ret ← tx_ip E m (Transport.ip r);
      _ ← when (negb (ret =? 0)) (mbuf_free m);
      mret ret
  end.

Definition tcp_tx_raw_rst_ack (l r : netaddr) (seq ack : Z) : M Z :=
  m ← tx_alloc E;
  match m with
  | None => mret (- ENOMEM)
  | Some m =>
      _ ← mod_seg m (set_mb_txflags OLFLAG_TCP_CHKSUM);
      _ ← mod_mb m (write_tcphdr (port l) (port r) seq ack (Z.lor TCP_RST TCP_ACK) 0
                      (tcp_hdr_chksum (Transport.ip l) (Transport.ip r) 0));
      ret ← tx_ip E m (Transport.ip r);
      _ ← when (negb (ret =? 0)) (mbuf_free m);
      mret ret
  end.

Definition tcp_tx_ack : M Z :=
  m ← tx_alloc E;
  match m with
  | None => mret (- ENOMEM)
  | Some m =>
      c ← getc;
      _ ← mod_seg m (fun s => set_seg_seq (snd_nxt (pcb c)) (set_mb_txflags OLFLAG_TCP_CHKSUM s));
      _ ← tcp_push_tcphdr m TCP_ACK 0;
      ret ← tx_ip E m (Transport.ip (raddr (c_e c)));
      _ ← when (negb (ret =? 0)) (mbuf_free m);
      mret ret
  end.

Definition tcp_tx_ctl (fl : Z) : M Z :=
  c ← getc;
  _ ← assert_ (tx_exclusive c || c_lock c);
  m ← tx_alloc E;
  match m with
  | None => mret (- ENOMEM)
  | Some m =>
      _ ← mod_seg m (fun s =>
            set_flags fl (set_seg_end (u32 (snd_nxt (pcb c) + 1)) (set_seg_seq (snd_nxt (pcb c))
              (set_mb_txflags OLFLAG_TCP_CHKSUM s))));
      _ ← tcp_push_tcphdr m fl 0;
      _ ← modp (fun p => set_snd_nxt (u32 (snd_nxt p + 1)) p);
      _ ← modc (fun c => set_txq (txq c ++ [m]) c);
      now ← microtime E;
      _ ← mod_seg m (fun s => set_release tcp_tx_release_mbuf (set_sref 2 (set_timestamp now s)));
      ret ← tx_ip E m (Transport.ip (raddr (c_e c)));
      (* pretend the packet was sent *)
      _ ← when (negb (ret =? 0)) (mod_seg m (set_sref 1));
      mret ret
  end.

(** *** The segmenter

    [buf] is what is left to send.  The first step of the loop finds the buffer and
    how many bytes go into it; [mbuf_length(m) - sizeof(struct tcp_hdr) < TCP_MSS] is
    a comparison of unsigned 64-bit numbers. *)
Definition tx_segment_buf (left : Z) : M (option (nat * Z)) :=
  c ← getc;
  match tx_pending c with
  | Some m =>
      _ ← modc (set_tx_pending None);
      s ← get_seg m;
      let seglen := Z.min left (u64 (TCP_MSS - mbuf_length (mb s))) in
      _ ← put_seg (set_seg_end (u32 (seg_end s + seglen)) s);
      mret (Some (m, seglen))
  | None =>
      m ← tx_alloc E;
      match m with
      | None => mret None
      | Some m =>
          let seglen := Z.min left TCP_MSS in
          _ ← mod_seg m (fun s =>
                set_release tcp_tx_release_mbuf (set_sref 2 (set_flags TCP_ACK
                  (set_seg_end (u32 (snd_nxt (pcb c) + seglen)) (set_seg_seq (snd_nxt (pcb c)) s)))));
          mret (Some (m, seglen))
      end
  end.

(** The rest of the loop body: [None] when the buffer is kept as [tx_pending]. *)
Definition tx_segment_send (m : nat) (push last : bool) : M (option Z) :=
  s ← get_seg m;
  if negb push && last && (u64 (mbuf_length (mb s) - sizeof_tcp_hdr) <? TCP_MSS)
  then _ ← modc (set_tx_pending (Some m)); mret None
  else
    _ ← when (push && last) (mod_seg m (fun s => set_flags (Z.lor (flags s) TCP_PUSH) s));
    s ← get_seg m;
    _ ← tcp_push_tcphdr m (flags s) (u16 (seg_end s - seg_seq s));
    _ ← modc (fun c => set_txq (txq c ++ [m]) c);
    now ← microtime E;
    _ ← mod_seg m (fun s => set_mb_txflags OLFLAG_TCP_CHKSUM (set_timestamp now s));
    c ← getc;
    ret ← tx_ip E m (Transport.ip (raddr (c_e c)));
    (* pretend the packet was sent *)
    _ ← when (negb (ret =? 0)) (mod_seg m (set_sref 1));
    mret (Some ret).

(** Returns [ret] and the bytes that were not consumed. *)
Fixpoint tcp_tx_send_loop (fuel : nat) (buf : list Z) (push : bool) (ret : Z) : M (Z * list Z) :=
  match fuel with
  | O => stop
  | S fuel =>
      r ← tx_segment_buf (Z.of_nat (length buf));
      match r with
      | None => mret (- ENOBUFS, buf)
      | Some (m, seglen) =>
          _ ← mod_mb m (mbuf_append (take (Z.to_nat seglen) buf));
          _ ← modp (fun p => set_snd_nxt (u32 (snd_nxt p + seglen)) p);
          let rest := drop (Z.to_nat seglen) buf in
          r ← tx_segment_send m push (bool_decide (rest = []));
          match r with
          | None => mret (ret, rest)
          | Some ret => if bool_decide (rest = []) then mret (ret, rest) else tcp_tx_send_loop fuel rest push ret
          end
      end
  end.

Definition tcp_tx_send (buf : list Z) (push : bool) : M Z :=
  c ← getc;
  _ ← assert_ (negb (st_lt (state (pcb c)) TCP_STATE_ESTABLISHED));
  _ ← assert_ (tx_exclusive c || c_lock c);
  '(ret, rest) ← tcp_tx_send_loop (S (S (length buf))) buf push 0;
  let sent := Z.of_nat (length buf) - Z.of_nat (length rest) in
  mret (if 0 <? sent then sent else ret).

(** *** Retransmission *)

(** The end of [tcp_tx_retransmit_one]: the packet, stripped of its headers, is sent from
    the first byte that is not acknowledged. *)
Definition tx_retransmit_send (m : nat) (l4len : Z) : M Z :=
  c ← getc;
  s ← get_seg m;
  let una := snd_una (pcb c) in
  if wraps_lte (seg_end s) una then _ ← mbuf_free m; mret 0
  else
    _ ← when (wraps_lt (seg_seq s) una)
          (_ ← mod_mb m (fun b => '(_, b) ← mbuf_pull (u32 (una - seg_seq s)) b; Ok b);
           mod_seg m (set_seg_seq una));
    s ← get_seg m;
    _ ← tcp_push_tcphdr m (flags s) l4len;
    ret ← tx_ip E m (Transport.ip (raddr (c_e c)));
    _ ← when (negb (ret =? 0)) (mbuf_free m);
    mret ret.

Definition tcp_tx_retransmit_one (m : nat) : M Z :=
  s ← get_seg m;
  let l4len := u16 (seg_end s - seg_seq s) in
  let l4len := if has (flags s) (Z.lor TCP_SYN TCP_FIN) then u16 (l4len - 1) else l4len in
  if negb (sref s =? 1) then
    newm ← tx_alloc E;
    match newm with
    | None => mret (- ENOMEM)
    | Some n =>
        bytes ← lift (read_bytes (mb s) (transport_off (mb s) + sizeof_tcp_hdr) l4len);
        _ ← mod_mb n (mbuf_append bytes);
        _ ← mod_seg n (fun t => set_mb_txflags OLFLAG_TCP_CHKSUM
               (set_seg_end (seg_end s) (set_seg_seq (seg_seq s) (set_flags (flags s) t))));
        tx_retransmit_send n l4len
    end
  else
    _ ← mod_mb m (fun b => mbuf_reset (transport_off b + sizeof_tcp_hdr) b);
    _ ← mod_seg m (set_sref 2);
    tx_retransmit_send m l4len.

Definition tcp_tx_fast_retransmit_start : M (option nat) :=
  _ ← assert_spin_lock_held;
  c ← getc;
  if tx_exclusive c then mret None
  else
    match txq c with
    | [] => mret None
    | m :: _ =>
        now ← microtime E;
        _ ← mod_seg m (fun s => set_sref (sref s + 1) (set_timestamp now s));
        mret (Some m)
    end.

Definition tcp_tx_fast_retransmit_finish (m : option nat) : M unit :=
  match m with
  | None => mret tt
  | Some m => _ ← tcp_tx_retransmit_one m; mbuf_free m
  end.

Fixpoint tcp_tx_retransmit_loop (q : list nat) (now count : Z) : M unit :=
  match q with
  | [] => mret tt
  | m :: q =>
      s ← get_seg m;
      if u64 (now - timestamp s) <? TCP_RETRANSMIT_TIMEOUT then mret tt
      else
        c ← getc;
        if wraps_gte (snd_una (pcb c)) (seg_end s) then tcp_tx_retransmit_loop q now count
        else
          _ ← put_seg (set_timestamp now s);
          ret ← tcp_tx_retransmit_one m;
          if negb (ret =? 0) then mret tt
          else if count + 1 >=? TCP_RETRANSMIT_BATCH then mret tt
          else tcp_tx_retransmit_loop q now (count + 1)
  end.

Definition tcp_tx_retransmit : M unit :=
  now ← microtime E;
  c ← getc;
  _ ← assert_ (c_lock c || tx_exclusive c);
  tcp_tx_retransmit_loop (txq c) now 0.
End env.

(** ** Headers *)

Definition tcphdr_bytes (sport dport seq ack x2 fl win sum : Z) (urp : list Z) : list Z :=
  hton16 sport ++ hton16 dport ++ hton32 seq ++ hton32 ack ++ [80 + x2 mod 16; fl] ++
  hton16 win ++ [sum mod 256; sum / 256] ++ urp.

Lemma length_tcphdr_bytes sport dport seq ack x2 fl win sum urp :
  length urp = 2%nat -> length (tcphdr_bytes sport dport seq ack x2 fl win sum urp) = 20%nat.
Proof. intros H. unfold tcphdr_bytes. rewrite !length_app, H. done. Qed.

(** Reading inside of the buffer. *)
Lemma read_bytes_ok m off n :
  0 <= off -> 0 <= n -> off + n <= Z.of_nat (length (head m)) ->
  exists l, read_bytes m off n = Ok l /\ Z.of_nat (length l) = n.
Proof.
  intros H1 H2 H3. unfold read_bytes, in_buffer.
  rewrite (proj2 (Z.leb_le 0 off)), (proj2 (Z.leb_le 0 n)), (proj2 (Z.leb_le _ _)) by lia.
  eexists. split; [done|]. rewrite length_take, length_drop. lia.
Qed.

(** The header in front of the packet. *)
Lemma write_tcphdr_ok sport dport seq ack fl win sum m :
  mbuf_ok m -> sizeof_tcp_hdr <= data m ->
  exists m' x2 urp, write_tcphdr sport dport seq ack fl win sum m = Ok m' /\ mbuf_ok m' /\
    length urp = 2%nat /\ payload m' = tcphdr_bytes sport dport seq ack x2 fl win sum urp ++ payload m /\
    data m' = data m - sizeof_tcp_hdr /\ len m' = len m + sizeof_tcp_hdr /\ same_meta m m'.
Proof.
  intros Hm Hd. unfold sizeof_tcp_hdr in *. assert (Hm' := Hm). destruct Hm'.
  set (m1 := set_window (data m - 20) (len m + 20) m).
  assert (Ep : mbuf_push 20 m = Ok (data m - 20, m1)).
  { unfold mbuf_push. destruct (Z.ltb_spec (data m - 20) 0); [lia|]. cbn. rewrite u32_id by (unfold in_u32; lia). done. }
  destruct (read_bytes_ok m1 (data m - 20 + 12) 1) as (l1 & E1 & L1); [cbn; lia..|].
  destruct l1 as [|x2 [|]]; cbn in L1; try lia.
  destruct (read_bytes_ok m1 (data m - 20 + 18) 2) as (urp & E2 & L2); [cbn; lia..|].
  assert (Hurp : length urp = 2%nat) by lia.
  set (hdr := tcphdr_bytes sport dport seq ack x2 fl win sum urp).
  assert (Hl : length hdr = 20%nat) by by apply length_tcphdr_bytes.
  destruct (mbuf_prepend_ok hdr m Hm) as (m' & E & Hok & Hpay & Hda & Hle & Hmeta); [rewrite Hl; lia|].
  rewrite Hl in *. exists m', x2, urp. split_and!; auto.
  unfold write_tcphdr, sizeof_tcp_hdr, mbuf_prepend in *. rewrite Hl in E.
  change (Z.of_nat 20) with 20 in E. rewrite Ep in E |- *. cbn [mbind res_bind] in E |- *.
  unfold read8. rewrite E1. cbn [mbind res_bind]. rewrite E2. exact E.
Qed.

(** The surroundings behave: buffers have their size, addresses are Ethernet ones. *)
Record env_ok (E : env) : Prop := {
  eo_mac : length (cfg_mac (e_cfg E)) = 6%nat;
  eo_arp : forall n d, e_arp E n = Found d -> length d = 6%nat;
  eo_alloc : forall n b, e_alloc E n = Some b -> Z.of_nat (length b) = MBUF_DEFAULT_LEN - MBUF_RESERVED;
}.

(** Sending always succeeds or gives the packet back as it was. *)
Lemma net_tx_ip_total cfg proto daddr id arp m :
  mbuf_ok m -> 34 <= data m -> length (cfg_mac cfg) = 6%nat -> (forall d, arp = Found d -> length d = 6%nat) ->
  exists ret m', net_tx_ip cfg proto daddr id arp m = Ok (ret, m') /\ mbuf_ok m' /\
    (ret = 0 \/ ret = - ENOMEM) /\ (ret <> 0 -> payload m' = payload m /\ data m' = data m /\ len m' = len m) /\
    data m' + len m' = data m + len m /\ transport_off m' = transport_off m /\ head_len m' = head_len m /\
    length (head m') = length (head m).
Proof.
  intros Hm Hd H1 H2. unfold net_tx_ip, net_push_iphdr. set (hdr := iphdr_bytes _ _ _ _ _).
  destruct (mbuf_prepend_ok hdr m Hm) as (m1 & -> & Hm1 & Hp1 & Hd1 & Hl1 & Hh1 & Hb1 & _ & _ & _ & _ & Ht1);
    [change (length hdr) with 20%nat; lia|].
  change (Z.of_nat (length hdr)) with 20 in *. cbn [mbind res_bind].
  set (m2 := or_txflags _ m1). assert (Hm2 : mbuf_ok m2) by (destruct Hm1; by split).
  destruct arp as [d| |].
  - set (e := d ++ cfg_mac cfg ++ hton16 ETHTYPE_IP).
    assert (He : length e = 14%nat) by (unfold e; rewrite !length_app, H1, (H2 d) by done; done).
    unfold net_tx_eth. fold e.
    destruct (mbuf_prepend_ok e m2 Hm2) as (m3 & -> & Hm3 & Hp3 & Hd3 & Hl3 & Hh3 & Hb3 & _ & _ & _ & _ & Ht3);
      [change (data m2) with (data m1); rewrite He; lia|].
    rewrite He in *. cbn in Hd3, Hl3, Hh3, Hb3, Ht3. exists 0, m3. split_and!; auto; try done; try lia; congruence.
  - assert (Hpull := mbuf_pull_ok 20 m2 Hm2 ltac:(done)). unfold sizeof_ip_hdr.
    assert (E : mbuf_pull 20 m2 = Ok (__mbuf_pull 20 m2)).
    { unfold mbuf_pull. destruct Hm. rewrite Z.gtb_ltb, (proj2 (Z.ltb_ge _ _)); [done|]. cbn. lia. }
    rewrite E in Hpull |- *. cbn in Hpull |- *. destruct Hpull as (_ & _ & Hm3 & Hp3).
    assert (El : u32 (len m1 - 20) = len m) by (rewrite u32_id; destruct Hm; unfold in_u32; lia).
    rewrite El in *. eexists _, _. split; [reflexivity|]. split; [exact Hm3|]. cbn. split_and!; try lia; try congruence.
    + intros _. split_and!; [|lia|done].
      etransitivity; [exact Hp3|]. transitivity (drop 20 (payload m1)); [done|]. by rewrite Hp1.
  - exists 0, m2. split_and!; auto; try done; cbn; lia.
Qed.

(** ** Running the operations

    A fresh buffer, with the room that [net_tx_alloc_mbuf] leaves for headers. *)
Definition fresh_buf (b : mbuf) : Prop :=
  mbuf_ok b /\ data b = MBUF_DEFAULT_HEADROOM /\ len b = 0 /\ Z.of_nat (length (head b)) = 1920.

Lemma tx_alloc_run E w :
  env_ok E ->
  tx_alloc E w = Ret None (set_n_alloc (S (n_alloc w)) w) \/
  exists b, fresh_buf b /\
    tx_alloc E w = Ret (Some (next_sid w))
      (set_heap (<[next_sid w := Seg (next_sid w) b 0 0 0 0 0 net_tx_release_mbuf]> (heap w))
        (set_next_sid (S (next_sid w)) (set_n_alloc (S (n_alloc w)) w))).
Proof.
  intros HE. unfold tx_alloc, getw, modw, put_seg, mbind, M_bind.
  destruct (e_alloc E (n_alloc w)) as [bytes|] eqn:Ea; [|by left]. right.
  assert (Hl := eo_alloc E HE _ _ Ea). change (MBUF_DEFAULT_LEN - MBUF_RESERVED) with 1920 in Hl.
  eexists. split; [|reflexivity]. split_and!; [|done..].
  split; cbn [head data len head_len set_meta]; change (MBUF_DEFAULT_LEN - MBUF_RESERVED) with 1920;
    unfold MBUF_DEFAULT_HEADROOM, M32; lia.
Qed.

(** What sending leaves alone: the connection, up to what was acknowledged last, and
    the other buffers. *)
Record tx_frame (w w' : world) : Prop := {
  tf_conn : exists a v, conn w' = set_tx_last_win v (set_tx_last_ack a (conn w));
  tf_heap : forall i, (i < next_sid w)%nat -> heap w' !! i = heap w !! i;
  tf_next : (next_sid w <= next_sid w')%nat;
  tf_table : table w' = table w /\ tcp_conns w' = tcp_conns w;
  tf_trace : exists t, trace w' = trace w ++ t;
}.

Lemma tx_last_id c : c = set_tx_last_win (tx_last_win c) (set_tx_last_ack (tx_last_ack c) c).
Proof. by destruct c. Qed.

#[export] Instance tx_frame_refl : Reflexive tx_frame.
Proof. intros w. split; auto; [do 2 eexists; apply tx_last_id|exists []; by rewrite app_nil_r]. Qed.

#[export] Instance tx_frame_trans : Transitive tx_frame.
Proof.
  intros w1 w2 w3 [(a1 & v1 & C1) H1 N1 [T1 T1'] [t1 E1]] [(a2 & v2 & C2) H2 N2 [T2 T2'] [t2 E2]]. split.
  - exists a2, v2. rewrite C2, C1. done.
  - intros i Hi. rewrite H2, H1 by lia. done.
  - lia.
  - split; congruence.
  - exists (t1 ++ t2). rewrite E2, E1, app_assoc. done.
Qed.

(** [tcp_push_tcphdr] on a buffer with headroom. *)
Lemma tcp_push_tcphdr_run m s fl l4len w :
  heap w !! m = Some s -> sid s = m -> mbuf_ok (mb s) -> 20 <= data (mb s) <= USHRT_MAX ->
  let c := conn w in
  exists b x2 urp sum,
    tcp_push_tcphdr m fl l4len w =
      Ret tt (set_heap (<[m := set_mb b s]> (heap w))
        (set_conn (set_tx_last_win (u16 (rcv_wnd (pcb c))) (set_tx_last_ack (rcv_nxt (pcb c)) c)) w)) /\
    mbuf_ok b /\ length urp = 2%nat /\
    payload b = tcphdr_bytes (port (laddr (c_e c))) (port (raddr (c_e c))) (seg_seq s) (rcv_nxt (pcb c)) x2 fl
                  (u16 (rcv_wnd (pcb c))) sum urp ++ payload (mb s) /\
    sum = tcp_hdr_chksum (Transport.ip (laddr (c_e c))) (Transport.ip (raddr (c_e c))) (u16 l4len) /\
    data b = data (mb s) - 20 /\ len b = len (mb s) + 20 /\ transport_off b = data (mb s) - 20 /\
    head_len b = head_len (mb s) /\ length (head b) = length (head (mb s)).
Proof.
  intros Hh Hid Hm Hd c.
  edestruct (write_tcphdr_ok (port (laddr (c_e c))) (port (raddr (c_e c))) (seg_seq s) (rcv_nxt (pcb c)) fl
    (u16 (rcv_wnd (pcb c))) (tcp_hdr_chksum (Transport.ip (laddr (c_e c))) (Transport.ip (raddr (c_e c))) (u16 l4len))
    (mb s) Hm) as (b & x2 & urp & E & Hb & Hu & Hp & Hda & Hle & Hmeta); [unfold sizeof_tcp_hdr; lia|].
  unfold sizeof_tcp_hdr in *. destruct Hmeta as (Hhl & Hlh & _).
  exists (set_transport_off (data b) b), x2, urp, (tcp_hdr_chksum (Transport.ip (laddr (c_e c))) (Transport.ip (raddr (c_e c))) (u16 l4len)).
  split.
  - unfold tcp_push_tcphdr, mod_mb, get_seg, put_seg, getc, modc, getw, modw, mbind, M_bind, lift. fold c. cbn.
    rewrite Hh. cbn. rewrite Hh. cbn. fold c. rewrite E. cbn. unfold mbuf_mark_transport_offset.
    rewrite Z.gtb_ltb, (proj2 (Z.ltb_ge _ _)) by lia. cbn. by rewrite Hid.
  - split_and!; cbn; auto; try lia. destruct Hb; by split.
Qed.

(** [net_tx_ip] of a buffer of the heap. *)
Lemma tx_ip_run E m s daddr w :
  env_ok E -> heap w !! m = Some s -> sid s = m -> mbuf_ok (mb s) -> 34 <= data (mb s) ->
  exists ret b,
    tx_ip E m daddr w =
      Ret ret (set_trace (trace w ++ [EvTx m daddr (payload (mb s)) ret])
        (set_heap (<[m := set_mb b s]> (heap w)) (set_n_tx (S (n_tx w)) w))) /\
    mbuf_ok b /\ (ret = 0 \/ ret = - ENOMEM) /\
    (ret <> 0 -> payload b = payload (mb s) /\ data b = data (mb s) /\ len b = len (mb s)) /\
    data b + len b = data (mb s) + len (mb s) /\ transport_off b = transport_off (mb s) /\
    head_len b = head_len (mb s) /\ length (head b) = length (head (mb s)).
Proof.
  intros HE Hh Hid Hm Hd.
  destruct (net_tx_ip_total (e_cfg E) IPPROTO_TCP daddr (e_ipid E (n_tx w)) (e_arp E (n_tx w)) (mb s))
    as (ret & b & Eb & Hb & Hrest); auto; [apply HE|intros d; apply (eo_arp E HE)|].
  exists ret, b. split; [|by split].
  unfold tx_ip, get_seg, put_seg, getw, modw, emit, mbind, M_bind, lift. cbn. rewrite Hh. cbn. rewrite Eb. cbn.
  by rewrite Hid.
Qed.

(** A buffer whose release method is the default is freed at once. *)
Lemma mbuf_free_run m s w :
  heap w !! m = Some s -> release s = net_tx_release_mbuf ->
  mbuf_free m w = Ret tt (set_trace (trace w ++ [EvFree m]) (set_heap (delete m (heap w)) w)).
Proof.
  intros Hh Hr. unfold mbuf_free, get_seg, getw, modw, emit, mbind, M_bind. rewrite Hh. cbn. by rewrite Hr.
Qed.

(** The end of the functions that send a packet of their own: it is freed if it
    could not be sent. *)
Lemma send_or_free_run E m s daddr w :
  env_ok E -> heap w !! m = Some s -> sid s = m -> mbuf_ok (mb s) -> 34 <= data (mb s) ->
  release s = net_tx_release_mbuf ->
  exists ret w',
    (ret ← tx_ip E m daddr; _ ← when (negb (ret =? 0)) (mbuf_free m); mret ret) w = Ret ret w' /\
    (ret = 0 \/ ret = - ENOMEM) /\
    conn w' = conn w /\ (forall i, i <> m -> heap w' !! i = heap w !! i) /\ next_sid w' = next_sid w /\
    table w' = table w /\ tcp_conns w' = tcp_conns w /\ n_time w' = n_time w /\
    exists t, trace w' = trace w ++ EvTx m daddr (payload (mb s)) ret :: t.
Proof.
  intros HE Hh Hid Hm Hd Hr. destruct (tx_ip_run E m s daddr w HE Hh Hid Hm Hd) as (ret & b & E1 & _ & H0 & _).
  exists ret. rewrite (bind_Ret _ _ _ _ _ E1). set (w1 := set_trace _ _).
  assert (Hoth : forall i, i <> m -> heap w1 !! i = heap w !! i) by (intros i Hi; cbn; by rewrite lookup_insert_ne).
  destruct (Z.eqb_spec ret 0) as [Hz|Hz]; cbn [negb when].
  - exists w1. split_and!; auto. by exists [].
  - assert (E2 := mbuf_free_run m (set_mb b s) w1 ltac:(cbn; apply lookup_insert_eq) Hr).
    rewrite (bind_Ret _ _ _ _ _ E2). eexists. split; [reflexivity|]. split_and!; auto.
    + intros i Hi. rewrite <- Hoth by done. cbn. by rewrite lookup_delete_ne.
    + eexists. cbn. rewrite <- app_assoc. reflexivity.
Qed.

Lemma mod_seg_run m f s w :
  heap w !! m = Some s -> sid (f s) = m -> mod_seg m f w = Ret tt (set_heap (<[m := f s]> (heap w)) w).
Proof.
  intros Hh Hid. unfold mod_seg, get_seg, put_seg, getw, modw, mbind, M_bind. rewrite Hh. cbn. by rewrite Hid.
Qed.

Lemma fresh_buf_txflags b f : fresh_buf b -> fresh_buf (set_meta (csum_type b) (csum b) f b).
Proof. intros ([] & ? & ? & ?). split_and!; auto. by split. Qed.

(** An acknowledgement in a fresh buffer. *)
Lemma tcp_tx_ack_run E w :
  env_ok E -> exists ret w', tcp_tx_ack E w = Ret ret w' /\ tx_frame w w' /\ n_time w' = n_time w.
Proof.
  intros HE. unfold tcp_tx_ack.
  destruct (tx_alloc_run E w HE) as [Ea|(b & Hb & Ea)]; rewrite (bind_Ret _ _ _ _ _ Ea).
  { do 2 eexists. split; [done|]. split; [|done]. split; auto; [do 2 eexists; apply tx_last_id|exists []; by rewrite app_nil_r]. }
  set (m := next_sid w). set (w1 := set_heap _ _). rewrite (bind_Ret getc _ w1 (conn w) w1) by done.
  erewrite bind_Ret; [|apply mod_seg_run; [apply lookup_insert_eq|done]]. cbv beta.
  set (s1 := set_seg_seq _ _). set (w2 := set_heap _ w1).
  destruct (fresh_buf_txflags b OLFLAG_TCP_CHKSUM Hb) as (Hb1 & Hd1 & _).
  destruct (tcp_push_tcphdr_run m s1 TCP_ACK 0 w2) as (b2 & x2 & urp & sum & E2 & Hb2 & _ & _ & _ & Hd2 & _);
    [apply lookup_insert_eq|done|done|cbn in Hd1 |- *; rewrite Hd1; done|].
  rewrite (bind_Ret _ _ _ _ _ E2). set (w3 := set_heap _ _).
  destruct (send_or_free_run E m (set_mb b2 s1) (Transport.ip (raddr (c_e (conn w)))) w3 HE)
    as (ret & w4 & E4 & _ & C4 & H4 & N4 & T4 & T4' & NT & t & Tr4);
    [apply lookup_insert_eq|done|done|cbn in Hd1, Hd2 |- *; rewrite Hd2, Hd1; done|done|].
  exists ret, w4. split; [exact E4|]. split; [|exact NT]. split.
  - do 2 eexists. rewrite C4. reflexivity.
  - intros i Hi. rewrite H4 by (unfold m; lia). cbn. rewrite !lookup_insert_ne by (unfold m; lia). done.
  - rewrite N4. cbn. lia.
  - rewrite T4, T4'. done.
  - eexists. exact Tr4.
Qed.
