(* ===== verification/TcpConn.v ===== *)
(** * runtime/net/tcp.c: timers, state changes and life cycle of a connection *)

From S2P Require Import Prelude Stddef Mbuf Chksum Transport Arp Core TcpState TcpOut.

(** ** Definitions *)

(** [kref_put] with [tcp_conn_release_ref], which destroys the connection. *)
Definition tcp_conn_destroy (E : env) : M unit :=
  c ← getc;
  _ ← modw (fun w => set_table (trans_table_remove (eid (c_e c)) (table w)) w);
  emit EvDestroy.

Definition tcp_conn_release_ref (E : env) : M unit :=
  c ← getc;
  _ ← assert_ (st_eq (state (pcb c)) TCP_STATE_CLOSED);
  tcp_conn_destroy E.

Definition tcp_conn_put (E : env) : M unit :=
  c ← getc;
  _ ← modc (set_c_ref (c_ref c - 1));
  when (c_ref c - 1 =? 0) (tcp_conn_release_ref E).

Section env.
Context (E : env).

(** The timeouts of [tcp_timer_update] but the last, which needs the clock. *)
Definition conn_timeouts (c : tcpconn) (first_ts : option Z) : Z :=
  let t := M64 - 1 in
  let t := if st_eq (state (pcb c)) TCP_STATE_TIME_WAIT then u64 (wait_ts c + TCP_TIME_WAIT_TIMEOUT) else t in
  let t := if st_lt (state (pcb c)) TCP_STATE_ESTABLISHED then u64 (wait_ts c + TCP_CONNECT_TIMEOUT) else t in
  let t := if ack_delayed c then Z.min t (u64 (ack_ts c + TCP_ACK_TIMEOUT)) else t in
  match first_ts with Some ts => Z.min t (u64 (ts + TCP_RETRANSMIT_TIMEOUT)) | None => t end.

(** The time stamp of the first packet of the TX queue, if the queue may be looked at. *)
Definition txq_first_ts : M (option Z) :=
  c ← getc;
  if tx_exclusive c then mret None
  else match txq c with [] => mret None | m :: _ => s ← get_seg m; mret (Some (timestamp s)) end.

Definition tcp_timer_update : M unit :=
  _ ← assert_spin_lock_held;
  c ← getc;
  first ← txq_first_ts;
  let t := conn_timeouts c first in
  t ← match rxq_ooo c with
      | [] => mret t
      | _ => now ← microtime E; mret (Z.min t (u64 (now + TCP_OOQ_ACK_TIMEOUT)))
      end;
  modc (set_next_timeout t).

(** The loop of [tcp_conn_ack]: the packets that are fully acknowledged, and the rest. *)
Fixpoint acked_prefix (q : list nat) (una : Z) : M (list nat * list nat) :=
  match q with
  | [] => mret ([], [])
  | m :: q =>
      s ← get_seg m;
      if wraps_gt (seg_end s) una then mret ([], m :: q)
      else '(a, q) ← acked_prefix q una; mret (m :: a, q)
  end.

(** Returns the packets that are moved to [freeq]. *)
Definition tcp_conn_ack : M (list nat) :=
  _ ← assert_spin_lock_held;
  c ← getc;
  if tx_exclusive c then mret []
  else
    '(a, q) ← acked_prefix (txq c) (snd_una (pcb c));
    _ ← modc (set_txq q);
    mret a.

Definition tcp_conn_set_state (new_state : tcp_state) : M unit :=
  _ ← assert_spin_lock_held;
  c ← getc;
  _ ← assert_ (st_eq (state (pcb c)) TCP_STATE_CLOSED || st_lt (state (pcb c)) new_state);
  _ ← when (st_lt (state (pcb c)) TCP_STATE_ESTABLISHED && negb (st_lt new_state TCP_STATE_ESTABLISHED))
        waitq_release_tx;
  _ ← modp (set_state new_state);
  tcp_timer_update.

Definition tcp_conn_shutdown_rx : M unit :=
  _ ← assert_spin_lock_held;
  c ← getc;
  if rx_closed c then mret tt
  else _ ← modc (set_rx_closed true); waitq_release_rx.

Definition tcp_conn_fail (e : Z) : M unit :=
  _ ← assert_spin_lock_held;
  _ ← modc (set_err e);
  _ ← tcp_conn_set_state TCP_STATE_CLOSED;
  _ ← tcp_conn_shutdown_rx;
  c ← getc;
  _ ← when (negb (tx_closed c)) (_ ← modc (set_tx_closed true); waitq_release_tx);
  c ← getc;
  (* will be freed by the writer if one is busy *)
  _ ← when (negb (tx_exclusive c))
        (_ ← modc (set_txq []);
         _ ← mbuf_list_free (txq c);
         match tx_pending c with
         | Some m => _ ← mbuf_free m; modc (set_tx_pending None)
         | None => mret tt
         end);
  _ ← when (negb (rx_exclusive c)) (_ ← modc (set_rxq []); mapM_ rx_free (rxq c));
  _ ← modc (set_rxq_ooo []);
  _ ← mapM_ rx_free (rxq_ooo c);
  (* state machine is disabled, drop ref *)
  tcp_conn_put E.

Definition tcp_conn_err (e : Z) : M unit :=
  _ ← spin_lock_np;
  _ ← tcp_conn_fail e;
  spin_unlock_np.

(** [tcp_conn_alloc] when [smalloc] succeeds: [junk] is the uninitialised memory,
    [rnd] the value of [rand_crc32c]. *)
Definition tcp_conn_alloc (junk : tcpconn) (rnd : Z) : tcpconn :=
  Conn (c_e junk)
    (Pcb TCP_STATE_CLOSED rnd rnd 0 0 0 0 rnd 0 TCP_WIN 0 0)
    false 1 0
    false false [] 0 [] []
    false false [] 0 0 None [] false (fast_retransmit_last_ack junk)
    (M64 - 1) false false 0 0 0.

(** [tcp_conn_attach] of the connection at address [eid (c_e c)]. *)
Definition tcp_conn_attach (l r : netaddr) : M Z :=
  let my := cfg_addr (e_cfg E) in
  if negb (Transport.ip l =? 0) && negb (Transport.ip l =? my) then mret (- EINVAL)
  else
    let l := if Transport.ip l =? 0 then Netaddr my (port l) else l in
    c ← getc;
    let e := trans_init_5tuple (eid (c_e c)) IPPROTO_TCP l r in
    w ← getw;
    let '(ret, e, t) :=
      if port l =? 0 then trans_table_add_with_ephemeral_port (e_crc32 E) (e_seed E) e (table w)
      else let '(ret, t) := trans_table_add (e_crc32 E) (e_seed E) e (table w) in (ret, e, t) in
    _ ← modc (set_c_e e);
    _ ← modw (set_table t);
    if negb (ret =? 0) then mret ret
    else
      _ ← modw (fun w => set_tcp_conns (tcp_conns w ++ [eid e]) w);
      now ← microtime E;
      _ ← modc (set_wait_ts now);
      mret 0.

(** [tcp_conn_release], after the grace period. *)
Definition tcp_conn_release : M unit :=
  c ← getc;
  _ ← modw (fun w => set_tcp_conns (filter (fun i => i <> eid (c_e c)) (tcp_conns w)) w);
  _ ← match tx_pending c with Some m => mbuf_free m | None => mret tt end;
  _ ← mapM_ rx_free (rxq_ooo c);
  _ ← mapM_ rx_free (rxq c);
  mbuf_list_free (txq c).

(** The part of [tcp_handle_timeouts] under the lock: whether to send an
    acknowledgement and whether to start a retransmission, [None] if the function
    returns early. *)
Definition tcp_handle_timeouts_locked (now : Z) : M (option (bool * bool)) :=
  c ← getc;
  if st_eq (state (pcb c)) TCP_STATE_CLOSED then _ ← spin_unlock_np; mret None
  else if st_lt (state (pcb c)) TCP_STATE_ESTABLISHED && (TCP_CONNECT_TIMEOUT <=? u64 (now - wait_ts c))
  then _ ← tcp_conn_fail ETIMEDOUT; _ ← spin_unlock_np; mret None
  else if st_eq (state (pcb c)) TCP_STATE_TIME_WAIT && (TCP_TIME_WAIT_TIMEOUT <=? u64 (now - wait_ts c))
  then _ ← tcp_conn_set_state TCP_STATE_CLOSED; _ ← spin_unlock_np; _ ← tcp_conn_put E; mret None
  else
    let do_ack := ack_delayed c && (TCP_ACK_TIMEOUT <=? u64 (now - ack_ts c)) in
    _ ← when do_ack (modc (set_ack_delayed false));
    first ← txq_first_ts;
    let rtx := match first with Some ts => TCP_RETRANSMIT_TIMEOUT <=? u64 (now - ts) | None => false end in
    _ ← when rtx tcp_conn_get;
    let do_ack := do_ack || match rxq_ooo c with [] => false | _ => true end in
    _ ← tcp_timer_update;
    _ ← spin_unlock_np;
    mret (Some (do_ack, rtx)).

Definition tcp_handle_timeouts (now : Z) : M unit :=
  _ ← spin_lock_np;
  r ← tcp_handle_timeouts_locked now;
  match r with
  | None => mret tt
  | Some (do_ack, do_retransmit) =>
      _ ← when do_ack (_ ← tcp_tx_ack E; mret tt);
      when do_retransmit (emit EvSpawnRetransmit)
  end.

(** What [tcp_worker] does for a connection each time it wakes up. *)
Definition tcp_worker_conn (now : Z) : M unit :=
  c ← getc; when (next_timeout c <=? now) (tcp_handle_timeouts now).
End env.
