(* ===== verification/TcpIn.v ===== *)
(** * runtime/net/tcp_in.c: the ingress path of TCP *)

From S2P Require Import Prelude Stddef Mbuf Chksum Transport Arp Core TcpState TcpOut TcpConn.

(** ** Definitions *)

(** The four cases of the acceptability test. *)
Definition is_acceptable (p : tcp_pcb) (l seq : Z) : bool :=
  let edge := u32 (rcv_nxt p + rcv_wnd p) in
  let last := u32 (seq + l - 1) in
  if (l =? 0) && (rcv_wnd p =? 0) then seq =? rcv_nxt p
  else if (l =? 0) && (0 <? rcv_wnd p) then wraps_lte (rcv_nxt p) seq && wraps_lt seq edge
  else if (0 <? l) && (rcv_wnd p =? 0) then false
  else (wraps_lte (rcv_nxt p) seq && wraps_lt seq edge) ||
       (wraps_lte (rcv_nxt p) last && wraps_lt last edge).

Definition is_snd_full (p : tcp_pcb) : bool := wraps_lte (u32 (snd_una p + snd_wnd p)) (snd_nxt p).

(** The window the peer advertises, less a byte for FIN and one for RST. *)
Definition usable_win (win : Z) : Z := if 1 <? win then win - 2 else 0.

(** Should the send window be updated? *)
Definition wnd_update (p : tcp_pcb) (seq ack : Z) : bool :=
  wraps_lt (snd_wl1 p) seq || ((snd_wl1 p =? seq) && wraps_lte (snd_wl2 p) ack).

Definition set_send_window (win seq ack : Z) (p : tcp_pcb) : tcp_pcb :=
  set_snd_wl2 ack (set_snd_wl1 seq (set_snd_wnd (usable_win win) p)).

(** *** Text *)

(** [tcp_rx_append_text] on the segment: the head and the tail that do not fit are
    cut off. *)
Definition clip_head (nxt : Z) (m : seg) : res seg :=
  if wraps_lt (seg_seq m) nxt then
    let l := u32 (nxt - seg_seq m) in
    '(_, b) ← mbuf_pull l (mb m);
    Ok (set_seg_seq (u32 (seg_seq m + l)) (set_mb b m))
  else Ok m.

Definition clip_tail (edge : Z) (m : seg) : res seg :=
  if wraps_lt edge (seg_end m) then
    '(_, b) ← mbuf_trim (u32 (seg_end m - edge)) (mb m);
    Ok (set_seg_end edge (set_mb b m))
  else Ok m.

Definition tcp_rx_append_text (m : seg) : M unit :=
  _ ← assert_spin_lock_held;
  c ← getc;
  let nxt := rcv_nxt (pcb c) in
  let wnd := rcv_wnd (pcb c) in
  _ ← assert_ (wraps_lte (seg_seq m) nxt);
  _ ← assert_ (wraps_gt (seg_end m) nxt);
  m ← lift (clip_head nxt m);
  m ← lift (clip_tail (u32 (nxt + wnd)) m);
  let l := u32 (seg_end m - seg_seq m) in
  _ ← assert_ (l <=? wnd);
  _ ← modp (fun p => set_rcv_wnd (u32 (wnd - l)) (set_rcv_nxt (seg_end m) p));
  _ ← when (u32 (wnd - l) =? 0) (modc (set_rcv_wnd_full true));
  modc (fun c => set_rxq (rxq c ++ [m]) c).

(** The search of [tcp_rx_text] for the place of an out-of-order segment, from the
    end of the queue; [None] if the segment is contained in a queued one. *)
Fixpoint ooo_insert_rev (m : seg) (rl : list seg) : option (list seg) :=
  match rl with
  | [] => Some [m]
  | pos :: rl' =>
      if wraps_gt (seg_end m) (seg_end pos) then Some (m :: pos :: rl')
      else if wraps_gte (seg_seq m) (seg_seq pos) then None
      else cons pos <$> ooo_insert_rev m rl'
  end.

Definition ooo_insert (m : seg) (l : list seg) : option (list seg) := @rev seg <$> ooo_insert_rev m (rev l).

(** The loop that drains the out-of-order queue [l]; returns [wake]. *)
Fixpoint ooo_drain (l : list seg) (wake : bool) : M bool :=
  match l with
  | [] => mret wake
  | pos :: l =>
      c ← getc;
      let remove := modc (fun c => set_rxq_ooo_len (u32 (rxq_ooo_len c - 1)) (set_rxq_ooo l c)) in
      if wraps_lte (seg_end pos) (rcv_nxt (pcb c)) then
        _ ← remove; _ ← rx_free pos; ooo_drain l wake
      else if wraps_gt (seg_seq pos) (rcv_nxt (pcb c)) then mret wake
      else
        _ ← remove;
        let wake := wake || has (flags pos) (Z.lor TCP_PUSH TCP_FIN) in
        _ ← tcp_rx_append_text pos;
        ooo_drain l wake
  end.

(** What follows the label [drain]. *)
Definition rx_text_drain (wake : bool) : M (bool * bool) :=
  c ← getc;
  wake ← ooo_drain (rxq_ooo c) wake;
  c ← getc;
  mret (true, wake || (rcv_wnd (pcb c) =? 0)).

(** Returns whether the segment is used, and [wake]. *)
Definition tcp_rx_text (m : seg) : M (bool * bool) :=
  _ ← assert_spin_lock_held;
  c ← getc;
  if rcv_wnd (pcb c) =? 0 then mret (false, false)
  else if wraps_lte (seg_seq m) (rcv_nxt (pcb c)) then
    _ ← tcp_rx_append_text m;
    rx_text_drain (has (flags m) (Z.lor TCP_PUSH TCP_FIN))
  else if TCP_OOO_MAX_SIZE <=? rxq_ooo_len c then mret (false, false)
  else
    match ooo_insert m (rxq_ooo c) with
    | None => mret (false, false)
    | Some l =>
        _ ← modc (fun c => set_rxq_ooo_len (u32 (rxq_ooo_len c + 1)) (set_rxq_ooo l c));
        rx_text_drain false
    end.

Section env.
Context (E : env).

Definition send_rst (acked : bool) (seq ack l : Z) : M unit :=
  c ← getc;
  _ ← (if acked then tcp_tx_raw_rst E (laddr (c_e c)) (raddr (c_e c)) ack
       else tcp_tx_raw_rst_ack E (laddr (c_e c)) (raddr (c_e c)) 0 (u32 (seq + l)));
  mret tt.

(** *** The slow path

    Its local variables that are used after the label [done]. *)
Record rx_work := RxWork {
  w_acked : list nat;            (* q *)
  w_waiters : list nat;          (* waiters *)
  w_rx_th : option nat;          (* rx_th *)
  w_retransmit : option nat;     (* retransmit *)
  w_ack : bool;                  (* do_ack *)
  w_drop : bool;                 (* do_drop *)
}.

Definition work0 : rx_work := RxWork [] [] None None false true.
Definition work_ack (b : bool) : rx_work := RxWork [] [] None None b true.

(** The state [SYN_SENT]. *)
Definition rx_syn_sent (fl seq ack l nxt win : Z) : M rx_work :=
  c ← getc;
  let p := pcb c in
  if has fl TCP_ACK && (wraps_lte ack (iss p) || wraps_gt ack nxt) then
    _ ← send_rst false seq ack l; mret work0
  else if has fl TCP_ACK && has fl TCP_RST && (wraps_lte (snd_una p) ack && wraps_lte ack nxt) then
    _ ← tcp_conn_fail E ECONNRESET; mret work0
  else if negb (has fl TCP_ACK) && has fl TCP_RST then mret work0
  else if has fl TCP_SYN then
    _ ← modp (fun p => set_irs seq (set_rcv_nxt (u32 (seq + 1)) p));
    acked ← (if has fl TCP_ACK then _ ← modp (set_snd_una ack); tcp_conn_ack else mret []);
    c ← getc;
    if wraps_gt (snd_una (pcb c)) (iss (pcb c)) then
      _ ← modp (set_send_window win seq ack);
      _ ← tcp_conn_set_state E TCP_STATE_ESTABLISHED;
      mret (RxWork acked [] None None true true)
    else
      ret ← tcp_tx_ctl E (Z.lor TCP_SYN TCP_ACK);
      _ ← when (ret =? 0) (tcp_conn_set_state E TCP_STATE_SYN_RECEIVED);
      mret (RxWork acked [] None None false true)
  else mret work0.

(** Duplicate acknowledgements: the packet to retransmit. *)
Definition rx_dup_ack (ack l : Z) : M (option nat) :=
  c ← getc;
  if (ack =? snd_una (pcb c)) && negb (snd_una (pcb c) =? snd_nxt (pcb c)) && (l =? 0) then
    if rep_acks c + 1 >=? TCP_FAST_RETRANSMIT_THRESH then
      r ← (if tx_exclusive c
           then _ ← modc (fun c => set_fast_retransmit_last_ack ack (set_do_fast_retransmit true c)); mret None
           else tcp_tx_fast_retransmit_start E);
      _ ← modc (set_rep_acks 0);
      mret r
    else _ ← modc (set_rep_acks (rep_acks c + 1)); mret None
  else mret None.

(** The send window after the acknowledgement. *)
Definition rx_send_window (seq ack win : Z) : M unit :=
  c ← getc;
  when (wnd_update (pcb c) seq ack)
    (_ ← modp (set_send_window win seq ack);
     when (negb (usable_win win =? snd_wnd (pcb c))) (modc (set_rep_acks 0))).

(** The states that wait for the acknowledgement of a FIN; [true] if the
    connection is closed now. *)
Definition rx_fin_acked (nxt : Z) : M bool :=
  c ← getc;
  let all := snd_una (pcb c) =? nxt in
  match state (pcb c) with
  | TCP_STATE_FIN_WAIT1 => _ ← when all (tcp_conn_set_state E TCP_STATE_FIN_WAIT2); mret false
  | TCP_STATE_CLOSING =>
      _ ← when all (now ← microtime E; _ ← modc (set_wait_ts now); tcp_conn_set_state E TCP_STATE_TIME_WAIT);
      mret false
  | TCP_STATE_LAST_ACK =>
      _ ← when all (_ ← tcp_conn_set_state E TCP_STATE_CLOSED; tcp_conn_put E); mret all
  | _ => mret false
  end.

Definition rx_takes_text (s : tcp_state) : bool :=
  st_eq s TCP_STATE_ESTABLISHED || st_eq s TCP_STATE_FIN_WAIT1 || st_eq s TCP_STATE_FIN_WAIT2.

(** Step 7: [do_drop], [rx_th] and whether out-of-order segments ask for an
    acknowledgement. *)
Definition rx_step_text (m : seg) (seq l : Z) : M (bool * option nat * bool) :=
  c ← getc;
  if (0 <? l) && rx_takes_text (state (pcb c)) then
    '(used, wake) ← tcp_rx_text (set_seg_end (u32 (seq + l)) m);
    th ← (if (wake : bool) then
            c ← getc;
            _ ← assert_ (match rxq c with [] => false | _ => true end);
            _ ← assert_ used;
            waitq_signal_rx
          else mret None);
    c ← getc;
    _ ← when (negb (ack_delayed c))
          (_ ← modc (set_ack_delayed true); now ← microtime E; modc (set_ack_ts now));
    c ← getc;
    mret (negb used, th, match rxq_ooo c with [] => false | _ => true end)
  else mret (true, None, false).

(** Step 8: whether the FIN asks for an acknowledgement. *)
Definition rx_step_fin (fl nxt : Z) : M bool :=
  c ← getc;
  if negb (has fl TCP_FIN) then mret false
  else
    match state (pcb c) with
    | TCP_STATE_SYN_RECEIVED | TCP_STATE_ESTABLISHED =>
        _ ← tcp_conn_set_state E TCP_STATE_CLOSE_WAIT; mret false
    | TCP_STATE_FIN_WAIT1 =>
        _ ← assert_ (negb (snd_una (pcb c) =? nxt));
        _ ← tcp_conn_set_state E TCP_STATE_CLOSING; mret false
    | TCP_STATE_FIN_WAIT2 =>
        now ← microtime E;
        _ ← modc (set_wait_ts now);
        _ ← tcp_conn_set_state E TCP_STATE_TIME_WAIT; mret true
    | _ => mret false
    end.

(** Steps 5 to 8, after the state [SYN_RECEIVED] is handled. *)
Definition rx_synchronized (m : seg) (seq ack l nxt win : Z) : M rx_work :=
  rtx ← rx_dup_ack ack l;
  c ← getc;
  let snd_was_full := is_snd_full (pcb c) in
  let valid := wraps_lte (snd_una (pcb c)) ack && wraps_lte ack nxt in
  if negb valid && wraps_gt ack nxt then mret (RxWork [] [] None rtx true true)
  else
    acked ← (if valid then
               _ ← when (negb (snd_una (pcb c) =? ack)) (modc (set_rep_acks 0));
               _ ← modp (set_snd_una ack);
               tcp_conn_ack
             else mret []);
    _ ← rx_send_window seq ack win;
    c ← getc;
    waiters ← (if snd_was_full && negb (is_snd_full (pcb c)) then waitq_release_start_tx else mret []);
    closed ← rx_fin_acked nxt;
    if (closed : bool) then mret (RxWork acked waiters None rtx false true)
    else
      '(drop, th, ack1) ← rx_step_text m seq l;
      ack2 ← rx_step_fin (flags m) nxt;
      mret (RxWork acked waiters th rtx (ack1 || ack2) drop).

(** The body of [__tcp_rx_conn] up to the label [done]. *)
Definition rx_slow (m : seg) (ack nxt win : Z) : M rx_work :=
  let seq := seg_seq m in
  let l := u32 (seg_end m - seg_seq m) in
  let l := if has (flags m) TCP_FIN then u32 (l + 1) else l in
  c ← getc;
  if st_eq (state (pcb c)) TCP_STATE_CLOSED then
    _ ← when (negb (has (flags m) TCP_RST)) (send_rst false seq ack l); mret work0
  else if st_eq (state (pcb c)) TCP_STATE_SYN_SENT then rx_syn_sent (flags m) seq ack l nxt win
  else if negb (is_acceptable (pcb c) l seq) then mret (work_ack (negb (has (flags m) TCP_RST)))
  else if has (flags m) TCP_RST then _ ← tcp_conn_fail E ECONNRESET; mret work0
  else if has (flags m) TCP_SYN then
    _ ← send_rst (has (flags m) TCP_ACK) seq ack l;
    _ ← tcp_conn_fail E ECONNRESET; mret work0
  else if negb (has (flags m) TCP_ACK) then mret work0
  else if st_eq (state (pcb c)) TCP_STATE_SYN_RECEIVED then
    if wraps_lte (snd_una (pcb c)) ack && wraps_lte ack nxt then
      _ ← modp (set_send_window win seq ack);
      _ ← tcp_conn_set_state E TCP_STATE_ESTABLISHED;
      rx_synchronized m seq ack l nxt win
    else _ ← send_rst true seq ack l; mret work0
  else rx_synchronized m seq ack l nxt win.

(** What follows [done]. *)
Definition rx_finish (k : rx_work) (m : seg) : M unit :=
  _ ← tcp_timer_update E;
  _ ← spin_unlock_np;
  _ ← waitq_release_finish (w_waiters k);
  _ ← waitq_signal_finish (w_rx_th k);
  _ ← mbuf_list_free (w_acked k);
  _ ← tcp_tx_fast_retransmit_finish E (w_retransmit k);
  _ ← when (w_ack k) (_ ← tcp_tx_ack E; mret tt);
  when (w_drop k) (rx_free m).

Definition __tcp_rx_conn (m : seg) (ack nxt win : Z) : M unit :=
  k ← rx_slow m ack nxt win;
  rx_finish k m.

(** *** Packets *)

Record tcp_fields := TcpFields { f_seq : Z; f_ack : Z; f_win : Z; f_flags : Z; f_len : Z }.

(** The header of a packet whose data starts at it; [None] if the packet is
    dropped.  The mbuf is left at the text. *)
Definition rx_parse (b : mbuf) : res (option (tcp_fields * mbuf)) :=
  b ← mbuf_mark_transport_offset b;
  let '(h, b) := mbuf_pull_or_null sizeof_tcp_hdr b in
  match h with
  | None => Ok None
  | Some h =>
      seq ← read32 b (h + 4);
      ack ← read32 b (h + 8);
      win ← read16 b (h + 14);
      off ← read8 b (h + 12);
      let hdr_len := off / 16 * 4 in
      if hdr_len <? sizeof_tcp_hdr then Ok None
      else
        iplen ← read16 b (network_off b + 2);
        let l := u32 (iplen - sizeof_ip_hdr - hdr_len) in
        if l >? mbuf_length b then Ok None
        else
          fl ← read8 b (h + 13);
          '(_, b) ← mbuf_pull (hdr_len - sizeof_tcp_hdr) b;
          Ok (Some (TcpFields seq ack win fl l, b))
  end.

(** The fast path, for the next data segment of an established connection. *)
Definition rx_fast (m : seg) (f : tcp_fields) (now : Z) : M unit :=
  c ← getc;
  _ ← modc (set_rep_acks (if snd_una (pcb c) =? f_ack f then rep_acks c else 0));
  _ ← modp (set_snd_una (f_ack f));
  q ← tcp_conn_ack;
  c ← getc;
  _ ← when (wnd_update (pcb c) (f_seq f) (f_ack f))
        (_ ← modp (set_send_window (f_win f) (f_seq f) (f_ack f)); modc (set_rep_acks 0));
  _ ← modp (fun p => set_rcv_wnd (u32 (rcv_wnd p - f_len f)) (set_rcv_nxt (seg_end m) p));
  _ ← modc (fun c => set_rxq (rxq c ++ [m]) c);
  th ← waitq_signal_rx;
  c ← getc;
  _ ← when (negb (ack_delayed c)) (modc (set_ack_ts now));
  _ ← modc (set_ack_delayed true);
  _ ← modc (fun c => set_next_timeout (Z.min (next_timeout c) (u64 (ack_ts c + TCP_ACK_TIMEOUT))) c);
  _ ← spin_unlock_np;
  _ ← waitq_signal_finish th;
  mbuf_list_free q.

Definition rx_is_slow (c : tcpconn) (f : tcp_fields) (nxt : Z) : bool :=
  negb (f_flags f =? Z.lor TCP_ACK TCP_PUSH) || (f_len f =? 0) || wraps_gt (f_ack f) nxt ||
  negb (st_eq (state (pcb c)) TCP_STATE_ESTABLISHED) || is_snd_full (pcb c) ||
  negb (f_seq f =? rcv_nxt (pcb c)) || negb (match rxq_ooo c with [] => true | _ => false end) ||
  wraps_lt (rcv_wnd (pcb c)) (f_len f).

(** What follows the parsing. *)
Definition rx_dispatch (m : seg) (f : tcp_fields) (nxt now : Z) : M unit :=
  _ ← spin_lock_np;
  c ← getc;
  if rx_is_slow c f nxt then __tcp_rx_conn m (f_ack f) nxt (f_win f)
  else rx_fast m f now.

Definition tcp_rx_conn (m : seg) : M unit :=
  c ← getc;
  let nxt := snd_nxt (pcb c) in
  now ← microtime E;
  r ← lift (rx_parse (mb m));
  match r with
  | None => rx_free m
  | Some (f, b) =>
      let m := set_flags (f_flags f) (set_seg_end (u32 (f_seq f + f_len f)) (set_seg_seq (f_seq f) (set_mb b m))) in
      rx_dispatch m f nxt now
  end.

(** The header fields a listener looks at: flags, sequence and acknowledgement
    numbers, the peer's address and whether there is text. *)
Record syn_fields := SynFields { y_flags : Z; y_seq : Z; y_ack : Z; y_raddr : netaddr; y_text : bool }.

Definition listener_parse (b : mbuf) : res (option syn_fields) :=
  let '(h, b) := mbuf_pull_or_null sizeof_tcp_hdr b in
  match h with
  | None => Ok None
  | Some h =>
      saddr ← read32 b (network_off b + 12);
      sport ← read16 b h;
      fl ← read8 b (h + 13);
      ack ← read32 b (h + 8);
      seq ← read32 b (h + 4);
      iplen ← read16 b (network_off b + 2);
      off ← read8 b (h + 12);
      Ok (Some (SynFields fl seq ack (Netaddr saddr sport) (negb (u64 (iplen - sizeof_ip_hdr) =? off / 16 * 4))))
  end.

(** [tcp_rx_listener]: [mem] is the memory [smalloc] returns and the initial
    sequence number; the world of the result is that of the new connection. *)
Definition tcp_rx_listener (l : netaddr) (b : mbuf) (mem : option (tcpconn * Z)) : M bool :=
  r ← lift (listener_parse b);
  match r with
  | None => mret false
  | Some y =>
      if has (y_flags y) TCP_RST then mret false
      else if has (y_flags y) TCP_ACK then _ ← tcp_tx_raw_rst E l (y_raddr y) (y_ack y); mret false
      else if negb (has (y_flags y) TCP_SYN) then mret false
      else if y_text y then mret false
      else
        match mem with
        | None => mret false
        | Some (junk, rnd) =>
            let c := tcp_conn_alloc junk rnd in
            let p := set_rcv_nxt (u32 (y_seq y + 1)) (set_irs (y_seq y) (pcb c)) in
            _ ← modw (set_conn (set_pcb p c));
            ret ← tcp_conn_attach E l (y_raddr y);
            if negb (ret =? 0) then mret false
            else
              _ ← spin_lock_np;
              ret ← tcp_tx_ctl E (Z.lor TCP_SYN TCP_ACK);
              if negb (ret =? 0) then _ ← spin_unlock_np; _ ← tcp_conn_destroy E; mret false
              else
                _ ← tcp_conn_get;
                _ ← tcp_conn_set_state E TCP_STATE_SYN_RECEIVED;
                _ ← spin_unlock_np;
                mret true
        end
  end.

(** [tcp_rx_closed]: a packet no connection matches. *)
Definition tcp_rx_closed (b : mbuf) : M unit :=
  let '(h, b) := mbuf_pull_or_null sizeof_tcp_hdr b in
  match h with
  | None => mret tt
  | Some h =>
      fl ← lift (read8 b (h + 13));
      if has fl TCP_RST then mret tt
      else
        daddr ← lift (read32 b (network_off b + 16));
        dport ← lift (read16 b (h + 2));
        saddr ← lift (read32 b (network_off b + 12));
        sport ← lift (read16 b h);
        let l := Netaddr daddr dport in
        let r := Netaddr saddr sport in
        if has fl TCP_ACK then ack ← lift (read32 b (h + 8)); _ ← tcp_tx_raw_rst E l r ack; mret tt
        else
          iplen ← lift (read16 b (network_off b + 2));
          off ← lift (read8 b (h + 12));
          seq ← lift (read32 b (h + 4));
          _ ← tcp_tx_raw_rst_ack E l r 0 (u32 (seq + u32 (iplen - sizeof_ip_hdr - off / 16 * 4)));
          mret tt
  end.
End env.
