(* ===== verification/TcpWire.v ===== *)
(** * TCP packets on the wire

    The header [tcp_rx_conn] reads is the one [tcp_push_tcphdr] writes. *)

From S2P Require Import Prelude Stddef Mbuf Chksum Transport Arp Core TcpState TcpOut TcpConn TcpIn.

(** The packet in [b], whose data starts at the TCP header: a header with these
    fields, options of [4 * k] bytes, the text; the length in the IP header is right. *)
Record tcp_packet (b : mbuf) (seq ack win fl : Z) (text : list Z) : Prop := {
  tp_ok : mbuf_ok b;
  tp_off : data b <= USHRT_MAX;
  tp_fields : in_u32 seq /\ in_u32 ack /\ in_u16 win;
  tp_iplen : read16 b (network_off b + 2) = Ok (20 + len b);
  tp_short : 20 + len b < 65536;
  tp_payload : exists ports off x2 rest opts, length ports = 4%nat /\ length rest = 4%nat /\
    5 <= off <= 15 /\ 0 <= x2 < 16 /\ Z.of_nat (length opts) = 4 * off - 20 /\
    payload b = (ports ++ hton32 seq ++ hton32 ack ++ [off * 16 + x2; fl] ++ hton16 win ++ rest) ++ opts ++ text;
}.

(** The fields of the fixed header. *)
Lemma hdr_reads b seq ack win fl x ports rest tl :
  mbuf_ok b -> 20 <= len b -> in_u32 seq -> in_u32 ack -> in_u16 win -> length ports = 4%nat -> length rest = 4%nat ->
  payload b = (ports ++ hton32 seq ++ hton32 ack ++ [x; fl] ++ hton16 win ++ rest) ++ tl ->
  read32 b (data b + 4) = Ok seq /\ read32 b (data b + 8) = Ok ack /\ read16 b (data b + 14) = Ok win /\
  read8 b (data b + 12) = Ok x /\ read8 b (data b + 13) = Ok fl.
Proof.
  intros Hm Hl Hs Ha Hw Hp Hr Hpay.
  assert (Hread : forall off n, 0 <= off -> 0 <= n -> off + n <= 20 ->
    read_bytes b (data b + off) n = Ok (take (Z.to_nat n) (drop (Z.to_nat off) (payload b)))).
  { intros off n ? ? ?. apply read_payload; auto. lia. }
  destruct ports as [|p0 [|p1 [|p2 [|p3 [|]]]]]; try done.
  destruct rest as [|r0 [|r1 [|r2 [|r3 [|]]]]]; try done.
  unfold read8, read16, read32. rewrite !Hread, Hpay by lia. clear - Hs Ha Hw.
  split_and!; cbn -[Z.div Z.modulo be16 be32]; f_equal; try done;
    [by apply be32_hton32|by apply be32_hton32|by apply be16_hton16].
Qed.

(** Parsing leaves the text, and the fields of the header. *)
Lemma rx_parse_ok b seq ack win fl text :
  tcp_packet b seq ack win fl text ->
  exists b', rx_parse b = Ok (Some (TcpFields seq ack win fl (Z.of_nat (length text)), b')) /\
    mbuf_ok b' /\ payload b' = text.
Proof.
  intros [Hm Hoff (Hs & Ha & Hw) Hip Hsh (ports & off & x2 & rest & opts & Hp & Hr & Ho & Hx & Hop & Hpay)].
  assert (Hlen : len b = 4 * off + Z.of_nat (length text)).
  { rewrite <- (length_payload b Hm), Hpay, !length_app, Hp, Hr. cbn [length hton16 hton32]. lia. }
  destruct (hdr_reads b seq ack win fl (off * 16 + x2) ports rest (opts ++ text)) as (R4 & R8 & R14 & R12 & R13); auto; [lia|].
  set (b1 := set_transport_off (data b) b). assert (H1 : mbuf_ok b1) by (destruct Hm; by split).
  assert (E1 : mbuf_mark_transport_offset b = Ok b1).
  { unfold mbuf_mark_transport_offset. rewrite Z.gtb_ltb, (proj2 (Z.ltb_ge _ _)) by lia. done. }
  set (b2 := set_window (data b + 20) (len b - 20) b1). assert (H2 : mbuf_ok b2) by (destruct Hm; split; cbn; lia).
  assert (E2 : mbuf_pull_or_null 20 b1 = (Some (data b), b2)).
  { unfold mbuf_pull_or_null, __mbuf_pull. change (len b1) with (len b). change (data b1) with (data b).
    rewrite Z.geb_leb, (proj2 (Z.leb_le _ _)), u32_id by (destruct Hm; unfold in_u32 in *; lia). done. }
  unfold rx_parse, sizeof_tcp_hdr, sizeof_ip_hdr. rewrite E1. cbn [mbind res_bind]. rewrite E2.
  change (read32 b2) with (read32 b). change (read16 b2) with (read16 b). change (read8 b2) with (read8 b).
  change (network_off b2) with (network_off b). rewrite R4, R8, R14, R12. cbn [mbind res_bind].
  assert (Hq : (off * 16 + x2) / 16 = off) by (Z.to_euclidean_division_equations; lia). rewrite Hq.
  rewrite (proj2 (Z.ltb_ge _ _)), Hip by lia. cbn [mbind res_bind].
  replace (20 + len b - 20 - off * 4) with (Z.of_nat (length text)) by lia.
  rewrite u32_id by (unfold in_u32, M32; lia). unfold mbuf_length. change (len b2) with (len b - 20).
  rewrite Z.gtb_ltb, (proj2 (Z.ltb_ge _ _)), R13 by lia. cbn [mbind res_bind].
  assert (Hb := mbuf_pull_ok (off * 4 - 20) b2 H2 ltac:(lia)). change (len b2) with (len b - 20) in Hb.
  destruct (mbuf_pull _ b2) as [[p b3]|]; [|lia]. destruct Hb as (_ & _ & H3 & Hp3).
  cbn [mbind res_bind]. exists b3. split_and!; auto. rewrite Hp3.
  assert (Hp2 : payload b2 = opts ++ text).
  { assert (E := pull_payload 20 b1 H1 ltac:(change (len b1) with (len b); lia)). change (payload b1) with (payload b) in E.
    transitivity (drop (Z.to_nat 20) (payload b)); [exact E|]. rewrite Hpay. apply drop_app_length'.
    rewrite !length_app, Hp, Hr. done. }
  rewrite Hp2. apply drop_app_length'. lia.
Qed.

(** What the peer writes in the header of a segment is what [tcp_rx_conn]
    reads out of it: for the packet [write_tcphdr] builds in front of a text, in any
    buffer in which the IP layer leaves it (with the IP header's length), the parser
    returns its sequence number, acknowledgement, window, flags and length, and an
    mbuf with exactly the text. *)
Theorem tcp_header_roundtrip sport dport seq ack fl win sum m :
  mbuf_ok m -> sizeof_tcp_hdr <= data m -> 40 + len m < 65536 -> in_u32 seq -> in_u32 ack -> in_u16 win ->
  exists m', write_tcphdr sport dport seq ack fl win sum m = Ok m' /\ mbuf_ok m' /\
    forall b, mbuf_ok b -> data b <= USHRT_MAX -> read16 b (network_off b + 2) = Ok (20 + len b) ->
      payload b = payload m' ->
      exists b', rx_parse b = Ok (Some (TcpFields seq ack win fl (len m), b')) /\ mbuf_ok b' /\ payload b' = payload m.
Proof.
  intros Hm Hd Hl Hs Ha Hw.
  destruct (write_tcphdr_ok sport dport seq ack fl win sum m Hm Hd) as (m' & x2 & urp & E & Hm' & Hu & Hp & _ & Hlen & _).
  exists m'. split_and!; auto. intros b Hb Ho Hip Hpay. rewrite <- (length_payload m Hm). apply rx_parse_ok.
  assert (Hlb : len b = len m + 20) by (rewrite <- (length_payload b Hb), Hpay, (length_payload m' Hm'); done).
  assert (Hx := Z.mod_pos_bound x2 16 ltac:(done)). split; auto; [lia|].
  exists (hton16 sport ++ hton16 dport), 5, (x2 mod 16), ([sum mod 256; sum / 256] ++ urp), [].
  split_and!; auto; [by rewrite length_app, Hu|lia..|]. by rewrite Hpay, Hp.
Qed.

(** ** Witnesses *)

(** A text of four bytes with room for the header, and the received packet: an IP
    header's length field in front of the header the sender built. *)
Definition txt_buf : mbuf := Mbuf (replicate 60 0 ++ [1; 2; 3; 4]) 60 64 4 0 0 0 0 0.

Definition seg_buf : mbuf :=
  match write_tcphdr 1000 80 4294967290 7 TCP_ACK 5000 0 txt_buf with
  | Ok m => Mbuf ([69; 0; 0; 44] ++ replicate 16 0 ++ payload m) 20 64 24 0 0 0 0 0
  | Bug => txt_buf
  end.

Lemma tcp_header_roundtrip_witness :
  exists b', rx_parse seg_buf = Ok (Some (TcpFields 4294967290 7 5000 TCP_ACK 4, b')) /\ payload b' = [1; 2; 3; 4].
Proof.
  destruct (tcp_header_roundtrip 1000 80 4294967290 7 TCP_ACK 5000 0 txt_buf) as (m' & E & _ & H);
    [split; vm_compute; done|vm_compute; done .. |].
  destruct (H seg_buf) as (b' & H1 & _ & H2); [split; vm_compute; done|vm_compute; done|vm_compute; done| |by exists b'].
  vm_compute in E. injection E as <-. vm_compute. reflexivity.
Defined.
