(* ===== verification/Tcp.v ===== *)
(** * runtime/net/tcp.c: the socket interface of TCP *)

From S2P Require Import Prelude Stddef Mbuf Chksum Transport Arp Core TcpState TcpOut TcpConn TcpIn.

(** ** Definitions *)

(** *** Listening queues

    Connections are named by their addresses. *)
Record tcpqueue := Queue {
  q_e : trans_entry;
  q_wq : list nat;
  q_conns : list nat;
  q_backlog : Z;
  q_shutdown : bool;
  q_ref : Z;
}.

(** [tcp_listen] of the queue at address [id]; [mem] says whether [smalloc]
    succeeds. *)
Definition tcp_listen (E : env) (id : nat) (l : netaddr) (backlog : Z) (mem : bool) (t : ttable)
    : Z * option tcpqueue * ttable :=
  let my := cfg_addr (e_cfg E) in
  if backlog <? 1 then (- EINVAL, None, t)
  else if negb (Transport.ip l =? 0) && negb (Transport.ip l =? my) then (- EINVAL, None, t)
  else
    let l := if Transport.ip l =? 0 then Netaddr my (port l) else l in
    if negb mem then (- ENOMEM, None, t)
    else
      let e := trans_init_3tuple id IPPROTO_TCP l (Netaddr 0 0) in
      let '(ret, t) := trans_table_add (e_crc32 E) (e_seed E) e t in
      if negb (ret =? 0) then (ret, None, t)
      else (0, Some (Queue e [] [] backlog false 1), t).

(** [tcp_queue_recv] before and after [tcp_rx_listener]: [true] if a connection may
    be created. *)
Definition tcp_queue_recv_start (q : tcpqueue) : bool * tcpqueue :=
  if (q_backlog q =? 0) || q_shutdown q then (false, q)
  else (true, Queue (q_e q) (q_wq q) (q_conns q) (q_backlog q - 1) (q_shutdown q) (q_ref q)).

(** [c] is the new connection, if there is one; the thread to wake. *)
Definition tcp_queue_recv_finish (c : option nat) (q : tcpqueue) : option nat * tcpqueue :=
  match c with
  | None => (None, Queue (q_e q) (q_wq q) (q_conns q) (q_backlog q + 1) (q_shutdown q) (q_ref q))
  | Some c =>
      (hd_error (q_wq q), Queue (q_e q) (tail (q_wq q)) (q_conns q ++ [c]) (q_backlog q) (q_shutdown q) (q_ref q))
  end.

(** [tcp_accept] from the head of its loop: [None] if the thread [self] parks. *)
Definition tcp_accept (self : nat) (q : tcpqueue) : option (Z * option nat) * tcpqueue :=
  match q_conns q with
  | [] =>
      if q_shutdown q then (Some (- EPIPE, None), q)
      else (None, Queue (q_e q) (q_wq q ++ [self]) [] (q_backlog q) (q_shutdown q) (q_ref q))
  | c :: cs => (Some (0, Some c), Queue (q_e q) (q_wq q) cs (q_backlog q + 1) (q_shutdown q) (q_ref q))
  end.

Definition __tcp_qshutdown (q : tcpqueue) (t : ttable) : res (tcpqueue * ttable) :=
  _ ← BUG_ON (q_shutdown q);
  Ok (Queue (q_e q) (q_wq q) (q_conns q) (q_backlog q) true (q_ref q), trans_table_remove (eid (q_e q)) t).

(** Returns the threads to wake. *)
Definition tcp_qshutdown (q : tcpqueue) (t : ttable) : res (list nat * tcpqueue * ttable) :=
  '(q, t) ← __tcp_qshutdown q t;
  Ok (q_wq q, Queue (q_e q) [] (q_conns q) (q_backlog q) (q_shutdown q) (q_ref q), t).

(** Returns the connections to destroy and whether the queue is freed. *)
Definition tcp_qclose (q : tcpqueue) (t : ttable) : res (list nat * bool * tcpqueue * ttable) :=
  '(q, t) ← (if q_shutdown q then Ok (q, t) else __tcp_qshutdown q t);
  _ ← BUG_ON (match q_wq q with [] => false | _ => true end);
  Ok (q_conns q, q_ref q - 1 =? 0,
      Queue (q_e q) (q_wq q) [] (q_backlog q) (q_shutdown q) (q_ref q - 1), t).

(** *** Ports with a given flow affinity *)

(** The inner loop of [tcp_dial_affinity]: the next port after [base] whose flows
    have the affinity [in_aff]; [None] when the search is back at [start]. *)
Fixpoint affinity_next (fuel : nat) (aff : Z -> Z) (in_aff base start : Z) : option Z :=
  match fuel with
  | O => None
  | S fuel =>
      let base := u16 (base + 1) in
      if base =? start then None
      else if negb (aff base =? in_aff) || (base =? 0) then affinity_next fuel aff in_aff base start
      else Some base
  end.

(** [tcp_dial_affinity]: [dial] is the result of [tcp_dial] from a port. *)
Fixpoint tcp_dial_affinity_loop (fuel : nat) (aff dial : Z -> Z) (in_aff base start : Z) : Z * option Z :=
  match fuel with
  | O => (- EAGAIN, None)
  | S fuel =>
      match affinity_next (Z.to_nat M16) aff in_aff base start with
      | None => (- EAGAIN, None)
      | Some p =>
          let ret := dial p in
          if ret =? - EADDRINUSE then tcp_dial_affinity_loop fuel aff dial in_aff p start
          else (ret, Some p)
      end
  end.

Definition tcp_dial_affinity (aff dial : Z -> Z) (rand_crc32c : Z -> Z) (in_aff : Z) : Z * option Z :=
  let start := u16 (rand_crc32c in_aff) in
  tcp_dial_affinity_loop (Z.to_nat M16) aff dial in_aff start start.

Section env.
Context (E : env).

(** *** Opening a connection *)

(** [tcp_dial] up to its waiting loop, for the memory and the initial sequence
    number [mem]: an error, or the connection is being opened (with the lock held). *)
Definition tcp_dial_start (l r : netaddr) (mem : option (tcpconn * Z)) : M (option Z) :=
  match mem with
  | None => mret (Some (- ENOMEM))
  | Some (junk, rnd) =>
      _ ← modw (set_conn (tcp_conn_alloc junk rnd));
      ret ← tcp_conn_attach E l r;
      if negb (ret =? 0) then mret (Some ret)
      else
        _ ← spin_lock_np;
        ret ← tcp_tx_ctl E TCP_SYN;
        if negb (ret =? 0) then _ ← spin_unlock_np; _ ← tcp_conn_destroy E; mret (Some ret)
        else
          _ ← tcp_conn_get;
          _ ← tcp_conn_set_state E TCP_STATE_SYN_SENT;
          mret None
  end.

(** The loop and what follows, with the lock held. *)
Definition tcp_dial_wait (self : nat) : M Z :=
  c ← getc;
  if negb (tx_closed c) && st_lt (state (pcb c)) TCP_STATE_ESTABLISHED then waitq_wait_tx self
  else if tx_closed c then
    _ ← spin_unlock_np; _ ← tcp_conn_destroy E; mret (- err c)
  else _ ← spin_unlock_np; mret 0.

Definition tcp_local_addr : M netaddr := c ← getc; mret (laddr (c_e c)).
Definition tcp_remote_addr : M netaddr := c ← getc; mret (raddr (c_e c)).

(** *** Reading *)

(** The loop of [tcp_read_wait] over the receive queue [l]: the segments that are
    consumed, the one that is consumed in part, and [readlen]. *)
Fixpoint read_loop (l : list seg) (want readlen : Z) (q : list seg) : M (list seg * option seg * Z) :=
  match l with
  | [] => mret (q, None, readlen)
  | m :: l =>
      if negb (readlen <? want) then mret (q, None, readlen)
      else
        _ ← when (has (flags m) TCP_FIN) tcp_conn_shutdown_rx;
        if has (flags m) TCP_FIN && (mbuf_length (mb m) =? 0) then mret (q, None, readlen)
        else if want - readlen <? mbuf_length (mb m) then
          _ ← modc (set_rx_exclusive true);
          mret (q, Some m, want)
        else
          _ ← modc (set_rxq l);
          read_loop l want (readlen + mbuf_length (mb m)) (q ++ [m])
  end.

(** [tcp_read_wait] from the head of its waiting loop, with the lock held. *)
Definition tcp_read_wait (self : nat) (want : Z) : M (Z * list seg * option seg) :=
  c ← getc;
  if negb (rx_closed c) && (rx_exclusive c || match rxq c with [] => true | _ => false end)
  then waitq_wait_rx self
  else if rx_closed c then _ ← spin_unlock_np; mret (- err c, [], None)
  else
    '(q, m, readlen) ← read_loop (rxq c) want 0 [];
    _ ← modp (fun p => set_rcv_wnd (u32 (rcv_wnd p + readlen)) p);
    c ← getc;
    _ ← when (rcv_wnd_full c && (TCP_WIN / 4 <=? rcv_wnd (pcb c)))
          (_ ← tcp_tx_ack E; modc (set_rcv_wnd_full false));
    _ ← spin_unlock_np;
    mret (readlen, q, m).

Definition tcp_read_finish (m : option seg) : M unit :=
  match m with
  | None => mret tt
  | Some _ =>
      _ ← spin_lock_np;
      _ ← modc (set_rx_exclusive false);
      ths ← waitq_release_start_rx;
      _ ← spin_unlock_np;
      waitq_release_finish ths
  end.

(** The segment at the head of the receive queue, after [n] bytes were taken. *)
Definition consume_head (n : Z) : M (list Z) :=
  c ← getc;
  match rxq c with
  | [] => stop
  | m :: l =>
      '(p, b) ← lift (mbuf_pull n (mb m));
      bytes ← lift (read_bytes b p n);
      _ ← modc (set_rxq (set_seg_seq (u32 (seg_seq m + n)) (set_mb b m) :: l));
      mret bytes
  end.

(** The copying loop of [tcp_read]. *)
Fixpoint copy_segs (q : list seg) : M (list Z) :=
  match q with
  | [] => mret []
  | m :: q =>
      bytes ← lift (read_bytes (mb m) (data (mb m)) (mbuf_length (mb m)));
      _ ← rx_free m;
      rest ← copy_segs q;
      mret (bytes ++ rest)
  end.

(** [tcp_read] once it has taken the lock: the result and the bytes in the buffer. *)
Definition tcp_read (self : nat) (want : Z) : M (Z * list Z) :=
  _ ← spin_lock_np;
  '(ret, q, m) ← tcp_read_wait self want;
  if ret <=? 0 then mret (ret, [])
  else
    bytes ← copy_segs q;
    last ← match m with
           | None => mret []
           | Some _ => consume_head (want - Z.of_nat (length bytes))
           end;
    _ ← tcp_read_finish m;
    mret (ret, bytes ++ last).

Definition iov_len (iov : list Z) : Z := foldr (fun l n => u64 (l + n)) 0 iov.

(** [tcp_readv] copies the bytes of each segment into the vectors, at vector [i] and
    [offset]; here the bytes that were written to each vector.  One step of the copy
    of [bytes]. *)
Fixpoint scatter (fuel : nat) (iov : list Z) (i : nat) (offset : Z) (bufs : list (list Z)) (bytes : list Z)
    : res (nat * Z * list (list Z)) :=
  match fuel with
  | O => Bug
  | S fuel =>
      match iov !! i, bufs !! i with
      | Some vl, Some b =>
          let cpylen := Z.min (u64 (vl - offset)) (Z.of_nat (length bytes)) in
          let bufs := <[i := b ++ take (Z.to_nat cpylen) bytes]> bufs in
          let bytes := drop (Z.to_nat cpylen) bytes in
          let offset := offset + cpylen in
          let '(i, offset) := if offset =? vl then (S i, 0) else (i, offset) in
          if bool_decide (bytes = []) then Ok (i, offset, bufs) else scatter fuel iov i offset bufs bytes
      | _, _ => Bug
      end
  end.

Definition scatter_seg (iov : list Z) (st : nat * Z * list (list Z)) (bytes : list Z) : res (nat * Z * list (list Z)) :=
  let '(i, offset, bufs) := st in
  scatter (S (length bytes + length iov)) iov i offset bufs bytes.

Fixpoint scatter_all (iov : list Z) (st : nat * Z * list (list Z)) (l : list (list Z)) : res (nat * Z * list (list Z)) :=
  match l with
  | [] => Ok st
  | bytes :: l => st ← scatter_seg iov st bytes; scatter_all iov st l
  end.

(** The bytes of the segments, one list per segment; the segments are freed. *)
Fixpoint seg_bytes (q : list seg) : M (list (list Z)) :=
  match q with
  | [] => mret []
  | m :: q =>
      bytes ← lift (read_bytes (mb m) (data (mb m)) (mbuf_length (mb m)));
      _ ← rx_free m;
      rest ← seg_bytes q;
      mret (bytes :: rest)
  end.

Definition tcp_readv (self : nat) (iov : list Z) : M (Z * list (list Z)) :=
  _ ← spin_lock_np;
  '(ret, q, m) ← tcp_read_wait self (iov_len iov);
  if ret <=? 0 then mret (ret, [])
  else
    segs ← seg_bytes q;
    st ← lift (scatter_all iov (0%nat, 0, (fun _ => []) <$> iov) segs);
    st ← match m with
         | None => mret st
         | Some _ =>
             bytes ← consume_head (ret - Z.of_nat (length (concat segs)));
             lift (scatter_seg iov st bytes)
         end;
    _ ← tcp_read_finish m;
    mret (ret, st.2).

(** *** Writing *)

(** Must a writer wait? *)
Definition write_blocked (c : tcpconn) : bool :=
  negb (tx_closed c) &&
  (st_lt (state (pcb c)) TCP_STATE_ESTABLISHED || tx_exclusive c || is_snd_full (pcb c)).

Definition winlen (p : tcp_pcb) : Z := u32 (snd_una p + snd_wnd p - snd_nxt p).

(** Both from the head of the waiting loop, with the lock held. *)
Definition tcp_write_wait (self : nat) : M (Z * Z) :=
  c ← getc;
  if write_blocked c then waitq_wait_tx self
  else if tx_closed c then
    _ ← spin_unlock_np; mret (if err c =? 0 then - EPIPE else - err c, 0)
  else
    _ ← modc (set_tx_exclusive true);
    _ ← spin_unlock_np;
    mret (0, winlen (pcb c)).

Definition tcp_write (self : nat) (buf : list Z) : M Z :=
  _ ← spin_lock_np;
  c ← getc;
  if write_blocked c then waitq_wait_tx self
  else if tx_closed c then _ ← spin_unlock_np; mret (if err c =? 0 then - EPIPE else - err c)
  else
    let n := Z.of_nat (length buf) in
    let win := winlen (pcb c) in
    ret ← tcp_tx_send E (take (Z.to_nat (Z.min n win)) buf) (n <=? win);
    _ ← modc (set_ack_delayed (ret <? 0));
    _ ← tcp_timer_update E;
    _ ← spin_unlock_np;
    mret ret.

Definition tcp_write_finish : M unit :=
  c ← getc;
  _ ← assert_ (tx_exclusive c);
  _ ← spin_lock_np;
  _ ← modc (set_tx_exclusive false);
  q ← tcp_conn_ack;
  c ← getc;
  _ ← (if rcv_nxt (pcb c) =? tx_last_ack c then modc (set_ack_delayed false)
       else now ← microtime E; modc (set_ack_ts now));
  c ← getc;
  '(q, rtx) ←
    (if st_eq (state (pcb c)) TCP_STATE_CLOSED then
       _ ← modc (fun c => set_tx_pending None (set_txq [] c));
       mret (q ++ txq c ++ option_list (tx_pending c), None)
     else if do_fast_retransmit c then
       _ ← modc (set_do_fast_retransmit false);
       rtx ← (if fast_retransmit_last_ack c =? snd_una (pcb c) then tcp_tx_fast_retransmit_start E else mret None);
       mret (q, rtx)
     else mret (q, None));
  _ ← tcp_timer_update E;
  ths ← waitq_release_start_tx;
  _ ← spin_unlock_np;
  _ ← tcp_tx_fast_retransmit_finish E rtx;
  _ ← waitq_release_finish ths;
  mbuf_list_free q.

(** The loop of [tcp_writev] over the vectors; [sent] and [ret]. *)
Fixpoint writev_loop (iov : list (list Z)) (win sent ret : Z) : M (Z * Z) :=
  match iov with
  | [] => mret (sent, ret)
  | b :: iov =>
      if win <=? 0 then mret (sent, ret)
      else
        let n := Z.of_nat (length b) in
        ret ← tcp_tx_send E (take (Z.to_nat (Z.min n win)) b)
                (match iov with [] => true | _ => false end && (n <=? win));
        if ret <=? 0 then mret (sent, ret) else writev_loop iov (win - ret) (sent + ret) ret
  end.

Definition tcp_writev (self : nat) (iov : list (list Z)) : M Z :=
  _ ← spin_lock_np;
  '(ret, win) ← tcp_write_wait self;
  if negb (ret =? 0) then mret ret
  else
    '(sent, ret) ← writev_loop iov win 0 0;
    _ ← tcp_write_finish;
    mret (if 0 <? sent then sent else ret).

(** The thread [tcp_retransmit], from the head of its waiting loop. *)
Definition tcp_retransmit (self : nat) : M unit :=
  _ ← spin_lock_np;
  c ← getc;
  if tx_exclusive c && negb (st_eq (state (pcb c)) TCP_STATE_CLOSED) then waitq_wait_tx self
  else
    _ ← (if st_eq (state (pcb c)) TCP_STATE_CLOSED then spin_unlock_np
         else
           _ ← modc (set_tx_exclusive true);
           _ ← spin_unlock_np;
           _ ← tcp_tx_retransmit E;
           tcp_write_finish);
    tcp_conn_put E.

(** *** Closing *)

(** [tcp_conn_shutdown_tx] from the head of its waiting loop, with the lock held:
    what it tested before is not tested again. *)
Definition shutdown_tx_loop (self : nat) : M Z :=
  c ← getc;
  if tx_exclusive c then waitq_wait_tx self
  else
    ret ← tcp_tx_ctl E (Z.lor TCP_FIN TCP_ACK);
    if negb (ret =? 0) then mret ret
    else
      c ← getc;
      _ ← match state (pcb c) with
          | TCP_STATE_ESTABLISHED => tcp_conn_set_state E TCP_STATE_FIN_WAIT1
          | TCP_STATE_CLOSE_WAIT => tcp_conn_set_state E TCP_STATE_LAST_ACK
          | _ => mret tt
          end;
      _ ← modc (set_tx_closed true);
      _ ← waitq_release_tx;
      mret 0.

Definition tcp_conn_shutdown_tx (self : nat) : M Z :=
  _ ← assert_spin_lock_held;
  c ← getc;
  if tx_closed c then mret 0
  else
    _ ← assert_ (negb (st_lt (state (pcb c)) TCP_STATE_ESTABLISHED));
    shutdown_tx_loop self.

Inductive shut_how := SHUT_RD | SHUT_WR | SHUT_RDWR | SHUT_OTHER.

Definition tcp_shutdown (self : nat) (how : shut_how) : M Z :=
  let tx := match how with SHUT_WR | SHUT_RDWR => true | _ => false end in
  let rx := match how with SHUT_RD | SHUT_RDWR => true | _ => false end in
  match how with
  | SHUT_OTHER => mret (- EINVAL)
  | _ =>
      _ ← spin_lock_np;
      ret ← (if tx then tcp_conn_shutdown_tx self else mret 0);
      if negb (ret =? 0) then _ ← spin_unlock_np; mret ret
      else
        _ ← when rx tcp_conn_shutdown_rx;
        _ ← spin_unlock_np;
        mret 0
  end.

(** [tcp_abort] before and after its waiting loop. *)
Definition tcp_abort_start : M bool :=
  _ ← spin_lock_np;
  c ← getc;
  if st_eq (state (pcb c)) TCP_STATE_CLOSED then _ ← spin_unlock_np; mret false
  else _ ← tcp_conn_fail E ECONNABORTED; mret true.

Fixpoint abort_rst (n : nat) (l r : netaddr) (seq : Z) : M bool :=
  match n with
  | O => mret false
  | S n => ret ← tcp_tx_raw_rst E l r seq; if ret =? 0 then mret true else abort_rst n l r seq
  end.

Definition tcp_abort_wait (self : nat) (l r : netaddr) : M unit :=
  c ← getc;
  if tx_exclusive c then waitq_wait_tx self
  else
    let nxt := snd_nxt (pcb c) in
    _ ← spin_unlock_np;
    _ ← abort_rst 10 l r nxt;
    mret tt.

Definition tcp_abort (self : nat) : M unit :=
  c ← getc;
  open ← tcp_abort_start;
  when open (tcp_abort_wait self (laddr (c_e c)) (raddr (c_e c))).

Definition tcp_close (self : nat) : M unit :=
  _ ← spin_lock_np;
  c ← getc;
  _ ← assert_ (match rx_wq c with [] => true | _ => false end);
  ret ← tcp_conn_shutdown_tx self;
  _ ← when (negb (ret =? 0)) (tcp_conn_fail E (- ret));
  _ ← tcp_conn_shutdown_rx;
  _ ← spin_unlock_np;
  tcp_conn_put E.
End env.
