(* ===== verification/TcpStream.v ===== *)
(** * The byte stream of a TCP connection

    The receive side of tcp_in.c and the reading side of tcp.c, against the stream of
    bytes the peer sends: a function [S] of positions that are not wrapped, with the
    FIN (if any) at position [F]. *)

From S2P Require Import Prelude Stddef Mbuf Chksum Transport Arp Core TcpState TcpOut TcpConn TcpIn Tcp.

(** ** Pieces of the stream *)

Definition slice (S : Z -> Z) (a b : Z) : list Z := S <$> seqZ a (b - a).

Lemma length_slice S a b : a <= b -> Z.of_nat (length (slice S a b)) = b - a.
Proof. intros H. unfold slice. rewrite length_fmap, length_seqZ. lia. Qed.

Lemma slice_nil S a b : b <= a -> slice S a b = [].
Proof. intros H. unfold slice. by rewrite seqZ_nil by lia. Qed.

Lemma slice_app S a b c : a <= b -> b <= c -> slice S a b ++ slice S b c = slice S a c.
Proof.
  intros H1 H2. unfold slice. rewrite <- fmap_app. f_equal.
  replace (c - a) with ((b - a) + (c - b)) by lia. rewrite seqZ_app by lia. do 2 f_equal; lia.
Qed.

Lemma drop_slice S a b n : 0 <= n -> a + n <= b -> drop (Z.to_nat n) (slice S a b) = slice S (a + n) b.
Proof.
  intros Hn H. rewrite <- (slice_app S a (a + n) b) by lia. apply drop_app_length'.
  apply Nat2Z.inj. rewrite length_slice by lia. lia.
Qed.

Lemma take_slice S a b n : 0 <= n -> a + n <= b -> take (Z.to_nat n) (slice S a b) = slice S a (a + n).
Proof.
  intros Hn H. rewrite <- (slice_app S a (a + n) b) by lia. apply take_app_length'.
  apply Nat2Z.inj. rewrite length_slice by lia. lia.
Qed.

(** ** Segments *)

Section stream.
Context (S : Z -> Z) (F : Z).

(** The segment [m] carries the stream from [a] to [b], the FIN included if [b] is
    past it. *)
Record seg_at (m : seg) (a b : Z) : Prop := {
  sa_mb : mbuf_ok (mb m);
  sa_seq : seg_seq m = u32 a;
  sa_end : seg_end m = u32 b;
  sa_fin : b <= F + 1;
  sa_flag : has (flags m) TCP_FIN = true <-> b = F + 1;
  sa_pay : payload (mb m) = slice S a (Z.min b F);
}.

Lemma seg_at_len m a b : seg_at m a b -> a <= Z.min b F -> len (mb m) = Z.min b F - a.
Proof. intros [] H. rewrite <- (length_payload (mb m)), sa_pay0, length_slice by done. done. Qed.

Lemma clip_head_ok m a b N :
  seg_at m a b -> a <= N < b -> N - a < 2147483648 ->
  exists m', clip_head (u32 N) m = Ok m' /\ seg_at m' N b /\ sid m' = sid m /\ flags m' = flags m.
Proof.
  intros Hs Hab Hn. assert (Hl := seg_at_len m a b Hs). destruct Hs as [Hm Hq He Hf Hfl Hp].
  unfold clip_head. rewrite Hq, wraps_lt_near by (unfold near; lia).
  destruct (Z.ltb_spec a N) as [Hlt|Hlt].
  2: { assert (a = N) as -> by lia. exists m. split_and!; [done| |done|done]. by split. }
  rewrite u32_sub_l, u32_sub_r, (u32_id (N - a)) by (unfold in_u32, M32; lia).
  specialize (Hl ltac:(lia)). assert (Hpull := mbuf_pull_ok (N - a) (mb m) Hm ltac:(lia)).
  destruct (mbuf_pull (N - a) (mb m)) as [[p bb]|]; [|lia]. destruct Hpull as (_ & _ & Hok & Hpay).
  eexists. split; [reflexivity|]. split_and!; [|done|done].
  split; cbn; auto.
  - rewrite u32_add_l. f_equal. lia.
  - rewrite Hpay, Hp, drop_slice by lia. f_equal. lia.
Qed.

Lemma clip_tail_ok m a b X :
  seg_at m a b -> a <= X -> a < b -> -2147483648 < X - b < 2147483648 -> (b = F + 1 -> b <= X) ->
  exists m', clip_tail (u32 X) m = Ok m' /\ seg_at m' a (Z.min b X) /\ sid m' = sid m /\ flags m' = flags m.
Proof.
  intros Hs Ha Hab Hn HX. assert (Hl := seg_at_len m a b Hs). destruct Hs as [Hm Hq He Hf Hfl Hp].
  unfold clip_tail. rewrite He, wraps_lt_near by (unfold near; lia).
  destruct (Z.ltb_spec X b) as [Hlt|Hlt].
  2: { exists m. rewrite Z.min_l by lia. split_and!; [done| |done|done]. by split. }
  rewrite u32_sub_l, u32_sub_r, (u32_id (b - X)) by (unfold in_u32, M32; lia). specialize (Hl ltac:(lia)).
  assert (Htrim := mbuf_trim_ok (b - X) (mb m) Hm ltac:(lia)).
  destruct (mbuf_trim (b - X) (mb m)) as [[p bb]|]; [|lia]. destruct Htrim as (_ & _ & Hok & Hpay).
  eexists. split; [reflexivity|]. rewrite Z.min_r by lia. split_and!; [|done|done].
  split; cbn; auto; [lia| |].
  - rewrite Hfl. lia.
  - rewrite Hpay, Hp, Hl, take_slice by lia. f_equal. lia.
Qed.

(** ** The receive queue *)

(** The connection with other receive queues and receive variables. *)
Definition upd_rx (q o : list seg) (n : Z) (full : bool) (nxt wnd : Z) (c : tcpconn) : tcpconn :=
  set_rxq q (set_rxq_ooo o (set_rxq_ooo_len n (set_rcv_wnd_full full
    (set_pcb (set_rcv_wnd wnd (set_rcv_nxt nxt (pcb c))) c)))).

Lemma append_text_ok m a b N W w :
  let c := conn w in
  c_lock c = true -> rcv_nxt (pcb c) = u32 N -> rcv_wnd (pcb c) = W -> 0 <= W < 1073741824 ->
  seg_at m a b -> a <= N < b -> N - a < 1073741824 -> b - N < 1073741824 -> (b = F + 1 -> b <= N + W) ->
  let b' := Z.min b (N + W) in
  exists m', seg_at m' N b' /\ sid m' = sid m /\ flags m' = flags m /\
    tcp_rx_append_text m w =
      Ret tt (set_conn (upd_rx (rxq c ++ [m']) (rxq_ooo c) (rxq_ooo_len c)
        (if N + W - b' =? 0 then true else rcv_wnd_full c) (u32 b') (N + W - b') c) w).
Proof.
  intros c Hlock Hnxt Hwnd HW Hs Hab Hna Hbn HF b'.
  destruct (clip_head_ok m a b N Hs Hab ltac:(lia)) as (m1 & E1 & Hs1 & Hid1 & Hfl1).
  destruct (clip_tail_ok m1 N b (N + W) Hs1 ltac:(lia) ltac:(lia) ltac:(lia) HF) as (m2 & E2 & Hs2 & Hid2 & Hfl2).
  fold b' in Hs2. exists m2. split; [done|]. split; [congruence|]. split; [congruence|].
  unfold tcp_rx_append_text, assert_spin_lock_held, mbind, M_bind, getc, assert_, lift, mret, M_ret, modp, modc, when.
  cbv beta iota. fold c. rewrite Hlock. cbv beta iota zeta. fold c. rewrite Hnxt, Hwnd. destruct Hs as [_ Hq He _ _ _].
  rewrite Hq, wraps_lte_near, (proj2 (Z.leb_le a N)) by (unfold near; lia).
  rewrite He, wraps_gt_near, (proj2 (Z.ltb_lt N b)) by (unfold near; lia).
  rewrite E1, u32_add_l, E2. destruct Hs2 as [_ Hq2 He2 _ _ _].
  rewrite Hq2, He2, u32_sub_l, u32_sub_r. rewrite (u32_id (b' - N)) by (unfold in_u32, M32; lia).
  rewrite (proj2 (Z.leb_le (b' - N) W)) by lia.
  rewrite (u32_id (W - (b' - N))) by (unfold in_u32, M32; lia).
  replace (W - (b' - N)) with (N + W - b') by lia. cbn. fold c.
  destruct (Z.eqb_spec (N + W - b') 0) as [Hz|Hz]; reflexivity.
Qed.
(** ** The out-of-order queue

    The segments end in order, each after [lo], and not far beyond the window edge
    [X]; a FIN is inside the window. *)
Fixpoint ooo_ok (X lo : Z) (l : list seg) : Prop :=
  match l with
  | [] => True
  | m :: l => exists a b, seg_at m a b /\ a < b /\ lo < b /\ b - a <= 65536 /\ b <= X + 65536 /\
      (b = F + 1 -> b <= X) /\ ooo_ok X (b - 1) l
  end.

Lemma ooo_ok_mono X lo lo' l : lo' <= lo -> ooo_ok X lo l -> ooo_ok X lo' l.
Proof.
  destruct l as [|m l]; [done|]. intros H (a & b & ? & ? & ? & ? & ? & ? & ?). exists a, b. split_and!; auto; lia.
Qed.

Lemma ooo_ok_edge X X' lo l : X <= X' -> ooo_ok X lo l -> ooo_ok X' lo l.
Proof.
  intros H. revert lo. induction l as [|m l IH]; intros lo; [done|].
  intros (a & b & ? & ? & ? & ? & ? & ? & ?). exists a, b. split_and!; auto; lia.
Qed.

Lemma upd_rx_id c :
  upd_rx (rxq c) (rxq_ooo c) (rxq_ooo_len c) (rcv_wnd_full c) (rcv_nxt (pcb c)) (rcv_wnd (pcb c)) c = c.
Proof. by destruct c as [? []]. Qed.

Lemma upd_rx_ooo l n c :
  set_rxq_ooo_len n (set_rxq_ooo l c) =
  upd_rx (rxq c) l n (rcv_wnd_full c) (rcv_nxt (pcb c)) (rcv_wnd (pcb c)) c.
Proof. by destruct c as [? []]. Qed.

Lemma set_conn_id w : set_conn (conn w) w = w.
Proof. by destruct w. Qed.

Definition qbytes (q : list seg) : list Z := concat (payload ∘ mb <$> q).

Lemma qbytes_app q1 q2 : qbytes (q1 ++ q2) = qbytes q1 ++ qbytes q2.
Proof. unfold qbytes. by rewrite fmap_app, concat_app. Qed.

(** A segment is identified by its address; its flags never change. *)
Definition key (m : seg) : nat * Z := (sid m, flags m).

(** The world after a change of the receive side that freed the mbufs [fr]. *)
Definition rx_world (q o : list seg) (full : bool) (nxt wnd : Z) (fr : list (nat * Z)) (w : world) : world :=
  set_trace (trace w ++ ((fun k => EvFree k.1) <$> fr))
    (set_conn (upd_rx q o (Z.of_nat (length o)) full nxt wnd (conn w)) w).

(** What the receive queue holds: the stream from [R] to [N], in intact mbufs. *)
Definition rxq_ok (R N : Z) (q : list seg) : Prop :=
  Forall (fun m => mbuf_ok (mb m)) q /\ qbytes q = slice S R (Z.min N F).

Lemma rxq_ok_snoc R N q m b :
  rxq_ok R N q -> seg_at m N b -> R <= N <= b -> N <= F -> rxq_ok R b (q ++ [m]).
Proof.
  intros [Hok Hq] Hm HR HN. split; [apply Forall_app_2; auto; constructor; [apply Hm|done]|].
  rewrite qbytes_app, Hq. unfold qbytes. cbn. rewrite app_nil_r, (sa_pay _ _ _ Hm), Z.min_l by lia.
  apply slice_app; lia.
Qed.

Lemma ooo_drain_ok R X lo l : forall N wake w,
  let c := conn w in
  c_lock c = true -> rcv_nxt (pcb c) = u32 N -> rcv_wnd (pcb c) = X - N ->
  lo <= N <= X -> X - lo < 1048576 -> R <= N <= F + 1 ->
  rxq_ooo c = l -> rxq_ooo_len c = Z.of_nat (length l) -> Z.of_nat (length l) < 1048576 ->
  ooo_ok X lo l -> rxq_ok R N (rxq c) ->
  exists wake' q o full N' fr,
    ooo_drain l wake w = Ret wake' (rx_world q o full (u32 N') (X - N') fr w) /\
    N <= N' <= X /\ N' <= F + 1 /\ ooo_ok X N' o /\ rxq_ok R N' q /\ (length o <= length l)%nat /\
    (key <$> q) ++ (key <$> o) ++ fr ≡ₚ (key <$> rxq c) ++ (key <$> l) /\
    exists ext, q = rxq c ++ ext /\ (ext = [] -> N' = N /\ wake' = wake).
Proof.
  induction l as [|pos l IH]; intros N wake w c Hlock Hnxt Hwnd HN HX HR Ho Hlen Hl Hok Hq.
  { exists wake, (rxq c), [], (rcv_wnd_full c), N, []. split; [|repeat match goal with |- _ /\ _ => split end; first [done | lia | by rewrite !app_nil_r | exists []; by rewrite app_nil_r]].
    unfold rx_world. cbn in Hlen |- *. rewrite <- Hnxt, <- Hwnd, <- Hlen, app_nil_r.
    rewrite <- Ho at 1. fold c. by rewrite upd_rx_id; unfold c; destruct w. }
  destruct Hok as (a & b & Hs & Hab & Hlo & Hba & HbX & HFX & Hok).
  set (w1 := set_conn (set_rxq_ooo_len (u32 (rxq_ooo_len c - 1)) (set_rxq_ooo l c)) w).
  cbn [length] in Hlen, Hl.
  assert (Hlen1 : u32 (rxq_ooo_len c - 1) = Z.of_nat (length l)) by (rewrite u32_id; unfold in_u32, M32; lia).
  cbn [ooo_drain]. rewrite (bind_Ret getc _ w c w) by done. cbv zeta. rewrite Hnxt.
  assert (Hs' := Hs). destruct Hs' as [_ Hseq Hend Hbf _ _].
  rewrite Hend, Hseq, wraps_lte_near, wraps_gt_near by (unfold near; lia).
  destruct (Z.leb_spec b N) as [HbN|HbN]; [|destruct (Z.ltb_spec N a) as [HaN|HaN]].
  - (* received already *)
    rewrite (bind_Ret _ _ w tt w1) by done.
    set (w2 := set_trace (trace w1 ++ [EvFree (sid pos)]) w1). rewrite (bind_Ret _ _ w1 tt w2) by done.
    destruct (IH N wake w2) as (wake' & q & o & full & N' & fr & E & HN' & HF' & Ho' & Hq' & Hl' & Hperm & Hext);
      try done; try (cbn; lia).
    { by apply (ooo_ok_mono _ (b - 1)); [lia|]. }
    exists wake', q, o, full, N', (key pos :: fr). split_and!; auto; try (cbn; lia).
    + rewrite E. unfold rx_world. cbn. by rewrite <- app_assoc.
    + cbn in Hperm |- *. rewrite <- !Permutation_middle. by rewrite <- Hperm.
  - (* still out of order *)
    exists wake, (rxq c), (pos :: l), (rcv_wnd_full c), N, []. split_and!; auto; try (cbn; lia).
    + unfold rx_world. cbn [length]. rewrite <- Hnxt, <- Hwnd, <- Hlen, <- Ho. cbn. rewrite app_nil_r.
      fold c. rewrite upd_rx_id. by destruct w.
    + exists a, b. split_and!; auto; lia.
    + by rewrite app_nil_r.
    + exists []. by rewrite app_nil_r.
  - rewrite (bind_Ret _ _ w tt w1) by done. cbv zeta.
    destruct (append_text_ok pos a b N (X - N) w1) as (m' & Hm' & Hid & Hfl & E); try done; try (cbn; lia).
    replace (N + (X - N)) with X in * by lia. set (b' := Z.min b X) in *.
    rewrite (bind_Ret _ _ w1 tt _ E). set (w2 := set_conn _ w1).
    match goal with |- context [ooo_drain l ?k] => set (wake1 := k) end.
    destruct (IH b' wake1 w2) as (wake' & q & o & full & N' & fr & E' & HN' & HF' & Ho' & Hq' & Hl' & Hperm & Hext);
      try done; try (cbn; lia).
    { by apply (ooo_ok_mono _ (b - 1)); [lia|]. }
    { apply (rxq_ok_snoc R N); auto; lia. }
    exists wake', q, o, full, N', fr. split_and!; auto; try (cbn; lia).
    + rewrite Hperm. cbn. rewrite fmap_app. cbn. unfold key at 2. rewrite Hid, Hfl, <- app_assoc. done.
    + destruct Hext as (ext & -> & _). exists (m' :: ext). split; [|done]. cbn. by rewrite <- app_assoc.
Qed.

(** *** Insertion *)

Lemma ooo_insert_rev_split m rl rl' :
  ooo_insert_rev m rl = Some rl' ->
  exists r1 r2, rl = r1 ++ r2 /\ rl' = r1 ++ m :: r2 /\
    Forall (fun p => wraps_gt (seg_end m) (seg_end p) = false) r1 /\
    (forall p r, r2 = p :: r -> wraps_gt (seg_end m) (seg_end p) = true).
Proof.
  revert rl'. induction rl as [|pos rl IH]; cbn; intros rl'.
  { intros [= <-]. by exists [], []. }
  destruct (wraps_gt (seg_end m) (seg_end pos)) eqn:E.
  { intros [= <-]. exists [], (pos :: rl). split_and!; auto. by intros p r [= <- <-]. }
  destruct (wraps_gte _ _); [done|]. destruct (ooo_insert_rev m rl) as [x|] eqn:Ex; [|done].
  intros [= <-]. destruct (IH x eq_refl) as (r1 & r2 & -> & -> & H1 & H2).
  exists (pos :: r1), r2. split_and!; auto.
Qed.

Lemma ooo_ok_elem X lo l1 p l2 :
  ooo_ok X lo (l1 ++ p :: l2) -> exists b, seg_end p = u32 b /\ lo < b <= X + 65536.
Proof.
  revert lo. induction l1 as [|x l1 IH]; cbn; intros lo (a & b & Hs & ? & ? & ? & ? & ? & Hr).
  - exists b. split; [apply Hs|lia].
  - destruct (IH _ Hr) as (b' & ? & ?). exists b'. split; [done|lia].
Qed.

Lemma ooo_ok_insert X lo m a b l1 l2 :
  seg_at m a b -> a < b -> lo < b -> b - a <= 65536 -> b <= X + 65536 -> (b = F + 1 -> b <= X) ->
  X - lo < 1048576 -> ooo_ok X lo (l1 ++ l2) ->
  Forall (fun p => wraps_gt (seg_end m) (seg_end p) = false) l2 ->
  (forall p r, l1 = r ++ [p] -> wraps_gt (seg_end m) (seg_end p) = true) ->
  ooo_ok X lo (l1 ++ m :: l2).
Proof.
  intros Hs Hab Hlo Hba HbX HF HX Hok H2 H1. assert (Hend := sa_end _ _ _ Hs).
  revert lo Hlo HX Hok. induction l1 as [|x l1 IH]; intros lo Hlo HX Hok.
  - cbn in Hok |- *. exists a, b. split_and!; auto. destruct l2 as [|p l2]; [done|].
    destruct Hok as (ap & bp & Hp & ? & ? & ? & ? & ? & Hr). apply Forall_cons_1 in H2 as [H2 _].
    rewrite Hend, (sa_end _ _ _ Hp), wraps_gt_near in H2 by (unfold near; lia). bprop.
    exists ap, bp. split_and!; auto. lia.
  - destruct Hok as (ax & bx & Hx & ? & ? & ? & ? & ? & Hr). exists ax, bx. split_and!; auto.
    assert (bx <= b).
    { destruct l1 as [|y l1' _] using rev_ind.
      - specialize (H1 x [] eq_refl). rewrite Hend, (sa_end _ _ _ Hx), wraps_gt_near in H1 by (unfold near; lia).
        bprop. lia.
      - rewrite <- app_assoc in Hr. destruct (ooo_ok_elem _ _ _ _ _ Hr) as (by_ & Ey & ?).
        specialize (H1 y (x :: l1') eq_refl). rewrite Hend, Ey, wraps_gt_near in H1 by (unfold near; lia).
        bprop. lia. }
    apply IH; auto; try lia. intros p r ->. apply (H1 p (x :: r)). done.
Qed.
(** ** The receive side

    [R] is the position of the first byte that was not read, [N] the next position
    that is expected: the receive queue holds what is between, and the window is
    what is left of [TCP_WIN]. *)
Record rx_inv (R N : Z) (c : tcpconn) : Prop := {
  ri_nxt : rcv_nxt (pcb c) = u32 N;
  ri_wnd : rcv_wnd (pcb c) = R + TCP_WIN - N;
  ri_pos : 0 <= rcv_wnd (pcb c);
  ri_range : R <= N <= F + 1;
  ri_RF : R <= F;
  ri_q : rxq_ok R N (rxq c);
  ri_ooo : ooo_ok (R + TCP_WIN) N (rxq_ooo c);
  ri_len : rxq_ooo_len c = Z.of_nat (length (rxq_ooo c));
  ri_max : rxq_ooo_len c <= TCP_OOO_MAX_SIZE;
}.

(** A segment the acceptability test lets through. *)
Record rx_seg (R N : Z) (m : seg) (a b : Z) : Prop := {
  rs_at : seg_at m a b;
  rs_lt : a < b;
  rs_new : a <= N -> N < b;
  rs_len : b - a <= 65536;
  rs_edge : b <= R + TCP_WIN + 65536;
  rs_fin : b = F + 1 -> b <= R + TCP_WIN;
}.

Lemma rx_world_inv R N w q o full N' fr :
  N' <= R + TCP_WIN -> R <= N' <= F + 1 -> rxq_ok R N' q -> ooo_ok (R + TCP_WIN) N' o ->
  Z.of_nat (length o) <= TCP_OOO_MAX_SIZE -> rx_inv R N (conn w) ->
  rx_inv R N' (conn (rx_world q o full (u32 N') (R + TCP_WIN - N') fr w)).
Proof. intros ? ? ? ? ? []. split; cbn; auto; lia. Qed.

(** The drain after the connection [c1] of [w1] has taken the segment. *)
Lemma rx_text_drain_ok R N wake w :
  let c := conn w in
  let X := R + TCP_WIN in
  c_lock c = true -> rcv_nxt (pcb c) = u32 N -> rcv_wnd (pcb c) = X - N -> R <= N <= F + 1 -> N <= X ->
  rxq_ooo_len c = Z.of_nat (length (rxq_ooo c)) -> rxq_ooo_len c <= TCP_OOO_MAX_SIZE ->
  ooo_ok X R (rxq_ooo c) -> rxq_ok R N (rxq c) ->
  exists wake' q o full N' fr,
    rx_text_drain wake w = Ret (true, wake') (rx_world q o full (u32 N') (X - N') fr w) /\
    N <= N' <= X /\ N' <= F + 1 /\ ooo_ok X N' o /\ rxq_ok R N' q /\ Z.of_nat (length o) <= TCP_OOO_MAX_SIZE /\
    (key <$> q) ++ (key <$> o) ++ fr ≡ₚ (key <$> rxq c) ++ (key <$> rxq_ooo c) /\
    (q = [] -> rxq c = [] /\ N' = N /\ wake' = wake || (X - N =? 0)).
Proof.
  intros c X Hlock Hnxt Hwnd HR HN Hlen Hmax Ho Hq. unfold TCP_OOO_MAX_SIZE in *.
  assert (HX : X = R + 64240) by done.
  destruct (ooo_drain_ok R X R (rxq_ooo c) N wake w) as (wk & q & o & full & N' & fr & E & ? & ? & ? & ? & ? & ? & Hext);
    try done; try lia.
  exists (wk || (X - N' =? 0)), q, o, full, N', fr. split.
  - unfold rx_text_drain. rewrite (bind_Ret getc _ w c w) by done. rewrite (bind_Ret _ _ w _ _ E).
    match goal with |- context [rx_world ?a ?b ?c ?d ?e ?f ?g] => set (w2 := rx_world a b c d e f g) end.
    rewrite (bind_Ret getc _ w2 (conn w2) w2) by done. done.
  - split_and!; auto; try lia. intros ->. destruct Hext as (ext & Eq & Hn).
    symmetry in Eq. apply app_nil in Eq as [Eq ->]. by destruct (Hn eq_refl) as [-> ->].
Qed.

(** One segment through [tcp_rx_text]. *)
Lemma rx_text_ok R N m a b w :
  c_lock (conn w) = true -> rx_inv R N (conn w) -> rx_seg R N m a b ->
  exists used wake w' N', tcp_rx_text m w = Ret (used, wake) w' /\ rx_inv R N' (conn w') /\ N <= N' /\
    (used = false -> w' = w /\ wake = false) /\
    (wake = true -> rxq (conn w') <> []) /\
    (a <= N -> 0 < rcv_wnd (pcb (conn w)) -> used = true /\ Z.min b (R + TCP_WIN) <= N') /\
    exists q o full fr, w' = rx_world q o full (u32 N') (R + TCP_WIN - N') fr w /\
      (used = true -> (key <$> q) ++ (key <$> o) ++ fr ≡ₚ
        key m :: (key <$> rxq (conn w)) ++ (key <$> rxq_ooo (conn w))).
Proof.
  intros Hlock Hinv Hm. assert (Hinv' := Hinv). destruct Hinv' as [Hnxt Hwnd Hpos HR HRF Hq Ho Hlen Hmax].
  destruct Hm as [Hs Hab Hnew Hba HbX HFX].
  set (c := conn w) in *. set (X := R + TCP_WIN) in *. assert (HX : X = R + 64240) by done.
  assert (Hw0 : w = rx_world (rxq c) (rxq_ooo c) (rcv_wnd_full c) (u32 N) (X - N) [] w).
  { unfold rx_world. rewrite <- Hnxt, <- Hwnd, <- Hlen. fold c. rewrite upd_rx_id. cbn. rewrite app_nil_r. by destruct w. }
  unfold tcp_rx_text. rewrite (bind_Ret _ _ _ _ _ (lock_held w Hlock)).
  rewrite (bind_Ret getc _ w c w) by done.
  destruct (Z.eqb_spec (rcv_wnd (pcb c)) 0) as [Hz|Hz].
  { exists false, false, w, N. split_and!; auto; try lia. exists (rxq c), (rxq_ooo c), (rcv_wnd_full c), []. done. }
  assert (Hs' := Hs). destruct Hs' as [_ Hseq Hend Hbf _ _].
  assert (near a N) by (unfold near; lia).
  rewrite Hnxt, Hseq, wraps_lte_near by done. destruct (Z.leb_spec a N) as [HaN|HaN].
  - (* the next segment *)
    destruct (append_text_ok m a b N (X - N) w) as (m' & Hm' & Hid & Hfl & E); try done; try (unfold c in *; lia).
    replace (N + (X - N)) with X in * by lia. set (b' := Z.min b X) in *.
    rewrite (bind_Ret _ _ w tt _ E). set (w1 := set_conn _ w).
    destruct (rx_text_drain_ok R b' (has (flags m) (Z.lor TCP_PUSH TCP_FIN)) w1)
      as (wk & q & o & full & N' & fr & E' & ? & ? & Ho' & Hq' & Hl' & Hperm & Hne); try done; try (cbn; fold X; lia).
    { apply (ooo_ok_mono _ N); [lia|done]. }
    { apply (rxq_ok_snoc R N); auto; lia. }
    exists true, wk, (rx_world q o full (u32 N') (X - N') fr w), N'.
    split_and!; try done; try lia.
    + by apply (rx_world_inv R N); auto; lia.
    + intros _ Hq0. cbn in Hq0. destruct (Hne Hq0) as (Hne1 & _). cbn in Hne1. by destruct (rxq (conn w)).
    + exists q, o, full, fr. split; [done|]. intros _. rewrite Hperm. cbn.
      rewrite fmap_app. cbn. unfold key at 2. rewrite Hid, Hfl, <- app_assoc. cbn. by rewrite <- Permutation_middle.
  - (* out of order *)
    destruct (Z.leb_spec TCP_OOO_MAX_SIZE (rxq_ooo_len c)) as [Hfull|Hfull].
    { exists false, false, w, N. split_and!; auto; try lia. exists (rxq c), (rxq_ooo c), (rcv_wnd_full c), []. done. }
    unfold ooo_insert. destruct (ooo_insert_rev m (rev (rxq_ooo c))) as [l|] eqn:Ei.
    2: { exists false, false, w, N. split_and!; auto; try lia. exists (rxq c), (rxq_ooo c), (rcv_wnd_full c), []. done. }
    apply ooo_insert_rev_split in Ei as (r1 & r2 & Er & -> & H1 & H2).
    assert (El : rxq_ooo c = rev r2 ++ rev r1) by (rewrite <- rev_app_distr, <- Er; symmetry; apply rev_involutive).
    cbn [fmap option_fmap option_map]. rewrite rev_app_distr. cbn [rev]. rewrite <- app_assoc. cbn [app].
    set (l := rev r2 ++ m :: rev r1). set (w1 := set_conn (set_rxq_ooo_len (u32 (rxq_ooo_len c + 1)) (set_rxq_ooo l c)) w).
    rewrite (bind_Ret _ _ w tt w1) by done.
    assert (Hlen1 : u32 (rxq_ooo_len c + 1) = Z.of_nat (length l)).
    { unfold l. rewrite El, !length_app in Hlen. rewrite length_app. cbn [length].
      rewrite u32_id; unfold TCP_OOO_MAX_SIZE, in_u32, M32 in *; lia. }
    assert (Hmax1 : u32 (rxq_ooo_len c + 1) <= TCP_OOO_MAX_SIZE)
      by (rewrite u32_id; unfold TCP_OOO_MAX_SIZE, in_u32, M32 in *; lia).
    assert (Hl : ooo_ok X N l).
    { rewrite El in Ho. apply (ooo_ok_insert X N m a b); auto; try lia; [by apply Forall_rev|].
      intros p r Ep. apply (H2 p (rev r)). rewrite <- (rev_involutive r2), Ep, rev_app_distr. done. }
    destruct (rx_text_drain_ok R N false w1)
      as (wk & q & o & full & N' & fr & E' & ? & ? & Ho' & Hq' & Hl' & Hperm & Hne);
      try done; try (cbn; fold X; lia).
    { apply (ooo_ok_mono _ N); [lia|done]. }
    exists true, wk, (rx_world q o full (u32 N') (X - N') fr w), N'.
    split_and!; try done; try lia.
    + by apply (rx_world_inv R N); auto; lia.
    + intros Hwk Hq0. cbn in Hq0. destruct (Hne Hq0) as (_ & _ & E). rewrite Hwk in E. symmetry in E. cbn [orb] in E.
      bprop. fold X in E. lia.
    + exists q, o, full, fr. split; [done|]. intros _. rewrite Hperm. cbn. unfold l. rewrite El, !fmap_app. cbn.
      rewrite <- !Permutation_middle. done.
Qed.
End stream.
