(* ===== verification/TcpRecv.v ===== *)
(** * Delivery of the byte stream

    The whole receive path (fast and slow) and [tcp_read] on an established
    connection that has nothing to send: whatever the network does to the segments,
    what is read is what was sent, in order and once. *)

From S2P Require Import Prelude Stddef Mbuf Chksum Transport Arp Core TcpState TcpOut TcpConn TcpIn TcpWire Tcp TcpStream.

Section recv.
Context (E : env) (HE : env_ok E).
Context (S : Z -> Z) (F : Z) (U : Z).

(** ** The invariant *)

(** An established connection without packets in flight. *)
Record quiet (lk : bool) (c : tcpconn) : Prop := {
  qu_lock : c_lock c = lk;
  qu_state : state (pcb c) = TCP_STATE_ESTABLISHED;
  qu_txq : txq c = [];
  qu_excl : tx_exclusive c = false;
  qu_una : snd_una (pcb c) = snd_nxt (pcb c);
  qu_U : snd_nxt (pcb c) = U;
  qu_rxe : rx_exclusive c = false;
  qu_rxc : rx_closed c = false;
}.

(** The invariant: [lk] says whether the lock is held. *)
Record J (lk : bool) (R N : Z) (w : world) : Prop := {
  J_q : quiet lk (conn w);
  J_i : rx_inv S F R N (conn w);
  J_f : Forall (fun m => has (flags m) TCP_FIN = false) (rxq (conn w) ++ rxq_ooo (conn w));
}.

(** What the invariant depends on. *)
Definition view (c : tcpconn) :=
  (c_lock c, (state (pcb c), snd_una (pcb c), snd_nxt (pcb c), rcv_nxt (pcb c), rcv_wnd (pcb c)),
   (txq c, tx_exclusive c, rx_exclusive c, rx_closed c), (rxq c, rxq_ooo c, rxq_ooo_len c)).

Lemma J_view lk R N w w' : view (conn w') = view (conn w) -> J lk R N w -> J lk R N w'.
Proof.
  intros Hv [[] [] ?]. unfold view in Hv. injection Hv as V1 V2 V3 V4 V5 V6 V7 V8 V9 V10 V11 V12 V13.
  split; [split|split|]; congruence.
Qed.

(** Continue after a computation with a known specification. *)
Ltac wuse tac := eapply wp_mono; [tac|cbv beta].
Ltac same_J H := eapply J_view; [|exact H]; reflexivity.

Lemma emits_wp (ths : list nat) f w (Q : unit -> world -> Prop) :
  (forall t, Q tt (set_trace (trace w ++ t) w)) -> wp (mapM_ (fun th => emit (f th)) ths) w Q.
Proof.
  revert w. induction ths as [|th ths IH]; cbn; intros w H.
  - apply wp_ret. specialize (H []). rewrite app_nil_r in H. by destruct w.
  - wstep. wstep. apply IH. intros t. cbn. rewrite <- app_assoc. apply (H (f th :: t)).
Qed.

Lemma timer_update_wp lk R N w :
  J true R N w -> lk = true -> wp (tcp_timer_update E) w (fun _ w' => J lk R N w' /\ trace w' = trace w).
Proof.
  intros HJ ->. assert (Hq := HJ). destruct Hq as [[] _ _]. unfold tcp_timer_update.
  wstep. exists tt, w. split; [by apply lock_held|]. wstep. wstep.
  exists None, w. split. { unfold txq_first_ts, mbind, M_bind, getc. by rewrite qu_excl0, qu_txq0. }
  wstep. destruct (rxq_ooo (conn w)).
  - wstep. wstep. split; [same_J HJ|done].
  - wstep. unfold microtime. wstep. wstep. wstep. wstep. wstep. wstep. split; [same_J HJ|done].
Qed.

Lemma unlock_wp R N w : J true R N w -> wp spin_unlock_np w (fun _ w' => J false R N w').
Proof.
  intros HJ. assert (Hq := HJ). destruct Hq as [[] ? ?]. unfold spin_unlock_np. wstep. rewrite qu_lock0. wstep.
  split; [split| |]; try done. by destruct J_i0.
Qed.

Lemma lock_wp R N w : J false R N w -> wp spin_lock_np w (fun _ w' => J true R N w' /\ conn w' = set_c_lock true (conn w)).
Proof.
  intros HJ. assert (Hq := HJ). destruct Hq as [[] ? ?]. unfold spin_lock_np. wstep. rewrite qu_lock0. wstep.
  split; [|done]. split; [split| |]; try done. by destruct J_i0.
Qed.

Lemma tx_ack_view w : wp (tcp_tx_ack E) w (fun _ w' => view (conn w') = view (conn w)).
Proof.
  destruct (tcp_tx_ack_run E w HE) as (ret & w' & Ea & [(a & v & Hc) _ _ _ _] & _).
  exists ret, w'. split; [done|]. by rewrite Hc.
Qed.

Lemma tx_ack_wp lk R N w : J lk R N w -> wp (tcp_tx_ack E) w (fun _ w' => J lk R N w').
Proof. intros HJ. wuse ltac:(apply tx_ack_view). intros _ w' Hv. by eapply J_view. Qed.

Lemma signal_rx_wp R N w : J true R N w -> wp waitq_signal_rx w (fun _ w' => J true R N w').
Proof.
  intros HJ. unfold waitq_signal_rx. wstep. exists tt, w. split; [apply lock_held, (qu_lock _ _ (J_q _ _ _ _ HJ))|]. wstep.
  destruct (rx_wq (conn w)); [by wstep|]. wstep. wstep. wstep. same_J HJ.
Qed.

(** The work after the lock is dropped, when no packets of ours are involved. *)
Lemma rx_finish_wp k m R N w :
  J true R N w -> w_acked k = [] -> w_retransmit k = None ->
  wp (rx_finish E k m) w (fun _ w' => J false R N w').
Proof.
  intros HJ Ha Hr. unfold rx_finish. rewrite Ha, Hr.
  wstep. wuse ltac:(by apply (timer_update_wp true R N)). intros _ w1 [H1 _].
  wstep. wuse ltac:(by apply unlock_wp). intros _ w2 H2.
  wstep. apply emits_wp. intros t. wstep.
  assert (H3 : J false R N (set_trace (trace w2 ++ t) w2)) by same_J H2. clear H2.
  eapply (wp_mono _ _ (fun _ w' => J false R N w')).
  { destruct (w_rx_th k); cbn; wstep; [same_J H3|done]. }
  cbv beta. intros _ w3 H4. cbn [mbuf_list_free mapM_ tcp_tx_fast_retransmit_finish]. wstep. wstep. wstep. wstep. wstep.
  eapply (wp_mono _ _ (fun _ w' => J false R N w')).
  { wstep; [|done]. intros _. wstep. wuse ltac:(by apply tx_ack_wp). intros ret w4 H5. by wstep. }
  cbv beta. intros _ w4 H5. wstep; [|done]. intros _. unfold rx_free. wstep. same_J H5.
Qed.
(** ** The slow path *)

(** The acceptability test on positions: the segment from [a] to [b] has its first
    or its last position in the window. *)
Lemma is_acceptable_near p N W a b :
  rcv_nxt p = u32 N -> rcv_wnd p = W -> 0 <= W < 65536 -> a < b <= a + 65536 ->
  N - 1073741824 < a < N + 1073741824 ->
  is_acceptable p (b - a) (u32 a) =
    (0 <? W) && (((N <=? a) && (a <? N + W)) || ((N <=? b - 1) && (b - 1 <? N + W))).
Proof.
  intros Hn Hw HW Hab H1. unfold is_acceptable. rewrite Hn, Hw, u32_add_l.
  rewrite (proj2 (Z.eqb_neq (b - a) 0)), (proj2 (Z.ltb_lt 0 (b - a))) by lia. cbn [andb].
  replace (u32 (u32 a + (b - a) - 1)) with (u32 (b - 1)).
  2: { replace (u32 a + (b - a) - 1) with (u32 a + (b - a - 1)) by lia. rewrite u32_add_l. f_equal. lia. }
  rewrite !wraps_lte_near, !wraps_lt_near by (unfold near; lia).
  bdestruct; cbn [andb orb]; lia || done.
Qed.

(** The segment from [a] to [b] of the stream, without FIN, that acknowledges all we
    sent. *)
Record data_seg (N : Z) (m : seg) (a b : Z) : Prop := {
  ds_at : seg_at S F m a b;
  ds_lt : a < b <= a + 65535;
  ds_fin : b <= F;
  ds_near : N - 1073741824 < a < N + 1073741824;
  ds_ack : has (flags m) TCP_ACK = true;
  ds_rst : has (flags m) TCP_RST = false;
  ds_syn : has (flags m) TCP_SYN = false;
}.

Lemma no_fin N m a b : data_seg N m a b -> has (flags m) TCP_FIN = false.
Proof. intros [[] ? ? ? _ _ _]. destruct (has (flags m) TCP_FIN); [|done]. assert (b = F + 1) by tauto. lia. Qed.

Lemma Forall_keys q o m l fr :
  (key <$> q) ++ (key <$> o) ++ fr ≡ₚ key m :: l ->
  Forall (fun k : nat * Z => has k.2 TCP_FIN = false) (key m :: l) ->
  Forall (fun m => has (flags m) TCP_FIN = false) (q ++ o).
Proof.
  intros Hp Hk. rewrite <- Hp, !Forall_app, !Forall_fmap in Hk. apply Forall_app. split; apply Hk.
Qed.

(** Step 7. *)
Lemma step_text_wp R N m a b w :
  J true R N w -> data_seg N m a b -> rx_seg S F R N m a b ->
  wp (rx_step_text E m (u32 a) (b - a)) w (fun _ w' => exists N', J true R N' w' /\ N <= N' /\
    (a <= N -> 0 < rcv_wnd (pcb (conn w)) -> Z.min b (R + TCP_WIN) <= N')).
Proof.
  intros HJ Hd Hm. assert (HJ' := HJ). destruct HJ' as [Hq Hinv Hnf]. unfold rx_step_text. wstep.
  rewrite (qu_state _ _ Hq). assert (Hlt := ds_lt _ _ _ _ Hd). rewrite (proj2 (Z.ltb_lt 0 (b - a))) by lia. cbn [andb].
  change (rx_takes_text TCP_STATE_ESTABLISHED) with true. cbv iota.
  set (m' := set_seg_end _ m).
  assert (Hm' : rx_seg S F R N m' a b).
  { destruct Hm as [[] ? ? ? ? ?]. split; auto. split; auto. cbn. rewrite u32_add_l. f_equal. lia. }
  destruct (rx_text_ok S F R N m' a b w (qu_lock _ _ Hq) Hinv Hm')
    as (used & wake & w1 & N' & E1 & Hinv1 & HN & Hun & Hwake & Hprog & q & o & full & fr & Hw1 & Hperm).
  wstep. exists (used, wake), w1. split; [exact E1|].
  assert (HJ1 : J true R N' w1).
  { split; [rewrite Hw1; destruct Hq; by split|done|].
    destruct used; [|by destruct (Hun eq_refl) as [-> _]]. specialize (Hperm eq_refl). rewrite Hw1. cbn.
    apply (Forall_keys _ _ _ _ fr Hperm). constructor; [by apply (no_fin N m a b)|]. by rewrite <- fmap_app, Forall_fmap. }
  wstep. eapply (wp_mono _ _ (fun _ w' => J true R N' w')).
  { destruct wake; [|by wstep]. wstep. specialize (Hwake eq_refl). destruct (rxq (conn w1)); [done|].
    wstep. apply wp_assert; [done|]. wstep. apply wp_assert; [|by apply signal_rx_wp].
    destruct used; [done|]. destruct (Hun eq_refl); done. }
  cbv beta. intros th w2 HJ2. wstep. wstep. eapply (wp_mono _ _ (fun _ w' => J true R N' w')).
  { wstep; [|done]. intros _. wstep. wstep. wstep. unfold microtime. wstep. wstep. wstep. wstep. wstep. same_J HJ2. }
  cbv beta. intros _ w3 HJ3. wstep. wstep. exists N'. split_and!; auto. intros H1 H2. by apply Hprog.
Qed.
(** Acknowledging nothing new: the packet queue is empty and stays so. *)
Lemma conn_ack_wp R N w : J true R N w -> wp tcp_conn_ack w (fun q w' => view (conn w') = view (conn w) /\ q = []).
Proof.
  intros HJ. assert (Hq := HJ). destruct Hq as [[] _ _]. unfold tcp_conn_ack. wstep.
  exists tt, w. split; [by apply lock_held|]. wstep. rewrite qu_excl0, qu_txq0.
  wstep. exists ([], []), w. split; [done|]. wstep. wstep. wstep. split; [|done].
  unfold view. cbn. by rewrite qu_txq0.
Qed.

(** The connection with another send window. *)
Lemma J_send_window R N win seq ack w :
  J true R N w -> J true R N (set_conn (set_pcb (set_send_window win seq ack (pcb (conn w))) (conn w)) w).
Proof. intros HJ. same_J HJ. Qed.

Lemma synchronized_wp R N m a b win w :
  J true R N w -> data_seg N m a b -> rx_seg S F R N m a b ->
  let u := snd_una (pcb (conn w)) in
  wp (rx_synchronized E m (u32 a) u (b - a) u win) w (fun k w' =>
    w_acked k = [] /\ w_retransmit k = None /\ exists N', J true R N' w' /\ N <= N' /\
    (a <= N -> 0 < rcv_wnd (pcb (conn w)) -> Z.min b (R + TCP_WIN) <= N')).
Proof.
  intros HJ Hd Hm u. assert (Hq := J_q _ _ _ _ HJ). unfold rx_synchronized.
  (* no duplicate acknowledgement *)
  wstep. exists None, w. split.
  { unfold rx_dup_ack, mbind, M_bind, getc. rewrite <- (qu_una _ _ Hq), !Z.eqb_refl. cbn [negb andb]. done. }
  wstep. fold u. assert (Hu : wraps_lte u u = true) by (unfold wraps_lte; rewrite Z.sub_diag; done).
  rewrite Hu. cbn [andb negb]. cbv iota zeta. wstep.
  eapply (wp_mono _ _ (fun q w' => (J true R N w' /\ q = []) /\ rcv_wnd (pcb (conn w')) = rcv_wnd (pcb (conn w)))).
  { rewrite Z.eqb_refl. cbn [negb when]. wstep. wstep. wstep. wstep. set (w1 := set_conn _ w).
    assert (H1 : J true R N w1) by same_J HJ.
    destruct (conn_ack_wp R N w1 H1) as (q & w2 & E2 & Hv & ->).
    assert (HJ2 : J true R N w2) by (by eapply J_view). exists [], w2. split; [done|]. split; [done|].
    rewrite (ri_wnd _ _ _ _ _ (J_i _ _ _ _ HJ2)), (ri_wnd _ _ _ _ _ (J_i _ _ _ _ HJ)). done. }
  cbv beta. intros q w1 [[HJ1 ->] Hw1]. wstep.
  eapply (wp_mono _ _ (fun _ w' => J true R N w' /\ rcv_wnd (pcb (conn w')) = rcv_wnd (pcb (conn w)))).
  { unfold rx_send_window. wstep. wstep; [|done]. intros _. wstep. wstep. wstep; intros _.
    - wstep. split; [same_J HJ1|done].
    - split; [same_J HJ1|done]. }
  cbv beta. intros _ w2 [HJ2 Hw2]. wstep. wstep.
  eapply (wp_mono _ _ (fun _ w' => J true R N w' /\ rcv_wnd (pcb (conn w')) = rcv_wnd (pcb (conn w)))).
  { wstep; intros _; [|by wstep]. unfold waitq_release_start_tx. wstep. wstep. wstep. wstep. split; [same_J HJ2|done]. }
  cbv beta. intros ths w3 [HJ3 Hw3]. wstep. exists false, w3. split.
  { unfold rx_fin_acked, mbind, M_bind, getc. by rewrite (qu_state _ _ (J_q _ _ _ _ HJ3)). }
  cbv iota. wstep. wuse ltac:(by apply (step_text_wp R N m a b)). intros [[dr th] ak] w4 (N' & HJ4 & HN & Hprog).
  wstep. exists false, w4. split.
  { unfold rx_step_fin, mbind, M_bind, getc. by rewrite (no_fin N m a b Hd). }
  wstep. split_and!; auto. exists N'. split_and!; auto. by rewrite Hw3 in Hprog.
Qed.

Lemma rx_slow_wp R N m a b win w :
  J true R N w -> data_seg N m a b ->
  let u := snd_una (pcb (conn w)) in
  wp (__tcp_rx_conn E m u u win) w (fun _ w' => exists N', J false R N' w' /\ N <= N' /\
    (a <= N < b -> a = N \/ b <= R + TCP_WIN -> 0 < rcv_wnd (pcb (conn w)) -> Z.min b (R + TCP_WIN) <= N')).
Proof.
  intros HJ Hd u. assert (Hq := J_q _ _ _ _ HJ). assert (Hi := J_i _ _ _ _ HJ). unfold __tcp_rx_conn. wstep.
  eapply (wp_mono _ _ (fun k w' => w_acked k = [] /\ w_retransmit k = None /\ exists N', J true R N' w' /\ N <= N' /\
    (a <= N < b -> a = N \/ b <= R + TCP_WIN -> 0 < rcv_wnd (pcb (conn w)) -> Z.min b (R + TCP_WIN) <= N'))).
  2: { cbv beta. intros k w' (Ha & Hr & N' & HJ' & HN & Hp). wuse ltac:(by apply (rx_finish_wp k m R N')).
       intros _ w2 HJ2. by exists N'. }
  assert (Hlt := ds_lt _ _ _ _ Hd). assert (Hnear := ds_near _ _ _ _ Hd).
  destruct (ds_at _ _ _ _ Hd) as [_ Hseq Hend _ _ _].
  unfold rx_slow. rewrite Hseq, Hend, u32_sub_l, u32_sub_r, (u32_id (b - a)) by (unfold in_u32, M32; lia).
  rewrite (no_fin N m a b Hd). wstep. rewrite (qu_state _ _ Hq). cbn [st_eq st_val]. cbv iota zeta.
  change (st_eq TCP_STATE_ESTABLISHED TCP_STATE_CLOSED) with false.
  change (st_eq TCP_STATE_ESTABLISHED TCP_STATE_SYN_SENT) with false.
  change (st_eq TCP_STATE_ESTABLISHED TCP_STATE_SYN_RECEIVED) with false. cbv iota.
  assert (HW : 0 <= rcv_wnd (pcb (conn w)) < 65536).
  { destruct Hi. rewrite ri_wnd in *. change TCP_WIN with 64240 in *. lia. }
  rewrite (is_acceptable_near _ N (rcv_wnd (pcb (conn w))) a b) by (try apply Hi; try done; lia).
  set (W := rcv_wnd (pcb (conn w))) in *.
  destruct ((0 <? W) && _) eqn:Eacc; cbn [negb].
  2: { wstep. split_and!; auto. exists N. split_and!; auto; [lia|]. intros H1 H2 H3. exfalso.
       rewrite (proj2 (Z.ltb_lt 0 W)) in Eacc by lia. cbn [andb] in Eacc. bprop.
       assert (N + W = R + TCP_WIN) by (unfold W; rewrite (ri_wnd _ _ _ _ _ Hi); lia).
       repeat match goal with H : _ && _ = false |- _ => apply andb_false_iff in H end.
       rewrite !Z.leb_gt, !Z.ltb_ge in *. lia. }
  rewrite (ds_rst _ _ _ _ Hd), (ds_syn _ _ _ _ Hd), (ds_ack _ _ _ _ Hd). cbn [negb].
  assert (Hm : rx_seg S F R N m a b).
  { apply andb_prop in Eacc as [E1 E2]. bprop. rewrite orb_true_iff, !andb_true_iff, !Z.leb_le, !Z.ltb_lt in E2.
    assert (N + W = R + TCP_WIN) by (unfold W; rewrite (ri_wnd _ _ _ _ _ Hi); lia).
    assert (Hf := ds_fin _ _ _ _ Hd). split; try lia; [apply Hd]. }
  wuse ltac:(by apply (synchronized_wp R N m a b win w)). intros k w' (Ha & Hr & N' & HJ' & HN & Hp).
  split_and!; auto. exists N'. split_and!; auto. intros H1 _ H2. apply Hp; lia.
Qed.
(** ** The fast path *)

Lemma u32_near_inj a b : u32 a = u32 b -> -1073741824 < a - b < 1073741824 -> a = b.
Proof. ulia. Qed.

Lemma fast_conditions R N f a b w :
  J true R N w -> f_seq f = u32 a -> f_len f = b - a -> a < b <= a + 65535 -> N - 1073741824 < a < N + 1073741824 ->
  rx_is_slow (conn w) f (snd_una (pcb (conn w))) = false ->
  a = N /\ rxq_ooo (conn w) = [] /\ b <= R + TCP_WIN.
Proof.
  intros [Hq Hi _] Hs Hl Hlt Hn Hslow. unfold rx_is_slow in Hslow. bprop. destruct Hi.
  assert (a = N) as ->.
  { apply u32_near_inj; [|lia]. rewrite <- Hs. congruence. }
  split; [done|]. split; [by destruct (rxq_ooo (conn w))|].
  match goal with H : wraps_lt _ _ = false |- _ => rename H into Hw end. rewrite Hl, ri_wnd in Hw.
  change TCP_WIN with 64240 in *. rewrite ri_wnd in ri_pos.
  rewrite <- (u32_id (R + 64240 - N)), <- (u32_id (b - N)), wraps_lt_near in Hw by (unfold near, in_u32, M32; lia).
  bprop. lia.
Qed.

Lemma rx_fast_wp R N m f now a b w :
  J true R N w -> data_seg N m a b -> f_ack f = snd_una (pcb (conn w)) -> f_len f = b - a ->
  a = N -> rxq_ooo (conn w) = [] -> b <= R + TCP_WIN ->
  wp (rx_fast m f now) w (fun _ w' => J false R b w').
Proof.
  intros HJ Hd Hack Hl -> Ho Hb. assert (Hlt := ds_lt _ _ _ _ Hd). unfold rx_fast. wstep. wstep. wstep.
  wstep. wstep. set (w1 := set_conn _ _). assert (H1 : J true R N w1).
  { eapply J_view; [|exact HJ]. unfold view. cbn. by rewrite Hack. }
  wstep. wuse ltac:(by apply (conn_ack_wp R N w1)). intros q w2 [V2 ->].
  assert (Hv2 : view (conn w2) = view (conn w)) by (rewrite V2; unfold view; cbn; by rewrite Hack). clearbody w1. clear V2 H1.
  wstep. wstep. eapply (wp_mono _ _ (fun _ w' => view (conn w') = view (conn w))).
  { wstep; [|done]. intros _. wstep. wstep. wstep. rewrite <- Hv2. reflexivity. }
  cbv beta. intros _ w3 Hv3. wstep. wstep. wstep. wstep. set (w4 := set_conn _ _).
  assert (H3 : J true R N w3) by (by eapply J_view).
  assert (Ho3 : rxq_ooo (conn w3) = []) by (unfold view in Hv3; congruence).
  assert (H4 : J true R b w4).
  { destruct H3 as [Hq Hi Hf3]. destruct Hi.
    split; [destruct Hq; by split| |cbn; rewrite Ho3, app_nil_r in *; apply Forall_app_2; auto; constructor; auto; by apply (no_fin N m N b)].
    assert (Hend := sa_end _ _ _ _ _ (ds_at _ _ _ _ Hd)). assert (Hf := ds_fin _ _ _ _ Hd).
    assert (E1 : u32 (rcv_wnd (pcb (conn w3)) - f_len f) = R + TCP_WIN - b).
    { rewrite ri_wnd, Hl, u32_id; change TCP_WIN with 64240 in *; unfold in_u32, M32; lia. }
    split; cbn; rewrite ?Ho3, ?E1 in *; auto; try lia.
    apply (rxq_ok_snoc S F R N); auto; try lia. apply Hd. }
  wstep. wuse ltac:(by apply (signal_rx_wp R b w4)). intros th w5 H5. wstep. wstep.
  eapply (wp_mono _ _ (fun _ w' => J true R b w')). { wstep; [|done]. intros _. wstep. same_J H5. }
  cbv beta. intros _ w6 H6. wstep. wstep. wstep. wstep. wstep. wuse ltac:(apply (unlock_wp R b); same_J H6).
  intros _ w7 H7. wstep. eapply (wp_mono _ _ (fun _ w' => J false R b w')).
  { destruct th; cbn; wstep; [same_J H7|done]. }
  cbv beta. intros _ w8 H8. cbn. by wstep.
Qed.

(** ** One segment through the receive path *)

Lemma rx_dispatch_wp R N m f now a b w :
  J false R N w -> data_seg N m a b -> f_seq f = u32 a -> f_len f = b - a -> f_ack f = snd_una (pcb (conn w)) ->
  wp (rx_dispatch E m f (snd_una (pcb (conn w))) now) w (fun _ w' => exists N', J false R N' w' /\ N <= N' /\
    (a <= N < b -> a = N \/ b <= R + TCP_WIN -> 0 < rcv_wnd (pcb (conn w)) -> Z.min b (R + TCP_WIN) <= N')).
Proof.
  intros HJ Hd Hs Hl Ha. unfold rx_dispatch. wstep. wuse ltac:(by apply (lock_wp R N w)). intros _ w1 [H1 C1].
  assert (Hu : snd_una (pcb (conn w1)) = snd_una (pcb (conn w))) by (by rewrite C1).
  assert (Hw : rcv_wnd (pcb (conn w1)) = rcv_wnd (pcb (conn w))) by (by rewrite C1).
  wstep. rewrite <- Hu in *. rewrite <- Hw. destruct (rx_is_slow _ _ _) eqn:Eslow.
  - rewrite Ha. by apply (rx_slow_wp R N m a b).
  - destruct (fast_conditions R N f a b w1 H1 Hs Hl (ds_lt _ _ _ _ Hd) (ds_near _ _ _ _ Hd) Eslow) as (-> & Ho & Hb).
    assert (Hlt := ds_lt _ _ _ _ Hd).
    wuse ltac:(by apply (rx_fast_wp R N m f now N b)). intros _ w2 H2. exists b. split_and!; auto; lia.
Qed.

(** ** Reading *)

Lemma set_rxq_id c : set_rxq (rxq c) c = c.
Proof. by destruct c. Qed.

Lemma qbytes_cons m q : qbytes (m :: q) = payload (mb m) ++ qbytes q.
Proof. done. Qed.

Definition qlen (q : list seg) : Z := Z.of_nat (length (qbytes q)).

Lemma qlen_cons m q : mbuf_ok (mb m) -> qlen (m :: q) = len (mb m) + qlen q.
Proof. intros H. unfold qlen. rewrite qbytes_cons, length_app, <- (length_payload (mb m) H). lia. Qed.

(** The loop takes whole segments off the queue, until it is empty, or the buffer is
    full, or only part of the next one fits. *)
Lemma read_loop_wp l : forall want n q w,
  rxq (conn w) = l -> Forall (fun m => mbuf_ok (mb m)) l -> Forall (fun m => has (flags m) TCP_FIN = false) l ->
  0 <= n <= want ->
  wp (read_loop l want n q) w (fun r w' => exists l1 l2, l = l1 ++ l2 /\ r.1.1 = q ++ l1 /\
    match r.1.2 with
    | None => r.2 = n + qlen l1 /\ r.2 <= want /\ (l2 = [] \/ r.2 = want) /\ w' = set_conn (set_rxq l2 (conn w)) w
    | Some m => exists l3, l2 = m :: l3 /\ r.2 = want /\ 0 < want - (n + qlen l1) < len (mb m) /\
        w' = set_conn (set_rx_exclusive true (set_rxq l2 (conn w))) w
    end).
Proof.
  induction l as [|m l IH]; intros want n q w Hl Hok Hnf Hn; cbn [read_loop].
  { wstep. exists [], []. cbn. rewrite app_nil_r. split_and!; auto; [unfold qlen; cbn; lia|lia|].
    rewrite <- Hl, set_rxq_id. by destruct w. }
  apply Forall_cons_1 in Hok as [Hm Hok]. apply Forall_cons_1 in Hnf as [Hf Hnf].
  destruct (Z.ltb_spec n want) as [Hlt|Hlt]; cbn [negb].
  2: { wstep. exists [], (m :: l). cbn. rewrite app_nil_r. split_and!; auto; [unfold qlen; cbn; lia|lia|right; lia|].
       rewrite <- Hl, set_rxq_id. by destruct w. }
  rewrite Hf. cbn [when andb]. wstep. wstep. unfold mbuf_length.
  destruct (Z.ltb_spec (want - n) (len (mb m))) as [Hpart|Hwhole].
  - wstep. wstep. wstep. exists [], (m :: l). cbn [fst snd]. rewrite app_nil_r. split_and!; auto.
    exists l. split_and!; auto; [unfold qlen; cbn; lia..|]. rewrite <- Hl, set_rxq_id. done.
  - wstep. wstep. destruct Hm as [? Hlen ? ? ?] eqn:Em. clear Em.
    wuse ltac:(apply IH; [done|done|done|lia]). intros [[q' mo] n'] w' (l1 & l2 & -> & Eq & Hr).
    exists (m :: l1), l2. cbn [fst snd] in *. split; [done|]. split; [by rewrite Eq, <- app_assoc|].
    rewrite qlen_cons by (by split). destruct mo as [mo|].
    + destruct Hr as (l3 & -> & -> & H & ->). exists l3. split_and!; auto; lia.
    + destruct Hr as (-> & H1 & H2 & ->). split_and!; auto; lia.
Qed.

Lemma copy_segs_wp q w :
  Forall (fun m => mbuf_ok (mb m)) q ->
  wp (copy_segs q) w (fun bytes w' => bytes = qbytes q /\ conn w' = conn w).
Proof.
  revert w. induction q as [|m q IH]; intros w Hok; cbn [copy_segs]; [by wstep|].
  apply Forall_cons_1 in Hok as [Hm Hok]. wstep. eapply wp_lift.
  { rewrite <- (Z.add_0_r (data (mb m))). apply read_payload; auto; destruct Hm; unfold mbuf_length; lia. }
  wstep. unfold rx_free. wstep. wstep. wuse ltac:(by apply IH). intros rest w' [-> Hc]. wstep. split; [|done].
  rewrite qbytes_cons. f_equal. rewrite drop_0, take_ge; [done|].
  assert (H := length_payload (mb m) Hm). unfold mbuf_length. lia.
Qed.

(** The connection after [n] bytes were taken off the receive queue. *)
Definition after_read (excl : bool) (l : list seg) (n : Z) (c : tcpconn) : tcpconn :=
  set_c_lock false (set_rx_exclusive excl (set_rxq l
    (set_pcb (set_rcv_wnd (u32 (rcv_wnd (pcb c) + n)) (pcb c)) c))).

Lemma read_wait_wp R N self want w :
  J true R N w -> rxq (conn w) <> [] -> 0 < want ->
  wp (tcp_read_wait E self want) w (fun r w' => let '(n, q, mo) := r in
    exists l, rxq (conn w) = q ++ l /\
      view (conn w') = view (after_read (match mo with Some _ => true | None => false end) l n (conn w)) /\
      match mo with
      | None => n = qlen q /\ n <= want /\ (l = [] \/ n = want)
      | Some m => exists l', l = m :: l' /\ n = want /\ 0 < want - qlen q < len (mb m)
      end).
Proof.
  intros HJ Hne Hw. assert (Hq := J_q _ _ _ _ HJ). unfold tcp_read_wait. wstep.
  rewrite (qu_rxc _ _ Hq), (qu_rxe _ _ Hq). cbn [negb andb orb]. destruct (rxq (conn w)) as [|m0 l0] eqn:Er; [done|].
  rewrite <- Er in *. cbv iota. wstep.
  assert (Hnf := J_f _ _ _ _ HJ). apply Forall_app in Hnf as [Hnf _].
  wuse ltac:(apply (read_loop_wp (rxq (conn w)) want 0 [] w); [done|apply (ri_q _ _ _ _ _ (J_i _ _ _ _ HJ))|done|lia]).
  intros [[q mo] n] w1 (l1 & l2 & El & Eq & Hr). cbn [fst snd app] in *. subst l1.
  set (ex := match mo with Some _ => true | None => false end).
  assert (Hw1 : view (conn w1) = view (set_rx_exclusive ex (set_rxq l2 (conn w)))).
  { destruct mo as [m|]; cbn in ex.
    - by destruct Hr as (l3 & _ & _ & _ & ->).
    - destruct Hr as (_ & _ & _ & ->). unfold view. cbn. by rewrite (qu_rxe _ _ Hq). }
  wstep. wstep. wstep. set (w2 := set_conn _ w1). wstep.
  eapply (wp_mono _ _ (fun _ w' => view (conn w') = view (conn w2))).
  { wstep; [|done]. intros _. wstep. wuse ltac:(apply tx_ack_view). intros _ w3 Hv. by wstep. }
  cbv beta. intros _ w3 Hv3.
  assert (Hl3 : c_lock (conn w3) = true).
  { assert (H1 : c_lock (conn w3) = c_lock (conn w2)) by (unfold view in Hv3; congruence).
    assert (H2 : c_lock (conn w1) = c_lock (conn w)) by (unfold view in Hw1; cbn in Hw1; congruence).
    rewrite H1. cbn. rewrite H2. apply Hq. }
  wstep. unfold spin_unlock_np. wstep. rewrite Hl3. wstep. wstep. exists l2. split; [done|]. split.
  - unfold view in *. cbn in *. injection Hw1. injection Hv3. intros. unfold ex in *. repeat match goal with |- (_, _) = (_, _) => f_equal end; congruence.
  - destruct mo as [m|].
    + destruct Hr as (l3 & -> & -> & Hr & _). exists l3. split_and!; auto; lia.
    + destruct Hr as (-> & ? & ? & _). split_and!; auto; lia.
Qed.

(** Part of the segment at the head of the queue. *)
Lemma consume_head_wp k m l w :
  rxq (conn w) = m :: l -> mbuf_ok (mb m) -> 0 < k < len (mb m) ->
  wp (consume_head k) w (fun bytes w' => exists m', bytes = take (Z.to_nat k) (payload (mb m)) /\
    conn w' = set_rxq (m' :: l) (conn w) /\ mbuf_ok (mb m') /\ flags m' = flags m /\
    payload (mb m') = drop (Z.to_nat k) (payload (mb m))).
Proof.
  intros Hq Hm Hk. unfold consume_head. wstep. rewrite Hq.
  assert (Hp := mbuf_pull_ok k (mb m) Hm ltac:(lia)).
  destruct (mbuf_pull k (mb m)) as [[p b]|] eqn:Ep; [|lia]. destruct Hp as (_ & -> & Hb & Hpay).
  wstep. eapply wp_lift; [done|]. cbv beta iota. wstep.
  assert (Hh : head b = head (mb m)).
  { unfold mbuf_pull in Ep. destruct (BUG_ON _); [|done]. by injection Ep as <-. }
  eapply wp_lift.
  { unfold read_bytes, in_buffer. rewrite Hh. rewrite <- (Z.add_0_r (data (mb m))). apply (read_payload (mb m) 0 k); auto; lia. }
  wstep. wstep. wstep. eexists. split_and!; [done|reflexivity|done|done|done].
Qed.

Lemma read_finish_wp m w :
  c_lock (conn w) = false ->
  wp (tcp_read_finish (Some m)) w (fun _ w' => view (conn w') = view (set_rx_exclusive false (conn w))).
Proof.
  intros Hl. unfold tcp_read_finish. wstep. exists tt, (set_conn (set_c_lock true (conn w)) w).
  split; [unfold spin_lock_np, mbind, M_bind, getc; by rewrite Hl|].
  wstep. wstep. wstep. unfold waitq_release_start_rx. wstep. wstep. wstep. wstep. wstep.
  set (w1 := set_conn _ _). exists tt, (set_conn (set_c_lock false (conn w1)) w1). split; [done|].
  apply emits_wp. intros t. unfold view. cbn. by rewrite Hl.
Qed.

(** The invariant after a read: what is left of the queue are the bytes behind. *)
Lemma J_after_read R N n l w w' :
  J true R N w -> 0 <= n <= qlen (rxq (conn w)) ->
  view (conn w') = view (after_read false l n (conn w)) ->
  Forall (fun m => mbuf_ok (mb m)) l -> Forall (fun m => has (flags m) TCP_FIN = false) l ->
  qbytes l = drop (Z.to_nat n) (qbytes (rxq (conn w))) ->
  J false (R + n) N w' /\ qbytes (rxq (conn w)) = slice S R (Z.min N F) /\ R + n <= Z.min N F.
Proof.
  intros [Hq Hi Hf] Hn Hv Hok Hnf Hb. assert (Hc := ri_q _ _ _ _ _ Hi). destruct Hc as [_ Hc].
  assert (Hlen : R + n <= Z.min N F).
  { destruct (Z.leb_spec (R + n) (Z.min N F)); [done|]. exfalso. unfold qlen in Hn. rewrite Hc in Hn.
    destruct (Z.leb_spec R (Z.min N F)).
    - rewrite length_slice in Hn by lia. lia.
    - rewrite slice_nil in Hn by lia. cbn in Hn. destruct Hi. lia. }
  split_and!; auto.
  apply (J_view _ _ _ (set_conn (after_read false l n (conn w)) w)); [done|].
  destruct Hi. assert (Hwnd : u32 (rcv_wnd (pcb (conn w)) + n) = R + n + TCP_WIN - N).
  { rewrite u32_id; [lia|]. change TCP_WIN with 64240 in *. unfold in_u32, M32. lia. }
  split.
  - destruct Hq; by split.
  - split; cbn; rewrite ?Hwnd; auto; try lia.
    + split; [done|]. rewrite Hb, Hc, drop_slice by lia. done.
    + apply (ooo_ok_edge _ _ (R + TCP_WIN)); [lia|done].
  - cbn. apply Forall_app in Hf as [_ Hf]. by apply Forall_app_2.
Qed.

Lemma tcp_read_wp R N self want w :
  J false R N w -> rxq (conn w) <> [] -> 0 < want ->
  wp (tcp_read E self want) w (fun r w' => exists n, r = (n, slice S R (R + n)) /\
    J false (R + n) N w' /\ n = Z.min want (Z.min N F - R)).
Proof.
  intros HJ Hne Hw. unfold tcp_read. wstep. wuse ltac:(by apply (lock_wp R N w)). intros _ w1 [H1 C1].
  assert (Hne1 : rxq (conn w1) <> []) by (by rewrite C1). clear HJ Hne C1 w. wstep.
  wuse ltac:(by apply (read_wait_wp R N self want w1)). intros [[n q] mo] w2 (l & El & Hv & Hr).
  assert (Hq := J_q _ _ _ _ H1). destruct (J_i _ _ _ _ H1) as [_ _ _ HR HRF [Hok Hby] _ _ _].
  assert (Hnf := J_f _ _ _ _ H1). apply Forall_app in Hnf as [Hnf _].
  rewrite El in Hok, Hnf. apply Forall_app in Hok as [Hokq Hokl]. apply Forall_app in Hnf as [_ Hnfl].
  assert (Hqb : qbytes (rxq (conn w1)) = qbytes q ++ qbytes l) by (rewrite El; apply qbytes_app).
  assert (Hql : qlen (rxq (conn w1)) = qlen q + qlen l) by (unfold qlen; rewrite Hqb, length_app; lia).
  assert (Htot : qlen (rxq (conn w1)) = Z.min N F - R) by (unfold qlen; rewrite Hby, length_slice by lia; done).
  assert (Hl0 : 0 <= qlen l) by (unfold qlen; lia). assert (Hq0 : 0 <= qlen q) by (unfold qlen; lia).
  assert (Hrq : rxq (conn w2) = l) by (unfold view in Hv; cbn in Hv; congruence).
  assert (Hlk : c_lock (conn w2) = false) by (unfold view in Hv; cbn in Hv; congruence).
  destruct mo as [m|].
  - destruct Hr as (l' & -> & -> & Hk). apply Forall_cons_1 in Hokl as [Hm Hokl].
    apply Forall_cons_1 in Hnfl as [Hfm Hnfl]. rewrite qlen_cons in Hql by done.
    assert (0 <= qlen l') by (unfold qlen; lia).
    rewrite (proj2 (Z.leb_gt want 0)) by lia. wstep. wuse ltac:(by apply (copy_segs_wp q w2)). intros bytes w3 [-> C3].
    wstep. wuse ltac:(apply (consume_head_wp _ m l'); [by rewrite C3|done|exact Hk]).
    intros last w4 (m' & -> & C4 & Hm' & Hf' & Hp'). wstep.
    wuse ltac:(apply read_finish_wp; by rewrite C4, C3). intros _ w5 C5. wstep. exists want. fold (qlen q) in *.
    assert (Hsp : drop (Z.to_nat want) (qbytes (rxq (conn w1))) = qbytes (m' :: l') /\
      take (Z.to_nat want) (qbytes (rxq (conn w1))) = qbytes q ++ take (Z.to_nat (want - qlen q)) (payload (mb m))).
    { rewrite Hqb, !qbytes_cons, Hp'. assert (Hlm := length_payload (mb m) Hm).
      replace (Z.to_nat want) with (length (qbytes q) + Z.to_nat (want - qlen q))%nat by (unfold qlen in *; lia).
      rewrite drop_app_add, take_app_add, drop_app_le, take_app_le by lia. done. }
    destruct Hsp as [Hd Ht].
    destruct (J_after_read R N want (m' :: l') w1 w5 H1) as (HJ5 & _ & Hle); [lia| | | |by rewrite Hd|].
    { rewrite C5. unfold view. cbn. rewrite C4, C3. unfold view in Hv. cbn in *. congruence. }
    { by constructor. }
    { constructor; [congruence|done]. }
    split_and!; [|done|lia]. f_equal. rewrite <- Ht, Hby, take_slice by lia. done.
  - destruct Hr as (-> & Hle & Hend).
    assert (Hd : qbytes l = drop (Z.to_nat (qlen q)) (qbytes (rxq (conn w1)))).
    { rewrite Hqb, drop_app_length'; [done|]. unfold qlen. lia. }
    assert (Ht : qbytes q = slice S R (R + qlen q)).
    { transitivity (take (Z.to_nat (qlen q)) (qbytes (rxq (conn w1)))).
      - rewrite Hqb, take_app_length'; [done|]. unfold qlen. lia.
      - rewrite Hby, take_slice by lia. done. }
    assert (Hn : qlen q = Z.min want (Z.min N F - R)).
    { destruct Hend as [-> |Hend]; [|lia]. assert (qlen [] = 0) by done. lia. }
    assert (HJ2 := fun w' => J_after_read R N (qlen q) l w1 w' H1 ltac:(lia)).
    destruct (Z.leb_spec (qlen q) 0).
    + wstep. exists (qlen q). assert (qlen q = 0) as Hz by lia. split_and!; [|by apply HJ2|done].
      rewrite Hz, slice_nil by lia. done.
    + wstep. wuse ltac:(by apply (copy_segs_wp q w2)). intros bytes w3 [-> C3]. wstep. wstep. wstep. cbn. wstep. wstep.
      exists (qlen q). rewrite app_nil_r. split_and!; [by rewrite <- Ht|by apply HJ2; rewrite ?C3|done].
Qed.

(** ** Packets and reads *)

(** The packet carries the stream from [a] to [e], not too far from position [R], and
    acknowledges all we sent. *)
Definition data_packet (R : Z) (b : mbuf) (a e : Z) : Prop :=
  (exists win fl, tcp_packet b (u32 a) U win fl (slice S a e) /\ has fl TCP_ACK = true /\ has fl TCP_RST = false /\
    has fl TCP_SYN = false /\ has fl TCP_FIN = false) /\
  a < e <= F /\ R - 536870912 < a < R + 536870912.

Lemma rx_conn_wp R N m a e w :
  J false R N w -> data_packet R (mb m) a e ->
  wp (tcp_rx_conn E m) w (fun _ w' => exists N', J false R N' w' /\ N <= N' /\
    (a <= N < e -> a = N \/ e <= R + TCP_WIN -> N < R + TCP_WIN -> Z.min e (R + TCP_WIN) <= N')).
Proof.
  intros HJ ((win & fl & Hp & Hack & Hrst & Hsyn & Hfin) & Hae & Hnear). assert (Hq := J_q _ _ _ _ HJ).
  destruct (J_i _ _ _ _ HJ) as [_ Hwnd Hpos HR _ _ _ _ _]. rewrite Hwnd in Hpos. change TCP_WIN with 64240 in Hpos.
  unfold tcp_rx_conn. wstep. rewrite (qu_U _ _ Hq). unfold microtime. wstep. wstep. wstep. wstep. wstep.
  assert (Hsh := tp_short _ _ _ _ _ _ Hp). assert (Hmb := tp_ok _ _ _ _ _ _ Hp).
  destruct (rx_parse_ok _ _ _ _ _ _ Hp) as (b' & Er & Hb' & Hpay). rewrite length_slice in Er by lia.
  assert (Hlen : e - a <= 65535).
  { destruct Hp as [_ _ _ _ _ (p0 & off & x2 & rest & opts & ? & ? & ? & ? & ? & Hpl)].
    assert (X := length_payload _ Hmb). rewrite Hpl, !length_app in X. rewrite <- (length_slice S a e) by lia. lia. }
  wstep. eapply wp_lift; [exact Er|]. cbv beta iota. set (m1 := set_flags _ _). set (w1 := set_n_time _ _).
  assert (HJ1 : J false R N w1) by same_J HJ.
  assert (Hd : data_seg N m1 a e).
  { split; cbn; auto; try lia. split; cbn; auto; try lia.
    - rewrite u32_add_l. f_equal. lia.
    - rewrite Hfin. split; [done|lia].
    - rewrite Z.min_l by lia. done. }
  assert (Hu : snd_una (pcb (conn w1)) = U) by (rewrite (qu_una _ _ (J_q _ _ _ _ HJ1)); apply Hq).
  set (f := TcpFields _ _ _ _ _). assert (Hdp := fun now => rx_dispatch_wp R N m1 f now a e w1 HJ1 Hd eq_refl eq_refl (eq_sym Hu)).
  rewrite Hu in Hdp. wuse ltac:(apply Hdp). intros _ w2 (N' & H2 & HN & Hprog). exists N'. split_and!; auto. intros H3 H4 H5. apply Hprog; auto.
  change (rcv_wnd (pcb (conn w1))) with (rcv_wnd (pcb (conn w))). lia.
Qed.

(** The timers: acknowledgements may be sent, nothing else happens. *)
Lemma worker_wp R N now w : J false R N w -> wp (tcp_worker_conn E now) w (fun _ w' => J false R N w').
Proof.
  intros HJ. unfold tcp_worker_conn. wstep. wstep; [|done]. intros _. unfold tcp_handle_timeouts.
  wstep. wuse ltac:(by apply (lock_wp R N)). intros _ w1 [H1 _]. assert (Hq := J_q _ _ _ _ H1).
  unfold tcp_handle_timeouts_locked. wstep. wstep. rewrite (qu_state _ _ Hq).
  change (st_eq TCP_STATE_ESTABLISHED TCP_STATE_CLOSED) with false.
  change (st_lt TCP_STATE_ESTABLISHED TCP_STATE_ESTABLISHED) with false.
  change (st_eq TCP_STATE_ESTABLISHED TCP_STATE_TIME_WAIT) with false. cbn [andb]. cbv iota zeta. wstep.
  eapply (wp_mono _ _ (fun _ w' => J true R N w')). { wstep; [|done]. intros _. wstep. same_J H1. }
  cbv beta. intros _ w2 H2. wstep. assert (Hq2 := J_q _ _ _ _ H2).
  exists None, w2. split. { unfold txq_first_ts, mbind, M_bind, getc. by rewrite (qu_excl _ _ Hq2), (qu_txq _ _ Hq2). }
  cbv iota. cbn [when]. wstep. wstep. wstep. wuse ltac:(by apply (timer_update_wp true R N)). intros _ w3 [H3 _].
  wstep. wuse ltac:(by apply unlock_wp). intros _ w4 H4. wstep. cbv iota. wstep.
  eapply (wp_mono _ _ (fun _ w' => J false R N w')).
  { wstep; [|done]. intros _. wstep. wuse ltac:(by apply tx_ack_wp). intros ret w5 H5. by wstep. }
  cbv beta. intros _ w5 H5. by wstep.
Qed.
End recv.

(** ** Runs *)

(** What happens to a connection: the network hands it a packet (with the stream from
    [a] to [e]), a thread reads, the timer fires. *)
Inductive rx_op :=
| Deliver (m : seg) (a e : Z)
| Read (self : nat) (want : Z)
| Worker (now : Z).

(** The bytes all the reads return, [None] if an operation does not return. *)
Fixpoint rx_run (E : env) (ops : list rx_op) (w : world) : option (list Z * world) :=
  match ops with
  | [] => Some ([], w)
  | Deliver m _ _ :: ops => match tcp_rx_conn E m w with Ret _ w => rx_run E ops w | _ => None end
  | Read self want :: ops =>
      match tcp_read E self want w with
      | Ret (_, bs) w => match rx_run E ops w with Some (bs', w) => Some (bs ++ bs', w) | None => None end
      | _ => None
      end
  | Worker now :: ops => match tcp_worker_conn E now w with Ret _ w => rx_run E ops w | _ => None end
  end.

(** The packets are pieces of the stream within 512 MB of the position read up to;
    reads happen when there is something to read (they would block otherwise). *)
Fixpoint rx_run_ok (E : env) (S : Z -> Z) (F U R : Z) (ops : list rx_op) (w : world) : Prop :=
  match ops with
  | [] => True
  | Deliver m a e :: ops =>
      data_packet S F U R (mb m) a e /\
      forall u w', tcp_rx_conn E m w = Ret u w' -> rx_run_ok E S F U R ops w'
  | Read self want :: ops =>
      0 < want /\ rxq (conn w) <> [] /\
      forall n bs w', tcp_read E self want w = Ret (n, bs) w' -> rx_run_ok E S F U (R + n) ops w'
  | Worker now :: ops => forall u w', tcp_worker_conn E now w = Ret u w' -> rx_run_ok E S F U R ops w'
  end.

Lemma rx_run_delivers E S F U ops : forall R N w,
  env_ok E -> J S F U false R N w -> rx_run_ok E S F U R ops w ->
  exists bs w' N', rx_run E ops w = Some (bs, w') /\ N <= N' /\
    bs = slice S R (R + Z.of_nat (length bs)) /\ J S F U false (R + Z.of_nat (length bs)) N' w'.
Proof.
  induction ops as [|[m a e|self want|now] ops IH]; intros R N w HE HJ Hok; cbn [rx_run rx_run_ok] in *.
  - exists [], w, N. rewrite Z.add_0_r. split_and!; auto; [lia|]. by rewrite slice_nil by lia.
  - destruct Hok as [Hp Hok]. destruct (rx_conn_wp E HE S F U R N m a e w HJ Hp) as (u & w1 & Ew & N1 & H1 & HN & _). rewrite Ew.
    destruct (IH R N1 w1 HE H1 (Hok u w1 Ew)) as (bs & w' & N' & Er & HN' & Hbs & H'). exists bs, w', N'. split_and!; auto. lia.
  - destruct Hok as (Hw & Hne & Hok). destruct (tcp_read_wp E HE S F U R N self want w HJ Hne Hw) as ([n bs1] & w1 & Ew & n' & Heq & H1 & Hn). rewrite Ew.
    injection Heq as -> ->. assert (Hi := ri_range _ _ _ _ _ (J_i _ _ _ _ _ _ _ HJ)). assert (HF := ri_RF _ _ _ _ _ (J_i _ _ _ _ _ _ _ HJ)).
    destruct (IH (R + n') N w1 HE H1 (Hok _ _ _ Ew)) as (bs & w' & N' & Er & HN' & Hbs & H').
    rewrite Er. exists (slice S R (R + n') ++ bs), w', N'. rewrite length_app, Nat2Z.inj_add, length_slice by lia.
    replace (R + (R + n' - R + Z.of_nat (length bs))) with (R + n' + Z.of_nat (length bs)) by lia.
    split_and!; auto. rewrite Hbs at 1. by rewrite slice_app by lia.
  - destruct (worker_wp E HE S F U R N now w HJ) as (u & w1 & Ew & H1). rewrite Ew.
    destruct (IH R N w1 HE H1 (Hok u w1 Ew)) as (bs & w' & N' & Er & HN' & Hbs & H'). exists bs, w', N'. split_and!; auto.
Qed.

(** ** Properties *)

(** C3.  Reliable, ordered delivery of the data of an established connection.  It has sent
    nothing that is not acknowledged, and its receive side is at position [R] of the peer's
    stream.  The packets that arrive are data segments: each carries a piece of the stream,
    not empty, that begins within 512 MB of the position read up to, with the ACK flag and
    without SYN, RST or FIN, and acknowledges exactly what was sent ([data_packet]; segments
    with a FIN are excluded because the code handles them wrongly out of order and at the
    edge of the window).
    Whichever such packets the network delivers (in any order, lost, duplicated, overlapping,
    cut at other places, with options, in the fast or the slow path, past the window), and
    however reads and timers are interleaved with them, every operation returns, and the
    bytes the reads return, one after the other, are the stream from [R] on: nothing is
    missing, repeated or reordered. *)
Theorem tcp_stream_delivered E S F U R N ops w :
  env_ok E -> J S F U false R N w -> rx_run_ok E S F U R ops w ->
  exists bs w' N', rx_run E ops w = Some (bs, w') /\ N <= N' /\
    bs = slice S R (R + Z.of_nat (length bs)) /\ J S F U false (R + Z.of_nat (length bs)) N' w'.
Proof. intros. by apply rx_run_delivers. Qed.

(** Progress of the receiver: a packet that holds the next byte expected, with
    the window open, makes everything in it that fits the window readable: the next
    read returns at once with the bytes up to the packet's end or the window's edge,
    as far as the reader's buffer takes them. *)
Theorem tcp_segment_readable E S F U R N m a e self want w :
  env_ok E -> J S F U false R N w -> data_packet S F U R (mb m) a e ->
  a <= N < e -> a = N \/ e <= R + TCP_WIN -> N < R + TCP_WIN -> 0 < want ->
  exists w1 w2 n, tcp_rx_conn E m w = Ret tt w1 /\ tcp_read E self want w1 = Ret (n, slice S R (R + n)) w2 /\
    Z.min want (Z.min e (R + TCP_WIN) - R) <= n <= want.
Proof.
  intros HE HJ Hp Ha Hor Hopen Hw.
  destruct (rx_conn_wp E HE S F U R N m a e w HJ Hp) as ([] & w1 & Ew & N1 & H1 & HN & Hprog).
  specialize (Hprog Ha Hor Hopen). destruct Hp as (_ & He & _).
  destruct (J_i _ _ _ _ _ _ _ H1) as [_ _ _ HR HF [_ Hq] _ _ _]. change TCP_WIN with 64240 in *.
  assert (Hi := ri_range _ _ _ _ _ (J_i _ _ _ _ _ _ _ HJ)).
  assert (Hne : rxq (conn w1) <> []).
  { intros E0. rewrite E0 in Hq. assert (X := length_slice S R (Z.min N1 F)). rewrite <- Hq in X. cbn in X. lia. }
  destruct (tcp_read_wp E HE S F U R N1 self want w1 H1 Hne Hw) as (r & w2 & Er & n & -> & _ & Hn).
  exists w1, w2, n. split_and!; auto; lia.
Qed.

(** ** Witnesses *)

Definition wit_env : env :=
  Env Z.of_nat (fun _ => Some (replicate 1920 0)) (fun _ => Found [2; 0; 0; 0; 0; 2]) Z.of_nat
    (NetCfg 167772161 4294967040 167772414 [2; 0; 0; 0; 0; 1]) (fun _ x => x) 0.

Lemma wit_env_ok : env_ok wit_env.
Proof. split; [done|by intros ? ? [= <-]|by intros ? ? [= <-]]. Qed.

(** A connection established at the end of the sequence space. *)
Definition wit_entry : trans_entry :=
  Entry 0 TRANS_MATCH_5TUPLE IPPROTO_TCP (Netaddr 167772161 80) (Netaddr 167772162 9000).
Definition wit_conn : tcpconn :=
  Conn wit_entry (Pcb TCP_STATE_ESTABLISHED 500 500 4096 0 4294967292 500 499 4294967293 TCP_WIN 0 4294967292)
    false 2 0 false false [] 0 [] [] false false [] 0 0 None [] false 0 (M64 - 1) false false 0 0 0.
Definition wit_world : world := World wit_conn ∅ (Table ∅ 0) [0%nat] [] 1 0 0 0.

(** The packet with the stream from [a] to [e], four bytes of options included, behind
    an IP header of which only the length matters. *)
Definition wit_stream (p : Z) : Z := p mod 251.
Definition wit_packet (id : nat) (a e : Z) : seg :=
  let p := hton16 9000 ++ hton16 80 ++ hton32 (u32 a) ++ hton32 500 ++ [96; Z.lor TCP_ACK TCP_PUSH] ++ hton16 4096 ++
           [0; 0; 0; 0] ++ [1; 1; 1; 1] ++ slice wit_stream a e in
  let n := Z.of_nat (length p) in
  Seg id (Mbuf ([69; 0] ++ hton16 (20 + n) ++ replicate 16 0 ++ p) 20 (20 + n) n 0 0 0 0 0) 0 0 0 0 0 rel_sfree.

Definition wit_F : Z := 5000000000.

Lemma wit_J : J wit_stream wit_F 500 false 4294967293 4294967293 wit_world.
Proof.
  split; [by split|split|]; try done.
Qed.

Ltac wit_packet_ok :=
  split; [exists 4096, (Z.lor TCP_ACK TCP_PUSH); split; [|repeat split; reflexivity]|unfold wit_F; lia];
  split; [split; by vm_compute|by vm_compute|by vm_compute|by vm_compute|by vm_compute|];
  eexists (hton16 9000 ++ hton16 80), 6, 0, [0; 0; 0; 0], [1; 1; 1; 1];
  split_and!; [reflexivity|reflexivity|lia|lia|lia|lia|reflexivity|vm_compute; reflexivity].

(** Two packets in the wrong order, across the end of the sequence space, one of them
    again, reads in between. *)
Definition wit_ops : list rx_op :=
  [Deliver (wit_packet 1 4294967297 4294967301) 4294967297 4294967301; Worker 5000000;
   Deliver (wit_packet 2 4294967293 4294967299) 4294967293 4294967299; Read 7 5;
   Deliver (wit_packet 3 4294967297 4294967301) 4294967297 4294967301; Read 7 100].

Lemma wit_run : rx_run_ok wit_env wit_stream wit_F 500 4294967293 wit_ops wit_world.
Proof.
  unfold wit_ops. cbn [rx_run_ok].
  split; [wit_packet_ok|]. intros u1 w1 E1. vm_compute in E1. injection E1 as _ <-.
  intros u2 w2 E2. vm_compute in E2. injection E2 as _ <-.
  split; [wit_packet_ok|]. intros u3 w3 E3. vm_compute in E3. injection E3 as _ <-.
  split_and!; [done|done|]. intros n4 b4 w4 E4. vm_compute in E4. injection E4 as <- _ <-.
  split; [wit_packet_ok|]. intros u5 w5 E5. vm_compute in E5. injection E5 as _ <-.
  split_and!; [done|done|done].
Qed.

Lemma tcp_stream_delivered_witness : exists bs w', rx_run wit_env wit_ops wit_world = Some (bs, w') /\
  bs = [120; 121; 122; 123; 124; 125; 126; 127].
Proof.
  destruct (tcp_stream_delivered wit_env wit_stream wit_F 500 4294967293 4294967293 wit_ops wit_world
    wit_env_ok wit_J wit_run) as (bs & w' & N' & E & _).
  exists bs, w'. split; [exact E|]. vm_compute in E. by injection E.
Defined.

Lemma tcp_segment_readable_witness : exists w1 w2 n,
  tcp_rx_conn wit_env (wit_packet 1 4294967293 4294967299) wit_world = Ret tt w1 /\
  tcp_read wit_env 7 100 w1 = Ret (n, slice wit_stream 4294967293 (4294967293 + n)) w2 /\ 6 <= n <= 100.
Proof.
  destruct (tcp_segment_readable wit_env wit_stream wit_F 500 4294967293 4294967293 (wit_packet 1 4294967293 4294967299)
    4294967293 4294967299 7 100 wit_world) as (w1 & w2 & n & H1 & H2 & H3);
    [apply wit_env_ok|apply wit_J|wit_packet_ok|lia|by left|by vm_compute|lia|].
  exists w1, w2, n. change TCP_WIN with 64240 in H3. split_and!; [exact H1|exact H2|lia|lia].
Defined.
