(* ===== verification/IokState.v ===== *)
(** * iokernel/defs.h, iokernel/ref.h, iokernel/ksched.h: the state of the core scheduler

    The IOKernel is one thread: its data is changed by one operation at a time.  The
    processes it serves are records in a map by address; a kthread is named by its
    process and its index there.  What the runtimes write to shared memory (queue
    heads and tails, descriptors, timers) are fields of the thread, which may change
    between any two operations.  The sentinel UINT_MAX of an index is [None].  An array
    with a count of used elements is the list of these.  Bitmaps over the cores or
    kthreads are finite sets of positions (Bitmap.v verifies the operations on words).

    The calls to the kernel module are recorded in [klog], the release of a process
    too. *)

From S2P Require Import Prelude Stddef Lrpc.

Definition NCPU : nat := 256.
Definition IOKERNEL_POLL_INTERVAL : Z := 5.
Definition ENOENT : Z := 2.
Definition EBUSY : Z := 16.

(** A kthread: the process and the index. *)
Abbreviation tref := (nat * nat)%type.

(** A hardware queue.  [descriptor_table] and [consumer_idx] are in shared memory. *)
Record hwq := Hwq {
  enabled : bool;
  queue_steering : bool;
  descriptor_table : Z -> Z;
  consumer_idx : Z;
  descriptor_log_size : Z;
  nr_descriptors : Z;
  parity_byte_offset : Z;
  parity_bit_mask : Z;
  last_tail : Z;
  last_head : Z;
}.

Definition set_enabled (v : bool) (h : hwq) : hwq :=
  Hwq v (queue_steering h) (descriptor_table h) (consumer_idx h) (descriptor_log_size h) (nr_descriptors h)
    (parity_byte_offset h) (parity_bit_mask h) (last_tail h) (last_head h).
Definition set_queue_steering (v : bool) (h : hwq) : hwq :=
  Hwq (enabled h) v (descriptor_table h) (consumer_idx h) (descriptor_log_size h) (nr_descriptors h)
    (parity_byte_offset h) (parity_bit_mask h) (last_tail h) (last_head h).
Definition set_descriptor_table (v : Z -> Z) (h : hwq) : hwq :=
  Hwq (enabled h) (queue_steering h) v (consumer_idx h) (descriptor_log_size h) (nr_descriptors h)
    (parity_byte_offset h) (parity_bit_mask h) (last_tail h) (last_head h).
Definition set_consumer_idx (v : Z) (h : hwq) : hwq :=
  Hwq (enabled h) (queue_steering h) (descriptor_table h) v (descriptor_log_size h) (nr_descriptors h)
    (parity_byte_offset h) (parity_bit_mask h) (last_tail h) (last_head h).
Definition set_descriptor_log_size (v : Z) (h : hwq) : hwq :=
  Hwq (enabled h) (queue_steering h) (descriptor_table h) (consumer_idx h) v (nr_descriptors h)
    (parity_byte_offset h) (parity_bit_mask h) (last_tail h) (last_head h).
Definition set_nr_descriptors (v : Z) (h : hwq) : hwq :=
  Hwq (enabled h) (queue_steering h) (descriptor_table h) (consumer_idx h) (descriptor_log_size h) v
    (parity_byte_offset h) (parity_bit_mask h) (last_tail h) (last_head h).
Definition set_parity_byte_offset (v : Z) (h : hwq) : hwq :=
  Hwq (enabled h) (queue_steering h) (descriptor_table h) (consumer_idx h) (descriptor_log_size h)
    (nr_descriptors h) v (parity_bit_mask h) (last_tail h) (last_head h).
Definition set_parity_bit_mask (v : Z) (h : hwq) : hwq :=
  Hwq (enabled h) (queue_steering h) (descriptor_table h) (consumer_idx h) (descriptor_log_size h)
    (nr_descriptors h) (parity_byte_offset h) v (last_tail h) (last_head h).
Definition set_last_tail (v : Z) (h : hwq) : hwq :=
  Hwq (enabled h) (queue_steering h) (descriptor_table h) (consumer_idx h) (descriptor_log_size h)
    (nr_descriptors h) (parity_byte_offset h) (parity_bit_mask h) v (last_head h).
Definition set_last_head (v : Z) (h : hwq) : hwq :=
  Hwq (enabled h) (queue_steering h) (descriptor_table h) (consumer_idx h) (descriptor_log_size h)
    (nr_descriptors h) (parity_byte_offset h) (parity_bit_mask h) (last_tail h) v.

(** A kthread; the last fields of a line in shared memory are [rxq_shm],
    [txpktq_empty] (what [lrpc_empty] finds), [rq_tail], [rq_head] and [next_tsc]. *)
Record thread := Thread {
  active : bool;
  rxq : lrpc_chan_out;
  rxq_shm : lrpc_shm;
  txpktq_empty : bool;
  tid : Z;
  rq_tail : Z;
  rq_head : Z;
  last_rq_head : Z;
  last_rxq_head : Z;
  core : option nat;
  at_idx : nat;
  ts_idx : option nat;
  directpath_hwq : hwq;
  storage_hwq : hwq;
  next_tsc : Z;
}.

Definition set_active (v : bool) (t : thread) : thread :=
  Thread v (rxq t) (rxq_shm t) (txpktq_empty t) (tid t) (rq_tail t) (rq_head t) (last_rq_head t)
    (last_rxq_head t) (core t) (at_idx t) (ts_idx t) (directpath_hwq t) (storage_hwq t) (next_tsc t).
Definition set_rxq (v : lrpc_chan_out) (t : thread) : thread :=
  Thread (active t) v (rxq_shm t) (txpktq_empty t) (tid t) (rq_tail t) (rq_head t) (last_rq_head t)
    (last_rxq_head t) (core t) (at_idx t) (ts_idx t) (directpath_hwq t) (storage_hwq t) (next_tsc t).
Definition set_rxq_shm (v : lrpc_shm) (t : thread) : thread :=
  Thread (active t) (rxq t) v (txpktq_empty t) (tid t) (rq_tail t) (rq_head t) (last_rq_head t) (last_rxq_head
    t) (core t) (at_idx t) (ts_idx t) (directpath_hwq t) (storage_hwq t) (next_tsc t).
Definition set_txpktq_empty (v : bool) (t : thread) : thread :=
  Thread (active t) (rxq t) (rxq_shm t) v (tid t) (rq_tail t) (rq_head t) (last_rq_head t) (last_rxq_head t)
    (core t) (at_idx t) (ts_idx t) (directpath_hwq t) (storage_hwq t) (next_tsc t).
Definition set_tid (v : Z) (t : thread) : thread :=
  Thread (active t) (rxq t) (rxq_shm t) (txpktq_empty t) v (rq_tail t) (rq_head t) (last_rq_head t)
    (last_rxq_head t) (core t) (at_idx t) (ts_idx t) (directpath_hwq t) (storage_hwq t) (next_tsc t).
Definition set_rq_tail (v : Z) (t : thread) : thread :=
  Thread (active t) (rxq t) (rxq_shm t) (txpktq_empty t) (tid t) v (rq_head t) (last_rq_head t) (last_rxq_head
    t) (core t) (at_idx t) (ts_idx t) (directpath_hwq t) (storage_hwq t) (next_tsc t).
Definition set_rq_head (v : Z) (t : thread) : thread :=
  Thread (active t) (rxq t) (rxq_shm t) (txpktq_empty t) (tid t) (rq_tail t) v (last_rq_head t) (last_rxq_head
    t) (core t) (at_idx t) (ts_idx t) (directpath_hwq t) (storage_hwq t) (next_tsc t).
Definition set_last_rq_head (v : Z) (t : thread) : thread :=
  Thread (active t) (rxq t) (rxq_shm t) (txpktq_empty t) (tid t) (rq_tail t) (rq_head t) v (last_rxq_head t)
    (core t) (at_idx t) (ts_idx t) (directpath_hwq t) (storage_hwq t) (next_tsc t).
Definition set_last_rxq_head (v : Z) (t : thread) : thread :=
  Thread (active t) (rxq t) (rxq_shm t) (txpktq_empty t) (tid t) (rq_tail t) (rq_head t) (last_rq_head t) v
    (core t) (at_idx t) (ts_idx t) (directpath_hwq t) (storage_hwq t) (next_tsc t).
Definition set_core (v : option nat) (t : thread) : thread :=
  Thread (active t) (rxq t) (rxq_shm t) (txpktq_empty t) (tid t) (rq_tail t) (rq_head t) (last_rq_head t)
    (last_rxq_head t) v (at_idx t) (ts_idx t) (directpath_hwq t) (storage_hwq t) (next_tsc t).
Definition set_at_idx (v : nat) (t : thread) : thread :=
  Thread (active t) (rxq t) (rxq_shm t) (txpktq_empty t) (tid t) (rq_tail t) (rq_head t) (last_rq_head t)
    (last_rxq_head t) (core t) v (ts_idx t) (directpath_hwq t) (storage_hwq t) (next_tsc t).
Definition set_ts_idx (v : option nat) (t : thread) : thread :=
  Thread (active t) (rxq t) (rxq_shm t) (txpktq_empty t) (tid t) (rq_tail t) (rq_head t) (last_rq_head t)
    (last_rxq_head t) (core t) (at_idx t) v (directpath_hwq t) (storage_hwq t) (next_tsc t).
Definition set_directpath_hwq (v : hwq) (t : thread) : thread :=
  Thread (active t) (rxq t) (rxq_shm t) (txpktq_empty t) (tid t) (rq_tail t) (rq_head t) (last_rq_head t)
    (last_rxq_head t) (core t) (at_idx t) (ts_idx t) v (storage_hwq t) (next_tsc t).
Definition set_storage_hwq (v : hwq) (t : thread) : thread :=
  Thread (active t) (rxq t) (rxq_shm t) (txpktq_empty t) (tid t) (rq_tail t) (rq_head t) (last_rq_head t)
    (last_rxq_head t) (core t) (at_idx t) (ts_idx t) (directpath_hwq t) v (next_tsc t).
Definition set_next_tsc (v : Z) (t : thread) : thread :=
  Thread (active t) (rxq t) (rxq_shm t) (txpktq_empty t) (tid t) (rq_tail t) (rq_head t) (last_rq_head t)
    (last_rxq_head t) (core t) (at_idx t) (ts_idx t) (directpath_hwq t) (storage_hwq t) v.

Record sched_spec := SchedSpec {
  priority : Z;
  max_cores : Z;
  guaranteed_cores : Z;
  congestion_latency_us : Z;
  scaleout_latency_us : Z;
  preferred_socket : Z;
}.

Record proc := Proc {
  ref : Z;
  kill : bool;
  has_directpath : bool;
  sched_cfg : sched_spec;
  flow_tbl : list (option nat);
  threads : list thread;
  active_threads : list nat;
  idle_threads : list nat;
  next_thread_rr : Z;
}.

Definition set_ref (v : Z) (p : proc) : proc :=
  Proc v (kill p) (has_directpath p) (sched_cfg p) (flow_tbl p) (threads p) (active_threads p) (idle_threads
    p) (next_thread_rr p).
Definition set_kill (v : bool) (p : proc) : proc :=
  Proc (ref p) v (has_directpath p) (sched_cfg p) (flow_tbl p) (threads p) (active_threads p) (idle_threads p)
    (next_thread_rr p).
Definition set_has_directpath (v : bool) (p : proc) : proc :=
  Proc (ref p) (kill p) v (sched_cfg p) (flow_tbl p) (threads p) (active_threads p) (idle_threads p)
    (next_thread_rr p).
Definition set_sched_cfg (v : sched_spec) (p : proc) : proc :=
  Proc (ref p) (kill p) (has_directpath p) v (flow_tbl p) (threads p) (active_threads p) (idle_threads p)
    (next_thread_rr p).
Definition set_flow_tbl (v : list (option nat)) (p : proc) : proc :=
  Proc (ref p) (kill p) (has_directpath p) (sched_cfg p) v (threads p) (active_threads p) (idle_threads p)
    (next_thread_rr p).
Definition set_threads (v : list thread) (p : proc) : proc :=
  Proc (ref p) (kill p) (has_directpath p) (sched_cfg p) (flow_tbl p) v (active_threads p) (idle_threads p)
    (next_thread_rr p).
Definition set_active_threads (v : list nat) (p : proc) : proc :=
  Proc (ref p) (kill p) (has_directpath p) (sched_cfg p) (flow_tbl p) (threads p) v (idle_threads p)
    (next_thread_rr p).
Definition set_idle_threads (v : list nat) (p : proc) : proc :=
  Proc (ref p) (kill p) (has_directpath p) (sched_cfg p) (flow_tbl p) (threads p) (active_threads p) v
    (next_thread_rr p).
Definition set_next_thread_rr (v : Z) (p : proc) : proc :=
  Proc (ref p) (kill p) (has_directpath p) (sched_cfg p) (flow_tbl p) (threads p) (active_threads p)
    (idle_threads p) v.

Definition thread_count (p : proc) : nat := length (threads p).
Definition active_thread_count (p : proc) : nat := length (active_threads p).

Record core_state := CoreState {
  pending_th : option tref;
  cur_th : option tref;
  idle : bool;
  pending : bool;
  wait : bool;
}.

Definition set_pending_th (v : option tref) (c : core_state) : core_state :=
  CoreState v (cur_th c) (idle c) (pending c) (wait c).
Definition set_cur_th (v : option tref) (c : core_state) : core_state :=
  CoreState (pending_th c) v (idle c) (pending c) (wait c).
Definition set_idle (v : bool) (c : core_state) : core_state :=
  CoreState (pending_th c) (cur_th c) v (pending c) (wait c).
Definition set_pending (v : bool) (c : core_state) : core_state :=
  CoreState (pending_th c) (cur_th c) (idle c) v (wait c).
Definition set_wait (v : bool) (c : core_state) : core_state :=
  CoreState (pending_th c) (cur_th c) (idle c) (pending c) v.

(** Calls to ksched, [proc_release], and calls to the hash table of MAC addresses. *)
Inductive kevent :=
| KRun (core : nat) (tid : Z)
| KIntr (core : nat)
| KIdleHint (core : nat) (hint : Z)
| KSendIntrs
| KRelease (p : nat)
| KHashAdd (p : nat)    (* rte_hash_add_key_data of the MAC address *)
| KHashDel (p : nat).

Record sched := Sched {
  procs : gmap nat proc;
  clients : list nat;
  ts : list tref;
  cstates : list core_state;
  ksched_count : Z;
  klog : list kevent;
}.

Definition set_procs (v : gmap nat proc) (s : sched) : sched :=
  Sched v (clients s) (ts s) (cstates s) (ksched_count s) (klog s).
Definition set_clients (v : list nat) (s : sched) : sched :=
  Sched (procs s) v (ts s) (cstates s) (ksched_count s) (klog s).
Definition set_ts (v : list tref) (s : sched) : sched :=
  Sched (procs s) (clients s) v (cstates s) (ksched_count s) (klog s).
Definition set_cstates (v : list core_state) (s : sched) : sched :=
  Sched (procs s) (clients s) (ts s) v (ksched_count s) (klog s).
Definition set_ksched_count (v : Z) (s : sched) : sched :=
  Sched (procs s) (clients s) (ts s) (cstates s) v (klog s).
Definition set_klog (v : list kevent) (s : sched) : sched :=
  Sched (procs s) (clients s) (ts s) (cstates s) (ksched_count s) v.

Definition log_ev (e : kevent) (s : sched) : sched := set_klog (klog s ++ [e]) s.

(** ** Access by address *)

Definition get_proc (p : nat) (s : sched) : res proc :=
  match procs s !! p with Some pr => Ok pr | None => Bug end.

Definition upd_proc (p : nat) (f : proc -> proc) (s : sched) : sched := set_procs (alter f p (procs s)) s.

Definition get_thread (r : tref) (s : sched) : res thread :=
  pr ← get_proc r.1 s; match threads pr !! r.2 with Some t => Ok t | None => Bug end.

Definition upd_thread (r : tref) (f : thread -> thread) (s : sched) : sched :=
  upd_proc r.1 (fun pr => set_threads (alter f r.2 (threads pr)) pr) s.

Definition get_cstate (c : nat) (s : sched) : res core_state :=
  match cstates s !! c with Some x => Ok x | None => Bug end.

Definition put_cstate (c : nat) (x : core_state) (s : sched) : sched := set_cstates (<[c := x]> (cstates s)) s.

(** ** Reference counts *)

Definition proc_get (p : nat) (s : sched) : res sched :=
  pr ← get_proc p s;
  _ ← BUG_ON (negb (0 <? ref pr));
  Ok (upd_proc p (set_ref (ref pr + 1)) s).

Definition proc_put (p : nat) (s : sched) : res sched :=
  pr ← get_proc p s;
  let s := upd_proc p (set_ref (ref pr - 1)) s in
  Ok (if ref pr - 1 =? 0 then log_ev (KRelease p) s else s).

(** ** The polling array *)

Definition poll_thread (r : tref) (s : sched) : res sched :=
  t ← get_thread r s;
  match ts_idx t with
  | Some _ => Ok s
  | None =>
      s ← proc_get r.1 s;
      _ ← BUG_ON (NCPU <=? length (ts s))%nat;
      Ok (upd_thread r (set_ts_idx (Some (length (ts s)))) (set_ts (ts s ++ [r]) s))
  end.

Definition unpoll_thread (r : tref) (s : sched) : res sched :=
  t ← get_thread r s;
  match ts_idx t with
  | None => Ok s
  | Some i =>
      match ts s !! (length (ts s) - 1)%nat with
      | None => Bug
      | Some l =>
          let s := set_ts (take (length (ts s) - 1) (<[i := l]> (ts s))) s in
          let s := upd_thread l (set_ts_idx (Some i)) s in
          let s := upd_thread r (set_ts_idx None) s in
          proc_put r.1 s
      end
  end.
