(* ===== verification/IokSched.v ===== *)
(** * iokernel/sched.c: giving cores to kthreads

    The operations on the state of IokState.v, and the interface [sched_ops] of the
    policies. *)

From S2P Require Import Prelude Stddef Lrpc IokState.

(** ** The cores of the machine *)

Record topo := Topo {
  sched_allowed_cores : gset nat;
  sched_siblings : nat -> nat;
  sched_cores_tbl : list nat;
  sched_siblings_tbl : list nat;
}.

(** ** A process's kthreads *)

(** The entries that are not yet assigned, round-robin over the active threads. *)
Fixpoint steer_rest (l : list nat) (j : nat) (act : list nat) (tbl : list (option nat)) : list (option nat) :=
  match l with
  | [] => tbl
  | i :: l =>
      match tbl !! i with
      | Some (Some _) => steer_rest l j act tbl
      | _ => steer_rest l (S j) act (<[i := act !! (j mod length act)%nat]> tbl)
      end
  end.

Definition sched_steer_flows (p : proc) : proc :=
  match active_threads p with
  | [] => p
  | act =>
      let tbl := foldl (fun tbl i => <[i := Some i]> tbl) (replicate NCPU None) act in
      set_flow_tbl (steer_rest (seq 0 (thread_count p)) 0 act tbl) p
  end.

Definition enable_proc (i core : nat) (p : proc) : proc :=
  let p := set_threads (alter (fun t => set_core (Some core) (set_active true t)) i (threads p)) p in
  let p := set_idle_threads (filter (fun k => k <> i) (idle_threads p)) p in
  let p := set_threads (alter (set_at_idx (active_thread_count p)) i (threads p)) p in
  sched_steer_flows (set_active_threads (active_threads p ++ [i]) p).

Definition sched_enable_kthread (r : tref) (core : nat) (s : sched) : res sched :=
  _ ← get_thread r s;
  poll_thread r (upd_proc r.1 (enable_proc r.2 core) s).

Definition disable_proc (i at_ : nat) (p : proc) : res proc :=
  let p := set_threads (alter (set_active false) i (threads p)) p in
  match active_threads p !! (active_thread_count p - 1)%nat with
  | None => Bug
  | Some l =>
      let p := set_active_threads (take (active_thread_count p - 1) (<[at_ := l]> (active_threads p))) p in
      let p := set_threads (alter (set_at_idx at_) l (threads p)) p in
      Ok (sched_steer_flows (set_idle_threads (i :: idle_threads p) p))
  end.

Definition sched_disable_kthread (r : tref) (s : sched) : res sched :=
  t ← get_thread r s;
  p ← get_proc r.1 s;
  p ← disable_proc r.2 (at_idx t) p;
  let s := upd_proc r.1 (fun _ => p) s in
  if txpktq_empty t then unpoll_thread r s else Ok s.

Section topo.
Context (T : topo).

Definition find_idle (p : proc) (c : nat) : option nat :=
  list.head (filter (fun i => core <$> threads p !! i = Some (Some c)) (idle_threads p)).

Definition sched_pick_kthread (p : proc) (c : nat) : option nat :=
  match find_idle p c with
  | Some i => Some i
  | None =>
      match find_idle p (sched_siblings T c) with
      | Some i => Some i
      | None => list.last (idle_threads p)
      end
  end.

(** ** A core *)

Definition ksched_run (c : nat) (tid : Z) (s : sched) : sched := log_ev (KRun c tid) s.

Definition ksched_enqueue_intr (c : nat) (s : sched) : sched :=
  set_ksched_count (ksched_count s + 1) (log_ev (KIntr c) s).

Definition ksched_send_intrs (s : sched) : sched :=
  if ksched_count s =? 0 then s else log_ev KSendIntrs (set_ksched_count 0 s).

Definition tid_of (th : option tref) (s : sched) : res Z :=
  match th with None => Ok 0 | Some r => t ← get_thread r s; Ok (tid t) end.

(** A kthread leaves a core. *)
Definition drop_kthread (th : option tref) (s : sched) : res sched :=
  match th with
  | None => Ok s
  | Some r => s ← sched_disable_kthread r s; proc_put r.1 s
  end.

Definition __sched_run (th : option tref) (c : nat) (s : sched) : res (Z * sched) :=
  x ← get_cstate c s;
  if wait x then
    s ← drop_kthread (pending_th x) s;
    Ok (0, put_cstate c (set_pending true (set_pending_th th x)) s)
  else
    let s := if negb (idle x) && bool_decide (cur_th x <> None) then ksched_enqueue_intr c s else s in
    t ← tid_of th s;
    let s := ksched_run c t s in
    s ← drop_kthread (cur_th x) s;
    Ok (0, put_cstate c (set_idle false (set_wait true (set_cur_th th x))) s).

Definition sched_run_on_core (p c : nat) (s : sched) : res (Z * sched) :=
  pr ← get_proc p s;
  if bool_decide (idle_threads pr = []) || (NCPU <=? c)%nat || bool_decide (c ∉ sched_allowed_cores T)
  then Ok (- EINVAL, s)
  else
    match sched_pick_kthread pr c with
    | None => Ok (- ENOENT, s)
    | Some i =>
        s ← proc_get p s;
        s ← sched_enable_kthread (p, i) c s;
        __sched_run (Some (p, i)) c s
    end.

Definition sched_idle_on_core (hint : Z) (c : nat) (s : sched) : res (Z * sched) :=
  if (NCPU <=? c)%nat || bool_decide (c ∉ sched_allowed_cores T) then Ok (- EINVAL, s)
  else __sched_run None c (log_ev (KIdleHint c hint) s).

Definition sched_threads_active (p : proc) : nat := active_thread_count p.
Definition sched_threads_avail (p : proc) : Z := Z.of_nat (thread_count p) - Z.of_nat (active_thread_count p).

(** ** Congestion *)

Definition hwq_busy (h : hwq) (cq_idx : Z) : bool :=
  let idx := Z.land cq_idx (u32 (nr_descriptors h - 1)) in
  let parity := negb (Z.land cq_idx (nr_descriptors h) =? 0) in
  let addr := u32 (Z.shiftl idx (descriptor_log_size h)) + parity_byte_offset h in
  let hd_parity := negb (Z.land (descriptor_table h addr) (parity_bit_mask h) =? 0) in
  Bool.eqb parity hd_parity.

Fixpoint find_head_loop (h : hwq) (start_idx : Z) (n : nat) (i : Z) : Z :=
  match n with
  | O => i
  | S n => if hwq_busy h (u32 (start_idx + i)) then find_head_loop h start_idx n (i + 1) else i
  end.

Definition hwq_find_head (h : hwq) (cur_tail last_head : Z) : Z :=
  let start_idx := if wraps_lt cur_tail last_head then last_head else cur_tail in
  let nr_desc := u32 (nr_descriptors h - u32 (start_idx - cur_tail)) in
  u32 (find_head_loop h start_idx (Z.to_nat nr_desc) 0 + start_idx).

(** The answer, and the queue with its pointers updated if [upd]. *)
Definition hardware_queue_congested (nactive : nat) (th_active : bool) (h : hwq) (upd : bool) : bool * hwq :=
  if negb (enabled h) then (false, h)
  else
    let lh := last_head h in
    let cur_tail := consumer_idx h in
    let cur_head := hwq_find_head h cur_tail lh in
    let h' := if upd then set_last_head cur_head (set_last_tail cur_tail h) else h in
    (if th_active || (queue_steering h && negb (nactive =? 0)%nat)
     then wraps_lt cur_tail lh else negb (cur_head =? cur_tail), h').

(** One pass over the threads: the indices for which [f] answers true. *)
Fixpoint scan (f : thread -> bool * thread) (i : nat) (l : list thread) : gset nat * list thread :=
  match l with
  | [] => (∅, [])
  | t :: l =>
      let '(b, t') := f t in
      let '(bits, l') := scan f (S i) l in
      (if b then {[i]} ∪ bits else bits, t' :: l')
  end.

Definition scan_rq (t : thread) : bool * thread :=
  let cur_tail := rq_tail t in
  let lh := last_rq_head t in
  let cur_head := rq_head t in
  (if active t then wraps_lt cur_tail lh else negb (cur_head =? cur_tail), set_last_rq_head cur_head t).

Definition scan_rxq (nactive : nat) (t : thread) : bool * thread :=
  let '(q, cur_tail) := lrpc_poll_send_tail (rxq t) (rxq_shm t) in
  let lh := last_rxq_head t in
  let cur_head := send_head q in
  let t := set_last_rxq_head cur_head (set_rxq q t) in
  let b := if active t then wraps_lt cur_tail lh else negb (cur_head =? cur_tail) in
  let '(b1, h1) := hardware_queue_congested nactive (active t) (directpath_hwq t) true in
  let t := set_directpath_hwq h1 t in
  let '(b2, h2) := hardware_queue_congested nactive (active t) (storage_hwq t) true in
  (b || b1 || b2, set_storage_hwq h2 t).

Definition scan_timer (cycles_per_us now : Z) (t : thread) : bool * thread :=
  let tsc := next_tsc t in
  (negb ((tsc =? 0) || (now <? tsc)) &&
     (negb (active t) || (u64 (tsc + IOKERNEL_POLL_INTERVAL * cycles_per_us) <? now)), t).

(** The bitmaps [threads] and [ios], and the process. *)
Definition detect_congestion (cycles_per_us now : Z) (p : proc) : gset nat * gset nat * proc :=
  let '(b0, l) := scan scan_rq 0 (threads p) in
  let '(b1, l) := scan (scan_rxq (active_thread_count p)) 0 l in
  let '(b2, l) := scan (scan_timer cycles_per_us now) 0 l in
  (b0, b1 ∪ b2, set_threads l p).

Definition sched_try_fast_rewake (r : tref) (s : sched) : res (Z * sched) :=
  t ← get_thread r s;
  let '(q, tail) := lrpc_poll_send_tail (rxq t) (rxq_shm t) in
  let s := upd_thread r (set_rxq q) s in
  let busy h := enabled h && hwq_busy h (consumer_idx h) in
  if negb (send_head q =? tail) || busy (directpath_hwq t) || busy (storage_hwq t) then
    match core t with
    | None => Bug
    | Some c =>
        let s := ksched_run c (tid t) s in
        x ← get_cstate c s;
        Ok (0, put_cstate c (set_wait true x) s)
    end
  else Ok (- EINVAL, s).

(** ** Policies *)

(** What a policy with data [D] does: it sees and changes its data and the scheduler. *)
Record sched_ops (D : Type) := SchedOps {
  proc_attach : nat -> sched_spec -> D * sched -> res (Z * (D * sched));
  proc_detach : nat -> D * sched -> res (D * sched);
  notify_congested : nat -> gset nat -> gset nat -> D * sched -> res (D * sched);
  notify_core_needed : nat -> D * sched -> res (Z * (D * sched));
  policy_poll : Z -> nat -> gset nat -> D * sched -> res (D * sched);
}.
#[global] Arguments proc_attach {D} _ _ _ _.
#[global] Arguments proc_detach {D} _ _ _.
#[global] Arguments notify_congested {D} _ _ _ _ _.
#[global] Arguments notify_core_needed {D} _ _ _.
#[global] Arguments policy_poll {D} _ _ _ _ _.

Context {D : Type} (ops : sched_ops D) (cycles_per_us : Z).

Definition sched_detect_congestion (tsc : Z) (p : nat) (w : D * sched) : res (D * sched) :=
  pr ← get_proc p w.2;
  let '(threads, ios, pr) := detect_congestion cycles_per_us tsc pr in
  notify_congested ops p threads ios (w.1, upd_proc p (fun _ => pr) w.2).

Definition sched_add_core (p : nat) (w : D * sched) : res (Z * (D * sched)) := notify_core_needed ops p w.

Definition io_pending (p : proc) : bool :=
  existsb (fun t => fst (hardware_queue_congested (active_thread_count p) (active t) (directpath_hwq t) false)) (threads p).

Definition sched_detect_io_for_idle_runtime (p : nat) (w : D * sched) : res (D * sched) :=
  pr ← get_proc p w.2;
  if io_pending pr then '(_, w) ← sched_add_core p w; Ok w else Ok w.

(** The operation [f] on each client in turn. *)
Fixpoint each_client (f : nat -> D * sched -> res (D * sched)) (l : list nat) (w : D * sched) : res (D * sched) :=
  match l with [] => Ok w | p :: l => w ← f p w; each_client f l w end.

Definition slow_check (p : nat) (w : D * sched) : res (D * sched) :=
  pr ← get_proc p w.2;
  if has_directpath pr && (sched_threads_active pr =? 0)%nat then sched_detect_io_for_idle_runtime p w else Ok w.

(** What the kernel module reports of a core: the last run request is done, the core
    is idle. *)
Record kreport := KReport { run_done : nat -> bool; poll_idle : nat -> bool }.

(** A context switch that has finished lets the pending one start. *)
Definition poll_switch (k : kreport) (c : nat) (s : sched) : res sched :=
  x ← get_cstate c s;
  if wait x && run_done k c then
    if pending x then
      let th := pending_th x in
      let s := ksched_enqueue_intr c s in
      t ← tid_of th s;
      let s := ksched_run c t s in
      s ← drop_kthread (cur_th x) s;
      Ok (put_cstate c (set_cur_th th (set_pending false (set_pending_th None x))) s)
    else Ok (put_cstate c (set_wait false x) s)
  else Ok s.

(** A core that went idle: whether it is to be reported to the policy. *)
Definition poll_core_idle (k : kreport) (c : nat) (s : sched) : res (bool * sched) :=
  x ← get_cstate c s;
  if negb (wait x) && negb (idle x) && poll_idle k c then
    match cur_th x with
    | Some r =>
        '(ret, s) ← sched_try_fast_rewake r s;
        if ret =? 0 then Ok (false, s)
        else
          s ← drop_kthread (Some r) s;
          Ok (true, put_cstate c (set_idle true (set_cur_th None x)) s)
    | None => Ok (true, put_cstate c (set_idle true x) s)
    end
  else Ok (false, s).

Fixpoint fast_pass (k : kreport) (l : list nat) (bits : gset nat) (cnt : nat) (s : sched) : res (gset nat * nat * sched) :=
  match l with
  | [] => Ok (bits, cnt, s)
  | c :: l =>
      s ← poll_switch k c s;
      '(b, s) ← poll_core_idle k c s;
      if (b : bool) then fast_pass k l ({[c]} ∪ bits) (S cnt) s else fast_pass k l bits cnt s
  end.

(** [sched_poll]: [last_time] is its static variable, returned with its new value. *)
Definition sched_poll (last_time now tsc : Z) (k : kreport) (w : D * sched) : res (Z * (D * sched)) :=
  let due := IOKERNEL_POLL_INTERVAL <=? u64 (now - last_time) in
  w ← each_client (if due then sched_detect_congestion tsc else slow_check) (clients w.2) w;
  '(bits, cnt, s) ← fast_pass k (sched_cores_tbl T) ∅ 0 w.2;
  w ← policy_poll ops now cnt bits (w.1, s);
  Ok (if due then now else last_time, (w.1, ksched_send_intrs w.2)).

(** ** Processes come and go *)

Definition attach_proc (p : proc) : proc :=
  let p := set_active_threads [] p in
  set_idle_threads (seq 0 (thread_count p)) (set_threads (map (fun t => set_active false (set_core None t)) (threads p)) p).

Definition sched_attach_proc (p : nat) (w : D * sched) : res (Z * (D * sched)) :=
  pr ← get_proc p w.2;
  proc_attach ops p (sched_cfg pr) (w.1, upd_proc p attach_proc w.2).

Definition sched_detach_proc (p : nat) (w : D * sched) : res (D * sched) := proc_detach ops p w.

Definition IOKERNEL_MAX_PROC : nat := 1024.

Definition dp_clients_add_client (p : nat) (w : D * sched) : res (D * sched) :=
  pr ← get_proc p w.2;
  let s := if has_directpath pr then w.2 else log_ev (KHashAdd p) w.2 in
  '(ret, w) ← sched_attach_proc p (w.1, s);
  if ret =? 0 then
    _ ← BUG_ON (IOKERNEL_MAX_PROC <=? length (clients w.2))%nat;
    let s := upd_proc p (set_kill false) w.2 in
    Ok (w.1, set_clients (clients s ++ [p]) s)
  else Ok w.

Definition dp_clients_remove_client (p : nat) (w : D * sched) : res (D * sched) :=
  match list_find (fun q => q = p) (clients w.2) with
  | None => Ok w
  | Some (i, _) =>
      match clients w.2 !! (length (clients w.2) - 1)%nat with
      | None => Bug
      | Some l =>
          let s := set_clients (take (length (clients w.2) - 1) (<[i := l]> (clients w.2))) w.2 in
          pr ← get_proc p s;
          let s := if has_directpath pr then s else log_ev (KHashDel p) s in
          w ← sched_detach_proc p (w.1, upd_proc p (set_kill true) s);
          s ← proc_put p w.2;
          Ok (w.1, s)
      end
  end.
End topo.
