(* ===== verification/IokInv.v ===== *)
(** * Invariants of the core scheduler

    What holds of the processes, the polling array and the reference counts between
    any two operations of sched.c, and that each operation keeps it. *)

From S2P Require Import Prelude Stddef Lrpc IokState IokSched.

(** ** One process *)

(** Every entry of the flow table leads to an active kthread, and that of an active
    kthread to itself. *)
Definition flow_ok (p : proc) : Prop :=
  forall i, (i < thread_count p)%nat ->
    exists j, flow_tbl p !! i = Some (Some j) /\ j ∈ active_threads p /\ (i ∈ active_threads p -> j = i).

Record proc_ok (p : proc) : Prop := {
  po_perm : active_threads p ++ idle_threads p ≡ₚ seq 0 (thread_count p);
  po_act : forall i t, threads p !! i = Some t -> active t = true <-> i ∈ active_threads p;
  po_at : forall k i t, active_threads p !! k = Some i -> threads p !! i = Some t -> at_idx t = k;
  po_count : (thread_count p <= NCPU)%nat;
  po_flow : active_threads p <> [] -> flow_ok p;
}.

Lemma po_nodup p : proc_ok p -> NoDup (active_threads p ++ idle_threads p).
Proof. intros H. rewrite (po_perm p H). apply NoDup_seq. Qed.

Lemma po_valid p i : proc_ok p -> i ∈ active_threads p ++ idle_threads p <-> is_Some (threads p !! i).
Proof.
  intros H. rewrite (po_perm p H), elem_of_seq, lookup_lt_is_Some. unfold thread_count. lia.
Qed.

(** *** The flow table *)

Lemma foldl_insert_length (act : list nat) : forall tbl : list (option nat),
  length (foldl (fun tbl i => <[i := Some i]> tbl) tbl act) = length tbl.
Proof. induction act as [|i act IH]; intros tbl; cbn; [done|]. by rewrite IH, length_insert. Qed.

Lemma foldl_insert_lookup (act : list nat) : forall (tbl : list (option nat)) k,
  (k < length tbl)%nat ->
  foldl (fun tbl i => <[i := Some i]> tbl) tbl act !! k = if decide (k ∈ act) then Some (Some k) else tbl !! k.
Proof.
  induction act as [|i act IH]; intros tbl k Hk; cbn [foldl]; [by rewrite decide_False by set_solver|].
  rewrite IH by (by rewrite length_insert). destruct (decide (k ∈ act)); [by rewrite decide_True by set_solver|].
  destruct (decide (k = i)) as [->|Hne].
  - rewrite decide_True by set_solver. by apply list_lookup_insert_eq.
  - rewrite decide_False by set_solver. by apply list_lookup_insert_ne.
Qed.

Lemma steer_rest_spec (act : list nat) (l : list nat) : act <> [] -> forall j tbl,
  (forall i, i ∈ l -> (i < length tbl)%nat) ->
  (forall k v, tbl !! k = Some (Some v) -> v ∈ act) ->
  (forall k v, tbl !! k = Some (Some v) -> steer_rest l j act tbl !! k = Some (Some v)) /\
  (forall k v, steer_rest l j act tbl !! k = Some (Some v) -> v ∈ act) /\
  (forall k, k ∈ l -> exists v, steer_rest l j act tbl !! k = Some (Some v)).
Proof.
  intros Hact. induction l as [|i l IH]; intros j tbl Hl Ht; cbn [steer_rest]; [split_and!; auto; set_solver|].
  assert (Hstep : forall tbl', length tbl' = length tbl -> (forall k v, tbl' !! k = Some (Some v) -> v ∈ act) ->
    (forall k v, tbl !! k = Some (Some v) -> tbl' !! k = Some (Some v)) -> (exists v, tbl' !! i = Some (Some v)) ->
    forall j', (forall k v, tbl !! k = Some (Some v) -> steer_rest l j' act tbl' !! k = Some (Some v)) /\
    (forall k v, steer_rest l j' act tbl' !! k = Some (Some v) -> v ∈ act) /\
    (forall k, k ∈ i :: l -> exists v, steer_rest l j' act tbl' !! k = Some (Some v))).
  { intros tbl' Hlen Ht' Hkeep [v Hv] j'. destruct (IH j' tbl') as (A & B & C); [|done|].
    { intros k Hk. rewrite Hlen. apply Hl. set_solver. }
    split_and!; [by auto|done|]. intros k [->|Hk]%elem_of_cons; [|by apply C]. exists v. by apply A. }
  assert (Hi : (i < length tbl)%nat) by (apply Hl; set_solver).
  destruct (lookup_lt_is_Some_2 tbl i Hi) as [[v|] Ei]; rewrite Ei.
  - apply Hstep; eauto.
  - assert (Hm : (j mod length act < length act)%nat) by (apply Nat.mod_upper_bound; by destruct act).
    destruct (lookup_lt_is_Some_2 act _ Hm) as [u Eu]. rewrite Eu. apply Hstep.
    + by rewrite length_insert.
    + intros k v. destruct (decide (k = i)) as [->|Hne].
      * rewrite list_lookup_insert_eq by done. intros [= <-]. by apply list_elem_of_lookup_2 in Eu.
      * rewrite list_lookup_insert_ne by done. apply Ht.
    + intros k v Hk. destruct (decide (k = i)) as [->|Hne]; [congruence|]. by rewrite list_lookup_insert_ne.
    + exists u. by apply list_lookup_insert_eq.
Qed.

Lemma steer_flows_ok p :
  (forall i, i ∈ active_threads p -> (i < NCPU)%nat) -> (thread_count p <= NCPU)%nat ->
  active_threads p <> [] -> flow_ok (sched_steer_flows p).
Proof.
  intros Hv Hc Hne. unfold sched_steer_flows, flow_ok. destruct (active_threads p) as [|a0 act0] eqn:Ea; [done|].
  rewrite <- Ea in *. cbn [flow_tbl set_flow_tbl active_threads].
  change (thread_count (set_flow_tbl _ p)) with (thread_count p). remember (active_threads p) as act.
  set (t0 := foldl _ _ _). assert (Hlen : length t0 = NCPU) by (unfold t0; by rewrite foldl_insert_length, length_replicate).
  assert (Hlk : forall k, (k < NCPU)%nat -> t0 !! k = if decide (k ∈ act) then Some (Some k) else Some None).
  { intros k Hk. unfold t0. rewrite foldl_insert_lookup by (by rewrite length_replicate).
    by rewrite lookup_replicate_2 by done. }
  destruct (steer_rest_spec act (seq 0 (thread_count p)) Hne 0 t0) as (Hkeep & Hin & Hall).
  { intros i Hi%elem_of_seq. lia. }
  { intros k v Hk. assert (Hb := lookup_lt_Some _ _ _ Hk). rewrite Hlk in Hk by lia. destruct (decide (k ∈ act)); naive_solver. }
  intros i Hi. destruct (Hall i) as [j Ej]; [apply elem_of_seq; lia|]. exists j. split; [done|]. split; [by eapply Hin|].
  intros Hact. specialize (Hkeep i i). rewrite Hlk in Hkeep by lia. rewrite decide_True in Hkeep by done.
  specialize (Hkeep eq_refl). congruence.
Qed.

(** What steering does not change. *)
Lemma steer_frame p :
  ref (sched_steer_flows p) = ref p /\ kill (sched_steer_flows p) = kill p /\
  has_directpath (sched_steer_flows p) = has_directpath p /\ sched_cfg (sched_steer_flows p) = sched_cfg p /\
  threads (sched_steer_flows p) = threads p /\ active_threads (sched_steer_flows p) = active_threads p /\
  idle_threads (sched_steer_flows p) = idle_threads p /\ next_thread_rr (sched_steer_flows p) = next_thread_rr p.
Proof. unfold sched_steer_flows. destruct (active_threads p) eqn:E; cbn; by rewrite ?E. Qed.

Lemma filter_ne_id (l : list nat) i : i ∉ l -> filter (fun k => k <> i) l = l.
Proof.
  induction l as [|x l IH]; intros H; [done|]. rewrite filter_cons, decide_True by (intros ->; set_solver).
  f_equal. apply IH. set_solver.
Qed.

(** *** A kthread is enabled *)

Lemma enable_proc_ok p i c :
  proc_ok p -> i ∈ idle_threads p ->
  let p' := enable_proc i c p in
  proc_ok p' /\ ref p' = ref p /\ kill p' = kill p /\ has_directpath p' = has_directpath p /\ sched_cfg p' = sched_cfg p /\
  active_threads p' = active_threads p ++ [i] /\
  threads p' = alter (fun t => set_at_idx (active_thread_count p) (set_core (Some c) (set_active true t))) i (threads p).
Proof.
  intros Hp Hi p'. assert (Hnd := po_nodup p Hp). apply list.NoDup_app in Hnd as (Hna & Hdis & Hni).
  assert (Hnot : i ∉ active_threads p) by (intros H; by apply (Hdis i)).
  set (q := set_active_threads (active_threads p ++ [i]) (set_idle_threads (filter (fun k => k <> i) (idle_threads p))
    (set_threads (alter (fun t => set_at_idx (active_thread_count p) (set_core (Some c) (set_active true t))) i (threads p)) p))).
  assert (Ep : p' = sched_steer_flows q).
  { unfold p', enable_proc, q. f_equal. unfold set_active_threads, set_idle_threads, set_threads, active_thread_count. cbn.
    f_equal. by rewrite list_alter_alter_eq. }
  destruct (steer_frame q) as (F1 & F2 & F3 & F4 & F5 & F6 & F7 & F8). rewrite <- Ep in *.
  split; [|by rewrite F1, F2, F3, F4, F5, F6].
  assert (Hlen : thread_count p' = thread_count p) by (unfold thread_count; rewrite F5; apply length_alter).
  assert (Hperm : active_threads p' ++ idle_threads p' ≡ₚ seq 0 (thread_count p')).
  { rewrite F6, F7, Hlen, <- (po_perm p Hp). cbn. rewrite <- app_assoc. f_equiv.
    destruct (list_elem_of_split _ _ Hi) as (l1 & l2 & E). rewrite E in *. rewrite list.filter_app, filter_cons.
    rewrite decide_False by (intros X; by apply X).
    apply list.NoDup_app in Hni as (_ & H1 & H2). apply list.NoDup_cons in H2 as [H2 _].
    rewrite !filter_ne_id; [cbn; by rewrite Permutation_middle|done|]. intros Hx. apply (H1 i Hx). set_solver. }
  split; auto.
  - intros k t. rewrite F5, F6. cbn. intros Hk. rewrite elem_of_app, list_elem_of_singleton.
    destruct (decide (k = i)) as [->|Hne].
    + rewrite list_lookup_alter_eq in Hk. apply fmap_Some in Hk as (t0 & _ & ->). cbn. naive_solver.
    + rewrite list_lookup_alter_ne in Hk by done. rewrite (po_act p Hp k t Hk). naive_solver.
  - intros k j t. rewrite F5, F6. cbn. intros Hk Hj. apply lookup_app_Some in Hk as [Hk|[Hge Hk]].
    + rewrite list_lookup_alter_ne in Hj; [by eapply (po_at p Hp)|].
      intros <-. apply Hnot. by apply list_elem_of_lookup_2 in Hk.
    + destruct (k - length (active_threads p))%nat eqn:Ek; [|done]. injection Hk as <-.
      rewrite list_lookup_alter_eq in Hj. apply fmap_Some in Hj as (t0 & _ & ->). cbn. unfold active_thread_count. lia.
  - rewrite Hlen. apply Hp.
  - intros _. rewrite Ep. apply steer_flows_ok.
    + cbn. intros j Hj. assert (Hv : j ∈ seq 0 (thread_count p')) by (rewrite <- Hperm, F6; cbn; set_solver).
      apply elem_of_seq in Hv. assert (Hc := po_count p Hp). lia.
    + change (thread_count q) with (length (alter (fun t => set_at_idx (active_thread_count p) (set_core (Some c) (set_active true t))) i (threads p))).
      rewrite length_alter. apply Hp.
    + cbn. by destruct (active_threads p).
Qed.

(** *** A kthread is disabled *)

(** Removal from an array by moving its last element into the hole. *)
Definition swap_remove {A} (k : nat) (x : A) (l : list A) : list A := take (length l - 1) (<[k := x]> l).

Lemma swap_remove_perm {A} (l : list A) k i x :
  l !! k = Some i -> l !! (length l - 1)%nat = Some x -> i :: swap_remove k x l ≡ₚ l.
Proof.
  intros Hk Hx. assert (Hl := lookup_lt_Some _ _ _ Hk). unfold swap_remove.
  destruct (decide (k = length l - 1)%nat) as [->|Hne].
  - assert (i = x) as -> by congruence. rewrite list_insert_id by done.
    rewrite Permutation_cons_append, <- take_S_r by done. rewrite take_ge by lia. done.
  - assert (E : exists l1 l2, l = l1 ++ i :: l2 ++ [x] /\ length l1 = k).
    { exists (take k l), (take (length l - 1 - S k) (drop (S k) l)). split; [|rewrite length_take; lia].
      rewrite <- (take_drop_middle l k i Hk) at 1. do 2 f_equal.
      rewrite <- (take_drop (length l - 1 - S k) (drop (S k) l)) at 1. f_equal.
      rewrite drop_drop. replace (S k + (length l - 1 - S k))%nat with (length l - 1)%nat by lia.
      rewrite <- (take_drop_middle l _ x Hx) at 2. rewrite drop_app_length' by (rewrite length_take; lia).
      rewrite drop_ge; [done|lia]. }
    destruct E as (l1 & l2 & -> & <-). rewrite insert_app_r_alt, Nat.sub_diag by lia. cbn [insert list_insert].
    rewrite !length_app. cbn [length]. rewrite length_app. cbn [length].
    replace (length l1 + S (length l2 + 1) - 1)%nat with (length (l1 ++ x :: l2)) by (rewrite length_app; cbn; lia).
    change (x :: l2 ++ [x]) with ((x :: l2) ++ [x]). rewrite app_assoc, take_app_length.
    rewrite (Permutation_app_comm l2 [x]). cbn. by rewrite Permutation_middle.
Qed.

Lemma swap_remove_lookup {A} (l : list A) k x m y :
  swap_remove k x l !! m = Some y -> (k < length l)%nat -> (m < length l - 1)%nat /\ (if decide (m = k) then y = x else l !! m = Some y).
Proof.
  unfold swap_remove. intros H Hk. apply lookup_take_Some in H as [H Hm]. split; [done|].
  destruct (decide (m = k)) as [->|Hne].
  - rewrite list_lookup_insert_eq in H by done. congruence.
  - by rewrite list_lookup_insert_ne in H.
Qed.

Lemma disable_proc_ok p i t :
  proc_ok p -> i ∈ active_threads p -> threads p !! i = Some t ->
  exists p', disable_proc i (at_idx t) p = Ok p' /\ proc_ok p' /\
    ref p' = ref p /\ kill p' = kill p /\ has_directpath p' = has_directpath p /\ sched_cfg p' = sched_cfg p /\
    i :: active_threads p' ≡ₚ active_threads p /\ length (threads p') = length (threads p) /\
    forall j, set_at_idx 0 <$> threads p' !! j =
      (fun t => set_at_idx 0 (if decide (j = i) then set_active false t else t)) <$> threads p !! j.
Proof.
  intros Hp Hi Ht. apply list_elem_of_lookup_1 in Hi as [k Hk]. assert (Hkl := lookup_lt_Some _ _ _ Hk).
  assert (Hat : at_idx t = k) by (by eapply (po_at p Hp)). rewrite Hat. clear Hat.
  assert (Hnd := po_nodup p Hp). apply list.NoDup_app in Hnd as (Hna & Hdis & Hni).
  unfold disable_proc, active_thread_count. cbn [active_threads set_threads threads].
  destruct (lookup_lt_is_Some_2 (active_threads p) (length (active_threads p) - 1)) as [l El]; [lia|]. rewrite El.
  fold (swap_remove k l (active_threads p)). set (A := swap_remove k l (active_threads p)).
  assert (HA : i :: A ≡ₚ active_threads p) by (by apply swap_remove_perm).
  assert (HiA : NoDup (i :: A)) by (by rewrite HA). apply list.NoDup_cons in HiA as [HiA HAnd].
  set (q := set_idle_threads _ _). eexists. split; [reflexivity|].
  destruct (steer_frame q) as (F1 & F2 & F3 & F4 & F5 & F6 & F7 & F8). set (p' := sched_steer_flows q) in *.
  cbn in F1, F2, F3, F4, F5, F6, F7.
  assert (Hlen : length (threads p') = length (threads p)) by (rewrite F5, !length_alter; done).
  assert (Hj : forall j, set_at_idx 0 <$> threads p' !! j =
      (fun t => set_at_idx 0 (if decide (j = i) then set_active false t else t)) <$> threads p !! j).
  { intros j. rewrite F5. destruct (decide (j = l)) as [->|Hjl]; [rewrite list_lookup_alter_eq|rewrite list_lookup_alter_ne by done].
    - destruct (decide (l = i)) as [->|Hli].
      + rewrite list_lookup_alter_eq. by destruct (threads p !! i).
      + rewrite list_lookup_alter_ne by done. by destruct (threads p !! l).
    - destruct (decide (j = i)) as [->|Hji].
      + rewrite list_lookup_alter_eq. by destruct (threads p !! i).
      + rewrite list_lookup_alter_ne by done. by destruct (threads p !! j). }
  assert (Hact : forall j u, threads p' !! j = Some u -> exists u0, threads p !! j = Some u0 /\
    active u = (if decide (j = i) then false else active u0)).
  { intros j u Hu. specialize (Hj j). rewrite Hu in Hj. symmetry in Hj. apply fmap_Some in Hj as (u0 & Hu0 & E).
    exists u0. split; [done|]. apply (f_equal active) in E. cbn in E. destruct (decide (j = i)); done. }
  assert (Hperm : active_threads p' ++ idle_threads p' ≡ₚ seq 0 (thread_count p')).
  { unfold thread_count. rewrite F6, F7, Hlen. fold (thread_count p). rewrite <- (po_perm p Hp), <- HA. cbn.
    by rewrite Permutation_middle. }
  split_and!; auto; [|by rewrite F6]. split; auto.
  - intros j u Hu. destruct (Hact j u Hu) as (u0 & Hu0 & ->). rewrite F6.
    destruct (decide (j = i)) as [->|Hne]; [naive_solver|]. rewrite (po_act p Hp j u0 Hu0), <- HA, elem_of_cons. naive_solver.
  - intros m j u. rewrite F5, F6. intros Hm Hu. destruct (swap_remove_lookup _ _ _ _ _ Hm Hkl) as [Hlt Hmj].
    destruct (decide (m = k)) as [->|Hne].
    + subst j. rewrite list_lookup_alter_eq in Hu. apply fmap_Some in Hu as (u0 & _ & ->). done.
    + assert (j <> l). { intros ->. apply Hne. exfalso. assert (m = length (active_threads p) - 1)%nat by (eapply NoDup_lookup; [exact Hna|exact Hmj|exact El]). lia. }
      assert (j <> i). { intros ->. apply Hne. eapply NoDup_lookup; [exact Hna|exact Hmj|exact Hk]. }
      rewrite !list_lookup_alter_ne in Hu by done. by eapply (po_at p Hp).
  - unfold thread_count. rewrite Hlen. apply Hp.
  - intros Hne. rewrite F6 in Hne. apply steer_flows_ok.
    + cbn. intros j HjA. assert (Hv : j ∈ seq 0 (thread_count p)) by (rewrite <- (po_perm p Hp), <- HA; set_solver).
      apply elem_of_seq in Hv. assert (Hc := po_count p Hp). lia.
    + change (thread_count q) with (length (alter (set_at_idx k) l (alter (set_active false) i (threads p)))).
      rewrite !length_alter. apply Hp.
    + done.
Qed.
