(* ===== verification/IokBase.v ===== *)
(** * The processes of the IOKernel: invariant of kthreads, polling and references *)

From S2P Require Import Prelude Stddef Lrpc IokState IokSched IokInv.

Definition th_at (s : sched) (r : tref) : option thread := procs s !! r.1 ≫= fun p => threads p !! r.2.

(** The core of an active kthread. *)
Definition act_core (s : sched) (r : tref) : option nat :=
  t ← th_at s r; if active t then core t else None.

Definition npolled (s : sched) (p : nat) : Z := Z.of_nat (length (filter (fun r : tref => r.1 = p) (ts s))).

Lemma npolled_zero s p : npolled s p = 0 <-> forall r, r ∈ ts s -> r.1 <> p.
Proof.
  unfold npolled. split.
  - intros H r Hr Hp. assert (Hf : r ∈ filter (fun r : tref => r.1 = p) (ts s)) by (by apply list_elem_of_filter).
    destruct (filter _ _); [by apply elem_of_nil in Hf|cbn in H; lia].
  - intros H. destruct (filter _ _) as [|r l] eqn:E; [done|]. exfalso.
    assert (Hf : r ∈ filter (fun r : tref => r.1 = p) (ts s)) by (rewrite E; by left).
    apply list_elem_of_filter in Hf as [Hp Hr]. by apply (H r).
Qed.

(** [A] are the cores of the scheduler, [G p] the references to [p] held elsewhere,
    [U] contains all kthreads: they fit the polling array. *)
Record base_inv (A : gset nat) (G : nat -> Z) (U : list tref) (s : sched) : Prop := {
  bi_proc : forall p pr, procs s !! p = Some pr -> proc_ok pr;
  bi_ts : forall k r, ts s !! k = Some r <-> exists t, th_at s r = Some t /\ ts_idx t = Some k;
  bi_core : forall r t c, th_at s r = Some t -> core t = Some c -> c ∈ A;
  bi_ref : forall p pr, procs s !! p = Some pr ->
    ref pr = G p + Z.of_nat (length (active_threads pr)) + npolled s p;
  bi_G : forall p, 0 <= G p;
  bi_U : forall r, is_Some (th_at s r) -> r ∈ U;
  bi_room : (length U <= NCPU)%nat;
}.

(** Active kthreads are polled and have a core. *)
Definition polled_inv (s : sched) : Prop :=
  forall r t, th_at s r = Some t -> active t = true -> ts_idx t <> None /\ core t <> None.

Definition bump (p : nat) (d : Z) (G : nat -> Z) (q : nat) : Z := if decide (q = p) then G q + d else G q.

(** What the operations on processes do not touch. *)
Record same_cores (s s' : sched) : Prop := {
  sc_cores : cstates s' = cstates s;
  sc_clients : clients s' = clients s;
  sc_procs : forall p, is_Some (procs s' !! p) <-> is_Some (procs s !! p);
}.

Lemma same_cores_refl s : same_cores s s.
Proof. done. Qed.

Lemma same_cores_trans s1 s2 s3 : same_cores s1 s2 -> same_cores s2 s3 -> same_cores s1 s3.
Proof. intros [] []. split; [congruence|congruence|]. intros p. by rewrite sc_procs1. Qed.

Lemma same_cores_upd_proc p f s : same_cores s (upd_proc p f s).
Proof. split; [done|done|]. intros q. apply lookup_alter_is_Some. Qed.

Lemma same_cores_ts l s : same_cores s (set_ts l s).
Proof. done. Qed.

Lemma same_cores_log e s : same_cores s (log_ev e s).
Proof. done. Qed.
#[local] Hint Resolve same_cores_refl same_cores_trans same_cores_upd_proc same_cores_ts same_cores_log : core.

Lemma th_at_Some s r t : th_at s r = Some t <-> exists p, procs s !! r.1 = Some p /\ threads p !! r.2 = Some t.
Proof. unfold th_at. destruct (procs s !! r.1); cbn; naive_solver. Qed.

Lemma get_thread_ok s r t : th_at s r = Some t -> get_thread r s = Ok t.
Proof. intros (p & Hp & Ht)%th_at_Some. unfold get_thread, get_proc. rewrite Hp. cbn. by rewrite Ht. Qed.

Lemma th_at_upd_proc s p f r :
  th_at (upd_proc p f s) r = if decide (r.1 = p) then (f <$> procs s !! p) ≫= (fun q => threads q !! r.2) else th_at s r.
Proof.
  unfold th_at, upd_proc. cbn. destruct (decide (r.1 = p)) as [<-|Hne].
  - by rewrite lookup_alter_eq.
  - by rewrite lookup_alter_ne.
Qed.

Lemma th_at_upd_thread s r f r' :
  th_at (upd_thread r f s) r' = if decide (r' = r) then f <$> th_at s r else th_at s r'.
Proof.
  unfold upd_thread. rewrite th_at_upd_proc. destruct r as [p i], r' as [p' i']. unfold th_at. cbn.
  destruct (decide (p' = p)) as [->|Hne]; [|by rewrite decide_False by congruence].
  destruct (procs s !! p) as [pr|]; cbn; [|by destruct (decide _)].
  destruct (decide (i' = i)) as [->|Hne].
  - rewrite decide_True by done. by rewrite list_lookup_alter_eq.
  - rewrite decide_False by congruence. by rewrite list_lookup_alter_ne.
Qed.

(** A change of threads that keeps a process well formed. *)
Lemma proc_ok_threads p f i :
  (forall t, active (f t) = active t /\ at_idx (f t) = at_idx t) ->
  proc_ok p -> proc_ok (set_threads (alter f i (threads p)) p).
Proof.
  intros Hf [H1 H2 H3 H4 H5]. split; cbn; unfold thread_count, flow_ok in *; cbn; rewrite ?length_alter; auto.
  - intros j t Hj. destruct (decide (j = i)) as [->|Hne].
    + rewrite list_lookup_alter_eq in Hj. apply fmap_Some in Hj as (t0 & Hj & ->). rewrite (proj1 (Hf t0)). by apply H2.
    + rewrite list_lookup_alter_ne in Hj by done. by apply H2.
  - intros k j t Hk Hj. destruct (decide (j = i)) as [->|Hne].
    + rewrite list_lookup_alter_eq in Hj. apply fmap_Some in Hj as (t0 & Hj & ->). rewrite (proj2 (Hf t0)). by eapply H3.
    + rewrite list_lookup_alter_ne in Hj by done. by eapply H3.
Qed.

Lemma procs_upd_thread s r f p pr1 :
  (forall t, active (f t) = active t /\ at_idx (f t) = at_idx t) -> procs (upd_thread r f s) !! p = Some pr1 ->
  exists pr0, procs s !! p = Some pr0 /\ active_threads pr1 = active_threads pr0 /\ ref pr1 = ref pr0 /\
    (proc_ok pr0 -> proc_ok pr1).
Proof.
  intros Hf Hm. unfold upd_thread, upd_proc in Hm. cbn in Hm. destruct (decide (p = r.1)) as [->|Hne].
  - rewrite lookup_alter_eq in Hm. apply fmap_Some in Hm as (pr0 & -> & ->). exists pr0. split_and!; auto. by apply proc_ok_threads.
  - rewrite lookup_alter_ne in Hm by done. by exists pr1.
Qed.

Lemma at_idx_only u v : set_at_idx 0 u = set_at_idx 0 v -> u = set_at_idx (at_idx u) v.
Proof. destruct u, v. unfold set_at_idx. cbn. intros H. injection H. intros. by subst. Qed.

Section base.
Context (A : gset nat) (U : list tref).

Lemma ts_nodup G s : base_inv A G U s -> NoDup (ts s).
Proof.
  intros H. apply NoDup_alt. intros i j r Hi Hj. apply (bi_ts _ _ _ _ H) in Hi as (t & Ht & Hi), Hj as (t' & Ht' & Hj).
  congruence.
Qed.

(** A new reference count. *)
Lemma base_set_ref G s p pr d :
  base_inv A G U s -> procs s !! p = Some pr -> 0 <= G p + d ->
  base_inv A (bump p d G) U (upd_proc p (set_ref (ref pr + d)) s) /\
  forall r, th_at (upd_proc p (set_ref (ref pr + d)) s) r = th_at s r.
Proof.
  intros H Hp Hd. assert (Ht : forall r, th_at (upd_proc p (set_ref (ref pr + d)) s) r = th_at s r).
  { intros r. rewrite th_at_upd_proc. destruct (decide (r.1 = p)) as [<-|]; [|done]. unfold th_at. by destruct (procs s !! r.1). }
  split; [|done]. destruct H as [H1 H2 H3 H4 H5 H6 H7]. split; auto.
  - intros q qr. unfold upd_proc. cbn. destruct (decide (q = p)) as [->|Hne].
    + rewrite lookup_alter_eq, Hp. intros [= <-]. destruct (H1 p pr Hp). by split.
    + rewrite lookup_alter_ne by done. apply H1.
  - intros k r. cbn. rewrite H2. by rewrite Ht.
  - intros r t c. rewrite Ht. apply H3.
  - intros q qr. unfold upd_proc, bump. cbn. destruct (decide (q = p)) as [->|Hne].
    + rewrite lookup_alter_eq, Hp. intros [= <-]. cbn. specialize (H4 p pr Hp). change (npolled (set_procs _ s) p) with (npolled s p). lia.
    + rewrite lookup_alter_ne by done. apply H4.
  - intros q. unfold bump. destruct (decide (q = p)) as [->|]; auto.
  - intros r. rewrite Ht. apply H6.
Qed.

Lemma proc_get_ok G s p pr :
  base_inv A G U s -> procs s !! p = Some pr -> 0 < ref pr ->
  exists s', proc_get p s = Ok s' /\ base_inv A (bump p 1 G) U s' /\ (forall r, th_at s' r = th_at s r) /\
    same_cores s s' /\ procs s' = alter (set_ref (ref pr + 1)) p (procs s) /\ ts s' = ts s.
Proof.
  intros H Hp Hr. unfold proc_get, get_proc. rewrite Hp. cbn. rewrite (proj2 (Z.ltb_lt 0 (ref pr)) Hr). cbn.
  destruct (base_set_ref G s p pr 1 H Hp) as [H1 H2]; [assert (X := bi_G _ _ _ _ H p); lia|]. eexists. by split_and!; auto.
Qed.

Lemma proc_put_ok G s p pr :
  base_inv A G U s -> procs s !! p = Some pr -> 0 < G p ->
  exists s', proc_put p s = Ok s' /\ base_inv A (bump p (-1) G) U s' /\ (forall r, th_at s' r = th_at s r) /\
    same_cores s s' /\ procs s' = alter (set_ref (ref pr - 1)) p (procs s) /\ ts s' = ts s.
Proof.
  intros H Hp Hg. unfold proc_put, get_proc. rewrite Hp. cbn.
  destruct (base_set_ref G s p pr (-1) H Hp) as [H1 H2]; [lia|]. replace (ref pr + -1) with (ref pr - 1) in * by lia.
  eexists. split; [done|]. destruct (ref pr - 1 =? 0); cbn; [|by split_and!; auto].
  split_and!; eauto. destruct H1; by split.
Qed.

(** A thread's index in the polling array, with the array. *)
Lemma base_set_ts G s l (f : tref -> option nat) :
  base_inv A G U s ->
  forall s', (forall r, th_at s' r = set_ts_idx (f r) <$> th_at s r) -> ts s' = l ->
  (forall k r, l !! k = Some r <-> is_Some (th_at s r) /\ f r = Some k) ->
  (forall p pr', procs s' !! p = Some pr' -> exists pr, procs s !! p = Some pr /\ proc_ok pr' /\
     active_threads pr' = active_threads pr /\ ref pr' = ref pr) ->
  forall G', (forall p, 0 <= G' p) ->
  (forall p, is_Some (procs s !! p) -> G' p + Z.of_nat (length (filter (fun r : tref => r.1 = p) l)) = G p + npolled s p) ->
  base_inv A G' U s'.
Proof.
  intros H s' Ht Hl Hk Hp G' HG Hr. destruct H as [H1 H2 H3 H4 H5 H6 H7]. split; auto.
  - intros p pr' Hpr. by destruct (Hp p pr' Hpr) as (pr & _ & Hok & _).
  - intros k r. rewrite Hl, Hk, Ht. destruct (th_at s r) as [t|]; cbn; [|naive_solver].
    split; [intros [_ Hf]; by eexists|]. intros (t0 & [= <-] & Hf). done.
  - intros r t c. rewrite Ht. intros (t0 & Hr0 & ->)%fmap_Some. cbn. intros Hc. by eapply H3.
  - intros p pr' Hpr. destruct (Hp p pr' Hpr) as (pr & Hpr0 & _ & -> & ->). rewrite (H4 p pr Hpr0).
    unfold npolled at 2. rewrite Hl. specialize (Hr p ltac:(eauto)). lia.
  - intros r. rewrite Ht, fmap_is_Some. apply H6.
Qed.

Lemma thread_exists s r t : th_at s r = Some t -> exists pr, procs s !! r.1 = Some pr.
Proof. intros (p & Hp & _)%th_at_Some. eauto. Qed.

Lemma poll_thread_ok G s r t pr :
  base_inv A G U s -> th_at s r = Some t -> procs s !! r.1 = Some pr -> 0 < ref pr ->
  exists s' i, poll_thread r s = Ok s' /\ base_inv A G U s' /\ same_cores s s' /\
    forall r', th_at s' r' = if decide (r' = r) then Some (set_ts_idx (Some i) t) else th_at s r'.
Proof.
  intros H Ht Hp Hr. unfold poll_thread. rewrite (get_thread_ok s r t Ht). cbn [mbind res_bind].
  destruct (ts_idx t) as [i|] eqn:Ei.
  { exists s, i. split_and!; auto. intros r'. destruct (decide (r' = r)) as [->|]; [|done].
    rewrite Ht, <- Ei. by destruct t. }
  destruct (proc_get_ok G s r.1 pr H Hp Hr) as (s1 & -> & H1 & T1 & C1 & P1 & TS1). cbn [mbind res_bind].
  set (n := length (ts s)). assert (Hnot : r ∉ ts s).
  { intros [k Hk]%list_elem_of_lookup_1. apply (bi_ts _ _ _ _ H) in Hk as (t0 & Ht0 & ?). congruence. }
  assert (Hn : (n < NCPU)%nat).
  { assert (Hsub : r :: ts s ⊆+ U).
    { apply NoDup_submseteq; [constructor; [done|by eapply ts_nodup]|].
      intros x [->|[k Hk]%list_elem_of_lookup_1]%elem_of_cons; apply (bi_U _ _ _ _ H); [eauto|].
      apply (bi_ts _ _ _ _ H) in Hk as (t0 & ? & _). eauto. }
    apply submseteq_length in Hsub. cbn in Hsub. assert (X := bi_room _ _ _ _ H). unfold n. lia. }
  rewrite TS1. fold n. rewrite (proj2 (Nat.leb_gt NCPU n) Hn). cbn [BUG_ON mbind res_bind].
  set (s2 := upd_thread _ _ _). exists s2, n. split; [done|].
  assert (T2 : forall r', th_at s2 r' = if decide (r' = r) then Some (set_ts_idx (Some n) t) else th_at s r').
  { intros r'. unfold s2. rewrite th_at_upd_thread. change (th_at (set_ts _ s1)) with (th_at s1). rewrite !T1, Ht. done. }
  split; [|split; [unfold s2, upd_thread; eauto|done]].
  apply (base_set_ts (bump r.1 1 G) s1 (ts s ++ [r]) (fun r' => if decide (r' = r) then Some n else t0 ← th_at s r'; ts_idx t0)); auto.
  - intros r'. rewrite T2, T1. destruct (decide (r' = r)) as [->|]; [by rewrite Ht|].
    destruct (th_at s r') as [t0|]; [|done]. cbn. by destruct t0.
  - intros k r'. rewrite T1. split.
    + intros [Hk|[Hge Hk]]%lookup_app_Some.
      * destruct (decide (r' = r)) as [->|Hne]; [by apply list_elem_of_lookup_2 in Hk|].
        apply (bi_ts _ _ _ _ H) in Hk as (t0 & -> & ?). cbn. eauto.
      * destruct (k - length (ts s))%nat eqn:Ek; [|done]. injection Hk as <-. rewrite decide_True, Ht by done.
        split; [eauto|]. f_equal. unfold n. lia.
    + intros [Hs Hk]. destruct (decide (r' = r)) as [->|Hne].
      * injection Hk as <-. by apply list_lookup_middle.
      * apply lookup_app_l_Some, (bi_ts _ _ _ _ H). destruct (th_at s r') as [t0|]; [|done]. cbn in Hk. eauto.
  - intros p pr'. unfold s2, upd_thread, upd_proc. cbn. rewrite P1. destruct (decide (p = r.1)) as [->|Hne].
    + rewrite !lookup_alter_eq, Hp. cbn. intros [= <-]. eexists. split; [done|]. cbn. split_and!; auto.
      apply (proc_ok_threads (set_ref (ref pr + 1) pr)); [done|]. destruct (bi_proc _ _ _ _ H _ _ Hp). by split.
    + rewrite !lookup_alter_ne by done. intros Hq. exists pr'. split_and!; auto. by eapply (bi_proc _ _ _ _ H).
  - apply (bi_G _ _ _ _ H).
  - intros p _. unfold bump, npolled. rewrite TS1, list.filter_app, length_app, filter_cons, filter_nil.
    destruct (decide (p = r.1)) as [->|Hne].
    + rewrite decide_True by done. cbn. lia.
    + rewrite decide_False by congruence. cbn. lia.
Qed.

Lemma filter_count_cons (r : tref) (l : list tref) p :
  Z.of_nat (length (filter (fun r : tref => r.1 = p) (r :: l))) =
  Z.of_nat (length (filter (fun r : tref => r.1 = p) l)) + (if decide (p = r.1) then 1 else 0).
Proof. rewrite filter_cons. destruct (decide (p = r.1)) as [->|]; [rewrite decide_True by done|rewrite decide_False by congruence]; cbn; lia. Qed.

Lemma filter_count_perm (l l' : list tref) p :
  l ≡ₚ l' -> length (filter (fun r : tref => r.1 = p) l) = length (filter (fun r : tref => r.1 = p) l').
Proof. intros ->. done. Qed.

Lemma unpoll_thread_ok G s r t :
  base_inv A G U s -> th_at s r = Some t ->
  exists s', unpoll_thread r s = Ok s' /\ base_inv A G U s' /\ same_cores s s' /\
    forall r', exists j, th_at s' r' = set_ts_idx j <$> th_at s r' /\ (r' <> r -> forall t', th_at s r' = Some t' -> ts_idx t' <> None -> j <> None).
Proof.
  intros H Ht. unfold unpoll_thread. rewrite (get_thread_ok s r t Ht). cbn [mbind res_bind].
  destruct (ts_idx t) as [i|] eqn:Ei.
  2: { exists s. split_and!; auto. intros r'. exists (t0 ← th_at s r'; ts_idx t0).
       split; [destruct (th_at s r') as [t0|]; [by destruct t0|done]|]. by intros _ t' ->. }
  assert (Hi : ts s !! i = Some r) by (apply (bi_ts _ _ _ _ H); eauto). assert (Hil := lookup_lt_Some _ _ _ Hi).
  destruct (lookup_lt_is_Some_2 (ts s) (length (ts s) - 1)) as [l El]; [lia|]. rewrite El.
  fold (swap_remove i l (ts s)). set (L := swap_remove i l (ts s)).
  assert (HL : r :: L ≡ₚ ts s) by (by apply swap_remove_perm).
  assert (Hnd := ts_nodup _ _ H). assert (Hx := H). destruct Hx as [_ Hts _ _ _ _ _].
  destruct (proj1 (Hts _ _) El) as (tl & Htl & Etl).
  set (s1 := upd_thread r (set_ts_idx None) (upd_thread l (set_ts_idx (Some i)) (set_ts L s))).
  set (f := fun r' => if decide (r' = r) then None else if decide (r' = l) then Some i else t0 ← th_at s r'; ts_idx t0).
  assert (T1 : forall r', th_at s1 r' = set_ts_idx (f r') <$> th_at s r').
  { intros r'. unfold s1, f. rewrite !th_at_upd_thread. change (th_at (set_ts L s)) with (th_at s).
    destruct (decide (r' = r)) as [->|Hr].
    - destruct (decide (r = l)) as [->|]; [|done]. rewrite Htl. done.
    - destruct (decide (r' = l)) as [->|Hl]; [done|]. destruct (th_at s r') as [t0|]; [|done]. cbn. by destruct t0. }
  assert (Hp1 : forall p pr', procs s1 !! p = Some pr' -> exists pr, procs s !! p = Some pr /\ proc_ok pr' /\
     active_threads pr' = active_threads pr /\ ref pr' = ref pr).
  { intros p pr' Hpr. apply procs_upd_thread in Hpr as (p1 & Hpr & A1 & R1 & K1); [|done].
    apply procs_upd_thread in Hpr as (p2 & Hpr & A2 & R2 & K2); [|done].
    exists p2. rewrite A1, R1. split_and!; auto. apply K1, K2. by eapply (bi_proc _ _ _ _ H). }
  assert (HkL : forall k r', L !! k = Some r' <-> is_Some (th_at s r') /\ f r' = Some k).
  { intros k r'. split.
    - intros Hk. destruct (swap_remove_lookup _ _ _ _ _ Hk Hil) as [Hlt Hc]. unfold f. destruct (decide (k = i)) as [->|Hki].
      + subst r'. split; [eauto|]. rewrite decide_False, decide_True; [done|done|].
        intros ->. assert (i = length (ts s) - 1)%nat by (eapply NoDup_lookup; eauto). lia.
      + destruct (proj1 (Hts _ _) Hc) as (t0 & Ht0 & E0). split; [eauto|]. rewrite decide_False; [rewrite decide_False|].
        * by rewrite Ht0.
        * intros ->. assert (k = length (ts s) - 1)%nat by (eapply NoDup_lookup; eauto). lia.
        * intros ->. assert (k = i) by (eapply NoDup_lookup; eauto). done.
    - unfold f. intros [[t0 Ht0] Hf]. destruct (decide (r' = r)); [done|]. unfold L, swap_remove.
      destruct (decide (r' = l)) as [->|Hrl].
      + injection Hf as <-. assert (i <> length (ts s) - 1)%nat by (intros ->; congruence).
        rewrite lookup_take_lt by lia. by apply list_lookup_insert_eq.
      + rewrite Ht0 in Hf. cbn in Hf. assert (Hk : ts s !! k = Some r') by (apply Hts; eauto).
        assert (k <> i) by congruence. assert (k <> length (ts s) - 1)%nat by congruence.
        assert (Hkl := lookup_lt_Some _ _ _ Hk). rewrite lookup_take_lt, list_lookup_insert_ne by lia. done. }
  assert (H1 : base_inv A (bump r.1 1 G) U s1).
  { apply (base_set_ts G s L f); auto.
    - intros p. unfold bump. assert (X := bi_G _ _ _ _ H p). destruct (decide _); lia.
    - intros p _. unfold npolled. rewrite <- (filter_count_perm _ _ p HL), filter_count_cons. unfold bump. destruct (decide _); lia. }
  destruct (thread_exists s1 r (set_ts_idx None t)) as [pr1 Hpr1].
  { rewrite T1, Ht. unfold f. by rewrite decide_True by done. }
  destruct (proc_put_ok (bump r.1 1 G) s1 r.1 pr1 H1 Hpr1) as (s2 & E2 & H2 & T2 & C1 & _).
  { unfold bump. rewrite decide_True by done. assert (X := bi_G _ _ _ _ H r.1). lia. }
  exists s2. split; [exact E2|]. split_and!.
  - destruct H2 as [B1 B2 B3 B4 B5 B6 B7]. split; auto; [|apply (bi_G _ _ _ _ H)].
    intros p pr Hpr. rewrite (B4 p pr Hpr). unfold bump. destruct (decide _); lia.
  - eapply same_cores_trans; [|exact C1]. unfold s1, upd_thread. eauto.
  - intros r'. exists (f r'). rewrite T2. split; [apply T1|]. intros Hne t' Ht' Hn. unfold f.
    rewrite decide_False by done. destruct (decide _); [done|]. by rewrite Ht'.
Qed.

(** A process gets other threads, with the same places in the polling array. *)
Lemma base_upd_proc G s p pr pr' d :
  base_inv A G U s -> procs s !! p = Some pr -> proc_ok pr' -> ref pr' = ref pr -> 0 <= G p + d ->
  Z.of_nat (length (active_threads pr')) + d = Z.of_nat (length (active_threads pr)) ->
  (forall j t', threads pr' !! j = Some t' -> exists t, threads pr !! j = Some t /\ ts_idx t' = ts_idx t /\
     (forall c, core t' = Some c -> core t = Some c \/ c ∈ A)) ->
  length (threads pr') = length (threads pr) ->
  base_inv A (bump p d G) U (upd_proc p (fun _ => pr') s).
Proof.
  intros H Hp Hok Href Hd Hact Hth Hlen. set (s' := upd_proc p (fun _ => pr') s).
  assert (T : forall r t', th_at s' r = Some t' -> exists t, th_at s r = Some t /\ ts_idx t' = ts_idx t /\
    (forall c, core t' = Some c -> core t = Some c \/ c ∈ A)).
  { intros r t'. unfold s'. rewrite th_at_upd_proc. destruct (decide (r.1 = p)) as [<-|]; [|naive_solver].
    rewrite Hp. cbn. intros (t & Ht & ?)%Hth. exists t. split; [|done]. apply th_at_Some. eauto. }
  assert (T' : forall r t, th_at s r = Some t -> exists t', th_at s' r = Some t' /\ ts_idx t' = ts_idx t).
  { intros r t Ht. apply th_at_Some in Ht as (q & Hq & Ht). unfold s'. rewrite th_at_upd_proc.
    destruct (decide (r.1 = p)) as [<-|]; [|exists t; split; [apply th_at_Some; eauto|done]].
    rewrite Hp. cbn. assert (q = pr) as -> by congruence.
    destruct (lookup_lt_is_Some_2 (threads pr') r.2) as [t' Ht']; [rewrite Hlen; by eapply lookup_lt_Some|].
    exists t'. split; [done|]. destruct (Hth _ _ Ht') as (t0 & ? & ? & _). congruence. }
  destruct H as [H1 H2 H3 H4 H5 H6 H7]. split; auto.
  - intros q qr. unfold s', upd_proc. cbn. destruct (decide (q = p)) as [->|Hne].
    + rewrite lookup_alter_eq, Hp. by intros [= <-].
    + rewrite lookup_alter_ne by done. apply H1.
  - intros k r. change (ts s') with (ts s). rewrite H2. split.
    + intros (t & Ht & E). apply T' in Ht as (t' & Ht' & E'). exists t'. split; [done|]. congruence.
    + intros (t' & Ht' & E). apply T in Ht' as (t & Ht & E' & _). exists t. split; [done|]. congruence.
  - intros r t' c Ht' Hc. apply T in Ht' as (t & Ht & _ & Hcore). destruct (Hcore c Hc); [by eapply H3|done].
  - intros q qr. unfold s', upd_proc, bump. cbn. change (npolled (set_procs _ s) q) with (npolled s q).
    destruct (decide (q = p)) as [->|Hne].
    + rewrite lookup_alter_eq, Hp. intros [= <-]. rewrite Href, (H4 p pr Hp). lia.
    + rewrite lookup_alter_ne by done. apply H4.
  - intros q. unfold bump. destruct (decide (q = p)) as [->|]; auto.
  - intros r [t' Ht']. apply T in Ht' as (t & Ht & _). apply H6. eauto.
Qed.

(** The kthread that [act_core] changes. *)
Definition act_upd (f : tref -> option nat) (r : tref) (v : option nat) (r' : tref) : option nat :=
  if decide (r' = r) then v else f r'.

Lemma act_core_tview s s' r :
  (option_map (fun t => (active t, core t)) (th_at s' r) = option_map (fun t => (active t, core t)) (th_at s r)) ->
  act_core s' r = act_core s r.
Proof. unfold act_core. destruct (th_at s' r), (th_at s r); cbn; try done. by intros [= -> ->]. Qed.

Lemma bump_bump p d e G q : bump p d (bump p e G) q = bump p (d + e) G q.
Proof. unfold bump. destruct (decide _); lia. Qed.

Lemma base_G G G' s : base_inv A G U s -> (forall q, G' q = G q) -> base_inv A G' U s.
Proof. intros [] Hq. split; auto; [intros p pr Hp; rewrite Hq; auto|intros p; by rewrite Hq]. Qed.

Lemma sched_enable_ok G s p pr i c :
  base_inv A G U s -> polled_inv s -> procs s !! p = Some pr -> i ∈ idle_threads pr -> c ∈ A -> 0 < G p ->
  exists s', sched_enable_kthread (p, i) c s = Ok s' /\ base_inv A (bump p (-1) G) U s' /\ polled_inv s' /\
    same_cores s s' /\ (forall r, act_core s' r = act_upd (act_core s) (p, i) (Some c) r) /\
    (forall r, tid <$> th_at s' r = tid <$> th_at s r) /\ act_core s (p, i) = None.
Proof.
  intros H Hpl Hp Hi Hc HG. assert (Hok := bi_proc _ _ _ _ H _ _ Hp).
  destruct (enable_proc_ok pr i c Hok Hi) as (Hok' & Href & _ & _ & _ & Hact & Hth).
  destruct (proj1 (po_valid pr i Hok)) as [t Ht]; [set_solver|].
  assert (Htat : th_at s (p, i) = Some t) by (apply th_at_Some; eauto).
  assert (Hina : active t = false).
  { apply not_true_is_false. rewrite (po_act pr Hok i t Ht). intros Ha. assert (Hnd := po_nodup pr Hok).
    apply list.NoDup_app in Hnd as (_ & Hd & _). by apply (Hd i). }
  unfold sched_enable_kthread. rewrite (get_thread_ok s (p, i) t Htat). cbn [mbind res_bind fst snd].
  assert (Eupd : upd_proc p (enable_proc i c) s = upd_proc p (fun _ => enable_proc i c pr) s).
  { unfold upd_proc. f_equal. apply map_eq. intros q. destruct (decide (q = p)) as [->|]; [|by rewrite !lookup_alter_ne].
    by rewrite !lookup_alter_eq, Hp. }
  rewrite Eupd. set (s1 := upd_proc p _ s).
  set (t1 := set_at_idx (active_thread_count pr) (set_core (Some c) (set_active true t))).
  assert (H1 : base_inv A (bump p (-1) G) U s1).
  { apply (base_upd_proc G s p pr); auto; [lia|rewrite Hact, length_app; cbn; lia| |rewrite Hth; apply length_alter].
    intros j t' Hj. rewrite Hth in Hj. destruct (decide (j = i)) as [->|Hne].
    - rewrite list_lookup_alter_eq, Ht in Hj. injection Hj as <-. exists t. split_and!; auto. cbn. intros c' [= <-]. by right.
    - rewrite list_lookup_alter_ne in Hj by done. exists t'. auto. }
  assert (T1 : forall r, th_at s1 r = if decide (r = (p, i)) then Some t1 else th_at s r).
  { intros r. unfold s1. rewrite th_at_upd_proc. destruct r as [p' i']. cbn. destruct (decide (p' = p)) as [->|Hne].
    - rewrite Hp. cbn. rewrite Hth. destruct (decide (i' = i)) as [->|Hne].
      + rewrite decide_True by done. by rewrite list_lookup_alter_eq, Ht.
      + rewrite decide_False by congruence. rewrite list_lookup_alter_ne by done. unfold th_at. cbn. by rewrite Hp.
    - by rewrite decide_False by congruence. }
  assert (Hp1 : procs s1 !! p = Some (enable_proc i c pr)) by (unfold s1, upd_proc; cbn; by rewrite lookup_alter_eq, Hp).
  assert (HT : th_at s1 (p, i) = Some t1) by (by rewrite T1, decide_True).
  assert (Hr1 : 0 < ref (enable_proc i c pr)).
  { rewrite Href, (bi_ref _ _ _ _ H p pr Hp). unfold npolled. lia. }
  destruct (poll_thread_ok (bump p (-1) G) s1 (p, i) t1 (enable_proc i c pr) H1 HT Hp1 Hr1) as (s2 & k & E2 & H2 & C2 & T2).
  assert (Hold : forall r, th_at s2 r = if decide (r = (p, i)) then Some (set_ts_idx (Some k) t1) else th_at s r).
  { intros r. rewrite T2, T1. by destruct (decide (r = (p, i))). }
  exists s2. split_and!; auto; [|unfold s1 in C2; eauto| | |].
  - intros r u. rewrite Hold. destruct (decide (r = (p, i))); [by intros [= <-]|apply Hpl].
  - intros r. unfold act_core, act_upd. rewrite Hold. by destruct (decide (r = (p, i))).
  - intros r. rewrite Hold. destruct (decide (r = (p, i))) as [->|]; [by rewrite Htat|done].
  - unfold act_core. rewrite Htat. cbn. by rewrite Hina.
Qed.

Lemma sched_disable_ok G s r c :
  base_inv A G U s -> polled_inv s -> act_core s r = Some c ->
  exists s', sched_disable_kthread r s = Ok s' /\ base_inv A (bump r.1 1 G) U s' /\ polled_inv s' /\ same_cores s s' /\
    (forall r', act_core s' r' = act_upd (act_core s) r None r') /\ (forall r', tid <$> th_at s' r' = tid <$> th_at s r').
Proof.
  intros H Hpl Hac. unfold act_core in Hac. destruct (th_at s r) as [t|] eqn:Ht; [|done]. cbn in Hac.
  destruct (active t) eqn:Ea; [|done]. assert (Ht' := Ht). apply th_at_Some in Ht' as (pr & Hp & Hti).
  assert (Hok := bi_proc _ _ _ _ H _ _ Hp). assert (Hi : r.2 ∈ active_threads pr) by (by apply (po_act pr Hok r.2 t)).
  destruct (disable_proc_ok pr r.2 t Hok Hi Hti) as (pr' & E & Hok' & Href & _ & _ & _ & Hact & Hlen & Hj).
  unfold sched_disable_kthread, get_proc. rewrite (get_thread_ok s r t Ht), Hp. cbn [mbind res_bind]. rewrite E. cbn [mbind res_bind].
  set (s1 := upd_proc r.1 _ s).
  assert (Hth : forall j, exists k, threads pr' !! j = (fun t => set_at_idx k (if decide (j = r.2) then set_active false t else t)) <$> threads pr !! j).
  { intros j. specialize (Hj j). destruct (threads pr' !! j) as [u|], (threads pr !! j) as [u0|]; cbn in *; try done.
    exists (at_idx u). f_equal. apply (inj Some), at_idx_only in Hj. exact Hj. }
  assert (H1 : base_inv A (bump r.1 1 G) U s1).
  { apply (base_upd_proc G s r.1 pr); auto.
    - assert (X := bi_G _ _ _ _ H r.1). lia.
    - rewrite <- Hact. cbn. lia.
    - intros j t' Hj'. destruct (Hth j) as [k Hk]. rewrite Hj' in Hk. symmetry in Hk. apply fmap_Some in Hk as (t0 & Ht0 & ->).
      exists t0. split; [done|]. destruct (decide (j = r.2)); cbn; auto. }
  assert (T1 : forall r', exists k, th_at s1 r' = (fun t => set_at_idx k (if decide (r' = r) then set_active false t else t)) <$> th_at s r').
  { intros r'. unfold s1. rewrite th_at_upd_proc. destruct (decide (r'.1 = r.1)) as [Er|Hne].
    - rewrite Hp. cbn. destruct (Hth r'.2) as [k Hk]. exists k. rewrite Hk. unfold th_at. rewrite Er, Hp. cbn.
      destruct r as [p i], r' as [p' i']. cbn in *. subst p'. by destruct (decide (i' = i)), (decide ((p, i') = (p, i))); try congruence.
    - exists (default 0%nat (at_idx <$> th_at s r')). destruct (decide (r' = r)) as [->|]; [done|]. destruct (th_at s r') as [t0|]; [|done]. cbn. by destruct t0. }
  assert (Hview : forall s2, same_cores s1 s2 -> base_inv A (bump r.1 1 G) U s2 ->
    (forall r', exists j, th_at s2 r' = set_ts_idx j <$> th_at s1 r' /\
       (r' <> r -> forall t', th_at s1 r' = Some t' -> ts_idx t' <> None -> j <> None)) ->
    exists s', Ok s2 = Ok s' /\ base_inv A (bump r.1 1 G) U s' /\ polled_inv s' /\ same_cores s s' /\
    (forall r', act_core s' r' = act_upd (act_core s) r None r') /\ (forall r', tid <$> th_at s' r' = tid <$> th_at s r')).
  { intros s2 C2 H2 T2. exists s2. split_and!; auto; [|unfold s1 in C2; eauto| |].
    - intros r' u Hu Hau. destruct (T2 r') as (j & Ej & Hn). destruct (T1 r') as [k Ek].
      rewrite Ek in Ej. rewrite Hu in Ej. symmetry in Ej. apply fmap_Some in Ej as (u1 & Eu1 & ->).
      apply fmap_Some in Eu1 as (u0 & Eu0 & ->). cbn in Hau |- *. destruct (decide (r' = r)) as [->|Hne]; [done|].
      split; [|by apply (Hpl r' u0)]. eapply Hn; [done|by rewrite Ek, Eu0|]. cbn. by apply (Hpl r' u0).
    - intros r'. unfold act_core, act_upd. destruct (T2 r') as (j & -> & _). destruct (T1 r') as [k ->].
      destruct (th_at s r') as [t0|]; [|by destruct (decide _)]. cbn. by destruct (decide (r' = r)).
    - intros r'. destruct (T2 r') as (j & -> & _). destruct (T1 r') as [k ->]. destruct (th_at s r'); [|done]. cbn. by destruct (decide _). }
  destruct (txpktq_empty t).
  - destruct (T1 r) as [k Ek]. rewrite Ht in Ek. cbn in Ek.
    destruct (unpoll_thread_ok (bump r.1 1 G) s1 r _ H1 Ek) as (s2 & -> & H2 & C2 & T2). by apply Hview.
  - apply Hview; auto. intros r'. exists (t0 ← th_at s1 r'; ts_idx t0). split; [|by intros _ t' ->].
    destruct (th_at s1 r') as [t0|]; [|done]. by destruct t0.
Qed.

(** A kthread leaves a core. *)
Lemma drop_kthread_ok G s r c :
  base_inv A G U s -> polled_inv s -> act_core s r = Some c ->
  exists s', drop_kthread (Some r) s = Ok s' /\ base_inv A G U s' /\ polled_inv s' /\ same_cores s s' /\
    (forall r', act_core s' r' = act_upd (act_core s) r None r') /\ (forall r', tid <$> th_at s' r' = tid <$> th_at s r').
Proof.
  intros H Hpl Hac. destruct (sched_disable_ok G s r c H Hpl Hac) as (s1 & E1 & H1 & P1 & C1 & A1 & I1).
  assert (Hp : exists pr, procs s1 !! r.1 = Some pr).
  { unfold act_core in Hac. destruct (th_at s r) as [t|] eqn:Ht; [|done]. specialize (I1 r). rewrite Ht in I1. cbn in I1.
    apply fmap_Some in I1 as (u & Hu & _). by eapply thread_exists. }
  destruct Hp as [pr Hp].
  destruct (proc_put_ok (bump r.1 1 G) s1 r.1 pr H1 Hp) as (s2 & E2 & H2 & T2 & C2 & _).
  { unfold bump. rewrite decide_True by done. assert (X := bi_G _ _ _ _ H r.1). lia. }
  exists s2. unfold drop_kthread. rewrite E1. cbn [mbind res_bind]. rewrite E2. split_and!; auto.
  - apply (base_G (bump r.1 (-1) (bump r.1 1 G))); [done|]. intros q. rewrite bump_bump. unfold bump. destruct (decide _); lia.
  - intros r' u. rewrite T2. apply P1.
  - eauto.
  - intros r'. rewrite <- A1. unfold act_core. by rewrite T2.
  - intros r'. by rewrite T2.
Qed.
End base.
