(* ===== verification/IokCores.v ===== *)
(** * The cores: who runs where *)

From S2P Require Import Prelude Stddef Lrpc IokState IokSched IokInv IokBase.

Record topo_ok (T : topo) : Prop := {
  tk_range : forall c, c ∈ sched_allowed_cores T -> (c < NCPU)%nat;
  tk_tbl : forall c, c ∈ sched_cores_tbl T <-> c ∈ sched_allowed_cores T;
  tk_nodup : NoDup (sched_cores_tbl T);
  tk_sib : forall c, (c < NCPU)%nat -> (sched_siblings T c < NCPU)%nat;
}.

(** [f] tells on which core a kthread is; the states of the cores agree with it. *)
Record cores_inv (cs : list core_state) (f : tref -> option nat) : Prop := {
  ci_len : length cs = NCPU;
  ci_on : forall r c, f r = Some c <-> exists x, cs !! c = Some x /\ (cur_th x = Some r \/ pending_th x = Some r);
  ci_one : forall c x r, cs !! c = Some x -> cur_th x = Some r -> pending_th x <> Some r;
  ci_pend : forall c x, cs !! c = Some x -> pending_th x <> None -> pending x = true;
  ci_wait : forall c x, cs !! c = Some x -> pending x = true -> wait x = true;
  ci_idle : forall c x, cs !! c = Some x -> idle x = true -> cur_th x = None /\ wait x = false;
}.

Record sched_inv (T : topo) (G : nat -> Z) (U : list tref) (s : sched) : Prop := {
  sv_base : base_inv (sched_allowed_cores T) G U s;
  sv_polled : polled_inv s;
  sv_cores : cores_inv (cstates s) (act_core s);
  sv_clients : forall p, p ∈ clients s -> is_Some (procs s !! p) /\ 0 < G p;
  sv_nodup : NoDup (clients s);
}.

Lemma cores_inv_ext cs f g : cores_inv cs f -> (forall r, g r = f r) -> cores_inv cs g.
Proof. intros [] Hg. split; auto. intros r c. rewrite Hg. apply ci_on0. Qed.

(** Core [c] gets another state. *)
Lemma cores_inv_put cs f g c x x' :
  cores_inv cs f -> cs !! c = Some x ->
  (forall r, g r = Some c <-> cur_th x' = Some r \/ pending_th x' = Some r) ->
  (forall r c', c' <> c -> g r = Some c' <-> f r = Some c') ->
  (forall r, cur_th x' = Some r -> pending_th x' <> Some r) ->
  (pending_th x' <> None -> pending x' = true) -> (pending x' = true -> wait x' = true) ->
  (idle x' = true -> cur_th x' = None /\ wait x' = false) ->
  cores_inv (<[c := x']> cs) g.
Proof.
  intros [Hl Hon H1 H2 H3 H4] Hx Hc Hc' K1 K2 K3 K4. assert (Hlt := lookup_lt_Some _ _ _ Hx).
  assert (Hlk : forall c' y, <[c := x']> cs !! c' = Some y -> if decide (c' = c) then y = x' else cs !! c' = Some y).
  { intros c' y. destruct (decide (c' = c)) as [->|]; [rewrite list_lookup_insert_eq by done|rewrite list_lookup_insert_ne by done]; congruence. }
  split.
  - by rewrite length_insert.
  - intros r c'. destruct (decide (c' = c)) as [->|Hne].
    + rewrite Hc, list_lookup_insert_eq by done. naive_solver.
    + rewrite Hc', list_lookup_insert_ne by done. apply Hon.
  - intros c' y r Hy. apply Hlk in Hy. destruct (decide (c' = c)); [subst; apply K1|by eapply H1].
  - intros c' y Hy. apply Hlk in Hy. destruct (decide (c' = c)); [subst; apply K2|by eapply H2].
  - intros c' y Hy. apply Hlk in Hy. destruct (decide (c' = c)); [subst; apply K3|by eapply H3].
  - intros c' y Hy. apply Hlk in Hy. destruct (decide (c' = c)); [subst; apply K4|by eapply H4].
Qed.

Definition without (th : option tref) (f : tref -> option nat) : tref -> option nat :=
  match th with Some r => act_upd f r None | None => f end.

Lemma without_iff th f r c : without th f r = Some c <-> th <> Some r /\ f r = Some c.
Proof.
  destruct th as [r0|]; [|naive_solver]. unfold without, act_upd. destruct (decide (r = r0)); [naive_solver|].
  split; [|naive_solver]. intros ?. split; [congruence|done].
Qed.

(** [th] takes the place of [old] on core [c], next to [keep]. *)
Lemma cores_swap cs f th old keep c x x' :
  cores_inv cs (without th f) -> cs !! c = Some x -> (forall r, th = Some r -> f r = Some c) ->
  (forall r, cur_th x = Some r \/ pending_th x = Some r <-> old = Some r \/ keep = Some r) ->
  (forall r, old = Some r -> keep <> Some r) ->
  (forall r, cur_th x' = Some r \/ pending_th x' = Some r <-> th = Some r \/ keep = Some r) ->
  (forall r, cur_th x' = Some r -> pending_th x' = Some r -> th = Some r /\ keep = Some r) ->
  (pending_th x' <> None -> pending x' = true) -> (pending x' = true -> wait x' = true) ->
  (idle x' = true -> cur_th x' = None /\ wait x' = false) ->
  cores_inv (<[c := x']> cs) (without old f).
Proof.
  intros Hcs Hx Hth Hold Hok Hnew H1 K2 K3 K4.
  assert (Hon : forall r, old = Some r \/ keep = Some r -> th <> Some r /\ f r = Some c).
  { intros r Hr. apply without_iff, (ci_on _ _ Hcs). exists x. split; [done|]. by apply Hold. }
  apply (cores_inv_put _ (without th f) _ c x); auto.
  - intros r. rewrite without_iff, Hnew. split.
    + intros [Hr1 Hr2]. destruct (decide (th = Some r)) as [|Hn]; [by left|right].
      destruct (proj1 (ci_on _ _ Hcs r c)) as (y & Hy & Hor); [by apply without_iff|].
      assert (y = x) as -> by congruence. apply Hold in Hor. naive_solver.
    + intros [Hr|Hr]; (split; [|naive_solver]).
      * intros Ho. destruct (Hon r) as [X _]; auto.
      * intros Ho. by apply (Hok r).
  - intros r c' Hcc. rewrite !without_iff. split.
    + intros [Hr1 Hr2]. split; [|done]. intros ->. specialize (Hth r eq_refl). congruence.
    + intros [Hr1 Hr2]. split; [|done]. intros ->. destruct (Hon r) as [_ X]; auto. congruence.
  - intros r Hc Hp. destruct (H1 r Hc Hp) as [Ht Hk]. destruct (Hon r) as [X _]; auto.
Qed.

(** Only the processes and the polling array matter. *)
Lemma base_same A G U s s' : base_inv A G U s -> procs s' = procs s -> ts s' = ts s -> base_inv A G U s'.
Proof.
  intros [B1 B2 B3 B4 B5 B6 B7] Q1 Q2. assert (T0 : forall r, th_at s' r = th_at s r) by (intros r; unfold th_at; by rewrite Q1).
  split; auto; unfold npolled; rewrite ?Q1, ?Q2; auto.
  - intros k r. rewrite T0. apply B2.
  - intros r u c'. rewrite T0. apply B3.
  - intros r. rewrite T0. apply B6.
Qed.

Lemma act_same s s' r : procs s' = procs s -> act_core s' r = act_core s r.
Proof. intros Q. unfold act_core, th_at. by rewrite Q. Qed.

Lemma polled_same s s' : polled_inv s -> procs s' = procs s -> polled_inv s'.
Proof. intros H Q r t. unfold th_at. rewrite Q. apply (H r t). Qed.

Section run.
Context (T : topo) (HT : topo_ok T) (U : list tref).
Abbreviation A := (sched_allowed_cores T).

Lemma tid_of_ok s th : (forall r, th = Some r -> is_Some (th_at s r)) -> exists t, tid_of th s = Ok t.
Proof.
  intros H. destruct th as [r|]; [|by exists 0]. destruct (H r eq_refl) as [t Ht].
  unfold tid_of. rewrite (get_thread_ok s r t Ht). by eexists.
Qed.

Lemma act_core_at s r c : act_core s r = Some c -> is_Some (th_at s r).
Proof. unfold act_core. destruct (th_at s r); [eauto|done]. Qed.

(** Dropping what may be on a core. *)
Lemma drop_opt_ok G s th c :
  base_inv A G U s -> polled_inv s -> (forall r, th = Some r -> act_core s r = Some c) ->
  exists s', drop_kthread th s = Ok s' /\ base_inv A G U s' /\ polled_inv s' /\ same_cores s s' /\
    (forall r', act_core s' r' = without th (act_core s) r').
Proof.
  intros H Hp Hth. destruct th as [r|]; [|exists s; by split_and!].
  destruct (drop_kthread_ok A U G s r c H Hp (Hth r eq_refl)) as (s' & ? & ? & ? & ? & ? & _). by exists s'.
Qed.

(** The old thread leaves and core [c] gets the state [x']. *)
Lemma core_switch_ok G s th old keep c x x' :
  base_inv A G U s -> polled_inv s -> cores_inv (cstates s) (without th (act_core s)) ->
  cstates s !! c = Some x -> (forall r, th = Some r -> act_core s r = Some c) ->
  (forall r, cur_th x = Some r \/ pending_th x = Some r <-> old = Some r \/ keep = Some r) ->
  (forall r, old = Some r -> keep <> Some r) ->
  (forall r, cur_th x' = Some r \/ pending_th x' = Some r <-> th = Some r \/ keep = Some r) ->
  (forall r, cur_th x' = Some r -> pending_th x' = Some r -> th = Some r /\ keep = Some r) ->
  (pending_th x' <> None -> pending x' = true) -> (pending x' = true -> wait x' = true) ->
  (idle x' = true -> cur_th x' = None /\ wait x' = false) ->
  exists s', drop_kthread old s = Ok s' /\ base_inv A G U (put_cstate c x' s') /\ polled_inv (put_cstate c x' s') /\
    cores_inv (cstates (put_cstate c x' s')) (act_core (put_cstate c x' s')) /\
    clients s' = clients s /\ (forall p, is_Some (procs s' !! p) <-> is_Some (procs s !! p)).
Proof.
  intros H Hp Hcs Hx Hth Hold Hok Hnew H1 K2 K3 K4.
  destruct (drop_opt_ok G s old c H Hp) as (s1 & E1 & B1 & P1 & C1 & A1).
  { intros r Hr. eapply without_iff, (ci_on _ _ Hcs). exists x. split; [done|]. apply Hold. by left. }
  exists s1. split_and!; [done|by apply (base_same _ _ _ s1)|done| |apply C1|apply C1].
  cbn [cstates put_cstate set_cstates]. rewrite (sc_cores _ _ C1).
  eapply cores_inv_ext; [by eapply (cores_swap (cstates s) (act_core s) th old keep c x x')|]. intros r. apply A1.
Qed.

Lemma sched_run_ok G s th c :
  base_inv A G U s -> polled_inv s -> cores_inv (cstates s) (without th (act_core s)) -> (c < NCPU)%nat ->
  (forall r, th = Some r -> act_core s r = Some c) ->
  exists s', __sched_run th c s = Ok (0, s') /\ base_inv A G U s' /\ polled_inv s' /\
    cores_inv (cstates s') (act_core s') /\ clients s' = clients s /\ (forall p, is_Some (procs s' !! p) <-> is_Some (procs s !! p)).
Proof.
  intros H Hp Hcs Hc Hth. unfold __sched_run, get_cstate.
  destruct (lookup_lt_is_Some_2 (cstates s) c) as [x Hx]; [by rewrite (ci_len _ _ Hcs)|]. rewrite Hx. cbn [mbind res_bind].
  destruct (wait x) eqn:Ew.
  - (* busy: the request waits *)
    set (x' := set_pending true (set_pending_th th x)).
    destruct (core_switch_ok G s th (pending_th x) (cur_th x) c x x') as (s1 & E1 & H1); auto; cbn; try (clear; intuition congruence).
    + intros r Hr Hcur. by eapply (ci_one _ _ Hcs).
    + intros Hi. apply (ci_idle _ _ Hcs c x) in Hi; [|done]. destruct Hi. congruence.
    + rewrite E1. cbn [mbind res_bind]. eexists. split; [reflexivity|]. exact H1.
  - (* the core can switch *)
    set (s0 := if negb (idle x) && _ then ksched_enqueue_intr c s else s).
    assert (Hs0 : procs s0 = procs s /\ ts s0 = ts s /\ cstates s0 = cstates s /\ clients s0 = clients s).
    { unfold s0. by destruct (negb (idle x) && _). }
    clearbody s0. destruct Hs0 as (Q1 & Q2 & Q3 & Q4).
    destruct (tid_of_ok s0 th) as [t Et]. { intros r Hr. apply Hth, act_core_at in Hr. unfold th_at in *. by rewrite Q1. }
    rewrite Et. cbn [mbind res_bind]. set (s1 := ksched_run c t s0).
    assert (Hpf : pending x = false).
    { apply not_true_is_false. intros Hpd. apply (ci_wait _ _ Hcs c x) in Hpd; congruence. }
    assert (Hpn : pending_th x = None).
    { destruct (pending_th x) as [r1|] eqn:E; [|done]. assert (Hpd : pending x = true) by (apply (ci_pend _ _ Hcs c x); congruence). congruence. }
    assert (A1 : forall r, act_core s1 r = act_core s r) by (intros r; by apply act_same).
    set (x' := set_idle false (set_wait true (set_cur_th th x))).
    destruct (core_switch_ok G s1 th (cur_th x) None c x x') as (s2 & E2 & H2 & H3 & H4 & H5 & H6); cbn; rewrite ?Hpn, ?Hpf; auto; try (clear; intuition congruence).
    + by apply (base_same _ _ _ s).
    + by apply (polled_same s).
    + rewrite Q3. eapply cores_inv_ext; [exact Hcs|]. intros r. destruct th; cbn; unfold act_upd; by rewrite ?A1.
    + by rewrite Q3.
    + intros r Hr. rewrite A1. by apply Hth.
    + rewrite E2. cbn [mbind res_bind]. eexists. split; [reflexivity|]. split_and!; auto; [by rewrite <- Q4|].
      intros p. rewrite <- Q1. apply H6.
Qed.

(** ** Giving a core to a process *)

Lemma find_idle_In p c i : find_idle p c = Some i -> i ∈ idle_threads p.
Proof. intros H%head_Some_elem_of%list_elem_of_filter. apply H. Qed.

Lemma pick_idle p c : idle_threads p <> [] -> exists i, sched_pick_kthread T p c = Some i /\ i ∈ idle_threads p.
Proof.
  intros Hne. unfold sched_pick_kthread. destruct (find_idle p c) as [i|] eqn:E1; [exists i; split; [done|by eapply find_idle_In]|].
  destruct (find_idle p (sched_siblings T c)) as [i|] eqn:E2; [exists i; split; [done|by eapply find_idle_In]|].
  destruct (list.last (idle_threads p)) as [i|] eqn:E3; [exists i; split; [done|by apply last_Some_elem_of]|].
  by apply last_None in E3.
Qed.

Definition runs (G : nat -> Z) (s s' : sched) : Prop :=
  sched_inv T G U s' /\ clients s' = clients s /\ (forall p, is_Some (procs s' !! p) <-> is_Some (procs s !! p)).

Lemma sched_run_on_core_ok G s p pr c :
  sched_inv T G U s -> procs s !! p = Some pr -> 0 < G p ->
  exists ret s', sched_run_on_core T p c s = Ok (ret, s') /\ runs G s s' /\
    (ret = 0 \/ ret = - EINVAL /\ s' = s) /\ (idle_threads pr <> [] -> c ∈ A -> ret = 0).
Proof.
  intros Hs Hp HG. assert (Hs' := Hs). destruct Hs' as [Hb Hpl Hcs Hcl Hnd].
  unfold sched_run_on_core, get_proc. rewrite Hp. cbn [mbind res_bind].
  destruct (_ || _ || _) eqn:Eg.
  { exists (- EINVAL), s. split_and!; auto. { by split_and!. } intros Hne Hc. exfalso.
    rewrite !orb_true_iff in Eg. destruct Eg as [[Eg|Eg]|Eg].
    - by apply bool_decide_eq_true in Eg.
    - apply Nat.leb_le in Eg. apply (tk_range T HT) in Hc. lia.
    - by apply bool_decide_eq_true in Eg. }
  apply orb_false_iff in Eg as [[Eg1 Eg2]%orb_false_iff Eg3]. apply bool_decide_eq_false in Eg1, Eg3.
  apply Nat.leb_gt in Eg2. apply dec_stable in Eg3.
  destruct (pick_idle pr c Eg1) as (i & -> & Hi).
  assert (Hr : 0 < ref pr) by (rewrite (bi_ref _ _ _ _ Hb p pr Hp); unfold npolled; lia).
  destruct (proc_get_ok A U G s p pr Hb Hp Hr) as (s1 & -> & B1 & T1 & C1 & P1 & _). cbn [mbind res_bind].
  destruct (sched_enable_ok A U (bump p 1 G) s1 p (set_ref (ref pr + 1) pr) i c B1) as (s2 & -> & B2 & Pl2 & C2 & A2 & _ & Hno); auto.
  { intros r t. rewrite T1. apply Hpl. }
  { rewrite P1, lookup_alter_eq, Hp. done. }
  { unfold bump. rewrite decide_True by done. assert (X := bi_G _ _ _ _ Hb p). lia. }
  cbn [mbind res_bind]. assert (C12 := same_cores_trans _ _ _ C1 C2).
  assert (A1 : forall r, act_core s1 r = act_core s r) by (intros r; unfold act_core; by rewrite T1).
  destruct (sched_run_ok (bump p (-1) (bump p 1 G)) s2 (Some (p, i)) c B2 Pl2) as (s3 & -> & B3 & Pl3 & Cs3 & Cl3 & D3); auto.
  { rewrite (sc_cores _ _ C12). eapply cores_inv_ext; [exact Hcs|]. intros r. cbn. unfold act_upd at 1.
    destruct (decide (r = (p, i))) as [->|Hne]; [by rewrite <- A1|]. rewrite A2. unfold act_upd. by rewrite decide_False. }
  { intros r [= <-]. rewrite A2. unfold act_upd. by rewrite decide_True. }
  exists 0, s3. split_and!; auto. split_and!.
  - split; auto.
    + apply (base_G _ _ (bump p (-1) (bump p 1 G))); [done|]. intros q. rewrite bump_bump. unfold bump. destruct (decide _); lia.
    + rewrite Cl3, (sc_clients _ _ C12). intros q Hq. rewrite D3, (sc_procs _ _ C12). by apply Hcl.
    + by rewrite Cl3, (sc_clients _ _ C12).
  - by rewrite Cl3, (sc_clients _ _ C12).
  - intros q. by rewrite D3, (sc_procs _ _ C12).
Qed.

Lemma sched_idle_on_core_ok G s hint c :
  sched_inv T G U s ->
  exists ret s', sched_idle_on_core T hint c s = Ok (ret, s') /\ runs G s s' /\ (c ∈ A -> ret = 0).
Proof.
  intros Hs. assert (Hs' := Hs). destruct Hs' as [Hb Hpl Hcs Hcl Hnd]. unfold sched_idle_on_core.
  destruct (_ || _) eqn:Eg.
  { exists (- EINVAL), s. split_and!; auto. { by split_and!. } intros Hc. exfalso. apply orb_true_iff in Eg as [Eg|Eg].
    - apply Nat.leb_le in Eg. apply (tk_range T HT) in Hc. lia.
    - by apply bool_decide_eq_true in Eg. }
  apply orb_false_iff in Eg as [Eg2 _]. apply Nat.leb_gt in Eg2. set (s0 := log_ev _ s).
  destruct (sched_run_ok G s0 None c) as (s3 & -> & B3 & Pl3 & Cs3 & Cl3 & D3); [by apply (base_same _ _ _ s)|done|done|done|done|].
  exists 0, s3. split_and!; auto. split_and!; auto. split; auto; rewrite Cl3; auto. intros q Hq. rewrite D3. by apply Hcl.
Qed.
End run.
