(* ===== verification/IokInit.v ===== *)
(** * iokernel/sched.c, [sched_init]: which cores the scheduler may use

    The table of the CPUs is what base/cpu.c read from the system: for each CPU its
    package and the mask of the hyperthreads of its core.  Bitmaps are finite sets. *)

From S2P Require Import Prelude Stddef Lrpc IokState IokSched IokInv IokBase IokCores.

Record cpu_info := CpuInfo { thread_siblings_mask : gset nat; package : nat }.

(** What the command line chose. *)
Record init_cfg := InitCfg {
  noht : bool;
  allowed_cores_supplied : bool;
  input_allowed_cores : gset nat;
  numa_policy : bool;
}.

(** The variables [sched_init] sets. *)
Record sched_conf := SchedConf {
  conf_topo : topo;
  socket_cores : list (gset nat);
  sched_dp_core : nat;
  sched_ctrl_core : nat;
  sched_linux_core : nat;
}.

Definition find_next_set (bits : gset nat) (pos : nat) : nat :=
  default NCPU (list.head (filter (fun c => c ∈ bits) (seq pos (NCPU - pos)))).

Definition sibling_of (i : nat) (info : cpu_info) : nat :=
  let sib := find_next_set (thread_siblings_mask info) 0 in
  if (sib =? i)%nat then find_next_set (thread_siblings_mask info) (sib + 1) else sib.

Definition arr_set (i v : nat) (a : nat -> nat) (c : nat) : nat := if (c =? i)%nat then v else a c.

(** The CPUs from [i] on: the siblings, the cores of the node, and the result. *)
Fixpoint sched_scan_node (node : nat) (l : list cpu_info) (i : nat) (sibs : nat -> nat) (cores : gset nat) (ret : Z)
  : (nat -> nat) * gset nat * Z :=
  match l with
  | [] => (sibs, cores, ret)
  | info :: l =>
      if negb (package info =? node)%nat then sched_scan_node node l (S i) sibs cores ret
      else
        sched_scan_node node l (S i) (arr_set i (sibling_of i info) sibs) ({[i]} ∪ cores)
          (if negb (size (thread_siblings_mask info) =? 2)%nat then - EINVAL else ret)
  end.

Definition scan_step (cpus : list cpu_info) (st : (nat -> nat) * list (gset nat) * bool) (node : nat)
  : (nat -> nat) * list (gset nat) * bool :=
  let '(sibs, socks, valid) := st in
  let '(sibs, cores, ret) := sched_scan_node node cpus 0 sibs ∅ 0 in
  (sibs, socks ++ [cores], valid && (ret =? 0)).

(** Second pass: the CPUs that are available. *)
Definition cpu_allowed (cfg : init_cfg) (i : nat) (info : cpu_info) : bool :=
  if negb (package info =? 0)%nat && negb (numa_policy cfg) then false
  else if allowed_cores_supplied cfg && negb (bool_decide (i ∈ input_allowed_cores cfg)) then false
  else true.

Definition avail_cores (cfg : init_cfg) (cpus : list cpu_info) : gset nat :=
  list_to_set (filter (fun i => match cpus !! i with Some info => cpu_allowed cfg i info | None => false end = true)
    (seq 0 (length cpus))).

(** [cfg.noht]: of each pair of hyperthreads the first stays. *)
Definition drop_step (sibs : nat -> nat) (bits : gset nat) (i : nat) : gset nat :=
  if bool_decide (i ∈ bits) then bits ∖ {[sibs i]} else bits.

Definition drop_siblings (sibs : nat -> nat) (bits : gset nat) : gset nat := foldl (drop_step sibs) bits (seq 0 NCPU).

Definition siblings_tbl_step (sibs : nat -> nat) (tbl : list nat) (i : nat) : list nat :=
  if existsb (fun s => (sibs s =? i)%nat) tbl then tbl else tbl ++ [i].

Definition sched_init (cfg : init_cfg) (cpus : list cpu_info) (numa_count : nat) : Z + sched_conf :=
  let '(sibs, socks, valid) := foldl (scan_step cpus) (fun _ => 0%nat, [], true) (seq 0 numa_count) in
  if negb valid then inl (- EINVAL)
  else
    let bits := avail_cores cfg cpus in
    if (size bits <? 4)%nat then inl (- EINVAL)
    else
      let i := find_next_set bits 0 in
      let sib := sibs i in
      let bits := bits ∖ {[i]} ∖ {[sib]} in
      let bits := if noht cfg then drop_siblings sibs bits else bits in
      let tbl := filter (fun c => c ∈ bits) (seq 0 NCPU) in
      inr (SchedConf (Topo bits sibs tbl (foldl (siblings_tbl_step sibs) [] tbl)) socks i sib sib).

(** ** Lemmas *)

Lemma head_filter_seq (bits : gset nat) n : forall pos,
  match list.head (filter (fun c => c ∈ bits) (seq pos n)) with
  | Some c => c ∈ bits /\ (pos <= c < pos + n)%nat /\ forall c', c' ∈ bits -> (pos <= c')%nat -> (c <= c')%nat
  | None => forall c', c' ∈ bits -> ~ (pos <= c' < pos + n)%nat
  end.
Proof.
  induction n as [|n IH]; intros pos; cbn [seq].
  - rewrite filter_nil. cbn [list.head]. intros c' _. lia.
  - rewrite filter_cons. destruct (decide (pos ∈ bits)) as [Hi|Hi]; cbn [list.head]; [split_and!; [done|lia|lia|done]|].
    specialize (IH (S pos)). assert (Hne : forall c', c' ∈ bits -> c' <> pos) by (intros c' Hc' ->; done).
    destruct (list.head _) as [c|].
    + destruct IH as (H1 & H2 & H3). split_and!; [done|lia|lia|]. intros c' Hc' Hp. specialize (Hne c' Hc'). apply H3; [done|lia].
    + intros c' Hc' Hr. specialize (Hne c' Hc'). apply (IH c' Hc'). lia.
Qed.

Lemma find_next_set_ok bits pos :
  (exists c, c ∈ bits /\ (pos <= c < NCPU)%nat) ->
  find_next_set bits pos ∈ bits /\ (pos <= find_next_set bits pos < NCPU)%nat /\
  forall c, c ∈ bits -> (pos <= c)%nat -> (find_next_set bits pos <= c)%nat.
Proof.
  intros (c0 & Hc0 & Hp0). unfold find_next_set. assert (H := head_filter_seq bits (NCPU - pos) pos).
  destruct (list.head _) as [c|]; cbn.
  - destruct H as (H1 & H2 & H3). split_and!; [done|lia|lia|done].
  - exfalso. apply (H c0 Hc0). lia.
Qed.

(** The other hyperthread of the core. *)
Lemma sibling_of_ok i info :
  (forall c, c ∈ thread_siblings_mask info -> (c < NCPU)%nat) -> size (thread_siblings_mask info) = 2%nat ->
  sibling_of i info ∈ thread_siblings_mask info /\ sibling_of i info <> i.
Proof.
  intros Hm Hs. unfold sibling_of. set (M := thread_siblings_mask info) in *.
  assert (Hne : exists c, c ∈ M). { destruct (set_choose_or_empty M) as [[c Hc]|He]; [by exists c|]. apply size_empty_iff in He. lia. }
  destruct Hne as [c0 Hc0]. destruct (find_next_set_ok M 0) as (H1 & H2 & H3); [exists c0; split; [done|]; specialize (Hm c0 Hc0); lia|].
  set (a := find_next_set M 0) in *. destruct (Nat.eqb_spec a i) as [->|Hai]; [|done].
  assert (Hother : exists c, c ∈ M /\ c <> i).
  { destruct (set_choose_or_empty (M ∖ {[i]})) as [[c Hc]|He]; [exists c; set_solver|].
    apply size_empty_iff in He. rewrite size_difference in He by set_solver. rewrite size_singleton in He. lia. }
  destruct Hother as (c & Hc & Hci). specialize (H3 c Hc ltac:(lia)). specialize (Hm c Hc).
  destruct (find_next_set_ok M (i + 1)) as (K1 & K2 & _); [exists c; split; [done|lia]|]. split; [done|lia].
Qed.

Definition scanned (node : nat) (l : list cpu_info) (i c : nat) : option cpu_info :=
  if (i <=? c)%nat then
    match l !! (c - i)%nat with Some info => if (package info =? node)%nat then Some info else None | None => None end
  else None.

Lemma scanned_cons node info l i c :
  scanned node (info :: l) i c =
  if (c =? i)%nat then (if (package info =? node)%nat then Some info else None) else scanned node l (S i) c.
Proof.
  unfold scanned. destruct (Nat.eqb_spec c i) as [->|Hne].
  - rewrite Nat.leb_refl, Nat.sub_diag. done.
  - destruct (Nat.leb_spec i c), (Nat.leb_spec (S i) c); try lia; [|done]. by replace (c - i)%nat with (S (c - S i)) by lia.
Qed.

Lemma scan_node_spec node l : forall i sibs cores ret,
  let '(sibs', cores', ret') := sched_scan_node node l i sibs cores ret in
  (forall c, sibs' c = match scanned node l i c with Some info => sibling_of c info | None => sibs c end) /\
  (forall c, c ∈ cores' <-> c ∈ cores \/ is_Some (scanned node l i c)) /\
  (ret' = 0 <-> ret = 0 /\ forall c info, scanned node l i c = Some info -> size (thread_siblings_mask info) = 2%nat).
Proof.
  induction l as [|info l IH]; intros i sibs cores ret; cbn [sched_scan_node].
  - assert (Hn : forall c, scanned node [] i c = None) by (intros c; unfold scanned; by destruct (_ <=? _)%nat).
    split_and!; [intros c; by rewrite Hn| |split; [intros ->; split; [done|]|by intros [? _]]].
    + intros c. rewrite Hn. split; [auto|]. by intros [?|[? ?]].
    + intros c info. by rewrite Hn.
  - assert (Hlt : scanned node l (S i) i = None) by (unfold scanned; by rewrite (proj2 (Nat.leb_gt (S i) i) ltac:(lia))).
    destruct (Nat.eqb_spec (package info) node) as [Hp|Hp]; cbn [negb].
    + specialize (IH (S i) (arr_set i (sibling_of i info) sibs) ({[i]} ∪ cores)
        (if negb (size (thread_siblings_mask info) =? 2)%nat then - EINVAL else ret)).
      destruct (sched_scan_node _ _ _ _ _ _) as [[sibs' cores'] ret']. destruct IH as (H1 & H2 & H3).
      assert (Hc : forall c, scanned node (info :: l) i c = if (c =? i)%nat then Some info else scanned node l (S i) c).
      { intros c. rewrite scanned_cons. by rewrite (proj2 (Nat.eqb_eq _ _) Hp). }
      split_and!.
      * intros c. rewrite H1, Hc. unfold arr_set. destruct (Nat.eqb_spec c i) as [->|]; [by rewrite Hlt|done].
      * intros c. rewrite H2, Hc, elem_of_union, elem_of_singleton. destruct (Nat.eqb_spec c i) as [->|]; [|tauto].
        split; [eauto|]. auto.
      * rewrite H3. destruct (Nat.eqb_spec (size (thread_siblings_mask info)) 2) as [Es|Es]; cbn [negb].
        -- split; intros [K1 K2]; (split; [done|]); intros c inf Hs; [rewrite Hc in Hs|].
           ++ destruct (c =? i)%nat; [congruence|by eapply K2].
           ++ apply (K2 c). rewrite Hc. destruct (Nat.eqb_spec c i) as [->|]; [congruence|done].
        -- split; [by intros [? _]|]. intros [_ K2]. exfalso. apply Es, (K2 i). by rewrite Hc, Nat.eqb_refl.
    + specialize (IH (S i) sibs cores ret). destruct (sched_scan_node _ _ _ _ _ _) as [[sibs' cores'] ret'].
      assert (Hc : forall c, scanned node (info :: l) i c = scanned node l (S i) c).
      { intros c. rewrite scanned_cons, (proj2 (Nat.eqb_neq _ _) Hp). destruct (Nat.eqb_spec c i) as [->|]; [by rewrite Hlt|done]. }
      destruct IH as (H1 & H2 & H3). split_and!.
      * intros c. by rewrite Hc.
      * intros c. by rewrite Hc.
      * rewrite H3. split; intros [K1 K2]; (split; [done|]); intros c inf; [rewrite Hc|rewrite <- Hc]; apply K2.
Qed.

Definition in_nodes (ns : list nat) (cpus : list cpu_info) (c : nat) : option cpu_info :=
  match cpus !! c with Some info => if decide (package info ∈ ns) then Some info else None | None => None end.

Lemma scan_nodes_spec cpus ns : forall sibs socks valid,
  let '(sibs', socks', valid') := foldl (scan_step cpus) (sibs, socks, valid) ns in
  (forall c, sibs' c = match in_nodes ns cpus c with Some info => sibling_of c info | None => sibs c end) /\
  (valid' = true <-> valid = true /\ forall c info, in_nodes ns cpus c = Some info -> size (thread_siblings_mask info) = 2%nat).
Proof.
  induction ns as [|n ns IH]; intros sibs socks valid; cbn [foldl].
  - assert (Hn : forall c, in_nodes [] cpus c = None).
    { intros c. unfold in_nodes. destruct (cpus !! c) as [info|]; [|done]. rewrite decide_False; [done|]. by intros ?%elem_of_nil. }
    split; [intros c; by rewrite Hn|]. split; [|tauto]. intros ->. split; [done|]. intros c info. by rewrite Hn.
  - assert (Hs := scan_node_spec n cpus 0 sibs ∅ 0). unfold scan_step at 2.
    destruct (sched_scan_node n cpus 0 sibs ∅ 0) as [[sibs1 cores1] ret1]. destruct Hs as (S1 & _ & S3).
    specialize (IH sibs1 (socks ++ [cores1]) (valid && (ret1 =? 0))). destruct (foldl _ _ _) as [[sibs' socks'] valid'].
    destruct IH as (I1 & I2).
    assert (Hsc : forall c, scanned n cpus 0 c = match cpus !! c with Some info => if (package info =? n)%nat then Some info else None | None => None end).
    { intros c. unfold scanned. cbn. by rewrite Nat.sub_0_r. }
    split.
    + intros c. rewrite I1, S1, Hsc. unfold in_nodes. destruct (cpus !! c) as [info|]; [|done].
      destruct (Nat.eqb_spec (package info) n) as [<-|Hne].
      * rewrite (decide_True (P := package info ∈ package info :: ns)) by (by left). by destruct (decide _).
      * assert (Hiff : package info ∈ n :: ns <-> package info ∈ ns) by (rewrite elem_of_cons; tauto).
        destruct (decide (package info ∈ ns)), (decide (package info ∈ n :: ns)); tauto.
    + rewrite I2, andb_true_iff, Z.eqb_eq, S3. split.
      * intros ((Hv & _ & Hn) & Hr). split; [done|]. intros c info. unfold in_nodes. destruct (cpus !! c) as [inf|] eqn:Ec; [|done].
        case_decide as Hd; [|done]. intros [= <-]. apply elem_of_cons in Hd as [Hd|Hd].
        -- apply (Hn c). by rewrite Hsc, Ec, (proj2 (Nat.eqb_eq _ _) Hd).
        -- apply (Hr c). unfold in_nodes. by rewrite Ec, decide_True.
      * intros (Hv & Hn). split_and!; auto; intros c info.
        -- rewrite Hsc. destruct (cpus !! c) as [inf|] eqn:Ec; [|done]. destruct (Nat.eqb_spec (package inf) n) as [Hd|]; [|done].
           intros [= <-]. apply (Hn c). unfold in_nodes. rewrite Ec, decide_True; [done|]. rewrite Hd. by left.
        -- unfold in_nodes. destruct (cpus !! c) as [inf|] eqn:Ec; [|done]. case_decide; [|done]. intros [= <-].
           apply (Hn c). unfold in_nodes. rewrite Ec, decide_True; [done|]. by right.
Qed.

Lemma avail_cores_spec cfg cpus c :
  c ∈ avail_cores cfg cpus <-> exists info, cpus !! c = Some info /\ cpu_allowed cfg c info = true.
Proof.
  unfold avail_cores. rewrite elem_of_list_to_set, list_elem_of_filter, elem_of_seq. split.
  - intros [H _]. destruct (cpus !! c) as [info|]; [by exists info|done].
  - intros (info & Hc & Ha). rewrite Hc. split; [done|]. apply lookup_lt_Some in Hc. lia.
Qed.

Lemma drop_fold_sub sibs l : forall bits,
  foldl (drop_step sibs) bits l ⊆ bits.
Proof.
  induction l as [|i l IH]; intros bits; cbn [foldl]; [done|]. etrans; [apply IH|]. unfold drop_step. case_bool_decide; set_solver.
Qed.

(** Of two hyperthreads at most one is left. *)
Lemma drop_fold_spec sibs l : forall bits c,
  c ∈ foldl (drop_step sibs) bits l -> c ∈ l ->
  sibs (sibs c) = c -> sibs c <> c ->
  sibs c ∉ foldl (drop_step sibs) bits l.
Proof.
  induction l as [|i l IH]; intros bits c Hc Hl Hinv Hne; cbn [foldl] in *; [by apply elem_of_nil in Hl|].
  apply elem_of_cons in Hl as [<-|Hl]; [|by apply IH]. set (B := drop_step sibs bits c) in *.
  assert (Hsub := drop_fold_sub sibs l B). intros Hin. apply Hsub in Hin, Hc. unfold B, drop_step in Hin, Hc. case_bool_decide; set_solver.
Qed.

Lemma drop_siblings_sub sibs bits : drop_siblings sibs bits ⊆ bits.
Proof. apply drop_fold_sub. Qed.

Lemma drop_siblings_spec sibs bits c :
  c ∈ drop_siblings sibs bits -> (c < NCPU)%nat -> sibs (sibs c) = c -> sibs c <> c -> sibs c ∉ drop_siblings sibs bits.
Proof.
  unfold drop_siblings. intros Hc Hl. assert (Hs : c ∈ seq 0 NCPU) by (apply elem_of_seq; lia).
  revert Hc Hs. generalize (seq 0 NCPU). intros l. by apply drop_fold_spec.
Qed.

Lemma siblings_fold_spec sibs l : forall tbl,
  let tbl' := foldl (siblings_tbl_step sibs) tbl l in
  (forall c, c ∈ tbl -> c ∈ tbl') /\ (forall c, c ∈ tbl' -> c ∈ tbl \/ c ∈ l) /\
  (forall c, c ∈ l -> c ∈ tbl' \/ exists s, s ∈ tbl' /\ sibs s = c) /\
  (NoDup (tbl ++ l) -> NoDup tbl' /\
   ((forall a b, a ∈ tbl -> b ∈ tbl -> sibs a = b -> a = b) -> (forall a, a ∈ tbl ++ l -> sibs (sibs a) = a) ->
    (forall a, a ∈ tbl ++ l -> sibs a <> a) -> forall a, a ∈ tbl' -> sibs a ∉ tbl')).
Proof.
  induction l as [|i l IH]; intros tbl; cbn [foldl].
  - split_and!; auto; [by intros c ?%elem_of_nil|]. rewrite app_nil_r. intros Hnd. split; [done|].
    intros H1 _ H3 a Ha Hb. apply (H3 a Ha). symmetry. by apply H1.
  - specialize (IH (siblings_tbl_step sibs tbl i)). destruct IH as (I1 & I2 & I3 & I4).
    unfold siblings_tbl_step in *. destruct (existsb _ tbl) eqn:Ex.
    + apply existsb_exists in Ex as (s & Hs & Es). apply list_elem_of_In in Hs. apply Nat.eqb_eq in Es.
      split_and!; auto.
      * intros c Hc. apply I2 in Hc as [?|?]; [by left|right; by right].
      * intros c [->|Hc]%elem_of_cons; [right; exists s; auto|by apply I3].
      * intros Hnd. assert (Hnd' : NoDup (tbl ++ l)).
        { apply list.NoDup_app in Hnd as (N1 & N2 & N3). apply list.NoDup_cons in N3 as [_ N3]. apply list.NoDup_app. split_and!; auto.
          intros x Hx Hl. apply (N2 x Hx). by right. }
        destruct (I4 Hnd') as [J1 J2]. split; [done|]. intros H1 H2 H3. apply J2; auto; intros a Ha; [apply H2|apply H3]; set_solver.
    + split_and!.
      * intros c Hc. apply I1, elem_of_app. by left.
      * intros c Hc. apply I2 in Hc as [Hc|?]; [|right; by right].
        apply elem_of_app in Hc as [?| ->%list_elem_of_singleton]; [by left|right; by left].
      * intros c [->|Hc]%elem_of_cons; [left; apply I1, elem_of_app; right; by apply list_elem_of_singleton|by apply I3].
      * intros Hnd. assert (Happ : (tbl ++ [i]) ++ l = tbl ++ i :: l) by (by rewrite <- app_assoc). rewrite Happ in I4.
        destruct (I4 Hnd) as [J1 J2]. split; [done|]. intros H1 H2 H3. apply J2; auto.
        assert (Hno : forall s, s ∈ tbl -> sibs s <> i).
        { intros s Hs Es. apply not_true_iff_false in Ex. apply Ex, existsb_exists. exists s. split; [by apply list_elem_of_In|by apply Nat.eqb_eq]. }
        intros a b [Ha| ->%list_elem_of_singleton]%elem_of_app [Hb| ->%list_elem_of_singleton]%elem_of_app Hab; auto.
        -- by apply Hno in Hab.
        -- exfalso. apply (Hno b Hb). rewrite <- Hab. apply H2. apply elem_of_app. right. by left.
Qed.

(** The table of the CPUs as the system reports it: every CPU is a hyperthread of its
    own core, those of one core have the same mask and package, and the packages are
    numbered below [numa_count]. *)
Record cpus_ok (cpus : list cpu_info) (numa_count : nat) : Prop := {
  ck_len : (length cpus <= NCPU)%nat;
  ck_self : forall i info, cpus !! i = Some info -> i ∈ thread_siblings_mask info /\ (package info < numa_count)%nat;
  ck_mask : forall i info j, cpus !! i = Some info -> j ∈ thread_siblings_mask info ->
    exists info', cpus !! j = Some info' /\ thread_siblings_mask info' = thread_siblings_mask info /\ package info' = package info;
}.

Lemma size_two (M : gset nat) a b c : size M = 2%nat -> a ∈ M -> b ∈ M -> a <> b -> c ∈ M -> c = a \/ c = b.
Proof.
  intros Hs Ha Hb Hab Hc. destruct (decide (c = a)); [auto|]. destruct (decide (c = b)); [auto|]. exfalso.
  assert (Hsub : ({[a; b; c]} : gset nat) ⊆ M) by set_solver. apply subseteq_size in Hsub.
  rewrite !size_union in Hsub by set_solver. rewrite !size_singleton in Hsub. lia.
Qed.

(** The hyperthreads of a scanned machine come in pairs. *)
Lemma sibling_pair cpus n i info :
  cpus_ok cpus n -> cpus !! i = Some info -> size (thread_siblings_mask info) = 2%nat ->
  let j := sibling_of i info in
  j <> i /\ (j < NCPU)%nat /\ exists info', cpus !! j = Some info' /\ package info' = package info /\ sibling_of j info' = i.
Proof.
  intros [H1 H2 H3] Hi Hs j.
  assert (Hlt : forall c, c ∈ thread_siblings_mask info -> (c < NCPU)%nat).
  { intros c Hc. destruct (H3 _ _ _ Hi Hc) as (info' & Hc' & _). apply lookup_lt_Some in Hc'. lia. }
  destruct (sibling_of_ok i info Hlt Hs) as [Hj Hne]. fold j in Hj, Hne. split_and!; [done|by apply Hlt|].
  destruct (H3 _ _ _ Hi Hj) as (info' & Hj' & Em & Ep). exists info'. split_and!; auto.
  destruct (sibling_of_ok j info') as [Hk Hk']; [by rewrite Em|by rewrite Em|]. rewrite Em in Hk.
  destruct (size_two _ i j _ Hs (proj1 (H2 _ _ Hi)) Hj ltac:(congruence) Hk); [done|by apply Hk' in H].
Qed.

(** What is known of the siblings after a successful scan. *)
Definition pairs (cpus : list cpu_info) (sibs : nat -> nat) : Prop :=
  (forall c, (c < length cpus)%nat -> sibs c <> c /\ (sibs c < length cpus)%nat /\ sibs (sibs c) = c) /\
  (forall c, (sibs c < NCPU)%nat).

Lemma scan_ok cpus n : cpus_ok cpus n ->
  let '(sibs, _, valid) := foldl (scan_step cpus) (fun _ => 0%nat, [], true) (seq 0 n) in
  if (valid : bool) then pairs cpus sibs
  else exists i info, cpus !! i = Some info /\ size (thread_siblings_mask info) <> 2%nat.
Proof.
  intros Hok. assert (Hsc := scan_nodes_spec cpus (seq 0 n) (fun _ => 0%nat) [] true).
  destruct (foldl _ _ _) as [[sibs socks] valid]. destruct Hsc as [Hsib Hval].
  assert (Hin : forall c info, cpus !! c = Some info -> in_nodes (seq 0 n) cpus c = Some info).
  { intros c info Hc. unfold in_nodes. rewrite Hc, decide_True; [done|]. apply elem_of_seq. apply (ck_self _ _ Hok) in Hc. lia. }
  assert (Hsz : forall c info, in_nodes (seq 0 n) cpus c = Some info -> cpus !! c = Some info).
  { intros c info. unfold in_nodes. destruct (cpus !! c); [|done]. case_decide; [|done]. by intros [= ->]. }
  destruct valid.
  - destruct (proj1 Hval eq_refl) as [_ Hall].
    assert (Hat : forall c info, cpus !! c = Some info -> sibs c = sibling_of c info) by (intros c info Hc; by rewrite Hsib, (Hin _ _ Hc)).
    split.
    + intros c Hc. apply lookup_lt_is_Some_2 in Hc as [info Hc]. rewrite (Hat _ _ Hc).
      destruct (sibling_pair cpus n c info Hok Hc (Hall _ _ (Hin _ _ Hc))) as (K1 & K2 & info' & K3 & _ & K4).
      split_and!; [done|by eapply lookup_lt_Some|by rewrite (Hat _ _ K3)].
    + intros c. rewrite Hsib. destruct (in_nodes _ _ c) as [info|] eqn:E; [|unfold NCPU; lia].
      by destruct (sibling_pair cpus n c info Hok (Hsz _ _ E) (Hall _ _ E)) as (_ & K2 & _).
  - destruct (decide (Forall (fun info => size (thread_siblings_mask info) = 2%nat) cpus)) as [Hf|Hf].
    + assert (X : false = true); [|done]. apply Hval. split; [done|]. intros c info Hc%Hsz. rewrite Forall_forall in Hf.
      apply Hf, list_elem_of_In. by eapply list_elem_of_lookup_2.
    + apply not_Forall_Exists in Hf; [|intros x; unfold compose; apply _]. apply list.Exists_exists in Hf as (info & [i Hi]%list_elem_of_lookup_1 & Hf). by exists i, info.
Qed.

(** [sched_init] sets up what the scheduler relies on, or refuses.  It fails
    exactly when some CPU has not two hyperthreads or fewer than four CPUs are
    available.  Otherwise the cores it allows are the available ones without the one
    reserved for the dataplane and its hyperthread (and, with noht, without the second
    hyperthread of each core); the table of cores lists exactly these, once each; the
    siblings are in range and pair the CPUs; the table of siblings has exactly one
    hyperthread of each pair. *)
Theorem sched_init_ok cfg cpus n : cpus_ok cpus n ->
  match sched_init cfg cpus n with
  | inl e => e = - EINVAL /\
      ((exists i info, cpus !! i = Some info /\ size (thread_siblings_mask info) <> 2%nat) \/ (size (avail_cores cfg cpus) < 4)%nat)
  | inr o =>
      let T := conf_topo o in let sib := sched_siblings T in
      topo_ok T /\ sched_dp_core o ∈ avail_cores cfg cpus /\ sched_ctrl_core o = sib (sched_dp_core o) /\
      (forall c, c ∈ sched_allowed_cores T -> c ∈ avail_cores cfg cpus /\ c <> sched_dp_core o /\ c <> sched_ctrl_core o) /\
      (forall c, (c < length cpus)%nat -> sib c <> c /\ (sib c < length cpus)%nat /\ sib (sib c) = c) /\
      (noht cfg = false -> forall c, c ∈ avail_cores cfg cpus -> c <> sched_dp_core o -> c <> sched_ctrl_core o -> c ∈ sched_allowed_cores T) /\
      (noht cfg = true -> forall c, c ∈ sched_allowed_cores T -> sib c ∉ sched_allowed_cores T) /\
      NoDup (sched_siblings_tbl T) /\ (forall c, c ∈ sched_siblings_tbl T -> c ∈ sched_allowed_cores T /\ sib c ∉ sched_siblings_tbl T) /\
      (forall c, c ∈ sched_allowed_cores T -> c ∈ sched_siblings_tbl T \/ sib c ∈ sched_siblings_tbl T)
  end.
Proof.
  intros Hok. unfold sched_init. assert (Hsc := scan_ok cpus n Hok).
  destruct (foldl _ _ _) as [[sibs socks] valid]. destruct valid; cbn [negb]; [|auto].
  set (av := avail_cores cfg cpus). destruct (Nat.ltb_spec (size av) 4) as [Hsz|Hsz]; [auto|].
  destruct Hsc as [Hpair Hlt]. set (dp := find_next_set av 0). set (b0 := av ∖ {[dp]} ∖ {[sibs dp]}).
  set (bits := if noht cfg then _ else _). set (tbl := filter _ (seq 0 NCPU)). cbv zeta.
  cbn [conf_topo sched_siblings sched_allowed_cores sched_cores_tbl sched_siblings_tbl sched_dp_core sched_ctrl_core].
  assert (Hav : forall c, c ∈ av -> (c < length cpus)%nat).
  { intros c Hc. apply avail_cores_spec in Hc as (info & Hc & _). by eapply lookup_lt_Some. }
  assert (Hb : forall c, c ∈ bits -> c ∈ b0) by (unfold bits; destruct (noht cfg); [apply drop_siblings_sub|done]).
  assert (Hb' : forall c, c ∈ bits -> (c < length cpus)%nat) by (intros c Hc%Hb; apply Hav; set_solver).
  assert (Hl := ck_len _ _ Hok).
  assert (Htbl : forall c, c ∈ tbl <-> c ∈ bits).
  { intros c. unfold tbl. rewrite list_elem_of_filter, elem_of_seq. split; [tauto|]. intros Hc. specialize (Hb' c Hc). split; [done|]. lia. }
  assert (Hnd : NoDup tbl) by (apply list.NoDup_filter, NoDup_seq).
  destruct (siblings_fold_spec sibs tbl []) as (_ & F2 & F3 & F4). destruct (F4 Hnd) as [F5 F6].
  split_and!; auto.
  - split; cbn [sched_siblings sched_allowed_cores sched_cores_tbl]; [|exact Htbl|exact Hnd|intros c _; apply Hlt].
    intros c Hc. specialize (Hb' c Hc). lia.
  - destruct (find_next_set_ok av 0) as [H _]; [|done]. destruct (set_choose_or_empty av) as [[c Hc]|He]; [|apply size_empty_iff in He; lia].
    exists c. split; [done|]. specialize (Hav c Hc). lia.
  - intros c Hc%Hb. set_solver.
  - intros Hn c Hc H1 H2. unfold bits. rewrite Hn. set_solver.
  - intros Hn c Hc. assert (Hc' := Hb' c Hc). unfold bits in *. rewrite Hn in *. destruct (Hpair c Hc') as (P1 & P2 & P3).
    apply drop_siblings_spec; [exact Hc|lia|exact P3|exact P1].
  - intros c Hc. split; [apply Htbl; by destruct (F2 c Hc) as [?%elem_of_nil|?]|].
    apply F6; auto; [by intros a b ?%elem_of_nil|..]; cbn [app]; intros a Ha%Htbl; by apply Hpair, Hb'.
  - intros c Hc. destruct (F3 c) as [?|(s & Hs & Es)]; [by apply Htbl|by left|right]. rewrite <- Es.
    assert (Hst : s ∈ tbl) by (by destruct (F2 s Hs) as [?%elem_of_nil|?]). apply Htbl, Hb', Hpair in Hst as (_ & _ & ->). done.
Qed.

(** Eight CPUs on four cores, with and without hyperthreads. *)
Definition wit_cpus : list cpu_info :=
  map (fun i => CpuInfo {[i mod 4; i mod 4 + 4]}%nat 0) (seq 0 8).

Lemma sched_init_ok_witness :
  exists o, sched_init (InitCfg true false ∅ false) wit_cpus 1 = inr o /\ topo_ok (conf_topo o) /\
    sched_dp_core o = 0%nat /\ sched_ctrl_core o = 4%nat /\ sched_cores_tbl (conf_topo o) = [1; 2; 3]%nat.
Proof.
  assert (Hok : cpus_ok wit_cpus 1).
  { assert (Hl : forall i info, wit_cpus !! i = Some info -> (i < 8)%nat /\ info = CpuInfo {[i mod 4; i mod 4 + 4]}%nat 0).
    { intros i info. unfold wit_cpus. rewrite list_lookup_fmap. intros (j & Hj & ->)%fmap_Some. apply lookup_seq in Hj as [-> ?]. done. }
    assert (Hm : forall i, (i < 8)%nat -> i = (i mod 4)%nat \/ i = (i mod 4 + 4)%nat).
    { intros i Hi. do 8 (destruct i as [|i]; [cbn; lia|]). lia. }
    split; [unfold NCPU; cbn; lia|..].
    - intros i info [Hi ->]%Hl. cbn. specialize (Hm i Hi). split; [set_solver|lia].
    - intros i info j [Hi ->]%Hl Hj. cbn [thread_siblings_mask] in Hj. apply elem_of_union in Hj.
      rewrite !elem_of_singleton in Hj. assert (Hj8 : (j < 8)%nat /\ (j mod 4 = i mod 4)%nat).
      { clear Hm. do 8 (destruct i as [|i]; [cbn in Hj; destruct Hj as [-> | ->]; cbn; lia|]). lia. }
      destruct Hj8 as [Hj8 Ej]. exists (CpuInfo {[j mod 4; j mod 4 + 4]}%nat 0). split_and!; [|cbn [thread_siblings_mask]; by rewrite Ej|done].
      unfold wit_cpus. by rewrite list_lookup_fmap, lookup_seq_lt. }
  assert (H := sched_init_ok (InitCfg true false ∅ false) wit_cpus 1 Hok).
  destruct (sched_init _ _ _) as [e|o] eqn:E; [vm_compute in E; congruence|].
  exists o. destruct H as [H _]. split; [reflexivity|]. split; [exact H|].
  vm_compute in E. injection E as <-. split_and!; reflexivity.
Defined.
