(* ===== verification/IokPoll.v ===== *)
(** * The scheduler's poll loop over a policy

    What a policy promises to the scheduler, and that the poll loop and the arrival
    and departure of processes keep the invariant with any policy that does. *)

From S2P Require Import Prelude Stddef Lrpc IokState IokSched IokInv IokBase IokCores.

(** ** Reading the queues *)

(** The thread but for what the queue scans keep in it. *)
Definition teq (t t' : thread) : Prop :=
  active t' = active t /\ core t' = core t /\ at_idx t' = at_idx t /\ ts_idx t' = ts_idx t /\ tid t' = tid t.

Lemma teq_trans t1 t2 t3 : teq t1 t2 -> teq t2 t3 -> teq t1 t3.
Proof. unfold teq. intuition congruence. Qed.

Lemma scan_teq f i l0 l : (forall t, teq t (f t).2) -> Forall2 teq l0 l -> Forall2 teq l0 (scan f i l).2.
Proof.
  intros Hf Hl. revert i. induction Hl as [|t0 t l0 l Ht Hl IH]; intros i; cbn; [constructor|].
  specialize (Hf t). destruct (f t) as [b t']. specialize (IH (S i)). destruct (scan f (S i) l) as [bits l'].
  constructor; [by eapply teq_trans|done].
Qed.

Lemma teq_refl_list l : Forall2 teq l l.
Proof. induction l; by constructor. Qed.

Lemma detect_congestion_teq cyc now p :
  exists l, (detect_congestion cyc now p).2 = set_threads l p /\ Forall2 teq (threads p) l.
Proof.
  unfold detect_congestion.
  assert (H0 := scan_teq scan_rq 0 _ (threads p) ltac:(done) (teq_refl_list _)). destruct (scan scan_rq 0 _) as [b0 l0].
  eapply (scan_teq (scan_rxq (active_thread_count p)) 0) in H0.
  2: { intros t. unfold scan_rxq, hardware_queue_congested. cbn. by destruct (enabled (directpath_hwq t)), (enabled (storage_hwq t)). }
  destruct (scan (scan_rxq _) 0 _) as [b1 l1].
  eapply (scan_teq (scan_timer cyc now) 0) in H0; [|done]. destruct (scan (scan_timer _ _) 0 _) as [b2 l2].
  by exists l2.
Qed.

Lemma teq_lookup l l' j t' : Forall2 teq l l' -> l' !! j = Some t' -> exists t, l !! j = Some t /\ teq t t'.
Proof. intros H Hj. destruct (Forall2_lookup_r _ _ _ _ _ H Hj) as (t & ? & ?). eauto. Qed.

Lemma proc_ok_teq p l : proc_ok p -> Forall2 teq (threads p) l -> proc_ok (set_threads l p).
Proof.
  intros [H1 H2 H3 H4 H5] Hl. assert (E : length l = length (threads p)) by (symmetry; by eapply Forall2_length).
  split; cbn; unfold thread_count, flow_ok in *; cbn; rewrite ?E; auto.
  - intros i t' Hi. destruct (teq_lookup _ _ _ _ Hl Hi) as (t & Ht & -> & _). by apply H2.
  - intros k i t' Hk Hi. destruct (teq_lookup _ _ _ _ Hl Hi) as (t & Ht & _ & _ & -> & _). by eapply H3.
Qed.

Section poll.
Context (T : topo) (HT : topo_ok T) (U : list tref).
Abbreviation A := (sched_allowed_cores T).

Lemma sched_teq G s p pr l :
  sched_inv T G U s -> procs s !! p = Some pr -> Forall2 teq (threads pr) l ->
  runs T U G s (upd_proc p (fun _ => set_threads l pr) s).
Proof.
  intros [Hb Hpl Hcs Hcl Hnd] Hp Hl. set (s' := upd_proc p _ s).
  assert (Th : forall r, option_Forall2 teq (th_at s r) (th_at s' r)).
  { intros r. unfold s'. rewrite th_at_upd_proc. destruct (decide (r.1 = p)) as [<-|].
    - unfold th_at. rewrite Hp. cbn. by apply Forall2_lookup.
    - destruct (th_at s r); by constructor. }
  assert (Hact : forall r, act_core s' r = act_core s r).
  { intros r. unfold act_core. specialize (Th r). inversion Th as [t t' (E1 & E2 & _) X1 X2|]; [|done]. cbn. by rewrite E1, E2. }
  assert (Hd : forall q, is_Some (procs s' !! q) <-> is_Some (procs s !! q)) by (intros q; apply lookup_alter_is_Some).
  split_and!; auto. split; auto.
  - apply (base_G _ _ (bump p 0 G)); [|intros q; unfold bump; destruct (decide _); lia].
    assert (X := bi_G _ _ _ _ Hb p).
    apply (base_upd_proc A U G s p pr); auto; [|lia|cbn; lia| |symmetry; by eapply Forall2_length].
    + apply proc_ok_teq; [by eapply (bi_proc _ _ _ _ Hb)|done].
    + cbn. intros j t' Hj. destruct (teq_lookup _ _ _ _ Hl Hj) as (t & Ht & _ & E & _ & ? & _). exists t. split_and!; auto. rewrite E. auto.
  - intros r t'. specialize (Th r). inversion Th as [t0 t1 (E1 & E3 & _ & E2 & _) X1 X2|]; [|done].
    intros [= <-]. rewrite E1, E2, E3. by apply (Hpl r t0).
  - eapply cores_inv_ext; [exact Hcs|done].
  - intros q Hq. rewrite Hd. by apply Hcl.
Qed.

Lemma runs_refl G s : sched_inv T G U s -> runs T U G s s.
Proof. intros H. unfold runs. by split_and!. Qed.

Lemma runs_trans G s1 s2 s3 : runs T U G s1 s2 -> runs T U G s2 s3 -> runs T U G s1 s3.
Proof. intros (_ & H1 & H2) (H3 & H4 & H5). unfold runs. split_and!; [done|congruence|]. intros p. by rewrite H5. Qed.

(** ** The fast pass *)

(** The states of the cores change, no kthread moves. *)
Lemma sched_put_core G s c x x' :
  sched_inv T G U s -> cstates s !! c = Some x -> cur_th x' = cur_th x -> pending_th x' = pending_th x ->
  (pending x' = pending x) -> (pending x' = true -> wait x' = true) -> (idle x' = true -> cur_th x' = None /\ wait x' = false) ->
  runs T U G s (put_cstate c x' s).
Proof.
  intros [Hb Hpl Hcs Hcl Hnd] Hx E1 E2 E3 K1 K2. split_and!; auto. split; auto; [by apply (base_same _ _ _ s)|].
  cbn. apply (cores_inv_put _ (act_core s) _ c x); auto; rewrite ?E1, ?E2, ?E3.
  - intros r. change (act_core (put_cstate c x' s) r) with (act_core s r). rewrite (ci_on _ _ Hcs). naive_solver.
  - intros r. by apply (ci_one _ _ Hcs c x).
  - by apply (ci_pend _ _ Hcs c x).
Qed.

Lemma upd_thread_teq G s r t f :
  sched_inv T G U s -> th_at s r = Some t -> (forall t, teq t (f t)) -> runs T U G s (upd_thread r f s).
Proof.
  intros Hs Ht Hf. apply th_at_Some in Ht as (pr & Hp & Hti).
  assert (E : upd_thread r f s = upd_proc r.1 (fun _ => set_threads (alter f r.2 (threads pr)) pr) s).
  { unfold upd_thread, upd_proc. f_equal. apply map_eq. intros q. destruct (decide (q = r.1)) as [->|]; [|by rewrite !lookup_alter_ne].
    by rewrite !lookup_alter_eq, Hp. }
  rewrite E. apply sched_teq; auto. apply Forall2_same_length_lookup. rewrite length_alter. split; [done|].
  intros i t0 t1 H0 H1. destruct (decide (i = r.2)) as [->|].
  - rewrite list_lookup_alter_eq, H0 in H1. injection H1 as <-. apply Hf.
  - rewrite list_lookup_alter_ne in H1 by done. assert (t0 = t1) as -> by congruence. done.
Qed.

Lemma fast_rewake_ok G s r c x :
  sched_inv T G U s -> cstates s !! c = Some x -> cur_th x = Some r -> wait x = false ->
  exists ret s', sched_try_fast_rewake r s = Ok (ret, s') /\ runs T U G s s' /\ cstates s' = (if ret =? 0 then <[c := set_wait true x]> (cstates s) else cstates s).
Proof.
  intros Hs Hx Hcur Hw. assert (Hs' := Hs). destruct Hs' as [Hb Hpl Hcs Hcl Hnd].
  assert (Hac : act_core s r = Some c) by (apply (ci_on _ _ Hcs); eauto).
  unfold act_core in Hac. destruct (th_at s r) as [t|] eqn:Ht; [|done]. cbn in Hac. destruct (active t) eqn:Ea; [|done].
  unfold sched_try_fast_rewake. rewrite (get_thread_ok s r t Ht). cbn [mbind res_bind lrpc_poll_send_tail].
  set (s1 := upd_thread r _ s). assert (H1 : runs T U G s s1) by (by apply (upd_thread_teq G s r t)).
  destruct (_ || _ || _); [|exists (- EINVAL), s1; by split_and!].
  rewrite Hac. unfold get_cstate. change (cstates (ksched_run c (tid t) s1)) with (cstates s). rewrite Hx. cbn [mbind res_bind].
  eexists 0, _. split; [reflexivity|]. split; [|done].
  eapply runs_trans; [exact H1|]. eapply runs_trans.
  - apply runs_refl. apply H1.
  - assert (Hq : sched_inv T G U (ksched_run c (tid t) s1)).
    { destruct H1 as ([B1 B2 B3 B4 B5] & _). split; auto. by apply (base_same _ _ _ s1). }
    destruct (sched_put_core G (ksched_run c (tid t) s1) c x (set_wait true x) Hq) as (X1 & X2 & X3); auto.
    + cbn. intros Hi. apply (ci_idle _ _ Hcs c x) in Hi; [|done]. destruct Hi. congruence.
    + by split_and!.
Qed.

(** Changes outside of the processes and the cores. *)
Lemma runs_same G s s' :
  sched_inv T G U s -> procs s' = procs s -> ts s' = ts s -> cstates s' = cstates s -> clients s' = clients s -> runs T U G s s'.
Proof.
  intros [B1 B2 B3 B4 B5] Q1 Q2 Q3 Q4. unfold runs. rewrite Q4. split_and!; auto; [|intros p; by rewrite Q1].
  split; rewrite ?Q3, ?Q4; auto.
  - by apply (base_same _ _ _ s).
  - by apply (polled_same s).
  - eapply cores_inv_ext; [exact B3|]. intros r. by apply act_same.
  - intros p Hp. rewrite Q1. by apply B4.
Qed.

Lemma runs_core G s s' c x' :
  base_inv A G U (put_cstate c x' s') -> polled_inv (put_cstate c x' s') ->
  cores_inv (cstates (put_cstate c x' s')) (act_core (put_cstate c x' s')) ->
  clients s' = clients s -> (forall p, is_Some (procs s' !! p) <-> is_Some (procs s !! p)) -> sched_inv T G U s ->
  runs T U G s (put_cstate c x' s').
Proof.
  intros H1 H2 H3 H4 H5 Hs. split_and!; auto. split; auto; cbn; rewrite H4; [|apply Hs].
  intros p Hp. rewrite H5. by apply (sv_clients _ _ _ _ Hs).
Qed.

Lemma poll_switch_ok G s k c :
  sched_inv T G U s -> (c < NCPU)%nat -> exists s', poll_switch k c s = Ok s' /\ runs T U G s s'.
Proof.
  intros Hs Hc. assert (Hcs := sv_cores _ _ _ _ Hs). unfold poll_switch, get_cstate.
  destruct (lookup_lt_is_Some_2 (cstates s) c) as [x Hx]; [by rewrite (ci_len _ _ Hcs)|]. rewrite Hx. cbn [mbind res_bind].
  destruct (wait x && run_done k c) eqn:Ew; [|exists s; split; [done|by apply runs_refl]]. apply andb_prop in Ew as [Ew _].
  assert (Hidle : idle x = false).
  { apply not_true_is_false. intros Hi. apply (ci_idle _ _ Hcs c x) in Hi; [|done]. destruct Hi. congruence. }
  destruct (pending x) eqn:Ep.
  - set (s0 := ksched_enqueue_intr c s).
    destruct (tid_of_ok s0 (pending_th x)) as [t Et].
    { intros r Hr. assert (act_core s r = Some c) by (apply (ci_on _ _ Hcs); eauto). by apply (act_core_at s r c). }
    rewrite Et. cbn [mbind res_bind]. set (s1 := ksched_run c t s0).
    assert (R1 : runs T U G s s1) by (by apply runs_same). destruct R1 as ([B1 P1 C1 L1 N1] & E1 & D1).
    set (x' := set_cur_th (pending_th x) (set_pending false (set_pending_th None x))).
    destruct (core_switch_ok T U G s1 None (cur_th x) (pending_th x) c x x')
      as (s2 & E2 & H2 & H3 & H4 & H5 & H6); auto; try (cbn; clear; intuition congruence).
    + intros r. by apply (ci_one _ _ Hcs c x).
    + cbn. congruence.
    + rewrite E2. cbn [mbind res_bind]. eexists. split; [reflexivity|]. by apply (runs_core G s s2).
  - eexists. split; [reflexivity|]. apply (sched_put_core G s c x); auto; cbn; [congruence|].
    intros Hi. congruence.
Qed.

Lemma poll_core_idle_ok G s k c :
  sched_inv T G U s -> (c < NCPU)%nat ->
  exists b s', poll_core_idle k c s = Ok (b, s') /\ runs T U G s s' /\
    (b = true -> exists x, cstates s' !! c = Some x /\ idle x = true).
Proof.
  intros Hs Hc. assert (Hcs := sv_cores _ _ _ _ Hs). unfold poll_core_idle, get_cstate.
  destruct (lookup_lt_is_Some_2 (cstates s) c) as [x Hx]; [by rewrite (ci_len _ _ Hcs)|]. rewrite Hx. cbn [mbind res_bind].
  destruct (_ && poll_idle k c) eqn:Eg; [|exists false, s; split; [done|]; split; [by apply runs_refl|done]].
  apply andb_prop in Eg as [[Ew Ei]%andb_prop _]. apply negb_true_iff in Ew, Ei.
  assert (Hpf : pending x = false). { apply not_true_is_false. intros Hpd. apply (ci_wait _ _ Hcs c x) in Hpd; congruence. }
  assert (Hpn : pending_th x = None).
  { destruct (pending_th x) as [r1|] eqn:E; [|done]. assert (Hpd : pending x = true) by (apply (ci_pend _ _ Hcs c x); congruence). congruence. }
  destruct (cur_th x) as [r|] eqn:Ecur.
  - destruct (fast_rewake_ok G s r c x Hs Hx Ecur Ew) as (ret & s1 & -> & R1 & E1). cbn [mbind res_bind].
    destruct (ret =? 0) eqn:Er; [by exists false, s1|]. assert (Hs1 := proj1 R1). destruct R1 as ([B1 P1 C1 L1 N1] & K1 & D1).
    set (x' := set_idle true (set_cur_th None x)).
    destruct (core_switch_ok T U G s1 None (Some r) None c x x')
      as (s2 & E2 & H2 & H3 & H4 & H5 & H6); auto; cbn; rewrite ?Hpn, ?Ecur, ?Hpf; auto; try (clear; intuition congruence).
    + by rewrite E1.
    + cbn in E2. rewrite E2. cbn [mbind res_bind]. eexists true, _. split; [reflexivity|]. split.
      * apply (runs_core G s s2); auto; [congruence|]. intros p. by rewrite H6.
      * intros _. exists x'. split; [|done]. cbn. apply list_lookup_insert_eq. apply (ci_len _ _) in H4. cbn in H4. rewrite length_insert in H4. lia.
  - eexists true, _. split; [reflexivity|]. split; [apply (sched_put_core G s c x); auto; cbn; congruence|].
    intros _. exists (set_idle true x). split; [|done]. cbn. apply list_lookup_insert_eq. by rewrite (ci_len _ _ Hcs).
Qed.

Lemma fast_pass_ok G k l : forall bits cnt s,
  sched_inv T G U s -> (forall c, c ∈ l -> (c < NCPU)%nat) ->
  exists bits' cnt' s', fast_pass k l bits cnt s = Ok (bits', cnt', s') /\ runs T U G s s' /\
    (forall c, c ∈ bits' -> c ∈ bits \/ c ∈ l).
Proof.
  induction l as [|c l IH]; intros bits cnt s Hs Hl; cbn [fast_pass].
  { exists bits, cnt, s. split_and!; auto. by apply runs_refl. }
  assert (Hc : (c < NCPU)%nat) by (apply Hl; set_solver).
  destruct (poll_switch_ok G s k c Hs Hc) as (s1 & -> & R1). cbn [mbind res_bind].
  destruct (poll_core_idle_ok G s1 k c (proj1 R1) Hc) as (b & s2 & -> & R2 & _). cbn [mbind res_bind].
  assert (R12 := runs_trans _ _ _ _ R1 R2).
  assert (Hgo : forall bits0 cnt0, exists bits' cnt' s', fast_pass k l bits0 cnt0 s2 = Ok (bits', cnt', s') /\ runs T U G s s' /\
    (forall c, c ∈ bits' -> c ∈ bits0 \/ c ∈ l)).
  { intros bits0 cnt0. destruct (IH bits0 cnt0 s2) as (bits' & cnt' & s' & E & R & Hb); [apply R2|intros; apply Hl; set_solver|].
    exists bits', cnt', s'. split_and!; auto. by eapply runs_trans. }
  destruct b.
  - destruct (Hgo ({[c]} ∪ bits) (S cnt)) as (bits' & cnt' & s' & E & R & Hb). exists bits', cnt', s'. split_and!; auto. set_solver.
  - destruct (Hgo bits cnt) as (bits' & cnt' & s' & E & R & Hb). exists bits', cnt', s'. split_and!; auto. set_solver.
Qed.
End poll.
