(* ===== verification/IokMach.v ===== *)
(** * The IOKernel's scheduler as a machine

    The interface of a policy as a class, and the machine made of the poll loop, the
    clients that come and go, the references the transmit path holds and the changes
    the runtimes make to shared memory. *)

From S2P Require Import Prelude Stddef Lrpc IokState IokSched IokInv IokBase IokCores IokPoll.

Definition cl (s : sched) : gset nat := list_to_set (clients s).

(** What a policy promises: it has an invariant over its data and the attached
    processes, and none of its operations fails or breaks the scheduler, as long as the
    configurations of processes are [cfgok]. *)
Class SchedPolicy (T : topo) (U : list tref) (cfgok : sched_spec -> Prop) {D : Type} (ops : sched_ops D) := {
  pol_inv : D -> gset nat -> Prop;
  pol_congested G d s p ths ios :
    sched_inv T G U s -> pol_inv d (cl s) -> p ∈ clients s ->
    exists d' s', notify_congested ops p ths ios (d, s) = Ok (d', s') /\ runs T U G s s' /\ pol_inv d' (cl s');
  pol_needed G d s p :
    sched_inv T G U s -> pol_inv d (cl s) -> p ∈ clients s ->
    exists ret d' s', notify_core_needed ops p (d, s) = Ok (ret, (d', s')) /\ runs T U G s s' /\ pol_inv d' (cl s');
  pol_poll G d s now cnt bits :
    sched_inv T G U s -> pol_inv d (cl s) -> (forall c, c ∈ bits -> c ∈ sched_allowed_cores T) ->
    exists d' s', policy_poll ops now cnt bits (d, s) = Ok (d', s') /\ runs T U G s s' /\ pol_inv d' (cl s');
  pol_attach d X s p cfg :
    cfgok cfg -> pol_inv d X -> p ∉ X ->
    exists ret d', proc_attach ops p cfg (d, s) = Ok (ret, (d', s)) /\ pol_inv d' (if ret =? 0 then {[p]} ∪ X else X);
  pol_detach d X s p :
    pol_inv d X -> p ∈ X -> exists d', proc_detach ops p (d, s) = Ok (d', s) /\ pol_inv d' (X ∖ {[p]});
}.

Lemma elem_snoc {B} (l : list B) x y : y ∈ l ++ [x] <-> y ∈ l \/ y = x.
Proof. by rewrite elem_of_app, list_elem_of_singleton. Qed.

Section mach.
Context (T : topo) (HT : topo_ok T) (U : list tref) (cfgok : sched_spec -> Prop) {D : Type} (ops : sched_ops D) `{!SchedPolicy T U cfgok ops} (cyc : Z).
Abbreviation A := (sched_allowed_cores T).

(** ** The poll loop *)

Definition good (G : nat -> Z) (w w' : D * sched) : Prop := runs T U G w.2 w'.2 /\ pol_inv w'.1 (cl w'.2).

Lemma cl_runs G s s' : runs T U G s s' -> cl s' = cl s.
Proof. intros (_ & H & _). unfold cl. by rewrite H. Qed.

Lemma each_client_ok G f l : forall w,
  (forall p w, p ∈ l -> sched_inv T G U w.2 -> pol_inv w.1 (cl w.2) -> p ∈ clients w.2 -> exists w', f p w = Ok w' /\ good G w w') ->
  sched_inv T G U w.2 -> pol_inv w.1 (cl w.2) -> (forall p, p ∈ l -> p ∈ clients w.2) ->
  exists w', each_client f l w = Ok w' /\ good G w w'.
Proof.
  induction l as [|p l IH]; intros w Hf Hs Hp Hl; cbn [each_client].
  { exists w. split; [done|]. split; [by apply runs_refl|done]. }
  destruct (Hf p w) as (w1 & -> & R1 & P1); auto; [set_solver|apply Hl; set_solver|]. cbn [mbind res_bind].
  destruct (IH w1) as (w2 & E2 & R2 & P2); auto.
  - intros q w' Hq. apply Hf. set_solver.
  - apply R1.
  - destruct R1 as (_ & -> & _). intros q Hq. apply Hl. set_solver.
  - exists w2. split; [done|]. split; [by eapply runs_trans|done].
Qed.

Lemma detect_ok G tsc p w :
  sched_inv T G U w.2 -> pol_inv w.1 (cl w.2) -> p ∈ clients w.2 ->
  exists w', sched_detect_congestion ops cyc tsc p w = Ok w' /\ good G w w'.
Proof.
  intros Hs Hp Hc. destruct w as [d s]. cbn in *. destruct (sv_clients _ _ _ _ Hs p Hc) as [[pr Hpr] _].
  unfold sched_detect_congestion, get_proc. cbn [fst snd]. rewrite Hpr. cbn [mbind res_bind].
  destruct (detect_congestion_teq cyc tsc pr) as (l & El & Hl). destruct (detect_congestion cyc tsc pr) as [[ths ios] pr']. cbn in El. subst pr'.
  set (s1 := upd_proc p _ s). assert (R1 : runs T U G s s1) by (by apply sched_teq).
  destruct (pol_congested G d s1 p ths ios) as (d' & s' & E & R & P).
  - apply R1.
  - by rewrite (cl_runs _ _ _ R1).
  - by destruct R1 as (_ & -> & _).
  - exists (d', s'). split; [exact E|]. split; [by eapply runs_trans|done].
Qed.

Lemma slow_check_ok G p w :
  sched_inv T G U w.2 -> pol_inv w.1 (cl w.2) -> p ∈ clients w.2 ->
  exists w', slow_check ops p w = Ok w' /\ good G w w'.
Proof.
  intros Hs Hp Hc. destruct w as [d s]. cbn in *. destruct (sv_clients _ _ _ _ Hs p Hc) as [[pr Hpr] _].
  assert (Hid : exists w', Ok (d, s) = Ok w' /\ good G (d, s) w').
  { exists (d, s). split; [done|]. split; [by apply runs_refl|done]. }
  unfold slow_check, sched_detect_io_for_idle_runtime, get_proc. cbn [fst snd]. rewrite Hpr. cbn [mbind res_bind].
  destruct (_ && _); [|done]. destruct (io_pending pr); [|done]. unfold sched_add_core.
  destruct (pol_needed G d s p Hs Hp Hc) as (ret & d' & s' & E & R & P).
  rewrite E. exists (d', s'). by split.
Qed.

Lemma sched_poll_ok G last now tsc k w :
  sched_inv T G U w.2 -> pol_inv w.1 (cl w.2) ->
  exists last' w', sched_poll T ops cyc last now tsc k w = Ok (last', w') /\ good G w w'.
Proof.
  intros Hs Hp. unfold sched_poll.
  assert (E1 : exists w1, each_client (if IOKERNEL_POLL_INTERVAL <=? u64 (now - last) then sched_detect_congestion ops cyc tsc else slow_check ops)
    (clients w.2) w = Ok w1 /\ good G w w1).
  { apply each_client_ok; auto. intros p w0 _ H1 H2 H3. destruct (_ <=? _); [by apply detect_ok|by apply slow_check_ok]. }
  destruct E1 as ([d1 s1] & E1 & R1 & P1). rewrite E1. cbn [mbind res_bind fst snd] in *.
  destruct (fast_pass_ok T HT U G k (sched_cores_tbl T) ∅ 0 s1) as (bits & cnt & s2 & E2 & R2 & Hb).
  { apply R1. }
  { intros c Hc. by apply (tk_range T HT), (tk_tbl T HT). }
  rewrite E2. cbn [mbind res_bind].
  destruct (pol_poll G d1 s2 now cnt bits) as (d3 & s3 & E3 & R3 & P3).
  { apply R2. }
  { by rewrite (cl_runs _ _ _ R2). }
  { intros c [?|Hc]%Hb; [set_solver|by apply (tk_tbl T HT)]. }
  rewrite E3. cbn [mbind res_bind fst snd]. eexists _, _. split; [reflexivity|].
  assert (R4 : runs T U G s3 (ksched_send_intrs s3)).
  { apply runs_same; [apply R3|..]; unfold ksched_send_intrs; by destruct (ksched_count s3 =? 0). }
  split; cbn [fst snd].
  - eapply runs_trans; [exact R1|]. eapply runs_trans; [exact R2|]. eapply runs_trans; [exact R3|exact R4].
  - by rewrite (cl_runs _ _ _ R4).
Qed.

(** ** Clients *)

(** A process as the control plane makes it. *)
Record fresh_proc (p : nat) (pr : proc) : Prop := {
  fp_ref : ref pr = 1;
  fp_count : (thread_count pr <= NCPU)%nat;
  fp_ts : forall i t, threads pr !! i = Some t -> ts_idx t = None;
  fp_U : forall i, (i < thread_count pr)%nat -> (p, i) ∈ U;
}.

Lemma attach_proc_ok pr : (thread_count pr <= NCPU)%nat -> proc_ok (attach_proc pr).
Proof.
  intros Hc. split; cbn; unfold thread_count, flow_ok in *; cbn; rewrite ?length_map; auto; [|done|done].
  intros i t Hi. rewrite list_lookup_fmap in Hi. apply fmap_Some in Hi as (t0 & _ & ->). cbn. split; [done|]. by intros ?%elem_of_nil.
Qed.

(** A process that nobody knows yet. *)
Lemma sched_new_ok G s p pr :
  sched_inv T G U s -> procs s !! p = None -> G p = 0 -> fresh_proc p pr ->
  sched_inv T (bump p 1 G) U (set_procs (<[p := attach_proc pr]> (procs s)) s).
Proof.
  intros [[H1 H2 H3 H4 H5 H6 H7] Hpl Hcs Hcl Hnd] Hp HG [F1 F2 F3 F4]. set (s' := set_procs _ s).
  assert (Tn : forall r, r.1 <> p -> th_at s' r = th_at s r).
  { intros r Hr. unfold th_at, s'. cbn. by rewrite lookup_insert_ne by congruence. }
  assert (To : forall r, r.1 = p -> th_at s r = None) by (intros r <-; unfold th_at; by rewrite Hp).
  assert (Tp : forall r t, r.1 = p -> th_at s' r = Some t -> (r.2 < thread_count pr)%nat /\ active t = false /\ core t = None /\ ts_idx t = None).
  { intros r t <- Ht. unfold th_at, s' in Ht. cbn in Ht. rewrite lookup_insert_eq in Ht. cbn in Ht. rewrite list_lookup_fmap in Ht.
    apply fmap_Some in Ht as (t0 & Ht0 & ->). cbn. split_and!; auto; [by eapply lookup_lt_Some|by eapply F3]. }
  assert (Hts : forall k r, ts s !! k = Some r -> r.1 <> p).
  { intros k r Hk Hr. apply H2 in Hk as (t & Ht & _). by rewrite To in Ht. }
  assert (Hact : forall r, act_core s' r = act_core s r).
  { intros r. unfold act_core. destruct (decide (r.1 = p)) as [Hr|Hr]; [|by rewrite Tn].
    rewrite (To r Hr). destruct (th_at s' r) as [t|] eqn:Et; [|done]. destruct (Tp r t Hr Et) as (_ & Ha & _). cbn. by rewrite Ha. }
  assert (Hnp : npolled s p = 0).
  { apply npolled_zero. intros r [k Hk]%list_elem_of_lookup_1. by eapply Hts. }
  split; auto.
  - split; auto.
    + intros q qr. unfold s'. cbn. destruct (decide (q = p)) as [->|Hne].
      * rewrite lookup_insert_eq. intros [= <-]. by apply attach_proc_ok.
      * rewrite lookup_insert_ne by done. apply H1.
    + intros k r. change (ts s') with (ts s). split.
      * intros Hk. rewrite Tn by (by eapply Hts). by apply H2.
      * intros (t & Ht & Ek). destruct (decide (r.1 = p)) as [Hr|Hr]; [destruct (Tp r t Hr Ht) as (_ & _ & _ & ?); congruence|].
        rewrite Tn in Ht by done. apply H2. eauto.
    + intros r t c Ht Hc. destruct (decide (r.1 = p)) as [Hr|Hr]; [destruct (Tp r t Hr Ht) as (_ & _ & ? & _); congruence|].
      rewrite Tn in Ht by done. by eapply H3.
    + intros q qr. unfold s', bump. cbn. change (npolled (set_procs _ s) q) with (npolled s q). destruct (decide (q = p)) as [->|Hne].
      * rewrite lookup_insert_eq. intros [= <-]. cbn. rewrite F1, Hnp, HG. done.
      * rewrite lookup_insert_ne by done. apply H4.
    + intros q. unfold bump. specialize (H5 q). destruct (decide _); lia.
    + intros r [t Ht]. destruct (decide (r.1 = p)) as [Hr|Hr]; [|rewrite Tn in Ht by done; apply H6; eauto].
      destruct (Tp r t Hr Ht) as (Hlt & _). destruct r as [p' i]. cbn in *. subst p'. by apply F4.
  - intros r t Ht Ha. destruct (decide (r.1 = p)) as [Hr|Hr]; [destruct (Tp r t Hr Ht) as (_ & ? & _); congruence|].
    rewrite Tn in Ht by done. by eapply Hpl.
  - by eapply cores_inv_ext.
  - intros q Hq. destruct (Hcl q Hq) as [[qr Hqr] Hg]. unfold s', bump. cbn. split.
    + rewrite lookup_insert_ne by congruence. eauto.
    + destruct (decide _); lia.
Qed.

(** The names of the clients. *)
Lemma sched_set_clients G s l :
  sched_inv T G U s -> NoDup l -> (forall p, p ∈ l -> is_Some (procs s !! p) /\ 0 < G p) -> sched_inv T G U (set_clients l s).
Proof. intros [H1 H2 H3 H4 H5] Hn Hl. split; auto. by apply (base_same _ _ _ s). Qed.

(** Flags of a process. *)
Lemma sched_upd_flag G s p f :
  (forall pr, ref (f pr) = ref pr /\ threads (f pr) = threads pr /\ active_threads (f pr) = active_threads pr /\
    idle_threads (f pr) = idle_threads pr /\ flow_tbl (f pr) = flow_tbl pr) ->
  sched_inv T G U s -> runs T U G s (upd_proc p f s).
Proof.
  intros Hf Hs. destruct (procs s !! p) as [pr|] eqn:Hp.
  2: { apply runs_same; auto. unfold upd_proc. cbn. apply map_eq. intros q. destruct (decide (q = p)) as [->|].
       - rewrite lookup_alter_eq, Hp. done.
       - by rewrite lookup_alter_ne. }
  destruct Hs as [[H1 H2 H3 H4 H5 H6 H7] Hpl Hcs Hcl Hnd]. set (s' := upd_proc p f s).
  assert (Th : forall r, th_at s' r = th_at s r).
  { intros r. unfold s'. rewrite th_at_upd_proc. destruct (decide (r.1 = p)) as [<-|]; [|done]. unfold th_at. rewrite Hp. cbn.
    by rewrite (proj1 (proj2 (Hf pr))). }
  assert (Hact : forall r, act_core s' r = act_core s r) by (intros r; unfold act_core; by rewrite Th).
  assert (Hd : forall q, is_Some (procs s' !! q) <-> is_Some (procs s !! q)) by (intros q; apply lookup_alter_is_Some).
  assert (Hq : forall q qr, procs s' !! q = Some qr -> exists q0, procs s !! q = Some q0 /\ (qr = q0 \/ qr = f q0)).
  { intros q qr. unfold s', upd_proc. cbn. destruct (decide (q = p)) as [->|]; [rewrite lookup_alter_eq, Hp; intros [= <-]; eauto|].
    rewrite lookup_alter_ne by done. eauto. }
  split_and!; auto. split; auto.
  - split; auto.
    + intros q qr (q0 & Hq0 & [-> | ->])%Hq; [by eapply H1|]. destruct (Hf q0) as (_ & E1 & E2 & E3 & E4). destruct (H1 q q0 Hq0).
      split; unfold flow_ok, thread_count in *; by rewrite ?E1, ?E2, ?E3, ?E4.
    + intros k r. rewrite Th. apply H2.
    + intros r t c. rewrite Th. apply H3.
    + intros q qr (q0 & Hq0 & [-> | ->])%Hq; [by apply H4|]. destruct (Hf q0) as (E0 & _ & E2 & _). rewrite E0, E2. by apply H4.
    + intros r. rewrite Th. apply H6.
  - intros r t. rewrite Th. apply Hpl.
  - by eapply cores_inv_ext.
  - intros q Hq0. rewrite Hd. by apply Hcl.
Qed.

Lemma sched_G G G' s : sched_inv T G U s -> (forall q, G' q = G q) -> sched_inv T G' U s.
Proof.
  intros [H1 H2 H3 H4 H5] HG. split; auto; [by apply (base_G _ _ G)|]. intros p Hp. rewrite HG. by apply H4.
Qed.

Lemma proc_get_inv G s p pr :
  sched_inv T G U s -> procs s !! p = Some pr -> 0 < ref pr ->
  exists s', proc_get p s = Ok s' /\ sched_inv T (bump p 1 G) U s' /\ clients s' = clients s /\
    (forall q, is_Some (procs s' !! q) <-> is_Some (procs s !! q)).
Proof.
  intros [H1 H2 H3 H4 H5] Hp Hr. destruct (proc_get_ok A U G s p pr H1 Hp Hr) as (s' & E & B & Th & C & _).
  exists s'. split_and!; [done| |apply C|apply C]. split; auto.
  - intros r t. rewrite Th. apply H2.
  - rewrite (sc_cores _ _ C). eapply cores_inv_ext; [exact H3|]. intros r. unfold act_core. by rewrite Th.
  - rewrite (sc_clients _ _ C). intros q Hq. rewrite (sc_procs _ _ C). unfold bump. destruct (H4 q Hq). split; [done|]. destruct (decide _); lia.
  - by rewrite (sc_clients _ _ C).
Qed.

Lemma proc_put_inv G s p pr :
  sched_inv T G U s -> procs s !! p = Some pr -> 0 < G p -> (p ∈ clients s -> 1 < G p) ->
  exists s', proc_put p s = Ok s' /\ sched_inv T (bump p (-1) G) U s' /\ clients s' = clients s /\
    (forall q, is_Some (procs s' !! q) <-> is_Some (procs s !! q)).
Proof.
  intros [H1 H2 H3 H4 H5] Hp Hr Hc. destruct (proc_put_ok A U G s p pr H1 Hp Hr) as (s' & E & B & Th & C & _).
  exists s'. split_and!; [done| |apply C|apply C]. split; auto.
  - intros r t. rewrite Th. apply H2.
  - rewrite (sc_cores _ _ C). eapply cores_inv_ext; [exact H3|]. intros r. unfold act_core. by rewrite Th.
  - rewrite (sc_clients _ _ C). intros q Hq. rewrite (sc_procs _ _ C). unfold bump. destruct (H4 q Hq). split; [done|].
    destruct (decide (q = p)) as [->|]; [specialize (Hc Hq)|]; lia.
  - by rewrite (sc_clients _ _ C).
Qed.

(** The references of the data plane to [p]: those of the packets in flight, and one
    as long as it is a client. *)
Definition Gof (held : nat -> Z) (s : sched) (p : nat) : Z := held p + (if decide (p ∈ clients s) then 1 else 0).

Lemma add_client_ok held d s p pr :
  sched_inv T (Gof held s) U s -> pol_inv d (cl s) -> procs s !! p = None -> held p = 0 -> fresh_proc p pr ->
  cfgok (sched_cfg pr) -> (length (clients s) < IOKERNEL_MAX_PROC)%nat ->
  exists d' s', dp_clients_add_client ops p (d, set_procs (<[p := pr]> (procs s)) s) = Ok (d', s') /\
    sched_inv T (Gof (if decide (p ∈ clients s') then held else bump p 1 held) s') U s' /\ pol_inv d' (cl s') /\
    (forall q, is_Some (procs s' !! q) <-> q = p \/ is_Some (procs s !! q)).
Proof.
  intros Hs Hpol Hp Hh Hf Hcfg Hroom. set (s0 := set_procs _ s).
  assert (Hnc : p ∉ clients s). { intros Hc. destruct (sv_clients _ _ _ _ Hs p Hc) as [[? ?] _]. congruence. }
  assert (Hg0 : Gof held s p = 0) by (unfold Gof; rewrite decide_False by done; lia).
  unfold dp_clients_add_client, sched_attach_proc, get_proc. cbn [fst snd].
  assert (Hp0 : procs s0 !! p = Some pr) by (unfold s0; cbn; by rewrite lookup_insert_eq). rewrite Hp0. cbn [mbind res_bind].
  set (s1 := if has_directpath pr then s0 else log_ev (KHashAdd p) s0).
  assert (Q1 : procs s1 = procs s0 /\ ts s1 = ts s /\ cstates s1 = cstates s /\ clients s1 = clients s) by (unfold s1; by destruct (has_directpath pr)).
  destruct Q1 as (Q1 & Q2 & Q3 & Q4). clearbody s1. rewrite Q1, Hp0. cbn [mbind res_bind].
  set (s2 := upd_proc p attach_proc s1).
  assert (Hs2 : sched_inv T (bump p 1 (Gof held s)) U s2).
  { apply (runs_same T U _ (set_procs (<[p := attach_proc pr]> (procs s)) s)); auto.
    - by apply sched_new_ok.
    - unfold s2, upd_proc. cbn. rewrite Q1. unfold s0. cbn. by rewrite alter_insert_eq. }
  destruct (pol_attach d (cl s) s2 p (sched_cfg pr) Hcfg Hpol) as (ret & d' & -> & Hpol'). { unfold cl. by rewrite elem_of_list_to_set. }
  cbn [mbind res_bind fst snd].
  assert (Hdom : forall q, is_Some (procs s2 !! q) <-> q = p \/ is_Some (procs s !! q)).
  { intros q. unfold s2, upd_proc. cbn. rewrite lookup_alter_is_Some, Q1. unfold s0. cbn. rewrite lookup_insert_is_Some.
    split; [naive_solver|]. intros [->|H]; [by left|]. destruct (decide (p = q)); auto. }
  assert (C2 : clients s2 = clients s) by done.
  destruct (ret =? 0) eqn:Er.
  - rewrite C2, (proj2 (Nat.leb_gt _ _) Hroom). cbn [BUG_ON mbind res_bind].
    eexists _, _. split; [reflexivity|]. set (s3 := upd_proc p (set_kill false) s2).
    assert (R3 : runs T U (bump p 1 (Gof held s)) s2 s3) by (by apply sched_upd_flag). destruct R3 as (Hs3 & C3 & D3).
    rewrite C3, C2. split_and!.
    + cbn [clients set_clients]. rewrite decide_True by (apply elem_snoc; auto).
      apply sched_set_clients.
      * apply (sched_G (bump p 1 (Gof held s))); [done|]. intros q. unfold Gof, bump. cbn [clients set_clients].
        assert (Hin := elem_snoc (clients s) p q). repeat case_decide; subst; tauto || lia.
      * apply list.NoDup_app. split_and!; [apply (sv_nodup _ _ _ _ Hs)| |apply NoDup_singleton]. intros q Hq ->%list_elem_of_singleton. done.
      * intros q Hq. rewrite D3, Hdom. unfold Gof. cbn [clients set_clients]. rewrite decide_True by done.
        apply elem_of_app in Hq as [Hq|Hq%list_elem_of_singleton].
        -- destruct (sv_clients _ _ _ _ Hs q Hq) as [? Hg]. unfold Gof in Hg. rewrite decide_True in Hg by done. auto.
        -- subst q. split; [by left|]. lia.
    + unfold cl. cbn [clients set_clients]. replace (list_to_set (clients s ++ [p])) with ({[p]} ∪ cl s : gset nat); [done|].
      apply set_eq. intros q. unfold cl. set_solver.
    + intros q. cbn [procs set_clients]. by rewrite D3.
  - exists d', s2. split_and!; [done| |unfold cl; by rewrite C2|done]. rewrite C2, decide_False by done.
    apply (sched_G (bump p 1 (Gof held s))); [done|]. intros q. unfold Gof, bump. rewrite C2. destruct (decide (q = p)); lia.
Qed.

Lemma remove_client_ok held d s p :
  sched_inv T (Gof held s) U s -> pol_inv d (cl s) -> 0 <= held p ->
  exists d' s', dp_clients_remove_client ops p (d, s) = Ok (d', s') /\
    sched_inv T (Gof held s') U s' /\ pol_inv d' (cl s') /\ (forall q, is_Some (procs s' !! q) <-> is_Some (procs s !! q)).
Proof.
  intros Hs Hpol Hh. unfold dp_clients_remove_client. cbn [snd].
  destruct (list_find (fun q => q = p) (clients s)) as [[i q]|] eqn:Ef; [|by exists d, s].
  apply list_find_Some in Ef as (Hi & -> & _). assert (Hl := lookup_lt_Some _ _ _ Hi).
  assert (Hpc : p ∈ clients s) by (by apply list_elem_of_lookup_2 in Hi).
  destruct (lookup_lt_is_Some_2 (clients s) (length (clients s) - 1)) as [l El]; [lia|]. rewrite El.
  fold (swap_remove i l (clients s)). set (L := swap_remove i l (clients s)).
  assert (HL : p :: L ≡ₚ clients s) by (by apply swap_remove_perm).
  assert (HnL : NoDup (p :: L)) by (rewrite HL; apply (sv_nodup _ _ _ _ Hs)). apply list.NoDup_cons in HnL as [HpL HnL].
  assert (HinL : forall q, q ∈ clients s <-> q = p \/ q ∈ L) by (intros q; by rewrite <- HL, elem_of_cons).
  destruct (sv_clients _ _ _ _ Hs p Hpc) as [[pr Hpr] Hg].
  set (s1 := set_clients L s). unfold get_proc. change (procs s1) with (procs s). rewrite Hpr. cbn [mbind res_bind].
  set (s2 := if has_directpath pr then s1 else log_ev (KHashDel p) s1).
  assert (Hs1 : sched_inv T (Gof held s) U s1).
  { apply sched_set_clients; auto. intros q Hq. apply (sv_clients _ _ _ _ Hs), HinL. by right. }
  assert (R2 : runs T U (Gof held s) s1 s2) by (apply runs_same; auto; unfold s2; by destruct (has_directpath pr)).
  clearbody s2. destruct R2 as (Hs2 & C2 & D2).
  destruct (sched_upd_flag (Gof held s) s2 p (set_kill true)) as (Hs3 & C3 & D3); [done|done|]. set (s3 := upd_proc p (set_kill true) s2) in *.
  unfold sched_detach_proc. cbn [fst]. destruct (pol_detach d (cl s) s3 p Hpol) as (d' & -> & Hpol'); [unfold cl; by rewrite elem_of_list_to_set|].
  cbn [mbind res_bind snd fst].
  assert (Hp3 : is_Some (procs s3 !! p)) by (rewrite D3, D2; cbn; eauto). destruct Hp3 as [pr3 Hp3].
  destruct (proc_put_inv (Gof held s) s3 p pr3 Hs3 Hp3 Hg) as (s4 & -> & Hs4 & C4 & D4).
  { rewrite C3, C2. cbn. done. }
  cbn [mbind res_bind]. assert (C4' : clients s4 = L) by (rewrite C4, C3, C2; done).
  exists d', s4. split_and!; [done| | |].
  - apply (sched_G (bump p (-1) (Gof held s))); [done|]. intros q. unfold Gof, bump. rewrite C4'. specialize (HinL q).
    repeat case_decide; subst; tauto || lia.
  - replace (cl s4) with (cl s ∖ {[p]}); [done|]. apply set_eq. intros q. unfold cl. rewrite C4', elem_of_difference, !elem_of_list_to_set, elem_of_singleton, HinL.
    split; [tauto|]. intros Hq. split; [by right|]. by intros ->.
  - intros q. rewrite D4, D3, D2. done.
Qed.

(** A process that was released is deleted by the control plane. *)
Lemma sched_delete_ok G s p pr :
  sched_inv T G U s -> procs s !! p = Some pr -> ref pr = 0 ->
  sched_inv T G U (set_procs (delete p (procs s)) s) /\ G p = 0 /\ p ∉ clients s.
Proof.
  intros [[H1 H2 H3 H4 H5 H6 H7] Hpl Hcs Hcl Hnd] Hp Hr. assert (Href := H4 p pr Hp). rewrite Hr in Href.
  assert (HG : G p = 0 /\ active_threads pr = [] /\ npolled s p = 0).
  { specialize (H5 p). assert (0 <= npolled s p) by (unfold npolled; lia). destruct (active_threads pr); cbn in Href; split_and!; try lia; done. }
  destruct HG as (HG & Hact0 & Hn0). assert (Hnp := proj1 (npolled_zero s p) Hn0).
  set (s' := set_procs _ s).
  assert (Tn : forall r t, th_at s' r = Some t <-> th_at s r = Some t /\ r.1 <> p).
  { intros r t. unfold th_at, s'. cbn. destruct (decide (r.1 = p)) as [->|Hne].
    - rewrite lookup_delete_eq. naive_solver.
    - rewrite lookup_delete_ne by done. naive_solver. }
  assert (Hina : forall r, r.1 = p -> act_core s r = None).
  { intros r <-. unfold act_core. destruct (th_at s r) as [t|] eqn:Et; [|done]. cbn. destruct (active t) eqn:Ea; [|done]. exfalso.
    apply th_at_Some in Et as (pr' & Hp' & Ht). assert (pr' = pr) as -> by congruence.
    apply (po_act pr (H1 _ _ Hp) r.2 t Ht) in Ea. rewrite Hact0 in Ea. by apply elem_of_nil in Ea. }
  assert (Hac : forall r, act_core s' r = act_core s r).
  { intros r. destruct (decide (r.1 = p)) as [Hr'|Hne].
    - rewrite (Hina r Hr'). unfold act_core, th_at, s'. cbn. by rewrite Hr', lookup_delete_eq.
    - unfold act_core, th_at, s'. cbn. by rewrite lookup_delete_ne by done. }
  assert (Hc : p ∉ clients s). { intros Hc. apply Hcl in Hc. lia. }
  split_and!; auto. split; auto.
  - split; auto.
    + intros q qr. unfold s'. cbn. intros [_ Hq]%lookup_delete_Some. by eapply H1.
    + intros k r. change (ts s') with (ts s). rewrite H2. split.
      * intros (t & Ht & E). exists t. split; [|done]. apply Tn. split; [done|]. apply Hnp.
        apply (list_elem_of_lookup_2 _ k). apply H2. eauto.
      * intros (t & [Ht _]%Tn & E). eauto.
    + intros r t c [Ht _]%Tn. by eapply H3.
    + intros q qr. unfold s'. cbn. intros [_ Hq]%lookup_delete_Some. by apply H4.
    + intros r [t [Ht _]%Tn]. apply H6. eauto.
  - intros r t [Ht _]%Tn. by eapply Hpl.
  - by eapply cores_inv_ext.
  - intros q Hq. unfold s'. cbn. rewrite lookup_delete_ne by (intros ->; by apply Hc). by apply Hcl.
Qed.

(** ** The machine *)

Record mach := Mach { m_last : Z; m_held : nat -> Z; m_w : D * sched }.

Inductive iok_op :=
| OpPoll (now tsc : Z) (k : kreport)        (* one round of the poll loop *)
| OpCoreNeeded (p : nat)                    (* a packet for a client without active kthread *)
| OpAdd (p : nat) (pr : proc)               (* the control plane registers a process *)
| OpRemove (p : nat)                        (* ... asks for its removal *)
| OpDestroy (p : nat)                       (* ... deletes it once it is released *)
| OpShm (p : nat) (l : list thread)         (* a runtime writes to shared memory *)
| OpTxHold (p : nat)                        (* a packet of the process is given to the NIC *)
| OpTxDone (p : nat).                       (* ... and completed *)

Definition iok_exec (o : iok_op) (m : mach) : res mach :=
  let '(d, s) := m_w m in
  let up w := Mach (m_last m) (m_held m) w in
  match o with
  | OpPoll now tsc k => '(last, w) ← sched_poll T ops cyc (m_last m) now tsc k (d, s); Ok (Mach last (m_held m) w)
  | OpCoreNeeded p => '(_, w) ← sched_add_core ops p (d, s); Ok (up w)
  | OpAdd p pr =>
      w ← dp_clients_add_client ops p (d, set_procs (<[p := pr]> (procs s)) s);
      Ok (Mach (m_last m) (if decide (p ∈ clients w.2) then m_held m else bump p 1 (m_held m)) w)
  | OpRemove p => w ← dp_clients_remove_client ops p (d, s); Ok (up w)
  | OpDestroy p => Ok (up (d, set_procs (delete p (procs s)) s))
  | OpShm p l => Ok (up (d, upd_proc p (set_threads l) s))
  | OpTxHold p => s ← proc_get p s; Ok (Mach (m_last m) (bump p 1 (m_held m)) (d, s))
  | OpTxDone p => s ← proc_put p s; Ok (Mach (m_last m) (bump p (-1) (m_held m)) (d, s))
  end.

(** What the surroundings keep to: only live processes are named, a process is deleted
    after its release, shared memory does not hold the scheduler's own fields. *)
Definition op_ok (o : iok_op) (m : mach) : Prop :=
  let s := (m_w m).2 in
  match o with
  | OpPoll _ _ _ | OpRemove _ => True
  | OpCoreNeeded p => p ∈ clients s
  | OpAdd p pr => procs s !! p = None /\ fresh_proc p pr /\ cfgok (sched_cfg pr) /\ (length (clients s) < IOKERNEL_MAX_PROC)%nat
  | OpDestroy p => ref <$> procs s !! p = Some 0
  | OpShm p l => exists pr, procs s !! p = Some pr /\ Forall2 teq (threads pr) l
  | OpTxHold p => exists pr, procs s !! p = Some pr /\ 0 < ref pr
  | OpTxDone p => 0 < m_held m p
  end.

Definition mach_inv (m : mach) : Prop :=
  let s := (m_w m).2 in
  sched_inv T (Gof (m_held m) s) U s /\ pol_inv (m_w m).1 (cl s) /\
  (forall p, 0 <= m_held m p) /\ (forall p, procs s !! p = None -> m_held m p = 0).

Lemma Gof_runs held s s' G : clients s' = clients s -> sched_inv T G U s' -> (forall q, G q = Gof held s q) -> sched_inv T (Gof held s') U s'.
Proof. intros C Hs HG. apply (sched_G G); [done|]. intros q. rewrite HG. unfold Gof. by rewrite C. Qed.

Lemma held_dom (s s' : sched) (held : nat -> Z) :
  (forall q, is_Some (procs s' !! q) <-> is_Some (procs s !! q)) ->
  (forall p, procs s !! p = None -> held p = 0) -> forall p, procs s' !! p = None -> held p = 0.
Proof. intros Hd H p Hp. apply H. apply eq_None_not_Some. rewrite <- Hd, Hp. by intros [? ?]. Qed.

Lemma mach_step_ok o m : mach_inv m -> op_ok o m -> exists m', iok_exec o m = Ok m' /\ mach_inv m'.
Proof.
  destruct m as [last held [d s]]. intros (Hs & Hpol & Hh0 & Hh) Hok. unfold iok_exec, mach_inv, op_ok in *. cbn [m_w m_last m_held fst snd] in *.
  assert (Hgood : forall w, good (Gof held s) (d, s) w -> sched_inv T (Gof held w.2) U w.2 /\ pol_inv w.1 (cl w.2) /\
    (forall p, 0 <= held p) /\ forall p, procs w.2 !! p = None -> held p = 0).
  { intros w [(Hs' & C' & D') Hp']. split_and!; auto; [by eapply Gof_runs|]. by apply (held_dom s). }
  destruct o as [now tsc k|p|p pr|p|p|p l|p|p].
  - destruct (sched_poll_ok (Gof held s) last now tsc k (d, s) Hs Hpol) as (last' & w & E & Hg).
    rewrite E. eexists. split; [reflexivity|]. by apply Hgood.
  - destruct (pol_needed (Gof held s) d s p Hs Hpol Hok) as (ret & d' & s' & E & R & P).
    unfold sched_add_core. rewrite E. eexists. split; [reflexivity|]. by apply Hgood.
  - destruct Hok as (Hp & Hf & Hcfg & Hroom).
    destruct (add_client_ok held d s p pr Hs Hpol Hp (Hh p Hp) Hf Hcfg Hroom) as (d' & s' & E & Hs' & Hp' & D').
    rewrite E. eexists. split; [reflexivity|]. cbn [m_w m_held fst snd]. split_and!; auto.
    + intros q. specialize (Hh0 q). unfold bump. repeat case_decide; lia.
    + intros q Hq. assert (Hq' : q <> p /\ procs s !! q = None).
      { split; [intros ->|]; [|apply eq_None_not_Some; intros Hx]; assert (X : is_Some (procs s' !! _)) by (apply D'; eauto);
          rewrite Hq in X; by destruct X. }
      destruct Hq' as [Hne Hq']. unfold bump. repeat case_decide; try done; by apply Hh.
  - destruct (remove_client_ok held d s p Hs Hpol (Hh0 p)) as (d' & s' & E & Hs' & Hp' & D').
    rewrite E. eexists. split; [reflexivity|]. cbn. split_and!; auto. by apply (held_dom s).
  - apply fmap_Some in Hok as (pr & Hp & Hr). destruct (sched_delete_ok (Gof held s) s p pr Hs Hp (eq_sym Hr)) as (Hs' & HG & Hc).
    eexists. split; [reflexivity|]. cbn. split_and!; auto. intros q Hq. destruct (decide (q = p)) as [->|Hne].
    + unfold Gof in HG. rewrite decide_False in HG by done. lia.
    + rewrite lookup_delete_ne in Hq by done. by apply Hh.
  - destruct Hok as (pr & Hp & Hl). eexists. split; [reflexivity|]. apply Hgood. split; cbn [fst snd]; [|done].
    replace (upd_proc p (set_threads l) s) with (upd_proc p (fun _ => set_threads l pr) s); [by apply sched_teq|].
    unfold upd_proc. f_equal. apply map_eq. intros q. destruct (decide (q = p)) as [->|]; [|by rewrite !lookup_alter_ne].
    by rewrite !lookup_alter_eq, Hp.
  - destruct Hok as (pr & Hp & Hr). destruct (proc_get_inv (Gof held s) s p pr Hs Hp Hr) as (s' & E & Hs' & C' & D').
    rewrite E. eexists. split; [reflexivity|]. cbn. split_and!.
    + eapply (Gof_runs _ s); [done|exact Hs'|]. intros q. unfold Gof, bump. repeat case_decide; lia.
    + unfold cl. by rewrite C'.
    + intros q. specialize (Hh0 q). unfold bump. repeat case_decide; lia.
    + intros q Hq. unfold bump. case_decide as Hqp; [|by eapply held_dom]. subst q.
      assert (X : is_Some (procs s' !! p)) by (apply D'; eauto). rewrite Hq in X. by destruct X.
  - destruct (procs s !! p) as [pr|] eqn:Hp; [|specialize (Hh p Hp); lia].
    destruct (proc_put_inv (Gof held s) s p pr Hs Hp) as (s' & E & Hs' & C' & D').
    { unfold Gof. case_decide; lia. }
    { intros Hc. unfold Gof. rewrite decide_True by done. lia. }
    rewrite E. eexists. split; [reflexivity|]. cbn. split_and!.
    + eapply (Gof_runs _ s); [done|exact Hs'|]. intros q. unfold Gof, bump. repeat case_decide; lia.
    + unfold cl. by rewrite C'.
    + intros q. specialize (Hh0 q). unfold bump. repeat case_decide; subst; lia.
    + intros q Hq. unfold bump. case_decide as Hqp; [|by eapply held_dom]. subst q.
      assert (X : is_Some (procs s' !! p)) by (apply D'; eauto). rewrite Hq in X. by destruct X.
Qed.
End mach.
