(* ===== verification/IokSimple.v ===== *)
(** * iokernel/simple.c: the simple scheduling policy *)

From S2P Require Import Prelude Stddef Lrpc IokState IokSched IokInv IokBase IokCores IokPoll IokMach.

Definition NHIST : nat := 4.

Section simple.
Context (T : topo).

(** The CPU load is a [float]: its type, initial value and the weighted average of
    the code (of the old load, the active threads and the maximum) are parameters. *)
Context {F : Type} (load0 : F) (load_ewma : F -> Z -> Z -> F).

Record simple_data := SimpleData {
  is_congested : bool;
  threads_guaranteed : Z;
  threads_max : Z;
  threads_active : Z;
  load : F;
  standing_queue_us : Z;
  waking : bool;
}.

Definition set_congested (v : bool) (d : simple_data) : simple_data :=
  SimpleData v (threads_guaranteed d) (threads_max d) (threads_active d) (load d) (standing_queue_us d) (waking d).
Definition set_threads_active (v : Z) (d : simple_data) : simple_data :=
  SimpleData (is_congested d) (threads_guaranteed d) (threads_max d) v (load d) (standing_queue_us d) (waking d).
Definition set_waking (v : bool) (d : simple_data) : simple_data :=
  SimpleData (is_congested d) (threads_guaranteed d) (threads_max d) (threads_active d) (load d) (standing_queue_us d) v.

(** The policy's variables; [simple_data] structs are named by their process. *)
Record simple := Simple {
  sds : gmap nat simple_data;
  congested_procs : list nat;
  simple_idle_cores : gset nat;
  run_on : list (option nat);            (* cores[] *)
  hist : list (list (option nat));
}.

Definition set_sds v (d : simple) := Simple v (congested_procs d) (simple_idle_cores d) (run_on d) (hist d).
Definition set_congested_procs v (d : simple) := Simple (sds d) v (simple_idle_cores d) (run_on d) (hist d).
Definition set_simple_idle_cores v (d : simple) := Simple (sds d) (congested_procs d) v (run_on d) (hist d).
Definition set_run_on v (d : simple) := Simple (sds d) (congested_procs d) (simple_idle_cores d) v (hist d).
Definition set_hist v (d : simple) := Simple (sds d) (congested_procs d) (simple_idle_cores d) (run_on d) v.

Definition get_sd (p : nat) (d : simple) : res simple_data :=
  match sds d !! p with Some sd => Ok sd | None => Bug end.
Definition upd_sd (p : nat) (f : simple_data -> simple_data) (d : simple) : simple := set_sds (alter f p (sds d)) d.
Definition get_run_on (c : nat) (d : simple) : res (option nat) :=
  match run_on d !! c with Some x => Ok x | None => Bug end.
Definition get_hist (c : nat) (d : simple) : res (list (option nat)) :=
  match hist d !! c with Some x => Ok x | None => Bug end.

Definition simple_proc_is_preemptible (cur next : simple_data) : bool :=
  (threads_guaranteed cur <? threads_active cur) && (threads_active next <? threads_guaranteed next).

Definition simple_cleanup_core (c : nat) (d : simple) : res simple :=
  sd ← get_run_on c d;
  match sd with
  | None => Ok d
  | Some p =>
      x ← get_sd p d;
      let d := upd_sd p (set_threads_active (threads_active x - 1)) d in
      let d := set_run_on (<[c := None]> (run_on d)) d in
      h ← get_hist c d;
      Ok (set_hist (<[c := Some p :: take (NHIST - 1) h]> (hist d)) d)
  end.

Definition simple_mark_congested (p : nat) (d : simple) : res simple :=
  x ← get_sd p d;
  if is_congested x then Ok d
  else Ok (set_congested_procs (p :: congested_procs d) (upd_sd p (set_congested true) d)).

Definition simple_unmark_congested (p : nat) (d : simple) : res simple :=
  x ← get_sd p d;
  if negb (is_congested x) then Ok d
  else Ok (set_congested_procs (filter (fun q => q <> p) (congested_procs d)) (upd_sd p (set_congested false) d)).

(** [malloc_ok]: whether [malloc] succeeds.  The limits are converted to [int]. *)
Definition simple_attach (malloc_ok : bool) (p : nat) (cfg : sched_spec) (w : simple * sched) : res (Z * (simple * sched)) :=
  if negb malloc_ok then Ok (- ENOMEM, w)
  else
    let sd := SimpleData false (s32 (guaranteed_cores cfg)) (s32 (max_cores cfg)) 0 load0 0 false in
    Ok (0, (set_sds (<[p := sd]> (sds w.1)) w.1, w.2)).

Definition forget (p : nat) (x : option nat) : option nat := if bool_decide (x = Some p) then None else x.

Definition simple_detach (p : nat) (w : simple * sched) : res (simple * sched) :=
  d ← simple_unmark_congested p w.1;
  let d := set_run_on (map (forget p) (run_on d)) d in
  let d := set_hist (map (map (forget p)) (hist d)) d in
  Ok (set_sds (delete p (sds d)) d, w.2).

Definition simple_run_kthread_on_core (p c : nat) (w : simple * sched) : res (Z * (simple * sched)) :=
  pr ← get_proc p w.2;
  if sched_threads_avail pr =? 0 then Ok (- EBUSY, w)
  else
    '(ret, s) ← sched_run_on_core T p c w.2;
    if negb (ret =? 0) then Ok (ret, (w.1, s))
    else
      d ← simple_cleanup_core c w.1;
      x ← get_sd p d;
      let d := set_run_on (<[c := Some p]> (run_on d)) d in
      let d := set_simple_idle_cores (simple_idle_cores d ∖ {[c]}) d in
      Ok (0, (upd_sd p (fun y => set_waking true (set_threads_active (threads_active x + 1) y)) d, s)).

(** Core [c] runs another process, or none, and [p] may take it. *)
Definition takeable (p c : nat) (d : simple) : res bool :=
  cur ← get_run_on c d;
  x ← get_sd p d;
  match cur with
  | None => Ok true
  | Some q => if bool_decide (q = p) then Ok false else y ← get_sd q d; Ok (simple_proc_is_preemptible y x)
  end.

(** A core one of the idle threads [l] ran on, or its sibling. *)
Fixpoint choose_prev (p : nat) (pr : proc) (l : list nat) (d : simple) : res (option nat) :=
  match l with
  | [] => Ok None
  | i :: l =>
      match threads pr !! i with
      | None => Bug
      | Some t =>
          match core t with
          | None => Ok None
          | Some c =>
              if (NCPU <=? c)%nat then Ok None
              else
                b ← takeable p c d;
                if (b : bool) then Ok (Some c)
                else
                  let sib := sched_siblings T c in
                  b ← takeable p sib d;
                  if (b : bool) && bool_decide (sib ∈ sched_allowed_cores T) then Ok (Some sib)
                  else choose_prev p pr l d
          end
      end
  end.

(** The hyperthread of a core that runs [p]. *)
Fixpoint choose_sibling (p : nat) (l : list nat) (d : simple) : res (option nat) :=
  match l with
  | [] => Ok None
  | c :: l =>
      cur ← get_run_on c d;
      if negb (bool_decide (cur = Some p)) then choose_sibling p l d
      else
        let sib := sched_siblings T c in
        b ← takeable p sib d;
        if (b : bool) && bool_decide (sib ∈ sched_allowed_cores T) then Ok (Some sib) else choose_sibling p l d
  end.

(** Any core that can be preempted. *)
Fixpoint choose_preempt (p : nat) (l : list nat) (d : simple) : res (option nat) :=
  match l with
  | [] => Ok None
  | c :: l =>
      cur ← get_run_on c d;
      match cur with
      | None => choose_preempt p l d
      | Some _ => b ← takeable p c d; if (b : bool) then Ok (Some c) else choose_preempt p l d
      end
  end.

(** The first core of a bitmap. *)
Definition first_set (bits : gset nat) : option nat := list.head (filter (fun c => c ∈ bits) (seq 0 NCPU)).

Definition simple_choose_core (p : nat) (w : simple * sched) : res (option nat) :=
  pr ← get_proc p w.2;
  r ← choose_prev p pr (idle_threads pr) w.1;
  match r with
  | Some c => Ok (Some c)
  | None =>
      match first_set (simple_idle_cores w.1) with
      | Some c => Ok (Some c)
      | None =>
          r ← choose_sibling p (sched_cores_tbl T) w.1;
          match r with
          | Some c => Ok (Some c)
          | None => choose_preempt p (sched_cores_tbl T) w.1
          end
      end
  end.

Definition simple_add_kthread (p : nat) (w : simple * sched) : res (Z * (simple * sched)) :=
  x ← get_sd p w.1;
  if threads_max x <=? threads_active x then Ok (- ENOENT, w)
  else
    c ← simple_choose_core p w;
    match c with
    | None => Ok (- ENOENT, w)
    | Some c => simple_run_kthread_on_core p c w
    end.

Definition simple_notify_core_needed (p : nat) (w : simple * sched) : res (Z * (simple * sched)) := simple_add_kthread p w.

Definition simple_update_congestion_info (x : simple_data) : simple_data :=
  SimpleData (is_congested x) (threads_guaranteed x) (threads_max x) (threads_active x)
    (load_ewma (load x) (threads_active x) (threads_max x))
    (if is_congested x then u64 (standing_queue_us x + IOKERNEL_POLL_INTERVAL) else 0) (waking x).

Definition simple_notify_congested (p : nat) (ths io : gset nat) (w : simple * sched) : res (simple * sched) :=
  x ← get_sd p w.1;
  w ← (if waking x then Ok (upd_sd p (set_waking false) w.1, w.2)
       else if (size ths + size io =? 0)%nat then d ← simple_unmark_congested p w.1; Ok (d, w.2)
       else if is_congested x then Ok w
       else
         '(ret, w) ← simple_add_kthread p w;
         if ret =? 0 then Ok w else d ← simple_mark_congested p w.1; Ok (d, w.2));
  Ok (upd_sd p simple_update_congestion_info w.1, w.2).

(** [sd && sd->is_congested && sched_threads_avail(sd->p)] *)
Definition wants (x : option nat) (w : simple * sched) : res bool :=
  match x with
  | None => Ok false
  | Some p =>
      sd ← get_sd p w.1;
      if negb (is_congested sd) then Ok false
      else pr ← get_proc p w.2; Ok (negb (sched_threads_avail pr =? 0))
  end.

(** The first candidate that wants a core. *)
Fixpoint first_wants (l : list (option nat)) (w : simple * sched) : res (option nat) :=
  match l with
  | [] => Ok None
  | x :: l => b ← wants x w; if (b : bool) then Ok x else first_wants l w
  end.

Fixpoint first_avail (l : list nat) (s : sched) : res (option nat) :=
  match l with
  | [] => Ok None
  | p :: l => pr ← get_proc p s; if sched_threads_avail pr =? 0 then first_avail l s else Ok (Some p)
  end.

Fixpoint interleave (l1 l2 : list (option nat)) : list (option nat) :=
  match l1, l2 with x :: l1, y :: l2 => x :: y :: interleave l1 l2 | _, _ => [] end.

Definition simple_choose_kthread (c : nat) (w : simple * sched) : res (option nat) :=
  let sib := sched_siblings T c in
  x ← get_run_on sib w.1;
  h1 ← get_hist c w.1;
  h2 ← get_hist sib w.1;
  r ← first_wants (x :: interleave h1 h2) w;
  match r with Some p => Ok (Some p) | None => first_avail (congested_procs w.1) w.2 end.

(** One core that went idle. *)
Definition simple_poll_core (c : nat) (w : simple * sched) : res (simple * sched) :=
  cur ← get_run_on c w.1;
  d ← match cur with None => Ok w.1 | Some p => simple_unmark_congested p w.1 end;
  d ← simple_cleanup_core c d;
  r ← simple_choose_kthread c (d, w.2);
  match r with
  | None => Ok (set_simple_idle_cores ({[c]} ∪ simple_idle_cores d) d, w.2)
  | Some p =>
      '(ret, w) ← simple_run_kthread_on_core p c (d, w.2);
      if ret =? 0 then Ok w
      else
        d ← simple_mark_congested p (set_simple_idle_cores ({[c]} ∪ simple_idle_cores w.1) w.1);
        Ok (d, w.2)
  end.

Fixpoint simple_poll_cores (l : list nat) (w : simple * sched) : res (simple * sched) :=
  match l with [] => Ok w | c :: l => w ← simple_poll_core c w; simple_poll_cores l w end.

Definition simple_sched_poll (now : Z) (idle_cnt : nat) (bits : gset nat) (w : simple * sched) : res (simple * sched) :=
  if (idle_cnt =? 0)%nat then Ok w else simple_poll_cores (filter (fun c => c ∈ bits) (seq 0 NCPU)) w.

Definition simple_ops (malloc_ok : bool) : sched_ops simple :=
  SchedOps _ (simple_attach malloc_ok) simple_detach simple_notify_congested simple_notify_core_needed simple_sched_poll.

(** [simple_init], on zeroed memory. *)
Definition simple_init : simple :=
  Simple ∅ [] (sched_allowed_cores T) (replicate NCPU None) (replicate NCPU (replicate NHIST None)).
End simple.
