(* ===== verification/IokSimpleInv.v ===== *)
(** * The simple policy keeps its promises *)

From S2P Require Import Prelude Stddef Lrpc IokState IokSched IokInv IokBase IokCores IokPoll IokMach IokSimple.

Definition cnt (p : nat) (l : list (option nat)) : Z := Z.of_nat (length (filter (fun y => y = Some p) l)).

Lemma cnt_insert p l c v y :
  l !! c = Some y ->
  cnt p (<[c := v]> l) = cnt p l - (if decide (y = Some p) then 1 else 0) + (if decide (v = Some p) then 1 else 0).
Proof.
  intros Hc. assert (Hl := lookup_lt_Some _ _ _ Hc). unfold cnt.
  rewrite <- (take_drop_middle l c y Hc) at 2. rewrite insert_take_drop, !list.filter_app, !length_app, !filter_cons by done.
  destruct (decide (v = Some p)), (decide (y = Some p)); cbn [length]; lia.
Qed.

Lemma cnt_pos p l : 0 <= cnt p l.
Proof. unfold cnt. lia. Qed.

Lemma elem_interleave x l1 l2 : x ∈ interleave l1 l2 -> x ∈ l1 \/ x ∈ l2.
Proof.
  revert l2. induction l1 as [|a l1 IH]; intros [|b l2]; cbn; try (by intros ?%elem_of_nil).
  rewrite !elem_of_cons. intros [->|[->|H]]; [auto|auto|]. apply IH in H. tauto.
Qed.

Section inv.
Context (T : topo) (HT : topo_ok T) (U : list tref).
Context {F : Type}.
Abbreviation A := (sched_allowed_cores T).
Abbreviation data := (simple_data (F := F)).
Abbreviation st := (simple (F := F)).

Record simple_inv (d : st) (X : gset nat) : Prop := {
  sm_dom : forall p, is_Some (sds d !! p) <-> p ∈ X;
  sm_len : length (run_on d) = NCPU;
  sm_hlen : length (hist d) = NCPU;
  sm_run : forall c p, run_on d !! c = Some (Some p) -> p ∈ X;
  sm_hist : forall c h p, hist d !! c = Some h -> Some p ∈ h -> p ∈ X;
  sm_cnt : forall p x, sds d !! p = Some x -> threads_active x = cnt p (run_on d);
  sm_cong : forall p x, sds d !! p = Some x -> is_congested x = true <-> p ∈ congested_procs d;
  sm_congX : forall p, p ∈ congested_procs d -> p ∈ X;
  sm_nodup : NoDup (congested_procs d);
  sm_idle : forall c, c ∈ simple_idle_cores d -> c ∈ A /\ run_on d !! c = Some None;
}.

(** The limits of the processes are kept. *)
Definition same_limits (d d' : st) : Prop :=
  forall p, (fun x => (threads_guaranteed x, threads_max x)) <$> sds d' !! p =
            (fun x => (threads_guaranteed x, threads_max x)) <$> sds d !! p.

Lemma get_sd_ok d X p : simple_inv d X -> p ∈ X -> exists x, sds d !! p = Some x /\ get_sd p d = Ok x.
Proof. intros H Hp. apply (sm_dom _ _ H) in Hp as [x Hx]. exists x. unfold get_sd. by rewrite Hx. Qed.

Lemma get_run_on_ok d X c : simple_inv d X -> (c < NCPU)%nat -> exists x, run_on d !! c = Some x /\ get_run_on c d = Ok x.
Proof.
  intros H Hc. destruct (lookup_lt_is_Some_2 (run_on d) c) as [x Hx]; [by rewrite (sm_len _ _ H)|].
  exists x. unfold get_run_on. by rewrite Hx.
Qed.

Lemma get_hist_ok d X c : simple_inv d X -> (c < NCPU)%nat -> exists h, hist d !! c = Some h /\ get_hist c d = Ok h.
Proof.
  intros H Hc. destruct (lookup_lt_is_Some_2 (hist d) c) as [x Hx]; [by rewrite (sm_hlen _ _ H)|].
  exists x. unfold get_hist. by rewrite Hx.
Qed.

Lemma alter_limits (f : data -> data) p (d : st) :
  (forall x, threads_guaranteed (f x) = threads_guaranteed x /\ threads_max (f x) = threads_max x) ->
  forall q, (fun x => (threads_guaranteed x, threads_max x)) <$> alter f p (sds d) !! q =
            (fun x => (threads_guaranteed x, threads_max x)) <$> sds d !! q.
Proof.
  intros Hf q. destruct (decide (q = p)) as [->|]; [|by rewrite lookup_alter_ne].
  rewrite lookup_alter_eq. destruct (sds d !! p) as [x|]; [|done]. cbn. destruct (Hf x) as [-> ->]. done.
Qed.

(** Fields that are no part of the invariant. *)
Lemma upd_sd_ok d X p f :
  (forall x, is_congested (f x) = is_congested x /\ threads_active (f x) = threads_active x) ->
  simple_inv d X -> simple_inv (upd_sd p f d) X.
Proof.
  intros Hf [H1 H2 H3 H4 H5 H6 H7 H8 H9 H10]. assert (Hq : forall q x, sds (upd_sd p f d) !! q = Some x ->
    exists y, sds d !! q = Some y /\ is_congested x = is_congested y /\ threads_active x = threads_active y).
  { intros q x. cbn. destruct (decide (q = p)) as [->|]; [|rewrite lookup_alter_ne by done; eauto].
    rewrite lookup_alter_eq. intros (y & Hy & ->)%fmap_Some. destruct (Hf y). eauto. }
  split; auto.
  - intros q. cbn. by rewrite lookup_alter_is_Some.
  - intros q x (y & Hy & _ & ->)%Hq. by apply H6.
  - intros q x (y & Hy & -> & _)%Hq. by apply H7.
Qed.

Lemma unmark_ok d X p :
  simple_inv d X -> p ∈ X ->
  exists d', simple_unmark_congested p d = Ok d' /\ simple_inv d' X /\ run_on d' = run_on d /\ same_limits d d' /\
    simple_idle_cores d' = simple_idle_cores d /\ hist d' = hist d /\ p ∉ congested_procs d'.
Proof.
  intros H Hp. destruct (get_sd_ok d X p H Hp) as (x & Hx & E). unfold simple_unmark_congested. rewrite E. cbn [mbind res_bind].
  destruct (is_congested x) eqn:Ec; cbn [negb].
  2: { exists d. split_and!; auto; [done|]. rewrite <- (sm_cong _ _ H p x Hx). congruence. }
  eexists. split; [reflexivity|]. split_and!; auto; [|intros ?; by apply alter_limits|cbn; rewrite list_elem_of_filter; tauto].
  destruct H as [H1 H2 H3 H4 H5 H6 H7 H8 H9 H10]. split; auto; cbn.
  - intros q. by rewrite lookup_alter_is_Some.
  - intros q y. destruct (decide (q = p)) as [->|]; [|rewrite lookup_alter_ne by done; apply H6].
    rewrite lookup_alter_eq, Hx. intros [= <-]. cbn. by apply H6.
  - intros q y. rewrite list_elem_of_filter. destruct (decide (q = p)) as [->|]; [|rewrite lookup_alter_ne by done; intros Hy; rewrite (H7 q y Hy); tauto].
    rewrite lookup_alter_eq, Hx. intros [= <-]. cbn. split; [done|tauto].
  - intros q [_ Hq]%list_elem_of_filter. by apply H8.
  - by apply list.NoDup_filter.
Qed.

Lemma mark_ok d X p :
  simple_inv d X -> p ∈ X ->
  exists d', simple_mark_congested p d = Ok d' /\ simple_inv d' X /\ run_on d' = run_on d /\ same_limits d d'.
Proof.
  intros H Hp. destruct (get_sd_ok d X p H Hp) as (x & Hx & E). unfold simple_mark_congested. rewrite E. cbn [mbind res_bind].
  destruct (is_congested x) eqn:Ec; [by exists d|].
  eexists. split; [reflexivity|]. split_and!; auto; [|intros ?; by apply alter_limits].
  assert (Hn : p ∉ congested_procs d) by (rewrite <- (sm_cong _ _ H p x Hx); congruence).
  destruct H as [H1 H2 H3 H4 H5 H6 H7 H8 H9 H10]. split; auto; cbn.
  - intros q. by rewrite lookup_alter_is_Some.
  - intros q y. destruct (decide (q = p)) as [->|]; [|rewrite lookup_alter_ne by done; apply H6].
    rewrite lookup_alter_eq, Hx. intros [= <-]. cbn. by apply H6.
  - intros q y. rewrite elem_of_cons. destruct (decide (q = p)) as [->|]; [|rewrite lookup_alter_ne by done; intros Hy; rewrite (H7 q y Hy); tauto].
    rewrite lookup_alter_eq, Hx. intros [= <-]. cbn. tauto.
  - intros q [->|Hq]%elem_of_cons; auto.
  - by constructor.
Qed.

(** A core is taken from its process. *)
Lemma cleanup_ok d X c :
  simple_inv d X -> (c < NCPU)%nat ->
  exists d', simple_cleanup_core c d = Ok d' /\ simple_inv d' X /\ run_on d' = <[c := None]> (run_on d) /\ same_limits d d' /\
    simple_idle_cores d' = simple_idle_cores d /\ congested_procs d' = congested_procs d.
Proof.
  intros H Hc. destruct (get_run_on_ok d X c H Hc) as ([p|] & Hr & E); unfold simple_cleanup_core; rewrite E; cbn [mbind res_bind].
  2: { exists d. split_and!; auto; [by rewrite list_insert_id|done]. }
  assert (Hp := sm_run _ _ H c p Hr). destruct (get_sd_ok d X p H Hp) as (x & Hx & Ex). rewrite Ex. cbn [mbind res_bind].
  destruct (get_hist_ok d X c H Hc) as (h & Hh & Eh). unfold get_hist in *. cbn [hist set_run_on upd_sd set_sds]. rewrite Hh. cbn [mbind res_bind].
  eexists. split; [reflexivity|]. split_and!; auto; [|intros ?; by apply alter_limits].
  destruct H as [H1 H2 H3 H4 H5 H6 H7 H8 H9 H10]. split; auto; cbn.
  - intros q. by rewrite lookup_alter_is_Some.
  - by rewrite length_insert.
  - by rewrite length_insert.
  - intros c' q. destruct (decide (c' = c)) as [->|]; [rewrite list_lookup_insert_eq by lia; done|].
    rewrite list_lookup_insert_ne by done. apply H4.
  - intros c' h' q. destruct (decide (c' = c)) as [->|]; [rewrite list_lookup_insert_eq by lia|rewrite list_lookup_insert_ne by done; apply H5].
    intros [= <-] [[= ->]|Hq]%elem_of_cons; [done|]. apply (H5 c h q Hh). apply elem_of_take in Hq as (j & Hj & _). by eapply list_elem_of_lookup_2.
  - intros q y. rewrite (cnt_insert q _ c None (Some p) Hr). rewrite (decide_False (P := None = Some q)) by done. destruct (decide (q = p)) as [->|Hne].
    + rewrite lookup_alter_eq, Hx. intros [= <-]. cbn. rewrite decide_True, (H6 p x Hx) by done. lia.
    + rewrite lookup_alter_ne by done. intros Hy. rewrite decide_False, (H6 q y Hy) by congruence. lia.
  - intros q y. destruct (decide (q = p)) as [->|]; [|rewrite lookup_alter_ne by done; apply H7].
    rewrite lookup_alter_eq, Hx. intros [= <-]. cbn. by apply H7.
  - intros c' Hi. destruct (H10 c' Hi) as [Ha Hn]. split; [done|]. rewrite list_lookup_insert_ne; [done|]. intros ->. congruence.
Qed.

(** ** Attaching and detaching *)

Lemma cnt_zero p l : (forall c : nat, l !! c <> Some (Some p)) -> cnt p l = 0.
Proof.
  intros H. unfold cnt. destruct (filter _ l) as [|y l'] eqn:E; [done|]. exfalso.
  assert (Hy : y ∈ filter (fun y => y = Some p) l) by (rewrite E; by left).
  apply list_elem_of_filter in Hy as [-> [c Hc]%list_elem_of_lookup_1]. by apply (H c).
Qed.

Lemma attach_ok (load0 : F) d X s m p cfg :
  simple_inv d X -> p ∉ X ->
  exists ret d', simple_attach load0 m p cfg (d, s) = Ok (ret, (d', s)) /\ simple_inv d' (if ret =? 0 then {[p]} ∪ X else X).
Proof.
  intros H Hp. unfold simple_attach. destruct m; cbn [negb].
  2: { by exists (- ENOMEM), d. }
  eexists 0, _. split; [reflexivity|]. cbn [Z.eqb]. destruct H as [H1 H2 H3 H4 H5 H6 H7 H8 H9 H10].
  split; auto; cbn.
  - intros q. rewrite lookup_insert_is_Some, elem_of_union, elem_of_singleton, <- H1. destruct (decide (p = q)); naive_solver.
  - intros c q Hq. apply elem_of_union_r. by eapply H4.
  - intros c h q Hh Hq. apply elem_of_union_r. by eapply H5.
  - intros q x. destruct (decide (q = p)) as [->|].
    + rewrite lookup_insert_eq. intros [= <-]. cbn. symmetry. apply cnt_zero. intros c Hc. by apply H4 in Hc.
    + rewrite lookup_insert_ne by done. apply H6.
  - intros q x. destruct (decide (q = p)) as [->|].
    + rewrite lookup_insert_eq. intros [= <-]. cbn. split; [done|]. intros Hq. by apply H8 in Hq.
    + rewrite lookup_insert_ne by done. apply H7.
  - intros q Hq. apply elem_of_union_r. by apply H8.
Qed.

Lemma forget_Some p x q : forget p x = Some q <-> x = Some q /\ q <> p.
Proof. unfold forget. destruct (bool_decide (x = Some p)) eqn:E; [apply bool_decide_eq_true in E|apply bool_decide_eq_false in E]; naive_solver. Qed.

Lemma cnt_forget p q l : q <> p -> cnt q (map (forget p) l) = cnt q l.
Proof.
  intros Hne. unfold cnt. induction l as [|x l IH]; [done|]. cbn [map]. rewrite !filter_cons.
  assert (H := forget_Some p x q). destruct (decide (forget p x = Some q)), (decide (x = Some q)); cbn [length]; [lia|naive_solver..|lia].
Qed.

Lemma detach_ok d X s p :
  simple_inv d X -> p ∈ X -> exists d', simple_detach p (d, s) = Ok (d', s) /\ simple_inv d' (X ∖ {[p]}).
Proof.
  intros H Hp. unfold simple_detach. cbn [fst snd].
  destruct (unmark_ok d X p H Hp) as (d1 & -> & H' & _ & _ & _ & _ & Hn). cbn [mbind res_bind].
  eexists. split; [reflexivity|]. destruct H' as [H1 H2 H3 H4 H5 H6 H7 H8 H9 H10]. split; cbn; rewrite ?length_map; auto.
  - intros q. rewrite lookup_delete_is_Some, H1. set_solver.
  - intros c q. rewrite list_lookup_fmap. intros (x & Hx & Hq)%fmap_Some. symmetry in Hq. apply forget_Some in Hq as [-> Hq].
    apply H4 in Hx. set_solver.
  - intros c h q. rewrite list_lookup_fmap. intros (h0 & Hh & ->)%fmap_Some Hq.
    apply list_elem_of_fmap in Hq as (x & Hx & Hin). symmetry in Hx. apply forget_Some in Hx as [-> Hq]. apply (H5 c h0 q Hh) in Hin. set_solver.
  - intros q x [Hne Hx]%lookup_delete_Some. rewrite cnt_forget by done. by apply H6.
  - intros q x [Hne Hx]%lookup_delete_Some. by apply H7.
  - intros q Hq. assert (q <> p) by (intros ->; done). apply H8 in Hq. set_solver.
  - intros c Hc. destruct (H10 c Hc) as [Ha Hn0]. split; [done|]. rewrite list_lookup_fmap, Hn0. done.
Qed.

(** ** Running a kthread *)

(** A core without process gets one. *)
Lemma place_ok d X c p x f :
  simple_inv d X -> run_on d !! c = Some None -> sds d !! p = Some x ->
  is_congested (f x) = is_congested x -> threads_active (f x) = threads_active x + 1 ->
  simple_inv (upd_sd p f (set_simple_idle_cores (simple_idle_cores d ∖ {[c]}) (set_run_on (<[c := Some p]> (run_on d)) d))) X.
Proof.
  intros [H1 H2 H3 H4 H5 H6 H7 H8 H9 H10] Hc Hx Hcg Hta. assert (Hl := lookup_lt_Some _ _ _ Hc). split; cbn; auto.
  - intros q. by rewrite lookup_alter_is_Some.
  - by rewrite length_insert.
  - intros c' q. destruct (decide (c' = c)) as [->|]; [rewrite list_lookup_insert_eq by done|rewrite list_lookup_insert_ne by done; apply H4].
    intros [= <-]. apply H1. eauto.
  - intros q y. rewrite (cnt_insert q _ c (Some p) None Hc), (decide_False (P := None = Some q)) by done. destruct (decide (q = p)) as [->|Hne].
    + rewrite lookup_alter_eq, Hx. intros [= <-]. rewrite decide_True, Hta, (H6 p x Hx) by done. lia.
    + rewrite lookup_alter_ne by done. intros Hy. rewrite decide_False, (H6 q y Hy) by congruence. lia.
  - intros q y. destruct (decide (q = p)) as [->|]; [|rewrite lookup_alter_ne by done; apply H7].
    rewrite lookup_alter_eq, Hx. intros [= <-]. rewrite Hcg. by apply H7.
  - intros c' [Hi Hn]%elem_of_difference. rewrite elem_of_singleton in Hn. destruct (H10 c' Hi) as [Ha Hr]. split; [done|].
    by rewrite list_lookup_insert_ne.
Qed.

Lemma avail_idle s G p pr :
  sched_inv T G U s -> procs s !! p = Some pr -> sched_threads_avail pr <> 0 -> idle_threads pr <> [].
Proof.
  intros Hs Hp Ha Hi. assert (Hok := bi_proc _ _ _ _ (sv_base _ _ _ _ Hs) p pr Hp).
  assert (E := Permutation_length (po_perm pr Hok)). rewrite Hi, app_nil_r, length_seq in E.
  unfold sched_threads_avail, active_thread_count in Ha. lia.
Qed.

Lemma run_kthread_ok G d s p c :
  sched_inv T G U s -> simple_inv d (cl s) -> p ∈ clients s -> c ∈ A ->
  exists ret d' s', simple_run_kthread_on_core T p c (d, s) = Ok (ret, (d', s')) /\ runs T U G s s' /\ simple_inv d' (cl s') /\
    same_limits d d' /\
    (ret = 0 /\ run_on d' = <[c := Some p]> (run_on d) \/ ret = - EBUSY /\ d' = d /\ s' = s /\ sched_threads_avail <$> procs s !! p = Some 0).
Proof.
  intros Hs Hd Hp Hc. destruct (sv_clients _ _ _ _ Hs p Hp) as [[pr Hpr] Hg]. assert (Hcn := tk_range T HT c Hc).
  unfold simple_run_kthread_on_core, get_proc. cbn [fst snd]. rewrite Hpr. cbn [mbind res_bind].
  destruct (Z.eqb_spec (sched_threads_avail pr) 0) as [Ez|Ez].
  { exists (- EBUSY), d, s. split_and!; auto; [by apply runs_refl|done|]. right. cbn. by rewrite Ez. }
  destruct (sched_run_on_core_ok T HT U G s p pr c Hs Hpr Hg) as (ret & s' & -> & R & _ & H0). cbn [mbind res_bind].
  rewrite (H0 (avail_idle s G p pr Hs Hpr Ez) Hc). cbn [Z.eqb negb].
  destruct (cleanup_ok d (cl s) c Hd Hcn) as (d1 & -> & Hd1 & E1 & L1 & I1 & C1). cbn [mbind res_bind].
  assert (HpX : p ∈ cl s) by (unfold cl; by rewrite elem_of_list_to_set).
  destruct (get_sd_ok d1 (cl s) p Hd1 HpX) as (x & Hx & ->). cbn [mbind res_bind].
  eexists 0, _, s'. split; [reflexivity|]. split; [done|]. rewrite (cl_runs T U G s s' R). split_and!.
  - assert (Hn : run_on d1 !! c = Some None) by (rewrite E1; apply list_lookup_insert_eq; by rewrite (sm_len _ _ Hd)).
    exact (place_ok d1 (cl s) c p x (fun y => set_waking true (set_threads_active (threads_active x + 1) y)) Hd1 Hn Hx eq_refl eq_refl).
  - intros q. rewrite <- L1. cbn. rewrite (alter_limits _ p (set_simple_idle_cores (simple_idle_cores d1 ∖ {[c]}) (set_run_on (<[c := Some p]> (run_on d1)) d1))) by done. done.
  - left. split; [done|]. cbn. rewrite E1. by rewrite list_insert_insert_eq.
Qed.

(** ** Choosing a core *)

(** The core is free, or its process has more than it is guaranteed and [p] less. *)
Definition may_take (p c : nat) (d : st) : Prop :=
  run_on d !! c = Some None \/
  exists q x y, run_on d !! c = Some (Some q) /\ q <> p /\ sds d !! q = Some y /\ sds d !! p = Some x /\
    threads_guaranteed y < threads_active y /\ threads_active x < threads_guaranteed x.

Lemma takeable_ok d X p c :
  simple_inv d X -> p ∈ X -> (c < NCPU)%nat -> exists b, takeable p c d = Ok b /\ (b = true -> may_take p c d).
Proof.
  intros H Hp Hc. destruct (get_run_on_ok d X c H Hc) as (cur & Hr & E1). destruct (get_sd_ok d X p H Hp) as (x & Hx & E2).
  unfold takeable. rewrite E1, E2. cbn [mbind res_bind]. destruct cur as [q|]; [|exists true; split; [done|]; intros _; by left].
  destruct (bool_decide (q = p)) eqn:Eq; [by exists false|]. apply bool_decide_eq_false in Eq.
  destruct (get_sd_ok d X q H (sm_run _ _ H c q Hr)) as (y & Hy & E3). rewrite E3. cbn [mbind res_bind].
  eexists. split; [reflexivity|]. unfold simple_proc_is_preemptible. intros Hb. bprop. right. exists q, x, y. split_and!; auto.
Qed.

Definition chosen (p : nat) (d : st) (r : option nat) : Prop := forall c, r = Some c -> c ∈ A /\ may_take p c d.

Lemma choose_prev_ok d X p pr l :
  simple_inv d X -> p ∈ X ->
  (forall i, i ∈ l -> exists t, threads pr !! i = Some t /\ forall c, core t = Some c -> c ∈ A) ->
  exists r, choose_prev T p pr l d = Ok r /\ chosen p d r.
Proof.
  intros H Hp. induction l as [|i l IH]; intros Hl; cbn [choose_prev]; [by exists None|].
  destruct (Hl i) as (t & -> & Hcore); [by left|]. destruct (core t) as [c|] eqn:Ec; [|by exists None].
  specialize (Hcore c eq_refl). assert (Hc := tk_range T HT c Hcore). rewrite (proj2 (Nat.leb_gt NCPU c) Hc).
  destruct (takeable_ok d X p c H Hp Hc) as (b & -> & Hb). cbn [mbind res_bind].
  destruct b. { exists (Some c). split; [done|]. intros c' [= <-]. auto. }
  destruct (takeable_ok d X p (sched_siblings T c) H Hp (tk_sib T HT c Hc)) as (b2 & -> & Hb2). cbn [mbind res_bind].
  destruct (b2 && _) eqn:Eb.
  - apply andb_prop in Eb as [-> Ea%bool_decide_eq_true]. exists (Some (sched_siblings T c)). split; [done|]. intros c' [= <-]. auto.
  - apply IH. intros j Hj. apply Hl. by right.
Qed.

Lemma choose_sibling_ok d X p l :
  simple_inv d X -> p ∈ X -> (forall c, c ∈ l -> c ∈ A) -> exists r, choose_sibling T p l d = Ok r /\ chosen p d r.
Proof.
  intros H Hp. induction l as [|c l IH]; intros Hl; cbn [choose_sibling]; [by exists None|].
  assert (Hc := tk_range T HT c (Hl c ltac:(by left))). assert (Hl' : forall c, c ∈ l -> c ∈ A) by (intros; apply Hl; by right).
  destruct (get_run_on_ok d X c H Hc) as (cur & Hr & ->). cbn [mbind res_bind].
  destruct (negb _); [by apply IH|].
  destruct (takeable_ok d X p (sched_siblings T c) H Hp (tk_sib T HT c Hc)) as (b2 & -> & Hb2). cbn [mbind res_bind].
  destruct (b2 && _) eqn:Eb; [|by apply IH].
  apply andb_prop in Eb as [-> Ea%bool_decide_eq_true]. exists (Some (sched_siblings T c)). split; [done|]. intros c' [= <-]. auto.
Qed.

Lemma choose_preempt_ok d X p l :
  simple_inv d X -> p ∈ X -> (forall c, c ∈ l -> c ∈ A) -> exists r, choose_preempt p l d = Ok r /\ chosen p d r.
Proof.
  intros H Hp. induction l as [|c l IH]; intros Hl; cbn [choose_preempt]; [by exists None|].
  assert (HcA := Hl c ltac:(by left)). assert (Hc := tk_range T HT c HcA).
  assert (Hl' : forall c, c ∈ l -> c ∈ A) by (intros; apply Hl; by right).
  destruct (get_run_on_ok d X c H Hc) as (cur & Hr & ->). cbn [mbind res_bind].
  destruct cur as [q|]; [|by apply IH].
  destruct (takeable_ok d X p c H Hp Hc) as (b & -> & Hb). cbn [mbind res_bind].
  destruct b; [|by apply IH]. exists (Some c). split; [done|]. intros c' [= <-]. auto.
Qed.

Lemma first_set_ok bits : (forall c, c ∈ bits -> (c < NCPU)%nat) ->
  match first_set bits with Some c => c ∈ bits | None => bits = ∅ end.
Proof.
  intros Hb. unfold first_set. destruct (list.head _) as [c|] eqn:E.
  - apply head_Some_elem_of, list_elem_of_filter in E. apply E.
  - apply head_None in E. apply set_eq. intros c. split; [|by intros ?%elem_of_empty]. intros Hc. exfalso.
    assert (Hin : c ∈ filter (fun c => c ∈ bits) (seq 0 NCPU)) by (apply list_elem_of_filter; split; [done|]; apply elem_of_seq; specialize (Hb c Hc); lia).
    rewrite E in Hin. by apply elem_of_nil in Hin.
Qed.

Lemma choose_core_ok G d s p :
  sched_inv T G U s -> simple_inv d (cl s) -> p ∈ clients s ->
  exists r, simple_choose_core T p (d, s) = Ok r /\ chosen p d r /\ (r = None -> simple_idle_cores d = ∅).
Proof.
  intros Hs Hd Hp. destruct (sv_clients _ _ _ _ Hs p Hp) as [[pr Hpr] _]. assert (HpX : p ∈ cl s) by (unfold cl; by rewrite elem_of_list_to_set).
  unfold simple_choose_core, get_proc. cbn [fst snd]. rewrite Hpr. cbn [mbind res_bind].
  assert (Hok := bi_proc _ _ _ _ (sv_base _ _ _ _ Hs) p pr Hpr).
  destruct (choose_prev_ok d (cl s) p pr (idle_threads pr) Hd HpX) as (r1 & -> & H1).
  { intros i Hi. destruct (proj1 (po_valid pr i Hok)) as [t Ht]; [apply elem_of_app; by right|]. exists t. split; [done|]. intros c Hc.
    apply (bi_core _ _ _ _ (sv_base _ _ _ _ Hs) (p, i) t c); [apply th_at_Some; eauto|done]. }
  cbn [mbind res_bind]. destruct r1 as [c|]; [by exists (Some c)|].
  assert (Hfs := first_set_ok (simple_idle_cores d)). destruct (first_set (simple_idle_cores d)) as [c|].
  { exists (Some c). split_and!; [done| |done]. intros c' [= <-].
    destruct (sm_idle _ _ Hd c) as [Ha Hn]; [apply Hfs; intros c0 Hc0; apply (tk_range T HT); by apply (sm_idle _ _ Hd)|]. split; [done|by left]. }
  assert (Hall : forall c, c ∈ sched_cores_tbl T -> c ∈ A) by (intros c; apply (tk_tbl T HT)).
  assert (Hempty : simple_idle_cores d = ∅) by (apply Hfs; intros c0 Hc0; apply (tk_range T HT); by apply (sm_idle _ _ Hd)).
  destruct (choose_sibling_ok d (cl s) p (sched_cores_tbl T) Hd HpX Hall) as (r2 & -> & H2). cbn [mbind res_bind].
  destruct r2 as [c|]; [by exists (Some c)|].
  destruct (choose_preempt_ok d (cl s) p (sched_cores_tbl T) Hd HpX Hall) as (r3 & -> & H3). by exists r3.
Qed.

(** ** Adding a kthread *)

Definition keeps_guarantees (p : nat) (d d' : st) : Prop :=
  forall c q, run_on d !! c = Some (Some q) ->
    run_on d' !! c = Some (Some q) \/
    q <> p /\ exists x y, sds d !! q = Some y /\ sds d !! p = Some x /\
      threads_guaranteed y < threads_active y /\ threads_active x < threads_guaranteed x.

Lemma keeps_refl p d d' : run_on d' = run_on d -> keeps_guarantees p d d'.
Proof. intros E c q Hc. left. by rewrite E. Qed.

Lemma add_kthread_ok G d s p :
  sched_inv T G U s -> simple_inv d (cl s) -> p ∈ clients s ->
  exists ret d' s', simple_add_kthread T p (d, s) = Ok (ret, (d', s')) /\ runs T U G s s' /\ simple_inv d' (cl s') /\
    same_limits d d' /\ keeps_guarantees p d d' /\
    (ret <> 0 -> run_on d' = run_on d /\
       ((exists x, sds d !! p = Some x /\ threads_max x <= threads_active x) \/ simple_idle_cores d = ∅ \/
        sched_threads_avail <$> procs s !! p = Some 0)) /\
    (ret = 0 -> exists x c, sds d !! p = Some x /\ threads_active x < threads_max x /\ c ∈ A /\ may_take p c d /\
       run_on d' = <[c := Some p]> (run_on d)).
Proof.
  intros Hs Hd Hp. assert (HpX : p ∈ cl s) by (unfold cl; by rewrite elem_of_list_to_set).
  assert (Hnot : forall ret, ret <> 0 -> ((exists x, sds d !! p = Some x /\ threads_max x <= threads_active x) \/ simple_idle_cores d = ∅) ->
    exists ret0 d' s', Ok (ret, (d, s)) = Ok (ret0, (d', s')) /\ runs T U G s s' /\ simple_inv d' (cl s') /\
      same_limits d d' /\ keeps_guarantees p d d' /\
      (ret0 <> 0 -> run_on d' = run_on d /\
       ((exists x, sds d !! p = Some x /\ threads_max x <= threads_active x) \/ simple_idle_cores d = ∅ \/
        sched_threads_avail <$> procs s !! p = Some 0)) /\
      (ret0 = 0 -> exists x c, sds d !! p = Some x /\ threads_active x < threads_max x /\ c ∈ A /\ may_take p c d /\
       run_on d' = <[c := Some p]> (run_on d))).
  { intros ret Hr Hw. exists ret, d, s. split_and!; auto; [by apply runs_refl|done|by apply keeps_refl| |done]. tauto. }
  unfold simple_add_kthread. cbn [fst snd]. destruct (get_sd_ok d (cl s) p Hd HpX) as (x & Hx & ->). cbn [mbind res_bind].
  destruct (Z.leb_spec (threads_max x) (threads_active x)) as [Hm|Hm]; [apply Hnot; [done|left; eauto]|].
  destruct (choose_core_ok G d s p Hs Hd Hp) as (r & -> & Hch & Hno). cbn [mbind res_bind].
  destruct r as [c|]; [|apply Hnot; [done|right; by apply Hno]]. destruct (Hch c eq_refl) as [Hc Hmay].
  destruct (run_kthread_ok G d s p c Hs Hd Hp Hc) as (ret & d' & s' & -> & R & Hd' & L & Hres).
  exists ret, d', s'. split_and!; auto.
  - destruct Hres as [[-> Er]|(_ & -> & _)]; [|by apply keeps_refl]. intros c' q Hq. rewrite Er.
    destruct (decide (c' = c)) as [->|Hne]; [right|left; by rewrite list_lookup_insert_ne].
    destruct Hmay as [Hn|(q' & x' & y & Hq' & Hne & Hy & Hx' & Hlt1 & Hlt2)]; [congruence|].
    assert (q' = q) as -> by congruence. split; [done|]. exists x', y. auto.
  - intros Hr. destruct Hres as [[-> _]|(_ & -> & -> & Ha)]; [done|]. tauto.
  - intros ->. destruct Hres as [[_ Er]|(Hx0 & _)]; [|done]. by exists x, c.
Qed.

(** ** Congestion *)

Context (load0 : F) (load_ewma : F -> Z -> Z -> F).

Lemma cl_elem s p : p ∈ clients s -> p ∈ cl s.
Proof. intros H. unfold cl. by rewrite elem_of_list_to_set. Qed.

Lemma notify_congested_ok G d s p ths ios :
  sched_inv T G U s -> simple_inv d (cl s) -> p ∈ clients s ->
  exists d' s', simple_notify_congested T load_ewma p ths ios (d, s) = Ok (d', s') /\ runs T U G s s' /\ simple_inv d' (cl s') /\
    same_limits d d' /\ keeps_guarantees p d d'.
Proof.
  intros Hs Hd Hp. assert (HpX := cl_elem s p Hp). unfold simple_notify_congested. cbn [fst snd].
  destruct (get_sd_ok d (cl s) p Hd HpX) as (x & Hx & ->). cbn [mbind res_bind].
  assert (Hmid : exists d1 s1,
    (if waking x then Ok (upd_sd p (set_waking false) d, s)
     else if (size ths + size ios =? 0)%nat then d ← simple_unmark_congested p d; Ok (d, s)
     else if is_congested x then Ok (d, s)
     else '(ret, w) ← simple_add_kthread T p (d, s);
          if ret =? 0 then Ok w else d ← simple_mark_congested p w.1; Ok (d, w.2)) = Ok (d1, s1) /\
    runs T U G s s1 /\ simple_inv d1 (cl s1) /\ same_limits d d1 /\ keeps_guarantees p d d1).
  { destruct (waking x).
    { eexists _, _. split; [reflexivity|]. split_and!; [by apply runs_refl|by apply upd_sd_ok|intros ?; by apply alter_limits|by apply keeps_refl]. }
    destruct (_ =? 0)%nat.
    { destruct (unmark_ok d (cl s) p Hd HpX) as (d1 & -> & H1 & E1 & L1 & _). eexists _, _. split; [reflexivity|].
      split_and!; auto; [by apply runs_refl|by apply keeps_refl]. }
    destruct (is_congested x). { eexists _, _. split; [reflexivity|]. split_and!; auto; [by apply runs_refl|done|by apply keeps_refl]. }
    destruct (add_kthread_ok G d s p Hs Hd Hp) as (ret & d1 & s1 & -> & R1 & H1 & L1 & K1 & Hf & _). cbn [mbind res_bind].
    destruct (Z.eqb_spec ret 0) as [Er|Er]; [by exists d1, s1|].
    assert (HpX1 : p ∈ cl s1) by (by rewrite (cl_runs T U G s s1 R1)).
    destruct (mark_ok d1 (cl s1) p H1 HpX1) as (d2 & E2 & H2 & Er2 & L2). cbn [fst snd]. rewrite E2. cbn [mbind res_bind].
    exists d2, s1. split_and!; auto; [intros q; by rewrite L2|]. intros c q Hc. left. rewrite Er2. by rewrite (proj1 (Hf Er)). }
  destruct Hmid as (d1 & s1 & -> & R1 & H1 & L1 & K1). cbn [mbind res_bind fst snd].
  eexists _, _. split; [reflexivity|]. split_and!; auto.
  - by apply upd_sd_ok.
  - intros q. rewrite <- L1. cbn. by apply alter_limits.
Qed.

(** ** Idle cores *)

Lemma wants_ok G d s x :
  sched_inv T G U s -> simple_inv d (cl s) -> (forall p, x = Some p -> p ∈ cl s) ->
  exists b, wants x (d, s) = Ok b /\ (b = true -> exists p pr, x = Some p /\ procs s !! p = Some pr /\ sched_threads_avail pr <> 0).
Proof.
  intros Hs Hd Hx. destruct x as [p|]; [|by exists false]. specialize (Hx p eq_refl). unfold wants. cbn [fst snd].
  destruct (get_sd_ok d (cl s) p Hd Hx) as (y & Hy & ->). cbn [mbind res_bind].
  destruct (is_congested y); cbn [negb]; [|by exists false].
  destruct (sv_clients _ _ _ _ Hs p) as [[pr Hpr] _]; [unfold cl in Hx; by rewrite elem_of_list_to_set in Hx|].
  unfold get_proc. rewrite Hpr. cbn [mbind res_bind]. eexists. split; [reflexivity|].
  intros Hb. apply negb_true_iff, Z.eqb_neq in Hb. eauto.
Qed.

Lemma first_wants_ok G d s l :
  sched_inv T G U s -> simple_inv d (cl s) -> (forall p, Some p ∈ l -> p ∈ cl s) ->
  exists r, first_wants l (d, s) = Ok r /\
    forall p, r = Some p -> p ∈ cl s /\ exists pr, procs s !! p = Some pr /\ sched_threads_avail pr <> 0.
Proof.
  intros Hs Hd. induction l as [|x l IH]; intros Hl; cbn [first_wants]; [by exists None|].
  destruct (wants_ok G d s x Hs Hd) as (b & -> & Hb); [intros p ->; apply Hl; by left|]. cbn [mbind res_bind].
  destruct b; [|apply IH; intros p Hp; apply Hl; by right]. exists x. split; [done|]. intros p ->.
  destruct (Hb eq_refl) as (p' & pr & [= <-] & Hpr & Ha). split; [apply Hl; by left|eauto].
Qed.

Lemma first_avail_ok G s l :
  sched_inv T G U s -> (forall p, p ∈ l -> p ∈ cl s) ->
  exists r, first_avail l s = Ok r /\
    forall p, r = Some p -> p ∈ cl s /\ exists pr, procs s !! p = Some pr /\ sched_threads_avail pr <> 0.
Proof.
  intros Hs. induction l as [|p l IH]; intros Hl; cbn [first_avail]; [by exists None|].
  assert (Hp := Hl p ltac:(by left)). destruct (sv_clients _ _ _ _ Hs p) as [[pr Hpr] _]; [unfold cl in Hp; by rewrite elem_of_list_to_set in Hp|].
  unfold get_proc. rewrite Hpr. cbn [mbind res_bind]. destruct (Z.eqb_spec (sched_threads_avail pr) 0) as [Ez|Ez].
  - apply IH. intros q Hq. apply Hl. by right.
  - exists (Some p). split; [done|]. intros q [= <-]. eauto.
Qed.

Lemma choose_kthread_ok G d s c :
  sched_inv T G U s -> simple_inv d (cl s) -> c ∈ A ->
  exists r, simple_choose_kthread T c (d, s) = Ok r /\
    forall p, r = Some p -> p ∈ cl s /\ exists pr, procs s !! p = Some pr /\ sched_threads_avail pr <> 0.
Proof.
  intros Hs Hd Hc. assert (Hcn := tk_range T HT c Hc). assert (Hsn := tk_sib T HT c Hcn). unfold simple_choose_kthread. cbn [fst snd].
  destruct (get_run_on_ok d _ _ Hd Hsn) as (x & Hx & ->). cbn [mbind res_bind].
  destruct (get_hist_ok d _ _ Hd Hcn) as (h1 & Hh1 & ->). cbn [mbind res_bind].
  destruct (get_hist_ok d _ _ Hd Hsn) as (h2 & Hh2 & ->). cbn [mbind res_bind].
  destruct (first_wants_ok G d s (x :: interleave h1 h2) Hs Hd) as (r & Er & Hr).
  { intros p [Hp|Hp]%elem_of_cons; [subst x; by eapply (sm_run _ _ Hd)|].
    apply elem_interleave in Hp as [Hp|Hp]; [by apply (sm_hist _ _ Hd c h1)|by eapply (sm_hist _ _ Hd)]. }
  rewrite Er. cbn [mbind res_bind]. destruct r as [p|]; [exists (Some p); split; [done|exact Hr]|].
  apply (first_avail_ok G s); [done|]. apply (sm_congX _ _ Hd).
Qed.

Lemma poll_core_ok G d s c :
  sched_inv T G U s -> simple_inv d (cl s) -> c ∈ A ->
  exists d' s', simple_poll_core T c (d, s) = Ok (d', s') /\ runs T U G s s' /\ simple_inv d' (cl s') /\ same_limits d d' /\
    forall c', c' <> c -> run_on d' !! c' = run_on d !! c'.
Proof.
  intros Hs Hd Hc. assert (Hcn := tk_range T HT c Hc). unfold simple_poll_core. cbn [fst snd].
  destruct (get_run_on_ok d _ _ Hd Hcn) as (cur & Hcur & ->). cbn [mbind res_bind].
  assert (H1 : exists d1, match cur with None => Ok d | Some p => simple_unmark_congested p d end = Ok d1 /\
    simple_inv d1 (cl s) /\ run_on d1 = run_on d /\ same_limits d d1).
  { destruct cur as [p|]; [|by exists d]. destruct (unmark_ok d (cl s) p Hd) as (d1 & ? & ? & ? & ? & _); [by eapply (sm_run _ _ Hd)|]. by exists d1. }
  destruct H1 as (d1 & -> & Hd1 & R1 & L1). cbn [mbind res_bind].
  destruct (cleanup_ok d1 (cl s) c Hd1 Hcn) as (d2 & -> & Hd2 & R2 & L2 & I2 & C2). cbn [mbind res_bind].
  assert (L12 : same_limits d d2) by (intros q; by rewrite L2).
  assert (Hrest : forall c', c' <> c -> run_on d2 !! c' = run_on d !! c').
  { intros c' Hne. rewrite R2, R1. by rewrite list_lookup_insert_ne. }
  destruct (choose_kthread_ok G d2 s c Hs Hd2 Hc) as (r & Er & Hr). rewrite Er. cbn [mbind res_bind].
  destruct r as [p|].
  - destruct (Hr p eq_refl) as (Hp & pr & Hpr & Ha).
    destruct (run_kthread_ok G d2 s p c Hs Hd2) as (ret & d3 & s3 & E3 & R3 & Hd3 & L3 & Hres); [unfold cl in Hp; by rewrite elem_of_list_to_set in Hp|done|].
    rewrite E3. cbn [mbind res_bind]. destruct Hres as [[-> E4]|(_ & _ & _ & Hx)].
    + exists d3, s3. split_and!; auto; [intros q; by rewrite L3|]. intros c' Hne. rewrite E4, list_lookup_insert_ne by done. by apply Hrest.
    + rewrite Hpr in Hx. cbn in Hx. congruence.
  - eexists _, _. split; [reflexivity|]. split_and!; [by apply runs_refl| |done|done].
    destruct Hd2 as [K1 K2 K3 K4 K5 K6 K7 K8 K9 K10]. split; auto. cbn.
    intros c' [->%elem_of_singleton|Hi]%elem_of_union; [|by apply K10]. split; [done|]. rewrite R2. apply list_lookup_insert_eq.
    by rewrite (sm_len _ _ Hd1).
Qed.

Lemma poll_cores_ok G l : forall d s,
  sched_inv T G U s -> simple_inv d (cl s) -> (forall c, c ∈ l -> c ∈ A) ->
  exists d' s', simple_poll_cores T l (d, s) = Ok (d', s') /\ runs T U G s s' /\ simple_inv d' (cl s').
Proof.
  induction l as [|c l IH]; intros d s Hs Hd Hl; cbn [simple_poll_cores].
  { exists d, s. split_and!; auto. by apply runs_refl. }
  destruct (poll_core_ok G d s c Hs Hd) as (d1 & s1 & -> & R1 & H1 & _); [apply Hl; by left|]. cbn [mbind res_bind].
  destruct (IH d1 s1) as (d2 & s2 & E2 & R2 & H2); [apply R1|done|intros; apply Hl; by right|].
  exists d2, s2. split_and!; auto. by eapply runs_trans.
Qed.

(** The simple policy is one the scheduler can use. *)
#[export] Instance simple_policy (m : bool) cfgok : SchedPolicy T U cfgok (simple_ops T load0 load_ewma m).
Proof.
  refine {| pol_inv := simple_inv |}.
  - intros G d s p ths ios Hs Hd Hp. destruct (notify_congested_ok G d s p ths ios Hs Hd Hp) as (d' & s' & ? & ? & ? & _). by exists d', s'.
  - intros G d s p Hs Hd Hp. destruct (add_kthread_ok G d s p Hs Hd Hp) as (ret & d' & s' & ? & ? & ? & _). by exists ret, d', s'.
  - intros G d s now n bits Hs Hd Hb. cbn. unfold simple_sched_poll. destruct (n =? 0)%nat; [exists d, s; split_and!; auto; by apply runs_refl|].
    apply poll_cores_ok; auto. intros c [Hc _]%list_elem_of_filter. by apply Hb.
  - intros d X s p cfg _ Hd Hp. by apply attach_ok.
  - intros d X s p Hd Hp. by apply detach_ok.
Defined.

Lemma simple_init_ok : simple_inv (simple_init T) ∅.
Proof.
  split; cbn [sds run_on hist congested_procs simple_idle_cores simple_init]; try done.
  - intros p. rewrite lookup_empty. split; [by intros [? ?]|by intros ?%elem_of_empty].
  - intros c p Hc. apply lookup_replicate in Hc as [Hc _]. done.
  - intros c h p Hc Hp. apply lookup_replicate in Hc as [-> _]. apply elem_of_replicate in Hp as [Hp _]. done.
  - by intros p Hp%elem_of_nil.
  - constructor.
  - intros c Hc. split; [done|]. apply lookup_replicate. split; [done|]. by apply (tk_range T HT).
Qed.
End inv.
