(* ===== verification/IokThms.v ===== *)
(** * What holds of the IOKernel's scheduler

    The states the machine of IokMach.v can reach, with any policy and with the simple
    one. *)

From S2P Require Import Prelude Stddef Lrpc IokState IokSched IokInv IokBase IokCores IokPoll IokMach IokSimple IokSimpleInv.

Definition core_init : core_state := CoreState None None false false false.
Definition sched_start : sched := Sched ∅ [] [] (replicate NCPU core_init) 0 [].

Section reach.
Context (T : topo) (U : list tref) (cfgok : sched_spec -> Prop) {D : Type} (ops : sched_ops D) (cyc : Z) (d0 : D).

Definition mach_init : mach (D := D) := Mach 0 (fun _ => 0) (d0, sched_start).

Inductive iok_reachable : mach (D := D) -> Prop :=
| ir_init : iok_reachable mach_init
| ir_step o m m' : iok_reachable m -> op_ok U cfgok o m -> iok_exec T ops cyc o m = Ok m' -> iok_reachable m'.

Lemma sched_start_ok : (length U <= NCPU)%nat -> sched_inv T (Gof (fun _ => 0) sched_start) U sched_start.
Proof.
  intros HU. assert (Hcs : forall c x, cstates sched_start !! c = Some x -> x = core_init).
  { intros c x Hx. by apply lookup_replicate in Hx as [-> _]. }
  split.
  - split; try done; [|by intros r [t Ht]]. intros k r. split; [done|]. by intros (t & Ht & _).
  - done.
  - split; try (intros c x; intros Hx%Hcs; subst x; done).
    + apply length_replicate.
    + intros r c. split; [done|]. intros (x & ->%Hcs & [?|?]); done.
    + intros c x r Hx%Hcs. by subst x.
  - by intros p Hp%elem_of_nil.
  - constructor.
Qed.

Context (HT : topo_ok T) (HU : (length U <= NCPU)%nat) `{!SchedPolicy T U cfgok ops} (Hd0 : pol_inv d0 ∅).

Lemma iok_reachable_inv m : iok_reachable m -> mach_inv T U cfgok ops m.
Proof.
  induction 1 as [|o m m' _ IH Hok E].
  - split_and!; auto; [by apply sched_start_ok|done].
  - destruct (mach_step_ok T HT U cfgok ops cyc o m IH Hok) as (m1 & E1 & H1). congruence.
Qed.
End reach.

(** ** Properties *)

(** A kthread is on a core: it runs there or is the next to run. *)
Definition on_core (s : sched) (c : nat) (r : tref) : Prop :=
  exists x, cstates s !! c = Some x /\ (cur_th x = Some r \/ pending_th x = Some r).

(** C9.  One core per kthread, with any policy: in every reachable state of the
    IOKernel a kthread is active if and only if it is the current or the next kthread
    of some core; that core is unique, is the one recorded in the kthread, and is one
    the scheduler may use; and a core's current kthread is not also its next one. *)
Theorem iok_one_core_per_kthread T U cfgok {D} (ops : sched_ops D) `{!SchedPolicy T U cfgok ops} cyc d0 m :
  topo_ok T -> (length U <= NCPU)%nat -> pol_inv d0 ∅ -> iok_reachable T U cfgok ops cyc d0 m ->
  let s := (m_w m).2 in
  (forall r t, th_at s r = Some t -> active t = true <-> exists c, on_core s c r) /\
  (forall r c, on_core s c r -> c ∈ sched_allowed_cores T /\ core <$> th_at s r = Some (Some c)) /\
  (forall r c c', on_core s c r -> on_core s c' r -> c = c') /\
  (forall c x r, cstates s !! c = Some x -> cur_th x = Some r -> pending_th x <> Some r).
Proof.
  intros HT HU Hd Hr s. destruct (iok_reachable_inv T U cfgok ops cyc d0 HT HU Hd m Hr) as ([Hb Hpl Hcs Hcl Hnd] & _).
  fold s in Hb, Hpl, Hcs, Hcl, Hnd.
  assert (Hon : forall r c, on_core s c r <-> act_core s r = Some c) by (intros r c; symmetry; apply (ci_on _ _ Hcs)).
  assert (Hat : forall r c, act_core s r = Some c -> exists t, th_at s r = Some t /\ active t = true /\ core t = Some c).
  { intros r c. unfold act_core. destruct (th_at s r) as [t|]; [|done]. cbn. destruct (active t) eqn:Ea; [eauto|done]. }
  split_and!.
  - intros r t Ht. split.
    + intros Ha. destruct (Hpl r t Ht Ha) as [_ Hc]. destruct (core t) as [c|] eqn:Ec; [|done].
      exists c. apply Hon. unfold act_core. rewrite Ht. cbn. by rewrite Ha.
    + intros [c Hc]. apply Hon, Hat in Hc as (t' & Ht' & Ha & _). congruence.
  - intros r c Hc%Hon%Hat. destruct Hc as (t & Ht & _ & Ec). split; [by eapply (bi_core _ _ _ _ Hb)|]. by rewrite Ht, <- Ec.
  - intros r c c' H1%Hon H2%Hon. congruence.
  - apply (ci_one _ _ Hcs).
Qed.


(** The flow table leads to kthreads that run: in every reachable state, whatever
    the policy, if a process has an active kthread then each entry of its flow table
    names an active kthread of that process, which is on a core and polled, and the
    entry of an active kthread names itself. *)
Theorem iok_flows_reach_active T U cfgok {D} (ops : sched_ops D) `{!SchedPolicy T U cfgok ops} cyc d0 m :
  topo_ok T -> (length U <= NCPU)%nat -> pol_inv d0 ∅ -> iok_reachable T U cfgok ops cyc d0 m ->
  let s := (m_w m).2 in
  forall p pr i, procs s !! p = Some pr -> active_threads pr <> [] -> (i < thread_count pr)%nat ->
  exists j c, flow_tbl pr !! i = Some (Some j) /\ on_core s c (p, j) /\ (p, j) ∈ ts s /\
    (forall t, threads pr !! i = Some t -> active t = true -> j = i).
Proof.
  intros HT HU Hd Hr s p pr i Hp Ha Hi. destruct (iok_reachable_inv T U cfgok ops cyc d0 HT HU Hd m Hr) as ([Hb Hpl Hcs _ _] & _).
  fold s in Hb, Hpl, Hcs. assert (Hok := bi_proc _ _ _ _ Hb _ _ Hp).
  destruct (po_flow pr Hok Ha i Hi) as (j & Hj & Hin & Hself).
  destruct (proj1 (po_valid pr j Hok)) as [t Ht]; [apply elem_of_app; by left|].
  assert (Hact := proj2 (po_act pr Hok j t Ht) Hin). assert (Hat : th_at s (p, j) = Some t) by (apply th_at_Some; eauto).
  destruct (Hpl _ _ Hat Hact) as [Hts Hcore]. destruct (core t) as [c|] eqn:Ec; [|done]. exists j, c. split_and!; auto.
  - apply (ci_on _ _ Hcs). unfold act_core. rewrite Hat. cbn. by rewrite Hact.
  - destruct (ts_idx t) as [k|] eqn:Ek; [|done]. apply (list_elem_of_lookup_2 _ k). apply (bi_ts _ _ _ _ Hb). eauto.
  - intros t' Ht' Ha'. apply Hself. by apply (po_act pr Hok i t' Ht').
Qed.

Section simple.
Context (T : topo) (U : list tref) (cfgok : sched_spec -> Prop) {F : Type} (load0 : F) (load_ewma : F -> Z -> Z -> F) (m : bool).
Context (HT : topo_ok T) (HU : (length U <= NCPU)%nat).
Abbreviation sops := (simple_ops T load0 load_ewma m).

Lemma simple_reachable cyc M :
  iok_reachable T U cfgok sops cyc (simple_init T) M ->
  sched_inv T (Gof (m_held M) (m_w M).2) U (m_w M).2 /\ simple_inv T (m_w M).1 (cl (m_w M).2).
Proof.
  intros Hr. destruct (iok_reachable_inv T U cfgok sops cyc (simple_init T) HT HU (SchedPolicy0 := simple_policy T HT U load0 load_ewma m cfgok) (simple_init_ok T HT) M Hr) as (Hs & Hd & _). done.
Qed.
End simple.

(** The simple policy's books are right: in every reachable state each client, and
    only a client, has a record; the number of active threads in it is the number of
    cores the policy has given to it; the list of congested processes holds exactly the
    flagged ones, once; no core and no history entry names a process that was removed;
    and a core marked as idle may be used and belongs to nobody. *)
Theorem simple_core_accounting T U cfgok {F} (load0 : F) load_ewma mok cyc M :
  topo_ok T -> (length U <= NCPU)%nat ->
  iok_reachable T U cfgok (simple_ops T load0 load_ewma mok) cyc (simple_init T) M ->
  let d := (m_w M).1 in let X := cl (m_w M).2 in
  (forall p, is_Some (sds d !! p) <-> p ∈ X) /\
  (forall p x, sds d !! p = Some x ->
     threads_active x = Z.of_nat (length (filter (fun y => y = Some p) (run_on d))) /\
     (is_congested x = true <-> p ∈ congested_procs d)) /\
  NoDup (congested_procs d) /\ (forall p, p ∈ congested_procs d -> p ∈ X) /\
  (forall c p, run_on d !! c = Some (Some p) -> p ∈ X) /\
  (forall c h p, hist d !! c = Some h -> Some p ∈ h -> p ∈ X) /\
  (forall c, c ∈ simple_idle_cores d -> c ∈ sched_allowed_cores T /\ run_on d !! c = Some None).
Proof.
  intros HT HU Hr d X. destruct (simple_reachable T U cfgok load0 load_ewma mok HT HU cyc M Hr) as [_ []].
  split_and!; auto. intros p x Hx. split; [by apply sm_cnt|by apply sm_cong].
Qed.

(**  What a request for a core does under the simple policy, in any reachable
    state.  It succeeds unless the process is at its maximum, has no idle kthread, or no
    core is idle; on success the process, which was below its maximum, gets one core,
    either a free one or one of a process above its guarantee while it is itself below
    its own; all other cores stay with their processes; and no other process ends up
    with less than the smaller of what it had and what it is guaranteed. *)
Theorem simple_core_needed_ok T U cfgok {F} (load0 : F) load_ewma mok cyc M p :
  topo_ok T -> (length U <= NCPU)%nat ->
  iok_reachable T U cfgok (simple_ops T load0 load_ewma mok) cyc (simple_init T) M -> p ∈ clients (m_w M).2 ->
  let d := (m_w M).1 in let s := (m_w M).2 in
  exists x ret d' s', sds d !! p = Some x /\ simple_notify_core_needed T p (d, s) = Ok (ret, (d', s')) /\
    (ret <> 0 -> run_on d' = run_on d /\
       (threads_max x <= threads_active x \/ simple_idle_cores d = ∅ \/ sched_threads_avail <$> procs s !! p = Some 0)) /\
    (ret = 0 -> threads_active x < threads_max x /\
       exists c, c ∈ sched_allowed_cores T /\ may_take p c d /\ run_on d' = <[c := Some p]> (run_on d)) /\
    (forall q y, q <> p -> sds d !! q = Some y -> exists y', sds d' !! q = Some y' /\
       threads_guaranteed y' = threads_guaranteed y /\
       Z.min (threads_active y) (threads_guaranteed y) <= threads_active y').
Proof.
  intros HT HU Hr Hp d s. destruct (simple_reachable T U cfgok load0 load_ewma mok HT HU cyc M Hr) as [Hs Hd]. fold s in Hs, Hp. fold d in Hd. fold s in Hd.
  destruct (proj2 (sm_dom _ _ _ Hd p) (cl_elem s p Hp)) as [x Hx].
  destruct (add_kthread_ok T HT U _ d s p Hs Hd Hp) as (ret & d' & s' & E & R & Hd' & L & _ & Hno & Hyes).
  exists x, ret, d', s'. split_and!; auto.
  - intros Hret. destruct (Hno Hret) as (Er & Hw). split; [done|]. destruct Hw as [(x' & Hx' & ?)|?]; [|tauto].
    assert (x' = x) as -> by congruence. tauto.
  - intros Hret. destruct (Hyes Hret) as (x' & c & Hx' & Hlt & Hc & Hm & Er). assert (x' = x) as -> by congruence. eauto.
  - intros q y Hq Hy. specialize (L q). rewrite Hy in L. cbn in L. destruct (sds d' !! q) as [y'|] eqn:Hy'; [|done].
    cbn in L. injection L as Lg _. exists y'. split_and!; auto. rewrite (sm_cnt _ _ _ Hd' q y' Hy'), (sm_cnt _ _ _ Hd q y Hy).
    destruct (decide (ret = 0)) as [Hz|Hz]; [|rewrite (proj1 (Hno Hz)); lia].
    destruct (Hyes Hz) as (x' & c & _ & _ & _ & Hm & Er). rewrite Er.
    destruct Hm as [Hn|(q' & x0 & y0 & Hq' & Hne & Hy0 & _ & Hgt & _)].
    + rewrite (cnt_insert q _ c _ _ Hn). repeat case_decide; lia || congruence.
    + rewrite (cnt_insert q _ c _ _ Hq'). assert (Hcnt := sm_cnt _ _ _ Hd q y Hy).
      repeat case_decide; try lia; try congruence. assert (q' = q) as -> by congruence. assert (y0 = y) as -> by congruence. lia.
Qed.

(** ** Witnesses

    Four cores, two hyperthreads each; process 1 has three kthreads, one core
    guaranteed, process 2 two kthreads and two cores guaranteed. *)

Fixpoint iok_run (T : topo) (U : list tref) {D} (ops : sched_ops D) (cyc : Z) (l : list iok_op) (m : mach (D := D)) : option mach :=
  match l with
  | [] => Some m
  | o :: l =>
      let s := (m_w m).2 in
      let ok := match o with
        | OpPoll _ _ _ | OpRemove _ => true
        | OpCoreNeeded p => bool_decide (p ∈ clients s)
        | OpAdd p pr =>
            bool_decide (p ∉ dom (procs s)) && (ref pr =? 1) && bool_decide (thread_count pr <= NCPU)%nat &&
            forallb (fun t => bool_decide (ts_idx t = None)) (threads pr) &&
            forallb (fun i => bool_decide ((p, i) ∈ U)) (seq 0 (thread_count pr)) &&
            bool_decide (length (clients s) < IOKERNEL_MAX_PROC)%nat
        | OpTxDone p => 0 <? m_held m p
        | OpTxHold p => match procs s !! p with Some pr => 0 <? ref pr | None => false end
        | OpDestroy p => match procs s !! p with Some pr => ref pr =? 0 | None => false end
        | OpShm _ _ => false
        end in
      if ok then match iok_exec T ops cyc o m with Ok m' => iok_run T U ops cyc l m' | Bug => None end else None
  end.

(** No condition on configurations. *)
Definition any_cfg (c : sched_spec) : Prop := True.

Lemma iok_run_reachable T U cfgok {D} (ops : sched_ops D) cyc d0 l : forall m m',
  (forall p pr, OpAdd p pr ∈ l -> cfgok (sched_cfg pr)) ->
  iok_reachable T U cfgok ops cyc d0 m -> iok_run T U ops cyc l m = Some m' -> iok_reachable T U cfgok ops cyc d0 m'.
Proof.
  induction l as [|o l IH]; intros m m' Hcfg Hm; cbn [iok_run]; [by intros [= <-]|]. cbv zeta.
  destruct (match o with OpPoll _ _ _ => _ | _ => _ end) eqn:Eo; [|done].
  destruct (iok_exec T ops cyc o m) as [m1|] eqn:E; [|done]. apply IH; [intros p pr Hp; apply (Hcfg p); by right|]. eapply ir_step; [exact Hm| |exact E].
  unfold op_ok. destruct o as [| |p pr| |p| |p|p]; cbn in Eo |- *; try done.
  - by apply bool_decide_eq_true in Eo.
  - repeat (apply andb_true_iff in Eo as [Eo ?]). rewrite forallb_forall in *. repeat match goal with H : bool_decide _ = true |- _ => apply bool_decide_eq_true in H end.
    split_and!; [by apply not_elem_of_dom| |apply (Hcfg p); by left|done]. split; [lia|done| |].
    + intros i t Hi. eapply bool_decide_eq_true, H1. apply list_elem_of_In. by eapply list_elem_of_lookup_2.
    + intros i Hi. eapply bool_decide_eq_true, H0. apply in_seq. lia.
  - destruct (procs _ !! p) as [pr|]; [|done]. cbn. f_equal. lia.
  - destruct (procs _ !! p) as [pr|]; [|done]. exists pr. split; [done|]. lia.
  - lia.
Qed.

Definition wit_topo : topo := Topo {[2; 3; 4; 5]}%nat (fun c => if Nat.even c then S c else pred c) [2; 3; 4; 5]%nat [].
Definition wit_U : list tref := [(1, 0); (1, 1); (1, 2); (2, 0); (2, 1)]%nat.
Definition wit_hwq : hwq := Hwq false false (fun _ => 0) 0 0 0 0 0 0 0.
Definition wit_thread (id : Z) : thread :=
  Thread false (LrpcOut 0 0 8) (LrpcShm [] 0) true id 0 0 0 0 None 0 None wit_hwq wit_hwq 0.
Definition wit_proc (mx g : Z) (ids : list Z) : proc :=
  Proc 1 false false (SchedSpec 1 mx g 0 0 0) (replicate NCPU None) (map wit_thread ids) [] [] 0.
Definition wit_ops : sched_ops (simple (F := Z)) := simple_ops wit_topo 0 (fun l a m => l + a) true.
Definition wit_done : kreport := KReport (fun _ => true) (fun _ => false).

(** Process 1 takes three cores and process 2 the last; the switches finish. *)
Definition wit_run : list iok_op :=
  [OpAdd 1 (wit_proc 3 1 [11; 12; 13]%Z); OpAdd 2 (wit_proc 2 2 [21; 22]%Z); OpCoreNeeded 1; OpCoreNeeded 1; OpCoreNeeded 1;
   OpCoreNeeded 2; OpTxHold 1; OpPoll 10 10 wit_done].

Definition wit_start : mach (D := simple (F := Z)) := mach_init (simple_init wit_topo).
Definition wit_mach : mach (D := simple (F := Z)) := default wit_start (iok_run wit_topo wit_U wit_ops 1 wit_run wit_start).

Lemma wit_topo_ok : topo_ok wit_topo.
Proof.
  split.
  - intros c. unfold NCPU. cbn. rewrite !elem_of_union, !elem_of_singleton. lia.
  - intros c. cbn. rewrite !elem_of_cons, elem_of_nil, !elem_of_union, !elem_of_singleton. tauto.
  - by apply (bool_decide_eq_true_1 (NoDup _)).
  - intros c Hc. cbn. destruct (Nat.even c) eqn:E; [|lia]. apply Nat.even_spec in E as [k ->]. unfold NCPU in *. lia.
Qed.

Lemma wit_reach : iok_reachable wit_topo wit_U any_cfg wit_ops 1 (simple_init wit_topo) wit_mach.
Proof.
  apply (iok_run_reachable _ _ _ _ _ _ wit_run wit_start); [done|constructor|]. unfold wit_mach.
  destruct (iok_run wit_topo wit_U wit_ops 1 wit_run wit_start) eqn:E; [done|]. exfalso. revert E. vm_compute. congruence.
Qed.

Lemma wit_room : (length wit_U <= NCPU)%nat.
Proof. unfold NCPU. cbn. lia. Qed.

Abbreviation wit_policy := (simple_policy wit_topo wit_topo_ok wit_U 0 (fun l a m => l + a) true any_cfg).

Lemma iok_one_core_per_kthread_witness :
  let s := (m_w wit_mach).2 in
  on_core s 3 (1, 1)%nat /\ (forall c, on_core s c (1, 1)%nat -> c = 3%nat) /\ core <$> th_at s (1, 1)%nat = Some (Some 3%nat).
Proof.
  destruct (iok_one_core_per_kthread (SchedPolicy0 := wit_policy) wit_topo wit_U any_cfg wit_ops 1 (simple_init wit_topo) wit_mach
    wit_topo_ok wit_room (simple_init_ok _ wit_topo_ok) wit_reach) as (_ & H2 & H3 & _).
  assert (Hon : on_core (m_w wit_mach).2 3 (1, 1)%nat).
  { exists (CoreState None (Some (1, 1)%nat) false false false). split; [vm_compute; reflexivity|by left]. }
  split; [exact Hon|]. split; [intros c Hc; exact (H3 _ _ _ Hc Hon)|exact (proj2 (H2 _ _ Hon))].
Defined.


Lemma iok_flows_reach_active_witness :
  let s := (m_w wit_mach).2 in
  exists pr j c, procs s !! 2%nat = Some pr /\ flow_tbl pr !! 0%nat = Some (Some j) /\ on_core s c (2, j)%nat.
Proof.
  assert (E : exists pr, procs (m_w wit_mach).2 !! 2%nat = Some pr /\ active_threads pr <> [] /\ (0 < thread_count pr)%nat).
  { vm_compute. eexists. split; [reflexivity|]. split; [congruence|]. cbv. lia. }
  destruct E as (pr & E & Ha & Hi).
  destruct (iok_flows_reach_active (SchedPolicy0 := wit_policy) wit_topo wit_U any_cfg wit_ops 1 (simple_init wit_topo) wit_mach
    wit_topo_ok wit_room (simple_init_ok _ wit_topo_ok) wit_reach 2%nat pr 0%nat E Ha Hi) as (j & c & Hj & Hc & _).
  exists pr, j, c. split; [exact E|]. split; assumption.
Defined.

Lemma simple_core_accounting_witness :
  exists x, sds (m_w wit_mach).1 !! 1%nat = Some x /\ threads_active x = 3.
Proof.
  destruct (simple_core_accounting wit_topo wit_U any_cfg 0 (fun l a m => l + a) true 1 wit_mach wit_topo_ok wit_room wit_reach) as (_ & H & _).
  assert (E : exists x, sds (m_w wit_mach).1 !! 1%nat = Some x) by (vm_compute; eexists; reflexivity).
  destruct E as [x E]. exists x. split; [exact E|]. rewrite (proj1 (H 1%nat x E)). vm_compute. reflexivity.
Defined.

(** Process 2, below its guarantee, takes a core of process 1, which is above. *)
Lemma simple_core_needed_ok_witness :
  exists x ret d' s', sds (m_w wit_mach).1 !! 2%nat = Some x /\
    simple_notify_core_needed wit_topo 2 (m_w wit_mach) = Ok (ret, (d', s')) /\ ret = 0 /\
    exists c, may_take 2 c (m_w wit_mach).1 /\ run_on d' = <[c := Some 2%nat]> (run_on (m_w wit_mach).1).
Proof.
  assert (Hp : 2%nat ∈ clients (m_w wit_mach).2) by (apply (bool_decide_eq_true_1 _); vm_compute; reflexivity).
  destruct (simple_core_needed_ok wit_topo wit_U any_cfg 0 (fun l a m => l + a) true 1 wit_mach 2 wit_topo_ok wit_room wit_reach Hp)
    as (x & ret & d' & s' & Hx & E & _ & Hyes & _).
  assert (Hret : (fun r => r.1) <$> (match simple_notify_core_needed wit_topo 2 (m_w wit_mach) with Ok r => Some r | Bug => None end) = Some 0)
    by (vm_compute; reflexivity).
  rewrite <- surjective_pairing in E. exists x, ret, d', s'. split; [exact Hx|]. split; [exact E|].
  rewrite E in Hret. injection Hret as ->. split; [reflexivity|]. destruct (Hyes eq_refl) as (_ & c & _ & Hm & Hr). exists c. split; assumption.
Defined.
