(* ===== verification/RtState.v ===== *)
(** * runtime/defs.h: the state of the scheduler of user-level threads

    Each kernel thread of the runtime (kthread) has a run queue of user-level threads
    (uthreads), a ring of RUNTIME_RQ_SIZE pointers with an overflow list, and a second
    ring that is used while a status is prioritized.  [rq_ptr] points to one of the two
    rings: [rq_ptr_high] tells to which.  A pointer to a uthread is its address, a key
    of [ths].  The variables local to a kthread (__self, __status) are fields of it.

    The kthreads run concurrently.  [kpc] is the point of the code a kthread is at
    between two atomic steps; [klock] is the owner of the kthread's spin lock. *)

From S2P Require Import Prelude Stddef.

Definition RUNTIME_RQ_SIZE : Z := 32.
Definition GC_STATUS : Z := 3.

Inductive run_state := THREAD_STATE_RUNNING | THREAD_STATE_RUNNABLE | THREAD_STATE_SLEEPING.

#[export] Instance run_state_eq_dec : EqDecision run_state.
Proof. solve_decision. Defined.

Record uthread := UThread {
  ustate : run_state;
  stack_busy : bool;
  last_cpu : Z;
  status : Z;
  main_thread : bool;
}.

Definition set_ustate (v : run_state) (t : uthread) : uthread :=
  UThread v (stack_busy t) (last_cpu t) (status t) (main_thread t).
Definition set_stack_busy (v : bool) (t : uthread) : uthread :=
  UThread (ustate t) v (last_cpu t) (status t) (main_thread t).
Definition set_last_cpu (v : Z) (t : uthread) : uthread :=
  UThread (ustate t) (stack_busy t) v (status t) (main_thread t).
Definition set_status (v : Z) (t : uthread) : uthread :=
  UThread (ustate t) (stack_busy t) (last_cpu t) v (main_thread t).
Definition set_main_thread (v : bool) (t : uthread) : uthread :=
  UThread (ustate t) (stack_busy t) (last_cpu t) (status t) v.

(** What the loop of check_prioritized_scope does with each kthread, and where the
    caller goes on. *)
Inductive scope := Build (st : Z) | Update (st : Z) | Release.
Inductive resume := InEnter | InTop | InAgain.

Inductive pc :=
| PRun                                       (* runs [self] *)
| PYield                                     (* thread_yield, after stealing *)
| PEnter                                     (* enter_schedule, on the stack of [self] *)
| PScope (c : resume) (m : scope) (l : list nat)  (* check_prioritized_scope, kthreads left *)
| PEnterPop                                  (* enter_schedule, after the check *)
| PSched                                     (* entry of schedule, on the runtime's stack *)
| PTop                                       (* schedule, after the first check *)
| PAgain                                     (* schedule, after the check at [again] *)
| PSteal (l : list nat)                      (* schedule, kthreads left to steal from *)
| PLow                                       (* schedule, the low priority queue *)
| PStealLp (l : list nat)
| PPoll                                      (* schedule, nothing found *)
| PParked                                    (* in kthread_park *)
| PDone (th : nat)                           (* schedule, [done] *)
| PJmp (th : nat)                            (* jmp_thread, waiting for the stack *)
| PJmpDirect (old th : nat)                  (* jmp_thread_direct, waiting for the stack *)
| PCede                                      (* thread_finish_cede *)
| PCeded                                     (* ... parked *)
| PLockSched.                                (* about to lock and to call schedule *)

Record kthread := KThread {
  klock : option nat;  (* the owner of lock *)
  rq_head : Z;
  rq_tail : Z;
  rq_overflow : list nat;
  parked : bool;
  q_rq_head : Z;  (* q_ptrs->rq_head *)
  q_rq_tail : Z;  (* q_ptrs->rq_tail *)
  rcu_gen : Z;
  curr_cpu : Z;
  l_rq_head : Z;
  l_rq_tail : Z;
  rq_ptr_high : bool;  (* rq_ptr == h_rq *)
  rq : list (option nat);
  prioritized_status : bool;
  h_rq : list (option nat);
  self : option nat;  (* __self *)
  cur_status : Z;  (* __status *)
  kpc : pc;
}.

Definition set_klock (v : option nat) (k : kthread) : kthread :=
  KThread v (rq_head k) (rq_tail k) (rq_overflow k) (parked k) (q_rq_head k) (q_rq_tail k) (rcu_gen k)
    (curr_cpu k) (l_rq_head k) (l_rq_tail k) (rq_ptr_high k) (rq k) (prioritized_status k) (h_rq k) (self k)
    (cur_status k) (kpc k).
Definition set_rq_head (v : Z) (k : kthread) : kthread :=
  KThread (klock k) v (rq_tail k) (rq_overflow k) (parked k) (q_rq_head k) (q_rq_tail k) (rcu_gen k) (curr_cpu
    k) (l_rq_head k) (l_rq_tail k) (rq_ptr_high k) (rq k) (prioritized_status k) (h_rq k) (self k) (cur_status
    k) (kpc k).
Definition set_rq_tail (v : Z) (k : kthread) : kthread :=
  KThread (klock k) (rq_head k) v (rq_overflow k) (parked k) (q_rq_head k) (q_rq_tail k) (rcu_gen k) (curr_cpu
    k) (l_rq_head k) (l_rq_tail k) (rq_ptr_high k) (rq k) (prioritized_status k) (h_rq k) (self k) (cur_status
    k) (kpc k).
Definition set_rq_overflow (v : list nat) (k : kthread) : kthread :=
  KThread (klock k) (rq_head k) (rq_tail k) v (parked k) (q_rq_head k) (q_rq_tail k) (rcu_gen k) (curr_cpu k)
    (l_rq_head k) (l_rq_tail k) (rq_ptr_high k) (rq k) (prioritized_status k) (h_rq k) (self k) (cur_status k)
    (kpc k).
Definition set_parked (v : bool) (k : kthread) : kthread :=
  KThread (klock k) (rq_head k) (rq_tail k) (rq_overflow k) v (q_rq_head k) (q_rq_tail k) (rcu_gen k)
    (curr_cpu k) (l_rq_head k) (l_rq_tail k) (rq_ptr_high k) (rq k) (prioritized_status k) (h_rq k) (self k)
    (cur_status k) (kpc k).
Definition set_q_rq_head (v : Z) (k : kthread) : kthread :=
  KThread (klock k) (rq_head k) (rq_tail k) (rq_overflow k) (parked k) v (q_rq_tail k) (rcu_gen k) (curr_cpu
    k) (l_rq_head k) (l_rq_tail k) (rq_ptr_high k) (rq k) (prioritized_status k) (h_rq k) (self k) (cur_status
    k) (kpc k).
Definition set_q_rq_tail (v : Z) (k : kthread) : kthread :=
  KThread (klock k) (rq_head k) (rq_tail k) (rq_overflow k) (parked k) (q_rq_head k) v (rcu_gen k) (curr_cpu
    k) (l_rq_head k) (l_rq_tail k) (rq_ptr_high k) (rq k) (prioritized_status k) (h_rq k) (self k) (cur_status
    k) (kpc k).
Definition set_rcu_gen (v : Z) (k : kthread) : kthread :=
  KThread (klock k) (rq_head k) (rq_tail k) (rq_overflow k) (parked k) (q_rq_head k) (q_rq_tail k) v (curr_cpu
    k) (l_rq_head k) (l_rq_tail k) (rq_ptr_high k) (rq k) (prioritized_status k) (h_rq k) (self k) (cur_status
    k) (kpc k).
Definition set_curr_cpu (v : Z) (k : kthread) : kthread :=
  KThread (klock k) (rq_head k) (rq_tail k) (rq_overflow k) (parked k) (q_rq_head k) (q_rq_tail k) (rcu_gen k)
    v (l_rq_head k) (l_rq_tail k) (rq_ptr_high k) (rq k) (prioritized_status k) (h_rq k) (self k) (cur_status
    k) (kpc k).
Definition set_l_rq_head (v : Z) (k : kthread) : kthread :=
  KThread (klock k) (rq_head k) (rq_tail k) (rq_overflow k) (parked k) (q_rq_head k) (q_rq_tail k) (rcu_gen k)
    (curr_cpu k) v (l_rq_tail k) (rq_ptr_high k) (rq k) (prioritized_status k) (h_rq k) (self k) (cur_status
    k) (kpc k).
Definition set_l_rq_tail (v : Z) (k : kthread) : kthread :=
  KThread (klock k) (rq_head k) (rq_tail k) (rq_overflow k) (parked k) (q_rq_head k) (q_rq_tail k) (rcu_gen k)
    (curr_cpu k) (l_rq_head k) v (rq_ptr_high k) (rq k) (prioritized_status k) (h_rq k) (self k) (cur_status
    k) (kpc k).
Definition set_rq_ptr_high (v : bool) (k : kthread) : kthread :=
  KThread (klock k) (rq_head k) (rq_tail k) (rq_overflow k) (parked k) (q_rq_head k) (q_rq_tail k) (rcu_gen k)
    (curr_cpu k) (l_rq_head k) (l_rq_tail k) v (rq k) (prioritized_status k) (h_rq k) (self k) (cur_status k)
    (kpc k).
Definition set_rq (v : list (option nat)) (k : kthread) : kthread :=
  KThread (klock k) (rq_head k) (rq_tail k) (rq_overflow k) (parked k) (q_rq_head k) (q_rq_tail k) (rcu_gen k)
    (curr_cpu k) (l_rq_head k) (l_rq_tail k) (rq_ptr_high k) v (prioritized_status k) (h_rq k) (self k)
    (cur_status k) (kpc k).
Definition set_prioritized_status (v : bool) (k : kthread) : kthread :=
  KThread (klock k) (rq_head k) (rq_tail k) (rq_overflow k) (parked k) (q_rq_head k) (q_rq_tail k) (rcu_gen k)
    (curr_cpu k) (l_rq_head k) (l_rq_tail k) (rq_ptr_high k) (rq k) v (h_rq k) (self k) (cur_status k) (kpc
    k).
Definition set_h_rq (v : list (option nat)) (k : kthread) : kthread :=
  KThread (klock k) (rq_head k) (rq_tail k) (rq_overflow k) (parked k) (q_rq_head k) (q_rq_tail k) (rcu_gen k)
    (curr_cpu k) (l_rq_head k) (l_rq_tail k) (rq_ptr_high k) (rq k) (prioritized_status k) v (self k)
    (cur_status k) (kpc k).
Definition set_self (v : option nat) (k : kthread) : kthread :=
  KThread (klock k) (rq_head k) (rq_tail k) (rq_overflow k) (parked k) (q_rq_head k) (q_rq_tail k) (rcu_gen k)
    (curr_cpu k) (l_rq_head k) (l_rq_tail k) (rq_ptr_high k) (rq k) (prioritized_status k) (h_rq k) v
    (cur_status k) (kpc k).
Definition set_cur_status (v : Z) (k : kthread) : kthread :=
  KThread (klock k) (rq_head k) (rq_tail k) (rq_overflow k) (parked k) (q_rq_head k) (q_rq_tail k) (rcu_gen k)
    (curr_cpu k) (l_rq_head k) (l_rq_tail k) (rq_ptr_high k) (rq k) (prioritized_status k) (h_rq k) (self k) v
    (kpc k).
Definition set_kpc (v : pc) (k : kthread) : kthread :=
  KThread (klock k) (rq_head k) (rq_tail k) (rq_overflow k) (parked k) (q_rq_head k) (q_rq_tail k) (rcu_gen k)
    (curr_cpu k) (l_rq_head k) (l_rq_tail k) (rq_ptr_high k) (rq k) (prioritized_status k) (h_rq k) (self k)
    (cur_status k) v.

Record sys := Sys {
  ths : gmap nat uthread;
  ks : list kthread;
  global_prioritizing : bool;
  global_status : Z;
}.

Definition set_ths (v : gmap nat uthread) (s : sys) : sys :=
  Sys v (ks s) (global_prioritizing s) (global_status s).
Definition set_ks (v : list kthread) (s : sys) : sys :=
  Sys (ths s) v (global_prioritizing s) (global_status s).
Definition set_global_prioritizing (v : bool) (s : sys) : sys :=
  Sys (ths s) (ks s) v (global_status s).
Definition set_global_status (v : Z) (s : sys) : sys :=
  Sys (ths s) (ks s) (global_prioritizing s) v.

(** ** Access *)

Definition get_k (i : nat) (s : sys) : res kthread := match ks s !! i with Some k => Ok k | None => Bug end.
Definition put_k (i : nat) (k : kthread) (s : sys) : sys := set_ks (<[i := k]> (ks s)) s.
Definition get_th (t : nat) (s : sys) : res uthread := match ths s !! t with Some u => Ok u | None => Bug end.
Definition upd_th (t : nat) (f : uthread -> uthread) (s : sys) : sys := set_ths (alter f t (ths s)) s.

(** ** Rings *)

Definition slot (x : Z) : nat := Z.to_nat (x mod RUNTIME_RQ_SIZE).

Definition ring_get (a : list (option nat)) (x : Z) : res nat :=
  match a !! slot x with Some (Some th) => Ok th | _ => Bug end.

Definition ring_put (a : list (option nat)) (x : Z) (th : nat) : list (option nat) := <[slot x := Some th]> a.

(** [k->rq_ptr] *)
Definition cur_rq (k : kthread) : list (option nat) := if rq_ptr_high k then h_rq k else rq k.
Definition set_cur_rq (a : list (option nat)) (k : kthread) : kthread :=
  if rq_ptr_high k then set_h_rq a k else set_rq a k.

Definition rq_count (k : kthread) : Z := u32 (rq_head k - rq_tail k).
Definition l_rq_count (k : kthread) : Z := u32 (l_rq_head k - l_rq_tail k).
