(* ===== verification/RtSched.v ===== *)
(** * runtime/sched.c: the scheduler of user-level threads

    The operations on the state of RtState.v.  Those on one kthread take its record;
    the others the whole state and the index [me] of the kthread that runs them.  The
    last part is the machine: what each kthread does in one atomic step.  A step is a
    part of the code in which at most one lock of another kthread is held, so that
    everything it reads and writes of a queue is protected; reads without a lock only
    decide to skip work and appear as a choice.  Statistics, time stamps and
    performance counters are not modelled. *)

From S2P Require Import Prelude Stddef RtState.

(** ** One kthread *)

Definition assert_lock (k : kthread) : res unit := BUG_ON (bool_decide (klock k = None)).

Definition swap_rq (k : kthread) : res kthread :=
  _ ← assert_lock k;
  let k' := set_l_rq_head (rq_head k) (set_rq_head (l_rq_head k) k) in
  let k' := set_l_rq_tail (rq_tail k) (set_rq_tail (l_rq_tail k) k') in
  Ok (set_rq_ptr_high (negb (rq_ptr_high k)) k').

(** [k->rq_ptr[k->rq_head++ % RUNTIME_RQ_SIZE] = th] *)
Definition push_rq (th : nat) (k : kthread) : kthread :=
  set_rq_head (u32 (rq_head k + 1)) (set_cur_rq (ring_put (cur_rq k) (rq_head k) th) k).

Definition push_overflow (th : nat) (k : kthread) : kthread := set_rq_overflow (rq_overflow k ++ [th]) k.

Fixpoint drain_loop (ov : list nat) (k : kthread) : kthread :=
  match ov with
  | [] => set_rq_overflow [] k
  | th :: ov' => if rq_count k <? RUNTIME_RQ_SIZE then drain_loop ov' (push_rq th k) else set_rq_overflow ov k
  end.

Definition drain_overflow (k : kthread) : res kthread := _ ← assert_lock k; Ok (drain_loop (rq_overflow k) k).

Definition b2z (b : bool) : Z := if b then 1 else 0.

Definition q_tail_add (n : Z) (k : kthread) : kthread := set_q_rq_tail (u32 (q_rq_tail k + n)) k.
Definition q_head_add (n : Z) (k : kthread) : kthread := set_q_rq_head (u32 (q_rq_head k + n)) k.

(** [k->rq[k->l_rq_head++ % RUNTIME_RQ_SIZE] = th] *)
Definition push_low (th : nat) (k : kthread) : kthread :=
  set_l_rq_head (u32 (l_rq_head k + 1)) (set_rq (ring_put (rq k) (l_rq_head k) th) k).

Section statuses.
Context (status_of : nat -> res Z).

(** The label [retry] of [pop_rq]; [n] bounds the threads in the queue. *)
Fixpoint pop_high (n : nat) (k : kthread) : res (option nat * kthread) :=
  if rq_head k =? rq_tail k then Ok (None, k)
  else
    match n with
    | O => Bug
    | S n =>
        tmp ← ring_get (h_rq k) (rq_tail k);
        let k := set_rq_tail (u32 (rq_tail k + 1)) k in
        st ← status_of tmp;
        if negb (st =? b2z (prioritized_status k)) then
          pop_high n (if negb (l_rq_count k =? RUNTIME_RQ_SIZE) then push_low tmp k else push_overflow tmp k)
        else Ok (Some tmp, q_tail_add 1 k)
    end.

Definition pop_rq (k : kthread) : res (option nat * kthread) :=
  if prioritized_status k then pop_high (Z.to_nat (rq_count k)) k
  else if negb (rq_head k =? rq_tail k) then
    let k := q_tail_add 1 k in
    th ← ring_get (rq k) (rq_tail k);
    Ok (Some th, set_rq_tail (u32 (rq_tail k + 1)) k)
  else Ok (None, k).

(** ** Prioritizing a status *)

Fixpoint build_loop (st : Z) (n : nat) (k : kthread) : res kthread :=
  match n with
  | O => Ok k
  | S n =>
      th ← ring_get (rq k) (rq_tail k);
      let k := set_rq_tail (u32 (rq_tail k + 1)) k in
      ts ← status_of th;
      if ts =? st then
        let k := set_l_rq_head (u32 (l_rq_head k + 1)) (set_h_rq (ring_put (h_rq k) (l_rq_head k) th) k) in
        _ ← BUG_ON (RUNTIME_RQ_SIZE <? l_rq_count k);
        build_loop st n k
      else build_loop st n (set_rq_head (u32 (rq_head k + 1)) (set_rq (ring_put (rq k) (rq_head k) th) k))
  end.

(** [prioritized_status] is a [bool]: storing a status stores whether it is not zero. *)
Definition set_prioritized (st : Z) (k : kthread) : kthread := set_prioritized_status (negb (st =? 0)) k.

(** The body of the loop of [build_high_priority_queue], once the lock is held. *)
Definition build_one (st : Z) (k : kthread) : res kthread :=
  if prioritized_status k then Ok k
  else
    k ← build_loop st (Z.to_nat (rq_count k)) k;
    k ← swap_rq k;
    Ok (set_prioritized st k).

Fixpoint update_loop (st : Z) (n : nat) (k : kthread) : res kthread :=
  match n with
  | O => Ok k
  | S n =>
      th ← ring_get (rq k) (l_rq_tail k);
      let k := set_l_rq_tail (u32 (l_rq_tail k + 1)) k in
      ts ← status_of th;
      if ts =? st then
        if negb (rq_count k =? RUNTIME_RQ_SIZE) then
          let k := set_rq_head (u32 (rq_head k + 1)) (set_h_rq (ring_put (h_rq k) (rq_head k) th) k) in
          _ ← BUG_ON (RUNTIME_RQ_SIZE <? rq_count k);
          update_loop st n k
        else update_loop st n (push_overflow th k)
      else update_loop st n (push_low th k)
  end.

Definition update_one (st : Z) (k : kthread) : res kthread :=
  if (b2z (prioritized_status k) =? st) || negb (prioritized_status k) then Ok k
  else
    k ← update_loop st (Z.to_nat (l_rq_count k)) k;
    Ok (set_prioritized st k).
End statuses.

Fixpoint release_rest (n : nat) (k : kthread) : res kthread :=
  match n with
  | O => Ok k
  | S n =>
      th ← ring_get (h_rq k) (rq_tail k);
      release_rest n (push_overflow th (set_rq_tail (u32 (rq_tail k + 1)) k))
  end.

Fixpoint release_loop (n : nat) (k : kthread) : res kthread :=
  match n with
  | O => Ok k
  | S n' =>
      if l_rq_count k <? RUNTIME_RQ_SIZE then
        th ← ring_get (h_rq k) (rq_tail k);
        release_loop n' (push_low th (set_rq_tail (u32 (rq_tail k + 1)) k))
      else release_rest n k
  end.

Definition release_one (k : kthread) : res kthread :=
  if negb (prioritized_status k) then Ok k
  else
    k ← release_loop (Z.to_nat (rq_count k)) k;
    _ ← BUG_ON (negb (rq_head k =? rq_tail k));
    k ← swap_rq k;
    Ok (set_prioritized_status false k).

(** ** Stealing *)

Definition div_up (x d : Z) : Z := u32 (x + d - 1) / d.

(** The second loop: the rest goes to the overflow list. *)
Fixpoint steal_rest (n : nat) (src : list (option nat)) (tail : Z) (ov : list nat) : res (Z * list nat) :=
  match n with
  | O => Ok (tail, ov)
  | S n => th ← ring_get src tail; steal_rest n src (u32 (tail + 1)) (ov ++ [th])
  end.

(** The first: [dst], with [head] and [dtail], takes threads until it is full. *)
Fixpoint steal_loop (n : nat) (src : list (option nat)) (tail : Z) (dst : list (option nat)) (head dtail : Z) (ov : list nat)
  : res (Z * list (option nat) * Z * list nat) :=
  match n with
  | O => Ok (tail, dst, head, ov)
  | S n' =>
      if u32 (head - dtail) <? RUNTIME_RQ_SIZE then
        th ← ring_get src tail;
        steal_loop n' src (u32 (tail + 1)) (ring_put dst head th) (u32 (head + 1)) dtail ov
      else '(tail, ov) ← steal_rest n src tail ov; Ok (tail, dst, head, ov)
  end.

(** ** User-level threads *)

(** [__thread_create], [thread_create] and [thread_create_with_buf], when there is
    memory. *)
Definition thread_create (th : nat) (cpu : Z) (s : sys) : sys :=
  set_ths (<[th := UThread THREAD_STATE_SLEEPING false cpu 0 false]> (ths s)) s.

(** [softirq_run_thread]: [soft] is the new thread if there is work and memory. *)
Definition softirq_run_thread (soft : option nat) (cpu : Z) (s : sys) : option nat * sys :=
  match soft with
  | None => (None, s)
  | Some th => (Some th, upd_th th (set_ustate THREAD_STATE_RUNNABLE) (thread_create th cpu s))
  end.

Definition push_or_overflow (th : nat) (k : kthread) : kthread :=
  if rq_count k <? RUNTIME_RQ_SIZE then push_rq th k else push_overflow th k.

(** The queues in [thread_ready] and [thread_ready_rr]. *)
Definition ready_on (th : nat) (k : kthread) : res kthread :=
  let k := q_head_add 1 k in
  if RUNTIME_RQ_SIZE <=? rq_count k then
    _ ← BUG_ON (negb (rq_count k =? RUNTIME_RQ_SIZE)); Ok (push_overflow th k)
  else Ok (push_rq th k).

Definition status_in (s : sys) (th : nat) : res Z := u ← get_th th s; Ok (status u).

(** [steal_work]: [skip] if no work is seen, or the lock is held by another.  *)
Definition steal_work (me r : nat) (skip : bool) (soft : option nat) (s : sys) : res (bool * sys) :=
  l ← get_k me s;
  _ ← assert_lock l;
  kr ← get_k r s;
  if skip || bool_decide (klock kr <> None) then Ok (false, s)
  else
    let avail := rq_count kr in
    if negb (avail =? 0) then
      let avail := div_up avail 2 in
      '(tail, dst, head, ov) ← steal_loop (Z.to_nat avail) (cur_rq kr) (rq_tail kr) (cur_rq l) (rq_head l) (rq_tail l) (rq_overflow l);
      let kr := q_tail_add avail (set_rq_tail tail kr) in
      let l := q_head_add avail (set_rq_head head (set_rq_overflow ov (set_cur_rq dst l))) in
      Ok (true, put_k me l (put_k r kr s))
    else
      match rq_overflow kr with
      | th :: ov =>
          let kr := q_tail_add 1 (set_rq_overflow ov kr) in
          Ok (true, put_k me (q_head_add 1 (push_or_overflow th l)) (put_k r kr s))
      | [] =>
          let '(th, s) := softirq_run_thread soft (curr_cpu l) s in
          match th with
          | Some th => Ok (true, put_k me (q_head_add 1 (push_or_overflow th l)) s)
          | None => Ok (false, s)
          end
      end.

Definition push_low_or_overflow (th : nat) (k : kthread) : kthread :=
  if l_rq_count k <? RUNTIME_RQ_SIZE then push_low th k else push_overflow th k.

Definition steal_work_lp (me r : nat) (skip : bool) (soft : option nat) (s : sys) : res (bool * sys) :=
  l ← get_k me s;
  _ ← assert_lock l;
  _ ← BUG_ON (negb (prioritized_status l));
  kr ← get_k r s;
  if skip || bool_decide (klock kr <> None) || negb (prioritized_status kr) then Ok (false, s)
  else
    let avail := l_rq_count kr in
    if negb (avail =? 0) then
      let avail := div_up avail 2 in
      '(tail, dst, head, ov) ← steal_loop (Z.to_nat avail) (rq kr) (l_rq_tail kr) (rq l) (l_rq_head l) (l_rq_tail l) (rq_overflow l);
      let kr := q_tail_add avail (set_l_rq_tail tail kr) in
      let l := q_head_add avail (set_l_rq_head head (set_rq_overflow ov (set_rq dst l))) in
      Ok (true, put_k me l (put_k r kr s))
    else
      match rq_overflow kr with
      | th :: ov =>
          let kr := q_tail_add 1 (set_rq_overflow ov kr) in
          Ok (true, put_k me (q_head_add 1 (push_low_or_overflow th l)) (put_k r kr s))
      | [] =>
          let '(th, s) := softirq_run_thread soft (curr_cpu l) s in
          match th with
          | Some th => Ok (true, put_k me (q_head_add 1 (push_low_or_overflow th l)) s)
          | None => Ok (false, s)
          end
      end.
