(* ===== verification/RtQueue.v ===== *)
(** * The run queues of a kthread

    Rings as lists, and what each operation of RtSched.v on one kthread does to the
    threads in its queues. *)

From S2P Require Import Prelude Stddef RtState RtSched.

Definition RQ : nat := 32.

(** ** Rings *)

(** The ring [a] between [t] and [h] holds [l]. *)
Record ring (a : list (option nat)) (h t : Z) (l : list nat) : Prop := {
  rg_len : length a = RQ;
  rg_head : h = u32 (t + Z.of_nat (length l));
  rg_tail : in_u32 t;
  rg_room : (length l <= RQ)%nat;
  rg_at : forall j x, l !! j = Some x -> a !! slot (t + Z.of_nat j) = Some (Some x);
}.

Lemma slot_u32 x : slot (u32 x) = slot x.
Proof. unfold slot, u32, M32, RUNTIME_RQ_SIZE. f_equal. apply Z.mod_mod_divide. exists 134217728. lia. Qed.

Lemma slot_lt x : (slot x < RQ)%nat.
Proof. unfold slot, RUNTIME_RQ_SIZE, RQ. assert (0 <= x mod 32 < 32) by (apply Z.mod_pos_bound; lia). lia. Qed.

Lemma slot_inj t (i j : nat) : (i < RQ)%nat -> (j < RQ)%nat -> slot (t + Z.of_nat i) = slot (t + Z.of_nat j) -> i = j.
Proof.
  unfold slot, RUNTIME_RQ_SIZE, RQ. intros Hi Hj H. apply Z2Nat.inj in H; [|apply Z.mod_pos_bound; lia..].
  Z.to_euclidean_division_equations; lia.
Qed.

Lemma ring_count a h t l : ring a h t l -> u32 (h - t) = Z.of_nat (length l).
Proof.
  intros [_ -> Ht Hn _]. rewrite u32_sub_l. replace (t + Z.of_nat (length l) - t) with (Z.of_nat (length l)) by lia.
  apply (u32_id (Z.of_nat (length l))). unfold in_u32, M32, RQ in *. lia.
Qed.

Lemma ring_empty a h t l : ring a h t l -> (h =? t) = bool_decide (l = []).
Proof.
  intros Hr. assert (Hc := ring_count _ _ _ _ Hr). destruct Hr as [_ Hh Ht _ _]. destruct l as [|x l].
  - rewrite bool_decide_eq_true_2 by done. apply Z.eqb_eq. rewrite Hh. cbn. rewrite Z.add_0_r. by apply u32_id.
  - rewrite bool_decide_eq_false_2 by done. apply Z.eqb_neq. intros ->. rewrite Z.sub_diag in Hc. change (u32 0) with 0 in Hc. cbn in Hc. lia.
Qed.

Lemma ring_head_in a h t l : ring a h t l -> in_u32 h.
Proof. intros [_ -> _ _ _]. apply u32_range. Qed.

Lemma ring_nil a t : length a = RQ -> in_u32 t -> ring a t t [].
Proof. intros Ha Ht. split; auto; [cbn; rewrite Z.add_0_r; symmetry; by apply u32_id|cbn; lia|done]. Qed.

Lemma ring_pop a h t x l : ring a h t (x :: l) -> ring_get a t = Ok x /\ ring a h (u32 (t + 1)) l.
Proof.
  intros [H1 H2 H3 H4 H5]. split.
  - unfold ring_get. specialize (H5 0%nat x eq_refl). cbn in H5. rewrite Z.add_0_r in H5. by rewrite H5.
  - split; auto.
    + rewrite H2, u32_add_l. f_equal. cbn [length]. lia.
    + apply u32_range.
    + cbn [length] in H4. lia.
    + intros j y Hj. specialize (H5 (S j) y Hj). replace (t + Z.of_nat (S j)) with (t + 1 + Z.of_nat j) in H5 by lia.
      rewrite <- H5. f_equal. rewrite <- (slot_u32 (t + 1 + Z.of_nat j)), <- (slot_u32 (u32 (t + 1) + Z.of_nat j)). by rewrite u32_add_l.
Qed.

Lemma ring_push a h t l x : ring a h t l -> (length l < RQ)%nat -> ring (ring_put a h x) (u32 (h + 1)) t (l ++ [x]).
Proof.
  intros [H1 H2 H3 H4 H5] Hr. split; auto.
  - unfold ring_put. by rewrite length_insert.
  - rewrite H2, u32_add_l, length_app. f_equal. cbn. lia.
  - rewrite length_app. cbn. lia.
  - assert (Hs : slot h = slot (t + Z.of_nat (length l))) by (by rewrite H2, slot_u32).
    intros j y [Hj|[Hj Hy]]%lookup_app_Some; unfold ring_put; rewrite Hs.
    + assert (Hl := lookup_lt_Some _ _ _ Hj). rewrite list_lookup_insert_ne; [by apply H5|]. intros E. apply slot_inj in E; lia.
    + destruct (j - length l)%nat eqn:Ej; [|done]. injection Hy as <-. replace j with (length l) by lia.
      apply list_lookup_insert_eq. rewrite H1. apply slot_lt.
Qed.

(** The list a ring holds, computed. *)
Definition ring_list (a : list (option nat)) (h t : Z) : list nat :=
  omap (fun j => mjoin (a !! slot (t + Z.of_nat j))) (seq 0 (Z.to_nat (u32 (h - t)))).

Lemma omap_lookup_all (f : nat -> option nat) l : forall m, (forall j x, l !! j = Some x -> f (m + j)%nat = Some x) ->
  omap f (seq m (length l)) = l.
Proof.
  induction l as [|x l IH]; intros m Hf; cbn; [done|]. assert (Hx := Hf 0%nat x eq_refl). rewrite Nat.add_0_r in Hx. rewrite Hx.
  f_equal. apply IH. intros j y Hj. replace (S m + j)%nat with (m + S j)%nat by lia. by apply Hf.
Qed.

Lemma ring_list_eq a h t l : ring a h t l -> ring_list a h t = l.
Proof.
  intros Hr. unfold ring_list. rewrite (ring_count _ _ _ _ Hr), Nat2Z.id. apply omap_lookup_all.
  intros j x Hj. cbn. by rewrite (rg_at _ _ _ _ Hr j x Hj).
Qed.

(** ** Queues *)

Definition other_rq (k : kthread) : list (option nat) := if rq_ptr_high k then rq k else h_rq k.

(** The current queue of [k] holds [hi], the other one [lo]; outside of the loops that
    prioritize a status the other one is empty if none is prioritized. *)
Record krings (k : kthread) (hi lo : list nat) : Prop := {
  kr_hi : ring (cur_rq k) (rq_head k) (rq_tail k) hi;
  kr_lo : ring (other_rq k) (l_rq_head k) (l_rq_tail k) lo;
}.

Record kq (k : kthread) (hi lo : list nat) : Prop := {
  kq_rings : krings k hi lo;
  kq_flag : rq_ptr_high k = prioritized_status k;
  kq_low : prioritized_status k = false -> lo = [];
}.

Definition queue (k : kthread) : list nat :=
  ring_list (cur_rq k) (rq_head k) (rq_tail k) ++ ring_list (other_rq k) (l_rq_head k) (l_rq_tail k) ++ rq_overflow k.

Lemma krings_queue k hi lo : krings k hi lo -> queue k = hi ++ lo ++ rq_overflow k.
Proof. intros [H1 H2]. unfold queue. by rewrite (ring_list_eq _ _ _ _ H1), (ring_list_eq _ _ _ _ H2). Qed.

(** What the operations on the queues leave alone. *)
Definition kview (k : kthread) :=
  (klock k, parked k, rcu_gen k, curr_cpu k, self k, cur_status k, kpc k).
Definition qptrs (k : kthread) : Z * Z := (q_rq_head k, q_rq_tail k).

Ltac rings := cbn [klock rq_head rq_tail rq_overflow parked q_rq_head q_rq_tail rcu_gen curr_cpu l_rq_head l_rq_tail
  rq_ptr_high rq prioritized_status h_rq self cur_status kpc
  set_klock set_rq_head set_rq_tail set_rq_overflow set_parked set_q_rq_head set_q_rq_tail set_rcu_gen set_curr_cpu
  set_l_rq_head set_l_rq_tail set_rq_ptr_high set_rq set_prioritized_status set_h_rq set_self set_cur_status set_kpc] in *.

Lemma krings_count k hi lo : krings k hi lo -> rq_count k = Z.of_nat (length hi) /\ l_rq_count k = Z.of_nat (length lo).
Proof. intros [H1 H2]. split; [by apply (ring_count _ _ _ _ H1)|by apply (ring_count _ _ _ _ H2)]. Qed.

Lemma krings_room k hi lo : krings k hi lo -> (length hi <= RQ)%nat /\ (length lo <= RQ)%nat.
Proof. intros [[] []]. done. Qed.

Lemma krings_pop k x hi lo :
  krings k (x :: hi) lo -> ring_get (cur_rq k) (rq_tail k) = Ok x /\ krings (set_rq_tail (u32 (rq_tail k + 1)) k) hi lo.
Proof. intros [H1 H2]. apply ring_pop in H1 as [E H1]. split; [done|]. split; done. Qed.

Lemma krings_pop_other k x hi lo :
  krings k hi (x :: lo) -> ring_get (other_rq k) (l_rq_tail k) = Ok x /\ krings (set_l_rq_tail (u32 (l_rq_tail k + 1)) k) hi lo.
Proof. intros [H1 H2]. apply ring_pop in H2 as [E H2]. split; [done|]. split; done. Qed.

Lemma krings_push k x hi lo : krings k hi lo -> (length hi < RQ)%nat -> krings (push_rq x k) (hi ++ [x]) lo.
Proof.
  intros [H1 H2] Hr. unfold push_rq, set_cur_rq. apply (ring_push _ _ _ _ x) in H1; [|done].
  split; unfold cur_rq, other_rq in *; destruct (rq_ptr_high k) eqn:E; rings; rewrite E; done.
Qed.

(** The same, where the code names the ring. *)
Lemma krings_push_rq k x hi lo :
  krings k hi lo -> (length hi < RQ)%nat -> rq_ptr_high k = false ->
  krings (set_rq_head (u32 (rq_head k + 1)) (set_rq (ring_put (rq k) (rq_head k) x) k)) (hi ++ [x]) lo.
Proof. intros H Hr E. apply (krings_push _ x) in H; [|done]. unfold push_rq, set_cur_rq, cur_rq in H. by rewrite !E in H. Qed.

Lemma krings_push_h k x hi lo :
  krings k hi lo -> (length hi < RQ)%nat -> rq_ptr_high k = true ->
  krings (set_rq_head (u32 (rq_head k + 1)) (set_h_rq (ring_put (h_rq k) (rq_head k) x) k)) (hi ++ [x]) lo.
Proof. intros H Hr E. apply (krings_push _ x) in H; [|done]. unfold push_rq, set_cur_rq, cur_rq in H. by rewrite !E in H. Qed.

Lemma krings_push_low k x hi lo :
  krings k hi lo -> (length lo < RQ)%nat -> rq_ptr_high k = true -> krings (push_low x k) hi (lo ++ [x]).
Proof.
  intros [H1 H2] Hr E. unfold push_low. apply (ring_push _ _ _ _ x) in H2; [|done].
  split; unfold cur_rq, other_rq in *; rings; rewrite E in *; done.
Qed.

Lemma krings_push_high k x hi lo :
  krings k hi lo -> (length lo < RQ)%nat -> rq_ptr_high k = false ->
  krings (set_l_rq_head (u32 (l_rq_head k + 1)) (set_h_rq (ring_put (h_rq k) (l_rq_head k) x) k)) hi (lo ++ [x]).
Proof.
  intros [H1 H2] Hr E. apply (ring_push _ _ _ _ x) in H2; [|done].
  split; unfold cur_rq, other_rq in *; rings; rewrite E in *; done.
Qed.

Lemma krings_swap k hi lo k' : krings k hi lo -> swap_rq k = Ok k' -> krings k' lo hi.
Proof.
  unfold swap_rq, assert_lock. intros [H1 H2]. destruct (bool_decide _); [done|]. intros [= <-].
  split; unfold cur_rq, other_rq in *; rings; destruct (rq_ptr_high k); done.
Qed.

(** Fields that are no part of a queue. *)
Lemma krings_ext k k' hi lo :
  krings k hi lo -> (rq k', h_rq k', rq_ptr_high k', rq_head k', rq_tail k', l_rq_head k', l_rq_tail k') =
    (rq k, h_rq k, rq_ptr_high k, rq_head k, rq_tail k, l_rq_head k, l_rq_tail k) -> krings k' hi lo.
Proof.
  intros [H1 H2] E. injection E as E1 E2 E3 E4 E5 E6 E7.
  split; unfold cur_rq, other_rq in *; by rewrite E1, E2, E3, ?E4, ?E5, ?E6, ?E7.
Qed.

(** ** Operations on one kthread *)

Definition frame (k k' : kthread) : Prop :=
  kview k' = kview k /\ prioritized_status k' = prioritized_status k /\ rq_ptr_high k' = rq_ptr_high k.

Lemma frame_refl k : frame k k.
Proof. done. Qed.

Lemma frame_trans k1 k2 k3 : frame k1 k2 -> frame k2 k3 -> frame k1 k3.
Proof. unfold frame. intuition congruence. Qed.

Lemma frame_push_rq x k : frame k (push_rq x k) /\ rq_overflow (push_rq x k) = rq_overflow k /\ qptrs (push_rq x k) = qptrs k.
Proof. unfold push_rq, set_cur_rq, frame. destruct (rq_ptr_high k) eqn:E; rings; rewrite E; done. Qed.

Lemma kq_frame k hi lo k' hi' : kq k hi lo -> frame k k' -> krings k' hi' lo -> kq k' hi' lo.
Proof. intros [H1 H2 H3] (F1 & F2 & F3) H. split; [done|congruence|]. by rewrite F2. Qed.

Lemma kq_prio k hi lo k' hi' lo' : kq k hi lo -> frame k k' -> prioritized_status k = true -> krings k' hi' lo' -> kq k' hi' lo'.
Proof. intros [H1 H2 H3] (F1 & F2 & F3) Hp H. split; [done|congruence|]. by rewrite F2, Hp. Qed.

Lemma drain_loop_ok ov : forall k hi lo, krings k hi lo ->
  exists n, let k' := drain_loop ov k in
    krings k' (hi ++ take n ov) lo /\ rq_overflow k' = drop n ov /\ frame k k' /\ qptrs k' = qptrs k /\
    (drop n ov <> [] -> length (hi ++ take n ov) = RQ).
Proof.
  induction ov as [|th ov IH]; intros k hi lo Hk; cbn [drain_loop].
  - exists 0%nat. cbn. rewrite app_nil_r. split_and!; try done. by apply (krings_ext k).
  - destruct (krings_count _ _ _ Hk) as [-> _]. destruct (Z.ltb_spec (Z.of_nat (length hi)) RUNTIME_RQ_SIZE) as [Hl|Hl].
    + apply (krings_push _ th) in Hk; [|unfold RQ, RUNTIME_RQ_SIZE in *; lia].
      destruct (frame_push_rq th k) as (F & O & Q). destruct (IH _ _ _ Hk) as (n & H1 & H2 & H3 & H4 & H5). exists (S n). cbn [take drop].
      rewrite <- app_assoc in H1, H5. cbn [app] in H1, H5. split_and!; auto; [by eapply frame_trans|congruence].
    + exists 0%nat. cbn. rewrite app_nil_r. split_and!; try done; [by apply (krings_ext k)|].
      intros _. destruct (krings_room _ _ _ Hk). unfold RQ, RUNTIME_RQ_SIZE in *. lia.
Qed.

Lemma drain_if_ok' k hi lo : kq k hi lo -> klock k <> None ->
  exists k' n, (if bool_decide (rq_overflow k <> []) then drain_overflow k else Ok k) = Ok k' /\
    kq k' (hi ++ take n (rq_overflow k)) lo /\ rq_overflow k' = drop n (rq_overflow k) /\ frame k k' /\ qptrs k' = qptrs k /\
    (drop n (rq_overflow k) <> [] -> length (hi ++ take n (rq_overflow k)) = RQ).
Proof.
  intros Hk Hl. case_bool_decide as Ho.
  - unfold drain_overflow, assert_lock. rewrite bool_decide_eq_false_2 by done. cbn [BUG_ON mbind res_bind].
    destruct (drain_loop_ok (rq_overflow k) k hi lo (kq_rings _ _ _ Hk)) as (n & H1 & H2 & H3 & H4 & H5).
    eexists _, n. split_and!; auto. by eapply kq_frame.
  - exists k, 0%nat. assert (rq_overflow k = []) as -> by (destruct (rq_overflow k); [done|]; by destruct Ho).
    cbn. rewrite app_nil_r. split_and!; done.
Qed.

Section statuses.
Context (status_of : nat -> res Z) (f : nat -> Z).

Lemma pop_high_ok : forall hi k lo, kq k hi lo -> prioritized_status k = true -> (forall t, t ∈ hi -> status_of t = Ok (f t)) ->
  exists r k' hi' lo' sk, pop_high status_of (length hi) k = Ok (r, k') /\ kq k' hi' lo' /\ hi = sk ++ option_list r ++ hi' /\
    lo' ++ rq_overflow k' ≡ₚ lo ++ rq_overflow k ++ sk /\ frame k k' /\ (r = None -> hi' = []) /\
    q_rq_head k' = q_rq_head k /\ q_rq_tail k' = (if r is Some _ then u32 (q_rq_tail k + 1) else q_rq_tail k) /\
    Forall (fun x => f x <> 1) sk /\ (forall x, r = Some x -> f x = 1).
Proof.
  induction hi as [|x hi IH]; intros k lo Hk Hp Hst; cbn [length pop_high].
  - rewrite (ring_empty _ _ _ _ (kr_hi _ _ _ (kq_rings _ _ _ Hk))). exists None, k, [], lo, []. rewrite !app_nil_r.
    split_and!; done.
  - rewrite (ring_empty _ _ _ _ (kr_hi _ _ _ (kq_rings _ _ _ Hk))). rewrite bool_decide_eq_false_2 by done.
    assert (Hx := Hst x ltac:(by left)). assert (Hfl := kq_flag _ _ _ Hk). rewrite Hp in Hfl.
    destruct (krings_pop _ _ _ _ (kq_rings _ _ _ Hk)) as [Eg Hk1]. unfold cur_rq in Eg. rewrite Hfl in Eg. rewrite Eg. cbn [mbind res_bind].
    rewrite Hx. cbn [mbind res_bind]. set (k1 := set_rq_tail _ k) in *. assert (F1 : frame k k1) by done.
    assert (Hk1q : kq k1 hi lo) by (by eapply kq_frame).
    change (prioritized_status k1) with (prioritized_status k). rewrite Hp. cbn [b2z]. destruct (Z.eqb_spec (f x) 1) as [E1|E1]; cbn [negb].
    + exists (Some x), (q_tail_add 1 k1), hi, lo, []. rewrite app_nil_r. split_and!; try done; [|by intros ? [= <-]].
      apply (kq_frame k1 hi lo); [done|done|]. apply (krings_ext k1); [done|]. done.
    + assert (Hrest : forall k2 lo2, kq k2 hi lo2 -> frame k1 k2 -> qptrs k2 = qptrs k ->
        lo2 ++ rq_overflow k2 ≡ₚ lo ++ rq_overflow k ++ [x] ->
        exists r k' hi' lo' sk, pop_high status_of (length hi) k2 = Ok (r, k') /\ kq k' hi' lo' /\ x :: hi = sk ++ option_list r ++ hi' /\
          lo' ++ rq_overflow k' ≡ₚ lo ++ rq_overflow k ++ sk /\ frame k k' /\ (r = None -> hi' = []) /\
          q_rq_head k' = q_rq_head k /\ q_rq_tail k' = (if r is Some _ then u32 (q_rq_tail k + 1) else q_rq_tail k) /\
          Forall (fun x => f x <> 1) sk /\ (forall x, r = Some x -> f x = 1)).
      { intros k2 lo2 Hk2 F2 Q2 P2. injection Q2 as Qh Qt.
        destruct (IH k2 lo2 Hk2) as (r & k' & hi' & lo' & sk & E & Hk' & Ehi & P & F & Hn & Q3 & Q4 & Hs & Hr).
        { by rewrite (proj1 (proj2 F2)). }
        { intros t Ht. apply Hst. by right. }
        exists r, k', hi', lo', (x :: sk). rewrite Q3, Q4, Qh, Qt. split_and!; auto.
        - cbn. by rewrite Ehi.
        - rewrite P. transitivity ((lo2 ++ rq_overflow k2) ++ sk); [by rewrite app_assoc|]. rewrite P2. rewrite <- !app_assoc. done.
        - eapply frame_trans; [exact F1|]. by eapply frame_trans. }
      destruct (krings_count _ _ _ (kq_rings _ _ _ Hk1q)) as [_ ->].
      destruct (Z.eqb_spec (Z.of_nat (length lo)) RUNTIME_RQ_SIZE) as [El|El]; cbn [negb].
      * apply (Hrest (push_overflow x k1) lo); [|done|done|].
        -- apply (kq_frame k1 hi lo); [done|done|]. by apply (krings_ext k1).
        -- cbn. by rewrite app_assoc.
      * apply (Hrest (push_low x k1) (lo ++ [x])); [|done|done|].
        -- apply (kq_prio k1 hi lo); [done|done|done|]. apply krings_push_low; [apply Hk1q| |by rewrite <- Hfl].
           destruct (krings_room _ _ _ (kq_rings _ _ _ Hk1q)). unfold RQ, RUNTIME_RQ_SIZE in *. lia.
        -- cbn. rewrite <- app_assoc. apply Permutation_app_head. apply Permutation_app_comm.
Qed.

(** What [pop_rq] takes out of the queue of [k], and what it passes over. *)
Lemma pop_rq_ok k hi lo : kq k hi lo -> (forall t, t ∈ hi -> status_of t = Ok (f t)) ->
  exists r k' hi' lo' sk, pop_rq status_of k = Ok (r, k') /\ kq k' hi' lo' /\ hi = sk ++ option_list r ++ hi' /\
    lo' ++ rq_overflow k' ≡ₚ lo ++ rq_overflow k ++ sk /\ frame k k' /\ (r = None -> hi' = []) /\
    q_rq_head k' = q_rq_head k /\ q_rq_tail k' = (if r is Some _ then u32 (q_rq_tail k + 1) else q_rq_tail k) /\
    (prioritized_status k = true -> Forall (fun x => f x <> 1) sk /\ (forall x, r = Some x -> f x = 1)) /\
    (prioritized_status k = false -> sk = [] /\ rq_overflow k' = rq_overflow k).
Proof.
  intros Hk Hst. unfold pop_rq. destruct (prioritized_status k) eqn:Hp.
  - destruct (krings_count _ _ _ (kq_rings _ _ _ Hk)) as [-> _]. rewrite Nat2Z.id.
    destruct (pop_high_ok hi k lo Hk Hp Hst) as (r & k' & hi' & lo' & sk & E & H1 & H2 & H3 & H4 & H5 & H6 & H7 & H8 & H9).
    exists r, k', hi', lo', sk. split_and!; try done.
  - assert (Hf := kq_flag _ _ _ Hk). rewrite Hp in Hf. rewrite (ring_empty _ _ _ _ (kr_hi _ _ _ (kq_rings _ _ _ Hk))).
    destruct hi as [|x hi].
    + exists None, k, [], lo, []. rewrite !app_nil_r. split_and!; done.
    + rewrite bool_decide_eq_false_2 by done. cbn [negb].
      destruct (krings_pop _ _ _ _ (kq_rings _ _ _ Hk)) as [Eg Hk1]. unfold cur_rq in Eg. rewrite Hf in Eg.
      change (rq (q_tail_add 1 k)) with (rq k). change (rq_tail (q_tail_add 1 k)) with (rq_tail k). rewrite Eg. cbn [mbind res_bind].
      eexists (Some x), _, hi, lo, []. split; [reflexivity|]. rewrite app_nil_r. split_and!; try done.
      apply (kq_frame k (x :: hi) lo); [done|done|]. by apply (krings_ext (set_rq_tail (u32 (rq_tail k + 1)) k)).
Qed.

Lemma build_loop_ok st todo : forall k kept lo, krings k (todo ++ kept) lo -> rq_ptr_high k = false ->
  (length todo + length lo <= RQ)%nat -> (forall t, t ∈ todo -> status_of t = Ok (f t)) ->
  exists k', build_loop status_of st (length todo) k = Ok k' /\
    krings k' (kept ++ filter (fun t => f t <> st) todo) (lo ++ filter (fun t => f t = st) todo) /\
    frame k k' /\ rq_overflow k' = rq_overflow k /\ qptrs k' = qptrs k.
Proof.
  induction todo as [|x todo IH]; intros k kept lo Hk Hf Hr Hst; cbn [length build_loop].
  - exists k. rewrite !filter_nil, !app_nil_r. by split_and!.
  - assert (Hx := Hst x ltac:(by left)). cbn [app] in Hk. destruct (krings_room _ _ _ Hk) as [Hr1 _]. cbn [length] in Hr1, Hr.
    destruct (krings_pop _ _ _ _ Hk) as [Eg Hk1]. unfold cur_rq in Eg. rewrite Hf in Eg. rewrite Eg. cbn [mbind res_bind].
    set (k1 := set_rq_tail _ k) in *. rewrite Hx. cbn [mbind res_bind]. rewrite !filter_cons.
    destruct (Z.eqb_spec (f x) st) as [E1|E1].
    + rewrite decide_False by (intros Hn; by apply Hn). rewrite decide_True by done.
      assert (Hk2 : krings (set_l_rq_head (u32 (l_rq_head k1 + 1)) (set_h_rq (ring_put (h_rq k1) (l_rq_head k1) x) k1)) (todo ++ kept) (lo ++ [x]))
        by (apply krings_push_high; [done|lia|done]).
      set (k2 := set_l_rq_head _ _) in *.
      destruct (krings_count _ _ _ Hk2) as [_ Hc]. rewrite length_app in Hc. change (length [x]) with 1%nat in Hc. rewrite Hc.
      destruct (Z.ltb_spec RUNTIME_RQ_SIZE (Z.of_nat (length lo + 1))) as [Hl|_]; [unfold RUNTIME_RQ_SIZE, RQ in *; lia|]. cbn [BUG_ON mbind res_bind].
      destruct (IH _ _ _ Hk2) as (k' & E & H1 & H2 & H3 & H4); [done|rewrite length_app; cbn; lia|intros; apply Hst; by right|].
      exists k'. rewrite E. split_and!; auto. by rewrite <- app_assoc in H1.
    + rewrite decide_True by done. rewrite decide_False by done.
      assert (Hk2 : krings (set_rq_head (u32 (rq_head k1 + 1)) (set_rq (ring_put (rq k1) (rq_head k1) x) k1)) (todo ++ kept ++ [x]) lo)
        by (rewrite app_assoc; apply krings_push_rq; [done|lia|done]).
      destruct (IH _ _ _ Hk2) as (k' & E & H1 & H2 & H3 & H4); [done|lia|intros; apply Hst; by right|].
      exists k'. rewrite E. split_and!; auto. by rewrite <- app_assoc in H1.
Qed.

Lemma build_one_ok st k hi lo : kq k hi lo -> klock k <> None -> st <> 0 -> (forall t, t ∈ hi -> status_of t = Ok (f t)) ->
  exists k', build_one status_of st k = Ok k' /\ kview k' = kview k /\ qptrs k' = qptrs k /\ rq_overflow k' = rq_overflow k /\
    (prioritized_status k = true -> k' = k) /\
    (prioritized_status k = false -> prioritized_status k' = true /\ kq k' (filter (fun t => f t = st) hi) (filter (fun t => f t <> st) hi)).
Proof.
  intros Hk Hl Hs Hst. unfold build_one. destruct (prioritized_status k) eqn:Hp; [by exists k|].
  assert (Hlo := kq_low _ _ _ Hk Hp). subst lo. assert (Hf := kq_flag _ _ _ Hk). rewrite Hp in Hf.
  destruct (krings_count _ _ _ (kq_rings _ _ _ Hk)) as [-> _]. rewrite Nat2Z.id.
  destruct (build_loop_ok st hi k [] []) as (k1 & -> & H1 & F1 & O1 & Q1); auto.
  { rewrite app_nil_r. apply Hk. }
  { destruct (krings_room _ _ _ (kq_rings _ _ _ Hk)). cbn. lia. }
  cbn [mbind res_bind app] in *. assert (Hl1 : klock k1 <> None) by (destruct F1 as (F1 & _); injection F1; congruence).
  destruct (swap_rq k1) as [k2|] eqn:E2; [|unfold swap_rq, assert_lock in E2; by rewrite bool_decide_eq_false_2 in E2].
  cbn [mbind res_bind]. eexists. split; [reflexivity|]. assert (Hk2 := krings_swap _ _ _ _ H1 E2).
  unfold swap_rq, assert_lock in E2. rewrite bool_decide_eq_false_2 in E2 by done. injection E2 as <-.
  destruct F1 as (V1 & P1 & R1). split_and!; [exact V1|exact Q1|exact O1|done|].
  intros _. unfold set_prioritized. cbn [prioritized_status set_prioritized_status]. rewrite (proj2 (Z.eqb_neq st 0) Hs). split; [done|].
  split; [|cbn; by rewrite R1, Hf|done]. by apply (krings_ext _ _ _ _ Hk2).
Qed.

Lemma update_loop_ok st todo : forall k hi kept, krings k hi (todo ++ kept) -> rq_ptr_high k = true ->
  (forall t, t ∈ todo -> status_of t = Ok (f t)) ->
  exists k' hi', update_loop status_of st (length todo) k = Ok k' /\
    krings k' hi' (kept ++ filter (fun t => f t <> st) todo) /\
    hi' ++ rq_overflow k' ≡ₚ hi ++ rq_overflow k ++ filter (fun t => f t = st) todo /\ frame k k' /\ qptrs k' = qptrs k.
Proof.
  induction todo as [|x todo IH]; intros k hi kept Hk Hf Hst; cbn [length update_loop].
  - exists k, hi. rewrite !filter_nil, !app_nil_r. by split_and!.
  - assert (Hx := Hst x ltac:(by left)). cbn [app] in Hk. destruct (krings_room _ _ _ Hk) as [Hr2 Hr1]. cbn [length] in Hr1.
    destruct (krings_pop_other _ _ _ _ Hk) as [Eg Hk1]. unfold other_rq in Eg. rewrite Hf in Eg. rewrite Eg. cbn [mbind res_bind].
    set (k1 := set_l_rq_tail _ k) in *. rewrite Hx. cbn [mbind res_bind]. rewrite !filter_cons.
    destruct (Z.eqb_spec (f x) st) as [E1|E1].
    + rewrite decide_False by (intros Hn; by apply Hn). rewrite decide_True by done.
      destruct (krings_count _ _ _ Hk1) as [-> _]. destruct (Z.eqb_spec (Z.of_nat (length hi)) RUNTIME_RQ_SIZE) as [El|El]; cbn [negb].
      * destruct (IH (push_overflow x k1) hi kept) as (k' & hi' & E & H1 & P & H2 & H4);
          [by apply (krings_ext k1)|done|intros; apply Hst; by right|].
        exists k', hi'. rewrite E. split_and!; auto. rewrite P. cbn. by rewrite <- !app_assoc.
      * assert (Hroom : (length hi < RQ)%nat) by (unfold RUNTIME_RQ_SIZE, RQ in *; lia).
        assert (Hk2 := krings_push_h k1 x hi _ Hk1 Hroom Hf). set (k2 := set_rq_head _ _) in *.
        destruct (krings_count _ _ _ Hk2) as [Hc _]. rewrite length_app in Hc. change (length [x]) with 1%nat in Hc. rewrite Hc.
        destruct (Z.ltb_spec RUNTIME_RQ_SIZE (Z.of_nat (length hi + 1))) as [Hl|_]; [unfold RUNTIME_RQ_SIZE, RQ in *; lia|]. cbn [BUG_ON mbind res_bind].
        destruct (IH _ _ _ Hk2) as (k' & hi' & E & H1 & P & H2 & H4); [done|intros; apply Hst; by right|].
        exists k', hi'. rewrite E. split_and!; auto. rewrite P. change (rq_overflow k2) with (rq_overflow k).
        rewrite <- app_assoc. apply Permutation_app_head. cbn. apply Permutation_middle.
    + rewrite decide_True by done. rewrite decide_False by done.
      assert (Hk2 : krings (push_low x k1) hi (todo ++ kept ++ [x])) by (rewrite app_assoc; apply krings_push_low; [done|lia|done]).
      destruct (IH _ _ _ Hk2) as (k' & hi' & E & H1 & P & H2 & H4); [done|intros; apply Hst; by right|].
      exists k', hi'. rewrite E. split_and!; auto. by rewrite <- app_assoc in H1.
Qed.

Lemma update_one_ok st k hi lo : kq k hi lo -> st <> 0 -> (forall t, t ∈ lo -> status_of t = Ok (f t)) ->
  exists k' hi' lo', update_one status_of st k = Ok k' /\ kview k' = kview k /\ qptrs k' = qptrs k /\ kq k' hi' lo' /\
    prioritized_status k' = prioritized_status k /\ hi' ++ lo' ++ rq_overflow k' ≡ₚ hi ++ lo ++ rq_overflow k.
Proof.
  intros Hk Hs Hst. unfold update_one. destruct (prioritized_status k) eqn:Hp; cbn [negb]; [|rewrite orb_true_r; by exists k, hi, lo].
  rewrite orb_false_r. destruct (_ =? st); [by exists k, hi, lo|]. assert (Hf := kq_flag _ _ _ Hk). rewrite Hp in Hf.
  destruct (krings_count _ _ _ (kq_rings _ _ _ Hk)) as [_ ->]. rewrite Nat2Z.id.
  destruct (update_loop_ok st lo k hi []) as (k1 & hi1 & -> & H1 & P1 & (V1 & Pr1 & R1) & Q1); auto.
  { rewrite app_nil_r. apply Hk. }
  cbn [mbind res_bind app] in *. eexists _, hi1, _. split; [reflexivity|]. unfold set_prioritized. rewrite (proj2 (Z.eqb_neq st 0) Hs).
  split_and!; [exact V1|exact Q1| |done|].
  - split; [by apply (krings_ext _ _ _ _ H1)|cbn; congruence|done].
  - cbn [rq_overflow set_prioritized_status]. rewrite Permutation_app_swap_app, P1.
    rewrite <- (filter_app_complement (fun t => f t = st) lo) at 3. solve_Permutation.
Qed.
End statuses.

Lemma release_rest_ok hi : forall k lo, krings k hi lo -> rq_ptr_high k = true ->
  exists k', release_rest (length hi) k = Ok k' /\ krings k' [] lo /\ rq_overflow k' = rq_overflow k ++ hi /\ frame k k' /\ qptrs k' = qptrs k.
Proof.
  induction hi as [|x hi IH]; intros k lo Hk Hf; cbn [length release_rest].
  - exists k. rewrite app_nil_r. by split_and!.
  - destruct (krings_pop _ _ _ _ Hk) as [Eg Hk1]. unfold cur_rq in Eg. rewrite Hf in Eg. rewrite Eg. cbn [mbind res_bind].
    set (k1 := set_rq_tail _ k) in *. destruct (IH (push_overflow x k1) lo) as (k' & E & H1 & H2 & H3 & H4); [by apply (krings_ext k1)|done|].
    exists k'. rewrite E. split_and!; auto. rewrite H2. cbn. by rewrite <- app_assoc.
Qed.

Lemma release_loop_ok hi : forall k lo, krings k hi lo -> rq_ptr_high k = true ->
  exists k' n, release_loop (length hi) k = Ok k' /\ krings k' [] (lo ++ take n hi) /\ rq_overflow k' = rq_overflow k ++ drop n hi /\
    frame k k' /\ qptrs k' = qptrs k.
Proof.
  induction hi as [|x hi IH]; intros k lo Hk Hf; cbn [length release_loop].
  - exists k, 0%nat. cbn. rewrite !app_nil_r. by split_and!.
  - destruct (krings_count _ _ _ Hk) as [_ ->]. destruct (Z.ltb_spec (Z.of_nat (length lo)) RUNTIME_RQ_SIZE) as [Hl|Hl].
    + destruct (krings_pop _ _ _ _ Hk) as [Eg Hk1]. unfold cur_rq in Eg. rewrite Hf in Eg. rewrite Eg. cbn [mbind res_bind].
      set (k1 := set_rq_tail _ k) in *.
      destruct (IH (push_low x k1) (lo ++ [x])) as (k' & n & E & H1 & H2 & H3 & H4);
        [apply krings_push_low; [done|unfold RQ, RUNTIME_RQ_SIZE in *; lia|done]|done|].
      exists k', (S n). rewrite E. split_and!; auto. by rewrite <- app_assoc in H1.
    + destruct (release_rest_ok (x :: hi) k lo Hk Hf) as (k' & E & H1 & H2 & H3 & H4).
      exists k', 0%nat. change (S (length hi)) with (length (x :: hi)). rewrite E. cbn [take drop]. rewrite app_nil_r. by split_and!.
Qed.

Lemma release_one_ok k hi lo : kq k hi lo -> klock k <> None ->
  exists k' hi', release_one k = Ok k' /\ kview k' = kview k /\ qptrs k' = qptrs k /\ prioritized_status k' = false /\ kq k' hi' [] /\
    hi' ++ rq_overflow k' ≡ₚ hi ++ lo ++ rq_overflow k.
Proof.
  intros Hk Hl. unfold release_one. destruct (prioritized_status k) eqn:Hp; cbn [negb].
  2: { assert (Hlo := kq_low _ _ _ Hk Hp). subst lo. by exists k, hi. }
  assert (Hf := kq_flag _ _ _ Hk). rewrite Hp in Hf.
  destruct (krings_count _ _ _ (kq_rings _ _ _ Hk)) as [-> _]. rewrite Nat2Z.id.
  destruct (release_loop_ok hi k lo (kq_rings _ _ _ Hk) Hf) as (k1 & n & -> & H1 & O1 & (V1 & P1 & R1) & Q1). cbn [mbind res_bind].
  rewrite (ring_empty _ _ _ _ (kr_hi _ _ _ H1)). cbn [bool_decide decide_rel negb BUG_ON mbind res_bind].
  rewrite bool_decide_eq_true_2 by done. cbn [negb BUG_ON mbind res_bind].
  assert (Hl1 : klock k1 <> None) by (injection V1; congruence).
  destruct (swap_rq k1) as [k2|] eqn:E2; [|unfold swap_rq, assert_lock in E2; by rewrite bool_decide_eq_false_2 in E2].
  cbn [mbind res_bind]. assert (Hk2 := krings_swap _ _ _ _ H1 E2).
  unfold swap_rq, assert_lock in E2. rewrite bool_decide_eq_false_2 in E2 by done. injection E2 as <-.
  eexists _, _. split; [reflexivity|]. split_and!; [exact V1|exact Q1|done| |].
  - split; [by apply (krings_ext _ _ _ _ Hk2)|cbn; by rewrite R1, Hf|done].
  - cbn [rq_overflow set_prioritized_status set_rq_ptr_high set_l_rq_tail set_rq_tail set_l_rq_head set_rq_head]. rewrite O1.
    rewrite <- (take_drop n hi) at 3. solve_Permutation.
Qed.

Lemma ready_on_ok th k hi lo : kq k hi lo ->
  exists k' hi', ready_on th k = Ok k' /\ kq k' hi' lo /\ hi' ++ rq_overflow k' ≡ₚ th :: hi ++ rq_overflow k /\ frame k k' /\
    q_rq_head k' = u32 (q_rq_head k + 1) /\ q_rq_tail k' = q_rq_tail k.
Proof.
  intros Hk. unfold ready_on. set (k1 := q_head_add 1 k). assert (Hk1 : kq k1 hi lo) by (apply (kq_frame k hi lo); [done|done|]; by apply (krings_ext k); [apply Hk|]).
  destruct (krings_count _ _ _ (kq_rings _ _ _ Hk1)) as [-> _]. destruct (krings_room _ _ _ (kq_rings _ _ _ Hk1)) as [Hr _].
  destruct (Z.leb_spec RUNTIME_RQ_SIZE (Z.of_nat (length hi))) as [Hl|Hl].
  - rewrite (proj2 (Z.eqb_eq _ RUNTIME_RQ_SIZE)) by (unfold RQ, RUNTIME_RQ_SIZE in *; lia). cbn [negb BUG_ON mbind res_bind].
    eexists _, hi. split; [reflexivity|]. split_and!; try done.
    + apply (kq_frame k1 hi lo); [done|done|]. by apply (krings_ext k1); [apply Hk1|].
    + cbn. solve_Permutation.
  - eexists _, (hi ++ [th]). split; [reflexivity|]. destruct (frame_push_rq th k1) as (F & O & Q).
    split_and!; [..|exact (f_equal fst Q)|exact (f_equal snd Q)].
    + apply (kq_frame k1 hi lo); [done|done|]. apply krings_push; [apply Hk1|unfold RQ, RUNTIME_RQ_SIZE in *; lia].
    + rewrite O. change (rq_overflow k1) with (rq_overflow k). solve_Permutation.
    + done.
Qed.

(** ** Stealing *)

Lemma steal_rest_ok src h rest l : forall t ov, ring src h t (l ++ rest) ->
  exists t', steal_rest (length l) src t ov = Ok (t', ov ++ l) /\ ring src h t' rest.
Proof.
  induction l as [|x l IH]; intros t ov Hr; cbn [length steal_rest].
  - exists t. by rewrite app_nil_r.
  - cbn [app] in Hr. apply ring_pop in Hr as [-> Hr]. cbn [mbind res_bind]. destruct (IH _ (ov ++ [x]) Hr) as (t' & E & H').
    exists t'. rewrite E, <- app_assoc. done.
Qed.

Lemma steal_loop_ok src h rest l : forall t dst dh dt d ov, ring src h t (l ++ rest) -> ring dst dh dt d ->
  exists t' dst' dh' n, steal_loop (length l) src t dst dh dt ov = Ok (t', dst', dh', ov ++ drop n l) /\ ring src h t' rest /\
    ring dst' dh' dt (d ++ take n l).
Proof.
  induction l as [|x l IH]; intros t dst dh dt d ov Hr Hd; cbn [length steal_loop].
  - exists t, dst, dh, 0%nat. cbn. rewrite !app_nil_r. done.
  - rewrite (ring_count _ _ _ _ Hd). destruct (Z.ltb_spec (Z.of_nat (length d)) RUNTIME_RQ_SIZE) as [Hl|Hl].
    + cbn [app] in Hr. apply ring_pop in Hr as [-> Hr]. cbn [mbind res_bind].
      apply (ring_push _ _ _ _ x) in Hd; [|unfold RQ, RUNTIME_RQ_SIZE in *; lia].
      destruct (IH _ _ _ _ _ ov Hr Hd) as (t' & dst' & dh' & n & E & H1 & H2).
      exists t', dst', dh', (S n). rewrite E. cbn [take drop]. by rewrite <- app_assoc in H2.
    + destruct (steal_rest_ok src h rest (x :: l) t ov Hr) as (t' & E & H'). change (S (length l)) with (length (x :: l)). rewrite E. cbn [mbind res_bind].
      exists t', dst, dh, 0%nat. cbn [take drop]. by rewrite app_nil_r.
Qed.

Lemma div_up_half n : (n <= RQ)%nat -> div_up (Z.of_nat n) 2 = Z.of_nat ((n + 1) / 2).
Proof.
  intros Hn. unfold div_up. rewrite (u32_id (Z.of_nat n + 2 - 1)) by (unfold in_u32, M32, RQ in *; lia).
  rewrite Nat2Z.inj_div. f_equal. lia.
Qed.
