(* ===== verification/RtMach.v ===== *)
(** * runtime/sched.c: the kthreads as a machine

    [step i a s] is what kthread [i] does next in the state [s]: [None] if it has to
    wait, [Some Bug] if an assertion fails.  [a] is a call of the uthread it runs, or
    the choices of the code that the model does not determine.  *)

From S2P Require Import Prelude Stddef RtState RtSched.

Abbreviation outcome := (option (res sys)).

(** What a uthread may call. *)
Inductive call :=
| CReady (th : nat)          (* thread_ready *)
| CReadyRr (th k : nat)      (* thread_ready_rr, on a kthread it chose *)
| CCreate (th : nat)         (* thread_create, the new thread *)
| CPark                      (* thread_park_and_unlock_np, the lock apart *)
| CYield (r : nat)           (* thread_yield, the kthread to look at *)
| CSwitch (th : nat)         (* thread_park_and_switch *)
| CCede                      (* thread_cede *)
| CExit                      (* thread_exit *)
| CSetSelf (st : Z)          (* set_self_th_status *)
| CSetTh (th : nat) (st : Z) (* set_th_status *)
| CPrioritize (st : Z)       (* __prioritized_status, then __global_prioritizing *)
| CUnprioritize.

Record choice := Choice {
  c_skip : bool;          (* a kthread is skipped without taking its lock *)
  c_soft : option nat;    (* the thread of softirq_run_thread for the own kthread *)
  c_rsoft : option nat;   (* ... for a kthread that is stolen from *)
  c_again : bool;         (* the watchdog fires; the poll loop goes on *)
  c_sib : option nat;     (* the kthread of the sibling core *)
  c_start : Z;            (* the random index *)
  c_cpu : Z;              (* the core the IOKernel grants *)
}.

Inductive action := Call (c : call) (ch : choice) | Go (ch : choice).

Section machine.
Context (i : nat).

Definition at_pc (p : pc) (k : kthread) (s : sys) : sys := put_k i (set_kpc p k) s.

(** A step of kthread [i] to [p]. *)
Definition goto (p : pc) (s : sys) : res sys := k ← get_k i s; Ok (at_pc p k s).

Definition lock_free (k : kthread) : bool := bool_decide (klock k = None).

(** [thread_ready] on kthread [j], whose lock is free. *)
Definition thread_ready (th j : nat) (s : sys) : res sys :=
  u ← get_th th s;
  _ ← BUG_ON (negb (bool_decide (ustate u = THREAD_STATE_SLEEPING)));
  let s := upd_th th (set_ustate THREAD_STATE_RUNNABLE) s in
  k ← get_k j s;
  k ← ready_on th k;
  Ok (put_k j k s).

(** ** check_prioritized_scope *)

Definition scope_of (k : kthread) (s : sys) : option scope :=
  if global_prioritizing s && negb (b2z (prioritized_status k) =? global_status s) then
    Some (if negb (prioritized_status k) then Build (global_status s) else Update (global_status s))
  else if negb (global_prioritizing s) && prioritized_status k then Some Release
  else None.

Definition resume_pc (c : resume) : pc :=
  match c with InEnter => PEnterPop | InTop => PTop | InAgain => PAgain end.

Definition check_prioritized_scope (c : resume) (k : kthread) (s : sys) : res sys :=
  match scope_of k s with
  | None => Ok (at_pc (resume_pc c) k s)
  | Some m => Ok (at_pc (PScope c m (seq 0 (length (ks s)))) k s)
  end.

(** What is done with one kthread, its lock held. *)
Definition scope_one (m : scope) (s : sys) (k : kthread) : res kthread :=
  match m with
  | Build st => build_one (status_in s) st k
  | Update st => update_one (status_in s) st k
  | Release => release_one k
  end.

(** The lock of [k], which is free, is taken for [f] and released. *)
Definition with_lock (f : kthread -> res kthread) (k : kthread) : res kthread :=
  k ← f (set_klock (Some i) k); Ok (set_klock None k).

Definition scope_step (c : resume) (m : scope) (j : nat) (l : list nat) (ch : choice) (s : sys) : res sys :=
  k ← get_k j s;
  if c_skip ch then goto (PScope c m l) s
  else if bool_decide (j = i) then k ← scope_one m s k; goto (PScope c m l) (put_k j k s)
  else if lock_free k then k ← with_lock (scope_one m s) k; goto (PScope c m l) (put_k j k s)
  else goto (PScope c m l) s.

(** ** schedule *)

Definition rcu_add (n : Z) (k : kthread) : kthread := set_rcu_gen (u32 (rcu_gen k + n)) k.
Definition assert_rcu (even : bool) (k : kthread) : res unit := BUG_ON (negb (Bool.eqb (Z.even (rcu_gen k)) even)).

(** The entry of [schedule], up to the first check. *)
Definition schedule_enter (s : sys) : res sys :=
  k ← get_k i s;
  _ ← assert_lock k;
  _ ← BUG_ON (parked k);
  let s := match self k with
           | Some t => upd_th t (fun u => set_stack_busy false (set_status (cur_status k) u)) s
           | None => s
           end in
  let k := rcu_add 1 (set_self None k) in
  _ ← assert_rcu true k;
  check_prioritized_scope InTop k s.

Definition drain_if (k : kthread) : res kthread :=
  if bool_decide (rq_overflow k <> []) then drain_overflow k else Ok k.

(** A thread for [done], or the code goes on at [p]. *)
Definition done_or (th : option nat) (k : kthread) (p : kthread -> sys -> res sys) (s : sys) : res sys :=
  match th with Some th => Ok (at_pc (PDone th) k s) | None => p k s end.

Definition schedule_top (ch : choice) (s : sys) : res sys :=
  k ← get_k i s;
  let '(th, s) := if c_again ch then softirq_run_thread (c_soft ch) (curr_cpu k) s else (None, s) in
  done_or th k (fun k s =>
    k ← drain_if k;
    '(th, k) ← pop_rq (status_in s) k;
    done_or th k (fun k s =>
      _ ← BUG_ON (negb (rq_head k =? rq_tail k));
      check_prioritized_scope InAgain (set_rq_tail 0 (set_rq_head 0 k)) s) s) s.

(** The order in which the kthreads are visited. *)
Definition visit (start : Z) (n : nat) : list nat :=
  map (fun j => Z.to_nat (u32 (start + Z.of_nat j) mod Z.of_nat n)) (seq 0 n).

(** Steal from [r], then look at the run queue again. *)
Definition steal_and_pop (r : nat) (ch : choice) (p : pc) (s : sys) : res sys :=
  if bool_decide (r = i) then goto p s
  else
    '(b, s) ← steal_work i r (c_skip ch) (c_rsoft ch) s;
    if (b : bool) then
      k ← get_k i s;
      '(th, k) ← pop_rq (status_in s) k;
      done_or th k (fun k s => Ok (at_pc p k s)) s
    else goto p s.

(** From [again] on, after the check. *)
Definition schedule_again (ch : choice) (s : sys) : res sys :=
  k ← get_k i s;
  let steal := visit (c_start ch) (length (ks s)) in
  let '(th, s) := softirq_run_thread (c_soft ch) (curr_cpu k) s in
  done_or th k (fun k s =>
    match c_sib ch with
    | Some r => steal_and_pop r ch (PSteal steal) s
    | None => Ok (at_pc (PSteal steal) k s)
    end) s.

Definition schedule_low (ch : choice) (s : sys) : res sys :=
  k ← get_k i s;
  if prioritized_status k then
    if negb (l_rq_head k =? l_rq_tail k) then
      th ← ring_get (rq k) (l_rq_tail k);
      Ok (at_pc (PDone th) (set_l_rq_tail (u32 (l_rq_tail k + 1)) k) s)
    else Ok (at_pc (PStealLp (visit (c_start ch) (length (ks s)))) k s)
  else Ok (at_pc PPoll k s).

Definition steal_lp_and_pop (r : nat) (ch : choice) (p : pc) (s : sys) : res sys :=
  if bool_decide (r = i) then goto p s
  else
    '(b, s) ← steal_work_lp i r (c_skip ch) (c_rsoft ch) s;
    if (b : bool) then
      k ← get_k i s;
      if negb (l_rq_head k =? l_rq_tail k) then
        th ← ring_get (rq k) (l_rq_tail k);
        Ok (at_pc (PDone th) (set_l_rq_tail (u32 (l_rq_tail k + 1)) k) s)
      else Ok (at_pc p k s)
    else goto p s.

Definition schedule_poll (ch : choice) (s : sys) : res sys :=
  k ← get_k i s;
  if c_again ch then check_prioritized_scope InAgain k s
  else Ok (at_pc PParked (set_klock None (set_parked true k)) s).

(** [jmp_thread] up to the wait for the stack. *)
Definition mark_running (th : nat) (s : sys) : res sys :=
  u ← get_th th s;
  _ ← BUG_ON (negb (bool_decide (ustate u = THREAD_STATE_RUNNABLE)));
  Ok (upd_th th (set_ustate THREAD_STATE_RUNNING) s).

Definition schedule_done (th : nat) (s : sys) : res sys :=
  k ← get_k i s;
  k ← drain_if k;
  let k := rcu_add 1 (set_klock None k) in
  _ ← assert_rcu false k;
  s ← mark_running th s;
  Ok (at_pc (PJmp th) k s).

(** ** enter_schedule *)

Definition enter_pop (ch : choice) (s : sys) : res sys :=
  k ← get_k i s;
  match self k with
  | None => Bug
  | Some myth =>
      let slow k := Ok (at_pc PSched k (upd_th myth (set_status (cur_status k)) s)) in
      if c_again ch then slow k
      else
        '(th, k) ← pop_rq (status_in s) k;
        match th with
        | None => slow k
        | Some th =>
            let k := rcu_add 2 (set_klock None k) in
            _ ← assert_rcu false k;
            if bool_decide (th = myth) then
              Ok (at_pc PRun k (upd_th th (fun u => set_stack_busy false (set_ustate THREAD_STATE_RUNNING u)) s))
            else s ← mark_running th s; Ok (at_pc (PJmpDirect myth th) k s)
        end
  end.

(** ** The calls *)

(** The running thread [t] goes to sleep; [busy] if it is still on its stack. *)
Definition go_sleep (busy : bool) (k : kthread) (t : nat) (s : sys) : sys :=
  upd_th t (fun u => set_last_cpu (curr_cpu k)
    (set_stack_busy (if busy then true else stack_busy u) (set_ustate THREAD_STATE_SLEEPING u))) s.

(** The same where the code asserts that it runs. *)
Definition sleep_self (busy : bool) (k : kthread) (s : sys) : res (nat * sys) :=
  match self k with
  | None => Bug
  | Some t =>
      u ← get_th t s;
      _ ← BUG_ON (negb (bool_decide (ustate u = THREAD_STATE_RUNNING)));
      Ok (t, go_sleep busy k t s)
  end.

Definition thread_ready_rr (th j : nat) (s : sys) : outcome :=
  match ks s !! j with
  | Some kj => if lock_free kj && negb (parked kj) then Some (thread_ready th j s) else None
  | None => None
  end.

(** The lock [l] that is released apart. *)
Definition thread_park_and_unlock_np (k : kthread) (s : sys) : res sys := '(_, s) ← sleep_self true k s; goto PEnter s.

(** Up to the steal from [r], if that kthread is parked; what [softirq_run] does are
    other calls of the thread. *)
Definition thread_yield (r : nat) (ch : choice) (k : kthread) (s : sys) : outcome :=
  match ks s !! r with
  | None => None
  | Some kr =>
      if c_skip ch || negb (parked kr) then Some (goto PYield s)
      else if negb (lock_free k) then None
      else Some ('(_, s) ← steal_work i r false (c_rsoft ch) (put_k i (set_klock (Some i) k) s);
                 k ← get_k i s; Ok (at_pc PYield (set_klock None k) s))
  end.

(** The rest of it, up to [enter_schedule]. *)
Definition yield_self (k : kthread) (s : sys) : res sys := '(t, s) ← sleep_self true k s; s ← thread_ready t i s; goto PEnter s.

Definition thread_park_and_switch (th : nat) (k : kthread) (s : sys) : res sys :=
  match self k with
  | None => Bug
  | Some t =>
      s ← thread_ready t i (go_sleep true k t s);
      s ← mark_running th (upd_th th (set_ustate THREAD_STATE_RUNNABLE) s);
      goto (PJmpDirect t th) s
  end.

Definition thread_cede (k : kthread) (s : sys) : res sys :=
  match self k with
  | Some t => Ok (at_pc PCede k (upd_th t (set_status (cur_status k)) s))
  | None => Bug
  end.

(** [thread_exit] and [thread_finish_exit], up to the lock; the end of the main thread
    ends the program. *)
Definition thread_finish_exit (k : kthread) (s : sys) : outcome :=
  match self k with
  | Some t => if bool_decide (main_thread <$> ths s !! t = Some false)
              then Some (Ok (at_pc PLockSched (set_self None k) (set_ths (delete t (ths s)) s))) else None
  | None => Some Bug
  end.

Definition set_self_th_status (st : Z) (k : kthread) : kthread := set_cur_status st k.

Definition set_th_status (th : nat) (st : Z) (k : kthread) (s : sys) : res sys :=
  _ ← BUG_ON (bool_decide (self k = Some th)); Ok (upd_th th (set_status st) s).

Definition run_call (c : call) (ch : choice) (k : kthread) (s : sys) : outcome :=
  match c with
  | CReady th => if lock_free k then Some (thread_ready th i s) else None
  | CReadyRr th j => thread_ready_rr th j s
  | CCreate th => Some (Ok (thread_create th (curr_cpu k) s))
  | CPark => Some (thread_park_and_unlock_np k s)
  | CYield r => thread_yield r ch k s
  | CSwitch th => if lock_free k then Some (thread_park_and_switch th k s) else None
  | CCede => Some (thread_cede k s)
  | CExit => thread_finish_exit k s
  | CSetSelf st => Some (Ok (put_k i (set_self_th_status st k) s))
  | CSetTh th st => Some (set_th_status th st k s)
  | CPrioritize st => Some (Ok (set_global_prioritizing true (set_global_status st s)))
  | CUnprioritize => Some (Ok (set_global_prioritizing false s))
  end.

(** [thread_finish_cede], up to the parking. *)
Definition cede (k : kthread) (s : sys) : res sys :=
  '(t, s) ← sleep_self false k s;
  s ← thread_ready t i s;
  let s := upd_th t (set_status (cur_status k)) s in
  k ← get_k i s;
  let k := rcu_add 1 (set_self None k) in
  _ ← assert_rcu true k;
  Ok (at_pc PCeded (set_parked true k) s).

(** A thread's stack is free: it can run. *)
Definition stack_free (th : nat) (s : sys) : bool :=
  match ths s !! th with Some u => negb (stack_busy u) | None => true end.

Definition start_thread (th : nat) (k : kthread) (s : sys) : res sys :=
  u ← get_th th s; Ok (at_pc PRun (set_cur_status (status u) (set_self (Some th) k)) s).

(** The end of [jmp_thread_direct], once the stack of [th] is free. *)
Definition switch_thread (old th : nat) (k : kthread) (s : sys) : res sys :=
  start_thread th k (upd_th old (fun u => set_stack_busy false (set_status (cur_status k) u)) s).

(** The end of [thread_finish_cede], once the IOKernel has granted a core. *)
Definition cede_resume (ch : choice) (k : kthread) (s : sys) : res sys :=
  let k := rcu_add 1 (set_curr_cpu (c_cpu ch) k) in
  _ ← assert_rcu false k; Ok (at_pc PSched (set_parked false (set_klock (Some i) k)) s).

Definition lock_own (k : kthread) : kthread := set_klock (Some i) k.

Definition step (a : action) (s : sys) : outcome :=
  match ks s !! i with
  | None => None
  | Some k =>
      match kpc k, a with
      | PRun, Call c ch => run_call c ch k s
      | PYield, Go _ =>
          if lock_free k then Some (yield_self k s) else None
      | PEnter, Go _ => if lock_free k then Some (check_prioritized_scope InEnter (lock_own k) s) else None
      | PScope c m [], Go _ => Some (Ok (at_pc (resume_pc c) k s))
      | PScope c m (j :: l), Go ch => Some (scope_step c m j l ch s)
      | PEnterPop, Go ch => Some (enter_pop ch s)
      | PSched, Go _ => Some (schedule_enter s)
      | PTop, Go ch => Some (schedule_top ch s)
      | PAgain, Go ch => Some (schedule_again ch s)
      | PSteal (r :: l), Go ch => Some (steal_and_pop r ch (PSteal l) s)
      | PSteal [], Go ch =>
          Some (let '(th, s) := softirq_run_thread (c_soft ch) (curr_cpu k) s in
                done_or th k (fun k s => Ok (at_pc PLow k s)) s)
      | PLow, Go ch => Some (schedule_low ch s)
      | PStealLp (r :: l), Go ch => Some (steal_lp_and_pop r ch (PStealLp l) s)
      | PStealLp [], Go _ => Some (Ok (at_pc PPoll k s))
      | PPoll, Go ch => Some (schedule_poll ch s)
      | PParked, Go ch =>
          if lock_free k
          then Some (check_prioritized_scope InAgain (set_parked false (lock_own (set_curr_cpu (c_cpu ch) k))) s) else None
      | PDone th, Go _ => Some (schedule_done th s)
      | PJmp th, Go _ => if stack_free th s then Some (start_thread th k s) else None
      | PJmpDirect old th, Go _ =>
          if stack_free th s then Some (switch_thread old th k s) else None
      | PCede, Go _ => if lock_free k then Some (cede k s) else None
      | PCeded, Go ch =>
          if lock_free k then Some (cede_resume ch k s) else None
      | PLockSched, Go _ => if lock_free k then Some (Ok (at_pc PSched (lock_own k) s)) else None
      | _, _ => None
      end
  end.
End machine.

(** ** The start *)

(** [allock] and [kthread_init_thread]: what is zeroed, and the pointer to the run
    queue. *)
Definition allock : kthread :=
  KThread None 0 0 [] false 0 0 0 0 0 0 false (replicate 32 None) false (replicate 32 None) None 0 PLockSched.

(** [schedule_start], once the IOKernel has granted the kthread a core [cpu]. *)
Definition schedule_start (cpu : Z) (k : kthread) : kthread := set_kpc PLockSched (set_rcu_gen 1 (set_curr_cpu cpu k)).

(** [thread_spawn_main], on the first kthread. *)
Definition thread_spawn_main (th : nat) (cpu : Z) (s : sys) : res sys :=
  thread_ready th 0 (upd_th th (fun u => set_last_cpu cpu (set_main_thread true u)) (thread_create th 0 s)).

(** The runtime with a kthread per element of [cpus]; the kthreads start after the main
    thread was made. *)
Definition runtime_start (th : nat) (cpu : Z) (cpus : list Z) : res sys :=
  s ← thread_spawn_main th cpu (Sys ∅ (map (fun _ => allock) cpus) false 0);
  Ok (set_ks (zip_with schedule_start cpus (ks s)) s).

(** The states the runtime can reach when callers and environment respect [ok]. *)
Inductive reach (ok : nat -> action -> sys -> Prop) : sys -> Prop :=
| reach_start th cpu cpus s : runtime_start th cpu cpus = Ok s -> reach ok s
| reach_step i a s s' : reach ok s -> ok i a s -> step i a s = Some (Ok s') -> reach ok s'.
