(* ===== verification/RtInv.v ===== *)
(** * The invariant of the kthreads

    Where each uthread is: in a queue or about to run, running, or on a stack that its
    kthread has not left. *)

From S2P Require Import Prelude Stddef RtState RtSched RtQueue RtMach.

(** ** Points of the code *)

Definition locked (p : pc) : bool :=
  match p with
  | PScope _ _ _ | PEnterPop | PSched | PTop | PAgain | PSteal _ | PLow | PStealLp _ | PPoll | PDone _ => true
  | _ => false
  end.

Definition parked_pc (p : pc) : bool := match p with PParked | PCeded => true | _ => false end.

(** In the scheduler the RCU generation is even. *)
Definition even_pc (p : pc) : bool :=
  match p with
  | PScope InEnter _ _ => false
  | PScope _ _ _ | PTop | PAgain | PSteal _ | PLow | PStealLp _ | PPoll | PParked | PDone _ | PCeded => true
  | _ => false
  end.

Definition self_ok (k : kthread) : Prop :=
  match kpc k with
  | PRun | PYield | PEnter | PScope InEnter _ _ | PEnterPop | PCede => self k <> None
  | PJmpDirect old _ => self k = Some old
  | PSched => True
  | _ => self k = None
  end.

Definition scope_ok (m : scope) : Prop := match m with Build st | Update st => st <> 0 | Release => True end.

(** [n] is the number of kthreads. *)
Definition pc_ok (n : nat) (k : kthread) : Prop :=
  match kpc k with
  | PScope _ m l => scope_ok m /\ Forall (fun j => (j < n)%nat) l
  | PSteal l => Forall (fun j => (j < n)%nat) l
  | PStealLp l => prioritized_status k = true /\ Forall (fun j => (j < n)%nat) l
  | _ => True
  end.

(** ** Where the threads are *)

(** The thread [schedule] has chosen, not yet running. *)
Definition hand (k : kthread) : list nat := match kpc k with PDone th => [th] | _ => [] end.
Definition held (k : kthread) : list nat := hand k ++ queue k.

(** The thread a kthread runs, or will as soon as its stack is free. *)
Definition running (k : kthread) : list nat :=
  match kpc k with
  | PRun | PYield | PCede => option_list (self k)
  | PJmp th | PJmpDirect _ th => [th]
  | _ => []
  end.

(** The thread that went to sleep and whose stack the kthread is about to leave. *)
Definition leaving (k : kthread) : list nat :=
  match kpc k with
  | PEnter | PScope InEnter _ _ | PEnterPop | PSched => option_list (self k)
  | PJmpDirect old _ => [old]
  | _ => []
  end.

(** The thread on whose stack it executes. *)
Definition onstack (k : kthread) : list nat := match kpc k with PRun | PYield | PCede => option_list (self k) | _ => [] end.

Definition all (f : kthread -> list nat) (s : sys) : list nat := concat (map f (ks s)).

(** The threads are as [H] (held), [R] (running), [B] (leaving) and [O] (on their
    stack) say. *)
Record tinv (T : gmap nat uthread) (H R B O : list nat) : Prop := {
  ti_H : NoDup H;
  ti_R : NoDup R;
  ti_B : NoDup B;
  ti_runnable : forall t, t ∈ H <-> ustate <$> T !! t = Some THREAD_STATE_RUNNABLE;
  ti_running : forall t, t ∈ R <-> ustate <$> T !! t = Some THREAD_STATE_RUNNING;
  ti_busy : forall t, t ∈ B <-> stack_busy <$> T !! t = Some true;
  ti_on : forall t, t ∈ O -> t ∉ B;
}.

Record kok (n i : nat) (k : kthread) : Prop := {
  ko_kq : exists hi lo, kq k hi lo;
  ko_lock : klock k = if locked (kpc k) then Some i else None;
  ko_parked : parked k = parked_pc (kpc k);
  ko_rcu : Z.even (rcu_gen k) = even_pc (kpc k);
  ko_self : self_ok k;
  ko_pc : pc_ok n k;
}.

(** ** Changes of the threads *)

#[export] Instance tinv_proper T : Proper ((≡ₚ) ==> (≡ₚ) ==> (≡ₚ) ==> (≡ₚ) ==> iff) (tinv T).
Proof.
  assert (Hone : forall H H' R R' B B' O O', H ≡ₚ H' -> R ≡ₚ R' -> B ≡ₚ B' -> O ≡ₚ O' -> tinv T H R B O -> tinv T H' R' B' O').
  { intros H H' R R' B B' O O' EH ER EB EO [H1 H2 H3 H4 H5 H6 H7]. split; [by rewrite <- EH|by rewrite <- ER|by rewrite <- EB|..]; intros t.
    - by rewrite <- EH. - by rewrite <- ER. - by rewrite <- EB. - rewrite <- EB, <- EO. apply H7. }
  intros H H' EH R R' ER B B' EB O O' EO. split; by apply Hone.
Qed.

Lemma lookup_upd (T : gmap nat uthread) t f t' : alter f t T !! t' = if decide (t' = t) then f <$> T !! t else T !! t'.
Proof. destruct (decide (t' = t)) as [->|]; [by rewrite lookup_alter_eq|by rewrite lookup_alter_ne]. Qed.

(** Fields that do not matter. *)
Lemma tinv_other T t f H R B O : (forall u, ustate (f u) = ustate u /\ stack_busy (f u) = stack_busy u) -> tinv T H R B O -> tinv (alter f t T) H R B O.
Proof.
  intros Hf [H1 H2 H3 H4 H5 H6 H7].
  assert (E : forall t', ustate <$> alter f t T !! t' = ustate <$> T !! t' /\ stack_busy <$> alter f t T !! t' = stack_busy <$> T !! t').
  { intros t'. rewrite lookup_upd. case_decide as Hd; [subst|done]. destruct (T !! t) as [u|]; [|done]. cbn. destruct (Hf u) as [-> ->]. done. }
  split; auto; intros t'; destruct (E t') as [E1 E2]; [rewrite H4, E1|rewrite H5, E1|rewrite H6, E2]; done.
Qed.

(** One state replaced by another: the general form. *)
Lemma tinv_state T t f st H R B O H' R' :
  (forall u, ustate (f u) = st /\ stack_busy (f u) = stack_busy u) -> is_Some (T !! t) ->
  tinv T H R B O -> NoDup H' -> NoDup R' ->
  (forall t', t' <> t -> t' ∈ H' <-> t' ∈ H) -> (forall t', t' <> t -> t' ∈ R' <-> t' ∈ R) ->
  (t ∈ H' <-> st = THREAD_STATE_RUNNABLE) -> (t ∈ R' <-> st = THREAD_STATE_RUNNING) -> tinv (alter f t T) H' R' B O.
Proof.
  intros Hf [u Hu] [H1 H2 H3 H4 H5 H6 H7] N1 N2 E1 E2 E3 E4. split; auto; intros t'; rewrite lookup_upd; case_decide as Hd.
  - subst. rewrite Hu. cbn. destruct (Hf u) as [-> _]. rewrite E3. split; [by intros ->|by intros [= ->]].
  - rewrite E1 by done. apply H4.
  - subst. rewrite Hu. cbn. destruct (Hf u) as [-> _]. rewrite E4. split; [by intros ->|by intros [= ->]].
  - rewrite E2 by done. apply H5.
  - subst. rewrite H6, Hu. cbn. by destruct (Hf u) as [_ ->].
  - apply H6.
Qed.

Lemma tinv_notin T H R B O t : tinv T H R B O -> ustate <$> T !! t = Some THREAD_STATE_SLEEPING -> (t ∉ H) /\ (t ∉ R).
Proof. intros [] E. split; intros Hin; [apply ti_runnable0 in Hin|apply ti_running0 in Hin]; congruence. Qed.

Lemma tinv_disj T H R B O t : tinv T H R B O -> t ∈ H -> t ∉ R.
Proof. intros [] Hh Hr. apply ti_runnable0 in Hh. apply ti_running0 in Hr. congruence. Qed.

(** A sleeping thread becomes runnable. *)
Lemma tinv_ready T t H R B O : tinv T H R B O -> ustate <$> T !! t = Some THREAD_STATE_SLEEPING ->
  tinv (alter (set_ustate THREAD_STATE_RUNNABLE) t T) (t :: H) R B O.
Proof.
  intros Ht E. destruct (tinv_notin _ _ _ _ _ _ Ht E) as [N1 N2]. assert (Hx := Ht). destruct Hx.
  apply (tinv_state T t _ THREAD_STATE_RUNNABLE H R B O); auto.
  - by apply fmap_Some in E as (u & -> & _).
  - by apply list.NoDup_cons.
  - intros t' Hne. rewrite elem_of_cons. tauto.
  - split; [done|]. intros _. by left.
  - split; [done|]. done.
Qed.

(** A held thread runs. *)
Lemma tinv_run T t H R B O : tinv T (t :: H) R B O -> tinv (alter (set_ustate THREAD_STATE_RUNNING) t T) H (t :: R) B O.
Proof.
  intros Ht. assert (N := tinv_disj _ _ _ _ _ t Ht ltac:(by left)). assert (Hx := Ht). destruct Hx.
  apply list.NoDup_cons in ti_H0 as [N1 N2]. apply (tinv_state T t _ THREAD_STATE_RUNNING (t :: H) R B O); auto.
  - assert (E : t ∈ t :: H) by (by left). apply ti_runnable0 in E. by apply fmap_Some in E as (u & -> & _).
  - by apply list.NoDup_cons.
  - intros t' Hne. rewrite elem_of_cons. tauto.
  - intros t' Hne. rewrite elem_of_cons. tauto.
  - split; [done|]. done.
  - split; [done|]. intros _. by left.
Qed.

(** A running thread goes to sleep. *)
Lemma tinv_sleep T t f H R B O : (forall u, ustate (f u) = THREAD_STATE_SLEEPING /\ stack_busy (f u) = stack_busy u) ->
  tinv T H (t :: R) B O -> tinv (alter f t T) H R B O /\ ustate <$> alter f t T !! t = Some THREAD_STATE_SLEEPING.
Proof.
  intros Hf Ht. assert (Hin : ustate <$> T !! t = Some THREAD_STATE_RUNNING) by (apply (ti_running _ _ _ _ _ Ht); by left).
  apply fmap_Some in Hin as (u & Hu & _). split; [|rewrite lookup_alter_eq, Hu; cbn; by rewrite (proj1 (Hf u))].
  assert (N : t ∉ H) by (intros Hh; apply (tinv_disj _ _ _ _ _ t Ht Hh); by left).
  assert (Hx := Ht). destruct Hx. apply list.NoDup_cons in ti_R0 as [N1 N2].
  apply (tinv_state T t _ THREAD_STATE_SLEEPING H (t :: R) B O); auto.
  - intros t' Hne. rewrite elem_of_cons. tauto.
  - split; [done|]. done.
  - split; [done|]. done.
Qed.

(** The stack of a thread gets busy, or free. *)
Lemma tinv_stack T t f b H R B O B' O' : (forall u, ustate (f u) = ustate u /\ stack_busy (f u) = b) -> is_Some (T !! t) -> tinv T H R B O ->
  NoDup B' -> (forall t', t' <> t -> t' ∈ B' <-> t' ∈ B) -> (t ∈ B' <-> b = true) -> (forall t', t' ∈ O' -> t' ∉ B') ->
  tinv (alter f t T) H R B' O'.
Proof.
  intros Hf [u Hu] [H1 H2 H3 H4 H5 H6 H7] N E1 E2 E3. split; auto; intros t'; rewrite lookup_upd; case_decide as Hd; subst.
  - rewrite H4, Hu. cbn. by rewrite (proj1 (Hf u)).
  - apply H4.
  - rewrite H5, Hu. cbn. by rewrite (proj1 (Hf u)).
  - apply H5.
  - rewrite E2, Hu. cbn. rewrite (proj2 (Hf u)). split; [by intros ->|by intros [= ->]].
  - rewrite E1 by done. apply H6.
Qed.

Lemma tinv_leave T t f H R B O : (forall u, ustate (f u) = ustate u /\ stack_busy (f u) = false) -> tinv T H R (t :: B) O -> tinv (alter f t T) H R B O.
Proof.
  intros Hf Ht. assert (Hin : stack_busy <$> T !! t = Some true) by (apply (ti_busy _ _ _ _ _ Ht); by left).
  assert (Hn := ti_B _ _ _ _ _ Ht). apply list.NoDup_cons in Hn as [N1 N2]. apply (tinv_stack T t f false H R (t :: B) O); auto.
  - by apply fmap_Some in Hin as (u & -> & _).
  - intros t' Hne. rewrite elem_of_cons. tauto.
  - done.
  - intros t' Ho Hb. apply (ti_on _ _ _ _ _ Ht t' Ho). by right.
Qed.

(** A thread goes to sleep on its stack. *)
Lemma tinv_park T t f H R B O : (forall u, ustate (f u) = THREAD_STATE_SLEEPING /\ stack_busy (f u) = true) ->
  tinv T H (t :: R) B (t :: O) -> (t ∉ O) ->
  tinv (alter f t T) H R (t :: B) O /\ ustate <$> alter f t T !! t = Some THREAD_STATE_SLEEPING.
Proof.
  intros Hf Ht Ho. assert (Hb := ti_on _ _ _ _ _ Ht t ltac:(by left)).
  assert (Hin : ustate <$> T !! t = Some THREAD_STATE_RUNNING) by (apply (ti_running _ _ _ _ _ Ht); by left).
  apply fmap_Some in Hin as (u & Hu & _). destruct (Hf u) as [F1 F2].
  assert (N : t ∉ H) by (intros Hh; apply (tinv_disj _ _ _ _ _ t Ht Hh); by left).
  split; [|rewrite lookup_alter_eq, Hu; cbn; by rewrite F1].
  destruct Ht as [H1 H2 H3 H4 H5 H6 H7]. apply list.NoDup_cons in H2 as [N1 N2].
  split; auto; [by apply list.NoDup_cons|..]; intros t'; rewrite ?lookup_upd; try (case_decide as Hd; [subst; rewrite Hu; cbn; rewrite ?F1, ?F2; split; done|]).
  - apply H4.
  - rewrite <- H5, elem_of_cons. tauto.
  - case_decide as Hd; [subst; rewrite Hu; cbn; rewrite F2; split; [done|by left]|]. rewrite <- H6, elem_of_cons. tauto.
  - intros Hto. rewrite elem_of_cons. intros [->|Hb']; [done|]. apply (H7 t'); [by right|done].
Qed.

Lemma tinv_on T H R B O t : tinv T H R B O -> (t ∉ B) -> tinv T H R B (t :: O).
Proof. intros [] Hb. split; auto. intros t'. rewrite elem_of_cons. intros [->|?]; auto. Qed.

Lemma tinv_off T H R B O O' : tinv T H R B O -> (forall t, t ∈ O' -> t ∈ O) -> tinv T H R B O'.
Proof. intros [] Hs. split; auto. Qed.

(** A new thread; a thread that ends. *)
Lemma tinv_create T t u H R B O : tinv T H R B O -> T !! t = None -> ustate u = THREAD_STATE_SLEEPING -> stack_busy u = false -> tinv (<[t := u]> T) H R B O.
Proof.
  intros [H1 H2 H3 H4 H5 H6 H7] Hn Es Eb. split; auto; intros t'; (destruct (decide (t' = t)) as [->|Hne];
    [rewrite lookup_insert_eq; cbn; rewrite ?Es, ?Eb|rewrite lookup_insert_ne by done; auto]).
  - rewrite H4, Hn. done.
  - rewrite H5, Hn. done.
  - rewrite H6, Hn. done.
Qed.

Lemma tinv_delete T t H R B O : tinv T H (t :: R) B (t :: O) -> (t ∉ O) -> tinv (delete t T) H R B O.
Proof.
  intros Ht Ho. assert (N : t ∉ H) by (intros Hh; apply (tinv_disj _ _ _ _ _ t Ht Hh); by left).
  assert (Hb := ti_on _ _ _ _ _ Ht t ltac:(by left)).
  destruct Ht as [H1 H2 H3 H4 H5 H6 H7]. apply list.NoDup_cons in H2 as [N1 N2].
  split; auto; [intros t'; (destruct (decide (t' = t)) as [->|Hne];
    [rewrite lookup_delete_eq; split; [done|done]|rewrite lookup_delete_ne by done; auto])..|].
  - rewrite <- H5, elem_of_cons. tauto.
  - intros t' Hto. apply H7. by right.
Qed.

(** ** Changes of one kthread *)

(** The invariant while the threads [L] are in no queue. *)
Record sinv (L : list nat) (s : sys) : Prop := {
  sn_k : forall i k, ks s !! i = Some k -> kok (length (ks s)) i k;
  sn_t : tinv (ths s) (L ++ all held s) (all running s) (all leaving s) (all onstack s);
  sn_g : global_prioritizing s = true -> global_status s <> 0;
}.

(** The lists of all kthreads but [i]. *)
Definition rest (f : kthread -> list nat) (i : nat) (s : sys) : list nat :=
  concat (map f (take i (ks s))) ++ concat (map f (drop (S i) (ks s))).

Lemma all_rest f s i k : ks s !! i = Some k -> all f s ≡ₚ f k ++ rest f i s.
Proof.
  intros Hi. unfold all, rest. rewrite <- (take_drop_middle _ _ _ Hi) at 1. rewrite map_app, concat_app. cbn. solve_Permutation.
Qed.

Lemma all_put f s i k k' s' : ks s !! i = Some k -> ks s' = <[i := k']> (ks s) -> all f s' ≡ₚ f k' ++ rest f i s.
Proof.
  intros Hi E. assert (Hl := lookup_lt_Some _ _ _ Hi). unfold all, rest. rewrite E, insert_take_drop by done.
  rewrite map_app, concat_app. cbn. solve_Permutation.
Qed.

Lemma concat_map_incl (f g : kthread -> list nat) l t : (forall k, t ∈ f k -> t ∈ g k) -> t ∈ concat (map f l) -> t ∈ concat (map g l).
Proof.
  intros Hfg. rewrite !elem_of_concat. intros (x & Ht & (k & -> & Hk)%list_elem_of_fmap). exists (g k). split; [by apply Hfg|].
  by apply list_elem_of_fmap_2.
Qed.

Lemma onstack_running k t : t ∈ onstack k -> t ∈ running k.
Proof. unfold onstack, running. destruct (kpc k); try done; by intros ?%elem_of_nil. Qed.

Lemma rest_incl s i t : t ∈ rest onstack i s -> t ∈ rest running i s.
Proof. unfold rest. rewrite !elem_of_app. intros [H|H]; [left|right]; (eapply concat_map_incl; [|exact H]); intros; by apply onstack_running. Qed.

Lemma sinv_put L L' s i k k' s' :
  sinv L s -> ks s !! i = Some k -> ks s' = <[i := k']> (ks s) -> (global_prioritizing s' = true -> global_status s' <> 0) -> kok (length (ks s)) i k' ->
  (forall H R B O, (forall t, t ∈ O -> t ∈ R) -> tinv (ths s) (L ++ held k ++ H) (running k ++ R) (leaving k ++ B) (onstack k ++ O) ->
     tinv (ths s') (L' ++ held k' ++ H) (running k' ++ R) (leaving k' ++ B) (onstack k' ++ O)) -> sinv L' s'.
Proof.
  intros [H1 H2 H3] Hi Es Hg Hk Ht. split; [|..|done].
  - intros j kj. rewrite Es, length_insert. destruct (decide (j = i)) as [->|Hne].
    + rewrite list_lookup_insert_eq by (by eapply lookup_lt_Some). by intros [= <-].
    + rewrite list_lookup_insert_ne by done. apply H1.
  - rewrite (all_rest held s i k Hi), (all_rest running s i k Hi), (all_rest leaving s i k Hi), (all_rest onstack s i k Hi) in H2.
    rewrite (all_put held s i k k' s'), (all_put running s i k k' s'), (all_put leaving s i k k' s'), (all_put onstack s i k k' s') by done.
    apply Ht; [|done]. apply rest_incl.
Qed.

Lemma get_k_ok s i k : ks s !! i = Some k -> get_k i s = Ok k.
Proof. intros H. unfold get_k. by rewrite H. Qed.

Lemma ks_put s i k k' : ks s !! i = Some k -> ks (put_k i k' s) !! i = Some k'.
Proof. intros H. cbn. apply list_lookup_insert_eq. by eapply lookup_lt_Some. Qed.

Lemma put_put s i k k' : put_k i k' (put_k i k s) = put_k i k' s.
Proof. unfold put_k. cbn. by rewrite list_insert_insert_eq. Qed.

(** The lists depend on the view only. *)
Lemma view_lists k k' : kview k' = kview k -> hand k' = hand k /\ running k' = running k /\ leaving k' = leaving k /\ onstack k' = onstack k.
Proof. intros E. injection E as E1 E2 E3 E4 E5 E6 E7. unfold hand, running, leaving, onstack. by rewrite E5, E7. Qed.

Lemma kok_queue n i k k' : kok n i k -> kview k' = kview k -> (exists hi lo, kq k' hi lo) ->
  (prioritized_status k = true -> prioritized_status k' = true \/ locked (kpc k) = false) -> kok n i k'.
Proof.
  intros [H1 H2 H3 H4 H5 H6] E Hq Hp. injection E as E1 E2 E3 E4 E5 E6 E7. unfold self_ok, pc_ok in *.
  split; unfold self_ok, pc_ok; rewrite ?E1, ?E2, ?E3, ?E5, ?E7; auto.
  destruct (kpc k); auto. split; [|apply H6]. destruct (Hp (proj1 H6)); done.
Qed.

Lemma kq_set_pc k p hi lo : kq k hi lo -> kq (set_kpc p k) hi lo.
Proof. intros [H1 H2 H3]. split; auto. by apply (krings_ext k). Qed.

Lemma queue_set_pc k p : queue (set_kpc p k) = queue k.
Proof. done. Qed.

(** ** check_prioritized_scope *)

Definition in_scope (n : nat) (c : resume) (p : pc) : Prop :=
  p = resume_pc c \/ exists m l, p = PScope c m l /\ scope_ok m /\ Forall (fun j => (j < n)%nat) l.

Lemma seq_bound n : Forall (fun j => (j < n)%nat) (seq 0 n).
Proof. apply list.Forall_forall. intros j [_ Hj]%elem_of_seq. done. Qed.

Lemma scope_check_ok c k i s : (global_prioritizing s = true -> global_status s <> 0) ->
  exists p, check_prioritized_scope i c k s = Ok (at_pc i p k s) /\ in_scope (length (ks s)) c p.
Proof.
  intros Hg. unfold check_prioritized_scope, scope_of. destruct (global_prioritizing s); cbn [andb negb].
  - specialize (Hg eq_refl). destruct (negb (b2z _ =? _)); [|eexists; split; [reflexivity|by left]].
    eexists. split; [reflexivity|]. right. eexists _, _. split; [reflexivity|]. split; [by destruct (negb _)|apply seq_bound].
  - destruct (prioritized_status k); (eexists; split; [reflexivity|]); [right|by left]. eexists _, _. split; [reflexivity|]. split; [done|apply seq_bound].
Qed.

Lemma in_scope_facts n c p k : in_scope n c p ->
  locked p = true /\ parked_pc p = false /\ even_pc p = (match c with InEnter => false | _ => true end) /\
  hand (set_kpc p k) = [] /\ running (set_kpc p k) = [] /\ onstack (set_kpc p k) = [] /\
  leaving (set_kpc p k) = (match c with InEnter => option_list (self k) | _ => [] end) /\
  pc_ok n (set_kpc p k) /\ (match c with InEnter => self k <> None | _ => self k = None end -> self_ok (set_kpc p k)).
Proof. intros [->|(m & l & -> & Hm & Hl)]; destruct c; cbn; split_and!; auto. Qed.

(** A kthread goes on at [p], its queues kept. *)
Lemma kok_at n i k p : (exists hi lo, kq k hi lo) -> klock k = (if locked p then Some i else None) -> parked k = parked_pc p ->
  Z.even (rcu_gen k) = even_pc p -> self_ok (set_kpc p k) -> pc_ok n (set_kpc p k) -> kok n i (set_kpc p k).
Proof. intros (hi & lo & Hk) H1 H2 H3 H4 H5. split; auto. exists hi, lo. by apply kq_set_pc. Qed.

Lemma even_u32 x : Z.even (u32 x) = Z.even x.
Proof. unfold u32, M32. rewrite !Zeven_mod, Z.mod_mod_divide; [done|]. exists 2147483648. lia. Qed.

Lemma rcu_even n k : Z.even (rcu_gen (rcu_add n k)) = Z.even (rcu_gen k + n).
Proof. cbn. apply even_u32. Qed.
