(* ===== verification/RtSteps.v ===== *)
(** * Every step of a kthread keeps the invariant

    Per operation of RtMach.v: it does not fail, and the state it leads to satisfies
    [sinv].  The steals need two kthreads to change at once. *)

From S2P Require Import Prelude Stddef RtState RtSched RtQueue RtMach RtInv.

Definition good (r : res sys) : Prop := exists s', r = Ok s' /\ sinv [] s'.

(** The status of a thread that exists. *)
Definition st_of (s : sys) (t : nat) : Z := match ths s !! t with Some u => status u | None => 0 end.

Lemma in_rest (f : kthread -> list nat) s i k t : ks s !! i = Some k -> t ∈ f k -> t ∈ all f s.
Proof. intros Hi Ht. rewrite (all_rest f s i k Hi). apply elem_of_app. by left. Qed.

Lemma held_exists L s t : sinv L s -> t ∈ L ++ all held s -> exists u, ths s !! t = Some u /\ ustate u = THREAD_STATE_RUNNABLE.
Proof. intros Hs Ht. apply (ti_runnable _ _ _ _ _ (sn_t _ _ Hs)) in Ht. apply fmap_Some in Ht as (u & E & ->). by exists u. Qed.

Lemma status_known L s i k t : sinv L s -> ks s !! i = Some k -> t ∈ queue k -> status_in s t = Ok (st_of s t).
Proof.
  intros Hs Hi Ht. destruct (held_exists L s t Hs) as (u & E & _).
  - apply elem_of_app. right. apply (in_rest held s i k); [done|]. apply elem_of_app. by right.
  - unfold status_in, get_th, st_of. by rewrite E.
Qed.

Lemma running_exists L s i k t : sinv L s -> ks s !! i = Some k -> t ∈ running k -> exists u, ths s !! t = Some u /\ ustate u = THREAD_STATE_RUNNING.
Proof.
  intros Hs Hi Ht. apply (in_rest running s i k t Hi) in Ht. apply (ti_running _ _ _ _ _ (sn_t _ _ Hs)) in Ht.
  apply fmap_Some in Ht as (u & E & ->). by exists u.
Qed.

Lemma kok_get L s i k : sinv L s -> ks s !! i = Some k -> kok (length (ks s)) i k.
Proof. intros Hs. apply Hs. Qed.

(** ** Steals *)

Lemma ks_len s i k : length (ks (put_k i k s)) = length (ks s).
Proof. apply length_insert. Qed.

Lemma sinv_two s i j ki kj ki' kj' s' :
  sinv [] s -> i <> j -> ks s !! i = Some ki -> ks s !! j = Some kj -> ks s' = <[i := ki']> (<[j := kj']> (ks s)) -> ths s' = ths s ->
  (global_prioritizing s' = true -> global_status s' <> 0) ->
  kok (length (ks s)) i ki' -> kok (length (ks s)) j kj' ->
  kpc ki' = kpc ki -> kpc kj' = kpc kj -> self ki' = self ki -> self kj' = self kj ->
  (exists St, queue kj ≡ₚ St ++ queue kj' /\ queue ki' ≡ₚ queue ki ++ St) -> sinv [] s'.
Proof.
  intros Hs Hij Hi Hj Es Et Hg Ki Kj P1 P2 S1 S2 (St & Q1 & Q2).
  assert (Ei : ks (put_k j kj' s) !! i = Some ki) by (cbn; by rewrite list_lookup_insert_ne).
  assert (H1 : sinv St (put_k j kj' s)).
  { apply (sinv_put [] St s j kj kj'); auto; [exact (sn_g _ _ Hs)|]. intros H R B O _ Ht. cbn [ths put_k set_ks].
    unfold held, hand, running, leaving, onstack in *. rewrite P2, S2. rewrite Q1 in Ht. revert Ht. apply tinv_proper; [solve_Permutation|done..]. }
  apply (sinv_put St [] (put_k j kj' s) i ki ki'); auto; [by rewrite ks_len|]. rewrite Et. intros H R B O _ Ht. cbn [ths put_k set_ks] in Ht.
  unfold held, hand, running, leaving, onstack in *. rewrite P1, S1. rewrite Q2. revert Ht. apply tinv_proper; [solve_Permutation|done..].
Qed.

(** The queues of [k] and those of [k'], which has the threads [add] as well. *)
Definition grows (add : list nat) (k k' : kthread) : Prop :=
  kview k' = kview k /\ prioritized_status k' = prioritized_status k /\ (exists hi lo, kq k' hi lo) /\ queue k' ≡ₚ queue k ++ add.
Definition shrinks (del : list nat) (k k' : kthread) : Prop :=
  kview k' = kview k /\ prioritized_status k' = prioritized_status k /\ (exists hi lo, kq k' hi lo) /\ queue k ≡ₚ del ++ queue k'.

Lemma kok_grows n i k k' add : kok n i k -> grows add k k' -> kok n i k'.
Proof. intros Hk (V & P & Q & _). apply (kok_queue n i k); auto. rewrite P. auto. Qed.

Lemma kok_shrinks n i k k' del : kok n i k -> shrinks del k k' -> kok n i k'.
Proof. intros Hk (V & P & Q & _). apply (kok_queue n i k); auto. rewrite P. auto. Qed.

Lemma push_grows th k hi lo : kq k hi lo -> grows [th] k (q_head_add 1 (push_or_overflow th k)).
Proof.
  intros Hk. unfold push_or_overflow. destruct (krings_count _ _ _ (kq_rings _ _ _ Hk)) as [-> _].
  destruct (Z.ltb_spec (Z.of_nat (length hi)) RUNTIME_RQ_SIZE) as [Hl|Hl].
  - destruct (frame_push_rq th k) as ((V & P & F) & O & Q). unfold grows.
    assert (Hk' : kq (q_head_add 1 (push_rq th k)) (hi ++ [th]) lo).
    { apply (kq_frame k hi lo); [done|by split|]. apply (krings_ext (push_rq th k)); [|done].
      apply krings_push; [apply Hk|unfold RQ, RUNTIME_RQ_SIZE in *; lia]. }
    split_and!; [exact V|exact P|by eexists _, _|]. rewrite (krings_queue _ _ _ (kq_rings _ _ _ Hk')), (krings_queue _ _ _ (kq_rings _ _ _ Hk)).
    change (rq_overflow (q_head_add 1 (push_rq th k))) with (rq_overflow (push_rq th k)). rewrite O. solve_Permutation.
  - assert (Hk' : kq (q_head_add 1 (push_overflow th k)) hi lo)
      by (apply (kq_frame k hi lo); [done|done|]; by apply (krings_ext k); [apply Hk|]).
    split_and!; [done|done|by eexists _, _|]. rewrite (krings_queue _ _ _ (kq_rings _ _ _ Hk')), (krings_queue _ _ _ (kq_rings _ _ _ Hk)).
    cbn. solve_Permutation.
Qed.

Lemma push_low_grows th k hi lo : kq k hi lo -> prioritized_status k = true -> grows [th] k (q_head_add 1 (push_low_or_overflow th k)).
Proof.
  intros Hk Hp. assert (Hf := kq_flag _ _ _ Hk). rewrite Hp in Hf. unfold push_low_or_overflow.
  destruct (krings_count _ _ _ (kq_rings _ _ _ Hk)) as [_ ->].
  destruct (Z.ltb_spec (Z.of_nat (length lo)) RUNTIME_RQ_SIZE) as [Hl|Hl].
  - assert (Hk' : kq (q_head_add 1 (push_low th k)) hi (lo ++ [th])).
    { apply (kq_prio k hi lo); [done|done|done|]. apply (krings_ext (push_low th k)); [|done].
      apply krings_push_low; [apply Hk|unfold RQ, RUNTIME_RQ_SIZE in *; lia|done]. }
    split_and!; [done|done|by eexists _, _|]. rewrite (krings_queue _ _ _ (kq_rings _ _ _ Hk')), (krings_queue _ _ _ (kq_rings _ _ _ Hk)).
    cbn. solve_Permutation.
  - assert (Hk' : kq (q_head_add 1 (push_overflow th k)) hi lo)
      by (apply (kq_frame k hi lo); [done|done|]; by apply (krings_ext k); [apply Hk|]).
    split_and!; [done|done|by eexists _, _|]. rewrite (krings_queue _ _ _ (kq_rings _ _ _ Hk')), (krings_queue _ _ _ (kq_rings _ _ _ Hk)).
    cbn. solve_Permutation.
Qed.

Lemma pop_overflow_shrinks k hi lo th ov : kq k hi lo -> rq_overflow k = th :: ov -> shrinks [th] k (q_tail_add 1 (set_rq_overflow ov k)).
Proof.
  intros Hk Ho. assert (Hk' : kq (q_tail_add 1 (set_rq_overflow ov k)) hi lo)
    by (apply (kq_frame k hi lo); [done|done|]; by apply (krings_ext k); [apply Hk|]).
  split_and!; [done|done|by eexists _, _|]. rewrite (krings_queue _ _ _ (kq_rings _ _ _ Hk')), (krings_queue _ _ _ (kq_rings _ _ _ Hk)), Ho.
  cbn. solve_Permutation.
Qed.

Lemma cur_rq_set a k : cur_rq (set_cur_rq a k) = a /\ other_rq (set_cur_rq a k) = other_rq k.
Proof. unfold cur_rq, other_rq, set_cur_rq. by destruct (rq_ptr_high k) eqn:E; rings; rewrite E. Qed.

Lemma set_cur_rq_frame a k : frame k (set_cur_rq a k) /\ qptrs (set_cur_rq a k) = qptrs k /\
  (rq_head (set_cur_rq a k), rq_tail (set_cur_rq a k), l_rq_head (set_cur_rq a k), l_rq_tail (set_cur_rq a k), rq_overflow (set_cur_rq a k)) =
  (rq_head k, rq_tail k, l_rq_head k, l_rq_tail k, rq_overflow k).
Proof. unfold set_cur_rq, frame. by destruct (rq_ptr_high k) eqn:E; rings; rewrite E. Qed.

(** Half of a queue is stolen. *)
Lemma steal_half (hi : list nat) : (length hi <= RQ)%nat ->
  exists a b, hi = a ++ b /\ Z.to_nat (div_up (Z.of_nat (length hi)) 2) = length a.
Proof.
  intros Hl. rewrite div_up_half by done. rewrite Nat2Z.id. exists (take ((length hi + 1) / 2) hi), (drop ((length hi + 1) / 2) hi).
  rewrite take_drop. split; [done|]. rewrite length_take. symmetry. apply Nat.min_l.
  pose proof (Nat.div_mod_eq (length hi + 1) 2). pose proof (Nat.mod_upper_bound (length hi + 1) 2). lia.
Qed.

Lemma steal_high_ok l kr hi lo hr lr : kq l hi lo -> kq kr hr lr ->
  exists t d h ov St, steal_loop (Z.to_nat (div_up (rq_count kr) 2)) (cur_rq kr) (rq_tail kr) (cur_rq l) (rq_head l) (rq_tail l) (rq_overflow l) = Ok (t, d, h, ov) /\
    forall n, shrinks St kr (q_tail_add n (set_rq_tail t kr)) /\ grows St l (q_head_add n (set_rq_head h (set_rq_overflow ov (set_cur_rq d l)))).
Proof.
  intros Hl Hr. destruct (krings_count _ _ _ (kq_rings _ _ _ Hr)) as [-> _]. destruct (krings_room _ _ _ (kq_rings _ _ _ Hr)) as [Hn _].
  destruct (steal_half hr Hn) as (a & b & -> & ->).
  destruct (steal_loop_ok (cur_rq kr) (rq_head kr) b a (rq_tail kr) (cur_rq l) (rq_head l) (rq_tail l) hi (rq_overflow l)) as (t & d & h & n & E & R1 & R2);
    [apply Hr|apply Hl|].
  exists t, d, h, (rq_overflow l ++ drop n a), a. split; [exact E|]. intros z. split.
  - assert (Hk' : kq (q_tail_add z (set_rq_tail t kr)) b lr).
    { apply (kq_frame kr (a ++ b) lr); [done|done|]. split; [done|apply Hr]. }
    split_and!; [done|done|by eexists _, _|]. rewrite (krings_queue _ _ _ (kq_rings _ _ _ Hk')), (krings_queue _ _ _ (kq_rings _ _ _ Hr)). cbn. solve_Permutation.
  - destruct (set_cur_rq_frame d l) as ((V & P & F) & Q & X). injection X as X1 X2 X3 X4 X5. destruct (cur_rq_set d l) as [C1 C2].
    set (l' := q_head_add _ _).
    assert (Hk' : kq l' (hi ++ take n a) lo).
    { apply (kq_frame l hi lo); [done|by split|]. split.
      - change (cur_rq l') with (cur_rq (set_cur_rq d l)). change (rq_tail l') with (rq_tail (set_cur_rq d l)). change (rq_head l') with h. by rewrite C1, X2.
      - change (other_rq l') with (other_rq (set_cur_rq d l)). change (l_rq_tail l') with (l_rq_tail (set_cur_rq d l)).
        change (l_rq_head l') with (l_rq_head (set_cur_rq d l)). rewrite C2, X3, X4. apply Hl. }
    split_and!; [exact V|exact P|by eexists _, _|]. rewrite (krings_queue _ _ _ (kq_rings _ _ _ Hk')), (krings_queue _ _ _ (kq_rings _ _ _ Hl)).
    change (rq_overflow l') with (rq_overflow l ++ drop n a). rewrite <- (take_drop n a) at 3. solve_Permutation.
Qed.

Lemma steal_low_ok l kr hi lo hr lr : kq l hi lo -> kq kr hr lr -> prioritized_status l = true -> prioritized_status kr = true ->
  exists t d h ov St, steal_loop (Z.to_nat (div_up (l_rq_count kr) 2)) (rq kr) (l_rq_tail kr) (rq l) (l_rq_head l) (l_rq_tail l) (rq_overflow l) = Ok (t, d, h, ov) /\
    forall n, shrinks St kr (q_tail_add n (set_l_rq_tail t kr)) /\ grows St l (q_head_add n (set_l_rq_head h (set_rq_overflow ov (set_rq d l)))).
Proof.
  intros Hl Hr Pl Pr. assert (Fl := kq_flag _ _ _ Hl). rewrite Pl in Fl. assert (Fr := kq_flag _ _ _ Hr). rewrite Pr in Fr.
  destruct (krings_count _ _ _ (kq_rings _ _ _ Hr)) as [_ ->]. destruct (krings_room _ _ _ (kq_rings _ _ _ Hr)) as [_ Hn].
  assert (Rl := kr_lo _ _ _ (kq_rings _ _ _ Hl)). assert (Rr := kr_lo _ _ _ (kq_rings _ _ _ Hr)). unfold other_rq in Rl, Rr. rewrite Fl in Rl. rewrite Fr in Rr.
  destruct (steal_half lr Hn) as (a & b & -> & ->).
  destruct (steal_loop_ok (rq kr) (l_rq_head kr) b a (l_rq_tail kr) (rq l) (l_rq_head l) (l_rq_tail l) lo (rq_overflow l) Rr Rl) as (t & d & h & n & E & R1 & R2).
  exists t, d, h, (rq_overflow l ++ drop n a), a. split; [exact E|]. intros z. split.
  - assert (Hk' : kq (q_tail_add z (set_l_rq_tail t kr)) hr b).
    { apply (kq_prio kr hr (a ++ b)); [done|done|done|]. split; [apply Hr|]. unfold other_rq. cbn. by rewrite Fr. }
    split_and!; [done|done|by eexists _, _|]. rewrite (krings_queue _ _ _ (kq_rings _ _ _ Hk')), (krings_queue _ _ _ (kq_rings _ _ _ Hr)). cbn. solve_Permutation.
  - set (l' := q_head_add _ _).
    assert (Hk' : kq l' hi (lo ++ take n a)).
    { apply (kq_prio l hi lo); [done|done|done|]. split; [|unfold other_rq; cbn; by rewrite Fl].
      assert (X := kr_hi _ _ _ (kq_rings _ _ _ Hl)). unfold cur_rq in *. rewrite Fl in X. cbn. by rewrite Fl. }
    split_and!; [done|done|by eexists _, _|]. rewrite (krings_queue _ _ _ (kq_rings _ _ _ Hk')), (krings_queue _ _ _ (kq_rings _ _ _ Hl)).
    change (rq_overflow l') with (rq_overflow l ++ drop n a). rewrite <- (take_drop n a) at 3. solve_Permutation.
Qed.

Lemma grows_klock c add k k' : grows add k k' -> grows add (set_klock c k) (set_klock c k').
Proof.
  intros (V & P & (hi & lo & [K1 K2 K3]) & Q). split_and!; auto.
  - unfold kview in *. cbn. by injection V as _ -> -> -> -> -> ->.
  - exists hi, lo. split; auto. by apply (krings_ext k').
Qed.

Lemma kview_pc k k' : kview k' = kview k -> kpc k' = kpc k /\ self k' = self k.
Proof. by injection 1. Qed.

(** The state while kthread [me] holds its own lock for a steal, [c] being what its
    lock is otherwise. *)
Definition stealing (me : nat) (c : option nat) (l : kthread) (s : sys) : Prop :=
  ks s !! me = Some l /\ klock l <> None /\ sinv [] (put_k me (set_klock c l) s).

Lemma stealing_two me c l s r kr l' kr' St : stealing me c l s -> ks s !! r = Some kr -> me <> r ->
  shrinks St kr kr' -> grows St l l' -> stealing me c l' (put_k me l' (put_k r kr' s)).
Proof.
  intros (Hm & Hl & Hs) Hr Hne Hsh Hgr. assert (Lm := lookup_lt_Some _ _ _ Hm).
  assert (Em : ks (put_k me (set_klock c l) s) !! me = Some (set_klock c l)) by (by apply (ks_put s me l)).
  assert (Er : ks (put_k me (set_klock c l) s) !! r = Some kr) by (cbn; by rewrite list_lookup_insert_ne).
  split_and!.
  - cbn. by rewrite list_lookup_insert_eq by (by rewrite length_insert).
  - destruct Hgr as (V & _). injection V. congruence.
  - assert (Hgc := grows_klock c _ _ _ Hgr).
    apply (sinv_two (put_k me (set_klock c l) s) me r (set_klock c l) kr (set_klock c l') kr'); auto.
    + cbn. rewrite list_insert_insert_eq, (list_insert_insert_ne _ r me) by done. by rewrite list_insert_insert_eq.
    + apply Hs.
    + apply (kok_grows _ me (set_klock c l) _ St); [by apply (kok_get [] _ me _ Hs)|done].
    + apply (kok_shrinks _ r kr _ St); [by apply (kok_get [] _ r _ Hs)|done].
    + by apply (kview_pc l l'), Hgr.
    + by apply (kview_pc kr kr'), Hsh.
    + by apply (kview_pc l l'), Hgr.
    + by apply (kview_pc kr kr'), Hsh.
    + exists St. split; [apply Hsh|apply Hgc].
Qed.

(** A thread of the softirq handler. *)
Definition fresh (soft : option nat) (s : sys) : Prop := forall th, soft = Some th -> ths s !! th = None.

Lemma tinv_soft T th u H R B O : tinv T H R B O -> T !! th = None -> ustate u = THREAD_STATE_SLEEPING -> stack_busy u = false ->
  tinv (alter (set_ustate THREAD_STATE_RUNNABLE) th (<[th := u]> T)) (th :: H) R B O.
Proof.
  intros Ht Hn Hu Hb. apply tinv_ready; [by apply tinv_create|]. rewrite lookup_insert_eq. cbn. by rewrite Hu.
Qed.

Lemma stealing_soft me c l s th cpu l' : stealing me c l s -> ths s !! th = None -> grows [th] l l' ->
  stealing me c l' (put_k me l' (softirq_run_thread (Some th) cpu s).2).
Proof.
  intros (Hm & Hl & Hs) Hn Hgr. assert (Lm := lookup_lt_Some _ _ _ Hm).
  assert (Em : ks (put_k me (set_klock c l) s) !! me = Some (set_klock c l)) by (by apply (ks_put s me l)).
  split_and!.
  - cbn. by rewrite list_lookup_insert_eq.
  - destruct Hgr as (V & _). injection V. congruence.
  - assert (Hgc := grows_klock c _ _ _ Hgr).
    apply (sinv_put [] [] (put_k me (set_klock c l) s) me (set_klock c l) (set_klock c l')); auto.
    + cbn. by rewrite !list_insert_insert_eq.
    + apply Hs.
    + apply (kok_grows _ me (set_klock c l) _ [th]); [by apply (kok_get [] _ me _ Hs)|done].
    + intros H R B O _ Ht. cbn [app] in *. cbn [ths put_k set_ks softirq_run_thread snd upd_th set_ths thread_create].
      destruct (kview_pc _ _ (proj1 Hgc)) as [E1 E2].
      unfold held, hand, running, leaving, onstack in *. rewrite E1, E2. destruct Hgc as (_ & _ & _ & ->).
      apply (tinv_soft _ th (UThread THREAD_STATE_SLEEPING false cpu 0 false)) in Ht; [|done..]. revert Ht. apply tinv_proper; [solve_Permutation|done..].
Qed.

Definition stole (me : nat) (c : option nat) (l : kthread) (s : sys) (x : res (bool * sys)) : Prop :=
  exists (b : bool) s' l', x = Ok (b, s') /\ stealing me c l' s' /\ kview l' = kview l /\ prioritized_status l' = prioritized_status l /\
    length (ks s') = length (ks s).

Lemma stole_no me c l s : stealing me c l s -> stole me c l s (Ok (false, s)).
Proof. intros H. by exists false, s, l. Qed.

Lemma stole_yes me c l s l' s' : stealing me c l' s' -> length (ks s') = length (ks s) -> (exists add, grows add l l') -> stole me c l s (Ok (true, s')).
Proof. intros H El (add & V & P & _). by exists true, s', l'. Qed.

Lemma stealing_kq me c l s : stealing me c l s -> exists hi lo, kq l hi lo.
Proof.
  intros (Hm & _ & Hs). destruct (ko_kq _ _ _ (kok_get [] _ me _ Hs (ks_put _ _ _ _ Hm))) as (hi & lo & [K1 K2 K3]).
  exists hi, lo. split; auto. by apply (krings_ext (set_klock c l)).
Qed.

Lemma stealing_other me c l s r kr : stealing me c l s -> ks s !! r = Some kr -> me <> r -> exists hi lo, kq kr hi lo.
Proof. intros (Hm & _ & Hs) Hr Hne. apply (ko_kq (length (ks s)) r). rewrite <- (length_insert (ks s) me (set_klock c l)). apply (kok_get [] _ r _ Hs). cbn. by rewrite list_lookup_insert_ne. Qed.

Lemma assert_lock_ok k : klock k <> None -> assert_lock k = Ok ().
Proof. intros H. unfold assert_lock. by rewrite bool_decide_eq_false_2. Qed.

Lemma steal_work_ok me r c l kr skip soft s :
  stealing me c l s -> ks s !! r = Some kr -> me <> r -> fresh soft s -> stole me c l s (steal_work me r skip soft s).
Proof.
  intros Hs Hr Hne Hf. destruct (stealing_kq _ _ _ _ Hs) as (hi & lo & Hq). destruct (stealing_other _ _ _ _ _ _ Hs Hr Hne) as (hr & lr & Hqr).
  assert (Hm := proj1 Hs). unfold steal_work. rewrite (get_k_ok _ _ _ Hm), (get_k_ok _ _ _ Hr). cbn [mbind res_bind].
  rewrite assert_lock_ok by apply Hs. cbn [mbind res_bind]. destruct (_ || _); [by apply stole_no|].
  destruct (negb _).
  - destruct (steal_high_ok l kr hi lo hr lr Hq Hqr) as (t & d & h & ov & St & -> & Hst). cbn [mbind res_bind].
    destruct (Hst (div_up (rq_count kr) 2)) as [Hsh Hgr]. eapply stole_yes; [by apply (stealing_two me c l s r kr _ _ St)|by rewrite !ks_len|by exists St].
  - destruct (rq_overflow kr) as [|th ov] eqn:Eo.
    + destruct soft as [th|]; [|by apply stole_no]. cbn [softirq_run_thread].
      eapply stole_yes; [apply (stealing_soft me c l s th (curr_cpu l)); [done|by apply Hf|]|by rewrite ?ks_len; cbn [softirq_run_thread]|exists [th]]; by eapply push_grows.
    + eapply stole_yes; [apply (stealing_two me c l s r kr _ _ [th]); [done..| |]|by rewrite ?ks_len; cbn [softirq_run_thread]|exists [th]];
        [by eapply pop_overflow_shrinks|by eapply push_grows..].
Qed.

Lemma steal_work_lp_ok me r c l kr skip soft s :
  stealing me c l s -> ks s !! r = Some kr -> me <> r -> fresh soft s -> prioritized_status l = true ->
  stole me c l s (steal_work_lp me r skip soft s).
Proof.
  intros Hs Hr Hne Hf Hp. destruct (stealing_kq _ _ _ _ Hs) as (hi & lo & Hq). destruct (stealing_other _ _ _ _ _ _ Hs Hr Hne) as (hr & lr & Hqr).
  assert (Hm := proj1 Hs). unfold steal_work_lp. rewrite (get_k_ok _ _ _ Hm), (get_k_ok _ _ _ Hr). cbn [mbind res_bind].
  rewrite assert_lock_ok by apply Hs. rewrite Hp. cbn [mbind res_bind negb BUG_ON].
  destruct (prioritized_status kr) eqn:Hpr; [|rewrite orb_true_r; by apply stole_no]. cbn [negb]. rewrite orb_false_r.
  destruct (_ || _); [by apply stole_no|]. destruct (negb _).
  - destruct (steal_low_ok l kr hi lo hr lr Hq Hqr Hp Hpr) as (t & d & h & ov & St & -> & Hst). cbn [mbind res_bind].
    destruct (Hst (div_up (l_rq_count kr) 2)) as [Hsh Hgr]. eapply stole_yes; [by apply (stealing_two me c l s r kr _ _ St)|by rewrite !ks_len|by exists St].
  - destruct (rq_overflow kr) as [|th ov] eqn:Eo.
    + destruct soft as [th|]; [|by apply stole_no]. cbn [softirq_run_thread].
      eapply stole_yes; [apply (stealing_soft me c l s th (curr_cpu l)); [done|by apply Hf|]|by rewrite ?ks_len; cbn [softirq_run_thread]|exists [th]]; by eapply push_low_grows.
    + eapply stole_yes; [apply (stealing_two me c l s r kr _ _ [th]); [done..| |]|by rewrite ?ks_len; cbn [softirq_run_thread]|exists [th]];
        [by eapply pop_overflow_shrinks|by eapply push_low_grows..].
Qed.

(** ** One kthread goes on *)

Lemma good_at s i k k1 p s1 : sinv [] s -> ks s !! i = Some k -> ks s1 = ks s -> (global_prioritizing s1 = true -> global_status s1 <> 0) ->
  (exists hi lo, kq k1 hi lo) -> klock k1 = (if locked p then Some i else None) -> parked k1 = parked_pc p -> Z.even (rcu_gen k1) = even_pc p ->
  self_ok (set_kpc p k1) -> pc_ok (length (ks s)) (set_kpc p k1) ->
  (forall H R B O, (forall t, t ∈ O -> t ∈ R) -> tinv (ths s) (held k ++ H) (running k ++ R) (leaving k ++ B) (onstack k ++ O) ->
     tinv (ths s1) (held (set_kpc p k1) ++ H) (running (set_kpc p k1) ++ R) (leaving (set_kpc p k1) ++ B) (onstack (set_kpc p k1) ++ O)) ->
  good (Ok (at_pc i p k1 s1)).
Proof.
  intros Hs Hi Es Hg Hq Hl Hp Hr Hse Hpc Ht. eexists. split; [reflexivity|].
  apply (sinv_put [] [] s i k (set_kpc p k1)); auto; [cbn; by rewrite Es|by apply kok_at].
Qed.

(** In [schedule], before a thread is chosen. *)
Definition sched_pc (p : pc) : bool :=
  match p with
  | PScope InEnter _ _ => false
  | PScope _ _ _ | PTop | PAgain | PSteal _ | PLow | PStealLp _ | PPoll => true
  | _ => false
  end.

Lemma sched_lists k : sched_pc (kpc k) = true -> held k = queue k /\ running k = [] /\ leaving k = [] /\ onstack k = [].
Proof. unfold held, hand, running, leaving, onstack. destruct (kpc k) as [| | |[]| | | | | | | | | | | | | | |]; done. Qed.

Lemma sched_ok n i k : kok n i k -> sched_pc (kpc k) = true -> klock k = Some i /\ parked k = false /\ Z.even (rcu_gen k) = true /\ self k = None.
Proof.
  intros [Hq Hl Hp Hr Hse Hpc] Hs. unfold self_ok in Hse. rewrite Hl, Hp, Hr. destruct (kpc k) as [| | |[]| | | | | | | | | | | | | | |]; done.
Qed.

(** [k1] has the fields of [k], but for the queues. *)
Lemma good_move s i k k1 p : sinv [] s -> ks s !! i = Some k -> sched_pc (kpc k) = true -> sched_pc p = true -> kview k1 = kview k ->
  (exists hi lo, kq k1 hi lo) -> pc_ok (length (ks s)) (set_kpc p k1) -> queue k1 ≡ₚ queue k -> good (Ok (at_pc i p k1 s)).
Proof.
  intros Hs Hi Hk Hp Hv Hq Hpc Hperm. destruct (sched_lists k Hk) as (E1 & E2 & E3 & E4).
  destruct (sched_lists (set_kpc p k1) Hp) as (F1 & F2 & F3 & F4). destruct (sched_ok _ i k (kok_get _ _ _ _ Hs Hi) Hk) as (L1 & L2 & L3 & L4).
  injection Hv as V1 V2 V3 V4 V5 V6 V7. apply (good_at s i k); auto; [apply Hs|..].
  - rewrite V1, L1. destruct p as [| | |[]| | | | | | | | | | | | | | |]; done.
  - rewrite V2, L2. destruct p as [| | |[]| | | | | | | | | | | | | | |]; done.
  - rewrite V3, L3. destruct p as [| | |[]| | | | | | | | | | | | | | |]; done.
  - unfold self_ok. cbn. rewrite V5, L4. destruct p as [| | |[]| | | | | | | | | | | | | | |]; done.
  - intros H R B O _. rewrite E1, E2, E3, E4, F1, F2, F3, F4. by rewrite queue_set_pc, Hperm.
Qed.

Lemma good_pick s i k k1 th s1 : sinv [] s -> ks s !! i = Some k -> sched_pc (kpc k) = true -> kview k1 = kview k -> ks s1 = ks s ->
  global_prioritizing s1 = global_prioritizing s -> global_status s1 = global_status s ->
  (exists hi lo, kq k1 hi lo) ->
  (forall H R B O, tinv (ths s) (queue k ++ H) R B O -> tinv (ths s1) (th :: queue k1 ++ H) R B O) ->
  good (Ok (at_pc i (PDone th) k1 s1)).
Proof.
  intros Hs Hi Hk Hv Es Eg1 Eg2 Hq Ht. destruct (sched_lists k Hk) as (E1 & E2 & E3 & E4).
  destruct (sched_ok _ i k (kok_get _ _ _ _ Hs Hi) Hk) as (L1 & L2 & L3 & L4).
  injection Hv as V1 V2 V3 V4 V5 V6 V7. apply (good_at s i k); auto; [|cbn; congruence..|done|].
  - rewrite Eg1, Eg2. apply Hs.
  - intros H R B O _. rewrite E1, E2, E3, E4. cbn [app held hand running leaving onstack kpc set_kpc]. apply Ht.
Qed.

Lemma good_soft s i k th cpu : sinv [] s -> ks s !! i = Some k -> sched_pc (kpc k) = true -> ths s !! th = None ->
  good (Ok (at_pc i (PDone th) k (softirq_run_thread (Some th) cpu s).2)).
Proof.
  intros Hs Hi Hk Hn. apply (good_pick s i k); auto; [apply (kok_get _ _ _ _ Hs Hi)|]. intros H R B O Ht.
  cbn [ths softirq_run_thread snd upd_th set_ths thread_create]. by apply tinv_soft.
Qed.

(** [pop_rq] in [schedule]. *)
Lemma pop_shrinks L s i k k0 : sinv L s -> ks s !! i = Some k0 -> queue k ≡ₚ queue k0 -> (exists hi lo, kq k hi lo) ->
  exists r k', pop_rq (status_in s) k = Ok (r, k') /\ shrinks (option_list r) k k' /\ (r = None -> rq_head k' = rq_tail k').
Proof.
  intros Hs Hi Hperm (hi & lo & Hk). destruct (pop_rq_ok (status_in s) (st_of s) k hi lo Hk) as (r & k' & hi' & lo' & sk & E & K & Eh & P & F & Hn & _).
  { intros t Ht. apply (status_known L s i k0 t Hs Hi). rewrite <- Hperm, (krings_queue _ _ _ (kq_rings _ _ _ Hk)). apply elem_of_app. by left. }
  exists r, k'. split; [done|]. split; [split_and!; [apply F|apply F|by eexists _, _|]|].
  - rewrite (krings_queue _ _ _ (kq_rings _ _ _ K)), (krings_queue _ _ _ (kq_rings _ _ _ Hk)), Eh.
    rewrite (Permutation_app_comm hi'), P. solve_Permutation.
  - intros Hr. apply Hn in Hr. subst hi'. apply Z.eqb_eq. by rewrite (ring_empty _ _ _ _ (kr_hi _ _ _ (kq_rings _ _ _ K))).
Qed.

Lemma good_take s i k k0 k1 th : sinv [] s -> ks s !! i = Some k0 -> sched_pc (kpc k0) = true -> kview k = kview k0 -> queue k ≡ₚ queue k0 ->
  shrinks [th] k k1 -> good (Ok (at_pc i (PDone th) k1 s)).
Proof.
  intros Hs Hi Hp Hv Hq (V & P & Q & E). apply (good_pick s i k0); auto; [congruence|]. intros H R B O. by rewrite <- Hq, E.
Qed.

Lemma good_check s i k c k1 s1 : sinv [] s -> ks s !! i = Some k -> ks s1 = ks s -> (global_prioritizing s1 = true -> global_status s1 <> 0) ->
  (exists hi lo, kq k1 hi lo) -> klock k1 = Some i -> parked k1 = false -> Z.even (rcu_gen k1) = (match c with InEnter => false | _ => true end) ->
  match c with InEnter => self k1 <> None | _ => self k1 = None end ->
  (forall H R B O, (forall t, t ∈ O -> t ∈ R) -> tinv (ths s) (held k ++ H) (running k ++ R) (leaving k ++ B) (onstack k ++ O) ->
     tinv (ths s1) (queue k1 ++ H) R (match c with InEnter => option_list (self k1) | _ => [] end ++ B) O) ->
  good (check_prioritized_scope i c k1 s1).
Proof.
  intros Hs Hi Es Hg Hq Hl Hp Hr Hse Ht. destruct (scope_check_ok c k1 i s1 Hg) as (p & -> & Hin). rewrite Es in Hin.
  destruct (in_scope_facts _ c p k1 Hin) as (F1 & F2 & F3 & F4 & F5 & F6 & F7 & F8 & F9).
  apply (good_at s i k); auto; [by rewrite F1|by rewrite F2|by rewrite F3|]. intros H R B O Ho Hti.
  unfold held. rewrite F4, F5, F6, F7. cbn [app]. rewrite queue_set_pc. by apply Ht.
Qed.

(** ** The steps of schedule *)

Lemma drain_same k : (exists hi lo, kq k hi lo) -> klock k <> None ->
  exists k', drain_if k = Ok k' /\ frame k k' /\ (exists hi lo, kq k' hi lo) /\ queue k' ≡ₚ queue k.
Proof.
  intros (hi & lo & Hk) Hl. destruct (drain_if_ok' k hi lo Hk Hl) as (k' & n & E & K & O & F & _ & _). exists k'.
  split_and!; auto; [by eexists _, _|]. rewrite (krings_queue _ _ _ (kq_rings _ _ _ K)), (krings_queue _ _ _ (kq_rings _ _ _ Hk)), O.
  rewrite <- (take_drop n (rq_overflow k)) at 3. solve_Permutation.
Qed.

Lemma kq_other k k' : (exists hi lo, kq k hi lo) ->
  (rq k', h_rq k', rq_ptr_high k', rq_head k', rq_tail k', l_rq_head k', l_rq_tail k', prioritized_status k') =
    (rq k, h_rq k, rq_ptr_high k, rq_head k, rq_tail k, l_rq_head k, l_rq_tail k, prioritized_status k) -> exists hi lo, kq k' hi lo.
Proof.
  intros (hi & lo & [K1 K2 K3]) E. injection E as E1 E2 E3 E4 E5 E6 E7 E8. exists hi, lo. split; [|congruence|by rewrite E8].
  apply (krings_ext k); [done|]. congruence.
Qed.

Lemma even_add_1 x b : Z.even x = b -> Z.even (x + 1) = negb b.
Proof. intros <-. rewrite Z.even_add. cbn. by destruct (Z.even x). Qed.

Lemma rcu_add_1 b k : Z.even (rcu_gen k) = b -> Z.even (rcu_gen (rcu_add 1 k)) = negb b.
Proof. intros H. rewrite rcu_even. by apply even_add_1. Qed.

Lemma assert_rcu_ok b k : Z.even (rcu_gen k) = b -> assert_rcu b k = Ok ().
Proof. intros H. unfold assert_rcu. rewrite H. by destruct b. Qed.

Lemma schedule_enter_good s i k : sinv [] s -> ks s !! i = Some k -> kpc k = PSched -> good (schedule_enter i s).
Proof.
  intros Hs Hi Hk. assert (Hko := kok_get _ _ _ _ Hs Hi). destruct Hko as [Hq Hl Hp Hr Hse Hpc]. rewrite Hk in Hl, Hp, Hr. cbn in Hl, Hp, Hr.
  unfold schedule_enter. rewrite (get_k_ok _ _ _ Hi). cbn [mbind res_bind]. rewrite assert_lock_ok by congruence. rewrite Hp. cbn [mbind res_bind BUG_ON].
  rewrite assert_rcu_ok by (by apply (rcu_add_1 false)). cbn [mbind res_bind].
  apply (good_check s i k InTop); auto.
  - by destruct (self k).
  - destruct (self k); cbn; apply Hs.
  - by apply (kq_other k).
  - by apply (rcu_add_1 false).
  - intros H R B O _. unfold held, hand, running, leaving, onstack. rewrite Hk. cbn [app]. change (queue (rcu_add 1 (set_self None k))) with (queue k).
    destruct (self k) as [t|]; cbn [option_list app]; [|done]. intros Ht. by apply tinv_leave.
Qed.

Lemma schedule_top_good s i k ch : sinv [] s -> ks s !! i = Some k -> kpc k = PTop -> fresh (c_soft ch) s -> good (schedule_top i ch s).
Proof.
  intros Hs Hi Hk Hf. assert (Hko := kok_get _ _ _ _ Hs Hi). assert (Hsp : sched_pc (kpc k) = true) by (by rewrite Hk).
  destruct (sched_ok _ i k Hko Hsp) as (L1 & L2 & L3 & L4).
  unfold schedule_top. rewrite (get_k_ok _ _ _ Hi). cbn [mbind res_bind].
  assert (Hno : good (k ← drain_if k; '(th, k) ← pop_rq (status_in s) k;
    done_or i th k (fun k s => _ ← BUG_ON (negb (rq_head k =? rq_tail k));
      check_prioritized_scope i InAgain (set_rq_tail 0 (set_rq_head 0 k)) s) s)).
  { destruct (drain_same k (ko_kq _ _ _ Hko)) as (k1 & -> & (V1 & _) & Q1 & P1); [congruence|]. cbn [mbind res_bind].
    destruct (pop_shrinks [] s i k1 k Hs Hi P1 Q1) as (r & k2 & -> & Hsh & Hn). cbn [mbind res_bind done_or].
    destruct r as [th|]; cbn [done_or]; [by apply (good_take s i k1 k)|].
    specialize (Hn eq_refl). rewrite Hn, Z.eqb_refl. cbn [negb BUG_ON mbind res_bind].
    destruct Hsh as (V2 & P2 & (hi & lo & K2) & Q2). cbn [option_list app] in Q2. rewrite V1 in V2. injection V2 as W1 W2 W3 W4 W5 W6 W7.
    assert (hi = []) as ->.
    { assert (E := ring_empty _ _ _ _ (kr_hi _ _ _ (kq_rings _ _ _ K2))). rewrite Hn, Z.eqb_refl in E. symmetry in E. by apply bool_decide_eq_true in E. }
    assert (K3 : kq (set_rq_tail 0 (set_rq_head 0 k2)) [] lo).
    { destruct K2 as [[R1 R2] F3 F4]. split; auto. split; [|done]. apply ring_nil; [by destruct R1|]. done. }
    destruct (sched_lists k Hsp) as (E1 & E2 & E3 & E4).
    apply (good_check s i k InAgain); auto; [apply Hs|by eexists _, _|cbn; congruence..|].
    intros H R B O _. rewrite E1, E2, E3, E4, <- P1, Q2. cbn [app].
    by rewrite (krings_queue _ _ _ (kq_rings _ _ _ K3)), (krings_queue _ _ _ (kq_rings _ _ _ K2)). }
  destruct (c_again ch); [|exact Hno]. destruct (c_soft ch) as [th|]; [|exact Hno]. cbn [softirq_run_thread done_or].
  apply (good_soft s i k th (curr_cpu k)); auto.
Qed.

(** The state of a kthread in [schedule], as [steal_work] wants it. *)
Lemma sched_stealing s i k : sinv [] s -> ks s !! i = Some k -> sched_pc (kpc k) = true -> stealing i (Some i) k s.
Proof.
  intros Hs Hi Hk. destruct (sched_ok _ i k (kok_get _ _ _ _ Hs Hi) Hk) as (L1 & _). split_and!; [done|congruence|].
  assert (E : set_klock (Some i) k = k) by (destruct k; cbn in *; by subst). rewrite E. unfold put_k. rewrite list_insert_id by done. by destruct s.
Qed.

Lemma stealing_sched s i k : stealing i (Some i) k s -> klock k = Some i -> sinv [] s.
Proof.
  intros (Hi & _ & Hs) Hl. assert (E : set_klock (Some i) k = k) by (destruct k; cbn in *; by subst).
  rewrite E in Hs. unfold put_k in Hs. rewrite list_insert_id in Hs by done. by destruct s.
Qed.

Lemma goto_ok s i k p : ks s !! i = Some k -> goto i p s = Ok (at_pc i p k s).
Proof. intros H. unfold goto. by rewrite (get_k_ok _ _ _ H). Qed.

Lemma steal_and_pop_good s i k r kr ch p : sinv [] s -> ks s !! i = Some k -> sched_pc (kpc k) = true -> ks s !! r = Some kr ->
  fresh (c_rsoft ch) s -> (exists l, p = PSteal l /\ Forall (fun j => (j < length (ks s))%nat) l) -> good (steal_and_pop i r ch p s).
Proof.
  intros Hs Hi Hk Hr Hf (l & -> & Hb). unfold steal_and_pop.
  assert (Hgo : forall s' k', sinv [] s' -> ks s' !! i = Some k' -> kview k' = kview k -> length (ks s') = length (ks s) -> good (Ok (at_pc i (PSteal l) k' s'))).
  { intros s' k' Hs' Hi' Hv El. apply (good_move s' i k'); auto; [injection Hv as V1 V2 V3 V4 V5 V6 V7; by rewrite V7|apply (kok_get _ _ _ _ Hs' Hi')|by rewrite El]. }
  case_bool_decide as Hri; [rewrite (goto_ok _ _ _ _ Hi); by apply Hgo|].
  destruct (steal_work_ok i r (Some i) k kr (c_skip ch) (c_rsoft ch) s) as (b & s' & k' & -> & Hst & Hv & Hp & El); auto; [by apply sched_stealing|].
  cbn [mbind res_bind]. assert (Hi' := proj1 Hst). assert (Hkp := Hv). injection Hkp as V1 V2 V3 V4 V5 V6 V7.
  destruct (sched_ok _ i k (kok_get _ _ _ _ Hs Hi) Hk) as (L1 & _). assert (Hs' : sinv [] s') by (apply (stealing_sched s' i k'); [done|congruence]).
  destruct b; [|rewrite (goto_ok _ _ _ _ Hi'); by apply Hgo].
  rewrite (get_k_ok _ _ _ Hi'). cbn [mbind res_bind]. assert (Hk' : sched_pc (kpc k') = true) by (by rewrite V7).
  destruct (pop_shrinks [] s' i k' k' Hs' Hi' ltac:(done) (ko_kq _ _ _ (kok_get _ _ _ _ Hs' Hi'))) as (o & k2 & -> & Hsh & _). cbn [mbind res_bind].
  destruct o as [th|]; cbn [done_or]; [by apply (good_take s' i k' k')|]. destruct Hsh as (W & P & Q & E). cbn [option_list app] in E.
  apply (good_move s' i k'); auto; [by rewrite El|by rewrite E].
Qed.

Lemma visit_bound x n : Forall (fun j => (j < n)%nat) (visit x n).
Proof.
  apply list.Forall_forall. intros j (y & -> & Hy)%list_elem_of_fmap. apply elem_of_seq in Hy.
  assert (Hb := Z.mod_pos_bound (u32 (x + Z.of_nat y)) (Z.of_nat n)). lia.
Qed.

Lemma schedule_again_good s i k ch : sinv [] s -> ks s !! i = Some k -> kpc k = PAgain -> fresh (c_soft ch) s -> fresh (c_rsoft ch) s ->
  (forall r, c_sib ch = Some r -> is_Some (ks s !! r)) -> good (schedule_again i ch s).
Proof.
  intros Hs Hi Hk Hf Hf' Hr. assert (Hsp : sched_pc (kpc k) = true) by (by rewrite Hk).
  unfold schedule_again. rewrite (get_k_ok _ _ _ Hi). cbn [mbind res_bind].
  destruct (c_soft ch) as [th|]; cbn [softirq_run_thread done_or]; [apply (good_soft s i k th (curr_cpu k)); auto|].
  destruct (c_sib ch) as [r|]; [|apply (good_move s i k); auto; [apply (kok_get _ _ _ _ Hs Hi)|apply visit_bound]].
  destruct (Hr r eq_refl) as [kr Hkr]. apply (steal_and_pop_good s i k r kr); auto. eexists. split; [reflexivity|apply visit_bound].
Qed.

Lemma pop_low_good s i k p : sinv [] s -> ks s !! i = Some k -> sched_pc (kpc k) = true -> prioritized_status k = true -> good (p k) ->
  good (if negb (l_rq_head k =? l_rq_tail k) then th ← ring_get (rq k) (l_rq_tail k); Ok (at_pc i (PDone th) (set_l_rq_tail (u32 (l_rq_tail k + 1)) k) s) else p k).
Proof.
  intros Hs Hi Hk Hp Hgo. destruct (ko_kq _ _ _ (kok_get _ _ _ _ Hs Hi)) as (hi & lo & K).
  rewrite (ring_empty _ _ _ _ (kr_lo _ _ _ (kq_rings _ _ _ K))). destruct lo as [|th lo]; [done|].
  rewrite bool_decide_eq_false_2 by done. cbn [negb]. destruct (krings_pop_other _ _ _ _ (kq_rings _ _ _ K)) as [E K'].
  assert (Hf := kq_flag _ _ _ K). rewrite Hp in Hf. unfold other_rq in E. rewrite Hf in E. rewrite E. cbn [mbind res_bind].
  apply (good_take s i k k); auto. split_and!; [done|done|exists hi, lo; by apply (kq_prio k hi (th :: lo))|].
  rewrite (krings_queue _ _ _ (kq_rings _ _ _ K)), (krings_queue _ _ _ K'). cbn. solve_Permutation.
Qed.

Lemma schedule_low_good s i k ch : sinv [] s -> ks s !! i = Some k -> kpc k = PLow -> good (schedule_low i ch s).
Proof.
  intros Hs Hi Hk. assert (Hsp : sched_pc (kpc k) = true) by (by rewrite Hk). assert (Hq := ko_kq _ _ _ (kok_get _ _ _ _ Hs Hi)).
  unfold schedule_low. rewrite (get_k_ok _ _ _ Hi). cbn [mbind res_bind]. destruct (prioritized_status k) eqn:Hp.
  - apply (pop_low_good s i k (fun k => Ok (at_pc i (PStealLp (visit (c_start ch) (length (ks s)))) k s))); auto. apply (good_move s i k); auto. split; [done|apply visit_bound].
  - by apply (good_move s i k).
Qed.

Lemma steal_lp_and_pop_good s i k r l kr ch : sinv [] s -> ks s !! i = Some k -> kpc k = PStealLp (r :: l) -> ks s !! r = Some kr ->
  fresh (c_rsoft ch) s -> good (steal_lp_and_pop i r ch (PStealLp l) s).
Proof.
  intros Hs Hi Hk Hr Hf. assert (Hsp : sched_pc (kpc k) = true) by (by rewrite Hk). unfold steal_lp_and_pop.
  assert (Hpr : prioritized_status k = true) by (assert (X := ko_pc _ _ _ (kok_get _ _ _ _ Hs Hi)); unfold pc_ok in X; rewrite Hk in X; apply X).
  assert (Hb : Forall (fun j => (j < length (ks s))%nat) l)
    by (assert (X := ko_pc _ _ _ (kok_get _ _ _ _ Hs Hi)); unfold pc_ok in X; rewrite Hk in X; destruct X as [_ X]; by apply Forall_inv_tail in X).
  assert (Hgo : forall s' k', sinv [] s' -> ks s' !! i = Some k' -> kview k' = kview k -> prioritized_status k' = true -> length (ks s') = length (ks s) -> good (Ok (at_pc i (PStealLp l) k' s'))).
  { intros s' k' Hs' Hi' Hv Hp El. apply (good_move s' i k'); auto; [injection Hv as V1 V2 V3 V4 V5 V6 V7; by rewrite V7|apply (kok_get _ _ _ _ Hs' Hi')|by rewrite El]. }
  case_bool_decide as Hri; [rewrite (goto_ok _ _ _ _ Hi); by apply Hgo|].
  destruct (steal_work_lp_ok i r (Some i) k kr (c_skip ch) (c_rsoft ch) s) as (b & s' & k' & -> & Hst & Hv & Hp & El); auto; [by apply sched_stealing|].
  cbn [mbind res_bind]. assert (Hi' := proj1 Hst). assert (Hkp := Hv). injection Hkp as V1 V2 V3 V4 V5 V6 V7. rewrite Hpr in Hp.
  destruct (sched_ok _ i k (kok_get _ _ _ _ Hs Hi) Hsp) as (L1 & _). assert (Hs' : sinv [] s') by (apply (stealing_sched s' i k'); [done|congruence]).
  destruct b; [|rewrite (goto_ok _ _ _ _ Hi'); by apply Hgo].
  rewrite (get_k_ok _ _ _ Hi'). cbn [mbind res_bind]. apply (pop_low_good s' i k' (fun k => Ok (at_pc i (PStealLp l) k s'))); auto. by rewrite V7.
Qed.
