(* ===== verification/RtCalls.v ===== *)
(** * Every step of a kthread keeps the invariant: the switches and the calls

    The second half of RtSteps.v: the prioritizing of a status, parking, the switch to
    a thread and the calls of a uthread. *)

From S2P Require Import Prelude Stddef RtState RtSched RtQueue RtMach RtInv RtSteps.

(** ** Prioritizing *)

Lemma scope_one_ok m s k : (exists hi lo, kq k hi lo) -> klock k <> None -> scope_ok m -> (forall t, t ∈ queue k -> status_in s t = Ok (st_of s t)) ->
  exists k', scope_one m s k = Ok k' /\ kview k' = kview k /\ (exists hi lo, kq k' hi lo) /\ queue k' ≡ₚ queue k.
Proof.
  intros (hi & lo & K) Hl Hm Hst. rewrite (krings_queue _ _ _ (kq_rings _ _ _ K)) in Hst |- *. destruct m as [st|st|]; cbn [scope_one] in *.
  - destruct (build_one_ok (status_in s) (st_of s) st k hi lo K Hl Hm) as (k' & E & V & Q & O & H1 & H2).
    { intros t Ht. apply Hst. apply elem_of_app. by left. }
    exists k'. split_and!; [done|done|..]; destruct (prioritized_status k) eqn:Hp.
    + rewrite (H1 eq_refl). by eexists _, _.
    + destruct (H2 eq_refl) as [_ K']. by eexists _, _.
    + rewrite (H1 eq_refl). by rewrite (krings_queue _ _ _ (kq_rings _ _ _ K)).
    + destruct (H2 eq_refl) as [_ K']. rewrite (krings_queue _ _ _ (kq_rings _ _ _ K')), O, (kq_low _ _ _ K Hp). cbn [app].
      rewrite app_assoc. f_equiv. apply (filter_app_complement (fun t => st_of s t = st)).
  - destruct (update_one_ok (status_in s) (st_of s) st k hi lo K Hm) as (k' & hi' & lo' & E & V & Q & K' & _ & P).
    { intros t Ht. apply Hst. apply elem_of_app. right. apply elem_of_app. by left. }
    exists k'. split_and!; [done|done|by eexists _, _|]. by rewrite (krings_queue _ _ _ (kq_rings _ _ _ K')).
  - destruct (release_one_ok k hi lo K Hl) as (k' & hi' & E & V & Q & _ & K' & P).
    exists k'. split_and!; [done|done|by eexists _, _|]. by rewrite (krings_queue _ _ _ (kq_rings _ _ _ K')).
Qed.

Lemma scope_fields n i k c m j l : kok n i k -> kpc k = PScope c m (j :: l) ->
  klock k = Some i /\ parked k = false /\ Z.even (rcu_gen k) = (match c with InEnter => false | _ => true end) /\
  (match c with InEnter => self k <> None | _ => self k = None end) /\ scope_ok m /\ (j < n)%nat /\ in_scope n c (PScope c m l) /\
  held k = queue k /\ running k = [] /\ onstack k = [] /\ leaving k = (match c with InEnter => option_list (self k) | _ => [] end).
Proof.
  intros [Hq Hl Hp Hr Hse Hpc] E. unfold self_ok, pc_ok, held, hand, running, onstack, leaving in *. rewrite E in *. destruct Hpc as [Hm Hb].
  assert (Hb1 := Forall_inv Hb). assert (Hb2 := Forall_inv_tail Hb).
  split_and!; try (by destruct c). right. by exists m, l.
Qed.

(** The kthread goes on with the next one. *)
Lemma scope_next s i k c m j l k1 : sinv [] s -> ks s !! i = Some k -> kpc k = PScope c m (j :: l) -> kview k1 = kview k ->
  (exists hi lo, kq k1 hi lo) -> queue k1 ≡ₚ queue k -> good (Ok (at_pc i (PScope c m l) k1 s)).
Proof.
  intros Hs Hi Hk Hv Hq Hperm. destruct (scope_fields _ i k c m j l (kok_get _ _ _ _ Hs Hi) Hk) as (F1 & F2 & F3 & F4 & F5 & F6 & F7 & F8 & F9 & F10 & F11).
  destruct (in_scope_facts _ _ _ k1 F7) as (G1 & G2 & G3 & G4 & G5 & G6 & G7 & G8 & G9). injection Hv as V1 V2 V3 V4 V5 V6 V7.
  apply (good_at s i k); auto; [apply Hs|by rewrite G1, V1|by rewrite G2, V2|by rewrite G3, V3| |].
  - apply G9. by rewrite V5.
  - intros H R B O _. unfold held at 2. rewrite G4, G5, G6, G7, F8, F9, F10, F11, V5. cbn [app]. by rewrite queue_set_pc, Hperm.
Qed.

Lemma with_lock_ok i m s k : (exists hi lo, kq k hi lo) -> klock k = None -> scope_ok m -> (forall t, t ∈ queue k -> status_in s t = Ok (st_of s t)) ->
  exists k', with_lock i (scope_one m s) k = Ok k' /\ kview k' = kview k /\ (exists hi lo, kq k' hi lo) /\ queue k' ≡ₚ queue k.
Proof.
  intros Hq Hl Hm Hst. destruct (scope_one_ok m s (set_klock (Some i) k)) as (k' & E & V & Q & P); [by apply (kq_other k)|done|done|done|].
  unfold with_lock. rewrite E. cbn [mbind res_bind]. eexists. split; [reflexivity|]. split_and!; [|by apply (kq_other k')|exact P].
  injection V as V1 V2 V3 V4 V5 V6 V7. unfold kview. cbn. congruence.
Qed.

Lemma sinv_requeue s j kj k' : sinv [] s -> ks s !! j = Some kj -> klock kj = None -> kview k' = kview kj -> (exists hi lo, kq k' hi lo) ->
  queue k' ≡ₚ queue kj -> sinv [] (put_k j k' s).
Proof.
  intros Hs Hj Hl Hv Hq Hp. assert (Hk := kok_get _ _ _ _ Hs Hj). apply (sinv_put [] [] s j kj k'); auto; [apply Hs|..].
  - apply (kok_queue _ j kj); auto. intros _. right. assert (X := ko_lock _ _ _ Hk). destruct (locked (kpc kj)); congruence.
  - intros H R B O _. destruct (view_lists _ _ Hv) as (E1 & E2 & E3 & E4). cbn [app ths put_k set_ks].
    unfold held. by rewrite E1, E2, E3, E4, Hp.
Qed.

Lemma scope_step_good s i k c m j l ch : sinv [] s -> ks s !! i = Some k -> kpc k = PScope c m (j :: l) -> good (scope_step i c m j l ch s).
Proof.
  intros Hs Hi Hk. destruct (scope_fields _ i k c m j l (kok_get _ _ _ _ Hs Hi) Hk) as (F1 & F2 & F3 & F4 & F5 & F6 & F7 & _).
  assert (Hgo : forall s', sinv [] s' -> ks s' !! i = Some k -> good (goto i (PScope c m l) s')).
  { intros s' Hs' Hi'. rewrite (goto_ok _ _ _ _ Hi'). apply (scope_next s' i k c m j l); auto. apply (kok_get _ _ _ _ Hs' Hi'). }
  unfold scope_step. destruct (lookup_lt_is_Some_2 _ _ F6) as [kj Hj]. rewrite (get_k_ok _ _ _ Hj). cbn [mbind res_bind].
  destruct (c_skip ch); [by apply Hgo|]. assert (Hkj := kok_get _ _ _ _ Hs Hj).
  assert (Hst : forall t, t ∈ queue kj -> status_in s t = Ok (st_of s t)) by (intros t Ht; by apply (status_known [] s j kj)).
  case_bool_decide as E.
  - subst j. assert (kj = k) as -> by congruence.
    destruct (scope_one_ok m s k (ko_kq _ _ _ Hkj)) as (k' & -> & V & Q & P); [congruence|done|done|]. cbn [mbind res_bind].
    rewrite (goto_ok _ _ k') by (by apply (ks_put s i k)). unfold at_pc. rewrite put_put. by apply (scope_next s i k c m i l).
  - unfold lock_free. case_bool_decide as Hl; [|by apply Hgo].
    destruct (with_lock_ok i m s kj (ko_kq _ _ _ Hkj) Hl F5 Hst) as (k' & -> & V & Q & P). cbn [mbind res_bind]. apply Hgo.
    + by apply (sinv_requeue s j kj).
    + cbn. by rewrite list_lookup_insert_ne.
Qed.

Lemma scope_end_good s i k c m : sinv [] s -> ks s !! i = Some k -> kpc k = PScope c m [] -> good (Ok (at_pc i (resume_pc c) k s)).
Proof.
  intros Hs Hi Hk. assert (Hko := kok_get _ _ _ _ Hs Hi). destruct Hko as [Hq Hl Hp Hr Hse Hpc]. unfold self_ok in Hse. rewrite Hk in Hl, Hp, Hr, Hse.
  apply (good_at s i k); auto; [apply Hs|by rewrite Hl; destruct c|by rewrite Hp; destruct c|by rewrite Hr; destruct c|by destruct c|by destruct c|].
  intros H R B O _. unfold held, hand, running, leaving, onstack. rewrite Hk. by destruct c.
Qed.

(** ** Parking and switching *)

(** The side conditions of [good_at]. *)
Ltac fields := cbn [parked_pc even_pc locked] in *; first [done | cbn; congruence | unfold self_ok; cbn; congruence | exact eq_refl].
Ltac go_on s i k Hs := apply (good_at s i k); [exact Hs|done|done|apply Hs| |fields|fields|first [fields|done|assumption]|fields|done|].

Lemma schedule_poll_good s i k ch : sinv [] s -> ks s !! i = Some k -> kpc k = PPoll -> good (schedule_poll i ch s).
Proof.
  intros Hs Hi Hk. assert (Hsp : sched_pc (kpc k) = true) by (by rewrite Hk). assert (Hko := kok_get _ _ _ _ Hs Hi).
  destruct (sched_ok _ i k Hko Hsp) as (L1 & L2 & L3 & L4). destruct (sched_lists k Hsp) as (E1 & E2 & E3 & E4).
  unfold schedule_poll. rewrite (get_k_ok _ _ _ Hi). cbn [mbind res_bind]. destruct (c_again ch).
  - apply (good_check s i k InAgain); auto; [apply Hs|apply Hko|]. intros H R B O _. by rewrite E1, E2, E3, E4.
  - go_on s i k Hs; [apply (kq_other k); [apply Hko|done]|].
    intros H R B O _. rewrite E1, E2, E3, E4. by cbn [app].
Qed.

Lemma parked_good s i k ch : sinv [] s -> ks s !! i = Some k -> kpc k = PParked ->
  good (check_prioritized_scope i InAgain (set_parked false (lock_own i (set_curr_cpu (c_cpu ch) k))) s).
Proof.
  intros Hs Hi Hk. assert (Hko := kok_get _ _ _ _ Hs Hi). destruct Hko as [Hq Hl Hp Hr Hse Hpc]. unfold self_ok in Hse. rewrite Hk in Hr, Hse.
  apply (good_check s i k InAgain); auto; [apply Hs|by apply (kq_other k)|]. intros H R B O _.
  unfold held, hand, running, leaving, onstack. rewrite Hk. by cbn [app].
Qed.

Lemma enter_good s i k : sinv [] s -> ks s !! i = Some k -> kpc k = PEnter -> good (check_prioritized_scope i InEnter (lock_own i k) s).
Proof.
  intros Hs Hi Hk. assert (Hko := kok_get _ _ _ _ Hs Hi). destruct Hko as [Hq Hl Hp Hr Hse Hpc]. unfold self_ok in Hse. rewrite Hk in Hp, Hr, Hse.
  apply (good_check s i k InEnter); auto; [apply Hs|by apply (kq_other k)|]. intros H R B O _.
  unfold held, hand, running, leaving, onstack. rewrite Hk. by cbn [app].
Qed.

Lemma mark_running_ok s th u : ths s !! th = Some u -> ustate u = THREAD_STATE_RUNNABLE ->
  mark_running th s = Ok (upd_th th (set_ustate THREAD_STATE_RUNNING) s).
Proof. intros E Hu. unfold mark_running, get_th. rewrite E. cbn [mbind res_bind]. by rewrite bool_decide_eq_true_2. Qed.

Lemma schedule_done_good s i k th : sinv [] s -> ks s !! i = Some k -> kpc k = PDone th -> good (schedule_done i th s).
Proof.
  intros Hs Hi Hk. assert (Hko := kok_get _ _ _ _ Hs Hi). destruct Hko as [Hq Hl Hp Hr Hse Hpc]. unfold self_ok in Hse. rewrite Hk in Hl, Hp, Hr, Hse.
  unfold schedule_done. rewrite (get_k_ok _ _ _ Hi). cbn [mbind res_bind].
  destruct (drain_same k Hq) as (k1 & -> & (V & P & F) & Q & Hperm); [by rewrite Hl|]. cbn [mbind res_bind]. injection V as V1 V2 V3 V4 V5 V6 V7.
  assert (Hev : Z.even (rcu_gen (rcu_add 1 (set_klock None k1))) = false) by (apply (rcu_add_1 true); cbn; by rewrite V3).
  rewrite assert_rcu_ok by done. cbn [mbind res_bind].
  destruct (held_exists [] s th Hs) as (u & Eu & Hu); [apply (in_rest held s i k); [done|]; unfold held, hand; rewrite Hk; by left|].
  rewrite (mark_running_ok s th u) by done. cbn [mbind res_bind].
  go_on s i k Hs; [by apply (kq_other k1)|].
  intros H R B O _. unfold held, hand, running, leaving, onstack. rewrite Hk. cbn [app kpc set_kpc].
  change (queue (set_kpc (PJmp th) (rcu_add 1 (set_klock None k1)))) with (queue k1). rewrite Hperm. intros Ht. by apply tinv_run.
Qed.

Lemma stack_free_spec s th u : ths s !! th = Some u -> stack_free th s = true -> stack_busy <$> ths s !! th <> Some true.
Proof. unfold stack_free. intros ->. cbn. destruct (stack_busy u); done. Qed.

Lemma jmp_good s i k th : sinv [] s -> ks s !! i = Some k -> kpc k = PJmp th -> stack_free th s = true -> good (start_thread i th k s).
Proof.
  intros Hs Hi Hk Hf. assert (Hko := kok_get _ _ _ _ Hs Hi). destruct Hko as [Hq Hl Hp Hr Hse Hpc]. rewrite Hk in Hl, Hp, Hr.
  destruct (running_exists [] s i k th Hs Hi) as (u & Eu & Hu); [unfold running; rewrite Hk; by left|].
  unfold start_thread, get_th. rewrite Eu. cbn [mbind res_bind].
  go_on s i k Hs; [by apply (kq_other k)|].
  intros H R B O _. unfold held, hand, running, leaving, onstack. rewrite Hk. cbn [app kpc set_kpc self set_cur_status set_self option_list].
  intros Ht. apply tinv_on; [exact Ht|]. rewrite (ti_busy _ _ _ _ _ Ht). by apply (stack_free_spec s th u).
Qed.

Lemma jmp_direct_good s i k old th : sinv [] s -> ks s !! i = Some k -> kpc k = PJmpDirect old th -> stack_free th s = true ->
  good (start_thread i th k (upd_th old (fun u => set_stack_busy false (set_status (cur_status k) u)) s)).
Proof.
  intros Hs Hi Hk Hf. assert (Hko := kok_get _ _ _ _ Hs Hi). destruct Hko as [Hq Hl Hp Hr Hse Hpc]. rewrite Hk in Hl, Hp, Hr.
  destruct (running_exists [] s i k th Hs Hi) as (u & Eu & Hu); [unfold running; rewrite Hk; by left|].
  unfold start_thread, get_th. cbn [ths upd_th set_ths]. rewrite lookup_upd.
  assert (Hx : exists u', (if decide (th = old) then (fun u => set_stack_busy false (set_status (cur_status k) u)) <$> ths s !! old else ths s !! th) = Some u').
  { case_decide as Hd; [subst; rewrite Eu|rewrite Eu]; by eexists. }
  destruct Hx as [u' ->]. cbn [mbind res_bind].
  go_on s i k Hs; [by apply (kq_other k)|].
  intros H R B O _. unfold held, hand, running, leaving, onstack. rewrite Hk. cbn [app kpc set_kpc self set_cur_status set_self option_list].
  intros Ht. apply tinv_on; [by apply tinv_leave|]. intros Hb. apply (stack_free_spec s th u Eu Hf). apply (ti_busy _ _ _ _ _ Ht). by right.
Qed.

Lemma lock_sched_good s i k : sinv [] s -> ks s !! i = Some k -> kpc k = PLockSched -> good (Ok (at_pc i PSched (lock_own i k) s)).
Proof.
  intros Hs Hi Hk. assert (Hko := kok_get _ _ _ _ Hs Hi). destruct Hko as [Hq Hl Hp Hr Hse Hpc]. unfold self_ok in Hse. rewrite Hk in Hl, Hp, Hr, Hse.
  go_on s i k Hs; [by apply (kq_other k)|]. intros H R B O _.
  unfold held, hand, running, leaving, onstack. rewrite Hk. cbn [app kpc set_kpc]. change (self (set_kpc PSched (lock_own i k))) with (self k). by rewrite Hse.
Qed.

Lemma ceded_good s i k ch : sinv [] s -> ks s !! i = Some k -> kpc k = PCeded ->
  good (let k := rcu_add 1 (set_curr_cpu (c_cpu ch) k) in _ ← assert_rcu false k; Ok (at_pc i PSched (set_parked false (lock_own i k)) s)).
Proof.
  intros Hs Hi Hk. assert (Hko := kok_get _ _ _ _ Hs Hi). destruct Hko as [Hq Hl Hp Hr Hse Hpc]. unfold self_ok in Hse. rewrite Hk in Hl, Hp, Hr, Hse.
  cbv zeta. assert (Hev : Z.even (rcu_gen (rcu_add 1 (set_curr_cpu (c_cpu ch) k))) = false) by (by apply (rcu_add_1 true)).
  rewrite assert_rcu_ok by done. cbn [mbind res_bind].
  go_on s i k Hs; [by apply (kq_other k)|]. intros H R B O _.
  unfold held, hand, running, leaving, onstack. rewrite Hk. cbn [app kpc set_kpc]. change (self _) with (self k) at 1. cbn. by rewrite Hse.
Qed.

Lemma enter_pop_good s i k ch : sinv [] s -> ks s !! i = Some k -> kpc k = PEnterPop -> good (enter_pop i ch s).
Proof.
  intros Hs Hi Hk. assert (Hko := kok_get _ _ _ _ Hs Hi). destruct Hko as [Hq Hl Hp Hr Hse Hpc]. unfold self_ok in Hse. rewrite Hk in Hl, Hp, Hr, Hse.
  unfold enter_pop. rewrite (get_k_ok _ _ _ Hi). cbn [mbind res_bind]. destruct (self k) as [myth|] eqn:Es; [|done].
  assert (Hslow : forall k1, shrinks [] k k1 -> good (Ok (at_pc i PSched k1 (upd_th myth (set_status (cur_status k1)) s)))).
  { intros k1 (V & P & Q & E). injection V as V1 V2 V3 V4 V5 V6 V7. cbn [app] in E.
    go_on s i k Hs; [done|]. intros H R B O _.
    unfold held, hand, running, leaving, onstack. rewrite Hk. cbn [app kpc set_kpc]. rewrite queue_set_pc. change (self (set_kpc PSched k1)) with (self k1).
    rewrite V5, E. apply tinv_other. done. }
  cbv zeta. destruct (c_again ch); [apply Hslow; by split_and!|].
  destruct (pop_shrinks [] s i k k Hs Hi ltac:(done) Hq) as (r & k1 & -> & (V & P & Q & E) & _). cbn [mbind res_bind].
  destruct r as [th|]; [|apply Hslow; by split_and!]. injection V as V1 V2 V3 V4 V5 V6 V7. cbn [option_list app] in E.
  assert (Hev : Z.even (rcu_gen (rcu_add 2 (set_klock None k1))) = false).
  { rewrite rcu_even. cbn [rcu_gen set_klock]. rewrite V3, Z.even_add, Hr. done. }
  rewrite assert_rcu_ok by done. cbn [mbind res_bind]. case_bool_decide as Ht.
  - subst th. go_on s i k Hs; [by apply (kq_other k1)|].
    intros H R B O Ho. unfold held, hand, running, leaving, onstack. rewrite Hk, Es. cbn [app kpc set_kpc self rcu_add set_rcu_gen set_klock].
    rewrite V5, Es. change (queue (set_kpc PRun (rcu_add 2 (set_klock None k1)))) with (queue k1). rewrite E. cbn [option_list app]. intros Hti.
    assert (X := tinv_run _ _ _ _ _ _ Hti).
    apply (tinv_leave _ myth (set_stack_busy false)) in X; [|done].
    assert (N := ti_B _ _ _ _ _ Hti). apply list.NoDup_cons in N as [N _].
    apply (tinv_on _ _ _ _ _ myth) in X; [|done]. rewrite alter_alter_eq in X. done.
  - destruct (held_exists [] s th Hs) as (u & Eu & Hu).
    { apply (in_rest held s i k); [done|]. unfold held, hand. rewrite Hk. cbn [app]. rewrite E. by left. }
    rewrite (mark_running_ok s th u) by done. cbn [mbind res_bind].
    go_on s i k Hs; [by apply (kq_other k1)|].
    intros H R B O _. unfold held, hand, running, leaving, onstack. rewrite Hk, Es. cbn [app kpc set_kpc option_list].
    change (queue (set_kpc (PJmpDirect myth th) (rcu_add 2 (set_klock None k1)))) with (queue k1). rewrite E. cbn [app]. apply tinv_run.
Qed.

(** ** The calls *)

Lemma ready_grows th k : (exists hi lo, kq k hi lo) -> exists k', ready_on th k = Ok k' /\ grows [th] k k'.
Proof.
  intros (hi & lo & K). destruct (ready_on_ok th k hi lo K) as (k' & hi' & E & K' & P & F & _). exists k'. split; [done|].
  split_and!; [apply F|apply F|by eexists _, _|]. rewrite (krings_queue _ _ _ (kq_rings _ _ _ K')), (krings_queue _ _ _ (kq_rings _ _ _ K)).
  rewrite (Permutation_app_swap_app hi'), P. solve_Permutation.
Qed.

Lemma thread_ready_run s th j kj : ustate <$> ths s !! th = Some THREAD_STATE_SLEEPING -> ks s !! j = Some kj -> (exists hi lo, kq kj hi lo) ->
  exists k', thread_ready th j s = Ok (put_k j k' (upd_th th (set_ustate THREAD_STATE_RUNNABLE) s)) /\ grows [th] kj k'.
Proof.
  intros Hu Hj Hq. apply fmap_Some in Hu as (u & Eu & Hu). destruct (ready_grows th kj Hq) as (k' & E & G). exists k'. split; [|done].
  unfold thread_ready, get_th. rewrite Eu. cbn [mbind res_bind]. rewrite bool_decide_eq_true_2 by done. cbn [negb BUG_ON mbind res_bind].
  rewrite (get_k_ok _ _ kj) by done. cbn [mbind res_bind]. by rewrite E.
Qed.

Lemma ready_good s j kj th : sinv [] s -> ks s !! j = Some kj -> ustate <$> ths s !! th = Some THREAD_STATE_SLEEPING -> good (thread_ready th j s).
Proof.
  intros Hs Hj Hu. assert (Hk := kok_get _ _ _ _ Hs Hj). destruct (thread_ready_run s th j kj) as (k' & -> & G); auto; [apply Hk|].
  eexists. split; [reflexivity|]. apply (sinv_put [] [] s j kj k'); auto; [apply Hs|by apply (kok_grows _ j kj _ [th])|].
  intros H R B O _ Ht. cbn [app ths put_k set_ks upd_th set_ths]. destruct G as (V & _ & _ & Q). destruct (view_lists _ _ V) as (E1 & E2 & E3 & E4).
  unfold held in *. rewrite E1, E2, E3, E4, Q. apply (tinv_ready _ th) in Ht; [|done]. revert Ht. apply tinv_proper; [solve_Permutation|done..].
Qed.

(** The thread a kthread runs. *)
Lemma run_fields n i k : kok n i k -> match kpc k with PRun | PYield | PCede => True | _ => False end ->
  exists t, self k = Some t /\ klock k = None /\ parked k = false /\ Z.even (rcu_gen k) = false /\
    held k = queue k /\ running k = [t] /\ leaving k = [] /\ onstack k = [t].
Proof.
  intros [Hq Hl Hp Hr Hse Hpc] Hk. unfold self_ok, held, hand, running, leaving, onstack in *.
  destruct (self k) as [t|] eqn:Es; [|by destruct (kpc k)]. exists t. by destruct (kpc k).
Qed.

Lemma sleep_self_ok s i k t b : sinv [] s -> ks s !! i = Some k -> running k = [t] -> self k = Some t -> sleep_self b k s = Ok (t, go_sleep b k t s).
Proof.
  intros Hs Hi Hr Hse. destruct (running_exists [] s i k t Hs Hi) as (u & Eu & Hu); [rewrite Hr; by left|].
  unfold sleep_self, get_th. rewrite Hse, Eu. cbn [mbind res_bind]. by rewrite bool_decide_eq_true_2.
Qed.

Lemma not_on T H R B O t : tinv T H (t :: R) B (t :: O) -> (forall t', t' ∈ O -> t' ∈ R) -> t ∉ O.
Proof. intros Ht Ho Hin. assert (N := ti_R _ _ _ _ _ Ht). apply list.NoDup_cons in N as [N _]. by apply N, Ho. Qed.

(** [go_sleep] of a thread on its stack. *)
Lemma tinv_go_sleep s k t H R B O : (forall t', t' ∈ O -> t' ∈ R) -> tinv (ths s) H (t :: R) B (t :: O) ->
  tinv (ths (go_sleep true k t s)) H R (t :: B) O /\ ustate <$> ths (go_sleep true k t s) !! t = Some THREAD_STATE_SLEEPING.
Proof. intros Ho Ht. apply tinv_park; [done|done|]. by eapply not_on. Qed.

Lemma sleeping s i k t b : sinv [] s -> ks s !! i = Some k -> running k = [t] -> ustate <$> ths (go_sleep b k t s) !! t = Some THREAD_STATE_SLEEPING.
Proof.
  intros Hs Hi Hr. destruct (running_exists [] s i k t Hs Hi) as (u & Eu & Hu); [rewrite Hr; by left|].
  cbn [ths go_sleep upd_th set_ths]. by rewrite lookup_alter_eq, Eu.
Qed.

Lemma park_good s i k t : sinv [] s -> ks s !! i = Some k -> kpc k = PRun -> self k = Some t ->
  good ('(_, s) ← sleep_self true k s; goto i PEnter s).
Proof.
  intros Hs Hi Hk Hse. assert (Hko := kok_get _ _ _ _ Hs Hi). destruct (run_fields _ i k Hko) as (t' & Es & L1 & L2 & L3 & E1 & E2 & E3 & E4); [by rewrite Hk|].
  assert (t' = t) as -> by congruence. rewrite (sleep_self_ok s i k t true) by done. cbn [mbind res_bind].
  rewrite (goto_ok _ _ k) by done. go_on s i k Hs; [apply Hko|]. intros H R B O Ho. rewrite E1, E2, E3, E4. cbn [app].
  unfold held, hand, running, leaving, onstack. cbn [app kpc set_kpc]. change (self (set_kpc PEnter k)) with (self k). rewrite Es, queue_set_pc. cbn [option_list app].
  intros Ht. by apply (tinv_go_sleep s k t) in Ht as [Ht _].
Qed.

Lemma kpc_grows add k k' : grows add k k' -> kpc k' = kpc k /\ self k' = self k /\ klock k' = klock k /\ parked k' = parked k /\ rcu_gen k' = rcu_gen k.
Proof. intros (V & _). by injection V as V1 V2 V3 V4 V5 V6 V7. Qed.

Lemma yield_good s i k : sinv [] s -> ks s !! i = Some k -> kpc k = PYield ->
  good ('(t, s) ← sleep_self true k s; s ← thread_ready t i s; goto i PEnter s).
Proof.
  intros Hs Hi Hk. assert (Hko := kok_get _ _ _ _ Hs Hi). destruct (run_fields _ i k Hko) as (t & Es & L1 & L2 & L3 & E1 & E2 & E3 & E4); [by rewrite Hk|].
  rewrite (sleep_self_ok s i k t true) by done. cbn [mbind res_bind]. assert (Hsl := sleeping s i k t true Hs Hi E2).
  destruct (thread_ready_run (go_sleep true k t s) t i k) as (k' & -> & G); [done|done|apply Hko|]. cbn [mbind res_bind].
  rewrite (goto_ok _ _ k') by (by apply (ks_put _ i k)). unfold at_pc. rewrite put_put.
  destruct (kpc_grows _ _ _ G) as (V1 & V2 & V3 & V4 & V5). fold (at_pc i PEnter k' (upd_th t (set_ustate THREAD_STATE_RUNNABLE) (go_sleep true k t s))).
  go_on s i k Hs; [apply G|]. intros H R B O Ho. rewrite E1, E2, E3, E4. cbn [app].
  unfold held, hand, running, leaving, onstack. cbn [app kpc set_kpc]. change (self (set_kpc PEnter k')) with (self k'). rewrite V2, Es, queue_set_pc. cbn [option_list app].
  destruct G as (_ & _ & _ & ->). intros Ht. apply (tinv_go_sleep s k t) in Ht as [Ht Hs']; [|done]. apply (tinv_ready _ t) in Ht; [|done].
  revert Ht. apply tinv_proper; [solve_Permutation|done..].
Qed.

Lemma switch_good s i k th : sinv [] s -> ks s !! i = Some k -> kpc k = PRun -> ustate <$> ths s !! th = Some THREAD_STATE_SLEEPING ->
  good (match self k with
        | None => Bug
        | Some t => s ← thread_ready t i (go_sleep true k t s);
                    s ← mark_running th (upd_th th (set_ustate THREAD_STATE_RUNNABLE) s); goto i (PJmpDirect t th) s
        end).
Proof.
  intros Hs Hi Hk Hth. assert (Hko := kok_get _ _ _ _ Hs Hi). destruct (run_fields _ i k Hko) as (t & Es & L1 & L2 & L3 & E1 & E2 & E3 & E4); [by rewrite Hk|].
  rewrite Es. assert (Hsl := sleeping s i k t true Hs Hi E2).
  destruct (running_exists [] s i k t Hs Hi) as (u & Eu & Hu); [rewrite E2; by left|].
  assert (Hne : th <> t) by (intros ->; rewrite Eu in Hth; cbn in Hth; congruence).
  destruct (thread_ready_run (go_sleep true k t s) t i k) as (k' & -> & G); [done|done|apply Hko|]. cbn [mbind res_bind].
  destruct (kpc_grows _ _ _ G) as (V1 & V2 & V3 & V4 & V5). assert (Hth' := Hth). apply fmap_Some in Hth as (v & Ev & Hv).
  rewrite (mark_running_ok _ th (set_ustate THREAD_STATE_RUNNABLE v));
    [|cbn [ths upd_th set_ths put_k set_ks go_sleep]; rewrite lookup_alter_eq, !lookup_alter_ne by done; by rewrite Ev|done]. cbn [mbind res_bind].
  rewrite (goto_ok _ _ k') by (by apply (ks_put _ i k)).
  set (s1 := upd_th th (set_ustate THREAD_STATE_RUNNING) (upd_th th (set_ustate THREAD_STATE_RUNNABLE) (upd_th t (set_ustate THREAD_STATE_RUNNABLE) (go_sleep true k t s)))).
  assert (Eat : at_pc i (PJmpDirect t th) k' (upd_th th (set_ustate THREAD_STATE_RUNNING) (upd_th th (set_ustate THREAD_STATE_RUNNABLE)
    (put_k i k' (upd_th t (set_ustate THREAD_STATE_RUNNABLE) (go_sleep true k t s))))) = at_pc i (PJmpDirect t th) k' s1)
    by (unfold s1, at_pc, put_k, upd_th, set_ths, set_ks; cbn; by rewrite list_insert_insert_eq).
  rewrite Eat. go_on s i k Hs; [apply G|]. intros H R B O Ho. rewrite E1, E2, E3, E4. cbn [app].
  unfold held, hand, running, leaving, onstack. cbn [app kpc set_kpc]. rewrite queue_set_pc. destruct G as (_ & _ & _ & ->).
  intros Ht. apply (tinv_go_sleep s k t) in Ht as [Ht Hs']; [|done]. apply (tinv_ready _ t) in Ht; [|done]. apply (tinv_ready _ th) in Ht;
    [|cbn [ths upd_th set_ths go_sleep]; rewrite !lookup_alter_ne by done; exact Hth'].
  apply tinv_run in Ht. revert Ht. apply tinv_proper; [solve_Permutation|done..].
Qed.

Lemma cede_good s i k : sinv [] s -> ks s !! i = Some k -> kpc k = PCede -> good (cede i k s).
Proof.
  intros Hs Hi Hk. assert (Hko := kok_get _ _ _ _ Hs Hi). destruct (run_fields _ i k Hko) as (t & Es & L1 & L2 & L3 & E1 & E2 & E3 & E4); [by rewrite Hk|].
  unfold cede. rewrite (sleep_self_ok s i k t false) by done. cbn [mbind res_bind]. assert (Hsl := sleeping s i k t false Hs Hi E2).
  destruct (thread_ready_run (go_sleep false k t s) t i k) as (k' & -> & G); [done|done|apply Hko|]. cbn [mbind res_bind].
  destruct (kpc_grows _ _ _ G) as (V1 & V2 & V3 & V4 & V5).
  rewrite (get_k_ok _ _ k') by (by apply (ks_put _ i k)). cbn [mbind res_bind].
  assert (Hev : Z.even (rcu_gen (rcu_add 1 (set_self None k'))) = true) by (apply (rcu_add_1 false); cbn; by rewrite V5).
  rewrite assert_rcu_ok by done. cbn [mbind res_bind].
  set (s1 := upd_th t (set_status (cur_status k)) (upd_th t (set_ustate THREAD_STATE_RUNNABLE) (go_sleep false k t s))).
  set (k2 := set_parked true _).
  assert (Eat : at_pc i PCeded k2 (upd_th t (set_status (cur_status k)) (put_k i k' (upd_th t (set_ustate THREAD_STATE_RUNNABLE) (go_sleep false k t s)))) = at_pc i PCeded k2 s1)
    by (unfold s1, at_pc, put_k, upd_th, set_ths, set_ks; cbn; by rewrite list_insert_insert_eq).
  rewrite Eat. go_on s i k Hs; [apply (kq_other k'); [apply G|done]|]. intros H R B O Ho. rewrite E1, E2, E3, E4. cbn [app].
  unfold held, hand, running, leaving, onstack. cbn [app kpc set_kpc]. rewrite queue_set_pc. change (queue k2) with (queue k'). destruct G as (_ & _ & _ & ->).
  intros Ht. apply tinv_other; [done|]. apply (tinv_off _ _ _ _ _ O) in Ht; [|intros; by right].
  apply (tinv_sleep _ t (fun u => set_last_cpu (curr_cpu k) (set_stack_busy (stack_busy u) (set_ustate THREAD_STATE_SLEEPING u)))) in Ht as [Ht Hs']; [|done].
  apply (tinv_ready _ t) in Ht; [|done]. revert Ht. apply tinv_proper; [solve_Permutation|done..].
Qed.

Lemma exit_good s i k t : sinv [] s -> ks s !! i = Some k -> kpc k = PRun -> self k = Some t ->
  good (Ok (at_pc i PLockSched (set_self None k) (set_ths (delete t (ths s)) s))).
Proof.
  intros Hs Hi Hk Hse. assert (Hko := kok_get _ _ _ _ Hs Hi). destruct (run_fields _ i k Hko) as (t' & Es & L1 & L2 & L3 & E1 & E2 & E3 & E4); [by rewrite Hk|].
  assert (t' = t) as -> by congruence. go_on s i k Hs; [apply (kq_other k); [apply Hko|done]|]. intros H R B O Ho. rewrite E1, E2, E3, E4. cbn [app].
  intros Ht. apply (tinv_delete _ t) in Ht; [done|]. by eapply not_on.
Qed.

Lemma same_good s i k k1 p s1 : sinv [] s -> ks s !! i = Some k -> kpc k = PRun -> match p with PRun | PYield | PCede => True | _ => False end ->
  kview k1 = kview k \/ (exists st, k1 = set_cur_status st k) -> queue k1 = queue k -> (exists hi lo, kq k1 hi lo) -> ks s1 = ks s ->
  global_prioritizing s1 = global_prioritizing s -> global_status s1 = global_status s ->
  (forall H R B O, tinv (ths s) H R B O -> tinv (ths s1) H R B O) -> good (Ok (at_pc i p k1 s1)).
Proof.
  intros Hs Hi Hk Hp Hv Hq Hkq Eks Eg1 Eg2 Hti. assert (Hko := kok_get _ _ _ _ Hs Hi).
  destruct (run_fields _ i k Hko) as (t & Es & L1 & L2 & L3 & E1 & E2 & E3 & E4); [by rewrite Hk|].
  assert (Hx : self k1 = self k /\ klock k1 = klock k /\ parked k1 = parked k /\ rcu_gen k1 = rcu_gen k).
  { destruct Hv as [V|[st ->]]; [by injection V as V1 V2 V3 V4 V5 V6 V7|done]. }
  destruct Hx as (X1 & X2 & X3 & X4). apply (good_at s i k); auto; [rewrite Eg1, Eg2; apply Hs|rewrite X2, L1; by destruct p|rewrite X3, L2; by destruct p|
    rewrite X4, L3; by destruct p|unfold self_ok; cbn; rewrite X1, Es; by destruct p|by destruct p|].
  intros H R B O _. rewrite E1, E2, E3, E4. cbn [app]. unfold held, hand, running, leaving, onstack. cbn [kpc set_kpc]. rewrite queue_set_pc, Hq.
  change (self (set_kpc p k1)) with (self k1). rewrite X1, Es. intros Ht. apply Hti in Ht. by destruct p.
Qed.

Lemma steal_yield_good s i k r kr ch : sinv [] s -> ks s !! i = Some k -> kpc k = PRun -> ks s !! r = Some kr -> parked kr = true -> fresh (c_rsoft ch) s ->
  good ('(_, s) ← steal_work i r false (c_rsoft ch) (put_k i (set_klock (Some i) k) s); k ← get_k i s; Ok (at_pc i PYield (set_klock None k) s)).
Proof.
  intros Hs Hi Hk Hr Hp Hf. assert (Hko := kok_get _ _ _ _ Hs Hi). destruct (run_fields _ i k Hko) as (t & Es & L1 & L2 & _); [by rewrite Hk|].
  assert (Hne : i <> r) by (intros <-; congruence).
  destruct (steal_work_ok i r None (set_klock (Some i) k) kr false (c_rsoft ch) (put_k i (set_klock (Some i) k) s)) as (b & s' & k' & -> & Hst & Hv & _).
  - split_and!; [by apply (ks_put _ i k)|done|]. rewrite put_put.
    assert (E : set_klock None (set_klock (Some i) k) = k) by (destruct k; cbn in *; by subst). rewrite E. unfold put_k. rewrite list_insert_id by done. by destruct s.
  - cbn. by rewrite list_lookup_insert_ne.
  - done.
  - done.
  - cbn [mbind res_bind]. destruct Hst as (Hi' & _ & Hs'). rewrite (get_k_ok _ _ k') by done. cbn [mbind res_bind].
    injection Hv as V1 V2 V3 V4 V5 V6 V7. assert (Hi2 := ks_put _ _ _ (set_klock None k') Hi').
    assert (Eat : at_pc i PYield (set_klock None k') s' = at_pc i PYield (set_klock None k') (put_k i (set_klock None k') s')) by (unfold at_pc; by rewrite put_put).
    rewrite Eat. apply (same_good (put_k i (set_klock None k') s') i (set_klock None k')); auto; [by rewrite <- Hk|]. apply (kok_get _ _ _ _ Hs' Hi2).
Qed.

(** ** Every step *)

(** What the callers and the environment have to respect: threads are woken while they
    sleep, new threads are new, indices are those of kthreads, a status that is
    prioritized is not 0. *)
Definition call_ok (c : call) (s : sys) : Prop :=
  match c with
  | CReady th | CReadyRr th _ | CSwitch th => ustate <$> ths s !! th = Some THREAD_STATE_SLEEPING
  | CCreate th => ths s !! th = None
  | CPrioritize st => st <> 0
  | _ => True
  end.

Definition choice_ok (ch : choice) (s : sys) : Prop :=
  fresh (c_soft ch) s /\ fresh (c_rsoft ch) s /\ (forall r, c_sib ch = Some r -> is_Some (ks s !! r)).

Definition act_ok (i : nat) (a : action) (s : sys) : Prop :=
  match a with
  | Call c ch => call_ok c s /\ choice_ok ch s /\ (forall th st, c = CSetTh th st -> self <$> ks s !! i <> Some (Some th))
  | Go ch => choice_ok ch s
  end.

Definition fine (o : outcome) : Prop := match o with None => True | Some r => good r end.

Lemma call_fine i s k c ch : sinv [] s -> ks s !! i = Some k -> kpc k = PRun -> act_ok i (Call c ch) s -> fine (run_call i c ch k s).
Proof.
  intros Hs Hi Hk (Hc & (Hf & Hf' & _) & Hst). assert (Hko := kok_get _ _ _ _ Hs Hi).
  destruct (run_fields _ i k Hko) as (t & Es & L1 & L2 & _); [by rewrite Hk|].
  destruct c as [th|th j|th| |r|th| | |st|th st|st|]; cbn [run_call call_ok] in *;
    unfold thread_ready_rr, thread_yield, thread_cede, thread_finish_exit, set_th_status, set_self_th_status.
  - destruct (lock_free k); [|done]. by apply (ready_good s i k).
  - destruct (ks s !! j) as [kj|] eqn:Ej; [|done]. destruct (_ && _); [|done]. by apply (ready_good s j kj).
  - eexists. split; [reflexivity|]. destruct Hs as [H1 H2 H3]. split; [exact H1| |exact H3]. by apply tinv_create.
  - by apply (park_good s i k t).
  - destruct (ks s !! r) as [kr|] eqn:Er; [|done]. destruct (c_skip ch || negb (parked kr)) eqn:E.
    + cbn [fine]. rewrite (goto_ok _ _ _ _ Hi). apply (same_good s i k); auto. apply Hko.
    + apply orb_false_iff in E as [_ E]. apply negb_false_iff in E. destruct (negb (lock_free k)); [done|]. by apply (steal_yield_good s i k r kr).
  - destruct (lock_free k); [|done]. by apply (switch_good s i k th).
  - rewrite Es. cbn [fine]. apply (same_good s i k); auto; [apply Hko|]. intros. by apply tinv_other.
  - rewrite Es. case_bool_decide; [|done]. by apply (exit_good s i k t).
  - cbn [fine]. assert (E : put_k i (set_cur_status st k) s = at_pc i PRun (set_cur_status st k) s)
      by (unfold at_pc; f_equal; destruct k; cbn in *; by subst).
    rewrite E. apply (same_good s i k); auto; [right; by eexists|]. apply (kq_other k); [apply Hko|done].
  - rewrite bool_decide_eq_false_2 by (intros E; apply (Hst th st eq_refl); by rewrite Hi, <- E). cbn.
    eexists. split; [reflexivity|]. destruct Hs as [H1 H2 H3]. split; [exact H1| |exact H3]. by apply tinv_other.
  - eexists. split; [reflexivity|]. destruct Hs as [H1 H2 H3]. by split.
  - eexists. split; [reflexivity|]. destruct Hs as [H1 H2 H3]. by split.
Qed.

Lemma step_fine i a s : sinv [] s -> act_ok i a s -> fine (step i a s).
Proof.
  intros Hs Ha. unfold step. destruct (ks s !! i) as [k|] eqn:Hi; [|done]. assert (Hko := kok_get _ _ _ _ Hs Hi).
  destruct a as [c ch|ch]; [destruct (kpc k) eqn:Hk; try done; try (by destruct l); by apply call_fine|]. destruct Ha as (Hf & Hf' & Hsib).
  destruct (kpc k) as [| | |c m l| | | | |l| |l| | |th|th|old th| | |] eqn:Hk; try done.
  - destruct (lock_free k); [|done]. by apply yield_good.
  - destruct (lock_free k); [|done]. by apply enter_good.
  - destruct l as [|j l]; [by apply (scope_end_good s i k c m)|by apply (scope_step_good s i k)].
  - by apply (enter_pop_good s i k).
  - by apply (schedule_enter_good s i k).
  - by apply (schedule_top_good s i k).
  - by apply (schedule_again_good s i k).
  - assert (Hpc := ko_pc _ _ _ Hko). unfold pc_ok in Hpc. rewrite Hk in Hpc. assert (Hsp : sched_pc (kpc k) = true) by (by rewrite Hk). destruct l as [|r l].
    + cbn [fine]. destruct (c_soft ch) as [th|]; cbn [softirq_run_thread done_or];
        [apply (good_soft s i k th (curr_cpu k)); auto|apply (good_move s i k); auto; [apply Hko|done]].
    + destruct (lookup_lt_is_Some_2 _ _ (Forall_inv Hpc)) as [kr Hr]. cbn [fine]. apply (steal_and_pop_good s i k r kr); auto.
      exists l. split; [done|by apply Forall_inv_tail in Hpc].
  - by apply (schedule_low_good s i k).
  - assert (Hpc := ko_pc _ _ _ Hko). unfold pc_ok in Hpc. rewrite Hk in Hpc. destruct Hpc as [Hp Hpc]. assert (Hsp : sched_pc (kpc k) = true) by (by rewrite Hk). destruct l as [|r l].
    + cbn [fine]. apply (good_move s i k); auto; [apply Hko|done].
    + destruct (lookup_lt_is_Some_2 _ _ (Forall_inv Hpc)) as [kr Hr]. cbn [fine]. by apply (steal_lp_and_pop_good s i k r l kr).
  - by apply (schedule_poll_good s i k).
  - destruct (lock_free k); [|done]. by apply parked_good.
  - by apply (schedule_done_good s i k).
  - destruct (stack_free th s) eqn:E; [|done]. by apply jmp_good.
  - destruct (stack_free th s) eqn:E; [|done]. by apply jmp_direct_good.
  - destruct (lock_free k); [|done]. by apply cede_good.
  - destruct (lock_free k); [|done]. by apply ceded_good.
  - destruct (lock_free k); [|done]. by apply lock_sched_good.
Qed.
