(* ===== verification/RtThms.v ===== *)
(** * What the scheduler of user-level threads guarantees *)

From S2P Require Import Prelude Stddef RtState RtSched RtQueue RtMach RtInv RtSteps RtCalls.

(** ** The invariant holds *)

Lemma allock_ring : ring (replicate 32 None) 0 0 [].
Proof. apply ring_nil; done. Qed.

Lemma allock_kq : kq allock [] [].
Proof. split; [split; apply allock_ring|done..]. Qed.

(** A kthread that has not begun. *)
Definition idle (k : kthread) : Prop :=
  (exists hi lo, kq k hi lo) /\ klock k = None /\ parked k = false /\ self k = None /\ kpc k = PLockSched.

Lemma start_kok n i cpu k : idle k -> kok n i (schedule_start cpu k).
Proof. intros (Hq & H1 & H2 & H3 & H4). apply kok_at; try done. by apply (kq_other k). Qed.

Lemma start_idle cpu k : idle k -> idle (schedule_start cpu k).
Proof. intros (Hq & H1 & H2 & H3 & H4). split_and!; auto. by apply (kq_other k). Qed.

Lemma tinv_empty : tinv ∅ [] [] [] [].
Proof.
  split; [apply base.NoDup_nil_2..| | | |]; intros t; [split; [by intros ?%elem_of_nil|by rewrite lookup_empty]..|by intros ?%elem_of_nil].
Qed.

Lemma idle_lists k : idle k -> held k = queue k /\ running k = [] /\ leaving k = [] /\ onstack k = [].
Proof. intros (_ & _ & _ & _ & E). unfold held, hand, running, leaving, onstack. by rewrite E. Qed.

Lemma all_nil f (l : list kthread) : (forall k, k ∈ l -> f k = []) -> concat (map f l) = ([] : list nat).
Proof. induction l as [|k l IH]; intros H; [done|]. cbn. rewrite (H k) by (by left). apply IH. intros k' Hk'. apply H. by right. Qed.

Lemma zip_start_in (cpus : list Z) l k : k ∈ zip_with schedule_start cpus l -> exists c k0, k = schedule_start c k0 /\ k0 ∈ l.
Proof.
  revert l. induction cpus as [|c cpus IH]; intros [|k0 l]; cbn; try (by intros []%elem_of_nil).
  intros [->|Hin]%elem_of_cons; [exists c, k0; split; [done|by left]|]. destruct (IH l Hin) as (c' & k' & -> & Hk). exists c', k'. split; [done|by right].
Qed.

Lemma reach_sinv ok s : (forall i a s, ok i a s -> act_ok i a s) -> reach ok s -> sinv [] s.
Proof.
  intros Hok. induction 1 as [th cpu cpus s Hs|i a s s' Hr IH Ha Hst].
  - unfold runtime_start, thread_spawn_main in Hs. destruct cpus as [|c cpus].
    { unfold thread_ready, get_th in Hs. cbn in Hs. rewrite lookup_alter_eq, lookup_insert_eq in Hs. by cbn in Hs. }
    cbn [map] in Hs. set (s0 := Sys ∅ (allock :: map (fun _ => allock) cpus) false 0) in *.
    destruct (thread_ready_run (upd_th th (fun u => set_last_cpu cpu (set_main_thread true u)) (thread_create th 0 s0)) th 0 allock) as (k' & E & G).
    { cbn. by rewrite lookup_alter_eq, lookup_insert_eq. }
    { done. }
    { eexists _, _. apply allock_kq. }
    rewrite E in Hs. injection Hs as <-. destruct (kpc_grows _ _ _ G) as (V1 & V2 & V3 & V4 & V5).
    assert (Hk' : idle k') by (split_and!; [apply G|done..]).
    assert (Hal : idle allock) by (split_and!; [eexists _, _; apply allock_kq|done..]).
    assert (Hrest : forall k, k ∈ zip_with schedule_start cpus (map (fun _ => allock) cpus) -> exists c', k = schedule_start c' allock).
    { intros k (c' & k0 & -> & Hk0)%zip_start_in. exists c'. apply list_elem_of_fmap in Hk0 as (? & -> & _). done. }
    set (rs := zip_with schedule_start cpus (map (fun _ => allock) cpus)) in *. split; [|..|done].
    + cbn [ks set_ks put_k insert list_insert zip_with]. fold rs. intros [|i] k; cbn [lookup list_lookup]; [intros [= <-]; by apply start_kok|].
      intros Hk. apply list_elem_of_lookup_2 in Hk. destruct (Hrest k Hk) as [c' ->]. by apply start_kok.
    + unfold all. cbn [ks set_ks put_k insert list_insert zip_with map concat]. fold rs. rewrite !(all_nil _ rs), !app_nil_r.
      2-5: intros k Hk; destruct (Hrest k Hk) as [c' ->]; done.
      destruct (idle_lists (schedule_start c k')) as (-> & -> & -> & ->); [by apply start_idle|].
      cbn [app ths put_k set_ks upd_th set_ths]. change (queue (schedule_start c k')) with (queue k'). destruct G as (_ & _ & _ & ->).
      change (queue allock) with (@nil nat). apply tinv_ready; [|cbn; by rewrite lookup_alter_eq, lookup_insert_eq].
      apply tinv_other; [done|]. apply tinv_create; [apply tinv_empty|done..].
  - assert (F := step_fine i a s IH (Hok _ _ _ Ha)). rewrite Hst in F. destruct F as (s'' & [= <-] & H). done.
Qed.

(** ** Threads and kthreads *)

(** How often [t] is in [l]. *)
Definition occ (t : nat) (l : list nat) : nat := length (filter (fun x => x = t) l).

Lemma occ_nodup t l : NoDup l -> occ t l = if bool_decide (t ∈ l) then 1%nat else 0%nat.
Proof.
  unfold occ. induction l as [|x l IH]; intros Hn; [done|]. apply list.NoDup_cons in Hn as [Hx Hn]. rewrite filter_cons. specialize (IH Hn).
  destruct (decide (x = t)) as [->|Hne]; cbn [length]; rewrite IH.
  - rewrite bool_decide_eq_false_2 by done. by rewrite bool_decide_eq_true_2 by (by left).
  - rewrite (bool_decide_ext (t ∈ x :: l) (t ∈ l)); [done|]. rewrite elem_of_cons. intuition congruence.
Qed.

(** C8. In every reachable state each user-level thread is in exactly one place: a
    runnable one is once in one queue of one kthread (or just taken out by [schedule]),
    a running one is run by exactly one kthread, a sleeping one and one that has ended
    are nowhere.  No thread is lost or duplicated, whatever the interleaving of
    wake-ups, yields, steals from parked or busy kthreads, overflow of the rings and
    changes of the prioritized status. *)
Theorem rt_threads_accounted s : reach act_ok s -> forall t,
  occ t (all held s) = (if decide (ustate <$> ths s !! t = Some THREAD_STATE_RUNNABLE) then 1 else 0)%nat /\
  occ t (all running s) = (if decide (ustate <$> ths s !! t = Some THREAD_STATE_RUNNING) then 1 else 0)%nat.
Proof.
  intros Hr t. destruct (sn_t _ _ (reach_sinv act_ok s ltac:(done) Hr)) as [H1 H2 H3 H4 H5 _ _]. cbn [app] in *.
  rewrite !occ_nodup by done. split; [rewrite (bool_decide_ext _ _ (H4 t))|rewrite (bool_decide_ext _ _ (H5 t))]; by case_decide; case_bool_decide.
Qed.

(** C16. In every reachable state no step of any kthread fails an assertion of the
    scheduler: the lock of the queue is held where the code relies on it, a kthread in
    [schedule] is not parked, a thread that is woken sleeps and one that is run is
    runnable, no ring is overrun, a queue that is reset is empty, and the RCU
    generation is even in the scheduler and odd in a thread. *)
Theorem rt_never_faults s i a : reach act_ok s -> act_ok i a s -> step i a s <> Some Bug.
Proof.
  intros Hr Ha E. assert (F := step_fine i a s (reach_sinv act_ok s ltac:(done) Hr) Ha). rewrite E in F. by destruct F as (s' & ? & _).
Qed.

(** C14. Stacks are exclusive: in every reachable state, if a kthread executes on the
    stack of a thread, no other kthread does, and none is still about to leave that
    stack after the thread went to sleep there.  This is what [stack_busy] is for: a
    thread that is woken while its old kthread still switches away can be stolen and
    chosen, but not run. *)
Theorem rt_stacks_exclusive s i j ki kj t : reach act_ok s -> ks s !! i = Some ki -> ks s !! j = Some kj -> t ∈ onstack ki ->
  (t ∉ leaving kj) /\ (i <> j -> t ∉ onstack kj).
Proof.
  intros Hr Hi Hj Ht. assert (Hs := sn_t _ _ (reach_sinv act_ok s ltac:(done) Hr)). split.
  - intros Hl. apply (ti_on _ _ _ _ _ Hs t); [by apply (in_rest onstack s i ki)|by apply (in_rest leaving s j kj)].
  - intros Hne Ho. apply onstack_running in Ht, Ho. assert (N := ti_R _ _ _ _ _ Hs). rewrite (all_rest running s i ki Hi) in N.
    apply list.NoDup_app in N as (_ & N & _). apply (N t Ht). unfold rest. apply elem_of_app.
    assert (Hin : forall l, kj ∈ l -> t ∈ concat (map running l)).
    { intros l Hl. apply elem_of_concat. exists (running kj). split; [done|]. by apply list_elem_of_fmap_2. }
    destruct (decide (j < i)%nat) as [Hlt|Hge]; [left|right]; apply Hin.
    + apply list_elem_of_lookup_2 with j. by rewrite lookup_take_lt.
    + apply list_elem_of_lookup_2 with (j - S i)%nat. rewrite lookup_drop. rewrite <- Hj. f_equal. lia.
Qed.

(** ** A run *)

Definition fresh_b (soft : option nat) (s : sys) : bool := match soft with Some th => bool_decide (ths s !! th = None) | None => true end.

Definition call_okb (c : call) (s : sys) : bool :=
  match c with
  | CReady th | CReadyRr th _ | CSwitch th => bool_decide (ustate <$> ths s !! th = Some THREAD_STATE_SLEEPING)
  | CCreate th => bool_decide (ths s !! th = None)
  | CPrioritize st => negb (st =? 0)
  | _ => true
  end.

Definition choice_okb (ch : choice) (s : sys) : bool :=
  fresh_b (c_soft ch) s && fresh_b (c_rsoft ch) s &&
  match c_sib ch with Some r => bool_decide (r < length (ks s))%nat | None => true end.

Definition act_okb (i : nat) (a : action) (s : sys) : bool :=
  match a with
  | Call c ch => call_okb c s && choice_okb ch s &&
      match c with CSetTh th _ => negb (bool_decide (self <$> ks s !! i = Some (Some th))) | _ => true end
  | Go ch => choice_okb ch s
  end.

Lemma choice_okb_ok ch s : choice_okb ch s = true -> choice_ok ch s.
Proof.
  unfold choice_okb, choice_ok, fresh, fresh_b. intros [[H1 H2]%andb_true_iff H3]%andb_true_iff. split_and!.
  - intros th E. rewrite E in H1. by apply bool_decide_eq_true in H1.
  - intros th E. rewrite E in H2. by apply bool_decide_eq_true in H2.
  - intros r E. rewrite E in H3. apply bool_decide_eq_true in H3. by apply lookup_lt_is_Some_2.
Qed.

Lemma act_okb_ok i a s : act_okb i a s = true -> act_ok i a s.
Proof.
  destruct a as [c ch|ch]; cbn; [|apply choice_okb_ok]. intros [[H1 H2%choice_okb_ok]%andb_true_iff H3]%andb_true_iff. split_and!; [|done|].
  - destruct c; cbn in *; try done; try (by apply bool_decide_eq_true in H1). apply negb_true_iff in H1. by apply Z.eqb_neq in H1.
  - intros th st ->. apply negb_true_iff in H3. by apply bool_decide_eq_false in H3.
Qed.

Fixpoint trace (l : list (nat * action)) (s : sys) : option sys :=
  match l with
  | [] => Some s
  | (i, a) :: l => if act_okb i a s then match step i a s with Some (Ok s') => trace l s' | _ => None end else None
  end.

Lemma trace_reach l : forall s s', reach act_ok s -> trace l s = Some s' -> reach act_ok s'.
Proof.
  induction l as [|[i a] l IH]; cbn; intros s s' Hr Ht; [by injection Ht as <-|]. destruct (act_okb i a s) eqn:E; [|done].
  destruct (step i a s) as [[s1|]|] eqn:Es; [|done..]. apply (IH s1); [|done]. apply (reach_step _ i a s); [done|by apply act_okb_ok|done].
Qed.

Definition ch0 : choice := Choice false None None false None 0 0.
Definition go (i : nat) : nat * action := (i, Go ch0).
Definition calls (i : nat) (c : call) : nat * action := (i, Call c ch0).

(** Two kthreads; the main thread 7 runs on the first and makes 8 and 9, the second
    steals 8. *)
Definition demo_trace : list (nat * action) :=
  [go 0; go 0; go 0; go 0; go 0; calls 0 (CCreate 8); calls 0 (CReady 8); calls 0 (CCreate 9);
   go 1; go 1; go 1; go 1; go 1; go 1; go 1; calls 0 (CReady 9)]%nat.

Definition demo_start : sys := match runtime_start 7 0 [0; 1] with Ok s => s | Bug => Sys ∅ [] false 0 end.
Definition demo : sys := match trace demo_trace demo_start with Some s => s | None => demo_start end.

Lemma demo_reach : reach act_ok demo.
Proof.
  apply (trace_reach demo_trace demo_start); [|by vm_compute]. apply (reach_start _ 7 0 [0; 1]). by vm_compute.
Qed.

Lemma rt_threads_accounted_witness :
  occ 8 (all held demo) = 0%nat /\ occ 8 (all running demo) = 1%nat /\ occ 9 (all held demo) = 1%nat /\ occ 9 (all running demo) = 0%nat.
Proof.
  destruct (rt_threads_accounted demo demo_reach 8) as [H1 H2]. destruct (rt_threads_accounted demo demo_reach 9) as [H3 H4].
  rewrite H1, H2, H3, H4. by vm_compute.
Defined.

Definition demo_k (i : nat) : kthread := default allock (ks demo !! i).

Lemma rt_never_faults_witness : act_ok 0 (Call CPark ch0) demo /\ step 0 (Call CPark ch0) demo <> Some Bug.
Proof.
  assert (Ha : act_ok 0 (Call CPark ch0) demo) by (apply act_okb_ok; by vm_compute).
  split; [exact Ha|]. exact (rt_never_faults demo 0 (Call CPark ch0) demo_reach Ha).
Defined.

Lemma rt_stacks_exclusive_witness : onstack (demo_k 0) = [7%nat] /\ (7%nat ∉ leaving (demo_k 1)) /\ (7%nat ∉ onstack (demo_k 1)).
Proof.
  assert (H0 : onstack (demo_k 0) = [7%nat]) by (by vm_compute).
  destruct (rt_stacks_exclusive demo 0 1 (demo_k 0) (demo_k 1) 7 demo_reach) as [H1 H2];
    [by vm_compute|by vm_compute|rewrite H0; by left|]. split; [exact H0|]. split; [exact H1|]. by apply H2.
Defined.

(** ** Prioritizing a status *)

Lemma filter_head_prefix (P : nat -> Prop) `{forall x, Decision (P x)} sk r hi' l :
  filter P l = sk ++ option_list r ++ hi' -> Forall (fun x => ~ P x) sk -> (r = None -> hi' = []) -> r = list.head (filter P l).
Proof.
  intros E Hs Hn. destruct sk as [|x sk]; [|].
  - cbn [app] in E. rewrite E. destruct r; [done|]. cbn. by rewrite Hn.
  - exfalso. apply Forall_inv in Hs. apply Hs. assert (Hin : x ∈ filter P l) by (rewrite E; by left). by apply list_elem_of_filter in Hin as [? _].
Qed.

(** What happens when a kthread with the run queue [hi] and no prioritized status
    starts to prioritize [st] and takes its next thread.  No thread is lost.  If [st] is
    1 the next thread is the first one of status 1.  With any other status, in
    particular GC_STATUS, which is what the garbage collector asks for, the threads that
    [build_high_priority_queue] has selected are all put into the low priority queue and
    none is run: [prioritized_status] is a [bool], so that [pop_rq] compares the status
    of each thread with 1. *)
Theorem prioritized_pop status_of f st k hi :
  kq k hi [] -> prioritized_status k = false -> klock k <> None -> st <> 0 -> (forall t, t ∈ hi -> status_of t = Ok (f t)) ->
  exists k1 r k2, build_one status_of st k = Ok k1 /\ pop_rq status_of k1 = Ok (r, k2) /\
    r = (if st =? 1 then list.head (filter (fun t => f t = 1) hi) else None) /\
    queue k ≡ₚ option_list r ++ queue k2 /\ (st <> 1 -> rq_head k2 = rq_tail k2).
Proof.
  intros K Hp Hl Hs Hst. destruct (build_one_ok status_of f st k hi [] K Hl Hs Hst) as (k1 & E1 & V1 & _ & O1 & _ & K1).
  destruct (K1 Hp) as [Hp1 K1']. clear K1.
  destruct (pop_rq_ok status_of f k1 _ _ K1') as (r & k2 & hi' & lo' & sk & E2 & K2 & Eh & P2 & F2 & Hn & _ & _ & Hsk & _).
  { intros t [_ Ht]%list_elem_of_filter. by apply Hst. }
  destruct (Hsk Hp1) as [Hsk1 Hsk2]. exists k1, r, k2. split; [done|]. split; [done|].
  assert (Hr : r = if st =? 1 then list.head (filter (fun t => f t = 1) hi) else None).
  { destruct (Z.eqb_spec st 1) as [->|Hne]; [by eapply filter_head_prefix|]. destruct r as [x|]; [|done]. exfalso.
    assert (Hx : x ∈ filter (fun t => f t = st) hi) by (rewrite Eh; apply elem_of_app; right; by left).
    apply list_elem_of_filter in Hx as [Hx _]. rewrite (Hsk2 x eq_refl) in Hx. by apply Hne. }
  split; [done|]. split.
  - rewrite (krings_queue _ _ _ (kq_rings _ _ _ K)), (krings_queue _ _ _ (kq_rings _ _ _ K2)). cbn [app].
    rewrite P2, O1. rewrite <- (filter_app_complement (fun t => f t = st) hi) at 1.
    rewrite Eh. solve_Permutation.
  - intros Hne. rewrite (proj2 (Z.eqb_neq st 1) Hne) in Hr. subst r. specialize (Hn eq_refl). subst hi'.
    apply Z.eqb_eq. by rewrite (ring_empty _ _ _ _ (kr_hi _ _ _ (kq_rings _ _ _ K2))).
Qed.

(** A kthread whose run queue holds [l]. *)
Definition demo_queue (l : list nat) : kthread := foldl (fun k th => push_rq th k) (set_klock (Some 0%nat) allock) l.
Definition demo_status (t : nat) : Z := if decide (t = 4%nat) then GC_STATUS else 0.

Lemma demo_queue_kq : kq (demo_queue [4; 5; 6]%nat) [4; 5; 6]%nat [].
Proof.
  split; [|done..]. apply (krings_push _ 6%nat [4; 5]%nat); [|cbn; unfold RQ; lia]. apply (krings_push _ 5%nat [4]%nat); [|cbn; unfold RQ; lia].
  apply (krings_push _ 4%nat []); [|cbn; unfold RQ; lia]. apply (krings_ext allock); [apply allock_kq|done].
Qed.

Lemma prioritized_pop_witness :
  exists k1 k2, build_one (fun t => Ok (demo_status t)) GC_STATUS (demo_queue [4; 5; 6]%nat) = Ok k1 /\
    pop_rq (fun t => Ok (demo_status t)) k1 = Ok (None, k2) /\ rq_head k2 = rq_tail k2.
Proof.
  destruct (prioritized_pop (fun t => Ok (demo_status t)) demo_status GC_STATUS (demo_queue [4; 5; 6]%nat) [4; 5; 6]%nat) as (k1 & r & k2 & H1 & H2 & H3 & _ & H4).
  - exact demo_queue_kq.
  - done.
  - done.
  - done.
  - done.
  - exists k1, k2. rewrite H3 in H2. split; [exact H1|]. split; [exact H2|]. by apply H4.
Defined.

(** ** The queue length the IOKernel sees *)

(** The pointers shared with the IOKernel tell the number of queued threads. *)
Definition tracks (k : kthread) : Prop := u32 (q_rq_head k - q_rq_tail k) = u32 (Z.of_nat (length (queue k))).

Lemma u32_shift a b c : u32 a = u32 b -> u32 (a + c) = u32 (b + c).
Proof. intros H. rewrite <- (u32_add_l a), <- (u32_add_l b). by rewrite H. Qed.

Lemma tracks_shift k k' n : tracks k -> u32 (q_rq_head k' - q_rq_tail k') = u32 (q_rq_head k - q_rq_tail k + n) ->
  Z.of_nat (length (queue k')) = Z.of_nat (length (queue k)) + n -> tracks k'.
Proof. unfold tracks. intros H E1 E2. rewrite E1, E2. by apply u32_shift. Qed.

Lemma u32_head a b : u32 (u32 (a + 1) - b) = u32 (a - b + 1).
Proof. rewrite u32_sub_l. f_equal. lia. Qed.

Lemma u32_tail a b : u32 (a - u32 (b + 1)) = u32 (a - b + -1).
Proof. rewrite u32_sub_r. f_equal. lia. Qed.

(** The run queue length a kthread publishes for the IOKernel's congestion
    detection is exact through wake-ups, overflows, drains and pops of the run queue,
    also while a status is prioritized and threads are moved between the queues; but a
    thread that [schedule] takes from the low priority queue is never taken off the
    published length, which is wrong from then on. *)
Theorem queue_length_published k hi lo :
  kq k hi lo -> tracks k ->
  (forall th, exists k', ready_on th k = Ok k' /\ tracks k') /\
  (klock k <> None -> exists k', drain_if k = Ok k' /\ tracks k') /\
  (forall status_of f, (forall t, t ∈ hi -> status_of t = Ok (f t)) -> exists r k', pop_rq status_of k = Ok (r, k') /\ tracks k') /\
  (forall s i ch, ks s !! i = Some k -> prioritized_status k = true -> lo <> [] ->
     exists th k', schedule_low i ch s = Ok (at_pc i (PDone th) k' s) /\ list.head lo = Some th /\ ~ tracks k').
Proof.
  intros K Ht. assert (Q := krings_queue _ _ _ (kq_rings _ _ _ K)). split_and!.
  - intros th. destruct (ready_on_ok th k hi lo K) as (k' & hi' & E & K' & P & F & Q1 & Q2). exists k'. split; [done|].
    apply (tracks_shift k k' 1 Ht); [rewrite Q1, Q2; apply u32_head|].
    apply Permutation_length in P. rewrite (krings_queue _ _ _ (kq_rings _ _ _ K')), Q. cbn [length] in P. rewrite !length_app in *. lia.
  - intros Hl. destruct (drain_if_ok' k hi lo K Hl) as (k' & n & E & K' & O & F & Qp & _). exists k'. split; [done|]. injection Qp as Q1 Q2.
    apply (tracks_shift k k' 0 Ht); [rewrite Q1, Q2; f_equal; lia|].
    rewrite (krings_queue _ _ _ (kq_rings _ _ _ K')), Q, O. rewrite !length_app, length_take, length_drop. lia.
  - intros status_of f Hst. destruct (pop_rq_ok status_of f k hi lo K Hst) as (r & k' & hi' & lo' & sk & E & K' & Eh & P & F & Hn & Q1 & Q2 & _).
    exists r, k'. split; [done|]. apply Permutation_length in P. rewrite !length_app in P.
    assert (El := krings_queue _ _ _ (kq_rings _ _ _ K')). destruct r as [x|]; rewrite Eh in Q.
    + apply (tracks_shift k k' (-1) Ht); [rewrite Q1, Q2; apply u32_tail|]. rewrite El, Q, !length_app. cbn. lia.
    + apply (tracks_shift k k' 0 Ht); [rewrite Q1, Q2; f_equal; lia|]. rewrite El, Q, !length_app. cbn. lia.
  - intros s i ch Hi Hp Hlo. destruct lo as [|th lo]; [done|]. unfold schedule_low. rewrite (get_k_ok _ _ _ Hi). cbn [mbind res_bind]. rewrite Hp.
    rewrite (ring_empty _ _ _ _ (kr_lo _ _ _ (kq_rings _ _ _ K))), bool_decide_eq_false_2 by done. cbn [negb].
    destruct (krings_pop_other _ _ _ _ (kq_rings _ _ _ K)) as [Eg K']. assert (Hf := kq_flag _ _ _ K). rewrite Hp in Hf. unfold other_rq in Eg. rewrite Hf in Eg.
    rewrite Eg. cbn [mbind res_bind]. eexists th, _. split; [reflexivity|]. split; [done|]. unfold tracks in *. rewrite (krings_queue _ _ _ K'). cbn [q_rq_head q_rq_tail set_l_rq_tail].
    rewrite Ht, Q. change (rq_overflow (set_l_rq_tail (u32 (l_rq_tail k + 1)) k)) with (rq_overflow k). rewrite !length_app. cbn [length].
    unfold u32, M32. intros E. Z.to_euclidean_division_equations. lia.
Qed.

(** A kthread that prioritizes a status, with one thread in its low priority queue. *)
Definition demo_low : kthread :=
  q_head_add 1 (push_low 6 (set_prioritized_status true (set_rq_ptr_high true (set_klock (Some 0%nat) allock)))).
Definition demo_low_sys : sys := Sys ∅ [demo_low] true 1.

Lemma demo_low_kq : kq demo_low [] [6%nat].
Proof.
  split; [|done..]. apply (krings_ext (push_low 6 (set_prioritized_status true (set_rq_ptr_high true (set_klock (Some 0%nat) allock))))); [|done].
  apply (krings_push_low _ 6%nat [] []); [split; apply allock_ring|cbn; unfold RQ; lia|done].
Qed.

Lemma queue_length_published_witness :
  (exists k', ready_on 7 demo_low = Ok k' /\ tracks k') /\
  (exists th k', schedule_low 0 ch0 demo_low_sys = Ok (at_pc 0 (PDone th) k' demo_low_sys) /\ ~ tracks k').
Proof.
  assert (Ht : tracks demo_low) by (by vm_compute).
  destruct (queue_length_published demo_low [] [6%nat] demo_low_kq Ht) as (H1 & _ & _ & H4). split; [exact (H1 7%nat)|].
  destruct (H4 demo_low_sys 0%nat ch0) as (th & k' & E & _ & N); [done|done|done|]. exists th, k'. split; [exact E|exact N].
Defined.
