(* ===== verification/Udp.v ===== *)
(** * runtime/net/udp.c: datagram sockets

    A function that takes one of the two locks of a socket for all it does is one
    operation on the record [udpconn]; one that does several such things, or can sleep,
    is cut into the parts between.  What the rest of the system decides is an argument:
    whether memory and a packet buffer are available, the answer of ARP, the identifier
    of the IP packet. *)

From S2P Require Import Prelude Stddef Mbuf Chksum Transport Arp Core.

Abbreviation ip := Transport.ip.

Definition UDP_IN_DEFAULT_CAP : Z := 512.
Definition UDP_OUT_DEFAULT_CAP : Z := 2048.
Definition UDP_MAX_PAYLOAD : Z := 1472.
Definition sizeof_udp_hdr : Z := 8.
Definition EMSGSIZE : Z := 90.
Definition EDESTADDRREQ : Z := 89.
Definition EPIPE : Z := 32.
Definition ENOBUFS : Z := 105.

Definition udp_hdr_bytes (l r : netaddr) (n : Z) : list Z :=
  hton16 (port l) ++ hton16 (port r) ++ hton16 (n + sizeof_udp_hdr) ++ [0; 0].

(** Returns the result of [net_tx_ip] and the packet. *)
Definition udp_send_raw (cfg : net_cfg) (id : Z) (arp : lookup_result) (m : mbuf) (n : Z) (l r : netaddr) : res (Z * mbuf) :=
  m ← mbuf_prepend (udp_hdr_bytes l r n) m;
  net_tx_ip cfg IPPROTO_UDP (ip r) id arp m.

(** ** Sockets *)

(** [inq_wq] and [outq_wq] hold the threads that sleep; [refs] is the reference count. *)
Record udpconn := UdpConn {
  entry : trans_entry;
  shutdown : bool;
  inq_cap : Z;
  inq_len : Z;
  inq_err : Z;
  inq_wq : list nat;
  inq : list mbuf;
  outq_free : bool;
  outq_cap : Z;
  outq_len : Z;
  outq_wq : list nat;
  refs : Z;
}.

Definition set_shutdown (v : bool) (c : udpconn) : udpconn :=
  UdpConn (entry c) v (inq_cap c) (inq_len c) (inq_err c) (inq_wq c) (inq c) (outq_free c) (outq_cap c) (outq_len c) (outq_wq c) (refs c).
Definition set_inq_err (v : Z) (c : udpconn) : udpconn :=
  UdpConn (entry c) (shutdown c) (inq_cap c) (inq_len c) v (inq_wq c) (inq c) (outq_free c) (outq_cap c) (outq_len c) (outq_wq c) (refs c).
Definition set_inq_wq (v : list nat) (c : udpconn) : udpconn :=
  UdpConn (entry c) (shutdown c) (inq_cap c) (inq_len c) (inq_err c) v (inq c) (outq_free c) (outq_cap c) (outq_len c) (outq_wq c) (refs c).
Definition set_inq (v : list mbuf) (n : Z) (c : udpconn) : udpconn :=
  UdpConn (entry c) (shutdown c) (inq_cap c) n (inq_err c) (inq_wq c) v (outq_free c) (outq_cap c) (outq_len c) (outq_wq c) (refs c).
Definition set_caps (i o : Z) (c : udpconn) : udpconn :=
  UdpConn (entry c) (shutdown c) i (inq_len c) (inq_err c) (inq_wq c) (inq c) (outq_free c) o (outq_len c) (outq_wq c) (refs c).
Definition set_outq_free (v : bool) (c : udpconn) : udpconn :=
  UdpConn (entry c) (shutdown c) (inq_cap c) (inq_len c) (inq_err c) (inq_wq c) (inq c) v (outq_cap c) (outq_len c) (outq_wq c) (refs c).
Definition set_outq_len (v : Z) (c : udpconn) : udpconn :=
  UdpConn (entry c) (shutdown c) (inq_cap c) (inq_len c) (inq_err c) (inq_wq c) (inq c) (outq_free c) (outq_cap c) v (outq_wq c) (refs c).
Definition set_outq_wq (v : list nat) (c : udpconn) : udpconn :=
  UdpConn (entry c) (shutdown c) (inq_cap c) (inq_len c) (inq_err c) (inq_wq c) (inq c) (outq_free c) (outq_cap c) (outq_len c) v (refs c).
Definition set_refs (v : Z) (c : udpconn) : udpconn :=
  UdpConn (entry c) (shutdown c) (inq_cap c) (inq_len c) (inq_err c) (inq_wq c) (inq c) (outq_free c) (outq_cap c) (outq_len c) (outq_wq c) v.

Definition udp_init_conn (e : trans_entry) : udpconn :=
  UdpConn e false UDP_IN_DEFAULT_CAP 0 0 [] [] false UDP_OUT_DEFAULT_CAP 0 [] 1.

(** What becomes of a packet; [Queued th] if it is queued, and [th] is to be woken. *)
Inductive recv_result := RecvFree | RecvDrop | Queued (th : option nat).

Definition udp_conn_recv (m : mbuf) (c : udpconn) : recv_result * udpconn :=
  match mbuf_pull_or_null sizeof_udp_hdr m with
  | (None, _) => (RecvFree, c)
  | (Some _, m) =>
      if (inq_len c >=? inq_cap c) || negb (inq_err c =? 0) || shutdown c then (RecvDrop, c)
      else
        let c := set_inq (inq c ++ [m]) (inq_len c + 1) c in
        (Queued (list.head (inq_wq c)), set_inq_wq (tail (inq_wq c)) c)
  end.

(** The first part of [udp_conn_err]: whether the waiters are to be released. *)
Definition udp_conn_err (err : Z) (c : udpconn) : bool * udpconn :=
  ((inq_err c =? 0) && negb (shutdown c), set_inq_err err c).

(** [waitq_release] on each queue: the threads to be woken. *)
Definition release_inq (c : udpconn) : list nat * udpconn := (inq_wq c, set_inq_wq [] c).
Definition release_outq (c : udpconn) : list nat * udpconn := (outq_wq c, set_outq_wq [] c).

Definition udp_release_conn_ref (c : udpconn) : res unit :=
  _ ← BUG_ON (negb (bool_decide (inq_wq c = []) && bool_decide (outq_wq c = [])));
  BUG_ON (negb (bool_decide (inq c = []))).

(** Whether the socket is released, by [kref_put]. *)
Definition udp_conn_put (c : udpconn) : res (bool * udpconn) :=
  let c := set_refs (refs c - 1) c in
  if refs c =? 0 then _ ← udp_release_conn_ref c; Ok (true, c) else Ok (false, c).

Section table.
Context (crc32 : Z -> Z -> Z) (trans_seed : Z).

Definition local_addr (cfg : net_cfg) (l : netaddr) : option netaddr :=
  if ip l =? 0 then Some (Netaddr (cfg_addr cfg) (port l))
  else if negb (ip l =? cfg_addr cfg) then None else Some l.

(** [mem] is the address [smalloc] returns. *)
Definition udp_dial (cfg : net_cfg) (mem : option nat) (l r : netaddr) (t : ttable) : Z * option udpconn * ttable :=
  match local_addr cfg l with
  | None => (- EINVAL, None, t)
  | Some l =>
      match mem with
      | None => (- ENOMEM, None, t)
      | Some a =>
          let e := trans_init_5tuple a IPPROTO_UDP l r in
          let '(ret, e, t) :=
            if port l =? 0 then trans_table_add_with_ephemeral_port crc32 trans_seed e t
            else let '(ret, t) := trans_table_add crc32 trans_seed e t in (ret, e, t) in
          if negb (ret =? 0) then (ret, None, t) else (0, Some (udp_init_conn e), t)
      end
  end.

(** [register_flow] takes a reference if the NIC is driven directly. *)
Definition register_flow (directpath : bool) (c : udpconn) : udpconn := if directpath then set_refs (refs c + 1) c else c.

Definition udp_listen (cfg : net_cfg) (directpath : bool) (mem : option (nat * netaddr)) (l : netaddr) (t : ttable)
    : Z * option udpconn * ttable :=
  match local_addr cfg l with
  | None => (- EINVAL, None, t)
  | Some l =>
      match mem with
      | None => (- ENOMEM, None, t)
      | Some (a, old) =>
          let e := trans_init_3tuple a IPPROTO_UDP l old in
          let '(ret, t) := trans_table_add crc32 trans_seed e t in
          if negb (ret =? 0) then (ret, None, t) else (0, Some (register_flow directpath (udp_init_conn e)), t)
      end
  end.
End table.

Definition udp_local_addr (c : udpconn) : netaddr := laddr (entry c).
Definition udp_remote_addr (c : udpconn) : netaddr := raddr (entry c).
Definition udp_set_buffers (i o : Z) (c : udpconn) : Z * udpconn := (0, set_caps i o c).

(** The part of [udp_read_from] under the lock, for thread [t]: it sleeps, or there is
    nothing to read, or it takes a datagram. *)
Inductive read_result := ReadSleep | ReadRet (v : Z) | ReadPop (m : mbuf).

Definition udp_read_locked (t : nat) (c : udpconn) : read_result * udpconn :=
  let empty := bool_decide (inq c = []) in
  if empty && (inq_err c =? 0) && negb (shutdown c) then (ReadSleep, set_inq_wq (inq_wq c ++ [t]) c)
  else if empty && shutdown c then (ReadRet 0, c)
  else if negb (inq_err c =? 0) then (ReadRet (- inq_err c), c)
  else
    match inq c with
    | m :: q => (ReadPop m, set_inq q (inq_len c - 1) c)
    | [] => (ReadRet 0, c)
    end.

(** The part after it: the bytes that are copied and, if [want], the remote address. *)
Definition udp_read_copy (e : trans_entry) (n : Z) (want : bool) (m : mbuf) : res (Z * list Z * option netaddr) :=
  let ret := Z.min n (mbuf_length m) in
  bytes ← read_bytes m (data m) ret;
  if want then
    saddr ← read32 m (network_off m + 12);
    sport ← read16 m (transport_off m);
    _ ← (if bool_decide (match_ e = TRANS_MATCH_5TUPLE)
         then BUG_ON (negb ((ip (raddr e) =? saddr) && (port (raddr e) =? sport))) else Ok ());
    Ok (ret, bytes, Some (Netaddr saddr sport))
  else Ok (ret, bytes, None).

(** The thread to be woken and whether the socket's reference is to be dropped. *)
Definition udp_tx_release_mbuf (c : udpconn) : option nat * bool * udpconn :=
  let c := set_outq_len (outq_len c - 1) c in
  let free_conn := outq_free c && (outq_len c =? 0) in
  if negb (shutdown c) then (list.head (outq_wq c), free_conn, set_outq_wq (tail (outq_wq c)) c)
  else (None, free_conn, c).

(** [udp_write_to]: the checks before the lock, the part under the lock, the rest. *)
Definition udp_write_check (n : Z) (r : option netaddr) (e : trans_entry) : Z + netaddr :=
  if n >? UDP_MAX_PAYLOAD then inl (- EMSGSIZE)
  else
    match r with
    | None => if bool_decide (match_ e = TRANS_MATCH_3TUPLE) then inl (- EDESTADDRREQ) else inr (raddr e)
    | Some r => inr r
    end.

Inductive write_result := WriteSleep | WriteRet (v : Z) | WriteSlot.

Definition udp_write_locked (t : nat) (c : udpconn) : write_result * udpconn :=
  if (outq_len c >=? outq_cap c) && negb (shutdown c) then (WriteSleep, set_outq_wq (outq_wq c ++ [t]) c)
  else if shutdown c then (WriteRet (- EPIPE), c)
  else (WriteSlot, set_outq_len (outq_len c + 1) c).

(** [buf] is the datagram, [alloc] the bytes of the buffer if there is one.  The packet
    is [Some] if it was sent. *)
Definition udp_write_send (cfg : net_cfg) (id : Z) (arp : lookup_result) (alloc : option (list Z)) (buf : list Z) (l r : netaddr)
    : res (Z * option mbuf) :=
  match alloc with
  | None => Ok (- ENOBUFS, None)
  | Some b =>
      m ← net_tx_alloc_mbuf b;
      m ← mbuf_append buf m;
      '(ret, m) ← udp_send_raw cfg id arp m (Z.of_nat (length buf)) l r;
      if negb (ret =? 0) then Ok (ret, None) else Ok (Z.of_nat (length buf), Some m)
  end.

(** The removal from the match table apart. *)
Definition __udp_shutdown (c : udpconn) : res udpconn := _ ← BUG_ON (shutdown c); Ok (set_shutdown true c).

(** Whether the reference is to be dropped. *)
Definition udp_close (c : udpconn) : res (bool * udpconn) :=
  c ← (if negb (shutdown c) then __udp_shutdown c else Ok c);
  _ ← BUG_ON (negb (bool_decide (inq_wq c = [])));
  _ ← BUG_ON (negb (bool_decide (outq_wq c = [])));
  Ok (outq_len c =? 0, set_outq_free true (set_inq [] (inq_len c) c)).

(** ** The parallel interface *)

(** What the new thread gets: [buf], [len], [laddr], [raddr]. *)
Record udp_spawn_data := SpawnData { d_bytes : list Z; d_len : Z; d_laddr : netaddr; d_raddr : netaddr }.

Inductive par_result := ParFree | ParDrop | ParSpawn (d : udp_spawn_data).

(** [mem]: a thread can be created. *)
Definition udp_par_recv (e : trans_entry) (mem : bool) (m : mbuf) : res par_result :=
  match mbuf_pull_or_null sizeof_udp_hdr m with
  | (None, _) => Ok ParFree
  | (Some h, m) =>
      if negb mem then Ok ParDrop
      else
        bytes ← read_bytes m (data m) (mbuf_length m);
        saddr ← read32 m (network_off m + 12);
        sport ← read16 m h;
        Ok (ParSpawn (SpawnData bytes (mbuf_length m) (laddr e) (Netaddr saddr sport)))
  end.

Definition udp_create_spawner (crc32 : Z -> Z -> Z) (seed : Z) (cfg : net_cfg) (mem : option (nat * netaddr)) (l : netaddr) (t : ttable)
    : Z * option trans_entry * ttable :=
  match local_addr cfg l with
  | None => (- EINVAL, None, t)
  | Some l =>
      match mem with
      | None => (- ENOMEM, None, t)
      | Some (a, old) =>
          let e := trans_init_3tuple a IPPROTO_UDP l old in
          let '(ret, t) := trans_table_add crc32 seed e t in
          if negb (ret =? 0) then (ret, None, t) else (0, Some e, t)
      end
  end.

Definition udp_destroy_spawner (e : trans_entry) (t : ttable) : ttable := trans_table_remove (eid e) t.

(** The packet is [Some] if it was sent. *)
Definition udp_send (cfg : net_cfg) (id : Z) (arp : lookup_result) (alloc : option (list Z)) (buf : list Z) (l r : netaddr) : res (Z * option mbuf) :=
  if Z.of_nat (length buf) >? UDP_MAX_PAYLOAD then Ok (- EMSGSIZE, None)
  else
    match local_addr cfg l with
    | None => Ok (- EINVAL, None)
    | Some l => if port l =? 0 then Ok (- EINVAL, None) else udp_write_send cfg id arp alloc buf l r
    end.

(** The loop of [udp_sendv] over the buffers: [None] if the datagram is too long. *)
Fixpoint gather (iov : list (list Z)) (n : Z) (m : mbuf) : res (option (Z * mbuf)) :=
  match iov with
  | [] => Ok (Some (n, m))
  | b :: iov =>
      let n := n + Z.of_nat (length b) in
      if n >? UDP_MAX_PAYLOAD then Ok None
      else m ← mbuf_append b m; gather iov n m
  end.

Definition udp_sendv (cfg : net_cfg) (id : Z) (arp : lookup_result) (alloc : option (list Z)) (iov : list (list Z)) (l r : netaddr) : res (Z * option mbuf) :=
  match local_addr cfg l with
  | None => Ok (- EINVAL, None)
  | Some l =>
      if port l =? 0 then Ok (- EINVAL, None)
      else
        match alloc with
        | None => Ok (- ENOBUFS, None)
        | Some b =>
            m ← net_tx_alloc_mbuf b;
            g ← gather iov 0 m;
            match g with
            | None => Ok (- EMSGSIZE, None)
            | Some (n, m) =>
                '(ret, m) ← udp_send_raw cfg id arp m n l r;
                if negb (ret =? 0) then Ok (ret, None) else Ok (n, Some m)
            end
        end
  end.
