(* ===== verification/UdpMach.v ===== *)
(** * A UDP socket and the threads that use it

    The socket of Udp.v, shared by readers, writers, the softirq handler that delivers
    packets and errors, completions of sent packets, and the thread that shuts it down
    and closes it.  A step is one critical section.  [freed] tells that the memory of
    the socket was given back: using it then is a [Bug].  [accepted], [delivered] and
    [lost] are not in the code: the datagrams queued, those read, and the writes that
    took a slot of the transmit queue and failed. *)

From S2P Require Import Prelude Stddef Mbuf Chksum Transport Arp Core Udp.

(** Where a thread is that is in one of the functions. *)
Inductive tpc :=
| TRead          (* udp_read_from, about to lock *)
| TReadWait      (* ... asleep *)
| TWrite         (* udp_write_to, about to lock *)
| TWriteWait     (* ... asleep *)
| TSlot          (* ... with a slot, about to allocate and send *)
| TErr           (* udp_conn_err, about to release the readers *)
| TShutIn        (* udp_shutdown, about to release the readers *)
| TShutOut.      (* ... the writers *)

#[export] Instance tpc_eq_dec : EqDecision tpc.
Proof. solve_decision. Defined.

Record ust := USt {
  conn : udpconn;
  pcs : gmap nat tpc;
  inflight : nat;
  closed : bool;
  flow : bool;        (* the flow is registered with the NIC *)
  freed : bool;
  accepted : list mbuf;
  delivered : list mbuf;
  lost : nat;
}.

Definition set_conn (v : udpconn) (s : ust) : ust :=
  USt v (pcs s) (inflight s) (closed s) (flow s) (freed s) (accepted s) (delivered s) (lost s).
Definition set_pcs (v : gmap nat tpc) (s : ust) : ust :=
  USt (conn s) v (inflight s) (closed s) (flow s) (freed s) (accepted s) (delivered s) (lost s).
Definition set_inflight (v : nat) (s : ust) : ust :=
  USt (conn s) (pcs s) v (closed s) (flow s) (freed s) (accepted s) (delivered s) (lost s).
Definition set_closed (v : bool) (s : ust) : ust :=
  USt (conn s) (pcs s) (inflight s) v (flow s) (freed s) (accepted s) (delivered s) (lost s).
Definition set_flow (v : bool) (s : ust) : ust :=
  USt (conn s) (pcs s) (inflight s) (closed s) v (freed s) (accepted s) (delivered s) (lost s).
Definition set_freed (v : bool) (s : ust) : ust :=
  USt (conn s) (pcs s) (inflight s) (closed s) (flow s) v (accepted s) (delivered s) (lost s).
Definition log_accepted (m : list mbuf) (s : ust) : ust :=
  USt (conn s) (pcs s) (inflight s) (closed s) (flow s) (freed s) (accepted s ++ m) (delivered s) (lost s).
Definition log_delivered (m : list mbuf) (s : ust) : ust :=
  USt (conn s) (pcs s) (inflight s) (closed s) (flow s) (freed s) (accepted s) (delivered s ++ m) (lost s).
Definition log_lost (s : ust) : ust :=
  USt (conn s) (pcs s) (inflight s) (closed s) (flow s) (freed s) (accepted s) (delivered s) (S (lost s)).

Definition at_t (t : nat) (p : tpc) (s : ust) : ust := set_pcs (<[t := p]> (pcs s)) s.
Definition idle_t (t : nat) (s : ust) : ust := set_pcs (delete t (pcs s)) s.

(** [thread_ready] of a thread that sleeps in a wait queue. *)
Definition wake (t : nat) (s : ust) : res ust :=
  match pcs s !! t with
  | Some TReadWait => Ok (at_t t TRead s)
  | Some TWriteWait => Ok (at_t t TWrite s)
  | _ => Bug
  end.

Fixpoint wake_all (ts : list nat) (s : ust) : res ust :=
  match ts with [] => Ok s | t :: ts => s ← wake t s; wake_all ts s end.

Inductive uaction :=
| ARecv (m : mbuf)                 (* udp_conn_recv *)
| AErr (t : nat) (err : Z)         (* udp_conn_err *)
| ARead (t : nat)                  (* udp_read_from *)
| AWrite (t : nat)                 (* udp_write_to *)
| AGo (t : nat) (sent : bool)      (* thread [t] goes on; [sent] if its packet is sent *)
| ATxDone                          (* udp_tx_release_mbuf *)
| ASetBuffers (i o : Z)            (* udp_set_buffers *)
| AShutdown (t : nat)              (* udp_shutdown *)
| AClose                           (* udp_close *)
| AFlow.                           (* the worker that removes the flow calls release *)

(** The reference is dropped. *)
Definition put_ref (c : udpconn) (s : ust) : res ust :=
  '(rel, c) ← udp_conn_put c; Ok (set_conn c (if (rel : bool) then set_freed true s else s)).

Definition go (t : nat) (sent : bool) (s : ust) : option (res ust) :=
  let c := conn s in
  match pcs s !! t with
  | Some TRead =>
      Some (Ok (match udp_read_locked t c with
                | (ReadSleep, c) => at_t t TReadWait (set_conn c s)
                | (ReadRet _, c) => idle_t t (set_conn c s)
                | (ReadPop m, c) => log_delivered [m] (idle_t t (set_conn c s))
                end))
  | Some TWrite =>
      Some (Ok (match udp_write_locked t c with
                | (WriteSleep, c) => at_t t TWriteWait (set_conn c s)
                | (WriteRet _, c) => idle_t t (set_conn c s)
                | (WriteSlot, c) => at_t t TSlot (set_conn c s)
                end))
  | Some TSlot => Some (Ok (idle_t t (if sent then set_inflight (S (inflight s)) s else log_lost s)))
  | Some TErr => let '(ts, c) := release_inq c in Some (wake_all ts (idle_t t (set_conn c s)))
  | Some TShutIn =>
      Some (if inq_err c =? 0 then let '(ts, c) := release_inq c in wake_all ts (at_t t TShutOut (set_conn c s))
            else Ok (at_t t TShutOut s))
  | Some TShutOut => let '(ts, c) := release_outq c in Some (wake_all ts (idle_t t (set_conn c s)))
  | _ => None
  end.

Definition idle (t : nat) (s : ust) : bool := bool_decide (pcs s !! t = None).

Definition live (s : ust) (r : res ust) : option (res ust) := if freed s then Some Bug else Some r.

Definition ustep (a : uaction) (s : ust) : option (res ust) :=
  let c := conn s in
  match a with
  | ARecv m =>
      live s (match udp_conn_recv m c with
              | (Queued th, c') => wake_all (option_list th) (log_accepted (drop (length (inq c)) (inq c')) (set_conn c' s))
              | (_, c') => Ok (set_conn c' s)
              end)
  | AErr t err =>
      if idle t s then
        live s (let '(rel, c) := udp_conn_err err c in Ok (if (rel : bool) then at_t t TErr (set_conn c s) else set_conn c s))
      else None
  | ARead t => if idle t s then live s (Ok (at_t t TRead s)) else None
  | AWrite t => if idle t s then live s (Ok (at_t t TWrite s)) else None
  | AGo t sent => if idle t s then None else if freed s then Some Bug else go t sent s
  | ATxDone =>
      match inflight s with
      | O => None
      | S n =>
          live s (let '(th, free_conn, c) := udp_tx_release_mbuf c in
                  s ← wake_all (option_list th) (set_inflight n (set_conn c s));
                  if (free_conn : bool) then put_ref (conn s) s else Ok s)
      end
  | ASetBuffers i o => live s (Ok (set_conn (udp_set_buffers i o c).2 s))
  | AShutdown t => if idle t s then live s (c ← __udp_shutdown c; Ok (at_t t TShutIn (set_conn c s))) else None
  | AClose =>
      live s ('(free_conn, c) ← udp_close c;
              let s := set_closed true (set_conn c s) in
              if (free_conn : bool) then put_ref c s else Ok s)
  | AFlow => if closed s && flow s then live s (_ ← udp_release_conn_ref c; Ok (set_freed true (set_flow false s))) else None
  end.

(** What the users of the socket respect: it is not used once it is closed, shut down
    once, and closed when no thread is in it; an error is not 0. *)
Definition uok (a : uaction) (s : ust) : Prop :=
  match a with
  | AErr _ err => closed s = false /\ err <> 0
  | ARecv _ | ARead _ | AWrite _ | ASetBuffers _ _ => closed s = false
  | AShutdown _ => closed s = false /\ shutdown (conn s) = false
  | AClose => closed s = false /\ pcs s = ∅
  | AGo _ _ | ATxDone | AFlow => True
  end.

Definition udp_start (e : trans_entry) (directpath : bool) : ust :=
  USt (register_flow directpath (udp_init_conn e)) ∅ 0 false directpath false [] [] 0.

Section reach.
Context (ok : uaction -> ust -> Prop) (s0 : ust).

Inductive ureach : ust -> Prop :=
| ureach_start : ureach s0
| ureach_step a s s' : ureach s -> ok a s -> ustep a s = Some (Ok s') -> ureach s'.
End reach.
