(* ===== verification/UdpInv.v ===== *)
(** * What a UDP socket guarantees to its users *)

From S2P Require Import Prelude Stddef Mbuf Chksum Transport Arp Core Udp UdpMach.

(** ** Counting threads *)

Definition cnt (p : tpc) (m : gmap nat tpc) : nat := length (filter (fun x => x.2 = p) (map_to_list m)).

Lemma cnt_new p t q m : m !! t = None -> cnt p (<[t := q]> m) = ((if decide (q = p) then 1 else 0) + cnt p m)%nat.
Proof.
  intros Hn. unfold cnt. rewrite (map_to_list_insert m t q Hn). rewrite filter_cons. cbn [snd]. by destruct (decide (q = p)).
Qed.

Lemma cnt_split p t q m : m !! t = Some q -> cnt p m = ((if decide (q = p) then 1 else 0) + cnt p (delete t m))%nat.
Proof. intros H. rewrite <- (insert_delete_id m t q H) at 1. apply cnt_new, lookup_delete_eq. Qed.

Lemma tcnt_insert p t q m : cnt p (<[t := q]> m) = ((if decide (q = p) then 1 else 0) + cnt p (delete t m))%nat.
Proof. rewrite <- insert_delete_eq. apply cnt_new, lookup_delete_eq. Qed.

Lemma cnt_empty p : cnt p ∅ = 0%nat.
Proof. unfold cnt. by rewrite map_to_list_empty. Qed.

(** ** The invariant *)

(** A wait queue holds the threads that sleep in it. *)
Definition sleepers (q : list nat) (p : tpc) (m : gmap nat tpc) : Prop := NoDup q /\ forall t, t ∈ q <-> m !! t = Some p.

Record uinv (s : ust) : Prop := {
  ui_in : sleepers (inq_wq (conn s)) TReadWait (pcs s);
  ui_out : sleepers (outq_wq (conn s)) TWriteWait (pcs s);
  ui_len : closed s = false -> inq_len (conn s) = Z.of_nat (length (inq (conn s)));
  ui_log : exists rest, accepted s = delivered s ++ rest /\ (closed s = false -> rest = inq (conn s));
  ui_slots : outq_len (conn s) = Z.of_nat (inflight s + cnt TSlot (pcs s) + lost s);
  ui_free : outq_free (conn s) = closed s;
  ui_closed : closed s = true -> pcs s = ∅ /\ inq (conn s) = [];
}.

(** The rest: when the memory is given back. *)
Record rinv (s : ust) : Prop := {
  ri_inv : uinv s;
  ri_flow : flow s = false;
  ri_refs : refs (conn s) = if freed s then 0 else 1;
  ri_freed : freed s = closed s && (outq_len (conn s) =? 0);
}.

Lemma sleepers_other q p m t x : sleepers q p m -> m !! t <> Some p -> x <> p -> sleepers q p (<[t := x]> m).
Proof.
  intros [H1 H2] Hn Hx. split; [done|]. intros t'. destruct (decide (t' = t)) as [->|Hne].
  - rewrite lookup_insert_eq, H2. split; [done|by intros [= ->]].
  - by rewrite lookup_insert_ne.
Qed.

Lemma sleepers_del q p m t : sleepers q p m -> m !! t <> Some p -> sleepers q p (delete t m).
Proof.
  intros [H1 H2] Hn. split; [done|]. intros t'. destruct (decide (t' = t)) as [->|Hne].
  - rewrite lookup_delete_eq, H2. done.
  - by rewrite lookup_delete_ne.
Qed.

Lemma sleepers_add q p m t : sleepers q p m -> m !! t <> Some p -> sleepers (q ++ [t]) p (<[t := p]> m).
Proof.
  intros [H1 H2] Hn. split.
  - apply list.NoDup_app. split_and!; [done| |by apply NoDup_singleton]. intros x Hx ->%list_elem_of_singleton. by apply Hn, H2.
  - intros t'. rewrite elem_of_app, list_elem_of_singleton. destruct (decide (t' = t)) as [->|Hne].
    + rewrite lookup_insert_eq. tauto.
    + rewrite lookup_insert_ne by done. rewrite H2. tauto.
Qed.

Lemma sleepers_pop t q p m x : sleepers (t :: q) p m -> x <> p -> m !! t = Some p /\ sleepers q p (<[t := x]> m).
Proof.
  intros [H1 H2] Hx. apply list.NoDup_cons in H1 as [N1 N2]. assert (Ht : m !! t = Some p) by (apply H2; by left). split; [done|]. split; [done|].
  intros t'. destruct (decide (t' = t)) as [->|Hne].
  - rewrite lookup_insert_eq. split; [done|by intros [= ->]].
  - rewrite lookup_insert_ne by done. rewrite <- H2, elem_of_cons. tauto.
Qed.

(** Waking the readers, or the writers. *)
Definition woken (ts : list nat) (p : tpc) (m : gmap nat tpc) : gmap nat tpc := foldl (fun m t => <[t := p]> m) m ts.

Lemma wake_all_ok ts rest : forall s w p o, (p = TReadWait /\ w = TRead /\ o = TWriteWait) \/ (p = TWriteWait /\ w = TWrite /\ o = TReadWait) ->
  sleepers (ts ++ rest) p (pcs s) ->
  wake_all ts s = Ok (set_pcs (woken ts w (pcs s)) s) /\ sleepers rest p (woken ts w (pcs s)) /\
  (forall q, q <> p -> q <> w -> cnt q (woken ts w (pcs s)) = cnt q (pcs s)) /\
  cnt w (woken ts w (pcs s)) = (length ts + cnt w (pcs s))%nat /\
  (forall q, sleepers q o (pcs s) -> sleepers q o (woken ts w (pcs s))) /\
  (forall t q, q <> p -> q <> w -> woken ts w (pcs s) !! t = Some q <-> pcs s !! t = Some q).
Proof.
  induction ts as [|t ts IH]; intros s w p o Hp Hs; cbn [wake_all woken foldl app] in *.
  - split_and!; try done. by destruct s.
  - assert (Hwp : w <> p) by (destruct Hp as [(-> & -> & _)|(-> & -> & _)]; done).
    assert (How : o <> w /\ o <> p) by (destruct Hp as [(-> & -> & ->)|(-> & -> & ->)]; done).
    destruct (sleepers_pop t (ts ++ rest) p (pcs s) w Hs Hwp) as [Ht Hs'].
    assert (E : wake t s = Ok (at_t t w s)) by (unfold wake; rewrite Ht; by destruct Hp as [(-> & -> & _)|(-> & -> & _)]).
    rewrite E. cbn [mbind res_bind]. destruct (IH (at_t t w s) w p o Hp Hs') as (E1 & S1 & C1 & C2 & O1 & L1). rewrite E1.
    change (pcs (at_t t w s)) with (<[t := w]> (pcs s)) in *. split_and!; [by destruct s|exact S1| | | |].
    + intros q Hq1 Hq2. fold (woken ts w (<[t := w]> (pcs s))). rewrite C1 by done. rewrite tcnt_insert, (cnt_split q t p (pcs s) Ht).
      rewrite !decide_False by done. done.
    + fold (woken ts w (<[t := w]> (pcs s))). rewrite C2, tcnt_insert, (cnt_split w t p (pcs s) Ht). rewrite decide_True by done.
      rewrite decide_False by done. cbn [length]. lia.
    + intros q Hq. apply O1. apply sleepers_other; [done|rewrite Ht; intros [= E']; by apply (proj2 How)|intros E'; by apply (proj1 How)].
    + intros t' q Hq1 Hq2. fold (woken ts w (<[t := w]> (pcs s))). rewrite L1 by done. destruct (decide (t' = t)) as [->|Hne].
      * rewrite lookup_insert_eq, Ht. split; [intros [= ->]; done|intros [= ->]; done].
      * by rewrite lookup_insert_ne.
Qed.

(** ** Every step keeps it *)

Definition quiet (s s' : ust) : Prop :=
  closed s' = closed s /\ freed s' = freed s /\ flow s' = flow s /\ refs (conn s') = refs (conn s).

Definition keeps (s : ust) (r : res ust) : Prop := exists s', r = Ok s' /\ uinv s' /\ quiet s s'.

Lemma recv_keeps s m : uinv s -> closed s = false ->
  keeps s (match udp_conn_recv m (conn s) with
           | (Queued th, c') => wake_all (option_list th) (log_accepted (drop (length (inq (conn s))) (inq c')) (set_conn c' s))
           | (_, c') => Ok (set_conn c' s)
           end).
Proof.
  intros Hs Hc. destruct Hs as [H1 H2 H3 H4 H5 H6 H7]. unfold udp_conn_recv. destruct (mbuf_pull_or_null sizeof_udp_hdr m) as [[h|] m'].
  2: { exists s. split_and!; [by destruct s|by split|done..]. }
  destruct (_ || _); [exists s; split_and!; [by destruct s|by split|done..]|].
  set (c1 := set_inq (inq (conn s) ++ [m']) (inq_len (conn s) + 1) (conn s)). change (inq_wq c1) with (inq_wq (conn s)).
  assert (Edr : drop (length (inq (conn s))) (inq (set_inq_wq (tail (inq_wq (conn s))) c1)) = [m']) by apply drop_app_length.
  rewrite Edr. set (s1 := log_accepted [m'] (set_conn _ s)).
  assert (Hsl : sleepers (option_list (list.head (inq_wq (conn s))) ++ tail (inq_wq (conn s))) TReadWait (pcs s1)) by (by destruct (inq_wq (conn s))).
  destruct (wake_all_ok _ _ s1 TRead TReadWait TWriteWait ltac:(left; done) Hsl) as (E & S1 & C1 & _ & O1 & _). rewrite E.
  eexists. split; [reflexivity|]. split; [|by split_and!]. split; cbn [conn pcs closed accepted delivered lost inflight set_pcs s1 log_accepted set_conn].
  - exact S1.
  - by apply O1.
  - intros _. cbn. rewrite (H3 Hc), length_app. cbn. lia.
  - destruct H4 as (rest & E4 & R4). exists (rest ++ [m']). split; [by rewrite E4, app_assoc|]. intros _. cbn. by rewrite (R4 Hc).
  - rewrite C1 by done. exact H5.
  - exact H6.
  - congruence.
Qed.

Lemma at_keeps s t p c : uinv s -> closed s = false ->
  (pcs s !! t = None \/ exists q, pcs s !! t = Some q /\ q <> TReadWait /\ q <> TWriteWait /\ q <> TSlot) -> p <> TReadWait -> p <> TWriteWait -> p <> TSlot ->
  inq_wq c = inq_wq (conn s) -> outq_wq c = outq_wq (conn s) -> inq_len c = inq_len (conn s) -> inq c = inq (conn s) -> outq_len c = outq_len (conn s) ->
  outq_free c = outq_free (conn s) -> refs c = refs (conn s) -> keeps s (Ok (at_t t p (set_conn c s))).
Proof.
  intros [H1 H2 H3 H4 H5 H6 H7] Hc Ht P1 P2 P3 E1 E2 E3 E4 E5 E6 E7. eexists. split; [reflexivity|]. split; [|split_and!; done].
  assert (N : forall q, q = TReadWait \/ q = TWriteWait \/ q = TSlot -> pcs s !! t <> Some q).
  { intros q Hq. destruct Ht as [->|(x & -> & X1 & X2 & X3)]; [done|]. intros [= ->]. naive_solver. }
  split; cbn [conn pcs closed accepted delivered lost inflight at_t set_pcs set_conn]; rewrite ?E1, ?E2, ?E3, ?E4, ?E5, ?E6; auto.
  - apply sleepers_other; auto.
  - apply sleepers_other; auto.
  - rewrite H5, tcnt_insert. rewrite decide_False by done. f_equal. f_equal. f_equal. destruct (pcs s !! t) as [x|] eqn:E.
    + rewrite (cnt_split TSlot t x (pcs s) E), decide_False; [done|]. intros ->. by apply (N TSlot); auto.
    + by rewrite delete_id.
  - congruence.
Qed.

Lemma idle_keeps s t q c : uinv s -> closed s = false -> pcs s !! t = Some q -> q <> TReadWait -> q <> TWriteWait -> q <> TSlot ->
  inq_wq c = inq_wq (conn s) -> outq_wq c = outq_wq (conn s) -> inq_len c = Z.of_nat (length (inq c)) -> outq_len c = outq_len (conn s) ->
  outq_free c = outq_free (conn s) -> refs c = refs (conn s) ->
  forall l, inq (conn s) = l ++ inq c -> keeps s (Ok (log_delivered l (idle_t t (set_conn c s)))).
Proof.
  intros [H1 H2 H3 H4 H5 H6 H7] Hc Ht Q1 Q2 Q3 E1 E2 E3 E5 E6 E7 l El. eexists. split; [reflexivity|]. split; [|split_and!; done].
  split; cbn [conn pcs closed accepted delivered lost inflight idle_t log_delivered set_pcs set_conn]; rewrite ?E1, ?E2, ?E5, ?E6; auto.
  - apply sleepers_del; [done|]. rewrite Ht. congruence.
  - apply sleepers_del; [done|]. rewrite Ht. congruence.
  - destruct H4 as (rest & E4 & R4). exists (inq c). split; [|done]. rewrite E4, (R4 Hc), El. by rewrite app_assoc.
  - rewrite H5, (cnt_split TSlot t q (pcs s) Ht), decide_False by done. done.
  - congruence.
Qed.

Lemma read_keeps s t : uinv s -> closed s = false -> pcs s !! t = Some TRead ->
  keeps s (Ok (match udp_read_locked t (conn s) with
               | (ReadSleep, c) => at_t t TReadWait (set_conn c s)
               | (ReadRet _, c) => idle_t t (set_conn c s)
               | (ReadPop m, c) => log_delivered [m] (idle_t t (set_conn c s))
               end)).
Proof.
  intros Hs Hc Ht. assert (Hx := Hs). destruct Hx as [H1 H2 H3 H4 H5 H6 H7]. unfold udp_read_locked.
  assert (Hret : keeps s (Ok (idle_t t (set_conn (conn s) s)))).
  { destruct (idle_keeps s t TRead (conn s) Hs Hc Ht ltac:(done) ltac:(done) ltac:(done) eq_refl eq_refl (H3 Hc) eq_refl eq_refl eq_refl [] eq_refl) as (s' & E & K).
    exists s'. split; [|done]. rewrite <- E. unfold log_delivered, idle_t, set_pcs, set_conn. cbn. by rewrite app_nil_r. }
  destruct (_ && negb (shutdown (conn s))) eqn:Es.
  - eexists. split; [reflexivity|]. split; [|by split_and!]. split; cbn [conn pcs closed accepted delivered lost inflight at_t set_pcs set_conn]; auto.
    + apply sleepers_add; [done|]. by rewrite Ht.
    + apply sleepers_other; [done|by rewrite Ht|done].
    + change (outq_len (set_inq_wq (inq_wq (conn s) ++ [t]) (conn s))) with (outq_len (conn s)). rewrite H5, tcnt_insert, (cnt_split TSlot t TRead (pcs s) Ht). done.
    + congruence.
  - destruct (bool_decide (inq (conn s) = []) && shutdown (conn s)); [exact Hret|]. destruct (negb (inq_err (conn s) =? 0)); [exact Hret|]. destruct (inq (conn s)) as [|m q] eqn:Eq; [exact Hret|].
    apply (idle_keeps s t TRead (set_inq q (inq_len (conn s) - 1) (conn s))); try done. cbn. rewrite (H3 Hc). cbn. lia.
Qed.

Lemma write_keeps s t : uinv s -> closed s = false -> pcs s !! t = Some TWrite ->
  keeps s (Ok (match udp_write_locked t (conn s) with
               | (WriteSleep, c) => at_t t TWriteWait (set_conn c s)
               | (WriteRet _, c) => idle_t t (set_conn c s)
               | (WriteSlot, c) => at_t t TSlot (set_conn c s)
               end)).
Proof.
  intros Hs Hc Ht. assert (Hx := Hs). destruct Hx as [H1 H2 H3 H4 H5 H6 H7]. unfold udp_write_locked.
  destruct (_ && negb (shutdown (conn s))) eqn:Es; [|destruct (shutdown (conn s))].
  - eexists. split; [reflexivity|]. split; [|by split_and!]. split; cbn [conn pcs closed accepted delivered lost inflight at_t set_pcs set_conn]; auto.
    + apply sleepers_other; [done|by rewrite Ht|done].
    + apply sleepers_add; [done|]. by rewrite Ht.
    + change (outq_len (set_outq_wq (outq_wq (conn s) ++ [t]) (conn s))) with (outq_len (conn s)). rewrite H5, tcnt_insert, (cnt_split TSlot t TWrite (pcs s) Ht). done.
    + congruence.
  - destruct (idle_keeps s t TWrite (conn s) Hs Hc Ht ltac:(done) ltac:(done) ltac:(done) eq_refl eq_refl (H3 Hc) eq_refl eq_refl eq_refl [] eq_refl) as (s' & E & K).
    exists s'. split; [|done]. rewrite <- E. unfold log_delivered, idle_t, set_pcs, set_conn. cbn. by rewrite app_nil_r.
  - eexists. split; [reflexivity|]. split; [|by split_and!]. split; cbn [conn pcs closed accepted delivered lost inflight at_t set_pcs set_conn]; auto.
    + apply sleepers_other; [done|by rewrite Ht|done].
    + apply sleepers_other; [done|by rewrite Ht|done].
    + change (outq_len (set_outq_len (outq_len (conn s) + 1) (conn s))) with (outq_len (conn s) + 1).
      rewrite H5, tcnt_insert, (cnt_split TSlot t TWrite (pcs s) Ht). repeat case_decide; try done. lia.
    + congruence.
Qed.

Lemma slot_keeps s t sent : uinv s -> closed s = false -> pcs s !! t = Some TSlot ->
  keeps s (Ok (idle_t t (if (sent : bool) then set_inflight (S (inflight s)) s else log_lost s))).
Proof.
  intros [H1 H2 H3 H4 H5 H6 H7] Hc Ht. eexists. split; [reflexivity|]. split; [|by destruct sent].
  split; (destruct sent; cbn [conn pcs closed accepted delivered lost inflight idle_t set_pcs set_inflight log_lost]; auto); try congruence;
    try (apply sleepers_del; [done|by rewrite Ht]); rewrite H5, (cnt_split TSlot t TSlot (pcs s) Ht), decide_True by done; lia.
Qed.

(** Releasing a wait queue. *)
Lemma release_in_keeps s c t p : uinv s -> closed s = false -> pcs s !! t = Some p -> p = TErr \/ p = TShutIn -> c = set_inq_wq [] (conn s) ->
  keeps s (wake_all (inq_wq (conn s)) (idle_t t (set_conn c s))) /\ keeps s (wake_all (inq_wq (conn s)) (at_t t TShutOut (set_conn c s))).
Proof.
  intros [H1 H2 H3 H4 H5 H6 H7] Hc Ht Hp ->. rewrite <- (app_nil_r (inq_wq (conn s))) in H1.
  assert (N : p <> TReadWait /\ p <> TWriteWait /\ p <> TSlot) by (by destruct Hp as [->| ->]). destruct N as (N1 & N2 & N3).
  assert (Hgo : forall m', sleepers (inq_wq (conn s) ++ []) TReadWait m' -> sleepers (outq_wq (conn s)) TWriteWait m' -> cnt TSlot m' = cnt TSlot (pcs s) ->
    keeps s (wake_all (inq_wq (conn s)) (set_pcs m' (set_conn (set_inq_wq [] (conn s)) s)))).
  { intros m' K1 K2 K3.
    destruct (wake_all_ok (inq_wq (conn s)) [] (set_pcs m' (set_conn (set_inq_wq [] (conn s)) s)) TRead TReadWait TWriteWait ltac:(by left) K1) as (E & S1 & C1 & _ & O1 & _).
    rewrite E. cbn [pcs set_pcs] in *. eexists. split; [reflexivity|]. split; [|by split_and!].
    split; cbn [conn pcs closed accepted delivered lost inflight set_pcs set_conn]; auto.
    - rewrite C1 by done. rewrite K3. exact H5.
    - congruence. }
  split; apply Hgo; cbn [pcs set_conn].
  - apply sleepers_del; [done|rewrite Ht; congruence].
  - apply sleepers_del; [done|rewrite Ht; congruence].
  - rewrite (cnt_split TSlot t p (pcs s) Ht), decide_False by done. done.
  - apply sleepers_other; [done|rewrite Ht; congruence|done].
  - apply sleepers_other; [done|rewrite Ht; congruence|done].
  - rewrite tcnt_insert, (cnt_split TSlot t p (pcs s) Ht). by rewrite !decide_False.
Qed.

Lemma release_out_keeps s t : uinv s -> closed s = false -> pcs s !! t = Some TShutOut ->
  keeps s (wake_all (outq_wq (conn s)) (idle_t t (set_conn (set_outq_wq [] (conn s)) s))).
Proof.
  intros [H1 H2 H3 H4 H5 H6 H7] Hc Ht. rewrite <- (app_nil_r (outq_wq (conn s))) in H2.
  assert (K2 : sleepers (outq_wq (conn s) ++ []) TWriteWait (delete t (pcs s))) by (apply sleepers_del; [done|by rewrite Ht]).
  destruct (wake_all_ok (outq_wq (conn s)) [] (idle_t t (set_conn (set_outq_wq [] (conn s)) s)) TWrite TWriteWait TReadWait ltac:(by right) K2) as (E & S1 & C1 & _ & O1 & _).
  rewrite E. eexists. split; [reflexivity|]. split; [|by split_and!]. split; cbn [conn pcs closed accepted delivered lost inflight set_pcs set_conn idle_t] in *; auto.
  - apply O1. apply sleepers_del; [done|by rewrite Ht].
  - rewrite C1 by done. change (outq_len (set_outq_wq [] (conn s))) with (outq_len (conn s)). rewrite H5, (cnt_split TSlot t TShutOut (pcs s) Ht). done.
  - congruence.
Qed.

Lemma go_keeps s t sent r : uinv s -> go t sent s = Some r -> keeps s r.
Proof.
  intros Hs Hg. assert (Hc : closed s = false).
  { destruct (closed s) eqn:E; [|done]. destruct (ui_closed _ Hs E) as [Ep _]. unfold go in Hg. rewrite Ep, lookup_empty in Hg. done. }
  unfold go in Hg. destruct (pcs s !! t) as [[| | | | | | |]|] eqn:Ht; try done; injection Hg as <-.
  - by apply read_keeps.
  - by apply write_keeps.
  - by apply slot_keeps.
  - by apply (release_in_keeps s _ t TErr); auto.
  - destruct (_ =? 0); [by apply (release_in_keeps s _ t TShutIn); auto|].
    destruct (at_keeps s t TShutOut (conn s) Hs Hc) as (s' & E & K); try done; [right; by eexists|]. exists s'. split; [|done]. rewrite <- E. by destruct s.
  - by apply release_out_keeps.
Qed.

(** A state in which the socket is closed. *)
Lemma closed_empty s : uinv s -> closed s = true -> inq_wq (conn s) = [] /\ outq_wq (conn s) = [] /\ inq (conn s) = [].
Proof.
  intros [H1 H2 H3 H4 H5 H6 H7] Hc. destruct (H7 Hc) as [Ep Ei]. rewrite Ep in H1, H2.
  assert (N : forall q p, sleepers q p ∅ -> q = []).
  { intros [|t q] p [_ Hq]; [done|]. assert (Ht : t ∈ t :: q) by (by left). apply Hq in Ht. by rewrite lookup_empty in Ht. }
  split_and!; [by eapply N|by eapply N|done].
Qed.

Lemma put_ref_ok s : uinv s -> closed s = true ->
  exists s', put_ref (conn s) s = Ok s' /\ uinv s' /\ closed s' = true /\ flow s' = flow s /\ outq_len (conn s') = outq_len (conn s) /\
    refs (conn s') = refs (conn s) - 1 /\ freed s' = (freed s || (refs (conn s) =? 1)).
Proof.
  intros Hs Hc. destruct (closed_empty s Hs Hc) as (E1 & E2 & E3). unfold put_ref, udp_conn_put, udp_release_conn_ref.
  change (inq_wq (set_refs (refs (conn s) - 1) (conn s))) with (inq_wq (conn s)). change (outq_wq (set_refs (refs (conn s) - 1) (conn s))) with (outq_wq (conn s)).
  change (inq (set_refs (refs (conn s) - 1) (conn s))) with (inq (conn s)). rewrite E1, E2, E3. cbn [refs set_refs].
  assert (Hb : (refs (conn s) - 1 =? 0) = (refs (conn s) =? 1)) by (destruct (Z.eqb_spec (refs (conn s)) 1); [by apply Z.eqb_eq; lia|by apply Z.eqb_neq; lia]).
  rewrite Hb. destruct Hs as [H1 H2 H3 H4 H5 H6 H7].
  destruct (refs (conn s) =? 1); cbn; (eexists; split; [reflexivity|]); (split; [split; assumption|]); split_and!; try done; rewrite ?orb_true_r, ?orb_false_r; done.
Qed.

Lemma txdone_keeps s n : uinv s -> inflight s = S n ->
  exists s1 b, (let '(th, free_conn, c) := udp_tx_release_mbuf (conn s) in
             s ← wake_all (option_list th) (set_inflight n (set_conn c s));
             if (free_conn : bool) then put_ref (conn s) s else Ok s) = (if (b : bool) then put_ref (conn s1) s1 else Ok s1) /\
    uinv s1 /\ quiet s s1 /\ outq_len (conn s1) = outq_len (conn s) - 1 /\ b = (closed s && (outq_len (conn s) - 1 =? 0)).
Proof.
  intros [H1 H2 H3 H4 H5 H6 H7] Hn. unfold udp_tx_release_mbuf.
  set (c1 := set_outq_len (outq_len (conn s) - 1) (conn s)). change (shutdown c1) with (shutdown (conn s)).
  assert (Hgo : forall q c, c = c1 \/ c = set_outq_wq q c1 -> sleepers q TWriteWait (pcs s) -> outq_wq c = q -> uinv (set_inflight n (set_conn c s))).
  { intros q c Ec Hq Eq. assert (F : inq_wq c = inq_wq (conn s) /\ inq_len c = inq_len (conn s) /\ inq c = inq (conn s) /\ outq_len c = outq_len (conn s) - 1 /\ outq_free c = outq_free (conn s))
      by (destruct Ec as [->| ->]; done). destruct F as (F1 & F2 & F3 & F4 & F5).
    split; cbn [conn pcs closed accepted delivered lost inflight set_inflight set_conn]; rewrite ?F1, ?F2, ?F3, ?F4, ?F5, ?Eq; auto. rewrite H5, Hn. lia. }
  destruct (shutdown (conn s)); cbn [negb].
  - eexists _, _. split; [reflexivity|]. split_and!; try done; [by apply (Hgo (outq_wq (conn s))); [left| |]|]. cbn. by rewrite H6.
  - change (outq_wq c1) with (outq_wq (conn s)). destruct (outq_wq (conn s)) as [|t q] eqn:Eq; cbn [list.head tail option_list].
    + cbn [wake_all mbind res_bind]. eexists _, _. split; [reflexivity|]. split_and!; try done; [by apply (Hgo []); [right| |]|]. cbn. by rewrite H6.
    + set (c2 := set_outq_wq q c1).
      destruct (wake_all_ok [t] q (set_inflight n (set_conn c2 s)) TWrite TWriteWait TReadWait ltac:(by right) H2) as (E & S1 & C1 & _ & O1 & _).
      change (option_list (Some t)) with [t]. rewrite E. cbn [mbind res_bind]. eexists _, _. split; [reflexivity|]. split_and!; try done; [|cbn; by rewrite H6].
      cbn [pcs set_inflight set_conn] in *. split; cbn [conn pcs closed accepted delivered lost inflight set_inflight set_conn set_pcs c2 c1]; auto.
      * cbn. rewrite C1 by done. rewrite H5, Hn. lia.
      * intros Hc. destruct (H7 Hc) as [Ep Ei]. exfalso. assert (Ht : t ∈ t :: q) by (by left). apply H2 in Ht. by rewrite Ep, lookup_empty in Ht.
Qed.

Lemma close_keeps s : uinv s -> closed s = false -> pcs s = ∅ ->
  exists s1 b, ('(free_conn, c) ← udp_close (conn s);
             if (free_conn : bool) then put_ref c (set_closed true (set_conn c s)) else Ok (set_closed true (set_conn c s))) = (if (b : bool) then put_ref (conn s1) s1 else Ok s1) /\
    uinv s1 /\ closed s1 = true /\ freed s1 = freed s /\ flow s1 = flow s /\ refs (conn s1) = refs (conn s) /\
    outq_len (conn s1) = outq_len (conn s) /\ b = (outq_len (conn s) =? 0).
Proof.
  intros Hs Hc Hp. assert (Hx := Hs). destruct Hx as [H1 H2 H3 H4 H5 H6 H7].
  assert (N : forall q p, sleepers q p (pcs s) -> q = []).
  { intros [|t q] p [_ Hq]; [done|]. assert (Ht : t ∈ t :: q) by (by left). apply Hq in Ht. by rewrite Hp, lookup_empty in Ht. }
  assert (W1 := N _ _ H1). assert (W2 := N _ _ H2). unfold udp_close, __udp_shutdown.
  set (c0 := if shutdown (conn s) then conn s else set_shutdown true (conn s)).
  assert (E0 : (if negb (shutdown (conn s)) then _ ← BUG_ON (shutdown (conn s)); Ok (set_shutdown true (conn s)) else Ok (conn s)) = Ok c0)
    by (unfold c0; by destruct (shutdown (conn s))).
  rewrite E0. cbn [mbind res_bind].
  assert (F : inq_wq c0 = [] /\ outq_wq c0 = [] /\ inq_len c0 = inq_len (conn s) /\ outq_len c0 = outq_len (conn s) /\ refs c0 = refs (conn s))
    by (unfold c0; by destruct (shutdown (conn s))). destruct F as (F1 & F2 & F3 & F4 & F5).
  rewrite F1, F2. cbn [BUG_ON mbind res_bind negb bool_decide decide_rel].
  rewrite !bool_decide_eq_true_2 by done. cbn [BUG_ON mbind res_bind negb].
  eexists (set_closed true (set_conn (set_outq_free true (set_inq [] (inq_len c0) c0)) s)), _. split; [reflexivity|].
  split; [|split_and!; try done; cbn; by rewrite ?F4]. split; cbn; try done.
  - rewrite F1. rewrite <- W1. exact H1.
  - rewrite F2. rewrite <- W2. exact H2.
  - destruct H4 as (rest & E4 & _). by exists rest.
  - by rewrite F4.
Qed.

(** What a step of a socket without hardware flows does. *)
Lemma ustep_rinv a s : rinv s -> uok a s -> match ustep a s with None => True | Some r => exists s', r = Ok s' /\ rinv s' end.
Proof.
  intros [Hs Hfl Hr Hf] Ha. assert (Hopen : closed s = false -> freed s = false) by (intros E; by rewrite Hf, E).
  assert (Hk : forall r, closed s = false -> keeps s r -> exists s', r = Ok s' /\ rinv s').
  { intros r Hc (s' & -> & Hs' & Q1 & Q2 & Q3 & Q4). exists s'. split; [done|]. split; [done|congruence|by rewrite Q4, Q2|]. by rewrite Q2, Q1, (Hopen Hc), Hc. }
  assert (Hi : forall t, idle t s = true -> pcs s !! t = None) by (intros t E; by apply bool_decide_eq_true in E).
  destruct a as [m|t err|t|t|t sent| |i o|t| |]; cbn [ustep uok] in *; unfold live.
  - rewrite (Hopen Ha). apply Hk; [done|]. by apply recv_keeps.
  - destruct Ha as [Hc Herr]. destruct (idle t s) eqn:Et; [|done]. rewrite (Hopen Hc). apply Hk; [done|]. cbn [udp_conn_err].
    destruct ((inq_err (conn s) =? 0) && negb (shutdown (conn s))); [by apply at_keeps; auto|]. destruct Hs as [H1 H2 H3 H4 H5 H6 H7]. eexists. split; [reflexivity|]. split; [by split|done].
  - destruct (idle t s) eqn:Et; [|done]. rewrite (Hopen Ha). apply Hk; [done|].
    destruct (at_keeps s t TRead (conn s) Hs Ha) as (s' & E & K); auto. exists s'. split; [|done]. rewrite <- E. by destruct s.
  - destruct (idle t s) eqn:Et; [|done]. rewrite (Hopen Ha). apply Hk; [done|].
    destruct (at_keeps s t TWrite (conn s) Hs Ha) as (s' & E & K); auto. exists s'. split; [|done]. rewrite <- E. by destruct s.
  - destruct (idle t s) eqn:Et; [done|]. assert (Hc : closed s = false).
    { destruct (closed s) eqn:E; [|done]. destruct (ui_closed _ Hs E) as [Ep _]. unfold idle in Et. rewrite Ep, lookup_empty in Et. by rewrite bool_decide_eq_true_2 in Et. }
    rewrite (Hopen Hc). destruct (go t sent s) as [r|] eqn:Eg; [|done]. apply Hk; [done|]. by apply (go_keeps s t sent).
  - destruct (inflight s) as [|n] eqn:En; [done|]. assert (Hl := ui_slots _ Hs). assert (Hnf : freed s = false).
    { rewrite Hf. destruct (closed s); [|done]. cbn. apply Z.eqb_neq. lia. }
    rewrite Hnf. destruct (txdone_keeps s n Hs En) as (s1 & b & E & Hs1 & (Q1 & Q2 & Q3 & Q4) & Ql & ->). rewrite E. clear E.
    destruct (closed s) eqn:Hc; cbn [andb].
    + destruct (Z.eqb_spec (outq_len (conn s) - 1) 0) as [E0|E0].
      * destruct (put_ref_ok s1 Hs1 Q1) as (s2 & E2 & Hs2 & C2 & F2 & L2 & R2 & G2). exists s2. split; [done|].
        rewrite Q4, Hr, Hnf in R2, G2. rewrite Q2, Hnf in G2. cbn in G2. split; [done|congruence|by rewrite R2, G2|]. rewrite G2, C2, L2, Ql, E0. done.
      * exists s1. split; [done|]. split; [done|congruence|by rewrite Q4, Q2|]. rewrite Q2, Hnf, Q1, Ql. cbn. symmetry. by apply Z.eqb_neq.
    + exists s1. split; [done|]. split; [done|congruence|by rewrite Q4, Q2|]. by rewrite Q2, Hnf, Q1.
  - rewrite (Hopen Ha). apply Hk; [done|]. destruct Hs as [H1 H2 H3 H4 H5 H6 H7]. eexists. split; [reflexivity|]. split; [by split|done].
  - destruct Ha as [Hc Hsh]. destruct (idle t s) eqn:Et; [|done]. rewrite (Hopen Hc). apply Hk; [done|]. unfold __udp_shutdown. rewrite Hsh. cbn [BUG_ON mbind res_bind].
    by apply at_keeps; auto.
  - destruct Ha as [Hc Hp]. rewrite (Hopen Hc). destruct (close_keeps s Hs Hc Hp) as (s1 & b & E & Hs1 & C1 & F1 & L1 & R1 & O1 & ->). rewrite E. clear E.
    rewrite (Hopen Hc) in F1. rewrite Hr, (Hopen Hc) in R1. destruct (Z.eqb_spec (outq_len (conn s)) 0) as [E0|E0].
    + destruct (put_ref_ok s1 Hs1 C1) as (s2 & E2 & Hs2 & C2 & F2 & L2 & R2 & G2). exists s2. split; [done|]. rewrite R1 in R2, G2. rewrite F1 in G2. cbn in G2.
      split; [done|congruence|by rewrite R2, G2|]. by rewrite G2, C2, L2, O1, E0.
    + exists s1. split; [done|]. split; [done|congruence|by rewrite R1, F1|]. rewrite F1, C1, O1. cbn. symmetry. by apply Z.eqb_neq.
  - rewrite Hfl, andb_false_r. done.
Qed.

Lemma start_rinv e : rinv (udp_start e false).
Proof.
  split; [|done..]. split; cbn; try done.
  - split; [apply base.NoDup_nil_2|]. intros t. rewrite lookup_empty. split; [by intros ?%elem_of_nil|done].
  - split; [apply base.NoDup_nil_2|]. intros t. rewrite lookup_empty. split; [by intros ?%elem_of_nil|done].
  - by exists [].
Qed.

Lemma ureach_rinv ok e s : (forall a s, ok a s -> uok a s) -> ureach ok (udp_start e false) s -> rinv s.
Proof.
  intros Hok. induction 1 as [|a s s' _ IH Ha Hst]; [apply start_rinv|]. assert (F := ustep_rinv a s IH (Hok _ _ Ha)). rewrite Hst in F.
  by destruct F as (s'' & [= <-] & H).
Qed.

(** ** Sleeping threads are woken *)

Definition somewhere (p : tpc) (s : ust) : Prop := exists t, pcs s !! t = Some p.

Record linv (s : ust) : Prop := {
  li_in : inq_wq (conn s) <> [] ->
    if negb (inq_err (conn s) =? 0) then somewhere TErr s
    else if shutdown (conn s) then somewhere TShutIn s
    else (length (inq (conn s)) <= cnt TRead (pcs s))%nat;
  li_out : outq_wq (conn s) <> [] ->
    if shutdown (conn s) then somewhere TShutIn s \/ somewhere TShutOut s
    else outq_cap (conn s) <= outq_len (conn s) + Z.of_nat (cnt TWrite (pcs s));
}.

(** Errors come before the socket is shut down, and the buffers are not resized. *)
Definition calm (a : uaction) (s : ust) : Prop :=
  uok a s /\ match a with AErr _ _ => shutdown (conn s) = false | ASetBuffers _ _ => False | _ => True end.

Lemma somewhere_other p t q s c : pcs s !! t <> Some p -> somewhere p s -> somewhere p (at_t t q (set_conn c s)) /\ somewhere p (idle_t t (set_conn c s)).
Proof.
  intros Hn [t' Ht']. assert (t' <> t) by (intros ->; done).
  split; exists t'; cbn; [by rewrite lookup_insert_ne|by rewrite lookup_delete_ne].
Qed.

Lemma somewhere_at t p s c : somewhere p (at_t t p (set_conn c s)).
Proof. exists t. cbn. apply lookup_insert_eq. Qed.

(** A thread moves from [q] to [p] or leaves, and the queues stay as they are. *)
Lemma cnt_at p t q x m : m !! t = q -> q <> Some x -> (cnt x (<[t := p]> m) = (if decide (p = x) then 1 else 0) + cnt x m)%nat /\ cnt x (delete t m) = cnt x m.
Proof.
  intros Hq Hx. rewrite tcnt_insert. assert (E : cnt x (delete t m) = cnt x m).
  { destruct (m !! t) as [y|] eqn:E; [|by rewrite delete_id]. rewrite (cnt_split x t y m E), decide_False; [done|]. intros ->. congruence. }
  by rewrite E.
Qed.

Lemma recv_linv s m s' : uinv s -> linv s -> closed s = false -> ustep (ARecv m) s = Some (Ok s') -> linv s'.
Proof.
  intros Hs Hl Hc. assert (Hx := Hs). destruct Hx as [H1 H2 H3 H4 H5 H6 H7]. cbn [ustep]. unfold live, udp_conn_recv. destruct (freed s); [done|].
  destruct (mbuf_pull_or_null sizeof_udp_hdr m) as [[h|] m']; [|intros [= <-]; by destruct s].
  destruct (_ || negb (inq_err (conn s) =? 0) || shutdown (conn s)) eqn:E; [intros [= <-]; by destruct s|].
  apply orb_false_iff in E as [[_ E1]%orb_false_iff E2]. set (c1 := set_inq _ _ (conn s)). change (inq_wq c1) with (inq_wq (conn s)).
  set (s1 := log_accepted _ (set_conn _ s)).
  assert (Hsl : sleepers (option_list (list.head (inq_wq (conn s))) ++ tail (inq_wq (conn s))) TReadWait (pcs s1)) by (by destruct (inq_wq (conn s))).
  destruct (wake_all_ok _ _ s1 TRead TReadWait TWriteWait ltac:(left; done) Hsl) as (Ew & _ & C1 & C2 & _ & _). rewrite Ew. intros [= <-].
  cbn [pcs s1 log_accepted set_conn] in C1, C2. destruct Hl as [L1 L2]. split; cbn [conn pcs set_pcs s1 log_accepted set_conn].
  - cbn. rewrite E1, E2. intros Hne. assert (Hne' : inq_wq (conn s) <> []) by (by destruct (inq_wq (conn s))). specialize (L1 Hne'). rewrite E1, E2 in L1. cbn in L1.
    rewrite C2, length_app. destruct (inq_wq (conn s)); [done|]. cbn. lia.
  - cbn. rewrite E2. intros Hne. specialize (L2 Hne). rewrite E2 in L2. by rewrite C1.
Qed.

Lemma read_linv s t s' : uinv s -> linv s -> pcs s !! t = Some TRead -> go t true s = Some (Ok s') -> linv s'.
Proof.
  intros Hs [L1 L2] Ht. unfold go. rewrite Ht. intros [= <-]. unfold udp_read_locked.
  assert (Hw : forall c l, inq_wq c = inq_wq (conn s) -> outq_wq c = outq_wq (conn s) -> shutdown c = shutdown (conn s) -> outq_cap c = outq_cap (conn s) ->
    outq_len c = outq_len (conn s) -> inq_err c = inq_err (conn s) ->
    (inq_err (conn s) = 0 -> shutdown (conn s) = false -> (S (length (inq c)) <= length (inq (conn s)))%nat) -> linv (log_delivered l (idle_t t (set_conn c s)))).
  { intros c l E1 E2 E3 E4 E5 E6 Hlen. split; cbn [conn pcs log_delivered idle_t set_pcs set_conn]; rewrite ?E1, ?E2, ?E3, ?E4, ?E5, ?E6; intros Hne.
    - specialize (L1 Hne). destruct (negb (inq_err (conn s) =? 0)) eqn:Ee; [by apply (somewhere_other TErr t TErr s c); [rewrite Ht|]|].
      destruct (shutdown (conn s)) eqn:Esh; [by apply (somewhere_other TShutIn t TErr s c); [rewrite Ht|]|].
      rewrite (cnt_split TRead t TRead (pcs s) Ht), decide_True in L1 by done. apply negb_false_iff, Z.eqb_eq in Ee. specialize (Hlen Ee eq_refl). lia.
    - specialize (L2 Hne). destruct (shutdown (conn s)).
      + destruct L2 as [L2|L2]; [left|right]; by apply (somewhere_other _ t TErr s c); [rewrite Ht|].
      + by rewrite (proj2 (cnt_at TErr t (Some TRead) TWrite (pcs s) Ht ltac:(done))). }
  assert (Hret : (inq_err (conn s) = 0 -> shutdown (conn s) = true) -> linv (idle_t t (set_conn (conn s) s))).
  { intros Hz. destruct (Hw (conn s) []) as [M1 M2]; [done..|intros A B; rewrite (Hz A) in B; done|].
    unfold log_delivered, idle_t, set_pcs, set_conn in M1, M2. cbn in M1, M2. split; done. }
  case_bool_decide as Eq; cbn [andb].
  - destruct (inq_err (conn s) =? 0) eqn:Ee; cbn [andb negb].
    + destruct (shutdown (conn s)) eqn:Esh; cbn [andb negb].
      * apply Hret. done.
      * split; cbn [conn pcs at_t set_pcs set_conn]; cbn; rewrite ?Ee, ?Esh; intros Hne.
        -- rewrite Eq. cbn. lia.
        -- specialize (L2 Hne). by rewrite (proj1 (cnt_at TReadWait t (Some TRead) TWrite (pcs s) Ht ltac:(done))).
    + apply Z.eqb_neq in Ee. destruct (shutdown (conn s)); (apply Hret; intros ?; done).
  - destruct (inq_err (conn s) =? 0) eqn:Ee; cbn [negb]; [|apply Z.eqb_neq in Ee; apply Hret; intros ?; done].
    destruct (inq (conn s)) as [|m q] eqn:Eq'; [done|]. apply Hw; try done.
Qed.

Lemma write_linv s t s' : uinv s -> linv s -> pcs s !! t = Some TWrite -> go t true s = Some (Ok s') -> linv s'.
Proof.
  intros Hs [L1 L2] Ht. unfold go. rewrite Ht. intros [= <-]. unfold udp_write_locked.
  assert (Hin : forall x m', (m' = delete t (pcs s) \/ m' = <[t := x]> (pcs s)) -> x <> TRead -> x <> TErr -> x <> TShutIn -> forall c, inq_wq c = inq_wq (conn s) -> inq_err c = inq_err (conn s) ->
    shutdown c = shutdown (conn s) -> inq c = inq (conn s) -> inq_wq c <> [] -> if negb (inq_err c =? 0) then somewhere TErr (set_pcs m' (set_conn c s))
    else if shutdown c then somewhere TShutIn (set_pcs m' (set_conn c s)) else (length (inq c) <= cnt TRead m')%nat).
  { intros x m' Hm X1 X2 X3 c E1 E2 E3 E4. rewrite E1, E2, E3, E4. intros Hne. specialize (L1 Hne). destruct (negb _); [|destruct (shutdown (conn s))].
    - destruct Hm as [->| ->]; by apply (somewhere_other TErr t x s c); [rewrite Ht|].
    - destruct Hm as [->| ->]; by apply (somewhere_other TShutIn t x s c); [rewrite Ht|].
    - destruct (cnt_at x t (Some TWrite) TRead (pcs s) Ht ltac:(done)) as [C1 C2]. destruct Hm as [->| ->]; [by rewrite C2|]. rewrite C1, decide_False by done. done. }
  destruct (shutdown (conn s)) eqn:Esh; cbn [negb]; rewrite ?andb_false_r, ?andb_true_r.
  - split; cbn [conn pcs idle_t set_pcs set_conn]; [intros Hne; apply (Hin TSlot); auto|]. rewrite Esh. intros Hne. specialize (L2 Hne).
    destruct L2 as [L2|L2]; [left|right]; by apply (somewhere_other _ t TErr s (conn s)); [rewrite Ht|].
  - destruct (outq_len (conn s) >=? outq_cap (conn s)) eqn:El; split; cbn [conn pcs at_t set_pcs set_conn]; try (intros Hne; apply (Hin TWriteWait); auto; fail); try (intros Hne; apply (Hin TSlot); auto; fail).
    + cbn. rewrite Esh. intros _. apply Z.geb_le in El. lia.
    + cbn. rewrite Esh. intros Hne. specialize (L2 Hne). rewrite tcnt_insert. rewrite (cnt_split TWrite t TWrite (pcs s) Ht), decide_True in L2 by done. rewrite decide_False by done. lia.
Qed.

Lemma linv_frame s s' : linv s ->
  (inq_wq (conn s'), outq_wq (conn s'), inq (conn s'), outq_cap (conn s'), outq_len (conn s'), inq_err (conn s'), shutdown (conn s')) =
  (inq_wq (conn s), outq_wq (conn s), inq (conn s), outq_cap (conn s), outq_len (conn s), inq_err (conn s), shutdown (conn s)) ->
  (cnt TRead (pcs s) <= cnt TRead (pcs s'))%nat -> (cnt TWrite (pcs s) <= cnt TWrite (pcs s'))%nat ->
  (forall p, p = TErr \/ p = TShutIn \/ p = TShutOut -> somewhere p s -> somewhere p s') -> linv s'.
Proof.
  intros [L1 L2] E C1 C2 Hp. injection E as E1 E2 E3 E4 E5 E6 E7. split; rewrite ?E1, ?E2, ?E3, ?E4, ?E5, ?E6, ?E7; intros Hne.
  - specialize (L1 Hne). destruct (negb _); [|destruct (shutdown (conn s))]; auto. lia.
  - specialize (L2 Hne). destruct (shutdown (conn s)); [destruct L2; auto|lia].
Qed.

(** A thread enters, or leaves with its slot. *)
Lemma enter_linv s s' t p : linv s -> pcs s !! t = None -> pcs s' = <[t := p]> (pcs s) -> conn s' = conn s -> linv s'.
Proof.
  intros Hl Ht Ep Ec. apply (linv_frame s); auto; rewrite ?Ec, ?Ep; try done.
  - rewrite (proj1 (cnt_at p t None TRead (pcs s) Ht ltac:(done))). lia.
  - rewrite (proj1 (cnt_at p t None TWrite (pcs s) Ht ltac:(done))). lia.
  - intros q _ [t' Ht']. exists t'. rewrite Ep, lookup_insert_ne; [done|]. intros ->. congruence.
Qed.

Lemma put_linv s s' : put_ref (conn s) s = Ok s' -> linv s -> linv s'.
Proof.
  unfold put_ref, udp_conn_put. intros E Hl. destruct (refs _ =? 0).
  - destruct (udp_release_conn_ref _); [|done]. injection E as <-. by apply (linv_frame s).
  - injection E as <-. by apply (linv_frame s).
Qed.

(** When the readers or the writers are released. *)
Lemma woken_linv s0 ts w p o rest s1 : (p = TReadWait /\ w = TRead /\ o = TWriteWait) \/ (p = TWriteWait /\ w = TWrite /\ o = TReadWait) ->
  sleepers (ts ++ rest) p (pcs s1) -> wake_all ts s1 = Ok s0 ->
  conn s0 = conn s1 /\ (forall q, q <> p -> q <> w -> cnt q (pcs s0) = cnt q (pcs s1)) /\ cnt w (pcs s0) = (length ts + cnt w (pcs s1))%nat /\
  (forall q, q <> p -> q <> w -> somewhere q s1 -> somewhere q s0).
Proof.
  intros Hp Hs E. destruct (wake_all_ok ts rest s1 w p o Hp Hs) as (E1 & _ & C1 & C2 & _ & L1). rewrite E in E1. injection E1 as ->.
  split_and!; auto. intros q Q1 Q2 [t Ht]. exists t. by apply L1.
Qed.

Lemma err_linv s t err s' : linv s -> shutdown (conn s) = false -> err <> 0 -> ustep (AErr t err) s = Some (Ok s') -> linv s'.
Proof.
  intros Hl Hsh He. cbn [ustep]. unfold live. destruct (idle t s) eqn:Et; [|done]. destruct (freed s); [done|]. unfold udp_conn_err. rewrite Hsh. cbn [negb]. rewrite andb_true_r.
  apply bool_decide_eq_true in Et. assert (Hnz : (err =? 0) = false) by (by apply Z.eqb_neq). destruct Hl as [L1 L2].
  destruct (inq_err (conn s) =? 0) eqn:Ee; intros [= <-]; split; cbn [conn pcs at_t set_pcs set_conn]; cbn; rewrite ?Hnz, ?Hsh; cbn [negb]; intros Hne.
  - apply somewhere_at.
  - specialize (L2 Hne). rewrite Hsh in L2. by rewrite (proj1 (cnt_at TErr t None TWrite (pcs s) Et ltac:(done))).
  - exact (L1 Hne).
  - specialize (L2 Hne). rewrite Hsh in L2. done.
Qed.

Lemma release_linv s t p s' x : uinv s -> linv s -> pcs s !! t = Some p -> p = TErr \/ p = TShutIn /\ inq_err (conn s) = 0 -> x = idle_t t (set_conn (set_inq_wq [] (conn s)) s) \/ x = at_t t TShutOut (set_conn (set_inq_wq [] (conn s)) s) ->
  (p = TShutIn -> x = at_t t TShutOut (set_conn (set_inq_wq [] (conn s)) s)) -> wake_all (inq_wq (conn s)) x = Ok s' -> linv s'.
Proof.
  intros Hs [L1 L2] Ht Hp Hx Hx' Hw. assert (N : p <> TReadWait /\ p <> TWriteWait /\ p <> TWrite) by (by destruct Hp as [->|[-> _]]). destruct N as (N1 & N2 & N3).
  assert (Hsl : sleepers (inq_wq (conn s) ++ []) TReadWait (pcs x)).
  { rewrite app_nil_r. destruct (ui_in _ Hs) as [H1 H2]. destruct Hx as [->| ->]; [apply sleepers_del|apply sleepers_other]; try done; cbn; rewrite Ht; congruence. }
  destruct (woken_linv s' (inq_wq (conn s)) TRead TReadWait TWriteWait [] x ltac:(by left) Hsl Hw) as (Ec & C1 & _ & S1).
  assert (Ecx : conn x = set_inq_wq [] (conn s)) by (by destruct Hx as [->| ->]).
  assert (Cw : cnt TWrite (pcs x) = cnt TWrite (pcs s)).
  { destruct (cnt_at TShutOut t (Some p) TWrite (pcs s) Ht ltac:(congruence)) as [C2 C3]. destruct Hx as [->| ->]; cbn [pcs idle_t at_t set_pcs set_conn]; [exact C3|exact C2]. }
  split; rewrite Ec, Ecx; cbn; [done|]. intros Hne. specialize (L2 Hne). destruct (shutdown (conn s)) eqn:Esh.
  - destruct Hp as [->|[-> _]].
    + destruct L2 as [L2|L2]; [left|right]; apply S1; try done; destruct Hx as [->| ->]; by apply (somewhere_other _ t TShutOut s); [rewrite Ht|].
    + right. apply S1; try done. rewrite (Hx' eq_refl). apply somewhere_at.
  - rewrite C1 by done. by rewrite Cw.
Qed.

Lemma shut_out_linv s t s' : uinv s -> linv s -> pcs s !! t = Some TShutOut -> wake_all (outq_wq (conn s)) (idle_t t (set_conn (set_outq_wq [] (conn s)) s)) = Ok s' -> linv s'.
Proof.
  intros Hs [L1 L2] Ht Hw. set (x := idle_t t _) in Hw.
  assert (Hsl : sleepers (outq_wq (conn s) ++ []) TWriteWait (pcs x)) by (rewrite app_nil_r; apply sleepers_del; [apply Hs|by cbn; rewrite Ht]).
  destruct (woken_linv s' (outq_wq (conn s)) TWrite TWriteWait TReadWait [] x ltac:(by right) Hsl Hw) as (Ec & C1 & _ & S1).
  split; rewrite Ec; cbn; [|done]. intros Hne. specialize (L1 Hne). destruct (negb _); [|destruct (shutdown (conn s))].
  - apply S1; try done. by apply (somewhere_other TErr t TErr s); [rewrite Ht|].
  - apply S1; try done. by apply (somewhere_other TShutIn t TErr s); [rewrite Ht|].
  - rewrite C1 by done. cbn. by rewrite (proj2 (cnt_at TErr t (Some TShutOut) TRead (pcs s) Ht ltac:(done))).
Qed.

Lemma txdone_linv s s' : uinv s -> linv s -> ustep ATxDone s = Some (Ok s') -> linv s'.
Proof.
  intros Hs Hl. cbn [ustep]. destruct (inflight s) as [|n]; [done|]. unfold live. destruct (freed s); [done|]. unfold udp_tx_release_mbuf.
  set (c1 := set_outq_len (outq_len (conn s) - 1) (conn s)). change (shutdown c1) with (shutdown (conn s)). change (outq_wq c1) with (outq_wq (conn s)).
  assert (Hfin : forall b s1, linv s1 -> Some (if (b : bool) then put_ref (conn s1) s1 else Ok s1) = Some (Ok s') -> linv s').
  { intros [] s1 H1 [= E]; [by apply (put_linv s1)|by subst]. }
  destruct Hl as [L1 L2]. destruct (shutdown (conn s)) eqn:Esh; cbn [negb].
  - cbn [option_list wake_all mbind res_bind]. apply Hfin. split; cbn [conn pcs set_inflight set_conn]; cbn; rewrite ?Esh; done.
  - destruct (outq_wq (conn s)) as [|t q] eqn:Eq; cbn [list.head tail].
    + cbn [option_list wake_all mbind res_bind]. apply Hfin. split; cbn [conn pcs set_inflight set_conn]; cbn; rewrite ?Esh; done.
    + change (option_list (Some t)) with [t]. set (x := set_inflight n _).
      assert (Hsl : sleepers ([t] ++ q) TWriteWait (pcs x)) by (assert (H2 := ui_out _ Hs); by rewrite Eq in H2).
      destruct (wake_all [t] x) as [s1|] eqn:Ew; [|done]. cbn [mbind res_bind].
      destruct (woken_linv s1 [t] TWrite TWriteWait TReadWait q x ltac:(by right) Hsl Ew) as (Ec & C1 & C2 & S1). apply Hfin. split; rewrite Ec; cbn; rewrite ?Esh.
      * intros Hne. specialize (L1 Hne). destruct (negb _); [by apply S1|]. rewrite C1 by done. exact L1.
      * intros _. specialize (L2 ltac:(done)). rewrite C2. change (pcs x) with (pcs s). cbn [length]. lia.
Qed.

Lemma go_linv s t sent s' : uinv s -> linv s -> go t sent s = Some (Ok s') -> linv s'.
Proof.
  intros Hs Hl Hg. destruct (pcs s !! t) as [[| | | | | | |]|] eqn:Ht.
  - apply (read_linv s t); auto. unfold go in *. by rewrite Ht in *.
  - unfold go in Hg. by rewrite Ht in Hg.
  - apply (write_linv s t); auto. unfold go in *. by rewrite Ht in *.
  - unfold go in Hg. by rewrite Ht in Hg.
  - unfold go in Hg. rewrite Ht in Hg. injection Hg as <-. apply (linv_frame s); auto.
    + by destruct sent.
    + destruct sent; cbn [pcs idle_t set_pcs set_inflight log_lost]; by rewrite (proj2 (cnt_at TErr t (Some TSlot) TRead (pcs s) Ht ltac:(done))).
    + destruct sent; cbn [pcs idle_t set_pcs set_inflight log_lost]; by rewrite (proj2 (cnt_at TErr t (Some TSlot) TWrite (pcs s) Ht ltac:(done))).
    + intros p Hp [t' Ht']. exists t'. assert (t' <> t) by (intros ->; destruct Hp as [->|[->| ->]]; congruence). by destruct sent; cbn; rewrite lookup_delete_ne.
  - unfold go in Hg. rewrite Ht in Hg. injection Hg as Hg. apply (release_linv s t TErr s' (idle_t t (set_conn (set_inq_wq [] (conn s)) s))); auto. done.
  - unfold go in Hg. rewrite Ht in Hg. injection Hg as Hg. destruct (Z.eqb_spec (inq_err (conn s)) 0) as [Ee|Ee].
    + apply (release_linv s t TShutIn s' (at_t t TShutOut (set_conn (set_inq_wq [] (conn s)) s))); auto.
    + injection Hg as <-. assert (Hne : negb (inq_err (conn s) =? 0) = true) by (apply negb_true_iff; by apply Z.eqb_neq).
      assert (Hat : at_t t TShutOut s = at_t t TShutOut (set_conn (conn s) s)) by (by destruct s). rewrite Hat.
      destruct Hl as [L1 L2]. split; cbn [conn at_t set_pcs set_conn]; intros Hw.
      * specialize (L1 Hw). rewrite Hne in L1 |- *. by apply (somewhere_other TErr t TShutOut s); [rewrite Ht|].
      * specialize (L2 Hw). destruct (shutdown (conn s)); [right; apply somewhere_at|].
        cbn. by rewrite (proj1 (cnt_at TShutOut t (Some TShutIn) TWrite (pcs s) Ht ltac:(done))).
  - unfold go in Hg. rewrite Ht in Hg. injection Hg as Hg. by apply (shut_out_linv s t).
  - unfold go in Hg. by rewrite Ht in Hg.
Qed.

Lemma ustep_linv a s s' : rinv s -> linv s -> calm a s -> ustep a s = Some (Ok s') -> linv s'.
Proof.
  intros [Hs Hfl Hr Hf] Hl [Ha Hca] Hst. destruct a as [m|t err|t|t|t sent| |i o|t| |]; cbn [uok] in *.
  - by apply (recv_linv s m).
  - destruct Ha as [_ He]. by apply (err_linv s t err).
  - cbn [ustep] in Hst. destruct (idle t s) eqn:Et; [|done]. unfold live in Hst. destruct (freed s); [done|]. injection Hst as <-.
    apply bool_decide_eq_true in Et. by apply (enter_linv s _ t TRead).
  - cbn [ustep] in Hst. destruct (idle t s) eqn:Et; [|done]. unfold live in Hst. destruct (freed s); [done|]. injection Hst as <-.
    apply bool_decide_eq_true in Et. by apply (enter_linv s _ t TWrite).
  - cbn [ustep] in Hst. destruct (idle t s); [done|]. destruct (freed s); [done|]. by apply (go_linv s t sent).
  - by apply (txdone_linv s).
  - done.
  - destruct Ha as [Hc Hsh]. cbn [ustep] in Hst. destruct (idle t s) eqn:Et; [|done]. unfold live in Hst. destruct (freed s); [done|].
    unfold __udp_shutdown in Hst. rewrite Hsh in Hst. cbn [BUG_ON mbind res_bind] in Hst. injection Hst as <-. apply bool_decide_eq_true in Et. destruct Hl as [L1 L2].
    split; cbn [conn pcs at_t set_pcs set_conn]; cbn; intros Hne.
    + specialize (L1 Hne). destruct (negb _); [|apply somewhere_at]. by apply (somewhere_other TErr t TShutIn s (set_shutdown true (conn s))); [rewrite Et|].
    + left. apply somewhere_at.
  - destruct Ha as [Hc Hp]. cbn [ustep] in Hst. unfold live in Hst. destruct (freed s); [done|]. injection Hst as Hst.
    destruct (close_keeps s Hs Hc Hp) as (s1 & b & E & Hs1 & C1 & _). rewrite E in Hst.
    assert (L : linv s1) by (destruct (closed_empty s1 Hs1 C1) as (W1 & W2 & _); split; [by rewrite W1|by rewrite W2]).
    destruct b; [by apply (put_linv s1)|]. by injection Hst as <-.
  - cbn [ustep] in Hst. by rewrite Hfl, andb_false_r in Hst.
Qed.

Lemma ureach_linv e s : ureach calm (udp_start e false) s -> rinv s /\ linv s.
Proof.
  intros Hr. split; [by apply (ureach_rinv calm e); [intros a s0 [H _]|]|]. induction Hr as [|a s s' Hr IH Ha Hst]; [by split|].
  apply (ustep_linv a s); auto. apply (ureach_rinv calm e); [by intros a' s0 [H _]|done].
Qed.

(** ** A reader that is never woken *)

(** The reader [r] sleeps, and the ones who could have woken it did not. *)
Definition abandoned (r : nat) (s : ust) : Prop :=
  pcs s !! r = Some TReadWait /\ shutdown (conn s) = true /\ inq_err (conn s) <> 0 /\ ~ somewhere TErr s /\ ~ somewhere TShutIn s /\ closed s = false.

Lemma not_somewhere t x p s c : x <> p -> ~ somewhere p s -> ~ somewhere p (at_t t x (set_conn c s)) /\ ~ somewhere p (idle_t t (set_conn c s)).
Proof.
  intros Hx Hn. split; intros [t' Ht']; apply Hn; exists t'; cbn in Ht'.
  - destruct (decide (t' = t)) as [->|Hne]; [rewrite lookup_insert_eq in Ht'; congruence|by rewrite lookup_insert_ne in Ht'].
  - by apply lookup_delete_Some in Ht' as [_ ?].
Qed.

(** A step that changes one thread other than [r]. *)
Lemma abandoned_at r t x c s : abandoned r s -> t <> r -> x <> TErr -> x <> TShutIn -> shutdown c = true -> inq_err c <> 0 ->
  abandoned r (at_t t x (set_conn c s)) /\ abandoned r (idle_t t (set_conn c s)).
Proof.
  intros (A1 & A2 & A3 & A4 & A5 & A6) Hne X1 X2 C1 C2. destruct (not_somewhere t x TErr s c X1 A4). destruct (not_somewhere t x TShutIn s c X2 A5).
  split; split_and!; try done; cbn; [by rewrite lookup_insert_ne|by rewrite lookup_delete_ne].
Qed.

Lemma abandoned_step r a s s' : rinv s -> abandoned r s -> uok a s -> ustep a s = Some (Ok s') -> abandoned r s'.
Proof.
  intros [Hs Hfl Hrf Hf] Hab Ha Hst. assert (Hx := Hab). destruct Hx as (A1 & A2 & A3 & A4 & A5 & A6).
  assert (Hnf : freed s = false) by (by rewrite Hf, A6). assert (Hid : forall t, idle t s = true -> t <> r) by (intros t Et ->; apply bool_decide_eq_true in Et; congruence).
  assert (Hsame : forall c, shutdown c = true -> inq_err c <> 0 -> abandoned r (set_conn c s)) by (intros c C1 C2; by split_and!).
  assert (Ez : (inq_err (conn s) =? 0) = false) by (by apply Z.eqb_neq).
  destruct a as [m|t err|t|t|t sent| |i o|t| |]; cbn [uok ustep] in *; unfold live in *; rewrite ?Hnf in Hst.
  - unfold udp_conn_recv in Hst. destruct (mbuf_pull_or_null _ _) as [[h|] m']; [|injection Hst as <-; by apply Hsame].
    rewrite A2, orb_true_r in Hst. injection Hst as <-. by apply Hsame.
  - destruct (idle t s); [|done]. unfold udp_conn_err in Hst. rewrite Ez in Hst. injection Hst as <-. apply Hsame; [done|]. apply Ha.
  - destruct (idle t s) eqn:Et; [|done]. injection Hst as <-. apply (abandoned_at r t TRead (conn s) s); auto.
  - destruct (idle t s) eqn:Et; [|done]. injection Hst as <-. apply (abandoned_at r t TWrite (conn s) s); auto.
  - destruct (idle t s); [done|]. unfold go in Hst. destruct (pcs s !! t) as [[| | | | | | |]|] eqn:Ht; try done;
      assert (Htr : t <> r) by (intros ->; congruence).
    + unfold udp_read_locked in Hst. rewrite Ez, A2, andb_false_r, andb_true_r in Hst. cbn [andb negb] in Hst.
      destruct (bool_decide _); injection Hst as <-; by apply (abandoned_at r t TRead (conn s) s).
    + unfold udp_write_locked in Hst. rewrite A2, andb_false_r in Hst. injection Hst as <-. by apply (abandoned_at r t TRead (conn s) s).
    + injection Hst as <-. destruct (abandoned_at r t TRead (conn s) s Hab Htr) as [_ Hi]; try done. by destruct sent.
    + exfalso. apply A4. by exists t.
    + exfalso. apply A5. by exists t.
    + injection Hst as Hst. set (x := idle_t t _) in Hst. assert (Hx : abandoned r x) by (by apply (abandoned_at r t TRead _ s)).
      assert (Hsl : sleepers (outq_wq (conn s) ++ []) TWriteWait (pcs x)) by (rewrite app_nil_r; apply sleepers_del; [apply Hs|by cbn; rewrite Ht]).
      destruct (wake_all_ok (outq_wq (conn s)) [] x TWrite TWriteWait TReadWait ltac:(by right) Hsl) as (E & _ & _ & _ & _ & L). rewrite E in Hst. injection Hst as <-.
      destruct Hx as (B1 & B2 & B3 & B4 & B5 & B6). split_and!; try done; cbn [pcs set_pcs].
      * by apply L.
      * intros [t' Ht']. apply B4. exists t'. by apply L in Ht'.
      * intros [t' Ht']. apply B5. exists t'. by apply L in Ht'.
  - destruct (inflight s) as [|n]; [done|]. unfold udp_tx_release_mbuf in Hst.
    change (shutdown (set_outq_len (outq_len (conn s) - 1) (conn s))) with (shutdown (conn s)) in Hst. rewrite A2 in Hst. cbn [negb option_list wake_all mbind res_bind] in Hst.
    change (outq_free (set_outq_len (outq_len (conn s) - 1) (conn s))) with (outq_free (conn s)) in Hst. rewrite (ui_free _ Hs), A6 in Hst. injection Hst as <-. by split_and!.
  - injection Hst as <-. by apply Hsame.
  - destruct Ha as [_ Ha]. congruence.
  - destruct Ha as [_ Ha]. by rewrite Ha, lookup_empty in A1.
  - by rewrite A6 in Hst.
Qed.

Lemma abandoned_forever r s s' : rinv s -> abandoned r s -> ureach uok s s' -> abandoned r s'.
Proof.
  intros Hr Hab Hre. assert (H : rinv s' /\ abandoned r s'); [|apply H]. induction Hre as [|a s1 s2 _ [IH1 IH2] Ha Hst]; [done|].
  split; [|by apply (abandoned_step r a s1)]. assert (F := ustep_rinv a s1 IH1 Ha). rewrite Hst in F. by destruct F as (s'' & [= <-] & H).
Qed.
