(* ===== verification/UdpThms.v ===== *)
(** * What UDP sockets guarantee

    Datagrams arrive as they were sent, are read in the order in which they were
    accepted, sleeping threads are woken, and the socket is freed once. *)

From S2P Require Import Prelude Stddef Mbuf Chksum Transport Arp Core Udp UdpMach UdpInv.

(** A packet with a UDP header. *)
Lemma udp_packet m l r n buf : mbuf_ok m -> payload m = udp_hdr_bytes l r n ++ buf -> in_u16 (port l) -> in_u16 (port r) ->
  read16 m (data m) = Ok (port l) /\ read16 m (data m + 2) = Ok (port r) /\ len m = 8 + Z.of_nat (length buf) /\
  mbuf_pull_or_null sizeof_udp_hdr m = (Some (data m), set_window (data m + 8) (len m - 8) m) /\
  payload (set_window (data m + 8) (len m - 8) m) = buf /\ mbuf_ok (set_window (data m + 8) (len m - 8) m).
Proof.
  intros Hm Hp Hl Hr. assert (Hlen : len m = 8 + Z.of_nat (length buf)) by (rewrite <- (length_payload m Hm), Hp, length_app; cbn; lia).
  assert (R : forall off, 0 <= off <= 6 -> read_bytes m (data m + off) 2 = Ok (take 2 (drop (Z.to_nat off) (payload m))))
    by (intros off Ho; rewrite read_payload by (done || lia); done).
  split_and!.
  - unfold read16. rewrite <- (Z.add_0_r (data m)), R, Hp by lia.
    transitivity (Ok (be16 (port l / 256 mod 256) (port l mod 256))); [reflexivity|by rewrite be16_hton16].
  - unfold read16. rewrite R, Hp by lia.
    transitivity (Ok (be16 (port r / 256 mod 256) (port r mod 256))); [reflexivity|by rewrite be16_hton16].
  - done.
  - unfold mbuf_pull_or_null, __mbuf_pull, sizeof_udp_hdr. rewrite Z.geb_leb, (proj2 (Z.leb_le _ _)), (u32_id (len m - 8)); [done| |lia].
    destruct Hm. unfold in_u32. lia.
  - rewrite pull_payload by (done || lia). rewrite Hp. done.
  - destruct Hm. split; cbn; lia.
Qed.

(** The buffer of a new packet. *)
Lemma tx_buffer b : length b = 1920%nat -> exists m, net_tx_alloc_mbuf b = Ok m /\ mbuf_ok m /\ payload m = [] /\ data m = 128 /\ len m = 0 /\ length (head m) = 1920%nat.
Proof.
  intros Hb. unfold net_tx_alloc_mbuf, mbuf_init. change (MBUF_DEFAULT_HEADROOM >=? MBUF_DEFAULT_LEN - MBUF_RESERVED) with false.
  cbn [BUG_ON mbind res_bind]. eexists. split; [reflexivity|]. split_and!; try done. split; cbn; rewrite ?Hb; try done; unfold MBUF_DEFAULT_LEN, MBUF_RESERVED; vm_compute; done.
Qed.

Lemma send_packet cfg id dhost b buf l r :
  length b = 1920%nat -> Z.of_nat (length buf) <= UDP_MAX_PAYLOAD -> length (cfg_mac cfg) = 6%nat -> length dhost = 6%nat ->
  exists m, mbuf_ok m /\ 34 <= data m /\ len m = 8 + Z.of_nat (length buf) /\ payload m = udp_hdr_bytes l r (Z.of_nat (length buf)) ++ buf /\
    udp_write_send cfg id (Found dhost) (Some b) buf l r =
      '(ret, m) ← net_tx_ip cfg IPPROTO_UDP (ip r) id (Found dhost) m; if negb (ret =? 0) then Ok (ret, None) else Ok (Z.of_nat (length buf), Some m).
Proof.
  intros Hb Hl H1 H2. unfold UDP_MAX_PAYLOAD in Hl. destruct (tx_buffer b Hb) as (m0 & E0 & Hm0 & Hp0 & Hd0 & Hl0 & Hh0).
  destruct (mbuf_append_ok buf m0 Hm0) as (m1 & E1 & Hm1 & Hp1 & Hd1 & Hl1 & _); [rewrite Hd0, Hl0, Hh0; lia|].
  destruct (mbuf_prepend_ok (udp_hdr_bytes l r (Z.of_nat (length buf))) m1 Hm1) as (m2 & E2 & Hm2 & Hp2 & Hd2 & Hl2 & _); [rewrite Hd1, Hd0; cbn; lia|].
  exists m2. split; [done|]. split; [rewrite Hd2, Hd1, Hd0; cbn; lia|]. split; [rewrite Hl2, Hl1, Hl0; cbn [length udp_hdr_bytes hton16 app]; lia|].
  split; [by rewrite Hp2, Hp1, Hp0|]. unfold udp_write_send. rewrite E0. cbn [mbind res_bind]. rewrite E1. cbn [mbind res_bind]. unfold udp_send_raw. by rewrite E2.
Qed.

(** C24. A datagram that [udp_send] or [udp_write_to] sends arrives as it was sent.  If the
    frame reaches the host with the destination's Ethernet address, the receive path
    hands it to the transport layer; the match table is asked for the addresses of
    sender and receiver; a socket queues it, and a reader gets its first bytes, as many
    as fit, and the address and port of the sender; a spawner starts a thread with
    exactly the bytes that were sent. *)
Theorem udp_roundtrip cfg cfg' id b buf l r pad m2 e :
  length b = 1920%nat -> Z.of_nat (length buf) <= UDP_MAX_PAYLOAD ->
  length (cfg_mac cfg) = 6%nat -> length (cfg_mac cfg') = 6%nat -> in_u32 (cfg_addr cfg) -> in_u32 (ip r) -> in_u16 (port l) -> in_u16 (port r) ->
  exists m1, udp_write_send cfg id (Found (cfg_mac cfg')) (Some b) buf l r = Ok (Z.of_nat (length buf), Some m1) /\
    (mbuf_ok m2 -> data m2 + 34 <= USHRT_MAX -> payload m2 = on_wire (payload m1) pad ->
     let from := Netaddr (cfg_addr cfg) (port l) in
     exists m3 m4, net_rx_one cfg' m2 = Ok (RxUp m3) /\ mbuf_mark_transport_offset m3 = Ok m4 /\
       parse_l4 m4 = Ok (Some (IPPROTO_UDP, r, from)) /\
       udp_par_recv e true m4 = Ok (ParSpawn (SpawnData buf (Z.of_nat (length buf)) (laddr e) from)) /\
       (forall c, inq_len c < inq_cap c -> inq_err c = 0 -> shutdown c = false ->
          exists m5 c', udp_conn_recv m4 c = (Queued (list.head (inq_wq c)), c') /\ inq c' = inq c ++ [m5] /\
            (forall n, 0 <= n -> (match_ e = TRANS_MATCH_5TUPLE -> raddr e = from) ->
               udp_read_copy e n true m5 = Ok (Z.min n (Z.of_nat (length buf)), take (Z.to_nat n) buf, Some from)))).
Proof.
  intros Hb Hl H1 H2 Ha Hr Hpl Hpr. destruct (send_packet cfg id (cfg_mac cfg') b buf l r Hb Hl H1 H2) as (m & Hm & Hd & Hlen & Hp & E).
  unfold UDP_MAX_PAYLOAD in Hl. destruct (net_ip_carries cfg cfg' IPPROTO_UDP (ip r) id m pad m2) as (m1 & E1 & Hrx);
    [done|lia|lia|done|done|done|done|done|]. exists m1. rewrite E, E1. split; [done|]. intros Hm2 Hoff Hp2 from.
  destruct (Hrx Hm2 ltac:(lia) Hp2) as (m3 & R & Hm3 & Hd3 & Hp3 & Rp & Rs & Rd). cbn [IPPROTO_UDP] in R.
  set (m4 := set_transport_off (data m3) m3). exists m3, m4.
  assert (Hm4 : mbuf_ok m4) by (destruct Hm3; by split). assert (Hp4 : payload m4 = udp_hdr_bytes l r (Z.of_nat (length buf)) ++ buf) by (by rewrite <- Hp, <- Hp3).
  destruct (udp_packet m4 l r _ buf Hm4 Hp4 Hpl Hpr) as (S1 & S2 & S3 & S4 & S5 & S6).
  set (m5 := set_window (data m4 + 8) (len m4 - 8) m4) in *.
  assert (Hl5 : len m5 = Z.of_nat (length buf)) by (change (len m5) with (len m4 - 8); rewrite S3; lia).
  assert (Hread : forall k, 0 <= k <= Z.of_nat (length buf) -> read_bytes m5 (data m5) k = Ok (take (Z.to_nat k) buf)).
  { intros k Hk. rewrite <- (Z.add_0_r (data m5)), read_payload, S5 by (done || lia). done. }
  assert (R5 : read32 m5 (network_off m5 + 12) = Ok (cfg_addr cfg)) by exact Rs.
  assert (T5 : read16 m5 (transport_off m5) = Ok (port l)) by exact S1.
  split_and!.
  - exact R.
  - unfold mbuf_mark_transport_offset. rewrite Hd3, Z.gtb_ltb, (proj2 (Z.ltb_ge USHRT_MAX (data m2 + 34))) by lia. cbn [BUG_ON mbind res_bind]. by rewrite <- Hd3.
  - unfold parse_l4. assert (Rp' : read8 m4 (network_off m4 + 9) = Ok IPPROTO_UDP) by exact Rp. rewrite Rp'. cbn [mbind res_bind].
    change (negb (IPPROTO_UDP =? IPPROTO_UDP)) with false. cbn [andb]. unfold mbuf_length. rewrite S3. destruct (Z.ltb_spec (8 + Z.of_nat (length buf)) 4); [lia|].
    assert (Rd' : read32 m4 (network_off m4 + 16) = Ok (ip r)) by exact Rd. rewrite Rd'. cbn [mbind res_bind]. rewrite S2. cbn [mbind res_bind].
    assert (Rs' : read32 m4 (network_off m4 + 12) = Ok (cfg_addr cfg)) by exact Rs. rewrite Rs'. cbn [mbind res_bind]. rewrite S1. cbn [mbind res_bind].
    unfold from. by destruct r.
  - unfold udp_par_recv. rewrite S4. cbn [negb]. unfold mbuf_length. rewrite Hl5, Hread by lia. cbn [mbind res_bind]. rewrite R5. cbn [mbind res_bind].
    assert (S1' : read16 m5 (data m4) = Ok (port l)) by exact S1. rewrite S1'. cbn [mbind res_bind]. rewrite Nat2Z.id, firstn_all. done.
  - intros c Hc1 Hc2 Hc3. unfold udp_conn_recv. rewrite S4. fold m5. rewrite Hc2, Hc3, Z.geb_leb, (proj2 (Z.leb_gt (inq_cap c) (inq_len c))) by lia. cbn [orb negb Z.eqb].
    exists m5. eexists. split; [reflexivity|]. split; [done|]. intros n Hn He. unfold udp_read_copy, mbuf_length. rewrite Hl5, Hread by lia. cbn [mbind res_bind].
    rewrite R5. cbn [mbind res_bind]. rewrite T5. cbn [mbind res_bind].
    assert (Et : take (Z.to_nat (n `min` Z.of_nat (length buf))) buf = take (Z.to_nat n) buf).
    { destruct (Z.min_spec n (Z.of_nat (length buf))) as [[? ->]|[? ->]]; [done|]. rewrite Nat2Z.id, firstn_all. symmetry. apply take_ge. lia. }
    case_bool_decide as Hma; [|cbn; by rewrite Et]. rewrite (He Hma). unfold from. cbn [ip port]. rewrite !Z.eqb_refl. cbn. by rewrite Et.
Qed.

Definition udp_text : list Z := [104; 105; 33; 10].
Definition udp_sent : mbuf :=
  match udp_write_send host1 7 (Found (cfg_mac host2)) (Some (replicate 1920 0)) udp_text (Netaddr 167772161 5000) (Netaddr 167772162 80) with
  | Ok (_, Some m) => m
  | _ => l4_buf
  end.
Definition udp_wire : mbuf :=
  let b := on_wire (payload udp_sent) (replicate 14 0) in Mbuf b 0 1920 (Z.of_nat (length b)) 0 0 0 0 0.
Definition udp_listener : trans_entry := Entry 1 TRANS_MATCH_3TUPLE IPPROTO_UDP (Netaddr 167772162 80) (Netaddr 0 0).

Lemma udp_roundtrip_witness :
  exists m3 m4, net_rx_one host2 udp_wire = Ok (RxUp m3) /\ mbuf_mark_transport_offset m3 = Ok m4 /\
    udp_par_recv udp_listener true m4 = Ok (ParSpawn (SpawnData udp_text 4 (Netaddr 167772162 80) (Netaddr 167772161 5000))).
Proof.
  destruct (udp_roundtrip host1 host2 7 (replicate 1920 0) udp_text (Netaddr 167772161 5000) (Netaddr 167772162 80) (replicate 14 0) udp_wire udp_listener)
    as (m1 & E & H); [by vm_compute..|].
  destruct H as (m3 & m4 & H1 & H2 & _ & H3 & _); [split; by vm_compute|by vm_compute| |exists m3, m4; split_and!; [exact H1|exact H2|exact H3]].
  assert (Es : udp_sent = m1) by (unfold udp_sent; by rewrite E). rewrite <- Es. by vm_compute.
Defined.

(** ** The socket and its users *)

(** Waking threads does not touch the socket, dropping the reference only its count. *)
Lemma wake_all_conn ts s s' : wake_all ts s = Ok s' -> conn s' = conn s.
Proof.
  revert s. induction ts as [|t ts IH]; intros s; cbn; [by intros [= <-]|]. unfold wake.
  destruct (pcs s !! t) as [[]|]; cbn; try done; by intros ->%IH.
Qed.

Lemma put_ref_queue s s' : put_ref (conn s) s = Ok s' -> inq_cap (conn s') = inq_cap (conn s) /\ inq_len (conn s') = inq_len (conn s).
Proof.
  unfold put_ref, udp_conn_put. destruct (refs _ =? 0); cbn; [destruct (udp_release_conn_ref _); cbn; [|done]|]; by intros [= <-].
Qed.

(** The bound [B] on the capacities that were set holds of the queue. *)
Definition in_bound (B : Z) (c : udpconn) : Prop := inq_cap c <= B /\ inq_len c <= B.

Lemma recv_bound B m c : in_bound B c -> in_bound B (udp_conn_recv m c).2.
Proof.
  intros [H1 H2]. unfold udp_conn_recv. destruct (mbuf_pull_or_null sizeof_udp_hdr m) as [[a|] m1]; [|done].
  destruct (inq_len c >=? inq_cap c) eqn:E; [done|]. cbn [orb]. destruct (negb (inq_err c =? 0) || shutdown c); [done|]. split; cbn; lia.
Qed.

Lemma close_bound B c b c' : in_bound B c -> udp_close c = Ok (b, c') -> in_bound B c'.
Proof.
  intros Hb. unfold udp_close, __udp_shutdown, BUG_ON. destruct (shutdown c); cbn; destruct (negb _); cbn; try done; destruct (negb _); cbn; try done; by intros [= _ <-].
Qed.

Lemma go_bound B t sent s s' : in_bound B (conn s) -> go t sent s = Some (Ok s') -> in_bound B (conn s').
Proof.
  intros [H1 H2]. unfold go. destruct (pcs s !! t) as [[]|]; try done.
  - unfold udp_read_locked. destruct (_ && negb (shutdown (conn s))); [by intros [= <-]|]. destruct (_ && shutdown (conn s)); [by intros [= <-]|].
    destruct (negb (inq_err (conn s) =? 0)); [by intros [= <-]|]. destruct (inq (conn s)); intros [= <-]; split; cbn; lia.
  - unfold udp_write_locked. destruct (_ && negb (shutdown (conn s))); [by intros [= <-]|]. destruct (shutdown (conn s)); by intros [= <-].
  - destruct sent; by intros [= <-].
  - cbn. intros [= E]. by rewrite (wake_all_conn _ _ _ E).
  - destruct (inq_err (conn s) =? 0); cbn; [intros [= E]; by rewrite (wake_all_conn _ _ _ E)|by intros [= <-]].
  - cbn. intros [= E]. by rewrite (wake_all_conn _ _ _ E).
Qed.

Lemma ustep_bound B a s s' : in_bound B (conn s) -> (forall i o, a = ASetBuffers i o -> i <= B) -> ustep a s = Some (Ok s') -> in_bound B (conn s').
Proof.
  intros Hb Hi. destruct a as [m|t err|t|t|t sent| |i o|t| |]; cbn [ustep]; unfold live.
  - destruct (freed s); [done|]. assert (Hr := recv_bound B m (conn s) Hb). destruct (udp_conn_recv m (conn s)) as [[| |th] c]; [by intros [= <-]..|].
    intros [= E]. by rewrite (wake_all_conn _ _ _ E).
  - destruct (idle t s); [|done]. destruct (freed s); [done|]. cbn. destruct (_ && _); by intros [= <-].
  - destruct (idle t s); [|done]. destruct (freed s); [done|]. by intros [= <-].
  - destruct (idle t s); [|done]. destruct (freed s); [done|]. by intros [= <-].
  - destruct (idle t s); [done|]. destruct (freed s); [done|]. by apply go_bound.
  - destruct (inflight s); [done|]. destruct (freed s); [done|]. destruct (udp_tx_release_mbuf (conn s)) as [[th b] c] eqn:Er.
    assert (Hc : in_bound B c) by (unfold udp_tx_release_mbuf in Er; destruct (negb _); injection Er as <- <- <-; done).
    destruct (wake_all _ _) as [s1|] eqn:E; [|done]. cbn [mbind res_bind]. apply wake_all_conn in E. destruct b; [|intros [= <-]; by rewrite E].
    intros [= E2]. destruct (put_ref_queue _ _ E2) as [Q1 Q2]. unfold in_bound. by rewrite Q1, Q2, E.
  - destruct (freed s); [done|]. intros [= <-]. split; [by apply (Hi i o)|apply Hb].
  - destruct (idle t s); [|done]. destruct (freed s); [done|]. unfold __udp_shutdown. destruct (BUG_ON _); [|done]. by intros [= <-].
  - destruct (freed s); [done|]. destruct (udp_close (conn s)) as [[b c]|] eqn:Ec; [|done]. cbn [mbind res_bind].
    assert (Hc : in_bound B c) by (by apply (close_bound B (conn s) b c)).
    destruct b; [|by intros [= <-]]. intros [= E2]. destruct (put_ref_queue (set_closed true (set_conn c s)) _ E2) as [Q1 Q2]. unfold in_bound. by rewrite Q1, Q2.
  - destruct (closed s && flow s); [|done]. destruct (freed s); [done|]. destruct (udp_release_conn_ref _); [|done]. by intros [= <-].
Qed.

(** The users respect [uok], and [udp_set_buffers] sets no capacity above [B]. *)
Definition ubounded (B : Z) (a : uaction) (s : ust) : Prop := uok a s /\ forall i o, a = ASetBuffers i o -> i <= B.

Lemma ureach_bound B e d s : UDP_IN_DEFAULT_CAP <= B -> ureach (ubounded B) (udp_start e d) s -> in_bound B (conn s).
Proof.
  intros HB. induction 1 as [|a s s' _ IH [_ Ha] E]; [destruct d; split; cbn; unfold UDP_IN_DEFAULT_CAP in HB; unfold UDP_IN_DEFAULT_CAP; lia|].
  by apply (ustep_bound B a s).
Qed.

(** What a packet that arrives adds to the queue. *)
Definition enqueued (m : mbuf) (c : udpconn) : list mbuf :=
  if (mbuf_length m <? sizeof_udp_hdr) || (inq_cap c <=? inq_len c) || negb (inq_err c =? 0) || shutdown c then []
  else [set_window (data m + sizeof_udp_hdr) (u32 (len m - sizeof_udp_hdr)) m].

Lemma recv_enqueues m s s' : ustep (ARecv m) s = Some (Ok s') ->
  accepted s' = accepted s ++ enqueued m (conn s) /\ inq (conn s') = inq (conn s) ++ enqueued m (conn s).
Proof.
  cbn [ustep]. unfold live, udp_conn_recv, mbuf_pull_or_null, __mbuf_pull, enqueued, mbuf_length. destruct (freed s); [done|].
  rewrite !Z.geb_leb. destruct (Z.leb_spec sizeof_udp_hdr (len m)) as [Hl|Hl].
  2:{ rewrite (proj2 (Z.ltb_lt _ _)) by done. cbn. intros [= <-]. by rewrite !app_nil_r. }
  rewrite (proj2 (Z.ltb_ge _ _)) by done. cbn [orb]. destruct (_ || _ || _); [intros [= <-]; by rewrite !app_nil_r|].
  set (m1 := set_window _ _ m). intros [= E]. assert (Ec := wake_all_conn _ _ _ E). rewrite Ec. split; [|done].
  assert (Ha : forall ts s0 s1, wake_all ts s0 = Ok s1 -> accepted s1 = accepted s0).
  { clear. induction ts as [|t ts IH]; intros s0 s1; cbn; [by intros [= <-]|]. unfold wake. destruct (pcs s0 !! t) as [[]|]; cbn; try done; by intros ->%IH. }
  rewrite (Ha _ _ _ E). cbn. by rewrite drop_app_length.
Qed.

(** C25. The receive queue of a socket without a hardware flow is a bounded FIFO.  Whatever
    packets, errors, readers, writers, completions, changes of the capacities, shutdown and
    close do in any order, datagrams are read in the order in which they were accepted,
    each once: what was read is a prefix of what was accepted, and until the socket is
    closed the rest is in the queue, whose length is counted right and is at most 512 or
    the largest capacity that was set.  A packet that arrives is accepted, as the last of
    the queue and without its header, exactly if it has one, there is room, no error is
    pending and the socket is not shut down; otherwise queue and log stay as they are. *)
Theorem udp_read_in_order B e s : UDP_IN_DEFAULT_CAP <= B -> ureach (ubounded B) (udp_start e false) s ->
  delivered s `prefix_of` accepted s /\
  (closed s = false -> accepted s = delivered s ++ inq (conn s) /\ inq_len (conn s) = Z.of_nat (length (inq (conn s))) /\
     Z.of_nat (length (inq (conn s))) <= B) /\
  (forall m s', closed s = false -> ustep (ARecv m) s = Some (Ok s') ->
     accepted s' = accepted s ++ enqueued m (conn s) /\ inq (conn s') = inq (conn s) ++ enqueued m (conn s)).
Proof.
  intros HB Hr. destruct (ureach_bound B e false s HB Hr) as [_ Hb].
  destruct (ri_inv _ (ureach_rinv (ubounded B) e s (fun a s H => proj1 H) Hr)) as [_ _ H3 (rest & E & R) _ _ _]. split; [by exists rest|]. split.
  - intros Hc. rewrite E, (R Hc). split_and!; [done|by apply H3|]. by rewrite <- H3.
  - intros m s' _. apply recv_enqueues.
Qed.

(** C26. Memory and the transmit queue of a socket without a hardware flow, as [udp_dial]
    makes it and as [udp_listen] does unless the NIC is driven directly; with a hardware
    flow it does not hold, see [udp_flow_release_frees_in_flight].  No step fails an assertion or touches a socket
    that was freed.  A slot of the transmit queue is taken by each packet in flight, by
    each writer about to send and, which is a defect, by each write that failed for lack
    of a buffer or of an address: these never give it back.  The socket is freed exactly
    when it is closed and all its packets have completed, but never if a write failed. *)
Theorem udp_socket_freed e s : ureach uok (udp_start e false) s ->
  (forall a, uok a s -> ustep a s <> Some Bug) /\
  outq_len (conn s) = Z.of_nat (inflight s + cnt TSlot (pcs s) + lost s) /\
  (freed s = true <-> closed s = true /\ inflight s = 0%nat /\ lost s = 0%nat).
Proof.
  intros Hr. assert (Hi := ureach_rinv uok e s ltac:(done) Hr). split; [|assert (Hl := ui_slots _ (ri_inv _ Hi)); split; [done|]].
  - intros a Ha E. assert (F := ustep_rinv a s Hi Ha). rewrite E in F. by destruct F as (s' & ? & _).
  - rewrite (ri_freed _ Hi), andb_true_iff, Z.eqb_eq, Hl. split.
    + intros [Hc Hz]. split; [done|]. lia.
    + intros (Hc & Hin & Hlo). split; [done|]. destruct (ui_closed _ (ri_inv _ Hi) Hc) as [Ep _]. rewrite Ep, cnt_empty. lia.
Qed.

(** No wake-up is lost, if errors are reported before the socket is shut down.  A
    reader sleeps only while it is in the wait queue and either a thread is about to
    release the queue, or there is no error, the socket is open and at least as many
    readers as there are datagrams have been woken and have yet to run.  A writer sleeps
    only while the transmit queue, with the writers about to enter it, is full, or while
    a thread is about to release it. *)
Theorem udp_no_lost_wakeup e s t : ureach calm (udp_start e false) s ->
  (pcs s !! t = Some TReadWait -> t ∈ inq_wq (conn s) /\
     (somewhere TErr s \/ somewhere TShutIn s \/
      inq_err (conn s) = 0 /\ shutdown (conn s) = false /\ (length (inq (conn s)) <= cnt TRead (pcs s))%nat)) /\
  (pcs s !! t = Some TWriteWait -> t ∈ outq_wq (conn s) /\
     (somewhere TShutIn s \/ somewhere TShutOut s \/
      shutdown (conn s) = false /\ outq_cap (conn s) <= outq_len (conn s) + Z.of_nat (cnt TWrite (pcs s)))).
Proof.
  intros Hr. destruct (ureach_linv e s Hr) as [Hi [L1 L2]]. destruct (ri_inv _ Hi) as [[_ H1] [_ H2] _ _ _ _ _]. split; intros Ht.
  - apply H1 in Ht. split; [done|]. assert (Hne : inq_wq (conn s) <> []) by (intros E; rewrite E in Ht; by apply elem_of_nil in Ht). specialize (L1 Hne).
    destruct (Z.eqb_spec (inq_err (conn s)) 0) as [Ee|Ee]; cbn in L1; [|by left]. destruct (shutdown (conn s)); [by right; left|]. by right; right.
  - apply H2 in Ht. split; [done|]. assert (Hne : outq_wq (conn s) <> []) by (intros E; rewrite E in Ht; by apply elem_of_nil in Ht). specialize (L2 Hne).
    destruct (shutdown (conn s)); [destruct L2; [by left|by right; left]|]. by right; right.
Qed.

(** Runs. *)
Definition uokb (a : uaction) (s : ust) : bool :=
  match a with
  | AErr _ err => negb (closed s) && negb (err =? 0)
  | ARecv _ | ARead _ | AWrite _ | ASetBuffers _ _ => negb (closed s)
  | AShutdown _ => negb (closed s) && negb (shutdown (conn s))
  | AClose => negb (closed s) && bool_decide (pcs s = ∅)
  | AGo _ _ | ATxDone | AFlow => true
  end.

Lemma uokb_ok a s : uokb a s = true -> uok a s.
Proof.
  destruct a; cbn; rewrite ?andb_true_iff, ?negb_true_iff, ?Z.eqb_neq, ?bool_decide_eq_true; tauto.
Qed.

Definition calmb (a : uaction) (s : ust) : bool :=
  uokb a s && match a with AErr _ _ => negb (shutdown (conn s)) | ASetBuffers _ _ => false | _ => true end.

Lemma calmb_ok a s : calmb a s = true -> calm a s.
Proof.
  unfold calmb, calm. intros [H1%uokb_ok H2]%andb_true_iff. split; [done|]. destruct a; try done. by apply negb_true_iff in H2.
Qed.

Fixpoint urun (okb : uaction -> ust -> bool) (l : list uaction) (s : ust) : option ust :=
  match l with
  | [] => Some s
  | a :: l => if okb a s then match ustep a s with Some (Ok s') => urun okb l s' | _ => None end else None
  end.

Lemma urun_reach ok okb l : (forall a s, okb a s = true -> ok a s) -> forall s0 s s', ureach ok s0 s -> urun okb l s = Some s' -> ureach ok s0 s'.
Proof.
  intros Hok. induction l as [|a l IH]; cbn; intros s0 s s' Hr Hu; [by injection Hu as <-|]. destruct (okb a s) eqn:E; [|done].
  destruct (ustep a s) as [[s1|]|] eqn:Es; [|done..]. apply (IH s0 s1); [|done]. by apply (ureach_step _ _ a s); auto.
Qed.

(** A reader sleeps; the socket is shut down; before the readers are released, an error
    arrives. *)
Definition race : list uaction := [ARead 1; AGo 1 false; AShutdown 2; AErr 3 111; AGo 2 false; AGo 2 false].
Definition race_end : ust := match urun uokb race (udp_start udp_listener false) with Some s => s | None => udp_start udp_listener false end.

(** A wake-up is lost if an error arrives during a shutdown: each of [udp_conn_err] and
    [udp_shutdown] leaves the readers to the other.  The run in question leads to a state
    in which the only thread in the socket is a reader that sleeps, the socket is shut
    down, and whatever happens from then on the reader sleeps on. *)
Theorem udp_shutdown_race_sleeps_forever :
  ureach uok (udp_start udp_listener false) race_end /\ shutdown (conn race_end) = true /\ pcs race_end = {[1%nat := TReadWait]} /\
  forall s, ureach uok race_end s -> pcs s !! 1%nat = Some TReadWait.
Proof.
  assert (Hr : ureach uok (udp_start udp_listener false) race_end).
  { apply (urun_reach uok uokb race uokb_ok _ (udp_start udp_listener false)); [constructor|]. by vm_compute. }
  split_and!; [done|by vm_compute|by vm_compute|]. intros s Hs.
  assert (Hab : abandoned 1 race_end).
  { split_and!; try by vm_compute.
    - intros [t Ht]. assert (E : pcs race_end = {[1%nat := TReadWait]}) by (by vm_compute). rewrite E in Ht. by apply lookup_singleton_Some in Ht as [_ ?].
    - intros [t Ht]. assert (E : pcs race_end = {[1%nat := TReadWait]}) by (by vm_compute). rewrite E in Ht. by apply lookup_singleton_Some in Ht as [_ ?]. }
  by apply (abandoned_forever 1 race_end s (ureach_rinv uok udp_listener race_end ltac:(done) Hr) Hab).
Qed.

(** Runs that show the hypotheses at work: two datagrams arrive and one is read; a write
    fails and the socket is closed; a reader and a writer sleep. *)
Definition datagram (b : Z) : mbuf := Mbuf (replicate 8 0 ++ [b]) 0 1920 9 0 0 0 0 0.
Definition reads : list uaction := [ARead 1; AGo 1 false; ARecv (datagram 5); ARecv (datagram 6); AGo 1 false].
Definition failed_write : list uaction := [AWrite 1; AGo 1 false; AGo 1 false; AShutdown 1; AGo 1 false; AGo 1 false; AClose].
Definition after (okb : uaction -> ust -> bool) (l : list uaction) : ust :=
  match urun okb l (udp_start udp_listener false) with Some s => s | None => udp_start udp_listener false end.

Definition uboundedb (B : Z) (a : uaction) (s : ust) : bool :=
  uokb a s && match a with ASetBuffers i _ => i <=? B | _ => true end.

Lemma uboundedb_ok B a s : uboundedb B a s = true -> ubounded B a s.
Proof. unfold uboundedb. intros [H1%uokb_ok H2]%andb_true_iff. split; [done|]. intros i o ->. lia. Qed.

Lemma udp_read_in_order_witness :
  ureach (ubounded 512) (udp_start udp_listener false) (after (uboundedb 512) reads) /\
  map payload (accepted (after (uboundedb 512) reads)) = [[5]; [6]] /\ map payload (delivered (after (uboundedb 512) reads)) = [[5]] /\
  delivered (after (uboundedb 512) reads) `prefix_of` accepted (after (uboundedb 512) reads).
Proof.
  assert (Hr : ureach (ubounded 512) (udp_start udp_listener false) (after (uboundedb 512) reads)).
  { apply (urun_reach (ubounded 512) (uboundedb 512) reads (uboundedb_ok 512) _ (udp_start udp_listener false)); [constructor|]. by vm_compute. }
  split_and!; [exact Hr|by vm_compute|by vm_compute|]. exact (proj1 (udp_read_in_order 512 _ _ (Z.le_refl 512) Hr)).
Defined.

Lemma udp_socket_freed_witness :
  ureach uok (udp_start udp_listener false) (after uokb failed_write) /\
  closed (after uokb failed_write) = true /\ inflight (after uokb failed_write) = 0%nat /\ freed (after uokb failed_write) <> true.
Proof.
  assert (Hr : ureach uok (udp_start udp_listener false) (after uokb failed_write)).
  { apply (urun_reach uok uokb failed_write uokb_ok _ (udp_start udp_listener false)); [constructor|]. by vm_compute. }
  split_and!; [exact Hr|by vm_compute|by vm_compute|]. destruct (udp_socket_freed _ _ Hr) as (_ & _ & H). rewrite H. intros (_ & _ & E).
  assert (F : lost (after uokb failed_write) = 1%nat) by (by vm_compute). rewrite F in E. discriminate E.
Defined.

Definition waits : list uaction := [ARead 1; AGo 1 false].

Lemma udp_no_lost_wakeup_witness :
  ureach calm (udp_start udp_listener false) (after calmb waits) /\ pcs (after calmb waits) !! 1%nat = Some TReadWait /\
  1%nat ∈ inq_wq (conn (after calmb waits)).
Proof.
  assert (Hr : ureach calm (udp_start udp_listener false) (after calmb waits)).
  { apply (urun_reach calm calmb waits calmb_ok _ (udp_start udp_listener false)); [constructor|]. by vm_compute. }
  split_and!; [exact Hr|by vm_compute|]. apply (proj1 (udp_no_lost_wakeup _ _ 1%nat Hr)). by vm_compute.
Defined.

(** A socket whose flow is registered with the NIC: a packet is in flight when it is
    closed, and the worker that removes the flow releases the socket. *)
Definition flow_release : list uaction := [AWrite 1; AGo 1 false; AGo 1 true; AShutdown 1; AGo 1 false; AGo 1 false; AClose; AFlow].

(** With direct hardware access the worker that removes a flow calls the release
    function without dropping its reference: the socket is freed while its packet is in
    flight, and the completion of the packet uses freed memory. *)
Theorem udp_flow_release_frees_in_flight :
  exists s, urun uokb flow_release (udp_start udp_listener true) = Some s /\ inflight s = 1%nat /\ freed s = true /\ ustep ATxDone s = Some Bug.
Proof.
  eexists. split; [by vm_compute|]. split_and!; by vm_compute.
Qed.
