(* ===== verification/Rcu.v ===== *)
(** * runtime/rcu.c, inc/runtime/rcu.h: read-copy-update

    Kthreads run uthreads that read shared objects, take objects out of the structures
    they are in and give them to [rcu_free] or wait in [synchronize_rcu]; a worker runs
    the callbacks.  A step is one access to a shared variable or one critical section of
    [rcu_lock].  A kthread whose generation counter is even is in the scheduler: RtMach.v
    has the code that counts, and its invariant that a kthread runs a uthread exactly if
    the counter is odd.  A read-side section disables preemption, so that its kthread
    stays out of the scheduler.

    Not in the code: the state of an object, the references a section holds, and a
    number for each section, by which an entry knows the sections that were open when it
    was queued. *)

From S2P Require Import Prelude.

(** [rcu_callback_t]: the release method of an object, or [synchronize_rcu_finish]. *)
Inductive callback := Release (o : nat) | SyncFinish (t : nat).

#[export] Instance callback_eq_dec : EqDecision callback.
Proof. solve_decision. Defined.

Record entry := Entry { func : callback; open_when_queued : list (nat * nat) }.

Record rkthread := RKthread {
  gen : Z;              (* rcu_gen *)
  preempt_cnt : nat;    (* nesting of read-side sections *)
  section : nat;
  refs : list nat;
}.

Inductive ostate := Linked | Unlinked | Queued | Freed.

#[export] Instance ostate_eq_dec : EqDecision ostate.
Proof. solve_decision. Defined.

(** Where the worker is. *)
Inductive wpc :=
| WLook                                            (* about to take the list *)
| WRead (head : list entry) (last : list Z)        (* reading the counters *)
| WSleep (head : list entry) (last : list Z)       (* timer_sleep *)
| WCheck (head : list entry) (last : list Z) (i : nat)
| WRun (head : list entry)
| WRet.

Record rcu := Rcu {
  kts : list rkthread;
  objs : gmap nat ostate;
  asleep : list nat;         (* threads in synchronize_rcu *)
  rcu_head : list entry;
  worker : wpc;
}.

Definition set_kts (v : list rkthread) (s : rcu) : rcu := Rcu v (objs s) (asleep s) (rcu_head s) (worker s).
Definition set_objs (v : gmap nat ostate) (s : rcu) : rcu := Rcu (kts s) v (asleep s) (rcu_head s) (worker s).
Definition set_asleep (v : list nat) (s : rcu) : rcu := Rcu (kts s) (objs s) v (rcu_head s) (worker s).
Definition set_rcu_head (v : list entry) (s : rcu) : rcu := Rcu (kts s) (objs s) (asleep s) v (worker s).
Definition set_worker (v : wpc) (s : rcu) : rcu := Rcu (kts s) (objs s) (asleep s) (rcu_head s) v.

Definition odd (k : rkthread) : bool := Z.odd (gen k).
Definition reading (k : rkthread) : bool := bool_decide (0 < preempt_cnt k)%nat.

(** The sections that are open. *)
Definition open_sections (l : list rkthread) : list (nat * nat) :=
  omap (fun '(j, k) => if reading k then Some (j, section k) else None) (imap pair l).

(** [rcu_free] and the first part of [synchronize_rcu]. *)
Definition push (f : callback) (s : rcu) : rcu := set_rcu_head (Entry f (open_sections (kts s)) :: rcu_head s) s.

Definition rcu_read_lock (k : rkthread) : rkthread :=
  RKthread (gen k) (S (preempt_cnt k)) (if reading k then section k else S (section k)) (refs k).

(** [assert(rcu_read_lock_held())]. *)
Definition rcu_read_unlock (k : rkthread) : res rkthread :=
  match preempt_cnt k with
  | O => Bug
  | S n => Ok (RKthread (gen k) n (section k) (match n with O => [] | S _ => refs k end))
  end.

Definition rcu_dereference (o : nat) (k : rkthread) : res rkthread :=
  _ ← BUG_ON (negb (reading k)); Ok (RKthread (gen k) (preempt_cnt k) (section k) (o :: refs k)).

Inductive ract :=
| KSched (j : nat) (n : Z)   (* kthread [j] enters or leaves the scheduler, or goes through it: 1 or 2 *)
| KLock (j : nat)
| KUnlock (j : nat)
| KDeref (j o : nat)
| KLink (j o : nat)          (* a new object is linked into a structure *)
| KUnlink (j o : nat)
| KFree (j o : nat)          (* rcu_free *)
| KSync (j t : nat)          (* synchronize_rcu, by thread [t] *)
| WGo.                       (* the worker goes on *)

Section machine.
Context (maxks : nat) (blocking : bool).

(** A uthread that runs on kthread [j] does something. *)
Definition on_kthread (j : nat) (f : rkthread -> option (res rcu)) (s : rcu) : option (res rcu) :=
  match kts s !! j with
  | Some k => if odd k then f k else None
  | None => None
  end.
Definition put_k (j : nat) (k : rkthread) (s : rcu) : rcu := set_kts (<[j := k]> (kts s)) s.
Definition changes (j : nat) (r : res rkthread) (s : rcu) : option (res rcu) := Some (k ← r; Ok (put_k j k s)).
Definition obj_goes (o : nat) (a b : ostate) (s : rcu) : option rcu :=
  if bool_decide (objs s !! o = Some a) then Some (set_objs (<[o := b]> (objs s)) s) else None.

(** The scheduler adds to the counter.  It is entered with preemption enabled. *)
Definition sched_step (j : nat) (n : Z) (s : rcu) : option (res rcu) :=
  match kts s !! j with
  | Some k =>
      if ((n =? 1) || (n =? 2) && odd k) && negb (reading k) then Some (Ok (put_k j (RKthread (u32 (gen k + n)) 0 (section k) (refs k)) s))
      else None
  | None => None
  end.

Definition run_callback (e : entry) (s : rcu) : rcu :=
  match func e with
  | Release o => set_objs (<[o := Freed]> (objs s)) s
  | SyncFinish t => set_asleep (filter (fun u => u <> t) (asleep s)) s
  end.

(** The next step of [_rcu_worker].  The array [last_rcu_gen] has a cell for each kthread. *)
Definition worker_step (s : rcu) : res rcu :=
  match worker s with
  | WLook =>
      match rcu_head s with
      | [] => Ok (if blocking then set_worker WRet s else s)
      | head => Ok (set_worker (WRead head []) (set_rcu_head [] s))
      end
  | WRead head last =>
      match kts s !! length last with
      | Some k => Ok (set_worker (WRead head (last ++ [gen k])) s)
      | None => Ok (set_worker (WSleep head last) s)
      end
  | WSleep head last => Ok (set_worker (WCheck head last 0) s)
  | WCheck head last i =>
      match kts s !! i with
      | Some k =>
          match last !! i with
          | Some g => Ok (set_worker (if odd k && (gen k =? g) then WSleep head last else WCheck head last (S i)) s)
          | None => Bug
          end
      | None => Ok (set_worker (if bool_decide (i = maxks) then WRun head else WSleep head last) s)
      end
  | WRun [] => Ok (set_worker WLook s)
  | WRun (e :: head) => Ok (set_worker (WRun head) (run_callback e s))
  | WRet => Ok s
  end.

Definition rstep (a : ract) (s : rcu) : option (res rcu) :=
  match a with
  | KSched j n => sched_step j n s
  | KLock j => on_kthread j (fun k => changes j (Ok (rcu_read_lock k)) s) s
  | KUnlock j => on_kthread j (fun k => if reading k then changes j (rcu_read_unlock k) s else None) s
  | KDeref j o =>
      on_kthread j (fun k => if reading k && (bool_decide (objs s !! o = Some Linked) || bool_decide (objs s !! o = Some Unlinked))
                             then changes j (rcu_dereference o k) s else None) s
  | KLink j o => on_kthread j (fun _ => if bool_decide (objs s !! o = None) then Some (Ok (set_objs (<[o := Linked]> (objs s)) s)) else None) s
  | KUnlink j o => on_kthread j (fun _ => Ok <$> obj_goes o Linked Unlinked s) s
  | KFree j o => on_kthread j (fun _ => (fun s => Ok (push (Release o) s)) <$> obj_goes o Unlinked Queued s) s
  | KSync j t =>
      on_kthread j (fun k => if reading k || bool_decide (t ∈ asleep s) then None
                             else Some (Ok (push (SyncFinish t) (set_asleep (t :: asleep s) s)))) s
  | WGo => Some (worker_step s)
  end.

(** Each kthread starts in its scheduler. *)
Definition rcu_start (n : nat) : rcu := Rcu (replicate n (RKthread 1 0 0 [])) ∅ [] [] WLook.

Inductive rreach (s0 : rcu) : rcu -> Prop :=
| rreach_start : rreach s0 s0
| rreach_step a s s' : rreach s0 s -> rstep a s = Some (Ok s') -> rreach s0 s'.
End machine.

(** ** The invariant *)

Definition active (s : rcu) (j n : nat) : Prop := exists k, kts s !! j = Some k /\ reading k = true /\ section k = n.

(** The entries the worker has taken, and all that wait. *)
Definition taken (w : wpc) : list entry :=
  match w with WLook | WRet => [] | WRead h _ | WSleep h _ | WCheck h _ _ | WRun h => h end.
Definition waiting (s : rcu) : list entry := rcu_head s ++ taken (worker s).

Definition release_of (e : entry) : option nat := match func e with Release o => Some o | SyncFinish _ => None end.

Definition kt_ok (k : rkthread) : Prop := (reading k = true -> odd k = true) /\ (reading k = false -> refs k = []).

(** What the worker knows of a section that was open when an entry was queued and still
    is: the counter has not changed since it was read, and no check has passed. *)
Definition seen (s : rcu) (j n : nat) : Prop :=
  match worker s with
  | WRead _ last | WSleep _ last => (j < length last)%nat -> last !! j = gen <$> kts s !! j
  | WCheck _ last i => (j < length last)%nat /\ last !! j = gen <$> kts s !! j /\ (i <= j)%nat
  | WRun _ => False
  | WLook | WRet => True
  end.

Record rinv (s : rcu) : Prop := {
  ri_kts : Forall kt_ok (kts s);
  ri_open : forall e j n, e ∈ waiting s -> (j, n) ∈ open_when_queued e -> exists k, kts s !! j = Some k /\ (n <= section k)%nat;
  ri_seen : forall e j n, e ∈ taken (worker s) -> (j, n) ∈ open_when_queued e -> active s j n -> seen s j n;
  ri_last : match worker s with
            | WRead _ last => (length last <= length (kts s))%nat
            | WSleep _ last | WCheck _ last _ => length last = length (kts s)
            | _ => True
            end;
  ri_nodup : NoDup (omap release_of (waiting s));
  ri_queued : forall o, o ∈ omap release_of (waiting s) <-> objs s !! o = Some Queued;
  ri_refs : forall j k o, kts s !! j = Some k -> o ∈ refs k ->
    objs s !! o = Some Linked \/ objs s !! o = Some Unlinked \/
    exists e, e ∈ waiting s /\ release_of e = Some o /\ (j, section k) ∈ open_when_queued e;
}.

Lemma open_sections_spec l j n : (j, n) ∈ open_sections l <-> exists k, l !! j = Some k /\ reading k = true /\ section k = n.
Proof.
  unfold open_sections. rewrite list_elem_of_omap. split.
  - intros ([i k] & Hi & E). apply elem_of_lookup_imap in Hi as (i' & k' & Hp & Hi). injection Hp as <- <-. destruct (reading k) eqn:R; [|done]. injection E as <- <-. eauto.
  - intros (k & Hk & R & <-). exists (j, k). rewrite R. split; [|done]. apply elem_of_lookup_imap. eauto.
Qed.

Lemma reading_iff k : reading k = true <-> (0 < preempt_cnt k)%nat.
Proof. unfold reading. apply bool_decide_eq_true. Qed.

(** Steps that change only one kthread, [k] to [k'].  A new section has a new number. *)
Lemma kthread_keeps s j k k' :
  rinv s -> kts s !! j = Some k -> kt_ok k' ->
  (section k <= section k')%nat ->
  (reading k' = true -> section k' = section k -> reading k = true) ->
  (reading k = true -> reading k' = true -> gen k' = gen k) ->
  (forall o, o ∈ refs k' -> (o ∈ refs k /\ section k' = section k) \/ objs s !! o = Some Linked \/ objs s !! o = Some Unlinked) ->
  rinv (put_k j k' s).
Proof.
  intros [I1 I2 I3 I4 I5 I6 I7] Hk Hok Hs1 Hs2 Hg Hr.
  assert (Hl : forall i, <[j := k']> (kts s) !! i = if decide (i = j) then Some k' else kts s !! i).
  { intros i. destruct (decide (i = j)) as [->|]; [apply list_lookup_insert_eq; by eapply lookup_lt_Some|by rewrite list_lookup_insert_ne]. }
  assert (Hact : forall e i n, e ∈ waiting s -> (i, n) ∈ open_when_queued e -> active (put_k j k' s) i n ->
                 active s i n /\ gen <$> <[j := k']> (kts s) !! i = gen <$> kts s !! i).
  { intros e i n He Hi (x & Hx & Rx & Sx). cbn in Hx. rewrite Hl in *. destruct (decide (i = j)) as [->|].
    - injection Hx as <-. destruct (I2 e j n He Hi) as (k0 & Hk0 & Hle). rewrite Hk in Hk0. injection Hk0 as <-.
      assert (E : section k' = section k) by lia. specialize (Hs2 Rx E). rewrite Hk. cbn. rewrite Hg by done. split; [|done]. exists k. split_and!; [done..|lia].
    - split; [|done]. by exists x. }
  split; cbn [kts put_k set_kts worker objs]; try done.
  - apply Forall_insert; done.
  - intros e i n He Hi. rewrite Hl. destruct (I2 e i n He Hi) as (k0 & Hk0 & Hle). destruct (decide (i = j)) as [->|]; [|eauto].
    rewrite Hk in Hk0. injection Hk0 as <-. exists k'. split; [done|lia].
  - intros e i n He Hi Ha. destruct (Hact e i n) as [Ha' Eg]; [unfold waiting; set_solver|done..|].
    specialize (I3 e i n He Hi Ha'). unfold seen in *. cbn [worker put_k set_kts kts]. destruct (worker s); try done; by rewrite Eg.
  - by rewrite length_insert.
  - intros i x o Hx Ho. cbn in Hx. rewrite Hl in Hx. destruct (decide (i = j)) as [->|]; [|by eapply I7].
    injection Hx as <-. destruct (Hr o Ho) as [[Ho' Es]|[|]]; [|auto..]. rewrite Es. by eapply I7.
Qed.

Lemma sched_keeps s j n k : rinv s -> kts s !! j = Some k -> reading k = false ->
  rinv (put_k j (RKthread (u32 (gen k + n)) 0 (section k) (refs k)) s).
Proof.
  intros Hi Hk Hr. assert (Hok : kt_ok k) by (eapply (Forall_lookup_1 kt_ok); [apply (ri_kts _ Hi)|done]). destruct Hok as [_ Hrefs].
  eapply kthread_keeps; try done; cbn; [|intros o Ho; by left]. split; [done|]. intros _. by apply Hrefs.
Qed.

Lemma lock_keeps s j k : rinv s -> kts s !! j = Some k -> odd k = true -> rinv (put_k j (rcu_read_lock k) s).
Proof.
  intros Hi Hk Ho. assert (Hok : kt_ok k) by (eapply (Forall_lookup_1 kt_ok); [apply (ri_kts _ Hi)|done]). destruct Hok as [_ Hrefs].
  unfold rcu_read_lock. destruct (reading k) eqn:R; eapply kthread_keeps; try done; cbn; try lia.
  - intros o Hin. by left.
  - intros o Hin. rewrite Hrefs in Hin by done. by apply elem_of_nil in Hin.
Qed.

Lemma unlock_keeps s j k : rinv s -> kts s !! j = Some k -> odd k = true -> reading k = true ->
  exists k', rcu_read_unlock k = Ok k' /\ rinv (put_k j k' s).
Proof.
  intros Hi Hk Ho Hr. unfold rcu_read_unlock. assert (Hr' := Hr). apply reading_iff in Hr'. destruct (preempt_cnt k) as [|n] eqn:E; [lia|].
  eexists. split; [done|]. eapply kthread_keeps; try done; cbn; try lia.
  - split; [done|]. cbn. unfold reading. cbn. by destruct n.
  - intros o Hin. left. destruct n; [by apply elem_of_nil in Hin|done].
Qed.

Lemma deref_keeps s j k o : rinv s -> kts s !! j = Some k -> odd k = true -> reading k = true ->
  objs s !! o = Some Linked \/ objs s !! o = Some Unlinked -> exists k', rcu_dereference o k = Ok k' /\ rinv (put_k j k' s).
Proof.
  intros Hi Hk Ho Hr Hob. unfold rcu_dereference. rewrite Hr. eexists. split; [done|].
  eapply kthread_keeps; try done; cbn; try lia.
  - split; [done|]. intros E. exfalso. revert E. unfold reading. cbn. unfold reading in Hr. rewrite Hr. done.
  - intros o' [->|Hin]%elem_of_cons; [|auto]. auto.
Qed.

Lemma objs_keep s o b : rinv s -> objs s !! o <> Some Queued -> b = Linked \/ b = Unlinked -> rinv (set_objs (<[o := b]> (objs s)) s).
Proof.
  intros [I1 I2 I3 I4 I5 I6 I7] Hq Hb. split; try done; cbn.
  - intros o'. rewrite I6. destruct (decide (o' = o)) as [->|]; [rewrite lookup_insert_eq|by rewrite lookup_insert_ne].
    split; [done|]. intros [= ->]. by destruct Hb.
  - intros j k o' Hk Ho. destruct (decide (o' = o)) as [->|]; [rewrite lookup_insert_eq; destruct Hb as [-> | ->]; auto|].
    rewrite lookup_insert_ne by done. by eapply I7.
Qed.

(** An entry is queued. *)
Lemma push_keeps f s m : rinv s ->
  match f with Release o => objs s !! o = Some Unlinked /\ m = <[o := Queued]> (objs s) | SyncFinish _ => m = objs s end ->
  rinv (push f (set_objs m s)).
Proof.
  intros [I1 I2 I3 I4 I5 I6 I7] Hf.
  assert (Hm : forall o', o' ∈ omap release_of [Entry f (open_sections (kts s))] <-> objs s !! o' = Some Unlinked /\ m !! o' = Some Queued /\ f = Release o').
  { intros o'. destruct f as [o|t]; cbn [omap list_omap release_of func].
    - destruct Hf as [Hf ->]. rewrite list_elem_of_singleton. split; [intros ->; by rewrite lookup_insert_eq|]. by intros (_ & _ & [= <-]).
    - rewrite elem_of_nil. split; [done|]. by intros (_ & _ & ?). }
  assert (Hm' : forall o', m !! o' = Some Queued <-> objs s !! o' = Some Queued \/ f = Release o').
  { intros o'. destruct f as [o|t]; [|subst m; naive_solver]. destruct Hf as [Hf ->]. destruct (decide (o' = o)) as [->|Hne].
    - rewrite lookup_insert_eq. naive_solver.
    - rewrite lookup_insert_ne by done. naive_solver. }
  assert (Hw : waiting (push f (set_objs m s)) = [Entry f (open_sections (kts s))] ++ waiting s) by done.
  split; try done.
  - rewrite Hw. intros e j n [->%list_elem_of_singleton|He]%elem_of_app Hj; [|by eapply I2].
    apply open_sections_spec in Hj as (k & Hk & _ & <-). exists k. split; [done|lia].
  - rewrite Hw, omap_app. apply list.NoDup_app. split_and!; [|intros o' Ho'%Hm; rewrite I6; intros E; destruct Ho' as [Ho' _]; congruence|done].
    destruct f; cbn; [|by apply base.NoDup_nil_2]. apply NoDup_singleton.
  - intros o'. rewrite Hw, omap_app, elem_of_app, Hm, I6. cbn [objs push set_rcu_head set_objs]. rewrite Hm'. naive_solver.
  - intros j k o' Hk Ho. rewrite Hw. cbn [objs push set_rcu_head set_objs].
    assert (Hkeep : f <> Release o' -> m !! o' = objs s !! o').
    { intros Hne. destruct f as [o|t]; [|by subst]. destruct Hf as [_ ->]. rewrite lookup_insert_ne; [done|]. intros ->. done. }
    destruct (decide (f = Release o')) as [->|Hne].
    { right. right. eexists. split; [apply elem_of_app; left; by apply list_elem_of_singleton|]. split; [done|].
      apply open_sections_spec. exists k. split_and!; [done| |done]. destruct (reading k) eqn:R; [done|].
      assert (Hok : kt_ok k) by (by eapply (Forall_lookup_1 kt_ok)). destruct Hok as [_ Hn]. rewrite (Hn R) in Ho. by apply elem_of_nil in Ho. }
    rewrite Hkeep by done. destruct (I7 j k o' Hk Ho) as [|[|(e & He & ?)]]; [auto..|]. right. right. exists e. set_solver.
Qed.

(** The worker moves on with the same entries. *)
Definition last_ok (n : nat) (w : wpc) : Prop :=
  match w with
  | WRead _ last => (length last <= n)%nat
  | WSleep _ last | WCheck _ last _ => length last = n
  | _ => True
  end.

Lemma worker_moves w s : rinv s -> taken w = taken (worker s) -> last_ok (length (kts s)) w ->
  (forall e j n, e ∈ taken w -> (j, n) ∈ open_when_queued e -> active s j n -> seen s j n -> seen (set_worker w s) j n) -> rinv (set_worker w s).
Proof.
  intros [I1 I2 I3 I4 I5 I6 I7] Ew Hl Hs. assert (Hw : waiting (set_worker w s) = waiting s) by (unfold waiting; cbn; by rewrite Ew).
  split; try rewrite Hw; try done. intros e j n He Hj Ha. apply (Hs e); try done. apply (I3 e); [|done..]. by rewrite <- Ew.
Qed.

Lemma reading_refs s j k o : rinv s -> kts s !! j = Some k -> o ∈ refs k -> reading k = true.
Proof.
  intros Hi Hk Ho. destruct (reading k) eqn:R; [done|].
  assert (Hok : kt_ok k) by (eapply (Forall_lookup_1 kt_ok); [apply (ri_kts _ Hi)|done]). destruct Hok as [_ Hn]. rewrite (Hn R) in Ho. by apply elem_of_nil in Ho.
Qed.

(** The sections an entry waits for have ended when its callback runs. *)
Lemma run_quiescent s e head j n : rinv s -> worker s = WRun (e :: head) -> (j, n) ∈ open_when_queued e -> ~ active s j n.
Proof. intros Hi Ew Hj Ha. assert (F := ri_seen _ Hi e j n). rewrite Ew in F. specialize (F ltac:(by left) Hj Ha). unfold seen in F. by rewrite Ew in F. Qed.

Lemma run_waiting s e head : worker s = WRun (e :: head) -> waiting s ≡ₚ e :: waiting (set_worker (WRun head) s).
Proof. intros Ew. unfold waiting. rewrite Ew. cbn. by rewrite Permutation_middle. Qed.

Lemma run_objs e s o : objs (run_callback e s) !! o = if bool_decide (release_of e = Some o) then Some Freed else objs s !! o.
Proof.
  unfold run_callback, release_of. destruct (func e) as [o'|t]; cbn; [|by rewrite bool_decide_eq_false_2].
  case_bool_decide as E; [injection E as ->; by rewrite lookup_insert_eq|]. rewrite lookup_insert_ne; [done|]. intros ->. done.
Qed.

Lemma run_keeps s e head : rinv s -> worker s = WRun (e :: head) -> rinv (set_worker (WRun head) (run_callback e s)).
Proof.
  intros Hi Ew. assert (Hq := fun j n => run_quiescent s e head j n Hi Ew). assert (Hp := run_waiting s e head Ew).
  assert (Hrr := fun j k o => reading_refs s j k o Hi). destruct Hi as [I1 I2 I3 I4 I5 I6 I7].
  assert (Hw : waiting (set_worker (WRun head) (run_callback e s)) = waiting (set_worker (WRun head) s)) by (unfold run_callback; by destruct (func e)).
  assert (Hk : kts (run_callback e s) = kts s) by (unfold run_callback; by destruct (func e)).
  assert (J5 : NoDup (omap release_of (e :: waiting (set_worker (WRun head) s)))) by (by rewrite <- Hp).
  assert (Hque : forall o, release_of e = Some o -> objs s !! o = Some Queued) by (intros o Er; rewrite <- I6, Hp; cbn; rewrite Er; by left).
  split; cbn [worker set_worker taken kts objs]; try rewrite Hw; try rewrite Hk; try done.
  - intros e' j n He' Hj. apply (I2 e' j n); [|done]. rewrite Hp. by right.
  - intros e' j n He' Hj (k & Hk' & Hr). cbn in Hk'. rewrite Hk in Hk'. exfalso. rewrite Ew in I3.
    specialize (I3 e' j n ltac:(by right) Hj ltac:(by exists k)). unfold seen in I3. by rewrite Ew in I3.
  - cbn in J5. destruct (release_of e); [by apply list.NoDup_cons in J5 as [_ ?]|done].
  - intros o. rewrite run_objs. case_bool_decide as E.
    + split; [|done]. intros Hin. cbn in J5. rewrite E in J5. apply list.NoDup_cons in J5 as [J5 _]. done.
    + rewrite <- I6, Hp. cbn. destruct (release_of e) as [o'|]; [|done]. rewrite elem_of_cons. split; [by right|]. by intros [->|].
  - intros j k o Hj Hin. rewrite run_objs. assert (Hc := I7 j k o Hj Hin). case_bool_decide as Er.
    + rewrite (Hque o Er) in Hc. destruct Hc as [?|[?|(e' & H1 & H2 & H3)]]; [done..|]. rewrite Hp in H1. apply elem_of_cons in H1 as [->|H1]; [|by eauto 10].
      destruct (Hq j (section k) H3). exists k. split_and!; eauto.
    + destruct Hc as [?|[?|(e' & H1 & H2 & H3)]]; [auto..|]. rewrite Hp in H1. apply elem_of_cons in H1 as [->|H1]; [done|by eauto 10].
Qed.

Lemma worker_keeps maxks blocking s : rinv s -> exists s', worker_step maxks blocking s = Ok s' /\ rinv s'.
Proof.
  intros Hi. assert (Hlast : last_ok (length (kts s)) (worker s)) by (apply (ri_last _ Hi)).
  assert (Hmv := fun w => worker_moves w s Hi). unfold worker_step.
  destruct (worker s) as [|head last|head last|head last i|[|e head]|] eqn:Ew; cbn [taken last_ok] in *.
  - destruct (rcu_head s) as [|e l] eqn:Eh.
    + destruct blocking; [|by exists s]. eexists. split; [done|]. by apply Hmv.
    + eexists. split; [done|]. destruct Hi as [I1 I2 I3 I4 I5 I6 I7].
      assert (Hw : waiting (set_worker (WRead (e :: l) []) (set_rcu_head [] s)) = waiting s) by (unfold waiting; rewrite Ew, Eh; cbn; by rewrite app_nil_r).
      split; try rewrite Hw; try done; cbn; [|lia]. intros e' j n He Hj Ha. unfold seen. cbn. lia.
  - destruct (kts s !! length last) as [k|] eqn:Ek; (eexists; split; [done|]).
    + apply Hmv; [done|cbn; rewrite length_app; cbn; apply lookup_lt_Some in Ek; lia|].
      intros e j n _ _ _ Hs. unfold seen in *. rewrite Ew in Hs. cbn. rewrite length_app. cbn. intros Hlt.
      destruct (decide (j = length last)) as [->|]; [by rewrite list_lookup_middle, Ek|]. rewrite lookup_app_l by lia. apply Hs. lia.
    + apply lookup_ge_None in Ek. apply Hmv; [done|cbn; lia|]. intros e j n _ _ _ Hs. unfold seen in *. by rewrite Ew in Hs.
  - eexists. split; [done|]. apply Hmv; [done|done|]. intros e j n _ _ (k & Hk & _) Hs. unfold seen in *. rewrite Ew in Hs. cbn.
    apply lookup_lt_Some in Hk. split_and!; [lia|apply Hs; lia|lia].
  - destruct (kts s !! i) as [k|] eqn:Ek.
    + destruct (lookup_lt_is_Some_2 last i) as [g Hg]; [rewrite Hlast; by eapply lookup_lt_Some|]. rewrite Hg.
      eexists. split; [done|]. apply Hmv; [by destruct (_ && _)|by destruct (_ && _)|].
      intros e j n _ _ Ha Hs. unfold seen in *. rewrite Ew in Hs. destruct Hs as (J1 & J2 & J3). cbn. destruct (odd k && (gen k =? g)) eqn:E; [done|]. split_and!; [done..|].
      destruct (decide (i = j)) as [->|]; [|lia]. exfalso. rewrite Hg, Ek in J2. injection J2 as ->. rewrite Z.eqb_refl in E.
      destruct Ha as (k' & Hk & Hr & _). rewrite Ek in Hk. injection Hk as <-.
      assert (Hok : kt_ok k) by (eapply (Forall_lookup_1 kt_ok); [apply (ri_kts _ Hi)|done]). destruct Hok as [Ho _]. by rewrite (Ho Hr) in E.
    + apply lookup_ge_None in Ek. eexists. split; [done|]. apply Hmv; [by case_bool_decide|by case_bool_decide|].
      intros e j n _ _ _ Hs. unfold seen in Hs. rewrite Ew in Hs. destruct Hs as (J1 & _ & J3). lia.
  - eexists. split; [done|]. by apply Hmv.
  - eexists. split; [done|]. by apply run_keeps.
  - by exists s.
Qed.

Lemma rinv_asleep l s : rinv s -> rinv (set_asleep l s).
Proof. by intros []. Qed.

Lemma rstep_keeps maxks blocking a s : rinv s -> match rstep maxks blocking a s with Some r => exists s', r = Ok s' /\ rinv s' | None => True end.
Proof.
  intros Hi. unfold rstep, on_kthread, sched_step, changes. destruct a as [j n|j|j|j o|j o|j o|j o|j t|].
  1-8: destruct (kts s !! j) as [k|] eqn:Hk; [|done].
  2-8: destruct (odd k) eqn:Ho; [|done].
  - destruct (((n =? 1) || (n =? 2) && odd k) && negb (reading k)) eqn:E; [|done]. eexists. split; [done|]. apply andb_true_iff in E as [_ E%negb_true_iff]. by apply sched_keeps.
  - eexists. split; [done|]. by apply lock_keeps.
  - destruct (reading k) eqn:Hr; [|done]. destruct (unlock_keeps s j k) as (k' & -> & Hk'); [done..|]. eexists. by split.
  - destruct (reading k) eqn:Hr; [|done]. cbn [andb]. destruct (bool_decide _ || bool_decide _) eqn:E; [|done].
    apply orb_true_iff in E. rewrite !bool_decide_eq_true in E. destruct (deref_keeps s j k o) as (k' & -> & Hk'); [done..|]. eexists. by split.
  - case_bool_decide as E; [|done]. eexists. split; [done|]. apply objs_keep; [done|congruence|by left].
  - unfold obj_goes. case_bool_decide as E; [|done]. eexists. split; [done|]. apply objs_keep; [done|congruence|by right].
  - unfold obj_goes. case_bool_decide as E; [|done]. eexists. split; [done|]. by apply push_keeps.
  - destruct (reading k || bool_decide (t ∈ asleep s)); [done|]. eexists. split; [done|]. apply (push_keeps (SyncFinish t) (set_asleep (t :: asleep s) s) (objs s)); [by apply rinv_asleep|done].
  - destruct (worker_keeps maxks blocking s Hi) as (s' & E & Hs). by exists s'.
Qed.

Lemma rcu_start_rinv n : rinv (rcu_start n).
Proof.
  split; cbn; try done.
  - apply Forall_replicate. by split.
  - intros e j m He. by apply elem_of_nil in He.
  - apply base.NoDup_nil_2.
  - intros o. by rewrite elem_of_nil, lookup_empty.
  - intros j k o Hk Ho. apply lookup_replicate in Hk as [-> _]. by apply elem_of_nil in Ho.
Qed.

Lemma rreach_rinv maxks blocking n s : rreach maxks blocking (rcu_start n) s -> rinv s.
Proof.
  induction 1 as [|a s s' _ IH E]; [apply rcu_start_rinv|]. assert (F := rstep_keeps maxks blocking a s IH). rewrite E in F. by destruct F as (s'' & [= <-] & ?).
Qed.

(** ** Properties *)

(** C27. Read-copy-update is safe under every interleaving: no assertion fails; an open
    read-side section never holds a reference to an object that was freed; and when a
    callback of [rcu_free] or [synchronize_rcu] is about to run, every section that was
    open when it was queued has ended. *)
Theorem rcu_safe maxks blocking n s : rreach maxks blocking (rcu_start n) s ->
  (forall a, rstep maxks blocking a s <> Some Bug) /\
  (forall j k o, kts s !! j = Some k -> o ∈ refs k -> is_Some (objs s !! o) /\ objs s !! o <> Some Freed) /\
  (forall e head j m, worker s = WRun (e :: head) -> (j, m) ∈ open_when_queued e -> ~ active s j m).
Proof.
  intros Hr%rreach_rinv. split_and!.
  - intros a E. assert (F := rstep_keeps maxks blocking a s Hr). rewrite E in F. by destruct F as (? & ? & _).
  - intros j k o Hk Ho. destruct (ri_refs _ Hr j k o Hk Ho) as [->|[->|(e & He & Er & _)]]; [done..|].
    assert (Hq : objs s !! o = Some Queued) by (apply (ri_queued _ Hr), list_elem_of_omap; eauto). by rewrite Hq.
  - intros e head j m. by apply run_quiescent.
Qed.

(** A section is open, its object is unlinked and queued; the worker waits; the section
    ends, the kthread goes through its scheduler, and the object is freed. *)
Fixpoint rrun (maxks : nat) (l : list ract) (s : rcu) : option rcu :=
  match l with
  | [] => Some s
  | a :: l => match rstep maxks false a s with Some (Ok s') => rrun maxks l s' | _ => None end
  end.

Lemma rrun_reach maxks l s0 s s' : rreach maxks false s0 s -> rrun maxks l s = Some s' -> rreach maxks false s0 s'.
Proof.
  revert s. induction l as [|a l IH]; cbn; intros s Hr E; [by injection E as <-|].
  destruct (rstep maxks false a s) as [[s1|]|] eqn:Es; [|done..]. apply (IH s1); [|done]. by apply (rreach_step _ _ _ a s).
Qed.

Definition reader : list ract :=
  [KLink 0 7; KLock 1; KDeref 1 7; KUnlink 0 7; KFree 0 7; WGo; WGo; WGo; WGo; KSched 0 1; WGo; WGo; WGo].
Definition demo (l : list ract) : rcu := match rrun 2 l (rcu_start 2) with Some s => s | None => rcu_start 2 end.

Lemma rcu_safe_witness :
  rreach 2 false (rcu_start 2) (demo reader) /\ refs <$> kts (demo reader) !! 1%nat = Some [7%nat] /\
  objs (demo reader) !! 7%nat <> Some Freed.
Proof.
  assert (Hr : rreach 2 false (rcu_start 2) (demo reader)) by (apply (rrun_reach 2 reader _ (rcu_start 2)); [constructor|by vm_compute]).
  split_and!; [exact Hr|by vm_compute|]. destruct (rcu_safe _ _ _ _ Hr) as (_ & H & _).
  apply (H 1%nat (RKthread 1 1 1 [7%nat]) 7%nat); [by vm_compute|left].
Defined.

Fixpoint wrun (maxks n : nat) (s : rcu) : res rcu :=
  match n with O => Ok s | S n => s ← worker_step maxks false s; wrun maxks n s end.

Lemma wrun_add maxks n m s : wrun maxks (n + m) s = s ← wrun maxks n s; wrun maxks m s.
Proof. revert s. induction n as [|n IH]; intros s; [done|]. cbn. destruct (worker_step maxks false s); [apply IH|done]. Qed.

Definition passed (last : list Z) (s : rcu) : Prop :=
  forall j k, kts s !! j = Some k -> odd k = false \/ last !! j <> Some (gen k).

(** The checks from kthread [i] on succeed. *)
Lemma checks_pass maxks s head last i : rinv s -> worker s = WCheck head last i -> passed last s -> length (kts s) = maxks -> (i <= maxks)%nat ->
  wrun maxks (S (maxks - i)) s = Ok (set_worker (WRun head) s).
Proof.
  intros Hi Ew Hp Hn Hle. remember (maxks - i)%nat as d eqn:Hd. revert s i Hi Ew Hp Hn Hle Hd. induction d as [|d IH]; intros s i Hi Ew Hp Hn Hle Hd.
  - assert (i = maxks) as -> by lia. cbn. unfold worker_step. rewrite Ew, (lookup_ge_None_2 (kts s) maxks) by lia. by rewrite bool_decide_eq_true_2.
  - destruct (lookup_lt_is_Some_2 (kts s) i) as [k Hk]; [lia|].
    destruct (lookup_lt_is_Some_2 last i) as [g Hg]; [assert (Hl := ri_last _ Hi); rewrite Ew in Hl; lia|].
    assert (E : worker_step maxks false s = Ok (set_worker (WCheck head last (S i)) s)).
    { unfold worker_step. rewrite Ew, Hk, Hg. destruct (Hp i k Hk) as [-> |Hne]; [done|]. rewrite Hg in Hne.
      rewrite (proj2 (Z.eqb_neq (gen k) g)) by congruence. by rewrite andb_false_r. }
    change (wrun maxks (S (S d)) s) with (s ← worker_step maxks false s; wrun maxks (S d) s). rewrite E. cbn [mbind res_bind].
    rewrite (IH (set_worker (WCheck head last (S i)) s) (S i)); try done; [|lia..].
    destruct (worker_keeps maxks false s Hi) as (s' & E' & Hs'). rewrite E in E'. by injection E' as <-.
Qed.

(** All callbacks run. *)
Lemma callbacks_run maxks head s : worker s = WRun head ->
  exists s', wrun maxks (S (length head)) s = Ok s' /\ worker s' = WLook /\ rcu_head s' = rcu_head s /\ kts s' = kts s /\
    (forall o, objs s' !! o = if bool_decide (o ∈ omap release_of head) then Some Freed else objs s !! o) /\
    (forall t, t ∈ asleep s' <-> t ∈ asleep s /\ forall e, e ∈ head -> func e <> SyncFinish t).
Proof.
  revert s. induction head as [|e head IH]; intros s Ew.
  - exists (set_worker WLook s). cbn. unfold worker_step. rewrite Ew. split_and!; try done. intros t. split; [|tauto]. intros Ht. split; [done|].
    intros e He. by apply elem_of_nil in He.
  - destruct (IH (set_worker (WRun head) (run_callback e s)) ltac:(done)) as (s' & E & H1 & H2 & H3 & H4 & H5).
    exists s'. change (wrun maxks (S (length (e :: head))) s) with (s ← worker_step maxks false s; wrun maxks (S (length head)) s).
    assert (Es : worker_step maxks false s = Ok (set_worker (WRun head) (run_callback e s))) by (unfold worker_step; by rewrite Ew). rewrite Es. cbn [mbind res_bind].
    split_and!; try done.
    + rewrite H2. unfold run_callback. by destruct (func e).
    + rewrite H3. unfold run_callback. by destruct (func e).
    + intros o. rewrite H4. cbn [objs set_worker]. rewrite run_objs. cbn [omap list_omap]. destruct (release_of e) as [o'|] eqn:Er; cbn.
      * rewrite (bool_decide_ext (o ∈ o' :: omap release_of head) (o = o' \/ o ∈ omap release_of head)) by apply elem_of_cons.
        repeat case_bool_decide; naive_solver.
      * repeat case_bool_decide; naive_solver.
    + intros t. rewrite H5. cbn [asleep set_worker]. unfold run_callback. destruct (func e) as [o|u] eqn:Ef; cbn.
      * split; intros [? He]; (split; [done|]); [intros e' [->|]%elem_of_cons; [congruence|auto]|intros e' ?; apply He; by right].
      * rewrite list_elem_of_filter. split.
        -- intros [[Hne Ht] He]. split; [done|]. intros e' [->|]%elem_of_cons; [congruence|auto].
        -- intros [Ht He]. split; [split; [|done]|intros e' ?; apply He; by right]. intros ->. by apply (He e); [left|].
Qed.

Lemma rstep_length maxks blocking a s s' : rstep maxks blocking a s = Some (Ok s') -> length (kts s') = length (kts s).
Proof.
  unfold rstep, on_kthread, sched_step, changes, obj_goes. destruct a as [j n|j|j|j o|j o|j o|j o|j t|].
  1-8: destruct (kts s !! j) as [k|]; [|done].
  2-8: destruct (odd k); [|done].
  - case_match; [|done]. intros [= <-]. apply length_insert.
  - intros [= <-]. apply length_insert.
  - case_match; [|done]. destruct (rcu_read_unlock k); [|done]. intros [= <-]. apply length_insert.
  - case_match; [|done]. destruct (rcu_dereference o k); [|done]. intros [= <-]. apply length_insert.
  - case_match; [|done]. by intros [= <-].
  - case_match; [|done]. by intros [= <-].
  - case_match; [|done]. by intros [= <-].
  - case_match; [done|]. by intros [= <-].
  - intros [= E]. revert E. unfold worker_step, run_callback. destruct (worker s) as [|h l|h l|h l i|[|e h]|]; repeat case_match; intros [= <-]; done.
Qed.

(** C33. Grace periods end.  When every kthread is in its scheduler or has been there since
    the worker read its counter, the worker frees every object it took and wakes every
    thread whose entry it took, in a number of its own steps that it is given here, and
    is ready for the next entries. *)
Theorem rcu_grace_period_ends n s head last : rreach n false (rcu_start n) s -> worker s = WSleep head last -> passed last s ->
  exists s', wrun n (n + length head + 3) s = Ok s' /\ worker s' = WLook /\ rcu_head s' = rcu_head s /\
    (forall e o, e ∈ head -> func e = Release o -> objs s' !! o = Some Freed) /\
    (forall e t, e ∈ head -> func e = SyncFinish t -> t ∉ asleep s').
Proof.
  intros Hr Ew Hp. assert (Hi := rreach_rinv _ _ _ _ Hr).
  assert (Hn : length (kts s) = n).
  { clear Ew Hp Hi. induction Hr as [|a s s' _ IH E]; [cbn; by rewrite length_replicate|]. rewrite <- IH. by eapply rstep_length. }
  replace (n + length head + 3)%nat with (1 + (S (n - 0) + S (length head)))%nat by lia. 
  assert (E : worker_step n false s = Ok (set_worker (WCheck head last 0) s)) by (unfold worker_step; by rewrite Ew).
  rewrite (wrun_add n 1). change (wrun n 1 s) with (s ← worker_step n false s; Ok s). rewrite E. cbn [mbind res_bind]. rewrite wrun_add.
  assert (Hi' : rinv (set_worker (WCheck head last 0) s)) by (destruct (worker_keeps n false s Hi) as (s' & E' & ?); rewrite E in E'; by injection E' as <-).
  rewrite (checks_pass n (set_worker (WCheck head last 0) s) head last 0); try done; [|lia]. cbn [mbind res_bind].
  destruct (callbacks_run n head (set_worker (WRun head) (set_worker (WCheck head last 0) s)) ltac:(done)) as (s' & -> & H1 & H2 & _ & H4 & H5).
  exists s'. split_and!; try done.
  - intros e o He Ef. rewrite H4, bool_decide_eq_true_2; [done|]. apply list_elem_of_omap. exists e. split; [done|]. unfold release_of. by rewrite Ef.
  - intros e t He Ef Ht. apply H5 in Ht as [_ Ht]. by apply (Ht e).
Qed.

Definition grace : list ract :=
  [KLink 0 7; KLock 1; KDeref 1 7; KUnlink 0 7; KFree 0 7; WGo; WGo; WGo; WGo; KSched 0 1; WGo; WGo; WGo; KUnlock 1; KSched 1 2].

Lemma rcu_grace_period_ends_witness :
  rreach 2 false (rcu_start 2) (demo grace) /\
  exists s', wrun 2 6 (demo grace) = Ok s' /\ objs s' !! 7%nat = Some Freed.
Proof.
  assert (Hr : rreach 2 false (rcu_start 2) (demo grace)) by (apply (rrun_reach 2 grace _ (rcu_start 2)); [constructor|by vm_compute]).
  split; [exact Hr|].
  destruct (rcu_grace_period_ends 2 (demo grace) [Entry (Release 7) [(1, 1)]%nat] [1; 1] Hr) as (s' & E & _ & _ & H & _).
  - by vm_compute.
  - intros [|[|j]] k Hk; vm_compute in Hk; [injection Hk as <-; by left|injection Hk as <-; right; by vm_compute|done].
  - exists s'. split; [exact E|]. apply (H (Entry (Release 7) [(1, 1)]%nat)); [left|reflexivity].
Defined.

(** [synchronize_rcu_blocking] runs the loop in the calling thread, on a kthread [w] whose
    counter is odd.  Unless that kthread enters its scheduler meanwhile, which the loop
    does not do, it never gets as far as a callback. *)
Definition stays (w : nat) (a : ract) : Prop := match a with KSched j _ => j <> w | _ => True end.

Inductive blocked (maxks w : nat) (s0 : rcu) : rcu -> Prop :=
| blocked_start : blocked maxks w s0 s0
| blocked_step a s s' : blocked maxks w s0 s -> stays w a -> rstep maxks true a s = Some (Ok s') -> blocked maxks w s0 s'.

Definition spins (w : nat) (g : Z) (s : rcu) : Prop :=
  (exists k, kts s !! w = Some k /\ gen k = g) /\
  match worker s with
  | WRead _ last => (w < length last)%nat -> last !! w = Some g
  | WSleep _ last => last !! w = Some g
  | WCheck _ last i => last !! w = Some g /\ (i <= w)%nat
  | WRun h => h = []
  | WLook | WRet => True
  end.

Lemma put_gen j w k k' s : kts s !! j = Some k -> gen k' = gen k -> gen <$> kts (put_k j k' s) !! w = gen <$> kts s !! w.
Proof.
  intros Hk Hg. cbn. destruct (decide (j = w)) as [->|]; [|by rewrite list_lookup_insert_ne].
  rewrite list_lookup_insert_eq by (by eapply lookup_lt_Some). rewrite Hk. cbn. by rewrite Hg.
Qed.

Lemma kstep_gen maxks w a s s' : stays w a -> a <> WGo -> rstep maxks true a s = Some (Ok s') ->
  gen <$> kts s' !! w = gen <$> kts s !! w /\ worker s' = worker s.
Proof.
  unfold rstep, on_kthread, sched_step, changes, obj_goes. intros Hst Hw. destruct a as [j n|j|j|j o|j o|j o|j o|j t|]; [..|done].
  all: destruct (kts s !! j) as [k|] eqn:Hk; [|done].
  2-8: destruct (odd k); [|done].
  - case_match; [|done]. intros [= <-]. split; [|done]. cbn. by rewrite list_lookup_insert_ne.
  - intros [= <-]. split; [|done]. by eapply put_gen.
  - case_match; [|done]. destruct (rcu_read_unlock k) as [k'|] eqn:E; [|done]. intros [= <-]. split; [|done]. eapply put_gen; [done|].
    revert E. unfold rcu_read_unlock. case_match; [done|]. by intros [= <-].
  - case_match; [|done]. destruct (rcu_dereference o k) as [k'|] eqn:E; [|done]. intros [= <-]. split; [|done]. eapply put_gen; [done|].
    revert E. unfold rcu_dereference. destruct (reading k); [|done]. by intros [= <-].
  - case_match; [|done]. by intros [= <-].
  - case_match; [|done]. by intros [= <-].
  - case_match; [|done]. by intros [= <-].
  - case_match; [done|]. by intros [= <-].
Qed.

Lemma spins_step maxks w g a s s' : Z.odd g = true -> stays w a -> spins w g s -> rstep maxks true a s = Some (Ok s') -> spins w g s'.
Proof.
  intros Hodd Hst [(k & Hk & Hg) Hw] E. assert (Ha : a = WGo \/ a <> WGo) by (destruct a; auto). destruct Ha as [->|Ha].
  - injection E as E. revert E. unfold worker_step. assert (Hlt : (w < length (kts s))%nat) by (by eapply lookup_lt_Some).
    destruct (worker s) as [|h last|h last|h last i|[|e h]|] eqn:Ew.
    + destruct (rcu_head s); intros [= <-]; (split; [by exists k|]); cbn; lia.
    + destruct (kts s !! length last) as [k'|] eqn:E'; intros [= <-]; (split; [by exists k|]); cbn.
      * rewrite length_app. cbn. intros Hl. destruct (decide (w = length last)) as [->|]; [|rewrite lookup_app_l by lia; apply Hw; lia].
        rewrite Hk in E'. injection E' as <-. by rewrite list_lookup_middle, Hg.
      * apply lookup_ge_None in E'. apply Hw. lia.
    + intros [= <-]. split; [by exists k|]. split; [done|lia].
    + destruct Hw as [Hl Hi]. destruct (kts s !! i) as [k'|] eqn:E'; [|apply lookup_ge_None in E'; lia].
      destruct (last !! i) as [g'|] eqn:Eg; [|done]. intros [= <-]. split; [by exists k|]. cbn.
      destruct (odd k' && (gen k' =? g')) eqn:Ec; [done|]. split; [done|]. destruct (decide (i = w)) as [->|]; [|lia].
      rewrite Hk in E'. injection E' as <-. rewrite Hl in Eg. injection Eg as <-. unfold odd in Ec. by rewrite Hg, Hodd, Z.eqb_refl in Ec.
    + intros [= <-]. by split; [by exists k|].
    + done.
    + intros [= <-]. split; [by exists k|]. by rewrite Ew.
  - destruct (kstep_gen maxks w a s s' Hst Ha E) as [Eg Ew]. rewrite Hk in Eg. cbn in Eg. rewrite <- Ew in Hw.
    destruct (kts s' !! w) as [k'|] eqn:Hk'; [|done]. injection Eg as Eg. split; [exists k'; split; [done|congruence]|done].
Qed.

Theorem rcu_blocking_never_frees maxks w s0 s : worker s0 = WLook ->
  (exists k, kts s0 !! w = Some k /\ odd k = true) -> blocked maxks w s0 s -> forall e h, worker s <> WRun (e :: h).
Proof.
  intros Ew (k & Hk & Ho) Hb. assert (Hs : spins w (gen k) s).
  { induction Hb as [|a s s' _ IH Hst E]; [split; [by exists k|by rewrite Ew]|]. by eapply spins_step. }
  intros e h Er. destruct Hs as [_ Hs]. by rewrite Er in Hs.
Qed.
