(* ===== verification/Poll.v ===== *)
(** * runtime/poll.c, inc/runtime/poll.h: event polling

    A waiter, the thread that polls it, and triggers.  Each critical section of the
    waiter's lock is one step.  The list of triggers that fired is a list of triggers;
    [list_del] of a trigger that is in no list is a [Bug]: the code would overwrite the
    neighbours it had. *)

From S2P Require Import Prelude.

Record poll_trigger_t := Trigger { has_waiter : bool; triggered : bool; data : Z }.

Definition poll_trigger_init : poll_trigger_t := Trigger false false 0.

(** Where the thread is: not in [poll_wait], about to look, asleep. *)
Inductive ppc := Outside | Looking | Asleep.

#[export] Instance ppc_eq_dec : EqDecision ppc.
Proof. solve_decision. Defined.

Record poll_waiter_t := Waiter { fired : list nat; waiting_th : bool }.

(** [results] is not in the code: what [poll_wait] returned, the last first. *)
Record poll := Poll {
  waiter : poll_waiter_t;
  triggers : gmap nat poll_trigger_t;
  thread : ppc;
  results : list (nat * Z);
}.

Definition poll_init : poll_waiter_t := Waiter [] false.

Definition poll_arm (d : Z) (t : poll_trigger_t) : poll_trigger_t :=
  if has_waiter t then t else Trigger true false d.

Definition list_del (t : nat) (l : list nat) : res (list nat) :=
  if bool_decide (t ∈ l) then Ok (filter (fun u => u <> t) l) else Bug.

Definition poll_disarm (t : nat) (tr : poll_trigger_t) (w : poll_waiter_t) : res (poll_trigger_t * poll_waiter_t) :=
  if negb (has_waiter tr) then Ok (tr, w)
  else if triggered tr then l ← list_del t (fired w); Ok (Trigger false false (data tr), Waiter l (waiting_th w))
  else Ok (Trigger false (triggered tr) (data tr), w).

(** One turn of the loop of [poll_wait]: the trigger that fired, or the thread sleeps. *)
Definition poll_wait (w : poll_waiter_t) : option nat * poll_waiter_t :=
  match fired w with
  | t :: l => (Some t, Waiter l (waiting_th w))
  | [] => (None, Waiter [] true)
  end.

(** Whether the thread is to be woken. *)
Definition poll_trigger (t : nat) (tr : poll_trigger_t) (w : poll_waiter_t) : bool * poll_trigger_t * poll_waiter_t :=
  if triggered tr then (false, tr, w)
  else (waiting_th w, Trigger (has_waiter tr) true (data tr), Waiter (t :: fired w) false).

Inductive pact := PArm (t : nat) (d : Z) | PDisarm (t : nat) | PFire (t : nat) | PWait | PLook.

Definition pstep (a : pact) (s : poll) : option (res poll) :=
  match a with
  | PArm t d => tr ← triggers s !! t; Some (Ok (Poll (waiter s) (<[t := poll_arm d tr]> (triggers s)) (thread s) (results s)))
  | PDisarm t =>
      tr ← triggers s !! t;
      Some ('(tr, w) ← poll_disarm t tr (waiter s); Ok (Poll w (<[t := tr]> (triggers s)) (thread s) (results s)))
  | PFire t =>
      tr ← triggers s !! t;
      let '(wake, tr, w) := poll_trigger t tr (waiter s) in
      Some (if (wake : bool) then _ ← BUG_ON (negb (bool_decide (thread s = Asleep))); Ok (Poll w (<[t := tr]> (triggers s)) Looking (results s))
            else Ok (Poll w (<[t := tr]> (triggers s)) (thread s) (results s)))
  | PWait => match thread s with Outside => Some (Ok (Poll (waiter s) (triggers s) Looking (results s))) | _ => None end
  | PLook =>
      match thread s with
      | Looking =>
          match poll_wait (waiter s) with
          | (Some t, w) =>
              Some (match triggers s !! t with Some tr => Ok (Poll w (triggers s) Outside ((t, data tr) :: results s)) | None => Bug end)
          | (None, w) => Some (Ok (Poll w (triggers s) Asleep (results s)))
          end
      | _ => None
      end
  end.

Definition poll_start (n : nat) : poll :=
  Poll poll_init (list_to_map ((fun t => (t, poll_trigger_init)) <$> seq 0 n)) Outside [].

(** Triggers fire while they are armed, and one that [poll_wait] returned is not
    disarmed, see [poll_returned_is_dead]. *)
Definition returned (s : poll) (t : nat) : Prop := exists tr, triggers s !! t = Some tr /\ triggered tr = true /\ t ∉ fired (waiter s).

Definition pok (a : pact) (s : poll) : Prop :=
  match a with
  | PFire t => exists tr, triggers s !! t = Some tr /\ has_waiter tr = true
  | PDisarm t => ~ returned s t
  | _ => True
  end.

Inductive preach (s0 : poll) : poll -> Prop :=
| preach_start : preach s0 s0
| preach_step a s s' : preach s0 s -> pok a s -> pstep a s = Some (Ok s') -> preach s0 s'.

Definition armed_ok (m : gmap nat poll_trigger_t) : Prop :=
  forall t tr, m !! t = Some tr -> triggered tr = true -> has_waiter tr = true.

Record pinv (s : poll) : Prop := {
  pi_nodup : NoDup (fired (waiter s));
  pi_fired : forall t, t ∈ fired (waiter s) -> exists tr, triggers s !! t = Some tr /\ triggered tr = true;
  pi_armed : armed_ok (triggers s);
  pi_wait : waiting_th (waiter s) = true <-> thread s = Asleep;
  pi_sleep : thread s = Asleep -> fired (waiter s) = [];
}.

Lemma armed_insert m t tr : armed_ok m -> (triggered tr = true -> has_waiter tr = true) -> armed_ok (<[t := tr]> m).
Proof.
  intros Hm Ht u tr' E. destruct (decide (t = u)) as [<-|]; [rewrite lookup_insert_eq in E; by injection E as <-|].
  rewrite lookup_insert_ne in E by done. by apply (Hm u).
Qed.

Lemma fired_insert s t tr l : pinv s -> t ∉ l -> l ⊆ fired (waiter s) ->
  forall u, u ∈ l -> exists tr', <[t := tr]> (triggers s) !! u = Some tr' /\ triggered tr' = true.
Proof. intros Hi Hn Hl u Hu. rewrite lookup_insert_ne by (intros ->; done). by apply (pi_fired _ Hi), Hl. Qed.

(** A trigger that is not marked is not in the list. *)
Lemma not_fired s t tr : pinv s -> triggers s !! t = Some tr -> triggered tr = false -> t ∉ fired (waiter s).
Proof. intros Hi Et Hf (tr' & E & Ht)%(pi_fired _ Hi). rewrite Et in E. injection E as <-. congruence. Qed.

Lemma arm_keeps s t tr d : pinv s -> triggers s !! t = Some tr -> pinv (Poll (waiter s) (<[t := poll_arm d tr]> (triggers s)) (thread s) (results s)).
Proof.
  intros Hi Et. unfold poll_arm. destruct (has_waiter tr) eqn:Eh; [rewrite insert_id by done; by destruct Hi|].
  assert (Hn : t ∉ fired (waiter s)).
  { apply (not_fired s t tr Hi Et). destruct (triggered tr) eqn:Ef; [|done]. by rewrite (pi_armed _ Hi t tr Et Ef) in Eh. }
  assert (Hf := fired_insert s t (Trigger true false d) (fired (waiter s)) Hi Hn ltac:(done)). destruct Hi. split; cbn; try done. by apply armed_insert.
Qed.

Lemma disarm_keeps s t tr : pinv s -> triggers s !! t = Some tr -> ~ returned s t ->
  exists tr' w, poll_disarm t tr (waiter s) = Ok (tr', w) /\ pinv (Poll w (<[t := tr']> (triggers s)) (thread s) (results s)).
Proof.
  intros Hi Et Ha. unfold poll_disarm. destruct (has_waiter tr) eqn:Eh; cbn [negb].
  2:{ do 2 eexists. split; [done|]. rewrite insert_id by done. by destruct Hi. }
  destruct (triggered tr) eqn:Etr; cbn.
  - assert (Hl : t ∈ fired (waiter s)) by (destruct (decide (t ∈ fired (waiter s))); [done|]; destruct Ha; by exists tr).
    unfold list_del. rewrite bool_decide_eq_true_2 by done. cbn. do 2 eexists. split; [done|].
    assert (Hf := fired_insert s t (Trigger false false (data tr)) (filter (fun u => u <> t) (fired (waiter s))) Hi ltac:(rewrite list_elem_of_filter; tauto)
      ltac:(intros u; rewrite list_elem_of_filter; tauto)).
    destruct Hi as [I1 I2 I3 I4 I5]. split; cbn; try done; [by apply list.NoDup_filter|by apply armed_insert|].
    intros E. rewrite (I5 E) in Hl. by apply elem_of_nil in Hl.
  - assert (Hf := fired_insert s t (Trigger false false (data tr)) (fired (waiter s)) Hi (not_fired s t tr Hi Et Etr) ltac:(done)).
    do 2 eexists. split; [done|]. destruct Hi. split; cbn; try done. by apply armed_insert.
Qed.

Lemma fire_keeps s t tr th : pinv s -> triggers s !! t = Some tr -> has_waiter tr = true -> triggered tr = false -> th <> Asleep ->
  pinv (Poll (Waiter (t :: fired (waiter s)) false) (<[t := Trigger (has_waiter tr) true (data tr)]> (triggers s)) th (results s)).
Proof.
  intros Hi Et Eh Ef Hth. assert (Hn := not_fired s t tr Hi Et Ef).
  assert (Hf := fired_insert s t (Trigger (has_waiter tr) true (data tr)) (fired (waiter s)) Hi Hn ltac:(done)).
  destruct Hi. split; cbn; try done; [by apply list.NoDup_cons| |by apply armed_insert].
  intros u [->|Hu]%elem_of_cons; [rewrite lookup_insert_eq; eauto|by apply Hf].
Qed.

Lemma pstep_keeps a s : pinv s -> pok a s -> match pstep a s with Some r => exists s', r = Ok s' /\ pinv s' | None => True end.
Proof.
  intros Hi Ha. destruct a as [t d|t|t| |]; cbn [pstep mbind option_bind].
  - destruct (triggers s !! t) as [tr|] eqn:Et; [|done]. cbn. eexists. split; [done|]. by apply arm_keeps.
  - destruct (triggers s !! t) as [tr|] eqn:Et; [|done]. cbn. destruct (disarm_keeps s t tr Hi Et Ha) as (tr' & w & -> & Hi'). eexists. by split.
  - destruct Ha as (tr & Et & Eh). rewrite Et. cbn. unfold poll_trigger. destruct (triggered tr) eqn:Etr.
    { eexists. split; [done|]. rewrite insert_id by done. by destruct Hi. }
    assert (Hk := fun th => fire_keeps s t tr th Hi Et Eh Etr). destruct (waiting_th (waiter s)) eqn:Ew.
    + rewrite bool_decide_eq_true_2 by (by apply (pi_wait _ Hi)). cbn. eexists. split; [done|]. by apply Hk.
    + eexists. split; [done|]. apply Hk. intros E. apply (pi_wait _ Hi) in E. congruence.
  - destruct Hi as [I1 I2 I3 I4 I5]. destruct (thread s) eqn:Et; try done. eexists. split; [done|]. split; cbn; try done. rewrite I4. by split.
  - destruct Hi as [I1 I2 I3 I4 I5]. destruct (thread s) eqn:Et; try done. unfold poll_wait. destruct (fired (waiter s)) as [|t l] eqn:Ef.
    + eexists. split; [done|]. split; cbn; done.
    + destruct (I2 t ltac:(by left)) as (tr & E & Ht). rewrite E. eexists. split; [done|]. apply list.NoDup_cons in I1 as [_ I1].
      split; cbn; try done; [|rewrite I4; by split]. intros u Hu. apply I2. by right.
Qed.

Lemma preach_pinv n s : preach (poll_start n) s -> pinv s.
Proof.
  induction 1 as [|a s s' _ IH Ha E].
  - split; cbn; try done; [apply base.NoDup_nil_2|intros t Ht; by apply elem_of_nil in Ht|].
    intros t tr E. apply elem_of_list_to_map_2, list_elem_of_fmap in E as (u & [= -> ->] & _). done.
  - assert (F := pstep_keeps a s IH Ha). rewrite E in F. by destruct F as (s'' & [= <-] & ?).
Qed.

(** A step takes a trigger out of the list only to return or to disarm it. *)
Lemma fired_stays a s s' t : pinv s -> pstep a s = Some (Ok s') -> t ∈ fired (waiter s) ->
  t ∈ fired (waiter s') \/ a = PDisarm t \/ a = PLook /\ exists tr, triggers s !! t = Some tr /\ thread s' = Outside /\ results s' = (t, data tr) :: results s.
Proof.
  intros Hi E Ht. destruct a as [u d|u|u| |]; cbn [pstep mbind option_bind] in E.
  - destruct (triggers s !! u); [|done]. injection E as <-. by left.
  - destruct (triggers s !! u) as [tr|]; [|done]. cbn in E. unfold poll_disarm in E. destruct (decide (u = t)) as [->|Hu]; [by right; left|]. left.
    destruct (has_waiter tr), (triggered tr); cbn in E; try (injection E as <-; done). unfold list_del in E. case_bool_decide; [|done]. injection E as <-. cbn.
    apply list_elem_of_filter. by split.
  - destruct (triggers s !! u) as [tr|]; [|done]. cbn in E. left. unfold poll_trigger in E. destruct (triggered tr); [by injection E as <-|].
    destruct (waiting_th _); [destruct (negb _)|]; cbn in E; try done; injection E as <-; cbn; by right.
  - destruct (thread s); try done. injection E as <-. by left.
  - destruct (thread s); try done. unfold poll_wait in E. destruct (fired (waiter s)) as [|u l] eqn:Ef; [by apply elem_of_nil in Ht|].
    destruct (triggers s !! u) as [tr|] eqn:Et; [|done]. injection E as <-. cbn. apply elem_of_cons in Ht as [->|Ht]; [|by left]. right. right. split; [done|]. by exists tr.
Qed.

(** The data of a trigger stays as it is while the trigger is in the list. *)
Lemma fired_data a s s' t tr : pinv s -> pstep a s = Some (Ok s') -> t ∈ fired (waiter s) -> t ∈ fired (waiter s') -> triggers s !! t = Some tr -> triggers s' !! t = Some tr.
Proof.
  intros Hi E Ht Ht' Et. destruct (pi_fired _ Hi t Ht) as (tr0 & E0 & Hm). rewrite Et in E0. injection E0 as <-. assert (Hw := pi_armed _ Hi t tr Et Hm).
  destruct a as [u d|u|u| |]; cbn [pstep mbind option_bind] in E.
  - destruct (triggers s !! u) as [tu|] eqn:Eu; [|done]. injection E as <-. cbn. destruct (decide (u = t)) as [->|]; [|by rewrite lookup_insert_ne].
    rewrite Et in Eu. injection Eu as <-. unfold poll_arm. by rewrite Hw, lookup_insert_eq.
  - destruct (triggers s !! u) as [tu|] eqn:Eu; [|done]. cbn in E. unfold poll_disarm in E. destruct (decide (u = t)) as [->|].
    + rewrite Et in Eu. injection Eu as <-. rewrite Hw, Hm in E. cbn in E. unfold list_del in E. case_bool_decide; [|done]. injection E as <-. cbn in Ht'.
      by apply list_elem_of_filter in Ht' as [? _].
    + destruct (has_waiter tu), (triggered tu); cbn in E; try (unfold list_del in E; case_bool_decide; [|done]); injection E as <-; cbn; by rewrite lookup_insert_ne.
  - destruct (triggers s !! u) as [tu|] eqn:Eu; [|done]. cbn in E. unfold poll_trigger in E. destruct (decide (u = t)) as [->|].
    + rewrite Et in Eu. injection Eu as <-. rewrite Hm in E. injection E as <-. cbn. by rewrite lookup_insert_eq.
    + destruct (triggered tu); [injection E as <-; cbn; by rewrite lookup_insert_ne|].
      destruct (waiting_th _); [destruct (negb _)|]; cbn in E; try done; injection E as <-; cbn; by rewrite lookup_insert_ne.
  - destruct (thread s); try done. by injection E as <-.
  - destruct (thread s); try done. unfold poll_wait in E. destruct (fired (waiter s)) as [|u l]; [by injection E as <-|].
    destruct (triggers s !! u); [|done]. by injection E as <-.
Qed.

(** C36. No event is lost.  In every reachable state no step fails an assertion or corrupts
    the list; the thread sleeps only while no trigger that fired waits for it, and then
    it is registered, so that the next trigger wakes it.  A trigger that is armed and not
    marked is entered into the list when it fires, once, and the thread is awake.
    Whatever any thread does next, a trigger in the list stays there with its data, until
    it is disarmed or [poll_wait] returns it with that data; and every call of [poll_wait]
    with a list that is not empty returns.  A trigger that [poll_wait] returned stays
    marked and does not fire again, so that the runs are those in which it is not disarmed
    either, and triggers fire while they are armed ([pok]); see [poll_returned_is_dead]. *)
Theorem poll_no_lost_event n s : preach (poll_start n) s ->
  (forall a, pok a s -> pstep a s <> Some Bug) /\
  (thread s = Asleep -> fired (waiter s) = [] /\ waiting_th (waiter s) = true) /\
  (forall t tr, triggers s !! t = Some tr -> has_waiter tr = true -> triggered tr = false ->
     exists s', pstep (PFire t) s = Some (Ok s') /\ list.head (fired (waiter s')) = Some t /\ NoDup (fired (waiter s')) /\ thread s' <> Asleep /\
       (thread s' = Looking -> exists s'', pstep PLook s' = Some (Ok s'') /\ thread s'' = Outside /\ results s'' = (t, data tr) :: results s)) /\
  (forall a s' t tr, pok a s -> pstep a s = Some (Ok s') -> t ∈ fired (waiter s) -> triggers s !! t = Some tr ->
     (t ∈ fired (waiter s') /\ triggers s' !! t = Some tr) \/ a = PDisarm t \/ (a = PLook /\ thread s' = Outside /\ results s' = (t, data tr) :: results s)) /\
  (thread s = Looking -> fired (waiter s) <> [] -> exists s' t tr, pstep PLook s = Some (Ok s') /\ thread s' = Outside /\
     t ∈ fired (waiter s) /\ triggers s !! t = Some tr /\ results s' = (t, data tr) :: results s).
Proof.
  intros Hi%preach_pinv. split_and!.
  - intros a Ha E. assert (F := pstep_keeps a s Hi Ha). rewrite E in F. by destruct F as (? & ? & _).
  - intros E. split; [by apply (pi_sleep _ Hi)|by apply (pi_wait _ Hi)].
  - intros t tr Et Eh Ef. assert (F := pstep_keeps (PFire t) s Hi ltac:(by exists tr)).
    destruct (pstep (PFire t) s) as [r|] eqn:E; [|cbn in E; rewrite Et in E; cbn in E; unfold poll_trigger in E; rewrite Ef in E; discriminate E].
    destruct F as (s' & -> & Hi'). exists s'. split; [done|].
    assert (Hs : fired (waiter s') = t :: fired (waiter s) /\ triggers s' !! t = Some (Trigger (has_waiter tr) true (data tr)) /\ results s' = results s).
    { revert E. cbn. rewrite Et. cbn. unfold poll_trigger. rewrite Ef. destruct (waiting_th (waiter s)); [destruct (negb _)|]; cbn; intros [= <-]; cbn; by rewrite lookup_insert_eq. }
    destruct Hs as (Hf & Ht & Hr). split_and!; [by rewrite Hf|apply (pi_nodup _ Hi')|intros Ea; by rewrite (pi_sleep _ Hi' Ea) in Hf|].
    intros El. cbn. rewrite El. unfold poll_wait. rewrite Hf, Ht. eexists. split; [done|]. cbn. by rewrite Hr.
  - intros a s' t tr _ E Ht Et. destruct (fired_stays a s s' t Hi E Ht) as [Hl|[->|(-> & tr' & E' & H1 & H2)]]; [left|by right; left|right; right].
    + split; [done|]. by apply (fired_data a s s' t tr Hi E).
    + rewrite Et in E'. by injection E' as <-.
  - intros El Hf. destruct (fired (waiter s)) as [|t l] eqn:Ef; [done|]. destruct (pi_fired _ Hi t) as (tr & Et & _); [rewrite Ef; by left|].
    cbn. rewrite El. unfold poll_wait. rewrite Ef, Et. do 3 eexists. split; [done|]. split_and!; [done|by left|exact Et|done].
Qed.

(** A trigger that [poll_wait] returned stays marked as triggered: it does not fire again,
    and [poll_disarm] removes it from the list a second time. *)
Theorem poll_returned_is_dead s t tr : triggers s !! t = Some tr -> has_waiter tr = true -> triggered tr = true -> t ∉ fired (waiter s) ->
  pstep (PFire t) s = Some (Ok s) /\ pstep (PDisarm t) s = Some Bug.
Proof.
  intros Et Eh Ef Hn. cbn. rewrite Et. cbn. unfold poll_trigger, poll_disarm, list_del. rewrite Eh, Ef, bool_decide_eq_false_2 by done. cbn.
  rewrite insert_id by done. by destruct s.
Qed.

(** The thread sleeps when trigger 1, armed with 42, fires. *)
Definition polls : poll := Poll (Waiter [] true) {[0%nat := poll_trigger_init; 1%nat := Trigger true false 42]} Asleep [].

Lemma poll_no_lost_event_witness :
  preach (poll_start 2) polls /\ exists s' s'', pstep (PFire 1) polls = Some (Ok s') /\ pstep PLook s' = Some (Ok s'') /\ results s'' = [(1%nat, 42)].
Proof.
  assert (Hr : preach (poll_start 2) polls).
  { apply (preach_step _ PLook (Poll poll_init {[0%nat := poll_trigger_init; 1%nat := Trigger true false 42]} Looking [])); [|done|by vm_compute].
    apply (preach_step _ PWait (Poll poll_init {[0%nat := poll_trigger_init; 1%nat := Trigger true false 42]} Outside [])); [|done|by vm_compute].
    apply (preach_step _ (PArm 1 42) (poll_start 2)); [constructor|done|by vm_compute]. }
  split; [exact Hr|]. destruct (poll_no_lost_event 2 polls Hr) as (_ & _ & H & _).
  destruct (H 1%nat (Trigger true false 42)) as (s' & E & _ & _ & _ & H'); [by vm_compute..|].
  assert (El : thread s' = Looking) by (vm_compute in E; by injection E as <-).
  destruct (H' El) as (s'' & E' & _ & Er). exists s', s''. split_and!; [exact E|exact E'|exact Er].
Defined.
