(* ===== verification/Page.v ===== *)
(** * base/page.c, inc/base/page.h: the page allocator

    Large pages of 2 MB have their [struct page] in a table; a large page can be
    shattered into small pages of 4 KB whose structs are at its start.  Pointers to
    structs and to data are addresses.  A [struct page] is split by owner: here what the
    page allocator uses, in Slab.v what the slab allocator uses.  What the operating
    system answers to a request for memory is taken from a list. *)

From S2P Require Import Prelude Stddef.

Definition PGSHIFT_4KB : Z := 12.
Definition PGSHIFT_2MB : Z := 21.
Definition PGSIZE_4KB : Z := 4096.
Definition PGSIZE_2MB : Z := 2097152.
Definition PGN_4KB (la : Z) : Z := Z.shiftr la PGSHIFT_4KB.
Definition PGN_2MB (la : Z) : Z := Z.shiftr la PGSHIFT_2MB.
Definition PGOFF_2MB (la : Z) : Z := Z.land la (PGSIZE_2MB - 1).
Definition PGADDR_2MB (la : Z) : Z := Z.land la (Z.lnot (PGSIZE_2MB - 1)).

Definition sizeof_page : Z := 64.
Definition NNUMA : Z := 4.
Definition SMPAGE_META_LEN : Z := PGSIZE_2MB / PGSIZE_4KB * sizeof_page.
Definition LGPAGE_META_LEN : Z := 1 * PGSIZE_2MB.
Definition LGPAGE_META_ENTS : Z := LGPAGE_META_LEN / sizeof_page.
Definition LGPAGE_NODE_ADDR_LEN : Z := LGPAGE_META_ENTS * PGSIZE_2MB.
Definition PAGE_BASE_ADDR : Z := 17592186044416.
Definition PAGE_END_ADDR : Z := PAGE_BASE_ADDR + LGPAGE_META_ENTS * PGSIZE_2MB * NNUMA.

Definition PAGE_FLAG_LARGE : Z := 1.
Definition PAGE_FLAG_IN_USE : Z := 2.
Definition PAGE_FLAG_SLAB : Z := 4.
Definition PAGE_FLAG_SHATTERED : Z := 8.

Definition is_page_addr (addr : Z) : bool := (PAGE_BASE_ADDR <=? addr) && (addr <? PAGE_END_ADDR).
Definition addr_to_numa_node (addr : Z) : Z := (addr - PAGE_BASE_ADDR) / LGPAGE_NODE_ADDR_LEN.
Definition LGPGN (addr : Z) : Z := PGN_2MB (addr - PAGE_BASE_ADDR).
Definition PGN (addr : Z) : Z := PGN_4KB (addr - PGADDR_2MB addr).

(** The elements of an array of structs. *)
Definition elem (base i : Z) : Z := base + sizeof_page * i.
Definition index_of (p base : Z) : Z := (p - base) / sizeof_page.

Definition addr_to_smpage (addr : Z) : Z := elem (PGADDR_2MB addr) (PGN addr).
Definition smpage_to_addr (pg : Z) : Z := PGADDR_2MB pg + index_of pg (PGADDR_2MB pg) * PGSIZE_4KB.

Record page := Page { flags : Z; ref : Z; paddr : Z }.

Definition has (f fl : Z) : bool := negb (Z.land fl f =? 0).
Definition page_to_size (pg : page) : Z := if has PAGE_FLAG_LARGE (flags pg) then PGSIZE_2MB else PGSIZE_4KB.

(** [mem_map_anom] fails, or the physical address cannot be looked up, or is known. *)
Inductive os_answer := MapFailed | PhysFailed (err : positive) | Mapped (pa : Z).

Record lgpage_node := LgNode { idx : Z; tbl : Z; pages : list Z }.

Record lgst := Lgst {
  structs : gmap Z page;        (* memory that was not written is zero *)
  lgpage_nodes : list lgpage_node;
  os : list os_answer;          (* nothing left: no memory *)
}.

Definition get_page (pg : Z) (s : lgst) : page := default (Page 0 0 0) (structs s !! pg).
Definition put_page (pg : Z) (v : page) (s : lgst) : lgst := Lgst (<[pg := v]> (structs s)) (lgpage_nodes s) (os s).
Definition put_node (n : nat) (v : lgpage_node) (s : lgst) : lgst := Lgst (structs s) (<[n := v]> (lgpage_nodes s)) (os s).
Definition next_answer (s : lgst) : os_answer * lgst :=
  match os s with
  | a :: l => (a, Lgst (structs s) (lgpage_nodes s) l)
  | [] => (MapFailed, s)
  end.

Section table.
Context (page_tbl : Z).

Definition addr_to_lgpage (addr : Z) : Z := elem page_tbl (LGPGN addr).
Definition lgpage_to_addr (pg : Z) : Z := PAGE_BASE_ADDR + index_of pg page_tbl * PGSIZE_2MB.
Definition page_to_addr (pg : Z) (v : page) : Z := if has PAGE_FLAG_LARGE (flags v) then lgpage_to_addr pg else smpage_to_addr pg.

Definition addr_to_page (addr : Z) (s : lgst) : res Z :=
  let pg := addr_to_lgpage addr in
  _ ← BUG_ON (negb (has PAGE_FLAG_LARGE (flags (get_page pg s))));
  Ok (if has PAGE_FLAG_SHATTERED (flags (get_page pg s)) then addr_to_smpage addr else pg).

Definition addr_to_pa (addr : Z) (s : lgst) : Z := paddr (get_page (addr_to_lgpage addr) s) + PGOFF_2MB addr.

Definition lgpage_create (pg : Z) (s : lgst) : Z * lgst :=
  match next_answer s with
  | (MapFailed, s) => (- ENOMEM, s)
  | (PhysFailed err, s) => (Zneg err, s)
  | (Mapped pa, s) => (0, put_page pg (Page (Z.lor PAGE_FLAG_LARGE PAGE_FLAG_IN_USE) 1 pa) s)
  end.

Definition lgpage_destroy (pg : Z) (s : lgst) : lgst := put_page pg (Page 0 (ref (get_page pg s)) 0) s.

Definition lgpage_alloc_on_node (numa_node : nat) (s : lgst) : res (option Z * lgst) :=
  match lgpage_nodes s !! numa_node with
  | None => Bug
  | Some node =>
      let taken :=
        match pages node with
        | pg :: l => Some (pg, LgNode (idx node) (tbl node) l)
        | [] => if idx node >=? LGPAGE_META_ENTS then None else Some (elem (tbl node) (idx node), LgNode (idx node + 1) (tbl node) [])
        end in
      match taken with
      | None => Ok (None, s)
      | Some (pg, node) =>
          let s := put_node numa_node node s in
          _ ← BUG_ON (has PAGE_FLAG_IN_USE (flags (get_page pg s)));
          let '(ret, s) := lgpage_create pg s in
          if negb (ret =? 0) then Ok (None, s) else Ok (Some pg, s)
      end
  end.

Definition lgpage_free (pg : Z) (s : lgst) : res lgst :=
  let numa_node := Z.to_nat (addr_to_numa_node (lgpage_to_addr pg)) in
  match lgpage_nodes s !! numa_node with
  | None => Bug
  | Some node => Ok (put_node numa_node (LgNode (idx node) (tbl node) (pg :: pages node)) (lgpage_destroy pg s))
  end.

(** [page_put] of a large page. *)
Definition lgpage_put (pg : Z) (s : lgst) : res lgst :=
  let v := get_page pg s in
  let s := put_page pg (Page (flags v) (ref v - 1) (paddr v)) s in
  if ref v - 1 =? 0 then _ ← BUG_ON (negb (page_to_size v =? PGSIZE_2MB)); lgpage_free pg s else Ok s.

Definition page_get (pg : Z) (s : lgst) : res lgst :=
  let v := get_page pg s in
  _ ← BUG_ON (negb (ref v >? 0)); Ok (put_page pg (Page (flags v) (ref v + 1) (paddr v)) s).

(** Nodes that the machine does not have are not set up. *)
Definition page_init (numa_count : nat) (os : list os_answer) : lgst :=
  Lgst ∅ ((fun i => LgNode 0 (page_tbl + Z.of_nat i * LGPAGE_META_LEN) []) <$> seq 0 numa_count) os.
End table.

(** ** Addresses and structs *)

Lemma PGADDR_2MB_spec a : PGADDR_2MB a = PGSIZE_2MB * (a / PGSIZE_2MB).
Proof.
  unfold PGADDR_2MB. change (PGSIZE_2MB - 1) with (Z.ones 21). rewrite <- Z.ldiff_land, Z.ldiff_ones_r, Z.shiftl_mul_pow2, Z.shiftr_div_pow2 by lia.
  change (2 ^ 21) with PGSIZE_2MB. lia.
Qed.

Lemma PGOFF_2MB_spec a : PGOFF_2MB a = a mod PGSIZE_2MB.
Proof. unfold PGOFF_2MB. change (PGSIZE_2MB - 1) with (Z.ones 21). by rewrite Z.land_ones by lia. Qed.

Lemma index_elem base i : index_of (elem base i) base = i.
Proof. unfold index_of, elem, sizeof_page. Z.to_euclidean_division_equations; lia. Qed.

(** A large page is given by its number [g]. *)
Definition lg_addr (g : Z) : Z := PAGE_BASE_ADDR + g * PGSIZE_2MB.

Lemma lgpage_of t g off : 0 <= off < PGSIZE_2MB -> addr_to_lgpage t (lg_addr g + off) = elem t g.
Proof.
  intros Ho. unfold addr_to_lgpage, LGPGN, PGN_2MB, PGSHIFT_2MB, lg_addr. f_equal. rewrite Z.shiftr_div_pow2 by lia. change (2 ^ 21) with 2097152.
  unfold PGSIZE_2MB in *. Z.to_euclidean_division_equations; lia.
Qed.

Lemma lgpage_addr t g : lgpage_to_addr t (elem t g) = lg_addr g.
Proof. unfold lgpage_to_addr. by rewrite index_elem. Qed.

Lemma lg_base g off : 0 <= off < PGSIZE_2MB -> PGADDR_2MB (lg_addr g + off) = lg_addr g.
Proof. intros Ho. rewrite PGADDR_2MB_spec. unfold lg_addr, PAGE_BASE_ADDR, PGSIZE_2MB in *. Z.to_euclidean_division_equations; lia. Qed.

(** A small page is the [j]-th of the large page [g]. *)
Definition sm_ptr (g j : Z) : Z := elem (lg_addr g) j.
Definition sm_addr (g j : Z) : Z := lg_addr g + j * PGSIZE_4KB.

Lemma smpage_of g j off : 0 <= j < 512 -> 0 <= off < PGSIZE_4KB -> addr_to_smpage (sm_addr g j + off) = sm_ptr g j.
Proof.
  intros Hj Ho. unfold addr_to_smpage, PGN, sm_addr, sm_ptr, PGSIZE_4KB in *. rewrite <- Z.add_assoc, !lg_base by (unfold PGSIZE_2MB; lia).
  unfold PGN_4KB, PGSHIFT_4KB. rewrite Z.shiftr_div_pow2 by lia. change (2 ^ 12) with 4096. f_equal. Z.to_euclidean_division_equations; lia.
Qed.

Lemma smpage_addr g j : 0 <= j < 512 -> smpage_to_addr (sm_ptr g j) = sm_addr g j.
Proof.
  intros Hj. unfold smpage_to_addr, sm_ptr, sm_addr. unfold elem at 1 3. unfold sizeof_page. rewrite lg_base by (unfold PGSIZE_2MB; lia). by rewrite index_elem.
Qed.

Lemma numa_of g off : 0 <= off < PGSIZE_2MB -> addr_to_numa_node (lg_addr g + off) = g / LGPAGE_META_ENTS.
Proof.
  intros Ho. unfold addr_to_numa_node, lg_addr. change LGPAGE_NODE_ADDR_LEN with (32768 * 2097152). change LGPAGE_META_ENTS with 32768.
  unfold PGSIZE_2MB in *. Z.to_euclidean_division_equations; lia.
Qed.
