(* ===== verification/Slab.v ===== *)
(** * base/slab.c: the slab allocator

    A slab node keeps pages: one it allocates from, the full and the partly full ones.
    The free items of a page are linked through their first word; items of a new page
    that were never allocated follow [pg_off].  Pages come from an interface,
    [PageSource]; Page.v has the source of large pages, and the slab of small pages is
    the source of small ones (SlabThms.v). *)

From S2P Require Import Prelude Stddef Tcache Page.

Definition E2BIG : Z := 7.
Definition CACHE_LINE_SIZE : Z := 64.
Definition __WORD_SIZE : Z := 64.
Definition SLAB_CHUNK_SIZE : Z := 8.
Definition SLAB_MIN_SIZE : Z := 16.
Definition SLAB_PARTIAL_THRESH : Z := SLAB_CHUNK_SIZE / 2.
Definition SLAB_4KB_LIMIT : Z := align_down (PGSIZE_4KB / (SLAB_PARTIAL_THRESH * 2)) __WORD_SIZE.
Definition SLAB_2MB_LIMIT : Z := align_down (PGSIZE_2MB / (SLAB_PARTIAL_THRESH * 2)) __WORD_SIZE.
Definition SLAB_FLAG_LGPAGE : Z := 1.
Definition SLAB_FLAG_FALSE_OKAY : Z := 2.
Definition SLAB_FLAG_PAGES : Z := 4.

(** What the slab uses of page.c: allocation for a node, [page_put], the flags and the
    memory of a page, and the address arithmetic.  The laws: a page that is allocated
    was not, and until it is put back it stays. *)
Class PageSource (P : Type) := {
  ps_size : Z;
  page_alloc_on_node : Z -> nat -> P -> res (option Z * P);
  page_put : Z -> P -> res P;
  page_or_flags : Z -> Z -> P -> P;
  page_memset : Z -> Z -> P -> P;
  ps_addr : Z -> Z;
  ps_page : Z -> Z;
  ps_nodes : P -> nat;
  ps_ok : P -> list Z -> Prop;
  ps_valid : nat -> Z -> Prop;
  ps_nodup : forall p L, ps_ok p L -> NoDup L;
  ps_perm : forall p L L', L ≡ₚ L' -> ps_ok p L -> ps_ok p L';
  ps_alloc_ok : forall k p L, ps_ok p L -> (k < ps_nodes p)%nat ->
    exists r p', page_alloc_on_node ps_size k p = Ok (r, p') /\ ps_nodes p' = ps_nodes p /\
      match r with Some q => (q ∉ L) /\ ps_valid k q /\ ps_ok p' (q :: L) | None => ps_ok p' L end;
  ps_put_ok : forall q p L, ps_ok p (q :: L) -> exists p', page_put q p = Ok p' /\ ps_nodes p' = ps_nodes p /\ ps_ok p' L;
  ps_flags_ok : forall q f p L, f = PAGE_FLAG_SLAB \/ f = PAGE_FLAG_SHATTERED -> q ∈ L -> ps_ok p L ->
    ps_ok (page_or_flags q f p) L /\ ps_nodes (page_or_flags q f p) = ps_nodes p;
  ps_memset_ok : forall k q n p L, q ∈ L -> ps_valid k q -> 0 <= n <= ps_size -> ps_ok p L ->
    ps_ok (page_memset (ps_addr q) n p) L /\ ps_nodes (page_memset (ps_addr q) n p) = ps_nodes p;
  ps_geom : forall k q off, ps_valid k q -> 0 <= off < ps_size ->
    ps_page (ps_addr q + off) = q /\ addr_to_numa_node (ps_addr q + off) = Z.of_nat k;
  ps_pos : forall k q, ps_valid k q -> 0 < q /\ 0 < ps_addr q;
}.

(** What the slab allocator uses of a [struct page]. *)
Record spage := SPage { next : Z; snode : Z; item_count : Z }.

Record slab_node := SlabNode {
  size : Z;
  numa_node : nat;
  offset : Z;
  nflags : Z;
  nr_elems : Z;
  pg_off : Z;
  cur_pg : Z;
  full_list : list Z;
  partial_list : list Z;
  nr_pages : Z;
}.

Definition set_pg_off (v : Z) (n : slab_node) : slab_node :=
  SlabNode (size n) (numa_node n) (offset n) (nflags n) (nr_elems n) v (cur_pg n) (full_list n) (partial_list n) (nr_pages n).
Definition set_cur_pg (v : Z) (n : slab_node) : slab_node :=
  SlabNode (size n) (numa_node n) (offset n) (nflags n) (nr_elems n) (pg_off n) v (full_list n) (partial_list n) (nr_pages n).
Definition set_full_list (v : list Z) (n : slab_node) : slab_node :=
  SlabNode (size n) (numa_node n) (offset n) (nflags n) (nr_elems n) (pg_off n) (cur_pg n) v (partial_list n) (nr_pages n).
Definition set_partial_list (v : list Z) (n : slab_node) : slab_node :=
  SlabNode (size n) (numa_node n) (offset n) (nflags n) (nr_elems n) (pg_off n) (cur_pg n) (full_list n) v (nr_pages n).
Definition set_nr_pages (v : Z) (n : slab_node) : slab_node :=
  SlabNode (size n) (numa_node n) (offset n) (nflags n) (nr_elems n) (pg_off n) (cur_pg n) (full_list n) (partial_list n) v.

Definition __slab_create_node (numa_node : nat) (size offset flags nr_elems : Z) : slab_node :=
  SlabNode size numa_node offset flags nr_elems 0 NULL [] [] 0.

Definition pgsize (n : slab_node) : Z := if has SLAB_FLAG_LGPAGE (nflags n) then PGSIZE_2MB else PGSIZE_4KB.

(** The parameters [slab_create] gives the nodes, or [- E2BIG]: the size of items, the
    flags and the number of items of a page. *)
Definition slab_create_params (size flags : Z) : Z + (Z * Z * Z) :=
  let size := if negb (has SLAB_FLAG_FALSE_OKAY flags) then align_up size CACHE_LINE_SIZE else align_up size __WORD_SIZE in
  if size >? SLAB_2MB_LIMIT then inl (- E2BIG)
  else
    let flags := if size >? SLAB_4KB_LIMIT then Z.lor flags SLAB_FLAG_LGPAGE else flags in
    let pgsize := if has SLAB_FLAG_LGPAGE flags then PGSIZE_2MB else PGSIZE_4KB in
    inr (size, flags, pgsize / size).

(** The slabs of [slab_init]. *)
Definition sizeof_slab_node : Z := 88.
Definition node_slab_node (k : nat) : slab_node :=
  __slab_create_node k (align_up sizeof_slab_node TCACHE_MIN_ITEM_SIZE) 0 0 (PGSIZE_4KB / sizeof_slab_node).
Definition smpage_slab_node (k : nat) : slab_node :=
  __slab_create_node k PGSIZE_4KB SMPAGE_META_LEN (Z.lor SLAB_FLAG_LGPAGE SLAB_FLAG_PAGES) ((PGSIZE_2MB - SMPAGE_META_LEN) / PGSIZE_4KB).

Section slab.
Context {P : Type} `{PageSource P}.

(** The page source, the structs of pages, and the first word of each free item. *)
Record sst := Sst { src : P; spages : gmap Z spage; words : gmap Z Z }.

Definition get_sp (pg : Z) (s : sst) : spage := default (SPage 0 0 0) (spages s !! pg).
Definition put_sp (pg : Z) (v : spage) (s : sst) : sst := Sst (src s) (<[pg := v]> (spages s)) (words s).
Definition load_word (a : Z) (s : sst) : Z := default 0 (words s !! a).
Definition store_word (a v : Z) (s : sst) : sst := Sst (src s) (spages s) (<[a := v]> (words s)).
Definition set_src (p : P) (s : sst) : sst := Sst p (spages s) (words s).

Definition __slab_destroy_node (n : slab_node) (s : sst) : res sst :=
  let fix puts l s := match l with [] => Ok s | pg :: l => p ← page_put pg (src s); puts l (set_src p s) end in
  s ← puts (full_list n) s;
  s ← puts (partial_list n) s;
  if negb (cur_pg n =? NULL) then p ← page_put (cur_pg n) (src s); Ok (set_src p s) else Ok s.

(** [me] is the address of the node. *)
Definition __slab_node_get_page (me : Z) (n : slab_node) (s : sst) : res (Z * slab_node * sst) :=
  match partial_list n with
  | pg :: l => Ok (pg, set_partial_list l n, s)
  | [] =>
      '(r, p) ← page_alloc_on_node (pgsize n) (numa_node n) (src s);
      match r with
      | None => Ok (NULL, n, set_src p s)
      | Some pg =>
          let p := page_or_flags pg PAGE_FLAG_SLAB p in
          let p := if has SLAB_FLAG_PAGES (nflags n)
                   then page_memset (ps_addr pg) (offset n) (page_or_flags pg PAGE_FLAG_SHATTERED p) else p in
          Ok (pg, set_pg_off (offset n) n, put_sp pg (SPage NULL me (nr_elems n)) (set_src p s))
      end
  end.

(** The part of [__slab_node_alloc] that makes sure that there is a page with an item. *)
Definition ensure_page (me : Z) (n : slab_node) (s : sst) : res (slab_node * sst) :=
  if (cur_pg n =? NULL) || (item_count (get_sp (cur_pg n) s) =? 0) then
    let n := if cur_pg n =? NULL then n else set_full_list (cur_pg n :: full_list n) n in
    '(pg, n, s) ← __slab_node_get_page me n s;
    let n := set_cur_pg pg n in
    Ok (if pg =? NULL then n else set_nr_pages (nr_pages n + 1) n, s)
  else Ok (n, s).

(** The rest: an item of the current page. *)
Definition take_item (n : slab_node) (s : sst) : res (Z * slab_node * sst) :=
  let pg := cur_pg n in
  let v := get_sp pg s in
  if negb (next v =? NULL) then
    Ok (next v, n, put_sp pg (SPage (load_word (next v) s) (snode v) (item_count v - 1)) s)
  else
    _ ← BUG_ON (negb (pg_off n <? pgsize n));
    Ok (ps_addr pg + pg_off n, set_pg_off (pg_off n + size n) n, put_sp pg (SPage (next v) (snode v) (item_count v - 1)) s).

Definition __slab_node_alloc (me : Z) (n : slab_node) (s : sst) : res (Z * slab_node * sst) :=
  '(n, s) ← ensure_page me n s;
  if cur_pg n =? NULL then Ok (NULL, n, s) else take_item n s.

(** [list_del]: the page has to be in a list of the node. *)
Definition unlink (pg : Z) (n : slab_node) : res slab_node :=
  if bool_decide (pg ∈ full_list n) then Ok (set_full_list (filter (fun q => q <> pg) (full_list n)) n)
  else if bool_decide (pg ∈ partial_list n) then Ok (set_partial_list (filter (fun q => q <> pg) (partial_list n)) n)
  else Bug.

Definition slab_node_free (n : slab_node) (item : Z) (s : sst) : res (slab_node * sst) :=
  let pg := ps_page item in
  let v := get_sp pg s in
  let s := store_word item (next v) s in
  let count := item_count v + 1 in
  let s := put_sp pg (SPage item (snode v) count) s in
  if pg =? cur_pg n then Ok (n, s)
  else if count =? SLAB_PARTIAL_THRESH then
    n ← unlink pg n; Ok (set_partial_list (pg :: partial_list n) n, s)
  else if count =? nr_elems n then
    n ← unlink pg n;
    p ← page_put pg (src s);
    Ok (set_nr_pages (nr_pages n - 1) n, set_src p s)
  else Ok (n, s).

(** The two operations of the thread cache over a slab. *)
Fixpoint alloc_loop (me : Z) (nr : nat) (n : slab_node) (s : sst) (items : list Z) : res (bool * list Z * slab_node * sst) :=
  match nr with
  | O => Ok (true, items, n, s)
  | S nr =>
      '(item, n, s) ← __slab_node_alloc me n s;
      if item =? NULL then Ok (false, items, n, s) else alloc_loop me nr n s (items ++ [item])
  end.

Fixpoint free_loop (items : list Z) (n : slab_node) (s : sst) : res (slab_node * sst) :=
  match items with
  | [] => Ok (n, s)
  | item :: items => '(n, s) ← slab_node_free n item s; free_loop items n s
  end.

Definition slab_tcache_alloc (me : Z) (nr : nat) (n : slab_node) (s : sst) : res (option (list Z) * slab_node * sst) :=
  '(ok, items, n, s) ← alloc_loop me nr n s [];
  if (ok : bool) then Ok (Some items, n, s)
  else '(n, s) ← free_loop (rev items) n s; Ok (None, n, s).

Definition slab_tcache_free (items : list Z) (n : slab_node) (s : sst) : res (slab_node * sst) := free_loop items n s.

(** ** A slab: a node for each NUMA node

    [slab_alloc_on_node] and [slab_free] choose the node. *)
Definition slab_alloc_on_node (me : nat -> Z) (k : nat) (ns : list slab_node) (s : sst) : res (Z * list slab_node * sst) :=
  match ns !! k with
  | None => Bug
  | Some n => '(item, n, s) ← __slab_node_alloc (me k) n s; Ok (item, <[k := n]> ns, s)
  end.

Definition slab_free (item : Z) (ns : list slab_node) (s : sst) : res (list slab_node * sst) :=
  let k := Z.to_nat (addr_to_numa_node item) in
  match ns !! k with
  | None => Bug
  | Some n => '(n, s) ← slab_node_free n item s; Ok (<[k := n]> ns, s)
  end.

(** ** The node as a machine

    [held] are the items that are allocated, [rest] the pages that others have.  The
    holder of an item writes to it.  Others use the structs of their pages and their
    memory, and the page source in any way that keeps its laws. *)
Record snst := Snst { node : slab_node; st : sst; held : list Z; rest : list Z }.

Inductive sact :=
| SAlloc
| SFree (item : Z)
| SWrite (a v : Z)
| OField (pg : Z) (v : spage).

Definition node_pages (n : slab_node) : list Z := (if cur_pg n =? NULL then [] else [cur_pg n]) ++ full_list n ++ partial_list n.

Definition sstep (me : Z) (a : sact) (x : snst) : option (res snst) :=
  let n := node x in let s := st x in
  match a with
  | SAlloc => Some ('(item, n, s) ← __slab_node_alloc me n s; Ok (Snst n s (if item =? NULL then held x else item :: held x) (rest x)))
  | SFree item =>
      if bool_decide (item ∈ held x)
      then Some ('(n, s) ← slab_node_free n item s; Ok (Snst n s (filter (fun y => y <> item) (held x)) (rest x))) else None
  | SWrite a v =>
      if bool_decide (a ∈ held x) || negb (bool_decide (ps_page a ∈ node_pages n)) then Some (Ok (Snst n (store_word a v s) (held x) (rest x))) else None
  | OField pg v => if bool_decide (pg ∈ rest x) then Some (Ok (Snst n (put_sp pg v s) (held x) (rest x))) else None
  end.

Inductive sreach (me : Z) (x0 : snst) : snst -> Prop :=
| sreach_start : sreach me x0 x0
| sreach_step a x x' : sreach me x0 x -> sstep me a x = Some (Ok x') -> sreach me x0 x'
| sreach_others x p r : sreach me x0 x -> ps_nodes p = ps_nodes (src (st x)) -> ps_ok p (node_pages (node x) ++ r) ->
    sreach me x0 (Snst (node x) (set_src p (st x)) (held x) r).
End slab.
Arguments sst P : clear implicits.
Arguments snst P : clear implicits.
