(* ===== verification/SlabInv.v ===== *)
(** * The invariant of a slab node

    Every page has [c] items that were ever allocated and a list [l] of those that are
    free again; its other items, the allocated ones, are held. *)

From S2P Require Import Prelude Stddef Tcache Page Slab.

Section inv.
Context {P : Type} `{PageSource P} (me : Z).

(** The words link the list [l] from [p]. *)
Fixpoint wchain (w : gmap Z Z) (p : Z) (l : list Z) : Prop :=
  match l with
  | [] => p = NULL
  | x :: l => p = x /\ x <> NULL /\ exists q, w !! x = Some q /\ wchain w q l
  end.

Lemma wchain_ext w w' p l : (forall x, x ∈ l -> w' !! x = w !! x) -> wchain w p l -> wchain w' p l.
Proof.
  revert p. induction l as [|x l IH]; intros p He Hc; [done|]. destruct Hc as (-> & Hx & q & Hq & Hc). split_and!; [done..|].
  exists q. rewrite He by (by left). split; [done|]. apply IH; [|done]. intros y Hy. apply He. by right.
Qed.

Definition slot (n : slab_node) (pg : Z) (i : nat) : Z := ps_addr pg + (offset n + Z.of_nat i * size n).
Definition slots (n : slab_node) (pg : Z) (c : nat) : list Z := slot n pg <$> seq 0 c.

(** The parameters of a node fit its pages. *)
Record params_ok (n : slab_node) : Prop := {
  po_size : 0 < size n;
  po_off : 0 <= offset n;
  po_nr : 2 * SLAB_PARTIAL_THRESH <= nr_elems n;
  po_fit : offset n + nr_elems n * size n <= ps_size;
  po_pgsize : pgsize n = ps_size;
}.

Definition same_params (n n' : slab_node) : Prop :=
  size n' = size n /\ numa_node n' = numa_node n /\ offset n' = offset n /\ nflags n' = nflags n /\ nr_elems n' = nr_elems n.

Record page_inv (n : slab_node) (s : sst P) (pg : Z) (c : nat) (l : list Z) : Prop := {
  pv_valid : ps_valid (numa_node n) pg;
  pv_chain : wchain (words s) (next (get_sp pg s)) l;
  pv_snode : snode (get_sp pg s) = me;
  pv_count : item_count (get_sp pg s) = Z.of_nat (length l) + (nr_elems n - Z.of_nat c);
  pv_c : Z.of_nat c <= nr_elems n;
  pv_nodup : NoDup l;
  pv_sub : l ⊆ slots n pg c;
}.

Definition all (n : slab_node) : nat := Z.to_nat (nr_elems n).

Record sinv (x : snst P) (c : Z -> nat) (l : Z -> list Z) : Prop := {
  sv_params : params_ok (node x);
  sv_node : (numa_node (node x) < ps_nodes (src (st x)))%nat;
  sv_src : ps_ok (src (st x)) (node_pages (node x) ++ rest x);
  sv_page : forall pg, pg ∈ node_pages (node x) -> page_inv (node x) (st x) pg (c pg) (l pg);
  sv_cur : cur_pg (node x) <> NULL -> c (cur_pg (node x)) = all (node x) \/ pg_off (node x) = offset (node x) + Z.of_nat (c (cur_pg (node x))) * size (node x);
  sv_full : forall pg, pg ∈ full_list (node x) -> c pg = all (node x) /\ Z.of_nat (length (l pg)) < SLAB_PARTIAL_THRESH;
  sv_partial : forall pg, pg ∈ partial_list (node x) -> c pg = all (node x) /\ SLAB_PARTIAL_THRESH <= Z.of_nat (length (l pg)) < nr_elems (node x);
  sv_held : forall y, y ∈ held x <-> exists pg, pg ∈ node_pages (node x) /\ y ∈ slots (node x) pg (c pg) /\ y ∉ l pg;
  sv_nodup : NoDup (held x);
}.

(** ** Items and pages *)

Lemma slots_elem n pg k y : y ∈ slots n pg k <-> exists i, (i < k)%nat /\ y = slot n pg i.
Proof.
  unfold slots. rewrite list_elem_of_fmap. split.
  - intros (i & -> & Hi). apply elem_of_seq in Hi. exists i. split; [lia|done].
  - intros (i & Hi & ->). exists i. split; [done|]. apply elem_of_seq. lia.
Qed.

Lemma slot_off n i : params_ok n -> Z.of_nat i < nr_elems n -> 0 <= offset n + Z.of_nat i * size n /\ offset n + Z.of_nat i * size n + size n <= ps_size.
Proof. intros [] Hi. nia. Qed.

(** The page and the NUMA node of an item. *)
Lemma slot_page n pg i : params_ok n -> ps_valid (numa_node n) pg -> Z.of_nat i < nr_elems n ->
  ps_page (slot n pg i) = pg /\ addr_to_numa_node (slot n pg i) = Z.of_nat (numa_node n) /\ 0 < slot n pg i.
Proof.
  intros Hp Hv Hi. destruct (slot_off n i Hp Hi) as [H1 H2]. destruct Hp. destruct (ps_geom (numa_node n) pg (offset n + Z.of_nat i * size n)) as [E1 E2]; [done|lia|].
  unfold slot. split_and!; [done..|]. apply ps_pos in Hv. lia.
Qed.

Lemma slots_page n pg k y : params_ok n -> ps_valid (numa_node n) pg -> Z.of_nat k <= nr_elems n -> y ∈ slots n pg k ->
  ps_page y = pg /\ addr_to_numa_node y = Z.of_nat (numa_node n) /\ 0 < y.
Proof. intros Hp Hv Hk (i & Hi & ->)%slots_elem. apply slot_page; [done|done|lia]. Qed.

Lemma slots_S n pg k : slots n pg (S k) = slots n pg k ++ [slot n pg k].
Proof. unfold slots. by rewrite seq_S, fmap_app. Qed.

Lemma item_inj n pg i j : params_ok n -> slot n pg i = slot n pg j -> i = j.
Proof. intros []. unfold slot. nia. Qed.

(** A page all of whose items were allocated has as many free ones as the list. *)
Lemma page_count n s pg c l : page_inv n s pg c l -> c = all n -> 0 <= nr_elems n -> item_count (get_sp pg s) = Z.of_nat (length l).
Proof. intros [] -> Hn. rewrite pv_count0. unfold all. lia. Qed.

(** No more free items than there are. *)
Lemma free_bound n s pg c l : page_inv n s pg c l -> (length l <= c)%nat.
Proof.
  intros []. apply (NoDup_submseteq _ _ pv_nodup0) in pv_sub0. apply submseteq_length in pv_sub0. revert pv_sub0. unfold slots. by rewrite length_fmap, length_seq.
Qed.

Lemma sv_pages_nodup x c l : sinv x c l -> NoDup (node_pages (node x)).
Proof. intros []. apply ps_nodup in sv_src0. by apply list.NoDup_app in sv_src0 as [? _]. Qed.

Lemma page_nonnull x c l pg : sinv x c l -> pg ∈ node_pages (node x) -> pg <> NULL.
Proof. intros Hi Hp. destruct (sv_page _ _ _ Hi pg Hp). apply ps_pos in pv_valid0. unfold NULL. lia. Qed.

(** The page of a held item. *)
Lemma held_page x c l y : sinv x c l -> y ∈ held x ->
  ps_page y ∈ node_pages (node x) /\ (y ∈ slots (node x) (ps_page y) (c (ps_page y))) /\ (y ∉ l (ps_page y)) /\ y <> NULL.
Proof.
  intros Hi (pg & Hpg & Hs & Hn)%(sv_held _ _ _ Hi). destruct (sv_page _ _ _ Hi pg Hpg).
  destruct (slots_page (node x) pg (c pg) y (sv_params _ _ _ Hi)) as (E & _ & Hy); [done..|]. rewrite E. split_and!; [done..|]. unfold NULL. lia.
Qed.

(** A page is as it was if its struct and the words of its free items are. *)
Lemma page_frame n n' s s' pg c l : same_params n n' -> get_sp pg s' = get_sp pg s -> (forall y, y ∈ l -> words s' !! y = words s !! y) ->
  page_inv n s pg c l -> page_inv n' s' pg c l.
Proof.
  intros (E1 & E2 & E3 & E4 & E5) Eg Hw []. assert (Es : forall k, slots n' pg k = slots n pg k) by (intros k; unfold slots, slot; by rewrite E1, E3).
  split; rewrite ?Eg, ?E2, ?E5, ?Es; try done. by apply (wchain_ext (words s)).
Qed.

(** ** One page changes *)

Definition upd {A} (f : Z -> A) (pg : Z) (v : A) (q : Z) : A := if decide (q = pg) then v else f q.

Lemma upd_eq {A} (f : Z -> A) pg v : upd f pg v pg = v.
Proof. unfold upd. by rewrite decide_True. Qed.

Lemma upd_ne {A} (f : Z -> A) pg v q : q <> pg -> upd f pg v q = f q.
Proof. intros. unfold upd. by rewrite decide_False. Qed.

(** The invariant after an operation that changes the page [pg] and maybe its place: the
    other pages, their structs and the words of their free items are as they were. *)
Lemma sinv_update (x x' : snst P) c l pg c1 l1 :
  sinv x c l -> same_params (node x) (node x') ->
  ps_nodes (src (st x')) = ps_nodes (src (st x)) -> ps_ok (src (st x')) (node_pages (node x') ++ rest x') ->
  (forall q, q <> pg -> q ∈ node_pages (node x') <-> q ∈ node_pages (node x)) ->
  (forall q, q <> pg -> q ∈ node_pages (node x) -> get_sp q (st x') = get_sp q (st x) /\ forall y, y ∈ l q -> words (st x') !! y = words (st x) !! y) ->
  (pg ∈ node_pages (node x') -> page_inv (node x') (st x') pg c1 l1) ->
  (cur_pg (node x') = pg -> c1 = all (node x) \/ pg_off (node x') = offset (node x) + Z.of_nat c1 * size (node x)) ->
  (cur_pg (node x') <> NULL -> cur_pg (node x') <> pg -> cur_pg (node x') = cur_pg (node x) /\ pg_off (node x') = pg_off (node x)) ->
  (forall q, q ∈ full_list (node x') -> q = pg /\ c1 = all (node x) /\ Z.of_nat (length l1) < SLAB_PARTIAL_THRESH \/ q <> pg /\ q ∈ full_list (node x)) ->
  (forall q, q ∈ partial_list (node x') ->
     q = pg /\ c1 = all (node x) /\ SLAB_PARTIAL_THRESH <= Z.of_nat (length l1) < nr_elems (node x) \/ q <> pg /\ q ∈ partial_list (node x)) ->
  (forall y, y ∈ held x' <-> (y ∈ held x /\ ps_page y <> pg) \/ (pg ∈ node_pages (node x') /\ (y ∈ slots (node x) pg c1) /\ y ∉ l1)) ->
  NoDup (held x') -> sinv x' (upd c pg c1) (upd l pg l1).
Proof.
  intros Hi Hsp Hno Hok Hpg Hfr Hpi Hc1 Hc2 Hfu Hpa Hh Hnd. assert (Hhp := fun y => held_page x c l y Hi). assert (Hsp' := Hsp). destruct Hsp as (E1 & E2 & E3 & E4 & E5).
  assert (Es : forall q k, slots (node x') q k = slots (node x) q k) by (intros q k; unfold slots, slot; by rewrite E1, E3).
  assert (Ea : all (node x') = all (node x)) by (unfold all; by rewrite E5).
  destruct Hi as [I1 I2 I3 I4 I5 I6 I7 I8 I9]. split.
  - destruct I1. split; rewrite ?E1, ?E3, ?E5; try done. unfold pgsize. by rewrite E4.
  - by rewrite E2, Hno.
  - done.
  - intros q Hq. destruct (decide (q = pg)) as [->|Hne]; [rewrite !upd_eq; auto|]. rewrite !upd_ne by done. apply Hpg in Hq; [|done].
    destruct (Hfr q Hne Hq). by apply (page_frame (node x) _ (st x)); auto.
  - intros Hnn. rewrite Ea, E1, E3. destruct (decide (cur_pg (node x') = pg)) as [E|Hne]; [rewrite E, upd_eq; auto|].
    rewrite upd_ne by done. destruct (Hc2 Hnn Hne) as [Ec ->]. rewrite Ec. apply I5. congruence.
  - intros q Hq. rewrite Ea. destruct (Hfu q Hq) as [(-> & ? & ?)|[Hne Hq']]; [by rewrite !upd_eq|]. rewrite !upd_ne by done. by apply I6.
  - intros q Hq. rewrite Ea, E5. destruct (Hpa q Hq) as [(-> & ? & ?)|[Hne Hq']]; [by rewrite !upd_eq|]. rewrite !upd_ne by done. by apply I7.
  - intros y. rewrite Hh. split.
    + intros [[Hy Hne]|(Hin & Hs & Hn)].
      * destruct (Hhp y Hy) as (Hq & Hs & Hn & _). exists (ps_page y). rewrite !upd_ne, Es by done. split; [by apply Hpg|done].
      * exists pg. rewrite !upd_eq, Es. done.
    + intros (q & Hq & Hs & Hn). rewrite Es in Hs. destruct (decide (q = pg)) as [->|Hne]; [rewrite !upd_eq in *; auto|].
      rewrite !upd_ne in * by done. apply Hpg in Hq; [|done]. left. split; [apply I8; eauto|].
      destruct (I4 q Hq). destruct (slots_page (node x) q (c q) y I1) as (-> & _); done.
  - done.
Qed.

Lemma elem_node_pages n q : q ∈ node_pages n <-> q = cur_pg n /\ cur_pg n <> NULL \/ q ∈ full_list n \/ q ∈ partial_list n.
Proof. unfold node_pages. rewrite !elem_of_app. destruct (Z.eqb_spec (cur_pg n) NULL); rewrite ?elem_of_nil, ?list_elem_of_singleton; tauto. Qed.

(** Pages are in one place. *)
Lemma places x c l : sinv x c l ->
  NoDup (full_list (node x)) /\ NoDup (partial_list (node x)) /\ (forall q, q ∈ full_list (node x) -> (q ∉ partial_list (node x)) /\ q <> cur_pg (node x)) /\
  (forall q, q ∈ partial_list (node x) -> (q ∉ full_list (node x)) /\ q <> cur_pg (node x)).
Proof.
  intros Hi. assert (Hn := sv_pages_nodup _ _ _ Hi). assert (Hz := fun q => page_nonnull x c l q Hi). unfold node_pages in Hn.
  apply list.NoDup_app in Hn as (_ & Hd & Hn). apply list.NoDup_app in Hn as (H1 & H2 & H3).
  assert (Hc : forall q, q ∈ full_list (node x) ++ partial_list (node x) -> q <> cur_pg (node x)).
  { intros q Hq ->. destruct (Z.eqb_spec (cur_pg (node x)) NULL) as [E|E].
    - apply (Hz (cur_pg (node x))); [|done]. unfold node_pages. apply elem_of_app. by right.
    - apply (Hd (cur_pg (node x))); [by apply list_elem_of_singleton|done]. }
  split_and!; [done..| |]; intros q Hq; (split; [|apply Hc, elem_of_app; auto]); intros Hq'; [by apply (H2 q)|by apply (H2 q)].
Qed.

(** The held items stay when a page only changes its place. *)
Lemma held_same x c l pg (pages' : list Z) : sinv x c l -> (forall q, q ∈ pages' <-> q ∈ node_pages (node x)) -> pg ∈ node_pages (node x) ->
  forall y, y ∈ held x <-> (y ∈ held x /\ ps_page y <> pg) \/ (pg ∈ pages' /\ (y ∈ slots (node x) pg (c pg)) /\ y ∉ l pg).
Proof.
  intros Hi Hp Hpg y. split.
  - intros Hy. destruct (held_page x c l y Hi Hy) as (H1 & H2 & H3 & _). destruct (decide (ps_page y = pg)) as [<-|]; [right|by left]. by rewrite Hp.
  - intros [[? _]|(_ & H1 & H2)]; [done|]. apply (sv_held _ _ _ Hi). eauto.
Qed.

(** ** Allocation *)

Lemma cur_page x c l : sinv x c l -> cur_pg (node x) <> NULL -> cur_pg (node x) ∈ node_pages (node x).
Proof. intros _ Hc. apply elem_node_pages. by left. Qed.

(** The current page, all of whose items are allocated, becomes a full one. *)
Lemma retire_cur x c l : sinv x c l -> cur_pg (node x) <> NULL -> item_count (get_sp (cur_pg (node x)) (st x)) = 0 ->
  exists c' l', sinv (Snst (set_cur_pg NULL (set_full_list (cur_pg (node x) :: full_list (node x)) (node x))) (st x) (held x) (rest x)) c' l'.
Proof.
  intros Hi Hc H0. assert (Hin := cur_page x c l Hi Hc). assert (Hpi := sv_page _ _ _ Hi _ Hin). assert (Hpl := places x c l Hi).
  assert (Hcl : c (cur_pg (node x)) = all (node x) /\ l (cur_pg (node x)) = []).
  { destruct Hpi. rewrite H0 in pv_count0. split; [unfold all; lia|]. apply length_zero_iff_nil. lia. }
  set (n' := set_cur_pg NULL (set_full_list (cur_pg (node x) :: full_list (node x)) (node x))).
  assert (Hp : forall q, q ∈ node_pages n' <-> q ∈ node_pages (node x)) by (intros q; rewrite !elem_node_pages; subst n'; cbn; rewrite elem_of_cons; tauto).
  do 2 eexists. eapply (sinv_update x _ c l (cur_pg (node x)) (c (cur_pg (node x))) (l (cur_pg (node x))) Hi); cbn [node st held rest]; try done.
  - eapply ps_perm; [|apply (sv_src _ _ _ Hi)]. apply Permutation_app_tail. subst n'. unfold node_pages. cbn. apply Z.eqb_neq in Hc. by rewrite Hc.
  - intros _. by apply (page_frame (node x) _ (st x)).
  - cbn. intros q [->|Hq]%elem_of_cons; [left; split; [done|]; destruct Hcl as [-> ->]; split; [done|vm_compute; done]|]. right.
    destruct Hpl as (_ & _ & Hd & _). split; [by apply Hd|done].
  - cbn. intros q Hq. right. destruct Hpl as (_ & _ & _ & Hd). split; [by apply Hd|done].
  - by apply held_same.
  - apply (sv_nodup _ _ _ Hi).
Qed.

Lemma get_put_eq pg v (s : sst P) : get_sp pg (put_sp pg v s) = v.
Proof. unfold get_sp, put_sp. cbn. by rewrite lookup_insert_eq. Qed.

Lemma get_put_ne pg q v (s : sst P) : q <> pg -> get_sp q (put_sp pg v s) = get_sp q s.
Proof. intros Hne. unfold get_sp, put_sp. cbn. by rewrite lookup_insert_ne. Qed.

Lemma nr_8 x c l : sinv x c l -> 8 <= nr_elems (node x).
Proof. intros []. destruct sv_params0. exact po_nr0. Qed.

(** A new page becomes the current one. *)
Lemma fresh_page x c l pg p : sinv x c l -> cur_pg (node x) = NULL -> partial_list (node x) = [] ->
  pg ∉ node_pages (node x) ++ rest x -> ps_valid (numa_node (node x)) pg -> ps_nodes p = ps_nodes (src (st x)) -> ps_ok p (pg :: node_pages (node x) ++ rest x) ->
  exists c' l', sinv (Snst (set_cur_pg pg (set_pg_off (offset (node x)) (node x))) (put_sp pg (SPage NULL me (nr_elems (node x))) (set_src p (st x))) (held x) (rest x)) c' l'.
Proof.
  intros Hi Hc Ep Hn Hv Hno Hok. assert (Hpos := ps_pos _ _ Hv). assert (Hnr := nr_8 x c l Hi). set (n' := set_cur_pg pg _). set (s' := put_sp pg _ _).
  assert (Hpp : node_pages n' = pg :: node_pages (node x)).
  { unfold node_pages. cbn. rewrite Hc, (proj2 (Z.eqb_neq pg NULL)) by (unfold NULL; lia). done. }
  do 2 eexists. eapply (sinv_update x _ c l pg 0%nat [] Hi); cbn [node st held rest]; rewrite ?Hpp; try done.
  - intros q Hq. rewrite elem_of_cons. tauto.
  - intros q Hq _. split; [|done]. subst s'. by rewrite get_put_ne.
  - intros _. split; subst s'; rewrite ?get_put_eq; cbn; try done; [lia..|apply base.NoDup_nil_2].
  - intros _. right. cbn. lia.
  - cbn. intros q Hq. right. split; [|done]. intros ->. apply Hn, elem_of_app. left. apply elem_node_pages. auto.
  - cbn. rewrite Ep. intros q Hq. by apply elem_of_nil in Hq.
  - intros y. split; [|intros [[? _]|(_ & Hy & _)]; [done|by apply elem_of_nil in Hy]]. intros Hy. left. split; [done|]. intros Ey.
    apply Hn, elem_of_app. left. destruct (held_page x c l y Hi Hy) as (Hq & _). by rewrite Ey in Hq.
  - apply (sv_nodup _ _ _ Hi).
Qed.

(** A partly full page becomes the current one. *)
Lemma reuse_page x c l pg lp : sinv x c l -> cur_pg (node x) = NULL -> partial_list (node x) = pg :: lp ->
  (exists c' l', sinv (Snst (set_cur_pg pg (set_partial_list lp (node x))) (st x) (held x) (rest x)) c' l') /\ item_count (get_sp pg (st x)) <> 0.
Proof.
  intros Hi Hc Ep. destruct (places x c l Hi) as (_ & Hnd & Hd1 & Hd2). rewrite Ep in Hnd, Hd1. apply list.NoDup_cons in Hnd as [Hnd1 Hnd2].
  assert (Hin : pg ∈ node_pages (node x)) by (apply elem_node_pages; rewrite Ep; right; right; left).
  assert (Hz := page_nonnull x c l pg Hi Hin). assert (Hpi := sv_page _ _ _ Hi pg Hin).
  destruct (sv_partial _ _ _ Hi pg ltac:(rewrite Ep; left)) as [Ha Hl]. set (n' := set_cur_pg pg (set_partial_list lp (node x))).
  assert (Hp : forall q, q ∈ node_pages n' <-> q ∈ node_pages (node x)).
  { intros q. rewrite !elem_node_pages. subst n'. cbn. rewrite Ep, Hc, elem_of_cons. split; [intros [[-> _]|[?|?]]; auto|]. intros [[_ ?]|[?|[->|?]]]; auto; done. }
  split; [|rewrite (page_count _ _ _ _ _ Hpi Ha) by (destruct Hpi; lia); change SLAB_PARTIAL_THRESH with 4 in Hl; lia].
  do 2 eexists. eapply (sinv_update x _ c l pg (c pg) (l pg) Hi); cbn [node st held rest]; fold n'; try done.
  - eapply ps_perm; [|apply (sv_src _ _ _ Hi)]. apply Permutation_app_tail. subst n'. unfold node_pages. cbn. rewrite Ep, Hc.
    rewrite (proj2 (Z.eqb_neq pg NULL)) by done. cbn. by rewrite <- Permutation_middle.
  - intros _. by apply (page_frame (node x) _ (st x)).
  - intros _. by left.
  - cbn. intros q Hq. right. split; [|done]. intros ->. destruct (Hd1 pg Hq) as [F _]. apply F. left.
  - cbn. intros q Hq. right. rewrite Ep. split; [|by right]. intros ->. done.
  - by apply held_same.
  - apply (sv_nodup _ _ _ Hi).
Qed.

(** A page with an item, or none. *)
Lemma get_page_ok x c l : sinv x c l -> cur_pg (node x) = NULL ->
  exists pg n' s' c' l', __slab_node_get_page me (node x) (st x) = Ok (pg, n', s') /\
    sinv (Snst (set_cur_pg pg n') s' (held x) (rest x)) c' l' /\ (pg <> NULL -> item_count (get_sp pg s') <> 0).
Proof.
  intros Hi Hc. unfold __slab_node_get_page. destruct (partial_list (node x)) as [|pg lp] eqn:Ep.
  2:{ destruct (reuse_page x c l pg lp Hi Hc Ep) as [(c' & l' & Hi') H0]. exists pg. eauto 10. }
  rewrite (po_pgsize _ (sv_params _ _ _ Hi)).
  destruct (ps_alloc_ok (numa_node (node x)) _ _ (sv_src _ _ _ Hi) (sv_node _ _ _ Hi)) as ([pg|] & p & E & Hno & Hr); rewrite E; cbn [mbind res_bind].
  - destruct Hr as (Hn & Hv & Hok). set (L := pg :: node_pages (node x) ++ rest x) in *. assert (HL : pg ∈ L) by left.
    set (p1 := page_or_flags pg PAGE_FLAG_SLAB p). set (p2 := if has SLAB_FLAG_PAGES (nflags (node x)) then _ else p1).
    assert (Hp2 : ps_ok p2 L /\ ps_nodes p2 = ps_nodes p).
    { destruct (ps_flags_ok pg PAGE_FLAG_SLAB p L) as [F1 F2]; [by left|done..|]. fold p1 in F1, F2. subst p2.
      destruct (has SLAB_FLAG_PAGES (nflags (node x))); [|done]. destruct (ps_flags_ok pg PAGE_FLAG_SHATTERED p1 L) as [F3 F4]; [by right|done..|].
      destruct (ps_memset_ok (numa_node (node x)) pg (offset (node x)) (page_or_flags pg PAGE_FLAG_SHATTERED p1) L) as [F5 F6];
        [done|done| |done|split; [done|congruence]]. assert (Hnr := nr_8 x c l Hi). destruct (sv_params _ _ _ Hi). nia. }
    destruct Hp2 as [Hp2 Hp2']. destruct (fresh_page x c l pg p2 Hi Hc Ep Hn Hv) as (c' & l' & Hi'); [congruence|done|].
    do 5 eexists. split; [done|]. split; [exact Hi'|]. intros _. rewrite get_put_eq. assert (Hnr := nr_8 x c l Hi). cbn. lia.
  - exists NULL, (node x), (set_src p (st x)), c, l. split; [done|]. split; [|done].
    assert (En : set_cur_pg NULL (node x) = node x) by (destruct (node x); cbn in *; by subst). rewrite En. destruct Hi. split; try done; [cbn; by rewrite Hno|].
    intros q Hq. apply (page_frame (node x) _ (st x)); auto. done.
Qed.

(** An item is taken from a page. *)
Lemma held_take x c l pg item c1 (l1 : list Z) : sinv x c l -> pg ∈ node_pages (node x) -> ps_page item = pg -> item ∉ held x ->
  (forall y, (y ∈ slots (node x) pg c1 /\ y ∉ l1) <-> y = item \/ (y ∈ slots (node x) pg (c pg) /\ y ∉ l pg)) ->
  NoDup (item :: held x) /\
  forall y, y ∈ item :: held x <-> (y ∈ held x /\ ps_page y <> pg) \/ (pg ∈ node_pages (node x) /\ (y ∈ slots (node x) pg c1) /\ y ∉ l1).
Proof.
  intros Hi Hpg Hp Hn Hs. split; [apply list.NoDup_cons; split; [done|apply (sv_nodup _ _ _ Hi)]|].
  intros y. rewrite elem_of_cons, Hs, (held_same x c l pg (node_pages (node x)) Hi ltac:(done) Hpg y). tauto.
Qed.

Lemma take_item_ok x c l : sinv x c l -> cur_pg (node x) <> NULL -> item_count (get_sp (cur_pg (node x)) (st x)) <> 0 ->
  exists item n' s' c' l', take_item (node x) (st x) = Ok (item, n', s') /\ item <> NULL /\ (item ∉ held x) /\
    sinv (Snst n' s' (item :: held x) (rest x)) c' l'.
Proof.
  intros Hi Hc H0. assert (Hin := cur_page x c l Hi Hc). destruct (places x c l Hi) as (_ & _ & Hd1 & Hd2). unfold take_item.
  set (pg := cur_pg (node x)) in *. assert (Hpi := sv_page _ _ _ Hi pg Hin). assert (Hpar := sv_params _ _ _ Hi).
  assert (Hhp := fun y => held_page x c l y Hi). assert (Hcur := sv_cur _ _ _ Hi Hc). fold pg in Hcur. assert (Hpi' := Hpi). destruct Hpi as [V1 V2 V3 V4 V5 V6 V7].
  destruct (l pg) as [|h t] eqn:El; cbn [wchain] in V2.
  - rewrite V2. cbn [negb]. change (NULL =? NULL) with true. cbn [negb]. assert (Hlt : Z.of_nat (c pg) < nr_elems (node x)) by (cbn in V4; lia).
    destruct Hcur as [E|Eoff]; [unfold all in E; lia|]. destruct (slot_off (node x) (c pg) Hpar Hlt) as [O1 O2].
    destruct (slot_page (node x) pg (c pg) Hpar V1 Hlt) as (Ep & _ & Hpos).
    rewrite (po_pgsize _ Hpar), Eoff, (proj2 (Z.ltb_lt (offset (node x) + Z.of_nat (c pg) * size (node x)) ps_size)) by (destruct Hpar; lia).
    cbn [BUG_ON mbind res_bind negb]. change (ps_addr pg + (offset (node x) + Z.of_nat (c pg) * size (node x))) with (slot (node x) pg (c pg)).
    assert (Hnew : slot (node x) pg (c pg) ∉ slots (node x) pg (c pg)) by (intros (i & Hi' & E)%slots_elem; apply item_inj in E; [lia|done]).
    assert (Hn : slot (node x) pg (c pg) ∉ held x) by (intros (_ & Hs & _)%Hhp; by rewrite Ep in Hs).
    do 5 eexists. split; [done|]. split; [unfold NULL; lia|]. split; [done|].
    destruct (held_take x c l pg (slot (node x) pg (c pg)) (S (c pg)) [] Hi Hin Ep Hn) as [Hnd Hh].
    { intros y. rewrite El, slots_S, elem_of_app, list_elem_of_singleton. set_solver. }
    eapply (sinv_update x _ c l pg (S (c pg)) [] Hi); cbn [node st held rest]; try done.
    + apply (sv_src _ _ _ Hi).
    + intros q Hq _. split; [by rewrite get_put_ne|done].
    + intros _. split; rewrite ?get_put_eq; cbn [words put_sp next snode item_count]; cbn [nr_elems set_pg_off length] in *; try done; [lia..|apply list_subseteq_nil].
    + intros _. right. cbn. lia.
    + cbn. intros q Hq. right. split; [by apply Hd1|done].
    + cbn. intros q Hq. right. split; [by apply Hd2|done].
  - destruct V2 as (Ev & Hh0 & q & Hq & Hch). rewrite Ev. assert (Eh : (h =? NULL) = false) by (by apply Z.eqb_neq). rewrite Eh. cbn [negb].
    unfold load_word. rewrite Hq. cbn [default]. apply list.NoDup_cons in V6 as [V6 V6'].
    assert (Hs : h ∈ slots (node x) pg (c pg)) by (apply V7; left). destruct (slots_page (node x) pg (c pg) h Hpar V1 V5 Hs) as (Ep & _ & _).
    assert (Hn : h ∉ held x) by (intros (_ & _ & F & _)%Hhp; apply F; rewrite Ep, El; left).
    do 5 eexists. split; [done|]. split; [done|]. split; [done|].
    destruct (held_take x c l pg h (c pg) t Hi Hin Ep Hn) as [Hnd Hh].
    { intros y. rewrite El, not_elem_of_cons. destruct (decide (y = h)) as [->|]; tauto. }
    eapply (sinv_update x _ c l pg (c pg) t Hi); cbn [node st held rest]; try done.
    + apply (sv_src _ _ _ Hi).
    + intros q' Hq' _. split; [by rewrite get_put_ne|done].
    + intros _. split; rewrite ?get_put_eq; cbn [words put_sp next snode item_count]; try done; [cbn in V4; lia|].
      intros y Hy. apply V7. by right.
    + intros q' Hq'. right. split; [by apply Hd1|done].
    + intros q' Hq'. right. split; [by apply Hd2|done].
Qed.

(** [nr_pages] is not part of the invariant. *)
Lemma sinv_nr_pages x c l v : sinv x c l -> sinv (Snst (set_nr_pages v (node x)) (st x) (held x) (rest x)) c l.
Proof. intros []. split; try done; [by destruct sv_params0|]. intros q Hq. by apply (page_frame (node x) _ (st x)); auto. Qed.

(** [__slab_node_alloc] returns an item that is not held, or NULL. *)
Lemma alloc_keeps x c l : sinv x c l ->
  exists item n' s' c' l', __slab_node_alloc me (node x) (st x) = Ok (item, n', s') /\
    sinv (Snst n' s' (if item =? NULL then held x else item :: held x) (rest x)) c' l' /\ (item <> NULL -> item ∉ held x).
Proof.
  intros Hi. unfold __slab_node_alloc.
  assert (He : exists n s c' l', ensure_page me (node x) (st x) = Ok (n, s) /\ sinv (Snst n s (held x) (rest x)) c' l' /\
    (cur_pg n <> NULL -> item_count (get_sp (cur_pg n) s) <> 0)).
  { unfold ensure_page. destruct (Z.eqb_spec (cur_pg (node x)) NULL) as [Ec|Ec]; cbn [orb].
    - destruct (get_page_ok x c l Hi Ec) as (pg & n' & s' & c' & l' & -> & Hi' & H0). cbn [mbind res_bind]. do 4 eexists. split; [done|].
      destruct (Z.eqb_spec pg NULL) as [->|Hpg]; [split; [done|by cbn]|]. split; [apply (sinv_nr_pages _ _ _ _ Hi')|by intros _; apply H0].
    - destruct (Z.eqb_spec (item_count (get_sp (cur_pg (node x)) (st x))) 0) as [E0|E0]; [|by exists (node x), (st x), c, l; destruct x].
      destruct (retire_cur x c l Hi Ec E0) as (c1 & l1 & Hi1). destruct (get_page_ok _ _ _ Hi1 eq_refl) as (pg & n' & s' & c' & l' & E & Hi' & H0).
      cbn [node st held rest] in *. set (nn := set_full_list _ _) in *.
      assert (Eg : exists n'', __slab_node_get_page me nn (st x) = Ok (pg, n'', s') /\ set_cur_pg pg n' = set_cur_pg pg n'').
      { revert E. unfold __slab_node_get_page. change (partial_list (set_cur_pg NULL nn)) with (partial_list nn).
        change (pgsize (set_cur_pg NULL nn)) with (pgsize nn). change (numa_node (set_cur_pg NULL nn)) with (numa_node nn).
        destruct (partial_list nn) as [|q lq]; [|intros [= <- <- <-]; by eexists]. destruct (page_alloc_on_node _ _ _) as [[[q|] p]|]; cbn [mbind res_bind]; [|intros [= <- <- <-]; by eexists|done].
        intros [= <- <- <-]. by eexists. }
      destruct Eg as (n'' & -> & En). cbn [mbind res_bind]. rewrite En in Hi'. do 4 eexists. split; [done|].
      destruct (Z.eqb_spec pg NULL) as [->|Hpg]; [split; [done|by cbn]|]. split; [apply (sinv_nr_pages _ _ _ _ Hi')|by intros _; apply H0]. }
  destruct He as (n & s & c1 & l1 & -> & Hi1 & H0). cbn [mbind res_bind]. destruct (Z.eqb_spec (cur_pg n) NULL) as [Ec|Ec].
  { do 5 eexists. split; [done|]. split; [exact Hi1|done]. }
  destruct (take_item_ok _ _ _ Hi1 Ec (H0 Ec)) as (item & n' & s' & c' & l' & E & Hz & Hn & Hi'). cbn [node st held rest] in *. rewrite E.
  do 5 eexists. split; [done|]. rewrite (proj2 (Z.eqb_neq item NULL)) by done. eauto.
Qed.

(** ** Release *)

(** The state of the page after an item of it was linked into its list. *)
Definition freed_page (item : Z) (s : sst P) : sst P :=
  let v := get_sp (ps_page item) s in
  put_sp (ps_page item) (SPage item (snode v) (item_count v + 1)) (store_word item (next v) s).

Lemma freed_page_inv x c l item n' : sinv x c l -> item ∈ held x -> same_params (node x) n' ->
  page_inv n' (freed_page item (st x)) (ps_page item) (c (ps_page item)) (item :: l (ps_page item)).
Proof.
  intros Hi Hh (E1 & E2 & E3 & E4 & E5). destruct (held_page x c l item Hi Hh) as (Hpg & Hs & Hn & Hz). set (pg := ps_page item) in *.
  destruct (sv_page _ _ _ Hi pg Hpg) as [V1 V2 V3 V4 V5 V6 V7].
  assert (Es : forall k, slots n' pg k = slots (node x) pg k) by (intros k; unfold slots, slot; by rewrite E1, E3).
  split; rewrite ?E2, ?E5, ?Es; unfold freed_page; fold pg; rewrite ?get_put_eq; cbn [words put_sp store_word next snode item_count length]; try done.
  - split_and!; [done..|]. exists (next (get_sp pg (st x))). split; [by rewrite lookup_insert_eq|]. eapply wchain_ext; [|done]. intros y Hy.
    rewrite lookup_insert_ne; [done|]. intros ->. done.
  - lia.
  - by apply list.NoDup_cons.
  - intros y [->|Hy]%elem_of_cons; [done|by apply V7].
Qed.

(** The other pages. *)
Lemma freed_others x c l item q : sinv x c l -> item ∈ held x -> q <> ps_page item -> q ∈ node_pages (node x) ->
  get_sp q (freed_page item (st x)) = get_sp q (st x) /\ forall y, y ∈ l q -> words (freed_page item (st x)) !! y = words (st x) !! y.
Proof.
  intros Hi Hh Hq Hin. split; [unfold freed_page; by rewrite get_put_ne|]. intros y Hy. cbn. rewrite lookup_insert_ne; [done|]. intros <-.
  destruct (sv_page _ _ _ Hi q Hin) as [V1 V2 V3 V4 V5 V6 V7]. destruct (slots_page (node x) q (c q) item (sv_params _ _ _ Hi) V1 V5 (V7 _ Hy)) as (E & _). congruence.
Qed.

Lemma held_free x c l item (pages' : list Z) : sinv x c l -> item ∈ held x -> ps_page item ∈ pages' ->
  forall y, y ∈ filter (fun z => z <> item) (held x) <-> (y ∈ held x /\ ps_page y <> ps_page item) \/
    (ps_page item ∈ pages' /\ (y ∈ slots (node x) (ps_page item) (c (ps_page item))) /\ y ∉ item :: l (ps_page item)).
Proof.
  intros Hi Hh Hp y. destruct (held_page x c l item Hi Hh) as (Hpg & _). rewrite list_elem_of_filter, not_elem_of_cons.
  rewrite (held_same x c l (ps_page item) (node_pages (node x)) Hi ltac:(done) Hpg y). split; [tauto|].
  intros [[? Hne]|?]; [|tauto]. split; [|tauto]. intros ->. done.
Qed.

(** A page whose items are all free holds none. *)
Lemma all_free n s pg c l y : page_inv n s pg c l -> c = all n -> nr_elems n = Z.of_nat (length l) -> y ∈ slots n pg c -> y ∈ l.
Proof.
  intros Hpi -> Hlen Hy. destruct Hpi as [V1 V2 V3 V4 V5 V6 V7]. assert (Hl : length (slots n pg (all n)) = length l) by (unfold slots, all; rewrite length_fmap, length_seq; lia).
  assert (Hsub := NoDup_submseteq _ _ V6 V7). assert (Hp : l ≡ₚ slots n pg (all n)) by (apply submseteq_length_Permutation; [done|lia]). by rewrite Hp.
Qed.

(** The page of a held item stays where it is. *)
Lemma free_stays x c l item : sinv x c l -> item ∈ held x ->
  (ps_page item ∈ full_list (node x) -> item_count (get_sp (ps_page item) (st x)) + 1 < SLAB_PARTIAL_THRESH) ->
  (ps_page item ∈ partial_list (node x) -> item_count (get_sp (ps_page item) (st x)) + 1 < nr_elems (node x)) ->
  sinv (Snst (node x) (freed_page item (st x)) (filter (fun z => z <> item) (held x)) (rest x)) (upd c (ps_page item) (c (ps_page item))) (upd l (ps_page item) (item :: l (ps_page item))).
Proof.
  intros Hi Hh H1 H2. destruct (held_page x c l item Hi Hh) as (Hpg & _). set (pg := ps_page item) in *. assert (Hpi := sv_page _ _ _ Hi pg Hpg). assert (Hnr := nr_8 x c l Hi).
  assert (Hc := fun E => page_count _ _ _ _ _ Hpi E ltac:(lia)).
  eapply (sinv_update x _ c l pg _ _ Hi); cbn [node st held rest]; try done.
  - apply (sv_src _ _ _ Hi).
  - intros q Hq. by apply (freed_others x c l item q).
  - intros _. by apply (freed_page_inv x c l).
  - intros E. rewrite <- E. apply (sv_cur _ _ _ Hi). rewrite E. by apply (page_nonnull x c l).
  - intros q Hq. destruct (decide (q = pg)) as [->|]; [|by right]. left. destruct (sv_full _ _ _ Hi pg Hq) as [Ea _]. specialize (H1 Hq).
    rewrite (Hc Ea) in H1. split_and!; [done..|]. cbn [length]. lia.
  - intros q Hq. destruct (decide (q = pg)) as [->|]; [|by right]. left. destruct (sv_partial _ _ _ Hi pg Hq) as [Ea ?]. specialize (H2 Hq).
    rewrite (Hc Ea) in H2. split_and!; [done|done|cbn [length]; lia..].
  - by apply held_free.
  - apply list.NoDup_filter, (sv_nodup _ _ _ Hi).
Qed.

Lemma filter_ne_elem (pg q : Z) (l : list Z) : q ∈ filter (fun z => z <> pg) l <-> q <> pg /\ q ∈ l.
Proof. by rewrite list_elem_of_filter. Qed.

Lemma filter_ne_perm (pg : Z) (l : list Z) : NoDup l -> pg ∈ l -> l ≡ₚ pg :: filter (fun z => z <> pg) l.
Proof.
  intros Hn Hin. apply NoDup_Permutation; [done| |].
  - apply list.NoDup_cons. split; [rewrite filter_ne_elem; tauto|by apply list.NoDup_filter].
  - intros q. rewrite elem_of_cons, filter_ne_elem. destruct (decide (q = pg)) as [->|]; tauto.
Qed.

(** From the full pages to the partly full ones. *)
Lemma free_to_partial x c l item : sinv x c l -> item ∈ held x -> ps_page item <> cur_pg (node x) ->
  item_count (get_sp (ps_page item) (st x)) + 1 = SLAB_PARTIAL_THRESH ->
  exists n', unlink (ps_page item) (node x) = Ok n' /\
    sinv (Snst (set_partial_list (ps_page item :: partial_list n') n') (freed_page item (st x)) (filter (fun z => z <> item) (held x)) (rest x))
      (upd c (ps_page item) (c (ps_page item))) (upd l (ps_page item) (item :: l (ps_page item))).
Proof.
  intros Hi Hh Hnc H0. destruct (held_page x c l item Hi Hh) as (Hpg & _). set (pg := ps_page item) in *. assert (Hpi := sv_page _ _ _ Hi pg Hpg). assert (Hnr := nr_8 x c l Hi).
  assert (Hc := fun E => page_count _ _ _ _ _ Hpi E ltac:(lia)). destruct (places x c l Hi) as (Hn1 & _ & Hd1 & Hd2).
  assert (Hf : pg ∈ full_list (node x)).
  { apply elem_node_pages in Hpg as [[? _]|[?|Hq]]; [done|done|]. destruct (sv_partial _ _ _ Hi pg Hq) as [Ea ?]. rewrite (Hc Ea) in H0. lia. }
  destruct (sv_full _ _ _ Hi pg Hf) as [Ea _]. rewrite (Hc Ea) in H0. unfold unlink. rewrite bool_decide_eq_true_2 by done. eexists. split; [done|].
  set (n' := set_partial_list _ _).
  assert (Hp : forall q, q ∈ node_pages n' <-> q ∈ node_pages (node x)).
  { intros q. rewrite !elem_node_pages. subst n'. cbn. rewrite filter_ne_elem, elem_of_cons. destruct (decide (q = pg)) as [->|]; tauto. }
  eapply (sinv_update x _ c l pg _ _ Hi); cbn [node st held rest]; fold n'; try done.
  - eapply ps_perm; [|apply (sv_src _ _ _ Hi)]. apply Permutation_app_tail. subst n'. unfold node_pages. cbn. apply Permutation_app_head.
    rewrite (filter_ne_perm pg (full_list (node x))) at 1 by done. cbn. by rewrite Permutation_middle.
  - intros q Hq. by apply (freed_others x c l item q).
  - intros _. by apply (freed_page_inv x c l).
  - cbn. intros q [? ?]%filter_ne_elem. by right.
  - cbn. intros q [->|Hq]%elem_of_cons; [left|right; split; [|done]; intros ->; by destruct (Hd1 pg Hf)]. split; [done|]. split; [done|]. cbn [length]. change SLAB_PARTIAL_THRESH with 4 in *. lia.
  - apply held_free; [done..|]. by apply Hp.
  - apply list.NoDup_filter, (sv_nodup _ _ _ Hi).
Qed.

(** A page without allocated items goes back to its source. *)
Lemma free_page x c l item : sinv x c l -> item ∈ held x -> ps_page item <> cur_pg (node x) ->
  item_count (get_sp (ps_page item) (st x)) + 1 = nr_elems (node x) ->
  exists n' p', unlink (ps_page item) (node x) = Ok n' /\ page_put (ps_page item) (src (st x)) = Ok p' /\
    sinv (Snst n' (set_src p' (freed_page item (st x))) (filter (fun z => z <> item) (held x)) (rest x))
      (upd c (ps_page item) (c (ps_page item))) (upd l (ps_page item) (item :: l (ps_page item))).
Proof.
  intros Hi Hh Hnc H0. destruct (held_page x c l item Hi Hh) as (Hpg & Hs & _). set (pg := ps_page item) in *. assert (Hpi := sv_page _ _ _ Hi pg Hpg). assert (Hnr := nr_8 x c l Hi).
  assert (Hc := fun E => page_count _ _ _ _ _ Hpi E ltac:(lia)). destruct (places x c l Hi) as (_ & Hn1 & Hd1 & Hd2).
  assert (Hf : pg ∈ partial_list (node x)).
  { apply elem_node_pages in Hpg as [[? _]|[Hq|?]]; [done| |done]. destruct (sv_full _ _ _ Hi pg Hq) as [Ea ?]. rewrite (Hc Ea) in H0. change SLAB_PARTIAL_THRESH with 4 in *. lia. }
  destruct (sv_partial _ _ _ Hi pg Hf) as [Ea _]. rewrite (Hc Ea) in H0. destruct (Hd2 pg Hf) as [Hnf _].
  unfold unlink. rewrite bool_decide_eq_false_2, bool_decide_eq_true_2 by done. set (n' := set_partial_list _ _).
  assert (Hp : forall q, q <> pg -> q ∈ node_pages n' <-> q ∈ node_pages (node x)).
  { intros q Hq. rewrite !elem_node_pages. subst n'. cbn. rewrite filter_ne_elem. tauto. }
  assert (Hgone : pg ∉ node_pages n').
  { rewrite elem_node_pages. subst n'. cbn. rewrite filter_ne_elem. intros [[? _]|[?|[? _]]]; done. }
  assert (Hok : ps_ok (src (st x)) (pg :: node_pages n' ++ rest x)).
  { eapply ps_perm; [|apply (sv_src _ _ _ Hi)]. rewrite app_comm_cons. apply Permutation_app_tail. subst n'. unfold node_pages. cbn.
    rewrite (filter_ne_perm pg (partial_list (node x))) at 1 by done. by rewrite !Permutation_middle. }
  destruct (ps_put_ok _ _ _ Hok) as (p' & Ep & Hno & Hok'). exists n', p'. split; [done|]. split; [done|].
  eapply (sinv_update x _ c l pg _ _ Hi); cbn [node st held rest]; try done.
  - intros q Hq Hin. by apply (freed_others x c l item q).
  - cbn. intros q Hq. right. split; [|done]. intros ->. done.
  - cbn. intros q [? ?]%filter_ne_elem. by right.
  - intros y. rewrite (held_free x c l item (node_pages (node x)) Hi Hh Hpg y). fold pg. split; [|tauto].
    intros [?|(_ & Hy & Hny)]; [by left|]. exfalso. apply Hny. apply (all_free (node x) (freed_page item (st x)) pg (c pg) (item :: l pg)); [|done|cbn [length]; lia|done].
    by apply (freed_page_inv x c l).
  - apply list.NoDup_filter, (sv_nodup _ _ _ Hi).
Qed.

Lemma free_keeps x c l item : sinv x c l -> item ∈ held x ->
  exists n' s' c' l', slab_node_free (node x) item (st x) = Ok (n', s') /\ sinv (Snst n' s' (filter (fun z => z <> item) (held x)) (rest x)) c' l'.
Proof.
  intros Hi Hh. unfold slab_node_free. fold (freed_page item (st x)). destruct (held_page x c l item Hi Hh) as (Hpg & _). assert (Hnr := nr_8 x c l Hi).
  assert (Hpi := sv_page _ _ _ Hi _ Hpg). assert (Hc := fun E => page_count _ _ _ _ _ Hpi E ltac:(lia)). destruct (places x c l Hi) as (_ & _ & Hd1 & Hd2).
  destruct (Z.eqb_spec (ps_page item) (cur_pg (node x))) as [Ec|Ec].
  { do 4 eexists. split; [done|]. apply (free_stays x c l item Hi Hh); intros Hq; [by destruct (Hd1 _ Hq)|by destruct (Hd2 _ Hq)]. }
  destruct (Z.eqb_spec (item_count (get_sp (ps_page item) (st x)) + 1) SLAB_PARTIAL_THRESH) as [Et|Et].
  { destruct (free_to_partial x c l item Hi Hh Ec Et) as (n' & -> & Hi'). cbn [mbind res_bind]. eauto 10. }
  destruct (Z.eqb_spec (item_count (get_sp (ps_page item) (st x)) + 1) (nr_elems (node x))) as [En|En].
  { destruct (free_page x c l item Hi Hh Ec En) as (n' & p' & -> & Ep & Hi'). cbn [mbind res_bind]. change (src (freed_page item (st x))) with (src (st x)). rewrite Ep. cbn [mbind res_bind].
    do 4 eexists. split; [done|]. apply (sinv_nr_pages _ _ _ _ Hi'). }
  do 4 eexists. split; [done|]. apply (free_stays x c l item Hi Hh); intros Hq.
  - destruct (sv_full _ _ _ Hi _ Hq) as [Ea ?]. rewrite (Hc Ea) in *. lia.
  - destruct (sv_partial _ _ _ Hi _ Hq) as [Ea ?]. rewrite (Hc Ea) in *. lia.
Qed.

(** ** All steps *)

Lemma words_keep x c l s : sinv x c l -> src s = src (st x) -> (forall q, q ∈ node_pages (node x) -> get_sp q s = get_sp q (st x)) ->
  (forall q y, q ∈ node_pages (node x) -> y ∈ l q -> words s !! y = words (st x) !! y) -> sinv (Snst (node x) s (held x) (rest x)) c l.
Proof.
  intros [] Es Hg Hw. split; cbn [node st held rest]; rewrite ?Es; try done.
  intros q Hq. apply (page_frame (node x) _ (st x)); [done|auto|intros y; by apply Hw|auto].
Qed.

Lemma sstep_keeps a x c l : sinv x c l ->
  match sstep me a x with Some r => exists x' c' l', r = Ok x' /\ sinv x' c' l' | None => True end.
Proof.
  intros Hi. destruct a as [|item|a v|pg v]; cbn.
  - destruct (alloc_keeps x c l Hi) as (item & n' & s' & c' & l' & -> & Hi' & _). cbn. eauto 10.
  - case_bool_decide as Hh; [|done]. destruct (free_keeps x c l item Hi Hh) as (n' & s' & c' & l' & -> & Hi'). cbn. eauto 10.
  - destruct (bool_decide (a ∈ held x) || negb (bool_decide (ps_page a ∈ node_pages (node x)))) eqn:E; [|done]. do 3 eexists. split; [done|].
    apply (words_keep x c l); try done. intros q y Hq Hy. cbn. rewrite lookup_insert_ne; [done|]. intros ->.
    destruct (sv_page _ _ _ Hi q Hq) as [V1 V2 V3 V4 V5 V6 V7]. destruct (slots_page (node x) q (c q) y (sv_params _ _ _ Hi) V1 V5 (V7 _ Hy)) as (Ep & _).
    rewrite Ep, (bool_decide_eq_true_2 (q ∈ node_pages (node x))) in E by done. rewrite orb_false_r in E. apply bool_decide_eq_true in E.
    destruct (held_page x c l y Hi E) as (_ & _ & F & _). by rewrite Ep in F.
  - case_bool_decide as Hr; [|done]. do 3 eexists. split; [done|]. apply (words_keep x c l); try done. intros q Hq. apply get_put_ne. intros ->.
    assert (Hn := ps_nodup _ _ (sv_src _ _ _ Hi)). apply list.NoDup_app in Hn as (_ & Hn & _). by apply (Hn pg).
Qed.

Lemma sinv_src x c l p r : sinv x c l -> ps_nodes p = ps_nodes (src (st x)) -> ps_ok p (node_pages (node x) ++ r) ->
  sinv (Snst (node x) (set_src p (st x)) (held x) r) c l.
Proof.
  intros [] Hno Hok. split; cbn [node st held rest]; try done; [cbn; by rewrite Hno|]. intros q Hq. by apply (page_frame (node x) _ (st x)); auto.
Qed.

(** A node that [__slab_create_node] made. *)
Definition fresh (x : snst P) : Prop :=
  exists k size offset flags nr, node x = __slab_create_node k size offset flags nr /\ params_ok (node x) /\ (k < ps_nodes (src (st x)))%nat /\
    held x = [] /\ ps_ok (src (st x)) (rest x).

Lemma fresh_sinv x : fresh x -> sinv x (fun _ => 0%nat) (fun _ => []).
Proof.
  intros (k & sz & off & f & nr & En & Hp & Hk & Hh & Hok). split; rewrite ?Hh, ?En in *; cbn; try done.
  - intros pg Hpg. by apply elem_of_nil in Hpg.
  - intros pg Hpg. by apply elem_of_nil in Hpg.
  - intros pg Hpg. by apply elem_of_nil in Hpg.
  - intros y. rewrite elem_of_nil. split; [done|]. intros (pg & Hpg & _). by apply elem_of_nil in Hpg.
  - apply base.NoDup_nil_2.
Qed.

Lemma sreach_sinv x0 x : fresh x0 -> sreach me x0 x -> exists c l, sinv x c l.
Proof.
  intros Hf. induction 1 as [|a x x' _ (c & l & Hi) E|x p r _ (c & l & Hi) Hno Hok]; [eauto using fresh_sinv| |].
  - assert (F := sstep_keeps a x c l Hi). rewrite E in F. by destruct F as (x'' & c' & l' & [= <-] & ?); eauto.
  - exists c, l. by apply sinv_src.
Qed.

(** Different items do not overlap. *)
Lemma items_disjoint x c l y z : sinv x c l -> y ∈ held x -> z ∈ held x -> y <> z -> y + size (node x) <= z \/ z + size (node x) <= y.
Proof.
  intros Hi Hy Hz Hne. destruct (held_page x c l y Hi Hy) as (Hp1 & (i & Hi1 & E1)%slots_elem & _). destruct (held_page x c l z Hi Hz) as (Hp2 & (j & Hj & E2)%slots_elem & _).
  assert (Hpar := sv_params _ _ _ Hi). destruct (sv_page _ _ _ Hi _ Hp1). destruct (sv_page _ _ _ Hi _ Hp2).
  destruct (slot_off (node x) i Hpar) as [A1 A2]; [lia|]. destruct (slot_off (node x) j Hpar) as [B1 B2]; [lia|].
  destruct (decide (ps_page y = ps_page z)) as [E|E].
  - rewrite E in E1. unfold slot in E1, E2. destruct Hpar. destruct (decide (i = j)) as [->|]; [congruence|]. nia.
  - destruct (decide (y + size (node x) <= z)); [by left|]. destruct (decide (z + size (node x) <= y)); [by right|]. exfalso. apply E.
    assert (G1 := fun off Ho => proj1 (ps_geom _ _ off pv_valid0 Ho)). assert (G2 := fun off Ho => proj1 (ps_geom _ _ off pv_valid1 Ho)).
    destruct (Z.max_spec y z) as [[? Em]|[? Em]]; unfold slot in E1, E2.
    + rewrite <- (G1 (z - ps_addr (ps_page y))) by lia. f_equal. lia.
    + rewrite <- (G2 (y - ps_addr (ps_page z))) by lia. f_equal. lia.
Qed.

(** A page that is not the current one has an allocated item. *)
Lemma pages_used x c l pg : sinv x c l -> pg ∈ full_list (node x) \/ pg ∈ partial_list (node x) -> exists y, y ∈ held x /\ ps_page y = pg.
Proof.
  intros Hi Hpg. assert (Hin : pg ∈ node_pages (node x)) by (apply elem_node_pages; tauto). assert (Hpi := sv_page _ _ _ Hi pg Hin). assert (Hnr := nr_8 x c l Hi).
  assert (Hl : c pg = all (node x) /\ Z.of_nat (length (l pg)) < nr_elems (node x)).
  { destruct Hpg as [Hq|Hq]; [destruct (sv_full _ _ _ Hi pg Hq) as [-> ?]|destruct (sv_partial _ _ _ Hi pg Hq) as [-> ?]]; change SLAB_PARTIAL_THRESH with 4 in *; split; lia. }
  destruct Hl as [Ea Hl]. destruct Hpi as [V1 V2 V3 V4 V5 V6 V7].
  destruct (decide (Forall (fun y => y ∈ l pg) (slots (node x) pg (c pg)))) as [Hall|Hex].
  - exfalso. assert (Hsub : slots (node x) pg (c pg) ⊆+ l pg).
    { apply NoDup_submseteq; [|intros y Hy; exact (proj1 (list.Forall_forall _ _) Hall y Hy)]. apply NoDup_fmap_2_strong; [|apply NoDup_seq]. intros i j _ _. apply item_inj, (sv_params _ _ _ Hi). }
    apply submseteq_length in Hsub. revert Hsub. rewrite Ea. unfold slots, all. rewrite length_fmap, length_seq. lia.
  - apply not_Forall_Exists in Hex; [|intros y; apply _]. apply list.Exists_exists in Hex as (y & Hy & Hn). exists y.
    split; [apply (sv_held _ _ _ Hi); exists pg; split_and!; [done|done|exact Hn]|]. by destruct (slots_page (node x) pg (c pg) y (sv_params _ _ _ Hi) V1 V5 Hy) as (? & _).
Qed.

Lemma sinv_held x c l h : sinv x c l -> held x ≡ₚ h -> sinv (Snst (node x) (st x) h (rest x)) c l.
Proof. intros [] Hp. split; cbn [node st held rest]; try done; [intros y; by rewrite <- Hp|by rewrite <- Hp]. Qed.

(** The parameters of a node never change. *)
Lemma get_page_params n s pg n' s' : __slab_node_get_page me n s = Ok (pg, n', s') -> same_params n n'.
Proof.
  unfold __slab_node_get_page. destruct (partial_list n); [|by intros [= <- <- <-]]. intros ([r p] & _ & E)%res_bind_ok. by destruct r; injection E as <- <- <-.
Qed.

Lemma alloc_params n s item n' s' : __slab_node_alloc me n s = Ok (item, n', s') -> same_params n n'.
Proof.
  unfold __slab_node_alloc. intros ([n1 s1] & E1 & E2)%res_bind_ok. assert (H1 : same_params n n1).
  { revert E1. unfold ensure_page. destruct (_ || _); [|by intros [= <- <-]]. intros ([[pg n2] s2] & E & [= <- <-])%res_bind_ok.
    apply get_page_params in E. destruct (cur_pg n =? NULL), (pg =? NULL); done. }
  assert (H2 : same_params n1 n'); [|unfold same_params in *; intuition congruence].
  destruct (cur_pg n1 =? NULL); [by injection E2 as <- <- <-|]. revert E2. unfold take_item. destruct (negb _); [by intros [= <- <- <-]|].
  by intros ([] & _ & [= <- <- <-])%res_bind_ok.
Qed.

Lemma free_params n item s n' s' : slab_node_free n item s = Ok (n', s') -> same_params n n'.
Proof.
  unfold slab_node_free, unlink. repeat case_match; cbn [mbind res_bind]; try (by intros [= <- <-]); try done; by intros (p & _ & [= <- <-])%res_bind_ok.
Qed.
End inv.
