(* ===== verification/SlabSrc.v ===== *)
(** * Sources of pages

    Large pages come from the page allocator; small pages from the slab of small pages,
    a slab over large pages.  Both keep the laws of [PageSource]. *)

From S2P Require Import Prelude Stddef Tcache Page Slab SlabInv.

Lemma has_lor f a b : has f (Z.lor a b) = has f a || has f b.
Proof.
  unfold has. rewrite Z.land_lor_distr_l. destruct (Z.eqb_spec (Z.land a f) 0) as [->|Ha]; cbn [negb orb]; [by rewrite Z.lor_0_l|].
  apply negb_true_iff, Z.eqb_neq. intros [E _]%Z.lor_eq_0_iff. done.
Qed.

Section lg.
Context (page_tbl : Z) (Htbl : 0 < page_tbl) (Hend : page_tbl + sizeof_page * (NNUMA * LGPAGE_META_ENTS) <= PAGE_BASE_ADDR).

(** [page_alloc_on_node] for large pages. *)
Definition lg_alloc (pgsize : Z) (k : nat) (s : lgst) : res (option Z * lgst) :=
  if pgsize =? PGSIZE_2MB then lgpage_alloc_on_node k s else Ok (None, s).
Definition lg_or_flags (pg f : Z) (s : lgst) : lgst :=
  let v := get_page pg s in put_page pg (Page (Z.lor (flags v) f) (ref v) (paddr v)) s.
(** Structs of small pages that are in the range become zero. *)
Definition lg_memset (a n : Z) (s : lgst) : lgst :=
  Lgst (filter (fun kv => ~ (a <= kv.1 < a + n)) (structs s)) (lgpage_nodes s) (os s).

(** Page [g] of the table belongs to node [i], which has handed out [idx] pages so far. *)
Definition in_node (i : nat) (nd : lgpage_node) (q : Z) : Prop :=
  exists g, q = elem page_tbl g /\ Z.of_nat i * LGPAGE_META_ENTS <= g < Z.of_nat i * LGPAGE_META_ENTS + idx nd.
Definition tbl_ok (i : nat) (nd : lgpage_node) : Prop :=
  tbl nd = page_tbl + Z.of_nat i * LGPAGE_META_LEN /\ 0 <= idx nd <= LGPAGE_META_ENTS /\ forall q, q ∈ pages nd -> in_node i nd q.
Definition in_table (q : Z) : Prop := exists g, q = elem page_tbl g /\ 0 <= g < NNUMA * LGPAGE_META_ENTS.

Record lg_ok (s : lgst) (L : list Z) : Prop := {
  lo_len : Z.of_nat (length (lgpage_nodes s)) <= NNUMA;
  lo_nodes : forall i nd, lgpage_nodes s !! i = Some nd -> tbl_ok i nd;
  lo_nodup : NoDup (L ++ concat (pages <$> lgpage_nodes s));
  lo_owned : forall q, q ∈ L -> exists i nd, lgpage_nodes s !! i = Some nd /\ in_node i nd q /\ has PAGE_FLAG_LARGE (flags (get_page q s)) = true /\ ref (get_page q s) = 1;
  lo_free : forall q, in_table q -> q ∉ L -> has PAGE_FLAG_IN_USE (flags (get_page q s)) = false;
}.

Definition lg_valid (k : nat) (q : Z) : Prop :=
  exists g, q = elem page_tbl g /\ Z.of_nat k * LGPAGE_META_ENTS <= g < (Z.of_nat k + 1) * LGPAGE_META_ENTS.

Ltac nums := change LGPAGE_META_ENTS with 32768 in *; change LGPAGE_META_LEN with 2097152 in *; change NNUMA with 4 in *; change sizeof_page with 64 in *.

Lemma elem_inj g h : elem page_tbl g = elem page_tbl h -> g = h.
Proof. unfold elem, sizeof_page. lia. Qed.

Lemma node_range s L i nd g : lg_ok s L -> lgpage_nodes s !! i = Some nd -> Z.of_nat i * LGPAGE_META_ENTS <= g < Z.of_nat i * LGPAGE_META_ENTS + LGPAGE_META_ENTS ->
  in_table (elem page_tbl g).
Proof. intros [] Hi Hg. exists g. split; [done|]. apply lookup_lt_Some in Hi. nums. lia. Qed.

Lemma in_node_table s L i nd q : lg_ok s L -> lgpage_nodes s !! i = Some nd -> in_node i nd q -> in_table q.
Proof. intros Hl Hi (g & -> & Hg). apply (node_range s L i nd); [done..|]. destruct (lo_nodes _ _ Hl i nd Hi) as (_ & ? & _). lia. Qed.

Lemma get_put_page_eq q v s : get_page q (put_page q v s) = v.
Proof. unfold get_page, put_page. cbn. by rewrite lookup_insert_eq. Qed.
Lemma get_put_page_ne q r v s : r <> q -> get_page r (put_page q v s) = get_page r s.
Proof. intros. unfold get_page, put_page. cbn. by rewrite lookup_insert_ne. Qed.

(** A page whose struct changes so that its flags keep their meaning. *)
Lemma put_page_ok q v s L : lg_ok s L ->
  (q ∈ L -> has PAGE_FLAG_LARGE (flags v) = true /\ ref v = 1) -> (in_table q -> q ∉ L -> has PAGE_FLAG_IN_USE (flags v) = false) -> lg_ok (put_page q v s) L.
Proof.
  intros [L1 L2 L3 L4 L5] H1 H2. split; try done.
  - intros r Hr. destruct (L4 r Hr) as (i & nd & Hi & Hn & Hf). exists i, nd. split_and!; [done..| |]; (destruct (decide (r = q)) as [->|]; [rewrite get_put_page_eq; by apply H1|rewrite get_put_page_ne; tauto]).
  - intros r Ht Hr. destruct (decide (r = q)) as [->|]; [rewrite get_put_page_eq; auto|rewrite get_put_page_ne; auto].
Qed.

Lemma concat_insert (i : nat) (nd nd' : lgpage_node) l : l !! i = Some nd ->
  exists r, concat (pages <$> l) ≡ₚ pages nd ++ r /\ concat (pages <$> <[i := nd']> l) ≡ₚ pages nd' ++ r.
Proof.
  intros Hi. apply list_elem_of_split_length in Hi as (l1 & l2 & -> & ->). exists (concat (pages <$> l1) ++ concat (pages <$> l2)).
  rewrite insert_middle, !fmap_app, !concat_app. cbn. split; solve_Permutation.
Qed.

Lemma create_nodes pg s : lgpage_nodes (lgpage_create pg s).2 = lgpage_nodes s.
Proof. unfold lgpage_create, next_answer. destruct (os s) as [|[]]; done. Qed.

Lemma lg_ok_os s L o : lg_ok s L -> lg_ok (Lgst (structs s) (lgpage_nodes s) o) L.
Proof. by intros []. Qed.

(** A page is taken from a node. *)
Lemma take_page s L i nd pg nd' : lg_ok s L -> lgpage_nodes s !! i = Some nd -> tbl_ok i nd' -> idx nd <= idx nd' ->
  in_node i nd' pg -> pg ∉ L ++ concat (pages <$> <[i := nd']> (lgpage_nodes s)) ->
  (exists r, concat (pages <$> lgpage_nodes s) ≡ₚ r ++ concat (pages <$> <[i := nd']> (lgpage_nodes s))) ->
  lg_ok (put_node i nd' s) L.
Proof.
  intros [L1 L2 L3 L4 L5] Hi Ht Hidx Hpg Hn (r & Hr). split; cbn [lgpage_nodes put_node].
  - by rewrite length_insert.
  - intros j x. rewrite list_lookup_insert_Some. intros [(<- & <- & _)|[_ ?]]; [done|by apply L2].
  - rewrite Hr in L3. apply list.NoDup_app in L3 as (N1 & N2 & N3). apply list.NoDup_app in N3 as (_ & _ & N3). apply list.NoDup_app. split_and!; [done| |done].
    intros q Hq Hq'. apply (N2 q Hq), elem_of_app. by right.
  - intros q Hq. destruct (L4 q Hq) as (j & x & Hj & (g & -> & Hg) & Hf). destruct (decide (j = i)) as [->|].
    + rewrite Hi in Hj. injection Hj as <-. exists i, nd'. rewrite list_lookup_insert_eq by (by eapply lookup_lt_Some). split_and!; [done| |apply Hf..]. exists g. split; [done|lia].
    + exists j, x. rewrite list_lookup_insert_ne by done. split_and!; [done|by exists g|apply Hf..].
  - done.
Qed.

Lemma create_ok s L i nd pg : lg_ok s L -> lgpage_nodes s !! i = Some nd -> in_node i nd pg -> pg ∉ L ++ concat (pages <$> lgpage_nodes s) ->
  let '(ret, s') := lgpage_create pg s in lg_ok s' (if ret =? 0 then pg :: L else L) /\ length (lgpage_nodes s') = length (lgpage_nodes s).
Proof.
  intros Hl Hi Hin Hn. unfold lgpage_create, next_answer. destruct (os s) as [|[|err|pa] o]; try (split; [|done]; apply (lg_ok_os s L _ Hl)); [by split|].
  split; [|done]. cbn [Z.eqb]. assert (Ht := in_node_table s L i nd pg Hl Hi Hin). apply not_elem_of_app in Hn as [Hn1 Hn2]. destruct Hl as [L1 L2 L3 L4 L5]. split; try done; cbn [lgpage_nodes put_page].
  - cbn. apply list.NoDup_cons. split; [|done]. by apply not_elem_of_app.
  - intros q [->|Hq]%elem_of_cons; [exists i, nd; rewrite get_put_page_eq; done|]. rewrite get_put_page_ne by (intros ->; done). by apply L4.
  - intros q Hq Hnq. rewrite not_elem_of_cons in Hnq. rewrite get_put_page_ne by tauto. apply L5; tauto.
Qed.

(** The page a node gives: from its list, or the next of its table. *)
Definition take_from (nd : lgpage_node) : option (Z * lgpage_node) :=
  match pages nd with
  | pg :: l => Some (pg, LgNode (idx nd) (tbl nd) l)
  | [] => if idx nd >=? LGPAGE_META_ENTS then None else Some (elem (tbl nd) (idx nd), LgNode (idx nd + 1) (tbl nd) [])
  end.

Lemma take_from_ok s L k nd pg nd' : lg_ok s L -> lgpage_nodes s !! k = Some nd -> take_from nd = Some (pg, nd') ->
  tbl_ok k nd' /\ idx nd <= idx nd' /\ in_node k nd' pg /\ (pg ∉ L ++ concat (pages <$> <[k := nd']> (lgpage_nodes s))) /\
  exists r, concat (pages <$> lgpage_nodes s) ≡ₚ r ++ concat (pages <$> <[k := nd']> (lgpage_nodes s)).
Proof.
  intros Hl Hnd. unfold take_from. destruct (lo_nodes _ _ Hl k nd Hnd) as (T1 & T2 & T3). assert (Hn := lo_nodup _ _ Hl). destruct (pages nd) as [|pg' l] eqn:Ep.
  - destruct (Z.geb_spec (idx nd) LGPAGE_META_ENTS) as [|Hlt]; [done|]. intros [= <- <-]. set (nd' := LgNode _ _ _).
    destruct (concat_insert k nd nd' _ Hnd) as (r & R1 & R2). rewrite Ep in R1. cbn in R1, R2. rewrite T1.
    assert (Ee : elem (page_tbl + Z.of_nat k * LGPAGE_META_LEN) (idx nd) = elem page_tbl (Z.of_nat k * LGPAGE_META_ENTS + idx nd)) by (unfold elem; nums; lia). rewrite Ee.
    assert (Hin : in_node k nd' (elem page_tbl (Z.of_nat k * LGPAGE_META_ENTS + idx nd))) by (eexists; split; [done|]; cbn; lia).
    assert (Hlater : forall j x, lgpage_nodes s !! j = Some x -> ~ in_node j x (elem page_tbl (Z.of_nat k * LGPAGE_META_ENTS + idx nd))).
    { intros j x Hj (g & Eg & Hg). apply elem_inj in Eg. subst g. destruct (lo_nodes _ _ Hl j x Hj) as (_ & ? & _).
      assert (j = k) as -> by (nums; lia). rewrite Hnd in Hj. injection Hj as <-. lia. }
    split_and!; [|cbn; lia|done| |exists []; cbn; by rewrite R1, R2].
    + split_and!; cbn; [done|lia..|]. intros q Hq. by apply elem_of_nil in Hq.
    + rewrite R2, <- R1, not_elem_of_app. split.
      * intros Hq. destruct (lo_owned _ _ Hl _ Hq) as (j & x & Hj & Hg & _). by apply (Hlater j x).
      * intros (l & Hq & Hl')%elem_of_concat. apply list_elem_of_fmap in Hl' as (x & -> & Hx). apply list_elem_of_lookup_1 in Hx as (j & Hj).
        destruct (lo_nodes _ _ Hl j x Hj) as (_ & ? & T3'). by apply (Hlater j x Hj), T3'.
  - intros [= <- <-]. set (nd' := LgNode _ _ _). destruct (concat_insert k nd nd' _ Hnd) as (r & R1 & R2). rewrite Ep in R1. cbn [pages nd'] in R2.
    split_and!; [|cbn; lia|apply T3; left| |exists [pg']; rewrite R1, R2; done].
    + split_and!; cbn; [done|lia..|]. intros q Hq. apply T3. by right.
    + rewrite R2. rewrite R1 in Hn. cbn in Hn. rewrite <- Permutation_middle in Hn. by apply list.NoDup_cons in Hn as [? _].
Qed.

Lemma lg_alloc_ok k s L : lg_ok s L -> (k < length (lgpage_nodes s))%nat ->
  exists r s', lg_alloc PGSIZE_2MB k s = Ok (r, s') /\ length (lgpage_nodes s') = length (lgpage_nodes s) /\
    match r with Some q => (q ∉ L) /\ lg_valid k q /\ lg_ok s' (q :: L) | None => lg_ok s' L end.
Proof.
  intros Hl Hk. destruct (lookup_lt_is_Some_2 _ _ Hk) as [nd Hnd]. unfold lg_alloc. change (PGSIZE_2MB =? PGSIZE_2MB) with true. unfold lgpage_alloc_on_node. rewrite Hnd.
  fold (take_from nd). destruct (take_from nd) as [[pg nd']|] eqn:Et; [|exists None, s; done]. destruct (take_from_ok s L k nd pg nd' Hl Hnd Et) as (T1 & T2 & T3 & T4 & T5).
  assert (Hl' := take_page s L k nd pg nd' Hl Hnd T1 T2 T3 T4 T5). set (s1 := put_node k nd' s) in *.
  assert (Hnd' : lgpage_nodes s1 !! k = Some nd') by (cbn; by apply list_lookup_insert_eq).
  assert (Hin := in_node_table s1 L k nd' pg Hl' Hnd' T3). assert (T4' := T4). apply not_elem_of_app in T4' as [Hn _].
  rewrite (lo_free _ _ Hl' pg Hin Hn). cbn [BUG_ON mbind res_bind].
  assert (Hc := create_ok s1 L k nd' pg Hl' Hnd' T3 T4). destruct (lgpage_create pg s1) as [ret s2]. destruct Hc as [Hc1 Hc2]. cbn in Hc2. rewrite length_insert in Hc2.
  destruct (Z.eqb_spec ret 0); cbn [negb]; do 2 eexists; (split; [done|]); (split; [done|]); [|done]. split_and!; [done| |done].
  destruct T3 as (g & -> & Hg). exists g. split; [done|]. destruct T1 as (_ & ? & _). lia.
Qed.

Lemma lg_put_ok q s L : lg_ok s (q :: L) -> exists s', lgpage_put page_tbl q s = Ok s' /\ length (lgpage_nodes s') = length (lgpage_nodes s) /\ lg_ok s' L.
Proof.
  intros Hl. destruct (lo_owned _ _ Hl q ltac:(left)) as (i & nd & Hi & Hin & Hf & Hr). unfold lgpage_put. rewrite Hr. change (1 - 1) with 0. change (0 =? 0) with true.
  unfold page_to_size. rewrite Hf. change (negb (PGSIZE_2MB =? PGSIZE_2MB)) with false. cbn [BUG_ON mbind res_bind]. unfold lgpage_free.
  assert (Hin' := Hin). destruct Hin' as (g & -> & Hg). destruct (lo_nodes _ _ Hl i nd Hi) as (T1 & T2 & T3).
  assert (En : Z.to_nat (addr_to_numa_node (lgpage_to_addr page_tbl (elem page_tbl g))) = i).
  { rewrite lgpage_addr, <- (Z.add_0_r (lg_addr g)), numa_of by (by vm_compute). nums. Z.to_euclidean_division_equations; lia. }
  rewrite En. cbn [lgpage_nodes put_page]. rewrite Hi. eexists. split; [done|]. cbn [lgpage_nodes put_node lgpage_destroy put_page]. rewrite length_insert. split; [done|].
  set (q := elem page_tbl g) in *. set (nd' := LgNode _ _ _). destruct (concat_insert i nd nd' _ Hi) as (r & R1 & R2).
  destruct Hl as [L1 L2 L3 L4 L5]. cbn in L3. apply list.NoDup_cons in L3 as [L3 L3'].
  assert (Hg0 : get_page q (put_node i nd' (lgpage_destroy q (put_page q (Page (flags (get_page q s)) 0 (paddr (get_page q s))) s))) = Page 0 0 0).
  { unfold lgpage_destroy. rewrite get_put_page_eq. cbn [ref]. unfold get_page. cbn. by rewrite lookup_insert_eq. }
  assert (Hgn : forall x, x <> q -> get_page x (put_node i nd' (lgpage_destroy q (put_page q (Page (flags (get_page q s)) 0 (paddr (get_page q s))) s))) = get_page x s).
  { intros x Hx. unfold get_page, lgpage_destroy, put_page. cbn. by rewrite !lookup_insert_ne. }
  split; cbn [lgpage_nodes put_node lgpage_destroy put_page].
  - by rewrite length_insert.
  - intros j x. rewrite list_lookup_insert_Some. intros [(<- & <- & _)|[_ ?]]; [|by apply L2]. split_and!; cbn; [done|lia..|]. intros y [->|Hy]%elem_of_cons; [done|by apply T3].
  - rewrite R2. cbn. rewrite <- Permutation_middle, <- R1. by apply list.NoDup_cons.
  - intros x Hx. rewrite Hgn by (intros ->; apply L3, elem_of_app; by left). destruct (L4 x ltac:(by right)) as (j & y & Hj & Hy & Hf'). destruct (decide (j = i)) as [->|].
    + rewrite Hi in Hj. injection Hj as <-. exists i, nd'. rewrite list_lookup_insert_eq by (by eapply lookup_lt_Some). done.
    + exists j, y. by rewrite list_lookup_insert_ne.
  - intros x Hx Hn. destruct (decide (x = q)) as [->|]; [by rewrite Hg0|]. rewrite Hgn by done. apply L5; [done|]. by apply not_elem_of_cons.
Qed.

Lemma lg_flags_ok q f s L : f = PAGE_FLAG_SLAB \/ f = PAGE_FLAG_SHATTERED -> q ∈ L -> lg_ok s L -> lg_ok (lg_or_flags q f s) L.
Proof.
  intros Hf Hq Hl. apply put_page_ok; [done| |by intros _ ?]. intros _. destruct (lo_owned _ _ Hl q Hq) as (i & nd & _ & _ & H1 & H2). cbn. by rewrite has_lor, H1.
Qed.

Lemma lg_memset_ok a n s L : PAGE_BASE_ADDR <= a -> lg_ok s L -> lg_ok (lg_memset a n s) L.
Proof.
  intros Ha Hl. assert (Hg : forall q, in_table q -> get_page q (lg_memset a n s) = get_page q s).
  { intros q (g & -> & Hgq). unfold get_page, lg_memset. cbn. rewrite map_lookup_filter. destruct (structs s !! elem page_tbl g) as [v|]; [|done]. cbn.
    rewrite option_guard_True; [done|]. cbn. unfold elem in *. nums. lia. }
  destruct Hl as [L1 L2 L3 L4 L5]. split; try done.
  - intros q Hq. destruct (L4 q Hq) as (i & nd & Hi & Hin & Hf). exists i, nd. rewrite Hg; [done|]. by apply (in_node_table s L i nd).
  - intros q Ht Hq. rewrite Hg by done. by apply L5.
Qed.

Lemma lg_valid_pos k q : lg_valid k q -> 0 < q /\ 0 < lgpage_to_addr page_tbl q /\ PAGE_BASE_ADDR <= lgpage_to_addr page_tbl q.
Proof. intros (g & -> & Hg). rewrite lgpage_addr. unfold elem, lg_addr, PAGE_BASE_ADDR, PGSIZE_2MB. nums. lia. Qed.

(** Large pages. *)
#[export] Program Instance LgPages : PageSource lgst := {
  ps_size := PGSIZE_2MB;
  page_alloc_on_node := lg_alloc;
  page_put := lgpage_put page_tbl;
  page_or_flags := lg_or_flags;
  page_memset := lg_memset;
  ps_addr := lgpage_to_addr page_tbl;
  ps_page := addr_to_lgpage page_tbl;
  ps_nodes := fun s => length (lgpage_nodes s);
  ps_ok := lg_ok;
  ps_valid := lg_valid;
}.
Next Obligation. intros s L []. by apply list.NoDup_app in lo_nodup0 as [? _]. Qed.
Next Obligation.
  intros s L L' Hp [L1 L2 L3 L4 L5]. split; try done; [by rewrite <- Hp|intros q; rewrite <- Hp; apply L4|intros q Ht; rewrite <- Hp; by apply L5].
Qed.
Next Obligation. exact lg_alloc_ok. Qed.
Next Obligation. exact lg_put_ok. Qed.
Next Obligation. intros q f s L Hf Hq Hl. split; [by apply lg_flags_ok|done]. Qed.
Next Obligation. intros k q n s L Hq Hv Hn Hl. split; [|done]. apply lg_memset_ok; [|done]. by apply (lg_valid_pos k). Qed.
Next Obligation.
  intros k q off (g & -> & Hg) Ho. rewrite lgpage_addr, lgpage_of, numa_of by done. split; [done|]. nums. Z.to_euclidean_division_equations; lia.
Qed.
Next Obligation. intros k q Hv. destruct (lg_valid_pos k q Hv) as (? & ? & _). done. Qed.

(** ** Small pages

    The slab of small pages, its nodes at [me], and its state.  The thread-local cache in
    front of it is not here: what it holds are allocated items of the slab. *)

Context (me : nat -> Z).

Record smst := Smst { sm_nodes : list slab_node; sm_st : sst lgst }.

Definition sm_struct (pg : Z) (s : smst) : page := get_page pg (src (sm_st s)).
Definition put_struct (pg : Z) (v : page) (s : sst lgst) : sst lgst := set_src (put_page pg v (src s)) s.

Definition smpage_alloc_on_node (k : nat) (s : smst) : res (option Z * smst) :=
  '(addr, ns, st) ← slab_alloc_on_node me k (sm_nodes s) (sm_st s);
  if addr =? NULL then Ok (None, Smst ns st)
  else
    let pg := addr_to_smpage addr in
    Ok (Some pg, Smst ns (put_struct pg (Page PAGE_FLAG_IN_USE 1 (addr_to_pa page_tbl addr (src st))) st)).

Definition smpage_free (pg : Z) (s : smst) : res smst :=
  let addr := smpage_to_addr pg in
  _ ← BUG_ON (negb (addr_to_numa_node addr <? NNUMA));
  let v := sm_struct pg s in
  '(ns, st) ← slab_free addr (sm_nodes s) (put_struct pg (Page 0 (ref v) (paddr v)) (sm_st s));
  Ok (Smst ns st).

(** [page_alloc_on_node] and [page_put] for small pages. *)
Definition sm_alloc (pgsize : Z) (k : nat) (s : smst) : res (option Z * smst) :=
  if pgsize =? PGSIZE_4KB then smpage_alloc_on_node k s else Ok (None, s).
Definition sm_put (pg : Z) (s : smst) : res smst :=
  let v := sm_struct pg s in
  let s := Smst (sm_nodes s) (put_struct pg (Page (flags v) (ref v - 1) (paddr v)) (sm_st s)) in
  if ref v - 1 =? 0 then _ ← BUG_ON (negb (page_to_size v =? PGSIZE_4KB)); smpage_free pg s else Ok s.
Definition sm_or_flags (pg f : Z) (s : smst) : smst :=
  let v := sm_struct pg s in Smst (sm_nodes s) (put_struct pg (Page (Z.lor (flags v) f) (ref v) (paddr v)) (sm_st s)).
Definition sm_memset (a n : Z) (s : smst) : smst := Smst (sm_nodes s) (set_src (lg_memset a n (src (sm_st s))) (sm_st s)).

Definition sm_valid (k : nat) (q : Z) : Prop :=
  exists g j, q = sm_ptr g j /\ 8 <= j < 512 /\ Z.of_nat k * LGPAGE_META_ENTS <= g < (Z.of_nat k + 1) * LGPAGE_META_ENTS.

(** The machine has one NUMA node. *)
Definition sm_ok (s : smst) (L : list Z) : Prop :=
  exists n c l R, sm_nodes s = [n] /\ same_params (smpage_slab_node 0) n /\ sinv (me 0) (Snst n (sm_st s) (smpage_to_addr <$> L) R) c l /\
    forall q, q ∈ L -> sm_valid 0 q /\ has PAGE_FLAG_LARGE (flags (sm_struct q s)) = false /\ ref (sm_struct q s) = 1.

(** A struct in the pages is not in the table. *)
Lemma sm_not_table g j : 0 <= g -> 0 <= j -> ~ in_table (sm_ptr g j).
Proof. intros Hg Hj (h & E & Hh). unfold sm_ptr, elem, lg_addr, PGSIZE_2MB in E. nums. lia. Qed.

Lemma sm_valid_addr k q : sm_valid k q -> exists g j, q = sm_ptr g j /\ smpage_to_addr q = sm_addr g j /\ 0 <= g /\ 8 <= j < 512 /\ addr_to_smpage (smpage_to_addr q) = q.
Proof.
  intros (g & j & -> & Hj & Hg). exists g, j. rewrite smpage_addr by lia. split_and!; [done..|nums; lia|lia|lia|].
  rewrite <- (Z.add_0_r (sm_addr g j)). apply smpage_of; [lia|by vm_compute].
Qed.

Lemma sm_addr_inj k q r : sm_valid k q -> sm_valid k r -> smpage_to_addr q = smpage_to_addr r -> q = r.
Proof. intros Hq Hr E. destruct (sm_valid_addr k q Hq) as (_ & _ & _ & _ & _ & _ & <-). destruct (sm_valid_addr k r Hr) as (_ & _ & _ & _ & _ & _ & <-). by rewrite E. Qed.

(** The items of the slab are small pages. *)
Lemma sm_item n x c l y : sinv (me 0) x c l -> same_params (smpage_slab_node 0) n -> node x = n -> y ∈ held x ->
  exists q, sm_valid 0 q /\ smpage_to_addr q = y /\ addr_to_smpage y = q.
Proof.
  intros Hi (E1 & E2 & E3 & E4 & E5) En Hy. destruct (held_page (me 0) x c l y Hi Hy) as (Hpg & (i & Hi' & Es)%slots_elem & _).
  destruct (sv_page _ _ _ _ Hi _ Hpg) as [(g & Eg & Hg) _ _ _ V5 _ _]. rewrite En in *. rewrite E2 in Hg. rewrite E5 in V5. unfold slot in Es. rewrite Eg, E1, E3 in Es.
  cbn [ps_addr LgPages] in Es. rewrite lgpage_addr in Es. change (nr_elems (smpage_slab_node 0)) with 504 in V5. change (offset (smpage_slab_node 0)) with 32768 in Es. change (size (smpage_slab_node 0)) with 4096 in Es.
  assert (Ey : y = sm_addr g (8 + Z.of_nat i)) by (rewrite Es; unfold sm_addr, PGSIZE_4KB; lia).
  exists (sm_ptr g (8 + Z.of_nat i)). cbn in Hg. split_and!.
  - exists g, (8 + Z.of_nat i). split_and!; [done|lia..].
  - rewrite smpage_addr by lia. done.
  - rewrite Ey, <- (Z.add_0_r (sm_addr _ _)). apply smpage_of; [lia|by vm_compute].
Qed.

Lemma put_struct_ok x c l q v g j : sinv (me 0) x c l -> q = sm_ptr g j -> 0 <= g -> 0 <= j ->
  sinv (me 0) (Snst (node x) (put_struct q v (st x)) (held x) (rest x)) c l.
Proof.
  intros Hi -> Hg Hj. apply (sinv_src (me 0) x c l _ _ Hi); [done|]. cbn [ps_ok LgPages]. assert (Hok := sv_src _ _ _ _ Hi). cbn in Hok.
  assert (Hn := sm_not_table g j Hg Hj). apply put_page_ok; [done| |by intros ?]. intros Hq. exfalso. apply Hn.
  destruct (lo_owned _ _ Hok _ Hq) as (i & nd & Hi' & Hin & _). by apply (in_node_table _ _ i nd _ Hok).
Qed.

(** *** The structs of allocated small pages stay as they are *)

Lemma lg_alloc_struct k s L r s' q : lg_ok s L -> lg_alloc PGSIZE_2MB k s = Ok (r, s') -> ~ in_table q -> get_page q s' = get_page q s.
Proof.
  intros Hl E Hq. revert E. unfold lg_alloc. change (PGSIZE_2MB =? PGSIZE_2MB) with true. unfold lgpage_alloc_on_node. destruct (lgpage_nodes s !! k) as [nd|] eqn:Hnd; [|done].
  fold (take_from nd). destruct (take_from nd) as [[pg nd']|] eqn:Et; [|by intros [= <- <-]]. destruct (take_from_ok s L k nd pg nd' Hl Hnd Et) as (T1 & T2 & T3 & T4 & T5).
  assert (Hl' := take_page s L k nd pg nd' Hl Hnd T1 T2 T3 T4 T5). assert (Hnd' : lgpage_nodes (put_node k nd' s) !! k = Some nd') by (cbn; apply list_lookup_insert_eq; by eapply lookup_lt_Some).
  assert (Hin := in_node_table _ L k nd' pg Hl' Hnd' T3). assert (Hne : q <> pg) by (intros ->; done).
  intros ([] & _ & E)%res_bind_ok. revert E. unfold lgpage_create, next_answer. destruct (os _) as [|[|err|pa] o]; cbn [negb Z.eqb]; intros [= <- <-]; try done. by rewrite get_put_page_ne.
Qed.

Lemma lg_put_struct pg s L s' q : lg_ok s (pg :: L) -> lgpage_put page_tbl pg s = Ok s' -> ~ in_table q -> get_page q s' = get_page q s.
Proof.
  intros Hl E Hq. destruct (lo_owned _ _ Hl pg ltac:(left)) as (i & nd & Hi & Hin & _). assert (Hne : q <> pg) by (intros ->; apply Hq; by apply (in_node_table s (pg :: L) i nd)).
  revert E. unfold lgpage_put. destruct (ref (get_page pg s) - 1 =? 0); [|intros E; injection E as <-; by rewrite get_put_page_ne]. intros ([] & _ & E)%res_bind_ok. revert E. unfold lgpage_free.
  case_match; [|done]. intros [= <-]. unfold get_page, lgpage_destroy, put_page. cbn. by rewrite !lookup_insert_ne.
Qed.

Lemma sm_range g j : 0 <= j < 512 -> lg_addr g <= sm_ptr g j < lg_addr g + 32768.
Proof. intros Hj. unfold sm_ptr, elem. nums. lia. Qed.

Lemma alloc_struct x c l item n' s' g j : sinv (me 0) x c l -> same_params (smpage_slab_node 0) (node x) ->
  __slab_node_alloc (me 0) (node x) (st x) = Ok (item, n', s') -> elem page_tbl g ∈ node_pages (node x) -> 0 <= g -> 0 <= j < 512 ->
  get_page (sm_ptr g j) (src s') = get_page (sm_ptr g j) (src (st x)).
Proof.
  intros Hi (E1 & E2 & E3 & E4 & E5) E Hin Hg Hj. assert (Ht := sm_not_table g j Hg ltac:(lia)). assert (Hok := sv_src _ _ _ _ Hi). cbn in Hok.
  revert E. unfold __slab_node_alloc. intros ([n1 s1] & Ee & Et)%res_bind_ok.
  assert (H1 : src s' = src s1).
  { destruct (cur_pg n1 =? NULL); [by injection Et as _ _ <-|]. revert Et. unfold take_item. destruct (negb _); [by intros [= _ _ <-]|]. by intros ([] & _ & [= _ _ <-])%res_bind_ok. }
  rewrite H1. revert Ee. unfold ensure_page. destruct (_ || _); [|by intros [= _ <-]].
  set (n0 := if cur_pg (node x) =? NULL then node x else _). intros ([[pg n2] s2] & E & [= _ <-])%res_bind_ok.
  assert (Hn0 : partial_list n0 = partial_list (node x) /\ pgsize n0 = PGSIZE_2MB /\ numa_node n0 = 0%nat /\ nflags n0 = nflags (smpage_slab_node 0) /\ offset n0 = 32768).
  { subst n0. destruct (cur_pg (node x) =? NULL); cbn; unfold pgsize; cbn; rewrite E2, E3, E4; done. }
  destruct Hn0 as (F1 & F2 & F3 & F4 & F5). revert E. unfold __slab_node_get_page. rewrite F1, F2, F3, F4, F5. destruct (partial_list (node x)); [|by intros [= _ _ <-]].
  intros ([r p] & Ea & E)%res_bind_ok. cbn [page_alloc_on_node LgPages] in Ea. assert (Es := lg_alloc_struct 0 _ _ r p (sm_ptr g j) Hok Ea Ht).
  assert (Hk := sv_node _ _ _ _ Hi). rewrite E2 in Hk. cbn in Hk. destruct (lg_alloc_ok 0 _ _ Hok Hk) as (r' & p' & Ea' & _ & Hr). rewrite Ea in Ea'. injection Ea' as <- <-.
  destruct r as [q|]; injection E as _ _ <-; [|done]. destruct Hr as (Hn & (g' & -> & Hg') & _). change (has SLAB_FLAG_PAGES (nflags (smpage_slab_node 0))) with true.
  cbn [src put_sp set_src page_memset page_or_flags LgPages ps_addr]. rewrite lgpage_addr.
  assert (Hne : g <> g') by (intros ->; apply Hn, elem_of_app; by left).
  assert (Hq : forall p0, get_page (sm_ptr g j) (lg_memset (lg_addr g') 32768 p0) = get_page (sm_ptr g j) p0).
  { intros p0. unfold get_page, lg_memset. cbn. rewrite map_lookup_filter. destruct (structs p0 !! sm_ptr g j) as [v|]; [|done]. cbn. rewrite option_guard_True; [done|]. cbn.
    assert (Hr := sm_range g j Hj). unfold lg_addr, PGSIZE_2MB in *. lia. }
  assert (Hnt : sm_ptr g j <> elem page_tbl g') by (intros E; apply Ht; exists g'; split; [done|]; cbn in Hg'; nums; lia).
  rewrite Hq. unfold lg_or_flags. rewrite !get_put_page_ne by done. done.
Qed.

Lemma free_struct x c l item n' s' q : sinv (me 0) x c l -> item ∈ held x -> slab_node_free (node x) item (st x) = Ok (n', s') -> ~ in_table q ->
  get_page q (src s') = get_page q (src (st x)).
Proof.
  intros Hi Hh E Hq. revert E. unfold slab_node_free. repeat (case_match; [by intros [= _ <-]|]).
  case_match; [by intros (n1 & _ & [= _ <-])%res_bind_ok|]. case_match; [|by intros [= _ <-]].
  intros (n1 & _ & (p & Ep & [= _ <-])%res_bind_ok)%res_bind_ok. cbn [src set_src]. cbn [page_put LgPages src put_sp store_word] in Ep.
  destruct (held_page (me 0) x c l item Hi Hh) as (Hpg & _). assert (Hok := sv_src _ _ _ _ Hi). apply elem_of_Permutation in Hpg as (r & Hr).
  apply (lg_put_struct (ps_page item) (src (st x)) (r ++ rest x) p q); [|done|done]. refine (ps_perm _ _ _ _ Hok). by rewrite Hr.
Qed.

(** *** The laws *)

Lemma sm_owner n x c l L q : sinv (me 0) x c l -> same_params (smpage_slab_node 0) n -> node x = n -> held x = smpage_to_addr <$> L -> q ∈ L -> sm_valid 0 q ->
  exists g j, q = sm_ptr g j /\ elem page_tbl g ∈ node_pages n /\ 0 <= g /\ 0 <= j < 512.
Proof.
  intros Hi Hp En Eh Hq Hv. destruct (sm_valid_addr 0 q Hv) as (g & j & -> & Ea & Hg & Hj & _). exists g, j. split_and!; [done| |lia..].
  assert (Hh : sm_addr g j ∈ held x) by (rewrite Eh, <- Ea; by apply list_elem_of_fmap_2). destruct (held_page (me 0) x c l _ Hi Hh) as (Hpg & _). rewrite En in Hpg.
  cbn [ps_page LgPages] in Hpg. unfold sm_addr in Hpg. rewrite lgpage_of in Hpg; [done|]. unfold PGSIZE_4KB, PGSIZE_2MB. lia.
Qed.

Lemma sm_alloc_ok k s L : sm_ok s L -> (k < length (sm_nodes s))%nat ->
  exists r s', sm_alloc PGSIZE_4KB k s = Ok (r, s') /\ length (sm_nodes s') = length (sm_nodes s) /\
    match r with Some q => (q ∉ L) /\ sm_valid k q /\ sm_ok s' (q :: L) | None => sm_ok s' L end.
Proof.
  intros (n & c & l & R & En & Hp & Hi & HL) Hk. rewrite En in Hk. cbn in Hk. assert (k = 0%nat) as -> by lia. unfold sm_alloc. change (PGSIZE_4KB =? PGSIZE_4KB) with true.
  unfold smpage_alloc_on_node, slab_alloc_on_node. rewrite En. cbn [lookup list_lookup].
  destruct (alloc_keeps (me 0) _ c l Hi) as (item & n' & s' & c' & l' & E & Hi' & Hn). cbn [node st held rest] in *.
  assert (Hfr := fun g j => alloc_struct _ c l item n' s' g j Hi Hp E). cbn [node st] in Hfr.
  assert (Hp' : same_params (smpage_slab_node 0) n') by (assert (Q := alloc_params (me 0) _ _ _ _ _ E); unfold same_params in *; intuition congruence).
  assert (HL' : forall q, q ∈ L -> sm_valid 0 q /\ get_page q (src s') = get_page q (src (sm_st s))).
  { intros q Hq. destruct (HL q Hq) as [Hv _]. split; [done|]. destruct (sm_owner n _ c l L q Hi Hp eq_refl eq_refl Hq Hv) as (g & j & -> & Hin & Hg & Hj). by apply Hfr. }
  rewrite E. cbn [mbind res_bind insert list_insert]. destruct (Z.eqb_spec item NULL) as [->|Hz].
  - do 2 eexists. split; [done|]. split; [done|]. exists n', c', l', R. split_and!; [done..|]. intros q Hq. destruct (HL' q Hq) as [Hv Eg]. destruct (HL q Hq) as (_ & ?).
    unfold sm_struct in *. cbn [sm_st]. by rewrite Eg.
  - destruct (sm_item n' _ c' l' item Hi' Hp' eq_refl ltac:(left)) as (q & Hv & Ea & Eq). rewrite Eq. specialize (Hn Hz).
    assert (HqL : q ∉ L) by (intros Hq; apply Hn; rewrite <- Ea; by apply list_elem_of_fmap_2).
    do 2 eexists. split; [done|]. split; [done|]. split_and!; [done..|]. destruct (sm_valid_addr 0 q Hv) as (g & j & Eqq & _ & Hg & Hj & _).
    exists n', c', l', R. split_and!; [done..| |].
    + cbn [sm_st fmap list_fmap]. rewrite Ea. apply (put_struct_ok (Snst n' s' (item :: (smpage_to_addr <$> L)) R) c' l' q _ g j Hi' Eqq Hg). lia.
    + intros q' [->|Hq']%elem_of_cons; unfold sm_struct, put_struct; cbn [sm_st src set_src].
      * by rewrite get_put_page_eq.
      * rewrite get_put_page_ne by (intros ->; done). destruct (HL' q' Hq') as [Hv' ->]. destruct (HL q' Hq') as (_ & ?). done.
Qed.

Lemma sm_put_ok q s L : sm_ok s (q :: L) -> exists s', sm_put q s = Ok s' /\ length (sm_nodes s') = length (sm_nodes s) /\ sm_ok s' L.
Proof.
  intros (n & c & l & R & En & Hp & Hi & HL). destruct (HL q ltac:(left)) as (Hv & Hf & Hr). unfold sm_put. rewrite Hr. change (1 - 1) with 0. change (0 =? 0) with true.
  unfold page_to_size. rewrite Hf. change (negb (PGSIZE_4KB =? PGSIZE_4KB)) with false. cbn [BUG_ON mbind res_bind]. unfold smpage_free.
  destruct (sm_valid_addr 0 q Hv) as (g & j & Eq & Ea & Hg & Hj & _).
  assert (Hnode : addr_to_numa_node (smpage_to_addr q) = 0).
  { destruct Hv as (g' & j' & -> & Hj' & Hg'). rewrite smpage_addr by lia. unfold sm_addr. rewrite numa_of by (unfold PGSIZE_4KB, PGSIZE_2MB; lia). nums. Z.to_euclidean_division_equations; lia. }
  rewrite Hnode. change (negb (0 <? NNUMA)) with false. cbn [BUG_ON mbind res_bind]. unfold slab_free. rewrite Hnode. cbn [sm_nodes sm_st]. rewrite En. cbn [lookup list_lookup Z.to_nat].
  set (s1 := put_struct q _ (put_struct q _ (sm_st s))).
  assert (Hi1 : sinv (me 0) (Snst n s1 (smpage_to_addr <$> q :: L) R) c l).
  { assert (Hput := fun st0 v Hi0 => put_struct_ok (Snst n st0 (smpage_to_addr <$> q :: L) R) c l q v g j Hi0 Eq Hg ltac:(lia)).
    exact (Hput _ _ (Hput _ _ Hi)). }
  assert (Hin : smpage_to_addr q ∈ smpage_to_addr <$> q :: L) by (left).
  destruct (free_keeps (me 0) _ c l (smpage_to_addr q) Hi1 Hin) as (n' & s' & c' & l' & E & Hi'). cbn [node st held rest] in *.
  change (Z.to_nat 0) with 0%nat. change ([n] !! 0%nat) with (Some n). cbn beta iota. rewrite E. cbn [mbind res_bind].
  eexists. split; [done|]. split; [done|]. exists n', c', l', R. assert (Hnd := sv_nodup _ _ _ _ Hi). cbn in Hnd. apply list.NoDup_cons in Hnd as [Hnd1 Hnd2].
  split_and!; [done| | |].
  - assert (Q := free_params _ _ _ _ _ E). unfold same_params in *. intuition congruence.
  - cbn [sm_st]. apply (sinv_held (me 0) _ c' l' (smpage_to_addr <$> L) Hi'). cbn [held]. symmetry. apply (Permutation_cons_inv (a := smpage_to_addr q)).
    apply filter_ne_perm; [by apply list.NoDup_cons|left].
  - intros r Hq'. destruct (HL r ltac:(by right)) as (Hv' & Hs'). split; [done|]. assert (Hne : r <> q) by (intros ->; apply Hnd1; by apply list_elem_of_fmap_2).
    assert (Hfr := free_struct _ c l _ n' s' r Hi1 Hin E). cbn [st] in Hfr. unfold sm_struct. cbn [sm_st]. rewrite Hfr.
    + subst s1. unfold put_struct. cbn [src set_src]. by rewrite !get_put_page_ne.
    + destruct (sm_valid_addr 0 r Hv') as (g' & j' & -> & _ & Hg' & Hj' & _). apply sm_not_table; lia.
Qed.

Lemma sm_flags_ok q f s L : f = PAGE_FLAG_SLAB \/ f = PAGE_FLAG_SHATTERED -> q ∈ L -> sm_ok s L -> sm_ok (sm_or_flags q f s) L.
Proof.
  intros Hf Hq (n & c & l & R & En & Hp & Hi & HL). destruct (HL q Hq) as (Hv & Hl & Hr). destruct (sm_valid_addr 0 q Hv) as (g & j & Eq & _ & Hg & Hj & _).
  exists n, c, l, R. split_and!; [done..| |].
  - exact (put_struct_ok (Snst n (sm_st s) (smpage_to_addr <$> L) R) c l q _ g j Hi Eq Hg ltac:(lia)).
  - intros r Hr'. destruct (HL r Hr') as (Hv' & H1 & H2). split; [done|]. unfold sm_or_flags, sm_struct, put_struct. cbn [sm_st src set_src].
    destruct (decide (r = q)) as [->|]; [|by rewrite get_put_page_ne]. rewrite get_put_page_eq. cbn [flags ref]. rewrite has_lor. unfold sm_struct in Hl. rewrite Hl.
    split; [|done]. destruct Hf as [-> | ->]; done.
Qed.

(** The memory of a small page has no structs. *)
Lemma sm_memset_ok k q n s L : q ∈ L -> sm_valid k q -> 0 <= n <= PGSIZE_4KB -> sm_ok s L -> sm_ok (sm_memset (smpage_to_addr q) n s) L.
Proof.
  intros Hq Hv Hn (m & c & l & R & En & Hp & Hi & HL). destruct (sm_valid_addr k q Hv) as (g & j & -> & -> & Hg & Hj & _).
  assert (Hbase : PAGE_BASE_ADDR <= sm_addr g j) by (unfold sm_addr, lg_addr, PGSIZE_2MB, PGSIZE_4KB; lia).
  exists m, c, l, R. split_and!; [done..| |].
  - apply (sinv_src (me 0) _ c l _ _ Hi); [done|]. cbn [ps_ok LgPages src st node]. apply lg_memset_ok; [done|]. apply (sv_src _ _ _ _ Hi).
  - intros r Hr'. destruct (HL r Hr') as (Hv' & H1). split; [done|]. destruct (sm_valid_addr 0 r Hv') as (g' & j' & -> & _ & Hg' & Hj' & _).
    assert (E : sm_struct (sm_ptr g' j') (sm_memset (sm_addr g j) n s) = sm_struct (sm_ptr g' j') s); [|by rewrite E].
    unfold sm_struct, get_page, sm_memset, lg_memset. cbn. rewrite map_lookup_filter. destruct (structs (src (sm_st s)) !! sm_ptr g' j') as [v|]; [|done]. cbn.
    rewrite option_guard_True; [done|]. cbn. assert (Hr := sm_range g' j' ltac:(lia)). unfold sm_addr, lg_addr, PGSIZE_2MB, PGSIZE_4KB in *. lia.
Qed.

#[export] Program Instance SmPages : PageSource smst := {
  ps_size := PGSIZE_4KB;
  page_alloc_on_node := sm_alloc;
  page_put := sm_put;
  page_or_flags := sm_or_flags;
  page_memset := sm_memset;
  ps_addr := smpage_to_addr;
  ps_page := addr_to_smpage;
  ps_nodes := fun s => length (sm_nodes s);
  ps_ok := sm_ok;
  ps_valid := sm_valid;
}.
Next Obligation. intros s L (n & c & l & R & _ & _ & Hi & _). assert (Hn := sv_nodup _ _ _ _ Hi). by apply NoDup_fmap_1 in Hn. Qed.
Next Obligation.
  intros s L L' Hp (n & c & l & R & En & Hq & Hi & HL). exists n, c, l, R. split_and!; [done..| |intros q; rewrite <- Hp; apply HL].
  apply (sinv_held (me 0) _ c l _ Hi). cbn. by rewrite Hp.
Qed.
Next Obligation. exact sm_alloc_ok. Qed.
Next Obligation. exact sm_put_ok. Qed.
Next Obligation. intros q f s L Hf Hq Hl. split; [by apply sm_flags_ok|done]. Qed.
Next Obligation. intros k q n s L Hq Hv Hn Hl. split; [by apply (sm_memset_ok k)|done]. Qed.
Next Obligation.
  intros k q off (g & j & -> & Hj & Hg) Ho. rewrite smpage_addr by lia. rewrite smpage_of by (lia || done). split; [done|].
  unfold sm_addr. rewrite <- Z.add_assoc, numa_of by (unfold PGSIZE_4KB, PGSIZE_2MB in *; lia). nums. Z.to_euclidean_division_equations; lia.
Qed.
Next Obligation.
  intros k q (g & j & -> & Hj & Hg). rewrite smpage_addr by lia. unfold sm_ptr, sm_addr, elem, lg_addr, PAGE_BASE_ADDR, PGSIZE_2MB, PGSIZE_4KB. nums. lia.
Qed.
End lg.
