(* ===== verification/SlabThms.v ===== *)
(** * What the slab allocator guarantees *)

From S2P Require Import Prelude Stddef Tcache Page Slab SlabInv SlabSrc.

(** C28. Exclusive items.  For a node whose parameters fit its pages, over any source of
    pages that keeps its laws, in every state that allocations, releases, writes of the
    holders and the doings of others lead to: no step fails an assertion or removes a
    page from a list it is not in; allocated items are different and do not overlap,
    each lies in a page of the node, at a multiple of the item size, on the NUMA node
    that [slab_free] computes from its address, and the page names the node; and every
    page but the current one has an allocated item, so that memory that is not used goes
    back. *)
Theorem slab_exclusive {P} `{PageSource P} me x0 x : fresh x0 -> sreach me x0 x ->
  (forall a, sstep me a x <> Some Bug) /\ NoDup (held x) /\
  (forall y z, y ∈ held x -> z ∈ held x -> y <> z -> y + size (node x) <= z \/ z + size (node x) <= y) /\
  (forall y, y ∈ held x -> exists i, 0 <= i < nr_elems (node x) /\ y = ps_addr (ps_page y) + offset (node x) + i * size (node x) /\
     ps_page y ∈ node_pages (node x) /\ snode (get_sp (ps_page y) (st x)) = me /\ addr_to_numa_node y = Z.of_nat (numa_node (node x))) /\
  (forall pg, pg ∈ node_pages (node x) -> pg <> cur_pg (node x) -> exists y, y ∈ held x /\ ps_page y = pg).
Proof.
  intros Hf Hr. destruct (sreach_sinv me x0 x Hf Hr) as (c & l & Hi). split_and!.
  - intros a E. assert (F := sstep_keeps me a x c l Hi). rewrite E in F. by destruct F as (? & ? & ? & ? & _).
  - apply (sv_nodup _ _ _ _ Hi).
  - intros y z. by apply (items_disjoint me x c l).
  - intros y Hy. destruct (held_page me x c l y Hi Hy) as (Hpg & Hs & _). destruct (sv_page _ _ _ _ Hi _ Hpg).
    destruct (slots_page (node x) _ _ y (sv_params _ _ _ _ Hi) pv_valid pv_c Hs) as (_ & Hnuma & _). apply slots_elem in Hs as (i & Hlt & E).
    exists (Z.of_nat i). split_and!; [lia|lia|unfold slot in E; lia|done..].
  - intros pg Hpg Hne. apply (pages_used me x c l); [done|]. apply elem_node_pages in Hpg. tauto.
Qed.

(** ** The page allocator at the start *)

Section start.
Context (page_tbl : Z) (Htbl : 0 < page_tbl) (Hend : page_tbl + sizeof_page * (NNUMA * LGPAGE_META_ENTS) <= PAGE_BASE_ADDR) (me : nat -> Z).

Lemma page_init_ok n os : Z.of_nat n <= NNUMA -> lg_ok page_tbl (page_init page_tbl n os) [].
Proof.
  intros Hn. split; cbn [lgpage_nodes page_init].
  - by rewrite length_fmap, length_seq.
  - intros i nd Hi. rewrite list_lookup_fmap in Hi. destruct (seq 0 n !! i) as [j|] eqn:Ej; [|done]. cbn in Hi. injection Hi as <-. apply lookup_seq in Ej as [-> _].
    split_and!; cbn; [done|done|by vm_compute|]. intros q Hq. by apply elem_of_nil in Hq.
  - cbn. rewrite <- list_fmap_compose. assert (E : forall l : list nat, concat (pages ∘ (fun i => LgNode 0 (page_tbl + Z.of_nat i * LGPAGE_META_LEN) []) <$> l) = []) by (induction l; done).
    rewrite E. apply base.NoDup_nil_2.
  - intros q Hq. by apply elem_of_nil in Hq.
  - intros q _ _. unfold get_page. cbn [structs page_init]. by rewrite lookup_empty.
Qed.

Lemma smpage_params : @params_ok lgst (LgPages page_tbl Htbl Hend) (smpage_slab_node 0).
Proof. by split; vm_compute. Qed.

Definition sm_start (os : list os_answer) : smst := Smst [smpage_slab_node 0] (Sst (page_init page_tbl 1 os) ∅ ∅).

Lemma sm_start_ok os : sm_ok page_tbl Htbl Hend me (sm_start os) [].
Proof.
  exists (smpage_slab_node 0), (fun _ => 0%nat), (fun _ => []), []. split_and!; [done..| |].
  - apply (@fresh_sinv lgst (LgPages page_tbl Htbl Hend)). do 5 eexists. split_and!; [done|apply smpage_params|cbn; lia|done|]. cbn. by apply page_init_ok.
  - intros q Hq. by apply elem_of_nil in Hq.
Qed.
End start.

(** A slab of items of 64 bytes over small pages: an item is allocated and the memory of
    the first 2 MB page was available. *)
Definition tbl0 : Z := 65536.
Lemma tbl0_pos : 0 < tbl0.
Proof. done. Qed.
Lemma tbl0_end : tbl0 + sizeof_page * (NNUMA * LGPAGE_META_ENTS) <= PAGE_BASE_ADDR.
Proof. by vm_compute. Qed.
#[export] Instance DemoPages : PageSource smst := SmPages tbl0 tbl0_pos tbl0_end (fun _ => 4096).

Definition demo_slab : snst smst := Snst (__slab_create_node 0 64 0 0 64) (Sst (sm_start tbl0 [Mapped 0]) ∅ ∅) [] [].
Definition demo_run : option (res (snst smst)) :=
  match sstep 8192 SAlloc demo_slab with Some (Ok x) => sstep 8192 SAlloc x | r => r end.
Definition demo_after : snst smst := match demo_run with Some (Ok x) => x | _ => demo_slab end.

Lemma demo_fresh : fresh demo_slab.
Proof.
  do 5 eexists. split_and!; [reflexivity|split; by vm_compute|cbn; lia|reflexivity|]. apply sm_start_ok.
Qed.

Lemma slab_exclusive_witness :
  sreach 8192 demo_slab demo_after /\ length (held demo_after) = 2%nat /\ NoDup (held demo_after).
Proof.
  assert (Hr : sreach 8192 demo_slab demo_after).
  { apply (sreach_step 8192 demo_slab SAlloc (match sstep 8192 SAlloc demo_slab with Some (Ok x) => x | _ => demo_slab end)); [|by vm_compute].
    apply (sreach_step 8192 demo_slab SAlloc demo_slab); [constructor|by vm_compute]. }
  split_and!; [exact Hr|by vm_compute|]. exact (proj1 (proj2 (slab_exclusive 8192 demo_slab demo_after demo_fresh Hr))).
Defined.

(** ** Parameters *)

(** What [slab_create] computes fits.  It refuses exactly the sizes above 256 KB; otherwise
    items are at least as large as asked, with less than 64 bytes of padding, a page
    has at least 8 of them and they are within the page: for the page size the flags
    select, the node satisfies the invariant's condition on parameters. *)
Theorem slab_create_fits sz fl : 0 < sz < M64 - 64 -> 0 <= fl ->
  match slab_create_params sz fl with
  | inl e => e = - E2BIG /\ 262144 < sz
  | inr (sz', fl', nr) =>
      sz <= sz' < sz + 64 /\ sz <= 262144 /\ 2 * SLAB_PARTIAL_THRESH <= nr /\
      nr * sz' <= pgsize (__slab_create_node 0 sz' 0 fl' nr) /\ (has SLAB_FLAG_LGPAGE fl' = false -> sz' <= 512)
  end.
Proof.
  intros Hs Hf. unfold slab_create_params. change CACHE_LINE_SIZE with 64. change __WORD_SIZE with 64.
  replace (if negb (has SLAB_FLAG_FALSE_OKAY fl) then align_up sz 64 else align_up sz 64) with (align_up sz 64) by (by destruct (has _ _)).
  assert (Ha : align_up sz 64 = 64 * ((sz + 63) / 64)).
  { change 64 with (2 ^ 6) at 1. rewrite (align_up_spec sz 6) by (unfold M64 in *; lia). change (2 ^ 6) with 64. f_equal. f_equal. lia. }
  rewrite Ha. set (sz' := 64 * ((sz + 63) / 64)). assert (Hb : sz <= sz' < sz + 64 /\ sz' mod 64 = 0) by (subst sz'; Z.to_euclidean_division_equations; lia).
  clearbody sz'. change SLAB_2MB_LIMIT with 262144. change SLAB_4KB_LIMIT with 512. change (2 * SLAB_PARTIAL_THRESH) with 8.
  destruct (Z.gtb_spec sz' 262144) as [Hgt|Hle]; [split; [done|]; Z.to_euclidean_division_equations; lia|]. destruct Hb as [Hb _].
  unfold pgsize. cbn [nflags __slab_create_node].
  assert (Hfit : forall n, 8 * sz' <= n -> 8 <= n / sz' /\ n / sz' * sz' <= n) by (intros n Hn; split; [apply Z.div_le_lower_bound; lia|rewrite Z.mul_comm; apply Z.mul_div_le; lia]).
  destruct (Z.gtb_spec sz' 512) as [H5|H5].
  - rewrite has_lor. change (has SLAB_FLAG_LGPAGE SLAB_FLAG_LGPAGE) with true. rewrite orb_true_r. destruct (Hfit PGSIZE_2MB) as [F1 F2]; [unfold PGSIZE_2MB; lia|]. split_and!; (lia || done).
  - destruct (has SLAB_FLAG_LGPAGE fl) eqn:El; [destruct (Hfit PGSIZE_2MB) as [F1 F2]; [unfold PGSIZE_2MB; lia|]|destruct (Hfit PGSIZE_4KB) as [F1 F2]; [unfold PGSIZE_4KB; lia|]];
      split_and!; (lia || done).
Qed.

Lemma slab_create_fits_witness : slab_create_params 1000 0 = inr (1024, 1, 2048) /\ 2048 * 1024 <= PGSIZE_2MB.
Proof.
  assert (F := slab_create_fits 1000 0 ltac:(by vm_compute) ltac:(done)). assert (E : slab_create_params 1000 0 = inr (1024, 1, 2048)) by (by vm_compute).
  split; [exact E|]. rewrite E in F. destruct F as (_ & _ & _ & F & _). exact F.
Defined.

(** The slab of nodes that [slab_init] makes does not fit: it divides the page by the size
    of a node before rounding it up, so that its 43rd item ends behind the page. *)
Theorem node_slab_overruns : ~ (offset (node_slab_node 0) + nr_elems (node_slab_node 0) * size (node_slab_node 0) <= PGSIZE_4KB) /\
  42 * size (node_slab_node 0) < PGSIZE_4KB < 43 * size (node_slab_node 0) /\ 43 <= nr_elems (node_slab_node 0).
Proof. by split_and!; vm_compute. Qed.

(** ** The operations of the thread cache over a slab *)

Section tcache_ops.
Context {P : Type} `{PageSource P} (me : Z).

(** Taking items one after the other, [items] already taken. *)
Lemma alloc_loop_ok nr n s items H0 R c l : sinv me (Snst n s (items ++ H0) R) c l ->
  exists b new n' s' c' l', alloc_loop me nr n s items = Ok (b, items ++ new, n', s') /\ sinv me (Snst n' s' (items ++ new ++ H0) R) c' l' /\
    (b = true -> length new = nr).
Proof.
  revert n s items c l. induction nr as [|nr IH]; intros n s items c l Hi.
  - exists true, [], n, s, c, l. cbn. rewrite app_nil_r. done.
  - destruct (alloc_keeps me _ c l Hi) as (item & n1 & s1 & c1 & l1 & E & Hi1 & _). cbn [node st held rest alloc_loop] in *. rewrite E. cbn [mbind res_bind].
    destruct (Z.eqb_spec item NULL) as [->|Hz].
    + exists false, [], n1, s1, c1, l1. rewrite app_nil_r. done.
    + destruct (IH n1 s1 (items ++ [item]) c1 l1) as (b & new & n2 & s2 & c2 & l2 & E2 & Hi2 & Hb).
      { refine (sinv_held me _ _ _ _ Hi1 _). cbn. rewrite <- app_assoc. cbn. by rewrite Permutation_middle. }
      exists b, (item :: new), n2, s2, c2, l2. rewrite E2, <- !app_assoc. split; [done|]. split; [rewrite <- !app_assoc in Hi2; exact Hi2|]. intros ->. cbn. by rewrite Hb.
Qed.

(** Giving items back. *)
Lemma free_loop_ok items : forall n s H0 R c l, sinv me (Snst n s (items ++ H0) R) c l ->
  exists n' s' c' l', free_loop items n s = Ok (n', s') /\ sinv me (Snst n' s' H0 R) c' l'.
Proof.
  induction items as [|item items IH]; intros n s H0 R c l Hi; cbn [free_loop]; [eauto 10|].
  destruct (free_keeps me _ c l item Hi ltac:(left)) as (n1 & s1 & c1 & l1 & E & Hi1). cbn [node st held rest] in *. rewrite E. cbn [mbind res_bind].
  apply (IH n1 s1 H0 R c1 l1). refine (sinv_held me _ _ _ _ Hi1 _). cbn [held]. symmetry. apply (Permutation_cons_inv (a := item)).
  apply filter_ne_perm; [apply (sv_nodup _ _ _ _ Hi)|left].
Qed.

(** The thread cache gets all the items it asks for or none: either that many items,
    different from each other and from those that are allocated, or what was taken until
    the memory ran out is given back and the same items are allocated as before; what it
    gives back is free again. *)
Theorem slab_tcache_all_or_nothing nr x c l : sinv me x c l ->
  (exists r n' s' c' l', slab_tcache_alloc me nr (node x) (st x) = Ok (r, n', s') /\
     sinv me (Snst n' s' (default [] r ++ held x) (rest x)) c' l' /\
     (forall items, r = Some items -> length items = nr /\ NoDup (items ++ held x))) /\
  (forall items h, held x ≡ₚ items ++ h ->
     exists n' s' c' l', slab_tcache_free items (node x) (st x) = Ok (n', s') /\ sinv me (Snst n' s' h (rest x)) c' l').
Proof.
  intros Hi. split.
  - assert (Hi0 : sinv me (Snst (node x) (st x) ([] ++ held x) (rest x)) c l) by (by destruct x).
    destruct (alloc_loop_ok nr _ _ [] _ _ c l Hi0) as (b & new & n1 & s1 & c1 & l1 & E & Hi1 & Hb). unfold slab_tcache_alloc. rewrite E. cbn [mbind res_bind app] in *. destruct b.
    + exists (Some new), n1, s1, c1, l1. split; [done|]. split; [done|]. intros items [= <-]. split; [by apply Hb|]. apply (sv_nodup _ _ _ _ Hi1).
    + destruct (free_loop_ok (rev new) n1 s1 (held x) (rest x) c1 l1) as (n2 & s2 & c2 & l2 & -> & Hi2).
      { refine (sinv_held me _ _ _ _ Hi1 _). cbn. apply Permutation_app_tail, Permutation_rev. }
      cbn. exists None, n2, s2, c2, l2. done.
  - intros items h Hp. apply (free_loop_ok items _ _ _ _ c l). exact (sinv_held me _ _ _ _ Hi Hp).
Qed.
End tcache_ops.

Lemma slab_tcache_all_or_nothing_witness :
  exists r n' s', slab_tcache_alloc 8192 2 (node demo_slab) (st demo_slab) = Ok (r, n', s') /\ option_map length r = Some 2%nat.
Proof.
  destruct (slab_tcache_all_or_nothing 8192 2 demo_slab _ _ (fresh_sinv 8192 demo_slab demo_fresh)) as [(r & n' & s' & c' & l' & E & _ & H) _].
  exists r, n', s'. split; [exact E|].
  assert (Er : option_map length r = match slab_tcache_alloc 8192 2 (node demo_slab) (st demo_slab) with Ok (r, _, _) => option_map length r | Bug => None end) by (by rewrite E).
  rewrite Er. by vm_compute.
Defined.
