(* ===== verification/Smalloc.v ===== *)
(** * runtime/smalloc.c: allocation by size classes

    A cache for each power of two from 16 bytes to 256 KB, over a slab.  The state is
    that of one thread: its handles, the shared caches and their allocators, and the
    memory of the items.  The invariant of its runs keeps the magazines of each class
    ([ghost]); that threads may share a cache is shown in Tcache.v. *)

From S2P Require Import Prelude Stddef Tcache Page Slab SlabInv SlabSrc.

Definition SMALLOC_MAG_SIZE : nat := 8.
Definition SMALLOC_BITS : nat := 15.
Definition SMALLOC_MIN_SIZE : Z := SLAB_MIN_SIZE.
Definition SMALLOC_MAX_SIZE : Z := Z.shiftl SMALLOC_MIN_SIZE (Z.of_nat SMALLOC_BITS - 1).

(** [__builtin_clzl] of a 64-bit value that is not zero, [__builtin_ctz]. *)
Definition clzl (x : Z) : Z := 63 - Z.log2 x.
Fixpoint ctz (fuel : nat) (x : Z) : Z :=
  match fuel with O => 0 | S fuel => if Z.odd x then 0 else 1 + ctz fuel (Z.shiftr x 1) end.

Definition smalloc_size_to_idx (size : Z) : Z :=
  64 - ctz 32 SMALLOC_MIN_SIZE - clzl (Z.lor (u64 (size - 1)) SMALLOC_MIN_SIZE).

(** The items of class [i], as [smalloc_init] asks [slab_create] for them. *)
Definition class_size (i : nat) : Z :=
  match slab_create_params (Z.shiftl SMALLOC_MIN_SIZE (Z.of_nat i)) SLAB_FLAG_FALSE_OKAY with
  | inr (size, _, _) => size
  | inl _ => 0
  end.

Section smalloc.
Context {P : Type} `{TcacheOps P}.

Record smalloc_st := SmallocSt { smem : memory; smalloc_pts : list tcache_perthread; smalloc_tcaches : list (tcache * P) }.

(** The cache of a class with the handle of the thread, and back. *)
Definition pt_get (i : Z) (s : smalloc_st) : res (tcache_perthread * tstore P) :=
  if i <? 0 then Bug
  else
    match smalloc_pts s !! Z.to_nat i, smalloc_tcaches s !! Z.to_nat i with
    | Some pt, Some (t, p) => Ok (pt, Store (smem s) t p)
    | _, _ => Bug
    end.
Definition pt_put (i : Z) (pt : tcache_perthread) (t : tstore P) (s : smalloc_st) : smalloc_st :=
  SmallocSt (mem t) (<[Z.to_nat i := pt]> (smalloc_pts s)) (<[Z.to_nat i := (tc t, pool t)]> (smalloc_tcaches s)).

Definition smalloc (size : Z) (s : smalloc_st) : res (Z * smalloc_st) :=
  if size >? SMALLOC_MAX_SIZE then Ok (NULL, s)
  else
    let i := smalloc_size_to_idx size in
    '(pt, t) ← pt_get i s;
    '(item, pt, t) ← tcache_alloc pt t;
    Ok (item, pt_put i pt t s).

(** [node_size item] is [addr_to_page(item)->snode->size]. *)
Definition sfree (node_size : Z -> Z) (item : Z) (s : smalloc_st) : res smalloc_st :=
  let i := smalloc_size_to_idx (node_size item) in
  '(pt, t) ← pt_get i s;
  '(pt, t) ← tcache_free item pt t;
  Ok (pt_put i pt t s).

(** [smalloc_init] after the slabs are created, [pools] over them, and
    [smalloc_init_thread]: [None] if a cache cannot be created. *)
Fixpoint smalloc_init (malloc_ok : nat -> bool) (i : nat) (pools : list P) : res (option (list (tcache * P))) :=
  match pools with
  | [] => Ok (Some [])
  | p :: pools =>
      t ← tcache_create (malloc_ok i) SMALLOC_MAG_SIZE (class_size i);
      match t with
      | None => Ok None
      | Some t => r ← smalloc_init malloc_ok (S i) pools; Ok (option_map (cons (t, p)) r)
      end
  end.

Definition smalloc_init_thread (m : memory) (tcs : list (tcache * P)) : smalloc_st :=
  SmallocSt m ((fun t => tcache_init_perthread t.1) <$> tcs) tcs.
End smalloc.
Arguments smalloc_st P : clear implicits.

(** ** Properties *)

Lemma log2_class (k x : Z) : 0 <= k -> 2 ^ k <= x < 2 ^ (k + 1) -> Z.log2 x = k.
Proof. intros Hk Hx. apply Z.log2_unique; [done|]. by rewrite Z.add_1_r in Hx. Qed.

Lemma idx_log2 size : 0 < size < M64 -> smalloc_size_to_idx size = Z.log2 (Z.lor (size - 1) 16) - 3.
Proof. intros Hs. unfold smalloc_size_to_idx, clzl. rewrite u64_id by (unfold in_u64; lia). change (ctz 32 SMALLOC_MIN_SIZE) with 4. change SMALLOC_MIN_SIZE with 16. lia. Qed.

Lemma idx_small size : 0 < size <= 32 -> smalloc_size_to_idx size = 1.
Proof.
  intros Hs. rewrite idx_log2 by (unfold M64; lia). rewrite Z.log2_lor by lia. change (Z.log2 16) with 4.
  assert (Hl : Z.log2 (size - 1) <= 4) by (change 4 with (Z.log2 31); apply Z.log2_le_mono; lia). lia.
Qed.

(** The class of larger sizes is that of the power of two above. *)
Lemma idx_large size k : 5 <= k -> 2 ^ k < size <= 2 ^ (k + 1) -> size < M64 -> smalloc_size_to_idx size = k - 3.
Proof.
  intros Hk Hs Hm. assert (Hp : 2 ^ 5 <= 2 ^ k) by (apply Z.pow_le_mono_r; lia). rewrite idx_log2 by lia. rewrite Z.log2_lor by lia.
  rewrite (log2_class k (size - 1)) by lia. change (Z.log2 16) with 4. lia.
Qed.

(** What holds for all classes. *)
Lemma classes_ok : Forall (fun i => Z.shiftl 16 (Z.of_nat i) <= class_size i /\
    ((1 <= i)%nat -> smalloc_size_to_idx (class_size i) = if bool_decide (i = 1%nat) then 2 else Z.of_nat i)) (seq 0 SMALLOC_BITS).
Proof. cbn [seq SMALLOC_BITS]. repeat (apply List.Forall_cons; [split; [by vm_compute|]; intros ?; first [lia|by vm_compute]|]). by apply List.Forall_nil. Qed.

Lemma idx_range size : 0 < size <= SMALLOC_MAX_SIZE ->
  1 <= smalloc_size_to_idx size < Z.of_nat SMALLOC_BITS /\ size <= Z.shiftl 16 (smalloc_size_to_idx size) /\
  (1 < smalloc_size_to_idx size -> Z.shiftl 16 (smalloc_size_to_idx size) < 2 * size).
Proof.
  change SMALLOC_MAX_SIZE with 262144. change (Z.of_nat SMALLOC_BITS) with 15. intros Hs. destruct (Z.le_gt_cases size 32) as [Hle|Hgt].
  { rewrite idx_small by lia. split_and!; [done..|change (Z.shiftl 16 1) with 32; lia|lia]. }
  assert (Hk := Z.log2_spec (size - 1) ltac:(lia)). set (k := Z.log2 (size - 1)) in *.
  assert (Hk5 : 5 <= k) by (subst k; change 5 with (Z.log2 32); apply Z.log2_le_mono; lia).
  assert (Hk17 : k <= 17) by (subst k; change 17 with (Z.log2 262143); apply Z.log2_le_mono; lia).
  rewrite Z.pow_succ_r in Hk by lia. assert (Hp := Z.pow_succ_r 2 k ltac:(lia)). rewrite <- Z.add_1_r in Hp.
  rewrite (idx_large size k) by (unfold M64; lia). rewrite Z.shiftl_mul_pow2 by lia.
  assert (E : 16 * 2 ^ (k - 3) = 2 ^ (k + 1)) by (change 16 with (2 ^ 4); rewrite <- Z.pow_add_r by lia; f_equal; lia). rewrite E. lia.
Qed.

(** The classes a request is served from hold powers of two from 64 bytes on. *)
Lemma class_size_pow : Forall (fun i => class_size i = if bool_decide (i = 1%nat) then 64 else Z.shiftl 16 (Z.of_nat i)) (seq 1 14).
Proof. cbn [seq]. repeat (apply List.Forall_cons; [by vm_compute|]). by apply List.Forall_nil. Qed.

Lemma class_size_eq i : (1 <= i < SMALLOC_BITS)%nat -> class_size i = if bool_decide (i = 1%nat) then 64 else 2 ^ (Z.of_nat i + 4).
Proof.
  intros Hi. rewrite (proj1 (list.Forall_forall _ _) class_size_pow i) by (apply elem_of_seq; unfold SMALLOC_BITS in Hi; lia).
  case_bool_decide; [done|]. rewrite Z.shiftl_mul_pow2, (Z.add_comm _ 4), Z.pow_add_r by lia. done.
Qed.

(** The item of a request, and the class [sfree] finds for it. *)
Definition size_fits (size ns : Z) : Prop := size <= ns /\ if size <=? 64 then ns = 64 else ns < 2 * size.

Lemma class_fits size : 0 < size <= SMALLOC_MAX_SIZE ->
  let i := Z.to_nat (smalloc_size_to_idx size) in (1 <= i < SMALLOC_BITS)%nat /\ size_fits size (class_size i).
Proof.
  intros Hs i. destruct (idx_range size Hs) as (H1 & H2 & H3). subst i. set (i := smalloc_size_to_idx size) in *.
  assert (Hi : (1 <= Z.to_nat i < SMALLOC_BITS)%nat) by (unfold SMALLOC_BITS in *; lia). split; [done|].
  rewrite class_size_eq by done. rewrite Z.shiftl_mul_pow2 in H2, H3 by lia. unfold size_fits.
  assert (E : 16 * 2 ^ i = 2 ^ (i + 4)) by (rewrite Z.pow_add_r by lia; change (2 ^ 4) with 16; lia). rewrite E in *.
  case_bool_decide as Ei.
  { assert (E1 : i = 1) by lia. rewrite E1 in H2. change (2 ^ (1 + 4)) with 32 in H2. destruct (Z.leb_spec size 64); lia. }
  rewrite Z2Nat.id by lia. split; [done|]. destruct (Z.leb_spec size 64) as [Hle|]; [|apply H3; lia].
  destruct (decide (i = 2)) as [->|]; [done|]. assert (2 ^ 7 <= 2 ^ (i + 4)) by (apply Z.pow_le_mono_r; lia). specialize (H3 ltac:(lia)). lia.
Qed.

Definition free_class (i : nat) : nat := if bool_decide (i = 1%nat) then 2 else i.

Lemma free_class_range i : (1 <= i < SMALLOC_BITS)%nat -> (2 <= free_class i < SMALLOC_BITS)%nat.
Proof. unfold free_class, SMALLOC_BITS. case_bool_decide; lia. Qed.

Lemma free_class_idx i : (1 <= i < SMALLOC_BITS)%nat -> smalloc_size_to_idx (class_size i) = Z.of_nat (free_class i).
Proof.
  intros Hi. destruct (proj1 (list.Forall_forall _ _) classes_ok i) as [_ ->]; [apply elem_of_seq; unfold SMALLOC_BITS in *; lia| |lia].
  unfold free_class. by case_bool_decide.
Qed.

Lemma free_class_size i : (1 <= i < SMALLOC_BITS)%nat -> class_size (free_class i) = class_size i.
Proof. intros Hi. rewrite !class_size_eq by (done || (assert (X := free_class_range i Hi); lia)). unfold free_class. repeat case_bool_decide; subst; done. Qed.

Lemma idx_of_fit j size : (2 <= j < SMALLOC_BITS)%nat -> 32 < size -> size <= class_size j < 2 * size -> smalloc_size_to_idx size = Z.of_nat j.
Proof.
  intros Hj Hs Hf. rewrite class_size_eq, bool_decide_eq_false_2 in Hf by lia.
  assert (E : 2 ^ (Z.of_nat j + 4) = 2 * 2 ^ (Z.of_nat j + 3)) by (rewrite <- Z.pow_succ_r by lia; f_equal; lia).
  rewrite (idx_large size (Z.of_nat j + 3)); [lia|lia| |].
  - replace (Z.of_nat j + 3 + 1) with (Z.of_nat j + 4) by lia. lia.
  - assert (2 ^ (Z.of_nat j + 4) <= 2 ^ 18) by (apply Z.pow_le_mono_r; unfold SMALLOC_BITS in Hj; lia). unfold M64. lia.
Qed.

(** ** Memory is never removed *)

Section smalloc_run.
Context {P : Type} `{TcacheOps P}.

Lemma bug_on_inv {A} b (k : unit -> res A) r : (BUG_ON b ≫= k) = Ok r -> k tt = Ok r.
Proof. unfold BUG_ON. by destruct b. Qed.

Lemma set_next_item_dom p v m m' x : set_next_item p v m = Ok m' -> is_Some (m !! x) -> is_Some (m' !! x).
Proof. unfold set_next_item. destruct (load p m); cbn; [|done]. intros [= <-]. apply insert_dom. Qed.

Lemma set_next_mag_dom p v m m' x : set_next_mag p v m = Ok m' -> is_Some (m !! x) -> is_Some (m' !! x).
Proof. unfold set_next_mag. destruct (load p m); cbn; [|done]. intros [= <-]. apply insert_dom. Qed.

Lemma link_items_dom items pos m m' x : link_items pos items m = Ok m' -> is_Some (m !! x) -> is_Some (m' !! x).
Proof.
  revert pos m. induction items as [|y items IH]; intros pos m; cbn; [apply set_next_item_dom|].
  destruct (set_next_item pos y m) as [m1|] eqn:E; [|done]. intros H' Hx. apply (IH y m1 H'). by apply (set_next_item_dom _ _ _ _ _ E).
Qed.

Lemma alloc_loaded_mem ltc (s : tstore P) r ltc' s' : alloc_loaded ltc s = Ok (r, ltc', s') -> s' = s.
Proof. unfold alloc_loaded. destruct (load _ _); cbn; [|done]. by intros [= _ _ <-]. Qed.

Lemma tcache_alloc_mag_dom (s s' : tstore P) r ms x : store_rep s ms -> tcache_alloc_mag s = Ok (r, s') -> is_Some (mem s !! x) -> is_Some (mem s' !! x).
Proof.
  intros Hs. unfold tcache_alloc_mag.
  destruct (ops_alloc_ok (mag_size (tc s)) (mem s) (pool s) (sr_pool _ _ Hs) (sr_mem _ _ Hs)) as (o & m & p & -> & _ & _ & _ & _ & _ & _ & Hd).
  cbn. destruct o as [[|hd items]|]; [done| |intros [= _ <-]; apply Hd].
  destruct (link_items hd items m) as [m1|] eqn:E; [|done]. intros [= _ <-] Hx. cbn. apply (link_items_dom _ _ _ _ _ E), Hd, Hx.
Qed.

Lemma tcache_alloc_dom ltc (s : tstore P) r ltc' s' ms x :
  store_rep s ms -> tcache_alloc ltc s = Ok (r, ltc', s') -> is_Some (mem s !! x) -> is_Some (mem s' !! x).
Proof.
  intros Hs. unfold tcache_alloc. case_bool_decide; [|destruct (load _ _); cbn; [|done]; by intros [= _ _ <-]].
  intros Ho%bug_on_inv%bug_on_inv%bug_on_inv. revert Ho.
  destruct (negb (previous ltc =? NULL)); [by intros ->%alloc_loaded_mem|].
  destruct (negb (shared_mags (tc s) =? NULL)); [destruct (load _ _); cbn; [|done]; by intros ->%alloc_loaded_mem|].
  destruct (tcache_alloc_mag s) as [[hd s1]|] eqn:E; cbn; [|done]. intros Ho Hx. assert (Hx1 := tcache_alloc_mag_dom _ _ _ _ x Hs E Hx).
  destruct (hd =? NULL); [by injection Ho as _ _ <-|by apply alloc_loaded_mem in Ho as ->].
Qed.

Lemma free_loaded_dom item prev ltc (s : tstore P) ltc' s' x :
  free_loaded item prev ltc s = Ok (ltc', s') -> is_Some (mem s !! x) -> is_Some (mem s' !! x).
Proof. unfold free_loaded. destruct (set_next_item _ _ _) eqn:E; cbn; [|done]. intros [= _ <-]. by apply (set_next_item_dom _ _ _ _ _ E). Qed.

Lemma tcache_free_dom item ltc (s : tstore P) ltc' s' x :
  tcache_free item ltc s = Ok (ltc', s') -> is_Some (mem s !! x) -> is_Some (mem s' !! x).
Proof.
  unfold tcache_free. case_bool_decide.
  2:{ destruct (set_next_item _ _ _) eqn:E; cbn; [|done]. intros [= _ <-]. by apply (set_next_item_dom _ _ _ _ _ E). }
  intros Ho%bug_on_inv%bug_on_inv. revert Ho.
  destruct (previous ltc =? NULL); [apply free_loaded_dom|]. destruct (set_next_mag _ _ _) eqn:E; cbn; [|done]. intros Hf Hx.
  apply (free_loaded_dom _ _ _ _ _ _ _ Hf). by apply (set_next_mag_dom _ _ _ _ _ E).
Qed.

Lemma chain_mem m p l x : chain m p l -> x ∈ l -> is_Some (m !! x).
Proof.
  revert p. induction l as [|y l IH]; intros p; [by intros _ ?%elem_of_nil|]. intros (_ & _ & h & Hm & Hc) [->|Hx]%elem_of_cons; [by exists h|by apply (IH _ Hc)].
Qed.

Lemma mags_mem m p ms x : mags m p ms -> x ∈ concat ms -> is_Some (m !! x).
Proof.
  revert p. induction ms as [|l ms IH]; intros p; cbn; [by intros _ ?%elem_of_nil|].
  intros (_ & Hc & h & _ & Hm) [Hx|Hx]%elem_of_app; [by apply (chain_mem _ _ _ _ Hc)|by apply (IH _ Hm)].
Qed.

(** ** A thread that allocates, frees and writes to what it holds

    [ns] is the size of the slab an item belongs to, [held] the items the program holds
    with the sizes it asked for. *)
Context (ns : Z -> Z).

Inductive sop := SAlloc (size : Z) | SFree (item : Z) | SWrite (item : Z) (h : tcache_hdr).

Definition sm_exec (op : sop) (s : smalloc_st P) (held : list (Z * Z)) : option (res (smalloc_st P * list (Z * Z))) :=
  match op with
  | SAlloc size => Some ('(r, s) ← smalloc size s; Ok (s, if r =? NULL then held else (r, size) :: held))
  | SFree item =>
      if bool_decide (item ∈ held.*1) then Some (s ← sfree ns item s; Ok (s, filter (fun h => h.1 <> item) held)) else None
  | SWrite item h =>
      if bool_decide (item ∈ held.*1) then Some (Ok (SmallocSt (<[item := h]> (smem s)) (smalloc_pts s) (smalloc_tcaches s), held)) else None
  end.

Inductive sm_reach (s0 : smalloc_st P) : smalloc_st P -> list (Z * Z) -> Prop :=
| sm_start : sm_reach s0 s0 []
| sm_step op s held s' held' : sm_reach s0 s held -> (forall size, op = SAlloc size -> 0 < size) ->
    sm_exec op s held = Some (Ok (s', held')) -> sm_reach s0 s' held'.

(** The slabs of [smalloc_init]: those of class [i] manage items of [class_size i] bytes. *)
Record spools_ok (m : memory) (pools : list P) : Prop := {
  so_len : length pools = SMALLOC_BITS;
  so_ok : forall i p, pools !! i = Some p -> pool_ok p /\ forall x, x ∈ pool_all p -> is_Some (m !! x) /\ ns x = class_size i;
  so_disj : forall i j p q x, i <> j -> pools !! i = Some p -> pools !! j = Some q -> x ∈ pool_all p -> x ∉ pool_all q;
}.

(** ** Invariant: the magazines of each class, by the items in them *)
Record ghost := Ghost { g_ld : list Z; g_pv : list Z; g_ms : list (list Z) }.

Definition gitems (g : ghost) (p : P) : list Z := g_ld g ++ g_pv g ++ concat (g_ms g) ++ pool_free p.

Definition class_ok (m : memory) (i : nat) (pt : tcache_perthread) (tp : tcache * P) (g : ghost) : Prop :=
  store_rep (Store m tp.1 tp.2) (g_ms g) /\ mag_size tp.1 = SMALLOC_MAG_SIZE /\
  ltc_rep SMALLOC_MAG_SIZE m pt (g_ld g) (g_pv g) /\ NoDup (gitems g tp.2) /\ forall x, x ∈ gitems g tp.2 -> ns x = class_size i.

Definition held_ok (m : memory) (h : Z * Z) : Prop :=
  h.1 <> NULL /\ is_Some (m !! h.1) /\ 0 < h.2 <= SMALLOC_MAX_SIZE /\ ns h.1 = class_size (Z.to_nat (smalloc_size_to_idx h.2)).

Record sm_inv (s : smalloc_st P) (held : list (Z * Z)) (G : nat -> ghost) : Prop := {
  sv_pts : length (smalloc_pts s) = SMALLOC_BITS;
  sv_tcs : length (smalloc_tcaches s) = SMALLOC_BITS;
  sv_class : forall i pt tp, smalloc_pts s !! i = Some pt -> smalloc_tcaches s !! i = Some tp -> class_ok (smem s) i pt tp (G i);
  sv_disj : forall i j tp tq x, i <> j -> smalloc_tcaches s !! i = Some tp -> smalloc_tcaches s !! j = Some tq ->
    x ∈ gitems (G i) tp.2 -> x ∉ gitems (G j) tq.2;
  sv_held : forall h, h ∈ held -> held_ok (smem s) h /\ forall i tp, smalloc_tcaches s !! i = Some tp -> h.1 ∉ gitems (G i) tp.2;
  sv_nodup : NoDup held.*1;
}.

Lemma class_mem m i pt tp g x : class_ok m i pt tp g -> x ∈ gitems g tp.2 -> is_Some (m !! x).
Proof.
  intros (Hs & _ & (H1 & H2 & _) & _) [Hx|[Hx|[Hx|Hx]%elem_of_app]%elem_of_app]%elem_of_app.
  - by apply (chain_mem _ _ _ _ H1).
  - by apply (chain_mem _ _ _ _ H2).
  - by apply (mags_mem _ _ _ _ (sr_mags _ _ Hs)).
  - apply (sr_mem _ _ Hs). apply pool_free_all; [apply Hs|done].
Qed.

Lemma class_frame m m' i pt tp g : class_ok m i pt tp g ->
  (forall x, x ∈ gitems g tp.2 -> m' !! x = m !! x) -> (forall x, is_Some (m !! x) -> is_Some (m' !! x)) -> class_ok m' i pt tp g.
Proof.
  intros (Hs & Hz & Hr & Hn & Hc) Hf Hd. split_and!; [|done| |done|done].
  - destruct Hs as [S1 S2 S3 S4 S5]. split; cbn in *; auto. apply (mags_frame m); [done|]. intros x Hx. apply Hf. unfold gitems. set_solver.
  - apply (ltc_rep_frame _ m); [done|]. intros x Hx. apply Hf. unfold gitems. set_solver.
Qed.

Definition upd (G : nat -> ghost) (i : nat) (g : ghost) : nat -> ghost := fun j => if decide (j = i) then g else G j.

(** Replacing one class: items move between it and the program only. *)
Lemma inv_update s held G i pt tp m pt' tp' g' held' :
  sm_inv s held G -> smalloc_pts s !! i = Some pt -> smalloc_tcaches s !! i = Some tp ->
  class_ok m i pt' tp' g' ->
  (forall x, x ∉ gitems (G i) tp.2 -> x ∉ held.*1 -> is_Some (smem s !! x) -> m !! x = smem s !! x) ->
  (forall x, is_Some (smem s !! x) -> is_Some (m !! x)) ->
  (forall x, x ∈ gitems g' tp'.2 -> x ∈ gitems (G i) tp.2 \/ x ∈ held.*1) ->
  (forall h, h ∈ held' -> held_ok m h /\ (h.1 ∉ gitems g' tp'.2) /\ (h.1 ∈ gitems (G i) tp.2 \/ h ∈ held)) -> NoDup held'.*1 ->
  sm_inv (SmallocSt m (<[i := pt']> (smalloc_pts s)) (<[i := tp']> (smalloc_tcaches s))) held' (upd G i g').
Proof.
  intros Hi Ep Et Hc Hf Hd Hin Hh Hn.
  assert (Hfst : forall x j tq, x ∈ held.*1 -> smalloc_tcaches s !! j = Some tq -> x ∉ gitems (G j) tq.2).
  { intros x j tq (h & -> & Hx)%list_elem_of_fmap E. by apply (sv_held _ _ _ Hi h Hx). }
  assert (Hother : forall x j tq, j <> i -> smalloc_tcaches s !! j = Some tq -> x ∈ gitems g' tp'.2 -> x ∉ gitems (G j) tq.2).
  { intros x j tq Hj E [Hx|Hx]%Hin; [by apply (sv_disj _ _ _ Hi i j tp tq x)|by apply Hfst]. }
  assert (Lp := lookup_lt_Some _ _ _ Ep). assert (Lt := lookup_lt_Some _ _ _ Et). split; cbn.
  - rewrite length_insert. apply Hi.
  - rewrite length_insert. apply Hi.
  - intros j pt0 tp0 E1 E2. unfold upd. destruct (decide (j = i)) as [->|Hj].
    { rewrite list_lookup_insert_eq in E1 by done; rewrite list_lookup_insert_eq in E2 by done. by injection E1 as <-; injection E2 as <-. }
    rewrite list_lookup_insert_ne in E1 by done; rewrite list_lookup_insert_ne in E2 by done. assert (Hcj := sv_class _ _ _ Hi j _ _ E1 E2).
    apply (class_frame (smem s)); [done| |done]. intros x Hx. apply Hf; [|by intros X; apply (Hfst x j tp0)|by apply (class_mem _ _ _ _ _ _ Hcj)].
    by apply (sv_disj _ _ _ Hi j i tp0 tp).
  - intros j k tq tr x Hjk E1 E2. unfold upd. destruct (decide (j = i)) as [->|Hj], (decide (k = i)) as [->|Hk]; try done.
    + rewrite list_lookup_insert_eq in E1 by done. rewrite list_lookup_insert_ne in E2 by done. injection E1 as <-. intros Hx. by apply (Hother x k).
    + rewrite list_lookup_insert_eq in E2 by done. rewrite list_lookup_insert_ne in E1 by done. injection E2 as <-. intros Hx Hx'. by apply (Hother x j tq).
    + rewrite list_lookup_insert_ne in E1 by done; rewrite list_lookup_insert_ne in E2 by done. by apply (sv_disj _ _ _ Hi j k).
  - intros h Hx. destruct (Hh h Hx) as (H1 & H2 & H3). split; [done|]. intros j tq E. unfold upd. destruct (decide (j = i)) as [->|Hj].
    { rewrite list_lookup_insert_eq in E by done. by injection E as <-. }
    rewrite list_lookup_insert_ne in E by done. destruct H3 as [H3|H3]; [by apply (sv_disj _ _ _ Hi i j tp tq)|].
    by apply (sv_held _ _ _ Hi h H3).
  - done.
Qed.

(** One class alone: [tcache_alloc] and [tcache_free] with what they leave alone. *)
Definition outside (X : list Z) (m : memory) : list Z := filter (fun x => x ∉ X) (elements (dom m)).

Lemma elem_of_outside X (m : memory) x : x ∈ outside X m <-> (x ∉ X) /\ is_Some (m !! x).
Proof. unfold outside. by rewrite list_elem_of_filter, elem_of_elements, elem_of_dom. Qed.

Lemma class_alloc m i pt tp g : class_ok m i pt tp g ->
  exists r pt' st g', tcache_alloc pt (Store m tp.1 tp.2) = Ok (r, pt', st) /\ class_ok (mem st) i pt' (tc st, pool st) g' /\
    (forall x, x ∉ gitems g tp.2 -> is_Some (m !! x) -> mem st !! x = m !! x) /\ (forall x, is_Some (m !! x) -> is_Some (mem st !! x)) /\
    (if decide (r = NULL) then [] else [r]) ++ gitems g' (pool st) ≡ₚ gitems g tp.2 /\
    (r = NULL -> (length (pool_free tp.2) < SMALLOC_MAG_SIZE)%nat).
Proof.
  intros (Hs & Hz & Hr & Hn & Hc).
  destruct (tcache_alloc_ok pt (Store m tp.1 tp.2) (g_ld g) (g_pv g) (g_ms g) (outside (gitems g tp.2) m) Hs) as (r & pt' & st & ld & pv & ms & E & Hs' & Hr' & (F1 & F2 & F3) & Hp & Hnull).
  { cbn. by rewrite Hz. }
  { intros x (Hx & _)%elem_of_outside Hx'. apply Hx. unfold gitems. cbn in Hx'. set_solver. }
  cbn in *. unfold cached in Hp. cbn in Hp. exists r, pt', st, (Ghost ld pv ms).
  assert (Hp' : (if decide (r = NULL) then [] else [r]) ++ gitems (Ghost ld pv ms) (pool st) ≡ₚ gitems g tp.2) by exact Hp.
  split_and!; [done| | |intros x; apply (tcache_alloc_dom _ _ _ _ _ _ x Hs E)|done|rewrite <- Hz; by intros (_ & _ & _ & ?)%Hnull].
  - split_and!; cbn; [by destruct st|by rewrite F2|by rewrite <- Hz| |].
    + rewrite <- Hp' in Hn. by apply list.NoDup_app in Hn as (_ & _ & ?).
    + intros x Hx. apply Hc. rewrite <- Hp'. apply elem_of_app. by right.
  - intros x Hx Hm. apply F3. by apply elem_of_outside.
Qed.

Lemma class_free m i pt tp g item : class_ok m i pt tp g -> item ∉ gitems g tp.2 -> is_Some (m !! item) -> item <> NULL -> ns item = class_size i ->
  exists pt' st g', tcache_free item pt (Store m tp.1 tp.2) = Ok (pt', st) /\ class_ok (mem st) i pt' (tc st, pool st) g' /\
    (forall x, x ∉ item :: gitems g tp.2 -> is_Some (m !! x) -> mem st !! x = m !! x) /\ (forall x, is_Some (m !! x) -> is_Some (mem st !! x)) /\
    gitems g' (pool st) ≡ₚ item :: gitems g tp.2 /\
    exists pt'' st', tcache_alloc pt' st = Ok (item, pt'', st').
Proof.
  intros (Hs & Hz & Hr & Hn & Hc) Hi Hm Hnn Hni.
  destruct (tcache_free_ok item pt (Store m tp.1 tp.2) (g_ld g) (g_pv g) (g_ms g) (outside (item :: gitems g tp.2) m) Hs) as (pt' & st & ld & pv & ms & E & Hs' & Hr' & (F1 & F2 & F3) & Hp); [by cbn; rewrite Hz| |done..|].
  { unfold gitems in *. rewrite !app_assoc in Hn. apply list.NoDup_app in Hn as (Hn & _). rewrite <- app_assoc in Hn.
    apply list.NoDup_cons. split.
    - rewrite elem_of_app. intros [(Hx & _)%elem_of_outside|Hx]; [apply Hx; by left|]. apply Hi. rewrite !elem_of_app in *. tauto.
    - apply list.NoDup_app. split_and!; [apply list.NoDup_filter, NoDup_elements| |done].
      intros x (Hx & _)%elem_of_outside Hx'. apply Hx. right. rewrite !elem_of_app in *. tauto. }
  cbn in *. unfold cached in Hp. cbn in Hp. exists pt', st, (Ghost (item :: ld) pv ms).
  assert (Hp' : gitems (Ghost (item :: ld) pv ms) (pool st) ≡ₚ item :: gitems g tp.2) by exact Hp.
  split_and!; [done| | |intros x; apply (tcache_free_dom _ _ _ _ _ x E)|done|].
  - split_and!; cbn; [by destruct st|by rewrite F2|by rewrite <- Hz|rewrite Hp'; by apply list.NoDup_cons|].
    intros x Hx. rewrite Hp' in Hx. apply elem_of_cons in Hx as [->|Hx]; [done|by apply Hc].
  - intros x Hx Hmx. apply F3. by apply elem_of_outside.
  - destruct Hr' as ((Hl & _ & h & Hh & _) & _ & Hrd & _). unfold tcache_alloc, load. rewrite bool_decide_eq_false_2 by (rewrite Hrd; cbn; lia).
    rewrite Hl, Hh. cbn. eauto.
Qed.

Lemma class_lookup (s : smalloc_st P) held G i : sm_inv s held G -> (i < SMALLOC_BITS)%nat ->
  exists pt t p, smalloc_pts s !! i = Some pt /\ smalloc_tcaches s !! i = Some (t, p).
Proof.
  intros Hi Hl. destruct (lookup_lt_is_Some_2 (smalloc_pts s) i) as [pt Ep]; [by rewrite (sv_pts _ _ _ Hi)|].
  destruct (lookup_lt_is_Some_2 (smalloc_tcaches s) i) as [[t p] Et]; [by rewrite (sv_tcs _ _ _ Hi)|]. eauto.
Qed.

Lemma pt_get_ok (s : smalloc_st P) i pt t p : smalloc_pts s !! i = Some pt -> smalloc_tcaches s !! i = Some (t, p) -> pt_get (Z.of_nat i) s = Ok (pt, Store (smem s) t p).
Proof. intros E1 E2. unfold pt_get. rewrite (proj2 (Z.ltb_ge _ _)), Nat2Z.id, E1, E2 by lia. done. Qed.

(** [smalloc] returns the item its class gives it. *)
Lemma smalloc_eq (s : smalloc_st P) size i pt t p r pt' st : 0 < size <= SMALLOC_MAX_SIZE -> smalloc_size_to_idx size = Z.of_nat i ->
  smalloc_pts s !! i = Some pt -> smalloc_tcaches s !! i = Some (t, p) -> tcache_alloc pt (Store (smem s) t p) = Ok (r, pt', st) ->
  smalloc size s = Ok (r, SmallocSt (mem st) (<[i := pt']> (smalloc_pts s)) (<[i := (tc st, pool st)]> (smalloc_tcaches s))).
Proof.
  intros Hs Ei E1 E2 E. unfold smalloc. rewrite Z.gtb_ltb, (proj2 (Z.ltb_ge _ _)) by lia. cbv zeta. rewrite Ei, (pt_get_ok s i pt t p E1 E2). cbn. rewrite E. cbn.
  unfold pt_put. by rewrite Nat2Z.id.
Qed.

Definition refused (s : smalloc_st P) (size : Z) : Prop :=
  exists t p, smalloc_tcaches s !! Z.to_nat (smalloc_size_to_idx size) = Some (t, p) /\ (length (pool_free p) < SMALLOC_MAG_SIZE)%nat.

Lemma smalloc_ok (s : smalloc_st P) held G size : sm_inv s held G -> 0 < size <= SMALLOC_MAX_SIZE ->
  exists r s' G', smalloc size s = Ok (r, s') /\ sm_inv s' (if r =? NULL then held else (r, size) :: held) G' /\
    (r = NULL -> refused s size) /\ (r ∉ held.*1).
Proof.
  intros Hi Hs. destruct (class_fits size Hs) as (Hr & _). destruct (idx_range size Hs) as (Hr' & _). set (i := Z.to_nat (smalloc_size_to_idx size)) in *.
  assert (Ei : smalloc_size_to_idx size = Z.of_nat i) by (subst i; lia).
  destruct (class_lookup s held G i Hi ltac:(lia)) as (pt & t & p & Ep & Et). assert (Hc := sv_class _ _ _ Hi i _ _ Ep Et).
  destruct (class_alloc _ _ _ _ _ Hc) as (r & pt' & st & g' & E & Hc' & Hf & Hd & Hp & Hnull). cbn in *.
  exists r, (SmallocSt (mem st) (<[i := pt']> (smalloc_pts s)) (<[i := (tc st, pool st)]> (smalloc_tcaches s))), (upd G i g'). split; [by apply (smalloc_eq s size i pt t p)|].
  assert (Hin : forall x, x ∈ gitems g' (pool st) -> x ∈ gitems (G i) p) by (intros x Hx; rewrite <- Hp; apply elem_of_app; by right).
  assert (Hh : forall h, h ∈ held -> held_ok (mem st) h /\ (h.1 ∉ gitems g' (pool st)) /\ (h.1 ∈ gitems (G i) p \/ h ∈ held)).
  { intros h Hx. destruct (sv_held _ _ _ Hi h Hx) as ((H1 & H2 & H3) & H4). split_and!; [split_and!; auto; apply H3| |by right].
    intros Hx'. by apply (H4 i (t, p) Et), Hin. }
  assert (Hnr : r <> NULL -> r ∈ gitems (G i) p /\ (r ∉ gitems g' (pool st))).
  { intros Hn. rewrite decide_False in Hp by done. split; [rewrite <- Hp; by left|]. destruct Hc as (_ & _ & _ & Hnd & _). cbn in Hnd. rewrite <- Hp in Hnd. by apply list.NoDup_cons in Hnd as [? _]. }
  assert (Hrh : r ∉ held.*1).
  { intros (h & -> & Hx)%list_elem_of_fmap. destruct (sv_held _ _ _ Hi h Hx) as ((Hn & _) & H4). by apply (H4 i (t, p) Et), Hnr. }
  split_and!; [|intros Er; exists t, p; fold i; split; [done|by apply Hnull]|done].
  apply (inv_update s held G i pt (t, p)); cbn; auto.
  - intros h Hx. destruct (Z.eqb_spec r NULL) as [|Hn]; [by apply Hh|]. apply elem_of_cons in Hx as [->|Hx]; [|by apply Hh]. destruct (Hnr Hn) as [N1 N2]. cbn.
    split_and!; [|done|by left]. split_and!; cbn; [done| |lia..|].
    + apply Hd. by apply (class_mem _ _ _ _ _ _ Hc).
    + destruct Hc as (_ & _ & _ & _ & Hns). by apply Hns.
  - destruct (Z.eqb_spec r NULL) as [|Hn]; [apply Hi|]. cbn. apply list.NoDup_cons. split; [done|apply Hi].
Qed.

Lemma smalloc_big size (s : smalloc_st P) : SMALLOC_MAX_SIZE < size -> smalloc size s = Ok (NULL, s).
Proof. intros Hs. unfold smalloc. by rewrite Z.gtb_ltb, (proj2 (Z.ltb_lt _ _)). Qed.

Lemma smalloc_zero (s : smalloc_st P) : length (smalloc_pts s) = SMALLOC_BITS -> smalloc 0 s = Bug.
Proof.
  intros Hl. unfold smalloc. change (0 >? SMALLOC_MAX_SIZE) with false. change (smalloc_size_to_idx 0) with 60. unfold pt_get.
  change (60 <? 0) with false. cbn [negb]. rewrite lookup_ge_None_2; [done|]. rewrite Hl. unfold SMALLOC_BITS. lia.
Qed.

(** A freed item is the next one a request of its size gets. *)
Lemma sfree_ok (s : smalloc_st P) held G h : sm_inv s held G -> h ∈ held ->
  exists s' G', sfree ns h.1 s = Ok s' /\ sm_inv s' (filter (fun k => k.1 <> h.1) held) G' /\
    forall size, 32 < size -> size <= ns h.1 < 2 * size -> exists s'', smalloc size s' = Ok (h.1, s'').
Proof.
  intros Hi Hh. destruct (sv_held _ _ _ Hi h Hh) as ((Hn & Hm & Hs & Hns) & Hout). destruct (class_fits h.2 Hs) as (Hr & _).
  set (c := Z.to_nat (smalloc_size_to_idx h.2)) in *. assert (Hj := free_class_range c Hr). assert (Ej := free_class_idx c Hr). rewrite <- Hns in Ej.
  assert (Hcs := free_class_size c Hr). rewrite <- Hns in Hcs. set (j := free_class c) in *.
  destruct (class_lookup s held G j Hi ltac:(lia)) as (pt & t & p & Ep & Et). assert (Hc := sv_class _ _ _ Hi j _ _ Ep Et).
  destruct (class_free _ _ _ _ _ h.1 Hc (Hout j (t, p) Et) Hm Hn (eq_sym Hcs)) as (pt' & st & g' & E & Hc' & Hf & Hd & Hp & pt'' & st' & E').
  cbn in *. set (s1 := SmallocSt (mem st) (<[j := pt']> (smalloc_pts s)) (<[j := (tc st, pool st)]> (smalloc_tcaches s))).
  exists s1, (upd G j g'). split_and!.
  - unfold sfree. cbv zeta. rewrite Ej, (pt_get_ok s j pt t p Ep Et). cbn. rewrite E. cbn. unfold pt_put. by rewrite Nat2Z.id.
  - assert (Hfst : h.1 ∈ held.*1) by (by apply list_elem_of_fmap_2). apply (inv_update s held G j pt (t, p)); cbn; auto.
    + intros x Hx Hx'. apply Hf. intros [->|X]%elem_of_cons; done.
    + intros x. rewrite Hp, elem_of_cons. intros [->|?]; auto.
    + intros k [Hk Hx]%list_elem_of_filter. destruct (sv_held _ _ _ Hi k Hx) as ((K1 & K2 & K3) & K4). split_and!; [split_and!; auto; apply K3| |by right].
      rewrite Hp, elem_of_cons. intros [?|Hx']; [done|]. by apply (K4 j (t, p) Et).
    + eapply sublist_NoDup; [apply Hi|]. by apply fmap_sublist, sublist_filter.
  - intros size H32 Hfit. assert (Hlt := lookup_lt_Some _ _ _ Ep). assert (Hlt' := lookup_lt_Some _ _ _ Et). assert (Hb : size <= SMALLOC_MAX_SIZE).
    { rewrite Hns, class_size_eq in Hfit by done. case_bool_decide; [change SMALLOC_MAX_SIZE with 262144; lia|].
      assert (2 ^ (Z.of_nat c + 4) <= 2 ^ 18) by (apply Z.pow_le_mono_r; unfold SMALLOC_BITS in Hr; lia). change SMALLOC_MAX_SIZE with (2 ^ 18). lia. }
    eexists. apply (smalloc_eq s1 size j pt' (tc st) (pool st) h.1 pt'' st'); cbn; [lia|..].
    + apply idx_of_fit; [lia|done|]. by rewrite Hcs.
    + by apply list_lookup_insert_eq.
    + by apply list_lookup_insert_eq.
    + by destruct st.
Qed.

Lemma swrite_ok (s : smalloc_st P) held G x h : sm_inv s held G -> x ∈ held.*1 -> sm_inv (SmallocSt (<[x := h]> (smem s)) (smalloc_pts s) (smalloc_tcaches s)) held G.
Proof.
  intros Hi (k & -> & Hk)%list_elem_of_fmap. destruct (sv_held _ _ _ Hi k Hk) as (_ & Hout). split; cbn; try apply Hi.
  - intros i pt tp E1 E2. apply (class_frame (smem s)); [by apply Hi| |apply insert_dom]. intros x Hx. rewrite lookup_insert_ne; [done|]. intros <-. by apply (Hout i tp E2).
  - intros h0 H0. destruct (sv_held _ _ _ Hi h0 H0) as ((H1 & H2 & H3) & H4). split; [|done]. split_and!; [done|by apply insert_dom|apply H3..].
Qed.

Lemma smalloc_init_eq malloc_ok i (pools : list P) tcs : smalloc_init malloc_ok i pools = Ok (Some tcs) -> tcs = (fun p => (Tcache 0 SMALLOC_MAG_SIZE NULL, p)) <$> pools.
Proof.
  revert i tcs. induction pools as [|p pools IH]; intros i tcs; cbn; [by intros [= <-]|]. unfold tcache_create.
  intros Ht. destruct (BUG_ON (class_size i <? TCACHE_MIN_ITEM_SIZE)); [|done]. cbn in Ht. destruct (malloc_ok i); [|done]. cbn in Ht.
  destruct (smalloc_init malloc_ok (S i) pools) as [[l|]|] eqn:E; try done. injection Ht as <-. by rewrite (IH _ _ E).
Qed.

Lemma start_inv m malloc_ok (pools : list P) tcs : spools_ok m pools -> smalloc_init malloc_ok 0 pools = Ok (Some tcs) ->
  sm_inv (smalloc_init_thread m tcs) [] (fun _ => Ghost [] [] []).
Proof.
  intros [Hl Ho Hdj] ->%smalloc_init_eq. split; cbn.
  - by rewrite !length_fmap.
  - by rewrite length_fmap.
  - intros i pt tp E1 E2. rewrite !list_lookup_fmap in E1. rewrite list_lookup_fmap in E2. destruct (pools !! i) as [p|] eqn:Ep; [|done].
    cbn in E1, E2. injection E1 as <-. injection E2 as <-. destruct (Ho i p Ep) as [H1 H2]. split_and!; cbn; try done.
    + split; cbn; try done; [unfold SMALLOC_MAG_SIZE, TCACHE_MAX_MAG_SIZE; lia|intros x Hx; by apply H2].
    + split_and!; cbn; try done; [unfold SMALLOC_MAG_SIZE; lia|by left].
    + by apply pool_free_nodup.
    + intros x Hx. apply H2. by apply pool_free_all.
  - intros i j tp tq x Hij E1 E2. rewrite list_lookup_fmap in E1. rewrite list_lookup_fmap in E2.
    destruct (pools !! i) as [p|] eqn:Ep; [|done]. destruct (pools !! j) as [q|] eqn:Eq; [|done]. cbn in E1, E2. injection E1 as <-. injection E2 as <-. unfold gitems. cbn.
    intros Hx Hx'. apply (Hdj i j p q x Hij Ep Eq); (apply pool_free_all; [|done]); [by apply (Ho i)|by apply (Ho j)].
  - by intros h ?%elem_of_nil.
  - apply base.NoDup_nil_2.
Qed.

Lemma sm_reach_inv (s0 s : smalloc_st P) held : (exists G, sm_inv s0 [] G) -> sm_reach s0 s held -> exists G, sm_inv s held G.
Proof.
  intros H0. induction 1 as [|op s held s' held' _ [G IH] Hop E]; [done|]. destruct op as [size|x|x h]; cbn in E.
  - specialize (Hop size eq_refl). destruct (Z.le_gt_cases size SMALLOC_MAX_SIZE) as [Hle|Hgt].
    + destruct (smalloc_ok s held G size IH ltac:(lia)) as (r & s1 & G' & E1 & Hi & _). rewrite E1 in E. cbn in E. injection E as <- <-. eauto.
    + rewrite smalloc_big in E by lia. cbn in E. injection E as <- <-. eauto.
  - case_bool_decide as Hx; [|done]. apply list_elem_of_fmap in Hx as (h & -> & Hx). destruct (sfree_ok s held G h IH Hx) as (s1 & G' & E1 & Hi & _).
    rewrite E1 in E. cbn in E. injection E as <- <-. eauto.
  - case_bool_decide as Hx; [|done]. injection E as <- <-. exists G. by apply swrite_ok.
Qed.

End smalloc_run.

(** ** Witness

    Slabs as lists of items; that of class 3 manages eight items of 128 bytes. *)
Record lpool := LPool { lp_all : list Z; lp_free : list Z }.

#[local] Program Instance lpool_ops : TcacheOps lpool := {|
  ops_alloc n m p := Ok (if bool_decide (n <= length (lp_free p))%nat then (Some (take n (lp_free p)), m, LPool (lp_all p) (drop n (lp_free p))) else (None, m, p));
  ops_free l m p := Ok (m, LPool (lp_all p) (l ++ lp_free p));
  pool_ok p := NoDup (lp_all p) /\ (NULL ∉ lp_all p) /\ lp_free p ⊆+ lp_all p;
  pool_all := lp_all;
  pool_free := lp_free;
|}.
Next Obligation. by intros p (_ & _ & ?). Qed.
Next Obligation. by intros p (? & _). Qed.
Next Obligation. by intros p (_ & ? & _). Qed.
Next Obligation.
  intros n m [a f] (H1 & H2 & H3) _. cbn in *. case_bool_decide as Hn; cbn.
  - do 3 eexists. split; [done|]. cbn. split_and!; try done; [|by rewrite take_drop|intros l [= <-]; rewrite length_take; lia].
    etrans; [|exact H3]. rewrite <- (take_drop n f) at 2. by apply submseteq_inserts_l.
  - do 3 eexists. split; [done|]. cbn. split_and!; try done. lia.
Qed.
Next Obligation. intros l m [a f] (H1 & H2 & H3) _ Hs. cbn in *. do 2 eexists. split; [done|]. by split_and!. Qed.

Definition items128 : list Z := (fun k => 4096 + 128 * Z.of_nat k) <$> seq 0 8.
Definition ns128 (x : Z) : Z := if bool_decide (x ∈ items128) then 128 else 0.
Definition mem128 : memory := list_to_map ((fun x => (x, Hdr 0 0)) <$> items128).
Definition pools128 : list lpool := <[3%nat := LPool items128 items128]> (replicate SMALLOC_BITS (LPool [] [])).

Lemma pools128_lookup i p : pools128 !! i = Some p -> i = 3%nat /\ p = LPool items128 items128 \/ p = LPool [] [].
Proof.
  unfold pools128. destruct (decide (i = 3%nat)) as [->|]; [by rewrite list_lookup_insert_eq by (rewrite length_replicate; vm_compute; lia); intros [= <-]; left|].
  rewrite list_lookup_insert_ne by done. intros [-> _]%lookup_replicate. by right.
Qed.

Lemma pools128_ok : spools_ok ns128 mem128 pools128.
Proof.
  split; [done| |].
  - intros i p [[-> ->]| ->]%pools128_lookup; cbn; (split; [split_and!|]); try done; try (by intros x ?%elem_of_nil); try (by intros ?%elem_of_nil); try apply base.NoDup_nil_2.
    + apply (bool_decide_unpack (NoDup items128)). by vm_compute.
    + apply (bool_decide_unpack (NULL ∉ items128)). by vm_compute.
    + apply (proj1 (list.Forall_forall (fun x => is_Some (mem128 !! x) /\ ns128 x = class_size 3) items128)). unfold items128. cbn [seq fmap list_fmap].
      repeat (apply List.Forall_cons; [split; [by eexists|by vm_compute]|]). by apply List.Forall_nil.
  - intros i j p q x Hij [[-> ->]| ->]%pools128_lookup [[-> ->]| ->]%pools128_lookup; cbn; try done; by intros ? ?%elem_of_nil || by intros ?%elem_of_nil.
Qed.

