(* ===== verification/Shm.v ===== *)
(** * inc/iokernel/shm.h: pointers into memory shared by two address spaces

    A region is mapped at some address of the process that looks at it; pointers inside
    the region are passed as offsets from its start.  NULL is 0.  Sizes and offsets come
    from the other side and can be any 64-bit value. *)

From S2P Require Import Prelude Stddef Lrpc.

Definition ULONG_MAX : Z := M64 - 1.
Definition SHMPTR_NULL : Z := ULONG_MAX.

Record shm_region := ShmRegion { base : Z; rlen : Z }.

Definition ptr_to_shmptr (r : shm_region) (ptr len : Z) : res Z :=
  _ ← BUG_ON (negb (base r <=? ptr));
  _ ← BUG_ON (negb (u64 (ptr + len) <=? u64 (base r + rlen r)));
  Ok (u64 (ptr - base r)).

Definition shmptr_to_ptr (r : shm_region) (shmptr len : Z) : Z :=
  if (ULONG_MAX - shmptr <? rlen r) || (rlen r <? u64 (shmptr + len)) then 0
  else u64 (shmptr + base r).

(** ** Chains of requests: [next] is the field of the request in shared memory *)

Definition shm_chain_get_next (r : shm_region) (next len : Z) : Z := shmptr_to_ptr r next len.

(** The new value of the field. *)
Definition shm_chain_set_next (r : shm_region) (c_next next len : Z) : res Z :=
  shmptr ← ptr_to_shmptr r next len;
  _ ← BUG_ON (negb (c_next =? SHMPTR_NULL));
  Ok shmptr.

(** ** Channels *)

Record queue_spec := QueueSpec { msg_count : Z; msg_buf : Z; wb : Z }.

Definition sizeof_lrpc_msg : Z := 16.

(** A channel together with the addresses of its table and of the receiver's head. *)
Record chan_at (C : Type) := ChanAt { chan : C; chan_tbl : Z; chan_wb : Z }.
#[global] Arguments ChanAt {C} _ _ _.
#[global] Arguments chan {C} _.
#[global] Arguments chan_tbl {C} _.
#[global] Arguments chan_wb {C} _.

(** The code common to both directions, [init] being [lrpc_init_in] or [lrpc_init_out],
    which takes the size as an [unsigned int]. *)
Definition shm_init_lrpc {C} (init : Z -> Z * option C) (r : shm_region) (s : queue_spec) : Z * option (chan_at C) :=
  let tbl := shmptr_to_ptr r (msg_buf s) (u64 (sizeof_lrpc_msg * msg_count s)) in
  if tbl =? 0 then (- EINVAL, None)
  else
    let w := shmptr_to_ptr r (wb s) 4 in
    if w =? 0 then (- EINVAL, None)
    else
      let '(ret, c) := init (u32 (msg_count s)) in
      (ret, (fun c => ChanAt c tbl w) <$> c).

Definition shm_init_lrpc_in : shm_region -> queue_spec -> Z * option (chan_at lrpc_chan_in) := shm_init_lrpc lrpc_init_in.
Definition shm_init_lrpc_out : shm_region -> queue_spec -> Z * option (chan_at lrpc_chan_out) := shm_init_lrpc lrpc_init_out.

(** ** Generation numbers: the address and the last value seen *)

Definition shm_init_gen (r : shm_region) (gen_ptr : Z) : Z * option Z :=
  let gen := shmptr_to_ptr r gen_ptr 4 in
  if gen =? 0 then (- EINVAL, None) else (0, Some gen).

(** ** Objects inside a region *)

(** A mapping of a user process. *)
Definition region_ok (r : shm_region) : Prop := 0 < base r /\ 0 <= rlen r /\ base r + rlen r <= 2 ^ 47.

Definition in_region (r : shm_region) (a n : Z) : Prop := base r <= a /\ a + n <= base r + rlen r.

(** The sum of an offset and a size, neither of which is to be trusted. *)
Definition no_wrap (p n : Z) : Prop := p + n < M64.

Lemma shmptr_fits r p n :
  region_ok r -> 0 <= p -> 0 <= n -> p + n <= rlen r -> shmptr_to_ptr r p n = base r + p /\ base r + p <> 0.
Proof.
  intros (Hb & Hl & Hm) Hp Hn Hf. unfold shmptr_to_ptr, ULONG_MAX, no_wrap in *.
  rewrite (u64_id (p + n)) by ulia. rewrite u64_id by ulia. destruct (Z.ltb_spec (M64 - 1 - p) (rlen r)); [ulia|].
  destruct (Z.ltb_spec (rlen r) (p + n)); [lia|]. cbn. lia.
Qed.

(** An answer other than NULL is inside the region if the sum does not wrap around,
    which is so for objects that are not larger than the region. *)
Lemma shmptr_sound r p n :
  region_ok r -> in_u64 p -> in_u64 n -> no_wrap p n \/ n <= rlen r -> shmptr_to_ptr r p n <> 0 ->
  shmptr_to_ptr r p n = base r + p /\ p + n <= rlen r /\ in_region r (shmptr_to_ptr r p n) n.
Proof.
  intros (Hb & Hl & Hm) Hp Hn Hw. unfold shmptr_to_ptr, ULONG_MAX, no_wrap, in_region in *.
  destruct (Z.ltb_spec (M64 - 1 - p) (rlen r)) as [|H1]; [done|].
  assert (Hs : u64 (p + n) = p + n) by (apply u64_id; ulia). rewrite Hs.
  destruct (Z.ltb_spec (rlen r) (p + n)) as [|H2]; [done|]. intros _. rewrite u64_id by ulia.  cbn [orb]. split_and!; ulia.
Qed.

(** Whatever the region, some offset and size are accepted although the object starts
    behind its end. *)
Lemma shmptr_wraps r :
  region_ok r ->
  exists p n, in_u64 p /\ in_u64 n /\ shmptr_to_ptr r p n = base r + rlen r + 1 /\ shmptr_to_ptr r p n <> 0.
Proof.
  intros (Hb & Hl & Hm). exists (rlen r + 1), (M64 - (rlen r + 1)). unfold shmptr_to_ptr, ULONG_MAX.
  replace (rlen r + 1 + (M64 - (rlen r + 1))) with M64 by lia. change (u64 M64) with 0.
  destruct (Z.ltb_spec (M64 - 1 - (rlen r + 1)) (rlen r)); [ulia|]. destruct (Z.ltb_spec (rlen r) 0); [lia|]. cbn.
  rewrite u64_id by ulia. split_and!; ulia.
Qed.

(** A pointer survives the trip to the other address space, where the region is at
    another address. *)
Lemma shmptr_roundtrip r r' ptr n :
  region_ok r -> region_ok r' -> rlen r' = rlen r -> 0 <= n -> in_region r ptr n ->
  exists p, ptr_to_shmptr r ptr n = Ok p /\ shmptr_to_ptr r' p n = base r' + (ptr - base r).
Proof.
  intros (Hb & Hl & Hm) Hr' Hlen Hn (H1 & H2). exists (ptr - base r). unfold ptr_to_shmptr.
  rewrite !u64_id by ulia. destruct (Z.leb_spec (base r) ptr); [|lia]. destruct (Z.leb_spec (ptr + n) (base r + rlen r)); [|lia].
  split; [done|]. apply shmptr_fits; auto; lia.
Qed.

(** ** Channels inside a region *)

Definition chan_in_region {C} (size : C -> Z) (r : shm_region) (c : chan_at C) : Prop :=
  in_region r (chan_tbl c) (sizeof_lrpc_msg * size (chan c)) /\ in_region r (chan_wb c) 4.

Definition spec_no_wrap (s : queue_spec) : Prop := no_wrap (msg_buf s) (u64 (sizeof_lrpc_msg * msg_count s)).

Definition spec_u64 (s : queue_spec) : Prop := in_u64 (msg_count s) /\ in_u64 (msg_buf s) /\ in_u64 (wb s).

Lemma table_size m : 0 <= m -> sizeof_lrpc_msg * u32 m <= u64 (sizeof_lrpc_msg * m).
Proof. unfold sizeof_lrpc_msg. intros Hm. ulia. Qed.

Lemma init_lrpc_ok {C} (init : Z -> Z * option C) (size : C -> Z) r s ret c :
  (forall n ret c, init n = (ret, Some c) -> size c = n) ->
  region_ok r -> 4 <= rlen r -> spec_u64 s -> shm_init_lrpc init r s = (ret, Some c) ->
  size (chan c) = u32 (msg_count s) /\ in_region r (chan_wb c) 4 /\ (spec_no_wrap s -> chan_in_region size r c).
Proof.
  intros Hinit Hr H4 (U1 & U2 & U3) E. unfold shm_init_lrpc in E.
  destruct (Z.eqb_spec (shmptr_to_ptr r (msg_buf s) (u64 (sizeof_lrpc_msg * msg_count s))) 0) as [|Ht]; [done|].
  destruct (Z.eqb_spec (shmptr_to_ptr r (wb s) 4) 0) as [|Hw]; [done|].
  destruct (init (u32 (msg_count s))) as [rt [c0|]] eqn:Ei; [|done]. injection E as <- <-. apply Hinit in Ei.
  assert (Hwb : in_region r (shmptr_to_ptr r (wb s) 4) 4) by (apply shmptr_sound; auto; ulia).
  split_and!; auto. intros Hn. split; [|done]. cbn [chan chan_tbl]. rewrite Ei.
  destruct (shmptr_sound r (msg_buf s) (u64 (sizeof_lrpc_msg * msg_count s))) as (_ & _ & H1 & H2); auto using u64_range.
  split; [done|]. assert (Hs := table_size (msg_count s)). unfold in_u64 in U1. lia.
Qed.
