(* ===== verification/Control.v ===== *)
(** * iokernel/control.c: the control plane of the IOKernel

    A runtime connects, passes a shared-memory key and event descriptors, and the control
    thread builds a process from what the runtime wrote to the shared memory.  Nothing of
    this is trusted: offsets, sizes and counts are arbitrary values of their C types.

    The state is what the control thread owns: blocks from malloc, mappings, descriptors
    and the table of clients.  Freeing or unmapping what is not owned and reading outside
    the region is [Bug]; closing a descriptor that is not open is recorded in [ebadf]. *)

From S2P Require Import Prelude Stddef Lrpc Page IokState IokSched Arp Shm.

(** ** What the runtime writes *)

Definition HWQ_INVALID : Z := 0.
Definition HWQ_MLX5_QSTEERING : Z := 2.

Record hardware_queue_spec := HwqSpec {
  hs_descriptor_table : Z;
  hs_consumer_idx : Z;
  hs_descriptor_log_size : Z;
  hs_nr_descriptors : Z;
  hs_parity_byte_offset : Z;
  hs_parity_bit_mask : Z;
  hs_hwq_type : Z;
}.

Record thread_spec := ThreadSpec {
  sp_rxq : queue_spec;
  sp_txpktq : queue_spec;
  sp_txcmdq : queue_spec;
  sp_q_ptrs : Z;
  sp_tid : Z;
  sp_direct_rxq : hardware_queue_spec;
  sp_storage_hwq : hardware_queue_spec;
  sp_next_tsc : Z;
}.

Definition CONTROL_HDR_MAGIC : Z := 1768909626.
Definition CONTROL_HDR_VERSION : Z := 4.

Record control_hdr := ControlHdr {
  version_no : Z;
  magic : Z;
  h_thread_count : Z;
  egress_buf_count : Z;
  h_congestion_info : Z;
  h_mac : eth_addr;
  h_sched_cfg : sched_spec;
  thread_specs : Z;
}.

Definition sizeof_control_hdr : Z := 72.
Definition sizeof_thread_spec : Z := 184.
Definition sizeof_congestion_info : Z := 16.
Definition sizeof_q_ptrs : Z := 48.

(** ** What the IOKernel keeps: addresses in the region *)

Record chwq := CHwq {
  ch_enabled : bool;
  ch_queue_steering : bool;
  ch_descriptor_table : Z;
  ch_consumer_idx : Z;
  ch_descriptor_log_size : Z;
  ch_nr_descriptors : Z;
  ch_parity_byte_offset : Z;
  ch_parity_bit_mask : Z;
}.

Record cthread := CThread {
  ct_rxq : chan_at lrpc_chan_out;
  ct_txpktq : chan_at lrpc_chan_in;
  ct_txcmdq : chan_at lrpc_chan_in;
  ct_next_tsc : Z;
  ct_tid : Z;
  ct_park_efd : Z;
  ct_q_ptrs : Z;
  ct_directpath_hwq : chwq;
  ct_storage_hwq : chwq;
}.

(** [cp_queue_size] is the size of the block at [cp_overflow_queue], in bytes. *)
Record cproc := CProc {
  cp_pid : Z;
  cp_region : shm_region;
  cp_removed : bool;
  cp_has_directpath : bool;
  cp_sched_cfg : sched_spec;
  cp_threads : list cthread;
  cp_mac : eth_addr;
  cp_congestion_info : Z;
  cp_page_paddrs : list Z;
  cp_max_overflows : Z;
  cp_overflow_queue : Z;
  cp_queue_size : Z;
}.

Definition set_removed (p : cproc) : cproc :=
  CProc (cp_pid p) (cp_region p) true (cp_has_directpath p) (cp_sched_cfg p) (cp_threads p) (cp_mac p)
    (cp_congestion_info p) (cp_page_paddrs p) (cp_max_overflows p) (cp_overflow_queue p) (cp_queue_size p).

(** ** Hardware queues *)

(** [1 << n] for an [int]: undefined for 32 and more. *)
Definition shl1 (n : Z) : res Z := if n <? 32 then Ok (u32 (2 ^ n)) else Bug.

Definition control_init_hwq (r : shm_region) (hs : hardware_queue_spec) : res (Z * chwq) :=
  if hs_hwq_type hs =? HWQ_INVALID then Ok (0, CHwq false false 0 0 0 0 0 0)
  else
    sz ← shl1 (hs_descriptor_log_size hs);
    let tbl := shmptr_to_ptr r (hs_descriptor_table hs) (u32 (sz * hs_nr_descriptors hs)) in
    let cons := shmptr_to_ptr r (hs_consumer_idx hs) 4 in
    let h := CHwq true (hs_hwq_type hs =? HWQ_MLX5_QSTEERING) tbl cons (hs_descriptor_log_size hs)
      (hs_nr_descriptors hs) (hs_parity_byte_offset hs) (hs_parity_bit_mask hs) in
    if (tbl =? 0) || (cons =? 0) then Ok (- EINVAL, h)
    else if negb (is_power_of_two (hs_nr_descriptors hs)) then Ok (- EINVAL, h)
    else if sz <? hs_parity_byte_offset hs then Ok (- EINVAL, h)
    else Ok (0, h).

(** ** The state of the control thread *)

Record ctl := Ctl {
  heap : gset Z;
  maps : gset Z;
  fds : gset Z;
  ebadf : list Z;
  cprocs : gmap Z cproc;
  cclients : list (Z * Z);         (* clients[] and clientfds[] *)
  nr_guaranteed : Z;
}.

Definition set_heap v (c : ctl) := Ctl v (maps c) (fds c) (ebadf c) (cprocs c) (cclients c) (nr_guaranteed c).
Definition set_maps v (c : ctl) := Ctl (heap c) v (fds c) (ebadf c) (cprocs c) (cclients c) (nr_guaranteed c).
Definition set_fds v (c : ctl) := Ctl (heap c) (maps c) v (ebadf c) (cprocs c) (cclients c) (nr_guaranteed c).
Definition set_ebadf v (c : ctl) := Ctl (heap c) (maps c) (fds c) v (cprocs c) (cclients c) (nr_guaranteed c).
Definition set_cprocs v (c : ctl) := Ctl (heap c) (maps c) (fds c) (ebadf c) v (cclients c) (nr_guaranteed c).
Definition set_cclients v (c : ctl) := Ctl (heap c) (maps c) (fds c) (ebadf c) (cprocs c) v (nr_guaranteed c).
Definition set_nr_guaranteed v (c : ctl) := Ctl (heap c) (maps c) (fds c) (ebadf c) (cprocs c) (cclients c) v.

(** [a] is the answer of malloc. *)
Definition alloc (a : Z) (c : ctl) : ctl := set_heap ({[a]} ∪ heap c) c.

Definition free (a : Z) (c : ctl) : res ctl :=
  if a =? 0 then Ok c
  else if bool_decide (a ∈ heap c) then Ok (set_heap (heap c ∖ {[a]}) (set_cprocs (delete a (cprocs c)) c))
  else Bug.

Definition mem_unmap_shm (b : Z) (c : ctl) : res ctl :=
  if bool_decide (b ∈ maps c) then Ok (set_maps (maps c ∖ {[b]}) c) else Bug.

Definition close (fd : Z) (c : ctl) : ctl :=
  if bool_decide (fd ∈ fds c) then set_fds (fds c ∖ {[fd]}) c else set_ebadf (ebadf c ++ [fd]) c.

(** ** A new process *)

(** The answers of the system to one connection: the address of the mapping, of the
    blocks for the thread specs, the process and the overflow queue (0 is NULL), the
    physical addresses of the pages, and the contents of the mapping. *)
Record os := Os {
  os_map : option Z;
  os_threads : Z;
  os_proc : Z;
  os_queue : Z;
  os_paddrs : option (list Z);
  os_hdr : control_hdr;
  os_spec : Z -> thread_spec;
}.

Definition copy_shm_data (o : os) (r : shm_region) (ptr : Z) (n : nat) (c : ctl) : res (Z * list thread_spec * ctl) :=
  let len := Z.of_nat n * sizeof_thread_spec in
  let inp := shmptr_to_ptr r ptr len in
  if inp =? 0 then Ok (0, [], c)
  else if os_threads o =? 0 then Ok (0, [], c)
  else
    _ ← BUG_ON (negb ((base r <=? inp) && (inp + len <=? base r + rlen r)));
    Ok (os_threads o, map (fun i => os_spec o (inp + Z.of_nat i * sizeof_thread_spec)) (seq 0 n), alloc (os_threads o) c).

Definition eth_addr_is_zero (a : eth_addr) : bool := forallb (Z.eqb 0) a.

(** One thread: [None] is a jump to [fail]. *)
Definition init_thread (r : shm_region) (s : thread_spec) (fd : Z) : res (option cthread) :=
  match shm_init_lrpc_out r (sp_rxq s) with
  | (0, Some rxq) =>
      match shm_init_lrpc_in r (sp_txpktq s) with
      | (0, Some txpktq) =>
          match shm_init_lrpc_in r (sp_txcmdq s) with
          | (0, Some txcmdq) =>
              let next_tsc := shmptr_to_ptr r (sp_next_tsc s) 8 in
              if next_tsc =? 0 then Ok None
              else
                let q_ptrs := shmptr_to_ptr r (sp_q_ptrs s) sizeof_q_ptrs in
                if q_ptrs =? 0 then Ok None
                else
                  '(ret, dh) ← control_init_hwq r (sp_direct_rxq s);
                  if negb (ret =? 0) then Ok None
                  else
                    '(ret, sh) ← control_init_hwq r (sp_storage_hwq s);
                    if negb (ret =? 0) then Ok None
                    else Ok (Some (CThread rxq txpktq txcmdq next_tsc (sp_tid s) fd q_ptrs dh sh))
          | _ => Ok None
          end
      | _ => Ok None
      end
  | _ => Ok None
  end.

Fixpoint init_threads (r : shm_region) (specs : list thread_spec) (efds : list Z) : res (option (list cthread)) :=
  match specs, efds with
  | [], _ => Ok (Some [])
  | s :: specs, fd :: efds =>
      t ← init_thread r s fd;
      match t with
      | None => Ok None
      | Some t => l ← init_threads r specs efds; Ok (option_map (cons t) l)
      end
  | _ :: _, [] => Bug
  end.

(** The label [fail], with what was allocated so far. *)
Definition fail (b q t p : Z) (c : ctl) : res (Z * ctl) :=
  c ← free q c;
  c ← free t c;
  c ← free p c;
  c ← mem_unmap_shm b c;
  Ok (0, c).

Definition hdr_ok (T : topo) (n_fds : nat) (nr : Z) (h : control_hdr) : bool :=
  (magic h =? CONTROL_HDR_MAGIC) && (version_no h =? CONTROL_HDR_VERSION) &&
  negb ((Z.of_nat NCPU <? h_thread_count h) || (h_thread_count h =? 0) || negb (h_thread_count h =? Z.of_nat n_fds)) &&
  negb (Z.of_nat (size (sched_allowed_cores T)) <? u32 (guaranteed_cores (h_sched_cfg h) + nr)).

(** From the allocation of the process on, the specs having been copied to [t]. *)
Definition create_rest (o : os) (r : shm_region) (pid : Z) (efds : list Z) (t : Z) (specs : list thread_spec) (c : ctl) : res (Z * ctl) :=
  let h := os_hdr o in
  let b := base r in
  if os_proc o =? 0 then fail b 0 t 0 c
  else
    let c := alloc (os_proc o) c in
    if eth_addr_is_multicast (h_mac h) || eth_addr_is_zero (h_mac h) then fail b 0 t (os_proc o) c
    else
      let ci := shmptr_to_ptr r (h_congestion_info h) sizeof_congestion_info in
      if ci =? 0 then fail b 0 t (os_proc o) c
      else
        ths ← init_threads r specs efds;
        match ths with
        | None => fail b 0 t (os_proc o) c
        | Some ths =>
            match os_paddrs o with
            | None => fail b 0 t (os_proc o) c
            | Some pas =>
                if os_queue o =? 0 then fail b 0 t (os_proc o) c
                else
                  let c := alloc (os_queue o) c in
                  let g := guaranteed_cores (h_sched_cfg h) in
                  let pr := CProc pid r false
                    (existsb (fun t => ch_enabled (ct_directpath_hwq t)) ths) (h_sched_cfg h) ths (h_mac h) ci pas
                    (egress_buf_count h) (os_queue o) (u64 (8 * egress_buf_count h)) in
                  c ← free t (set_nr_guaranteed (s32 (nr_guaranteed c + g)) c);
                  Ok (os_proc o, set_cprocs (<[os_proc o := pr]> (cprocs c)) c)
            end
        end.

Definition control_create_proc (T : topo) (o : os) (len pid : Z) (efds : list Z) (c : ctl) : res (Z * ctl) :=
  if len <? sizeof_control_hdr then Ok (0, c)
  else
    match os_map o with
    | None => Ok (0, c)
    | Some b =>
        let c := set_maps ({[b]} ∪ maps c) c in
        let r := ShmRegion b len in
        let h := os_hdr o in
        if negb (hdr_ok T (length efds) (nr_guaranteed c) h) then fail b 0 0 0 c
        else
          '(t, specs, c) ← copy_shm_data o r (thread_specs h) (Z.to_nat (h_thread_count h)) c;
          if t =? 0 then fail b 0 0 0 c else create_rest o r pid efds t specs c
    end.

Definition control_destroy_proc (p : Z) (c : ctl) : res ctl :=
  match cprocs c !! p with
  | None => Bug
  | Some pr =>
      let c := foldl (fun c t => close (ct_park_efd t) c) c (cp_threads pr) in
      let c := set_nr_guaranteed (s32 (nr_guaranteed c - guaranteed_cores (cp_sched_cfg pr))) c in
      c ← mem_unmap_shm (base (cp_region pr)) c;
      c ← free (cp_overflow_queue pr) c;
      free p c
  end.

(** ** Clients *)

(** A connection: the descriptor, whether the credentials, key and length could be read,
    the length and the process id, the descriptors received ([None] if that failed), and
    whether the data plane's queue has room. *)
Record conn := Conn {
  cn_fd : Z;
  cn_read : bool;
  cn_len : Z;
  cn_pid : Z;
  cn_efds : option (list Z);
  cn_os : os;
  cn_send : bool;
}.

Definition close_all (l : list Z) (c : ctl) : ctl := foldl (fun c fd => close fd c) c l.

Definition control_add_client (T : topo) (n : conn) (c : ctl) : res ctl :=
  let fd := cn_fd n in
  let c := set_fds ({[fd]} ∪ fds c) c in
  if (IOKERNEL_MAX_PROC <=? length (cclients c))%nat then Ok (close fd c)
  else if negb (cn_read n) then Ok (close fd c)
  else
    match cn_efds n with
    | None | Some [] => Ok (close fd c)
    | Some efds =>
        let c := set_fds (list_to_set efds ∪ fds c) c in
        '(p, c) ← control_create_proc T (cn_os n) (cn_len n) (cn_pid n) efds c;
        if p =? 0 then Ok (close fd (close_all efds c))
        else if negb (cn_send n) then
          c ← control_destroy_proc p c;
          Ok (close fd (close_all efds c))
        else Ok (set_cclients (cclients c ++ [(p, fd)]) c)
    end.

(** The client whose connection was closed; whether the data plane is told depends on
    its queue and does not change the state. *)
Definition control_instruct_dataplane_to_remove_client (fd : Z) (c : ctl) : ctl :=
  match list_find (fun x => x.2 = fd) (cclients c) with
  | None => c
  | Some (_, (p, _)) => set_cprocs (alter set_removed p (cprocs c)) c
  end.

Definition control_remove_client (p : Z) (c : ctl) : res ctl :=
  match list_find (fun x => x.1 = p) (cclients c) with
  | None => Ok c
  | Some (i, (_, fd)) =>
      c ← control_destroy_proc p c;
      match cclients c !! (length (cclients c) - 1)%nat with
      | None => Bug
      | Some l => Ok (close fd (set_cclients (take (length (cclients c) - 1) (<[i := l]> (cclients c))) c))
      end
  end.
