(* ===== verification/ControlProc.v ===== *)
(** * The control plane: a process that is accepted, blocks that are owned

    The first part bounds the addresses the IOKernel takes from a runtime; the second
    shows that creating a process takes exactly its own resources or none, and that
    destroying it gives them back. *)

From S2P Require Import Prelude Stddef Lrpc Page IokState IokSched IokInv IokMach Arp Shm Control.

(** ** Hardware queues *)

(** The values of a spec have the widths of their C types, and the size of a descriptor
    can be computed. *)
Definition hs_wf (hs : hardware_queue_spec) : Prop :=
  in_u64 (hs_descriptor_table hs) /\ in_u64 (hs_consumer_idx hs) /\ 0 <= hs_descriptor_log_size hs < 32 /\
  in_u32 (hs_nr_descriptors hs) /\ in_u32 (hs_parity_byte_offset hs).

(** The size of the table, computed in 32 bits, is what it should be; the flag is
    inside a descriptor. *)
Definition hs_fits (hs : hardware_queue_spec) : Prop :=
  2 ^ hs_descriptor_log_size hs * hs_nr_descriptors hs < M32 /\
  no_wrap (hs_descriptor_table hs) (2 ^ hs_descriptor_log_size hs * hs_nr_descriptors hs) /\
  hs_parity_byte_offset hs < 2 ^ hs_descriptor_log_size hs.

(** The queue as the scheduler sees it, the byte at address [a] being [mem a]. *)
Definition hwq_of (mem : Z -> Z) (mem32 : Z -> Z) (h : chwq) : hwq :=
  Hwq (ch_enabled h) (ch_queue_steering h) (fun off => mem (ch_descriptor_table h + off)) (mem32 (ch_consumer_idx h))
    (ch_descriptor_log_size h) (ch_nr_descriptors h) (ch_parity_byte_offset h) (ch_parity_bit_mask h) 0 0.

Definition hwq_in_region (r : shm_region) (h : chwq) : Prop := ch_enabled h = true -> in_region r (ch_consumer_idx h) 4.

Lemma init_hwq_total r hs : hs_wf hs -> exists ret h, control_init_hwq r hs = Ok (ret, h).
Proof.
  intros (_ & _ & Hl & _). unfold control_init_hwq, shl1. destruct (_ =? HWQ_INVALID); [eauto|].
  destruct (Z.ltb_spec (hs_descriptor_log_size hs) 32); [|lia]. cbn [mbind res_bind]. repeat case_match; eauto.
Qed.

(** What the fields of an accepted queue are. *)
Lemma init_hwq_inv r hs h :
  hs_wf hs -> control_init_hwq r hs = Ok (0, h) -> ch_enabled h = true ->
  ch_descriptor_table h = shmptr_to_ptr r (hs_descriptor_table hs) (u32 (2 ^ hs_descriptor_log_size hs * hs_nr_descriptors hs)) /\
  ch_consumer_idx h = shmptr_to_ptr r (hs_consumer_idx hs) 4 /\ ch_descriptor_table h <> 0 /\ ch_consumer_idx h <> 0 /\
  ch_descriptor_log_size h = hs_descriptor_log_size hs /\ ch_nr_descriptors h = hs_nr_descriptors hs /\
  ch_parity_byte_offset h = hs_parity_byte_offset hs /\ is_power_of_two (hs_nr_descriptors hs) = true.
Proof.
  intros (_ & _ & Hl & _). unfold control_init_hwq, shl1. destruct (_ =? HWQ_INVALID); [by intros [= <-]|].
  destruct (Z.ltb_spec (hs_descriptor_log_size hs) 32); [|lia]. cbn [mbind res_bind].
  assert (Hs : u32 (2 ^ hs_descriptor_log_size hs) = 2 ^ hs_descriptor_log_size hs).
  { apply u32_id. split; [apply Z.pow_nonneg; lia|]. change M32 with (2 ^ 32). apply Z.pow_lt_mono_r; lia. }
  rewrite Hs. destruct (Z.eqb_spec (shmptr_to_ptr r (hs_descriptor_table hs) (u32 (2 ^ hs_descriptor_log_size hs * hs_nr_descriptors hs))) 0); [by intros [=]|].
  destruct (Z.eqb_spec (shmptr_to_ptr r (hs_consumer_idx hs) 4) 0); [by intros [=]|]. cbn [orb].
  destruct (is_power_of_two _); [|by intros [=]]. cbn [negb]. destruct (_ <? _); [by intros [=]|]. intros [= <-] _. by split_and!.
Qed.

Lemma init_hwq_fixed r hs h :
  region_ok r -> 4 <= rlen r -> hs_wf hs -> control_init_hwq r hs = Ok (0, h) -> hwq_in_region r h.
Proof.
  intros Hr H4 Hw E He. destruct (init_hwq_inv r hs h Hw E He) as (_ & Ec & _ & Hc & _). destruct Hw as (_ & Hw & _).
  rewrite Ec in *. apply shmptr_sound; auto; ulia.
Qed.

Lemma land_le a b : 0 <= b -> 0 <= Z.land a b <= b.
Proof.
  intros Hb. split; [by apply Z.land_nonneg; right|].
  assert (Hz : Z.ldiff (Z.land a b) b = 0).
  { apply Z.bits_inj'. intros i Hi. rewrite Z.ldiff_spec, Z.land_spec, Z.bits_0. by destruct (Z.testbit a i), (Z.testbit b i). }
  assert (Hd := Z.sub_nocarry_ldiff b (Z.land a b) Hz). assert (0 <= Z.ldiff b (Z.land a b)) by (apply Z.ldiff_nonneg; by left). lia.
Qed.

(** The byte that [hwq_busy] looks at is inside the region. *)
Lemma hwq_addr_ok r hs h i :
  region_ok r -> hs_wf hs -> hs_fits hs -> control_init_hwq r hs = Ok (0, h) -> ch_enabled h = true ->
  in_region r (ch_descriptor_table h + (u32 (Z.shiftl (Z.land i (u32 (ch_nr_descriptors h - 1))) (ch_descriptor_log_size h)) + ch_parity_byte_offset h)) 1.
Proof.
  intros Hr Hw (F1 & F2 & F3) E He. destruct (init_hwq_inv r hs h Hw E He) as (Et & _ & Ht & _ & El & En & Ep & Hp).
  destruct Hw as (W1 & _ & W2 & W3 & W4). rewrite Et in Ht. set (sz := 2 ^ hs_descriptor_log_size hs) in *.
  assert (Hsz : 0 < sz) by (apply Z.pow_pos_nonneg; lia). assert (Hn : 0 < hs_nr_descriptors hs).
  { destruct (Z.eqb_spec (hs_nr_descriptors hs) 0) as [Hz|]; [by rewrite Hz in Hp|]. unfold in_u32 in W3. lia. }
  assert (Hu : u32 (sz * hs_nr_descriptors hs) = sz * hs_nr_descriptors hs) by (apply u32_id; split; nia). rewrite Hu in *.
  destruct (shmptr_sound r (hs_descriptor_table hs) (sz * hs_nr_descriptors hs)) as (_ & _ & R1 & R2); auto.
  { unfold in_u64, M64, M32 in *. split; nia. }
  rewrite <- Et in *. rewrite El, En, Ep. rewrite (u32_id (hs_nr_descriptors hs - 1)) by ulia.
  destruct (land_le i (hs_nr_descriptors hs - 1)) as [L1 L2]; [lia|]. rewrite Z.shiftl_mul_pow2 by lia. fold sz.
  rewrite u32_id by (split; nia). unfold in_u32 in W4. split; nia.
Qed.

(** Polling the queue depends on memory of the region only. *)
Lemma hwq_busy_local r hs h mem mem' m32 i :
  region_ok r -> hs_wf hs -> hs_fits hs -> control_init_hwq r hs = Ok (0, h) -> ch_enabled h = true ->
  (forall a, in_region r a 1 -> mem a = mem' a) -> hwq_busy (hwq_of mem m32 h) i = hwq_busy (hwq_of mem' m32 h) i.
Proof.
  intros Hr Hw Hf E He Hm. unfold hwq_busy. cbn [hwq_of nr_descriptors descriptor_log_size parity_byte_offset parity_bit_mask descriptor_table].
  rewrite Hm; [done|]. by apply (hwq_addr_ok r hs).
Qed.

(** ** Threads *)

Definition qs_fits (s : thread_spec) : Prop :=
  spec_no_wrap (sp_rxq s) /\ spec_no_wrap (sp_txpktq s) /\ spec_no_wrap (sp_txcmdq s).

Definition ts_wf (s : thread_spec) : Prop :=
  spec_u64 (sp_rxq s) /\ spec_u64 (sp_txpktq s) /\ spec_u64 (sp_txcmdq s) /\ in_u64 (sp_q_ptrs s) /\ in_u64 (sp_next_tsc s) /\
  hs_wf (sp_direct_rxq s) /\ hs_wf (sp_storage_hwq s).

(** What the scheduler and the data plane follow without further checks. *)
Record thread_fixed (r : shm_region) (t : cthread) : Prop := {
  tf_rxq : in_region r (chan_wb (ct_rxq t)) 4;
  tf_txpktq : in_region r (chan_wb (ct_txpktq t)) 4;
  tf_txcmdq : in_region r (chan_wb (ct_txcmdq t)) 4;
  tf_next_tsc : in_region r (ct_next_tsc t) 8;
  tf_q_ptrs : in_region r (ct_q_ptrs t) sizeof_q_ptrs;
  tf_direct : hwq_in_region r (ct_directpath_hwq t);
  tf_storage : hwq_in_region r (ct_storage_hwq t);
}.

Definition tables_in_region (r : shm_region) (t : cthread) : Prop :=
  chan_in_region out_size r (ct_rxq t) /\ chan_in_region in_size r (ct_txpktq t) /\ chan_in_region in_size r (ct_txcmdq t).

Lemma init_out_size n ret c : lrpc_init_out n = (ret, Some c) -> out_size c = n.
Proof. unfold lrpc_init_out. destruct (negb _); by intros [= <- <-]. Qed.
Lemma init_in_size n ret c : lrpc_init_in n = (ret, Some c) -> in_size c = n.
Proof. unfold lrpc_init_in. destruct (negb _); by intros [= <- <-]. Qed.

Lemma init_thread_total r s fd : ts_wf s -> exists t, init_thread r s fd = Ok t.
Proof.
  intros (_ & _ & _ & _ & _ & W1 & W2). unfold init_thread.
  destruct (init_hwq_total r _ W1) as (r1 & h1 & ->). destruct (init_hwq_total r _ W2) as (r2 & h2 & ->). cbn [mbind res_bind].
  repeat case_match; eauto.
Qed.

Lemma init_thread_ok r s fd t :
  region_ok r -> sizeof_control_hdr <= rlen r -> ts_wf s -> init_thread r s fd = Ok (Some t) ->
  thread_fixed r t /\ ct_park_efd t = fd /\ ct_tid t = sp_tid s /\ (qs_fits s -> tables_in_region r t) /\
  control_init_hwq r (sp_direct_rxq s) = Ok (0, ct_directpath_hwq t) /\
  control_init_hwq r (sp_storage_hwq s) = Ok (0, ct_storage_hwq t).
Proof.
  intros Hr Hl (W1 & W2 & W3 & W4 & W5 & W6 & W7). unfold sizeof_control_hdr in Hl. assert (H4 : 4 <= rlen r) by lia.
  unfold init_thread. destruct (shm_init_lrpc_out r (sp_rxq s)) as [[| |] [q1|]] eqn:E1; try done.
  destruct (shm_init_lrpc_in r (sp_txpktq s)) as [[| |] [q2|]] eqn:E2; try done.
  destruct (shm_init_lrpc_in r (sp_txcmdq s)) as [[| |] [q3|]] eqn:E3; try done.
  destruct (Z.eqb_spec (shmptr_to_ptr r (sp_next_tsc s) 8) 0); [done|].
  destruct (Z.eqb_spec (shmptr_to_ptr r (sp_q_ptrs s) sizeof_q_ptrs) 0); [done|].
  destruct (init_hwq_total r _ W6) as (r1 & h1 & D1). destruct (init_hwq_total r _ W7) as (r2 & h2 & D2). rewrite D1, D2. cbn [mbind res_bind].
  destruct (Z.eqb_spec r1 0) as [->|]; [|done]. destruct (Z.eqb_spec r2 0) as [->|]; [|done]. cbn [negb]. intros [= <-].
  destruct (init_lrpc_ok _ out_size r _ _ _ init_out_size Hr H4 W1 E1) as (_ & B1 & C1).
  destruct (init_lrpc_ok _ in_size r _ _ _ init_in_size Hr H4 W2 E2) as (_ & B2 & C2).
  destruct (init_lrpc_ok _ in_size r _ _ _ init_in_size Hr H4 W3 E3) as (_ & B3 & C3).
  split_and!; try done.
  - split; cbn; try done; [apply shmptr_sound|apply shmptr_sound|by apply (init_hwq_fixed r (sp_direct_rxq s))|by apply (init_hwq_fixed r (sp_storage_hwq s))];
      auto; unfold sizeof_q_ptrs; ulia.
  - intros (Q1 & Q2 & Q3). split_and!; cbn; auto.
Qed.

Lemma init_threads_total r specs : forall efds,
  Forall ts_wf specs -> (length specs <= length efds)%nat -> exists l, init_threads r specs efds = Ok l.
Proof.
  induction specs as [|s specs IH]; intros efds Hw Hl; cbn; [eauto|]. destruct efds as [|fd efds]; [cbn in Hl; lia|].
  apply Forall_cons_iff in Hw as [Hs Hw]. destruct (init_thread_total r s fd Hs) as (t & ->). cbn [mbind res_bind].
  destruct t as [t|]; [|eauto]. destruct (IH efds Hw) as (l & ->); [cbn in Hl; lia|]. cbn. eauto.
Qed.

(** The threads of an accepted process, one per descriptor, made from the specs. *)
Lemma init_threads_ok r specs : forall efds l,
  init_threads r specs efds = Ok (Some l) -> length specs = length efds ->
  map ct_park_efd l = efds /\ Forall2 (fun s t => init_thread r s (ct_park_efd t) = Ok (Some t)) specs l.
Proof.
  induction specs as [|s specs IH]; intros efds l; cbn.
  { intros [= <-] Hl. destruct efds; [|done]. by split. }
  destruct efds as [|fd efds]; [done|]. destruct (init_thread r s fd) as [[t|]|] eqn:Et; cbn [mbind res_bind]; try done.
  destruct (init_threads r specs efds) as [[l0|]|] eqn:El; cbn; try done. intros [= <-] [= Hl].
  destruct (IH efds l0 El Hl) as [E1 E2]. cbn.
  assert (Hfd : ct_park_efd t = fd).
  { unfold init_thread in Et. repeat case_match; try done; cbn [mbind res_bind] in Et; repeat case_match; try done.
    all: destruct (control_init_hwq r (sp_direct_rxq s)) as [[r1 h1]|]; cbn [mbind res_bind] in Et; [|done].
    all: destruct (r1 =? 0); cbn in Et; [|done].
    all: destruct (control_init_hwq r (sp_storage_hwq s)) as [[r2 h2]|]; cbn [mbind res_bind] in Et; [|done].
    all: destruct (r2 =? 0); cbn in Et; [|done]. all: by injection Et as <-. }
  split; [by rewrite Hfd, E1|]. constructor; [by rewrite Hfd|done].
Qed.

(** ** Creating a process *)

Section create.
Context (T : topo).

(** Blocks and mappings the system hands out are new, and the header and the specs have
    the widths of their C types; the sum of offset and size of the array of specs does
    not wrap around. *)
Record os_ok (o : os) (len : Z) (c : ctl) : Prop := {
  oo_map b : os_map o = Some b -> (b ∉ maps c) /\ region_ok (ShmRegion b len);
  oo_threads : os_threads o ∉ heap c;
  oo_proc : os_proc o ∉ heap c;
  oo_queue : os_queue o ∉ heap c;
  oo_tp : os_threads o <> 0 -> os_threads o <> os_proc o;
  oo_tq : os_threads o <> 0 -> os_threads o <> os_queue o;
  oo_pq : os_proc o <> 0 -> os_proc o <> os_queue o;
  oo_count : in_u32 (h_thread_count (os_hdr o));
  oo_guaranteed : in_u32 (guaranteed_cores (h_sched_cfg (os_hdr o)));
  oo_ci : in_u64 (h_congestion_info (os_hdr o));
  oo_specs : in_u64 (thread_specs (os_hdr o));
  oo_spec a : ts_wf (os_spec o a);
  oo_no_wrap : no_wrap (thread_specs (os_hdr o)) (h_thread_count (os_hdr o) * sizeof_thread_spec);
}.

(** What a process has that was accepted. *)
Record proc_good (nr : Z) (efds : list Z) (o : os) (len : Z) (pr : cproc) : Prop := {
  pg_region : os_map o = Some (base (cp_region pr)) /\ rlen (cp_region pr) = len /\ sizeof_control_hdr <= len;
  pg_count : (1 <= length (cp_threads pr) <= NCPU)%nat;
  pg_efds : map ct_park_efd (cp_threads pr) = efds;
  pg_fixed : Forall (thread_fixed (cp_region pr)) (cp_threads pr);
  pg_made : exists specs, Forall (fun s => exists a, s = os_spec o a) specs /\
    Forall2 (fun s t => init_thread (cp_region pr) s (ct_park_efd t) = Ok (Some t)) specs (cp_threads pr);
  pg_ci : in_region (cp_region pr) (cp_congestion_info pr) sizeof_congestion_info;
  pg_guaranteed : cp_sched_cfg pr = h_sched_cfg (os_hdr o) /\
    u32 (guaranteed_cores (cp_sched_cfg pr) + nr) <= Z.of_nat (size (sched_allowed_cores T));
  pg_queue : cp_overflow_queue pr = os_queue o /\ cp_overflow_queue pr <> 0 /\ cp_max_overflows pr = egress_buf_count (os_hdr o);
  pg_removed : cp_removed pr = false;
}.

Lemma free_ok a c :
  a ∈ heap c -> cprocs c !! a = None -> a <> 0 -> free a c = Ok (set_heap (heap c ∖ {[a]}) c).
Proof.
  intros Ha Hp Hz. unfold free. destruct (Z.eqb_spec a 0); [done|]. rewrite bool_decide_true by done.
  destruct c. cbn in *. unfold set_cprocs, set_heap. cbn. by rewrite delete_id.
Qed.

Definition ctl_with (h m : gset Z) (c : ctl) : ctl := set_maps m (set_heap h c).

Lemma ctl_with_same h m c : h = heap c -> m = maps c -> ctl_with h m c = c.
Proof. intros -> ->. by destruct c. Qed.

(** [fail] gives back what was taken. *)
Lemma fail_ok b t p c h :
  b ∉ maps c -> (t <> 0 -> t ∉ heap c) -> (p <> 0 -> p ∉ heap c) -> (t <> 0 -> t <> p) ->
  (forall a, a ∉ heap c -> cprocs c !! a = None) ->
  h = (if t =? 0 then ∅ else {[t]}) ∪ (if p =? 0 then ∅ else {[p]}) ∪ heap c ->
  fail b 0 t p (ctl_with h ({[b]} ∪ maps c) c) = Ok (0, c).
Proof.
  intros Hb Ht Hp Hne Hdom ->. unfold fail. cbn [free Z.eqb mbind res_bind].
  assert (E1 : free t (ctl_with ((if t =? 0 then ∅ else {[t]}) ∪ (if p =? 0 then ∅ else {[p]}) ∪ heap c) ({[b]} ∪ maps c) c)
    = Ok (ctl_with ((if p =? 0 then ∅ else {[p]}) ∪ heap c) ({[b]} ∪ maps c) c)).
  { destruct (Z.eqb_spec t 0) as [->|Hz]; [cbn; do 2 f_equal; set_solver|].
    rewrite free_ok; [|set_solver|cbn; auto|done]. f_equal. unfold ctl_with, set_heap, set_maps. cbn. f_equal.
    apply set_eq. intros a. destruct (Z.eqb_spec p 0); set_solver. }
  rewrite E1. cbn [mbind res_bind].
  assert (E2 : free p (ctl_with ((if p =? 0 then ∅ else {[p]}) ∪ heap c) ({[b]} ∪ maps c) c) = Ok (ctl_with (heap c) ({[b]} ∪ maps c) c)).
  { destruct (Z.eqb_spec p 0) as [->|Hz]; [cbn; do 2 f_equal; set_solver|].
    rewrite free_ok; [|set_solver|cbn; auto|done]. f_equal. unfold ctl_with, set_heap, set_maps. cbn. f_equal. set_solver. }
  rewrite E2. cbn [mbind res_bind]. unfold mem_unmap_shm. rewrite bool_decide_true by set_solver. cbn [mbind res_bind]. do 2 f_equal.
  apply (ctl_with_same (heap c) (({[b]} ∪ maps c) ∖ {[b]})); [done|set_solver].
Qed.

Lemma copy_ok o len b c n :
  os_map o = Some b -> os_ok o len c -> n = Z.to_nat (h_thread_count (os_hdr o)) ->
  forall h m, let c0 := ctl_with h m c in
  copy_shm_data o (ShmRegion b len) (thread_specs (os_hdr o)) n c0 = Ok (0, [], c0) \/
  os_threads o <> 0 /\ exists specs, length specs = n /\ Forall (fun s => exists a, s = os_spec o a) specs /\
    copy_shm_data o (ShmRegion b len) (thread_specs (os_hdr o)) n c0 = Ok (os_threads o, specs, alloc (os_threads o) c0).
Proof.
  intros Hb Ho -> h m c0. unfold copy_shm_data. set (r := ShmRegion b len). assert (Hr := proj2 (oo_map _ _ _ Ho b Hb)).
  rewrite Z2Nat.id by (apply (oo_count _ _ _ Ho)).
  destruct (Z.eqb_spec (shmptr_to_ptr r (thread_specs (os_hdr o)) (h_thread_count (os_hdr o) * sizeof_thread_spec)) 0) as [|Hi]; [by left|].
  destruct (Z.eqb_spec (os_threads o) 0) as [|Ht]; [by left|]. right. split; [done|].
  assert (Hc := oo_count _ _ _ Ho). destruct (shmptr_sound r (thread_specs (os_hdr o)) (h_thread_count (os_hdr o) * sizeof_thread_spec)) as (_ & _ & R1 & R2); auto.
  - apply (oo_specs _ _ _ Ho).
  - unfold sizeof_thread_spec. ulia.
  - left. apply (oo_no_wrap _ _ _ Ho).
  - apply Z.leb_le in R1, R2. rewrite R1, R2. cbn [andb negb BUG_ON mbind res_bind]. eexists. split; [|split; [|reflexivity]].
    + by rewrite length_map, length_seq.
    + apply list.Forall_forall. intros s (i & -> & _)%list_elem_of_fmap. eauto.
Qed.
(** What creating a process makes of the state, the process being [pr]. *)
Definition created (o : os) (b : Z) (pr : cproc) (c : ctl) : ctl :=
  Ctl ({[os_proc o]} ∪ ({[os_queue o]} ∪ heap c)) ({[b]} ∪ maps c) (fds c) (ebadf c) (<[os_proc o := pr]> (cprocs c)) (cclients c)
    (s32 (nr_guaranteed c + guaranteed_cores (cp_sched_cfg pr))).

Lemma create_rest_ok o len b pid efds specs c :
  os_ok o len c -> os_map o = Some b -> sizeof_control_hdr <= len -> (forall a, a ∉ heap c -> cprocs c !! a = None) ->
  (1 <= length specs <= NCPU)%nat -> length specs = length efds -> Forall (fun s => exists a, s = os_spec o a) specs -> os_threads o <> 0 ->
  u32 (guaranteed_cores (h_sched_cfg (os_hdr o)) + nr_guaranteed c) <= Z.of_nat (size (sched_allowed_cores T)) ->
  let w := create_rest o (ShmRegion b len) pid efds (os_threads o) specs (ctl_with ({[os_threads o]} ∪ heap c) ({[b]} ∪ maps c) c) in
  w = Ok (0, c) \/
  os_proc o <> 0 /\ exists pr, proc_good (nr_guaranteed c) efds o len pr /\ base (cp_region pr) = b /\ w = Ok (os_proc o, created o b pr c).
Proof.
  intros Ho Hb Hlen Hdom Hn Hne Hsp Ht Hg. destruct (oo_map _ _ _ Ho b Hb) as [Hbm Hr]. cbn zeta. unfold create_rest. cbn [base].
  set (c1 := ctl_with ({[os_threads o]} ∪ heap c) ({[b]} ∪ maps c) c).
  assert (F0 : fail b 0 (os_threads o) 0 c1 = Ok (0, c)).
  { apply fail_ok; auto; [intros _; apply Ho|]. destruct (Z.eqb_spec (os_threads o) 0); [done|]. set_solver. }
  destruct (Z.eqb_spec (os_proc o) 0) as [|Hp]; [by left|].
  assert (F1 : fail b 0 (os_threads o) (os_proc o) (alloc (os_proc o) c1) = Ok (0, c)).
  { change (alloc (os_proc o) c1) with (ctl_with ({[os_proc o]} ∪ ({[os_threads o]} ∪ heap c)) ({[b]} ∪ maps c) c).
    apply fail_ok; auto; [intros _; apply Ho|intros _; apply Ho|apply Ho|].
    destruct (Z.eqb_spec (os_threads o) 0), (Z.eqb_spec (os_proc o) 0); set_solver. }
  destruct (_ || _); [by left|].
  destruct (Z.eqb_spec (shmptr_to_ptr (ShmRegion b len) (h_congestion_info (os_hdr o)) sizeof_congestion_info) 0) as [|Hci]; [by left|].
  assert (Hwf : Forall ts_wf specs).
  { apply list.Forall_forall. intros s Hs. apply (list.Forall_forall _ specs) with (x := s) in Hsp as [a ->]; [apply Ho|done]. }
  destruct (init_threads_total (ShmRegion b len) specs efds Hwf) as (ths & Eth); [lia|]. rewrite Eth. cbn [mbind res_bind].
  destruct ths as [ths|]; [|by left]. destruct (os_paddrs o) as [pas|]; [|by left].
  destruct (Z.eqb_spec (os_queue o) 0) as [|Hq]; [by left|]. right. split; [done|].
  destruct (init_threads_ok _ _ _ _ Eth Hne) as [Efd Hmade].
  assert (Efree : forall n, free (os_threads o) (set_nr_guaranteed n (alloc (os_queue o) (alloc (os_proc o) c1))) =
    Ok (set_nr_guaranteed n (ctl_with ({[os_proc o]} ∪ ({[os_queue o]} ∪ heap c)) ({[b]} ∪ maps c) c))).
  { intros n. rewrite free_ok; [|cbn; set_solver|apply Hdom, Ho|done]. f_equal. unfold c1, ctl_with, alloc, set_heap, set_maps, set_nr_guaranteed. cbn. f_equal.
    destruct Ho as [_ Ot _ _ Otp Otq _ _ _ _ _ _ _]. set_solver. }
  set (pr := CProc pid _ _ _ _ _ _ _ _ _ _ _). exists pr. split; [|split; [done|rewrite Efree; reflexivity]].
  assert (Hfix : Forall (thread_fixed (ShmRegion b len)) ths).
  { apply list.Forall_forall. intros t Ht'. apply list_elem_of_lookup_1 in Ht' as [i Hi].
    destruct (Forall2_lookup_r _ _ _ _ _ Hmade Hi) as (s & Hs & E). apply (init_thread_ok _ s (ct_park_efd t)); auto.
    by eapply list.Forall_lookup_1. }
  assert (Hl := Forall2_length Hmade).
  split; cbn; auto; [lia|eauto|]. apply shmptr_sound; auto; [apply Ho|unfold sizeof_congestion_info; ulia|].
  right. cbn. unfold sizeof_congestion_info, sizeof_control_hdr in *. lia.
Qed.

(** Either nothing has changed, or exactly the process, its queue and its mapping have
    been added. *)
Lemma proc_create_ok o len pid efds c :
  os_ok o len c -> (forall a, a ∉ heap c -> cprocs c !! a = None) ->
  control_create_proc T o len pid efds c = Ok (0, c) \/
  os_proc o <> 0 /\ exists b pr, os_map o = Some b /\ base (cp_region pr) = b /\ proc_good (nr_guaranteed c) efds o len pr /\
    control_create_proc T o len pid efds c = Ok (os_proc o, created o b pr c).
Proof.
  intros Ho Hdom. unfold control_create_proc. destruct (Z.ltb_spec len sizeof_control_hdr) as [|Hlen]; [by left|].
  destruct (os_map o) as [b|] eqn:Hb; [|by left]. destruct (oo_map _ _ _ Ho b Hb) as [Hbm Hr].
  set (c0 := set_maps ({[b]} ∪ maps c) c).
  assert (F : fail b 0 0 0 c0 = Ok (0, c)).
  { replace c0 with (ctl_with (heap c) ({[b]} ∪ maps c) c) by done. apply fail_ok; auto; try done. cbn. set_solver. }
  destruct (hdr_ok T (length efds) (nr_guaranteed c0) (os_hdr o)) eqn:Eh; [|by left]. cbn [negb].
  unfold hdr_ok in Eh. repeat (apply andb_prop in Eh as [Eh ?]).
  rewrite negb_true_iff, !orb_false_iff, negb_false_iff in *. destruct_and!.
  assert (Hcnt : h_thread_count (os_hdr o) = Z.of_nat (length efds)) by (by apply Z.eqb_eq).
  assert (Hc := oo_count _ _ _ Ho).
  destruct (copy_ok o len b c (Z.to_nat (h_thread_count (os_hdr o))) Hb Ho eq_refl (heap c) ({[b]} ∪ maps c)) as [E|(Ht & specs & Hl & Hs & E)];
    (change (ctl_with (heap c) ({[b]} ∪ maps c) c) with c0 in E); rewrite E; cbn [mbind res_bind]; [by left|].
  destruct (Z.eqb_spec (os_threads o) 0) as [|_]; [done|].
  assert (Hz : h_thread_count (os_hdr o) <> 0) by (by apply Z.eqb_neq). assert (Hm : h_thread_count (os_hdr o) <= Z.of_nat NCPU) by (by apply Z.ltb_ge).
  destruct (create_rest_ok o len b pid efds specs c Ho Hb Hlen Hdom) as [E1|(Hp & pr & Hg & Hbase & E1)]; auto.
  - unfold NCPU in *. ulia.
  - rewrite Hl, Hcnt. lia.
  - by apply Z.ltb_ge.
  - right. split; [done|]. exists b, pr. auto.
Qed.
End create.

(** ** Ownership *)

(** [l] lists the members of [X], each once. *)
Definition exact (X : gset Z) (l : list Z) : Prop := NoDup l /\ X = list_to_set l.

Lemma exact_perm X l l' : l ≡ₚ l' -> exact X l -> exact X l'.
Proof. intros Hp [Hn ->]. split; [by rewrite <- Hp|]. by apply list_to_set_perm_L. Qed.

Lemma exact_add X l1 l2 : exact X l2 -> NoDup l1 -> (forall a, a ∈ l1 -> a ∉ X) -> exact (list_to_set l1 ∪ X) (l1 ++ l2).
Proof.
  intros [Hn ->] H1 Hd. split; [|by rewrite list_to_set_app_L]. apply list.NoDup_app. split_and!; auto.
  intros a Ha Ha2. apply (Hd a Ha). by rewrite elem_of_list_to_set.
Qed.

Lemma exact_del X l1 l2 : exact X (l1 ++ l2) -> exact (X ∖ list_to_set l1) l2.
Proof.
  intros [(H1 & Hd & H2)%list.NoDup_app ->]. split; [done|]. rewrite list_to_set_app_L. apply set_eq. intros a.
  rewrite elem_of_difference, elem_of_union, !elem_of_list_to_set. split; [tauto|]. intros Ha. split; [by right|]. intros Hb. by apply (Hd a).
Qed.

Lemma exact_elem X l a : exact X l -> a ∈ l -> a ∈ X.
Proof. intros [_ ->]. by rewrite elem_of_list_to_set. Qed.

Lemma close_all_ok l : forall c, NoDup l -> (forall a, a ∈ l -> a ∈ fds c) -> close_all l c = set_fds (fds c ∖ list_to_set l) c.
Proof.
  induction l as [|a l IH]; intros c Hn Hin; cbn.
  { destruct c. cbn. unfold set_fds. cbn. f_equal. set_solver. }
  apply list.NoDup_cons in Hn as [Ha Hn]. change (close_all l (close a c) = set_fds (fds c ∖ ({[a]} ∪ list_to_set l)) c).
  unfold close. rewrite bool_decide_true by (apply Hin; by left). rewrite IH; [|done|].
  - destruct c. unfold set_fds. cbn. f_equal. set_solver.
  - intros x Hx. cbn. apply elem_of_difference. split; [apply Hin; by right|]. intros ->%elem_of_singleton. done.
Qed.

Lemma close_all_bad l : forall c, (forall a, a ∈ l -> a ∉ fds c) -> close_all l c = set_ebadf (ebadf c ++ l) c.
Proof.
  induction l as [|a l IH]; intros c Hin; cbn.
  { destruct c. cbn. unfold set_ebadf. cbn. by rewrite app_nil_r. }
  change (close_all l (close a c) = set_ebadf (ebadf c ++ a :: l) c).
  unfold close. rewrite bool_decide_false by (apply Hin; by left). rewrite IH; [|cbn; intros x Hx; apply Hin; by right].
  destruct c. unfold set_ebadf. cbn. by rewrite <- app_assoc.
Qed.

(** What destroying a process makes of the state. *)
Definition destroyed (p : Z) (pr : cproc) (c : ctl) : ctl :=
  Ctl (heap c ∖ {[cp_overflow_queue pr]} ∖ {[p]}) (maps c ∖ {[base (cp_region pr)]}) (fds c ∖ list_to_set (map ct_park_efd (cp_threads pr)))
    (ebadf c) (delete p (cprocs c)) (cclients c) (s32 (nr_guaranteed c - guaranteed_cores (cp_sched_cfg pr))).

Lemma destroy_ok p pr c :
  cprocs c !! p = Some pr -> p ∈ heap c -> cp_overflow_queue pr ∈ heap c -> p <> cp_overflow_queue pr -> p <> 0 -> cp_overflow_queue pr <> 0 ->
  cprocs c !! cp_overflow_queue pr = None -> base (cp_region pr) ∈ maps c -> NoDup (map ct_park_efd (cp_threads pr)) ->
  (forall a, a ∈ map ct_park_efd (cp_threads pr) -> a ∈ fds c) -> control_destroy_proc p c = Ok (destroyed p pr c).
Proof.
  intros Hp Hph Hq Hpq Hp0 Hq0 Hqn Hb Hn Hf. unfold control_destroy_proc. rewrite Hp.
  assert (E : foldl (fun c t => close (ct_park_efd t) c) c (cp_threads pr) = close_all (map ct_park_efd (cp_threads pr)) c).
  { clear. unfold close_all. generalize c. induction (cp_threads pr) as [|t l IH]; [done|]. intros c1. apply IH. }
  rewrite E, close_all_ok by done. unfold mem_unmap_shm. cbn. rewrite bool_decide_true by done. cbn [mbind res_bind].
  rewrite free_ok by done. cbn [mbind res_bind]. unfold free. destruct (Z.eqb_spec p 0); [done|]. cbn.
  rewrite bool_decide_true by set_solver. done.
Qed.
