(* ===== verification/ControlThms.v ===== *)
(** * The control plane: properties

    The machine of connections that come and go, its invariant, and what holds of the
    processes that are given to the data plane. *)

From S2P Require Import Prelude Stddef Lrpc Page IokState IokSched IokInv IokMach Arp Shm Control ControlProc.

Lemma s32_small x : 0 <= x < 2147483648 -> s32 x = x.
Proof. intros Hx. unfold s32. rewrite u32_id by ulia. destruct (Z.ltb_spec x 2147483648); lia. Qed.

Lemma u32_s32_add a b : u32 (s32 a + b) = u32 (a + b).
Proof.
  unfold s32, u32. destruct (_ <? _); [by rewrite Zplus_mod_idemp_l|].
  replace (a mod M32 - M32 + b) with (a mod M32 + b + (-1) * M32) by lia. by rewrite Z_mod_plus_full, Zplus_mod_idemp_l.
Qed.

(** A 32-bit count that is changed twice. *)
Lemma s32_add a b : s32 (s32 a + b) = s32 (a + b).
Proof. unfold s32 at 1 3. by rewrite u32_s32_add. Qed.

Lemma s32_sub a b : s32 (s32 a - b) = s32 (a - b).
Proof. exact (s32_add a (- b)). Qed.

Lemma s32_s32 a : s32 (s32 a) = s32 a.
Proof. transitivity (s32 (s32 a + 0)); [by rewrite Z.add_0_r|]. by rewrite s32_add, Z.add_0_r. Qed.

Section mach.
Context (T : topo) (HT : (size (sched_allowed_cores T) <= NCPU)%nat).

(** A client: the process, where it is, and the connection. *)
Record ent := Ent { e_p : Z; e_pr : cproc; e_fd : Z }.

Definition e_heap (e : ent) : list Z := [cp_overflow_queue (e_pr e); e_p e].
Definition e_map (e : ent) : Z := base (cp_region (e_pr e)).
Definition e_efds (e : ent) : list Z := map ct_park_efd (cp_threads (e_pr e)).
Definition e_fds (e : ent) : list Z := e_efds e ++ [e_fd e].
Definition e_guaranteed (e : ent) : Z := guaranteed_cores (cp_sched_cfg (e_pr e)).

Fixpoint total (l : list ent) : Z := match l with [] => 0 | e :: l => e_guaranteed e + total l end.

(** The addresses that are followed without checks are inside the region. *)
Record proc_safe (pr : cproc) : Prop := {
  ps_count : (1 <= length (cp_threads pr) <= NCPU)%nat;
  ps_fixed : Forall (thread_fixed (cp_region pr)) (cp_threads pr);
  ps_ci : in_region (cp_region pr) (cp_congestion_info pr) sizeof_congestion_info;
}.

(** The control thread owns what its clients need, and nothing else. *)
Record owns (l : list ent) (c : ctl) : Prop := {
  ow_clients : cclients c = map (fun e => (e_p e, e_fd e)) l;
  ow_heap : exact (heap c) (concat (map e_heap l));
  ow_maps : exact (maps c) (map e_map l);
  ow_fds : exact (fds c) (concat (map e_fds l));
  ow_procs p pr : cprocs c !! p = Some pr <-> exists fd, Ent p pr fd ∈ l;
  ow_nonzero e : e ∈ l -> e_p e <> 0 /\ cp_overflow_queue (e_pr e) <> 0;
  ow_guaranteed : nr_guaranteed c = s32 (total l) /\ forall e, e ∈ l -> 0 <= e_guaranteed e;
  ow_max : (length l <= IOKERNEL_MAX_PROC)%nat;
  ow_safe e : e ∈ l -> proc_safe (e_pr e);
}.

Lemma total_perm l l' : l ≡ₚ l' -> total l = total l'.
Proof. induction 1; cbn; lia. Qed.

Lemma total_nonneg l : (forall e, e ∈ l -> 0 <= e_guaranteed e) -> 0 <= total l.
Proof.
  induction l as [|e l IH]; intros H; cbn; [lia|]. assert (0 <= e_guaranteed e) by (apply H; by left).
  assert (0 <= total l) by (apply IH; intros; apply H; by right). lia.
Qed.

Lemma concat_map_perm (f : ent -> list Z) l l' : l ≡ₚ l' -> concat (map f l) ≡ₚ concat (map f l').
Proof. intros H. induction H; cbn; [done|by f_equiv|rewrite !app_assoc; f_equiv; apply Permutation_app_comm|by etrans]. Qed.

Lemma elem_concat_map (f : ent -> list Z) l a : a ∈ concat (map f l) <-> exists e, e ∈ l /\ a ∈ f e.
Proof.
  induction l as [|e l IH]; cbn; [split; [by intros ?%elem_of_nil|intros (e & He%elem_of_nil & _); done]|].
  rewrite elem_of_app, IH. split.
  - intros [H|(e' & H1 & H2)]; [exists e; split; [by left|done]|exists e'; split; [by right|done]].
  - intros (e' & [->|H1]%elem_of_cons & H2); [by left|right; eauto].
Qed.

Lemma ow_dom l c a : owns l c -> a ∉ heap c -> cprocs c !! a = None.
Proof.
  intros H Ha. apply eq_None_not_Some. intros [pr [fd Hin]%(ow_procs _ _ H)]. apply Ha.
  eapply exact_elem; [apply (ow_heap _ _ H)|]. apply elem_concat_map. exists (Ent a pr fd). split; [done|]. right. by left.
Qed.

(** One client and the others: their blocks are apart. *)
Lemma ow_apart l l' e c :
  owns l c -> l ≡ₚ e :: l' ->
  e_p e <> cp_overflow_queue (e_pr e) /\
  forall e', e' ∈ l' -> e_p e' <> e_p e /\ e_p e' <> cp_overflow_queue (e_pr e).
Proof.
  intros H Hl. assert (Hn := proj1 (ow_heap _ _ H)). rewrite (concat_map_perm e_heap _ _ Hl) in Hn. cbn in Hn.
  apply list.NoDup_cons in Hn as [H1 Hn]. apply list.NoDup_cons in Hn as [H2 _]. rewrite elem_of_cons in H1. split; [intros E; apply H1; by left|].
  intros e' He'. assert (Hin : e_p e' ∈ concat (map e_heap l')).
  { apply elem_concat_map. exists e'. split; [done|]. right. by left. }
  split; intros E; rewrite E in Hin; auto.
Qed.

(** The client [e] leaves. *)
Lemma destroy_client l l' e c :
  owns l c -> l ≡ₚ e :: l' -> control_destroy_proc (e_p e) c = Ok (destroyed (e_p e) (e_pr e) c) /\
  exact (heap c ∖ {[cp_overflow_queue (e_pr e)]} ∖ {[e_p e]}) (concat (map e_heap l')) /\
  exact (maps c ∖ {[base (cp_region (e_pr e))]}) (map e_map l') /\
  exact (fds c ∖ list_to_set (e_efds e)) (e_fd e :: concat (map e_fds l')) /\
  (forall p pr, delete (e_p e) (cprocs c) !! p = Some pr <-> exists fd, Ent p pr fd ∈ l') /\
  s32 (nr_guaranteed c - e_guaranteed e) = s32 (total l') /\ total l' <= total l.
Proof.
  intros H Hl. destruct (ow_apart l l' e c H Hl) as [Hpq Hap].
  assert (Hh := exact_perm _ _ _ (concat_map_perm e_heap _ _ Hl) (ow_heap _ _ H)).
  assert (Hm := exact_perm _ _ _ (fmap_Permutation e_map _ _ Hl) (ow_maps _ _ H)).
  assert (Hf := exact_perm _ _ _ (concat_map_perm e_fds _ _ Hl) (ow_fds _ _ H)). cbn in Hh, Hm, Hf.
  assert (He : e ∈ l) by (rewrite Hl; by left). destruct (ow_nonzero _ _ H e He) as [Hz1 Hz2].
  assert (Hpr : cprocs c !! e_p e = Some (e_pr e)) by (apply (ow_procs _ _ H); exists (e_fd e); by destruct e).
  destruct (ow_guaranteed _ _ H) as (G1 & G3). rewrite (total_perm _ _ Hl) in G1. cbn in G1. assert (G5 := G3 e He).
  split_and!.
  - apply destroy_ok; auto; try (eapply exact_elem; [exact Hh|]; rewrite !elem_of_cons; auto).
    + apply eq_None_not_Some. intros [pr [fd Hin]%(ow_procs _ _ H)]. rewrite Hl in Hin. apply elem_of_cons in Hin as [E|Hin].
      * apply Hpq. exact (eq_sym (f_equal e_p E)).
      * by destruct (Hap _ Hin) as [_ Hx].
    + eapply exact_elem; [exact Hm|]. by left.
    + destruct Hf as [Hf _]. unfold e_fds in Hf. rewrite <- app_assoc in Hf. by apply list.NoDup_app in Hf as [Hf _].
    + intros a Ha. eapply exact_elem; [exact Hf|]. unfold e_fds. rewrite !elem_of_app. by left; left.
  - change (cp_overflow_queue (e_pr e) :: e_p e :: concat (map e_heap l')) with ([cp_overflow_queue (e_pr e)] ++ [e_p e] ++ concat (map e_heap l')) in Hh.
    apply exact_del in Hh. cbn [list_to_set] in Hh. rewrite union_empty_r_L in Hh. apply exact_del in Hh. cbn [list_to_set] in Hh.
    by rewrite union_empty_r_L in Hh.
  - apply (exact_del _ [e_map e]) in Hm. cbn [list_to_set] in Hm. by rewrite union_empty_r_L in Hm.
  - unfold e_fds in Hf at 1. rewrite <- app_assoc in Hf. by apply exact_del in Hf.
  - intros p pr. destruct (decide (p = e_p e)) as [->|Hne].
    + rewrite lookup_delete_eq. split; [done|]. intros (fd & Hin). by destruct (Hap _ Hin) as [Hx _].
    + rewrite lookup_delete_ne by done. rewrite (ow_procs _ _ H). setoid_rewrite Hl. setoid_rewrite elem_of_cons. split.
      * intros (fd & [<-|Hin]); [done|eauto].
      * intros (fd & Hin). eauto.
  - rewrite G1, s32_sub. f_equal. lia.
  - rewrite (total_perm _ _ Hl). cbn. lia.
Qed.

(** ** A client comes *)

(** What the system guarantees of a connection: its descriptors are new and all
    different. *)
Record conn_ok (n : conn) (c : ctl) : Prop := {
  co_os : os_ok (cn_os n) (cn_len n) c;
  co_fd : cn_fd n ∉ fds c;
  co_efds efds : cn_efds n = Some efds -> NoDup efds /\ forall a, a ∈ efds -> (a ∉ fds c) /\ a <> cn_fd n;
}.

(** The number of guaranteed cores is not so large that the check wraps around. *)
Definition conn_small (n : conn) : bool := guaranteed_cores (h_sched_cfg (os_hdr (cn_os n))) <? M32 - Z.of_nat NCPU.

Lemma os_ok_fds o len X c : os_ok o len c -> os_ok o len (set_fds X c).
Proof. by intros []. Qed.

(** The count of guaranteed cores, and the check of it. *)
Lemma good_guaranteed l c n len efds pr :
  owns l c -> conn_ok n c -> proc_good T (nr_guaranteed c) efds (cn_os n) len pr ->
  let g := guaranteed_cores (cp_sched_cfg pr) in
  0 <= g /\ s32 (nr_guaranteed c + g) = s32 (g + total l) /\ s32 (s32 (nr_guaranteed c + g) - g) = nr_guaranteed c /\
  (conn_small n = true -> total l <= Z.of_nat (size (sched_allowed_cores T)) -> g + total l <= Z.of_nat (size (sched_allowed_cores T))).
Proof.
  intros H Hn Hg. cbn zeta. destruct (pg_guaranteed _ _ _ _ _ _ Hg) as [Eg Hb]. destruct (ow_guaranteed _ _ H) as (G1 & G3).
  assert (G4 := total_nonneg l G3). assert (O2 := oo_guaranteed _ _ _ (co_os _ _ Hn)). unfold conn_small.
  rewrite <- Eg in *. set (g := guaranteed_cores (cp_sched_cfg pr)) in *. rewrite G1 in *. split_and!.
  - apply O2.
  - rewrite s32_add. f_equal. lia.
  - rewrite s32_sub. replace (s32 (total l) + g - g) with (s32 (total l)) by lia. apply s32_s32.
  - intros Hs%Z.ltb_lt Ht. unfold in_u32, NCPU in *. rewrite s32_small in Hb by lia. rewrite u32_id in Hb by (unfold in_u32; lia). lia.
Qed.

Lemma good_safe nr efds o len pr : proc_good T nr efds o len pr -> proc_safe pr.
Proof. intros []. by split. Qed.

Lemma send_fails l n c b efds pr :
  owns l c -> conn_ok n c -> cn_efds n = Some efds -> os_map (cn_os n) = Some b -> base (cp_region pr) = b -> os_proc (cn_os n) <> 0 ->
  proc_good T (nr_guaranteed c) efds (cn_os n) (cn_len n) pr ->
  control_destroy_proc (os_proc (cn_os n)) (created (cn_os n) b pr (set_fds (list_to_set efds ∪ ({[cn_fd n]} ∪ fds c)) c)) =
    Ok (set_fds ({[cn_fd n]} ∪ fds c) c).
Proof.
  intros H Hn Hef Hb Hbase Hp0 Hg. assert (Ho := co_os _ _ Hn). destruct (co_efds _ _ Hn efds Hef) as [Hnd Hin].
  destruct (good_guaranteed l c n _ _ _ H Hn Hg) as (_ & _ & Eg & _). destruct (pg_queue _ _ _ _ _ _ Hg) as (Eq & Hq0 & _).
  assert (Eef := pg_efds _ _ _ _ _ _ Hg). assert (Hpq := oo_pq _ _ _ Ho Hp0). destruct (oo_map _ _ _ Ho b Hb) as [Hbm _].
  assert (Hph := oo_proc _ _ _ Ho). assert (Hqh := oo_queue _ _ _ Ho). assert (Hd1 := ow_dom l c _ H Hph). assert (Hd2 := ow_dom l c _ H Hqh).
  set (p := os_proc (cn_os n)) in *. set (q := os_queue (cn_os n)) in *. set (c1 := created _ _ _ _).
  assert (E : control_destroy_proc p c1 = Ok (destroyed p pr c1)).
  { apply destroy_ok; rewrite ?Eq, ?Eef, ?Hbase; auto.
    - apply lookup_insert_eq.
    - apply elem_of_union_l, elem_of_singleton_2. done.
    - apply elem_of_union_r, elem_of_union_l, elem_of_singleton_2. done.
    - by rewrite <- Eq.
    - cbn. by rewrite lookup_insert_ne.
    - apply elem_of_union_l, elem_of_singleton_2. done.
    - intros a Ha. apply elem_of_union_l. by apply elem_of_list_to_set. }
  rewrite E. f_equal. unfold c1, destroyed, created, set_fds. cbn. rewrite Eq, Eef, Hbase, Eg. fold p q.
  clear - Hpq Hph Hqh Hbm Hin Hd1 Hd2 Hnd Hn. f_equal; [set_solver|set_solver| |by rewrite delete_insert_eq, delete_id].
  assert (Hfd := co_fd _ _ Hn). apply set_eq. intros a. rewrite elem_of_difference, elem_of_union, elem_of_list_to_set. split; [tauto|].
  intros Ha. split; [by right|]. intros Ha'. destruct (Hin a Ha'). set_solver.
Qed.

Lemma send_succeeds l n c b efds pr :
  owns l c -> conn_ok n c -> cn_efds n = Some efds -> os_map (cn_os n) = Some b -> base (cp_region pr) = b -> os_proc (cn_os n) <> 0 ->
  (length (cclients c) < IOKERNEL_MAX_PROC)%nat ->
  proc_good T (nr_guaranteed c) efds (cn_os n) (cn_len n) pr ->
  owns (l ++ [Ent (os_proc (cn_os n)) pr (cn_fd n)])
    (set_cclients (cclients c ++ [(os_proc (cn_os n), cn_fd n)]) (created (cn_os n) b pr (set_fds (list_to_set efds ∪ ({[cn_fd n]} ∪ fds c)) c))).
Proof.
  intros H Hn Hef Hb Hbase Hp0 Hlen Hg. assert (Ho := co_os _ _ Hn). destruct (co_efds _ _ Hn efds Hef) as [Hnd Hin].
  destruct (good_guaranteed l c n _ _ _ H Hn Hg) as (G0 & Eg & _). destruct (pg_queue _ _ _ _ _ _ Hg) as (Eq & Hq0 & _).
  assert (Eef := pg_efds _ _ _ _ _ _ Hg). assert (Hpq := oo_pq _ _ _ Ho Hp0). destruct (oo_map _ _ _ Ho b Hb) as [Hbm _].
  assert (Hph := oo_proc _ _ _ Ho). assert (Hqh := oo_queue _ _ _ Ho). assert (Hfd := co_fd _ _ Hn).
  set (e := Ent _ pr _). assert (Hperm : e :: l ≡ₚ l ++ [e]) by apply Permutation_cons_append.
  destruct H as [K1 K2 K3 K4 K5 K6 K7 K8 K9]. split; cbn.
  - by rewrite K1, map_app.
  - eapply exact_perm; [apply concat_map_perm, Hperm|]. cbn. rewrite Eq.
    replace ({[os_proc (cn_os n)]} ∪ ({[os_queue (cn_os n)]} ∪ heap c)) with (list_to_set [os_queue (cn_os n); os_proc (cn_os n)] ∪ heap c) by (cbn; set_solver).
    apply (exact_add _ [_; _]); [done| |set_solver]. apply list.NoDup_cons. split; [set_solver|]. apply NoDup_singleton.
  - eapply exact_perm; [apply (fmap_Permutation e_map), Hperm|]. cbn. unfold e_map. cbn. rewrite Hbase.
    replace ({[b]} ∪ maps c) with (list_to_set [b] ∪ maps c) by (cbn; set_solver). apply (exact_add _ [_]); [done|apply NoDup_singleton|set_solver].
  - eapply exact_perm; [apply concat_map_perm, Hperm|]. cbn. unfold e_fds, e_efds. cbn. rewrite Eef.
    replace (list_to_set efds ∪ ({[cn_fd n]} ∪ fds c)) with (list_to_set (efds ++ [cn_fd n]) ∪ fds c) by (rewrite list_to_set_app_L; cbn; set_solver).
    apply exact_add; [done| |].
    + apply list.NoDup_app. split_and!; [done| |apply NoDup_singleton]. intros a Ha ->%list_elem_of_singleton. by destruct (Hin _ Ha).
    + intros a [Ha| ->%list_elem_of_singleton]%elem_of_app; [by apply Hin|done].
  - intros p pr'. setoid_rewrite elem_of_app. setoid_rewrite list_elem_of_singleton. unfold e. destruct (decide (p = os_proc (cn_os n))) as [->|Hne].
    + rewrite lookup_insert_eq. split; [intros [= <-]; eauto|]. intros (fd & [Hx|[= -> _]]); [|done].
      exfalso. apply Hph. eapply exact_elem; [exact K2|]. apply elem_concat_map. eexists. split; [exact Hx|]. right. by left.
    + rewrite lookup_insert_ne by done. rewrite K5. split; [intros [fd Hx]; eauto|]. intros (fd & [Hx|[= ? _ _]]); [eauto|done].
  - intros e' [He| ->%list_elem_of_singleton]%elem_of_app; [by apply K6|]. by split.
  - rewrite <- (total_perm _ _ Hperm). cbn. destruct K7 as (E1 & E3). unfold e_guaranteed at 1. cbn. split; [done|].
    intros e' [He| ->%list_elem_of_singleton]%elem_of_app; [by apply E3|done].
  - rewrite length_app. rewrite K1, length_map in Hlen. cbn. lia.
  - intros e' [He| ->%list_elem_of_singleton]%elem_of_app; [by apply K9|]. cbn. by eapply good_safe.
Qed.

Lemma set_fds_id X c : X = fds c -> set_fds X c = c.
Proof. intros ->. by destruct c. Qed.

Lemma close_new fd c : fd ∉ fds c -> close fd (set_fds ({[fd]} ∪ fds c) c) = c.
Proof.
  intros Hf. unfold close. cbn. rewrite bool_decide_true by set_solver. transitivity (set_fds (({[fd]} ∪ fds c) ∖ {[fd]}) c); [done|]. apply set_fds_id. set_solver.
Qed.

Lemma add_ok l n c :
  owns l c -> conn_ok n c ->
  exists c', control_add_client T n c = Ok c' /\
    (c' = c \/
     cn_send n = false /\ (exists efds, cn_efds n = Some efds /\ c' = set_ebadf (ebadf c ++ efds) c) \/
     cn_send n = true /\ exists e, e_fd e = cn_fd n /\ owns (l ++ [e]) c' /\ ebadf c' = ebadf c /\
       (conn_small n = true -> total l <= Z.of_nat (size (sched_allowed_cores T)) -> total (l ++ [e]) <= Z.of_nat (size (sched_allowed_cores T)))).
Proof.
  intros H Hn. assert (Hfd := co_fd _ _ Hn). unfold control_add_client. set (c0 := set_fds ({[cn_fd n]} ∪ fds c) c).
  assert (E0 : close (cn_fd n) c0 = c) by (by apply close_new).
  destruct (Nat.leb_spec IOKERNEL_MAX_PROC (length (cclients c0))) as [|Hmax]; [exists c; rewrite E0; auto|].
  destruct (cn_read n); cbn [negb]; [|exists c; rewrite E0; auto].
  destruct (cn_efds n) as [efds|] eqn:Hef; [|exists c; rewrite E0; auto]. destruct (co_efds _ _ Hn efds Hef) as [Hnd Hin].
  destruct efds as [|fd0 efds']; [exists c; rewrite E0; auto|]. set (efds := fd0 :: efds') in *. cbv zeta.
  change (fds c0) with ({[cn_fd n]} ∪ fds c).
  set (c1 := set_fds (list_to_set efds ∪ ({[cn_fd n]} ∪ fds c)) c). change (set_fds (list_to_set efds ∪ ({[cn_fd n]} ∪ fds c)) c0) with c1.
  assert (Hdom : forall a, a ∉ heap c1 -> cprocs c1 !! a = None) by (intros a; exact (ow_dom l c a H)).
  destruct (proc_create_ok T _ _ (cn_pid n) efds c1 (os_ok_fds _ _ _ _ (co_os _ _ Hn)) Hdom) as [E|(Hp & b & pr & Hb & Hbase & Hg & E)];
    rewrite E; cbn [mbind res_bind].
  - cbn [Z.eqb]. exists c. split; [|by left]. f_equal. rewrite close_all_ok; [|done|intros a Ha; apply elem_of_union_l; by apply elem_of_list_to_set].
    rewrite <- E0. f_equal. unfold c0, c1, set_fds. cbn [fds heap maps ebadf cprocs cclients nr_guaranteed]. f_equal. apply set_eq. intros a.
    rewrite elem_of_difference, elem_of_union, elem_of_list_to_set. split; [tauto|]. intros Ha. split; [by right|]. intros Ha'.
    destruct (Hin a Ha'). set_solver.
  - destruct (Z.eqb_spec (os_proc (cn_os n)) 0) as [|_]; [done|]. destruct (cn_send n); cbn [negb].
    + eexists. split; [reflexivity|]. right; right. split; [done|]. exists (Ent (os_proc (cn_os n)) pr (cn_fd n)).
      split; [done|split; [|split; [done|]]]; [exact (send_succeeds l n c b efds pr H Hn Hef Hb Hbase Hp Hmax Hg)|].
      intros Hs Ht. rewrite <- (total_perm (Ent (os_proc (cn_os n)) pr (cn_fd n) :: l)) by apply Permutation_cons_append.
      by apply (good_guaranteed l c n _ _ _ H Hn Hg).
    + unfold c1. rewrite (send_fails l n c b efds pr) by done. cbn [mbind res_bind]. eexists. split; [reflexivity|]. right; left. split; [done|].
      exists efds. split; [done|]. fold c0. rewrite close_all_bad; [|intros a Ha; destruct (Hin a Ha); set_solver].
      unfold close. cbn. rewrite bool_decide_true by set_solver. unfold set_ebadf, set_fds. cbn. f_equal. set_solver.
Qed.

(** ** A client goes *)

Lemma swap_remove_map {A B} (f : A -> B) k x l : map f (swap_remove k x l) = swap_remove k (f x) (map f l).
Proof.
  unfold swap_remove. rewrite length_map. transitivity (take (length l - 1) (map f (<[k := x]> l))); [symmetry; apply firstn_map|].
  f_equal. apply list_fmap_insert.
Qed.

Lemma owns_without l l' e c c' :
  owns l c -> l ≡ₚ e :: l' -> control_destroy_proc (e_p e) c = Ok c' ->
  owns l' (close (e_fd e) (set_cclients (map (fun e => (e_p e, e_fd e)) l') c')) /\ ebadf (close (e_fd e) (set_cclients (map (fun e => (e_p e, e_fd e)) l') c')) = ebadf c.
Proof.
  intros H Hl E. destruct (destroy_client l l' e c H Hl) as (E' & H1 & H2 & H3 & H4 & H5 & _). rewrite E' in E. injection E as <-.
  assert (Hc : close (e_fd e) (set_cclients (map (fun e => (e_p e, e_fd e)) l') (destroyed (e_p e) (e_pr e) c)) =
    set_fds (fds c ∖ list_to_set (e_efds e) ∖ {[e_fd e]}) (set_cclients (map (fun e => (e_p e, e_fd e)) l') (destroyed (e_p e) (e_pr e) c))).
  { unfold close. rewrite bool_decide_true; [done|]. eapply exact_elem; [exact H3|]. by left. }
  assert (Hsub : forall e', e' ∈ l' -> e' ∈ l) by (intros e' He'; rewrite Hl; by right).
  rewrite Hc. split; [|done]. destruct H as [K1 K2 K3 K4 K5 K6 K7 K8 K9]. split; cbn; auto.
  - apply (exact_del _ [e_fd e]) in H3. cbn [list_to_set] in H3. by rewrite union_empty_r_L in H3.
  - split_and!; auto. intros e' He'. apply K7. auto.
  - rewrite Hl in K8. cbn in K8. lia.
Qed.

Lemma remove_ok l p c :
  owns l c -> exists c' l', control_remove_client p c = Ok c' /\ owns l' c' /\ ebadf c' = ebadf c /\
    (forall e, e ∈ l' <-> e ∈ l /\ e_p e <> p) /\ total l' <= total l.
Proof.
  intros H. unfold control_remove_client. destruct (list_find _ (cclients c)) as [[i [p' fd]]|] eqn:Ef.
  2: { exists c, l. split_and!; auto; [|lia]. intros e. split; [|tauto]. intros He. split; [done|]. intros <-. apply list_find_None in Ef.
       rewrite list.Forall_forall in Ef. apply (Ef (e_p e, e_fd e)); [|done]. rewrite (ow_clients _ _ H). apply list_elem_of_fmap. by exists e. }
  apply list_find_Some in Ef as (Hi & Hp & _). cbn in Hp. subst p'. rewrite (ow_clients _ _ H) in Hi.
  rewrite list_lookup_fmap in Hi. apply fmap_Some in Hi as (e & He & [= Hp Hfd]).
  assert (Hlt := lookup_lt_Some _ _ _ He). destruct (lookup_lt_is_Some_2 l (length l - 1)) as [x Hx]; [lia|].
  assert (Hperm := swap_remove_perm l i e x He Hx). symmetry in Hperm.
  destruct (destroy_client l _ e c H Hperm) as (E & _ & _ & _ & _ & _ & Htot). rewrite <- Hp in E. subst p fd. rewrite E. cbn [mbind res_bind].
  change (cclients (destroyed (e_p e) (e_pr e) c)) with (cclients c).
  assert (Hlast : cclients c !! (length (cclients c) - 1)%nat = Some (e_p x, e_fd x)).
  { rewrite (ow_clients _ _ H), length_map, list_lookup_fmap, Hx. done. }
  rewrite Hlast.
  assert (Ecl : take (length (cclients c) - 1) (<[i:=(e_p x, e_fd x)]> (cclients c)) = map (fun e => (e_p e, e_fd e)) (swap_remove i x l)).
  { rewrite swap_remove_map. unfold swap_remove. by rewrite (ow_clients _ _ H), length_map. }
  rewrite Ecl. destruct (owns_without l _ e c _ H Hperm E) as [Ho Hb]. eexists _, _. split; [reflexivity|]. split_and!; [exact Ho|exact Hb| |exact Htot].
  destruct (ow_apart l _ e c H Hperm) as [_ Hap]. intros e'. clear - Hperm Hap. set (L := swap_remove i x l) in *. clearbody L. rewrite Hperm, elem_of_cons. split.
  - intros Hin. split; [by right|]. by apply Hap.
  - intros [[->|Hin] Hne]; [done|done].
Qed.

(** The connection is closed: the process is marked. *)
Definition mark (p : Z) (e : ent) : ent := if decide (e_p e = p) then Ent (e_p e) (set_removed (e_pr e)) (e_fd e) else e.

Lemma mark_eqs p e :
  e_p (mark p e) = e_p e /\ e_fd (mark p e) = e_fd e /\ e_heap (mark p e) = e_heap e /\ e_map (mark p e) = e_map e /\
  e_fds (mark p e) = e_fds e /\ e_guaranteed (mark p e) = e_guaranteed e.
Proof. unfold mark. by destruct (decide _). Qed.

Lemma total_mark p l : total (map (mark p) l) = total l.
Proof. induction l as [|e l IH]; cbn; [done|]. destruct (mark_eqs p e) as (_ & _ & _ & _ & _ & ->). by rewrite IH. Qed.

Lemma hup_ok l fd c :
  owns l c -> exists l', owns l' (control_instruct_dataplane_to_remove_client fd c) /\ ebadf (control_instruct_dataplane_to_remove_client fd c) = ebadf c /\ total l' = total l.
Proof.
  intros H. unfold control_instruct_dataplane_to_remove_client. destruct (list_find _ _) as [[i [p fd']]|] eqn:Ef; [|by exists l].
  exists (map (mark p) l). split; [|split; [done|apply total_mark]]. clear Ef.
  assert (Hin : forall e', e' ∈ map (mark p) l <-> exists e, e' = mark p e /\ e ∈ l) by (intros e'; apply list_elem_of_fmap).
  destruct H as [K1 K2 K3 K4 K5 K6 K7 K8 K9]. split; cbn; auto.
  - rewrite K1, map_map. apply list_fmap_ext. intros ? e _. destruct (mark_eqs p e) as (-> & -> & _). done.
  - rewrite map_map. replace (map (fun x => e_heap (mark p x)) l) with (map e_heap l); [done|]. apply list_fmap_ext. intros ? e _. by destruct (mark_eqs p e) as (_ & _ & -> & _).
  - rewrite map_map. replace (map (fun x => e_map (mark p x)) l) with (map e_map l); [done|]. apply list_fmap_ext. intros ? e _. by destruct (mark_eqs p e) as (_ & _ & _ & -> & _).
  - rewrite map_map. replace (map (fun x => e_fds (mark p x)) l) with (map e_fds l); [done|]. apply list_fmap_ext. intros ? e _. by destruct (mark_eqs p e) as (_ & _ & _ & _ & -> & _).
  - intros q pr. setoid_rewrite Hin. destruct (decide (q = p)) as [->|Hne].
    + rewrite lookup_alter_eq, fmap_Some. split.
      * intros (pr0 & [fd0 Hx]%K5 & ->). exists fd0, (Ent p pr0 fd0). split; [|done]. unfold mark. cbn. by rewrite decide_True.
      * intros (fd0 & e & Ee & He). unfold mark in Ee. destruct (decide _) as [Hp|Hp]; [|rewrite <- Ee in Hp; done].
        injection Ee as _ -> _. subst p. exists (e_pr e). split; [|done]. apply K5. exists (e_fd e). by destruct e.
    + rewrite lookup_alter_ne by done. rewrite K5. split.
      * intros [fd0 Hx]. exists fd0, (Ent q pr fd0). split; [|done]. unfold mark. cbn. by rewrite decide_False.
      * intros (fd0 & e & Ee & He). exists fd0. unfold mark in Ee. destruct (decide _) as [Hp|Hp]; [|by rewrite Ee].
        injection Ee as Eq _ _. congruence.
  - intros e' (e & -> & He)%Hin. unfold mark. destruct (decide _); exact (K6 e He).
  - rewrite total_mark. destruct K7 as (E1 & E3). split; auto. intros e' (e & -> & He)%Hin. destruct (mark_eqs p e) as (_ & _ & _ & _ & _ & ->). auto.
  - by rewrite length_map.
  - intros e' (e & -> & He)%Hin. specialize (K9 e He). unfold mark. destruct (decide _); [|done]. destruct K9. by split.
Qed.

(** ** The control thread *)

Inductive ctl_op :=
| OpConn (n : conn)          (* the control socket is readable *)
| OpHup (fd : Z)             (* a client's connection is closed *)
| OpReleased (p : Z).        (* the data plane has dropped its last reference *)

Definition ctl_exec (o : ctl_op) (c : ctl) : res ctl :=
  match o with
  | OpConn n => control_add_client T n c
  | OpHup fd => Ok (control_instruct_dataplane_to_remove_client fd c)
  | OpReleased p => control_remove_client p c
  end.

Definition cop_ok (o : ctl_op) (c : ctl) : Prop := match o with OpConn n => conn_ok n c | _ => True end.
Definition cop_small (o : ctl_op) : bool := match o with OpConn n => conn_small n | _ => true end.
Definition cop_sent (o : ctl_op) : bool := match o with OpConn n => cn_send n | _ => true end.

Definition ctl_init : ctl := Ctl ∅ ∅ ∅ [] ∅ [] 0.

(** States that can be reached; the flags tell whether every process could be announced
    to the data plane, and whether no client asked for close to 2^32 guaranteed cores. *)
Inductive creach : bool -> bool -> ctl -> Prop :=
| cr_init : creach true true ctl_init
| cr_step b g o c c' : creach b g c -> cop_ok o c -> ctl_exec o c = Ok c' -> creach (b && cop_sent o) (g && cop_small o) c'.

Lemma owns_init : owns [] ctl_init.
Proof.
  assert (He : exact ∅ []) by (split; [constructor|done]). split; cbn; try done.
  - intros p pr. rewrite lookup_empty. split; [done|]. by intros (fd & ?%elem_of_nil).
  - by intros e ?%elem_of_nil.
  - split; [done|]. by intros e ?%elem_of_nil.
  - lia.
  - by intros e ?%elem_of_nil.
Qed.

Lemma ctl_exec_ok l o c :
  owns l c -> cop_ok o c ->
  exists c' l', ctl_exec o c = Ok c' /\ owns l' c' /\ (cop_sent o = true -> ebadf c' = ebadf c) /\
    (cop_small o = true -> total l <= Z.of_nat (size (sched_allowed_cores T)) -> total l' <= Z.of_nat (size (sched_allowed_cores T))).
Proof.
  intros H Ho. destruct o as [n|fd|p]; cbn in *.
  - destruct (add_ok l n c H Ho) as (c' & E & [-> |[(Hs & efds & _ & ->)|(_ & e & _ & Hl & He & Ht)]]).
    + exists c, l. auto.
    + exists (set_ebadf (ebadf c ++ efds) c), l. split_and!; [done| |by rewrite Hs|done]. by destruct H.
    + exists c', (l ++ [e]). auto.
  - destruct (hup_ok l fd c H) as (l' & H1 & H2 & H3). eexists _, l'. split; [reflexivity|]. split_and!; auto. intros. lia.
  - destruct (remove_ok l p c H) as (c' & l' & E & H1 & H2 & _ & H3). exists c', l'. split_and!; auto. intros. lia.
Qed.

Lemma creach_owns b g c : creach b g c ->
  exists l, owns l c /\ (b = true -> ebadf c = []) /\ (g = true -> total l <= Z.of_nat (size (sched_allowed_cores T))).
Proof.
  induction 1 as [|b g o c c' _ (l & Hl & Hb & Hg) Ho E]; [exists []; split_and!; [apply owns_init|done|cbn; lia]|].
  destruct (ctl_exec_ok l o c Hl Ho) as (c1 & l' & E1 & H1 & H2 & H3). rewrite E1 in E. injection E as <-. exists l'. split_and!; [done| |].
  - intros [Hb' Hs]%andb_true_iff. by rewrite H2, Hb.
  - intros [Hg' Hs]%andb_true_iff. auto.
Qed.

(** C22. Whatever clients connect, disconnect and are released, the control thread
    survives, and what it owns is exact: the memory blocks, mappings and descriptors that
    are held are those of the clients in the table, each once, so that none is leaked or
    freed twice, and the count of guaranteed cores is their sum, in 32 bits; the
    fixed-size objects of each client are inside its region; when the last client is gone
    nothing is held.  As long as every process could be announced to the data plane, no
    descriptor is closed twice.  As long as no client asked for 2^32 - 256 guaranteed
    cores or more, which the check of the code does not exclude (see
    [control_guaranteed_wraps]), the guaranteed cores of all clients add up to no more
    than the cores the scheduler may use. *)
Theorem control_owns_exactly (b g : bool) (c : ctl) :
  creach b g c ->
  (exists l, owns l c /\
     (g = true -> nr_guaranteed c = total l /\ total l <= Z.of_nat (size (sched_allowed_cores T)))) /\
  (b = true -> ebadf c = []) /\
  (cclients c = [] -> heap c = ∅ /\ maps c = ∅ /\ fds c = ∅ /\ nr_guaranteed c = 0) /\
  (forall o, cop_ok o c -> exists c', ctl_exec o c = Ok c').
Proof.
  intros Hc. destruct (creach_owns b g c Hc) as (l & Hl & Hb & Hg). destruct (ow_guaranteed _ _ Hl) as [G1 G2]. split_and!; [|done| |].
  - exists l. split; [done|]. intros Eg. specialize (Hg Eg). split; [|done]. rewrite G1. apply s32_small. assert (X := total_nonneg l G2). unfold NCPU in HT. lia.
  - intros E. assert (l = []) as ->. { rewrite (ow_clients _ _ Hl) in E. by destruct l. }
    destruct Hl as [_ [_ H1] [_ H2] [_ H3] _ _ _ _ _]. by split_and!.
  - intros o Ho. destruct (ctl_exec_ok l o c Hl Ho) as (c' & _ & E & _). eauto.
Qed.

(** ** What is given to the data plane *)

(** The process as the scheduler sees it; [mem], [mem32] and [mem64] give bytes and
    words of shared memory by their address, [shm] the table of a channel. *)
Section view.
Context (mem mem32 mem64 : Z -> Z) (shm : Z -> lrpc_shm) (txempty : Z -> bool).

Definition thread_of (t : cthread) : thread :=
  Thread false (chan (ct_rxq t)) (shm (chan_tbl (ct_rxq t))) (txempty (chan_tbl (ct_txpktq t))) (ct_tid t)
    (mem32 (ct_q_ptrs t + 8)) (mem32 (ct_q_ptrs t + 4)) 0 0 (Some 0%nat) 0 None
    (hwq_of mem mem32 (ct_directpath_hwq t)) (hwq_of mem mem32 (ct_storage_hwq t)) (mem64 (ct_next_tsc t)).

Definition proc_of (pr : cproc) : proc :=
  Proc 1 false (cp_has_directpath pr) (cp_sched_cfg pr) (replicate NCPU (Some 0%nat)) (map thread_of (cp_threads pr)) [] [] 0.

Lemma proc_of_fresh U i pr :
  (length (cp_threads pr) <= NCPU)%nat -> (forall k, (k < length (cp_threads pr))%nat -> (i, k) ∈ U) -> fresh_proc U i (proc_of pr).
Proof.
  intros Hn HU. split; unfold thread_count; cbn; rewrite ?length_map; auto.
  intros k t Hk. rewrite list_lookup_fmap in Hk. by apply fmap_Some in Hk as (t0 & _ & ->).
Qed.
End view.

(** C23. A process is created from what the runtime wrote or refused with nothing
    changed.  If it is created, it and its queue are new blocks, its region a new mapping,
    and it is such as the data plane expects: between 1 and 256 threads, one per event
    descriptor, all pointers to objects of fixed size inside the region.  Message tables
    are inside the region and polling a hardware queue reads only inside it, unless the
    sum of offset and size or the size itself wraps around, or the flag is not inside a
    descriptor, which the checks do not exclude. *)
Theorem control_create_checked (o : os) (len pid : Z) (efds : list Z) (c : ctl) :
  os_ok o len c -> (forall a, a ∉ heap c -> cprocs c !! a = None) ->
  exists p c', control_create_proc T o len pid efds c = Ok (p, c') /\
    (p = 0 -> c' = c) /\
    (p <> 0 -> exists b pr, os_map o = Some b /\ base (cp_region pr) = b /\ c' = created o b pr c /\
       proc_good T (nr_guaranteed c) efds o len pr /\
       (forall mem mem32 mem64 shm txe U i, (forall k, (k < length efds)%nat -> (i, k) ∈ U) -> fresh_proc U i (proc_of mem mem32 mem64 shm txe pr)) /\
       forall t, t ∈ cp_threads pr -> thread_fixed (cp_region pr) t /\
         exists a, let s := os_spec o a in
           (qs_fits s -> tables_in_region (cp_region pr) t) /\
           forall mem mem' m32 i, (forall a, in_region (cp_region pr) a 1 -> mem a = mem' a) ->
             (ch_enabled (ct_directpath_hwq t) = true -> hs_fits (sp_direct_rxq s) ->
                hwq_busy (hwq_of mem m32 (ct_directpath_hwq t)) i = hwq_busy (hwq_of mem' m32 (ct_directpath_hwq t)) i) /\
             (ch_enabled (ct_storage_hwq t) = true -> hs_fits (sp_storage_hwq s) ->
                hwq_busy (hwq_of mem m32 (ct_storage_hwq t)) i = hwq_busy (hwq_of mem' m32 (ct_storage_hwq t)) i)).
Proof using Type.
  clear HT. intros Ho Hdom. destruct (proc_create_ok T o len pid efds c Ho Hdom) as [E|(Hp & b & pr & Hb & Hbase & Hg & E)]; [by exists 0, c|].
  eexists _, _. split; [exact E|]. split; [done|]. intros _. exists b, pr. split_and!; auto.
  - intros mem mem32 mem64 shm txe U i HU. apply proc_of_fresh; [apply (pg_count _ _ _ _ _ _ Hg)|].
    intros k Hk. apply HU. by rewrite <- (pg_efds _ _ _ _ _ _ Hg), length_map.
  - intros t Ht. apply list_elem_of_lookup_1 in Ht as [i Hi]. split; [by apply (list.Forall_lookup_1 _ _ _ _ (pg_fixed _ _ _ _ _ _ Hg) Hi)|].
    destruct (pg_made _ _ _ _ _ _ Hg) as (specs & Hs & Hmade). destruct (Forall2_lookup_r _ _ _ _ _ Hmade Hi) as (s & Hsi & Et).
    destruct (list.Forall_lookup_1 _ _ _ _ Hs Hsi) as [a ->]. exists a. cbn zeta. destruct (pg_region _ _ _ _ _ _ Hg) as (_ & Hl1 & Hl2).
    assert (Hr : region_ok (cp_region pr)).
    { destruct (oo_map _ _ _ Ho b Hb) as [_ Hr]. destruct (cp_region pr) as [b' l']. cbn in *. by subst. }
    assert (Hw := oo_spec _ _ _ Ho a). destruct (init_thread_ok _ _ _ _ Hr ltac:(lia) Hw Et) as (_ & _ & _ & Hq & D1 & D2).
    destruct Hw as (_ & _ & _ & _ & _ & W1 & W2). split; [done|]. intros mem mem' m32 k Hm. split; intros.
    + by apply (hwq_busy_local (cp_region pr) (sp_direct_rxq (os_spec o a))).
    + by apply (hwq_busy_local (cp_region pr) (sp_storage_hwq (os_spec o a))).
Qed.
End mach.

(** ** Witnesses *)

Definition demo_topo : topo := Topo {[2; 3; 4; 5]}%nat (fun c => if Nat.even c then S c else pred c) [2; 3; 4; 5]%nat [].
Definition demo_hwq (ty log nr off : Z) : hardware_queue_spec := HwqSpec 16384 20480 log nr off 1 ty.
Definition demo_spec : thread_spec :=
  ThreadSpec (QueueSpec 64 4096 8192) (QueueSpec 64 5120 8196) (QueueSpec 64 6144 8200) 8256 77 (demo_hwq 1 6 16 63) (demo_hwq 0 0 0 0) 8320.
Definition demo_hdr (g : Z) : control_hdr := ControlHdr 4 CONTROL_HDR_MAGIC 1 100 1024 [2; 0; 0; 0; 0; 1] (SchedSpec 1 2 g 0 0 0) 2048.
Definition demo_os (g : Z) : os := Os (Some 2097152) 1000 2000 3000 (Some [0]) (demo_hdr g) (fun _ => demo_spec).
Definition demo_conn (send : bool) : conn := Conn 10 true 2097152 42 (Some [11]) (demo_os 2) send.

Lemma demo_os_ok g : 0 <= g < 10 -> os_ok (demo_os g) 2097152 ctl_init.
Proof.
  intros Hg. split; cbn; try done; unfold in_u32, in_u64, no_wrap, M32, M64; try lia.
  - intros b [= <-]. split; [set_solver|]. unfold region_ok. cbn. lia.
Qed.

Lemma demo_conn_ok send : conn_ok (demo_conn send) ctl_init.
Proof.
  split; cbn; [by apply demo_os_ok|set_solver|]. intros efds [= <-]. split; [apply NoDup_singleton|].
  intros a ->%list_elem_of_singleton. by split; [set_solver|].
Qed.

Definition demo_ctl : ctl := match control_add_client demo_topo (demo_conn true) ctl_init with Ok c => c | Bug => ctl_init end.

Lemma demo_ctl_reach : creach demo_topo true true demo_ctl.
Proof. apply (cr_step _ true true (OpConn (demo_conn true)) ctl_init); [apply cr_init|apply demo_conn_ok|]. vm_compute. reflexivity. Qed.

(** A client is registered; then it disconnects and is released. *)
Lemma control_owns_exactly_witness :
  map fst (cclients demo_ctl) = [2000] /\ nr_guaranteed demo_ctl = 2 /\ (exists l, owns l demo_ctl /\ total l = 2) /\
  exists c', ctl_exec demo_topo (OpReleased 2000) demo_ctl = Ok c' /\ cclients c' = [].
Proof.
  assert (HT : (size (sched_allowed_cores demo_topo) <= NCPU)%nat) by (vm_compute; lia).
  destruct (control_owns_exactly demo_topo HT true true demo_ctl demo_ctl_reach) as ((l & H1 & H3) & _ & _ & H2).
  destruct (H3 eq_refl) as [H4 _].
  split; [vm_compute; reflexivity|]. split; [vm_compute; reflexivity|]. split; [exists l; split; [exact H1|by rewrite <- H4]|].
  destruct (H2 (OpReleased 2000) I) as [c' E]. exists c'. split; [exact E|]. vm_compute in E. by injection E as <-.
Defined.

Lemma control_create_checked_witness :
  exists p c', control_create_proc demo_topo (demo_os 2) 2097152 42 [11] ctl_init = Ok (p, c') /\ p = 2000 /\
    (p = 0 -> c' = ctl_init).
Proof.
  destruct (control_create_checked demo_topo (demo_os 2) 2097152 42 [11] ctl_init) as (p & c' & E & H0 & _).
  - apply demo_os_ok. lia.
  - done.
  - exists p, c'. split; [exact E|]. split; [|exact H0]. vm_compute in E. by injection E as <- <-.
Defined.

(** ** What the checks let through *)

(** The queue to the data plane is full: the event descriptor of the process is closed
    twice. *)
Theorem control_double_close :
  exists c', control_add_client demo_topo (demo_conn false) ctl_init = Ok c' /\ ebadf c' = [11].
Proof. eexists. split; vm_compute; reflexivity. Qed.

(** A number of guaranteed cores close to 2^32 passes the check and lowers the count. *)
Theorem control_guaranteed_wraps :
  exists p c', control_create_proc demo_topo (demo_os (M32 - 1)) 2097152 42 [11] (set_nr_guaranteed 4 ctl_init) = Ok (p, c') /\
    p <> 0 /\ nr_guaranteed c' = 3.
Proof. eexists _, _. split; [vm_compute; reflexivity|]. by vm_compute. Qed.

(** A channel whose table is behind the region is accepted: offset and size add up to
    2^64. *)
Theorem shm_lrpc_wraps :
  let r := ShmRegion 2097152 2097152 in
  exists c, shm_init_lrpc_in r (QueueSpec (2 ^ 60 - 2 ^ 31) (2 ^ 35) 8192) = (0, Some c) /\
    in_size (chan c) = 2 ^ 31 /\ base r + rlen r < chan_tbl c.
Proof. eexists. split; [vm_compute; reflexivity|]. by vm_compute. Qed.

(** The size of a descriptor table wraps around in 32 bits. *)
Theorem hwq_size_wraps :
  let r := ShmRegion 2097152 2097152 in
  exists h, control_init_hwq r (demo_hwq 1 16 65536 0) = Ok (0, h) /\ rlen r < 2 ^ ch_descriptor_log_size h * ch_nr_descriptors h.
Proof. eexists. split; [vm_compute; reflexivity|]. by vm_compute. Qed.

(** A flag right behind its descriptor is accepted: that of the last descriptor is
    outside the table, here outside the region. *)
Theorem hwq_parity_off_by_one :
  let r := ShmRegion 2097152 2097152 in
  exists h, control_init_hwq r (HwqSpec (2097152 - 1024) 20480 6 16 64 1 1) = Ok (0, h) /\
    hwq_busy (hwq_of (fun a => if a <? base r + rlen r then 0 else 1) (fun _ => 0) h) 15 <>
    hwq_busy (hwq_of (fun a => 0) (fun _ => 0) h) 15.
Proof. eexists. split; [vm_compute; reflexivity|]. by vm_compute. Qed.

(** The overflow queue of a process can be smaller than the number of entries that are
    written to it: its size in bytes wraps around. *)
Theorem overflow_queue_short :
  let h := demo_hdr 2 in
  let h := ControlHdr (version_no h) (magic h) (h_thread_count h) (2 ^ 61 + 1) (h_congestion_info h) (h_mac h) (h_sched_cfg h) (thread_specs h) in
  let o := Os (Some 2097152) 1000 2000 3000 (Some [0]) h (fun _ => demo_spec) in
  exists c' pr, control_create_proc demo_topo o 2097152 42 [11] ctl_init = Ok (2000, c') /\ cprocs c' !! 2000 = Some pr /\
    cp_max_overflows pr = 2 ^ 61 + 1 /\ cp_queue_size pr = 8.
Proof. eexists _, _. split; [vm_compute; reflexivity|]. split; [vm_compute; reflexivity|]. by vm_compute. Qed.
