(* ===== verification/TcpSend.v ===== *)
(** * The sending side of a TCP connection

    An established connection that writes, is acknowledged and retransmits: the buffers
    of the transmit queue carry the stream that was written, and so does every packet
    that is put on the wire.  References to the buffers are exact: one of the queue, one
    for each time the driver holds the buffer. *)

From S2P Require Import Prelude Stddef Mbuf Chksum Transport Arp Core TcpState TcpOut TcpConn TcpIn TcpWire Tcp TcpStream.

(** ** Bytes of a buffer *)

Definition region (m : mbuf) (off n : Z) : list Z := take (Z.to_nat n) (drop (Z.to_nat off) (head m)).

Lemma region_payload m off n :
  mbuf_ok m -> data m <= off -> 0 <= n -> off + n <= data m + len m ->
  region m off n = take (Z.to_nat n) (drop (Z.to_nat (off - data m)) (payload m)).
Proof.
  intros [] Ho Hn Hl. unfold region, payload. rewrite skipn_firstn_comm, take_take, drop_drop. f_equal; [lia|]. f_equal. lia.
Qed.

(** Bytes in front of a packet leave the packet where it is. *)
Lemma region_push m m' l off n :
  mbuf_ok m -> mbuf_ok m' -> payload m' = l ++ payload m -> data m' = data m - Z.of_nat (length l) -> len m' = len m + Z.of_nat (length l) ->
  data m <= off -> 0 <= n -> off + n <= data m + len m -> region m' off n = region m off n.
Proof.
  intros Hm Hm' Hp Hd Hl Ho Hn He. rewrite (region_payload m), (region_payload m') by (auto; lia). rewrite Hp.
  rewrite drop_app_ge by lia. do 2 f_equal. lia.
Qed.

Lemma read_region m off n :
  0 <= off -> 0 <= n -> off + n <= Z.of_nat (length (head m)) -> read_bytes m off n = Ok (region m off n).
Proof.
  intros H1 H2 H3. unfold read_bytes, in_buffer.
  by rewrite (proj2 (Z.leb_le 0 off)), (proj2 (Z.leb_le 0 n)), (proj2 (Z.leb_le _ _)) by lia.
Qed.

(** [net_tx_ip] puts headers in front of the packet, or leaves it as it was. *)
Lemma net_tx_ip_prefix cfg proto daddr id arp m :
  mbuf_ok m -> 34 <= data m -> length (cfg_mac cfg) = 6%nat -> (forall d, arp = Found d -> length d = 6%nat) ->
  exists ret m' l, net_tx_ip cfg proto daddr id arp m = Ok (ret, m') /\ mbuf_ok m' /\ (ret = 0 \/ ret = - ENOMEM) /\
    payload m' = l ++ payload m /\ data m' = data m - Z.of_nat (length l) /\ len m' = len m + Z.of_nat (length l) /\
    transport_off m' = transport_off m /\ length (head m') = length (head m).
Proof.
  intros Hm Hd H1 H2.
  destruct (net_tx_ip_total cfg proto daddr id arp m Hm Hd H1 H2) as (ret & m' & E & Hm' & Hr & Hne & Hend & Ht & _ & Hh).
  exists ret, m'. destruct (Z.eq_dec ret 0) as [->|Hz].
  2: { destruct (Hne Hz) as (Hp & Hda & Hle). exists []. cbn. split_and!; auto; lia. }
  assert (Hx : exists l, payload m' = l ++ payload m /\ data m' = data m - Z.of_nat (length l)).
  2: { destruct Hx as (l & Hp & Hda). exists l. split_and!; auto. lia. }
  clear Hend Ht Hh Hne Hr. revert E. unfold net_tx_ip, net_push_iphdr. set (hdr := iphdr_bytes _ _ _ _ _).
  destruct (mbuf_prepend_ok hdr m Hm) as (m1 & -> & Hm1 & Hp1 & Hd1 & Hl1 & _); [change (length hdr) with 20%nat; lia|].
  change (Z.of_nat (length hdr)) with 20 in *. cbn [mbind res_bind].
  set (m2 := or_txflags _ m1). assert (Hm2 : mbuf_ok m2) by (destruct Hm1; by split).
  destruct arp as [d| |].
  - set (e := d ++ cfg_mac cfg ++ hton16 ETHTYPE_IP).
    assert (He : length e = 14%nat) by (unfold e; rewrite !length_app, H1, (H2 d) by done; done).
    unfold net_tx_eth. fold e.
    destruct (mbuf_prepend_ok e m2 Hm2) as (m3 & -> & Hm3 & Hp3 & Hd3 & _); [change (data m2) with (data m1); rewrite He; lia|].
    cbn [mbind res_bind]. intros [= <-]. exists (e ++ hdr). rewrite Hp3, Hd3. change (payload m2) with (payload m1). change (data m2) with (data m1).
    rewrite Hp1, Hd1, app_assoc, length_app. change (length hdr) with 20%nat. split; [done|lia].
  - destruct (mbuf_pull _ _) as [[? ?]|]; cbn; [|done]. by intros [=].
  - intros [= <-]. exists hdr. split; [exact Hp1|]. change (length hdr) with 20%nat. exact Hd1.
Qed.

(** ** Steps on buffers of the heap *)

Lemma wp_get_seg m s w (Q : seg -> world -> Prop) : heap w !! m = Some s -> Q s w -> wp (get_seg m) w Q.
Proof. intros Hh H. exists s, w. split; [|done]. unfold get_seg, mbind, M_bind, getw. by rewrite Hh. Qed.

Lemma wp_put_seg s w (Q : unit -> world -> Prop) : Q tt (set_heap (<[sid s := s]> (heap w)) w) -> wp (put_seg s) w Q.
Proof. apply wp_modw. Qed.

Lemma wp_mod_seg m f s w (Q : unit -> world -> Prop) :
  heap w !! m = Some s -> Q tt (set_heap (<[sid (f s) := f s]> (heap w)) w) -> wp (mod_seg m f) w Q.
Proof. intros Hh H. unfold mod_seg. apply wp_bind. eapply wp_get_seg; [exact Hh|]. by apply wp_put_seg. Qed.

Lemma wp_mod_mb m f s b w (Q : unit -> world -> Prop) :
  heap w !! m = Some s -> f (mb s) = Ok b -> Q tt (set_heap (<[sid s := set_mb b s]> (heap w)) w) -> wp (mod_mb m f) w Q.
Proof.
  intros Hh Hf H. unfold mod_mb. apply wp_bind. eapply wp_get_seg; [exact Hh|]. apply wp_bind. eapply wp_lift; [exact Hf|]. by apply wp_put_seg.
Qed.

(** ** References from outside of the queue

    [D] lists the buffers by the references to them that are not the queue's: those the
    driver holds, and those an operation holds for a moment. *)

Definition held (m : nat) (D : list nat) : Z := Z.of_nat (count_occ Nat.eq_dec D m).

Lemma held_app m D1 D2 : held m (D1 ++ D2) = held m D1 + held m D2.
Proof. unfold held. rewrite count_occ_app. lia. Qed.

Lemma held_pos m D : m ∈ D -> 0 < held m D.
Proof. intros H%list_elem_of_In. apply (count_occ_In Nat.eq_dec) in H. unfold held. lia. Qed.

Lemma held_none m D : m ∉ D -> held m D = 0.
Proof. intros H. unfold held. rewrite (proj1 (count_occ_not_In Nat.eq_dec D m)); [done|]. by rewrite <- list_elem_of_In. Qed.

Lemma held_nonneg m D : 0 <= held m D.
Proof. unfold held. lia. Qed.

Lemma held_one m : held m [m] = 1.
Proof. unfold held. cbn. by destruct (Nat.eq_dec m m). Qed.

Lemma held_other m n : n <> m -> held m [n] = 0.
Proof. intros H. unfold held. cbn. by destruct (Nat.eq_dec n m). Qed.

(** The buffers that a piece of the trace gives to the driver. *)
Definition to_driver (e : event) : list nat :=
  match e with EvTx m _ _ ret => if ret =? 0 then [m] else [] | _ => [] end.
Definition sent_of (t : list event) : list nat := concat (map to_driver t).

Lemma sent_of_app t1 t2 : sent_of (t1 ++ t2) = sent_of t1 ++ sent_of t2.
Proof. unfold sent_of. by rewrite map_app, concat_app. Qed.

Section send.
Context (E : env) (HE : env_ok E).
Context (S : Z -> Z) (ce : trans_entry) (U L : Z).

(** ** Segments of the stream *)

Definition data_flags (fl : Z) : Prop := fl = TCP_ACK \/ fl = Z.lor TCP_ACK TCP_PUSH.

(** A packet with the stream from [a] to [b]. *)
Record good_packet (hi : Z) (pkt : list Z) (a b : Z) : Prop := {
  gp_range : L <= a <= b /\ b <= hi;
  gp_short : b <= a + TCP_MSS;
  gp_bytes : exists x2 fl win sum urp, data_flags fl /\ in_u16 win /\ length urp = 2%nat /\
    pkt = tcphdr_bytes (port (laddr ce)) (port (raddr ce)) (u32 a) U x2 fl win sum urp ++ slice S a b;
}.

Definition good_ev (hi : Z) (e : event) : Prop :=
  match e with
  | EvTx m daddr pkt ret => daddr = Transport.ip (raddr ce) /\ (ret = 0 \/ ret = - ENOMEM) /\ exists a b, good_packet hi pkt a b
  | EvFree _ | EvReady _ => True
  | EvSpawnRetransmit | EvDestroy => False
  end.

Lemma good_ev_mono hi hi' e : hi <= hi' -> good_ev hi e -> good_ev hi' e.
Proof.
  intros Hh. destruct e; cbn; try done. intros (? & ? & a & b & [[] ?]). split_and!; auto. exists a, b. split; auto. lia.
Qed.

(** What happened between two states, seen from outside: the packets sent are pieces of
    the stream, and the buffers that others hold are as they were. *)
Definition frozen (s : seg) := (sid s, mb s, seg_seq s, seg_end s, flags s, release s).
Definition steady (D : list nat) (w w' : world) : Prop := forall m, m ∈ D -> frozen <$> heap w' !! m = frozen <$> heap w !! m.

Record emits (hi : Z) (D : list nat) (w : world) (t : list event) (w' : world) : Prop := {
  em_trace : trace w' = trace w ++ t;
  em_good : Forall (good_ev hi) t;
  em_steady : steady D w w';
}.

Lemma emits_trans hi D D1 w t1 w1 t2 w2 :
  emits hi D w t1 w1 -> (forall m, m ∈ D -> m ∈ D1) -> emits hi D1 w1 t2 w2 -> emits hi D w (t1 ++ t2) w2.
Proof.
  intros [E1 F1 S1] HD [E2 F2 S2]. split.
  - by rewrite E2, E1, app_assoc.
  - apply Forall_app. by split.
  - intros m Hm. by rewrite S2, S1 by auto.
Qed.

Lemma emits_mono hi hi' D w t w' : hi <= hi' -> emits hi D w t w' -> emits hi' D w t w'.
Proof. intros Hh [? F ?]. split; auto. eapply list.Forall_impl; [exact F|]. intros e. by apply good_ev_mono. Qed.

(** Nothing seen from outside. *)
Lemma emits_none hi D w w' : trace w' = trace w -> steady D w w' -> emits hi D w [] w'.
Proof. intros Ht Hs. split; auto. by rewrite app_nil_r. Qed.

Lemma steady_eq D w w' : heap w' = heap w -> steady D w w'.
Proof. intros H m _. by rewrite H. Qed.

Lemma steady_insert D w w' m s : heap w' = <[m := s]> (heap w) -> m ∉ D -> steady D w w'.
Proof. intros H Hm n Hn. rewrite H, lookup_insert_ne; [done|]. congruence. Qed.

(** The text is in the buffer, without a header yet. *)
Record ready (s : seg) (a b : Z) : Prop := {
  rd_ok : mbuf_ok (mb s);
  rd_seq : seg_seq s = u32 a;
  rd_end : seg_end s = u32 b;
  rd_ab : a <= b <= a + TCP_MSS;
  rd_head : Z.of_nat (length (head (mb s))) = 1920;
  rd_data : 128 <= data (mb s);
  rd_len : len (mb s) = b - a;
  rd_text : payload (mb s) = slice S a b;
}.

(** The header is in front of the text. *)
Record headed (hi : Z) (b : mbuf) (x y : Z) : Prop := {
  hd_ok : mbuf_ok b;
  hd_head : Z.of_nat (length (head b)) = 1920;
  hd_data : 108 <= data b;
  hd_off : transport_off b = data b;
  hd_len : len b = 20 + (y - x);
  hd_text : region b (data b + 20) (y - x) = slice S x y;
  hd_pkt : good_packet hi (payload b) x y;
}.

(** The buffer once it was given to IP, which may have put headers in front. *)
Record stored (b : mbuf) (x y : Z) : Prop := {
  st_ok : mbuf_ok b;
  st_head : Z.of_nat (length (head b)) = 1920;
  st_off : 108 <= transport_off b;
  st_end : data b + len b = transport_off b + 20 + (y - x);
  st_text : region b (transport_off b + 20) (y - x) = slice S x y;
}.

Lemma push_hdr_wp hi m s e a b fl l4len w :
  heap w !! m = Some s -> sid s = m -> ready (set_seg_end e s) a b -> data_flags fl -> L <= a -> b <= hi -> c_e (conn w) = ce -> rcv_nxt (pcb (conn w)) = U ->
  wp (tcp_push_tcphdr m fl l4len) w (fun _ w' => exists b' x y, headed hi b' a b /\
    w' = set_heap (<[m := set_mb b' s]> (heap w)) (set_conn (set_tx_last_win x (set_tx_last_ack y (conn w))) w)).
Proof.
  intros Hh Hid [Hok Hq He Hab Hhd Hd Hl Ht] Hfl HL Hhi Hce HU. assert (Hok' := Hok). destruct Hok'. change TCP_MSS with 1460 in Hab. cbn in *.
  destruct (tcp_push_tcphdr_run m s fl l4len w) as (b' & x2 & urp & sum & Er & Hb & Hu & Hp & _ & Hda & Hle & Hto & _ & Hlh); auto; [unfold USHRT_MAX; lia|].
  eexists tt, _. split; [exact Er|]. exists b'. eexists _, _. split; [|reflexivity]. rewrite Hce, HU, Hq, Ht in Hp.
  split; auto; try lia.
  - rewrite region_payload by (auto; lia). replace (data b' + 20 - data b') with 20 by lia. rewrite Hp.
    rewrite drop_app_length' by (by rewrite length_tcphdr_bytes). apply take_ge. assert (X := length_slice S a b). lia.
  - split; [lia|change TCP_MSS with 1460; lia|]. exists x2, fl. eexists _, sum, urp. split_and!; [done| |done|exact Hp]. unfold u16, in_u16, M16. apply Z.mod_pos_bound. done.
Qed.

Lemma push_wp hi m s a b fl l4len w :
  heap w !! m = Some s -> sid s = m -> ready s a b -> data_flags fl -> L <= a -> b <= hi -> c_e (conn w) = ce -> rcv_nxt (pcb (conn w)) = U ->
  wp (tcp_push_tcphdr m fl l4len) w (fun _ w' => exists b' x y, headed hi b' a b /\
    w' = set_heap (<[m := set_mb b' s]> (heap w)) (set_conn (set_tx_last_win x (set_tx_last_ack y (conn w))) w)).
Proof. intros ? ? ?. apply (push_hdr_wp hi m s (seg_end s)); auto. by destruct s. Qed.

Lemma tx_ip_wp hi m s a b w :
  heap w !! m = Some s -> sid s = m -> headed hi (mb s) a b -> a <= b ->
  wp (tx_ip E m (Transport.ip (raddr ce))) w (fun ret w' => exists b', stored b' a b /\ (ret = 0 \/ ret = - ENOMEM) /\
    good_ev hi (EvTx m (Transport.ip (raddr ce)) (payload (mb s)) ret) /\
    w' = set_trace (trace w ++ [EvTx m (Transport.ip (raddr ce)) (payload (mb s)) ret])
           (set_heap (<[m := set_mb b' s]> (heap w)) (set_n_tx (1 + n_tx w)%nat w))).
Proof.
  intros Hh Hid [Hok Hhd Hd Ho Hl Ht Hp] Hab.
  destruct (net_tx_ip_prefix (e_cfg E) IPPROTO_TCP (Transport.ip (raddr ce)) (e_ipid E (n_tx w)) (e_arp E (n_tx w)) (mb s))
    as (ret & b' & l & Er & Hb & Hr & Hpl & Hda & Hle & Hto & Hlh); auto; [lia|apply HE|intros d; apply (eo_arp E HE)|].
  eexists ret, _. split.
  { unfold tx_ip, get_seg, put_seg, getw, modw, emit, mbind, M_bind, lift. cbn. rewrite Hh. cbn. rewrite Er. cbn. rewrite Hid. reflexivity. }
  exists b'. split_and!; auto; [|cbn; eauto].
  split; auto; try lia. rewrite Hto, Ho, <- Ht. apply (region_push (mb s) b' l); auto; lia.
Qed.

(** ** The transmit queue *)

(** A packet that was sent. *)
Record segok (s : seg) (a b : Z) : Prop := {
  sg_buf : stored (mb s) a b;
  sg_seq : seg_seq s = u32 a;
  sg_end : seg_end s = u32 b;
  sg_ab : a <= b <= a + TCP_MSS;
  sg_flags : data_flags (flags s);
  sg_rel : release s = tcp_tx_release_mbuf;
}.

(** The packets of the queue follow each other in the stream.  One that is sent again
    starts at the first byte that is not acknowledged. *)
Fixpoint chain (una : Z) (h : gmap nat seg) (D : list nat) (q : list nat) (lo hi : Z) : Prop :=
  match q with
  | [] => lo = hi
  | m :: q => exists s a b, h !! m = Some s /\ sid s = m /\ segok s a b /\ sref s = 1 + held m D /\
      (a = lo \/ lo <= a <= una) /\ chain una h D q b hi
  end.

Lemma chain_keeps una una' h h' D D' q lo hi :
  una <= una' -> (forall m, m ∈ q -> h' !! m = h !! m /\ held m D' = held m D) -> chain una h D q lo hi -> chain una' h' D' q lo hi.
Proof.
  intros Hu. revert lo. induction q as [|m q IH]; intros lo Hm; cbn; [done|]. intros (s & a & b & H1 & H2 & H3 & H4 & H5 & H6).
  destruct (Hm m ltac:(by left)) as [E1 E2]. exists s, a, b. rewrite E1, E2. split_and!; auto; [lia|].
  apply IH; [|done]. intros n Hn. apply Hm. by right.
Qed.

Lemma chain_snoc una h D q lo x m s y :
  chain una h D q lo x -> h !! m = Some s -> sid s = m -> segok s x y -> sref s = 1 + held m D -> chain una h D (q ++ [m]) lo y.
Proof.
  revert lo. induction q as [|n q IH]; intros lo; cbn.
  - intros -> ? ? ? ?. exists s, x, y. split_and!; auto.
  - intros (t & a & b & H1 & H2 & H3 & H4 & H5 & H6) ? ? ? ?. exists t, a, b. split_and!; auto.
Qed.

Lemma chain_le una h D q lo hi : chain una h D q lo hi -> lo <= hi.
Proof.
  revert lo. induction q as [|m q IH]; intros lo; cbn; [lia|]. intros (s & a & b & _ & _ & [_ _ _ Hab _ _] & _ & H5 & H6).
  apply IH in H6. lia.
Qed.

Lemma chain_elem una h D q lo hi m :
  chain una h D q lo hi -> m ∈ q ->
  exists s a b, h !! m = Some s /\ sid s = m /\ segok s a b /\ sref s = 1 + held m D /\ lo <= a /\ b <= hi.
Proof.
  revert lo. induction q as [|n q IH]; intros lo; [by intros _ ?%elem_of_nil|]. cbn. intros (s & a & b & H1 & H2 & H3 & H4 & H5 & H6) [->|Hm]%elem_of_cons.
  - exists s, a, b. split_and!; auto; [lia|by eapply chain_le].
  - destruct (IH b H6 Hm) as (t & x & y & ? & ? & ? & ? & ? & ?). exists t, x, y. split_and!; auto. destruct H3. lia.
Qed.

(** Each byte that is not acknowledged is in a packet of the queue. *)
Lemma chain_covers una h D q lo hi p :
  chain una h D q lo hi -> lo <= p < hi -> una <= p -> exists m s a b, m ∈ q /\ h !! m = Some s /\ segok s a b /\ a <= p < b.
Proof.
  revert lo. induction q as [|n q IH]; intros lo; cbn; [lia|]. intros (s & a & b & H1 & H2 & H3 & H4 & H5 & H6) Hp Hu.
  destruct (Z_lt_le_dec p b) as [Hlt|Hge].
  - exists n, s, a, b. split_and!; auto; [by left|lia].
  - destruct (IH b H6) as (m & t & x & y & Hm & ?); [lia|lia|]. exists m, t, x, y. split; [by right|done].
Qed.

(** The packet that is being filled. *)
Record filling (s : seg) (a b : Z) : Prop := {
  fi_ready : ready s a b;
  fi_data : data (mb s) = 128;
  fi_flags : flags s = TCP_ACK;
  fi_rel : release s = tcp_tx_release_mbuf;
  fi_ref : sref s = 2;
}.

(** The state of the sender.  [P] is the position of the next byte, [una] the first that
    is not acknowledged, [x] the first that was not sent: the packet [pd] is filled with
    the bytes from there.  [k] threads were started to retransmit. *)
Record core (lk ex : bool) (k B : Z) (pd : option nat) (x P una : Z) (D : list nat) (w : world) : Prop := {
  co_ctl : c_lock (conn w) = lk /\ state (pcb (conn w)) = TCP_STATE_ESTABLISHED /\ tx_exclusive (conn w) = ex /\ tx_closed (conn w) = false /\
    k < c_ref (conn w);
  co_ends : c_e (conn w) = ce /\ rcv_nxt (pcb (conn w)) = U;
  co_seq : snd_nxt (pcb (conn w)) = u32 P /\ snd_una (pcb (conn w)) = u32 una;
  co_win : una <= P <= una + 65536 /\ 0 <= snd_wnd (pcb (conn w)) <= 65535 /\ L <= x;
  co_queue : exists lo, chain una (heap w) D (txq (conn w)) lo x /\ una - B <= lo <= una /\ L <= lo;
  co_pend : match pd with
            | None => x = P
            | Some m => (m ∉ txq (conn w)) /\ (m ∉ D) /\ exists s, heap w !! m = Some s /\ sid s = m /\ filling s x P
            end;
  co_nodup : NoDup (txq (conn w));
  co_drv m : m ∈ D -> m ∉ txq (conn w) -> exists s, heap w !! m = Some s /\ sid s = m /\
    ((exists a b, segok s a b /\ L <= a /\ b <= x /\ sref s = held m D) \/ release s = net_tx_release_mbuf /\ held m D = 1);
  co_fresh m : is_Some (heap w !! m) -> (m < next_sid w)%nat;
}.

(** The parts of the connection that the invariant looks at. *)
Definition tview (c : tcpconn) :=
  (c_lock c, (state (pcb c), tx_exclusive c, tx_closed c, c_ref c), (c_e c, rcv_nxt (pcb c)), (snd_nxt (pcb c), snd_una (pcb c), snd_wnd (pcb c)), txq c).

Lemma core_view lk ex k B pd x P una D w w' :
  tview (conn w') = tview (conn w) -> heap w' = heap w -> next_sid w' = next_sid w -> core lk ex k B pd x P una D w -> core lk ex k B pd x P una D w'.
Proof.
  intros Hv Hh Hn [H1 H2 H3 H4 H5 H6 H7 H8 H9]. unfold tview in Hv. injection Hv as V1 V2 V3 V4 V5 V6 V7 V8 V9 V10 V11.
  split; rewrite ?V1, ?V2, ?V3, ?V4, ?V5, ?V6, ?V7, ?V8, ?V9, ?V10, ?V11, ?Hh, ?Hn; auto.
Qed.

(** The references from outside in another order. *)
Lemma core_perm lk ex k B pd x P una D D' w : D ≡ₚ D' -> core lk ex k B pd x P una D w -> core lk ex k B pd x P una D' w.
Proof.
  intros Hp [H1 H2 H3 H4 (lo & Hc & Hl) H6 H7 H8 H9].
  assert (Hh : forall m, held m D' = held m D) by (intros m; unfold held; by rewrite (proj1 (Permutation_count_occ Nat.eq_dec D D') Hp)).
  split; auto.
  - exists lo. split; [|done]. eapply chain_keeps; [reflexivity| |exact Hc]. auto.
  - destruct pd; [|done]. by rewrite <- Hp.
  - intros m Hm Hq. rewrite <- Hp in Hm. rewrite Hh. by apply H8.
Qed.

Lemma core_known lk ex k B pd x P una D w m : core lk ex k B pd x P una D w -> m ∈ txq (conn w) \/ m ∈ D -> (m < next_sid w)%nat.
Proof.
  intros [_ _ _ _ (lo & Hc & _) _ _ H8 H9] Hm. apply H9. destruct (decide (m ∈ txq (conn w))) as [Hq|Hq].
  - destruct (chain_elem _ _ _ _ _ _ _ Hc Hq) as (s & ? & ? & -> & _). done.
  - destruct Hm as [?|Hm]; [done|]. destruct (H8 m Hm Hq) as (s & -> & _). done.
Qed.

(** ** The segmenter *)

(** Bytes are put into the packet that is filled, an old one or a new one. *)
Lemma core_fill lk ex k B pd x P P' una D w w' m s :
  core lk ex k B pd x P una D w -> match pd with Some n => m = n | None => m = next_sid w end ->
  sid s = m -> filling s x P' -> P <= P' <= una + 65536 ->
  tview (conn w') = tview (set_pcb (set_snd_nxt (u32 P') (pcb (conn w))) (conn w)) ->
  heap w' = <[m := s]> (heap w) -> (next_sid w <= next_sid w')%nat -> (m < next_sid w')%nat ->
  core lk ex k B (Some m) x P' una D w' /\ steady D w w'.
Proof.
  intros Hco Hm Hid Hf HP Hv Hh Hn Hlt. assert (Hk := core_known _ _ _ _ _ _ _ _ _ _ m Hco).
  destruct Hco as [H1 H2 [H3 H3'] (H4 & H4' & H4'') (lo & Hc & Hl) H6 H7 H8 H9].
  assert (Hq : (m ∉ txq (conn w)) /\ (m ∉ D)).
  { destruct pd; [subst m; tauto|]. subst m. split; intros ?; lia || (assert (next_sid w < next_sid w)%nat by auto; lia). }
  destruct Hq as [Hq HD]. split; [|by eapply steady_insert].
  unfold tview in Hv. cbn in Hv. injection Hv as V1 V2 V3 V4 V5 V6 V7 V8 V9 V10 V11.
  split; rewrite ?V1, ?V2, ?V3, ?V4, ?V5, ?V6, ?V7, ?V8, ?V9, ?V10, ?V11, ?Hh; auto.
  - split_and!; auto; lia.
  - exists lo. split; [|done]. eapply chain_keeps; [reflexivity| |exact Hc]. intros n Hn'. split; [|done].
    apply lookup_insert_ne. congruence.
  - split_and!; auto. exists s. by rewrite lookup_insert_eq.
  - intros n Hn1 Hn2. destruct (H8 n Hn1 Hn2) as (t & Ht & Hr). exists t. split; [|done]. by rewrite lookup_insert_ne by congruence.
  - intros n. destruct (decide (n = m)) as [->|Hne]; [done|]. rewrite lookup_insert_ne by done. intros ?%H9. lia.
Qed.

Lemma filling_append s x P g :
  filling s x P -> 0 <= g -> P + g <= x + TCP_MSS ->
  exists b, mbuf_append (slice S P (P + g)) (mb s) = Ok b /\ filling (set_mb b (set_seg_end (u32 (P + g)) s)) x (P + g).
Proof.
  intros [[Hok Hq He Hab Hhd Hda Hl Ht] Hd Hfl Hrel Href] Hg Hle. change TCP_MSS with 1460 in *.
  assert (X := length_slice S P (P + g) ltac:(lia)).
  destruct (mbuf_append_ok (slice S P (P + g)) (mb s) Hok) as (b & Eb & Hb & Hp & Hd' & Hl' & _ & Hh'); [lia|].
  exists b. split; [done|]. split; cbn; auto; [|lia]. split; cbn; auto; [change TCP_MSS with 1460; lia|lia|lia|lia|]. rewrite Hp, Ht. apply slice_app; lia.
Qed.

Lemma fresh_filling b P : fresh_buf b -> filling (Seg 0 b (u32 P) (u32 P) TCP_ACK 0 2 tcp_tx_release_mbuf) P P.
Proof.
  intros (Hb & Hd & Hl & Hh). split; cbn; auto. split; cbn; auto; [change TCP_MSS with 1460; lia|rewrite Hd; done|lia|].
  rewrite slice_nil by lia. unfold payload. by rewrite Hl.
Qed.

Lemma fill_done lk ex k B pd x P una D w w2 m s g :
  core lk ex k B pd x P una D w -> match pd with Some n => m = n | None => m = next_sid w end ->
  sid s = m -> filling s x (P + g) -> 0 <= g /\ P + g <= una + 65536 ->
  conn w2 = set_tx_pending None (conn w) /\ trace w2 = trace w \/ conn w2 = conn w /\ tx_pending (conn w) = None /\ trace w2 = trace w ->
  heap w2 = <[m := s]> (heap w) -> (next_sid w <= next_sid w2)%nat -> (m < next_sid w2)%nat ->
  let w3 := set_conn (set_pcb (set_snd_nxt (u32 (snd_nxt (pcb (conn w2)) + g)) (pcb (conn w2))) (conn w2)) w2 in
  core lk ex k B (Some m) x (P + g) una D w3 /\ tx_pending (conn w3) = None /\ trace w3 = trace w /\ steady D w w3.
Proof.
  intros Hco Hm Hid Hf Hg Hc Hh Hn Hlt w3. assert (Hnx : snd_nxt (pcb (conn w)) = u32 P) by apply Hco.
  destruct (core_fill lk ex k B pd x P (P + g) una D w w3 m s) as [Hk Hs]; auto; [lia| |].
  - unfold w3. cbn. destruct Hc as [[-> _]|[-> _]]; cbn; rewrite Hnx, u32_add_l; done.
  - split; [done|]. unfold w3. cbn. destruct Hc as [[-> ?]|(-> & ? & ?)]; done.
Qed.

Lemma fill_wp lk ex k B pd x P una D w n :
  core lk ex k B pd x P una D w -> tx_pending (conn w) = pd -> 0 <= n -> P + n <= una + 65536 ->
  wp (tx_segment_buf E n) w (fun r w1 =>
    match r with
    | None => pd = None /\ core lk ex k B None x P una D w1 /\ tx_pending (conn w1) = None /\ trace w1 = trace w /\ steady D w w1
    | Some (m, g) => 0 <= g <= n /\ (pd = None -> g = Z.min n TCP_MSS) /\
        wp (mod_mb m (mbuf_append (slice S P (P + g)))) w1 (fun _ w2 => wp (modp (fun p => set_snd_nxt (u32 (snd_nxt p + g)) p)) w2 (fun _ w3 =>
          core lk ex k B (Some m) x (P + g) una D w3 /\ tx_pending (conn w3) = None /\ trace w3 = trace w /\ steady D w w3))
    end).
Proof.
  intros Hco Hpd Hn HP. assert (Hco' := Hco). destruct Hco' as [_ _ [Hnx _] Hwin _ Hpe _ _ _].
  unfold tx_segment_buf. wstep. rewrite Hpd. destruct pd as [m|].
  - destruct Hpe as (_ & _ & s & Hs & Hid & Hf). assert (Hf' := Hf). destruct Hf' as [[? _ _ Hab _ _ Hl _] _ _ _ _]. change TCP_MSS with 1460 in *.
    wstep. wstep. wstep. eapply wp_get_seg; [exact Hs|]. wstep. apply wp_put_seg. cbn [sid set_seg_end]. wstep.
    unfold mbuf_length. rewrite Hl. rewrite (u64_id (1460 - (P - x))) by (unfold in_u64, M64; lia).
    set (g := Z.min n (1460 - (P - x))). split_and!; [lia|lia|done|].
    destruct (filling_append s x P g Hf ltac:(lia)) as (b & Eb & Hfb); [change TCP_MSS with 1460; lia|].
    replace (u32 (seg_end s + g)) with (u32 (P + g)) by (rewrite (rd_end _ _ _ (fi_ready _ _ _ Hf)), u32_add_l; done).
    eapply (wp_mod_mb m _ (set_seg_end (u32 (P + g)) s)); [cbn; rewrite Hid; apply lookup_insert_eq|exact Eb|]. wstep.
    cbn [sid set_seg_end]. rewrite Hid. eapply (fill_done lk ex k B (Some m) x P _ _ w _ m (set_mb b (set_seg_end (u32 (P + g)) s))); [exact Hco|done|exact Hid|exact Hfb|lia|by left|..].
    + cbn. by rewrite insert_insert_eq.
    + done.
    + cbn. assert (m < next_sid w)%nat; [|lia]. destruct Hco as [_ _ _ _ _ _ _ _ H9]. apply H9. by rewrite Hs.
  - cbn in Hpe. subst x. wstep. destruct (tx_alloc_run E w HE) as [Ea|(b & Hb & Ea)]; eexists _, _; (split; [exact Ea|]); cbv iota beta.
    { wstep. split_and!; auto; [|by apply steady_eq]. eapply core_view; [..|exact Hco]; done. }
    set (m := next_sid w). set (g := Z.min n TCP_MSS). assert (Hg : 0 <= g <= n /\ g <= 1460) by (unfold g; change TCP_MSS with 1460; lia). wstep. eapply wp_mod_seg; [cbn; apply lookup_insert_eq|]. wstep. split_and!; [lia|lia|done|].
    rewrite Hnx, u32_add_l. destruct (filling_append _ P P g (fresh_filling b P Hb) ltac:(lia)) as (b' & Eb & Hfb); [change TCP_MSS with 1460; lia|].
    cbn [mb] in Eb. eapply (wp_mod_mb m); [cbn; apply lookup_insert_eq|exact Eb|]. wstep.
    eapply (fill_done lk ex k B None P P _ _ w _ m (set_sid m (set_mb b' (set_seg_end (u32 (P + g)) (Seg 0 b (u32 P) (u32 P) TCP_ACK 0 2 tcp_tx_release_mbuf)))));
      [exact Hco|done|done| |lia|by right|..].
    + destruct Hfb as [[] ? ? ? ?]. split; auto. by split.
    + cbn. by rewrite !insert_insert_eq.
    + cbn. lia.
    + cbn. unfold m. lia.
Qed.

(** The packet that was filled goes to the queue, and maybe to the driver. *)
Lemma core_sent lk ex k B m x P una D D' w w' s :
  core lk ex k B (Some m) x P una D w -> segok s x P -> sid s = m -> sref s = 1 + held m D' -> D' = D \/ D' = D ++ [m] ->
  tview (conn w') = tview (set_txq (txq (conn w) ++ [m]) (conn w)) -> heap w' = <[m := s]> (heap w) -> next_sid w' = next_sid w ->
  core lk ex k B None P P una D' w' /\ steady D w w'.
Proof.
  intros [H1 H2 H3 H4 (lo & Hc & Hl) (Hq & HD & s0 & Hs0 & _ & Hf) H7 H8 H9] Hs Hid Hr HD' Hv Hh Hn.
  assert (Hx := rd_ab _ _ _ (fi_ready _ _ _ Hf)). change TCP_MSS with 1460 in *.
  assert (Hheld : forall n, n <> m -> held n D' = held n D).
  { intros n Hne. destruct HD' as [->| ->]; [done|]. rewrite held_app, (held_other n m) by done. lia. }
  assert (Hin : forall n, n ∈ D' -> n = m \/ n ∈ D).
  { intros n Hn'. destruct HD' as [->| ->]; [by right|]. apply elem_of_app in Hn' as [?|?%list_elem_of_singleton]; auto. }
  split; [|by eapply steady_insert].
  unfold tview in Hv. cbn in Hv. injection Hv as V1 V2 V3 V4 V5 V6 V7 V8 V9 V10 V11.
  split; rewrite ?V1, ?V2, ?V3, ?V4, ?V5, ?V6, ?V7, ?V8, ?V9, ?V10, ?V11, ?Hh, ?Hn; auto.
  - split_and!; lia.
  - exists lo. split; [|done]. eapply chain_snoc; [|apply lookup_insert_eq|done|done|done]. eapply chain_keeps; [reflexivity| |exact Hc].
    intros n Hn'. assert (n <> m) by congruence. rewrite lookup_insert_ne by done. auto.
  - apply list.NoDup_app. split_and!; [done| |apply NoDup_singleton]. intros n Hn' ->%list_elem_of_singleton. done.
  - intros n Hn1 Hn2. rewrite elem_of_app, list_elem_of_singleton in Hn2. destruct (Hin n Hn1) as [->|Hn3]; [tauto|].
    assert (n <> m) by tauto. destruct (H8 n Hn3) as (t & Ht & Hi & Hor); [tauto|]. exists t. rewrite lookup_insert_ne, Hheld by done. split_and!; auto.
    destruct Hor as [(a & b & ? & ? & ? & ?)|?]; [left|by right]. exists a, b. split_and!; auto. lia.
  - intros n. destruct (decide (n = m)) as [->|Hne]; [intros _; apply H9; by rewrite Hs0|]. rewrite lookup_insert_ne by done. apply H9.
Qed.

Lemma segok_of s b s' x P :
  filling s x P -> stored b x P -> mb s' = b -> seg_seq s' = seg_seq s -> seg_end s' = seg_end s -> data_flags (flags s') -> release s' = release s ->
  segok s' x P.
Proof. intros [[] ? ? ? ?] Hb <- Hq He Hfl Hr. split; auto; congruence. Qed.

Lemma send_wp lk ex k B m x P una D w push last :
  core lk ex k B (Some m) x P una D w -> tx_pending (conn w) = None ->
  wp (tx_segment_send E m push last) w (fun r w' =>
    match r with
    | None => last = true /\ core lk ex k B (Some m) x P una D w' /\ tx_pending (conn w') = Some m /\ trace w' = trace w /\ steady D w w'
    | Some ret => (ret = 0 \/ ret = - ENOMEM) /\
        exists t, core lk ex k B None P P una (D ++ sent_of t) w' /\ tx_pending (conn w') = None /\ emits P D w t w'
    end).
Proof.
  intros Hco Hpd. assert (Hco' := Hco). destruct Hco' as [_ [Hce HU] _ (_ & _ & HL) _ (Hq & HD & s & Hs & Hid & Hf) _ _ _].
  unfold tx_segment_send. wstep. eapply wp_get_seg; [exact Hs|]. wstep; intros Hb.
  { wstep. wstep. wstep. apply andb_true_iff in Hb as [[_ Hl]%andb_true_iff _]. split_and!; auto; [|by apply steady_eq]. eapply core_view; [..|exact Hco]; done. }
  set (fl := if push && last then Z.lor (flags s) TCP_PUSH else flags s). wstep.
  eapply (wp_mono _ _ (fun _ w1 => w1 = set_heap (<[m := set_flags fl s]> (heap w)) w)).
  { unfold fl. wstep; intros Hpl.
    - eapply wp_mod_seg; [exact Hs|]. cbn [sid set_flags]. by rewrite Hid, Hpl.
    - rewrite Hpl. replace (set_flags (flags s) s) with s by by destruct s. rewrite insert_id by done. by destruct w. }
  cbv beta. intros _ w1 ->. wstep. eapply wp_get_seg; [cbn; apply lookup_insert_eq|]. wstep.
  assert (Hfl : data_flags fl). { unfold fl. rewrite (fi_flags _ _ _ Hf). destruct (push && last); [by right|by left]. }
  assert (Hr1 : ready (set_flags fl s) x P) by (destruct Hf as [[] ? ? ? ?]; by split).
  eapply wp_mono; [eapply (push_wp P m (set_flags fl s) x P); [cbn; apply lookup_insert_eq|done|done|done|lia|lia|done|done]|].
  cbv beta. intros _ w2 (b2 & y & z & Hhd & ->). wstep. wstep. wstep. unfold microtime. wstep. wstep. wstep. wstep. wstep.
  eapply wp_mod_seg; [cbn; apply lookup_insert_eq|]. wstep. cbn [conn set_heap set_n_time set_conn set_txq c_e set_tx_last_win set_tx_last_ack].
  rewrite Hce. wstep. set (s3 := set_mb_txflags _ _).
  eapply wp_mono; [eapply (tx_ip_wp P m s3 x P); [cbn; rewrite Hid; apply lookup_insert_eq|done| |apply (rd_ab _ _ _ Hr1)]|].
  { destruct Hhd as [[]]. split; auto. by split. }
  cbv beta. intros ret w4 (b4 & Hst & Hret & Hev & ->). wstep. set (t := [EvTx m (Transport.ip (raddr ce)) (payload (mb s3)) ret]) in *.
  set (s5 := set_sref (if ret =? 0 then 2 else 1) (set_mb b4 s3)).
  assert (Hs5 : segok s5 x P) by by eapply (segok_of s b4).
  eapply (wp_mono _ _ (fun _ w5 => tview (conn w5) = tview (set_txq (txq (conn w) ++ [m]) (conn w)) /\ tx_pending (conn w5) = None /\
    heap w5 = <[m := s5]> (heap w) /\ next_sid w5 = next_sid w /\ trace w5 = trace w ++ t)).
  { unfold s5. wstep; intros Hz.
    - eapply wp_mod_seg; [cbn; apply lookup_insert_eq|]. cbn. rewrite Hid, !insert_insert_eq. destruct (Z.eqb_spec ret 0); [done|]. split_and!; auto.
    - cbn. rewrite Hid, !insert_insert_eq. destruct (Z.eqb_spec ret 0); [|done]. split_and!; auto. do 2 f_equal. unfold set_sref, set_mb. cbn. by rewrite (fi_ref _ _ _ Hf). }
  cbv beta. intros _ w5 (Hv & Htp & Hh & Hn & Htr). wstep. split; [done|]. exists t.
  destruct (core_sent lk ex k B m x P una D (D ++ sent_of t) w w5 s5 Hco Hs5) as [Hk Hsd]; auto.
  - unfold s5, t, sent_of. cbn. rewrite app_nil_r, held_app, (held_none m D) by done. destruct (ret =? 0); [by rewrite held_one|done].
  - unfold t, sent_of. cbn. rewrite app_nil_r. destruct (ret =? 0); [by right|left; by rewrite app_nil_r].
  - split_and!; auto. split; auto. by apply Forall_singleton.
Qed.

(** The result of taking [g] bytes. *)
Definition took (lk ex : bool) (k B : Z) (P P' una : Z) (D : list nat) (w w' : world) : Prop :=
  exists pd x t, core lk ex k B pd x P' una (D ++ sent_of t) w' /\ tx_pending (conn w') = pd /\ emits P' D w t w' /\ P <= P'.

(** The segmenter takes a part of the bytes, all of them unless it runs out of buffers;
    each step of the loop takes a byte, but for the one that sends a full packet. *)
Lemma loop_wp lk ex k B una push : forall fuel n ret pd x P D w,
  core lk ex k B pd x P una D w -> tx_pending (conn w) = pd -> 0 <= n -> P + n <= una + 65536 -> ret <= 0 ->
  (Z.to_nat n + match pd with Some _ => 2 | None => 1 end <= fuel)%nat ->
  wp (tcp_tx_send_loop E fuel (slice S P (P + n)) push ret) w (fun r w' =>
    exists P', r.1 <= 0 /\ P <= P' <= P + n /\ r.2 = slice S P' (P + n) /\ (r.1 <> - ENOBUFS -> P' = P + n) /\ took lk ex k B P P' una D w w').
Proof.
  induction fuel as [|fuel IH]; intros n ret pd x P D w Hco Hpd Hn HP Hr Hfuel; [destruct pd; lia|].
  cbn [tcp_tx_send_loop]. rewrite length_slice by lia. replace (P + n - P) with n by lia. wstep.
  eapply wp_mono; [by apply (fill_wp lk ex k B pd x P una D)|]. cbv beta. intros r w1 H1. destruct r as [[m g]|].
  2: { destruct H1 as (-> & H1 & Htp & Htr & Hsd). wstep. exists P. cbn. split_and!; [done|lia|lia|done|done|].
       exists None, x, []. change (sent_of []) with (@nil nat). rewrite app_nil_r. split_and!; auto; [by apply emits_none|lia]. }
  destruct H1 as (Hg & Hgn & Hfill). rewrite take_slice by lia. wstep. eapply wp_mono; [exact Hfill|]. cbv beta. clear Hfill.
  intros _ w2 H2. wstep. eapply wp_mono; [exact H2|]. cbv beta. clear H2. intros _ w3 (H3 & Htp & Htr & Hsd).
  rewrite drop_slice by lia. wstep. set (last := bool_decide _).
  assert (Hlast : last = true <-> g = n).
  { unfold last. rewrite bool_decide_eq_true. split; [|intros ->; apply slice_nil; lia]. intros Hs. assert (X := length_slice S (P + g) (P + n) ltac:(lia)).
    rewrite Hs in X. cbn in X. lia. }
  eapply wp_mono; [by apply (send_wp lk ex k B m x (P + g) una D)|]. cbv beta. intros r w4 H4. destruct r as [ret'|].
  2: { destruct H4 as (Hl & H4 & Htp' & Htr' & Hsd'). wstep. exists (P + g). cbn. apply Hlast in Hl as ->. split_and!; [done|lia|lia|done|lia|].
       exists (Some m), x, []. change (sent_of []) with (@nil nat). rewrite app_nil_r. split_and!; auto; [|lia].
       apply emits_none; [congruence|]. intros i Hi. by rewrite Hsd', Hsd by done. }
  destruct H4 as (Hret & t & H4 & Htp' & Hem). assert (Hr' : ret' <= 0) by (unfold ENOMEM in *; lia).
  assert (Hem' : emits (P + g) D w t w4).
  { eapply (emits_trans _ D D _ [] w3 t); [by apply emits_none|done|exact Hem]. }
  wstep; intros Hl.
  { wstep. exists (P + g). cbn. apply Hlast in Hl as ->. split_and!; [done|lia|lia|done|lia|]. exists None, (P + n), t. split_and!; auto. lia. }
  assert (Hgn' : g < n). { assert (g <> n); [|lia]. intros ?%Hlast. congruence. }
  replace (P + n) with (P + g + (n - g)) by lia.
  eapply wp_mono; [apply (IH (n - g) ret' None (P + g) (P + g) (D ++ sent_of t)); auto; [lia|lia|]|].
  { destruct pd; [lia|]. rewrite (Hgn eq_refl) in Hgn' |- *. change TCP_MSS with 1460 in *. lia. }
  cbv beta. intros [r rest] w5 (P' & ? & HP' & ? & ? & pd' & x' & t' & H5 & ? & Hem5 & _). exists P'. split_and!; auto; [lia|lia|].
  exists pd', x', (t ++ t'). rewrite sent_of_app, app_assoc. split_and!; auto; [|lia].
  eapply emits_trans; [eapply emits_mono; [|exact Hem']; lia|intros i Hi; apply elem_of_app; by left|exact Hem5].
Qed.

(** [tcp_tx_send] returns how many bytes it took, if it took any. *)
Lemma tx_send_wp lk ex k B una push n pd x P D w :
  core lk ex k B pd x P una D w -> tx_pending (conn w) = pd -> 0 <= n -> P + n <= una + 65536 -> lk || ex = true ->
  wp (tcp_tx_send E (slice S P (P + n)) push) w (fun r w' => r <= n /\ took lk ex k B P (P + Z.max 0 r) una D w w').
Proof.
  intros Hco Hpd Hn HP Hlx. unfold tcp_tx_send. assert (Hctl := co_ctl _ _ _ _ _ _ _ _ _ _ Hco). destruct Hctl as (Hlk & Hst & Hex & _).
  wstep. rewrite Hst, Hlk, Hex. wstep. apply wp_assert; [done|]. wstep. apply wp_assert; [by rewrite orb_comm|]. wstep.
  assert (Hlen := length_slice S P (P + n) ltac:(lia)).
  eapply wp_mono; [apply (loop_wp lk ex k B una push (2 + length (slice S P (P + n))) n 0 pd x P D); auto; [lia|destruct pd; lia]|].
  cbv beta. intros [r rest] w' (P' & Hr & HP' & Hrest & _ & Ht). cbn [fst snd] in *. wstep. subst rest. rewrite !length_slice by lia.
  replace (P + n - P - (P + n - P')) with (P' - P) by lia. destruct (Z.ltb_spec 0 (P' - P)).
  - split; [lia|]. by replace (P + Z.max 0 (P' - P)) with P' by lia.
  - split; [lia|]. by replace (P + Z.max 0 r) with P' by lia.
Qed.
End send.
