(* ===== verification/TcpRtx.v ===== *)
(** * Retransmission and acknowledgements on the sending side *)

From S2P Require Import Prelude Stddef Mbuf Chksum Transport Arp Core TcpState TcpOut TcpConn TcpIn TcpWire Tcp TcpStream TcpSend.

Lemma held_iff m D : m ∈ D <-> 0 < held m D.
Proof. split; [apply held_pos|]. intros H. destruct (decide (m ∈ D)) as [|Hn]; [done|]. rewrite held_none in H by done. lia. Qed.

Lemma held_cons m n D : held m (n :: D) = (if decide (n = m) then 1 else 0) + held m D.
Proof. unfold held. cbn. destruct (Nat.eq_dec n m), (decide (n = m)); lia. Qed.

Section rtx.
Context (E : env) (HE : env_ok E).
Context (S : Z -> Z) (ce : trans_entry) (U L : Z).

Local Abbreviation core := (core S ce U L).
Local Abbreviation chain := (chain S).
Local Abbreviation segok := (segok S).
Local Abbreviation emits := (emits S ce U L).
Local Abbreviation good_ev := (good_ev S ce U L).

(** ** A change of one buffer *)

(** What may become of a buffer that is in the queue. *)
Definition touched (una : Z) (h : gmap nat seg) (D : list nat) (m : nat) (s : seg) (a b : Z) : Prop :=
  exists s' a', h !! m = Some s' /\ sid s' = m /\ segok s' a' b /\ sref s' = 1 + held m D /\ (a' = a \/ a <= a' <= una).

Lemma chain_touch una h h' D D' q lo hi m :
  chain una h D q lo hi -> (forall n, n <> m -> h' !! n = h !! n /\ held n D' = held n D) ->
  (m ∈ q -> forall s a b, h !! m = Some s -> sid s = m -> segok s a b -> sref s = 1 + held m D -> lo <= a -> b <= hi -> touched una h' D' m s a b) ->
  chain una h' D' q lo hi.
Proof.
  intros Hc Hn Hm. revert lo Hc Hm. induction q as [|n q IH]; intros lo; cbn; [done|]. intros (s & a & b & H1 & H2 & H3 & H4 & H5 & H6) Hm.
  assert (Hq : chain una h' D' q b hi). { apply IH; [done|]. intros Hin s' a' b' ? ? ? ? ? ?. apply Hm; auto; [by right|]. destruct H3. lia. }
  assert (Hle := chain_le _ _ _ _ _ _ _ H6). destruct (decide (n = m)) as [->|Hne].
  - destruct (Hm ltac:(by left) s a b H1 H2 H3 H4 ltac:(lia) Hle) as (s' & a' & ? & ? & ? & ? & ?); auto. exists s', a', b. split_and!; auto. lia.
  - destruct (Hn n Hne) as [E1 E2]. exists s, a, b. rewrite E1, E2. split_and!; auto.
Qed.

Definition driver_has (x : Z) (h : gmap nat seg) (D : list nat) (m : nat) : Prop :=
  exists s, h !! m = Some s /\ sid s = m /\
    ((exists a b, segok s a b /\ L <= a /\ b <= x /\ sref s = held m D) \/ release s = net_tx_release_mbuf /\ held m D = 1).

Lemma core_touch lk ex k B pd x P una D D' w w' m :
  core lk ex k B pd x P una D w -> tview (conn w') = tview (conn w) -> pd <> Some m ->
  (forall n, n <> m -> heap w' !! n = heap w !! n /\ held n D' = held n D) ->
  (m ∈ txq (conn w) -> forall s a b, heap w !! m = Some s -> sid s = m -> segok s a b -> sref s = 1 + held m D ->
     una - B <= a -> b <= x -> touched una (heap w') D' m s a b) ->
  (m ∈ D' -> m ∉ txq (conn w) -> driver_has x (heap w') D' m) ->
  (next_sid w <= next_sid w')%nat -> (is_Some (heap w' !! m) -> (m < next_sid w')%nat) ->
  core lk ex k B pd x P una D' w'.
Proof.
  intros [H1 H2 H3 H4 (lo & Hc & Hl) H6 H7 H8 H9] Hv Hpd Hoth Htx Hdr Hns Hlt.
  unfold tview in Hv. injection Hv as V1 V2 V3 V4 V5 V6 V7 V8 V9 V10 V11.
  assert (Hin : forall n, n <> m -> n ∈ D' <-> n ∈ D) by (intros n Hn; rewrite !held_iff; by destruct (Hoth n Hn) as [_ ->]).
  split; rewrite ?V1, ?V2, ?V3, ?V4, ?V5, ?V6, ?V7, ?V8, ?V9, ?V10, ?V11; auto.
  - exists lo. split; [|done]. eapply chain_touch; [exact Hc|done|]. intros ? s a b ? ? ? ? ? ?. apply Htx; auto. lia.
  - destruct pd as [p|]; [|done]. assert (p <> m) by congruence. destruct H6 as (? & ? & s & Hs). rewrite Hin by done. split_and!; auto.
    exists s. by destruct (Hoth p) as [-> _].
  - intros n Hn Hq. destruct (decide (n = m)) as [->|Hne]; [by apply Hdr|]. destruct (Hoth n Hne) as [-> ->]. apply H8; [by apply Hin|done].
  - intros n. destruct (decide (n = m)) as [->|Hne]; [done|]. destruct (Hoth n Hne) as [-> _]. intros ?%H9. lia.
Qed.

Lemma pend_other lk ex k B pd x P una D w m : core lk ex k B pd x P una D w -> m ∈ txq (conn w) \/ m ∈ D -> pd <> Some m.
Proof. intros [_ _ _ _ _ H6 _ _ _] Hm ->. destruct H6 as (? & ? & _). tauto. Qed.

(** ** Dropping a reference *)

Lemma free_wp hi lk ex k B pd x P una D w m :
  core lk ex k B pd x P una (m :: D) w ->
  wp (mbuf_free m) w (fun _ w' => conn w' = conn w /\ exists t, core lk ex k B pd x P una D w' /\ emits hi D w t w' /\ sent_of t = []).
Proof.
  intros Hco. assert (Hpd := pend_other _ _ _ _ _ _ _ _ _ _ m Hco ltac:(right; by left)).
  assert (Hheld : forall n, n <> m -> held n D = held n (m :: D)) by (intros n Hn; rewrite held_cons, decide_False by done; lia).
  assert (Hm : held m (m :: D) = 1 + held m D) by (rewrite held_cons, decide_True by done; lia).
  assert (Hs : exists s, heap w !! m = Some s /\ sid s = m /\
    (release s = tcp_tx_release_mbuf /\ (m ∈ txq (conn w) /\ sref s = 2 + held m D \/ (m ∉ txq (conn w)) /\
       exists a b, segok s a b /\ L <= a /\ b <= x /\ sref s = 1 + held m D) \/
     release s = net_tx_release_mbuf /\ (m ∉ txq (conn w)) /\ held m D = 0)).
  { destruct Hco as [_ _ _ _ (lo & Hc & _) _ _ H8 _]. destruct (decide (m ∈ txq (conn w))) as [Hq|Hq].
    - destruct (chain_elem _ _ _ _ _ _ _ _ Hc Hq) as (s & a & b & ? & ? & Hg & ? & _). exists s. split_and!; auto. left. split; [apply Hg|]. left. split; [done|lia].
    - destruct (H8 m ltac:(by left) Hq) as (s & ? & ? & [(a & b & Hg & ? & ? & ?)|[? ?]]); exists s; split_and!; auto.
      + left. split; [apply Hg|]. right. split; [done|]. exists a, b. split_and!; auto. lia.
      + right. split_and!; auto. lia. }
  destruct Hs as (s & Hs & Hid & Hcase). assert (Hlt : (m < next_sid w)%nat) by (apply (co_fresh _ _ _ _ _ _ _ _ _ _ _ _ _ _ Hco); by rewrite Hs).
  assert (Hgone : held m D = 0 -> (m ∉ txq (conn w)) -> forall w', conn w' = conn w -> heap w' = delete m (heap w) -> next_sid w' = next_sid w -> trace w' = trace w ++ [EvFree m] ->
    exists t, core lk ex k B pd x P una D w' /\ emits hi D w t w' /\ sent_of t = []).
  { intros H0 Hq w' Ec Eh En Et. assert (HmD : m ∉ D) by (rewrite held_iff; lia). exists [EvFree m]. split_and!; [|split|done].
    - eapply (core_touch _ _ _ _ _ _ _ _ _ _ w w' m Hco); [by rewrite Ec|done| |done|done|lia|rewrite Eh, lookup_delete_eq; by intros []].
      intros n Hn. rewrite Eh, lookup_delete_ne by done. auto.
    - done.
    - by apply Forall_singleton.
    - intros n Hn. rewrite Eh, lookup_delete_ne; [done|]. congruence. }
  unfold mbuf_free. wstep. eapply wp_get_seg; [exact Hs|].
  destruct Hcase as [(Hrel & Hcase)|(Hrel & Hq & H0)]; rewrite Hrel.
  2: { wstep. wstep. wstep. split; [done|]. by apply Hgone. }
  wstep. apply wp_put_seg. cbn [sid set_sref]. rewrite Hid. wstep; intros Hz.
  - apply Z.eqb_eq in Hz. wstep. wstep. wstep. split; [done|]. assert (0 <= held m D) by apply held_nonneg.
    destruct Hcase as [[? ?]|(Hq & a & b & _ & _ & _ & Hr)]; [lia|]. apply Hgone; auto; [lia|]. cbn. by rewrite delete_insert_eq.
  - apply Z.eqb_neq in Hz. wstep. split; [done|]. exists []. split_and!; [|apply emits_none; [done|]|done].
    + eapply (core_touch _ _ _ _ _ _ _ _ _ _ w _ m Hco); [done|done| | | |cbn; lia|cbn; lia].
      * intros n Hn. cbn. rewrite lookup_insert_ne by done. auto.
      * intros Hq s1 a b Hs1 _ Hg Hr _ _. assert (s1 = s) as -> by congruence. exists (set_sref (sref s - 1) s), a. cbn. rewrite lookup_insert_eq.
        split_and!; auto; [by destruct Hg|lia].
      * intros HmD Hq. destruct Hcase as [[? _]|(_ & a & b & Hg & ? & ? & Hr)]; [done|]. exists (set_sref (sref s - 1) s). cbn. rewrite lookup_insert_eq.
        split_and!; auto. left. exists a, b. split_and!; auto; [by destruct Hg|]. cbn. lia.
    + intros n _. cbn. destruct (decide (n = m)) as [->|Hn]; [by rewrite lookup_insert_eq, Hs|by rewrite lookup_insert_ne].
Qed.

(** The packets of a list. *)
Lemma free_list_wp hi lk ex k B pd x P una D q : forall w,
  core lk ex k B pd x P una (q ++ D) w ->
  wp (mbuf_list_free q) w (fun _ w' => conn w' = conn w /\ exists t, core lk ex k B pd x P una D w' /\ emits hi D w t w' /\ sent_of t = []).
Proof.
  induction q as [|m q IH]; intros w Hco; cbn [mbuf_list_free mapM_ app].
  - wstep. split; [done|]. exists []. split_and!; auto. apply emits_none; [done|by apply steady_eq].
  - wstep. eapply wp_mono; [by apply (free_wp hi)|]. cbv beta. intros _ w1 (Hc1 & t1 & H1 & He1 & Hs1).
    eapply wp_mono; [by apply IH|]. cbv beta. intros _ w2 (Hc2 & t2 & H2 & He2 & Hs2). split; [congruence|]. exists (t1 ++ t2).
    rewrite sent_of_app, Hs1, Hs2. split_and!; auto. eapply emits_trans; [|done|exact He2].
    destruct He1 as [? ? Hst]. split; auto. intros n Hn. apply Hst. apply elem_of_app. by right.
Qed.

(** ** Sending a packet again *)

Lemma free_default_wp m s w (Q : unit -> world -> Prop) :
  heap w !! m = Some s -> release s = net_tx_release_mbuf ->
  Q tt (set_trace (trace w ++ [EvFree m]) (set_heap (delete m (heap w)) w)) -> wp (mbuf_free m) w Q.
Proof. intros Hs Hr HQ. eexists tt, _. split; [by apply (mbuf_free_run m s)|done]. Qed.

Lemma free_shared_wp m s w (Q : unit -> world -> Prop) :
  heap w !! m = Some s -> release s = tcp_tx_release_mbuf -> sref s = 2 ->
  Q tt (set_heap (<[sid s := set_sref 1 s]> (heap w)) w) -> wp (mbuf_free m) w Q.
Proof.
  intros Hs Hr Hf HQ. unfold mbuf_free. wstep. eapply wp_get_seg; [exact Hs|]. rewrite Hr, Hf. wstep. apply wp_put_seg. change (2 - 1 =? 0) with false. cbv iota. by wstep.
Qed.

(** The buffer after it was sent again: it may start later, with the first byte that is
    not acknowledged. *)
Definition again (una : Z) (s : seg) (a0 b : Z) (s' : seg) : Prop :=
  exists a, seg_seq s' = u32 a /\ stored S (mb s') a b /\ a <= b <= a + TCP_MSS /\ (a = a0 \/ a0 <= a <= una) /\
    sid s' = sid s /\ seg_end s' = seg_end s /\ flags s' = flags s /\ release s' = release s.

(** It went to the driver, or its reference was dropped. *)
Inductive resent (una : Z) (w : world) (m : nat) (s : seg) (a b : Z) (t : list event) (w' : world) : Prop :=
| resent_sent s' : heap w' = <[m := s']> (heap w) -> again una s a b s' -> sref s' = sref s -> sent_of t = [m] -> resent una w m s a b t w'
| resent_freed : release s = net_tx_release_mbuf -> heap w' = delete m (heap w) -> sent_of t = [] -> resent una w m s a b t w'
| resent_kept s' : release s = tcp_tx_release_mbuf -> heap w' = <[m := s']> (heap w) -> again una s a b s' -> sref s' = 1 -> sent_of t = [] ->
    resent una w m s a b t w'.

Definition same_conn (w w' : world) : Prop := exists u v, conn w' = set_tx_last_win u (set_tx_last_ack v (conn w)).

Lemma same_conn_eq w w' : conn w' = conn w -> same_conn w w'.
Proof. intros H. exists (tx_last_win (conn w)), (tx_last_ack (conn w)). rewrite H. by destruct (conn w). Qed.

Lemma clip_ready m s a b una w :
  heap w !! m = Some s -> sid s = m -> ready S s a b -> una - 1073741824 < a < una + 1073741824 -> una < b ->
  wp (when (wraps_lt (seg_seq s) (u32 una))
        (_ ← mod_mb m (fun b => '(_, b) ← mbuf_pull (u32 (u32 una - seg_seq s)) b; Ok b);
         mod_seg m (set_seg_seq (u32 una)))) w
    (fun _ w' => exists s' a', w' = set_heap (<[m := s']> (heap w)) w /\ ready S s' a' b /\ (a' = a \/ a <= a' <= una) /\ sid s' = sid s /\
       seg_end s' = seg_end s /\ flags s' = flags s /\ release s' = release s /\ sref s' = sref s).
Proof.
  intros Hs Hid Hr Hn Hb. assert (Hr' := Hr). destruct Hr' as [Hok Hq He Hab Hhd Hda Hl Ht]. rewrite Hq, wraps_lt_near by (unfold near; lia).
  wstep; intros Hlt.
  2: { exists s, a. rewrite insert_id by done. split_and!; auto. by destruct w. }
  apply Z.ltb_lt in Hlt. rewrite u32_sub_l, u32_sub_r, (u32_id (una - a)) by (unfold in_u32, M32; lia).
  assert (Hp := mbuf_pull_ok (una - a) (mb s) Hok ltac:(lia)). destruct (mbuf_pull (una - a) (mb s)) as [[p b']|] eqn:Ep; cbv iota in Hp; [|lia].
  destruct Hp as (_ & _ & Hok' & Hpay). wstep.
  eapply wp_mod_mb; [exact Hs|by rewrite Ep|]. eapply wp_mod_seg; [cbn; rewrite Hid; apply lookup_insert_eq|]. cbn [sid set_seg_seq set_mb].
  exists (set_seg_seq (u32 una) (set_mb b' s)), una. split_and!; auto; try done.
  - cbn. by rewrite Hid, insert_insert_eq.
  - assert (El : data b' = data (mb s) + (una - a) /\ len b' = len (mb s) - (una - a) /\ head b' = head (mb s)).
    { unfold mbuf_pull, __mbuf_pull in Ep. rewrite Z.gtb_ltb, (proj2 (Z.ltb_ge _ _)) in Ep by lia. cbn in Ep. injection Ep as _ <-. cbn.
      rewrite u32_id; [done|]. destruct Hok. unfold in_u32. lia. }
    destruct El as (E1 & E2 & E3). change TCP_MSS with 1460 in *. split; cbn; rewrite ?E1, ?E2, ?E3; auto; try (change TCP_MSS with 1460); try lia.
    rewrite Hpay, Ht, drop_slice by lia. f_equal. lia.
  - right. lia.
Qed.

Lemma resend_wp hi m s a b l4len una w :
  heap w !! m = Some s -> sid s = m -> ready S s a b -> data_flags (flags s) ->
  release s = net_tx_release_mbuf \/ release s = tcp_tx_release_mbuf /\ sref s = 2 /\ stored S (mb s) a b ->
  L <= a -> L <= una -> b <= hi -> c_e (conn w) = ce -> rcv_nxt (pcb (conn w)) = U -> snd_una (pcb (conn w)) = u32 una ->
  una - 1048576 < a < una + 1048576 ->
  wp (tx_retransmit_send E m l4len) w (fun ret w' => (ret = 0 \/ ret = - ENOMEM) /\ same_conn w w' /\ next_sid w' = next_sid w /\
    exists t, trace w' = trace w ++ t /\ Forall (good_ev hi) t /\ resent una w m s a b t w').
Proof.
  intros Hs Hid Hr Hfl Hrel HL HLu Hhi Hce HU Hu Hn. assert (Hab := rd_ab _ _ _ _ Hr). change TCP_MSS with 1460 in Hab.
  unfold tx_retransmit_send. wstep. rewrite Hce, Hu. wstep. eapply wp_get_seg; [exact Hs|]. rewrite (rd_end _ _ _ _ Hr).
  rewrite wraps_lte_near by (unfold near; lia). wstep; intros Hle.
  - wstep. destruct Hrel as [Hrel|(Hrel & Href & Hst)].
    + eapply free_default_wp; [exact Hs|done|]. wstep. split_and!; auto; [by apply same_conn_eq|]. exists [EvFree m]. split_and!; [done|by apply Forall_singleton|by apply resent_freed].
    + eapply free_shared_wp; [exact Hs|done|done|]. wstep. rewrite Hid. split_and!; auto; [by apply same_conn_eq|]. exists [].
      split_and!; [by rewrite app_nil_r|done|]. eapply resent_kept; [done|reflexivity| |done|done].
      exists a. destruct Hr. split_and!; auto; cbn; auto; lia.
  - apply Z.leb_gt in Hle. wstep. eapply wp_mono; [apply (clip_ready m s a b una w); auto; lia|].
    cbv beta. intros _ w1 (s1 & a1 & -> & Hr1 & Ha1 & Hi1 & He1 & Hf1 & Hl1 & Hsr1). wstep. eapply wp_get_seg; [cbn; apply lookup_insert_eq|]. wstep.
    eapply wp_mono; [eapply (push_wp S ce U L hi m s1 a1 b); [cbn; apply lookup_insert_eq|congruence|done|congruence|lia|lia|done|done]|].
    cbv beta. intros _ w2 (b2 & u & v & Hhd & ->). wstep.
    eapply wp_mono; [eapply (tx_ip_wp E HE S ce U L hi m (set_mb b2 s1) a1 b); [cbn; apply lookup_insert_eq|cbn; congruence|exact Hhd|apply Hr1]|].
    cbv beta. intros ret w3 (b3 & Hst & Hret & Hev & ->). set (t := EvTx m _ _ ret) in *. wstep.
    set (s3 := set_mb b3 (set_mb b2 s1)). assert (Hag : again una s a b s3).
    { exists a1. destruct Hr1. unfold s3. cbn. split_and!; auto; try lia; congruence. }
    cbn [set_trace set_heap set_n_tx set_conn heap trace n_tx conn next_sid]. rewrite !insert_insert_eq. fold s3.
    wstep; intros Hz.
    + assert (Hz' : ret <> 0) by (by destruct (Z.eqb_spec ret 0)).
      assert (Hrel3 : release s3 = release s) by (cbn; congruence). destruct Hrel as [Hrel|(Hrel & Href & _)].
      * eapply free_default_wp; [cbn; apply lookup_insert_eq|congruence|]. wstep. split_and!; auto; [by do 2 eexists|].
        exists [t; EvFree m]. cbn. rewrite <- app_assoc. split_and!; [done|by repeat apply Forall_cons_2|]. apply resent_freed; [done| |].
        -- cbn. by rewrite delete_insert_eq.
        -- unfold sent_of, t. cbn. by destruct (Z.eqb_spec ret 0).
      * eapply free_shared_wp; [cbn; apply lookup_insert_eq|congruence|cbn; congruence|]. wstep. split_and!; auto; [by do 2 eexists|].
        exists [t]. split_and!; [done|by apply Forall_singleton|]. eapply (resent_kept _ _ _ _ _ _ _ _ (set_sref 1 s3)); [done| | |done|].
        -- cbn. rewrite Hi1, Hid, insert_insert_eq. done.
        -- destruct Hag as (a' & ?). exists a'. done.
        -- unfold sent_of, t. cbn. by destruct (Z.eqb_spec ret 0).
    + assert (Hz' : ret = 0) by (by destruct (Z.eqb_spec ret 0)). wstep. split_and!; auto; [by do 2 eexists|]. exists [t]. split_and!; [done|by apply Forall_singleton|].
      eapply (resent_sent _ _ _ _ _ _ _ _ s3); [done|done|done|]. unfold sent_of, t. by rewrite Hz'.
Qed.

(** Positions are determined by sequence numbers. *)
Lemma u32_near a b : near a b -> u32 a = u32 b -> a = b.
Proof. intros Hn He. assert (H := s32_u32_diff a b Hn). rewrite He, Z.sub_diag in H. change (s32 0) with 0 in H. lia. Qed.

Lemma segok_same s a b a' b' : segok s a b -> segok s a' b' -> -1073741824 < a - a' < 1073741824 -> a' = a /\ b' = b.
Proof.
  intros [_ Hq He Hab _ _] [_ Hq' He' Hab' _ _] Hn. change TCP_MSS with 1460 in *.
  split; apply u32_near; unfold near; try lia; congruence.
Qed.

Lemma again_segok una s a b s' : segok s a b -> again una s a b s' -> exists a', segok s' a' b /\ (a' = a \/ a <= a' <= una) /\ sid s' = sid s.
Proof.
  intros [] (a' & ? & ? & ? & ? & ? & ? & ? & ?). exists a'. split_and!; auto. split; auto; congruence.
Qed.

(** The queue's buffer is used again, if nobody else has it. *)
Lemma core_resent lk ex k B pd x P una D D0 T w w' m s a b s' :
  core lk ex k B pd x P una D w -> heap w !! m = Some s -> sid s = m -> segok s a b -> L <= a -> b <= x -> L <= una ->
  una - 1048576 < a < una + 1048576 -> B <= 1048576 -> a <= P ->
  m ∈ txq (conn w) /\ D = D0 \/ (m ∉ txq (conn w)) /\ D = m :: D0 -> held m D0 = 0 -> same_conn w w' -> next_sid w' = next_sid w ->
  heap w' = <[m := s']> (heap w) -> again una s a b s' -> sref s' = 1 + held m T -> T = [m] \/ T = [] ->
  core lk ex k B pd x P una (D ++ T) w' /\ steady D0 w w'.
Proof.
  intros Hco Hs Hid Hg HL Hx HLu Hn HB HaP Hor H0 (u & v & Hc) Hns Hh Hag Href HT.
  destruct (again_segok _ _ _ _ _ Hg Hag) as (a' & Hg' & Ha' & Hid'). assert (Hm0 : m ∉ D0) by (rewrite held_iff; lia).
  assert (Hlt : (m < next_sid w)%nat) by (apply (co_fresh _ _ _ _ _ _ _ _ _ _ _ _ _ _ Hco); by rewrite Hs).
  assert (Hp : pd <> Some m). { eapply pend_other; [exact Hco|]. destruct Hor as [[? _]|[_ ->]]; [by left|right; by left]. }
  split; [|intros n Hn'; rewrite Hh, lookup_insert_ne; [done|congruence]].
  eapply (core_touch _ _ _ _ _ _ _ _ _ _ w w' m Hco); [by rewrite Hc|done| | | |by rewrite Hns|by rewrite Hns].
  - intros n Hne. rewrite Hh, lookup_insert_ne, held_app by done. split; [done|]. destruct HT as [-> | ->]; [rewrite (held_other n m) by done|change (held n []) with 0]; lia.
  - intros Hq s0 a0 b0 Hs0 _ Hg0 _ Hlo Hhi. assert (s0 = s) as -> by congruence. destruct Hor as [[_ ->]|[? _]]; [|done].
    assert (Hwin := co_win _ _ _ _ _ _ _ _ _ _ _ _ _ _ Hco). assert (Hx' : x <= P).
    { assert (Hpe := co_pend _ _ _ _ _ _ _ _ _ _ _ _ _ _ Hco). destruct pd; [|lia]. destruct Hpe as (_ & _ & ? & _ & _ & [[] _ _ _ _]). lia. }
    destruct (segok_same s a b a0 b0 Hg Hg0) as [-> ->]; [destruct Hg0; lia|]. exists s', a'. rewrite Hh, lookup_insert_eq, held_app.
    split_and!; auto; [congruence|lia].
  - intros _ Hq. destruct Hor as [[? _]|[_ ->]]; [done|]. exists s'. rewrite Hh, lookup_insert_eq. split_and!; auto; [congruence|].
    left. exists a', b. cbn [app]. rewrite held_cons, decide_True, held_app by done. split_and!; auto; lia.
Qed.

(** A copy of the packet, for the driver. *)
Lemma core_copied lk ex k B pd x P una D T w w1 w' :
  core lk ex k B pd x P una D w -> conn w1 = conn w -> same_conn w1 w' -> next_sid w' = Datatypes.S (next_sid w) ->
  (forall n, n <> next_sid w -> heap w' !! n = heap w !! n) ->
  T = [] \/ T = [next_sid w] /\ (exists s, heap w' !! next_sid w = Some s /\ sid s = next_sid w /\ release s = net_tx_release_mbuf) ->
  core lk ex k B pd x P una (D ++ T) w' /\ steady D w w'.
Proof.
  intros Hco Hc1 (u & v & Hc) Hns Hh HT. set (n := next_sid w) in *.
  assert (Hk := fun i => core_known _ _ _ _ _ _ _ _ _ _ _ _ _ _ i Hco).
  assert (HnD : n ∉ D). { intros Hi. specialize (Hk n (or_intror Hi)). unfold n in Hk. lia. }
  assert (Hnq : n ∉ txq (conn w)). { intros Hi. specialize (Hk n (or_introl Hi)). unfold n in Hk. lia. }
  split; [|intros i Hi; rewrite Hh; [done|congruence]].
  eapply (core_touch _ _ _ _ _ _ _ _ _ _ w w' n Hco); [by rewrite Hc, Hc1| | |done| |lia|lia].
  - intros ->. destruct (co_pend _ _ _ _ _ _ _ _ _ _ _ _ _ _ Hco) as (_ & _ & s & Hs & _).
    assert (n < next_sid w)%nat; [|unfold n in *; lia]. apply (co_fresh _ _ _ _ _ _ _ _ _ _ _ _ _ _ Hco). by rewrite Hs.
  - intros i Hi. split; [by apply Hh|]. rewrite held_app. destruct HT as [->|[-> _]]; [change (held i []) with 0|rewrite (held_other i n) by done]; lia.
  - intros Hin _. destruct HT as [->|[-> (s & ? & ? & ?)]]; [rewrite app_nil_r in Hin; done|]. exists s. split_and!; auto. right. split; [done|].
    by rewrite held_app, held_none, held_one.
Qed.

Lemma core_x lk ex k B pd x P una D w : core lk ex k B pd x P una D w -> x <= P /\ L <= una /\ una <= P <= una + 65536.
Proof.
  intros [_ _ _ (? & _ & _) (lo & _ & ? & ?) Hpe _ _ _]. split_and!; try lia. destruct pd; [|lia]. destruct Hpe as (_ & _ & ? & _ & _ & [[] _ _ _ _]). lia.
Qed.

(** The text of the packet in a fresh buffer. *)
Lemma copy_wp {A} s a b n w b0 (K : M A) Q :
  segok s a b -> fresh_buf b0 -> heap w !! n = Some (Seg n b0 0 0 0 0 0 net_tx_release_mbuf) ->
  (forall s', sid s' = n -> ready S s' a b -> flags s' = flags s -> release s' = net_tx_release_mbuf -> wp K (set_heap (<[n := s']> (heap w)) w) Q) ->
  wp (bytes ← lift (read_bytes (mb s) (transport_off (mb s) + sizeof_tcp_hdr) (b - a));
      _ ← mod_mb n (mbuf_append bytes);
      _ ← mod_seg n (fun t => set_mb_txflags OLFLAG_TCP_CHKSUM (set_seg_end (seg_end s) (set_seg_seq (seg_seq s) (set_flags (flags s) t))));
      K) w Q.
Proof.
  intros [[Hok Hhd Hoff Hend Htext] Hq He Hab Hfl Hrel] (Hb & Hd & Hl & Hh) Hn HK. change TCP_MSS with 1460 in *.
  wstep. eapply wp_lift; [apply read_region; unfold sizeof_tcp_hdr; destruct Hok; lia|]. unfold sizeof_tcp_hdr. rewrite Htext. cbv beta.
  assert (X := length_slice S a b ltac:(lia)). change MBUF_DEFAULT_HEADROOM with 128 in Hd.
  destruct (mbuf_append_ok (slice S a b) b0 Hb) as (b1 & Eb & Hb1 & Hp & Hd1 & Hl1 & _ & Hh1); [lia|].
  wstep. eapply wp_mod_mb; [exact Hn|exact Eb|]. wstep. eapply wp_mod_seg; [cbn; apply lookup_insert_eq|].
  match goal with |- wp _ ?w' _ => replace w' with (set_heap (<[n := set_mb_txflags OLFLAG_TCP_CHKSUM (set_seg_end (seg_end s) (set_seg_seq (seg_seq s) (set_flags (flags s)
    (set_mb b1 (Seg n b0 0 0 0 0 0 net_tx_release_mbuf)))))]> (heap w)) w) end.
  2: { cbn. by rewrite insert_insert_eq. }
  apply HK; auto. split; cbn; auto; try (change TCP_MSS with 1460); try lia; [destruct Hb1; by split|].
  transitivity (payload b1); [done|]. rewrite Hp. unfold payload. rewrite Hl. done.
Qed.

(** The buffer itself, without headers. *)
Lemma strip_wp {A} m s a b w (K : M A) Q :
  heap w !! m = Some s -> sid s = m -> segok s a b ->
  (forall s', ready S s' a b -> stored S (mb s') a b -> sref s' = 2 -> sid s' = m -> seg_seq s' = seg_seq s -> seg_end s' = seg_end s -> flags s' = flags s ->
     release s' = release s -> wp K (set_heap (<[m := s']> (heap w)) w) Q) ->
  wp (_ ← mod_mb m (fun b => mbuf_reset (transport_off b + sizeof_tcp_hdr) b); _ ← mod_seg m (set_sref 2); K) w Q.
Proof.
  intros Hs Hid [[Hok Hhd Hoff Hend Htext] Hq He Hab Hfl Hrel] HK. change TCP_MSS with 1460 in *. assert (Hok' := Hok). destruct Hok'.
  set (b1 := set_window (transport_off (mb s) + 20) (b - a) (mb s)).
  assert (Er : mbuf_reset (transport_off (mb s) + sizeof_tcp_hdr) (mb s) = Ok b1).
  { unfold mbuf_reset, sizeof_tcp_hdr. rewrite (u32_id (data (mb s) + len (mb s))) by (unfold in_u32; lia). rewrite Z.gtb_ltb, (proj2 (Z.ltb_ge _ _)) by lia. cbn.
    unfold b1. do 2 f_equal. lia. }
  wstep. eapply wp_mod_mb; [exact Hs|exact Er|]. wstep. eapply wp_mod_seg; [cbn; rewrite Hid; apply lookup_insert_eq|].
  match goal with |- wp _ ?w' _ => replace w' with (set_heap (<[m := set_sref 2 (set_mb b1 s)]> (heap w)) w) end.
  2: { cbn. by rewrite Hid, insert_insert_eq. }
  assert (Hok1 : mbuf_ok b1) by (split; cbn; lia).
  apply HK; auto; split; cbn; auto; try (change TCP_MSS with 1460); lia.
Qed.

Lemma rtx_one_wp lk ex k B pd x P una D D0 w m s a b :
  core lk ex k B pd x P una D w -> heap w !! m = Some s -> sid s = m -> segok s a b -> L <= a -> b <= x ->
  una - 1048576 < a -> B <= 1048576 ->
  m ∈ txq (conn w) /\ D = D0 \/ (m ∉ txq (conn w)) /\ D = m :: D0 -> sref s = 1 + held m D0 ->
  wp (tcp_tx_retransmit_one E m) w (fun ret w' => (ret = 0 \/ ret = - ENOMEM) /\ same_conn w w' /\
    exists t, core lk ex k B pd x P una (D ++ sent_of t) w' /\ emits P D0 w t w').
Proof.
  intros Hco Hs Hid Hg HL Hx Hn HB Hor Href. destruct (core_x _ _ _ _ _ _ _ _ _ _ Hco) as (HxP & HLu & HP).
  destruct (co_ends _ _ _ _ _ _ _ _ _ _ _ _ _ _ Hco) as [Hce HU]. destruct (co_seq _ _ _ _ _ _ _ _ _ _ _ _ _ _ Hco) as [_ Hu].
  assert (Hg' := Hg). destruct Hg' as [Hst Hq He Hab Hfl Hrel]. change TCP_MSS with 1460 in Hab.
  unfold tcp_tx_retransmit_one. wstep. eapply wp_get_seg; [exact Hs|].
  replace (has (flags s) (Z.lor TCP_SYN TCP_FIN)) with false by (by destruct Hfl as [-> | ->]). cbv iota zeta.
  replace (u16 (seg_end s - seg_seq s)) with (b - a).
  2: { rewrite He, Hq. unfold u16, u32, M16, M32. Z.to_euclidean_division_equations. lia. }
  wstep; intros Hr1.
  - wstep. destruct (tx_alloc_run E w HE) as [Ea|(b0 & Hb0 & Ea)]; eexists _, _; (split; [exact Ea|]); cbv iota beta.
    { wstep. split_and!; auto; [by apply same_conn_eq|]. exists []. change (sent_of []) with (@nil nat). rewrite app_nil_r. split; [|apply emits_none; [done|by apply steady_eq]].
      eapply core_view; [..|exact Hco]; done. }
    set (n := next_sid w). set (w1 := set_heap _ _). apply (copy_wp s a b n w1 b0); [done|done|cbn; apply lookup_insert_eq|].
    intros s1 Hid1 Hrd1 Hfl1 Hrel1. eapply wp_mono; [apply (resend_wp P n s1 a b _ una); auto; try lia; [cbn; apply lookup_insert_eq|by rewrite Hfl1]|].
    cbv beta. intros ret w2 (Hret & Hsc & Hns & t & Htr & Hgo & Hre). split_and!; auto. exists t.
    destruct (core_copied lk ex k B pd x P una D (sent_of t) w w1 w2 Hco eq_refl Hsc Hns) as [Hk Hsd].
    + intros i Hi. destruct Hre as [s2 Hh _ _ _|_ Hh _|s2 ? _ _ _ _]; [rewrite Hh|rewrite Hh|congruence]; cbn;
        rewrite ?lookup_delete_ne, ?lookup_insert_ne by done; done.
    + destruct Hre as [s2 Hh (a2 & Hag) _ Hse|_ _ Hse|s2 ? _ _ _ _]; [right|by left|congruence]. split; [done|]. exists s2. rewrite Hh, lookup_insert_eq.
      destruct Hag as (_ & _ & _ & _ & Hi2 & _ & _ & Hl2). rewrite Hi2, Hl2. auto.
    + split; [done|]. split; auto. intros i Hi. apply Hsd. destruct Hor as [[_ ->]|[_ ->]]; [done|by right].
  - apply negb_false_iff, Z.eqb_eq in Hr1. apply (strip_wp m s a b w); auto. intros s1 Hrd1 Hst1 Hsr1 Hid1 Hsq1 Hse1 Hfl1 Hrel1.
    eapply wp_mono; [apply (resend_wp P m s1 a b _ una); auto; try lia; [cbn; apply lookup_insert_eq|by rewrite Hfl1|right; split_and!; congruence]|].
    cbv beta. intros ret w2 (Hret & Hsc & Hns & t & Htr & Hgo & Hre). split_and!; auto. exists t.
    assert (Hcr : exists s2, heap w2 = <[m := s2]> (heap w) /\ again una s a b s2 /\ sref s2 = 1 + held m (sent_of t) /\ (sent_of t = [m] \/ sent_of t = [])).
    { destruct Hre as [s2 Hh Hag Hsr2 Hse|? _ _|s2 _ Hh Hag Hsr2 Hse]; [|congruence|]; exists s2; rewrite Hse; cbn in Hh; rewrite insert_insert_eq in Hh;
        (split_and!; [done|destruct Hag as (a2 & ?); exists a2; rewrite <- Hse1, <- Hfl1, <- Hrel1, Hid, <- Hid1; tauto|rewrite Hsr2, ?Hsr1, ?held_one; done|auto]). }
    destruct Hcr as (s2 & Hh2 & Hag2 & Hsr2 & Hor2).
    destruct (core_resent lk ex k B pd x P una D D0 (sent_of t) w w2 m s a b s2) as [Hk Hsd]; auto; try lia. split; [done|]. by split.
Qed.

(** ** The retransmission timer *)

(** A packet of the queue gets a time stamp, and maybe another reference. *)
Lemma core_mark lk ex k B pd x P una D D' w w' m s s' :
  core lk ex k B pd x P una D w -> m ∈ txq (conn w) -> heap w !! m = Some s -> frozen s' = frozen s ->
  D' = D /\ sref s' = sref s \/ D' = m :: D /\ sref s' = sref s + 1 ->
  tview (conn w') = tview (conn w) -> heap w' = <[m := s']> (heap w) -> next_sid w' = next_sid w ->
  core lk ex k B pd x P una D' w' /\ steady D w w'.
Proof.
  intros Hco Hq Hs Hf HD Hv Hh Hns. assert (Hp := pend_other _ _ _ _ _ _ _ _ _ _ m Hco ltac:(by left)).
  assert (Hlt : (m < next_sid w)%nat) by (apply (co_fresh _ _ _ _ _ _ _ _ _ _ _ _ _ _ Hco); by rewrite Hs).
  split.
  - eapply (core_touch _ _ _ _ _ _ _ _ _ _ w w' m Hco); [done|done| | |done|lia|lia].
    + intros n Hn. rewrite Hh, lookup_insert_ne by done. split; [done|]. destruct HD as [[-> _]|[-> _]]; [done|]. rewrite held_cons, decide_False by done. lia.
    + intros _ s0 a b Hs0 Hi Hg Hr _ _. assert (s0 = s) as -> by congruence. exists s', a. unfold frozen in Hf. injection Hf as F1 F2 F3 F4 F5 F6.
      rewrite Hh, lookup_insert_eq. destruct Hg. split_and!; [done|congruence| | |by left].
      * split; try congruence; by rewrite F5.
      * destruct HD as [[-> ->]|[-> ->]]; [lia|]. rewrite held_cons, decide_True by done. lia.
  - intros n _. rewrite Hh. destruct (decide (n = m)) as [->|Hne]; [rewrite lookup_insert_eq, Hs; cbn; by f_equal|by rewrite lookup_insert_ne].
Qed.

Lemma same_conn_trans w1 w2 w3 : same_conn w1 w2 -> same_conn w2 w3 -> same_conn w1 w3.
Proof. intros (u & v & E1) (u' & v' & E2). exists u', v'. rewrite E2, E1. done. Qed.

Lemma same_conn_tx w w' : same_conn w w' -> txq (conn w') = txq (conn w) /\ tx_pending (conn w') = tx_pending (conn w) /\ tview (conn w') = tview (conn w).
Proof. intros (u & v & ->). done. Qed.

Lemma elem_seg lk ex k B pd x P una D w m :
  core lk ex k B pd x P una D w -> m ∈ txq (conn w) ->
  exists s a b, heap w !! m = Some s /\ sid s = m /\ segok s a b /\ sref s = 1 + held m D /\ una - B <= a /\ L <= a /\ b <= x.
Proof.
  intros [_ _ _ _ (lo & Hc & Hl) _ _ _ _] Hm. destruct (chain_elem _ _ _ _ _ _ _ _ Hc Hm) as (s & a & b & ? & ? & ? & ? & ? & ?).
  exists s, a, b. split_and!; auto; lia.
Qed.

Lemma rtx_loop_wp lk ex k B pd x P una now q : forall D count w,
  core lk ex k B pd x P una D w -> (forall m, m ∈ q -> m ∈ txq (conn w)) -> B <= 1000000 ->
  wp (tcp_tx_retransmit_loop E q now count) w (fun _ w' => same_conn w w' /\ exists t, core lk ex k B pd x P una (D ++ sent_of t) w' /\ emits P D w t w').
Proof.
  assert (Hstop : forall D w, core lk ex k B pd x P una D w -> same_conn w w /\ exists t, core lk ex k B pd x P una (D ++ sent_of t) w /\ emits P D w t w).
  { intros D w Hco. split; [by apply same_conn_eq|]. exists []. change (sent_of []) with (@nil nat). rewrite app_nil_r. split; [done|].
    apply emits_none; [done|by apply steady_eq]. }
  induction q as [|m q IH]; intros D count w Hco Hq HB; cbn [tcp_tx_retransmit_loop]; [wstep; by apply Hstop|].
  assert (Hm : m ∈ txq (conn w)) by (apply Hq; by left). destruct (elem_seg _ _ _ _ _ _ _ _ _ _ m Hco Hm) as (s & a & b & Hs & Hid & Hg & Hr & Ha & HL & Hb).
  wstep. eapply wp_get_seg; [exact Hs|]. wstep; intros _; [wstep; by apply Hstop|]. wstep. wstep; intros _.
  { apply IH; auto. intros i Hi. apply Hq. by right. }
  wstep. apply wp_put_seg. cbn [sid set_timestamp]. rewrite Hid. set (w1 := set_heap _ w).
  destruct (core_mark lk ex k B pd x P una D D w w1 m s (set_timestamp now s) Hco Hm Hs) as [Hco1 Hsd1]; auto.
  wstep. eapply wp_mono; [eapply (rtx_one_wp lk ex k B pd x P una D D w1 m (set_timestamp now s) a b); [exact Hco1|apply lookup_insert_eq|done|by destruct Hg|done|done|lia|lia|by left|done]|].
  cbv beta. intros ret w2 (Hret & Hsc & t & Hco2 & Hem).
  assert (Hem1 : emits P D w t w2) by (eapply (emits_trans _ _ _ _ _ D D _ [] w1 t); [by apply emits_none|done|done]).
  assert (Hsc1 : same_conn w w2) by done.
  wstep; intros _; [wstep; split; [done|by exists t]|]. wstep; intros _; [wstep; split; [done|by exists t]|].
  eapply wp_mono; [apply (IH (D ++ sent_of t)); auto|].
  - intros i Hi. destruct (same_conn_tx _ _ Hsc1) as (-> & _). apply Hq. by right.
  - cbv beta. intros _ w3 (Hsc3 & t3 & Hco3 & Hem3). split; [by eapply same_conn_trans|]. exists (t ++ t3). rewrite sent_of_app, app_assoc. split; [done|].
    eapply emits_trans; [exact Hem1|intros i Hi; apply elem_of_app; by left|exact Hem3].
Qed.

(** ** Fast retransmission *)

(** The packet to send again, which the operation has a reference to. *)
Definition to_resend (c : Z) (r : option nat) (x una : Z) (w : world) : Prop :=
  match r with
  | None => True
  | Some m => exists s a b, heap w !! m = Some s /\ sid s = m /\ segok s a b /\ L <= a /\ b <= x /\ una - c < a
  end.

Lemma fast_start_wp k B pd x P una D w :
  core true false k B pd x P una D w -> B <= 100000 ->
  wp (tcp_tx_fast_retransmit_start E) w (fun r w' => core true false k B pd x P una (option_list r ++ D) w' /\ to_resend 200000 r x una w' /\
    conn w' = conn w /\ trace w' = trace w /\ steady D w w').
Proof.
  intros Hco HB. unfold tcp_tx_fast_retransmit_start. destruct (co_ctl _ _ _ _ _ _ _ _ _ _ _ _ _ _ Hco) as (Hlk & _ & Hex & _).
  wstep. exists tt, w. split; [by apply lock_held|]. wstep. rewrite Hex. destruct (txq (conn w)) as [|m q] eqn:Eq.
  { wstep. split_and!; auto; [done|by apply steady_eq]. }
  assert (Hm : m ∈ txq (conn w)) by (rewrite Eq; by left). destruct (elem_seg _ _ _ _ _ _ _ _ _ _ m Hco Hm) as (s & a & b & Hs & Hid & Hg & Hr & Ha & HL & Hb).
  wstep. unfold microtime. wstep. wstep. wstep. wstep. wstep. eapply wp_mod_seg; [exact Hs|]. wstep. cbn [sid set_sref set_timestamp]. rewrite Hid.
  set (s' := set_sref _ _). set (w1 := set_heap _ _).
  destruct (core_mark true false k B pd x P una D (m :: D) w w1 m s s' Hco Hm Hs) as [Hco1 Hsd1]; auto.
  split_and!; auto. exists s', a, b. unfold w1, s'. cbn. rewrite lookup_insert_eq. split_and!; auto; [by destruct Hg|lia].
Qed.

Lemma to_resend_steady c c' r x una una' D w w' :
  to_resend c r x una w -> (forall m, r = Some m -> m ∈ D) -> steady D w w' -> una' - c' <= una - c -> to_resend c' r x una' w'.
Proof.
  destruct r as [m|]; [|done]. intros (s & a & b & Hs & Hid & Hg & HL & Hb & Ha) HD Hsd Hu. specialize (Hsd m (HD m eq_refl)). rewrite Hs in Hsd. cbn in Hsd.
  destruct (heap w' !! m) as [s'|] eqn:Es; [|done]. cbn in Hsd. unfold frozen in Hsd. injection Hsd as F1 F2 F3 F4 F5 F6.
  exists s', a, b. destruct Hg. split_and!; auto; [congruence| |lia]. split; try congruence; by rewrite F5.
Qed.

Lemma fast_finish_wp lk ex k B pd x P una D r w :
  core lk ex k B pd x P una (option_list r ++ D) w -> to_resend 1000000 r x una w -> B <= 1000000 ->
  wp (tcp_tx_fast_retransmit_finish E r) w (fun _ w' => same_conn w w' /\ exists t, core lk ex k B pd x P una (D ++ sent_of t) w' /\ emits P D w t w').
Proof.
  intros Hco Hre HB. destruct r as [m|]; cbn [tcp_tx_fast_retransmit_finish].
  2: { wstep. split; [by apply same_conn_eq|]. exists []. change (sent_of []) with (@nil nat). rewrite app_nil_r. split; [done|apply emits_none; [done|by apply steady_eq]]. }
  cbn in Hco. destruct Hre as (s & a & b & Hs & Hid & Hg & HL & Hb & Ha).
  assert (HD0 : exists D0, (m ∈ txq (conn w) /\ m :: D = D0 \/ (m ∉ txq (conn w)) /\ m :: D = m :: D0) /\ sref s = 1 + held m D0 /\ (forall i, i ∈ D -> i ∈ D0)).
  { destruct (decide (m ∈ txq (conn w))) as [Hq|Hq].
    - exists (m :: D). destruct (elem_seg _ _ _ _ _ _ _ _ _ _ m Hco Hq) as (s0 & ? & ? & Hs0 & _ & _ & Hr & _). assert (s0 = s) as -> by congruence.
      split_and!; auto. intros i Hi. by right.
    - exists D. split_and!; auto. destruct (co_drv _ _ _ _ _ _ _ _ _ _ _ _ _ _ Hco m ltac:(by left) Hq) as (s0 & Hs0 & _ & [(? & ? & _ & _ & _ & Hr)|[Hr _]]).
      + assert (s0 = s) as -> by congruence. rewrite Hr, held_cons, decide_True by done. done.
      + assert (s0 = s) as -> by congruence. destruct Hg. congruence. }
  destruct HD0 as (D0 & Hor & Hr & Hsub). wstep.
  eapply wp_mono; [eapply (rtx_one_wp lk ex k B pd x P una (m :: D) D0 w m s a b); auto; lia|].
  cbv beta. intros ret w1 (_ & Hsc & t & Hco1 & Hem). cbn in Hco1.
  eapply wp_mono; [by apply (free_wp P)|]. cbv beta. intros _ w2 (Hc2 & t2 & Hco2 & Hem2 & Hse2). split.
  - destruct Hsc as (u & v & Hc). exists u, v. congruence.
  - exists (t ++ t2). rewrite sent_of_app, Hse2, app_nil_r. split; [done|].
    eapply (emits_trans _ _ _ _ _ D (D ++ sent_of t)); [|intros i Hi; apply elem_of_app; by left|exact Hem2].
    destruct Hem as [? ? Hst]. split; auto. intros i Hi. apply Hst. auto.
Qed.

(** ** Acknowledgements *)

Lemma acked_prefix_wp una h D hi q : forall lo w,
  heap w = h -> chain una h D q lo hi -> una - 1000000 <= lo <= una -> hi <= una + 1000000 ->
  wp (acked_prefix q (u32 una)) w (fun r w' => w' = w /\ q = r.1 ++ r.2 /\
    exists lo', chain una h D r.2 lo' hi /\ lo <= lo' <= una /\ (r.2 <> [] -> una - TCP_MSS <= lo')).
Proof.
  induction q as [|m q IH]; intros lo w Hw; cbn [acked_prefix chain TcpSend.chain].
  - intros -> Hlo Hhi. wstep. split_and!; auto. exists hi. split_and!; auto; try lia; done.
  - intros (s & a & b & Hs & Hid & Hg & Hr & Ha & Hc) Hlo Hhi. assert (Hle := chain_le _ _ _ _ _ _ _ Hc). assert (Hab := sg_ab _ _ _ _ Hg). change TCP_MSS with 1460 in Hab.
    wstep. eapply wp_get_seg; [by rewrite Hw|]. rewrite (sg_end _ _ _ _ Hg), wraps_gt_near by (unfold near; lia). wstep; intros Hgt.
    + apply Z.ltb_lt in Hgt. wstep. split_and!; auto. exists a. cbn [snd]. change TCP_MSS with 1460. split_and!; try lia. cbn. exists s, a, b. split_and!; auto.
    + apply Z.ltb_ge in Hgt. wstep. eapply wp_mono; [apply (IH b w); auto; lia|]. cbv beta. intros [p r] w' (-> & -> & lo' & Hc' & Hl' & Hne).
      wstep. split_and!; auto. exists lo'. split_and!; auto; lia.
Qed.

Lemma held_unique m a : NoDup a -> m ∈ a -> held m a = 1.
Proof.
  intros Hn Hm%list_elem_of_In. unfold held. rewrite (proj1 (NoDup_count_occ' Nat.eq_dec a)); [done| |done]. by apply NoDup_ListNoDup.
Qed.

(** The acknowledged packets leave the queue: their references are the caller's. *)
Lemma acked_wp k B pd x P una D w :
  core true false k B pd x P una D w -> B <= 100000 ->
  wp tcp_conn_ack w (fun q w' => core true false k TCP_MSS pd x P una (q ++ D) w' /\ exists q', w' = set_conn (set_txq q' (conn w)) w).
Proof.
  intros Hco HB. unfold tcp_conn_ack. assert (Hxx := core_x _ _ _ _ _ _ _ _ _ _ Hco). assert (Hco0 := Hco).
  destruct Hco as [H1 H2 H3 H4 (lo & Hc & Hl & HL) H6 H7 H8 H9]. assert (Hct := H1). destruct Hct as (Hlk & _ & Hex & _).
  wstep. exists tt, w. split; [by apply lock_held|]. wstep. rewrite Hex. cbv iota. destruct H3 as [H3 H3']. rewrite H3'. wstep.
  eapply wp_mono; [eapply (acked_prefix_wp una (heap w) D x _ lo w eq_refl Hc); lia|]. cbv beta. intros [a q'] w' (-> & Hq & lo' & Hc' & Hlo' & Hne).
  cbn [fst snd] in *. wstep. wstep. wstep. split; [|by eexists]. rewrite Hq in H7. apply list.NoDup_app in H7 as (Hna & Hdis & Hnq).
  assert (Hheld : forall m, m ∉ a -> held m (a ++ D) = held m D) by (intros m Hm; rewrite held_app, held_none by done; lia).
  split; cbn; auto.
  - exists lo'. split_and!; [|..]; try lia.
    + eapply chain_keeps; [reflexivity| |exact Hc']. intros m Hm. split; [done|]. apply Hheld. intros Hma. by apply (Hdis m).
    + destruct q'; [|by apply Hne]. cbn in Hc'. subst lo'. change TCP_MSS with 1460. destruct pd; [|lia]. destruct H6 as (_ & _ & ? & _ & _ & [[? _ _ Hab _ _ _ _] _ _ _ _]).
      change TCP_MSS with 1460 in Hab. lia.
  - destruct pd as [p|]; [|done]. destruct H6 as (Hp1 & Hp2 & Hp3). rewrite Hq, elem_of_app in Hp1. rewrite elem_of_app. split_and!; tauto.
  - intros m Hm Hmq. destruct (decide (m ∈ a)) as [Hma|Hma].
    + destruct (elem_seg _ _ _ _ _ _ _ _ _ _ m Hco0) as (s & y & b & Hs & Hid & Hg & Hr & _ & ? & ?); [rewrite Hq; apply elem_of_app; by left|].
      exists s. split_and!; auto. left. exists y, b. split_and!; auto. by rewrite held_app, held_unique.
    + rewrite Hheld by done. apply elem_of_app in Hm as [?|Hm]; [done|]. apply H8; [done|]. rewrite Hq, elem_of_app. tauto.
Qed.

(** A new acknowledgement. *)
Lemma core_acked lk k pd x P una una' D w w' :
  core lk false k TCP_MSS pd x P una D w -> una <= una' <= P ->
  tview (conn w') = tview (set_pcb (set_snd_una (u32 una') (pcb (conn w))) (conn w)) -> heap w' = heap w -> next_sid w' = next_sid w ->
  core lk false k 70000 pd x P una' D w'.
Proof.
  intros [H1 H2 [H3 H3'] (H4 & H4' & H4'') (lo & Hc & Hl) H6 H7 H8 H9] Hu Hv Hh Hns. change TCP_MSS with 1460 in *.
  unfold tview in Hv. cbn in Hv. injection Hv as V1 V2 V3 V4 V5 V6 V7 V8 V9 V10 V11.
  split; rewrite ?V1, ?V2, ?V3, ?V4, ?V5, ?V6, ?V7, ?V8, ?V9, ?V10, ?V11, ?Hh, ?Hns; auto; [split_and!; lia|].
  exists lo. split; [|lia]. eapply chain_keeps; [| |exact Hc]; [lia|done].
Qed.

Lemma core_slack lk ex k B B' pd x P una D w : B <= B' -> core lk ex k B pd x P una D w -> core lk ex k B' pd x P una D w.
Proof. intros HB [H1 H2 H3 H4 (lo & Hc & Hl) H6 H7 H8 H9]. split; auto. exists lo. split; [done|lia]. Qed.

(** ** Timers *)

Lemma timer_wp ex k B pd x P una D w :
  core true ex k B pd x P una D w -> wp (tcp_timer_update E) w (fun _ w' => exists n t, w' = set_conn (set_next_timeout t (conn w)) (set_n_time n w)).
Proof.
  intros Hco. unfold tcp_timer_update. destruct (co_ctl _ _ _ _ _ _ _ _ _ _ _ _ _ _ Hco) as (Hlk & _ & Hex & _).
  wstep. exists tt, w. split; [by apply lock_held|]. wstep. wstep.
  eapply (wp_mono _ _ (fun _ w' => w' = w)).
  { unfold txq_first_ts. wstep. wstep; intros _; [by wstep|]. destruct (txq (conn w)) as [|m q] eqn:Eq; [by wstep|].
    destruct (elem_seg _ _ _ _ _ _ _ _ _ _ m Hco) as (s & _ & _ & Hs & _); [rewrite Eq; by left|]. wstep. eapply wp_get_seg; [exact Hs|]. by wstep. }
  cbv beta. intros first w1 ->. wstep. destruct (rxq_ooo (conn w)).
  - wstep. wstep. exists (n_time w), (conn_timeouts (conn w) first). by destruct w.
  - wstep. unfold microtime. wstep. wstep. wstep. wstep. wstep. wstep. eexists _, _. reflexivity.
Qed.
End rtx.
