(* ===== verification/TcpSender.v ===== *)
(** * The operations of a sender

    [tcp_write], acknowledgements that arrive, the timers and the retransmission thread,
    and the driver's completions, on an established connection: each returns, keeps the
    invariant of TcpSend.v, and sends only pieces of the stream. *)

From S2P Require Import Prelude Stddef Mbuf Chksum Transport Arp Core TcpState TcpOut TcpConn TcpIn TcpWire Tcp TcpStream TcpSend TcpRtx.

Section sender.
Context (E : env) (HE : env_ok E).
Context (S : Z -> Z) (ce : trans_entry) (U L : Z).

Local Abbreviation core := (core S ce U L).
Local Abbreviation emits := (emits S ce U L).
Local Abbreviation good_ev := (good_ev S ce U L).
Local Abbreviation to_resend := (to_resend S L).

(** Between operations. *)
Definition rest (k x P una : Z) (D : list nat) (w : world) : Prop := core false false k TCP_MSS (tx_pending (conn w)) x P una D w.

(** What an operation may do. *)
Definition after (k P una : Z) (D : list nat) (w w' : world) : Prop :=
  exists x t, rest k x P una (D ++ sent_of t) w' /\ emits P D w t w'.

(** The parts of the connection that matter to the sender. *)
Definition cv (c : tcpconn) := (tview c, tx_pending c).

Lemma core_cv lk ex k B x P una D w w' :
  cv (conn w') = cv (conn w) -> heap w' = heap w -> next_sid w' = next_sid w ->
  core lk ex k B (tx_pending (conn w)) x P una D w -> core lk ex k B (tx_pending (conn w')) x P una D w'.
Proof. intros Hc Hh Hn. rewrite (f_equal snd Hc : tx_pending _ = tx_pending _). apply core_view; [exact (f_equal fst Hc)|done|done]. Qed.

(** Locks. *)
Lemma core_lock lk lk' ex ex' k B pd x P una D w w' :
  core lk ex k B pd x P una D w -> cv (conn w') = cv (set_c_lock lk' (set_tx_exclusive ex' (conn w))) -> heap w' = heap w -> next_sid w' = next_sid w ->
  core lk' ex' k B pd x P una D w'.
Proof.
  intros [H1 H2 H3 H4 H5 H6 H7 H8 H9] Hc Hh Hn. unfold cv, tview in Hc. cbn in Hc. injection Hc as V1 V2 V3 V4 V5 V6 V7 V8 V9 V10 V11 V12.
  split; rewrite ?V1, ?V2, ?V3, ?V4, ?V5, ?V6, ?V7, ?V8, ?V9, ?V10, ?V11, ?Hh, ?Hn; auto. by destruct H1 as (_ & ? & _ & ?).
Qed.

Lemma snd_lock_wp ex k B pd x P una D w :
  core false ex k B pd x P una D w ->
  wp spin_lock_np w (fun _ w' => core true ex k B pd x P una D w' /\ w' = set_conn (set_c_lock true (conn w)) w).
Proof.
  intros Hco. destruct (co_ctl _ _ _ _ _ _ _ _ _ _ _ _ _ _ Hco) as (Hlk & _ & Hex & _). unfold spin_lock_np. wstep. rewrite Hlk. wstep. split; [|done].
  eapply core_lock; [exact Hco|..]; try done. cbn. by rewrite <- Hex.
Qed.

Lemma snd_unlock_wp ex k B pd x P una D w :
  core true ex k B pd x P una D w ->
  wp spin_unlock_np w (fun _ w' => core false ex k B pd x P una D w' /\ w' = set_conn (set_c_lock false (conn w)) w).
Proof.
  intros Hco. destruct (co_ctl _ _ _ _ _ _ _ _ _ _ _ _ _ _ Hco) as (Hlk & _ & Hex & _). unfold spin_unlock_np. wstep. rewrite Hlk. wstep. split; [|done].
  eapply core_lock; [exact Hco|..]; try done. cbn. by rewrite <- Hex.
Qed.

(** Timers and lock, at the end of an operation. *)
Lemma timer_unlock_wp {A} ex k B x P una D w (K : M A) Q :
  core true ex k B (tx_pending (conn w)) x P una D w ->
  (forall w', core false ex k B (tx_pending (conn w')) x P una D w' -> cv (conn w') = cv (set_c_lock false (conn w)) -> heap w' = heap w -> trace w' = trace w ->
     (tx_wq (conn w') = tx_wq (conn w)) -> wp K w' Q) ->
  wp (_ ← tcp_timer_update E; _ ← spin_unlock_np; K) w Q.
Proof.
  intros Hco HK. wstep. eapply wp_mono; [by eapply timer_wp|]. cbv beta. intros _ w1 (n & t & ->).
  wstep. eapply wp_mono; [apply (snd_unlock_wp ex k B (tx_pending (conn w)) x P una D); eapply core_view; [..|exact Hco]; done|].
  cbv beta. intros _ w2 [Hco2 ->]. by apply HK.
Qed.

(** ** Writing *)

Lemma snd_room k B x P una D w lk :
  core lk false k B (tx_pending (conn w)) x P una D w -> write_blocked (conn w) = false ->
  0 < winlen (pcb (conn w)) /\ P + winlen (pcb (conn w)) <= una + 65535.
Proof.
  intros Hco Hb. destruct Hco as [(_ & Hst & Hex & Hcl & _) _ [H3 H3'] (H4 & H4' & _) _ _ _ _ _]. unfold write_blocked in Hb. rewrite Hst, Hex, Hcl in Hb. cbn in Hb.
  unfold is_snd_full, winlen in *. rewrite H3, H3' in *. rewrite u32_add_l, wraps_lte_near in Hb by (unfold near; lia). apply Z.leb_gt in Hb.
  replace (u32 una + snd_wnd (pcb (conn w)) - u32 P) with (u32 una - (u32 P - snd_wnd (pcb (conn w)))) by lia.
  rewrite u32_sub_l. replace (una - (u32 P - snd_wnd (pcb (conn w)))) with (una + snd_wnd (pcb (conn w)) - u32 P) by lia. rewrite u32_sub_r.
  rewrite u32_id by (unfold in_u32, M32; lia). lia.
Qed.

Lemma write_wp k x P una D w self buf :
  rest k x P una D w -> write_blocked (conn w) = false -> buf = slice S P (P + Z.of_nat (length buf)) ->
  wp (tcp_write E self buf) w (fun r w' => r <= Z.of_nat (length buf) /\ after k (P + Z.max 0 r) una D w w').
Proof.
  intros Hre Hb Hbuf. set (n := Z.of_nat (length buf)) in *. unfold tcp_write.
  wstep. eapply wp_mono; [apply (snd_lock_wp _ _ _ _ _ _ _ _ _ Hre)|]. cbv beta. intros _ w1 [Hco1 ->]. wstep.
  change (conn (set_conn ?c w)) with c. change (write_blocked (set_c_lock true (conn w))) with (write_blocked (conn w)). rewrite Hb.
  assert (Hcl : tx_closed (conn w) = false) by apply Hre. change (tx_closed (set_c_lock true (conn w))) with (tx_closed (conn w)). rewrite Hcl.
  destruct (snd_room _ _ _ _ _ _ _ _ Hre Hb) as [Hw1 Hw2]. change (winlen (pcb (set_c_lock true (conn w)))) with (winlen (pcb (conn w))). set (win := winlen _) in *.
  fold n. wstep. assert (Hn : 0 <= n) by (unfold n; lia).
  replace (take (Z.to_nat (Z.min n win)) buf) with (slice S P (P + Z.min n win)) by (rewrite Hbuf, take_slice by lia; done).
  eapply wp_mono; [apply (tx_send_wp E HE S ce U L true false k TCP_MSS una (n <=? win) (Z.min n win) (tx_pending (conn w)) x P D); auto; lia|].
  cbv beta. intros r w2 (Hr & pd & x2 & t & Hco2 & Hpd2 & Hem & _). wstep. wstep. subst pd.
  apply (timer_unlock_wp false k TCP_MSS x2 (P + Z.max 0 r) una (D ++ sent_of t)). { eapply core_cv; [..|exact Hco2]; done. }
  intros w3 Hco3 _ Hh3 Htr3 _. wstep. split; [lia|]. exists x2, t. split; [done|]. destruct Hem as [E1 E2 E3]. split; [|done|].
  - rewrite Htr3. exact E1.
  - intros m Hm. rewrite Hh3. by apply E3.
Qed.

(** ** The end of operations that had the transmit side to themselves *)

Lemma emits_quiet hi D w w' : heap w' = heap w -> trace w' = trace w -> emits hi D w [] w'.
Proof. intros Hh Ht. apply emits_none; [done|by apply steady_eq]. Qed.

Lemma emits_sub hi D D' w t w' : emits hi D' w t w' -> (forall m, m ∈ D -> m ∈ D') -> emits hi D w t w'.
Proof. intros [? ? H] Hs. split; auto. intros m Hm. auto. Qed.

(** A step in front of what is already known. *)
Lemma emits_before hi D w w1 t w2 : heap w1 = heap w -> trace w1 = trace w -> emits hi D w1 t w2 -> emits hi D w t w2.
Proof. intros Hh Ht He. eapply (emits_trans _ _ _ _ _ D D w [] w1 t); [by apply emits_quiet|done|done]. Qed.

Lemma wake_wp hi D ths w :
  wp (waitq_release_finish ths) w (fun _ w' => exists t, emits hi D w t w' /\ sent_of t = [] /\ conn w' = conn w /\ heap w' = heap w /\ next_sid w' = next_sid w).
Proof.
  unfold waitq_release_finish. revert w. induction ths as [|th ths IH]; intros w; cbn [mapM_].
  - wstep. exists []. split_and!; auto. by apply emits_quiet.
  - wstep. wstep. eapply wp_mono; [apply IH|]. cbv beta. intros _ w' (t & [E1 E2 E3] & Hs & Hc & Hh & Hn). exists (EvReady th :: t). split_and!; auto.
    split; [|by apply Forall_cons_2|done]. rewrite E1. cbn. by rewrite <- app_assoc.
Qed.

(** After the lock is dropped: threads are woken, acknowledged packets are freed, and
    one is sent again. *)
Lemma aftermath_wp {A} k x P una D q r ths w (K : M A) Q :
  core false false k TCP_MSS (tx_pending (conn w)) x P una (q ++ option_list r ++ D) w -> to_resend 1000000 r x una w ->
  (forall t w', rest k x P una (D ++ sent_of t) w' -> emits P D w t w' -> wp K w' Q) ->
  wp (_ ← waitq_release_finish ths; _ ← waitq_signal_finish None; _ ← mbuf_list_free q; _ ← tcp_tx_fast_retransmit_finish E r; K) w Q.
Proof.
  intros Hco Hre HK. wstep. eapply wp_mono; [apply (wake_wp P (q ++ option_list r ++ D))|]. cbv beta. intros _ w1 (t1 & Hem1 & Hs1 & Hc1 & Hh1 & Hn1).
  assert (Hco1 : core false false k TCP_MSS (tx_pending (conn w1)) x P una (q ++ option_list r ++ D) w1) by (eapply core_cv; [..|exact Hco]; [by rewrite Hc1|done|done]).
  wstep. cbn [waitq_signal_finish]. wstep. wstep. eapply wp_mono; [by apply (free_list_wp S ce U L P)|]. cbv beta. intros _ w2 (Hc2 & t2 & Hco2 & Hem2 & Hs2).
  assert (Hre2 : to_resend 1000000 r x una w2).
  { eapply (to_resend_steady S L _ _ _ _ _ _ (option_list r ++ D) w); [exact Hre| | |lia].
    - intros m ->. by left.
    - intros m Hm. rewrite (em_steady _ _ _ _ _ _ _ _ _ Hem2) by done. by rewrite Hh1. }
  wstep. eapply wp_mono; [eapply (fast_finish_wp E HE S ce U L _ _ _ _ _ _ _ _ D r w2); [exact Hco2|exact Hre2|change TCP_MSS with 1460; lia]|].
  cbv beta. intros _ w3 (Hsc3 & t3 & Hco3 & Hem3). destruct (same_conn_tx _ _ Hsc3) as (_ & Hp & _).
  apply (HK (t1 ++ t2 ++ t3)); rewrite ?sent_of_app, ?Hs1, ?Hs2; cbn [app].
  - unfold rest. by rewrite Hp, Hc2.
  - eapply (emits_trans _ _ _ _ _ D D); [eapply emits_sub; [exact Hem1|]; intros m Hm; rewrite !elem_of_app; auto|done|].
    eapply (emits_trans _ _ _ _ _ D D); [eapply emits_sub; [exact Hem2|]; intros m Hm; rewrite elem_of_app; auto|done|done].
Qed.

Lemma finish_tail_wp k x P una D q r w :
  core true false k TCP_MSS (tx_pending (conn w)) x P una (option_list r ++ q ++ D) w -> to_resend 200000 r x una w ->
  wp (_ ← tcp_timer_update E; ths ← waitq_release_start_tx; _ ← spin_unlock_np; _ ← tcp_tx_fast_retransmit_finish E r;
      _ ← waitq_release_finish ths; mbuf_list_free q) w (fun _ w' => after k P una D w w').
Proof.
  intros Hco Hre. wstep. eapply wp_mono; [by eapply timer_wp|]. cbv beta. intros _ w5 (n5 & t5 & Ew5).
  wstep. unfold waitq_release_start_tx. wstep. wstep. wstep. wstep. wstep.
  set (w6 := set_conn _ w5). assert (Hco6 : core true false k TCP_MSS (tx_pending (conn w6)) x P una (option_list r ++ q ++ D) w6).
  { eapply core_cv; [..|exact Hco]; unfold w6; by rewrite Ew5. }
  eapply wp_mono; [apply (snd_unlock_wp _ _ _ _ _ _ _ _ _ Hco6)|]. cbv beta. intros _ w7 [Hco7 Ew7].
  assert (Hq7 : heap w7 = heap w /\ trace w7 = trace w) by (unfold w6 in Ew7; by rewrite Ew7, Ew5). destruct Hq7 as [Hh7 Ht7].
  assert (Hre7 : to_resend 1000000 r x una w7).
  { eapply (to_resend_steady S L _ _ _ _ _ _ (option_list r) w); [exact Hre|intros m ->; by left|by apply steady_eq|lia]. }
  wstep. eapply wp_mono; [eapply (fast_finish_wp E HE S ce U L _ _ _ _ _ _ _ _ (q ++ D) r w7); [exact Hco7|exact Hre7|change TCP_MSS with 1460; lia]|].
  cbv beta. intros _ w8 (Hsc8 & t8 & Hco8 & Hem8). wstep. eapply wp_mono; [apply (wake_wp P D)|]. cbv beta. intros _ w9 (t9 & Hem9 & Hs9 & Hc9 & Hh9 & Hn9).
  assert (Hco9 : core false false k TCP_MSS (tx_pending (conn w6)) x P una (q ++ D ++ sent_of t8) w9).
  { rewrite app_assoc. eapply core_view; [..|exact Hco8]; [by rewrite Hc9|done|done]. }
  eapply wp_mono; [by apply (free_list_wp S ce U L P)|]. cbv beta. intros _ w10 (Hc10 & t10 & Hco10 & Hem10 & Hs10).
  destruct (same_conn_tx _ _ Hsc8) as (_ & Hp8 & _). exists x, (t8 ++ t9 ++ t10). rewrite !sent_of_app, Hs9, Hs10, !app_nil_r. split.
  - unfold rest. replace (tx_pending (conn w10)) with (tx_pending (conn w6)); [done|]. by rewrite Hc10, Hc9, Hp8, Ew7.
  - eapply emits_before; [exact Hh7|exact Ht7|]. eapply (emits_trans _ _ _ _ _ D D); [eapply emits_sub; [exact Hem8|]|done|].
    + intros m Hm. apply elem_of_app. by right.
    + eapply (emits_trans _ _ _ _ _ D (D ++ sent_of t8)); [exact Hem9| |exact Hem10]. intros m Hm. apply elem_of_app. by left.
Qed.

Lemma write_finish_wp k B x P una D w :
  core false true k B (tx_pending (conn w)) x P una D w -> B <= 100000 ->
  wp (tcp_write_finish E) w (fun _ w' => after k P una D w w').
Proof.
  intros Hco HB. unfold tcp_write_finish. wstep. assert (Hex : tx_exclusive (conn w) = true) by apply Hco. rewrite Hex. wstep. apply wp_assert; [done|].
  wstep. eapply wp_mono; [apply (snd_lock_wp _ _ _ _ _ _ _ _ _ Hco)|]. cbv beta. intros _ w1 [_ ->]. wstep. wstep.
  set (w1 := set_conn _ _). assert (Hco1 : core true false k B (tx_pending (conn w1)) x P una D w1) by (eapply core_lock; [exact Hco|..]; done).
  wstep. eapply wp_mono; [by apply (acked_wp S ce U L k B)|]. cbv beta. intros q w2 (Hco2 & q' & Ew2).
  assert (Hw2 : tx_pending (conn w2) = tx_pending (conn w1) /\ heap w2 = heap w /\ trace w2 = trace w) by by rewrite Ew2. destruct Hw2 as (Hp2 & Hh2 & Ht2). rewrite <- Hp2 in Hco2. clear Ew2.
  wstep. wstep. eapply (wp_mono _ _ (fun _ w3 => cv (conn w3) = cv (conn w2) /\ heap w3 = heap w2 /\ trace w3 = trace w2 /\ next_sid w3 = next_sid w2)).
  { wstep; intros _; [by wstep|]. wstep. unfold microtime. wstep. wstep. wstep. wstep. wstep. done. }
  cbv beta. intros _ w3 (Hc3 & Hh3 & Ht3 & Hn3).
  assert (Hco3 : core true false k TCP_MSS (tx_pending (conn w3)) x P una (q ++ D) w3) by by eapply core_cv.
  assert (Hst : state (pcb (conn w3)) = TCP_STATE_ESTABLISHED) by apply Hco3. wstep. rewrite Hst. change (st_eq TCP_STATE_ESTABLISHED TCP_STATE_CLOSED) with false. cbv iota. wstep.
  eapply (wp_mono _ _ (fun res w4 => res.1 = q /\ core true false k TCP_MSS (tx_pending (conn w4)) x P una (option_list res.2 ++ q ++ D) w4 /\ to_resend 200000 res.2 x una w4 /\
    trace w4 = trace w3 /\ steady (q ++ D) w3 w4)).
  { wstep; intros _; [|wstep; split_and!; auto; [done|by apply steady_eq]]. wstep. wstep. set (w4 := set_conn _ w3).
    assert (Hco4 : core true false k TCP_MSS (tx_pending (conn w4)) x P una (q ++ D) w4) by (eapply core_cv; [..|exact Hco3]; done). wstep.
    wstep; intros _; [|wstep; wstep; split_and!; auto; [done|by apply steady_eq]].
    eapply wp_mono; [apply (fast_start_wp E S ce U L k TCP_MSS _ _ _ _ _ _ Hco4); change TCP_MSS with 1460; lia|].
    cbv beta. intros r w5 (Hco5 & Hre5 & Hc5 & Ht5 & Hsd5). wstep. cbn [fst snd]. rewrite Hc5. auto. }
  cbv beta. intros [q1 r] w4 (Hq1 & Hco4 & Hre4 & Ht4 & Hsd4). cbn [fst snd] in *. subst q1.
  eapply wp_mono; [by eapply finish_tail_wp|]. cbv beta. intros _ w5 (x5 & t5 & Hr5 & Hem5). exists x5, t5. split; [done|].
  eapply (emits_trans _ _ _ _ _ D D w [] w4); [|done|exact Hem5]. apply emits_none; [congruence|].
  intros m Hm. rewrite Hsd4 by (apply elem_of_app; by right). by rewrite Hh3, Hh2.
Qed.

(** ** The retransmission thread *)

Lemma retransmit_wp k x P una D w self :
  rest (k + 1) x P una D w -> 0 <= k -> wp (tcp_retransmit E self) w (fun _ w' => after k P una D w w').
Proof.
  intros Hre Hk. unfold tcp_retransmit. wstep. eapply wp_mono; [apply (snd_lock_wp _ _ _ _ _ _ _ _ _ Hre)|]. cbv beta. intros _ w1 [Hco1 Ew1]. wstep.
  destruct (co_ctl _ _ _ _ _ _ _ _ _ _ _ _ _ _ Hco1) as (_ & Hst & Hex & _). rewrite Hst, Hex. cbn [andb]. change (st_eq TCP_STATE_ESTABLISHED TCP_STATE_CLOSED) with false.
  cbv iota. wstep. wstep. wstep. set (w2 := set_conn _ w1).
  assert (Hco2 : core true true (k + 1) TCP_MSS (tx_pending (conn w)) x P una D w2) by (eapply core_lock; [exact Hco1|..]; try done; unfold w2; by rewrite Ew1).
  wstep. eapply wp_mono; [apply (snd_unlock_wp _ _ _ _ _ _ _ _ _ Hco2)|]. cbv beta. intros _ w3 [Hco3 Ew3]. wstep.
  unfold tcp_tx_retransmit. wstep. unfold microtime. wstep. wstep. wstep. wstep. wstep. wstep.
  assert (Hex3 : tx_exclusive (conn w3) = true) by apply Hco3. change (conn (set_n_time ?n w3)) with (conn w3). rewrite Hex3, orb_true_r. apply wp_assert; [done|].
  set (w4 := set_n_time _ w3). assert (Hco4 : core false true (k + 1) TCP_MSS (tx_pending (conn w)) x P una D w4) by (eapply core_view; [..|exact Hco3]; done).
  eapply wp_mono; [eapply (rtx_loop_wp E HE S ce U L false true (k + 1) TCP_MSS); [exact Hco4|done|change TCP_MSS with 1460; lia]|].
  cbv beta. intros _ w5 (Hsc5 & t5 & Hco5 & Hem5). destruct (same_conn_tx _ _ Hsc5) as (_ & Hp5 & _).
  assert (Hp : tx_pending (conn w5) = tx_pending (conn w)) by (rewrite Hp5; unfold w4; cbn; rewrite Ew3; unfold w2; cbn; by rewrite Ew1). rewrite <- Hp in Hco5.
  eapply wp_mono; [eapply write_finish_wp; [exact Hco5|change TCP_MSS with 1460; lia]|]. cbv beta. intros _ w6 (x6 & t6 & Hr6 & Hem6).
  unfold tcp_conn_put. wstep. assert (Hrf : k + 1 < c_ref (conn w6)) by apply Hr6. wstep. wstep. wstep; intros Hz; [lia|].
  exists x6, (t5 ++ t6). rewrite sent_of_app, app_assoc. split.
  - destruct Hr6 as [(? & ? & ? & ? & ?) ? ? ? ? ? ? ? ?]. split; cbn; auto. split_and!; auto. lia.
  - assert (Hq : heap w4 = heap w /\ trace w4 = trace w) by (unfold w4; rewrite Ew3; unfold w2; by rewrite Ew1).
    eapply emits_before; [apply Hq|apply Hq|]. eapply (emits_trans _ _ _ _ _ D (D ++ sent_of t5)); [exact Hem5|intros m Hm; apply elem_of_app; by left|].
    destruct Hem6 as [? ? H]. split; auto.
Qed.

(** ** Acknowledgements that are sent *)

Lemma nothing lk ex k B pd x P una D w w' :
  core lk ex k B pd x P una D w -> conn w' = conn w -> heap w' = heap w -> next_sid w' = next_sid w -> trace w' = trace w ->
  same_conn w w' /\ exists t, core lk ex k B pd x P una (D ++ sent_of t) w' /\ emits P D w t w'.
Proof.
  intros Hco Hc Hh Hn Ht. split; [by apply same_conn_eq|]. exists []. change (sent_of []) with (@nil nat). rewrite app_nil_r. split; [|by apply emits_quiet].
  eapply core_view; [..|exact Hco]; by rewrite ?Hc.
Qed.

Lemma snd_ack_wp lk ex k B pd x P una D w :
  core lk ex k B pd x P una D w ->
  wp (tcp_tx_ack E) w (fun _ w' => same_conn w w' /\ exists t, core lk ex k B pd x P una (D ++ sent_of t) w' /\ emits P D w t w').
Proof.
  intros Hco. unfold tcp_tx_ack. wstep. destruct (tx_alloc_run E w HE) as [Ea|(b & Hb & Ea)]; eexists _, _; (split; [exact Ea|]); cbv iota beta.
  { wstep. by eapply nothing. }
  set (n := next_sid w). set (w1 := set_heap _ _). wstep. change (conn w1) with (conn w). destruct (co_ends _ _ _ _ _ _ _ _ _ _ _ _ _ _ Hco) as [Hce HU].
  destruct (co_seq _ _ _ _ _ _ _ _ _ _ _ _ _ _ Hco) as [Hnx _]. destruct (core_x _ _ _ _ _ _ _ _ _ _ _ _ _ _ Hco) as (? & ? & ?). rewrite Hnx, Hce.
  wstep. eapply wp_mod_seg; [cbn; apply lookup_insert_eq|]. wstep. set (s1 := set_seg_seq _ _).
  assert (Hr1 : ready S (set_seg_end (u32 P) s1) P P).
  { destruct (fresh_buf_txflags b OLFLAG_TCP_CHKSUM Hb) as (Hb1 & Hd1 & Hl1 & Hh1). split; cbn; auto; [change TCP_MSS with 1460; lia|cbn in Hd1; rewrite Hd1; done|cbn in Hl1; lia|].
    rewrite slice_nil by lia. unfold payload. cbn. cbn in Hl1. by rewrite Hl1. }
  eapply wp_mono; [eapply (push_hdr_wp S ce U L P n s1 (u32 P) P P); [apply lookup_insert_eq|done|done|by left|lia|lia|done|done]|].
  cbv beta. intros _ w2 (b2 & u & v & Hhd & ->). wstep.
  eapply wp_mono; [eapply (tx_ip_wp E HE S ce U L P n (set_mb b2 s1) P P); [cbn; apply lookup_insert_eq|done|exact Hhd|lia]|].
  cbv beta. intros ret w3 (b3 & _ & Hret & Hev & ->). set (ev := EvTx n _ _ ret) in *. wstep.
  assert (Hfin : forall T w', same_conn w w' -> next_sid w' = Datatypes.S n -> (forall i, i <> n -> heap w' !! i = heap w !! i) -> trace w' = trace w ++ ev :: T ->
     Forall (good_ev P) T -> sent_of (ev :: T) = [] \/ sent_of (ev :: T) = [n] /\ (exists s, heap w' !! n = Some s /\ sid s = n /\ release s = net_tx_release_mbuf) ->
     same_conn w w' /\ exists t, core lk ex k B pd x P una (D ++ sent_of t) w' /\ emits P D w t w').
  { intros T w' Hsc Hn Hh Ht HT Hs. split; [done|]. exists (ev :: T). destruct (core_copied S ce U L lk ex k B pd x P una D (sent_of (ev :: T)) w w w') as [Hk Hsd]; auto.
    split; [done|]. split; auto. }
  wstep; intros Hz.
  - assert (Hz' : ret <> 0) by (by destruct (Z.eqb_spec ret 0)). eapply free_default_wp; [cbn; apply lookup_insert_eq|done|]. wstep. apply (Hfin [EvFree n]).
    + by do 2 eexists.
    + done.
    + intros i Hi. cbn. rewrite lookup_delete_ne, !lookup_insert_ne by done. done.
    + cbn. by rewrite <- app_assoc.
    + by apply Forall_singleton.
    + left. unfold sent_of, ev. cbn. by destruct (Z.eqb_spec ret 0).
  - assert (Hz' : ret = 0) by (by destruct (Z.eqb_spec ret 0)). wstep. apply (Hfin []); [by do 2 eexists|done| |done|done|].
    + intros i Hi. cbn. rewrite !lookup_insert_ne by done. done.
    + right. split; [unfold ev; by rewrite Hz'|]. eexists. cbn. rewrite lookup_insert_eq. done.
Qed.

(** ** The worker of the timers *)

Lemma core_more lk ex k k' B pd x P una D w : core lk ex k B pd x P una D w -> k' < c_ref (conn w) -> core lk ex k' B pd x P una D w.
Proof. intros [(? & ? & ? & ? & ?) ? ? ? ? ? ? ? ?] Hk. by split. Qed.

Lemma core_ref lk ex k k' B pd x P una D w c :
  core lk ex k B pd x P una D w -> tview c = tview (set_c_ref (c_ref c) (conn w)) -> k' < c_ref c -> core lk ex k' B pd x P una D (set_conn c w).
Proof.
  intros [(K1 & K2 & K3 & K4 & K5) H2 H3 H4 H5 H6 H7 H8 H9] Hv Hk. unfold tview in Hv. cbn in Hv. injection Hv as V1 V2 V3 V4 V6 V7 V8 V9 V10 V11.
  split; cbn; rewrite ?V1, ?V2, ?V3, ?V4, ?V6, ?V7, ?V8, ?V9, ?V10, ?V11; auto.
Qed.

(** The timers may acknowledge, and start the retransmission. *)
Lemma timeouts_wp k x P una D w now :
  rest k x P una D w -> 0 <= k ->
  wp (tcp_handle_timeouts E now) w (fun _ w' => exists b : bool, exists x' t w1, rest (k + Z.b2z b) x' P una (D ++ sent_of t) w1 /\ emits P D w t w1 /\
    w' = if b then set_trace (trace w1 ++ [EvSpawnRetransmit]) w1 else w1).
Proof.
  intros Hre Hk. unfold tcp_handle_timeouts. wstep. eapply wp_mono; [apply (snd_lock_wp _ _ _ _ _ _ _ _ _ Hre)|]. cbv beta. intros _ w1 [Hco1 Ew1].
  assert (Hw1 : tx_pending (conn w1) = tx_pending (conn w) /\ heap w1 = heap w /\ trace w1 = trace w) by by rewrite Ew1. destruct Hw1 as (Hp1 & Hh1 & Ht1). rewrite <- Hp1 in Hco1. clear Ew1.
  unfold tcp_handle_timeouts_locked. wstep. wstep. destruct (co_ctl _ _ _ _ _ _ _ _ _ _ _ _ _ _ Hco1) as (_ & Hst & Hex & _ & Hrf). rewrite Hst.
  change (st_eq TCP_STATE_ESTABLISHED TCP_STATE_CLOSED) with false. change (st_lt TCP_STATE_ESTABLISHED TCP_STATE_ESTABLISHED) with false.
  change (st_eq TCP_STATE_ESTABLISHED TCP_STATE_TIME_WAIT) with false. cbn [andb]. cbv iota zeta. set (da := ack_delayed _ && _). wstep.
  eapply (wp_mono _ _ (fun _ w2 => core true false k TCP_MSS (tx_pending (conn w2)) x P una D w2 /\ heap w2 = heap w1 /\ trace w2 = trace w1)).
  { wstep; intros _; [|done]. wstep. split_and!; auto. eapply core_cv; [..|exact Hco1]; done. }
  cbv beta. intros _ w2 (Hco2 & Hh2 & Ht2). wstep. eapply (wp_mono _ _ (fun _ w' => w' = w2)).
  { unfold txq_first_ts. wstep. wstep; intros _; [by wstep|]. destruct (txq (conn w2)) as [|m q] eqn:Eq; [by wstep|].
    destruct (elem_seg _ _ _ _ _ _ _ _ _ _ _ _ _ _ m Hco2) as (s & _ & _ & Hs & _); [rewrite Eq; by left|]. wstep. eapply wp_get_seg; [exact Hs|]. by wstep. }
  cbv beta. intros first w3 ->. set (rtx := match first with Some _ => _ | None => _ end). set (da2 := da || _). wstep.
  eapply (wp_mono _ _ (fun _ w3 => core true false (k + Z.b2z rtx) TCP_MSS (tx_pending (conn w3)) x P una D w3 /\ heap w3 = heap w1 /\ trace w3 = trace w1)).
  { assert (Hrf2 : k < c_ref (conn w2)) by apply Hco2. wstep; intros Hr.
    - unfold tcp_conn_get. wstep. rewrite (proj2 (Z.ltb_lt _ _)) by lia. wstep. apply wp_assert; [done|]. wstep. rewrite Hr. split_and!; auto.
      eapply core_ref; [exact Hco2|done|cbn; lia].
    - rewrite Hr. split_and!; auto. eapply core_more; [exact Hco2|cbn; lia]. }
  cbv beta. intros _ w3 (Hco3 & Hh3 & Ht3). apply (timer_unlock_wp _ _ _ _ _ _ _ _ _ _ Hco3). intros w4 Hco4 _ Hh4 Ht4 _. wstep. cbv iota. wstep.
  eapply (wp_mono _ _ (fun _ w5 => exists t, rest (k + Z.b2z rtx) x P una (D ++ sent_of t) w5 /\ emits P D w4 t w5)).
  { assert (Hn := fun w' => nothing _ _ _ _ _ _ _ _ _ _ w' Hco4). wstep; intros _.
    - wstep. eapply wp_mono; [by apply snd_ack_wp|]. cbv beta. intros _ w5 (Hsc & t & Hco5 & Hem). wstep. exists t. destruct (same_conn_tx _ _ Hsc) as (_ & Hp & _).
      unfold rest. by rewrite Hp.
    - destruct (Hn w4) as (_ & t & ? & ?); auto. by exists t. }
  cbv beta. intros _ w5 (t & Hr5 & Hem5). assert (Hem : emits P D w t w5) by (eapply emits_before; [..|exact Hem5]; congruence).
  wstep; intros Hr; [wstep|]; exists rtx, x, t, w5; rewrite Hr; rewrite Hr in Hr5; done.
Qed.

Lemma snd_worker_wp k x P una D w now :
  rest k x P una D w -> 0 <= k ->
  wp (tcp_worker_conn E now) w (fun _ w' => exists b : bool, exists x' t w1, rest (k + Z.b2z b) x' P una (D ++ sent_of t) w1 /\ emits P D w t w1 /\
    w' = if b then set_trace (trace w1 ++ [EvSpawnRetransmit]) w1 else w1).
Proof.
  intros Hre Hk. unfold tcp_worker_conn. wstep. wstep; intros _; [by eapply timeouts_wp|]. exists false, x, [], w.
  change (sent_of []) with (@nil nat). rewrite app_nil_r, Z.add_0_r. split_and!; auto. by apply emits_quiet.
Qed.

(** ** The driver is done with a buffer *)

Lemma done_wp k x P una D D' m w :
  rest k x P una D w -> D ≡ₚ m :: D' -> wp (mbuf_free m) w (fun _ w' => exists t, rest k x P una D' w' /\ emits P D' w t w' /\ sent_of t = []).
Proof.
  intros Hre HD. eapply wp_mono; [apply (free_wp S ce U L P); eapply core_perm; [exact HD|exact Hre]|]. cbv beta. intros _ w' (Hc & t & Hco & Hem & Hs).
  exists t. split_and!; auto. unfold rest. by rewrite Hc.
Qed.

(** ** Acknowledgements that arrive *)

Lemma dup_ack_wp k x P una D w ack :
  core true false k TCP_MSS (tx_pending (conn w)) x P una D w ->
  wp (rx_dup_ack E ack 0) w (fun r w' => core true false k TCP_MSS (tx_pending (conn w')) x P una (option_list r ++ D) w' /\ to_resend 200000 r x una w' /\
    tx_pending (conn w') = tx_pending (conn w) /\ trace w' = trace w /\ steady D w w').
Proof.
  intros Hco. assert (Hquiet : forall c, cv c = cv (conn w) -> core true false k TCP_MSS (tx_pending c) x P una D (set_conn c w)) by (intros c Hc; by apply (core_cv _ _ _ _ _ _ _ _ w (set_conn c w))).
  unfold rx_dup_ack. wstep. wstep; intros _; [|wstep; split_and!; auto; [done|by apply steady_eq]].
  wstep; intros _; [|wstep; wstep; wstep; split_and!; [by apply Hquiet|done|done|done|by apply steady_eq]].
  assert (Hex : tx_exclusive (conn w) = false) by apply Hco. rewrite Hex. wstep.
  eapply wp_mono; [apply (fast_start_wp E S ce U L k TCP_MSS _ _ _ _ _ _ Hco); change TCP_MSS with 1460; lia|].
  cbv beta. intros r w1 (Hco1 & Hre1 & Hc1 & Ht1 & Hsd1). wstep. wstep. wstep. cbn. rewrite Hc1. split_and!; auto.
  eapply core_view; [..|exact Hco1]; [by rewrite Hc1|done|done].
Qed.

Lemma core_wnd lk ex k B pd x P una D w w' v :
  core lk ex k B pd x P una D w -> 0 <= v <= 65535 -> tview (conn w') = tview (set_pcb (set_snd_wnd v (pcb (conn w))) (conn w)) ->
  heap w' = heap w -> next_sid w' = next_sid w -> core lk ex k B pd x P una D w'.
Proof.
  intros [H1 H2 H3 (H4 & _ & H4') H5 H6 H7 H8 H9] Hw Hv Hh Hn. unfold tview in Hv. cbn in Hv. injection Hv as V1 V2 V3 V4 V5 V6 V7 V8 V9 V10 V11.
  split; rewrite ?V1, ?V2, ?V3, ?V4, ?V5, ?V6, ?V7, ?V8, ?V9, ?V10, ?V11, ?Hh, ?Hn; auto.
Qed.

Lemma send_window_wp k x P una D w seq ack win :
  core true false k TCP_MSS (tx_pending (conn w)) x P una D w -> in_u16 win ->
  wp (rx_send_window seq ack win) w (fun _ w' => core true false k TCP_MSS (tx_pending (conn w')) x P una D w' /\
    tx_pending (conn w') = tx_pending (conn w) /\ trace w' = trace w /\ heap w' = heap w).
Proof.
  intros Hco Hw. unfold rx_send_window. wstep. wstep; intros _; [|done]. wstep. wstep. set (w1 := set_conn _ w).
  assert (Hu : 0 <= usable_win win <= 65535) by (unfold in_u16, M16, usable_win in *; destruct (Z.ltb_spec 1 win); lia).
  assert (Hco1 : core true false k TCP_MSS (tx_pending (conn w1)) x P una D w1) by (eapply (core_wnd _ _ _ _ _ _ _ _ _ w w1 (usable_win win)); [exact Hco|done|done|done|done]).
  wstep; intros _; [|done]. wstep. split_and!; auto. eapply core_cv; [..|exact Hco1]; done.
Qed.

(** The first byte that is not acknowledged, after an acknowledgement of everything
    before [y]. *)
Definition new_una (una y P : Z) : Z := if (una <=? y) && (y <=? P) then y else una.

(** What the locked part leaves for later. *)
Definition work_ok (k x P una : Z) (D : list nat) (kk : rx_work) (w w' : world) : Prop :=
  core true false k TCP_MSS (tx_pending (conn w')) x P una (w_acked kk ++ option_list (w_retransmit kk) ++ D) w' /\
  to_resend 300000 (w_retransmit kk) x una w' /\ w_rx_th kk = None /\ w_drop kk = true /\ trace w' = trace w /\ steady D w w'.

Lemma snd_synchronized_wp k x P una D w m seq y win :
  core true false k TCP_MSS (tx_pending (conn w)) x P una D w -> in_u16 win -> una - 1073741824 < y < una + 1073741824 -> has (flags m) TCP_FIN = false ->
  wp (rx_synchronized E m seq (u32 y) 0 (u32 P) win) w (fun kk w' => work_ok k x P (new_una una y P) D kk w w').
Proof.
  intros Hco Hw Hy Hfin. destruct (core_x _ _ _ _ _ _ _ _ _ _ _ _ _ _ Hco) as (_ & _ & HP). unfold rx_synchronized.
  wstep. eapply wp_mono; [by apply dup_ack_wp|]. cbv beta. intros r w1 (Hco1 & Hre1 & Hp1 & Ht1 & Hsd1). wstep.
  destruct (co_seq _ _ _ _ _ _ _ _ _ _ _ _ _ _ Hco1) as [_ Hu1]. rewrite Hu1, !wraps_lte_near, wraps_gt_near by (unfold near; lia). unfold new_una.
  set (valid := (una <=? y) && (y <=? P)). set (full := is_snd_full _). wstep; intros Hv.
  { apply andb_true_iff in Hv as [Hv _]. apply negb_true_iff in Hv. wstep. rewrite Hv. split_and!; auto. eapply (to_resend_steady S L 200000 _ r x una _ (option_list r) w1); [exact Hre1|intros i ->; by left|by apply steady_eq|lia]. }
  clear Hv. wstep. set (una' := if valid then y else una).
  assert (Huu : una <= una' <= P) by (unfold una', valid; bdestruct; cbn; lia).
  eapply (wp_mono _ _ (fun q w2 => core true false k TCP_MSS (tx_pending (conn w2)) x P una' (q ++ option_list r ++ D) w2 /\ trace w2 = trace w1 /\ heap w2 = heap w1)).
  { unfold una'. destruct valid; [|by wstep]. wstep.
    eapply (wp_mono _ _ (fun _ w2 => cv (conn w2) = cv (conn w1) /\ heap w2 = heap w1 /\ trace w2 = trace w1 /\ next_sid w2 = next_sid w1)); [wstep; intros _; [by wstep|done]|].
    cbv beta. intros _ w2 (Hc2 & Hh2 & Ht2 & Hn2). wstep. wstep. set (w3 := set_conn _ w2).
    assert (Hco2 : core true false k TCP_MSS (tx_pending (conn w2)) x P una (option_list r ++ D) w2) by by eapply core_cv.
    assert (Hco3 : core true false k 70000 (tx_pending (conn w3)) x P y (option_list r ++ D) w3) by (eapply core_acked; [exact Hco2|lia|done|done|done]).
    eapply wp_mono; [by apply (acked_wp S ce U L k 70000)|]. cbv beta. intros q w4 (Hco4 & q' & ->). split_and!; auto. }
  cbv beta. intros q w2 (Hco2 & Ht2 & Hh2). wstep. eapply wp_mono; [by apply send_window_wp|]. cbv beta. intros _ w3 (Hco3 & _ & Ht3 & Hh3). wstep.
  assert (Hre : forall w', heap w' = heap w1 -> to_resend 300000 r x una' w').
  { intros w' Hh. eapply (to_resend_steady S L 200000 _ r x una _ (option_list r) w1); [exact Hre1|intros i ->; by left|by apply steady_eq|lia]. }
  wstep. eapply (wp_mono _ _ (fun _ w4 => cv (conn w4) = cv (conn w3) /\ heap w4 = heap w3 /\ trace w4 = trace w3 /\ next_sid w4 = next_sid w3)).
  { wstep; intros _; [|by wstep]. unfold waitq_release_start_tx. wstep. wstep. wstep. by wstep. }
  cbv beta. intros ths w4 (Hc4 & Hh4 & Ht4 & Hn4). assert (Hco4 : core true false k TCP_MSS (tx_pending (conn w4)) x P una' (q ++ option_list r ++ D) w4) by by eapply core_cv.
  assert (Hst : state (pcb (conn w4)) = TCP_STATE_ESTABLISHED) by apply Hco4.
  unfold rx_fin_acked. wstep. wstep. rewrite Hst. wstep. cbv iota. unfold rx_step_text. wstep. wstep. cbn [Z.ltb Z.compare andb]. wstep. cbv iota.
  unfold rx_step_fin. wstep. wstep. rewrite Hfin. cbn [negb]. wstep. wstep. cbn [w_acked w_retransmit w_rx_th w_drop].
  split_and!; auto; [apply Hre; congruence|congruence|]. intros i Hi. rewrite Hh4, Hh3, Hh2. by apply Hsd1.
Qed.

Lemma snd_finish_wp k x P una D kk m w0 w :
  work_ok k x P una D kk w0 w -> wp (rx_finish E kk m) w (fun _ w' => after k P una D w0 w').
Proof.
  intros (Hco & Hre & Hth & Hdr & Ht & Hsd). unfold rx_finish. rewrite Hth, Hdr. apply (timer_unlock_wp _ _ _ _ _ _ _ _ _ _ Hco). intros w1 Hco1 _ Hh1 Ht1 _.
  apply (aftermath_wp k x P una D); [done| |].
  { eapply (to_resend_steady S L _ _ _ _ _ _ (option_list (w_retransmit kk)) w); [exact Hre|intros i ->; by left|by apply steady_eq|lia]. }
  intros t w2 Hr2 Hem2. assert (Hem2' : emits P D w0 t w2).
  { eapply (emits_trans _ _ _ _ _ D D w0 [] w1 t); [|done|exact Hem2]. apply emits_none; [congruence|]. intros i Hi. rewrite Hh1. by apply Hsd. }
  wstep. eapply (wp_mono _ _ (fun _ w3 => exists t', rest k x P una (D ++ sent_of t') w3 /\ emits P D w0 t' w3)).
  { wstep; intros _; [|by exists t]. wstep. eapply wp_mono; [apply (snd_ack_wp _ _ _ _ _ _ _ _ _ _ Hr2)|]. cbv beta. intros _ w3 (Hsc & t3 & Hco3 & Hem3). wstep.
    destruct (same_conn_tx _ _ Hsc) as (_ & Hp & _). exists (t ++ t3). rewrite sent_of_app, app_assoc. unfold rest. rewrite Hp. split; [done|].
    eapply emits_trans; [exact Hem2'| |exact Hem3]. intros i Hi. apply elem_of_app. by left. }
  cbv beta. intros _ w3 (t' & Hr3 & Hem3). cbn [when]. unfold rx_free. wstep. exists x, (t' ++ [EvFree (sid m)]). rewrite sent_of_app, app_nil_r. split.
  - eapply core_cv; [..|exact Hr3]; done.
  - eapply (emits_trans _ _ _ _ _ D D); [exact Hem3|done|]. split; [done|by apply Forall_singleton|by apply steady_eq].
Qed.

(** An acknowledgement without text. *)
Definition ack_packet (b : mbuf) (seq ack : Z) : Prop :=
  exists win fl, tcp_packet b seq ack win fl [] /\ has fl TCP_ACK = true /\ has fl TCP_RST = false /\ has fl TCP_SYN = false /\ has fl TCP_FIN = false.

Lemma rx_ack_wp k x P una D w m seq y :
  rest k x P una D w -> ack_packet (mb m) seq (u32 y) -> una - 1073741824 < y < una + 1073741824 ->
  wp (tcp_rx_conn E m) w (fun _ w' => after k P (if is_acceptable (pcb (conn w)) 0 seq then new_una una y P else una) D w w').
Proof.
  intros Hre (win & fl & Hpk & Hack & Hrst & Hsyn & Hfin) Hy. destruct (co_seq _ _ _ _ _ _ _ _ _ _ _ _ _ _ Hre) as [Hnx _].
  assert (Hf := tp_fields _ _ _ _ _ _ Hpk). destruct Hf as (Hseq & _ & Hwin). destruct (rx_parse_ok _ _ _ _ _ _ Hpk) as (b' & Ep & _ & _).
  unfold tcp_rx_conn. wstep. rewrite Hnx. wstep. unfold microtime. wstep. wstep. wstep. wstep. wstep. eapply wp_lift; [exact Ep|]. cbv iota beta.
  set (w1 := set_n_time _ w). assert (Hr1 : rest k x P una D w1) by (eapply core_cv; [..|exact Hre]; done). unfold rx_dispatch.
  wstep. eapply wp_mono; [apply (snd_lock_wp _ _ _ _ _ _ _ _ _ Hr1)|]. cbv beta. intros _ w2 [Hco2 Ew2]. wstep.
  assert (Hw2 : tx_pending (conn w2) = tx_pending (conn w1) /\ heap w2 = heap w /\ trace w2 = trace w /\ pcb (conn w2) = pcb (conn w)) by by rewrite Ew2. destruct Hw2 as (Hp2 & Hh2 & Ht2 & Hpc2). rewrite <- Hp2 in Hco2. clear Ew2.
  cbn [f_seq f_ack f_win f_flags f_len length]. set (f := TcpFields _ _ _ _ _).
  assert (Hslow : rx_is_slow (conn w2) f (u32 P) = true) by (unfold rx_is_slow, f; cbn [f_len f_flags f_ack f_seq]; by rewrite orb_true_r). rewrite Hslow.
  unfold __tcp_rx_conn. set (m1 := set_flags _ _). change (f_ack f) with (u32 y). change (f_win f) with win.
  assert (Hst : state (pcb (conn w2)) = TCP_STATE_ESTABLISHED) by apply Hco2. rewrite <- Hpc2. set (una' := if is_acceptable _ _ _ then _ else _).
  wstep. eapply (wp_mono _ _ (fun kk w3 => work_ok k x P una' D kk w2 w3)).
  - unfold rx_slow. change (flags m1) with fl. change (seg_seq m1) with seq. change (seg_end m1) with (u32 (seq + 0)). rewrite Hfin, Hrst, Hsyn, Hack, Z.add_0_r, (u32_id seq Hseq), Z.sub_diag.
    change (u32 0) with 0. cbv iota zeta. wstep. rewrite Hst. change (st_eq TCP_STATE_ESTABLISHED TCP_STATE_CLOSED) with false. change (st_eq TCP_STATE_ESTABLISHED TCP_STATE_SYN_SENT) with false.
    change (st_eq TCP_STATE_ESTABLISHED TCP_STATE_SYN_RECEIVED) with false. cbv iota. unfold una'. destruct (is_acceptable _ _ _); cbn [negb]; cbv iota.
    + by apply snd_synchronized_wp.
    + wstep. split_and!; auto; [done|by apply steady_eq].
  - cbv beta. intros kk w3 Hk. eapply wp_mono; [by apply (snd_finish_wp k x P una' D kk m1 w2)|]. cbv beta. intros _ w4 (x4 & t4 & Hr4 & Hem4).
    exists x4, t4. split; [done|]. eapply emits_before; [exact Hh2|exact Ht2|exact Hem4].
Qed.
End sender.
