(* ===== verification/TcpWhole.v ===== *)
(** * A TCP connection from one end to the other

    Runs of a sender, what they put on the wire, and what a receiver that gets some of
    those packets reads. *)

From S2P Require Import Prelude Stddef Mbuf Chksum Transport Arp Core TcpState TcpOut TcpConn TcpIn TcpWire Tcp TcpStream TcpRecv TcpSend TcpRtx TcpSender.

(** ** Only the bytes that were written matter *)

Lemma slice_ext S S' a b : (forall p, a <= p < b -> S p = S' p) -> slice S a b = slice S' a b.
Proof.
  intros H. unfold slice. apply list_fmap_ext. intros i p Hi. apply lookup_seqZ in Hi as [-> Hi]. apply H. lia.
Qed.

Section ext.
Context (S S' : Z -> Z) (ce : trans_entry) (U L : Z).

Lemma good_ev_ext hi e : (forall p, L <= p < hi -> S p = S' p) -> good_ev S ce U L hi e -> good_ev S' ce U L hi e.
Proof.
  intros H. destruct e; cbn; try done. intros (? & ? & a & b & [Hr Hs (x2 & fl & win & sum & urp & Hp)]). split_and!; auto. exists a, b. split; auto.
  exists x2, fl, win, sum, urp. rewrite <- (slice_ext S S'); [done|]. intros p Hp'. apply H. lia.
Qed.

Lemma segok_ext s a b : (forall p, a <= p < b -> S p = S' p) -> segok S s a b -> segok S' s a b.
Proof. intros H [[] ? ? ? ? ?]. split; auto. split; auto. by rewrite <- (slice_ext S S'). Qed.

Lemma chain_ext_stream una h D hi q : forall lo, (forall p, lo <= p < hi -> S p = S' p) -> chain S una h D q lo hi -> chain S' una h D q lo hi.
Proof.
  induction q as [|m q IH]; intros lo H; cbn; [done|]. intros (s & a & b & H1 & H2 & H3 & H4 & H5 & H6). assert (Hle := chain_le _ _ _ _ _ _ _ H6).
  assert (Hab := sg_ab _ _ _ _ H3). exists s, a, b. split_and!; auto.
  - apply segok_ext; [|done]. intros p Hp. apply H. lia.
  - apply IH; [|done]. intros p Hp. apply H. lia.
Qed.

Lemma core_ext lk ex k B pd x P una D w :
  (forall p, L <= p < P -> S p = S' p) -> core S ce U L lk ex k B pd x P una D w -> core S' ce U L lk ex k B pd x P una D w.
Proof.
  intros H Hco. destruct (core_x _ _ _ _ _ _ _ _ _ _ _ _ _ _ Hco) as (HxP & _ & _). destruct Hco as [H1 H2 H3 H4 (lo & Hc & Hl1 & Hl2) H6 H7 H8 H9]. split; auto.
  - exists lo. split; [|done]. apply chain_ext_stream; [|done]. intros p Hp. apply H. lia.
  - destruct pd as [m|]; [|done]. destruct H6 as (? & ? & s & ? & ? & [[] ? ? ? ?]). split_and!; auto. exists s. split_and!; auto. split; auto. split; auto.
    rewrite <- (slice_ext S S'); [done|]. intros p Hp. apply H. lia.
  - intros m Hm Hq. destruct (H8 m Hm Hq) as (s & ? & ? & [(a & b & ? & ? & ? & ?)|?]); exists s; split_and!; auto. left. exists a, b. split_and!; auto.
    apply segok_ext; [|done]. intros p Hp. apply H. lia.
Qed.
End ext.

(** The stream with [bs] from position [P] on. *)
Definition extend (S : Z -> Z) (P : Z) (bs : list Z) : Z -> Z := fun p => if p <? P then S p else nth (Z.to_nat (p - P)) bs 0.

Lemma extend_old S P bs p : p < P -> extend S P bs p = S p.
Proof. intros H. unfold extend. by rewrite (proj2 (Z.ltb_lt _ _)). Qed.

Lemma slice_extend S P bs : slice (extend S P bs) P (P + Z.of_nat (length bs)) = bs.
Proof.
  apply list_eq. intros i. unfold slice. rewrite list_lookup_fmap. destruct (decide (i < length bs)%nat) as [Hi|Hi].
  - rewrite (proj2 (lookup_seqZ P _ i (P + Z.of_nat i))) by lia. cbn. unfold extend. rewrite (proj2 (Z.ltb_ge _ _)) by lia.
    replace (Z.to_nat (P + Z.of_nat i - P)) with i by lia. destruct (lookup_lt_is_Some_2 bs i Hi) as [x Hx]. rewrite Hx. f_equal.
    rewrite nth_lookup, Hx. done.
  - rewrite (lookup_ge_None_2 bs i) by lia. rewrite lookup_seqZ_ge by lia. done.
Qed.

(** The bytes taken so far are those of the longer stream. *)
Lemma extend_take S P bs n p : p < P + Z.of_nat n -> extend S P (take n bs) p = extend S P bs p.
Proof.
  intros H. unfold extend. destruct (Z.ltb_spec p P); [done|]. rewrite !nth_lookup, lookup_take by lia. rewrite decide_True by lia. done.
Qed.

Lemma extend_app S P bs cs p : extend (extend S P bs) (P + Z.of_nat (length bs)) cs p = extend S P (bs ++ cs) p.
Proof.
  unfold extend. destruct (Z.ltb_spec p (P + Z.of_nat (length bs))), (Z.ltb_spec p P); try lia; try done.
  - rewrite app_nth1 by lia. done.
  - rewrite app_nth2 by lia. f_equal. lia.
Qed.

(** ** Runs of a sender *)

(** The connection, the references the driver holds, the retransmission threads. *)
Record sender := Sender { s_w : world; s_D : list nat; s_k : Z }.

Inductive tx_op :=
| TxWrite (self : nat) (buf : list Z)      (* tcp_write *)
| TxAck (m : seg) (seq ack : Z)            (* tcp_rx_conn of an acknowledgement *)
| TxTimer (now : Z)                        (* the worker looks at the connection *)
| TxRetransmit (self : nat)                (* a retransmission thread that was started runs *)
| TxDone (m : nat).                        (* the driver is done with a buffer *)

Fixpoint spawned (t : list event) : Z :=
  match t with [] => 0 | EvSpawnRetransmit :: t => 1 + spawned t | _ :: t => spawned t end.

Definition new_events (w w' : world) : list event := drop (length (trace w)) (trace w').

Definition tx_next (st : sender) (w' : world) (used : Z) : sender :=
  let t := new_events (s_w st) w' in Sender w' (s_D st ++ sent_of t) (s_k st + spawned t - used).

Fixpoint drop_one (m : nat) (D : list nat) : list nat :=
  match D with [] => [] | n :: D => if Nat.eqb n m then D else n :: drop_one m D end.

(** The bytes the step takes, [None] if it does not return. *)
Definition tx_step (E : env) (op : tx_op) (st : sender) : option (list Z * sender) :=
  match op with
  | TxWrite self buf =>
      match tcp_write E self buf (s_w st) with Ret r w' => Some (take (Z.to_nat r) buf, tx_next st w' 0) | _ => None end
  | TxAck m _ _ => match tcp_rx_conn E m (s_w st) with Ret _ w' => Some ([], tx_next st w' 0) | _ => None end
  | TxTimer now => match tcp_worker_conn E now (s_w st) with Ret _ w' => Some ([], tx_next st w' 0) | _ => None end
  | TxRetransmit self => match tcp_retransmit E self (s_w st) with Ret _ w' => Some ([], tx_next st w' 1) | _ => None end
  | TxDone m => match mbuf_free m (s_w st) with Ret _ w' => Some ([], Sender w' (drop_one m (s_D st)) (s_k st)) | _ => None end
  end.

Fixpoint tx_run (E : env) (ops : list tx_op) (st : sender) : option (list Z * sender) :=
  match ops with
  | [] => Some ([], st)
  | op :: ops =>
      match tx_step E op st with
      | Some (bs, st) => match tx_run E ops st with Some (bs', st) => Some (bs ++ bs', st) | None => None end
      | None => None
      end
  end.

(** What may happen: a write when it does not block, any acknowledgement less than 1 GB
    from what is acknowledged, completions of buffers the driver has. *)
Definition tx_op_ok (op : tx_op) (st : sender) : Prop :=
  match op with
  | TxWrite _ _ => write_blocked (conn (s_w st)) = false
  | TxAck m seq ack => ack_packet (mb m) seq ack /\ -1073741824 < s32 (ack - snd_una (pcb (conn (s_w st)))) < 1073741824
  | TxTimer _ => True
  | TxRetransmit _ => 0 < s_k st
  | TxDone m => m ∈ s_D st
  end.

Fixpoint tx_run_ok (E : env) (ops : list tx_op) (st : sender) : Prop :=
  match ops with
  | [] => True
  | op :: ops => tx_op_ok op st /\ forall bs st', tx_step E op st = Some (bs, st') -> tx_run_ok E ops st'
  end.

(** The invariant. *)
Definition sender_ok (S : Z -> Z) (ce : trans_entry) (U L P una : Z) (st : sender) : Prop :=
  0 <= s_k st /\ exists x, rest S ce U L (s_k st) x P una (s_D st) (s_w st).

Definition ok_ev (S : Z -> Z) (ce : trans_entry) (U L hi : Z) (e : event) : Prop := e = EvSpawnRetransmit \/ good_ev S ce U L hi e.

(** ** One step *)

Lemma new_events_app w w' t : trace w' = trace w ++ t -> new_events w w' = t.
Proof. intros H. unfold new_events. rewrite H. apply drop_app_length. Qed.

Lemma good_spawned S ce U L hi t : Forall (good_ev S ce U L hi) t -> spawned t = 0.
Proof. induction 1 as [|e t He _ IH]; [done|]. by destruct e. Qed.

Lemma spawned_app t1 t2 : spawned (t1 ++ t2) = spawned t1 + spawned t2.
Proof. induction t1 as [|e t1 IH]; cbn; [lia|]. destruct e; lia. Qed.

Lemma drop_one_perm m D : m ∈ D -> D ≡ₚ m :: drop_one m D.
Proof.
  induction D as [|n D IH]; [by intros ?%elem_of_nil|]. cbn. destruct (Nat.eqb_spec n m) as [->|Hn]; [done|]. intros [->|Hm]%elem_of_cons; [done|].
  rewrite Permutation_swap. by rewrite <- IH.
Qed.

(** What a step from [st] to [st'] may do. *)
Definition tx_goes (S : Z -> Z) (ce : trans_entry) (U L P una : Z) (st st' : sender) : Prop :=
  sender_ok S ce U L P una st' /\
  (exists t, trace (s_w st') = trace (s_w st) ++ t /\ Forall (ok_ev S ce U L P) t) /\
  (forall m, m ∈ s_D st -> m ∈ s_D st' -> frozen <$> heap (s_w st') !! m = frozen <$> heap (s_w st) !! m).

Lemma after_goes S ce U L P una st w' used :
  after S ce U L (s_k st - used) P una (s_D st) (s_w st) w' -> 0 <= s_k st - used -> tx_goes S ce U L P una st (tx_next st w' used).
Proof.
  intros (x & t & Hr & [E1 E2 E3]) Hk. assert (Hn := new_events_app _ _ _ E1). assert (Hs := good_spawned _ _ _ _ _ _ E2). split_and!.
  - split; cbn; rewrite Hn, Hs; [lia|]. exists x. by replace (s_k st + 0 - used) with (s_k st - used) by lia.
  - exists t. split; [done|]. eapply list.Forall_impl; [exact E2|]. by right.
  - intros m Hm _. by apply E3.
Qed.

Lemma goes_ext S S' ce U L P una st st' : (forall p, L <= p < P -> S p = S' p) -> tx_goes S ce U L P una st st' -> tx_goes S' ce U L P una st st'.
Proof.
  intros H ((Hk & x & Hr) & (t & Ht & Hf) & Hs). split_and!; auto.
  - split; [done|]. exists x. by eapply core_ext.
  - exists t. split; [done|]. eapply list.Forall_impl; [exact Hf|]. intros e [->|He]; [by left|right]. by eapply good_ev_ext.
Qed.

Lemma near_ack una ack : in_u32 ack -> exists y, y = una + s32 (ack - u32 una) /\ u32 y = ack.
Proof.
  intros Ha. eexists. split; [reflexivity|]. unfold s32, u32, in_u32, M32 in *. destruct (Z.ltb_spec ((ack - una mod 4294967296) mod 4294967296) 2147483648);
    Z.to_euclidean_division_equations; lia.
Qed.

Lemma tx_step_ok E S ce U L P una op st :
  env_ok E -> sender_ok S ce U L P una st -> tx_op_ok op st ->
  exists bs st' una', tx_step E op st = Some (bs, st') /\ una <= una' /\
    tx_goes (extend S P bs) ce U L (P + Z.of_nat (length bs)) una' st st'.
Proof.
  intros HE (Hk & x & Hr) Hop. assert (Hext : forall una st', tx_goes S ce U L P una st st' -> tx_goes (extend S P []) ce U L (P + Z.of_nat (length (@nil Z))) una st st').
  { intros una' st' Hg. cbn [length]. rewrite Z.add_0_r. eapply goes_ext; [|exact Hg]. intros p Hp. by rewrite extend_old by lia. }
  destruct op as [self buf|m seq ack|now|self|m]; cbn [tx_step tx_op_ok] in *.
  - assert (Hr1 : rest (extend S P buf) ce U L (s_k st) x P una (s_D st) (s_w st)) by (eapply core_ext; [|exact Hr]; intros p Hp; by rewrite extend_old by lia).
    destruct (write_wp E HE (extend S P buf) ce U L (s_k st) x P una (s_D st) (s_w st) self buf Hr1 Hop) as (r & w' & Ew & Hrl & Haf); [by rewrite slice_extend|].
    rewrite Ew. eexists _, _, una. split; [done|]. split; [done|]. rewrite length_take. replace (Z.of_nat (Z.to_nat r `min` length buf)) with (Z.max 0 r) by lia.
    eapply (goes_ext (extend S P buf)); [intros p Hp; rewrite extend_take by lia; done|]. apply after_goes; [by rewrite Z.sub_0_r|lia].
  - destruct Hop as [Hp Hn]. assert (Hu : snd_una (pcb (conn (s_w st))) = u32 una) by apply Hr. rewrite Hu in Hn.
    assert (Hack : in_u32 ack) by (destruct Hp as (win & fl & Hp & _); apply Hp). destruct (near_ack una ack Hack) as (y & Hy & Hya). rewrite <- Hya in Hp.
    destruct (rx_ack_wp E HE S ce U L (s_k st) x P una (s_D st) (s_w st) m seq y Hr Hp ltac:(lia)) as (u & w' & Ew & Haf). rewrite Ew. eexists _, _, _. split; [done|].
    split; [|apply Hext, after_goes; [rewrite Z.sub_0_r; exact Haf|lia]]. destruct (is_acceptable _ _ _); [|lia]. unfold new_una. bdestruct; cbn; lia.
  - destruct (snd_worker_wp E HE S ce U L (s_k st) x P una (s_D st) (s_w st) now Hr Hk) as (u & w' & Ew & b & x' & t & w1 & Hr1 & [E1 E2 E3] & Hw'). rewrite Ew.
    eexists _, _, una. split; [done|]. split; [lia|]. apply Hext. assert (Hs := good_spawned _ _ _ _ _ _ E2).
    set (t' := t ++ if b then [EvSpawnRetransmit] else []). assert (Et : trace w' = trace (s_w st) ++ t') by (rewrite Hw'; unfold t'; destruct b; cbn; rewrite E1, ?app_nil_r, <- ?app_assoc; done).
    assert (Hf : spawned t' = Z.b2z b /\ sent_of t' = sent_of t /\ Forall (ok_ev S ce U L P) t').
    { unfold t'. rewrite spawned_app, sent_of_app, Hs, Forall_app. split_and!; [by destruct b|destruct b; apply app_nil_r| |destruct b; by repeat constructor].
      eapply list.Forall_impl; [exact E2|]. by right. }
    destruct Hf as (F1 & F2 & F3). split_and!.
    + split; cbn; rewrite (new_events_app _ _ _ Et), F1, ?F2; [destruct b; cbn; lia|]. exists x'. rewrite Z.sub_0_r. subst w'. destruct b; [|done]. eapply core_cv; [..|exact Hr1]; done.
    + exists t'. done.
    + intros i Hi _. subst w'. rewrite <- E3 by done. by destruct b.
  - replace (s_k st) with (s_k st - 1 + 1) in Hr by lia.
    destruct (retransmit_wp E HE S ce U L (s_k st - 1) x P una (s_D st) (s_w st) self Hr ltac:(lia)) as (u & w' & Ew & Haf). rewrite Ew.
    eexists _, _, una. split; [done|]. split; [lia|]. apply Hext, after_goes; [done|lia].
  - destruct (done_wp S ce U L (s_k st) x P una (s_D st) (drop_one m (s_D st)) m (s_w st) Hr (drop_one_perm _ _ Hop)) as (u & w' & Ew & t & Hr1 & [E1 E2 E3] & Hs). rewrite Ew.
    eexists _, _, una. split; [done|]. split; [lia|]. apply Hext. split_and!; cbn.
    + split; [done|]. by exists x.
    + exists t. split; [done|]. eapply list.Forall_impl; [exact E2|]. by right.
    + intros i _ Hi. by apply E3.
Qed.

(** ** Runs *)

Lemma ok_ev_mono S S' ce U L hi hi' e :
  hi <= hi' -> (forall p, L <= p < hi -> S p = S' p) -> ok_ev S ce U L hi e -> ok_ev S' ce U L hi' e.
Proof. intros Hh H [->|He]; [by left|right]. eapply good_ev_mono; [exact Hh|]. by eapply good_ev_ext. Qed.

Lemma tx_run_goes E ce U L ops : env_ok E -> forall S P una st,
  sender_ok S ce U L P una st -> tx_run_ok E ops st ->
  exists bs st' una' t, tx_run E ops st = Some (bs, st') /\ una <= una' /\
    sender_ok (extend S P bs) ce U L (P + Z.of_nat (length bs)) una' st' /\
    trace (s_w st') = trace (s_w st) ++ t /\ Forall (ok_ev (extend S P bs) ce U L (P + Z.of_nat (length bs))) t.
Proof.
  intros HE. induction ops as [|op ops IH]; intros S P una st Hst Hok; cbn [tx_run tx_run_ok] in *.
  - exists [], st, una, []. cbn [length]. rewrite Z.add_0_r, app_nil_r. split_and!; auto; [lia|]. destruct Hst as (Hk & x & Hr). split; [done|]. exists x.
    eapply core_ext; [|exact Hr]. intros p Hp. by rewrite extend_old by lia.
  - destruct Hok as [Hop Hok]. destruct (tx_step_ok E S ce U L P una op st HE Hst Hop) as (bs1 & st1 & una1 & Es & Hu1 & Hs1 & (t1 & Ht1 & Hf1) & _). rewrite Es.
    destruct (IH _ _ _ _ Hs1 (Hok _ _ Es)) as (bs2 & st2 & una2 & t2 & Er & Hu2 & (Hk2 & x2 & Hr2) & Ht2 & Hf2). rewrite Er.
    assert (Hl : P + Z.of_nat (length bs1) + Z.of_nat (length bs2) = P + Z.of_nat (length (bs1 ++ bs2))) by (rewrite length_app; lia). rewrite Hl in *.
    assert (Hx := extend_app S P bs1 bs2). exists (bs1 ++ bs2), st2, una2, (t1 ++ t2). split_and!; auto; [lia| | |].
    + split; [done|]. exists x2. eapply core_ext; [|exact Hr2]. auto.
    + by rewrite Ht2, Ht1, app_assoc.
    + apply Forall_app. split; eapply list.Forall_impl; [exact Hf1| |exact Hf2|]; intros e; apply ok_ev_mono; try (rewrite length_app; lia); try lia; auto.
      intros p Hp. rewrite <- Hx. by rewrite (extend_old (extend S P bs1)) by lia.
Qed.

(** Where a byte that is not acknowledged is kept. *)
Definition kept (p : Z) (v : Z) (w : world) : Prop :=
  exists m s a b i, (m ∈ txq (conn w) \/ tx_pending (conn w) = Some m) /\ heap w !! m = Some s /\ seg_seq s = u32 a /\ seg_end s = u32 b /\ a <= p < b /\
    head (mb s) !! (i + Z.to_nat (p - a))%nat = Some v.

Lemma lookup_slice S a b p : a <= p < b -> slice S a b !! Z.to_nat (p - a) = Some (S p).
Proof. intros H. unfold slice. rewrite list_lookup_fmap, (proj2 (lookup_seqZ a _ _ p)) by lia. done. Qed.

Lemma lookup_window {A} (l : list A) i n j v : take n (drop i l) !! j = Some v -> l !! (i + j)%nat = Some v.
Proof. intros H. apply lookup_take_Some in H as [H _]. by rewrite lookup_drop in H. Qed.

Lemma sender_keeps S ce U L P una st p : sender_ok S ce U L P una st -> una <= p < P -> kept p (S p) (s_w st).
Proof.
  intros (_ & x & Hr) Hp. unfold rest in Hr. destruct Hr as [_ _ _ _ (lo & Hc & Hlo & _) H6 _ _ _]. destruct (Z_lt_le_dec p x) as [Hx|Hx].
  - destruct (chain_covers _ _ _ _ _ _ _ p Hc) as (m & s & a & b & Hm & Hs & Hg & Hab); [lia|lia|]. destruct Hg as [[] ? ? ? _ _].
    exists m, s, a, b, (Z.to_nat (transport_off (mb s) + 20)). split_and!; auto; try lia. apply (lookup_window _ _ (Z.to_nat (b - a))). fold (region (mb s) (transport_off (mb s) + 20) (b - a)).
    rewrite st_text. by apply lookup_slice.
  - destruct (tx_pending (conn (s_w st))) as [m|] eqn:Em; [|lia]. destruct H6 as (_ & _ & s & Hs & _ & [[] _ _ _ _]).
    exists m, s, x, P, (Z.to_nat (data (mb s))). split_and!; auto; try lia. apply (lookup_window _ _ (Z.to_nat (len (mb s)))). fold (payload (mb s)). rewrite rd_text. apply lookup_slice. lia.
Qed.

(** ** Start *)

(** An established connection that sent nothing yet. *)
Record fresh_sender (ce : trans_entry) (U P : Z) (w : world) : Prop := {
  fs_ctl : c_lock (conn w) = false /\ state (pcb (conn w)) = TCP_STATE_ESTABLISHED /\ tx_exclusive (conn w) = false /\ tx_closed (conn w) = false /\ 0 < c_ref (conn w);
  fs_ends : c_e (conn w) = ce /\ rcv_nxt (pcb (conn w)) = U;
  fs_seq : snd_nxt (pcb (conn w)) = u32 P /\ snd_una (pcb (conn w)) = u32 P /\ 0 <= snd_wnd (pcb (conn w)) <= 65535;
  fs_tx : txq (conn w) = [] /\ tx_pending (conn w) = None;
  fs_heap : heap w = ∅ /\ trace w = [];
}.

Lemma fresh_sender_ok S ce U P w : fresh_sender ce U P w -> sender_ok S ce U P P P (Sender w [] 0).
Proof.
  intros [H1 H2 (H3 & H4 & H5) [H6 H7] [H8 _]]. split; [done|]. exists P. unfold rest. cbn. rewrite H7. split; auto; rewrite ?H6, ?H8.
  - split_and!; auto; lia.
  - exists P. cbn. change TCP_MSS with 1460. split_and!; auto; lia.
  - constructor.
  - by intros m ?%elem_of_nil.
  - intros m [s Hs]. by rewrite lookup_empty in Hs.
Qed.

(** ** The receiving end *)

(** A segment without text changes nothing for the receiver. *)
Lemma rx_empty_slow_wp E (HE : env_ok E) S F U R N m win w :
  J S F U true R N w -> seg_end m = seg_seq m -> has (flags m) TCP_ACK = true -> has (flags m) TCP_RST = false -> has (flags m) TCP_SYN = false -> has (flags m) TCP_FIN = false ->
  let u := snd_una (pcb (conn w)) in
  wp (__tcp_rx_conn E m u u win) w (fun _ w' => J S F U false R N w').
Proof.
  intros HJ Hse Hack Hrst Hsyn Hfin u. assert (Hq := J_q _ _ _ _ _ _ _ HJ). unfold __tcp_rx_conn. wstep.
  eapply (wp_mono _ _ (fun k w' => w_acked k = [] /\ w_retransmit k = None /\ J S F U true R N w')).
  2: { cbv beta. intros k w' (Ha & Hr & HJ'). by apply (rx_finish_wp E HE S F U k m R N). }
  unfold rx_slow. rewrite Hse, Z.sub_diag. change (u32 0) with 0. rewrite Hfin, Hack, Hrst, Hsyn. wstep. rewrite (qu_state _ _ _ Hq).
  change (st_eq TCP_STATE_ESTABLISHED TCP_STATE_CLOSED) with false. change (st_eq TCP_STATE_ESTABLISHED TCP_STATE_SYN_SENT) with false.
  change (st_eq TCP_STATE_ESTABLISHED TCP_STATE_SYN_RECEIVED) with false. cbv iota zeta. wstep; intros _; [by wstep|]. cbn [negb]. cbv iota. unfold rx_synchronized.
  wstep. exists None, w. split.
  { unfold rx_dup_ack, mbind, M_bind, getc. rewrite <- (qu_una _ _ _ Hq), !Z.eqb_refl. cbn [negb andb]. done. }
  wstep. fold u. assert (Hu : wraps_lte u u = true) by (unfold wraps_lte; rewrite Z.sub_diag; done). rewrite Hu. cbn [andb negb]. cbv iota zeta. wstep.
  eapply (wp_mono _ _ (fun q w' => J S F U true R N w' /\ q = [])).
  { rewrite Z.eqb_refl. cbn [negb when]. wstep. wstep. wstep. wstep. set (w1 := set_conn _ w). assert (H1 : J S F U true R N w1) by (eapply J_view; [|exact HJ]; done).
    eapply wp_mono; [by apply (conn_ack_wp S F U R N)|]. cbv beta. intros q w2 [Hv ->]. split; [|done]. by eapply J_view. }
  cbv beta. intros q w1 [HJ1 ->]. wstep. eapply (wp_mono _ _ (fun _ w' => J S F U true R N w')).
  { unfold rx_send_window. wstep. wstep; intros _; [|done]. wstep. wstep. wstep; intros _; [wstep|]; (eapply J_view; [|exact HJ1]; done). }
  cbv beta. intros _ w2 HJ2. wstep. wstep. eapply (wp_mono _ _ (fun _ w' => J S F U true R N w')).
  { wstep; intros _; [|by wstep]. unfold waitq_release_start_tx. wstep. wstep. wstep. wstep. eapply J_view; [|exact HJ2]; done. }
  cbv beta. intros ths w3 HJ3. wstep. unfold rx_fin_acked. wstep. rewrite (qu_state _ _ _ (J_q _ _ _ _ _ _ _ HJ3)). wstep. cbv iota. wstep. unfold rx_step_text. wstep.
  cbn [Z.ltb Z.compare andb]. wstep. cbv iota. wstep. unfold rx_step_fin. wstep. rewrite Hfin. cbn [negb]. wstep. wstep. done.
Qed.

Lemma rx_empty_wp E (HE : env_ok E) S F U R N m seq win fl w :
  J S F U false R N w -> tcp_packet (mb m) seq U win fl [] -> has fl TCP_ACK = true -> has fl TCP_RST = false -> has fl TCP_SYN = false -> has fl TCP_FIN = false ->
  wp (tcp_rx_conn E m) w (fun _ w' => J S F U false R N w').
Proof.
  intros HJ Hp Hack Hrst Hsyn Hfin. assert (Hq := J_q _ _ _ _ _ _ _ HJ). destruct (rx_parse_ok _ _ _ _ _ _ Hp) as (b' & Ep & _ & _). destruct (tp_fields _ _ _ _ _ _ Hp) as (Hseq & _ & _).
  unfold tcp_rx_conn. wstep. rewrite (qu_U _ _ _ Hq). wstep. unfold microtime. wstep. wstep. wstep. wstep. wstep. eapply wp_lift; [exact Ep|]. cbv iota beta.
  set (w1 := set_n_time _ w). assert (HJ1 : J S F U false R N w1) by (eapply J_view; [|exact HJ]; done). unfold rx_dispatch. wstep.
  eapply wp_mono; [by apply (lock_wp S F U R N)|]. cbv beta. intros _ w2 [HJ2 Hc2]. wstep. cbn [f_seq f_ack f_win f_flags f_len length]. set (f := TcpFields _ _ _ _ _).
  assert (Hslow : rx_is_slow (conn w2) f U = true) by (unfold rx_is_slow, f; cbn [f_len f_flags f_ack f_seq]; by rewrite orb_true_r). rewrite Hslow.
  change (f_ack f) with U. assert (Hu : snd_una (pcb (conn w2)) = U) by (rewrite (qu_una _ _ _ (J_q _ _ _ _ _ _ _ HJ2)); apply (J_q _ _ _ _ _ _ _ HJ2)).
  set (m1 := set_flags _ _). assert (Hs := rx_empty_slow_wp E HE S F U R N m1 (f_win f) w2 HJ2). cbv zeta in Hs. rewrite Hu in Hs. apply Hs; auto.
  cbn. by rewrite Z.add_0_r, u32_id.
Qed.

(** A packet of the trace [t] arrives, behind an IP header with its length. *)
Definition arrives (t : list event) (b : mbuf) : Prop :=
  mbuf_ok b /\ data b <= USHRT_MAX /\ read16 b (network_off b + 2) = Ok (20 + len b) /\ exists i daddr ret, EvTx i daddr (payload b) ret ∈ t.

(** What may happen at the receiver: any packet of the trace arrives, in any order, any
    number of times or not at all; reads do not block. *)
Fixpoint net_run_ok (E : env) (t : list event) (ops : list rx_op) (w : world) : Prop :=
  match ops with
  | [] => True
  | Deliver m _ _ :: ops => arrives t (mb m) /\ forall u w', tcp_rx_conn E m w = Ret u w' -> net_run_ok E t ops w'
  | Read self want :: ops => 0 < want /\ rxq (conn w) <> [] /\ forall n bs w', tcp_read E self want w = Ret (n, bs) w' -> net_run_ok E t ops w'
  | Worker now :: ops => forall u w', tcp_worker_conn E now w = Ret u w' -> net_run_ok E t ops w'
  end.

Lemma arrives_packet S ce U L hi t b :
  in_u32 U -> arrives t b -> Forall (ok_ev S ce U L hi) t ->
  exists a e win fl, L <= a <= e /\ e <= hi /\ tcp_packet b (u32 a) U win fl (slice S a e) /\ data_flags fl.
Proof.
  intros HU (Hb & Ho & Hip & i & d & ret & Hin) Hf. rewrite list.Forall_forall in Hf. destruct (Hf _ Hin) as [|(_ & _ & a & e & [Hr Hs (x2 & fl & win & sum & urp & Hfl & Hw & Hu & Hp)])]; [done|].
  exists a, e, win, fl. split_and!; auto; try lia. change TCP_MSS with 1460 in Hs.
  assert (Hl := length_payload b Hb). assert (X := length_slice S a e ltac:(lia)). rewrite Hp, length_app, length_tcphdr_bytes in Hl by done.
  split; auto; [|lia|].
  - split_and!; auto. apply u32_range.
  - assert (Hx := Z.mod_pos_bound x2 16 ltac:(done)).
    exists (hton16 (port (laddr ce)) ++ hton16 (port (raddr ce))), 5, (x2 mod 16), ([sum mod 256; sum / 256] ++ urp), [].
    split_and!; [reflexivity|by rewrite length_app, Hu|lia|lia|lia|lia|reflexivity|]. rewrite Hp. done.
Qed.

Lemma net_run_delivers E (HE : env_ok E) S ce U L F t ops : in_u32 U -> Forall (ok_ev S ce U L F) t -> F < L + 536870912 -> forall R N w,
  L <= R -> J S F U false R N w -> net_run_ok E t ops w ->
  exists bs w' N', rx_run E ops w = Some (bs, w') /\ bs = slice S R (R + Z.of_nat (length bs)) /\ J S F U false (R + Z.of_nat (length bs)) N' w'.
Proof.
  intros HU Ht HF. induction ops as [|[m a e|self want|now] ops IH]; intros R N w HL HJ Hok; cbn [rx_run net_run_ok] in *.
  - exists [], w, N. rewrite Z.add_0_r. split_and!; auto. by rewrite slice_nil by lia.
  - destruct Hok as [Ha Hok]. destruct (arrives_packet S ce U L F t (mb m) HU Ha Ht) as (x & y & win & fl & Hxy & Hy & Hp & Hfl).
    assert (Hflags : has fl TCP_ACK = true /\ has fl TCP_RST = false /\ has fl TCP_SYN = false /\ has fl TCP_FIN = false) by (by destruct Hfl as [-> | ->]).
    destruct Hflags as (F1 & F2 & F3 & F4). assert (HRF := ri_RF _ _ _ _ _ (J_i _ _ _ _ _ _ _ HJ)).
    assert (Hx : wp (tcp_rx_conn E m) w (fun _ w' => exists N', J S F U false R N' w')).
    { destruct (decide (x = y)) as [->|Hne].
      - rewrite slice_nil in Hp by lia. eapply wp_mono; [by eapply rx_empty_wp|]. cbv beta. intros _ w' H. by exists N.
      - eapply wp_mono; [apply (rx_conn_wp E HE S F U R N m x y w HJ)|].
        + split; [|lia]. exists win, fl. split_and!; auto.
        + cbv beta. intros _ w' (N' & H & _). by exists N'. }
    destruct Hx as (u & w1 & Ew & N1 & HJ1). rewrite Ew. apply (IH R N1 w1 HL HJ1). by eapply Hok.
  - destruct Hok as (Hw & Hne & Hok). destruct (tcp_read_wp E HE S F U R N self want w HJ Hne Hw) as ([n bs1] & w1 & Ew & n' & Heq & H1 & Hn). rewrite Ew.
    injection Heq as -> ->. assert (Hi := ri_range _ _ _ _ _ (J_i _ _ _ _ _ _ _ HJ)). assert (HF' := ri_RF _ _ _ _ _ (J_i _ _ _ _ _ _ _ HJ)).
    destruct (IH (R + n') N w1 ltac:(lia) H1 (Hok _ _ _ Ew)) as (bs & w' & N' & Er & Hbs & H').
    rewrite Er. exists (slice S R (R + n') ++ bs), w', N'. rewrite length_app, Nat2Z.inj_add, length_slice by lia.
    replace (R + (R + n' - R + Z.of_nat (length bs))) with (R + n' + Z.of_nat (length bs)) by lia.
    split_and!; auto. rewrite Hbs at 1. by rewrite slice_app by lia.
  - destruct (worker_wp E HE S F U R N now w HJ) as (u & w1 & Ew & H1). rewrite Ew. apply (IH R N w1 HL H1). by eapply Hok.
Qed.

(** An established connection that received nothing yet. *)
Record fresh_receiver (U P : Z) (w : world) : Prop := {
  fr_quiet : quiet U false (conn w);
  fr_seq : rcv_nxt (pcb (conn w)) = u32 P /\ rcv_wnd (pcb (conn w)) = TCP_WIN;
  fr_rx : rxq (conn w) = [] /\ rxq_ooo (conn w) = [] /\ rxq_ooo_len (conn w) = 0;
}.

Lemma fresh_receiver_J S F U P w : fresh_receiver U P w -> P <= F -> J S F U false P P w.
Proof.
  intros [Hq [Hn Hw] (H1 & H2 & H3)] HF. split; [done| |by rewrite H1, H2].
  split; rewrite ?Hw, ?H1, ?H2, ?H3; auto; try done; try lia.
  split; [constructor|]. rewrite slice_nil by lia. done.
Qed.

(** ** Properties *)

(** C2.  The sender: an established connection that sent everything before position
    [P] of its stream and nothing of what follows does any sequence of writes, takes any
    acknowledgements (also old ones, wrong ones, duplicates that start a fast
    retransmission), timers, retransmissions and completions of the driver, with
    allocations and transmissions that may fail.  Every operation returns; a write
    reports how many bytes it took, and every packet that is put on the wire, the first
    time or again, is a TCP header with the sequence number of a position of the stream
    of the bytes that were taken, and the bytes of the stream from there on, at most a
    segment of them and never beyond what was written. *)
Theorem tcp_sender_stream E ce U P S w ops :
  env_ok E -> fresh_sender ce U P w -> tx_run_ok E ops (Sender w [] 0) ->
  exists bs st' una', tx_run E ops (Sender w [] 0) = Some (bs, st') /\ P <= una' <= P + Z.of_nat (length bs) /\
    sender_ok (extend S P bs) ce U P (P + Z.of_nat (length bs)) una' st' /\
    forall i daddr pkt ret, EvTx i daddr pkt ret ∈ trace (s_w st') ->
      daddr = Transport.ip (raddr ce) /\ exists a b, good_packet (extend S P bs) ce U P (P + Z.of_nat (length bs)) pkt a b.
Proof.
  intros HE Hf Hok. destruct (tx_run_goes E ce U P ops HE S P P _ (fresh_sender_ok S ce U P w Hf) Hok) as (bs & st' & una' & t & Er & Hu & Hs & Ht & Hev).
  exists bs, st', una'. destruct (fs_heap _ _ _ _ Hf) as [_ Htr]. cbn in Ht. rewrite Htr in Ht. split_and!; auto.
  - destruct Hs as (_ & x & Hr). assert (Hx := core_x _ _ _ _ _ _ _ _ _ _ _ _ _ _ Hr). lia.
  - intros i d pkt ret Hin. rewrite Ht in Hin. rewrite list.Forall_forall in Hev. destruct (Hev _ Hin) as [|(? & _ & ?)]; done.
Qed.

(** C4.  Nothing that may have to be sent again is lost: after any such run, each byte
    of the stream that was taken and is not acknowledged is in a buffer of the transmit
    queue, or of the packet that is still filled, under the sequence numbers that contain
    it, with its value. *)
Theorem tcp_unacked_kept E ce U P S w ops :
  env_ok E -> fresh_sender ce U P w -> tx_run_ok E ops (Sender w [] 0) ->
  exists bs st' una', tx_run E ops (Sender w [] 0) = Some (bs, st') /\ P <= una' <= P + Z.of_nat (length bs) /\ snd_una (pcb (conn (s_w st'))) = u32 una' /\
    forall p, una' <= p < P + Z.of_nat (length bs) -> kept p (extend S P bs p) (s_w st').
Proof.
  intros HE Hf Hok. destruct (tx_run_goes E ce U P ops HE S P P _ (fresh_sender_ok S ce U P w Hf) Hok) as (bs & st' & una' & t & Er & Hu & Hs & Ht & Hev).
  exists bs, st', una'. assert (Hs' := Hs). destruct Hs' as (_ & x & Hr). assert (Hx := core_x _ _ _ _ _ _ _ _ _ _ _ _ _ _ Hr).
  split_and!; auto; [lia|apply Hr|]. intros p Hp. by eapply sender_keeps.
Qed.

(** C5.  The network card reads buffers after [net_tx_ip] returned: no operation changes
    a buffer, its bytes, its window, its sequence numbers, or frees it, while the driver
    has it. *)
Theorem tcp_driver_buffers_frozen E S ce U L P una op st :
  env_ok E -> sender_ok S ce U L P una st -> tx_op_ok op st ->
  exists bs st', tx_step E op st = Some (bs, st') /\
    forall m, m ∈ s_D st -> m ∈ s_D st' -> is_Some (heap (s_w st') !! m) /\ frozen <$> heap (s_w st') !! m = frozen <$> heap (s_w st) !! m.
Proof.
  intros HE Hs Hop. destruct (tx_step_ok E S ce U L P una op st HE Hs Hop) as (bs & st' & una' & Es & _ & Hs' & _ & Hst). exists bs, st'. split; [done|].
  intros m Hm Hm'. split; [|by apply Hst]. destruct Hs' as (_ & x & [_ _ _ _ (lo & Hc & _) _ _ H8 _]). destruct (decide (m ∈ txq (conn (s_w st')))) as [Hq|Hq].
  - destruct (chain_elem _ _ _ _ _ _ _ _ Hc Hq) as (s & _ & _ & -> & _). done.
  - destruct (H8 m Hm' Hq) as (s & -> & _). done.
Qed.

(** C1.  From one end to the other: one side writes on a fresh connection, the other
    gets packets that were put on the wire, in any order, any number of times or not at
    all, while both sides acknowledge, retransmit and read as they like.  All operations
    return, and what the reads return is the beginning of what the writes took: nothing
    is missing, repeated, reordered or made up.  (For streams shorter than 512 MB, so that
    no packet is older than half of the sequence space that the receiver tells apart.) *)
Theorem tcp_end_to_end Ea Eb ce U P wa wb tops rops :
  env_ok Ea -> env_ok Eb -> in_u32 U -> fresh_sender ce U P wa -> fresh_receiver U P wb -> tx_run_ok Ea tops (Sender wa [] 0) ->
  exists bs st', tx_run Ea tops (Sender wa [] 0) = Some (bs, st') /\
    (Z.of_nat (length bs) < 536870912 -> net_run_ok Eb (trace (s_w st')) rops wb ->
     exists rd wb', rx_run Eb rops wb = Some (rd, wb') /\ rd = take (length rd) bs).
Proof.
  intros HEa HEb HU Hfs Hfr Hok.
  destruct (tx_run_goes Ea ce U P tops HEa (fun _ => 0) P P _ (fresh_sender_ok _ ce U P wa Hfs) Hok) as (bs & st' & una' & t & Er & _ & _ & Ht & Hev).
  exists bs, st'. split; [done|]. intros Hlen Hnet. destruct (fs_heap _ _ _ _ Hfs) as [_ Htr]. cbn in Ht. rewrite Htr in Ht. cbn in Ht. rewrite Ht in Hnet.
  set (S := extend (fun _ => 0) P bs) in *. set (F := P + Z.of_nat (length bs)) in *.
  destruct (net_run_delivers Eb HEb S ce U P F t rops HU Hev ltac:(lia) P P wb ltac:(lia) (fresh_receiver_J S F U P wb Hfr ltac:(lia)) Hnet) as (rd & wb' & N' & Err & Hrd & HJ).
  exists rd, wb'. split; [done|]. assert (HF := ri_RF _ _ _ _ _ (J_i _ _ _ _ _ _ _ HJ)).
  rewrite <- (slice_extend (fun _ => 0) P bs). fold S F. rewrite Hrd at 1. replace (length rd) with (Z.to_nat (Z.of_nat (length rd))) at 2 by lia. rewrite take_slice by lia. done.
Qed.

(** ** Witnesses *)

(** The second transmission fails, time goes fast. *)
Definition snd_env : env :=
  Env (fun n => 1000000 * Z.of_nat n) (fun _ => Some (replicate 1920 0)) (fun n => if Nat.eqb n 1 then NoMem else Found [2; 0; 0; 0; 0; 2]) Z.of_nat
    (NetCfg 167772161 4294967040 167772414 [2; 0; 0; 0; 0; 1]) (fun _ x => x) 0.

Lemma snd_env_ok : env_ok snd_env.
Proof. split; [done| |by intros ? ? [= <-]]. intros n d. cbn. destruct (Nat.eqb n 1); [done|]. by intros [= <-]. Qed.

(** The two ends, at the end of the sequence space. *)
Definition end_a : world :=
  World (Conn wit_entry (Pcb TCP_STATE_ESTABLISHED 4294967290 4294967290 4096 0 700 4294967290 4294967289 700 TCP_WIN 0 699)
    false 1 0 false false [] 0 [] [] false false [] 0 0 None [] false 0 (M64 - 1) false false 0 0 0) ∅ (Table ∅ 0) [0%nat] [] 1 0 0 0.
Definition end_b : world :=
  World (Conn wit_entry (Pcb TCP_STATE_ESTABLISHED 700 700 4096 0 4294967289 700 699 4294967290 TCP_WIN 0 4294967289)
    false 1 0 false false [] 0 [] [] false false [] 0 0 None [] false 0 (M64 - 1) false false 0 0 0) ∅ (Table ∅ 0) [0%nat] [] 1 0 0 0.

Lemma end_a_fresh : fresh_sender wit_entry 700 4294967290 end_a.
Proof. by split. Qed.

Lemma end_b_fresh : fresh_receiver 700 4294967290 end_b.
Proof. split; [by split|done|done]. Qed.

(** A packet behind an IP header. *)
Definition on_wire (id : nat) (p : list Z) : seg :=
  let n := Z.of_nat (length p) in
  Seg id (Mbuf ([69; 0] ++ hton16 (20 + n) ++ replicate 16 0 ++ p) 20 (20 + n) n 0 0 0 0 0) 0 0 0 0 0 rel_sfree.

Definition ack_bytes (ack : Z) : list Z := hton16 9000 ++ hton16 80 ++ hton32 700 ++ hton32 ack ++ [80; TCP_ACK] ++ hton16 4096 ++ [0; 0; 0; 0].

(** Two writes, the second of which cannot be sent; the first byte is acknowledged, the
    driver gives the first packet back, the timer starts a retransmission. *)
Definition snd_ops : list tx_op :=
  [TxWrite 7 [1; 2; 3; 4; 5; 6; 7; 8]; TxWrite 7 [9; 10]; TxAck (on_wire 90 (ack_bytes 4294967291)) 700 4294967291; TxDone 1; TxTimer 9000000; TxRetransmit 8].

Ltac ack_ok :=
  eexists 4096, TCP_ACK; split_and!; [|reflexivity..];
  split; [split; by vm_compute|by vm_compute|split_and!; by vm_compute|by vm_compute|by vm_compute|];
  eexists (hton16 9000 ++ hton16 80), 5, 0, [0; 0; 0; 0], [];
  split_and!; [reflexivity|reflexivity|lia|lia|lia|lia|reflexivity|vm_compute; reflexivity].

Ltac next_step := let H := fresh in intros ? ? H; vm_compute in H; injection H as <- <-.

Lemma snd_run_ok : tx_run_ok snd_env snd_ops (Sender end_a [] 0).
Proof.
  unfold snd_ops. cbn [tx_run_ok tx_op_ok]. split; [by vm_compute|]. next_step. split; [by vm_compute|]. next_step. split; [split; [ack_ok|by vm_compute]|]. next_step.
  split; [by left|]. next_step. split; [done|]. next_step. split; [done|]. next_step. done.
Qed.

Definition snd_result : list Z * sender := match tx_run snd_env snd_ops (Sender end_a [] 0) with Some r => r | None => ([], Sender end_a [] 0) end.

(** The text of the packets of a trace, with their sequence numbers. *)
Definition seq_of (pkt : list Z) : Z := be32 (nth 4 pkt 0) (nth 5 pkt 0) (nth 6 pkt 0) (nth 7 pkt 0).
Fixpoint texts (t : list event) : list (Z * list Z) :=
  match t with [] => [] | EvTx _ _ pkt _ :: t => (seq_of pkt, drop 20 pkt) :: texts t | _ :: t => texts t end.

Lemma tcp_sender_stream_witness : exists bs st', tx_run snd_env snd_ops (Sender end_a [] 0) = Some (bs, st') /\ bs = [1; 2; 3; 4; 5; 6; 7; 8; 9; 10] /\
  texts (trace (s_w st')) = [(4294967290, [1; 2; 3; 4; 5; 6; 7; 8]); (2, [9; 10]); (4294967291, [2; 3; 4; 5; 6; 7; 8]); (2, [9; 10])].
Proof.
  destruct (tcp_sender_stream snd_env wit_entry 700 4294967290 (fun _ => 0) end_a snd_ops snd_env_ok end_a_fresh snd_run_ok) as (bs & st' & una' & Er & _).
  exists bs, st'. split; [exact Er|]. vm_compute in Er. injection Er as <- <-. by vm_compute.
Defined.

Lemma tcp_unacked_kept_witness : exists bs st', tx_run snd_env snd_ops (Sender end_a [] 0) = Some (bs, st') /\
  snd_una (pcb (conn (s_w st'))) = 4294967291 /\ kept 4294967291 2 (s_w st') /\ kept 4294967299 10 (s_w st').
Proof.
  destruct (tcp_unacked_kept snd_env wit_entry 700 4294967290 (fun _ => 0) end_a snd_ops snd_env_ok end_a_fresh snd_run_ok) as (bs & st' & una' & Er & Hu & Hs & Hk).
  exists bs, st'. split; [exact Er|]. vm_compute in Er. injection Er as <- <-. cbn [length] in *. change (snd_una _) with 4294967291 in Hs.
  assert (una' = 4294967291) as -> by (unfold u32, M32 in Hs; Z.to_euclidean_division_equations; lia).
  split; [reflexivity|]. split; [apply (Hk 4294967291)|apply (Hk 4294967299)]; lia.
Defined.

(** The second write while the driver has the first packet. *)
Lemma tcp_driver_buffers_frozen_witness : exists bs1 st1 bs2 st2, tx_step snd_env (TxWrite 7 [1; 2; 3]) (Sender end_a [] 0) = Some (bs1, st1) /\ s_D st1 = [1%nat] /\
  tx_step snd_env (TxWrite 7 [4; 5]) st1 = Some (bs2, st2) /\ frozen <$> heap (s_w st2) !! 1%nat = frozen <$> heap (s_w st1) !! 1%nat.
Proof.
  destruct (tx_step_ok snd_env (fun _ => 0) wit_entry 700 4294967290 4294967290 4294967290 (TxWrite 7 [1; 2; 3]) (Sender end_a [] 0) snd_env_ok)
    as (bs1 & st1 & una1 & E1 & _ & Hs1 & _); [apply fresh_sender_ok, end_a_fresh|by vm_compute|].
  assert (Hb : s_D st1 = [1%nat] /\ write_blocked (conn (s_w st1)) = false) by (vm_compute in E1; injection E1 as <- <-; by vm_compute). destruct Hb as [HD Hb].
  destruct (tcp_driver_buffers_frozen snd_env _ wit_entry 700 4294967290 _ _ (TxWrite 7 [4; 5]) st1 snd_env_ok Hs1 Hb) as (bs2 & st2 & E2 & Hf).
  exists bs1, st1, bs2, st2. split_and!; auto. apply Hf; [rewrite HD; by left|]. vm_compute in E1. injection E1 as <- <-. vm_compute in E2. injection E2 as <- <-. by left.
Defined.

(** The retransmitted packets come first, then the first one; then a read. *)
Definition pkt_at (i : nat) : list Z := match trace (s_w (snd_result.2)) !! i with Some (EvTx _ _ pkt _) => pkt | _ => [] end.
Definition rcv_ops : list rx_op :=
  [Deliver (on_wire 1 (pkt_at 4)) 0 0; Deliver (on_wire 2 (pkt_at 5)) 0 0; Worker 5000000; Deliver (on_wire 3 (pkt_at 0)) 0 0; Read 7 6; Deliver (on_wire 4 (pkt_at 4)) 0 0; Read 7 100].

Ltac arrive_ok i := split_and!; [split; by vm_compute|by vm_compute|by vm_compute|do 3 eexists; apply (list_elem_of_lookup_2 _ i); vm_compute; reflexivity].
Ltac next_rx := let H := fresh in intros ? ? H; vm_compute in H; injection H as _ <-.
Ltac next_read := let H := fresh in intros ? ? ? H; vm_compute in H; injection H as _ _ <-.

Lemma rcv_run_ok : net_run_ok wit_env (trace (s_w (snd_result.2))) rcv_ops end_b.
Proof.
  unfold rcv_ops. cbn [net_run_ok]. split; [arrive_ok 4%nat|]. next_rx. split; [arrive_ok 5%nat|]. next_rx. next_rx. split; [arrive_ok 0%nat|]. next_rx.
  split_and!; [done|by vm_compute|]. next_read. split; [arrive_ok 4%nat|]. next_rx. split_and!; [done|by vm_compute|]. next_read. done.
Qed.

Lemma tcp_end_to_end_witness : exists rd wb', rx_run wit_env rcv_ops end_b = Some (rd, wb') /\ rd = [1; 2; 3; 4; 5; 6; 7; 8; 9; 10].
Proof.
  destruct (tcp_end_to_end snd_env wit_env wit_entry 700 4294967290 end_a end_b snd_ops rcv_ops snd_env_ok wit_env_ok ltac:(by vm_compute) end_a_fresh end_b_fresh snd_run_ok)
    as (bs & st' & Er & Hx).
  assert (Hst : st' = snd_result.2 /\ bs = [1; 2; 3; 4; 5; 6; 7; 8; 9; 10]) by (unfold snd_result; rewrite Er; vm_compute in Er; injection Er as <- _; done). destruct Hst as [-> ->].
  destruct (Hx ltac:(done) rcv_run_ok) as (rd & wb' & Ew & Hrd). exists rd, wb'. split; [exact Ew|]. vm_compute in Ew. by injection Ew.
Defined.

(** ** Where the code falls short *)

(** The peer offers a window of 100 bytes and 200 are written: 100 are taken, but they
    stay in the packet that is filled.  Nothing is sent, so nothing will be acknowledged;
    the timers do not look at the packet, and the next write waits for a window that only
    an acknowledgement opens. *)
Definition end_small : world := set_conn (set_pcb (set_snd_wnd 100 (pcb (conn end_a))) (conn end_a)) end_a.

Theorem tcp_short_window_stalls : exists w',
  tcp_write wit_env 7 (replicate 200 5) end_small = Ret 100 w' /\ trace w' = [] /\ write_blocked (conn w') = true /\
  forall now, now < M64 - 1 -> tcp_worker_conn wit_env now w' = Ret tt w'.
Proof.
  eexists. split; [vm_compute; reflexivity|]. split; [reflexivity|]. split; [by vm_compute|]. intros now Hn.
  unfold tcp_worker_conn, mbind, M_bind, getc, when. cbn [conn next_timeout]. change (M64 - 1) with 18446744073709551615 in Hn. by rewrite (proj2 (Z.leb_gt _ _)) by lia.
Qed.

(** The second allocation fails: [tcp_writev] takes the first segment of the first vector,
    leaves the rest of it out and goes on with the second vector. *)
Definition short_env : env :=
  Env Z.of_nat (fun n => if Nat.eqb n 1 then None else Some (replicate 1920 0)) (e_arp wit_env) (e_ipid wit_env) (e_cfg wit_env) (e_crc32 wit_env) (e_seed wit_env).

Theorem tcp_writev_skips_bytes : exists w', tcp_writev short_env 7 [replicate 2000 1; [2; 3]] end_a = Ret 1462 w' /\
  concat (snd <$> texts (trace w')) = replicate 1460 1 ++ [2; 3].
Proof. eexists. split; vm_compute; reflexivity. Qed.

(** A packet of less than 20 bytes is sent at once even if the caller has more to write,
    since the length of the header is subtracted before the header is there; one that is
    full is kept. *)
Theorem tcp_short_packet_not_kept : exists w1 w2,
  tcp_tx_send wit_env (replicate 19 1) false (set_conn (set_c_lock true (conn end_a)) end_a) = Ret 19 w1 /\ tx_pending (conn w1) = None /\
  tcp_tx_send wit_env (replicate 1460 1) false (set_conn (set_c_lock true (conn end_a)) end_a) = Ret 1460 w2 /\ tx_pending (conn w2) = Some 1%nat.
Proof. eexists _, _. split_and!; vm_compute; reflexivity. Qed.
