(* ===== verification/Dlist.v ===== *)
(** * inc/base/list.h, base/list.c: intrusive linked lists

    The other files use Rocq lists for the lists of the code.  Here is why they may: over
    a memory of [next] and [prev] cells the operations on circular lists do what their
    names say on sequences, for any number of lists at once; and [list_check] returns on
    every memory and tells whether the pointers are those of a list. *)

From S2P Require Import Prelude.

(** ** Definitions *)

(** The cells of the nodes, by the address of the node; the node of a head is at the
    address of the head. *)
Record lmem := Lmem { nx : gmap Z Z; pv : gmap Z Z }.

Definition get (m : gmap Z Z) (a : Z) : res Z := match m !! a with Some v => Ok v | None => Bug end.
Definition get_next (n : Z) (m : lmem) : res Z := get (nx m) n.
Definition get_prev (n : Z) (m : lmem) : res Z := get (pv m) n.
Definition set_next (n v : Z) (m : lmem) : res lmem := _ ← get (nx m) n; Ok (Lmem (<[n := v]> (nx m)) (pv m)).
Definition set_prev (n v : Z) (m : lmem) : res lmem := _ ← get (pv m) n; Ok (Lmem (nx m) (<[n := v]> (pv m))).

(** [h->n.next = h->n.prev = &h->n]. *)
Definition list_head_init (h : Z) (m : lmem) : res lmem := m ← set_prev h h m; set_next h h m.

Definition list_add (h n : Z) (m : lmem) : res lmem :=
  x ← get_next h m; m ← set_next n x m; m ← set_prev n h m; x ← get_next h m; m ← set_prev x n m; set_next h n m.

Definition list_add_tail (h n : Z) (m : lmem) : res lmem :=
  m ← set_next n h m; x ← get_prev h m; m ← set_prev n x m; x ← get_prev h m; m ← set_next x n m; set_prev h n m.

Definition __list_add (prev n next : Z) (m : lmem) : res lmem :=
  m ← set_next prev n m; m ← set_prev n prev m; m ← set_next n next m; set_prev next n m.

Definition list_add_after (prev n : Z) (m : lmem) : res lmem := x ← get_next prev m; __list_add prev n x m.
Definition list_add_before (next n : Z) (m : lmem) : res lmem := x ← get_prev next m; __list_add x n next m.

Definition list_empty (h : Z) (m : lmem) : res bool := x ← get_next h m; Ok (x =? h).

Definition list_del (n : Z) (m : lmem) : res lmem :=
  x ← get_next n m; p ← get_prev n m; m ← set_prev x p m;
  p ← get_prev n m; x ← get_next n m; set_next p x m.

Definition list_del_from (h n : Z) (m : lmem) : res lmem := list_del n m.

(** [NULL] is 0; [off] is the offset of the node in its structure. *)
Definition list_top_ (h off : Z) (m : lmem) : res Z :=
  e ← list_empty h m; if (e : bool) then Ok 0 else x ← get_next h m; Ok (x - off).

Definition list_pop_ (h off : Z) (m : lmem) : res (Z * lmem) :=
  e ← list_empty h m;
  if (e : bool) then Ok (0, m) else x ← get_next h m; m ← list_del x m; Ok (x - off, m).

Definition list_tail_ (h off : Z) (m : lmem) : res Z :=
  e ← list_empty h m; if (e : bool) then Ok 0 else x ← get_prev h m; Ok (x - off).

Definition list_entry_or_null (h n off : Z) : Z := if n =? h then 0 else n - off.
Definition list_next (h i off : Z) (m : lmem) : res Z := x ← get_next (i + off) m; Ok (list_entry_or_null h x off).
Definition list_prev (h i off : Z) (m : lmem) : res Z := x ← get_prev (i + off) m; Ok (list_entry_or_null h x off).

Definition list_append_list (to from : Z) (m : lmem) : res lmem :=
  from_tail ← get_prev from m;
  to_tail ← get_prev to m;
  m ← set_prev to from_tail m; m ← set_next from_tail to m;
  m ← set_next to_tail from m; m ← set_prev from to_tail m;
  m ← list_del from m; list_head_init from m.

Definition list_prepend_list (to from : Z) (m : lmem) : res lmem :=
  from_tail ← get_prev from m;
  to_head ← get_next to m;
  m ← set_next to from m; m ← set_prev from to m;
  m ← set_prev to_head from_tail m; m ← set_next from_tail to_head m;
  m ← list_del from m; list_head_init from m.

(** The nodes that [list_for_each] visits from [i] on; [None] if the fuel is not enough. *)
Fixpoint for_each_loop (fuel : nat) (h i : Z) (m : lmem) : option (res (list Z)) :=
  match fuel with
  | O => None
  | S fuel =>
      if i =? h then Some (Ok [])
      else match get_next i m with
           | Ok x => match for_each_loop fuel h x m with Some (Ok l) => Some (Ok (i :: l)) | r => r end
           | Bug => Some Bug
           end
  end.

Definition list_for_each (fuel : nat) (h : Z) (m : lmem) : option (res (list Z)) :=
  match get_next h m with Ok i => for_each_loop fuel h i m | Bug => Some Bug end.

(** The same from the other end. *)
Fixpoint for_each_rev_loop (fuel : nat) (h i : Z) (m : lmem) : option (res (list Z)) :=
  match fuel with
  | O => None
  | S fuel =>
      if i =? h then Some (Ok [])
      else match get_prev i m with
           | Ok x => match for_each_rev_loop fuel h x m with Some (Ok l) => Some (Ok (i :: l)) | r => r end
           | Bug => Some Bug
           end
  end.

Definition list_for_each_rev (fuel : nat) (h : Z) (m : lmem) : option (res (list Z)) :=
  match get_prev h m with Ok i => for_each_rev_loop fuel h i m | Bug => Some Bug end.

(** [list_for_each_safe] with a body that deletes the nodes that are not to be kept. *)
Fixpoint for_each_safe_loop (fuel : nat) (h : Z) (keep : Z -> bool) (i nxt : Z) (m : lmem) : option (res lmem) :=
  match fuel with
  | O => None
  | S fuel =>
      if i =? h then Some (Ok m)
      else match (m ← (if keep i then Ok m else list_del i m); x ← get_next nxt m; Ok (x, m)) with
           | Ok (x, m) => for_each_safe_loop fuel h keep nxt x m
           | Bug => Some Bug
           end
  end.

Definition list_for_each_safe (fuel : nat) (h : Z) (keep : Z -> bool) (m : lmem) : option (res lmem) :=
  match (i ← get_next h m; x ← get_next i m; Ok (i, x)) with
  | Ok (i, x) => for_each_safe_loop fuel h keep i x m
  | Bug => Some Bug
  end.

(** [list_check_node] without a message: [true] if it returns the node, [false] if
    [NULL]. *)
Fixpoint check_loop (fuel : nat) (node p n : Z) (m : lmem) : option (res bool) :=
  match fuel with
  | O => None
  | S fuel =>
      if n =? node then Some (q ← get_prev node m; Ok (q =? p))
      else match (q ← get_prev n m; x ← get_next n m; Ok (q, x)) with
           | Ok (q, x) => if negb (q =? p) then Some (Ok false) else check_loop fuel node n x m
           | Bug => Some Bug
           end
  end.

Definition list_check_node (fuel : nat) (node : Z) (m : lmem) : option (res bool) :=
  match get_next node m with Ok n => check_loop fuel node node n m | Bug => Some Bug end.

Definition list_check (fuel : nat) (h : Z) (m : lmem) : option (res bool) := list_check_node fuel h m.

(** ** Edges

    The links of the list with first node [a], further nodes [l], and [z] behind them. *)
Fixpoint edges (a : Z) (l : list Z) (z : Z) : list (Z * Z) :=
  match l with [] => [(a, z)] | x :: l => (a, x) :: edges x l z end.

Lemma edges_app a l1 x l2 z : edges a (l1 ++ x :: l2) z = edges a l1 x ++ edges x l2 z.
Proof. revert a. induction l1 as [|y l1 IH]; intros a; cbn; [done|]. by rewrite IH. Qed.

Lemma edges_fst a l z : fst <$> edges a l z = a :: l.
Proof. revert a. induction l as [|x l IH]; intros a; cbn; [done|]. by rewrite IH. Qed.

Lemma edges_snd a l z : snd <$> edges a l z = l ++ [z].
Proof. revert a. induction l as [|x l IH]; intros a; cbn; [done|]. by rewrite IH. Qed.

(** The first and the last node, the head if there are none. *)
Definition first_of (h : Z) (l : list Z) : Z := default h (list.head l).
Definition last_of (h : Z) (l : list Z) : Z := default h (list.last l).

(** Between [l1] and [l2] there is one link; with [n] there are two, and the others are
    the same. *)
Lemma edges_last a l : exists F, forall z, edges a l z = F ++ [(last_of a l, z)].
Proof.
  destruct l as [|x l _] using rev_ind; [by exists []|]. exists (edges a l x). intros z.
  rewrite edges_app. unfold last_of. by rewrite last_snoc.
Qed.

Lemma edges_first l z : exists G, forall a, edges a l z = (a, first_of z l) :: G.
Proof. destruct l as [|x l]; [by exists []|]. by exists (edges x l z). Qed.

Lemma edges_cut a l1 l2 z F G :
  (forall y, edges a l1 y = F ++ [(last_of a l1, y)]) -> (forall x, edges x l2 z = (x, first_of z l2) :: G) ->
  edges a (l1 ++ l2) z = F ++ (last_of a l1, first_of z l2) :: G.
Proof.
  intros HF HG. destruct l2 as [|x l2].
  - pose proof (HG 0) as H0. injection H0 as <-. by rewrite app_nil_r, HF.
  - rewrite edges_app, HF. pose proof (HG 0) as H0. injection H0 as ->. by rewrite <- app_assoc.
Qed.

Lemma edges_mid h l1 l2 :
  exists F, edges h (l1 ++ l2) h ≡ₚ (last_of h l1, first_of h l2) :: F
    /\ forall n, edges h (l1 ++ n :: l2) h ≡ₚ (last_of h l1, n) :: (n, first_of h l2) :: F.
Proof.
  destruct (edges_last h l1) as [F HF]. destruct (edges_first l2 h) as [G HG].
  exists (F ++ G). split; [|intros n].
  - rewrite (edges_cut _ _ _ _ F G) by done. by rewrite <- Permutation_middle.
  - rewrite edges_app, HF, HG, <- app_assoc. cbn. by rewrite <- !Permutation_middle.
Qed.

(** ** Memories that hold lists *)

Definition linked (m : lmem) (E : list (Z * Z)) : Prop := forall x y, (x, y) ∈ E -> nx m !! x = Some y /\ pv m !! y = Some x.

Lemma linked_perm m E E' : E ≡ₚ E' -> linked m E -> linked m E'.
Proof. intros Hp H x y Hin. apply H. by rewrite Hp. Qed.

Lemma get_some (m : gmap Z Z) a v : m !! a = Some v -> get m a = Ok v.
Proof. intros H. unfold get. by rewrite H. Qed.

(** Other links are not changed by new cells for [x] and [y]. *)
Lemma linked_frame m E nx' pv' :
  linked m E -> (forall x, x ∈ fst <$> E -> nx' !! x = nx m !! x) -> (forall y, y ∈ snd <$> E -> pv' !! y = pv m !! y) -> linked (Lmem nx' pv') E.
Proof.
  intros H H1 H2 x y Hin. cbn. rewrite H1, H2; [by apply H| |]; apply list_elem_of_fmap; by exists (x, y).
Qed.

Lemma linked_cons m x y E : linked m ((x, y) :: E) <-> (nx m !! x = Some y /\ pv m !! y = Some x) /\ linked m E.
Proof.
  split.
  - intros H. split; [apply H; by left|]. intros a b Hin. apply H. by right.
  - intros [H1 H2] a b [[= -> ->]|Hin]%elem_of_cons; auto.
Qed.

Lemma linked_app m E1 E2 : linked m (E1 ++ E2) <-> linked m E1 /\ linked m E2.
Proof.
  split.
  - intros H. split; intros x y Hin; apply H, elem_of_app; auto.
  - intros [H1 H2] x y [?|?]%elem_of_app; auto.
Qed.

(** The memory has the cells of [D], and among them the links [E], every cell at most
    once. *)
Record good (D : gset Z) (m : lmem) (E : list (Z * Z)) : Prop := Good {
  good_nx : dom (nx m) = D;
  good_pv : dom (pv m) = D;
  good_nodup : NoDup (fst <$> E);
  good_snd : snd <$> E ≡ₚ fst <$> E;
  good_linked : linked m E
}.

Lemma good_perm D m E E' : E ≡ₚ E' -> good D m E -> good D m E'.
Proof.
  intros Hp [H1 H2 H3 H4 H5]. split; [done|done|by rewrite <- Hp|by rewrite <- Hp|by eapply linked_perm].
Qed.

Lemma good_nodup_snd D m E : good D m E -> NoDup (snd <$> E).
Proof. intros G. rewrite (good_snd _ _ _ G). apply (good_nodup _ _ _ G). Qed.

Lemma get_dom (c : gmap Z Z) D a : dom c = D -> a ∈ D -> exists v, get c a = Ok v.
Proof. intros <- [v Hv]%elem_of_dom. exists v. by apply get_some. Qed.

Lemma good_in D m E a : good D m E -> a ∈ fst <$> E -> a ∈ D.
Proof.
  intros G ([x y] & -> & Hin)%list_elem_of_fmap. rewrite <- (good_nx _ _ _ G). apply elem_of_dom. exists y.
  by apply (good_linked _ _ _ G).
Qed.

Lemma good_in_snd D m E a : good D m E -> a ∈ snd <$> E -> a ∈ D.
Proof. intros G H. apply (good_in D m E); [done|]. by rewrite <- (good_snd _ _ _ G). Qed.

Lemma good_next D m E x y : good D m E -> (x, y) ∈ E -> get_next x m = Ok y.
Proof. intros G H. apply get_some. by apply (good_linked _ _ _ G). Qed.

Lemma good_prev D m E x y : good D m E -> (x, y) ∈ E -> get_prev y m = Ok x.
Proof. intros G H. apply get_some. by apply (good_linked _ _ _ G). Qed.

(** Writes to cells of the memory do not fail and keep its cells. *)
Lemma set_next_ok D m a v : dom (nx m) = D -> a ∈ D -> set_next a v m = Ok (Lmem (<[a := v]> (nx m)) (pv m)).
Proof. intros H Ha. unfold set_next. destruct (get_dom _ _ _ H Ha) as [w ->]. done. Qed.

Lemma set_prev_ok D m a v : dom (pv m) = D -> a ∈ D -> set_prev a v m = Ok (Lmem (nx m) (<[a := v]> (pv m))).
Proof. intros H Ha. unfold set_prev. destruct (get_dom _ _ _ H Ha) as [w ->]. done. Qed.

Lemma dom_put (c : gmap Z Z) D a v : dom c = D -> a ∈ D -> dom (<[a := v]> c) = D.
Proof. intros <- H. by apply dom_insert_lookup_L, elem_of_dom. Qed.
#[local] Hint Resolve dom_put : core.

(** ** The three changes of links

    A node [n] between [p] and [q]; the node [n] out from between [p] and [q]; and two
    links that exchange their targets. *)

Lemma good_insert D m p q n E nx' pv' :
  good D m ((p, q) :: E) -> n ∈ D -> n ∉ fst <$> (p, q) :: E ->
  nx' = <[p := n]> (<[n := q]> (nx m)) -> pv' = <[q := n]> (<[n := p]> (pv m)) ->
  good D (Lmem nx' pv') ((p, n) :: (n, q) :: E).
Proof.
  intros G Hn Hf -> ->. pose proof (good_nodup _ _ _ G) as Hd. pose proof (good_nodup_snd _ _ _ G) as Hs.
  pose proof (good_snd _ _ _ G) as Hp. cbn in *.
  assert (Hns : n ∉ q :: (snd <$> E)) by by rewrite Hp.
  apply list.NoDup_cons in Hd as [Hd1 Hd2]. apply list.NoDup_cons in Hs as [Hs1 Hs2].
  rewrite not_elem_of_cons in Hf, Hns. destruct Hf as [Hf1 Hf2], Hns as [Hns1 Hns2].
  assert (p ∈ D) by (apply (good_in _ _ _ _ G); by left).
  assert (q ∈ D) by (apply (good_in_snd _ _ _ _ G); by left).
  destruct G as [G1 G2 _ _ G5]. split; cbn; eauto.
  - repeat (apply list.NoDup_cons; split); [|done|done]. rewrite not_elem_of_cons. by split.
  - rewrite Hp. apply Permutation_swap.
  - apply linked_cons in G5 as [_ G5]. repeat (apply linked_cons; split).
    + cbn. by rewrite lookup_insert_eq, lookup_insert_ne, lookup_insert_eq.
    + cbn. by rewrite lookup_insert_ne, !lookup_insert_eq.
    + apply (linked_frame m); [done| |]; intros x Hx; rewrite !lookup_insert_ne; congruence.
Qed.

Lemma good_delete D m p q n E nx' pv' :
  good D m ((p, n) :: (n, q) :: E) ->
  nx' = <[p := q]> (nx m) -> pv' = <[q := p]> (pv m) ->
  good D (Lmem nx' pv') ((p, q) :: E).
Proof.
  intros G -> ->. pose proof (good_nodup _ _ _ G) as Hd. pose proof (good_nodup_snd _ _ _ G) as Hs.
  pose proof (good_snd _ _ _ G) as Hp. cbn in *.
  apply list.NoDup_cons in Hd as [Hd1 Hd2]. apply list.NoDup_cons in Hs as [Hs1 Hs2].
  rewrite not_elem_of_cons in Hd1, Hs1. destruct Hd1 as [Hd0 Hd1], Hs1 as [Hs0 Hs1].
  apply list.NoDup_cons in Hd2 as [Hd2 Hd3]. apply list.NoDup_cons in Hs2 as [Hs2 Hs3].
  assert (p ∈ D) by (apply (good_in _ _ _ _ G); by left).
  assert (q ∈ D) by (apply (good_in_snd _ _ _ _ G); right; by left).
  destruct G as [G1 G2 _ _ G5]. split; cbn; eauto.
  - by apply list.NoDup_cons.
  - rewrite (Permutation_swap n p) in Hp. by apply Permutation_cons_inv in Hp.
  - apply linked_cons in G5 as [_ [_ G5]%linked_cons]. apply linked_cons; split.
    + cbn. by rewrite !lookup_insert_eq.
    + apply (linked_frame m); [done| |]; intros x Hx; rewrite !lookup_insert_ne; congruence.
Qed.

Lemma good_swap D m a b c d E nx' pv' :
  good D m ((a, b) :: (c, d) :: E) ->
  nx' = <[a := d]> (<[c := b]> (nx m)) -> pv' = <[d := a]> (<[b := c]> (pv m)) ->
  good D (Lmem nx' pv') ((a, d) :: (c, b) :: E).
Proof.
  intros G -> ->. pose proof (good_nodup _ _ _ G) as Hd. pose proof (good_nodup_snd _ _ _ G) as Hs.
  pose proof (good_snd _ _ _ G) as Hp. cbn in *.
  pose proof Hd as Hd'. apply list.NoDup_cons in Hd as [Hd1 Hd2]. apply list.NoDup_cons in Hs as [Hs1 Hs2].
  rewrite not_elem_of_cons in Hd1, Hs1. destruct Hd1 as [Hd0 Hd1], Hs1 as [Hs0 Hs1].
  apply list.NoDup_cons in Hd2 as [Hd2 Hd3]. apply list.NoDup_cons in Hs2 as [Hs2 Hs3].
  assert (a ∈ D) by (apply (good_in _ _ _ _ G); by left).
  assert (c ∈ D) by (apply (good_in _ _ _ _ G); right; by left).
  assert (b ∈ D) by (apply (good_in_snd _ _ _ _ G); by left).
  assert (d ∈ D) by (apply (good_in_snd _ _ _ _ G); right; by left).
  destruct G as [G1 G2 _ _ G5]. split; cbn; eauto.
  - by rewrite (Permutation_swap b d).
  - apply linked_cons in G5 as [_ [_ G5]%linked_cons]. repeat (apply linked_cons; split).
    + cbn. by rewrite !lookup_insert_eq.
    + cbn. by rewrite (lookup_insert_ne _ a c), (lookup_insert_ne _ d b), !lookup_insert_eq by congruence.
    + apply (linked_frame m); [done| |]; intros x Hx; rewrite !lookup_insert_ne; congruence.
Qed.

(** ** The operations on links *)

Lemma cell_put_ne (c : gmap Z Z) a b v : b <> a -> get (<[b := v]> c) a = get c a.
Proof. intros H. unfold get. by rewrite lookup_insert_ne. Qed.

Lemma good_facts D m E x y :
  good D m E -> (x, y) ∈ E -> x ∈ D /\ y ∈ D /\ dom (nx m) = D /\ dom (pv m) = D /\ get (nx m) x = Ok y /\ get (pv m) y = Ok x.
Proof.
  intros G H. destruct (good_linked _ _ _ G _ _ H). repeat split; eauto using get_some, good_nx, good_pv.
  - eapply good_in; [done|]. apply list_elem_of_fmap. by exists (x, y).
  - eapply good_in_snd; [done|]. apply list_elem_of_fmap. by exists (x, y).
Qed.

(** Runs the reads and the writes of an operation, all of cells of the memory. *)
Ltac cells :=
  unfold get_next, get_prev; cbn [nx pv];
  match goal with Hd : dom (nx _) = ?D |- _ =>
    repeat (first [ rewrite (set_next_ok D) by (cbn; eauto) | rewrite (set_prev_ok D) by (cbn; eauto)
                  | rewrite cell_put_ne by congruence
                  | match goal with H : get ?c ?a = Ok _ |- context [get ?c ?a] => rewrite H end ];
            cbn [mbind res_bind nx pv])
  end.

Lemma list_head_init_good D m h E :
  good D m E -> h ∈ D -> h ∉ fst <$> E -> exists m', list_head_init h m = Ok m' /\ good D m' ((h, h) :: E).
Proof.
  intros [G1 G2 G3 G4 G5] Hh Hf. unfold list_head_init. cells. eexists; split; [done|]. split; cbn; eauto.
  - by apply list.NoDup_cons.
  - apply linked_cons. split; [cbn; by rewrite !lookup_insert_eq|].
    apply (linked_frame m); [done| |]; intros x Hx; rewrite lookup_insert_ne; [done| |done|]; [congruence|].
    intros ->. by rewrite G4 in Hx.
Qed.

Lemma list_add_good D m h q n E :
  good D m ((h, q) :: E) -> n ∈ D -> n ∉ fst <$> (h, q) :: E ->
  exists m', list_add h n m = Ok m' /\ good D m' ((h, n) :: (n, q) :: E).
Proof.
  intros G Hn Hf. destruct (good_facts _ _ _ h q G ltac:(by left)) as (? & ? & ? & ? & ? & ?).
  assert (n <> h) by (intros ->; apply Hf; by left).
  unfold list_add. cells. eexists; split; [done|]. by eapply good_insert.
Qed.

Lemma list_add_tail_good D m h p n E :
  good D m ((p, h) :: E) -> n ∈ D -> n ∉ fst <$> (p, h) :: E ->
  exists m', list_add_tail h n m = Ok m' /\ good D m' ((p, n) :: (n, h) :: E).
Proof.
  intros G Hn Hf. destruct (good_facts _ _ _ p h G ltac:(by left)) as (? & ? & ? & ? & ? & ?).
  assert (n <> h) by (intros ->; apply Hf; rewrite <- (good_snd _ _ _ G); by left).
  unfold list_add_tail. cells. eexists; split; [done|]. by eapply good_insert.
Qed.

Lemma __list_add_good D m p q n E :
  good D m ((p, q) :: E) -> n ∈ D -> n ∉ fst <$> (p, q) :: E ->
  exists m', __list_add p n q m = Ok m' /\ good D m' ((p, n) :: (n, q) :: E).
Proof.
  intros G Hn Hf. destruct (good_facts _ _ _ p q G ltac:(by left)) as (? & ? & ? & ? & ? & ?).
  assert (n <> p) by (intros ->; apply Hf; by left).
  unfold __list_add. cells. eexists; split; [done|]. eapply good_insert; [done..| |done]. by rewrite insert_insert_ne.
Qed.

Lemma list_del_good D m p q n E :
  good D m ((p, n) :: (n, q) :: E) -> exists m', list_del n m = Ok m' /\ good D m' ((p, q) :: E).
Proof.
  intros G. destruct (good_facts _ _ _ p n G ltac:(by left)) as (? & ? & ? & ? & ? & ?).
  destruct (good_facts _ _ _ n q G ltac:(right; by left)) as (_ & ? & _ & _ & ? & ?).
  assert (q <> n). { intros ->. pose proof (good_nodup_snd _ _ _ G) as Hs. apply list.NoDup_cons in Hs as [Hs _]. apply Hs. by left. }
  unfold list_del. cells. eexists; split; [done|]. by eapply good_delete.
Qed.

(** The head [from] and its nodes sewn in before and behind the nodes of [to]: the first
    part of the two operations that join lists. *)
Lemma append_sew D m to from t ft E :
  good D m ((t, to) :: (ft, from) :: E) ->
  exists m', list_append_list to from m = (m ← list_del from m'; list_head_init from m)
    /\ good D m' ((t, from) :: (ft, to) :: E).
Proof.
  intros G. destruct (good_facts _ _ _ t to G ltac:(by left)) as (? & ? & ? & ? & ? & ?).
  destruct (good_facts _ _ _ ft from G ltac:(right; by left)) as (? & ? & _ & _ & ? & ?).
  unfold list_append_list. cells. eexists; split; [done|]. by eapply good_swap.
Qed.

Lemma prepend_sew D m to from hd ft E :
  good D m ((to, hd) :: (ft, from) :: E) ->
  exists m', list_prepend_list to from m = (m ← list_del from m'; list_head_init from m)
    /\ good D m' ((to, from) :: (ft, hd) :: E).
Proof.
  intros G. destruct (good_facts _ _ _ to hd G ltac:(by left)) as (? & ? & ? & ? & ? & ?).
  destruct (good_facts _ _ _ ft from G ltac:(right; by left)) as (? & ? & _ & _ & ? & ?).
  assert (to <> ft). { intros ->. pose proof (good_nodup _ _ _ G) as Hs. apply list.NoDup_cons in Hs as [Hs _]. apply Hs. by left. }
  assert (hd <> from). { intros ->. pose proof (good_nodup_snd _ _ _ G) as Hs. apply list.NoDup_cons in Hs as [Hs _]. apply Hs. by left. }
  unfold list_prepend_list. cells. eexists; split; [done|].
  eapply good_swap; [done|by rewrite insert_insert_ne by done..].
Qed.
