(* ===== verification/DlistThms.v ===== *)
(** * Circular lists as sequences

    Any number of lists in one memory, described by a map from the address of each head to
    the addresses of the nodes in order; the operations of Dlist.v against this
    description, and the consistency check on memories that need not hold lists. *)

From S2P Require Import Prelude Dlist.

(** ** Memories that hold the lists of a map *)

Definition links (A : gmap Z (list Z)) : list (Z * Z) := concat ((fun '(h, l) => edges h l h) <$> map_to_list A).

(** The addresses in use: the heads and the nodes that are on a list. *)
Definition nodes (A : gmap Z (list Z)) : list Z := fst <$> links A.

Definition rep (D : gset Z) (m : lmem) (A : gmap Z (list Z)) : Prop := good D m (links A).

Lemma links_insert A h l : A !! h = None -> links (<[h := l]> A) ≡ₚ edges h l h ++ links A.
Proof. intros H. unfold links. by rewrite map_to_list_insert. Qed.

Lemma links_put A h l : links (<[h := l]> A) ≡ₚ edges h l h ++ links (delete h A).
Proof. rewrite <- insert_delete_eq. apply links_insert, lookup_delete_eq. Qed.

Lemma links_split A h l : A !! h = Some l -> links A ≡ₚ edges h l h ++ links (delete h A).
Proof. intros H. by rewrite <- links_put, insert_id. Qed.

Lemma nodes_split A h l : A !! h = Some l -> nodes A ≡ₚ h :: l ++ nodes (delete h A).
Proof. intros H. unfold nodes. by rewrite (links_split _ _ _ H), fmap_app, edges_fst. Qed.

Lemma links_mid A h l1 l2 :
  A !! h = Some (l1 ++ l2) ->
  exists F, links A ≡ₚ (last_of h l1, first_of h l2) :: F
    /\ forall n, links (<[h := l1 ++ n :: l2]> A) ≡ₚ (last_of h l1, n) :: (n, first_of h l2) :: F.
Proof.
  intros H. destruct (edges_mid h l1 l2) as (F & H1 & H2). exists (F ++ links (delete h A)).
  split; [by rewrite (links_split _ _ _ H), H1|]. intros n. by rewrite links_put, H2.
Qed.

Lemma rep_del_mid D m A h l1 n l2 :
  rep D m A -> A !! h = Some (l1 ++ n :: l2) ->
  exists F, links (<[h := l1 ++ l2]> A) ≡ₚ (last_of h l1, first_of h l2) :: F
    /\ good D m ((last_of h l1, n) :: (n, first_of h l2) :: F)
    /\ n ∉ nodes (<[h := l1 ++ l2]> A).
Proof.
  intros R H. destruct (links_mid (<[h := l1 ++ l2]> A) h l1 l2) as (F & H1 & H2); [apply lookup_insert_eq|].
  specialize (H2 n). rewrite insert_insert_eq, insert_id in H2 by done.
  pose proof (good_perm _ _ _ _ H2 R) as G. exists F. split; [done|]. split; [done|].
  pose proof (good_nodup _ _ _ G) as Hd. cbn in Hd. rewrite Permutation_swap in Hd. apply list.NoDup_cons in Hd as [Hd _].
  unfold nodes. by rewrite H1.
Qed.

(** ** The operations on lists *)

Section Ops.
Context (D : gset Z) (m : lmem) (A : gmap Z (list Z)) (R : rep D m A).

Lemma rep_head_init h :
  h ∈ D -> h ∉ nodes A -> exists m', list_head_init h m = Ok m' /\ rep D m' (<[h := []]> A).
Proof using R.
  intros Hh Hn. destruct (list_head_init_good _ _ h _ R Hh Hn) as (m' & E & G). exists m'. split; [done|].
  eapply good_perm; [|exact G]. rewrite links_insert; [done|].
  destruct (A !! h) as [l|] eqn:El; [|done]. destruct Hn. rewrite (nodes_split _ _ _ El). by left.
Qed.

Lemma rep_insert h l1 l2 n (op : res lmem) :
  A !! h = Some (l1 ++ l2) ->
  (forall F, good D m ((last_of h l1, first_of h l2) :: F) -> n ∉ fst <$> (last_of h l1, first_of h l2) :: F ->
     exists m', op = Ok m' /\ good D m' ((last_of h l1, n) :: (n, first_of h l2) :: F)) ->
  n ∉ nodes A -> exists m', op = Ok m' /\ rep D m' (<[h := l1 ++ n :: l2]> A).
Proof using R.
  intros H Hop Hn. destruct (links_mid A h l1 l2 H) as (F & H1 & H2).
  destruct (Hop F) as (m' & E & G); [by eapply good_perm|by rewrite <- H1|].
  exists m'. split; [done|]. eapply good_perm; [|exact G]. symmetry. apply H2.
Qed.

Lemma rep_add h l n :
  A !! h = Some l -> n ∈ D -> n ∉ nodes A -> exists m', list_add h n m = Ok m' /\ rep D m' (<[h := n :: l]> A).
Proof using R. intros H Hn Hf. apply (rep_insert h [] l n); [done| |done]. intros F G HF. by apply list_add_good. Qed.

Lemma rep_add_tail h l n :
  A !! h = Some l -> n ∈ D -> n ∉ nodes A -> exists m', list_add_tail h n m = Ok m' /\ rep D m' (<[h := l ++ [n]]> A).
Proof using R.
  intros H Hn Hf. apply (rep_insert h l [] n); [by rewrite app_nil_r| |done]. intros F G HF. by apply list_add_tail_good.
Qed.

Lemma rep_add_after h l1 l2 n :
  A !! h = Some (l1 ++ l2) -> n ∈ D -> n ∉ nodes A ->
  exists m', list_add_after (last_of h l1) n m = Ok m' /\ rep D m' (<[h := l1 ++ n :: l2]> A).
Proof using R.
  intros H Hn Hf. apply rep_insert; [done| |done]. intros F G HF. unfold list_add_after.
  rewrite (good_next _ _ _ _ (first_of h l2) G) by by left. by apply __list_add_good.
Qed.

Lemma rep_add_before h l1 l2 n :
  A !! h = Some (l1 ++ l2) -> n ∈ D -> n ∉ nodes A ->
  exists m', list_add_before (first_of h l2) n m = Ok m' /\ rep D m' (<[h := l1 ++ n :: l2]> A).
Proof using R.
  intros H Hn Hf. apply rep_insert; [done| |done]. intros F G HF. unfold list_add_before.
  rewrite (good_prev _ _ _ (last_of h l1) _ G) by by left. by apply __list_add_good.
Qed.

Lemma rep_del h l1 n l2 :
  A !! h = Some (l1 ++ n :: l2) -> exists m', list_del n m = Ok m' /\ rep D m' (<[h := l1 ++ l2]> A).
Proof using R.
  intros H. destruct (rep_del_mid _ _ _ _ _ _ _ R H) as (F & H1 & G & _).
  destruct (list_del_good _ _ _ _ _ _ G) as (m' & E & G'). exists m'. split; [done|]. by eapply good_perm.
Qed.

Lemma rep_next h l1 l2 : A !! h = Some (l1 ++ l2) -> get_next (last_of h l1) m = Ok (first_of h l2).
Proof using R.
  intros H. destruct (links_mid A h l1 l2 H) as (F & H1 & _). eapply good_next; [exact R|]. rewrite H1. by left.
Qed.

Lemma rep_prev h l1 l2 : A !! h = Some (l1 ++ l2) -> get_prev (first_of h l2) m = Ok (last_of h l1).
Proof using R.
  intros H. destruct (links_mid A h l1 l2 H) as (F & H1 & _). eapply good_prev; [exact R|]. rewrite H1. by left.
Qed.

Lemma rep_nodup h l : A !! h = Some l -> NoDup (h :: l).
Proof using R.
  intros H. pose proof (good_nodup _ _ _ R) as Hd. fold (nodes A) in Hd. rewrite (nodes_split _ _ _ H) in Hd.
  rewrite app_comm_cons in Hd. by apply list.NoDup_app in Hd as [? _].
Qed.
End Ops.

(** ** Joining lists *)

(** Once [from] is sewn in as a node of [to], it is taken out again and made empty. *)
Lemma rep_unsew D m A to from l1 l2 :
  rep D m (<[to := l1 ++ from :: l2]> (delete from A)) -> to <> from ->
  exists m', (m ← list_del from m; list_head_init from m) = Ok m' /\ rep D m' (<[from := []]> (<[to := l1 ++ l2]> A)).
Proof.
  intros R Hne. destruct (rep_del_mid _ _ _ _ _ _ _ R (lookup_insert_eq _ _ _)) as (F & _ & G & Hn).
  destruct (rep_del _ _ _ R to l1 from l2 (lookup_insert_eq _ _ _)) as (m1 & E1 & R1).
  rewrite insert_insert_eq in R1, Hn. rewrite E1. cbn.
  destruct (rep_head_init _ _ _ R1 from) as (m2 & E2 & R2); [|done|].
  - apply (good_in _ _ _ _ G). right. by left.
  - exists m2. split; [done|]. rewrite insert_insert_ne, insert_delete_eq in R2 by done. by rewrite insert_insert_ne by done.
Qed.

Lemma links_split2 A h1 h2 l1 l2 :
  A !! h1 = Some l1 -> A !! h2 = Some l2 -> h1 <> h2 ->
  links A ≡ₚ edges h1 l1 h1 ++ edges h2 l2 h2 ++ links (delete h1 (delete h2 A)).
Proof.
  intros H1 H2 Hne. rewrite (links_split _ _ _ H1). rewrite (links_split (delete h1 A) h2 l2) by by rewrite lookup_delete_ne.
  by rewrite delete_delete.
Qed.

Lemma rep_append D m A to from l1 l2 :
  rep D m A -> A !! to = Some l1 -> A !! from = Some l2 -> to <> from ->
  exists m', list_append_list to from m = Ok m' /\ rep D m' (<[from := []]> (<[to := l1 ++ l2]> A)).
Proof.
  intros R H1 H2 Hne. destruct (edges_last to l1) as [F1 HF1]. destruct (edges_last from l2) as [F2 HF2].
  set (E := links (delete to (delete from A))).
  destruct (append_sew D m to from (last_of to l1) (last_of from l2) (F1 ++ F2 ++ E)) as (m1 & -> & G).
  { eapply good_perm; [|exact R]. rewrite (links_split2 A to from l1 l2), HF1, HF2 by done. fold E. solve_Permutation. }
  apply rep_unsew; [|done]. eapply good_perm; [|exact G].
  rewrite links_put, edges_app, HF1, HF2. fold E. solve_Permutation.
Qed.

Lemma rep_prepend D m A to from l1 l2 :
  rep D m A -> A !! to = Some l1 -> A !! from = Some l2 -> to <> from ->
  exists m', list_prepend_list to from m = Ok m' /\ rep D m' (<[from := []]> (<[to := l2 ++ l1]> A)).
Proof.
  intros R H1 H2 Hne. destruct (edges_first l1 to) as [G1 HG1]. destruct (edges_last from l2) as [F2 HF2].
  set (E := links (delete to (delete from A))).
  destruct (prepend_sew D m to from (first_of to l1) (last_of from l2) (G1 ++ F2 ++ E)) as (m1 & -> & G).
  { eapply good_perm; [|exact R]. rewrite (links_split2 A to from l1 l2), HG1, HF2 by done. fold E. solve_Permutation. }
  apply (rep_unsew _ _ _ _ _ [] (l2 ++ l1)); [|done]. eapply good_perm; [|exact G].
  rewrite links_put. cbn [app edges]. rewrite (edges_cut _ _ _ _ _ _ HF2 HG1). fold E. solve_Permutation.
Qed.

(** ** Loops over a list *)

Lemma first_of_in h l : first_of h l = h -> h ∉ l -> l = [].
Proof. destruct l as [|x l]; [done|]. cbn. intros -> []. by left. Qed.

Lemma last_of_snoc h l x : last_of h (l ++ [x]) = x.
Proof. unfold last_of. by rewrite last_snoc. Qed.

Lemma first_of_cons h x l : first_of h (x :: l) = x.
Proof. done. Qed.

Lemma rep_for_each_loop D m A h l1 l2 fuel :
  rep D m A -> A !! h = Some (l1 ++ l2) -> (length l2 < fuel)%nat -> for_each_loop fuel h (first_of h l2) m = Some (Ok l2).
Proof.
  intros R. revert l1 l2. induction fuel as [|fuel IH]; intros l1 l2 H Hf; [lia|].
  destruct l2 as [|x l2]; [cbn; by rewrite Z.eqb_refl|]. cbn [for_each_loop]. rewrite first_of_cons.
  pose proof (rep_nodup _ _ _ R _ _ H) as [Hd _]%list.NoDup_cons.
  assert (x <> h) by set_solver. destruct (Z.eqb_spec x h); [done|].
  pose proof H as H'. rewrite cons_middle, app_assoc in H'.
  pose proof (rep_next _ _ _ R _ _ _ H') as Hn. rewrite last_of_snoc in Hn. rewrite Hn.
  rewrite (IH _ _ H') by (cbn in Hf; lia). done.
Qed.

Lemma rep_for_each_rev_loop D m A h l1 l2 fuel :
  rep D m A -> A !! h = Some (l1 ++ l2) -> (length l1 < fuel)%nat -> for_each_rev_loop fuel h (last_of h l1) m = Some (Ok (rev l1)).
Proof.
  intros R. revert l1 l2. induction fuel as [|fuel IH]; intros l1 l2 H Hf; [lia|].
  destruct l1 as [|x l1 _] using rev_ind; [cbn; by rewrite Z.eqb_refl|]. cbn [for_each_rev_loop]. rewrite last_of_snoc.
  pose proof (rep_nodup _ _ _ R _ _ H) as [Hd _]%list.NoDup_cons.
  assert (x <> h) by set_solver. destruct (Z.eqb_spec x h); [done|].
  pose proof H as H'. rewrite <- app_assoc in H'.
  pose proof (rep_prev _ _ _ R _ _ _ H') as Hn. cbn [app] in Hn. rewrite first_of_cons in Hn. rewrite Hn.
  rewrite length_app in Hf. cbn in Hf. rewrite (IH _ _ H') by lia. by rewrite rev_app_distr.
Qed.

Lemma rep_for_each_safe_loop D fuel h keep m A l1 l2 nxt :
  rep D m A -> A !! h = Some (l1 ++ l2) -> (length l2 < fuel)%nat -> get_next (first_of h l2) m = Ok nxt ->
  exists m', for_each_safe_loop fuel h keep (first_of h l2) nxt m = Some (Ok m') /\ rep D m' (<[h := l1 ++ List.filter keep l2]> A).
Proof.
  revert m A l1 l2 nxt. induction fuel as [|fuel IH]; intros m A l1 l2 nxt R H Hf Hx; [lia|].
  destruct l2 as [|x l2]; cbn [for_each_safe_loop List.filter].
  { unfold first_of at 1. cbn. rewrite Z.eqb_refl. exists m. split; [done|]. by rewrite insert_id. }
  rewrite first_of_cons in *. pose proof (rep_nodup _ _ _ R _ _ H) as [Hd _]%list.NoDup_cons.
  assert (x <> h) by set_solver. destruct (Z.eqb_spec x h); [done|]. cbn in Hf.
  pose proof H as H'. rewrite cons_middle, app_assoc in H'.
  pose proof (rep_next _ _ _ R _ _ _ H') as Hn. rewrite last_of_snoc, Hx in Hn. injection Hn as ->.
  assert (Hnn : forall m1 A1 l, rep D m1 A1 -> A1 !! h = Some (l ++ l2) -> exists y, get_next (first_of h l2) m1 = Ok y).
  { intros m1 A1 l R1 H1. destruct l2 as [|z l2].
    - pose proof (rep_next _ _ _ R1 h [] l) as Hy. cbn in H1. rewrite app_nil_r in H1. eauto.
    - rewrite cons_middle, app_assoc in H1. pose proof (rep_next _ _ _ R1 _ _ _ H1) as Hy. rewrite last_of_snoc in Hy. eauto. }
  destruct (keep x) eqn:Ek.
  - cbn [mbind res_bind]. destruct (Hnn _ _ _ R H') as [y Hy]. rewrite Hy. cbn.
    destruct (IH _ _ _ _ _ R H' ltac:(lia) Hy) as (m' & -> & R'). exists m'. split; [done|]. by rewrite <- app_assoc in R'.
  - destruct (rep_del _ _ _ R _ _ _ _ H) as (m1 & -> & R1). cbn [mbind res_bind].
    destruct (Hnn _ _ l1 R1 (lookup_insert_eq _ _ _)) as [y Hy]. rewrite Hy. cbn.
    destruct (IH _ _ _ _ _ R1 (lookup_insert_eq _ _ _) ltac:(lia) Hy) as (m' & -> & R'). exists m'. split; [done|]. by rewrite insert_insert_eq in R'.
Qed.

(** ** The specification on sequences *)

(** The operations; the head in [OAddAfter], [OAddBefore] and [ODel] only names the list,
    [off] is the offset of the node in its structure. *)
Inductive lop :=
  | OInit (h : Z) | OAdd (h n : Z) | OAddTail (h n : Z) | OAddAfter (h p n : Z) | OAddBefore (h q n : Z)
  | ODel (h n : Z) | ODelFrom (h n : Z) | OPop (h off : Z) | OAppend (to from : Z) | OPrepend (to from : Z)
  | OEmpty (h : Z) | OTop (h off : Z) | OTail (h off : Z) | ONext (h i off : Z) | OPrev (h i off : Z)
  | OForEach (h : Z) | OForEachRev (h : Z) | OForEachSafe (h : Z) (keep : Z -> bool).

Fixpoint ins_after (p n : Z) (l : list Z) : list Z :=
  match l with [] => [] | x :: l => if x =? p then x :: n :: l else x :: ins_after p n l end.
Fixpoint ins_before (q n : Z) (l : list Z) : list Z :=
  match l with [] => [] | x :: l => if x =? q then n :: x :: l else x :: ins_before q n l end.

(** What follows [x] in [l], if anything does. *)
Fixpoint succ_of (x : Z) (l : list Z) : option Z :=
  match l with [] => None | y :: l => if y =? x then list.head l else succ_of x l end.

(** The structure of a node, [NULL] if there is none. *)
Definition obj (off : Z) (o : option Z) : Z := match o with Some n => n - off | None => 0 end.

(** A node may be added if it has cells and is neither a head nor on a list. *)
Definition fresh (D : gset Z) (A : gmap Z (list Z)) (n : Z) : bool := bool_decide (n ∈ D /\ n ∉ nodes A).

(** What the caller gets and the lists thereafter; [None] if the operation may not be
    called. *)
Definition spec (D : gset Z) (o : lop) (A : gmap Z (list Z)) : option (list Z * gmap Z (list Z)) :=
  match o with
  | OInit h => if fresh D A h then Some ([], <[h := []]> A) else None
  | OAdd h n => l ← A !! h; if fresh D A n then Some ([], <[h := n :: l]> A) else None
  | OAddTail h n => l ← A !! h; if fresh D A n then Some ([], <[h := l ++ [n]]> A) else None
  | OAddAfter h p n =>
      l ← A !! h;
      if fresh D A n && bool_decide (p ∈ h :: l) then Some ([], <[h := if p =? h then n :: l else ins_after p n l]> A) else None
  | OAddBefore h q n =>
      l ← A !! h;
      if fresh D A n && bool_decide (q ∈ h :: l) then Some ([], <[h := if q =? h then l ++ [n] else ins_before q n l]> A) else None
  | ODel h n | ODelFrom h n =>
      l ← A !! h; if bool_decide (n ∈ l) then Some ([], <[h := List.filter (fun x => negb (x =? n)) l]> A) else None
  | OPop h off => l ← A !! h; Some ([obj off (list.head l)], <[h := tail l]> A)
  | OAppend to from =>
      l1 ← A !! to; l2 ← A !! from; if to =? from then None else Some ([], <[from := []]> (<[to := l1 ++ l2]> A))
  | OPrepend to from =>
      l1 ← A !! to; l2 ← A !! from; if to =? from then None else Some ([], <[from := []]> (<[to := l2 ++ l1]> A))
  | OEmpty h => l ← A !! h; Some ([Z.b2z (match l with [] => true | _ => false end)], A)
  | OTop h off => l ← A !! h; Some ([obj off (list.head l)], A)
  | OTail h off => l ← A !! h; Some ([obj off (list.last l)], A)
  | ONext h i off => l ← A !! h; if bool_decide (i + off ∈ l) then Some ([obj off (succ_of (i + off) l)], A) else None
  | OPrev h i off => l ← A !! h; if bool_decide (i + off ∈ l) then Some ([obj off (succ_of (i + off) (rev l))], A) else None
  | OForEach h => l ← A !! h; Some (l, A)
  | OForEachRev h => l ← A !! h; Some (rev l, A)
  | OForEachSafe h keep => l ← A !! h; Some ([], <[h := List.filter keep l]> A)
  end.

(** The same by the code.  A loop that takes more rounds than there are cells does not
    count as one that returns. *)
Definition loop_end {X} (o : option (res X)) : res X := match o with Some r => r | None => Bug end.

Definition exec (o : lop) (m : lmem) : res (list Z * lmem) :=
  let fuel := S (size (dom (nx m))) in
  let upd (r : res lmem) : res (list Z * lmem) := m ← r; Ok ([], m) in
  let out (r : res Z) : res (list Z * lmem) := v ← r; Ok ([v], m) in
  match o with
  | OInit h => upd (list_head_init h m)
  | OAdd h n => upd (list_add h n m)
  | OAddTail h n => upd (list_add_tail h n m)
  | OAddAfter _ p n => upd (list_add_after p n m)
  | OAddBefore _ q n => upd (list_add_before q n m)
  | ODel _ n => upd (list_del n m)
  | ODelFrom h n => upd (list_del_from h n m)
  | OPop h off => '(v, m) ← list_pop_ h off m; Ok ([v], m)
  | OAppend to from => upd (list_append_list to from m)
  | OPrepend to from => upd (list_prepend_list to from m)
  | OEmpty h => b ← list_empty h m; Ok ([Z.b2z b], m)
  | OTop h off => out (list_top_ h off m)
  | OTail h off => out (list_tail_ h off m)
  | ONext h i off => out (list_next h i off m)
  | OPrev h i off => out (list_prev h i off m)
  | OForEach h => l ← loop_end (list_for_each fuel h m); Ok (l, m)
  | OForEachRev h => l ← loop_end (list_for_each_rev fuel h m); Ok (l, m)
  | OForEachSafe h keep => upd (loop_end (list_for_each_safe fuel h keep m))
  end.

Fixpoint spec_run (D : gset Z) (os : list lop) (A : gmap Z (list Z)) : option (list (list Z) * gmap Z (list Z)) :=
  match os with
  | [] => Some ([], A)
  | o :: os => '(v, A) ← spec D o A; '(vs, A) ← spec_run D os A; Some (v :: vs, A)
  end.

Fixpoint exec_run (os : list lop) (m : lmem) : res (list (list Z) * lmem) :=
  match os with
  | [] => Ok ([], m)
  | o :: os => '(v, m) ← exec o m; '(vs, m) ← exec_run os m; Ok (v :: vs, m)
  end.

Lemma split_at (x : Z) (l : list Z) : x ∈ l -> exists l1 l2, l = l1 ++ x :: l2 /\ x ∉ l1.
Proof.
  induction l as [|y l IH]; [by intros ?%not_elem_of_nil|]. intros Hx. destruct (decide (y = x)) as [->|Hne].
  - exists [], l. split; [done|]. apply not_elem_of_nil.
  - apply elem_of_cons in Hx as [->|Hx]; [done|]. destruct (IH Hx) as (l1 & l2 & -> & Hn).
    exists (y :: l1), l2. split; [done|]. rewrite not_elem_of_cons. by split.
Qed.

Lemma ins_after_at p n l1 l2 : p ∉ l1 -> ins_after p n (l1 ++ p :: l2) = l1 ++ p :: n :: l2.
Proof.
  induction l1 as [|x l1 IH]; cbn; [by rewrite Z.eqb_refl|]. intros [Hx Hl]%not_elem_of_cons.
  destruct (Z.eqb_spec x p); [congruence|]. by rewrite IH.
Qed.

Lemma ins_before_at q n l1 l2 : q ∉ l1 -> ins_before q n (l1 ++ q :: l2) = l1 ++ n :: q :: l2.
Proof.
  induction l1 as [|x l1 IH]; cbn; [by rewrite Z.eqb_refl|]. intros [Hx Hl]%not_elem_of_cons.
  destruct (Z.eqb_spec x q); [congruence|]. by rewrite IH.
Qed.

Lemma succ_of_at x l1 l2 : x ∉ l1 -> succ_of x (l1 ++ x :: l2) = list.head l2.
Proof.
  induction l1 as [|y l1 IH]; cbn; [by rewrite Z.eqb_refl|]. intros [Hx Hl]%not_elem_of_cons.
  destruct (Z.eqb_spec y x); [congruence|]. by rewrite IH.
Qed.

Lemma filter_out_id n l : n ∉ l -> List.filter (fun x => negb (x =? n)) l = l.
Proof.
  induction l as [|y l IH]; cbn; [done|]. intros [Hx Hl]%not_elem_of_cons.
  destruct (Z.eqb_spec y n); [congruence|]. cbn. by rewrite IH.
Qed.

Lemma filter_out_at n l1 l2 : NoDup (l1 ++ n :: l2) -> List.filter (fun x => negb (x =? n)) (l1 ++ n :: l2) = l1 ++ l2.
Proof.
  intros Hd. rewrite <- Permutation_middle in Hd. apply list.NoDup_cons in Hd as [Hn _].
  rewrite List.filter_app. cbn. rewrite Z.eqb_refl. cbn. rewrite <- List.filter_app. by apply filter_out_id.
Qed.

Lemma head_rev (l : list Z) : list.head (rev l) = list.last l.
Proof. destruct l as [|x l _] using rev_ind; [done|]. by rewrite rev_app_distr, last_snoc. Qed.

Lemma fresh_spec D A n : fresh D A n = true -> n ∈ D /\ n ∉ nodes A.
Proof. by intros ?%bool_decide_eq_true. Qed.

(** The loops of an operation have fuel: the nodes of a list are cells. *)
Lemma rep_fuel D m A h l : rep D m A -> A !! h = Some l -> (length l < S (size (dom (nx m))))%nat.
Proof.
  intros R H. pose proof (rep_nodup _ _ _ R _ _ H) as Hd.
  assert (Hs : list_to_set (h :: l) ⊆ dom (nx m)).
  { intros x Hx. rewrite (good_nx _ _ _ R). apply (good_in _ _ _ _ R). fold (nodes A).
    rewrite (nodes_split _ _ _ H), app_comm_cons. apply elem_of_app. left. by apply elem_of_list_to_set in Hx. }
  apply subseteq_size in Hs. rewrite size_list_to_set in Hs by done. cbn in Hs. lia.
Qed.

Section Refines.
Context (D : gset Z) (m : lmem) (A : gmap Z (list Z)) (R : rep D m A).

(** Changes of a list at one place. *)
Lemma add_after_refines h l p n :
  A !! h = Some l -> n ∈ D -> n ∉ nodes A -> p ∈ h :: l ->
  exists m', list_add_after p n m = Ok m' /\ rep D m' (<[h := if p =? h then n :: l else ins_after p n l]> A).
Proof using R.
  intros H Hn Hf Hp. destruct (Z.eqb_spec p h) as [->|Hne].
  - by apply (rep_add_after _ _ _ R h [] l).
  - apply elem_of_cons in Hp as [->|Hp]; [done|]. destruct (split_at _ _ Hp) as (l1 & l2 & -> & Hn1).
    rewrite ins_after_at by done. rewrite cons_middle, app_assoc in H.
    pose proof (rep_add_after _ _ _ R _ _ _ n H Hn Hf) as Hr. rewrite last_of_snoc, <- app_assoc in Hr. exact Hr.
Qed.

Lemma add_before_refines h l q n :
  A !! h = Some l -> n ∈ D -> n ∉ nodes A -> q ∈ h :: l ->
  exists m', list_add_before q n m = Ok m' /\ rep D m' (<[h := if q =? h then l ++ [n] else ins_before q n l]> A).
Proof using R.
  intros H Hn Hf Hq. destruct (Z.eqb_spec q h) as [->|Hne].
  - apply (rep_add_before _ _ _ R h l []); [by rewrite app_nil_r|done..].
  - apply elem_of_cons in Hq as [->|Hq]; [done|]. destruct (split_at _ _ Hq) as (l1 & l2 & -> & Hn1).
    rewrite ins_before_at by done. by apply (rep_add_before _ _ _ R h l1 (q :: l2)).
Qed.

Lemma del_refines h l n :
  A !! h = Some l -> n ∈ l ->
  exists m', list_del n m = Ok m' /\ rep D m' (<[h := List.filter (fun x => negb (x =? n)) l]> A).
Proof using R.
  intros H Hn. destruct (split_at _ _ Hn) as (l1 & l2 & -> & _).
  pose proof (rep_nodup _ _ _ R _ _ H) as [_ Hd]%list.NoDup_cons. rewrite filter_out_at by done.
  by apply (rep_del _ _ _ R).
Qed.

(** Reads. *)
Lemma empty_refines h l : A !! h = Some l -> list_empty h m = Ok (match l with [] => true | _ => false end).
Proof using R.
  intros H. unfold list_empty. pose proof (rep_next _ _ _ R h [] l H) as Hn. cbn in Hn. rewrite Hn. cbn.
  destruct l as [|x l]; cbn; [by rewrite Z.eqb_refl|]. pose proof (rep_nodup _ _ _ R _ _ H) as [Hd _]%list.NoDup_cons.
  destruct (Z.eqb_spec x h) as [->|]; [|done]. destruct Hd. by left.
Qed.

Lemma top_refines h l off : A !! h = Some l -> list_top_ h off m = Ok (obj off (list.head l)).
Proof using R.
  intros H. unfold list_top_. rewrite (empty_refines _ _ H). pose proof (rep_next _ _ _ R h [] l H) as Hn. cbn in *.
  destruct l; [done|]. by rewrite Hn.
Qed.

Lemma tail_refines h l off : A !! h = Some l -> list_tail_ h off m = Ok (obj off (list.last l)).
Proof using R.
  intros H. unfold list_tail_. rewrite (empty_refines _ _ H). rewrite <- (app_nil_r l) in H.
  pose proof (rep_prev _ _ _ R h l [] H) as Hn. cbn in *.
  destruct l as [|x l _] using rev_ind; [done|]. rewrite Hn, last_of_snoc, last_snoc. by destruct l.
Qed.

Lemma or_null_first h l off : h ∉ l -> list_entry_or_null h (first_of h l) off = obj off (list.head l).
Proof using.
  intros Hn. unfold list_entry_or_null. destruct l as [|x l]; cbn; [by rewrite Z.eqb_refl|].
  destruct (Z.eqb_spec x h) as [->|]; [|done]. destruct Hn. by left.
Qed.

Lemma or_null_last h l off : h ∉ l -> list_entry_or_null h (last_of h l) off = obj off (list.last l).
Proof using.
  intros Hn. unfold list_entry_or_null. destruct l as [|x l _] using rev_ind; [cbn; by rewrite Z.eqb_refl|].
  rewrite last_of_snoc, last_snoc. destruct (Z.eqb_spec x h) as [->|]; [|done]. destruct Hn. apply elem_of_app. right. by left.
Qed.

Lemma next_refines h l i off : A !! h = Some l -> i + off ∈ l -> list_next h i off m = Ok (obj off (succ_of (i + off) l)).
Proof using R.
  intros H Hi. pose proof (rep_nodup _ _ _ R _ _ H) as [Hh _]%list.NoDup_cons.
  destruct (split_at _ _ Hi) as (l1 & l2 & -> & Hn1). rewrite succ_of_at by done.
  rewrite cons_middle, app_assoc in H. pose proof (rep_next _ _ _ R _ _ _ H) as Hn. rewrite last_of_snoc in Hn.
  unfold list_next. rewrite Hn. cbn. rewrite or_null_first; [done|]. set_solver.
Qed.

Lemma prev_refines h l i off : A !! h = Some l -> i + off ∈ l -> list_prev h i off m = Ok (obj off (succ_of (i + off) (rev l))).
Proof using R.
  intros H Hi. pose proof (rep_nodup _ _ _ R _ _ H) as [Hh Hd]%list.NoDup_cons.
  destruct (split_at _ _ Hi) as (l1 & l2 & -> & Hn1).
  pose proof (rep_prev _ _ _ R _ _ _ H) as Hn. rewrite first_of_cons in Hn.
  unfold list_prev. rewrite Hn. cbn. rewrite or_null_last by set_solver.
  rewrite rev_app_distr. cbn [rev]. rewrite <- app_assoc. cbn [app]. rewrite succ_of_at, head_rev; [done|].
  rewrite <- Permutation_middle in Hd. apply list.NoDup_cons in Hd as [Hd _]. rewrite elem_of_app in Hd.
  rewrite <- Permutation_rev. tauto.
Qed.
End Refines.

(** The operation that the specification allows does on memory what it says. *)
Lemma exec_refines D m A o v A' :
  rep D m A -> spec D o A = Some (v, A') -> exists m', exec o m = Ok (v, m') /\ rep D m' A'.
Proof.
  intros R Hs.
  assert (Hupd : forall r A1, (exists m', r = Ok m' /\ rep D m' A1) ->
    exists m', (m ← r; Ok ([] : list Z, m)) = Ok ([], m') /\ rep D m' A1) by (intros r A1 (m' & -> & ?); by exists m').
  destruct o; cbn [spec exec] in *;
    try (destruct (A !! _) as [l|] eqn:El in Hs; cbn [mbind option_bind] in Hs; [|done]).
  - destruct (fresh _ _ _) eqn:Ef; [|done]. apply fresh_spec in Ef as [? ?]. injection Hs as <- <-. apply Hupd. by apply rep_head_init.
  - destruct (fresh _ _ _) eqn:Ef; [|done]. apply fresh_spec in Ef as [? ?]. injection Hs as <- <-. apply Hupd. by apply rep_add.
  - destruct (fresh _ _ _) eqn:Ef; [|done]. apply fresh_spec in Ef as [? ?]. injection Hs as <- <-. apply Hupd. by apply rep_add_tail.
  - destruct (fresh _ _ _ && _) eqn:Ef; [|done]. apply andb_true_iff in Ef as [[? ?]%fresh_spec ?%bool_decide_eq_true].
    injection Hs as <- <-. apply Hupd. by apply add_after_refines.
  - destruct (fresh _ _ _ && _) eqn:Ef; [|done]. apply andb_true_iff in Ef as [[? ?]%fresh_spec ?%bool_decide_eq_true].
    injection Hs as <- <-. apply Hupd. by apply add_before_refines.
  - case_bool_decide; [|done]. injection Hs as <- <-. apply Hupd. by apply del_refines.
  - case_bool_decide; [|done]. injection Hs as <- <-. apply Hupd. by apply del_refines.
  - injection Hs as <- <-. unfold list_pop_. rewrite (empty_refines _ _ _ R _ _ El). cbn [mbind res_bind].
    destruct l as [|x l]; [exists m; cbn; by rewrite insert_id|].
    pose proof (rep_next _ _ _ R h [] (x :: l) El) as Hn. change (last_of h []) with h in Hn. rewrite Hn, first_of_cons. cbn [mbind res_bind].
    destruct (rep_del _ _ _ R h [] x l El) as (m' & -> & R'). by exists m'.
  - destruct (A !! to) as [l1|] eqn:El1; cbn [mbind option_bind] in Hs; [|done].
    destruct (A !! from) as [l2|] eqn:El2; cbn [mbind option_bind] in Hs; [|done]. destruct (Z.eqb_spec to from); [done|]. injection Hs as <- <-.
    apply Hupd. by apply rep_append.
  - destruct (A !! to) as [l1|] eqn:El1; cbn [mbind option_bind] in Hs; [|done].
    destruct (A !! from) as [l2|] eqn:El2; cbn [mbind option_bind] in Hs; [|done]. destruct (Z.eqb_spec to from); [done|]. injection Hs as <- <-.
    apply Hupd. by apply rep_prepend.
  - injection Hs as <- <-. rewrite (empty_refines _ _ _ R _ _ El). by exists m.
  - injection Hs as <- <-. rewrite (top_refines _ _ _ R _ _ _ El). by exists m.
  - injection Hs as <- <-. rewrite (tail_refines _ _ _ R _ _ _ El). by exists m.
  - case_bool_decide; [|done]. injection Hs as <- <-. rewrite (next_refines _ _ _ R _ _ _ _ El) by done. by exists m.
  - case_bool_decide; [|done]. injection Hs as <- <-. rewrite (prev_refines _ _ _ R _ _ _ _ El) by done. by exists m.
  - injection Hs as <- <-. pose proof (rep_fuel _ _ _ _ _ R El) as Hf.
    pose proof (rep_next _ _ _ R h [] l El) as Hn. unfold list_for_each. change (last_of h []) with h in Hn. rewrite Hn.
    rewrite (rep_for_each_loop _ _ _ _ [] _ _ R El Hf). by exists m.
  - injection Hs as <- <-. pose proof (rep_fuel _ _ _ _ _ R El) as Hf. rewrite <- (app_nil_r l) in El.
    pose proof (rep_prev _ _ _ R h l [] El) as Hn. unfold list_for_each_rev. change (first_of h []) with h in Hn. rewrite Hn.
    rewrite (rep_for_each_rev_loop _ _ _ _ _ _ _ R El Hf). by exists m.
  - injection Hs as <- <-. pose proof (rep_fuel _ _ _ _ _ R El) as Hf. apply Hupd.
    pose proof (rep_next _ _ _ R h [] l El) as Hn. unfold list_for_each_safe. change (last_of h []) with h in Hn. rewrite Hn. cbn [mbind res_bind].
    assert (exists y, get_next (first_of h l) m = Ok y) as [y Hy].
    { destruct l as [|x l]; [exists h; exact Hn|]. exists (first_of h l). apply (rep_next _ _ _ R h [x] l El). }
    rewrite Hy. cbn [mbind res_bind]. destruct (rep_for_each_safe_loop D _ h keep m A [] l y R El Hf Hy) as (m' & -> & R'). by exists m'.
Qed.

Lemma run_refines D m A os vs A' :
  rep D m A -> spec_run D os A = Some (vs, A') -> exists m', exec_run os m = Ok (vs, m') /\ rep D m' A'.
Proof.
  revert m A vs. induction os as [|o os IH]; intros m A vs R Hs; cbn in *.
  - injection Hs as <- <-. by exists m.
  - destruct (spec D o A) as [[v A1]|] eqn:E1; cbn in Hs; [|done].
    destruct (spec_run D os A1) as [[vs1 A2]|] eqn:E2; cbn in Hs; [|done]. injection Hs as <- <-.
    destruct (exec_refines _ _ _ _ _ _ R E1) as (m1 & -> & R1). cbn.
    destruct (IH _ _ _ R1 E2) as (m2 & -> & R2). by exists m2.
Qed.

Lemma rep_empty D m : dom (nx m) = D -> dom (pv m) = D -> rep D m ∅.
Proof. intros H1 H2. split; [done|done|constructor|done|]. intros x y Hx. by apply not_elem_of_nil in Hx. Qed.

(** ** The consistency check *)

(** The pointers from [h] on are those of a list with the nodes [l]. *)
Definition ring (m : lmem) (h : Z) (l : list Z) : Prop := NoDup (h :: l) /\ linked m (edges h l h).

Section Check.
Context (D : gset Z) (m : lmem) (Hnx : dom (nx m) = D) (Hpv : dom (pv m) = D).
Context (Hcl : forall a b, nx m !! a = Some b -> b ∈ D).

(** The check has come from [h] over [l], where all links were right, and is at [n].  A
    node that it has been at has its [prev] on the way, so it stops there. *)
Lemma check_loop_returns fuel h l n F :
  (forall y, edges h l y = F ++ [(last_of h l, y)]) -> linked m F -> nx m !! last_of h l = Some n ->
  NoDup (h :: l) -> list_to_set (h :: l) ⊆ D -> (size D < length (h :: l) + fuel)%nat ->
  exists b, check_loop fuel h (last_of h l) n m = Some (Ok b) /\ (b = true -> exists l', ring m h l').
Proof using Hnx Hpv Hcl.
  revert l n F. induction fuel as [|fuel IH]; intros l n F HF HL Hn Hd Hs Hf.
  { apply subseteq_size in Hs. rewrite size_list_to_set in Hs by done. lia. }
  assert (HnD : n ∈ D) by eauto. cbn [check_loop].
  destruct (get_dom _ _ _ Hpv HnD) as [q Hq]. destruct (get_dom _ _ _ Hnx HnD) as [x Hx].
  assert (Hlink : forall v, pv m !! n = Some v -> v = last_of h l -> linked m (F ++ [(last_of h l, n)])).
  { intros v Hv ->. apply linked_app. split; [done|]. apply linked_cons. split; [done|]. intros ? ? []%not_elem_of_nil. }
  assert (Hqs : pv m !! n = Some q) by (unfold get in Hq; destruct (pv m !! n); congruence).
  assert (Hxs : nx m !! n = Some x) by (unfold get in Hx; destruct (nx m !! n); congruence).
  destruct (Z.eqb_spec n h) as [->|Hne].
  - unfold get_prev. rewrite Hq. eexists; split; [done|]. intros E%Z.eqb_eq. exists l. split; [done|].
    rewrite HF. eauto.
  - unfold get_prev, get_next. rewrite Hq, Hx. cbn [mbind res_bind]. destruct (Z.eqb_spec q (last_of h l)) as [Eq|]; [|by exists false].
    cbn [negb]. assert (Hnl : n ∉ l).
    { intros Hin. assert (Hin' : n ∈ l ++ [n]) by (apply elem_of_app; by left).
      pose proof (edges_snd h l n) as Es. rewrite HF, fmap_app in Es. apply app_inj_2 in Es as [Es _]; [|done].
      rewrite <- Es in Hin. apply list_elem_of_fmap in Hin as ([a b] & Eb & Hab). cbn in Eb. subst b.
      destruct (HL _ _ Hab) as [_ Hp]. rewrite Hqs in Hp. injection Hp as <-. rewrite Eq in Hab.
      pose proof (edges_fst h l n) as Ef. rewrite HF, fmap_app in Ef. rewrite <- Ef in Hd.
      apply list.NoDup_app in Hd as (_ & Hd & _). apply (Hd (last_of h l)); [|by left].
      apply list_elem_of_fmap. by exists (last_of h l, n). }
    pose proof (IH (l ++ [n]) x (F ++ [(last_of h l, n)])) as IH'. rewrite last_of_snoc in IH'. apply IH'; clear IH IH'.
    + intros y. rewrite edges_app, HF. done.
    + eauto.
    + done.
    + rewrite app_comm_cons, Permutation_app_comm. cbn. apply list.NoDup_cons. split; [|done].
      rewrite not_elem_of_cons. done.
    + rewrite app_comm_cons, list_to_set_app_L. set_solver.
    + cbn in *. rewrite length_app. cbn. lia.
Qed.

(** On a list all links are right. *)
Lemma check_loop_true fuel h p l :
  h ∉ l -> linked m (edges p l h) -> (length l < fuel)%nat -> check_loop fuel h p (first_of h l) m = Some (Ok true).
Proof using.
  revert p l. induction fuel as [|fuel IH]; intros p l Hh HL Hf; [lia|]. cbn [check_loop].
  destruct l as [|x l].
  - cbn in *. rewrite Z.eqb_refl. unfold get_prev. apply linked_cons in HL as [[_ Hp] _].
    rewrite (get_some _ _ _ Hp). cbn. by rewrite Z.eqb_refl.
  - rewrite first_of_cons. rewrite not_elem_of_cons in Hh. destruct Hh as [Hh1 Hh2].
    destruct (Z.eqb_spec x h); [congruence|]. cbn in HL. apply linked_cons in HL as [[_ Hp] HL].
    unfold get_prev, get_next. rewrite (get_some _ _ _ Hp). cbn [mbind res_bind].
    destruct (edges_first l h) as [G HG]. pose proof HL as HL'. rewrite HG in HL'. apply linked_cons in HL' as [[Hx _] _].
    rewrite (get_some _ _ _ Hx). cbn. rewrite Z.eqb_refl. cbn. apply IH; [done|done|cbn in Hf; lia].
Qed.

Lemma ring_next h l : ring m h l -> nx m !! h = Some (first_of h l).
Proof using.
  intros [_ HL]. destruct (edges_first l h) as [G HG]. rewrite HG in HL. by apply linked_cons in HL as [[Hx _] _].
Qed.

Lemma ring_size h l : ring m h l -> (length l < size D)%nat.
Proof using Hnx.
  intros [Hd HL]. assert (Hs : list_to_set (h :: l) ⊆ D).
  { intros x Hx. apply elem_of_list_to_set in Hx. rewrite <- (edges_fst h l h) in Hx.
    apply list_elem_of_fmap in Hx as ([a b] & -> & Hin). destruct (HL _ _ Hin). rewrite <- Hnx. apply elem_of_dom. by exists b. }
  apply subseteq_size in Hs. rewrite size_list_to_set in Hs by done. cbn in Hs. lia.
Qed.

Lemma list_check_ring h l fuel : ring m h l -> (size D <= fuel)%nat -> list_check fuel h m = Some (Ok true).
Proof using Hnx.
  intros HR Hf. unfold list_check, list_check_node, get_next. rewrite (get_some _ _ _ (ring_next _ _ HR)).
  pose proof (ring_size _ _ HR). destruct HR as [[Hd _]%list.NoDup_cons HL]. apply check_loop_true; [done|done|lia].
Qed.

Lemma list_check_spec h fuel :
  h ∈ D -> (size D < fuel)%nat ->
  exists b, list_check fuel h m = Some (Ok b) /\ (b = true <-> exists l, ring m h l).
Proof using Hnx Hpv Hcl.
  intros Hh Hf. unfold list_check, list_check_node, get_next. destruct (get_dom _ _ _ Hnx Hh) as [n Hn]. rewrite Hn.
  assert (Hns : nx m !! h = Some n) by (unfold get in Hn; destruct (nx m !! h); congruence).
  destruct (check_loop_returns fuel h [] n [] ltac:(done) ltac:(by intros ? ? []%not_elem_of_nil) Hns) as (b & E & Hb).
  - apply NoDup_singleton.
  - cbn. set_solver.
  - cbn. lia.
  - exists b. change (last_of h []) with h in E. split; [done|]. split; [done|]. intros (l & HR).
    pose proof (list_check_ring h l fuel HR ltac:(lia)) as E'. unfold list_check, list_check_node, get_next in E'.
    rewrite Hn in E'. congruence.
Qed.
End Check.

Lemma rep_ring D m A h l : rep D m A -> A !! h = Some l -> ring m h l.
Proof.
  intros R H. split; [by eapply rep_nodup|]. apply (linked_app _ _ (links (delete h A))).
  eapply linked_perm; [by apply links_split|]. apply R.
Qed.

(** ** Properties *)

(** C21. The operations on circular lists do on memory what their names say on sequences:
    if the lists are described by a map from heads to sequences of nodes, a run of any
    operations, each on any of the lists, that the description allows (a node that is
    added is not on a list, one that is deleted or followed is, lists that are joined are
    two) does not fail, gives the callers what the description gives them (the tops,
    tails, popped, next and previous structures, NULL at the ends; the order of the loops
    in both directions; the loop that deletes as it goes visits every node), leaves the
    pointers of the described lists, and the consistency check passes on each of them. *)
Theorem list_ops_refine D m os vs A :
  dom (nx m) = D -> dom (pv m) = D -> spec_run D os ∅ = Some (vs, A) ->
  exists m', exec_run os m = Ok (vs, m')
    /\ forall h l, A !! h = Some l -> ring m' h l /\ list_check (size D) h m' = Some (Ok true).
Proof.
  intros H1 H2 Hs. destruct (run_refines _ _ _ _ _ _ (rep_empty _ _ H1 H2) Hs) as (m' & E & R).
  exists m'. split; [done|]. intros h l Hl. pose proof (rep_ring _ _ _ _ _ R Hl) as HR. split; [done|].
  by apply (list_check_ring D m' (good_nx _ _ _ R) h l).
Qed.

Definition ex_mem : lmem :=
  let c := list_to_map ((fun a => (a, 0)) <$> [100; 200; 1; 2; 3; 4; 5]) in Lmem c c.
Definition ex_ops : list lop :=
  [OInit 100; OInit 200; OAddTail 100 1; OAdd 100 2; OAddTail 200 3; OAddAfter 100 2 4; OAddBefore 200 200 5;
   OAppend 100 200; OForEach 100; OForEachRev 100; OPop 100 0; OForEachSafe 100 Z.odd; OForEach 100; OEmpty 200; OPrepend 200 100;
   ONext 200 1 0; OPrev 200 1 0; ODel 200 3; OTail 200 0].

Lemma list_ops_refine_witness :
  exists vs A, spec_run (dom (nx ex_mem)) ex_ops ∅ = Some (vs, A) /\ vs !! 8%nat = Some [2; 4; 1; 3; 5]
    /\ exists m', exec_run ex_ops ex_mem = Ok (vs, m')
         /\ forall h l, A !! h = Some l -> ring m' h l /\ list_check (size (dom (nx ex_mem))) h m' = Some (Ok true).
Proof.
  destruct (spec_run (dom (nx ex_mem)) ex_ops ∅) as [[vs A]|] eqn:E; [|vm_compute in E; discriminate].
  exists vs, A. split; [reflexivity|]. split; [vm_compute in E; injection E as <- <-; reflexivity|].
  exact (list_ops_refine _ ex_mem ex_ops vs A eq_refl eq_refl E).
Defined.

(** C37. [list_check] returns on every memory whose pointers lead to nodes, also one whose
    links are corrupt and lead round without ever coming back to the head, after at most
    as many rounds as there are nodes; and what it returns is right: it reports no
    corruption exactly if the pointers from the head on are those of a list. *)
Theorem list_check_terminates D m h :
  dom (nx m) = D -> dom (pv m) = D -> (forall a b, nx m !! a = Some b -> b ∈ D) -> h ∈ D ->
  exists b, list_check (S (size D)) h m = Some (Ok b) /\ (b = true <-> exists l, ring m h l).
Proof. intros H1 H2 Hc Hh. by apply (list_check_spec D); [..|lia]. Qed.

(** The nodes 2 and 3 point at each other and never lead back to the head 1. *)
Definition ex_corrupt : lmem := Lmem {[1 := 2; 2 := 3; 3 := 2]} {[1 := 3; 2 := 1; 3 := 2]}.

Lemma list_check_terminates_witness :
  list_check 4 1 ex_corrupt = Some (Ok false) /\ ~ (exists l, ring ex_corrupt 1 l).
Proof.
  assert (E : list_check 4 1 ex_corrupt = Some (Ok false)) by (vm_compute; reflexivity). split; [exact E|].
  intros HR. destruct (list_check_terminates {[1; 2; 3]} ex_corrupt 1) as (b & E' & Hb).
  - set_solver.
  - set_solver.
  - intros a b Hab. apply elem_of_map_to_list in Hab. vm_compute in Hab. set_solver.
  - set_solver.
  - apply Hb in HR. subst b. change (S (size {[1; 2; 3]})) with 4%nat in E'. congruence.
Defined.
