(* ===== verification/Hlist.v ===== *)
(** * inc/base/list.h, inc/runtime/rculist.h: lists with one head pointer

    The lists of the hash tables: forward pointers, and in each node the address of the
    pointer to it.  The operations of the two headers have the same statements in the same
    order; in the second one a reader may run through the list between any two of them.
    A writer that adds and deletes nodes, one store at a time, and a reader that follows
    the pointers at the same time. *)

From S2P Require Import Prelude Dlist DlistThms.

(** ** Definitions *)

(** A cell that holds a pointer to a node, [head] of a head or [next] of a node, has the
    address of its structure ([next] is the first field); [pprev] of a node by the address
    of the node.  [NULL] is 0. *)
Record hmem := Hmem { hx : gmap Z Z; hp : gmap Z Z }.

Definition put_next (c v : Z) (m : hmem) : res hmem := _ ← get (hx m) c; Ok (Hmem (<[c := v]> (hx m)) (hp m)).
Definition put_pprev (n v : Z) (m : hmem) : res hmem := _ ← get (hp m) n; Ok (Hmem (hx m) (<[n := v]> (hp m))).

Definition hlist_init_head (h : Z) (m : hmem) : res hmem := put_next h 0 m.

Definition hlist_add_head (h n : Z) (m : hmem) : res hmem :=
  head ← get (hx m) h; m ← put_next n head m; m ← put_pprev n h m; m ← put_next h n m;
  if head =? 0 then Ok m else put_pprev head n m.

Definition hlist_del (n : Z) (m : hmem) : res hmem :=
  pp ← get (hp m) n; x ← get (hx m) n; m ← put_next pp x m;
  x ← get (hx m) n; if x =? 0 then Ok m else (pp ← get (hp m) n; put_pprev x pp m).

Definition hlist_del_head (h : Z) (m : hmem) : res hmem :=
  x ← get (hx m) h; if x =? 0 then Ok m else hlist_del x m.

Definition hlist_empty (h : Z) (m : hmem) : res bool := x ← get (hx m) h; Ok (x =? 0).

Definition rcu_hlist_init_head := hlist_init_head.
Definition rcu_hlist_add_head := hlist_add_head.
Definition rcu_hlist_del := hlist_del.
Definition rcu_hlist_empty := hlist_empty.

(** The stores of the writer, one by one. *)
Inductive wr := WNext (c v : Z) | WPprev (n v : Z).

Definition do_wr (w : wr) (m : hmem) : res hmem :=
  match w with WNext c v => put_next c v m | WPprev n v => put_pprev n v m end.

Fixpoint do_wrs (ws : list wr) (m : hmem) : res hmem :=
  match ws with [] => Ok m | w :: ws => m ← do_wr w m; do_wrs ws m end.

Definition fix_pprev (x v : Z) : list wr := if x =? 0 then [] else [WPprev x v].

Definition add_writes (h n : Z) (m : hmem) : res (list wr) :=
  head ← get (hx m) h; Ok ([WNext n head; WPprev n h; WNext h n] ++ fix_pprev head n).

Definition del_writes (n : Z) (m : hmem) : res (list wr) :=
  pp ← get (hp m) n; x ← get (hx m) n; Ok (WNext pp x :: fix_pprev x pp).

(** ** A reader beside a writer

    [tgt] is the list once the stores in [pend] are done, [ret] the nodes whose deletion
    has begun; they are not reused, since the reader is in a critical section.  The reader
    is about to read the cell [rpos] and has seen the nodes [seen]. *)
Record hst := Hst { hm : hmem; tgt : list Z; ret : list Z; pend : list wr; rpos : option Z; seen : list Z }.

Inductive hchoice := HAdd (n : Z) | HDel (n : Z) | HWrite | HRead.

(** [None] if there is nothing of the kind to do. *)
Definition hstep (h : Z) (c : hchoice) (s : hst) : option (res hst) :=
  match c with
  | HAdd n =>
      if (match pend s with [] => true | _ => false end)
         && bool_decide (n <> 0 /\ n <> h /\ (n ∉ tgt s) /\ (n ∉ ret s) /\ is_Some (hx (hm s) !! n) /\ is_Some (hp (hm s) !! n))
      then Some (ws ← add_writes h n (hm s); Ok (Hst (hm s) (n :: tgt s) (ret s) ws (rpos s) (seen s)))
      else None
  | HDel n =>
      if (match pend s with [] => true | _ => false end) && bool_decide (n ∈ tgt s)
      then Some (ws ← del_writes n (hm s);
                 Ok (Hst (hm s) (List.filter (fun x => negb (x =? n)) (tgt s)) (n :: ret s) ws (rpos s) (seen s)))
      else None
  | HWrite =>
      match pend s with
      | [] => None
      | w :: ws => Some (m ← do_wr w (hm s); Ok (Hst m (tgt s) (ret s) ws (rpos s) (seen s)))
      end
  | HRead =>
      match rpos s with
      | None => None
      | Some c =>
          Some (x ← get (hx (hm s)) c;
                Ok (if x =? 0 then Hst (hm s) (tgt s) (ret s) (pend s) None (seen s)
                    else Hst (hm s) (tgt s) (ret s) (pend s) (Some x) (seen s ++ [x])))
      end
  end.

(** A choice for which there is nothing to do is passed over. *)
Fixpoint hrun (h : Z) (cs : list hchoice) (s : hst) : res hst :=
  match cs with
  | [] => Ok s
  | c :: cs => match hstep h c s with None => hrun h cs s | Some r => s ← r; hrun h cs s end
  end.

Definition hinit (h : Z) (m : hmem) (l : list Z) : hst := Hst m l [] [] (Some h) [].

(** ** Lists in memory *)

Definition fwd (c : gmap Z Z) (E : list (Z * Z)) : Prop := forall x y, (x, y) ∈ E -> c !! x = Some y.

(** From the cell [c] on the reader finds the nodes [ns]. *)
Definition chain (cs : gmap Z Z) (c : Z) (ns : list Z) : Prop := fwd cs (edges c ns 0).

Record hgood (m : hmem) (h : Z) (l : list Z) : Prop := Hgood {
  hg_nodup : NoDup (h :: l);
  hg_null : 0 ∉ l;
  hg_next : chain (hx m) h l;
  hg_pprev : forall x y, (x, y) ∈ edges h l 0 -> y <> 0 -> hp m !! y = Some x
}.

Lemma fwd_cons c x y E : fwd c ((x, y) :: E) <-> c !! x = Some y /\ fwd c E.
Proof.
  split; [intros H; split; [apply H; by left|intros a b Hab; apply H; by right]|].
  intros [H1 H2] a b [[= -> ->]|Hin]%elem_of_cons; auto.
Qed.

Lemma fwd_app c E1 E2 : fwd c (E1 ++ E2) <-> fwd c E1 /\ fwd c E2.
Proof.
  split.
  - intros H. split; intros x y Hin; apply H, elem_of_app; auto.
  - intros [H1 H2] x y [?|?]%elem_of_app; auto.
Qed.

Lemma fwd_put c E a v : fwd c E -> a ∉ fst <$> E -> fwd (<[a := v]> c) E.
Proof.
  intros H Ha x y Hin. rewrite lookup_insert_ne; [by apply H|]. intros ->. apply Ha. apply list_elem_of_fmap. by exists (x, y).
Qed.

Lemma chain_cons cs c x ns : chain cs c (x :: ns) <-> cs !! c = Some x /\ chain cs x ns.
Proof. apply fwd_cons. Qed.

Lemma chain_first cs c ns : chain cs c ns -> cs !! c = Some (first_of 0 ns).
Proof. destruct (edges_first ns 0) as [G HG]. unfold chain. rewrite HG. by intros [? _]%fwd_cons. Qed.

Lemma chain_put cs c ns a v : chain cs c ns -> a ∉ c :: ns -> chain (<[a := v]> cs) c ns.
Proof. intros H Ha. apply fwd_put; [done|]. by rewrite edges_fst. Qed.

Lemma first_in (l : list Z) x : first_of 0 l = x -> x <> 0 -> x ∈ l.
Proof. destruct l; cbn; [by intros <-|]. intros -> _. by left. Qed.

Lemma edges_pred_unique a b c n L z : NoDup (L ++ [z]) -> (a, n) ∈ edges c L z -> (b, n) ∈ edges c L z -> a = b.
Proof.
  intros Hd H1 H2. rewrite <- (edges_snd c) in Hd. apply list_elem_of_lookup_1 in H1 as [i Hi], H2 as [j Hj].
  assert (i = j). { eapply NoDup_lookup; [exact Hd| |]; rewrite list_lookup_fmap; [by rewrite Hi|by rewrite Hj]. }
  subst j. congruence.
Qed.

Lemma edges_target a b c L z : (a, b) ∈ edges c L z -> b ∈ L \/ b = z.
Proof.
  intros H. assert (Hs : b ∈ snd <$> edges c L z) by (apply list_elem_of_fmap; by exists (a, b)).
  rewrite edges_snd in Hs. apply elem_of_app in Hs as [?|?%list_elem_of_singleton]; auto.
Qed.

Lemma nodup_null (h : Z) L : NoDup (h :: L) -> 0 ∉ L -> NoDup (L ++ [0]).
Proof.
  intros [_ Hd]%list.NoDup_cons H0. apply list.NoDup_app. split; [done|]. split; [|apply NoDup_singleton].
  intros x Hx ->%list_elem_of_singleton. done.
Qed.

(** A node unlinked. *)
Lemma chain_unlink_at cs c a n b :
  chain cs c (a ++ n :: b) -> NoDup (c :: a ++ n :: b) -> chain (<[last_of c a := first_of 0 b]> cs) c (a ++ b).
Proof.
  intros Hc Hd. destruct (edges_last c a) as [F HF]. destruct (edges_first b 0) as [G HG].
  unfold chain in *. rewrite edges_app, HF, HG, <- app_assoc in Hc. cbn in Hc.
  apply fwd_app in Hc as [HcF [_ [_ HcG]%fwd_cons]%fwd_cons].
  pose proof (edges_fst c (a ++ n :: b) 0) as Ef. rewrite edges_app, HF, HG, !fmap_app in Ef. cbn in Ef.
  rewrite <- Ef, <- app_assoc in Hd. cbn in Hd. apply list.NoDup_app in Hd as (_ & Hd1 & [Hd2 Hd3]%list.NoDup_cons).
  rewrite (edges_cut _ _ _ _ F G) by done. apply fwd_app. split; [|apply fwd_cons; split; [apply lookup_insert_eq|]].
  - apply fwd_put; [done|]. intros HpF. apply (Hd1 _ HpF). by left.
  - apply fwd_put; [done|]. rewrite not_elem_of_cons in Hd2. tauto.
Qed.

Lemma chain_split cs c ns pp n :
  chain cs c ns -> cs !! pp = Some n -> n <> 0 -> pp ∈ c :: ns -> exists a b, ns = a ++ n :: b /\ last_of c a = pp.
Proof.
  intros Hc Hpp Hn Hin. assert (Hsplit : exists a b, c :: ns = a ++ pp :: b) by (by apply list_elem_of_split).
  destruct Hsplit as (a & b & Eab).
  assert (exists a' b', ns = a' ++ b' /\ last_of c a' = pp) as (a' & b' & -> & Hl).
  { destruct a as [|y a]; cbn in Eab; injection Eab as -> ->.
    - by exists [], b.
    - exists (a ++ [pp]), b. rewrite <- app_assoc. split; [done|]. unfold last_of. by rewrite last_snoc. }
  destruct (edges_last c a') as [F HF]. destruct (edges_first b' 0) as [G HG].
  unfold chain in Hc. rewrite (edges_cut _ _ _ _ F G), Hl in Hc by done. apply fwd_app in Hc as [_ [Hc1 _]%fwd_cons].
  rewrite Hpp in Hc1. injection Hc1 as E1. destruct b' as [|n' b']; cbn in E1; [done|]. subst n'. by exists a', b'.
Qed.

(** ** The operations on lists *)

Section Writer.
Context (m : hmem) (h : Z) (l : list Z) (G : hgood m h l).

Lemma hget (c : gmap Z Z) a v : c !! a = Some v -> get c a = Ok v.
Proof using. apply get_some. Qed.

Lemma put_next_ok c v : is_Some (hx m !! c) -> put_next c v m = Ok (Hmem (<[c := v]> (hx m)) (hp m)).
Proof using. intros [w Hw]. unfold put_next. by rewrite (hget _ _ _ Hw). Qed.

Lemma put_pprev_ok c v : is_Some (hp m !! c) -> put_pprev c v m = Ok (Hmem (hx m) (<[c := v]> (hp m))).
Proof using. intros [w Hw]. unfold put_pprev. by rewrite (hget _ _ _ Hw). Qed.

Lemma hgood_cells x : x ∈ l -> is_Some (hx m !! x) /\ is_Some (hp m !! x).
Proof using G.
  intros Hx. split.
  - assert (Hf : x ∈ fst <$> edges h l 0) by (rewrite edges_fst; by right).
    apply list_elem_of_fmap in Hf as ([a b] & -> & Hab). exists b. by apply (hg_next _ _ _ G).
  - assert (Hf : x ∈ snd <$> edges h l 0) by (rewrite edges_snd; apply elem_of_app; by left).
    apply list_elem_of_fmap in Hf as ([a b] & -> & Hab). exists a. apply (hg_pprev _ _ _ G); [done|]. cbn in *.
    intros ->. by apply (hg_null _ _ _ G).
Qed.

Lemma hgood_head : hx m !! h = Some (first_of 0 l).
Proof using G. apply chain_first, G. Qed.

Lemma hgood_nonnull x : x ∈ l -> x <> 0.
Proof using G. intros Hx ->. by apply (hg_null _ _ _ G). Qed.

(** The pointers to and from a node on the list. *)
Lemma hgood_mid l1 n l2 :
  l = l1 ++ n :: l2 -> hx m !! last_of h l1 = Some n /\ hx m !! n = Some (first_of 0 l2) /\ hp m !! n = Some (last_of h l1)
    /\ (first_of 0 l2 <> 0 -> hp m !! first_of 0 l2 = Some n).
Proof using G.
  intros ->. destruct G as [Hd H0 Hn Hp]. destruct (edges_last h l1) as [F HF]. destruct (edges_first l2 0) as [G' HG].
  unfold chain in Hn. rewrite edges_app, HF, HG, <- app_assoc in Hn, Hp. cbn in Hn, Hp.
  apply fwd_app in Hn as [_ [H1 [H2 _]%fwd_cons]%fwd_cons]. split; [done|]. split; [done|].
  split; [|intros Hf]; (apply Hp; [apply elem_of_app; right|done || (intros ->; apply H0, elem_of_app; right; by left)]);
  [by left|right; by left].
Qed.

(** The memory after all stores of the two operations. *)
Lemma hgood_add n hx' hp' :
  n ∉ h :: l -> n <> 0 ->
  hx' = <[h := n]> (<[n := first_of 0 l]> (hx m)) ->
  (forall x, x ∈ l -> x <> first_of 0 l -> hp' !! x = hp m !! x) -> hp' !! n = Some h -> (first_of 0 l <> 0 -> hp' !! first_of 0 l = Some n) ->
  hgood (Hmem hx' hp') h (n :: l).
Proof using G.
  intros Hf H0 -> Hsame Hpn Hph. destruct G as [Hd H00 Hn Hp]. destruct (edges_first l 0) as [G' HG].
  rewrite not_elem_of_cons in Hf. destruct Hf as [Hf1 Hf2].
  pose proof (edges_fst h l 0) as Ef. rewrite HG in Ef. cbn in Ef. injection Ef as Ef.
  pose proof Hd as Hd'. apply list.NoDup_cons in Hd' as [Hd1 Hd2].
  split; cbn [hx hp].
  - apply list.NoDup_cons. split; [rewrite not_elem_of_cons; by split|]. by apply list.NoDup_cons.
  - rewrite not_elem_of_cons. split; [congruence|done].
  - unfold chain in *. cbn [edges]. rewrite HG in *. apply fwd_cons in Hn as [_ Hn].
    repeat (apply fwd_cons; split).
    + by rewrite lookup_insert_eq.
    + by rewrite lookup_insert_ne, lookup_insert_eq.
    + apply fwd_put; [apply fwd_put; [done|]|]; by rewrite Ef.
  - intros x y Hin Hy. cbn [edges] in Hin. rewrite HG in *. apply elem_of_cons in Hin as [[= -> ->]|Hin]; [done|].
    apply elem_of_cons in Hin as [[= -> ->]|Hin]; [auto|].
    assert (Hyl : y ∈ l) by (destruct (edges_target x y h l 0); [rewrite HG; by right|done|congruence]).
    rewrite Hsame; [apply Hp; [by right|done]|done|]. intros ->.
    pose proof (edges_pred_unique x h h (first_of 0 l) l 0 (nodup_null _ _ Hd H00)) as Hu. rewrite HG in Hu.
    specialize (Hu ltac:(by right) ltac:(by left)). subst x.
    apply Hd1. rewrite <- Ef. apply list_elem_of_fmap. by exists (h, first_of 0 l).
Qed.

Lemma hgood_del l1 n l2 hp' :
  l = l1 ++ n :: l2 ->
  (forall x, x ∈ l -> x <> first_of 0 l2 -> hp' !! x = hp m !! x) -> (first_of 0 l2 <> 0 -> hp' !! first_of 0 l2 = Some (last_of h l1)) ->
  hgood (Hmem (<[last_of h l1 := first_of 0 l2]> (hx m)) hp') h (l1 ++ l2).
Proof using G.
  intros El Hsame Hpf. destruct (hgood_mid _ _ _ El) as (H1 & H2 & H3 & H4). destruct G as [Hd H00 Hn Hp]. subst l.
  assert (Hd' : NoDup (h :: l1 ++ l2)).
  { rewrite <- Permutation_middle in Hd. rewrite Permutation_swap in Hd. by apply list.NoDup_cons in Hd as [_ Hd]. }
  assert (H0' : 0 ∉ l1 ++ l2) by set_solver.
  assert (Hn0 : n <> 0) by set_solver.
  split; cbn [hx hp]; [done|done|by apply chain_unlink_at with n|]. intros x y Hin Hy.
  assert (Hl : (last_of h l1, first_of 0 l2) ∈ edges h (l1 ++ l2) 0).
  { destruct (edges_last h l1) as [F HF]. destruct (edges_first l2 0) as [G' HG].
    rewrite (edges_cut _ _ _ _ F G') by done. apply elem_of_app. right. by left. }
  destruct (decide (y = first_of 0 l2)) as [->|Hne].
  - rewrite (edges_pred_unique _ _ _ _ _ _ (nodup_null _ _ Hd' H0') Hin Hl). by apply Hpf.
  - rewrite Hsame; [|destruct (edges_target _ _ _ _ _ Hin); set_solver|done]. apply Hp; [|done].
    destruct (edges_last h l1) as [F HF]. destruct (edges_first l2 0) as [G' HG].
    rewrite (edges_cut _ _ _ _ F G') in Hin by done. rewrite edges_app, HF, HG, <- app_assoc. cbn. set_solver.
Qed.
End Writer.

(** ** Between the stores

    [pub] is the list that a reader finds that begins now, [tgt] the one after the stores
    that are still to be done. *)
Inductive winv (m : hmem) (h : Z) (rt : list Z) : list Z -> list Z -> list wr -> Prop :=
  | WIdle l : hgood m h l -> winv m h rt l l []
  | WFix l x v : is_Some (hp m !! x) -> hgood (Hmem (hx m) (<[x := v]> (hp m))) h l -> winv m h rt l l [WPprev x v]
  | WAdd k l n :
      hgood m h l -> n ∉ h :: l -> n ∉ rt -> n <> 0 -> is_Some (hx m !! n) -> is_Some (hp m !! n) ->
      ((0 < k)%nat -> hx m !! n = Some (first_of 0 l)) -> ((1 < k)%nat -> hp m !! n = Some h) -> (k < 3)%nat ->
      winv m h rt l (n :: l) (drop k ([WNext n (first_of 0 l); WPprev n h; WNext h n] ++ fix_pprev (first_of 0 l) n))
  | WDel l1 n l2 :
      hgood m h (l1 ++ n :: l2) -> n ∈ rt ->
      winv m h rt (l1 ++ n :: l2) (l1 ++ l2) (WNext (last_of h l1) (first_of 0 l2) :: fix_pprev (first_of 0 l2) (last_of h l1)).

Lemma winv_pub m h rt pub t ws : winv m h rt pub t ws -> chain (hx m) h pub /\ NoDup (h :: pub) /\ 0 ∉ pub.
Proof.
  intros W. assert (exists p, hgood (Hmem (hx m) p) h pub) as (p & [H1 H2 H3 H4]); [|done].
  destruct W as [? G| |k l n G ?|l1 n l2 G ?]; [..| |]; try (exists (hp m); by destruct m). by eexists.
Qed.

(** How the store of the writer changes what a reader finds: not at all, a new first node,
    or a node less. *)
Inductive published (h : Z) (cs cs' : gmap Z Z) (rt pub pub' : list Z) : Prop :=
  | PubSame : pub' = pub -> (forall c ns, c ∈ h :: pub ++ rt -> ns ⊆ pub ++ rt -> chain cs c ns -> chain cs' c ns) -> published h cs cs' rt pub pub'
  | PubAdd n : pub' = n :: pub -> n ∉ pub ++ rt -> n <> 0 -> n <> h -> cs !! n = Some (first_of 0 pub) -> cs' = <[h := n]> cs -> published h cs cs' rt pub pub'
  | PubDel l1 n l2 : pub = l1 ++ n :: l2 -> pub' = l1 ++ l2 -> n ∈ rt -> n <> 0 -> cs !! last_of h l1 = Some n -> cs !! n = Some (first_of 0 l2) ->
      last_of h l1 ∈ h :: l1 -> cs' = <[last_of h l1 := first_of 0 l2]> cs -> published h cs cs' rt pub pub'.

Lemma last_of_in h l : last_of h l ∈ h :: l.
Proof.
  destruct l as [|x l _] using rev_ind; [by left|]. unfold last_of. rewrite last_snoc. right. apply elem_of_app. right. by left.
Qed.

Lemma fix_pprev_ok m h rt l x v :
  (x <> 0 -> is_Some (hp m !! x)) -> (x <> 0 -> hgood (Hmem (hx m) (<[x := v]> (hp m))) h l) -> (x = 0 -> hgood m h l) ->
  winv m h rt l l (fix_pprev x v).
Proof. intros H1 H2 H3. unfold fix_pprev. destruct (Z.eqb_spec x 0); constructor; auto. Qed.

Lemma write_ok m h rt pub t w ws :
  winv m h rt pub t (w :: ws) ->
  exists m' pub', do_wr w m = Ok m' /\ winv m' h rt pub' t ws /\ published h (hx m) (hx m') rt pub pub'.
Proof.
  intros W. remember (w :: ws) as p eqn:Ep. destruct W as [|l x v Hx G|k l n G Hf Hr H0 Hc1 Hc2 Hk1 Hk2 Hk|l1 n l2 G Hn]; [done|..].
  - (* a back pointer *)
    injection Ep as <- <-. cbn [do_wr]. rewrite put_pprev_ok by done. eexists _, _; split; [done|]. split; [by constructor|]. by apply PubSame.
  - destruct k as [|[|[|k]]]; [..|lia]; cbn in *.
    + (* [n->next], which no reader comes to *)
      injection Ep as <- <-. cbn [do_wr]. rewrite put_next_ok by done. rewrite not_elem_of_cons in Hf. destruct Hf as [Hf1 Hf2].
      eexists _, l; split; [done|]. split.
      * apply (WAdd _ _ _ 1); cbn; [|rewrite not_elem_of_cons; by split|done|done| |done| |lia|lia].
        -- destruct G as [A1 A2 A3 A4]. split; cbn; [done|done| |done]. apply chain_put; [done|]. rewrite not_elem_of_cons. by split.
        -- rewrite lookup_insert_eq. by eexists.
        -- intros _. by rewrite lookup_insert_eq.
      * apply PubSame; [done|]. intros c ns Hc Hns Hch. cbn. apply chain_put; [done|]. set_solver.
    + (* [n->pprev] *)
      injection Ep as <- <-. cbn [do_wr]. rewrite put_pprev_ok by done. rewrite not_elem_of_cons in Hf. destruct Hf as [Hf1 Hf2].
      eexists _, l; split; [done|]. split; [|by apply PubSame].
      apply (WAdd _ _ _ 2); cbn; [|rewrite not_elem_of_cons; by split|done|done|done| |intros _; apply Hk1; lia| |lia].
      * destruct G as [A1 A2 A3 A4]. split; cbn; [done|done|done|]. intros x y Hin Hy. rewrite lookup_insert_ne; [by apply A4|].
        intros ->. destruct (edges_target _ _ _ _ _ Hin); done.
      * rewrite lookup_insert_eq. by eexists.
      * intros _. by rewrite lookup_insert_eq.
    + (* [h->head] *)
      injection Ep as <- <-. cbn [do_wr]. rewrite put_next_ok by (eexists; by apply (hgood_head m h l)).
      specialize (Hk1 ltac:(lia)). specialize (Hk2 ltac:(lia)).
      assert (Hfl : first_of 0 l <> 0 -> first_of 0 l ∈ l) by (by intros; apply first_in).
      assert (Hne : first_of 0 l <> 0 -> first_of 0 l <> n) by (intros Hz E; apply Hf; right; rewrite <- E; by apply Hfl).
      assert (Hupd : hx m = <[n := first_of 0 l]> (hx m)) by by rewrite insert_id.
      eexists _, (n :: l); split; [done|]. split.
      * apply fix_pprev_ok; cbn.
        -- intros Hz. by apply (hgood_cells m h l G), Hfl.
        -- intros Hz. apply (hgood_add m h l G); [done|done|by rewrite <- Hupd| |by rewrite lookup_insert_ne by auto|].
           ++ intros x _ Hx. by rewrite lookup_insert_ne by done.
           ++ intros _. by rewrite lookup_insert_eq.
        -- intros Hz. apply (hgood_add m h l G); [done|done|by rewrite <- Hupd|done|done|done].
      * apply (PubAdd _ _ _ _ _ _ n); try done; [set_solver|set_solver].
  - (* the pointer to a node that is deleted *)
    injection Ep as <- <-. destruct (hgood_mid _ _ _ G _ _ _ eq_refl) as (A1 & A2 & A3 & A4).
    cbn [do_wr]. rewrite put_next_ok by eauto. eexists _, (l1 ++ l2); split; [done|]. split.
    + apply fix_pprev_ok; cbn.
      * intros Hz. eauto.
      * intros Hz. apply (hgood_del m h _ G l1 n l2); [done| |].
        -- intros x _ Hx. by rewrite lookup_insert_ne by done.
        -- intros _. by rewrite lookup_insert_eq.
      * intros Hz. apply (hgood_del m h _ G l1 n l2); done.
    + apply (PubDel _ _ _ _ _ _ l1 n l2); try done; [|apply last_of_in].
      apply (hgood_nonnull _ _ _ G). apply elem_of_app. right. by left.
Qed.

(** ** The reader *)

(** The nodes of [l0] whose deletion has not begun. *)
Definition kept (l0 rt : list Z) (x : Z) : bool := bool_decide (x ∈ l0) && negb (bool_decide (x ∈ rt)).

(** The reader has seen [sn] and would go on to [ns]. *)
Record rinv (cs : gmap Z Z) (h : Z) (l0 rt pub : list Z) (rp : option Z) (sn ns : list Z) : Prop := Rinv {
  ri_pos : match rp with None => ns = [] | Some c => chain cs c ns /\ (c = h /\ sn = [] \/ exists sn', sn = sn' ++ [c]) end;
  ri_nodup : NoDup (sn ++ ns);
  ri_sub : sn ++ ns ⊆ pub ++ rt;
  ri_kept : List.filter (kept l0 rt) (sn ++ ns) = List.filter (kept l0 rt) l0
}.

Lemma chain_after cs c a x b : chain cs c (a ++ x :: b) -> chain cs x b.
Proof. unfold chain. rewrite edges_app. by intros [_ ?]%fwd_app. Qed.

Lemma kept_out l0 rt x : x ∉ l0 \/ x ∈ rt -> kept l0 rt x = false.
Proof.
  intros H. unfold kept. destruct H.
  - by rewrite bool_decide_eq_false_2.
  - rewrite (bool_decide_eq_true_2 (x ∈ rt)) by done. apply andb_false_r.
Qed.

Lemma filter_drop (p : Z -> bool) a x b : p x = false -> List.filter p (a ++ x :: b) = List.filter p (a ++ b).
Proof. intros H. rewrite !List.filter_app. cbn. by rewrite H. Qed.

Lemma sub_unlink (l1 l2 rt : list Z) n : n ∈ rt -> (l1 ++ n :: l2) ++ rt ⊆ (l1 ++ l2) ++ rt.
Proof. set_solver. Qed.

Lemma sub_fewer (sn a b : list Z) n : sn ++ a ++ b ⊆ sn ++ a ++ n :: b.
Proof. set_solver. Qed.

(** The reader goes on right after any store of the writer. *)
Lemma published_rinv h cs cs' l0 rt pub pub' rp sn ns :
  published h cs cs' rt pub pub' -> h ∉ pub ++ rt -> cs !! h = Some (first_of 0 pub) -> l0 ⊆ pub ++ rt -> rinv cs h l0 rt pub rp sn ns ->
  (exists ns', rinv cs' h l0 rt pub' rp sn ns') /\ l0 ⊆ pub' ++ rt /\ h ∉ pub' ++ rt.
Proof.
  intros Hp Hh Hcsh Hl0 [R1 R2 R3 R4].
  assert (Hcur : forall c, rp = Some c -> (c = h /\ sn = [] \/ c ∈ pub ++ rt /\ c <> h) /\ NoDup (c :: ns) /\ c ∈ h :: pub ++ rt).
  { intros c ->. destruct R1 as [_ [[-> ->]|[sn' ->]]].
    - split; [by left|]. cbn in *. split; [|by left]. apply list.NoDup_cons. split; [set_solver|done].
    - rewrite <- app_assoc in R2, R3. apply list.NoDup_app in R2 as (_ & _ & R2).
      assert (c ∈ pub ++ rt) by set_solver. split; [right; split; [done|congruence]|]. split; [done|by right]. }
  destruct Hp as [-> Hc|n -> Hf H0 Hnh Hn ->|l1 n l2 -> -> Hrt H0 Hpp Hn Hpin ->].
  - split; [|done]. exists ns. split; [|done..]. destruct rp as [c|]; [|done]. destruct R1 as [R1 R1'], (Hcur c eq_refl) as (_ & _ & Hc').
    split; [|done]. apply Hc; [done|set_solver|done].
  - split; [|set_solver]. destruct rp as [c|]; [|subst ns; exists []; split; [done|done|set_solver|done]].
    destruct R1 as [R1 R1'], (Hcur c eq_refl) as ([[-> ->]|[Hcin Hch]] & Hd & _).
    + exists (n :: ns). cbn in *. split.
      * split; [|by left]. apply chain_cons. split; [by rewrite lookup_insert_eq|].
        apply chain_put; [|set_solver]. destruct (edges_first ns 0) as [G HG]. unfold chain in *. rewrite HG in *.
        apply fwd_cons in R1 as [R1 R1b]. apply fwd_cons. split; [|done]. rewrite Hcsh in R1. injection R1 as R1. by rewrite <- R1.
      * apply list.NoDup_cons. split; [intros Hx; by apply Hf, R3|done].
      * intros y [->|Hy]%elem_of_cons; [by left|right; by apply R3].
      * cbn. rewrite kept_out by (left; intros Hx; by apply Hf, Hl0). done.
    + exists ns. split; [|done|set_solver|done]. split; [|done]. apply chain_put; [done|]. set_solver.
  - pose proof (sub_unlink l1 l2 rt n Hrt) as Hsub. split; [|split; [by etrans|set_solver]]. destruct rp as [c|]; [|subst ns; exists []; split; [done|done|by etrans|done]].
    destruct R1 as [R1 R1'], (Hcur c eq_refl) as (Hc & Hd & _).
    destruct (decide (last_of h l1 ∈ c :: ns)) as [Hin|Hnin].
    + destruct (chain_split _ _ _ _ _ R1 Hpp H0 Hin) as (a & b & -> & Hla). exists (a ++ b).
      pose proof (chain_first _ _ _ (chain_after _ _ _ _ _ R1)) as Hnb. rewrite Hn in Hnb. injection Hnb as Hnb. split.
      * split; [|done]. rewrite Hnb, <- Hla. by apply chain_unlink_at with n.
      * rewrite app_assoc in *. rewrite <- Permutation_middle in R2. by apply list.NoDup_cons in R2 as [_ R2].
      * etrans; [apply (sub_fewer sn a b n)|by etrans].
      * rewrite app_assoc in *. rewrite filter_drop in R4 by (apply kept_out; by right). done.
    + exists ns. split; [|done|by etrans|done]. split; [|done]. by apply chain_put.
Qed.

Record hinv (h : Z) (l0 : list Z) (adds reads : nat) (s : hst) : Prop := Hinv {
  hi_inv : exists pub ns, winv (hm s) h (ret s) pub (tgt s) (pend s) /\ rinv (hx (hm s)) h l0 (ret s) pub (rpos s) (seen s) ns
             /\ l0 ⊆ pub ++ ret s /\ h ∉ pub ++ ret s;
  hi_null : 0 ∉ ret s;
  hi_len : (length (tgt s ++ ret s) <= length l0 + adds)%nat;
  hi_reads : rpos s <> None -> length (seen s) = reads
}.

Lemma winv_tgt m h rt pub t ws : winv m h rt pub t ws -> pub ⊆ t ++ rt.
Proof. intros []; set_solver. Qed.

Lemma put_idle m h rt pub t : winv m h rt pub t [] -> pub = t /\ hgood m h t.
Proof.
  intros W. remember [] as p eqn:Ep. destruct W as [|l x v Hx G|k l n G Hf Hr H0 Hc1 Hc2 Hk1 Hk2 Hk|l1 n l2 G Hn]; [done|done| |done].
  destruct k as [|[|[|k]]]; [done..|lia].
Qed.

Lemma start_add h l0 a r s n s' :
  hinv h l0 a r s -> hstep h (HAdd n) s = Some s' -> exists s1, s' = Ok s1 /\ hinv h l0 (S a) r s1.
Proof.
  intros [(pub & ns & W & R & Hl0 & Hh) H0 Hlen Hr] Hs. unfold hstep in Hs.
  destruct (pend s) eqn:Ep; [|done]. cbn [andb] in Hs. case_bool_decide as Hc; [|done]. injection Hs as <-.
  destruct Hc as (Hn0 & Hnh & Hnt & Hnr & Hc1 & Hc2).
  destruct (put_idle _ _ _ _ _ W) as [-> G]. unfold add_writes. rewrite (get_some _ _ _ (hgood_head _ _ _ G)). cbn [mbind res_bind].
  eexists; split; [done|]. split; cbn [hm tgt ret pend rpos seen]; [|done| |done].
  - exists (tgt s), ns. split; [|done]. apply (WAdd _ _ _ 0); try done; [|lia..]. rewrite not_elem_of_cons. by split.
  - cbn. lia.
Qed.

Lemma kept_cons l0 rt n l : List.filter (kept l0 (n :: rt)) l = List.filter (fun x => negb (x =? n)) (List.filter (kept l0 rt) l).
Proof.
  induction l as [|x l IH]; [done|]. cbn. assert (kept l0 (n :: rt) x = kept l0 rt x && negb (x =? n)) as ->.
  { unfold kept. rewrite <- andb_assoc. f_equal. rewrite <- negb_orb. f_equal. apply Bool.eq_iff_eq_true.
    rewrite orb_true_iff, !bool_decide_eq_true, elem_of_cons, Z.eqb_eq. tauto. }
  destruct (kept l0 rt x); cbn; [|done]. destruct (x =? n); cbn; [done|by rewrite IH].
Qed.

Lemma start_del h l0 a r s n s' :
  hinv h l0 a r s -> hstep h (HDel n) s = Some s' -> exists s1, s' = Ok s1 /\ hinv h l0 a r s1.
Proof.
  intros [(pub & ns & W & R & Hl0 & Hh) H0 Hlen Hr] Hs. unfold hstep in Hs.
  destruct (pend s) eqn:Ep; [|done]. cbn [andb] in Hs. case_bool_decide as Hc; [|done]. injection Hs as <-.
  destruct (put_idle _ _ _ _ _ W) as [-> G]. destruct (split_at _ _ Hc) as (l1 & l2 & El & Hn1).
  destruct (hgood_mid _ _ _ G _ _ _ El) as (A1 & A2 & A3 & A4). unfold del_writes.
  rewrite (get_some _ _ _ A3), (get_some _ _ _ A2). cbn [mbind res_bind].
  assert (Hd : NoDup (l1 ++ n :: l2)) by (rewrite <- El; pose proof (hg_nodup _ _ _ G) as Hx; by apply list.NoDup_cons in Hx as [_ Hx]).
  eexists; split; [done|]. rewrite El, filter_out_at by done. split; cbn [hm tgt ret pend rpos seen]; [| | |done].
  - exists (tgt s), ns. rewrite El in *. split; [apply WDel; [done|by left]|]. split; [|split; [set_solver|]].
    + destruct R as [R1 R2 R3 R4]. split; [done|done|set_solver|]. by rewrite !kept_cons, R4.
    + pose proof (hg_nodup _ _ _ G) as [Hx _]%list.NoDup_cons. set_solver.
  - pose proof (hg_null _ _ _ G). rewrite El in *. set_solver.
  - rewrite El in Hlen. rewrite !length_app in *. cbn in *. lia.
Qed.

Lemma write_step h l0 a r s s' :
  hinv h l0 a r s -> hstep h HWrite s = Some s' -> exists s1, s' = Ok s1 /\ hinv h l0 a r s1.
Proof.
  intros [(pub & ns & W & R & Hl0 & Hh) H0 Hlen Hr] Hs. unfold hstep in Hs. destruct (pend s) as [|w ws]; [done|]. injection Hs as <-.
  destruct (winv_pub _ _ _ _ _ _ W) as (Hch & _). pose proof (chain_first _ _ _ Hch) as Hf.
  destruct (write_ok _ _ _ _ _ _ _ W) as (m' & pub' & -> & W' & Hp). cbn.
  destruct (published_rinv _ _ _ _ _ _ _ _ _ _ Hp Hh Hf Hl0 R) as ([ns' R'] & Hl' & Hh').
  eexists; split; [done|]. split; cbn [hm tgt ret pend rpos seen]; [|done..]. by exists pub', ns'.
Qed.

Lemma read_step h l0 a r s s' :
  hinv h l0 a r s -> hstep h HRead s = Some s' -> exists s1, s' = Ok s1 /\ hinv h l0 a (S r) s1.
Proof.
  intros [(pub & ns & W & R & Hl0 & Hh) H0 Hlen Hr] Hs. unfold hstep in Hs. destruct (rpos s) as [c|] eqn:Erp; [|done]. injection Hs as <-.
  destruct (winv_pub _ _ _ _ _ _ W) as (_ & _ & Hnull).
  destruct R as [[R1 R1'] R2 R3 R4]. rewrite (get_some _ _ _ (chain_first _ _ _ R1)). cbn [mbind res_bind].
  eexists; split; [done|]. destruct ns as [|x ns]; cbn [first_of list.head default from_option].
  - cbn. split; cbn [hm tgt ret pend rpos seen]; [|done..]. by exists pub, [].
  - unfold first_of. cbn. assert (x ∈ pub ++ ret s) by (apply R3, elem_of_app; right; by left).
    assert (x <> 0) by (intros ->; set_solver). destruct (Z.eqb_spec x 0); [done|].
    split; cbn [hm tgt ret pend rpos seen]; [|done|done|].
    + exists pub, ns. split; [done|]. split; [|done]. rewrite cons_middle, app_assoc in R2, R3, R4. split; [|done..].
      apply chain_cons in R1 as [_ R1]. split; [done|]. right. by exists (seen s).
    + intros _. rewrite length_app. cbn. rewrite Hr by congruence. lia.
Qed.

Definition is_add (c : hchoice) : bool := match c with HAdd _ => true | _ => false end.
Definition is_read (c : hchoice) : bool := match c with HRead => true | _ => false end.

Lemma hrun_inv h l0 cs a r s :
  hinv h l0 a r s ->
  exists s', hrun h cs s = Ok s' /\ hinv h l0 (a + length (List.filter is_add cs)) (r + length (List.filter is_read cs)) s'.
Proof.
  revert a r s. induction cs as [|c cs IH]; intros a r s H; cbn [hrun List.filter].
  { exists s. split; [done|]. cbn. by rewrite !Nat.add_0_r. }
  assert (Hweak : forall a' r' s1, hinv h l0 a' r' s1 -> (a' <= a + Nat.b2n (is_add c))%nat -> (rpos s1 <> None -> r' = r + Nat.b2n (is_read c))%nat ->
    hinv h l0 (a + Nat.b2n (is_add c)) (r + Nat.b2n (is_read c)) s1).
  { intros a' r' s1 [I1 I2 I3 I4] Ha Hr. split; [done|done|lia|]. intros Hne. rewrite I4, Hr; done. }
  assert (exists s1, match hstep h c s with None => hrun h cs s | Some q => s ← q; hrun h cs s end = hrun h cs s1
            /\ hinv h l0 (a + Nat.b2n (is_add c)) (r + Nat.b2n (is_read c)) s1) as (s1 & -> & H1).
  { destruct (hstep h c s) as [q|] eqn:E.
    - destruct c as [n|n| |]; cbn [is_add is_read Nat.b2n] in *.
      + destruct (start_add _ _ _ _ _ _ _ H E) as (s1 & -> & H1). exists s1. split; [done|]. eapply Hweak; [exact H1|lia|lia].
      + destruct (start_del _ _ _ _ _ _ _ H E) as (s1 & -> & H1). exists s1. split; [done|]. eapply Hweak; [exact H1|lia|lia].
      + destruct (write_step _ _ _ _ _ _ H E) as (s1 & -> & H1). exists s1. split; [done|]. eapply Hweak; [exact H1|lia|lia].
      + destruct (read_step _ _ _ _ _ _ H E) as (s1 & -> & H1). exists s1. split; [done|]. eapply Hweak; [exact H1|lia|lia].
    - exists s. split; [done|]. eapply Hweak; [exact H|lia|]. intros Hne. destruct c; cbn; [lia..|].
      unfold hstep in E. by destruct (rpos s). }
  destruct (IH _ _ _ H1) as (s' & -> & H'). exists s'. split; [done|].
  destruct c; cbn in *; rewrite ?Nat.add_0_r, <- ?Nat.add_assoc in H'; exact H'.
Qed.

(** ** Whole operations

    Without a reader the operations do all their stores at once. *)

Lemma do_wrs_good h rt ws m pub t : winv m h rt pub t ws -> exists m', do_wrs ws m = Ok m' /\ hgood m' h t.
Proof.
  revert m pub. induction ws as [|w ws IH]; intros m pub W.
  - destruct (put_idle _ _ _ _ _ W) as [-> G]. by exists m.
  - destruct (write_ok _ _ _ _ _ _ _ W) as (m' & pub' & E & W' & _). cbn [do_wrs]. rewrite E. cbn. by apply (IH m' pub').
Qed.

Lemma do_fix x v m : do_wrs (fix_pprev x v) m = if x =? 0 then Ok m else put_pprev x v m.
Proof. unfold fix_pprev. destruct (x =? 0); [done|]. cbn. by destruct (put_pprev x v m). Qed.

Lemma hlist_add_head_ok m h l n :
  hgood m h l -> n ∉ h :: l -> n <> 0 -> is_Some (hx m !! n) -> is_Some (hp m !! n) ->
  exists m', hlist_add_head h n m = Ok m' /\ hgood m' h (n :: l).
Proof.
  intros G Hf H0 H1 H2. destruct (do_wrs_good h [] _ m l (n :: l) (WAdd _ _ _ 0 _ _ G Hf (not_elem_of_nil n) H0 H1 H2 ltac:(lia) ltac:(lia) ltac:(lia))) as (m' & E & G').
  exists m'. split; [|done]. unfold hlist_add_head. rewrite (get_some _ _ _ (hgood_head _ _ _ G)). cbn [drop app do_wrs do_wr] in E.
  cbn [mbind res_bind]. destruct (put_next n _ m) as [m1|]; [|done]. cbn [mbind res_bind] in *.
  destruct (put_pprev n h m1) as [m2|]; [|done]. cbn [mbind res_bind] in *. destruct (put_next h n m2) as [m3|]; [|done]. cbn [mbind res_bind] in *.
  by rewrite do_fix in E.
Qed.

Lemma hlist_del_ok m h l1 n l2 : hgood m h (l1 ++ n :: l2) -> exists m', hlist_del n m = Ok m' /\ hgood m' h (l1 ++ l2).
Proof.
  intros G. destruct (do_wrs_good h [n] _ m _ _ (WDel _ _ _ l1 n l2 G ltac:(by left))) as (m' & E & G').
  exists m'. split; [|done]. unfold hlist_del. destruct (hgood_mid _ _ _ G _ _ _ eq_refl) as (A1 & A2 & A3 & _).
  rewrite (get_some _ _ _ A3), (get_some _ _ _ A2). cbn [do_wrs do_wr mbind res_bind] in *. unfold put_next in *.
  rewrite (get_some _ _ _ A1) in *. cbn [mbind res_bind hx hp] in *. rewrite do_fix in E.
  assert (Hne : last_of h l1 <> n).
  { intros Hl. pose proof (last_of_in h l1) as Hin. rewrite Hl in Hin. pose proof (hg_nodup _ _ _ G) as Hd.
    rewrite app_comm_cons in Hd. apply list.NoDup_app in Hd as (_ & Hd & _). apply (Hd _ Hin). by left. }
  rewrite cell_put_ne, (get_some _ _ _ A2) by done. cbn [mbind res_bind]. rewrite (get_some _ _ _ A3). cbn. exact E.
Qed.

Lemma hlist_del_head_ok m h l : hgood m h l -> exists m', hlist_del_head h m = Ok m' /\ hgood m' h (tail l).
Proof.
  intros G. unfold hlist_del_head. rewrite (get_some _ _ _ (hgood_head _ _ _ G)). cbn [mbind res_bind].
  destruct l as [|x l]; [by exists m|]. rewrite first_of_cons.
  destruct (Z.eqb_spec x 0) as [->|]; [by destruct (hg_null _ _ _ G); left|]. by apply (hlist_del_ok m h [] x l).
Qed.

Lemma hlist_empty_ok m h l : hgood m h l -> hlist_empty h m = Ok (match l with [] => true | _ => false end).
Proof.
  intros G. unfold hlist_empty. rewrite (get_some _ _ _ (hgood_head _ _ _ G)). cbn.
  destruct l as [|x l]; [done|]. unfold first_of. cbn. destruct (Z.eqb_spec x 0) as [->|]; [by destruct (hg_null _ _ _ G); left|done].
Qed.

Lemma hlist_init_head_ok m h : is_Some (hx m !! h) -> exists m', hlist_init_head h m = Ok m' /\ hgood m' h [].
Proof.
  intros H. unfold hlist_init_head. rewrite put_next_ok by done. eexists; split; [done|]. split; cbn [hx hp].
  - apply NoDup_singleton.
  - apply not_elem_of_nil.
  - apply fwd_cons. split; [apply lookup_insert_eq|]. by intros ? ? ?%not_elem_of_nil.
  - by intros x y [[= -> ->]|?%not_elem_of_nil]%elem_of_cons.
Qed.

(** ** Property *)

(** C20. A reader may follow the pointers of an RCU list while a writer adds nodes at the
    head and deletes others, one store after the other in the order of the code and the
    reader's loads anywhere between them, provided deleted nodes are not reused while the
    reader runs (which the grace period ensures).  Nothing fails; when the writer has done
    its stores the pointers in both directions are those of the list it means; the reader
    sees no node twice and only nodes that are or were on the list, it ends after at most
    as many loads as there have been nodes and one more, and then it has seen all nodes
    that were on the list from its beginning to its end, in their order. *)
Theorem rcu_hlist_reader_complete m h l0 cs :
  hgood m h l0 ->
  exists s, hrun h cs (hinit h m l0) = Ok s
    /\ (pend s = [] -> hgood (hm s) h (tgt s))
    /\ NoDup (seen s) /\ seen s ⊆ tgt s ++ ret s
    /\ ((length l0 + length (List.filter is_add cs) < length (List.filter is_read cs))%nat -> rpos s = None)
    /\ (rpos s = None -> List.filter (kept l0 (ret s)) (seen s) = List.filter (kept l0 (ret s)) l0).
Proof.
  intros G. pose proof (hg_nodup _ _ _ G) as Hd. pose proof Hd as [Hh Hd']%list.NoDup_cons.
  destruct (hrun_inv h l0 cs 0 0 (hinit h m l0)) as (s & E & [(pub & ns & W & R & Hl & _) _ Hlen Hr]).
  { split; cbn; [|apply not_elem_of_nil|rewrite app_nil_r; lia|done]. exists l0, l0. rewrite app_nil_r. split; [by constructor|]. split; [|done].
    split; cbn; [|done|by rewrite app_nil_r|done]. split; [apply G|by left]. }
  exists s. split; [done|]. split; [intros Ep; rewrite Ep in W; by apply put_idle in W as [_ ?]|].
  destruct R as [R1 R2 R3 R4]. pose proof R2 as R2'. apply list.NoDup_app in R2' as (R2' & _ & _). split; [done|].
  assert (Hsub : seen s ++ ns ⊆ tgt s ++ ret s).
  { pose proof (winv_tgt _ _ _ _ _ _ W). clear -R3 H. set_solver. }
  split; [clear -Hsub; set_solver|]. split.
  - intros Hlt. destruct (rpos s) as [c|]; [|done]. exfalso. specialize (Hr ltac:(done)). cbn in Hlen, Hr.
    assert (length (seen s) <= length (tgt s ++ ret s))%nat; [|lia].
    apply submseteq_length, NoDup_submseteq; [done|]. clear -Hsub. set_solver.
  - intros Hn. rewrite Hn in R1. subst ns. by rewrite app_nil_r in R4.
Qed.

(** The list 1, 2, 3 with head 100; 2 is deleted while the reader is at it and 4 is added
    behind its back; the reader goes on to 3. *)
Definition ex_hlist : hmem :=
  Hmem (list_to_map [(100, 1); (1, 2); (2, 3); (3, 0); (4, 0)]) (list_to_map [(1, 100); (2, 1); (3, 2); (4, 0)]).
Definition ex_race : list hchoice :=
  [HRead; HAdd 4; HWrite; HRead; HWrite; HWrite; HWrite; HDel 2; HWrite; HRead; HWrite; HRead].

Lemma rcu_hlist_reader_complete_witness :
  hgood ex_hlist 100 [1; 2; 3]
  /\ exists s, hrun 100 ex_race (hinit 100 ex_hlist [1; 2; 3]) = Ok s /\ seen s = [1; 2; 3] /\ tgt s = [4; 1; 3] /\ rpos s = None
       /\ hgood (hm s) 100 (tgt s).
Proof.
  assert (G : hgood ex_hlist 100 [1; 2; 3]).
  { split.
    - apply (bool_decide_unpack _). vm_compute. exact I.
    - apply (bool_decide_unpack _). vm_compute. exact I.
    - intros x y Hin. cbn in Hin. rewrite !elem_of_cons in Hin. destruct Hin as [[= -> ->]|[[= -> ->]|[[= -> ->]|[[= -> ->]|Hin]]]]; [reflexivity..|by apply not_elem_of_nil in Hin].
    - intros x y Hin Hy. cbn in Hin. rewrite !elem_of_cons in Hin. destruct Hin as [[= -> ->]|[[= -> ->]|[[= -> ->]|[[= -> ->]|Hin]]]]; [reflexivity..|done|by apply not_elem_of_nil in Hin]. }
  split; [exact G|]. destruct (rcu_hlist_reader_complete ex_hlist 100 [1; 2; 3] ex_race G) as (s & E & Hg & _).
  exists s. split; [exact E|]. vm_compute in E. injection E as <-. split; [reflexivity|]. split; [reflexivity|]. split; [reflexivity|].
  apply Hg. reflexivity.
Defined.
