(* ===== verification/IokData.v ===== *)
(** * iokernel/tx.c, rx.c, commands.c, mempool_completion.c: the data path of the IOKernel

    Packets of the runtimes go to the network card and their buffers come back as
    completions; packets from the card go to the runtimes and come back as commands.  The
    scheduler's state is that of IokState.v; here are the channels from the runtimes, the
    message buffers, the completion pool and the queues of completions that did not fit.

    DPDK is not part of the sources: what the card accepts and gives back, which client a
    MAC address is found to belong to and what is in shared memory when it is read are
    arguments.  [rte_mempool_get_bulk] is a parameter, for which the proofs use that it
    calls the pool's own operation. *)

From S2P Require Import Prelude Stddef Page Shm Lrpc IokState IokSched.

Definition IOKERNEL_NUM_COMPLETIONS : Z := 32767.
Definition IOKERNEL_OVERFLOW_BATCH_DRAIN : nat := 64.
Definition IOKERNEL_TX_BURST_SIZE : nat := 64.
Definition IOKERNEL_CMD_BURST_SIZE : nat := 64.

Definition ENOBUFS : Z := 105.

Definition RX_NET_RECV : Z := 0.
Definition RX_NET_COMPLETE : Z := 1.
Definition TXPKT_NET_XMIT : Z := 0.
Definition TXCMD_NET_COMPLETE : Z := 0.

Record tx_net_hdr := TxNetHdr { completion_data : Z; hlen : Z; olflags : Z }.
Definition sizeof_tx_net_hdr : Z := 18.
Definition sizeof_rx_net_hdr : Z := 24.
Definition OLFLAG_IP_CHKSUM : Z := 1.
Definition OLFLAG_TCP_CHKSUM : Z := 2.
Definition OLFLAG_IPV4 : Z := 4.
Definition OLFLAG_IPV6 : Z := 8.

(** The receiving end of a channel. *)
Record txchan := TxChan { ch_in : lrpc_chan_in; ch_shm : lrpc_shm }.

(** What a process has for its packets; the first [nr_overflows] entries of the queue. *)
Record pdata := PData { region : shm_region; page_paddrs : list Z; max_overflows : Z; overflow_queue : list Z }.

(** The private part of a buffer; the kthread is the one of index [pv_th]. *)
Record tx_pktmbuf_priv := TxPriv { pv_p : option nat; pv_th : nat; pv_data : Z }.

(** The flags for the card, by their names in DPDK. *)
Inductive pkt_tx := PKT_TX_IP_CKSUM | PKT_TX_TCP_CKSUM | PKT_TX_IPV4 | PKT_TX_IPV6.

Record tx_mbuf := TxMbuf {
  buf_addr : Z; buf_physaddr : Z; data_off : Z; refcnt : Z;
  buf_len : Z; pkt_len : Z; data_len : Z;
  ol_flags : list pkt_tx; l4_len : Z; l3_len : Z; l2_len : Z;
  priv : tx_pktmbuf_priv
}.

(** A packet: its process and what the runtime wants to have back. *)
Abbreviation pkt := (nat * Z)%type.

(** Buffers are numbers.  [pool_size] and [objs] are [size] and the first [len] entries of the completion pool, [bufs] the
    buffers that wait for room in the card ([n_bufs] is their number), [nic] those the card
    has.  The last fields are the packets that were taken from a runtime and that were
    given to the card, in order, and the fates of completions: given to the process, not
    needed because it is being removed, given up. *)
Section dplane.
Context {D : Type}.

Record dplane := Dplane {
  dw : (D * sched)%type;
  txpktq : gmap tref txchan;
  txcmdq : gmap tref txchan;
  pdatas : gmap nat pdata;
  mbufs : gmap nat tx_mbuf;
  pool_size : Z;
  objs : list nat;
  bufs : list nat;
  n_pkts : nat;
  tx_pos : Z;
  drain_pos : Z;
  cmd_pos : Z;
  nic : list nat;
  pulled : list pkt;
  handed : list pkt;
  delivered : list pkt;
  dead : list pkt;
  lost : list pkt;
}.

Definition put_dw (v : (D * sched)%type) (x : dplane) : dplane := Dplane v (txpktq x) (txcmdq x) (pdatas x) (mbufs x) (pool_size
  x) (objs x) (bufs x) (n_pkts x) (tx_pos x) (drain_pos x) (cmd_pos x) (nic x) (pulled x) (handed x) (delivered x) (dead x) (lost
  x).
Definition put_txpktq (v : gmap tref txchan) (x : dplane) : dplane := Dplane (dw x) v (txcmdq x) (pdatas x) (mbufs x) (pool_size
  x) (objs x) (bufs x) (n_pkts x) (tx_pos x) (drain_pos x) (cmd_pos x) (nic x) (pulled x) (handed x) (delivered x) (dead x) (lost
  x).
Definition put_txcmdq (v : gmap tref txchan) (x : dplane) : dplane := Dplane (dw x) (txpktq x) v (pdatas x) (mbufs x) (pool_size
  x) (objs x) (bufs x) (n_pkts x) (tx_pos x) (drain_pos x) (cmd_pos x) (nic x) (pulled x) (handed x) (delivered x) (dead x) (lost
  x).
Definition put_pdatas (v : gmap nat pdata) (x : dplane) : dplane := Dplane (dw x) (txpktq x) (txcmdq x) v (mbufs x) (pool_size x)
  (objs x) (bufs x) (n_pkts x) (tx_pos x) (drain_pos x) (cmd_pos x) (nic x) (pulled x) (handed x) (delivered x) (dead x) (lost x).
Definition put_mbufs (v : gmap nat tx_mbuf) (x : dplane) : dplane := Dplane (dw x) (txpktq x) (txcmdq x) (pdatas x) v (pool_size
  x) (objs x) (bufs x) (n_pkts x) (tx_pos x) (drain_pos x) (cmd_pos x) (nic x) (pulled x) (handed x) (delivered x) (dead x) (lost
  x).
Definition put_pool_size (v : Z) (x : dplane) : dplane := Dplane (dw x) (txpktq x) (txcmdq x) (pdatas x) (mbufs x) v (objs x)
  (bufs x) (n_pkts x) (tx_pos x) (drain_pos x) (cmd_pos x) (nic x) (pulled x) (handed x) (delivered x) (dead x) (lost x).
Definition put_objs (v : list nat) (x : dplane) : dplane := Dplane (dw x) (txpktq x) (txcmdq x) (pdatas x) (mbufs x) (pool_size x)
  v (bufs x) (n_pkts x) (tx_pos x) (drain_pos x) (cmd_pos x) (nic x) (pulled x) (handed x) (delivered x) (dead x) (lost x).
Definition put_bufs (v : list nat) (x : dplane) : dplane := Dplane (dw x) (txpktq x) (txcmdq x) (pdatas x) (mbufs x) (pool_size x)
  (objs x) v (n_pkts x) (tx_pos x) (drain_pos x) (cmd_pos x) (nic x) (pulled x) (handed x) (delivered x) (dead x) (lost x).
Definition put_n_pkts (v : nat) (x : dplane) : dplane := Dplane (dw x) (txpktq x) (txcmdq x) (pdatas x) (mbufs x) (pool_size x)
  (objs x) (bufs x) v (tx_pos x) (drain_pos x) (cmd_pos x) (nic x) (pulled x) (handed x) (delivered x) (dead x) (lost x).
Definition put_tx_pos (v : Z) (x : dplane) : dplane := Dplane (dw x) (txpktq x) (txcmdq x) (pdatas x) (mbufs x) (pool_size x)
  (objs x) (bufs x) (n_pkts x) v (drain_pos x) (cmd_pos x) (nic x) (pulled x) (handed x) (delivered x) (dead x) (lost x).
Definition put_drain_pos (v : Z) (x : dplane) : dplane := Dplane (dw x) (txpktq x) (txcmdq x) (pdatas x) (mbufs x) (pool_size x)
  (objs x) (bufs x) (n_pkts x) (tx_pos x) v (cmd_pos x) (nic x) (pulled x) (handed x) (delivered x) (dead x) (lost x).
Definition put_cmd_pos (v : Z) (x : dplane) : dplane := Dplane (dw x) (txpktq x) (txcmdq x) (pdatas x) (mbufs x) (pool_size x)
  (objs x) (bufs x) (n_pkts x) (tx_pos x) (drain_pos x) v (nic x) (pulled x) (handed x) (delivered x) (dead x) (lost x).
Definition put_nic (v : list nat) (x : dplane) : dplane := Dplane (dw x) (txpktq x) (txcmdq x) (pdatas x) (mbufs x) (pool_size x)
  (objs x) (bufs x) (n_pkts x) (tx_pos x) (drain_pos x) (cmd_pos x) v (pulled x) (handed x) (delivered x) (dead x) (lost x).
Definition put_pulled (v : list pkt) (x : dplane) : dplane := Dplane (dw x) (txpktq x) (txcmdq x) (pdatas x) (mbufs x) (pool_size
  x) (objs x) (bufs x) (n_pkts x) (tx_pos x) (drain_pos x) (cmd_pos x) (nic x) v (handed x) (delivered x) (dead x) (lost x).
Definition put_handed (v : list pkt) (x : dplane) : dplane := Dplane (dw x) (txpktq x) (txcmdq x) (pdatas x) (mbufs x) (pool_size
  x) (objs x) (bufs x) (n_pkts x) (tx_pos x) (drain_pos x) (cmd_pos x) (nic x) (pulled x) v (delivered x) (dead x) (lost x).
Definition put_delivered (v : list pkt) (x : dplane) : dplane := Dplane (dw x) (txpktq x) (txcmdq x) (pdatas x) (mbufs x)
  (pool_size x) (objs x) (bufs x) (n_pkts x) (tx_pos x) (drain_pos x) (cmd_pos x) (nic x) (pulled x) (handed x) v (dead x) (lost
  x).
Definition put_dead (v : list pkt) (x : dplane) : dplane := Dplane (dw x) (txpktq x) (txcmdq x) (pdatas x) (mbufs x) (pool_size x)
  (objs x) (bufs x) (n_pkts x) (tx_pos x) (drain_pos x) (cmd_pos x) (nic x) (pulled x) (handed x) (delivered x) v (lost x).
Definition put_lost (v : list pkt) (x : dplane) : dplane := Dplane (dw x) (txpktq x) (txcmdq x) (pdatas x) (mbufs x) (pool_size x)
  (objs x) (bufs x) (n_pkts x) (tx_pos x) (drain_pos x) (cmd_pos x) (nic x) (pulled x) (handed x) (delivered x) (dead x) v.
End dplane.
#[global] Arguments dplane : clear implicits.

Section data.
Context {D : Type} (ops : sched_ops D).
(** The pool's memory, when [n] buffers are asked for: the buffers and what is left. *)
Context (rte_mempool_get_bulk : list nat -> nat -> option (list nat * list nat)).
Abbreviation dplane := (dplane D).

(** ** To a runtime *)

(** [lrpc_send(&th->rxq, cmd, payload)]. *)
Definition send_rxq (r : tref) (cmd payload : Z) (s : sched) : res (bool * sched) :=
  t ← get_thread r s;
  '(c, m, ok) ← lrpc_send (rxq t) (rxq_shm t) cmd payload;
  Ok (ok, upd_thread r (fun t => set_rxq_shm m (set_rxq c t)) s).

Definition flow_thread (pr : proc) (hash : Z) : res nat :=
  match flow_tbl pr !! Z.to_nat (hash mod Z.of_nat (thread_count pr)) with Some (Some i) => Ok i | _ => Bug end.

Definition rx_send_to_runtime (p : nat) (hash cmd payload : Z) (w : D * sched) : res (bool * (D * sched)) :=
  pr ← get_proc p w.2;
  if (0 <? sched_threads_active pr)%nat then
    i ← flow_thread pr hash;
    '(ok, s) ← send_rxq (p, i) cmd payload w.2; Ok (ok, (w.1, s))
  else
    '(_, w) ← sched_add_core ops p w;
    pr ← get_proc p w.2;
    i ← (if (sched_threads_active pr =? 0)%nat
         then match idle_threads pr with i :: _ => Ok i | [] => Bug end
         else flow_thread pr hash);
    '(ok, s) ← send_rxq (p, i) cmd payload w.2; Ok (ok, (w.1, s)).

(** [p->next_thread_rr++] as the hash. *)
Definition next_rr (p : nat) (w : D * sched) : res (Z * (D * sched)) :=
  pr ← get_proc p w.2;
  Ok (next_thread_rr pr, (w.1, upd_proc p (set_next_thread_rr (u32 (next_thread_rr pr + 1))) w.2)).

(** ** Completions *)

Definition get_mbuf (b : nat) (x : dplane) : res tx_mbuf := match mbufs x !! b with Some m => Ok m | None => Bug end.
Definition get_pdata (p : nat) (x : dplane) : res pdata := match pdatas x !! p with Some d => Ok d | None => Bug end.
Definition put_pdata (p : nat) (d : pdata) (x : dplane) : dplane := put_pdatas (<[p := d]> (pdatas x)) x.
Definition set_overflow (l : list Z) (d : pdata) : pdata := PData (region d) (page_paddrs d) (max_overflows d) l.

Definition put_proc (p : nat) (x : dplane) : res dplane := s ← proc_put p (dw x).2; Ok (put_dw ((dw x).1, s) x).

(** The call to [lrpc_send] or [rx_send_to_runtime] for a completion of [p]. *)
Definition send_completion (p th : nat) (data : Z) (w : D * sched) : res (bool * (D * sched)) :=
  t ← get_thread (p, th) w.2;
  if active t then '(ok, s) ← send_rxq (p, th) RX_NET_COMPLETE data w.2; Ok (ok, (w.1, s))
  else '(h, w) ← next_rr p w; rx_send_to_runtime p h RX_NET_COMPLETE data w.

Definition tx_send_completion (b : nat) (x : dplane) : res (bool * dplane) :=
  m ← get_mbuf b x;
  match pv_p (priv m) with
  | None => Ok (true, x)
  | Some p =>
      let data := pv_data (priv m) in
      pr ← get_proc p (dw x).2;
      if kill pr then x ← put_proc p (put_dead (dead x ++ [(p, data)]) x); Ok (true, x)
      else
        '(ok, w) ← send_completion p (pv_th (priv m)) data (dw x);
        let x := put_dw w x in
        if (ok : bool) then x ← put_proc p (put_delivered (delivered x ++ [(p, data)]) x); Ok (true, x)
        else
          d ← get_pdata p x;
          if Z.of_nat (length (overflow_queue d)) =? max_overflows d then Ok (false, put_lost (lost x ++ [(p, data)]) x)
          else x ← put_proc p (put_pdata p (set_overflow (overflow_queue d ++ [data]) d) x); Ok (true, x)
  end.

(** The loop that gives up on a completion if [tx_send_completion] returns [false]. *)
Fixpoint send_completions (l : list nat) (x : dplane) : res dplane :=
  match l with [] => Ok x | b :: l => '(_, x) ← tx_send_completion b x; send_completions l x end.

Definition completion_enqueue (l : list nat) (x : dplane) : res (Z * dplane) :=
  if pool_size x <? Z.of_nat (length (objs x) + length l) then Ok (- ENOBUFS, x)
  else x ← send_completions l x; Ok (0, put_objs (objs x ++ l) x).

(** On success the buffers and the stack that is left. *)
Definition completion_dequeue (stack : list nat) (n : nat) : option (list nat * list nat) :=
  if (length stack <? n)%nat then None
  else Some (drop (length stack - n) stack, take (length stack - n) stack).

Definition completion_get_count (x : dplane) : nat := length (objs x).

(** The loop of [drain_overflow_queue] with [i] rounds done. *)
Fixpoint overflow_loop (k i : nat) (p : nat) (x : dplane) : res (nat * dplane) :=
  match k with
  | O => Ok (i, x)
  | S k =>
      d ← get_pdata p x;
      match list.last (overflow_queue d) with
      | None => Ok (i, x)
      | Some data =>
          '(h, w) ← next_rr p (dw x);
          '(ok, w) ← rx_send_to_runtime p h RX_NET_COMPLETE data w;
          let x := put_dw w x in
          if (ok : bool) then
            overflow_loop k (S i) p
              (put_delivered (delivered x ++ [(p, data)]) (put_pdata p (set_overflow (removelast (overflow_queue d)) d) x))
          else Ok (i, x)
      end
  end.
Definition drain_overflow_queue (p n : nat) (x : dplane) : res (nat * dplane) := overflow_loop n 0 p x.

(** [clients[(pos + i) % nr_clients]] for the rounds from [i] on. *)
Fixpoint drain_clients (k i drained : nat) (x : dplane) : res (nat * dplane) :=
  match k with
  | O => Ok (drained, x)
  | S k =>
      if (drained <? IOKERNEL_OVERFLOW_BATCH_DRAIN)%nat then
        let cs := clients (dw x).2 in
        match cs !! Z.to_nat (u64 (drain_pos x + Z.of_nat i) mod Z.of_nat (length cs)) with
        | None => Bug
        | Some p => '(n, x) ← drain_overflow_queue p (IOKERNEL_OVERFLOW_BATCH_DRAIN - drained) x; drain_clients k (S i) (drained + n) x
        end
      else Ok (drained, x)
  end.

Definition tx_drain_completions (x : dplane) : res (bool * dplane) :=
  '(drained, x) ← drain_clients (length (clients (dw x).2)) 0 0 x;
  Ok ((0 <? drained)%nat, put_drain_pos (u64 (drain_pos x + 1)) x).

(** ** Packets of the runtimes *)

(** The channel's own part of a receive, and the message. *)
Definition recv_chan (c : txchan) : res (txchan * option (Z * Z)) :=
  '(i, m, v) ← lrpc_recv (ch_in c) (ch_shm c); Ok (TxChan i m, v).

Definition get_chan (q : gmap tref txchan) (r : tref) : res txchan := match q !! r with Some c => Ok c | None => Bug end.

(** The loop of [tx_drain_queue]; the addresses of the headers. *)
Fixpoint tx_drain_queue (r : tref) (n : nat) (x : dplane) : res (list Z * dplane) :=
  match n with
  | O => Ok ([], x)
  | S n =>
      c ← get_chan (txpktq x) r;
      '(c, v) ← recv_chan c;
      let x := put_txpktq (<[r := c]> (txpktq x)) x in
      match v with
      | None =>
          t ← get_thread r (dw x).2;
          if active t then Ok ([], x)
          else s ← unpoll_thread r (dw x).2; Ok ([], put_dw ((dw x).1, s) x)
      | Some (cmd, payload) =>
          _ ← BUG_ON (negb (cmd =? TXPKT_NET_XMIT));
          d ← get_pdata r.1 x;
          let hdr := shmptr_to_ptr (region d) payload sizeof_tx_net_hdr in
          _ ← BUG_ON (hdr =? 0);
          '(hdrs, x) ← tx_drain_queue r n x; Ok (hdr :: hdrs, x)
      end
  end.

(** The loop over the polled kthreads from round [i] on, at most [k] more.  The arrays
    [hdrs] and [threads] together; an entry that this call has not written is [None].
    The result tells whether the batch is full. *)
Fixpoint tx_pull (k i : nat) (hdrs : list (option (Z * tref))) (x : dplane) : res (bool * list (option (Z * tref)) * dplane) :=
  match k with
  | O => Ok (false, hdrs, x)
  | S k =>
      let nrts := length (ts (dw x).2) in
      if (i <? nrts)%nat then
        match ts (dw x).2 !! Z.to_nat (u32 (tx_pos x + Z.of_nat i) mod Z.of_nat nrts) with
        | None => Bug
        | Some r =>
            '(new, x) ← tx_drain_queue r (IOKERNEL_TX_BURST_SIZE - n_pkts x) x;
            let hdrs := hdrs ++ map (fun a => Some (a, r)) new in
            let x := put_n_pkts (n_pkts x + length new) x in
            if (IOKERNEL_TX_BURST_SIZE <=? n_pkts x)%nat then Ok (true, hdrs, x) else tx_pull k (S i) hdrs x
        end
      else Ok (false, hdrs, x)
  end.

(** [hdr_at] is what is in shared memory at an address. *)
Definition tx_prepare_tx_mbuf (hdr_at : Z -> tx_net_hdr) (b : nat) (hdr : Z) (r : tref) (x : dplane) : res dplane :=
  m ← get_mbuf b x;
  d ← get_pdata r.1 x;
  let h := hdr_at hdr in
  let a := hdr + sizeof_tx_net_hdr in
  phys ← (match page_paddrs d !! Z.to_nat (PGN_2MB (a - base (region d))) with Some v => Ok v | None => Bug end);
  let opt (f : Z) (v : pkt_tx) := if Z.land (olflags h) f =? 0 then [] else [v] in
  let flags := opt OLFLAG_IP_CHKSUM PKT_TX_IP_CKSUM ++ opt OLFLAG_TCP_CHKSUM PKT_TX_TCP_CKSUM ++ opt OLFLAG_IPV4 PKT_TX_IPV4 ++ opt OLFLAG_IPV6 PKT_TX_IPV6 in
  let offload := negb (olflags h =? 0) in
  let m := TxMbuf a (u64 (phys + PGOFF_2MB a)) 0 1 (u16 (hlen h)) (hlen h) (u16 (hlen h))
             (if offload then flags else []) (if offload then 20 else l4_len m) (if offload then 20 else l3_len m)
             (if offload then 14 else l2_len m) (TxPriv (Some r.1) r.2 (completion_data h)) in
  s ← proc_get r.1 (dw x).2;
  Ok (put_dw ((dw x).1, s) (put_mbufs (<[b := m]> (mbufs x)) (put_pulled (pulled x ++ [(r.1, completion_data h)]) x))).

(** The loop from [n_bufs] to [n_pkts]. *)
Fixpoint tx_fill (hdr_at : Z -> tx_net_hdr) (l : list nat) (hdrs : list (option (Z * tref))) (x : dplane) : res dplane :=
  match l, hdrs with
  | [], _ => Ok x
  | b :: l, Some (a, r) :: hdrs => x ← tx_prepare_tx_mbuf hdr_at b a r x; tx_fill hdr_at l hdrs x
  | _ :: _, _ => Bug
  end.

(** The packets of buffers. *)
Definition pkt_of (x : dplane) (b : nat) : list pkt :=
  match mbufs x !! b with Some m => match pv_p (priv m) with Some p => [(p, pv_data (priv m))] | None => [] end | None => [] end.
Definition pkts_of (x : dplane) (l : list nat) : list pkt := concat (pkt_of x <$> l).

(** What the card does during [rte_eth_tx_burst]: it frees buffers it has, in batches, and
    accepts [accepted] of those offered. *)
Record nic_answer := NicAnswer { freed : list (list nat); accepted : nat }.

Definition remove_all (l : list nat) (from : list nat) : list nat := filter (fun b => b ∉ l) from.

(** The card returns buffers to their pool. *)
Definition nic_free (l : list nat) (x : dplane) : res dplane :=
  '(_, x) ← completion_enqueue l x; Ok (put_nic (remove_all l (nic x)) x).

Fixpoint nic_frees (ls : list (list nat)) (x : dplane) : res dplane :=
  match ls with [] => Ok x | l :: ls => x ← nic_free l x; nic_frees ls x end.

(** The rest of [tx_burst] once buffers are there for all packets: fill, send, and keep
    what was not accepted. *)
Definition tx_send (hdr_at : Z -> tx_net_hdr) (a : nic_answer) (new : list nat) (hdrs : list (option (Z * tref))) (x : dplane) : res (bool * dplane) :=
  x ← tx_fill hdr_at new (drop (length (bufs x)) hdrs) x;
  let all := bufs x ++ new in
  x ← nic_frees (freed a) x;
  let ret := accepted a in
  let x := put_handed (handed x ++ pkts_of x (take ret all)) (put_nic (nic x ++ take ret all) x) in
  let rest := if (ret <? n_pkts x)%nat then drop ret all else [] in
  Ok (true, put_bufs rest (put_n_pkts (length rest) x)).

Definition tx_burst (hdr_at : Z -> tx_net_hdr) (a : nic_answer) (x : dplane) : res (bool * dplane) :=
  let n_bufs := length (bufs x) in
  '(full, hdrs, x) ← tx_pull (length (ts (dw x).2)) 0 (replicate (n_pkts x) None) x;
  if negb full && (n_pkts x =? 0)%nat then Ok (false, x)
  else
    let x := if (full : bool) then x else put_tx_pos (u32 (tx_pos x + 1)) x in
    if (n_bufs <? n_pkts x)%nat then
      match rte_mempool_get_bulk (objs x) (n_pkts x - n_bufs) with
      | None => Ok (true, x)
      | Some (new, stack) => tx_send hdr_at a new hdrs (put_objs stack x)
      end
    else tx_send hdr_at a [] hdrs x.

(** ** Commands of the runtimes: buffers that are done with *)

Fixpoint commands_drain_queue (r : tref) (n : nat) (x : dplane) : res (list Z * dplane) :=
  match n with
  | O => Ok ([], x)
  | S n =>
      c ← get_chan (txcmdq x) r;
      '(c, v) ← recv_chan c;
      let x := put_txcmdq (<[r := c]> (txcmdq x)) x in
      match v with
      | None => Ok ([], x)
      | Some (cmd, payload) =>
          _ ← BUG_ON (negb (cmd =? TXCMD_NET_COMPLETE));
          '(l, x) ← commands_drain_queue r n x; Ok (payload :: l, x)
      end
  end.

Fixpoint commands_loop (k i : nat) (got : list Z) (x : dplane) : res (list Z * dplane) :=
  match k with
  | O => Ok (got, x)
  | S k =>
      if (IOKERNEL_CMD_BURST_SIZE <=? length got)%nat then Ok (got, x)
      else
        let nrts := length (ts (dw x).2) in
        match ts (dw x).2 !! Z.to_nat (u32 (cmd_pos x + Z.of_nat i) mod Z.of_nat nrts) with
        | None => Bug
        | Some r =>
            '(new, x) ← commands_drain_queue r (IOKERNEL_CMD_BURST_SIZE - length got) x;
            commands_loop k (S i) (got ++ new) x
        end
  end.

(** The buffers for which it calls [rte_pktmbuf_free]. *)
Definition commands_rx (x : dplane) : res (list Z * dplane) :=
  '(l, x) ← commands_loop (length (ts (dw x).2)) 0 [] x;
  Ok (l, put_cmd_pos (u32 (cmd_pos x + 1)) x).

(** ** Packets from the network *)

(** A packet: its buffer, where [rte_pktmbuf_prepend] makes room for the preamble, its
    length, hash and whether the card found the checksum right. *)
Record rx_buf := RxBuf { rb_buf : Z; rb_hdr : Z; rb_len : Z; rb_rss : Z; rb_csum_good : bool }.

(** The kind of the destination address; for a unicast address what
    [rte_hash_lookup_data] finds. *)
Inductive rx_dst := Unicast (found : option nat) | Broadcast | OtherDst.

Record rx_net_hdr := RxNetHdr { rx_completion : Z; rx_len : Z; rss_hash : Z; csum_type : Z; csum : Z }.
Definition CHECKSUM_TYPE_NEEDED : Z := 0.
Definition CHECKSUM_TYPE_UNNECESSARY : Z := 1.

(** What becomes of a packet: its preamble, the attempts to send it and their outcome, a
    reference dropped, references added. *)
Inductive rx_effect := EHdr (a : Z) (h : rx_net_hdr) | ESend (p : nat) (ok : bool) | EFree (b : Z) | ERef (b k : Z).

Definition rx_prepend_rx_preamble (b : rx_buf) : rx_net_hdr :=
  RxNetHdr (rb_buf b) (u32 (u32 (rb_len b + sizeof_rx_net_hdr) - sizeof_rx_net_hdr)) (rb_rss b)
    (if rb_csum_good b then CHECKSUM_TYPE_UNNECESSARY else CHECKSUM_TYPE_NEEDED) 0.

Definition rx_send_pkt_to_runtime (ingress : shm_region) (p : nat) (b : rx_buf) (w : D * sched) : res (bool * (D * sched)) :=
  shmptr ← ptr_to_shmptr ingress (rb_hdr b) sizeof_rx_net_hdr;
  rx_send_to_runtime p (rb_rss b) RX_NET_RECV shmptr w.

(** The loop over the clients; the outcomes in order. *)
Fixpoint rx_broadcast (ingress : shm_region) (b : rx_buf) (l : list nat) (w : D * sched) : res (list rx_effect * (D * sched)) :=
  match l with
  | [] => Ok ([], w)
  | p :: l =>
      '(ok, w) ← rx_send_pkt_to_runtime ingress p b w;
      '(es, w) ← rx_broadcast ingress b l w; Ok (ESend p ok :: es, w)
  end.

Definition was_sent (e : rx_effect) : bool := match e with ESend _ ok => ok | _ => false end.
Definition n_sent (es : list rx_effect) : Z := Z.of_nat (length (List.filter was_sent es)).

Definition rx_one_pkt (ingress : shm_region) (b : rx_buf) (dst : rx_dst) (w : D * sched) : res (list rx_effect * (D * sched)) :=
  match dst with
  | Unicast None => Ok ([EFree (rb_buf b)], w)
  | Unicast (Some p) =>
      let h := EHdr (rb_hdr b) (rx_prepend_rx_preamble b) in
      '(ok, w) ← rx_send_pkt_to_runtime ingress p b w;
      Ok (h :: ESend p ok :: (if (ok : bool) then [] else [EFree (rb_buf b)]), w)
  | Broadcast =>
      if (0 <? length (clients w.2))%nat then
        let h := EHdr (rb_hdr b) (rx_prepend_rx_preamble b) in
        '(es, w) ← rx_broadcast ingress b (clients w.2) w;
        Ok (h :: es ++ (if n_sent es =? 0 then [EFree (rb_buf b)] else [ERef (rb_buf b) (n_sent es - 1)]), w)
      else Ok ([EFree (rb_buf b)], w)
  | OtherDst => Ok ([EFree (rb_buf b)], w)
  end.

Fixpoint rx_burst (ingress : shm_region) (l : list (rx_buf * rx_dst)) (w : D * sched) : res (list (list rx_effect) * (D * sched)) :=
  match l with
  | [] => Ok ([], w)
  | (b, d) :: l => '(es, w) ← rx_one_pkt ingress b d w; '(ess, w) ← rx_burst ingress l w; Ok (es :: ess, w)
  end.
End data.
