(* ===== verification/IokFrame.v ===== *)
(** * What the scheduler leaves alone

    The scheduler and its policies do not change whether a process is being removed, its
    turn for spraying, and the channels to its kthreads, but that a sender may take over
    the receiver's position.  The data path relies on this for any policy that keeps to it,
    and the simple policy does. *)

From S2P Require Import Prelude Stddef Lrpc IokState IokSched IokSimple.

(** ** The relation *)

Record tfr (t t' : thread) : Prop := {
  tf_shm : rxq_shm t' = rxq_shm t;
  tf_head : send_head (rxq t') = send_head (rxq t);
  tf_size : out_size (rxq t') = out_size (rxq t);
  tf_tail : send_tail (rxq t') = send_tail (rxq t) \/ send_tail (rxq t') = recv_head_wb (rxq_shm t)
}.

Record pfr (a b : proc) : Prop := {
  pf_kill : kill b = kill a;
  pf_rr : next_thread_rr b = next_thread_rr a;
  pf_threads : Forall2 tfr (threads a) (threads b)
}.

Definition frame (s s' : sched) : Prop := forall p, option_Forall2 pfr (procs s !! p) (procs s' !! p).

#[export] Instance tfr_preorder : PreOrder tfr.
Proof.
  split; [intros t; split; auto|]. intros t1 t2 t3 [A1 A2 A3 A4] [B1 B2 B3 B4]. split; [congruence..|].
  destruct B4 as [B4|B4]; [|right; congruence]. destruct A4 as [A4|A4]; [left|right]; congruence.
Qed.

#[export] Instance pfr_preorder : PreOrder pfr.
Proof.
  split; [intros p; split; [done..|]; reflexivity|].
  intros a b c [A1 A2 A3] [B1 B2 B3]. split; [congruence..|]. by etrans.
Qed.

#[export] Instance frame_preorder : PreOrder frame.
Proof.
  split; [intros s p; by reflexivity|]. intros s1 s2 s3 H1 H2 p. by etrans; [apply H1|apply H2].
Qed.

(** ** Single changes *)

Lemma pfr_threads a l : Forall2 tfr (threads a) l -> pfr a (set_threads l a).
Proof. by split. Qed.

Lemma pfr_alter i f a : (forall t, tfr t (f t)) -> pfr a (set_threads (alter f i (threads a)) a).
Proof.
  intros Hf. apply pfr_threads. generalize (threads a) as l. intros l. revert i.
  induction l as [|t l IH]; intros [|i]; cbn; constructor; auto; reflexivity.
Qed.

Lemma frame_upd p f s : (forall pr, procs s !! p = Some pr -> pfr pr (f pr)) -> frame s (upd_proc p f s).
Proof.
  intros Hf q. unfold upd_proc. cbn. destruct (decide (q = p)) as [->|]; [|by rewrite lookup_alter_ne].
  rewrite lookup_alter_eq. destruct (procs s !! p) as [pr|]; constructor; auto.
Qed.

Lemma frame_thread r f s : (forall t, tfr t (f t)) -> frame s (upd_thread r f s).
Proof. intros Hf. apply frame_upd. intros pr _. by apply pfr_alter. Qed.

Lemma frame_procs s s' : procs s' = procs s -> frame s s'.
Proof. intros E p. by rewrite E. Qed.

Lemma steer_pfr a b : pfr a b -> pfr a (sched_steer_flows b).
Proof. intros H. unfold sched_steer_flows. destruct (active_threads b); [done|]. destruct H. by split. Qed.

(** A thread with the same channel. *)
Ltac tfr_id := intros ?; split; cbn; auto.

(** Takes a successful call apart. *)
Ltac fr_inv :=
  repeat match goal with
  | H : mbind _ _ = Ok _ |- _ => apply res_bind_ok in H as (? & ? & H)
  | H : (let '(_, _) := ?x in _) = Ok _ |- _ => destruct x
  | H : (if ?b then _ else _) = Ok _ |- _ => destruct b eqn:?
  | H : match ?x with _ => _ end = Ok _ |- _ => destruct x eqn:?; try discriminate H
  | H : Ok _ = Ok _ |- _ => injection H as H; subst
  | x : (?A * _)%type |- _ => lazymatch A with nat => fail | _ => destruct x end
  | H : (_, _) = (_, _) |- _ => injection H as ? ?; subst
  end.

(** Leaves what is not a frame of the shared lemmas. *)
Ltac fr := fr_inv; cbn [fst snd] in *; try done;
  repeat match goal with
  | |- frame ?s ?s => reflexivity
  | H : frame ?s ?s' |- frame ?s ?s' => exact H
  | |- frame ?s (put_cstate _ _ ?s') => transitivity s'; [|by apply frame_procs]
  | |- frame ?s (log_ev _ ?s') => transitivity s'; [|by apply frame_procs]
  | |- frame ?s (set_ts _ ?s') => transitivity s'; [|by apply frame_procs]
  | |- frame ?s (set_ksched_count _ ?s') => transitivity s'; [|by apply frame_procs]
  | |- frame ?s (upd_thread ?r ?f ?s') => transitivity s'; [|apply frame_thread; tfr_id]
  end.

Lemma fr_get p s s' : proc_get p s = Ok s' -> frame s s'.
Proof. unfold proc_get. intros H. fr. apply frame_upd. intros pr Hp. by split. Qed.

Lemma fr_put p s s' : proc_put p s = Ok s' -> frame s s'.
Proof. unfold proc_put. intros H. fr. destruct (_ =? 0); fr; (apply frame_upd; intros pr Hp; by split). Qed.

Create HintDb frame.
#[export] Hint Resolve fr_get fr_put : frame.

Lemma fr_poll r s s' : poll_thread r s = Ok s' -> frame s s'.
Proof. unfold poll_thread. intros H. fr. eauto with frame. Qed.

Lemma fr_unpoll r s s' : unpoll_thread r s = Ok s' -> frame s s'.
Proof.
  unfold unpoll_thread. intros H. fr. eapply fr_put in H. etrans; [|exact H]. fr.
Qed.
#[export] Hint Resolve fr_poll fr_unpoll : frame.

Lemma fr_enable r c s s' : sched_enable_kthread r c s = Ok s' -> frame s s'.
Proof.
  unfold sched_enable_kthread. intros H. fr. apply fr_poll in H. etrans; [|exact H]. apply frame_upd. intros pr _.
  apply steer_pfr. cbn. etrans; [apply (pfr_alter r.2 (fun t => set_core (Some c) (set_active true t))); tfr_id|].
  split; [done..|]. cbn. apply (pfr_alter r.2 _ (set_threads _ pr)). tfr_id.
Qed.

Lemma fr_disable_proc i at_ a b : disable_proc i at_ a = Ok b -> pfr a b.
Proof.
  unfold disable_proc. intros H. fr. apply steer_pfr. cbn.
  etrans; [apply (pfr_alter i (set_active false)); tfr_id|]. split; [done..|]. cbn.
  apply (pfr_alter _ _ (set_threads _ a)). tfr_id.
Qed.

Lemma get_proc_Ok p s pr : get_proc p s = Ok pr -> procs s !! p = Some pr.
Proof. unfold get_proc. destruct (procs s !! p); congruence. Qed.

Lemma fr_disable r s s' : sched_disable_kthread r s = Ok s' -> frame s s'.
Proof.
  unfold sched_disable_kthread. intros H. apply res_bind_ok in H as (t & _ & H). apply res_bind_ok in H as (a & Ha & H).
  apply res_bind_ok in H as (b & Hb & H). apply get_proc_Ok in Ha. apply fr_disable_proc in Hb.
  assert (F : frame s (upd_proc r.1 (fun _ => b) s)) by (apply frame_upd; congruence).
  destruct (txpktq_empty t); [apply fr_unpoll in H; by etrans|by injection H as <-].
Qed.
#[export] Hint Resolve fr_enable fr_disable : frame.

Lemma fr_drop th s s' : drop_kthread th s = Ok s' -> frame s s'.
Proof. unfold drop_kthread. intros H. fr. etrans; eauto with frame. Qed.
#[export] Hint Resolve fr_drop : frame.

Lemma fr_run th c s r : __sched_run th c s = Ok r -> frame s r.2.
Proof.
  unfold __sched_run. intros H. fr; [by eauto with frame|].
  match goal with H : drop_kthread _ _ = Ok _ |- _ => apply fr_drop in H; etrans; [|exact H] end.
  apply frame_procs. by destruct (negb _ && _).
Qed.

Section frame.
Context (T : topo).

Lemma fr_run_on p c s r : sched_run_on_core T p c s = Ok r -> frame s r.2.
Proof.
  unfold sched_run_on_core. intros H. fr.
  match goal with H : __sched_run _ _ _ = Ok _ |- _ => apply fr_run in H; cbn in H; etrans; [|exact H] end.
  etrans; eauto with frame.
Qed.

Lemma fr_idle_on h c s r : sched_idle_on_core T h c s = Ok r -> frame s r.2.
Proof. unfold sched_idle_on_core. intros H. fr. match goal with H : __sched_run _ _ _ = Ok _ |- _ => by apply fr_run in H end. Qed.

Lemma scan_tfr f i l0 l : (forall t, tfr t (f t).2) -> Forall2 tfr l0 l -> Forall2 tfr l0 (scan f i l).2.
Proof.
  intros Hf Hl. revert i. induction Hl as [|t0 t l0 l Ht Hl IH]; intros i; cbn; [constructor|].
  specialize (Hf t). destruct (f t) as [b t']. specialize (IH (S i)). destruct (scan f (S i) l) as [bits l'].
  constructor; [by etrans|done].
Qed.

Lemma detect_pfr cyc now a : pfr a (detect_congestion cyc now a).2.
Proof.
  unfold detect_congestion.
  assert (H0 : Forall2 tfr (threads a) (scan scan_rq 0 (threads a)).2) by (apply scan_tfr; [tfr_id|reflexivity]).
  destruct (scan scan_rq 0 _) as [b0 l0].
  eapply (scan_tfr (scan_rxq (active_thread_count a)) 0) in H0.
  2: { intros t. unfold scan_rxq, hardware_queue_congested. cbn.
       destruct (enabled (directpath_hwq t)), (enabled (storage_hwq t)); split; cbn; auto. }
  destruct (scan (scan_rxq _) 0 _) as [b1 l1].
  eapply (scan_tfr (scan_timer cyc now) 0) in H0; [|done]. destruct (scan (scan_timer _ _) 0 _) as [b2 l2].
  by apply pfr_threads.
Qed.

Lemma fr_rewake r s x : sched_try_fast_rewake r s = Ok x -> frame s x.2.
Proof.
  unfold sched_try_fast_rewake. intros H. apply res_bind_ok in H as (t & Ht & H). cbn in H.
  set (s1 := upd_thread _ _ _) in H. assert (F : frame s s1).
  { unfold get_thread in Ht. apply res_bind_ok in Ht as (pr & Hp & Ht). apply get_proc_Ok in Hp.
    apply frame_upd. intros pr' Hp'. assert (pr' = pr) as -> by congruence. apply pfr_threads.
    destruct (threads pr !! r.2) as [t'|] eqn:Et; [|done]. injection Ht as ->.
    apply Forall2_same_length_lookup_2; [by rewrite length_alter|]. intros j a b Ha Hb.
    destruct (decide (j = r.2)) as [->|].
    - rewrite list_lookup_alter_eq, Et in Hb. injection Hb as <-. rewrite Et in Ha. injection Ha as <-. split; cbn; auto.
    - rewrite list_lookup_alter_ne, Ha in Hb by done. injection Hb as <-. reflexivity. }
  clearbody s1. fr; try exact F.
Qed.

(** ** Policies *)

Class PolicyFrame {D} (ops : sched_ops D) := {
  pf_congested p ths ios w w' : notify_congested ops p ths ios w = Ok w' -> frame w.2 w'.2;
  pf_needed p w r : notify_core_needed ops p w = Ok r -> frame w.2 r.2.2;
  pf_poll now cnt bits w w' : policy_poll ops now cnt bits w = Ok w' -> frame w.2 w'.2;
  pf_attach p cfg w r : proc_attach ops p cfg w = Ok r -> frame w.2 r.2.2;
  pf_detach p w w' : proc_detach ops p w = Ok w' -> frame w.2 w'.2;
}.

Context {D : Type} (ops : sched_ops D) `{!PolicyFrame ops} (cyc : Z).

Lemma fr_each (f : nat -> D * sched -> res (D * sched)) l w w' : (forall p w w', f p w = Ok w' -> frame w.2 w'.2) -> each_client f l w = Ok w' -> frame w.2 w'.2.
Proof.
  intros Hf. revert w. induction l as [|p l IH]; intros w; cbn; [by intros [= ->]|].
  intros (w1 & H1 & H2)%res_bind_ok. etrans; [by eapply Hf|by apply IH].
Qed.

Lemma fr_detect tsc p w w' : sched_detect_congestion ops cyc tsc p w = Ok w' -> frame w.2 w'.2.
Proof.
  unfold sched_detect_congestion. intros H. apply res_bind_ok in H as (a & Ha & H). apply get_proc_Ok in Ha.
  pose proof (detect_pfr cyc tsc a) as F. destruct (detect_congestion cyc tsc a) as [[b0 b1] a'].
  apply pf_congested in H. cbn in *. etrans; [|exact H]. apply frame_upd. congruence.
Qed.

Lemma fr_slow p w w' : slow_check ops p w = Ok w' -> frame w.2 w'.2.
Proof.
  unfold slow_check, sched_detect_io_for_idle_runtime, sched_add_core. intros H. fr.
  match goal with H : notify_core_needed _ _ _ = Ok _ |- _ => by apply pf_needed in H end.
Qed.

Lemma fr_switch k c s s' : poll_switch k c s = Ok s' -> frame s s'.
Proof.
  unfold poll_switch. intros H. fr. match goal with H : drop_kthread _ _ = Ok _ |- _ => apply fr_drop in H; etrans; [|exact H] end.
  by apply frame_procs.
Qed.

Lemma fr_idle k c s r : poll_core_idle k c s = Ok r -> frame s r.2.
Proof.
  unfold poll_core_idle. intros H. fr; match goal with H : sched_try_fast_rewake _ _ = Ok _ |- _ => apply fr_rewake in H; cbn in H end; [done|].
  etrans; [eassumption|]. by eauto with frame.
Qed.

Lemma fr_pass k l bits cnt s r : fast_pass k l bits cnt s = Ok r -> frame s r.2.
Proof.
  revert bits cnt s. induction l as [|c l IH]; intros bits cnt s H; cbn [fast_pass] in H; [by injection H as <-|].
  apply res_bind_ok in H as (s1 & H1 & H). apply res_bind_ok in H as ([b s2] & H2 & H).
  apply fr_switch in H1. apply fr_idle in H2. etrans; [exact H1|]. etrans; [exact H2|]. destruct b; by eapply IH.
Qed.

Lemma fr_sched_poll last now tsc k w r : sched_poll T ops cyc last now tsc k w = Ok r -> frame w.2 r.2.2.
Proof.
  unfold sched_poll. intros H. apply res_bind_ok in H as (w1 & H1 & H). apply res_bind_ok in H as ([[bits cnt] s2] & H2 & H).
  apply res_bind_ok in H as (w3 & H3 & H). injection H as <-. cbn.
  apply fr_each in H1; [|intros p ? ?; destruct (_ <=? _); [apply fr_detect|apply fr_slow]].
  apply fr_pass in H2. apply pf_poll in H3. cbn in *. etrans; [exact H1|]. etrans; [exact H2|]. etrans; [exact H3|].
  apply frame_procs. unfold ksched_send_intrs. by destruct (_ =? 0).
Qed.
End frame.

(** ** The simple policy *)

Section simple_frame.
Context (T : topo) {F : Type} (load0 : F) (load_ewma : F -> Z -> Z -> F) (mok : bool).
Abbreviation W := (simple (F := F) * sched)%type.

Lemma fr_run_kthread p c (w : W) r : simple_run_kthread_on_core T p c w = Ok r -> frame w.2 r.2.2.
Proof.
  unfold simple_run_kthread_on_core. intros H. fr; match goal with H : sched_run_on_core _ _ _ _ = Ok _ |- _ => by apply fr_run_on in H end.
Qed.

Lemma fr_add_kthread p (w : W) r : simple_add_kthread T p w = Ok r -> frame w.2 r.2.2.
Proof. unfold simple_add_kthread. intros H. fr. match goal with H : simple_run_kthread_on_core _ _ _ _ = Ok _ |- _ => by apply fr_run_kthread in H end. Qed.

Lemma fr_poll_core c (w w' : W) : simple_poll_core T c w = Ok w' -> frame w.2 w'.2.
Proof. unfold simple_poll_core. intros H. fr; match goal with H : simple_run_kthread_on_core _ _ _ _ = Ok _ |- _ => by apply fr_run_kthread in H end. Qed.

Lemma fr_poll_cores l (w w' : W) : simple_poll_cores T l w = Ok w' -> frame w.2 w'.2.
Proof.
  revert w. induction l as [|c l IH]; intros w; cbn; [by intros [= ->]|].
  intros (w1 & H1 & H2)%res_bind_ok. etrans; [by eapply fr_poll_core|by apply IH].
Qed.

#[export] Instance simple_frame : PolicyFrame (simple_ops T load0 load_ewma mok).
Proof.
  split.
  - intros p ths ios w w'. cbn. unfold simple_notify_congested. intros H. fr.
    all: match goal with H : simple_add_kthread _ _ _ = Ok _ |- _ => by apply fr_add_kthread in H end.
  - intros p w r. cbn. apply fr_add_kthread.
  - intros now cnt bits w w'. cbn. unfold simple_sched_poll. intros H. destruct (_ =? _)%nat; [by injection H as <-|by apply fr_poll_cores in H].
  - intros p cfg w r. cbn. unfold simple_attach. intros H. fr.
  - intros p w w'. cbn. unfold simple_detach. intros H. fr.
Qed.
End simple_frame.
