(* ===== verification/IokDataInv.v ===== *)
(** * Invariants of the data path

    A channel to a kthread on which a send cannot fail an assertion; what of the
    scheduler's state the data path relies on and that the scheduler keeps; and the
    invariant of packets, buffers and references. *)

From S2P Require Import Prelude Stddef Page Shm Lrpc IokState IokSched IokInv IokBase IokCores IokPoll IokMach IokFrame IokData.

(** ** Channels *)

Definition pow2 (n : Z) : Prop := exists k, 0 <= k < 32 /\ n = 2 ^ k.

(** The receiver's position in shared memory is between the one the sender knows and the
    sender's own, which are at most the size of the table apart. *)
Record rxq_ok (t : thread) : Prop := {
  rq_pow : pow2 (out_size (rxq t));
  rq_len : Z.of_nat (length (tbl (rxq_shm t))) = out_size (rxq t);
  rq_wb : u32 (send_head (rxq t) - recv_head_wb (rxq_shm t)) <= u32 (send_head (rxq t) - send_tail (rxq t));
  rq_tail_ok : u32 (send_head (rxq t) - send_tail (rxq t)) <= out_size (rxq t)
}.

Lemma rxq_ok_tfr t t' : tfr t t' -> rxq_ok t -> rxq_ok t'.
Proof.
  intros [F1 F2 F3 F4] [R1 R2 R3 R4]. split; rewrite ?F1, ?F2, ?F3; try done.
  - destruct F4 as [-> | ->]; [done|lia].
  - destruct F4 as [-> | ->]; [done|lia].
Qed.

Lemma rxq_slot_lt size h l : pow2 size -> Z.of_nat (length l) = size -> (slot h size < length (l : list lrpc_msg))%nat.
Proof.
  intros (k & Hk & ->) Hl. unfold slot. replace (2 ^ k - 1) with (Z.ones k) by (rewrite Z.ones_equiv; lia).
  rewrite Z.land_ones by lia. pose proof (Z.mod_pos_bound h (2 ^ k) ltac:(apply Z.pow_pos_nonneg; lia)). lia.
Qed.

Lemma store_ok m i y : (i < length (tbl m))%nat ->
  exists x, store_payload m i y = Ok (LrpcShm (<[i := x]> (tbl m)) (recv_head_wb m)).
Proof. intros [x Hx]%lookup_lt_is_Some_2. unfold store_payload, tbl_read. rewrite Hx. cbn. by eexists. Qed.

Lemma rxq_store_cmd_ok m i y : (i < length (tbl m))%nat ->
  exists x, store_cmd m i y = Ok (LrpcShm (<[i := x]> (tbl m)) (recv_head_wb m)).
Proof. intros [x Hx]%lookup_lt_is_Some_2. unfold store_cmd, tbl_read. rewrite Hx. cbn. by eexists. Qed.

Lemma u32_step h w n : pow2 n -> u32 (h - w) < n -> u32 (u32 (h + 1) - w) = u32 (h - w) + 1.
Proof.
  intros (k & Hk & ->) H. assert (2 ^ k <= 2 ^ 31) by (apply Z.pow_le_mono_r; lia).
  rewrite u32_sub_l. replace (h + 1 - w) with ((h - w) + 1) by lia. rewrite <- u32_add_l. apply u32_id.
  pose proof (u32_range (h - w)). unfold in_u32, M32 in *. lia.
Qed.

(** A send on such a channel stores the message or finds it full, and keeps it so. *)
Lemma lrpc_send_ok t cmd payload :
  rxq_ok t -> Z.land cmd LRPC_DONE_PARITY = 0 ->
  exists c m ok, lrpc_send (rxq t) (rxq_shm t) cmd payload = Ok (c, m, ok) /\ rxq_ok (set_rxq_shm m (set_rxq c t)).
Proof.
  intros [R1 R2 R3 R4] Hc. set (c0 := rxq t) in *. set (m0 := rxq_shm t) in *.
  assert (Hst : forall cm, exists m', (m ← store_payload m0 (slot (send_head c0) (out_size c0)) payload; store_cmd m (slot (send_head c0) (out_size c0)) cm) = Ok m'
      /\ recv_head_wb m' = recv_head_wb m0 /\ length (tbl m') = length (tbl m0)).
  { intros cm. pose proof (rxq_slot_lt _ (send_head c0) _ R1 R2) as Hsl.
    destruct (store_ok m0 _ payload Hsl) as [x ->]. cbn [mbind res_bind].
    destruct (rxq_store_cmd_ok (LrpcShm (<[slot (send_head c0) (out_size c0) := x]> (tbl m0)) (recv_head_wb m0)) (slot (send_head c0) (out_size c0)) cm) as [y ->].
    { cbn. by rewrite length_insert. }
    eexists. split; [done|]. cbn. by rewrite !length_insert. }
  unfold lrpc_send, __lrpc_send. rewrite Hc. cbn [Z.eqb negb BUG_ON mbind res_bind].
  destruct (Z.leb_spec (out_size c0) (u32 (send_head c0 - send_tail c0))) as [Hfull|Hroom].
  - rewrite (proj2 (Z.eqb_eq (u32 (send_head c0 - send_tail c0)) (out_size c0))) by lia. cbn [negb BUG_ON mbind res_bind send_head send_tail out_size].
    destruct (Z.eqb_spec (u32 (send_head c0 - recv_head_wb m0)) (out_size c0)) as [He|Hne].
    + eexists _, _, false. split; [reflexivity|]. split; cbn; [done|done|lia|lia].
    + destruct (Hst (Z.lor cmd (parity_of (send_head c0) (out_size c0)))) as (m' & E & W & L).
      destruct (store_payload m0 _ payload) as [m1|]; [|done]. cbn [mbind res_bind] in *. rewrite E. cbn [mbind res_bind].
      eexists _, _, true. split; [reflexivity|].
      assert (Hs := u32_step (send_head c0) (recv_head_wb m0) _ R1 ltac:(lia)).
      split; cbn; [done|by rewrite L|rewrite W; lia|lia].
  - destruct (Hst (Z.lor cmd (parity_of (send_head c0) (out_size c0)))) as (m' & E & W & L).
    destruct (store_payload m0 _ payload) as [m1|]; [|done]. cbn [mbind res_bind] in *. rewrite E. cbn [mbind res_bind].
    eexists _, _, true. split; [reflexivity|].
    assert (Hs1 := u32_step (send_head c0) (recv_head_wb m0) _ R1 ltac:(lia)).
    assert (Hs2 := u32_step (send_head c0) (send_tail c0) _ R1 ltac:(lia)).
    split; cbn; [done|by rewrite L|rewrite W; lia|lia].
Qed.

(** ** What the scheduler keeps *)

Definition all_rxq (s : sched) : Prop := forall r t, th_at s r = Some t -> rxq_ok t.

Record skeep (s s' : sched) : Prop := {
  sk_clients : clients s' = clients s;
  sk_kill : forall p, kill <$> procs s' !! p = kill <$> procs s !! p;
  sk_th : forall r, is_Some (th_at s' r) <-> is_Some (th_at s r);
  sk_rxq : all_rxq s -> all_rxq s'
}.

#[export] Instance skeep_preorder : PreOrder skeep.
Proof.
  split; [intros s; by split|]. intros s1 s2 s3 [A1 A2 A3 A4] [B1 B2 B3 B4]. split; [congruence| | |auto].
  - intros p. by rewrite B2.
  - intros r. by rewrite B3.
Qed.

Lemma sk_procs s s' p : skeep s s' -> is_Some (procs s' !! p) <-> is_Some (procs s !! p).
Proof. intros H. rewrite <- !(fmap_is_Some kill), (sk_kill _ _ H). done. Qed.

Lemma frame_th s s' r : frame s s' -> option_Forall2 tfr (th_at s r) (th_at s' r).
Proof.
  intros F. unfold th_at. specialize (F r.1). inversion F as [a b Hab E1 E2|E1 E2]; cbn; [|constructor].
  pose proof (pf_threads _ _ Hab) as Hf. destruct (threads a !! r.2) as [t|] eqn:Et.
  - destruct (Forall2_lookup_l _ _ _ _ _ Hf Et) as (t' & Et' & ?). rewrite Et'. by constructor.
  - apply lookup_ge_None_1 in Et. rewrite (Forall2_length Hf) in Et. rewrite (lookup_ge_None_2 _ _ Et). constructor.
Qed.

Lemma frame_skeep s s' : frame s s' -> clients s' = clients s -> skeep s s'.
Proof.
  intros F C. split; [done| | |].
  - intros p. specialize (F p). inversion F as [a b Hab E1 E2|E1 E2]; cbn; [|done]. by rewrite (pf_kill _ _ Hab).
  - intros r. pose proof (frame_th _ _ r F) as Ft. inversion Ft; by split; intros [? ?].
  - intros H r t Ht. pose proof (frame_th _ _ r F) as Ft. rewrite Ht in Ft. inversion Ft as [a b Hab E1 E2|]; subst.
    eapply rxq_ok_tfr; [done|]. by eapply H.
Qed.

Lemma skeep_upd_proc s p f :
  (forall pr, procs s !! p = Some pr -> kill (f pr) = kill pr /\ length (threads (f pr)) = length (threads pr) /\
     (Forall rxq_ok (threads pr) -> Forall rxq_ok (threads (f pr)))) ->
  skeep s (upd_proc p f s).
Proof.
  intros Hf. split; [done| | |].
  - intros q. unfold upd_proc. cbn. destruct (decide (q = p)) as [->|]; [|by rewrite lookup_alter_ne].
    rewrite lookup_alter_eq. destruct (procs s !! p) as [pr|]; [|done]. cbn. by rewrite (proj1 (Hf pr eq_refl)).
  - intros r. rewrite th_at_upd_proc. destruct (decide (r.1 = p)) as [Hr|]; [|done]. unfold th_at. rewrite Hr.
    destruct (procs s !! p) as [pr|]; [|done]. cbn. rewrite !lookup_lt_is_Some. by rewrite (proj1 (proj2 (Hf pr eq_refl))).
  - intros H r t. rewrite th_at_upd_proc. destruct (decide (r.1 = p)) as [Hr|]; [|apply H].
    destruct (procs s !! p) as [pr|] eqn:Hp; [|done]. cbn. intros Ht.
    assert (Hall : Forall rxq_ok (threads pr)).
    { apply Forall_lookup. intros i t0 Hi. apply (H (p, i)). unfold th_at. cbn. by rewrite Hp. }
    apply (proj2 (proj2 (Hf pr eq_refl))) in Hall. rewrite Forall_lookup in Hall. by eapply Hall.
Qed.

(** ** Steps of the data path in the scheduler's state *)

Section steps.
Context (T : topo) (HT : topo_ok T) (U : list tref) (cfgok : sched_spec -> Prop) {D : Type} (ops : sched_ops D) `{!SchedPolicy T U cfgok ops, !PolicyFrame ops}.

Definition skstep (G : nat -> Z) (w w' : D * sched) : Prop := runs T U G w.2 w'.2 /\ pol_inv w'.1 (cl w'.2) /\ skeep w.2 w'.2.

Lemma skstep_trans G w1 w2 w3 : skstep G w1 w2 -> skstep G w2 w3 -> skstep G w1 w3.
Proof. intros (A1 & A2 & A3) (B1 & B2 & B3). split_and!; [by eapply runs_trans|done|by etrans]. Qed.

Lemma skstep_sched G d s s' : pol_inv d (cl s) -> runs T U G s s' -> skeep s s' -> skstep G (d, s) (d, s').
Proof. intros Hp R K. split_and!; [done| |done]. cbn. unfold cl. by rewrite (sk_clients _ _ K). Qed.

Lemma send_rxq_ok G s r cmd payload :
  sched_inv T G U s -> all_rxq s -> is_Some (th_at s r) -> Z.land cmd LRPC_DONE_PARITY = 0 ->
  exists ok s', send_rxq r cmd payload s = Ok (ok, s') /\ runs T U G s s' /\ skeep s s'.
Proof.
  intros Hs Ha [t Ht] Hc. unfold send_rxq. rewrite (get_thread_ok _ _ _ Ht). cbn [mbind res_bind].
  destruct (lrpc_send_ok t cmd payload (Ha _ _ Ht) Hc) as (c & m & ok & -> & Hok). cbn [mbind res_bind].
  eexists _, _. split; [reflexivity|]. split; [by eapply (upd_thread_teq T); [done..|intros []]|].
  apply skeep_upd_proc. intros pr Hp. cbn. split; [done|]. split; [by rewrite length_alter|].
  intros Hall. apply Forall_lookup. intros i t' Hi. destruct (decide (i = r.2)) as [->|Hne].
  - rewrite list_lookup_alter_eq in Hi. apply fmap_Some in Hi as (t0 & Ht0 & ->).
    apply th_at_Some in Ht as (pr' & Hp' & Ht'). assert (t0 = t) as -> by congruence. exact Hok.
  - rewrite list_lookup_alter_ne in Hi by done. rewrite Forall_lookup in Hall. by eapply Hall.
Qed.

Lemma next_rr_ok G d s p pr :
  sched_inv T G U s -> pol_inv d (cl s) -> procs s !! p = Some pr -> exists h s', next_rr p (d, s) = Ok (h, (d, s')) /\ skstep G (d, s) (d, s').
Proof.
  intros Hs Hp Hpr. unfold next_rr, get_proc. cbn [snd fst]. rewrite Hpr. cbn [mbind res_bind].
  eexists _, _. split; [reflexivity|]. apply skstep_sched; [done| |].
  - by apply (sched_upd_flag T).
  - apply skeep_upd_proc. by intros pr' _.
Qed.

(** An entry of the flow table of a process with active kthreads. *)
Lemma flow_thread_ok s p pr h :
  proc_ok pr -> procs s !! p = Some pr -> (0 < active_thread_count pr)%nat -> is_Some (th_at s (p, 0%nat)) ->
  exists i, flow_thread pr h = Ok i /\ is_Some (th_at s (p, i)).
Proof.
  intros Hok Hp Ha [t0 Ht0]. unfold flow_thread.
  assert (Hc : (0 < thread_count pr)%nat).
  { apply th_at_Some in Ht0 as (pr' & Hp' & Ht0). cbn in *. assert (pr' = pr) as -> by congruence.
    apply lookup_lt_Some in Ht0. exact Ht0. }
  pose proof (Z.mod_pos_bound h (Z.of_nat (thread_count pr)) ltac:(lia)) as Hm.
  destruct (po_flow pr Hok) with (i := Z.to_nat (h mod Z.of_nat (thread_count pr))) as (j & -> & Hj & _); [|lia|].
  { intros E. unfold active_thread_count in Ha. rewrite E in Ha. cbn in Ha. lia. }
  exists j. split; [done|]. unfold th_at. cbn. rewrite Hp. cbn. apply (po_valid pr j Hok), elem_of_app. by left.
Qed.

Lemma rx_send_ok G w p h cmd payload :
  sched_inv T G U w.2 -> pol_inv w.1 (cl w.2) -> all_rxq w.2 -> p ∈ clients w.2 -> is_Some (th_at w.2 (p, 0%nat)) -> Z.land cmd LRPC_DONE_PARITY = 0 ->
  exists ok w', rx_send_to_runtime ops p h cmd payload w = Ok (ok, w') /\ skstep G w w'.
Proof.
  destruct w as [d s]. cbn [fst snd]. intros Hs Hpol Ha Hp Ht0 Hc. unfold rx_send_to_runtime, get_proc. cbn [fst snd].
  destruct (sv_clients _ _ _ _ Hs p Hp) as [[pr Hpr] _]. rewrite Hpr. cbn [mbind res_bind].
  assert (Hok := bi_proc _ _ _ _ (sv_base _ _ _ _ Hs) _ _ Hpr). unfold sched_threads_active.
  destruct (Nat.ltb_spec 0 (active_thread_count pr)) as [Hact|Hact].
  - destruct (flow_thread_ok s p pr h Hok Hpr Hact Ht0) as (i & -> & Hi). cbn [mbind res_bind].
    destruct (send_rxq_ok G s (p, i) cmd payload Hs Ha Hi Hc) as (ok & s' & -> & R & K). cbn [mbind res_bind].
    eexists _, _. split; [reflexivity|]. by apply skstep_sched.
  - destruct (pol_needed G d s p Hs Hpol Hp) as (ret & d1 & s1 & E & R & P). unfold sched_add_core. rewrite E. cbn [mbind res_bind fst snd].
    assert (K : skeep s s1) by (apply frame_skeep; [by apply (pf_needed) in E|apply R]).
    assert (S1 : skstep G (d, s) (d1, s1)) by done. assert (Hs1 : sched_inv T G U s1) by apply R.
    assert (Ha1 : all_rxq s1) by by apply K. assert (Ht1 : is_Some (th_at s1 (p, 0%nat))) by by apply K.
    assert (Hp1 : p ∈ clients s1) by by rewrite (sk_clients _ _ K).
    destruct (sv_clients _ _ _ _ Hs1 p Hp1) as [[pr1 Hpr1] _]. unfold get_proc. rewrite Hpr1. cbn [mbind res_bind].
    assert (Hok1 := bi_proc _ _ _ _ (sv_base _ _ _ _ Hs1) _ _ Hpr1).
    assert (exists i, (if (active_thread_count pr1 =? 0)%nat then match idle_threads pr1 with i :: _ => Ok i | [] => Bug end else flow_thread pr1 h) = Ok i
              /\ is_Some (th_at s1 (p, i))) as (i & -> & Hi).
    { destruct (Nat.eqb_spec (active_thread_count pr1) 0) as [H0|H0].
      - assert (Hperm := po_perm pr1 Hok1). unfold active_thread_count in H0. apply length_zero_iff_nil in H0. rewrite H0 in Hperm. cbn in Hperm.
        destruct (idle_threads pr1) as [|i l] eqn:Ei.
        + exfalso. apply Permutation_nil in Hperm. destruct Ht1 as [t1 Ht1]. apply th_at_Some in Ht1 as (pr' & Hp' & Ht1). cbn in *.
          assert (pr' = pr1) as -> by congruence. apply lookup_lt_Some in Ht1. unfold thread_count in Hperm. destruct (length (threads pr1)); [lia|done].
        + exists i. split; [done|]. unfold th_at. cbn. rewrite Hpr1. cbn. apply (po_valid pr1 i Hok1). rewrite Ei. apply elem_of_app. right. by left.
      - apply (flow_thread_ok s1); auto. lia. }
    cbn [mbind res_bind]. destruct (send_rxq_ok G s1 (p, i) cmd payload Hs1 Ha1 Hi Hc) as (ok & s' & -> & R' & K'). cbn [mbind res_bind].
    eexists _, _. split; [reflexivity|]. eapply skstep_trans; [exact S1|]. by apply skstep_sched.
Qed.

Lemma send_completion_ok G w p th data :
  sched_inv T G U w.2 -> pol_inv w.1 (cl w.2) -> all_rxq w.2 -> p ∈ clients w.2 -> is_Some (th_at w.2 (p, 0%nat)) -> is_Some (th_at w.2 (p, th)) ->
  exists ok w', send_completion ops p th data w = Ok (ok, w') /\ skstep G w w'.
Proof.
  destruct w as [d s]. cbn [fst snd]. intros Hs Hpol Ha Hp Ht0 Ht. unfold send_completion. cbn [fst snd].
  assert (Ht' := Ht). destruct Ht' as [t Et]. rewrite (get_thread_ok _ _ _ Et). cbn [mbind res_bind].
  destruct (active t).
  - destruct (send_rxq_ok G s (p, th) RX_NET_COMPLETE data Hs Ha Ht eq_refl) as (ok & s' & -> & R & K). cbn [mbind res_bind].
    eexists _, _. split; [reflexivity|]. by apply skstep_sched.
  - destruct (sv_clients _ _ _ _ Hs p Hp) as [[pr Hpr] _].
    destruct (next_rr_ok G d s p pr Hs Hpol Hpr) as (h & s1 & -> & S1). cbn [mbind res_bind]. assert (S1' := S1). destruct S1' as (R1 & P1 & K1). cbn [fst snd] in *.
    destruct (rx_send_ok G (d, s1) p h RX_NET_COMPLETE data) as (ok & w' & -> & S2); cbn [fst snd].
    + apply R1. + done. + by apply K1. + by rewrite (sk_clients _ _ K1). + by apply K1. + done.
    + eexists _, _. split; [reflexivity|]. by eapply skstep_trans.
Qed.
End steps.
