(* ===== verification/IokDataTx.v ===== *)
(** * Packets of the runtimes: conservation and references

    Every buffer is in the pool, waits or is at the card; every packet taken from a runtime
    was given to the card in order or waits; every packet given to the card is there or its
    completion has one fate; and a process has one reference per packet whose completion is
    outstanding or was given up. *)

From S2P Require Import Prelude Stddef Page Shm Lrpc IokState IokSched IokInv IokBase IokCores IokPoll IokMach IokFrame IokData IokDataInv.

(** ** Channels from the runtimes *)

Record chan_wf (c : txchan) : Prop := {
  cw_pow : pow2 (in_size (ch_in c));
  cw_len : Z.of_nat (length (tbl (ch_shm c))) = in_size (ch_in c)
}.

Lemma recv_chan_ok c :
  chan_wf c -> exists c' v, recv_chan c = Ok (c', v) /\ chan_wf c' /\ tbl (ch_shm c') = tbl (ch_shm c) /\ (v = None -> c' = c)
    /\ forall cmd y, v = Some (cmd, y) -> exists msg, msg ∈ tbl (ch_shm c) /\ cmd = Z.land (msg_cmd msg) LRPC_CMD_MASK /\ y = msg_payload msg.
Proof.
  intros [H1 H2]. unfold recv_chan, lrpc_recv, tbl_read.
  destruct (lookup_lt_is_Some_2 _ _ (rxq_slot_lt _ (recv_head (ch_in c)) _ H1 H2)) as [msg Hm]. rewrite Hm. cbn [mbind res_bind].
  destruct (negb _); cbn [mbind res_bind].
  - eexists _, None. split; [reflexivity|]. split_and!; [done|done|by intros _; destruct c|done].
  - eexists _, (Some _). split; [reflexivity|]. split_and!; [done|done|done|]. intros cmd y [= <- <-].
    exists msg. split; [by eapply list_elem_of_lookup_2|done].
Qed.

(** A packet message that the data path can take: its header is in the region and the
    packet data begins on a page of the region. *)
Definition tx_hdr_ok (d : pdata) (hdr : Z) : Prop :=
  hdr <> 0 /\ is_Some (page_paddrs d !! Z.to_nat (PGN_2MB (hdr + sizeof_tx_net_hdr - base (region d)))).

Definition tx_ok (d : pdata) (c : txchan) : Prop :=
  chan_wf c /\ forall msg, msg ∈ tbl (ch_shm c) ->
    Z.land (msg_cmd msg) LRPC_CMD_MASK = TXPKT_NET_XMIT /\ tx_hdr_ok d (shmptr_to_ptr (region d) (msg_payload msg) sizeof_tx_net_hdr).

Definition cmd_ok (c : txchan) : Prop :=
  chan_wf c /\ forall msg, msg ∈ tbl (ch_shm c) -> Z.land (msg_cmd msg) LRPC_CMD_MASK = TXCMD_NET_COMPLETE.

(** ** Counting *)

Definition npk (p : nat) (l : list pkt) : Z := Z.of_nat (length (List.filter (fun k => (k.1 =? p)%nat) l)).

Lemma npk_cons p k l : npk p (k :: l) = (if decide (p = k.1) then 1 else 0) + npk p l.
Proof. unfold npk. cbn. destruct (Nat.eqb_spec k.1 p); destruct (decide (p = k.1)); cbn; try lia; congruence. Qed.

Lemma npk_app p l1 l2 : npk p (l1 ++ l2) = npk p l1 + npk p l2.
Proof. unfold npk. rewrite List.filter_app, length_app. lia. Qed.

Lemma npk_perm p l1 l2 : l1 ≡ₚ l2 -> npk p l1 = npk p l2.
Proof.
  induction 1 as [|k l1 l2 H IH|k1 k2 l|l1 l2 l3 H1 IH1 H2 IH2]; [done|by rewrite !npk_cons, IH|rewrite !npk_cons; lia|congruence].
Qed.

Lemma npk_pos p l : 0 <= npk p l.
Proof. unfold npk. lia. Qed.

Definition over_of (e : nat * pdata) : list pkt := (fun v => (e.1, v)) <$> overflow_queue e.2.
Definition overflowed (m : gmap nat pdata) : list pkt := concat (over_of <$> map_to_list m).

Lemma overflowed_put m p d : overflowed (<[p := d]> m) ≡ₚ over_of (p, d) ++ overflowed (delete p m).
Proof.
  rewrite <- insert_delete_eq. unfold overflowed. rewrite map_to_list_insert by apply lookup_delete_eq. done.
Qed.

Lemma overflowed_split m p d : m !! p = Some d -> overflowed m ≡ₚ over_of (p, d) ++ overflowed (delete p m).
Proof. intros H. by rewrite <- overflowed_put, insert_id. Qed.

Section tx.
Context (T : topo) (HT : topo_ok T) (U : list tref) (cfgok : sched_spec -> Prop) {D : Type} (ops : sched_ops D) `{!SchedPolicy T U cfgok ops, !PolicyFrame ops}.
Context (N : nat).
Abbreviation dplane := (dplane D).
Abbreviation sch x := ((dw x).2) (only parsing).

Lemma pkts_of_app (x : dplane) l1 l2 : pkts_of x (l1 ++ l2) = pkts_of x l1 ++ pkts_of x l2.
Proof. unfold pkts_of. by rewrite fmap_app, concat_app. Qed.

Lemma pkts_of_perm (x : dplane) l1 l2 : l1 ≡ₚ l2 -> pkts_of x l1 ≡ₚ pkts_of x l2.
Proof.
  induction 1 as [|b l1 l2 H IH|b1 b2 l|l1 l2 l3 H1 IH1 H2 IH2]; unfold pkts_of in *; cbn; [done|by rewrite IH| |by etrans].
  rewrite !app_assoc. apply Permutation_app_tail, Permutation_app_comm.
Qed.

(** The references of the packets [l] in flight and of completions that were given up. *)
Definition held (x : dplane) (l : list nat) (p : nat) : Z := npk p (pkts_of x l) + npk p (lost x).

(** The buffers [wait] have packets and wait, those in [extra] have been taken from the
    pool, those in [fl] are at the card. *)
Record dcore (x : dplane) (wait extra fl : list nat) : Prop := {
  dc_sched : sched_inv T (Gof (held x (wait ++ fl)) (sch x)) U (sch x);
  dc_pol : pol_inv (dw x).1 (cl (sch x));
  dc_kill : forall p pr, procs (sch x) !! p = Some pr -> kill pr = false -> p ∈ clients (sch x);
  dc_rxq : all_rxq (sch x);
  dc_th0 : forall p, is_Some (procs (sch x) !! p) -> is_Some (th_at (sch x) (p, 0%nat));
  dc_chan : forall r, is_Some (th_at (sch x) r) ->
    exists d c c', pdatas x !! r.1 = Some d /\ txpktq x !! r = Some c /\ tx_ok d c /\ txcmdq x !! r = Some c' /\ cmd_ok c';
  dc_pd : forall p, is_Some (procs (sch x) !! p) -> exists d, pdatas x !! p = Some d /\ Z.of_nat (length (overflow_queue d)) <= max_overflows d;
  dc_pool : objs x ++ extra ++ wait ++ fl ≡ₚ seq 0 N;
  dc_size : pool_size x = Z.of_nat N;
  dc_mb : forall b, (b < N)%nat -> is_Some (mbufs x !! b);
  dc_fl : forall b, b ∈ wait ++ fl -> exists m p, mbufs x !! b = Some m /\ pv_p (priv m) = Some p /\ is_Some (th_at (sch x) (p, pv_th (priv m)));
  dc_alive : forall p, procs (sch x) !! p = None -> held x (wait ++ fl) p = 0;
  dc_order : pulled x = handed x ++ pkts_of x wait;
  dc_cons : handed x ≡ₚ pkts_of x fl ++ delivered x ++ overflowed (pdatas x) ++ dead x ++ lost x
}.

Lemma dcore_perm x w e e' f f' : e ≡ₚ e' -> f ≡ₚ f' -> dcore x w e f -> dcore x w e' f'.
Proof.
  intros He Hf C. assert (Hh : forall p, held x (w ++ f') p = held x (w ++ f) p).
  { intros p. unfold held. f_equal. apply npk_perm, pkts_of_perm. by rewrite Hf. }
  destruct C as [C1 C2 C3 C4 C5 C6 C7 C8 C9 C10 C11 C12 C13 C14]. split; try done.
  - apply (sched_G T U _ _ _ C1). intros q. unfold Gof. by rewrite Hh.
  - by rewrite <- He, <- Hf.
  - intros b. rewrite <- Hf. apply C11.
  - intros p Hp. rewrite Hh. by apply C12.
  - by rewrite <- (pkts_of_perm x f f' Hf).
Qed.

(** A step of the scheduler that keeps what matters here. *)
Lemma dcore_sched x w e f w' :
  dcore x w e f -> skstep T U cfgok ops (Gof (held x (w ++ f)) (sch x)) (dw x) w' -> dcore (put_dw w' x) w e f.
Proof.
  intros [C1 C2 C3 C4 C5 C6 C7 C8 C9 C10 C11 C12 C13 C14] (R & P & K). split; cbn; try done.
  - destruct R as (R & Hc & _). apply (Gof_runs T U _ (sch x) _ (Gof (held x (w ++ f)) (sch x))); done.
  - intros p pr Hp Hk. pose proof (sk_kill _ _ K p) as E. rewrite Hp in E. cbn in E. rewrite (sk_clients _ _ K).
    destruct (procs (sch x) !! p) as [pr0|] eqn:Hp0; [|done]. injection E as E. apply (C3 p pr0 Hp0). congruence.
  - by apply K.
  - intros p Hp. apply K, C5. by rewrite <- (sk_procs _ _ _ K).
  - intros r Hr. apply C6. by apply K.
  - intros p Hp. apply C7. by rewrite <- (sk_procs _ _ _ K).
  - intros b Hb. destruct (C11 b Hb) as (m & p & E1 & E2 & E3). exists m, p. split_and!; [done|done|]. by apply K.
  - intros p Hp. apply C12. apply eq_None_not_Some. rewrite <- (sk_procs _ _ _ K), Hp. by intros [? ?].
Qed.

(** ** Completions *)

Lemma dcore_alive x w e f b : dcore x w e f -> b ∈ w ++ f ->
  exists m p pr, mbufs x !! b = Some m /\ pv_p (priv m) = Some p /\ is_Some (th_at (sch x) (p, pv_th (priv m))) /\ procs (sch x) !! p = Some pr.
Proof.
  intros C Hb. destruct (dc_fl _ _ _ _ C b Hb) as (m & p & E1 & E2 & [t Et]). exists m, p.
  pose proof Et as (pr & Hp & _)%th_at_Some. by exists pr; eauto.
Qed.

Lemma pkt_of_eq (x : dplane) b m p : mbufs x !! b = Some m -> pv_p (priv m) = Some p -> pkt_of x b = [(p, pv_data (priv m))].
Proof. intros E1 E2. unfold pkt_of. by rewrite E1, E2. Qed.

Lemma pkts_of_cons (x : dplane) b l : pkts_of x (b :: l) = pkt_of x b ++ pkts_of x l.
Proof. done. Qed.

(** The packet of [b] leaves the card; its completion is recorded and the reference
    dropped. *)
Lemma finish x w e f b m p dl dd pds :
  dcore x w e (b :: f) -> mbufs x !! b = Some m -> pv_p (priv m) = Some p ->
  dl ++ overflowed pds ++ dd ≡ₚ (p, pv_data (priv m)) :: delivered x ++ overflowed (pdatas x) ++ dead x ->
  (forall q d, pdatas x !! q = Some d -> exists d', pds !! q = Some d' /\ region d' = region d /\ page_paddrs d' = page_paddrs d /\
     max_overflows d' = max_overflows d /\ (Z.of_nat (length (overflow_queue d)) <= max_overflows d -> Z.of_nat (length (overflow_queue d')) <= max_overflows d')) ->
  exists w', put_proc p (put_delivered dl (put_dead dd (put_pdatas pds x))) = Ok (put_dw w' (put_delivered dl (put_dead dd (put_pdatas pds x))))
    /\ dcore (put_dw w' (put_delivered dl (put_dead dd (put_pdatas pds x)))) w (b :: e) f.
Proof.
  intros C Em Ep Hlog Hpd. assert (C' := C). destruct C' as [C1 C2 C3 C4 C5 C6 C7 C8 C9 C10 C11 C12 C13 C14].
  destruct (dcore_alive x w e (b :: f) b C) as (m' & p' & pr & Em' & Ep' & _ & Hp); [set_solver|].
  assert (m' = m) as -> by congruence. assert (p' = p) as -> by congruence.
  assert (Hpk : forall q, held x (w ++ b :: f) q = (if decide (q = p) then 1 else 0) + held x (w ++ f) q).
  { intros q. unfold held. rewrite !pkts_of_app, pkts_of_cons, (pkt_of_eq x b m p Em Ep), !npk_app, npk_cons. cbn [fst].
    destruct (decide (q = p)); unfold npk at 2; cbn; lia. }
  assert (Hpos : forall q, 0 <= held x (w ++ f) q) by (intros q; unfold held; pose proof (npk_pos q (pkts_of x (w ++ f))); pose proof (npk_pos q (lost x)); lia).
  destruct (proc_put_inv T U (Gof (held x (w ++ b :: f)) (sch x)) (sch x) p pr C1 Hp) as (s' & E & I & Cl & Dm).
  { unfold Gof. rewrite Hpk, decide_True by done. specialize (Hpos p). destruct (decide _); lia. }
  { intros Hc. unfold Gof. rewrite Hpk, !decide_True by done. specialize (Hpos p). lia. }
  assert (K : skeep (sch x) s') by (apply frame_skeep; [by eapply fr_put|done]).
  exists ((dw x).1, s'). unfold put_proc. cbn [put_delivered put_dead put_pdatas dw]. rewrite E. cbn [mbind res_bind].
  split; [reflexivity|]. split; cbn; try done.
  - eapply (Gof_runs T U _ (sch x)); [done|exact I|]. intros q.
    match goal with |- context [held ?y (w ++ f)] => change (held y (w ++ f)) with (held x (w ++ f)) end.
    unfold bump, Gof. rewrite Hpk. destruct (decide (q = p)); lia.
  - unfold cl. by rewrite Cl.
  - intros q qr Hq Hk. pose proof (sk_kill _ _ K q) as E'. rewrite Hq in E'. cbn in E'. rewrite Cl.
    destruct (procs (sch x) !! q) as [q0|] eqn:Hq0; [|done]. injection E' as E'. apply (C3 q q0 Hq0). congruence.
  - by apply K.
  - intros q Hq. apply K, C5. by rewrite <- (sk_procs _ _ _ K).
  - intros r Hr. destruct (C6 r) as (d & c & c' & Hd & Hc & [Ho1 Ho2] & Hc' & Ho'); [by apply K|].
    destruct (Hpd _ _ Hd) as (d' & Hd' & R1 & R2 & _). exists d', c, c'. split_and!; try done. split; [done|].
    intros msg Hm. destruct (Ho2 msg Hm) as [X1 X2]. split; [done|]. unfold tx_hdr_ok in *. by rewrite R1, R2.
  - intros q Hq. destruct (C7 q) as (d & Hd & Hl); [by rewrite <- (sk_procs _ _ _ K)|].
    destruct (Hpd _ _ Hd) as (d' & Hd' & _ & _ & _ & Hl'). eauto.
  - rewrite <- C8. solve_Permutation.
  - intros b' Hb'. destruct (C11 b') as (m1 & p1 & E1 & E2 & E3); [set_solver|]. exists m1, p1. split_and!; [done|done|]. by apply K.
  - intros q Hq. assert (Hq0 : procs (sch x) !! q = None).
    { apply eq_None_not_Some. rewrite <- (sk_procs _ _ _ K), Hq. by intros [? ?]. }
    specialize (C12 q Hq0). rewrite Hpk in C12. change (held x (w ++ f) q = 0). specialize (Hpos q). destruct (decide (q = p)); lia.
  - rewrite C14, pkts_of_cons, (pkt_of_eq x b m p Em Ep). change (pkts_of (put_dw _ _) f) with (pkts_of x f).
    rewrite !(app_assoc dl), !(app_assoc (dl ++ _)). rewrite <- (app_assoc dl). rewrite Hlog. solve_Permutation.
Qed.

(** What stays the same in a batch of completions. *)
Record samebufs (x x' : dplane) : Prop := {
  sb_objs : objs x' = objs x; sb_bufs : bufs x' = bufs x; sb_n : n_pkts x' = n_pkts x; sb_nic : nic x' = nic x; sb_mbufs : mbufs x' = mbufs x;
  sb_handed : handed x' = handed x; sb_pulled : pulled x' = pulled x; sb_size : pool_size x' = pool_size x
}.

Lemma samebufs_trans x1 x2 x3 : samebufs x1 x2 -> samebufs x2 x3 -> samebufs x1 x3.
Proof. intros [] []. split; congruence. Qed.

Lemma tx_send_completion_ok x w e f b :
  dcore x w e (b :: f) -> exists ok x', tx_send_completion ops b x = Ok (ok, x') /\ dcore x' w (b :: e) f /\ samebufs x x'.
Proof.
  intros C. destruct (dcore_alive x w e (b :: f) b C) as (m & p & pr & Em & Ep & Hth & Hp); [set_solver|].
  unfold tx_send_completion, get_mbuf, get_proc. rewrite Em. cbn [mbind res_bind]. rewrite Ep, Hp. cbn [mbind res_bind].
  assert (Hpd0 : forall q d, pdatas x !! q = Some d -> exists d', pdatas x !! q = Some d' /\ region d' = region d /\ page_paddrs d' = page_paddrs d /\
     max_overflows d' = max_overflows d /\ (Z.of_nat (length (overflow_queue d)) <= max_overflows d -> Z.of_nat (length (overflow_queue d')) <= max_overflows d')) by eauto 10.
  destruct (kill pr) eqn:Ek.
  - destruct (finish x w e f b m p (delivered x) (dead x ++ [(p, pv_data (priv m))]) (pdatas x) C Em Ep) as (w' & E & C'); [solve_Permutation|done|].
    change (put_dead (dead x ++ [(p, pv_data (priv m))]) x) with (put_delivered (delivered x) (put_dead (dead x ++ [(p, pv_data (priv m))]) (put_pdatas (pdatas x) x))).
    rewrite E. cbn [mbind res_bind]. eexists _, _. by split.
  - assert (Hc := dc_kill _ _ _ _ C p pr Hp Ek).
    destruct (send_completion_ok T U cfgok ops (Gof (held x (w ++ b :: f)) (sch x)) (dw x) p (pv_th (priv m)) (pv_data (priv m))) as (ok & w1 & -> & S);
      [apply C|apply C|apply C|done|apply (dc_th0 _ _ _ _ C); eauto|done|]. cbn [mbind res_bind].
    assert (C1 := dcore_sched x w e (b :: f) w1 C S). set (x1 := put_dw w1 x) in *.
    destruct ok.
    + destruct (finish x1 w e f b m p (delivered x1 ++ [(p, pv_data (priv m))]) (dead x1) (pdatas x1) C1 Em Ep) as (w' & E & C'); [solve_Permutation|done|].
      change (put_delivered (delivered x1 ++ [(p, pv_data (priv m))]) x1) with (put_delivered (delivered x1 ++ [(p, pv_data (priv m))]) (put_dead (dead x1) (put_pdatas (pdatas x1) x1))).
      rewrite E. cbn [mbind res_bind]. eexists _, _. by split.
    + destruct (dc_pd _ _ _ _ C p) as (d & Hd & Hl); [eauto|]. unfold get_pdata. change (pdatas x1) with (pdatas x). rewrite Hd. cbn [mbind res_bind].
      destruct (Z.eqb_spec (Z.of_nat (length (overflow_queue d))) (max_overflows d)) as [Hfull|Hroom].
      * eexists _, _. split; [reflexivity|]. split; [|done]. clear Hpd0 C.
        assert (Hh : forall q, held (put_lost (lost x1 ++ [(p, pv_data (priv m))]) x1) (w ++ f) q = held x1 (w ++ b :: f) q).
        { intros q. unfold held. change (pkts_of (put_lost _ x1)) with (pkts_of x1). cbn [put_lost lost].
          rewrite !pkts_of_app, pkts_of_cons, (pkt_of_eq x1 b m p Em Ep), !npk_app. lia. }
        destruct C1 as [C1 C2 C3 C4 C5 C6 C7 C8 C9 C10 C11 C12 C13 C14]. split; try done.
        -- apply (sched_G T U _ _ _ C1). intros q. unfold Gof. by rewrite Hh.
        -- change (objs x1 ++ (b :: e) ++ w ++ f ≡ₚ seq 0 N). rewrite <- C8. solve_Permutation.
        -- intros b' Hb'. apply C11. set_solver.
        -- intros q Hq. rewrite Hh. by apply C12.
        -- cbn. change (pkts_of (put_lost _ x1) f) with (pkts_of x1 f). change (handed x) with (handed x1). rewrite C14, pkts_of_cons, (pkt_of_eq x1 b m p Em Ep).
           change (lost x) with (lost x1). solve_Permutation.
      * set (d' := set_overflow (overflow_queue d ++ [pv_data (priv m)]) d).
        destruct (finish x1 w e f b m p (delivered x1) (dead x1) (<[p := d']> (pdatas x1)) C1 Em Ep) as (w' & E & C').
        -- rewrite overflowed_put, (overflowed_split (pdatas x1) p d Hd). unfold over_of. cbn. rewrite fmap_app. cbn. solve_Permutation.
        -- intros q dq Hq. destruct (decide (q = p)) as [->|Hne].
           ++ change (pdatas x1) with (pdatas x) in Hq. assert (dq = d) as -> by congruence. exists d'. rewrite lookup_insert_eq. split_and!; try done. intros _. cbn. rewrite length_app. cbn. lia.
           ++ exists dq. by rewrite lookup_insert_ne.
        -- change (put_pdata p d' x1) with (put_delivered (delivered x1) (put_dead (dead x1) (put_pdatas (<[p := d']> (pdatas x1)) x1))).
           rewrite E. cbn [mbind res_bind]. eexists _, _. by split.
Qed.

Lemma send_completions_ok l : forall x w e f,
  dcore x w e (l ++ f) -> exists x', send_completions ops l x = Ok x' /\ dcore x' w (rev l ++ e) f /\ samebufs x x'.
Proof.
  induction l as [|b l IH]; intros x w e f C; cbn [send_completions rev app] in *; [by exists x|].
  destruct (tx_send_completion_ok x w e (l ++ f) b C) as (ok & x1 & -> & C1 & S1). cbn [mbind res_bind].
  destruct (IH x1 w (b :: e) f C1) as (x2 & -> & C2 & S2). exists x2. rewrite <- app_assoc. split_and!; [done|done|by eapply samebufs_trans].
Qed.

(** Buffers taken from the pool that go back to it. *)
Lemma dcore_objs x w e f l objs' :
  dcore x w (l ++ e) f -> objs' ≡ₚ objs x ++ l -> dcore (put_objs objs' x) w e f.
Proof.
  intros [C1 C2 C3 C4 C5 C6 C7 C8 C9 C10 C11 C12 C13 C14] Ho. split; try done.
  cbn. rewrite Ho, <- C8. solve_Permutation.
Qed.

Lemma completion_enqueue_ok l x w e f :
  dcore x w e (l ++ f) ->
  exists x', completion_enqueue ops l x = Ok (0, x') /\ dcore x' w e f /\ objs x' = objs x ++ l /\ bufs x' = bufs x /\ n_pkts x' = n_pkts x
    /\ nic x' = nic x /\ mbufs x' = mbufs x /\ handed x' = handed x /\ pulled x' = pulled x.
Proof.
  intros C. unfold completion_enqueue.
  assert (Hlen : (length (objs x) + length l <= N)%nat).
  { pose proof (Permutation_length (dc_pool _ _ _ _ C)) as Hl. rewrite length_seq, !length_app in Hl. lia. }
  rewrite (dc_size _ _ _ _ C), (proj2 (Z.ltb_ge _ _)) by lia.
  destruct (send_completions_ok l x w e f C) as (x1 & -> & C1 & []). cbn [mbind res_bind].
  eexists. split; [reflexivity|]. split; [|cbn; split_and!; congruence].
  eapply dcore_objs; [exact C1|]. by rewrite <- Permutation_rev.
Qed.

Lemma remove_all_perm l f : NoDup l -> NoDup f -> l ⊆ f -> f ≡ₚ l ++ remove_all l f.
Proof.
  intros Hl Hf Hsub. apply NoDup_Permutation; [done| |].
  - apply list.NoDup_app. split; [done|]. split; [|by apply list.NoDup_filter]. intros b Hb [Hn _]%list_elem_of_filter. done.
  - intros b. rewrite elem_of_app. unfold remove_all. rewrite list_elem_of_filter. destruct (decide (b ∈ l)); set_solver.
Qed.

Lemma dcore_nodup x w e f : dcore x w e f -> NoDup (objs x ++ e ++ w ++ f).
Proof. intros C. rewrite (dc_pool _ _ _ _ C). apply NoDup_seq. Qed.

(** The card gives back some of its buffers. *)
Lemma nic_free_ok l x w e :
  dcore x w e (nic x) -> NoDup l -> l ⊆ nic x ->
  exists x', nic_free ops l x = Ok x' /\ dcore x' w e (nic x') /\ nic x' = remove_all l (nic x) /\ bufs x' = bufs x /\ n_pkts x' = n_pkts x
    /\ mbufs x' = mbufs x /\ pulled x' = pulled x.
Proof.
  intros C Hl Hsub. unfold nic_free.
  assert (Hnd : NoDup (nic x)). { pose proof (dcore_nodup _ _ _ _ C) as Hn. rewrite !list.NoDup_app in Hn. tauto. }
  destruct (completion_enqueue_ok l x w e (remove_all l (nic x))) as (x1 & -> & C1 & H1 & H2 & H3 & H4 & H5 & H6 & H7).
  { eapply dcore_perm; [reflexivity| |exact C]. by apply remove_all_perm. }
  cbn [mbind res_bind]. eexists. split; [reflexivity|]. rewrite H4. cbn. split_and!; try done.
  destruct C1. by split.
Qed.

Lemma nic_frees_ok ls : forall x w e,
  dcore x w e (nic x) -> NoDup (concat ls) -> concat ls ⊆ nic x ->
  exists x', nic_frees ops ls x = Ok x' /\ dcore x' w e (nic x') /\ bufs x' = bufs x /\ n_pkts x' = n_pkts x
    /\ mbufs x' = mbufs x /\ pulled x' = pulled x /\ (length (nic x') + length (concat ls) = length (nic x))%nat.
Proof.
  induction ls as [|l ls IH]; intros x w e C Hnd Hsub; cbn [nic_frees concat] in *; [exists x; cbn; split_and!; auto; lia|].
  apply list.NoDup_app in Hnd as (Hl & Hdis & Hls).
  destruct (nic_free_ok l x w e C Hl ltac:(set_solver)) as (x1 & -> & C1 & N1 & H1 & H2 & H3 & H4). cbn [mbind res_bind].
  destruct (IH x1 w e C1 Hls) as (x2 & -> & C2 & A1 & A2 & A3 & A4 & A5).
  { rewrite N1. intros b Hb. unfold remove_all. apply list_elem_of_filter. split; [intros Hb'; by apply (Hdis b)|]. apply Hsub. set_solver. }
  exists x2. split_and!; try congruence.
  assert (Hp : nic x ≡ₚ l ++ remove_all l (nic x)).
  { apply remove_all_perm; [done| |set_solver]. pose proof (dcore_nodup _ _ _ _ C) as Hn. rewrite !list.NoDup_app in Hn. tauto. }
  apply Permutation_length in Hp. rewrite length_app in *. rewrite N1 in A5. lia.
Qed.

(** ** The queues of completions that did not fit *)

(** Changes of logs and queues of completions. *)
Lemma dcore_logs x w e f dl pds :
  dcore x w e f -> dl ++ overflowed pds ≡ₚ delivered x ++ overflowed (pdatas x) ->
  (forall q d, pdatas x !! q = Some d -> exists d', pds !! q = Some d' /\ region d' = region d /\ page_paddrs d' = page_paddrs d /\
     (Z.of_nat (length (overflow_queue d)) <= max_overflows d -> Z.of_nat (length (overflow_queue d')) <= max_overflows d')) ->
  dcore (put_delivered dl (put_pdatas pds x)) w e f.
Proof.
  intros [C1 C2 C3 C4 C5 C6 C7 C8 C9 C10 C11 C12 C13 C14] Hlog Hpd. split; try done.
  - intros r Hr. destruct (C6 r Hr) as (d & c & c' & Hd & Hc & [Ho1 Ho2] & Hc' & Ho').
    destruct (Hpd _ _ Hd) as (d' & Hd' & R1 & R2 & _). exists d', c, c'. split_and!; try done. split; [done|].
    intros msg Hm. destruct (Ho2 msg Hm) as [X1 X2]. split; [done|]. unfold tx_hdr_ok in *. by rewrite R1, R2.
  - intros q Hq. destruct (C7 q Hq) as (d & Hd & Hl). destruct (Hpd _ _ Hd) as (d' & Hd' & _ & _ & Hl'). eauto.
  - cbn. rewrite C14. change (pkts_of (put_delivered _ _) f) with (pkts_of x f). rewrite !(app_assoc _ (overflowed _)), Hlog. done.
Qed.

Lemma overflow_loop_ok k : forall i p x w e f,
  dcore x w e f -> p ∈ clients (sch x) ->
  exists n x', overflow_loop ops k i p x = Ok (n, x') /\ dcore x' w e f /\ samebufs x x' /\ clients (sch x') = clients (sch x).
Proof.
  induction k as [|k IH]; intros i p x w e f C Hp; cbn [overflow_loop]; [by exists i, x|].
  destruct (sv_clients _ _ _ _ (dc_sched _ _ _ _ C) p Hp) as [[pr Hpr] _].
  destruct (dc_pd _ _ _ _ C p) as (d & Hd & Hl); [eauto|]. unfold get_pdata. rewrite Hd. cbn [mbind res_bind].
  destruct (list.last (overflow_queue d)) as [v|] eqn:Ev; [|by exists i, x].
  destruct (dw x) as [d0 s0] eqn:Edw. pose proof (dc_sched _ _ _ _ C) as I0. pose proof (dc_pol _ _ _ _ C) as P0. rewrite Edw in *. cbn [fst snd] in *.
  destruct (next_rr_ok T U cfgok ops _ d0 s0 p pr I0 P0 Hpr) as (h & s1 & -> & S1). cbn [mbind res_bind].
  assert (S1' := S1). destruct S1' as (R1 & P1 & K1). cbn [fst snd] in *.
  destruct (rx_send_ok T U cfgok ops (Gof (held x (w ++ f)) s0) (d0, s1) p h RX_NET_COMPLETE v) as (ok & w2 & -> & S2); cbn [fst snd].
  { apply R1. } { done. } { apply K1. pose proof (dc_rxq _ _ _ _ C) as X. by rewrite Edw in X. } { by rewrite (sk_clients _ _ K1). }
  { apply K1. pose proof (dc_th0 _ _ _ _ C p) as X. rewrite Edw in X. apply X. eauto. } { done. }
  cbn [mbind res_bind]. assert (St : skstep T U cfgok ops (Gof (held x (w ++ f)) s0) (d0, s0) w2) by by eapply skstep_trans.
  assert (C2 : dcore (put_dw w2 x) w e f) by (apply dcore_sched; [done|by rewrite Edw]).
  assert (Hcl : clients w2.2 = clients s0) by apply St.
  destruct ok; [|eexists _, _; split; [reflexivity|]; by split_and!].
  destruct (overflow_queue d) as [|v0 q _] eqn:Eq using rev_ind; [done|]. rewrite last_snoc in Ev. injection Ev as ->.
  rewrite removelast_last. set (d' := set_overflow q d).
  set (x3 := put_delivered _ _).
  assert (C3 : dcore x3 w e f).
  { change x3 with (put_delivered (delivered x ++ [(p, v)]) (put_pdatas (<[p := d']> (pdatas x)) (put_dw w2 x))).
    apply dcore_logs; [done| |].
    - cbn. rewrite overflowed_put, (overflowed_split (pdatas x) p d Hd). unfold over_of. cbn. rewrite Eq, fmap_app. cbn. solve_Permutation.
    - cbn. intros r dr Hr. destruct (decide (r = p)) as [->|Hne].
      + assert (dr = d) as -> by congruence. exists d'. rewrite lookup_insert_eq. split_and!; try done. rewrite Eq, length_app. cbn. lia.
      + exists dr. by rewrite lookup_insert_ne. }
  destruct (IH (S i) p x3 w e f C3) as (n & x' & -> & C' & SB & Hcl'); [cbn; by rewrite Hcl|].
  eexists _, _. split; [reflexivity|]. split_and!; [done| |by rewrite Hcl'].
  eapply samebufs_trans; [|exact SB]. done.
Qed.

Lemma drain_clients_ok k : forall i dr x w e f,
  dcore x w e f -> (k = 0 \/ 0 < length (clients (sch x)))%nat ->
  exists n x', drain_clients ops k i dr x = Ok (n, x') /\ dcore x' w e f /\ samebufs x x'.
Proof.
  induction k as [|k IH]; intros i dr x w e f C Hk; cbn [drain_clients]; [by exists dr, x|].
  destruct (dr <? _)%nat; [|by exists dr, x]. destruct Hk as [|Hk]; [done|].
  pose proof (Z.mod_pos_bound (u64 (drain_pos x + Z.of_nat i)) (Z.of_nat (length (clients (sch x)))) ltac:(lia)) as Hm.
  destruct (lookup_lt_is_Some_2 (clients (sch x)) (Z.to_nat (u64 (drain_pos x + Z.of_nat i) mod Z.of_nat (length (clients (sch x)))))) as [p Hp]; [lia|].
  rewrite Hp. apply list_elem_of_lookup_2 in Hp.
  destruct (overflow_loop_ok (IOKERNEL_OVERFLOW_BATCH_DRAIN - dr) 0 p x w e f C Hp) as (n & x1 & E & C1 & S1 & Cl). unfold drain_overflow_queue. rewrite E. cbn [mbind res_bind].
  destruct (IH (S i) (dr + n)%nat x1 w e f C1) as (n' & x' & -> & C' & S'); [right; by rewrite Cl|].
  eexists _, _. split; [reflexivity|]. split; [done|]. by eapply samebufs_trans.
Qed.

Lemma tx_drain_completions_ok x w e f :
  dcore x w e f -> exists b x', tx_drain_completions ops x = Ok (b, x') /\ dcore x' w e f /\ samebufs x x'.
Proof.
  intros C. unfold tx_drain_completions. destruct (drain_clients_ok (length (clients (sch x))) 0 0 x w e f C ltac:(lia)) as (n & x' & -> & C' & S').
  cbn [mbind res_bind]. eexists _, _. split; [reflexivity|]. split; [by destruct C'; split|]. by destruct S'; split.
Qed.
End tx.
