(* ===== verification/IokDataBurst.v ===== *)
(** * A batch of outgoing packets keeps the invariant *)

From S2P Require Import Prelude Stddef Page Shm Lrpc IokState IokSched IokInv IokBase IokCores IokPoll IokMach IokFrame IokData IokDataInv IokDataTx.

Section burst.
Context (T : topo) (HT : topo_ok T) (U : list tref) (cfgok : sched_spec -> Prop) {D : Type} (ops : sched_ops D) `{!SchedPolicy T U cfgok ops, !PolicyFrame ops}.
Context (N : nat).
Abbreviation dplane := (dplane D).
Abbreviation sch x := ((dw x).2) (only parsing).
Abbreviation dcore := (dcore T U cfgok ops N).

(** ** Polling *)

Lemma unpoll_inv G s r t :
  sched_inv T G U s -> th_at s r = Some t -> active t = false ->
  exists s', unpoll_thread r s = Ok s' /\ runs T U G s s' /\ skeep s s' /\ forall r', active <$> th_at s' r' = active <$> th_at s r'.
Proof.
  intros [B P C Cl Nd] Ht Ha. destruct (unpoll_thread_ok (sched_allowed_cores T) U G s r t B Ht) as (s' & E & B' & SC & Th).
  assert (Hact : forall r', act_core s' r' = act_core s r').
  { intros r'. unfold act_core. destruct (Th r') as (j & -> & _). by destruct (th_at s r') as [t'|]. }
  assert (R : runs T U G s s').
  { split_and!; [|apply SC|apply SC]. split; [done| | | |by rewrite (sc_clients _ _ SC)].
    - intros r' t' Ht' Ha'. destruct (Th r') as (j & E' & Hj). rewrite Ht' in E'. symmetry in E'. apply fmap_Some in E' as (t0 & Ht0 & ->). cbn in *.
      destruct (P r' t0 Ht0 Ha') as [Hi Hc]. split; [|done]. apply (Hj ltac:(intros ->; congruence) t0 Ht0 Hi).
    - rewrite (sc_cores _ _ SC). by eapply cores_inv_ext.
    - rewrite (sc_clients _ _ SC). intros p Hp. rewrite (sc_procs _ _ SC). by apply Cl. }
  exists s'. split; [done|]. split; [done|]. split; [apply frame_skeep; [by eapply fr_unpoll|apply R]|].
  intros r'. destruct (Th r') as (j & -> & _). by destruct (th_at s r').
Qed.

(** A kthread whose process will not go away in the middle of a batch. *)
Definition ready (s : sched) (r : tref) : Prop := exists t, th_at s r = Some t /\ (active t = true \/ r.1 ∈ clients s).

(** A process that is being removed has no packets at kthreads that do not run. *)
Definition calm (x : dplane) : Prop := forall r t,
  th_at (sch x) r = Some t -> active t = false -> r.1 ∉ clients (sch x) -> exists c, txpktq x !! r = Some c /\ recv_chan c = Ok (c, None).

(** What pulling packets does not touch. *)
Record samepull (x x' : dplane) : Prop := {
  sp_objs : objs x' = objs x; sp_bufs : bufs x' = bufs x; sp_nic : nic x' = nic x; sp_mbufs : mbufs x' = mbufs x;
  sp_pd : pdatas x' = pdatas x; sp_cl : clients (sch x') = clients (sch x);
  sp_act : forall r, active <$> th_at (sch x') r = active <$> th_at (sch x) r
}.

Lemma samepull_trans x1 x2 x3 : samepull x1 x2 -> samepull x2 x3 -> samepull x1 x3.
Proof. intros [] []. split; try congruence. Qed.

Lemma ready_same x x' r : samepull x x' -> ready (sch x) r -> ready (sch x') r.
Proof.
  intros S (t & Ht & Hr). pose proof (sp_act _ _ S r) as E. rewrite Ht in E. cbn in E.
  apply fmap_Some in E as (t' & Ht' & E). exists t'. rewrite (sp_cl _ _ S), <- E. by split.
Qed.

Lemma dcore_chans x w e f q : dcore x w e f ->
  (forall r d c, pdatas x !! r.1 = Some d -> txpktq x !! r = Some c -> tx_ok d c -> exists c', q !! r = Some c' /\ tx_ok d c') -> dcore (put_txpktq q x) w e f.
Proof.
  intros [C1 C2 C3 C4 C5 C6 C7 C8 C9 C10 C11 C12 C13 C14] Hq. split; try done.
  intros r Hr. destruct (C6 r Hr) as (d & c & c' & Hd & Hc & Ho & Hc' & Ho').
  destruct (Hq r d c Hd Hc Ho) as (c2 & Hc2 & Ho2). exists d, c2, c'. by split_and!.
Qed.

Lemma tx_drain_queue_ok n : forall x r w e f,
  dcore x w e f -> calm x -> is_Some (th_at (sch x) r) ->
  exists hdrs x' d, tx_drain_queue r n x = Ok (hdrs, x') /\ dcore x' w e f /\ calm x' /\ samepull x x' /\ n_pkts x' = n_pkts x
    /\ (length hdrs <= n)%nat /\ pdatas x !! r.1 = Some d /\ Forall (tx_hdr_ok d) hdrs /\ (hdrs <> [] -> ready (sch x) r).
Proof.
  induction n as [|n IH]; intros x r w e f C Hcalm Hr; cbn [tx_drain_queue].
  { destruct (dc_chan _ _ _ _ _ _ _ _ _ C r Hr) as (d & _ & _ & Hd & _). exists [], x, d. by split_and!. }
  destruct (dc_chan _ _ _ _ _ _ _ _ _ C r Hr) as (d & c & c0 & Hd & Hc & [Hw Ho] & _).
  unfold get_chan. rewrite Hc. cbn [mbind res_bind].
  destruct (recv_chan_ok c Hw) as (c' & v & E & Hw' & Htbl & Hnone & Hsome). rewrite E. cbn [mbind res_bind].
  set (x1 := put_txpktq _ x).
  assert (C1 : dcore x1 w e f).
  { apply dcore_chans; [done|]. intros r2 d2 c2 _ H2 Ho2. destruct (decide (r2 = r)) as [->|Hne].
    - rewrite lookup_insert_eq. exists c'. split; [done|]. assert (c2 = c) as -> by congruence. destruct Ho2. split; [done|]. by rewrite Htbl.
    - rewrite lookup_insert_ne by done. by exists c2. }
  assert (S1 : samepull x x1) by done.
  destruct v as [[cmd y]|].
  - destruct (Hsome cmd y eq_refl) as (msg & Hm & -> & ->). destruct (Ho msg Hm) as [-> Hh]. cbn [Z.eqb negb BUG_ON mbind res_bind TXPKT_NET_XMIT].
    unfold get_pdata. change (pdatas x1) with (pdatas x). rewrite Hd. cbn [mbind res_bind].
    rewrite (proj2 (Z.eqb_neq _ _)) by apply Hh. cbn [BUG_ON mbind res_bind].
    destruct Hr as [t Ht]. assert (Hready : ready (sch x) r).
    { exists t. split; [done|]. destruct (active t) eqn:Ea; [by left|]. right. destruct (decide (r.1 ∈ clients (sch x))) as [|Hn]; [done|].
      destruct (Hcalm r t Ht Ea Hn) as (c2 & Hc2 & E2). assert (c2 = c) as -> by congruence. congruence. }
    assert (Hcalm1 : calm x1).
    { intros r2 t2 Ht2 Ha2 Hn2. destruct (Hcalm r2 t2 Ht2 Ha2 Hn2) as (c2 & Hc2 & E2). cbn.
      destruct (decide (r2 = r)) as [->|Hne]; [|rewrite lookup_insert_ne by done; by exists c2].
      exfalso. destruct Hready as (t3 & Ht3 & [Ha|Ha]); [|done]. change (th_at (sch x1) r) with (th_at (sch x) r) in Ht2. congruence. }
    destruct (IH x1 r w e f C1 Hcalm1) as (hdrs & x2 & d2 & -> & C2 & Hcalm2 & S2 & N2 & L2 & Hd2 & F2 & _); [by exists t|].
    cbn [mbind res_bind]. eexists _, x2, d. split; [reflexivity|].
    assert (d2 = d) as -> by (change (pdatas x1) with (pdatas x) in Hd2; congruence).
    split_and!; try done; [by eapply samepull_trans|cbn; lia|by constructor].
  - specialize (Hnone eq_refl). subst c'.
    assert (Hcalm1 : calm x1).
    { intros r2 t2 Ht2 Ha2 Hn2. destruct (Hcalm r2 t2 Ht2 Ha2 Hn2) as (c2 & Hc2 & E2). cbn.
      destruct (decide (r2 = r)) as [->|Hne]; [|rewrite lookup_insert_ne by done; by exists c2].
      rewrite lookup_insert_eq. assert (c2 = c) as -> by congruence. by exists c. }
    destruct Hr as [t Ht]. change (sch x1) with (sch x). rewrite (get_thread_ok _ _ _ Ht). cbn [mbind res_bind].
    destruct (active t) eqn:Ea; [exists [], x1, d; by split_and!; try (cbn; lia)|].
    destruct (unpoll_inv _ _ r t (dc_sched _ _ _ _ _ _ _ _ _ C) Ht Ea) as (s' & -> & R & K & Hact). cbn [mbind res_bind].
    assert (St : skstep T U cfgok ops (Gof (held x1 (w ++ f)) (sch x1)) (dw x1) ((dw x1).1, s')).
    { split_and!; [exact R| |exact K]. cbn. unfold cl. rewrite (sk_clients _ _ K). apply (dc_pol _ _ _ _ _ _ _ _ _ C). }
    eexists _, _, d. split; [reflexivity|]. split; [by apply dcore_sched|].
    assert (S2 : samepull x1 (put_dw ((dw x1).1, s') x1)) by (split; cbn; try done; apply K).
    split_and!; try done; [|by eapply samepull_trans|cbn; lia]. intros r2 t2 Ht2 Ha2 Hn2. cbn in *. rewrite (sk_clients _ _ K) in Hn2.
    pose proof (Hact r2) as Hr2. rewrite Ht2 in Hr2. symmetry in Hr2. apply fmap_Some in Hr2 as (t3 & Ht3 & E3). apply (Hcalm1 r2 t3); [done|congruence|done].
Qed.

(** A header of the batch: its kthread will stay and it can be read. *)
Definition entry_ok (x : dplane) (k : Z * tref) : Prop := ready (sch x) k.2 /\ exists d, pdatas x !! k.2.1 = Some d /\ tx_hdr_ok d k.1.

Lemma entry_same x x' k : samepull x x' -> entry_ok x k -> entry_ok x' k.
Proof. intros S [H1 (d & H2 & H3)]. split; [by eapply ready_same|]. exists d. by rewrite (sp_pd _ _ S). Qed.

Lemma tx_pull_ok k : forall i hdrs x w e f,
  dcore x w e f -> calm x -> (n_pkts x <= IOKERNEL_TX_BURST_SIZE)%nat ->
  exists full new x', tx_pull k i hdrs x = Ok (full, hdrs ++ map Some new, x') /\ dcore x' w e f /\ calm x' /\ samepull x x'
    /\ n_pkts x' = (n_pkts x + length new)%nat /\ (n_pkts x' <= IOKERNEL_TX_BURST_SIZE)%nat /\ Forall (entry_ok x') new.
Proof.
  induction k as [|k IH]; intros i hdrs x w e f C Hcalm Hn; cbn [tx_pull].
  { exists false, [], x. rewrite app_nil_r. split_and!; try done. }
  destruct (Nat.ltb_spec i (length (ts (sch x)))) as [Hi|Hi].
  2: { exists false, [], x. rewrite app_nil_r. split_and!; try done. }
  pose proof (Z.mod_pos_bound (u32 (tx_pos x + Z.of_nat i)) (Z.of_nat (length (ts (sch x)))) ltac:(lia)) as Hm.
  destruct (lookup_lt_is_Some_2 (ts (sch x)) (Z.to_nat (u32 (tx_pos x + Z.of_nat i) mod Z.of_nat (length (ts (sch x)))))) as [r Hr]; [lia|].
  rewrite Hr. apply (bi_ts _ _ _ _ (sv_base _ _ _ _ (dc_sched _ _ _ _ _ _ _ _ _ C))) in Hr as (t & Ht & _).
  destruct (tx_drain_queue_ok (IOKERNEL_TX_BURST_SIZE - n_pkts x) x r w e f C Hcalm) as (new & x1 & d & -> & C1 & Hcalm1 & S1 & N1 & L1 & Hd & F1 & R1); [by exists t|].
  cbn [mbind res_bind]. set (x2 := put_n_pkts _ x1).
  assert (C2 : dcore x2 w e f) by (destruct C1; by split). assert (S2 : samepull x x2) by (destruct S1; by split).
  assert (N2 : n_pkts x2 = (n_pkts x + length new)%nat) by (cbn; by rewrite N1).
  assert (F2 : Forall (entry_ok x2) (map (fun a => (a, r)) new)).
  { apply Forall_map. destruct new as [|a0 new]; [done|]. eapply list.Forall_impl; [exact F1|]. intros a Ha. apply (entry_same x x2 _ S2).
    split; [by apply R1|]. exists d. by split. }
  assert (Em : map (fun a => Some (a, r)) new = map Some (map (fun a => (a, r)) new)) by by rewrite map_map.
  destruct (_ <=? n_pkts x2)%nat.
  - exists true, (map (fun a => (a, r)) new), x2. rewrite Em, length_map. split_and!; try done. lia.
  - destruct (IH (S i) (hdrs ++ map (fun a => Some (a, r)) new) x2 w e f C2 Hcalm1 ltac:(lia)) as (full & new2 & x3 & -> & C3 & Hcalm3 & S3 & N3 & L3 & F3).
    exists full, (map (fun a => (a, r)) new ++ new2), x3. rewrite map_app, <- Em, app_assoc. split_and!; try done.
    + by eapply samepull_trans.
    + rewrite N3, N2, length_app, length_map. lia.
    + apply Forall_app. split; [|done]. eapply list.Forall_impl; [exact F2|]. intros k' Hk'. by eapply entry_same.
Qed.

(** ** Filling buffers *)

Lemma proc_get_th p s s' r : proc_get p s = Ok s' -> th_at s' r = th_at s r.
Proof.
  unfold proc_get. intros (pr & Hp & (u & _ & [= <-])%res_bind_ok)%res_bind_ok. rewrite th_at_upd_proc.
  destruct (decide (r.1 = p)) as [<-|]; [|done]. unfold th_at. by destruct (procs s !! r.1).
Qed.

Lemma pkt_of_insert (x : dplane) b m b' : b' <> b -> pkt_of (put_mbufs (<[b := m]> (mbufs x)) x) b' = pkt_of x b'.
Proof. intros H. unfold pkt_of. cbn. by rewrite lookup_insert_ne. Qed.

Lemma pkts_of_insert (x : dplane) b m l : b ∉ l -> pkts_of (put_mbufs (<[b := m]> (mbufs x)) x) l = pkts_of x l.
Proof.
  induction l as [|b' l IH]; [done|]. intros [H1 H2]%not_elem_of_cons. rewrite !pkts_of_cons, IH by done. by rewrite pkt_of_insert.
Qed.

(** What filling a buffer does not touch. *)
Record samefill (x x' : dplane) : Prop := {
  sf_objs : objs x' = objs x; sf_bufs : bufs x' = bufs x; sf_nic : nic x' = nic x; sf_n : n_pkts x' = n_pkts x; sf_pd : pdatas x' = pdatas x;
  sf_cl : clients (sch x') = clients (sch x); sf_th : forall r, th_at (sch x') r = th_at (sch x) r
}.

Lemma samefill_trans x1 x2 x3 : samefill x1 x2 -> samefill x2 x3 -> samefill x1 x3.
Proof. intros [] []. split; try congruence. Qed.

Lemma entry_fill x x' k : samefill x x' -> entry_ok x k -> entry_ok x' k.
Proof.
  intros S [(t & Ht & Hr) (d & H2 & H3)]. split.
  - exists t. by rewrite (sf_th _ _ S), (sf_cl _ _ S).
  - exists d. by rewrite (sf_pd _ _ S).
Qed.

Lemma tx_prepare_ok hdr_at b hdr r x w e f :
  dcore x w (b :: e) f -> entry_ok x (hdr, r) ->
  exists x', tx_prepare_tx_mbuf hdr_at b hdr r x = Ok x' /\ dcore x' (w ++ [b]) e f /\ samefill x x'.
Proof.
  intros C [(t & Ht & Hready) (d & Hd & Hz & [phys Hph])]. cbn [fst snd] in *.
  assert (Hnd := dcore_nodup _ _ _ _ _ _ _ _ _ C). assert (Hnew : b ∉ w ++ f).
  { intros Hb. rewrite !list.NoDup_app in Hnd. destruct Hnd as (_ & _ & _ & Hdis & _). apply (Hdis b); [by left|done]. }
  assert (Hnw : b ∉ w) by (intros X; apply Hnew, elem_of_app; by left).
  assert (Hnf : b ∉ f) by (intros X; apply Hnew, elem_of_app; by right).
  assert (HbN : (b < N)%nat).
  { assert (Hin : b ∈ seq 0 N) by (rewrite <- (dc_pool _ _ _ _ _ _ _ _ _ C); apply elem_of_app; right; by left). apply elem_of_seq in Hin. lia. }
  assert (C' := C). destruct C' as [C1 C2 C3 C4 C5 C6 C7 C8 C9 C10 C11 C12 C13 C14].
  destruct (C10 b HbN) as [m Hm]. unfold tx_prepare_tx_mbuf, get_mbuf, get_pdata. rewrite Hm. cbn [mbind res_bind]. rewrite Hd. cbn [mbind res_bind].
  rewrite Hph. cbn [mbind res_bind]. set (m' := TxMbuf _ _ _ _ _ _ _ _ _ _ _ _).
  pose proof Ht as (pr & Hp & Hti)%th_at_Some.
  assert (Href : 0 < ref pr).
  { assert (Hb := sv_base _ _ _ _ C1). rewrite (bi_ref _ _ _ _ Hb r.1 pr Hp). pose proof (bi_G _ _ _ _ Hb r.1). unfold npolled.
    destruct Hready as [Ha|Hc].
    - apply (po_act pr (bi_proc _ _ _ _ Hb _ _ Hp) r.2 t Hti) in Ha. destruct (active_threads pr); [by apply elem_of_nil in Ha|cbn; lia].
    - destruct (sv_clients _ _ _ _ C1 r.1 Hc). lia. }
  destruct (proc_get_inv T U _ (sch x) r.1 pr C1 Hp Href) as (s' & E & I & Cl & Dm). rewrite E. cbn [mbind res_bind].
  assert (Th : forall r', th_at s' r' = th_at (sch x) r') by (intros r'; by eapply proc_get_th).
  assert (K : skeep (sch x) s') by (apply frame_skeep; [by eapply fr_get|done]).
  set (k := (r.1, completion_data (hdr_at hdr))). set (x' := put_dw _ _).
  assert (Hold : forall l, b ∉ l -> pkts_of x' l = pkts_of x l) by (intros l Hl; exact (pkts_of_insert x b m' l Hl)).
  assert (Hb : pkt_of x' b = [k]) by (unfold pkt_of; cbn; by rewrite lookup_insert_eq).
  assert (Hpk : forall q, held x' ((w ++ [b]) ++ f) q = (if decide (q = r.1) then 1 else 0) + held x (w ++ f) q).
  { intros q. unfold held. change (lost x') with (lost x). rewrite <- app_assoc, pkts_of_app, pkts_of_app, pkts_of_cons, Hb, (Hold w Hnw), (Hold f Hnf).
    change (pkts_of x' []) with (@nil pkt). rewrite pkts_of_app, !npk_app, npk_cons. change (npk q []) with 0. cbn [fst k]. lia. }
  exists x'. split; [reflexivity|]. split; [|split; try done]. split; cbn; try done.
  - eapply (Gof_runs T U _ (sch x)); [done|exact I|]. intros q. unfold bump, Gof. rewrite Hpk. repeat destruct (decide _); lia.
  - unfold cl. by rewrite Cl.
  - intros q qr Hq Hk. pose proof (sk_kill _ _ K q) as E'. rewrite Hq in E'. cbn in E'. rewrite Cl.
    destruct (procs (sch x) !! q) as [q0|] eqn:Hq0; [|done]. injection E' as E'. apply (C3 q q0 Hq0). congruence.
  - by apply K.
  - intros q Hq. rewrite Th. apply C5. by rewrite <- (sk_procs _ _ _ K).
  - intros r' Hr'. rewrite Th in Hr'. by apply C6.
  - intros q Hq. apply C7. by rewrite <- (sk_procs _ _ _ K).
  - rewrite <- C8. solve_Permutation.
  - intros b' Hb'. destruct (decide (b' = b)) as [->|Hne]; [rewrite lookup_insert_eq; eauto|]. rewrite lookup_insert_ne by done. by apply C10.
  - intros b' Hb'. destruct (decide (b' = b)) as [->|Hne].
    + exists m', r.1. rewrite lookup_insert_eq, Th. split_and!; [done|done|]. cbn. exists t. by destruct r.
    + destruct (C11 b') as (m1 & p1 & E1 & E2 & E3).
      { clear -Hb' Hne. rewrite !elem_of_app, list_elem_of_singleton in *. tauto. }
       exists m1, p1. rewrite lookup_insert_ne, Th by done. done.
  - intros q Hq. rewrite Hpk. assert (Hq0 : procs (sch x) !! q = None).
    { apply eq_None_not_Some. rewrite <- (sk_procs _ _ _ K), Hq. by intros [? ?]. }
    destruct (decide (q = r.1)) as [->|]; [congruence|]. by rewrite C12.
  - rewrite pkts_of_app, pkts_of_cons, Hb, (Hold w Hnw), C13. cbn. by rewrite <- app_assoc.
  - rewrite (Hold f Hnf). exact C14.
Qed.

Lemma tx_fill_ok hdr_at l : forall hdrs x w e f,
  dcore x w (l ++ e) f -> length hdrs = length l -> Forall (entry_ok x) hdrs ->
  exists x', tx_fill hdr_at l (map Some hdrs) x = Ok x' /\ dcore x' (w ++ l) e f /\ samefill x x'.
Proof.
  induction l as [|b l IH]; intros [|[a r] hdrs] x w e f C Hl Hf; try done.
  - cbn. exists x. rewrite app_nil_r. by split_and!.
  - cbn [tx_fill map]. apply Forall_cons_iff in Hf as [Hk Hf].
    destruct (tx_prepare_ok hdr_at b a r x w (l ++ e) f C Hk) as (x1 & -> & C1 & S1). cbn [mbind res_bind].
    destruct (IH hdrs x1 (w ++ [b]) e f C1) as (x2 & -> & C2 & S2); [by injection Hl|eapply list.Forall_impl; [exact Hf|]; intros k' Hk'; by eapply entry_fill|].
    exists x2. rewrite <- app_assoc in C2. split_and!; [done|done|by eapply samefill_trans].
Qed.

(** ** Sending *)

Lemma dcore_ship x w1 w2 e f n :
  dcore x (w1 ++ w2) e f -> dcore (put_handed (handed x ++ pkts_of x w1) (put_nic n x)) w2 e (f ++ w1).
Proof.
  intros C. assert (Hh : forall q, held x (w2 ++ f ++ w1) q = held x ((w1 ++ w2) ++ f) q).
  { intros q. unfold held. f_equal. apply npk_perm, pkts_of_perm. solve_Permutation. }
  destruct C as [C1 C2 C3 C4 C5 C6 C7 C8 C9 C10 C11 C12 C13 C14]. split; try done.
  - apply (sched_G T U _ _ _ C1). intros q. unfold Gof. f_equal. apply Hh.
  - change (objs x ++ e ++ w2 ++ (f ++ w1) ≡ₚ seq 0 N). rewrite <- C8. solve_Permutation.
  - intros b Hb. apply C11. clear -Hb. rewrite !elem_of_app in *. tauto.
  - intros q Hq. etrans; [apply Hh|by apply C12].
  - cbn. rewrite C13, pkts_of_app, app_assoc. done.
  - change (handed x ++ pkts_of x w1 ≡ₚ pkts_of x (f ++ w1) ++ delivered x ++ overflowed (pdatas x) ++ dead x ++ lost x).
    rewrite C14, pkts_of_app. solve_Permutation.
Qed.

(** Between any two batches. *)
Record dinv (x : dplane) : Prop := {
  di_core : dcore x (bufs x) [] (nic x);
  di_n : n_pkts x = length (bufs x);
  di_burst : (length (bufs x) <= IOKERNEL_TX_BURST_SIZE)%nat;
  di_nic : (length (nic x) + IOKERNEL_TX_BURST_SIZE <= N)%nat
}.

(** What the card may answer: it frees buffers it has and has room for those it accepts. *)
Definition answer_ok (a : nic_answer) (x : dplane) : Prop :=
  NoDup (concat (freed a)) /\ concat (freed a) ⊆ nic x
  /\ (length (nic x) + accepted a + IOKERNEL_TX_BURST_SIZE <= N + length (concat (freed a)))%nat.

Lemma tx_send_ok hdr_at a new hdrs x :
  dcore x (bufs x) new (nic x) -> answer_ok a x -> length hdrs = length new -> Forall (entry_ok x) hdrs ->
  n_pkts x = (length (bufs x) + length new)%nat -> (n_pkts x <= IOKERNEL_TX_BURST_SIZE)%nat ->
  exists x', tx_send ops hdr_at a new (replicate (length (bufs x)) None ++ map Some hdrs) x = Ok (true, x') /\ dinv x'.
Proof.
  intros C (A1 & A2 & A3) Hl Hf Hn Hb. unfold tx_send. rewrite drop_app_length' by by rewrite length_replicate.
  rewrite <- (app_nil_r new) in C. destruct (tx_fill_ok hdr_at new hdrs x (bufs x) [] (nic x) C Hl Hf) as (x1 & -> & C1 & [F1 F2 F3 F4 F5 F6 F7]).
  cbn [mbind res_bind]. rewrite F2. set (all := bufs x ++ new) in *. rewrite <- F3 in C1.
  destruct (nic_frees_ok T HT U cfgok ops N (freed a) x1 all [] C1 A1) as (x2 & -> & C2 & G1 & G2 & G3 & G4 & G5); [by rewrite F3|].
  cbn [mbind res_bind]. set (ret := accepted a). rewrite <- (take_drop ret all) in C2.
  pose proof (dcore_ship x2 (take ret all) (drop ret all) [] (nic x2) (nic x2 ++ take ret all) C2) as C3.
  set (x3 := put_handed _ _) in *. rewrite app_nil_r in *.
  assert (Hrest : (if (ret <? n_pkts x3)%nat then drop ret all else []) = drop ret all).
  { destruct (Nat.ltb_spec ret (n_pkts x3)) as [|Hge]; [done|]. symmetry. apply drop_ge.
    change (n_pkts x3) with (n_pkts x2) in Hge. unfold all. rewrite length_app. lia. }
  rewrite Hrest. eexists. split; [reflexivity|]. assert (Hall : length all = n_pkts x) by (unfold all; rewrite length_app; lia). split; cbn.
  - destruct C3; by split.
  - done.
  - rewrite length_drop. lia.
  - rewrite length_app, length_take. rewrite F3 in G5. unfold IOKERNEL_TX_BURST_SIZE in *. lia.
Qed.

Context (rte_mempool_get_bulk : list nat -> nat -> option (list nat * list nat)).
(** A pool without a cache gets its buffers from its own operation. *)
Hypothesis get_bulk : forall stack n, rte_mempool_get_bulk stack n = completion_dequeue stack n.

Lemma tx_burst_ok hdr_at a x :
  dinv x -> calm x -> answer_ok a x -> exists b x', tx_burst ops rte_mempool_get_bulk hdr_at a x = Ok (b, x') /\ dinv x'.
Proof using HT PolicyFrame0 SchedPolicy0 get_bulk.
  intros [C Hn Hb Hnic] Hcalm Ha. unfold tx_burst.
  destruct (tx_pull_ok (length (ts (sch x))) 0 (replicate (n_pkts x) None) x (bufs x) [] (nic x) C Hcalm ltac:(lia))
    as (full & new & x1 & -> & C1 & Hcalm1 & S1 & N1 & L1 & F1). cbn [mbind res_bind].
  assert (S1' := S1). destruct S1' as [P1 P2 P3 P4 P5 P6 P7]. rewrite Hn in N1.
  destruct (negb full && (n_pkts x1 =? 0)%nat) eqn:E0.
  { apply andb_true_iff in E0 as [_ E0%Nat.eqb_eq]. eexists _, _. split; [reflexivity|].
    split; [by rewrite P2, P3|rewrite P2; lia|by rewrite P2|by rewrite P3]. }
  set (x2 := if full then x1 else put_tx_pos _ x1).
  assert (E2 : n_pkts x2 = n_pkts x1 /\ objs x2 = objs x1 /\ bufs x2 = bufs x /\ nic x2 = nic x) by (unfold x2; destruct full; by split_and!).
  destruct E2 as (E2 & E3 & E4 & E5).
  assert (C2 : dcore x2 (bufs x2) [] (nic x2)) by (rewrite E4, E5; unfold x2; destruct full; [done|destruct C1; by split]).
  assert (F2 : Forall (entry_ok x2) new) by (unfold x2; destruct full; [done|eapply list.Forall_impl; [exact F1|done]]).
  assert (Ha2 : answer_ok a x2) by (unfold answer_ok; by rewrite E5).
  rewrite Hn, <- E4. clearbody x2. destruct (Nat.ltb_spec (length (bufs x2)) (n_pkts x2)) as [Hlt|Hge].
  - rewrite get_bulk. unfold completion_dequeue.
    assert (Hlen : (length (objs x2) + length (bufs x2) + length (nic x2) = N)%nat).
    { pose proof (Permutation_length (dc_pool _ _ _ _ _ _ _ _ _ C2)) as X. rewrite length_seq, !length_app in X. cbn in X. lia. }
    rewrite E5 in Hlen. destruct (Nat.ltb_spec (length (objs x2)) (n_pkts x2 - length (bufs x2))) as [Hbad|Hok].
    + exfalso. rewrite E2 in Hbad. lia.
    + set (k := (length (objs x2) - (n_pkts x2 - length (bufs x2)))%nat).
      assert (Hd : length (drop k (objs x2)) = length new) by (rewrite length_drop; unfold k; rewrite E4 in *; lia).
      destruct (tx_send_ok hdr_at a (drop k (objs x2)) new (put_objs (take k (objs x2)) x2)) as (x' & E & I); cbn [put_objs bufs n_pkts nic objs].
      * destruct C2 as [D1 D2 D3 D4 D5 D6 D7 D8 D9 D10 D11 D12 D13 D14]. split; try done. cbn. rewrite <- D8.
        rewrite <- (take_drop k (objs x2)) at 3. solve_Permutation.
      * exact Ha2.
      * by rewrite Hd.
      * eapply list.Forall_impl; [exact F2|done].
      * rewrite Hd, E4. lia.
      * lia.
      * exists true, x'. by split.
  - assert (new = []) as -> by (destruct new; [done|cbn in N1; rewrite E4 in Hge; lia]).
    destruct (tx_send_ok hdr_at a [] [] x2 C2 Ha2 eq_refl ltac:(constructor)) as (x' & E & I); [cbn in *; rewrite E4; lia|lia|].
    exists true, x'. by split.
Qed.
End burst.
