(* ===== verification/IokDataMach.v ===== *)
(** * The IOKernel's data plane as a machine

    The scheduler, the clients that come and go, the packets in both directions, the
    completions and commands, the card that gives buffers back, and the runtimes that
    write to shared memory, in any order. *)

From S2P Require Import Prelude Stddef Page Shm Lrpc IokState IokSched IokInv IokBase IokCores IokPoll IokMach IokFrame IokData IokDataInv IokDataTx IokDataBurst.

Section mach.
Context (T : topo) (HT : topo_ok T) (U : list tref) (cfgok : sched_spec -> Prop) {D : Type} (ops : sched_ops D) `{!SchedPolicy T U cfgok ops, !PolicyFrame ops} (cyc : Z).
Context (N : nat).
Context (rte_mempool_get_bulk : list nat -> nat -> option (list nat * list nat)).
Hypothesis get_bulk : forall stack n, rte_mempool_get_bulk stack n = completion_dequeue stack n.
Context (ingress : shm_region).
Abbreviation dplane := (dplane D).
Abbreviation sch x := ((dw x).2) (only parsing).
Abbreviation dcore := (dcore T U cfgok ops N).
Abbreviation dinv := (dinv T U cfgok ops N).

(** ** Packets from the network *)

Definition wgood (G : nat -> Z) (w : D * sched) : Prop :=
  sched_inv T G U w.2 /\ pol_inv w.1 (cl w.2) /\ all_rxq w.2 /\ forall p, p ∈ clients w.2 -> is_Some (th_at w.2 (p, 0%nat)).

Lemma wgood_step G w w' : wgood G w -> skstep T U cfgok ops G w w' -> wgood G w'.
Proof.
  intros (H1 & H2 & H3 & H4) (R & P & K). split_and!; [apply R|done|by apply K|].
  intros p Hp. apply K, H4. by rewrite <- (sk_clients _ _ K).
Qed.

Lemma skstep_refl G w : wgood G w -> skstep T U cfgok ops G w w.
Proof. intros (H1 & H2 & _). split_and!; [by apply runs_refl|done|done]. Qed.

(** The preamble is in the shared region. *)
Definition rx_fits (b : rx_buf) : Prop := exists v, ptr_to_shmptr ingress (rb_hdr b) sizeof_rx_net_hdr = Ok v.

Lemma rx_pkt_ok G w p b :
  wgood G w -> p ∈ clients w.2 -> rx_fits b -> exists ok w', rx_send_pkt_to_runtime ops ingress p b w = Ok (ok, w') /\ skstep T U cfgok ops G w w'.
Proof.
  intros (H1 & H2 & H3 & H4) Hp [v Hv]. unfold rx_send_pkt_to_runtime. rewrite Hv. cbn [mbind res_bind].
  destruct (rx_send_ok T U cfgok ops G w p (rb_rss b) RX_NET_RECV v H1 H2 H3 Hp (H4 p Hp) eq_refl) as (ok & w' & E & S). by exists ok, w'.
Qed.

Lemma rx_broadcast_ok G b l : forall w,
  wgood G w -> rx_fits b -> (forall p, p ∈ l -> p ∈ clients w.2) -> exists es w', rx_broadcast ops ingress b l w = Ok (es, w') /\ skstep T U cfgok ops G w w'.
Proof.
  induction l as [|p l IH]; intros w H Hb Hl; cbn [rx_broadcast]; [exists [], w; split; [done|by apply skstep_refl]|].
  destruct (rx_pkt_ok G w p b H) as (ok & w1 & -> & S1); [apply Hl; by left|done|]. cbn [mbind res_bind].
  destruct (IH w1) as (es & w2 & -> & S2); [by eapply wgood_step|done| |].
  { intros q Hq. destruct S1 as (_ & _ & K). rewrite (sk_clients _ _ K). apply Hl. by right. }
  eexists _, _. split; [reflexivity|]. by eapply skstep_trans.
Qed.

(** The table of MAC addresses finds clients only. *)
Definition rx_ok (w : D * sched) (k : rx_buf * rx_dst) : Prop :=
  rx_fits k.1 /\ forall p, k.2 = Unicast (Some p) -> p ∈ clients w.2.

Lemma rx_one_ok G w b d : wgood G w -> rx_ok w (b, d) -> exists es w', rx_one_pkt ops ingress b d w = Ok (es, w') /\ skstep T U cfgok ops G w w'.
Proof.
  intros H [Hb Hd]. cbn [fst snd] in *. unfold rx_one_pkt. destruct d as [[p|]| |].
  - destruct (rx_pkt_ok G w p b H (Hd p eq_refl) Hb) as (ok & w' & -> & S). cbn. by eexists _, _.
  - eexists _, _. split; [reflexivity|]. by apply skstep_refl.
  - destruct (_ <? _)%nat.
    + destruct (rx_broadcast_ok G b (clients w.2) w H Hb) as (es & w' & -> & S); [done|]. cbn. by eexists _, _.
    + eexists _, _. split; [reflexivity|]. by apply skstep_refl.
  - eexists _, _. split; [reflexivity|]. by apply skstep_refl.
Qed.

Lemma rx_burst_ok G l : forall w, wgood G w -> Forall (rx_ok w) l -> exists es w', rx_burst ops ingress l w = Ok (es, w') /\ skstep T U cfgok ops G w w'.
Proof.
  induction l as [|[b d] l IH]; intros w H Hl; cbn [rx_burst]; [exists [], w; split; [done|by apply skstep_refl]|].
  apply Forall_cons_iff in Hl as [Hk Hl].
  destruct (rx_one_ok G w b d H Hk) as (es & w1 & -> & S1). cbn [mbind res_bind].
  destruct (IH w1) as (ess & w2 & -> & S2); [by eapply wgood_step| |].
  { eapply list.Forall_impl; [exact Hl|]. intros k' [A1 A2]. split; [done|]. intros p Hp. destruct S1 as (_ & _ & K). rewrite (sk_clients _ _ K). by apply A2. }
  eexists _, _. split; [reflexivity|]. by eapply skstep_trans.
Qed.

(** ** Commands *)

Lemma dcore_cmds x w e f q : dcore x w e f ->
  (forall r c, txcmdq x !! r = Some c -> cmd_ok c -> exists c', q !! r = Some c' /\ cmd_ok c') -> dcore (put_txcmdq q x) w e f.
Proof.
  intros [C1 C2 C3 C4 C5 C6 C7 C8 C9 C10 C11 C12 C13 C14] Hq. split; try done.
  intros r Hr. destruct (C6 r Hr) as (d & c & c' & Hd & Hc & Ho & Hc' & Ho').
  destruct (Hq r c' Hc' Ho') as (c2 & Hc2 & Ho2). exists d, c, c2. by split_and!.
Qed.

(** All but the command channels and the position. *)
Record samecmd (x x' : dplane) : Prop := {
  sm_dw : dw x' = dw x; sm_bufs : bufs x' = bufs x; sm_n : n_pkts x' = n_pkts x; sm_nic : nic x' = nic x
}.

Lemma commands_drain_ok n : forall r x w e f,
  dcore x w e f -> is_Some (th_at (sch x) r) ->
  exists l x', commands_drain_queue r n x = Ok (l, x') /\ dcore x' w e f /\ samecmd x x' /\ (length l <= n)%nat.
Proof.
  induction n as [|n IH]; intros r x w e f C Hr; cbn [commands_drain_queue]; [by exists [], x|].
  destruct (dc_chan _ _ _ _ _ _ _ _ _ C r Hr) as (_ & _ & c & _ & _ & _ & Hc & [Hw Ho]). unfold get_chan. rewrite Hc. cbn [mbind res_bind].
  destruct (recv_chan_ok c Hw) as (c' & v & -> & Hw' & Htbl & _ & Hsome). cbn [mbind res_bind]. set (x1 := put_txcmdq _ x).
  assert (C1 : dcore x1 w e f).
  { apply dcore_cmds; [done|]. intros r2 c2 H2 Ho2. destruct (decide (r2 = r)) as [->|Hne].
    - rewrite lookup_insert_eq. exists c'. split; [done|]. assert (c2 = c) as -> by congruence. destruct Ho2. split; [done|]. by rewrite Htbl.
    - rewrite lookup_insert_ne by done. by exists c2. }
  destruct v as [[cmd y]|]; [|exists [], x1; split_and!; try done; cbn; lia].
  destruct (Hsome cmd y eq_refl) as (msg & Hm & -> & ->). rewrite (Ho msg Hm). cbn [Z.eqb negb BUG_ON mbind res_bind TXCMD_NET_COMPLETE].
  destruct (IH r x1 w e f C1 Hr) as (l & x2 & -> & C2 & [S1 S2 S3 S4] & L). cbn [mbind res_bind].
  eexists _, x2. split; [reflexivity|]. split_and!; [done|by split|cbn; lia].
Qed.

Lemma commands_loop_ok k : forall i got x w e f,
  dcore x w e f -> (k = 0 \/ 0 < length (ts (sch x)))%nat ->
  exists l x', commands_loop k i got x = Ok (l, x') /\ dcore x' w e f /\ samecmd x x'.
Proof.
  induction k as [|k IH]; intros i got x w e f C Hk; cbn [commands_loop]; [by exists got, x|].
  destruct (_ <=? length got)%nat; [by exists got, x|]. destruct Hk as [|Hk]; [done|].
  pose proof (Z.mod_pos_bound (u32 (cmd_pos x + Z.of_nat i)) (Z.of_nat (length (ts (sch x)))) ltac:(lia)) as Hm.
  destruct (lookup_lt_is_Some_2 (ts (sch x)) (Z.to_nat (u32 (cmd_pos x + Z.of_nat i) mod Z.of_nat (length (ts (sch x)))))) as [r Hr]; [lia|].
  rewrite Hr. apply (bi_ts _ _ _ _ (sv_base _ _ _ _ (dc_sched _ _ _ _ _ _ _ _ _ C))) in Hr as (t & Ht & _).
  destruct (commands_drain_ok (IOKERNEL_CMD_BURST_SIZE - length got) r x w e f C) as (l & x1 & -> & C1 & S1 & _); [by exists t|]. cbn [mbind res_bind].
  destruct (IH (S i) (got ++ l) x1 w e f C1) as (l2 & x2 & -> & C2 & S2); [right; by rewrite (sm_dw _ _ S1)|].
  eexists _, _. split; [reflexivity|]. split; [done|]. destruct S1, S2. split; congruence.
Qed.

Lemma commands_rx_ok x w e f :
  dcore x w e f -> exists l x', commands_rx x = Ok (l, x') /\ dcore x' w e f /\ samecmd x x'.
Proof.
  intros C. unfold commands_rx. destruct (commands_loop_ok (length (ts (sch x))) 0 [] x w e f C ltac:(lia)) as (l & x' & -> & C' & S').
  cbn [mbind res_bind]. eexists _, _. split; [reflexivity|]. split; [by destruct C'; split|]. by destruct S'; split.
Qed.

(** ** The machine *)

Inductive dop :=
| DPoll (now tsc : Z) (k : kreport)                                    (* sched_poll *)
| DAdd (p : nat) (pr : proc) (pd : pdata) (tx cmd : gmap tref txchan)   (* the control plane registers a process *)
| DRemove (p : nat)                                                    (* ... asks for its removal *)
| DDestroy (p : nat)                                                   (* ... deletes it once it is released *)
| DShm (p : nat) (l : list thread)                                     (* a runtime writes to shared memory, *)
| DShmTx (r : tref) (m : lrpc_shm)                                     (* to a packet channel, *)
| DShmCmd (r : tref) (m : lrpc_shm)                                    (* to a command channel *)
| DRx (l : list (rx_buf * rx_dst))                                     (* rx_burst *)
| DCommands                                                            (* commands_rx *)
| DDrain                                                               (* tx_drain_completions *)
| DBurst (hdr_at : Z -> tx_net_hdr) (a : nic_answer)                   (* tx_burst *)
| DNicFree (l : list nat).                                             (* the card returns buffers *)

Record dmach := Dmach { d_last : Z; d_x : dplane }.

Definition dexec (o : dop) (m : dmach) : res dmach :=
  let x := d_x m in
  let up x := Dmach (d_last m) x in
  match o with
  | DPoll now tsc k => '(last, w) ← sched_poll T ops cyc (d_last m) now tsc k (dw x); Ok (Dmach last (put_dw w x))
  | DAdd p pr pd tx cmd =>
      w ← dp_clients_add_client ops p ((dw x).1, set_procs (<[p := pr]> (procs (sch x))) (sch x));
      Ok (up (put_dw w (put_pdatas (<[p := pd]> (pdatas x)) (put_txpktq (tx ∪ txpktq x) (put_txcmdq (cmd ∪ txcmdq x) x)))))
  | DRemove p => w ← dp_clients_remove_client ops p (dw x); Ok (up (put_dw w x))
  | DDestroy p =>
      d ← get_pdata p x;
      Ok (up (put_dw ((dw x).1, set_procs (delete p (procs (sch x))) (sch x))
               (put_pdatas (delete p (pdatas x)) (put_dead (dead x ++ over_of (p, d)) x))))
  | DShm p l => Ok (up (put_dw ((dw x).1, upd_proc p (set_threads l) (sch x)) x))
  | DShmTx r sm => c ← get_chan (txpktq x) r; Ok (up (put_txpktq (<[r := TxChan (ch_in c) sm]> (txpktq x)) x))
  | DShmCmd r sm => c ← get_chan (txcmdq x) r; Ok (up (put_txcmdq (<[r := TxChan (ch_in c) sm]> (txcmdq x)) x))
  | DRx l => '(_, w) ← rx_burst ops ingress l (dw x); Ok (up (put_dw w x))
  | DCommands => '(_, x) ← commands_rx x; Ok (up x)
  | DDrain => '(_, x) ← tx_drain_completions ops x; Ok (up x)
  | DBurst hdr_at a => '(_, x) ← tx_burst ops rte_mempool_get_bulk hdr_at a x; Ok (up x)
  | DNicFree l => x ← nic_free ops l x; Ok (up x)
  end.

(** A process as the control plane makes it, with channels for its kthreads. *)
Record fresh_client (p : nat) (pr : proc) (pd : pdata) (tx cmd : gmap tref txchan) : Prop := {
  fc_proc : fresh_proc U p pr;
  fc_cfg : cfgok (sched_cfg pr);
  fc_count : (0 < thread_count pr)%nat;
  fc_rxq : Forall rxq_ok (threads pr);
  fc_over : overflow_queue pd = [] /\ 0 <= max_overflows pd;
  fc_tx : forall i, (i < thread_count pr)%nat -> exists c, tx !! (p, i) = Some c /\ tx_ok pd c;
  fc_cmd : forall i, (i < thread_count pr)%nat -> exists c, cmd !! (p, i) = Some c /\ cmd_ok c;
  fc_own : forall r, is_Some (tx !! r) \/ is_Some (cmd !! r) -> r.1 = p
}.

(** What the surroundings keep to: an attempt to attach a process succeeds, a process is
    deleted after its release, shared memory has well-formed messages and positions, the
    table of addresses finds clients, a process that is being removed has no packets left
    at kthreads that do not run, and the card has the buffers it gives back and room for
    those it accepts. *)
Definition dop_ok (o : dop) (m : dmach) : Prop :=
  let x := d_x m in
  match o with
  | DPoll _ _ _ | DRemove _ | DCommands | DDrain => True
  | DAdd p pr pd tx cmd =>
      procs (sch x) !! p = None /\ pdatas x !! p = None /\ fresh_client p pr pd tx cmd /\ (length (clients (sch x)) < IOKERNEL_MAX_PROC)%nat
      /\ forall w, dp_clients_add_client ops p ((dw x).1, set_procs (<[p := pr]> (procs (sch x))) (sch x)) = Ok w -> p ∈ clients w.2
  | DDestroy p => ref <$> procs (sch x) !! p = Some 0
  | DShm p l => exists pr, procs (sch x) !! p = Some pr /\ Forall2 teq (threads pr) l /\ Forall rxq_ok l
  | DShmTx r sm => exists c, txpktq x !! r = Some c /\ forall d, pdatas x !! r.1 = Some d -> tx_ok d c -> tx_ok d (TxChan (ch_in c) sm)
  | DShmCmd r sm => exists c, txcmdq x !! r = Some c /\ (cmd_ok c -> cmd_ok (TxChan (ch_in c) sm))
  | DRx l => Forall (rx_ok (dw x)) l
  | DBurst _ a => calm x /\ answer_ok N a x
  | DNicFree l => NoDup l /\ l ⊆ nic x
  end.

Lemma dinv_core x x' : dinv x -> dcore x' (bufs x) [] (nic x) -> bufs x' = bufs x -> n_pkts x' = n_pkts x -> nic x' = nic x -> dinv x'.
Proof. intros [I1 I2 I3 I4] C E1 E2 E3. split; rewrite ?E1, ?E2, ?E3; done. Qed.

Lemma dinv_step x w' : dinv x -> skstep T U cfgok ops (Gof (held x (bufs x ++ nic x)) (sch x)) (dw x) w' -> dinv (put_dw w' x).
Proof. intros I S. eapply dinv_core; [done| |done..]. by apply dcore_sched; [apply I|]. Qed.

Lemma dinv_wgood x : dinv x -> wgood (Gof (held x (bufs x ++ nic x)) (sch x)) (dw x).
Proof.
  intros [C _ _ _]. split_and!; [apply C|apply C|apply C|]. intros p Hp. apply (dc_th0 _ _ _ _ _ _ _ _ _ C).
  by apply (sv_clients _ _ _ _ (dc_sched _ _ _ _ _ _ _ _ _ C)).
Qed.

(** *** Processes come and go *)

Lemma dp_held_pos (x : dplane) l p : 0 <= held x l p.
Proof. unfold held. pose proof (npk_pos p (pkts_of x l)). pose proof (npk_pos p (lost x)). lia. Qed.

Lemma add_shape p pr d s w' :
  pol_inv d (cl s) -> cfgok (sched_cfg pr) -> procs s !! p = None -> p ∉ clients s ->
  dp_clients_add_client ops p (d, set_procs (<[p := pr]> (procs s)) s) = Ok w' -> p ∈ clients w'.2 ->
  clients w'.2 = clients s ++ [p] /\ (forall q, q <> p -> procs w'.2 !! q = procs s !! q)
  /\ procs w'.2 !! p = Some (set_kill false (attach_proc pr)).
Proof.
  intros Hpol Hcfg Hp Hc E Hin. unfold dp_clients_add_client, sched_attach_proc, get_proc in E. cbn [fst snd] in E.
  set (s0 := set_procs _ s) in E. assert (Hp0 : procs s0 !! p = Some pr) by (cbn; by rewrite lookup_insert_eq). rewrite Hp0 in E. cbn [mbind res_bind] in E.
  set (s1 := if has_directpath pr then s0 else log_ev (KHashAdd p) s0) in E.
  assert (Q1 : procs s1 = procs s0 /\ clients s1 = clients s) by (unfold s1; by destruct (has_directpath pr)).
  destruct Q1 as (Q1 & Q4). clearbody s1. rewrite Q1, Hp0 in E. cbn [mbind res_bind] in E.
  set (s2 := upd_proc p attach_proc s1) in E.
  assert (P2 : procs s2 = <[p := attach_proc pr]> (procs s)) by (cbn; rewrite Q1; unfold s0; cbn; by rewrite alter_insert_eq).
  destruct (pol_attach d (cl s) s2 p (sched_cfg pr) Hcfg Hpol) as (ret & d' & E' & _); [unfold cl; by rewrite elem_of_list_to_set|].
  rewrite E' in E. cbn [mbind res_bind fst snd] in E. destruct (ret =? 0).
  - apply res_bind_ok in E as (u & _ & E). injection E as <-. cbn [snd clients set_clients upd_proc]. split_and!.
    + cbn. by rewrite Q4.
    + intros q Hq. cbn [procs set_clients]. unfold upd_proc at 1. cbn [procs set_procs]. rewrite lookup_alter_ne, P2, lookup_insert_ne by done. done.
    + cbn [procs set_clients]. unfold upd_proc at 1. cbn [procs set_procs]. by rewrite lookup_alter_eq, P2, lookup_insert_eq.
  - injection E as <-. cbn in Hin. rewrite Q4 in Hin. done.
Qed.

Lemma attach_threads pr i t' : threads (attach_proc pr) !! i = Some t' -> exists t, threads pr !! i = Some t /\ tfr t t'.
Proof.
  cbn. rewrite list_lookup_fmap. intros (t & -> & ->)%fmap_Some. exists t. split; [done|]. split; cbn; auto.
Qed.

Lemma dp_add_ok x p pr pd tx cmd :
  dinv x -> procs (sch x) !! p = None -> pdatas x !! p = None -> fresh_client p pr pd tx cmd -> (length (clients (sch x)) < IOKERNEL_MAX_PROC)%nat ->
  (forall w, dp_clients_add_client ops p ((dw x).1, set_procs (<[p := pr]> (procs (sch x))) (sch x)) = Ok w -> p ∈ clients w.2) ->
  exists w, dp_clients_add_client ops p ((dw x).1, set_procs (<[p := pr]> (procs (sch x))) (sch x)) = Ok w /\
    dinv (put_dw w (put_pdatas (<[p := pd]> (pdatas x)) (put_txpktq (tx ∪ txpktq x) (put_txcmdq (cmd ∪ txcmdq x) x)))).
Proof.
  intros I Hp Hpd [F1 F0 F2 F3 [F4 F5] F6 F7 F8] Hroom Hatt. assert (C := di_core _ _ _ _ _ _ I).
  assert (C' := C). destruct C' as [C1 C2 C3 C4 C5 C6 C7 C8 C9 C10 C11 C12 C13 C14].
  assert (Hnc : p ∉ clients (sch x)). { intros Hc. destruct (sv_clients _ _ _ _ C1 p Hc) as [[? ?] _]. congruence. }
  destruct (add_client_ok T HT U cfgok ops (held x (bufs x ++ nic x)) (dw x).1 (sch x) p pr C1 C2 Hp (C12 p Hp) F1 F0 Hroom) as (d' & s' & E & Hs' & Hp' & Dm).
  specialize (Hatt _ E). cbn [snd] in Hatt. rewrite decide_True in Hs' by done. exists (d', s'). split; [done|].
  destruct (add_shape p pr (dw x).1 (sch x) (d', s') C2 F0 Hp Hnc E Hatt) as (Hcl & Hother & Hself). cbn [snd] in *.
  assert (Tn : forall r, r.1 <> p -> th_at s' r = th_at (sch x) r) by (intros r Hr; unfold th_at; by rewrite Hother).
  assert (Tp : forall i t', th_at s' (p, i) = Some t' -> exists t, threads pr !! i = Some t /\ tfr t t').
  { intros i t' Ht. unfold th_at in Ht. cbn [fst snd] in Ht. rewrite Hself in Ht. cbn in Ht. by apply attach_threads. }
  assert (Hdm : forall q, q <> p -> is_Some (procs s' !! q) -> is_Some (procs (sch x) !! q)) by (intros q Hq [a Ha]; rewrite Hother in Ha by done; by exists a).
  eapply dinv_core; [exact I| |done..]. split; cbn; try done.
  - intros q qr Hq Hk. rewrite Hcl. apply elem_of_app. destruct (decide (q = p)) as [->|Hne]; [right; by left|left]. rewrite Hother in Hq by done. by eapply C3.
  - intros r t Ht. destruct (decide (r.1 = p)) as [Hr|Hr]; [|rewrite Tn in Ht by done; by eapply C4].
    destruct r as [p' i]. cbn in Hr. subst p'. destruct (Tp i t Ht) as (t0 & Ht0 & Hf). eapply rxq_ok_tfr; [done|]. rewrite Forall_lookup in F3. by eapply F3.
  - intros q Hq. destruct (decide (q = p)) as [->|Hne]; [|rewrite Tn by done; apply C5; by apply Hdm].
    unfold th_at. cbn. rewrite Hself. cbn. rewrite list_lookup_fmap. apply fmap_is_Some, lookup_lt_is_Some. exact F2.
  - intros r Hr. destruct (decide (r.1 = p)) as [Hrp|Hrp].
    + destruct r as [p' i]. cbn in Hrp. subst p'. destruct Hr as [t' Ht']. destruct (Tp i t' Ht') as (t & Ht & _). apply lookup_lt_Some in Ht.
      destruct (F6 i Ht) as (c & Hc & Ho), (F7 i Ht) as (c' & Hc' & Ho'). exists pd, c, c'. cbn. rewrite lookup_insert_eq.
      split_and!; try done; by apply lookup_union_Some_l.
    + rewrite Tn in Hr by done. destruct (C6 r Hr) as (d & c & c' & A1 & A2 & A3 & A4 & A5). exists d, c, c'. rewrite lookup_insert_ne by done.
      split_and!; try done; (rewrite lookup_union_r; [done|]); apply eq_None_not_Some; intros Hx; apply Hrp, F8; auto.
  - intros q Hq. destruct (decide (q = p)) as [->|Hne]; [rewrite lookup_insert_eq; exists pd; rewrite F4; cbn; by split|].
    rewrite lookup_insert_ne by done. apply C7. by apply Hdm.
  - intros b Hb. destruct (C11 b Hb) as (m & q & A1 & A2 & [t A3]). exists m, q. split_and!; [done|done|]. rewrite Tn; [by exists t|].
    cbn. intros ->. apply th_at_Some in A3 as (? & A3 & _). cbn in A3. congruence.
  - intros q Hq. apply C12. destruct (decide (q = p)) as [->|Hne]; [congruence|]. by rewrite <- Hother.
  - rewrite C14, overflowed_put, delete_id by done. unfold over_of. cbn. by rewrite F4.
Qed.

Lemma remove_shape p d s w' :
  pol_inv d (cl s) -> dp_clients_remove_client ops p (d, s) = Ok w' ->
  w' = (d, s) \/ ((forall q, q ∈ clients w'.2 -> q ∈ clients s) /\ (forall q, q <> p -> q ∈ clients s -> q ∈ clients w'.2)
    /\ frame (upd_proc p (set_kill true) s) w'.2).
Proof.
  intros Hpol E. unfold dp_clients_remove_client in E. cbn [snd fst] in E.
  destruct (list_find (fun q => q = p) (clients s)) as [[i q]|] eqn:Ef; [|injection E as <-; by left]. right.
  apply list_find_Some in Ef as (Hi & -> & _). assert (Hl := lookup_lt_Some _ _ _ Hi).
  destruct (clients s !! (length (clients s) - 1)%nat) as [l|] eqn:El; [|done].
  fold (swap_remove i l (clients s)) in E. set (L := swap_remove i l (clients s)) in *.
  assert (HL : p :: L ≡ₚ clients s) by (by apply swap_remove_perm).
  apply res_bind_ok in E as (pr & Hpr & E). apply res_bind_ok in E as (w1 & E1 & E). apply res_bind_ok in E as (s4 & E4 & E). injection E as <-. cbn [fst snd].
  set (s2 := if has_directpath pr then _ else _) in E1.
  assert (Q2 : procs s2 = procs s /\ clients s2 = L) by (unfold s2; by destruct (has_directpath pr)). clearbody s2. destruct Q2 as [Q2 Q3].
  unfold sched_detach_proc in E1. destruct (pol_detach d (cl s) (upd_proc p (set_kill true) s2) p Hpol) as (d' & E' & _).
  { unfold cl. rewrite elem_of_list_to_set. by eapply list_elem_of_lookup_2. }
  rewrite E' in E1. injection E1 as <-. cbn [snd] in E4.
  assert (C4 : clients s4 = L). { unfold proc_put in E4. apply res_bind_ok in E4 as (a & _ & E4). injection E4 as <-. destruct (_ =? _); exact Q3. }
  rewrite C4. split_and!.
  - intros q Hq. rewrite <- HL. by right.
  - intros q Hq Hin. rewrite <- HL in Hin. by apply elem_of_cons in Hin as [->|?].
  - etrans; [|by eapply fr_put]. apply frame_procs. unfold upd_proc. cbn. by rewrite Q2.
Qed.

Lemma dp_remove_ok x p : dinv x -> exists w, dp_clients_remove_client ops p (dw x) = Ok w /\ dinv (put_dw w x).
Proof.
  intros I. assert (C := di_core _ _ _ _ _ _ I). assert (C' := C). destruct C' as [C1 C2 C3 C4 C5 C6 C7 C8 C9 C10 C11 C12 C13 C14].
  destruct (dw x) as [d s] eqn:Edw. cbn [fst snd] in *.
  destruct (remove_client_ok T U cfgok ops (held x (bufs x ++ nic x)) d s p C1 C2 (dp_held_pos _ _ _)) as (d' & s' & E & Hs' & Hp' & Dm).
  exists (d', s'). split; [done|]. destruct (remove_shape p d s (d', s') C2 E) as [[= -> ->]|(Hc1 & Hc2 & F)].
  { rewrite <- Edw. eapply dinv_core; [exact I| |done..]. by destruct C; split. }
  cbn [snd] in *. set (sk := upd_proc p (set_kill true) s) in *.
  assert (Tk : forall r, th_at sk r = th_at s r).
  { intros r. unfold sk. rewrite th_at_upd_proc. destruct (decide (r.1 = p)) as [<-|]; [|done]. unfold th_at. by destruct (procs s !! r.1). }
  assert (Ts : forall r, is_Some (th_at s' r) <-> is_Some (th_at s r)).
  { intros r. rewrite <- (Tk r). pose proof (frame_th _ _ r F) as Ft. inversion Ft; by split; intros [? ?]. }
  eapply dinv_core; [exact I| |done..]. split; cbn; try done.
  - intros q qr Hq Hk. specialize (F q). rewrite Hq in F. inversion F as [a b Hab E1 E2|]; subst. unfold sk, upd_proc in E1. cbn in E1.
    destruct (decide (q = p)) as [->|Hne].
    + rewrite lookup_alter_eq in E1. symmetry in E1. apply fmap_Some in E1 as (pr & Hpr & ->). pose proof (pf_kill _ _ Hab) as X. cbn in X. congruence.
    + rewrite lookup_alter_ne in E1 by done. apply Hc2; [done|]. apply (C3 q a); [done|]. pose proof (pf_kill _ _ Hab) as X. congruence.
  - intros r t Ht. pose proof (frame_th _ _ r F) as Ft. rewrite Ht, Tk in Ft. inversion Ft as [a b Hab E1 E2|]; subst.
    eapply rxq_ok_tfr; [done|]. by eapply C4.
  - intros q Hq. apply Ts, C5. by apply Dm.
  - intros r Hr. apply C6. by apply Ts.
  - intros q Hq. apply C7. by apply Dm.
  - intros b Hb. destruct (C11 b Hb) as (m & q & A1 & A2 & A3). exists m, q. split_and!; [done|done|]. by apply Ts.
  - intros q Hq. apply C12. apply eq_None_not_Some. rewrite <- Dm, Hq. by intros [? ?].
Qed.

Lemma dp_destroy_ok x p : dinv x -> ref <$> procs (sch x) !! p = Some 0 -> exists d, pdatas x !! p = Some d /\
  dinv (put_dw ((dw x).1, set_procs (delete p (procs (sch x))) (sch x)) (put_pdatas (delete p (pdatas x)) (put_dead (dead x ++ over_of (p, d)) x))).
Proof.
  intros I (pr & Hp & Hr)%fmap_Some. assert (C := di_core _ _ _ _ _ _ I). assert (C' := C). destruct C' as [C1 C2 C3 C4 C5 C6 C7 C8 C9 C10 C11 C12 C13 C14].
  destruct (C7 p) as (d & Hd & _); [eauto|]. exists d. split; [done|].
  destruct (sched_delete_ok T U (Gof (held x (bufs x ++ nic x)) (sch x)) (sch x) p pr C1 Hp (eq_sym Hr)) as (Hs' & HG & Hc).
  assert (Hheld : held x (bufs x ++ nic x) p = 0) by (unfold Gof in HG; rewrite decide_False in HG by done; lia).
  set (s' := set_procs _ (sch x)) in *.
  assert (Tn : forall r, is_Some (th_at s' r) -> r.1 <> p).
  { intros r [t Ht] Hr'. unfold th_at, s' in Ht. cbn in Ht. by rewrite Hr', lookup_delete_eq in Ht. }
  assert (To : forall r, r.1 <> p -> th_at s' r = th_at (sch x) r).
  { intros r Hr'. unfold th_at, s'. cbn. by rewrite lookup_delete_ne. }
  assert (Pn : forall q, is_Some (procs s' !! q) -> q <> p /\ is_Some (procs (sch x) !! q)).
  { intros q [a Ha]. cbn in Ha. apply lookup_delete_Some in Ha as [? ?]. split; [done|by eexists]. }
  eapply dinv_core; [exact I| |done..]. split; try done.
  - intros q qr. cbn. intros [_ Hq]%lookup_delete_Some. by apply C3.
  - intros r t Ht. cbn in Ht. rewrite To in Ht by (apply Tn; by exists t). by eapply C4.
  - intros q Hq. cbn in Hq. destruct (Pn q Hq) as [Hne Hq']. cbn. rewrite To by done. by apply C5.
  - intros r Hr'. cbn in Hr'. pose proof (Tn r Hr') as Hne. rewrite To in Hr' by done. cbn. rewrite lookup_delete_ne by done. by apply C6.
  - intros q Hq. cbn in Hq. destruct (Pn q Hq) as [Hne Hq']. cbn. rewrite lookup_delete_ne by done. by apply C7.
  - intros b Hb. destruct (C11 b Hb) as (m & q & A1 & A2 & A3). exists m, q. split_and!; [done|done|]. cbn. rewrite To; [done|]. cbn. intros ->.
    assert (1 <= npk p (pkts_of x (bufs x ++ nic x))).
    { apply list_elem_of_split in Hb as (l1 & l2 & ->). rewrite pkts_of_app, pkts_of_cons, (pkt_of_eq x b m p A1 A2), !npk_app, npk_cons. cbn [fst].
      rewrite decide_True by done. pose proof (npk_pos p (pkts_of x l1)). change (npk p []) with 0. pose proof (npk_pos p (pkts_of x l2)). lia. }
    unfold held in Hheld. pose proof (npk_pos p (lost x)). lia.
  - intros q Hq. cbn in Hq. destruct (decide (q = p)) as [->|Hne]; [exact Hheld|]. apply C12. by rewrite lookup_delete_ne in Hq.
  - change (handed x ≡ₚ pkts_of x (nic x) ++ delivered x ++ overflowed (delete p (pdatas x)) ++ (dead x ++ over_of (p, d)) ++ lost x).
    rewrite C14, (overflowed_split (pdatas x) p d Hd). solve_Permutation.
Qed.

(** *** Any step *)

Lemma shm_ok x p l pr :
  dinv x -> procs (sch x) !! p = Some pr -> Forall2 teq (threads pr) l -> Forall rxq_ok l ->
  dinv (put_dw ((dw x).1, upd_proc p (set_threads l) (sch x)) x).
Proof.
  intros I Hp Hl Hq. assert (C := di_core _ _ _ _ _ _ I). apply dinv_step; [done|]. split_and!; cbn [fst snd].
  - replace (upd_proc p (set_threads l) (sch x)) with (upd_proc p (fun _ => set_threads l pr) (sch x)).
    + apply sched_teq; [apply C|done|done].
    + unfold upd_proc. f_equal. apply map_eq. intros q. destruct (decide (q = p)) as [->|]; [|by rewrite !lookup_alter_ne].
      by rewrite !lookup_alter_eq, Hp.
  - apply C.
  - apply skeep_upd_proc. intros pr' Hp'. assert (pr' = pr) as -> by congruence. cbn. split_and!; [done|by rewrite (Forall2_length Hl)|done].
Qed.

Lemma dstep_ok o m : dinv (d_x m) -> dop_ok o m -> exists m', dexec o m = Ok m' /\ dinv (d_x m').
Proof using HT PolicyFrame0 SchedPolicy0 get_bulk.
  destruct m as [last x]. intros I Hok. assert (C := di_core _ _ _ _ _ _ I). unfold dexec, dop_ok in *. cbn [d_x d_last] in *.
  destruct o as [now tsc k|p pr pd tx cmd|p|p|p l|r sm|r sm|l| | |hdr_at a|l].
  - destruct (sched_poll_ok T HT U cfgok ops cyc (Gof (held x (bufs x ++ nic x)) (sch x)) last now tsc k (dw x)) as (last' & w' & E & R & P); [apply C..|].
    rewrite E. eexists. split; [reflexivity|]. cbn [d_x]. apply dinv_step; [done|]. split_and!; [done|done|].
    apply frame_skeep; [|apply R]. exact (fr_sched_poll T ops cyc last now tsc k (dw x) (last', w') E).
  - destruct Hok as (A1 & A2 & A3 & A4 & A5). destruct (dp_add_ok x p pr pd tx cmd I A1 A2 A3 A4 A5) as (w & -> & I'). eexists. by split.
  - destruct (dp_remove_ok x p I) as (w & -> & I'). eexists. by split.
  - destruct (dp_destroy_ok x p I Hok) as (d & Hd & I'). unfold get_pdata. rewrite Hd. eexists. split; [reflexivity|done].
  - destruct Hok as (pr & Hp & Hl & Hq). eexists. split; [reflexivity|]. by eapply shm_ok.
  - destruct Hok as (c & Hc & Hm). unfold get_chan. rewrite Hc. eexists. split; [reflexivity|]. cbn [d_x].
    eapply dinv_core; [done| |done..]. apply dcore_chans; [done|]. intros r' d c' Hd Hr Ht. destruct (decide (r' = r)) as [->|Hne].
    + assert (c' = c) as -> by congruence. rewrite lookup_insert_eq. eexists. split; [done|]. by apply Hm.
    + rewrite lookup_insert_ne by done. by exists c'.
  - destruct Hok as (c & Hc & Hm). unfold get_chan. rewrite Hc. eexists. split; [reflexivity|]. cbn [d_x].
    eapply dinv_core; [done| |done..]. apply dcore_cmds; [done|]. intros r' c' Hr Ht. destruct (decide (r' = r)) as [->|Hne].
    + assert (c' = c) as -> by congruence. rewrite lookup_insert_eq. eexists. split; [done|]. by apply Hm.
    + rewrite lookup_insert_ne by done. by exists c'.
  - destruct (rx_burst_ok _ l (dw x) (dinv_wgood x I) Hok) as (es & w' & -> & S). eexists. split; [reflexivity|]. by apply dinv_step.
  - destruct (commands_rx_ok x _ _ _ C) as (l & x' & -> & C' & S'). eexists. split; [reflexivity|].
    destruct S' as [S1 S2 S3 S4]. by apply (dinv_core x).
  - destruct (tx_drain_completions_ok T U cfgok ops N x _ _ _ C) as (b & x' & -> & C' & S'). eexists. split; [reflexivity|].
    destruct S'. by apply (dinv_core x).
  - destruct Hok as [H1 H2]. destruct (tx_burst_ok T HT U cfgok ops N rte_mempool_get_bulk get_bulk hdr_at a x I H1 H2) as (b & x' & -> & I'). eexists. by split.
  - destruct Hok as [H1 H2]. destruct (nic_free_ok T HT U cfgok ops N l x (bufs x) [] C H1 H2) as (x' & -> & C' & E1 & E2 & E3 & _). cbn [mbind res_bind].
    eexists. split; [reflexivity|]. destruct I as [_ I2 I3 I4]. cbn [d_x]. split; rewrite ?E2, ?E3; [done..|].
    rewrite E1. unfold remove_all. pose proof (list.length_filter (fun b => b ∉ l) (nic x)). lia.
Qed.
End mach.
