(* ===== verification/IokDataThms.v ===== *)
(** * What holds of the IOKernel's data plane

    The states that the machine of IokDataMach.v can reach from start-up, with any policy
    that keeps to its interface, and a packet's way from the network. *)

From S2P Require Import Prelude Stddef Page Shm Lrpc IokState IokSched IokInv IokBase IokCores IokPoll IokMach IokSimple IokSimpleInv IokThms IokFrame IokData IokDataInv IokDataTx IokDataBurst IokDataMach.

(** ** Start-up *)

Definition tx_mbuf_init : tx_mbuf := TxMbuf 0 0 0 1 0 0 0 [] 0 0 0 (TxPriv None 0 0).

Section reach.
Context (T : topo) (U : list tref) (cfgok : sched_spec -> Prop) {D : Type} (ops : sched_ops D) (cyc : Z) (d0 : D).
Context (rte_mempool_get_bulk : list nat -> nat -> option (list nat * list nat)).
Context (ingress : shm_region) (N : nat).
Abbreviation sch x := ((dw x).2) (only parsing).

(** The pool as [completion_alloc] leaves it. *)
Definition completion_alloc (n : nat) : dplane D :=
  Dplane (d0, sched_start) ∅ ∅ ∅ (list_to_map ((fun b => (b, tx_mbuf_init)) <$> seq 0 n)) (Z.of_nat n) [] [] 0 0 0 0 [] [] [] [] [] [].

(** The pool is created and filled with its buffers. *)
Definition dp_init : res dmach := '(_, x) ← completion_enqueue ops (seq 0 N) (completion_alloc N); Ok (Dmach 0 x).

Inductive dp_reachable : dmach -> Prop :=
| dr_init m : dp_init = Ok m -> dp_reachable m
| dr_step o m m' : dp_reachable m -> dop_ok U cfgok ops N ingress o m -> dexec T ops cyc rte_mempool_get_bulk ingress o m = Ok m' -> dp_reachable m'.

Lemma mbuf_start n b : (b < n)%nat -> mbufs (completion_alloc n) !! b = Some tx_mbuf_init.
Proof.
  intros Hb. cbn. apply elem_of_list_to_map_1.
  - rewrite <- list_fmap_compose. cbn. rewrite list_fmap_id. apply NoDup_ListNoDup, seq_NoDup.
  - apply list_elem_of_fmap. exists b. split; [done|]. apply elem_of_seq. lia.
Qed.

(** No completion is sent for a buffer that never had a packet. *)
Lemma dp_init_eq : dp_init = Ok (Dmach 0 (put_objs (seq 0 N) (completion_alloc N))).
Proof.
  unfold dp_init, completion_enqueue. rewrite length_seq. destruct (Z.ltb_spec (pool_size (completion_alloc N)) (Z.of_nat (length (objs (completion_alloc N)) + N)));
    [cbn in *; lia|].
  assert (E : forall l, (forall b, b ∈ l -> (b < N)%nat) -> send_completions ops l (completion_alloc N) = Ok (completion_alloc N)).
  { induction l as [|b l IH]; intros Hl; cbn [send_completions]; [done|]. unfold tx_send_completion, get_mbuf.
    rewrite mbuf_start by (apply Hl; by left). cbn [mbind res_bind]. apply IH. intros b' Hb'. apply Hl. by right. }
  rewrite E; [done|]. intros b Hb%elem_of_seq. lia.
Qed.

Context (HT : topo_ok T) (HU : (length U <= NCPU)%nat) `{!SchedPolicy T U cfgok ops, !PolicyFrame ops} (Hd0 : pol_inv d0 ∅).
Hypothesis get_bulk : forall stack n, rte_mempool_get_bulk stack n = completion_dequeue stack n.
Hypothesis HN : (IOKERNEL_TX_BURST_SIZE <= N)%nat.

Lemma dp_init_ok m : dp_init = Ok m -> dinv T U cfgok ops N (d_x m).
Proof.
  rewrite dp_init_eq. intros [= <-]. cbn [d_x]. split; cbn; [|done|unfold IOKERNEL_TX_BURST_SIZE; lia|done].
  split; cbn; try done.
  - apply (sched_G T U _ _ _ (sched_start_ok T U HU)). done.
  - by intros p [? ?].
  - by intros r [? ?].
  - by intros p [? ?].
  - by rewrite app_nil_r.
  - intros b Hb. pose proof (mbuf_start N b Hb) as E. cbn in E. by rewrite E.
  - by intros b Hb%elem_of_nil.
Qed.

Lemma dp_reachable_inv m : dp_reachable m -> dinv T U cfgok ops N (d_x m).
Proof.
  induction 1 as [m E|o m m' _ IH Hok E]; [by apply dp_init_ok|].
  destruct (dstep_ok T HT U cfgok ops cyc N rte_mempool_get_bulk get_bulk ingress o m IH Hok) as (m1 & E1 & H1). congruence.
Qed.
End reach.

(** ** Properties of the machine *)

Section thms.
Context (T : topo) (U : list tref) (cfgok : sched_spec -> Prop) {D : Type} (ops : sched_ops D) `{!SchedPolicy T U cfgok ops, !PolicyFrame ops} (cyc : Z) (d0 : D).
Context (get_bulk : list nat -> nat -> option (list nat * list nat)) (ingress : shm_region) (N : nat).
Context (HT : topo_ok T) (HU : (length U <= NCPU)%nat) (Hd0 : pol_inv d0 ∅).
Context (Hpool : forall stack n, get_bulk stack n = completion_dequeue stack n) (HN : (IOKERNEL_TX_BURST_SIZE <= N)%nat).
Abbreviation sch x := ((dw x).2) (only parsing).
Abbreviation reachable := (dp_reachable T U cfgok ops cyc d0 get_bulk ingress N).



End thms.

(** ** A packet from the network *)

(** The references added to and dropped from a buffer. *)
Definition ref_change (b : Z) (e : rx_effect) : Z :=
  match e with EFree b' => if b' =? b then -1 else 0 | ERef b' k => if b' =? b then k else 0 | _ => 0 end.
Definition refs_after (b : Z) (es : list rx_effect) : Z := 1 + foldr (fun e n => ref_change b e + n) 0 es.
Definition receivers (es : list rx_effect) : list nat := omap (fun e => match e with ESend p _ => Some p | _ => None end) es.

Lemma refs_after_app b es es' : refs_after b (es ++ es') = refs_after b es + refs_after b es' - 1.
Proof. unfold refs_after. induction es as [|e es IH]; cbn; lia. Qed.

Lemma refs_after_one b e : refs_after b [e] = 1 + ref_change b e.
Proof. unfold refs_after. cbn. lia. Qed.

Lemma n_sent_app es es' : n_sent (es ++ es') = n_sent es + n_sent es'.
Proof. unfold n_sent. rewrite List.filter_app, length_app. lia. Qed.

Lemma rx_broadcast_shape {D} (ops : sched_ops D) ingress b l : forall w es w',
  rx_broadcast ops ingress b l w = Ok (es, w') ->
  receivers es = l /\ refs_after (rb_buf b) es = 1 /\ (forall a h, EHdr a h ∉ es).
Proof.
  induction l as [|p l IH]; intros w es w' E; cbn [rx_broadcast] in E.
  - injection E as <- <-. split_and!; [done|done|]. by intros a h ?%elem_of_nil.
  - apply res_bind_ok in E as ([ok w1] & _ & E). apply res_bind_ok in E as ([es1 w2] & E2 & E). injection E as <- <-.
    destruct (IH w1 es1 w2 E2) as (H1 & H2 & H3). split_and!.
    + cbn. f_equal. exact H1.
    + unfold refs_after in *. cbn. lia.
    + intros a h [Heq|Hin]%elem_of_cons; [done|by eapply H3].
Qed.

(** C35.  A packet from the network, whatever its destination and whatever the outcome of
    the attempts to send it: it is offered to the client found for a unicast address, to
    each client once for the broadcast address, and to nobody otherwise; in the end its
    buffer has as many references as it has receivers, so that it is freed if there are
    none; and whoever is offered it finds a preamble that was written before, with the
    buffer, its length, its hash and whether the checksum must still be checked. *)
Theorem rx_packet_accounted {D} (ops : sched_ops D) ingress b dst w es w' :
  rx_one_pkt ops ingress b dst w = Ok (es, w') ->
  receivers es = match dst with Unicast (Some p) => [p] | Broadcast => clients w.2 | _ => [] end /\
  refs_after (rb_buf b) es = n_sent es /\
  (receivers es <> [] -> exists h es', es = EHdr (rb_hdr b) h :: es' /\ (forall a h', EHdr a h' ∉ es') /\
     rx_completion h = rb_buf b /\ (0 <= rb_len b < 2 ^ 32 -> rx_len h = rb_len b) /\ rss_hash h = rb_rss b /\
     (csum_type h = CHECKSUM_TYPE_UNNECESSARY <-> rb_csum_good b = true)).
Proof.
  intros E. set (h := rx_prepend_rx_preamble b).
  assert (Hh : rx_completion h = rb_buf b /\ (0 <= rb_len b < 2 ^ 32 -> rx_len h = rb_len b) /\ rss_hash h = rb_rss b /\
    (csum_type h = CHECKSUM_TYPE_UNNECESSARY <-> rb_csum_good b = true)).
  { unfold h. cbn. split_and!; [done| |done|by destruct (rb_csum_good b)]. intros Hl. unfold u32, sizeof_rx_net_hdr.
    rewrite Zminus_mod_idemp_l. rewrite Z.add_simpl_r. by apply Z.mod_small. }
  assert (Hnone : receivers [EFree (rb_buf b)] = [] /\ refs_after (rb_buf b) [EFree (rb_buf b)] = n_sent [EFree (rb_buf b)]).
  { rewrite refs_after_one. cbn. by rewrite Z.eqb_refl. }
  unfold rx_one_pkt in E. fold h in E. clearbody h. destruct dst as [[p|]| |].
  - apply res_bind_ok in E as ([ok w1] & _ & E). injection E as <- <-. split_and!.
    + by destruct ok.
    + destruct ok; unfold refs_after, n_sent; cbn; rewrite ?Z.eqb_refl; done.
    + intros _. eexists _, _. split; [reflexivity|]. split; [|done]. intros a h'. destruct ok; by rewrite !elem_of_cons, elem_of_nil; intros [|[]].
  - injection E as <- <-. destruct Hnone. split_and!; [done|done|]. by intros [].
  - destruct (Nat.ltb_spec 0 (length (clients w.2))) as [_|Hz].
    + apply res_bind_ok in E as ([es1 w1] & E1 & E). injection E as <- <-.
      destruct (rx_broadcast_shape ops ingress b _ w es1 w1 E1) as (H1 & H2 & H3). set (tl := if n_sent es1 =? 0 then _ else _).
      assert (Htl : receivers tl = [] /\ refs_after (rb_buf b) tl = n_sent es1 /\ n_sent tl = 0 /\ forall a h', EHdr a h' ∉ tl).
      { unfold tl. destruct (Z.eqb_spec (n_sent es1) 0) as [E0|E0]; rewrite refs_after_one; cbn; rewrite Z.eqb_refl; split_and!;
          try done; try lia; intros a h' ?%list_elem_of_singleton; done. }
      destruct Htl as (T1 & T2 & T3 & T4). clearbody tl. split_and!.
      * cbn. unfold receivers in *. by rewrite omap_app, H1, T1, app_nil_r.
      * change (EHdr (rb_hdr b) h :: es1 ++ tl) with ([EHdr (rb_hdr b) h] ++ es1 ++ tl).
        rewrite !refs_after_app, !n_sent_app, refs_after_one, H2, T2, T3. cbn. unfold n_sent at 2. cbn. lia.
      * intros _. eexists _, _. split; [reflexivity|]. split; [|done]. intros a h' [Hin|Hin]%elem_of_app; [by eapply H3|by eapply T4].
    + injection E as <- <-. destruct Hnone as [N1 N2]. split_and!; [|done|by rewrite N1].
      rewrite N1. by destruct (clients w.2); cbn in *; [|lia].
  - injection E as <- <-. destruct Hnone. split_and!; [done|done|]. by intros [].
Qed.

(** ** Witnesses

    The machine of IokThms.v with two clients, a pool of 80 buffers and packets both ways;
    a boolean check of what the surroundings keep to. *)

Definition pow2b (n : Z) : bool := existsb (fun k => n =? 2 ^ Z.of_nat k) (seq 0 32).

Lemma pow2b_ok n : pow2b n = true -> pow2 n.
Proof. intros (k & Hk & E)%existsb_exists. apply in_seq in Hk. apply Z.eqb_eq in E. exists (Z.of_nat k). split; [lia|done]. Qed.

Definition chan_okb (c : txchan) (ok : lrpc_msg -> bool) : bool :=
  pow2b (in_size (ch_in c)) && (Z.of_nat (length (tbl (ch_shm c))) =? in_size (ch_in c)) && forallb ok (tbl (ch_shm c)).

Lemma chan_okb_ok c ok : chan_okb c ok = true -> chan_wf c /\ forall msg, msg ∈ tbl (ch_shm c) -> ok msg = true.
Proof.
  unfold chan_okb. intros [[H1%pow2b_ok H2%Z.eqb_eq]%andb_true_iff H3]%andb_true_iff. split; [by split|].
  intros msg Hm. rewrite forallb_forall in H3. apply H3. by apply list_elem_of_In.
Qed.

Definition tx_okb (d : pdata) (c : txchan) : bool :=
  chan_okb c (fun m => (Z.land (msg_cmd m) LRPC_CMD_MASK =? TXPKT_NET_XMIT) &&
    let a := shmptr_to_ptr (region d) (msg_payload m) sizeof_tx_net_hdr in
    negb (a =? 0) && bool_decide (is_Some (page_paddrs d !! Z.to_nat (PGN_2MB (a + sizeof_tx_net_hdr - base (region d)))))).
Definition cmd_okb (c : txchan) : bool := chan_okb c (fun m => Z.land (msg_cmd m) LRPC_CMD_MASK =? TXCMD_NET_COMPLETE).

Lemma tx_okb_ok d c : tx_okb d c = true -> tx_ok d c.
Proof.
  intros [H1 H2]%chan_okb_ok. split; [done|]. intros msg Hm. specialize (H2 msg Hm). cbv zeta in H2. apply andb_true_iff in H2 as [A1%Z.eqb_eq A2].
  apply andb_true_iff in A2 as [A2 A3%bool_decide_eq_true]. split; [done|]. split; [|done]. by apply negb_true_iff, Z.eqb_neq in A2.
Qed.

Lemma cmd_okb_ok c : cmd_okb c = true -> cmd_ok c.
Proof. intros [H1 H2]%chan_okb_ok. split; [done|]. intros msg Hm. by apply Z.eqb_eq, H2. Qed.

Definition rxq_okb (t : thread) : bool :=
  pow2b (out_size (rxq t)) && (Z.of_nat (length (tbl (rxq_shm t))) =? out_size (rxq t)) &&
  (u32 (send_head (rxq t) - recv_head_wb (rxq_shm t)) <=? u32 (send_head (rxq t) - send_tail (rxq t))) &&
  (u32 (send_head (rxq t) - send_tail (rxq t)) <=? out_size (rxq t)).

Lemma rxq_okb_ok t : rxq_okb t = true -> rxq_ok t.
Proof.
  unfold rxq_okb. intros [[[H1%pow2b_ok H2%Z.eqb_eq]%andb_true_iff H3%Z.leb_le]%andb_true_iff H4%Z.leb_le]%andb_true_iff. by split.
Qed.

#[local] Instance teq_dec t t' : Decision (teq t t').
Proof. unfold teq. apply _. Defined.

Definition dp_okb {D} (U : list tref) (ops : sched_ops D) (N : nat) (ingress : shm_region) (o : dop) (m : dmach (D := D)) : bool :=
  let x := d_x m in let s := (dw x).2 in
  match o with
  | DPoll _ _ _ | DRemove _ | DCommands | DDrain => true
  | DAdd p pr pd tx cmd =>
      bool_decide (procs s !! p = None) && bool_decide (p ∉ dom (pdatas x)) && (ref pr =? 1) && bool_decide (0 < thread_count pr <= NCPU)%nat &&
      forallb (fun t => bool_decide (ts_idx t = None)) (threads pr) && forallb (fun i => bool_decide ((p, i) ∈ U)) (seq 0 (thread_count pr)) &&
      forallb rxq_okb (threads pr) && bool_decide (overflow_queue pd = []) && (0 <=? max_overflows pd) &&
      forallb (fun i => match tx !! (p, i) with Some c => tx_okb pd c | None => false end) (seq 0 (thread_count pr)) &&
      forallb (fun i => match cmd !! (p, i) with Some c => cmd_okb c | None => false end) (seq 0 (thread_count pr)) &&
      forallb (fun e => (e.1.1 =? p)%nat) (map_to_list tx) && forallb (fun e => (e.1.1 =? p)%nat) (map_to_list cmd) &&
      bool_decide (length (clients s) < IOKERNEL_MAX_PROC)%nat &&
      match dp_clients_add_client ops p ((dw x).1, set_procs (<[p := pr]> (procs s)) s) with Ok w => bool_decide (p ∈ clients w.2) | Bug => true end
  | DDestroy p => match procs s !! p with Some pr => ref pr =? 0 | None => false end
  | DShm p l => match procs s !! p with Some pr => bool_decide (Forall2 teq (threads pr) l) && forallb rxq_okb l | None => false end
  | DShmTx r sm => match txpktq x !! r, pdatas x !! r.1 with Some c, Some d => tx_okb d (TxChan (ch_in c) sm) | _, _ => false end
  | DShmCmd r sm => match txcmdq x !! r with Some c => cmd_okb (TxChan (ch_in c) sm) | None => false end
  | DRx l => forallb (fun k => match ptr_to_shmptr ingress (rb_hdr k.1) sizeof_rx_net_hdr with Ok _ => true | Bug => false end
                        && match k.2 with Unicast (Some p) => bool_decide (p ∈ clients s) | _ => true end) l
  | DBurst _ a =>
      forallb (fun e => bool_decide (e.1 ∈ clients s)) (map_to_list (procs s)) && bool_decide (NoDup (concat (freed a))) &&
      bool_decide (concat (freed a) ⊆ nic x) && bool_decide (length (nic x) + accepted a + IOKERNEL_TX_BURST_SIZE <= N + length (concat (freed a)))%nat
  | DNicFree l => bool_decide (NoDup l) && bool_decide (l ⊆ nic x)
  end.

Ltac split_andb := repeat match goal with H : _ && _ = true |- _ => apply andb_true_iff in H as [H ?] end.

Lemma forallb_elem {A} (f : A -> bool) l x : forallb f l = true -> x ∈ l -> f x = true.
Proof. rewrite forallb_forall. intros H Hx. apply H. by apply list_elem_of_In. Qed.

Lemma elem_decide {A} (P : A -> Prop) `{!forall x, Decision (P x)} l x : forallb (fun x => bool_decide (P x)) l = true -> x ∈ l -> P x.
Proof. intros Hf Hx. apply (bool_decide_eq_true_1 (P x)). exact (forallb_elem _ _ _ Hf Hx). Qed.

Lemma dp_calmb_ok {D} (x : dplane D) : forallb (fun e => bool_decide (e.1 ∈ clients (dw x).2)) (map_to_list (procs (dw x).2)) = true -> calm x.
Proof.
  intros H r t Ht _ Hc. exfalso. apply Hc. apply th_at_Some in Ht as (pr & Hp & _).
  apply (elem_decide (fun e => e.1 ∈ clients (dw x).2) _ (r.1, pr) H). by apply elem_of_map_to_list.
Qed.

Lemma keys_ok (p : nat) (m : gmap tref txchan) : forallb (fun e => (e.1.1 =? p)%nat) (map_to_list m) = true -> forall r, is_Some (m !! r) -> r.1 = p.
Proof. intros H r [c Hc]. apply Nat.eqb_eq. exact (forallb_elem _ _ (r, c) H (proj2 (elem_of_map_to_list _ _ _) Hc)). Qed.

Lemma each_chan (p n : nat) (m : gmap tref txchan) ok (P : txchan -> Prop) : (forall c, ok c = true -> P c) ->
  forallb (fun i => match m !! (p, i) with Some c => ok c | None => false end) (seq 0 n) = true ->
  forall i, (i < n)%nat -> exists c, m !! (p, i) = Some c /\ P c.
Proof.
  intros HP H i Hi. pose proof (forallb_elem _ _ i H) as Hm. cbn beta in Hm. destruct (m !! (p, i)) as [c|].
  - exists c. split; [done|]. apply HP, Hm. apply elem_of_seq. lia.
  - discriminate Hm. apply elem_of_seq. lia.
Qed.

Lemma dp_okb_ok {D} U (ops : sched_ops D) N ingress o m : dp_okb U ops N ingress o m = true -> dop_ok U any_cfg ops N ingress o m.
Proof.
  unfold dp_okb, dop_ok. destruct o as [now tsc k|p pr pd tx cmd|p|p|p l|r sm|r sm|l| | |hdr_at a|l]; try done; intros H.
  - split_andb. repeat match goal with H : bool_decide _ = true |- _ => apply bool_decide_eq_true in H end.
    split_and!; [done|by apply not_elem_of_dom| |done|].
    + split.
      * split; [lia|lia| |].
        -- intros i t Hi. apply (elem_decide (fun t => ts_idx t = None) (threads pr)); [done|]. by eapply list_elem_of_lookup_2.
        -- intros i Hi. apply (elem_decide (fun i => (p, i) ∈ U) (seq 0 (thread_count pr))); [done|]. apply elem_of_seq. lia.
      * exact I.
      * lia.
      * apply list.Forall_forall. intros t Ht. apply rxq_okb_ok. by apply (forallb_elem rxq_okb (threads pr)).
      * split; [done|lia].
      * by eapply each_chan; [apply tx_okb_ok|].
      * by eapply each_chan; [apply cmd_okb_ok|].
      * intros r [Hx|Hx]; (eapply keys_ok; [|exact Hx]); done.
    + intros w E. match goal with H : context [dp_clients_add_client] |- _ => rewrite E in H; by apply bool_decide_eq_true_1 in H end.
  - destruct (procs _ !! p) as [pr|]; [|done]. cbn. f_equal. lia.
  - destruct (procs _ !! p) as [pr|]; [|done]. apply andb_true_iff in H as [H1%bool_decide_eq_true H2]. exists pr. split_and!; [done|done|].
    apply list.Forall_forall. intros t Ht. apply rxq_okb_ok. by apply (forallb_elem rxq_okb l).
  - destruct (txpktq _ !! r) as [c|]; [|done]. destruct (pdatas _ !! r.1) as [d|] eqn:Ed; [|done]. exists c. split; [done|].
    intros d' [= <-] _. by apply tx_okb_ok.
  - destruct (txcmdq _ !! r) as [c|]; [|done]. exists c. split; [done|]. intros _. by apply cmd_okb_ok.
  - apply list.Forall_forall. intros [b d] Hk. pose proof (forallb_elem _ _ _ H Hk) as X. cbn in X. apply andb_true_iff in X as [X1 X2]. split.
    + unfold rx_fits. cbn. destruct (ptr_to_shmptr _ _ _) as [v|]; [by exists v|done].
    + cbn. intros p ->. by apply bool_decide_eq_true_1 in X2.
  - split_andb. repeat match goal with H : bool_decide _ = true |- _ => apply bool_decide_eq_true in H end.
    split; [by apply dp_calmb_ok|]. by split_and!.
  - split_andb. repeat match goal with H : bool_decide _ = true |- _ => apply bool_decide_eq_true in H end. done.
Qed.

Fixpoint dp_run {D} (T : topo) (U : list tref) (ops : sched_ops D) (cyc : Z) bulk ingress (N : nat) (l : list dop) (m : dmach (D := D)) : option dmach :=
  match l with
  | [] => Some m
  | o :: l =>
      if dp_okb U ops N ingress o m then
        match dexec T ops cyc bulk ingress o m with Ok m' => dp_run T U ops cyc bulk ingress N l m' | Bug => None end
      else None
  end.

Lemma dp_run_reachable {D} T U (ops : sched_ops D) cyc d0 bulk ingress N l : forall m m',
  dp_reachable T U any_cfg ops cyc d0 bulk ingress N m -> dp_run T U ops cyc bulk ingress N l m = Some m' -> dp_reachable T U any_cfg ops cyc d0 bulk ingress N m'.
Proof.
  induction l as [|o l IH]; intros m m' Hm; cbn [dp_run]; [by intros [= <-]|].
  destruct (dp_okb U ops N ingress o m) eqn:Eo; [|done]. destruct (dexec T ops cyc bulk ingress o m) as [m1|] eqn:E; [|done].
  apply IH. eapply dr_step; [exact Hm| |exact E]. by apply dp_okb_ok.
Qed.

Definition wit_region : shm_region := ShmRegion 1073741824 4194304.
Definition wit_ingress : shm_region := ShmRegion 2147483648 2097152.
Definition wit_rx_thread (id : Z) : thread := set_rxq_shm (LrpcShm (replicate 8 (LrpcMsg 0 0)) 0) (wit_thread id).
Definition wit_dproc (mx g : Z) (ids : list Z) : proc :=
  Proc 1 false false (SchedSpec 1 mx g 0 0 0) (replicate NCPU None) (map wit_rx_thread ids) [] [] 0.
Definition wit_pdata : pdata := PData wit_region [8388608; 16777216] 2 [].
Definition wit_chan : txchan := TxChan (LrpcIn 0 8) (LrpcShm (replicate 8 (LrpcMsg 0 4096)) 0).
Definition wit_chans (p n : nat) : gmap tref txchan := list_to_map ((fun i => ((p, i), wit_chan)) <$> seq 0 n).

(** A table with [n] packets in it, and what their headers hold. *)
Definition wit_packets (n : nat) : lrpc_shm :=
  LrpcShm (((fun i => LrpcMsg LRPC_DONE_PARITY (Z.of_nat i * 2048)) <$> seq 0 n) ++ replicate (8 - n) (LrpcMsg 0 4096)) 0.
Definition wit_hdr (a : Z) : tx_net_hdr := TxNetHdr a 60 OLFLAG_IPV4.

(** More packets than the receive queue has room for. *)
Definition wit_flood : list (rx_buf * rx_dst) := replicate 8 (RxBuf 80 2147491840 60 5 true, Unicast (Some 1%nat)).

Definition wit_dp_run : list dop :=
  [DAdd 1 (wit_dproc 3 1 [11; 12; 13]) wit_pdata (wit_chans 1 3) (wit_chans 1 3);
   DAdd 2 (wit_dproc 2 2 [21; 22]) wit_pdata (wit_chans 2 2) (wit_chans 2 2);
   DRx [(RxBuf 77 2147483648 60 5 true, Broadcast); (RxBuf 78 2147487744 60 5 false, Unicast (Some 1%nat))];
   DPoll 10 10 wit_done;
   DShmTx (1, 2)%nat (wit_packets 3); DShmTx (2, 1)%nat (wit_packets 2); DCommands;
   DBurst wit_hdr (NicAnswer [] 4); DNicFree [78]%nat; DRx wit_flood; DNicFree [75; 76]%nat; DBurst wit_hdr (NicAnswer [[77]%nat] 1);
   DDrain; DRemove 2; DNicFree [79]%nat].

Definition wit_exec l : option (dmach (D := simple (F := Z))) :=
  match dp_init wit_ops (simple_init wit_topo) 80 with
  | Ok m => dp_run wit_topo wit_U wit_ops 1 completion_dequeue wit_ingress 80 l m
  | Bug => None
  end.

Definition wit_dm (l : list dop) : dmach (D := simple (F := Z)) := default (Dmach 0 (completion_alloc (simple_init wit_topo) 0)) (wit_exec l).
Abbreviation wit_dp_reachable := (dp_reachable wit_topo wit_U any_cfg wit_ops 1 (simple_init wit_topo) completion_dequeue wit_ingress 80).

Lemma wit_dp_reach l : is_Some (wit_exec l) -> wit_dp_reachable (wit_dm l).
Proof.
  intros [m Hm]. unfold wit_dm. rewrite Hm. cbn [default]. unfold wit_exec in Hm. destruct (dp_init _ _ _) as [m0|] eqn:E0; [|done].
  eapply dp_run_reachable; [|exact Hm]. by constructor.
Qed.

(** The machine is stopped when the flags [wit_idle] say that the cores are idle. *)
Definition wit_idle : kreport := KReport (fun _ => true) (fun _ => true).

(** A process with a kthread that runs, has read its message and has two packets ... *)
Definition wit_active_run : list dop :=
  [DAdd 2 (wit_dproc 2 2 [21; 22]) wit_pdata (wit_chans 2 2) (wit_chans 2 2);
   DRx [(RxBuf 78 2147487744 60 5 false, Unicast (Some 2%nat))]; DPoll 10 10 wit_done; DShmTx (2, 1)%nat (wit_packets 2)].
Definition wit_threads : list thread :=
  match procs (dw (d_x (wit_dm wit_active_run))).2 !! 2%nat with Some pr => (fun t => set_txpktq_empty false (set_rxq_shm (LrpcShm (tbl (rxq_shm t)) (send_head (rxq t))) t)) <$> threads pr | None => [] end.
(** ... which is removed and then loses its core. *)
Definition wit_removed_run : list dop := wit_active_run ++ [DShm 2 wit_threads; DRemove 2; DPoll 20 20 wit_idle].

(** The condition [calm] is needed: the packets at that kthread are pulled, the kthread is
    found without more and given up, the process is released, and then its packets are
    prepared. *)
Lemma tx_removed_process_fault :
  let m := wit_dm wit_removed_run in
  wit_dp_reachable m /\ answer_ok 80 (NicAnswer [] 0) (d_x m) /\
  dexec wit_topo wit_ops 1 completion_dequeue wit_ingress (DBurst wit_hdr (NicAnswer [] 0)) m = Bug.
Proof.
  intros m. split; [apply wit_dp_reach; vm_compute; by eexists|]. split; [|vm_compute; reflexivity].
  split; [constructor|]. split; [by intros b ?%elem_of_nil|].
  apply (bool_decide_eq_true_1 (_ <= _)%nat). vm_compute. reflexivity.
Qed.

(** A burst that gets no buffers keeps the number of packets, but not their headers. *)
Lemma tx_no_buffers_fault :
  let m := wit_dm wit_active_run in let burst f := dexec wit_topo wit_ops 1 f wit_ingress (DBurst wit_hdr (NicAnswer [] 0)) in
  wit_dp_reachable m /\ match burst (fun _ _ => None) m with Ok m' => burst completion_dequeue m' = Bug | Bug => False end.
Proof. split; [apply wit_dp_reach; vm_compute; by eexists|vm_compute; reflexivity]. Qed.

Abbreviation wit_m := (wit_dm wit_dp_run).

Lemma wit_bulk : forall stack n, completion_dequeue stack n = completion_dequeue stack n.
Proof. done. Qed.

Lemma wit_pool : (IOKERNEL_TX_BURST_SIZE <= 80)%nat.
Proof. unfold IOKERNEL_TX_BURST_SIZE. lia. Qed.

Lemma wit_dp_reach_run : wit_dp_reachable wit_m.
Proof. apply wit_dp_reach. vm_compute. by eexists. Qed.

Definition wit_m8 : dmach (D := simple (F := Z)) := wit_dm (take 8 wit_dp_run).

Lemma wit_dp_reach_8 : wit_dp_reachable wit_m8.
Proof. apply wit_dp_reach. vm_compute. by eexists. Qed.




(** A broadcast packet with room for it at one client only. *)
Lemma rx_packet_accounted_witness :
  let b := RxBuf 99 2147495936 60 5 true in
  exists es w', rx_one_pkt wit_ops wit_ingress b Broadcast (dw (d_x (wit_dm (take 10 wit_dp_run)))) = Ok (es, w') /\
    receivers es = [1; 2]%nat /\ n_sent es = 1 /\ refs_after 99 es = 1.
Proof.
  intros b. destruct (rx_one_pkt wit_ops wit_ingress b Broadcast (dw (d_x (wit_dm (take 10 wit_dp_run))))) as [[es w']|] eqn:E.
  - exists es, w'. destruct (rx_packet_accounted wit_ops wit_ingress b Broadcast _ es w' E) as (H1 & H2 & _).
    assert (Hn : n_sent es = 1).
    { transitivity (match rx_one_pkt wit_ops wit_ingress b Broadcast (dw (d_x (wit_dm (take 10 wit_dp_run)))) with Ok r => n_sent r.1 | Bug => 0 end).
      - rewrite E. reflexivity.
      - vm_compute. reflexivity. }
    split; [reflexivity|]. split; [rewrite H1; vm_compute; reflexivity|]. split; [exact Hn|]. cbn in H2. rewrite H2. exact Hn.
  - exfalso. apply (f_equal (fun r => match r with Ok _ => true | Bug => false end)) in E. revert E. vm_compute. congruence.
Defined.
