(* ===== verification/IokNuma.v ===== *)
(** * iokernel/numa.c: the NUMA-aware scheduling policy *)

From S2P Require Import Prelude Stddef Lrpc IokState IokSched IokSimple.

Definition NRECENT : nat := 4.

Module Numa.
Section numa.
Context (T : topo).

(** [socket_state[].cores], the number of sockets, and the option to leave
    hyperthreads alone. *)
Context (socket_state : list (gset nat)) (numa_count : nat) (noht : bool).

Record numa_data := NumaData {
  is_congested : bool;
  waking : bool;
  threads_guaranteed : Z;
  threads_max : Z;
  threads_active : Z;
  preferred_socket : Z;
  recent_cores : list nat;
}.

Definition set_congested (v : bool) (d : numa_data) : numa_data :=
  NumaData v (waking d) (threads_guaranteed d) (threads_max d) (threads_active d) (preferred_socket d) (recent_cores d).
Definition set_waking (v : bool) (d : numa_data) : numa_data :=
  NumaData (is_congested d) v (threads_guaranteed d) (threads_max d) (threads_active d) (preferred_socket d) (recent_cores d).
Definition set_threads_active (v : Z) (d : numa_data) : numa_data :=
  NumaData (is_congested d) (waking d) (threads_guaranteed d) (threads_max d) v (preferred_socket d) (recent_cores d).
Definition set_recent_cores (v : list nat) (d : numa_data) : numa_data :=
  NumaData (is_congested d) (waking d) (threads_guaranteed d) (threads_max d) (threads_active d) (preferred_socket d) v.

(** The policy's variables; [numa_data] structs are named by their process. *)
Record numa := MkNuma {
  sds : gmap nat numa_data;
  congested_procs : list nat;
  numa_idle_cores : gset nat;
  run_on : list (option nat);            (* cores[] *)
  hist : list (list (option nat));
}.

Definition set_sds v (d : numa) := MkNuma v (congested_procs d) (numa_idle_cores d) (run_on d) (hist d).
Definition set_congested_procs v (d : numa) := MkNuma (sds d) v (numa_idle_cores d) (run_on d) (hist d).
Definition set_numa_idle_cores v (d : numa) := MkNuma (sds d) (congested_procs d) v (run_on d) (hist d).
Definition set_run_on v (d : numa) := MkNuma (sds d) (congested_procs d) (numa_idle_cores d) v (hist d).
Definition set_hist v (d : numa) := MkNuma (sds d) (congested_procs d) (numa_idle_cores d) (run_on d) v.

Definition get_sd (p : nat) (d : numa) : res numa_data :=
  match sds d !! p with Some sd => Ok sd | None => Bug end.
Definition upd_sd (p : nat) (f : numa_data -> numa_data) (d : numa) : numa := set_sds (alter f p (sds d)) d.
Definition get_run_on (c : nat) (d : numa) : res (option nat) :=
  match run_on d !! c with Some x => Ok x | None => Bug end.
Definition get_hist (c : nat) (d : numa) : res (list (option nat)) :=
  match hist d !! c with Some x => Ok x | None => Bug end.

Definition numa_proc_is_preemptible (cur next : numa_data) : bool :=
  (threads_guaranteed cur <? threads_active cur) && (threads_active next <? threads_guaranteed next).

Definition numa_cleanup_core (c : nat) (d : numa) : res numa :=
  sd ← get_run_on c d;
  match sd with
  | None => Ok d
  | Some p =>
      x ← get_sd p d;
      let d := upd_sd p (set_threads_active (threads_active x - 1)) d in
      let d := set_run_on (<[c := None]> (run_on d)) d in
      h ← get_hist c d;
      let d := set_hist (<[c := Some p :: take (NHIST - 1) h]> (hist d)) d in
      Ok (upd_sd p (set_recent_cores (c :: take (NRECENT - 1) (recent_cores x))) d)
  end.

Definition numa_mark_congested (p : nat) (d : numa) : res numa :=
  x ← get_sd p d;
  if is_congested x then Ok d
  else Ok (set_congested_procs (p :: congested_procs d) (upd_sd p (set_congested true) d)).

Definition numa_unmark_congested (p : nat) (d : numa) : res numa :=
  x ← get_sd p d;
  if negb (is_congested x) then Ok d
  else Ok (set_congested_procs (filter (fun q => q <> p) (congested_procs d)) (upd_sd p (set_congested false) d)).

(** The limits and the socket are converted to [int]; an empty [sched_cores_tbl] is zeroed. *)
Definition numa_attach (malloc_ok : bool) (p : nat) (cfg : sched_spec) (w : numa * sched) : res (Z * (numa * sched)) :=
  if negb malloc_ok then Ok (- ENOMEM, w)
  else
    let sd := NumaData false false (s32 (guaranteed_cores cfg)) (s32 (max_cores cfg)) 0 (s32 (IokState.preferred_socket cfg))
      (replicate NRECENT (default O (list.head (sched_cores_tbl T)))) in
    Ok (0, (set_sds (<[p := sd]> (sds w.1)) w.1, w.2)).

Definition numa_detach (p : nat) (w : numa * sched) : res (numa * sched) :=
  d ← numa_unmark_congested p w.1;
  let d := set_run_on (map (forget p) (run_on d)) d in
  let d := set_hist (map (map (forget p)) (hist d)) d in
  Ok (set_sds (delete p (sds d)) d, w.2).

Definition numa_run_kthread_on_core (p c : nat) (w : numa * sched) : res (Z * (numa * sched)) :=
  pr ← get_proc p w.2;
  if sched_threads_avail pr =? 0 then Ok (- EBUSY, w)
  else
    '(ret, s) ← sched_run_on_core T p c w.2;
    if negb (ret =? 0) then Ok (ret, (w.1, s))
    else
      d ← numa_cleanup_core c w.1;
      let d := set_run_on (<[c := Some p]> (run_on d)) d in
      let d := set_numa_idle_cores (numa_idle_cores d ∖ {[c]}) d in
      x ← get_sd p d;
      Ok (0, (upd_sd p (set_threads_active (threads_active x + 1)) d, s)).

(** [bitmap_test] on a bitmap of NCPU bits. *)
Definition bit_test (bits : gset nat) (c : nat) : res bool :=
  if (c <? NCPU)%nat then Ok (bool_decide (c ∈ bits)) else Bug.

(** Core [c] runs another process, or none, and [p] may take it. *)
Definition takeable (p c : nat) (d : numa) : res bool :=
  cur ← get_run_on c d;
  match cur with
  | None => Ok true
  | Some q =>
      if bool_decide (q = p) then Ok false
      else y ← get_sd q d; x ← get_sd p d; Ok (numa_proc_is_preemptible y x)
  end.

(** A recently used core of the subset, or its sibling. *)
Fixpoint choose_recent (p : nat) (bits : gset nat) (l : list nat) (d : numa) : res (option nat) :=
  match l with
  | [] => Ok None
  | c :: l =>
      b ← bit_test bits c;
      if negb b then choose_recent p bits l d
      else
        b ← takeable p c d;
        if (b : bool) then Ok (Some c)
        else
          let sib := sched_siblings T c in
          b ← bit_test bits sib;
          if negb b then choose_recent p bits l d
          else
            b ← takeable p sib d;
            if (b : bool) then Ok (Some sib) else choose_recent p bits l d
  end.

(** A core of the subset that can be preempted. *)
Fixpoint choose_preempt (p : nat) (l : list nat) (d : numa) : res (option nat) :=
  match l with
  | [] => Ok None
  | c :: l =>
      cur ← get_run_on c d;
      match cur with
      | None => choose_preempt p l d
      | Some _ => b ← takeable p c d; if (b : bool) then Ok (Some c) else choose_preempt p l d
      end
  end.

Definition numa_choose_core_in_subset (p : nat) (core_subset : gset nat) (d : numa) : res (option nat) :=
  x ← get_sd p d;
  r ← choose_recent p core_subset (recent_cores x) d;
  match r with
  | Some c => Ok (Some c)
  | None =>
      match first_set (numa_idle_cores d ∩ core_subset) with
      | Some c => Ok (Some c)
      | None => choose_preempt p (filter (fun c => c ∈ core_subset) (seq 0 NCPU)) d
      end
  end.

(** The hyperthread of a core that runs [p]. *)
Fixpoint choose_sibling (p : nat) (l : list nat) (d : numa) : res (option nat) :=
  match l with
  | [] => Ok None
  | c :: l =>
      cur ← get_run_on c d;
      if negb (bool_decide (cur = Some p)) then choose_sibling p l d
      else
        let sib := sched_siblings T c in
        b ← takeable p sib d;
        if (b : bool) then Ok (Some sib) else choose_sibling p l d
  end.

(** [socket_state[i].cores] *)
Definition socket_cores (i : Z) : res (gset nat) :=
  if i <? 0 then Bug
  else match socket_state !! Z.to_nat i with Some b => Ok b | None => Bug end.

Definition numa_choose_core (p : nat) (d : numa) : res (option nat) :=
  r ← (if noht then Ok None else choose_sibling p (sched_cores_tbl T) d);
  match r with
  | Some c => Ok (Some c)
  | None =>
      x ← get_sd p d;
      bits ← socket_cores (preferred_socket x);
      r ← numa_choose_core_in_subset p (sched_allowed_cores T ∩ bits) d;
      match r with
      | Some c => Ok (Some c)
      | None =>
          if (1 <? numa_count)%nat then numa_choose_core_in_subset p (sched_allowed_cores T) d else Ok None
      end
  end.

Definition numa_add_kthread (p : nat) (w : numa * sched) : res (Z * (numa * sched)) :=
  x ← get_sd p w.1;
  if threads_max x <=? threads_active x then Ok (- ENOENT, w)
  else
    c ← numa_choose_core p w.1;
    match c with
    | None => Ok (- ENOENT, w)
    | Some c => numa_run_kthread_on_core p c w
    end.

Definition numa_notify_core_needed (p : nat) (w : numa * sched) : res (Z * (numa * sched)) := numa_add_kthread p w.

Definition numa_notify_congested (p : nat) (ths io : gset nat) (w : numa * sched) : res (numa * sched) :=
  x ← get_sd p w.1;
  if waking x then Ok (upd_sd p (set_waking false) w.1, w.2)
  else if (size ths + size io =? 0)%nat then d ← numa_unmark_congested p w.1; Ok (d, w.2)
  else if is_congested x then Ok w
  else
    '(ret, w) ← numa_add_kthread p w;
    if ret =? 0 then Ok w else d ← numa_mark_congested p w.1; Ok (d, w.2).

(** [sd && sd->is_congested] *)
Definition wants (x : option nat) (d : numa) : res bool :=
  match x with None => Ok false | Some p => sd ← get_sd p d; Ok (is_congested sd) end.

(** The first candidate that wants a core. *)
Fixpoint first_wants (l : list (option nat)) (d : numa) : res (option nat) :=
  match l with
  | [] => Ok None
  | x :: l => b ← wants x d; if (b : bool) then Ok x else first_wants l d
  end.

Definition numa_choose_kthread (c : nat) (d : numa) : res (option nat) :=
  let sib := sched_siblings T c in
  x ← get_run_on sib d;
  h1 ← get_hist c d;
  h2 ← get_hist sib d;
  r ← first_wants (x :: interleave h1 h2) d;
  match r with Some p => Ok (Some p) | None => Ok (list.head (congested_procs d)) end.

(** One core that went idle. *)
Definition numa_poll_core (c : nat) (w : numa * sched) : res (numa * sched) :=
  cur ← get_run_on c w.1;
  d ← match cur with None => Ok w.1 | Some p => numa_unmark_congested p w.1 end;
  d ← numa_cleanup_core c d;
  r ← numa_choose_kthread c d;
  match r with
  | None => Ok (set_numa_idle_cores ({[c]} ∪ numa_idle_cores d) d, w.2)
  | Some p =>
      '(ret, w) ← numa_run_kthread_on_core p c (d, w.2);
      if ret =? 0 then Ok w
      else
        d ← numa_mark_congested p (set_numa_idle_cores ({[c]} ∪ numa_idle_cores w.1) w.1);
        Ok (d, w.2)
  end.

Fixpoint numa_poll_cores (l : list nat) (w : numa * sched) : res (numa * sched) :=
  match l with [] => Ok w | c :: l => w ← numa_poll_core c w; numa_poll_cores l w end.

Definition numa_sched_poll (now : Z) (idle_cnt : nat) (bits : gset nat) (w : numa * sched) : res (numa * sched) :=
  if (idle_cnt =? 0)%nat then Ok w else numa_poll_cores (filter (fun c => c ∈ bits) (seq 0 NCPU)) w.

Definition numa_ops (malloc_ok : bool) : sched_ops numa :=
  SchedOps _ (numa_attach malloc_ok) numa_detach numa_notify_congested numa_notify_core_needed numa_sched_poll.

(** [numa_init], on zeroed memory. *)
Definition numa_init : numa :=
  MkNuma ∅ [] (sched_allowed_cores T) (replicate NCPU None) (replicate NCPU (replicate NHIST None)).
End numa.
End Numa.
