(* ===== verification/IokNumaInv.v ===== *)
(** * The NUMA policy keeps its promises

    Its books are those of the simple policy: [proj] maps its state to one of the simple
    policy, the common operations commute with it, and the invariant is that of the
    simple policy on the projection, plus what the new fields hold. *)

From S2P Require Import Prelude Stddef Page Lrpc IokState IokSched IokInv IokBase IokCores IokPoll IokMach IokSimple IokSimpleInv IokThms IokFrame IokNuma.

(** ** The projection *)

Definition proj_data (x : Numa.numa_data) : simple_data (F := unit) :=
  SimpleData (Numa.is_congested x) (Numa.threads_guaranteed x) (Numa.threads_max x) (Numa.threads_active x) tt 0 (Numa.waking x).

Definition proj (d : Numa.numa) : simple (F := unit) :=
  Simple (proj_data <$> Numa.sds d) (Numa.congested_procs d) (Numa.numa_idle_cores d) (Numa.run_on d) (Numa.hist d).

Lemma proj_upd p f g d :
  (forall x, proj_data (f x) = g (proj_data x)) -> proj (Numa.upd_sd p f d) = upd_sd p g (proj d).
Proof.
  intros H. unfold proj, upd_sd, set_sds. cbn. f_equal. apply map_eq. intros q. rewrite lookup_fmap.
  destruct (decide (q = p)) as [->|]; [|by rewrite !lookup_alter_ne, lookup_fmap].
  rewrite !lookup_alter_eq, lookup_fmap. destruct (Numa.sds d !! p); cbn; [by rewrite H|done].
Qed.

Lemma proj_get_sd p d x : get_sd p (proj d) = Ok x -> exists y, Numa.get_sd p d = Ok y /\ x = proj_data y /\ Numa.sds d !! p = Some y.
Proof.
  unfold get_sd, Numa.get_sd. cbn. rewrite lookup_fmap. destruct (Numa.sds d !! p) as [y|]; [|done]. cbn. intros [= <-]. by exists y.
Qed.

Lemma proj_mark p d e :
  simple_mark_congested p (proj d) = Ok e -> exists d', Numa.numa_mark_congested p d = Ok d' /\ proj d' = e.
Proof.
  unfold simple_mark_congested, Numa.numa_mark_congested. intros (x & (y & -> & -> & _)%proj_get_sd & H)%res_bind_ok. cbn [mbind res_bind].
  cbn in H. destruct (Numa.is_congested y); injection H as <-; [by exists d|]. eexists. split; [reflexivity|].
  unfold set_congested_procs. rewrite <- (proj_upd p (Numa.set_congested true)) by done. done.
Qed.

Lemma proj_unmark p d e :
  simple_unmark_congested p (proj d) = Ok e -> exists d', Numa.numa_unmark_congested p d = Ok d' /\ proj d' = e.
Proof.
  unfold simple_unmark_congested, Numa.numa_unmark_congested. intros (x & (y & -> & -> & _)%proj_get_sd & H)%res_bind_ok. cbn [mbind res_bind].
  cbn in H. destruct (Numa.is_congested y); injection H as <-; [|by exists d]. eexists. split; [reflexivity|].
  unfold set_congested_procs. rewrite <- (proj_upd p (Numa.set_congested false)) by done. done.
Qed.

Lemma proj_cleanup c d e :
  simple_cleanup_core c (proj d) = Ok e -> exists d', Numa.numa_cleanup_core c d = Ok d' /\ proj d' = e.
Proof.
  unfold simple_cleanup_core, Numa.numa_cleanup_core, get_run_on, Numa.get_run_on. cbn [run_on proj].
  destruct (Numa.run_on d !! c) as [[p|]|]; cbn [mbind res_bind]; [|intros [= <-]; by exists d|done].
  intros (x & (y & -> & -> & _)%proj_get_sd & H)%res_bind_ok. cbn [mbind res_bind]. unfold get_hist, Numa.get_hist in *.
  cbn in H |- *. destruct (Numa.hist d !! c) as [h|]; [|done]. cbn in H |- *. injection H as <-. eexists. split; [reflexivity|].
  rewrite (proj_upd _ _ (fun x => x)) by done.
  unfold proj, upd_sd, set_sds, set_run_on, set_hist. cbn. f_equal. rewrite alter_id by done.
  apply (f_equal sds (proj_upd p (Numa.set_threads_active (Numa.threads_active y - 1)) (set_threads_active (Numa.threads_active y - 1)) d (fun x => eq_refl))).
Qed.

Lemma proj_detach p d s e :
  simple_detach p (proj d, s) = Ok (e, s) -> exists d', Numa.numa_detach p (d, s) = Ok (d', s) /\ proj d' = e.
Proof.
  unfold simple_detach, Numa.numa_detach. cbn [fst snd]. intros (x & (d1 & -> & <-)%proj_unmark & H)%res_bind_ok. cbn [mbind res_bind].
  injection H as <-. eexists. split; [reflexivity|]. unfold proj, set_sds. cbn. by rewrite fmap_delete.
Qed.

(** ** The invariant *)

(** The data of a process: a socket that exists and cores that exist. *)
Record data_ok (x : Numa.numa_data) : Prop := {
  do_socket : 0 <= Numa.preferred_socket x < NNUMA;
  do_recent : forall c, c ∈ Numa.recent_cores x -> (c < NCPU)%nat;
}.

Definition datas_ok (d : Numa.numa) : Prop := forall p x, Numa.sds d !! p = Some x -> data_ok x.

(** The configurations the policy can use. *)
Definition numa_cfg (c : sched_spec) : Prop := 0 <= preferred_socket c < NNUMA.

Lemma datas_upd p f d : (forall x, Numa.sds d !! p = Some x -> data_ok x -> data_ok (f x)) -> datas_ok d -> datas_ok (Numa.upd_sd p f d).
Proof.
  intros Hf H q x. cbn. destruct (decide (q = p)) as [->|]; [|rewrite lookup_alter_ne by done; apply H].
  rewrite lookup_alter_eq. intros (y & Hy & ->)%fmap_Some. apply Hf; [done|]. by eapply H.
Qed.

(** Functions that keep the new fields. *)
Definition keeps_data (f : Numa.numa_data -> Numa.numa_data) : Prop :=
  forall x, Numa.preferred_socket (f x) = Numa.preferred_socket x /\ Numa.recent_cores (f x) = Numa.recent_cores x.

Lemma keeps_ok f x : keeps_data f -> data_ok x -> data_ok (f x).
Proof. intros H [H1 H2]. destruct (H x) as [E1 E2]. split; by rewrite ?E1, ?E2. Qed.

Lemma datas_keep p f d : keeps_data f -> datas_ok d -> datas_ok (Numa.upd_sd p f d).
Proof. intros H. apply datas_upd. intros x _. by apply keeps_ok. Qed.

Lemma datas_mark p d d' : Numa.numa_mark_congested p d = Ok d' -> datas_ok d -> datas_ok d'.
Proof.
  unfold Numa.numa_mark_congested. intros (x & _ & H)%res_bind_ok. destruct (Numa.is_congested x); injection H as <-; [done|].
  by apply (datas_keep p (Numa.set_congested true)).
Qed.

Lemma datas_unmark p d d' : Numa.numa_unmark_congested p d = Ok d' -> datas_ok d -> datas_ok d'.
Proof.
  unfold Numa.numa_unmark_congested. intros (x & _ & H)%res_bind_ok. destruct (Numa.is_congested x); injection H as <-; [|done].
  by apply (datas_keep p (Numa.set_congested false)).
Qed.

Lemma datas_cleanup c d d' : (c < NCPU)%nat -> Numa.numa_cleanup_core c d = Ok d' -> datas_ok d -> datas_ok d'.
Proof.
  intros Hc. unfold Numa.numa_cleanup_core. intros ([p|] & _ & H)%res_bind_ok Hd; [|by injection H as <-].
  apply res_bind_ok in H as (x & Hx & H). apply res_bind_ok in H as (h & _ & H). injection H as <-.
  assert (Hx' : data_ok x) by (unfold Numa.get_sd in Hx; destruct (Numa.sds d !! p) as [x'|] eqn:E; [injection Hx as <-; by eapply Hd|done]).
  apply datas_upd; [|by apply (datas_keep p (Numa.set_threads_active _))].
  intros y _ [H1 H2]. split; [done|]. cbn. intros c'. rewrite elem_of_cons. intros [->|(j & Hj & _)%elem_of_take]; [done|].
  apply (do_recent x Hx'). by eapply list_elem_of_lookup_2.
Qed.

Section inv.
Context (T : topo) (HT : topo_ok T) (U : list tref).
Context (socket_state : list (gset nat)) (numa_count : nat) (noht : bool) (Hsock : Z.of_nat (length socket_state) = NNUMA).
Abbreviation A := (sched_allowed_cores T).

Record numa_inv (d : Numa.numa) (X : gset nat) : Prop := {
  nu_books : simple_inv T (proj d) X;
  nu_data : datas_ok d;
}.

Lemma numa_sd d X p : numa_inv d X -> p ∈ X ->
  exists x, Numa.sds d !! p = Some x /\ Numa.get_sd p d = Ok x /\ data_ok x /\ sds (proj d) !! p = Some (proj_data x).
Proof.
  intros [H1 H2] Hp. destruct (get_sd_ok T (proj d) X p H1 Hp) as (x & Hx & E). apply proj_get_sd in E as (y & Ey & -> & Hy).
  exists y. split_and!; auto. by eapply H2.
Qed.

Lemma mark_numa d X p : numa_inv d X -> p ∈ X ->
  exists d', Numa.numa_mark_congested p d = Ok d' /\ numa_inv d' X /\ Numa.run_on d' = Numa.run_on d /\ same_limits (proj d) (proj d').
Proof.
  intros [H1 H2] Hp. destruct (mark_ok T (proj d) X p H1 Hp) as (e & E & H & R & L).
  apply proj_mark in E as (d' & E & <-). exists d'. split_and!; auto. split; [done|]. by eapply datas_mark.
Qed.

Lemma unmark_numa d X p : numa_inv d X -> p ∈ X ->
  exists d', Numa.numa_unmark_congested p d = Ok d' /\ numa_inv d' X /\ Numa.run_on d' = Numa.run_on d /\ same_limits (proj d) (proj d').
Proof.
  intros [H1 H2] Hp. destruct (unmark_ok T (proj d) X p H1 Hp) as (e & E & H & R & L & _).
  apply proj_unmark in E as (d' & E & <-). exists d'. split_and!; auto. split; [done|]. by eapply datas_unmark.
Qed.

Lemma cleanup_numa d X c : numa_inv d X -> (c < NCPU)%nat ->
  exists d', Numa.numa_cleanup_core c d = Ok d' /\ numa_inv d' X /\ Numa.run_on d' = <[c := None]> (Numa.run_on d) /\
    same_limits (proj d) (proj d') /\ Numa.numa_idle_cores d' = Numa.numa_idle_cores d.
Proof.
  intros [H1 H2] Hc. destruct (cleanup_ok T (proj d) X c H1 Hc) as (e & E & H & R & L & I & _).
  apply proj_cleanup in E as (d' & E & <-). exists d'. split_and!; auto. split; [done|]. by eapply datas_cleanup.
Qed.

Lemma attach_numa d X s m p cfg : numa_cfg cfg -> numa_inv d X -> p ∉ X ->
  exists ret d', Numa.numa_attach T m p cfg (d, s) = Ok (ret, (d', s)) /\ numa_inv d' (if ret =? 0 then {[p]} ∪ X else X).
Proof.
  intros Hcfg [H1 H2] Hp. unfold Numa.numa_attach. destruct m; cbn [negb]; [|by exists (- ENOMEM), d].
  destruct (attach_ok T tt (proj d) X s true p cfg H1 Hp) as (ret & e & E & H). injection E as <- <-.
  assert (Hrec : forall c, c ∈ replicate NRECENT (default O (list.head (sched_cores_tbl T))) -> (c < NCPU)%nat).
  { intros c [-> _]%elem_of_replicate. destruct (sched_cores_tbl T) as [|c0 l] eqn:E0; cbn; [unfold NCPU; lia|].
    apply (tk_range T HT), (tk_tbl T HT). rewrite E0. by left. }
  eexists 0, _. split; [reflexivity|]. split.
  - unfold proj. cbn [Numa.set_sds Numa.sds Numa.congested_procs Numa.numa_idle_cores Numa.run_on Numa.hist fst]. rewrite fmap_insert. exact H.
  - intros q x. cbn [fst Numa.sds Numa.set_sds]. destruct (decide (q = p)) as [->|]; [|rewrite lookup_insert_ne by done; apply H2].
    rewrite lookup_insert_eq. intros [= <-]. split; cbn [Numa.preferred_socket Numa.recent_cores].
    + unfold numa_cfg, NNUMA in *. unfold s32, u32, M32. rewrite Z.mod_small by lia. destruct (Z.ltb_spec (preferred_socket cfg) 2147483648); lia.
    + exact Hrec.
Qed.

Lemma detach_numa d X s p : numa_inv d X -> p ∈ X ->
  exists d', Numa.numa_detach p (d, s) = Ok (d', s) /\ numa_inv d' (X ∖ {[p]}).
Proof.
  intros [H1 H2] Hp. destruct (detach_ok T HT (proj d) X s p H1 Hp) as (e & E & H).
  apply proj_detach in E as (d' & E & <-). exists d'. split_and!; auto. split; [done|].
  unfold Numa.numa_detach in E. apply res_bind_ok in E as (d1 & Hu & E). injection E as <-.
  intros q x. cbn. rewrite lookup_delete_Some. intros [_ Hq]. by eapply datas_unmark.
Qed.

(** ** Running a kthread *)

Lemma run_on_core_refused p pr c s :
  procs s !! p = Some pr -> c ∉ A -> sched_run_on_core T p c s = Ok (- EINVAL, s).
Proof.
  intros Hp Hc. unfold sched_run_on_core, get_proc. rewrite Hp. cbn [mbind res_bind].
  by rewrite (bool_decide_eq_true_2 (c ∉ A)), orb_true_r by done.
Qed.

(** A core that may not be used is refused, and nothing has changed. *)
Lemma run_kthread_numa G d s p c :
  sched_inv T G U s -> numa_inv d (cl s) -> p ∈ clients s -> (c < NCPU)%nat ->
  exists ret d' s', Numa.numa_run_kthread_on_core T p c (d, s) = Ok (ret, (d', s')) /\ runs T U G s s' /\ numa_inv d' (cl s') /\
    same_limits (proj d) (proj d') /\
    (ret = 0 /\ c ∈ A /\ Numa.run_on d' = <[c := Some p]> (Numa.run_on d) \/
     ret <> 0 /\ d' = d /\ s' = s /\ (sched_threads_avail <$> procs s !! p = Some 0 \/ (c ∉ A))).
Proof.
  intros Hs Hd Hp Hc. destruct (sv_clients _ _ _ _ Hs p Hp) as [[pr Hpr] Hg].
  unfold Numa.numa_run_kthread_on_core. cbn [fst snd]. unfold get_proc at 1. rewrite Hpr. cbn [mbind res_bind].
  destruct (Z.eqb_spec (sched_threads_avail pr) 0) as [Ez|Ez].
  { exists (- EBUSY), d, s. split_and!; auto; [by apply runs_refl|done|]. right. split_and!; auto. left. cbn. by rewrite Ez. }
  destruct (decide (c ∈ A)) as [Ha|Ha].
  2: { rewrite (run_on_core_refused p pr c s Hpr Ha). cbn. exists (- EINVAL), d, s. split_and!; auto; [by apply runs_refl|done|].
       right. split_and!; auto. }
  destruct (sched_run_on_core_ok T HT U G s p pr c Hs Hpr Hg) as (ret & s' & -> & R & _ & H0). cbn [mbind res_bind].
  rewrite (H0 (avail_idle T U s G p pr Hs Hpr Ez) Ha). cbn [Z.eqb negb].
  destruct (cleanup_numa d (cl s) c Hd Hc) as (d1 & -> & Hd1 & E1 & L1 & I1). cbn [mbind res_bind].
  destruct (numa_sd d1 (cl s) p Hd1 (cl_elem s p Hp)) as (x & Hx & _ & Hok & Hpx).
  unfold Numa.get_sd. cbn [Numa.sds Numa.set_numa_idle_cores Numa.set_run_on]. rewrite Hx. cbn [mbind res_bind].
  set (f := Numa.set_threads_active (Numa.threads_active x + 1)). set (g := set_threads_active (F := unit) (Numa.threads_active x + 1)).
  eexists 0, _, s'. split; [reflexivity|]. split; [done|]. rewrite (cl_runs T U G s s' R). split_and!.
  - split; [|by apply (datas_keep p f); [|apply (nu_data _ _ Hd1)]]. rewrite (proj_upd p f g) by done.
    refine (place_ok T (proj d1) (cl s) c p (proj_data x) g (nu_books _ _ Hd1) _ Hpx eq_refl eq_refl).
    cbn. rewrite E1. apply list_lookup_insert_eq. by rewrite (sm_len _ _ _ (nu_books _ _ Hd) : length (Numa.run_on d) = NCPU).
  - intros q. rewrite <- L1, (proj_upd p f g) by done.
    apply (alter_limits g p (set_simple_idle_cores (Numa.numa_idle_cores d1 ∖ {[c]}) (set_run_on (<[c := Some p]> (Numa.run_on d1)) (proj d1)))).
    done.
  - left. split_and!; [done..|]. cbn. rewrite E1. by rewrite list_insert_insert_eq.
Qed.

(** ** Choosing a core *)

Abbreviation may d p c := (may_take p c (proj d)).

Lemma takeable_numa d X p c :
  numa_inv d X -> p ∈ X -> (c < NCPU)%nat -> exists b, Numa.takeable p c d = Ok b /\ (b = true -> may d p c).
Proof.
  intros H Hp Hc. destruct (get_run_on_ok T (proj d) X c (nu_books _ _ H) Hc) as (cur & Hr & E).
  unfold Numa.takeable. change (get_run_on c (proj d)) with (Numa.get_run_on c d) in E. rewrite E. cbn [mbind res_bind].
  destruct cur as [q|]; [|exists true; split; [done|]; intros _; by left].
  destruct (bool_decide (q = p)) eqn:Eq; [by exists false|]. apply bool_decide_eq_false in Eq.
  destruct (numa_sd d X q H (sm_run _ _ _ (nu_books _ _ H) c q Hr)) as (y & Hy & -> & _ & Hy').
  destruct (numa_sd d X p H Hp) as (x & Hx & -> & _ & Hx'). cbn [mbind res_bind].
  eexists. split; [reflexivity|]. unfold Numa.numa_proc_is_preemptible. intros Hb. bprop. right.
  exists q, (proj_data x), (proj_data y). split_and!; auto.
Qed.

Lemma bit_test_ok bits c : (c < NCPU)%nat -> Numa.bit_test bits c = Ok (bool_decide (c ∈ bits)).
Proof. intros H. unfold Numa.bit_test. by rewrite (proj2 (Nat.ltb_lt c NCPU) H). Qed.

Definition chosen_in (bits : gset nat) (p : nat) (d : Numa.numa) (r : option nat) : Prop :=
  forall c, r = Some c -> c ∈ bits /\ may d p c.

Lemma chosen_None bits p d : chosen_in bits p d None.
Proof. by intros c. Qed.

Lemma chosen_Some bits p d c : c ∈ bits -> may d p c -> chosen_in bits p d (Some c).
Proof. intros ? ? c' [= <-]. done. Qed.

Lemma choose_recent_numa d X p bits l :
  numa_inv d X -> p ∈ X -> (forall c, c ∈ l -> (c < NCPU)%nat) ->
  exists r, Numa.choose_recent T p bits l d = Ok r /\ chosen_in bits p d r.
Proof.
  intros H Hp. induction l as [|c l IH]; intros Hl; cbn [Numa.choose_recent]; [exists None; split; [done|apply chosen_None]|].
  assert (Hc := Hl c ltac:(by left)). assert (IH' := IH ltac:(intros c' Hc'; apply Hl; by right)). clear IH.
  rewrite (bit_test_ok bits c Hc). cbn [mbind res_bind]. destruct (bool_decide_reflect (c ∈ bits)) as [Hb|_]; [|done]. cbn [negb].
  destruct (takeable_numa d X p c H Hp Hc) as (b & -> & Ht). cbn [mbind res_bind].
  destruct b; [exists (Some c); split; [done|apply chosen_Some; auto]|].
  assert (Hsc := tk_sib T HT c Hc). rewrite (bit_test_ok bits _ Hsc). cbn [mbind res_bind].
  destruct (bool_decide_reflect (sched_siblings T c ∈ bits)) as [Hs|_]; [|done]. cbn [negb].
  destruct (takeable_numa d X p _ H Hp Hsc) as (b & -> & Ht'). cbn [mbind res_bind].
  destruct b; [eexists; split; [done|apply chosen_Some; auto]|done].
Qed.

Lemma choose_preempt_numa d X p bits l :
  numa_inv d X -> p ∈ X -> (forall c, c ∈ l -> (c < NCPU)%nat /\ c ∈ bits) ->
  exists r, Numa.choose_preempt p l d = Ok r /\ chosen_in bits p d r.
Proof.
  intros H Hp. induction l as [|c l IH]; intros Hl; cbn [Numa.choose_preempt]; [exists None; split; [done|apply chosen_None]|].
  destruct (Hl c ltac:(by left)) as [Hc Hb]. assert (IH' := IH ltac:(intros c' Hc'; apply Hl; by right)). clear IH.
  destruct (get_run_on_ok T (proj d) X c (nu_books _ _ H) Hc) as (cur & _ & E).
  change (get_run_on c (proj d)) with (Numa.get_run_on c d) in E. rewrite E. cbn [mbind res_bind]. destruct cur as [q|]; [|done].
  destruct (takeable_numa d X p c H Hp Hc) as (b & -> & Ht). cbn [mbind res_bind].
  destruct b; [exists (Some c); split; [done|apply chosen_Some; auto]|done].
Qed.

Lemma idle_numa d X c : numa_inv d X -> c ∈ Numa.numa_idle_cores d -> c ∈ A /\ Numa.run_on d !! c = Some None.
Proof. intros H. apply (sm_idle _ _ _ (nu_books _ _ H)). Qed.

Lemma choose_subset_numa d X p bits :
  numa_inv d X -> p ∈ X ->
  exists r, Numa.numa_choose_core_in_subset T p bits d = Ok r /\ chosen_in bits p d r /\
    (r = None -> Numa.numa_idle_cores d ∩ bits = ∅).
Proof.
  intros H Hp. unfold Numa.numa_choose_core_in_subset.
  destruct (numa_sd d X p H Hp) as (x & _ & -> & Hok & _). cbn [mbind res_bind].
  destruct (choose_recent_numa d X p bits _ H Hp (do_recent x Hok)) as (r & -> & Hr). cbn [mbind res_bind].
  destruct r as [c|]; [by exists (Some c)|].
  assert (Hfs := first_set_ok (Numa.numa_idle_cores d ∩ bits)).
  assert (Hrange : forall c, c ∈ Numa.numa_idle_cores d ∩ bits -> (c < NCPU)%nat).
  { intros c [Hc _]%elem_of_intersection. apply (tk_range T HT). by eapply idle_numa. }
  specialize (Hfs Hrange). destruct (first_set _) as [c|].
  - apply elem_of_intersection in Hfs as [Hi Hb]. exists (Some c). split_and!; [done| |done].
    apply chosen_Some; [done|]. left. by eapply idle_numa.
  - destruct (choose_preempt_numa d X p bits (filter (fun c => c ∈ bits) (seq 0 NCPU)) H Hp) as (r & -> & Hr').
    { intros c [Hb Hin]%list_elem_of_filter. split; [|done]. apply elem_of_seq in Hin. lia. }
    by exists r.
Qed.

(** The hyperthread may be one that the scheduler may not use. *)
Lemma choose_sibling_numa d X p l :
  numa_inv d X -> p ∈ X -> (forall c, c ∈ l -> (c < NCPU)%nat) ->
  exists r, Numa.choose_sibling T p l d = Ok r /\
    forall c, r = Some c -> (c < NCPU)%nat /\ may d p c /\ exists c0, Numa.run_on d !! c0 = Some (Some p) /\ c = sched_siblings T c0.
Proof.
  intros H Hp. induction l as [|c l IH]; intros Hl; cbn [Numa.choose_sibling]; [by exists None|].
  assert (Hc := Hl c ltac:(by left)). assert (IH' := IH ltac:(intros c' Hc'; apply Hl; by right)). clear IH.
  destruct (get_run_on_ok T (proj d) X c (nu_books _ _ H) Hc) as (cur & Hcur & E).
  change (get_run_on c (proj d)) with (Numa.get_run_on c d) in E. rewrite E. cbn [mbind res_bind].
  destruct (bool_decide_reflect (cur = Some p)) as [->|]; [|done]. cbn [negb].
  assert (Hsc := tk_sib T HT c Hc). destruct (takeable_numa d X p _ H Hp Hsc) as (b & -> & Ht). cbn [mbind res_bind].
  destruct b; [|done]. eexists. split; [done|]. intros c' [= <-]. split_and!; auto. by exists c.
Qed.
Definition no_idle_core (d : Numa.numa) (x : Numa.numa_data) : Prop :=
  (forall bits, socket_state !! Z.to_nat (Numa.preferred_socket x) = Some bits -> Numa.numa_idle_cores d ∩ (A ∩ bits) = ∅) /\
  ((1 < numa_count)%nat -> Numa.numa_idle_cores d = ∅).

(** The hyperthread of a core of [p]. *)
Definition own_sibling (p c : nat) (d : Numa.numa) : Prop :=
  noht = false /\ exists c0, Numa.run_on d !! c0 = Some (Some p) /\ c = sched_siblings T c0.

Lemma choose_core_numa d X p x :
  numa_inv d X -> p ∈ X -> Numa.sds d !! p = Some x ->
  exists r, Numa.numa_choose_core T socket_state numa_count noht p d = Ok r /\
    (forall c, r = Some c -> (c < NCPU)%nat /\ may d p c /\ (c ∈ A \/ own_sibling p c d)) /\
    (r = None -> no_idle_core d x).
Proof.
  intros H Hp Hx. unfold Numa.numa_choose_core.
  assert (H1 : exists r, (if noht then Ok None else Numa.choose_sibling T p (sched_cores_tbl T) d) = Ok r /\
    forall c, r = Some c -> (c < NCPU)%nat /\ may d p c /\ own_sibling p c d).
  { unfold own_sibling. destruct noht; [by exists None|].
    destruct (choose_sibling_numa d X p (sched_cores_tbl T) H Hp) as (r & -> & Hr).
    { intros c Hc%(tk_tbl T HT). by apply (tk_range T HT). }
    exists r. split; [done|]. intros c Hc. destruct (Hr c Hc) as (? & ? & ?). auto. }
  destruct H1 as (r & -> & Hr). cbn [mbind res_bind].
  destruct r as [c|]. { exists (Some c). split_and!; [done| |done]. intros c' Hc'. destruct (Hr c' Hc') as (? & ? & ?). auto. }
  destruct (numa_sd d X p H Hp) as (x' & Hx' & -> & [Hs _] & _). assert (x' = x) as -> by congruence. cbn [mbind res_bind].
  unfold Numa.socket_cores. rewrite (proj2 (Z.ltb_ge _ _) (proj1 Hs)).
  destruct (lookup_lt_is_Some_2 socket_state (Z.to_nat (Numa.preferred_socket x))) as [bits Hbits]; [lia|]. rewrite Hbits. cbn [mbind res_bind].
  assert (Hin : forall b, b ⊆ A -> forall r, chosen_in b p d r -> forall c, r = Some c -> (c < NCPU)%nat /\ may d p c /\ (c ∈ A \/ own_sibling p c d)).
  { intros b Hb r Hc c E. destruct (Hc c E) as [Hc1 Hc2]. apply Hb in Hc1. split_and!; auto. by apply (tk_range T HT). }
  destruct (choose_subset_numa d X p (A ∩ bits) H Hp) as (r & -> & Hc & Hn). cbn [mbind res_bind].
  assert (Hfirst : forall b, socket_state !! Z.to_nat (Numa.preferred_socket x) = Some b -> r = None -> Numa.numa_idle_cores d ∩ (A ∩ b) = ∅).
  { intros b Hb Er. assert (b = bits) as -> by congruence. by apply Hn. }
  destruct r as [c|]. { exists (Some c). split_and!; [done| |done]. apply (Hin (A ∩ bits)); [apply intersection_subseteq_l|done]. }
  destruct (Nat.ltb_spec 1 numa_count) as [Hnc|Hnc].
  - destruct (choose_subset_numa d X p A H Hp) as (r & -> & Hc' & Hn'). exists r. split_and!; [done|by apply (Hin A)|].
    intros Er. split; [auto|]. intros _. apply set_eq. intros c. split; [|by intros ?%elem_of_empty]. intros Hi. rewrite <- (Hn' Er).
    apply elem_of_intersection. split; [done|]. by eapply idle_numa.
  - exists None. split_and!; [done..|]. intros _. split; [auto|lia].
Qed.

(** ** Adding a kthread *)

(** What a request may do: nothing, for a reason, or give [p] one core. *)
Record add_spec (p : nat) (ret : Z) (d d' : Numa.numa) (s : sched) : Prop := {
  as_fail : ret <> 0 -> Numa.run_on d' = Numa.run_on d /\
    exists x, Numa.sds d !! p = Some x /\
      (Numa.threads_max x <= Numa.threads_active x \/ no_idle_core d x \/
       sched_threads_avail <$> procs s !! p = Some 0 \/ exists c, (c ∉ A) /\ own_sibling p c d);
  as_done : ret = 0 -> exists x c, Numa.sds d !! p = Some x /\ Numa.threads_active x < Numa.threads_max x /\ c ∈ A /\ may d p c /\
    Numa.run_on d' = <[c := Some p]> (Numa.run_on d);
}.

Abbreviation add_kthread := (Numa.numa_add_kthread T socket_state numa_count noht).

Lemma add_kthread_numa G d s p :
  sched_inv T G U s -> numa_inv d (cl s) -> p ∈ clients s ->
  exists ret d' s', add_kthread p (d, s) = Ok (ret, (d', s')) /\ runs T U G s s' /\ numa_inv d' (cl s') /\
    same_limits (proj d) (proj d') /\ add_spec p ret d d' s.
Proof.
  intros Hs Hd Hp. assert (HpX := cl_elem s p Hp). unfold Numa.numa_add_kthread. cbn [fst snd].
  destruct (numa_sd d (cl s) p Hd HpX) as (x & Hx & -> & _). cbn [mbind res_bind].
  assert (Hnot : Numa.threads_max x <= Numa.threads_active x \/ no_idle_core d x ->
    exists ret d' s', Ok (- ENOENT, (d, s)) = Ok (ret, (d', s')) /\ runs T U G s s' /\ numa_inv d' (cl s') /\
    same_limits (proj d) (proj d') /\ add_spec p ret d d' s).
  { intros Hw. exists (- ENOENT), d, s. split_and!; auto; [by apply runs_refl|done|]. split; [|done].
    intros _. split; [done|]. exists x. split; [done|tauto]. }
  destruct (Z.leb_spec (Numa.threads_max x) (Numa.threads_active x)) as [Hm|Hm]; [auto|].
  destruct (choose_core_numa d (cl s) p x Hd HpX Hx) as (r & -> & Hc & Hn). cbn [mbind res_bind].
  destruct r as [c|]; [|auto]. destruct (Hc c eq_refl) as (Hcn & Hmay & Hor).
  destruct (run_kthread_numa G d s p c Hs Hd Hp Hcn) as (ret & d' & s' & -> & R & Hd' & L & Hres).
  exists ret, d', s'. split_and!; auto. split.
  - intros Hr. destruct Hres as [[? _]|(_ & -> & -> & [Ha|Ha])]; [done|split; [done|]; exists x; tauto|].
    split; [done|]. exists x. split; [done|]. do 3 right. exists c. destruct Hor; [done|auto].
  - intros ->. destruct Hres as [(_ & Ha & E)|(? & _)]; [|done]. exists x, c. auto.
Qed.

(** ** Congestion *)

Lemma notify_congested_numa G d s p ths ios :
  sched_inv T G U s -> numa_inv d (cl s) -> p ∈ clients s ->
  exists d' s', Numa.numa_notify_congested T socket_state numa_count noht p ths ios (d, s) = Ok (d', s') /\
    runs T U G s s' /\ numa_inv d' (cl s').
Proof.
  intros Hs Hd Hp. assert (HpX := cl_elem s p Hp). unfold Numa.numa_notify_congested. cbn [fst snd].
  destruct (numa_sd d (cl s) p Hd HpX) as (x & Hx & -> & _). cbn [mbind res_bind].
  destruct (Numa.waking x).
  { eexists _, s. split; [reflexivity|]. split; [by apply runs_refl|]. split.
    - rewrite (proj_upd p _ (set_waking false)) by done. apply upd_sd_ok; [done|apply Hd].
    - apply (datas_keep p (Numa.set_waking false)); [done|apply Hd]. }
  destruct (_ =? 0)%nat.
  { destruct (unmark_numa d (cl s) p Hd HpX) as (d1 & -> & H1 & _). exists d1, s. split_and!; [done|by apply runs_refl|done]. }
  destruct (Numa.is_congested x). { exists d, s. split_and!; [done|by apply runs_refl|done]. }
  destruct (add_kthread_numa G d s p Hs Hd Hp) as (ret & d1 & s1 & -> & R1 & H1 & _). cbn [mbind res_bind].
  destruct (ret =? 0); [by exists d1, s1|].
  destruct (mark_numa d1 (cl s1) p H1) as (d2 & E2 & H2 & _); [by rewrite (cl_runs T U G s s1 R1)|]. cbn [fst snd]. rewrite E2.
  by exists d2, s1.
Qed.

(** ** Idle cores *)

Lemma first_wants_numa d X l :
  numa_inv d X -> (forall p, Some p ∈ l -> p ∈ X) ->
  exists r, Numa.first_wants l d = Ok r /\ forall p, r = Some p -> p ∈ X.
Proof.
  intros Hd. induction l as [|x l IH]; intros Hl; cbn [Numa.first_wants]; [by exists None|].
  assert (IH' := IH ltac:(intros q Hq; apply Hl; by right)). clear IH.
  destruct x as [p|]; cbn [Numa.wants mbind res_bind]; [|done].
  destruct (numa_sd d X p Hd (Hl p ltac:(by left))) as (x & _ & -> & _). cbn [mbind res_bind].
  destruct (Numa.is_congested x); [|done]. exists (Some p). split; [done|]. intros q [= <-]. apply Hl. by left.
Qed.

Lemma choose_kthread_numa d X c :
  numa_inv d X -> (c < NCPU)%nat ->
  exists r, Numa.numa_choose_kthread T c d = Ok r /\ forall p, r = Some p -> p ∈ X.
Proof.
  intros Hd Hc. assert (Hsc := tk_sib T HT c Hc). assert (Hb := nu_books _ _ Hd). unfold Numa.numa_choose_kthread.
  destruct (get_run_on_ok T (proj d) X _ Hb Hsc) as (x & Hx & E). change (get_run_on ?a (proj d)) with (Numa.get_run_on a d) in E.
  destruct (get_hist_ok T (proj d) X _ Hb Hc) as (h1 & Hh1 & E1). change (get_hist ?a (proj d)) with (Numa.get_hist a d) in E1.
  destruct (get_hist_ok T (proj d) X _ Hb Hsc) as (h2 & Hh2 & E2). change (get_hist ?a (proj d)) with (Numa.get_hist a d) in E2.
  rewrite E. cbn [mbind res_bind]. rewrite E1. cbn [mbind res_bind]. rewrite E2. cbn [mbind res_bind].
  destruct (first_wants_numa d X (x :: interleave h1 h2) Hd) as (r & -> & Hr).
  { intros p [Hp|Hp]%elem_of_cons; [subst x; by eapply (sm_run _ _ _ Hb)|].
    apply elem_interleave in Hp as [Hp|Hp]; [by apply (sm_hist _ _ _ Hb c h1)|by eapply (sm_hist _ _ _ Hb)]. }
  cbn [mbind res_bind]. destruct r as [p|]; [by exists (Some p)|]. eexists. split; [done|]. intros p Hp%head_Some_elem_of.
  by apply (sm_congX _ _ _ Hb).
Qed.

(** A free core that may be used becomes idle. *)
Lemma idle_add_numa d X c :
  numa_inv d X -> c ∈ A -> Numa.run_on d !! c = Some None ->
  numa_inv (Numa.set_numa_idle_cores ({[c]} ∪ Numa.numa_idle_cores d) d) X.
Proof.
  intros [[K1 K2 K3 K4 K5 K6 K7 K8 K9 K10] H2] Hc Hr. split; [|done]. split; auto.
  cbn. intros c' [->%elem_of_singleton|Hi]%elem_of_union; [done|by apply K10].
Qed.

Lemma poll_core_numa G d s c :
  sched_inv T G U s -> numa_inv d (cl s) -> c ∈ A ->
  exists d' s', Numa.numa_poll_core T c (d, s) = Ok (d', s') /\ runs T U G s s' /\ numa_inv d' (cl s').
Proof.
  intros Hs Hd Hc. assert (Hcn := tk_range T HT c Hc). unfold Numa.numa_poll_core. cbn [fst snd].
  destruct (get_run_on_ok T (proj d) (cl s) _ (nu_books _ _ Hd) Hcn) as (cur & Hcur & E).
  change (get_run_on ?a (proj d)) with (Numa.get_run_on a d) in E. rewrite E. cbn [mbind res_bind].
  assert (H1 : exists d1, match cur with None => Ok d | Some p => Numa.numa_unmark_congested p d end = Ok d1 /\
    numa_inv d1 (cl s) /\ Numa.run_on d1 = Numa.run_on d).
  { destruct cur as [p|]; [|by exists d].
    destruct (unmark_numa d (cl s) p Hd) as (d1 & ? & ? & ? & _); [by eapply (sm_run _ _ _ (nu_books _ _ Hd))|]. by exists d1. }
  destruct H1 as (d1 & -> & Hd1 & R1). cbn [mbind res_bind].
  destruct (cleanup_numa d1 (cl s) c Hd1 Hcn) as (d2 & -> & Hd2 & R2 & _). cbn [mbind res_bind].
  assert (Hfree : Numa.run_on d2 !! c = Some None).
  { rewrite R2. apply list_lookup_insert_eq. by rewrite (sm_len _ _ _ (nu_books _ _ Hd1) : length (Numa.run_on d1) = NCPU). }
  destruct (choose_kthread_numa d2 (cl s) c Hd2 Hcn) as (r & -> & Hr). cbn [mbind res_bind].
  destruct r as [p|].
  - assert (Hp := Hr p eq_refl). assert (Hp' : p ∈ clients s) by (unfold cl in Hp; by rewrite elem_of_list_to_set in Hp).
    destruct (run_kthread_numa G d2 s p c Hs Hd2 Hp' Hcn) as (ret & d3 & s3 & -> & R3 & Hd3 & _ & Hres). cbn [mbind res_bind].
    destruct Hres as [(-> & _)|(Hne & -> & -> & _)]; [by exists d3, s3|]. rewrite (proj2 (Z.eqb_neq ret 0) Hne). cbn [fst snd].
    destruct (mark_numa _ (cl s) p (idle_add_numa d2 (cl s) c Hd2 Hc Hfree) Hp) as (d4 & -> & Hd4 & _). by exists d4, s.
  - eexists _, s. split; [reflexivity|]. split; [by apply runs_refl|]. by apply idle_add_numa.
Qed.

Lemma poll_cores_numa G l : forall d s,
  sched_inv T G U s -> numa_inv d (cl s) -> (forall c, c ∈ l -> c ∈ A) ->
  exists d' s', Numa.numa_poll_cores T l (d, s) = Ok (d', s') /\ runs T U G s s' /\ numa_inv d' (cl s').
Proof.
  induction l as [|c l IH]; intros d s Hs Hd Hl; cbn [Numa.numa_poll_cores].
  { exists d, s. split_and!; auto. by apply runs_refl. }
  destruct (poll_core_numa G d s c Hs Hd) as (d1 & s1 & -> & R1 & H1); [apply Hl; by left|]. cbn [mbind res_bind].
  destruct (IH d1 s1) as (d2 & s2 & E2 & R2 & H2); [apply R1|done|intros; apply Hl; by right|].
  exists d2, s2. split_and!; auto. by eapply runs_trans.
Qed.

(** The NUMA policy is one the scheduler can use, for processes whose preferred socket
    exists. *)
#[export] Instance numa_policy (m : bool) : SchedPolicy T U numa_cfg (Numa.numa_ops T socket_state numa_count noht m).
Proof.
  refine {| pol_inv := numa_inv |}.
  - intros G d s p ths ios. apply notify_congested_numa.
  - intros G d s p Hs Hd Hp. destruct (add_kthread_numa G d s p Hs Hd Hp) as (ret & d' & s' & ? & ? & ? & _). by exists ret, d', s'.
  - intros G d s now n bits Hs Hd Hb. cbn. unfold Numa.numa_sched_poll. destruct (n =? 0)%nat; [exists d, s; split_and!; auto; by apply runs_refl|].
    apply poll_cores_numa; auto. intros c [Hc _]%list_elem_of_filter. by apply Hb.
  - intros d X s p cfg Hc Hd Hp. by apply attach_numa.
  - intros d X s p Hd Hp. by apply detach_numa.
Defined.

Lemma numa_init_ok : numa_inv (Numa.numa_init T) ∅.
Proof.
  split; [|intros p x Hx; cbn in Hx; by rewrite lookup_empty in Hx].
  assert (E : proj (Numa.numa_init T) = simple_init T) by (unfold proj, simple_init; cbn [Numa.numa_init Numa.sds]; by rewrite fmap_empty).
  rewrite E. by apply simple_init_ok.
Qed.
End inv.
