(* ===== verification/IokNumaThms.v ===== *)
(** * What holds under the NUMA policy

    The theorems on the scheduler and the data plane apply to it by its instances of the
    interfaces; here are the books of both policies, what a request for a core does under
    the NUMA policy, and two requests that go wrong. *)

From S2P Require Import Prelude Stddef Page Shm Lrpc IokState IokSched IokInv IokBase IokCores IokPoll IokMach IokSimple IokSimpleInv IokThms IokFrame IokData IokDataInv IokDataTx IokDataBurst IokDataMach IokDataThms IokNuma IokNumaInv.

(** ** What the policy leaves alone *)

Section numa_frame.
Context (T : topo) (socket_state : list (gset nat)) (numa_count : nat) (noht : bool).

Lemma fr_run_numa p c w r : Numa.numa_run_kthread_on_core T p c w = Ok r -> frame w.2 r.2.2.
Proof.
  unfold Numa.numa_run_kthread_on_core. intros H. fr; match goal with H : sched_run_on_core _ _ _ _ = Ok _ |- _ => by apply fr_run_on in H end.
Qed.

Lemma fr_add_numa p w r : Numa.numa_add_kthread T socket_state numa_count noht p w = Ok r -> frame w.2 r.2.2.
Proof.
  unfold Numa.numa_add_kthread. intros H. fr.
  match goal with H : Numa.numa_run_kthread_on_core _ _ _ _ = Ok _ |- _ => by apply fr_run_numa in H end.
Qed.

Lemma fr_poll_numa l w w' : Numa.numa_poll_cores T l w = Ok w' -> frame w.2 w'.2.
Proof.
  revert w. induction l as [|c l IH]; intros w; cbn; [by intros [= ->]|].
  intros (w1 & H1 & H2)%res_bind_ok. etrans; [|by apply IH]. clear IH H2. unfold Numa.numa_poll_core in H1. fr.
  all: match goal with H : Numa.numa_run_kthread_on_core _ _ _ _ = Ok _ |- _ => by apply fr_run_numa in H end.
Qed.

#[export] Instance numa_frame m : PolicyFrame (Numa.numa_ops T socket_state numa_count noht m).
Proof.
  split.
  - intros p ths ios w w'. cbn. unfold Numa.numa_notify_congested. intros H. fr.
    all: match goal with H : Numa.numa_add_kthread _ _ _ _ _ _ = Ok _ |- _ => by apply fr_add_numa in H end.
  - intros p w r. cbn. apply fr_add_numa.
  - intros now cnt bits w w'. cbn. unfold Numa.numa_sched_poll. intros H. destruct (_ =? _)%nat; [by injection H as <-|by apply fr_poll_numa in H].
  - intros p cfg w r. cbn. unfold Numa.numa_attach. intros H. fr.
  - intros p w w'. cbn. unfold Numa.numa_detach. intros H. fr.
Qed.
End numa_frame.

(** ** The books of a policy *)

(** The variables common to the policies agree with each other, with the processes [X]
    and with the cores that may be used. *)
Definition books_ok (T : topo) {F} (d : simple (F := F)) (X : gset nat) : Prop :=
  (forall p, is_Some (sds d !! p) <-> p ∈ X) /\
  (forall p x, sds d !! p = Some x ->
     threads_active x = Z.of_nat (length (filter (fun y => y = Some p) (run_on d))) /\
     (is_congested x = true <-> p ∈ congested_procs d)) /\
  NoDup (congested_procs d) /\ (forall p, p ∈ congested_procs d -> p ∈ X) /\
  (forall c p, run_on d !! c = Some (Some p) -> p ∈ X) /\
  (forall c h p, hist d !! c = Some h -> Some p ∈ h -> p ∈ X) /\
  (forall c, c ∈ simple_idle_cores d -> c ∈ sched_allowed_cores T /\ run_on d !! c = Some None).

Lemma inv_books T {F} (d : simple (F := F)) X : simple_inv T d X -> books_ok T d X.
Proof. intros []. split_and!; auto. intros p x Hx. split; [by apply sm_cnt|by apply sm_cong]. Qed.

Section numa.
Context (T : topo) (U : list tref) (socket_state : list (gset nat)) (numa_count : nat) (noht m : bool) (cyc : Z).
Context (HT : topo_ok T) (HU : (length U <= NCPU)%nat) (Hsock : Z.of_nat (length socket_state) = NNUMA).
Abbreviation nops := (Numa.numa_ops T socket_state numa_count noht m).

Lemma numa_reachable M :
  iok_reachable T U numa_cfg nops cyc (Numa.numa_init T) M ->
  sched_inv T (Gof (m_held M) (m_w M).2) U (m_w M).2 /\ numa_inv T (m_w M).1 (cl (m_w M).2).
Proof.
  intros Hr. by destruct (iok_reachable_inv T U numa_cfg nops cyc (Numa.numa_init T) HT HU
    (SchedPolicy0 := numa_policy T HT U socket_state numa_count noht Hsock m) (numa_init_ok T HT) M Hr) as (Hs & Hd & _).
Qed.

(** The data plane runs with this policy too, and keeps its invariant. *)
Lemma numa_dataplane get_bulk ingress N M :
  (forall stack n, get_bulk stack n = completion_dequeue stack n) -> (IOKERNEL_TX_BURST_SIZE <= N)%nat ->
  dp_reachable T U numa_cfg nops cyc (Numa.numa_init T) get_bulk ingress N M ->
  dinv T U numa_cfg nops (SchedPolicy0 := numa_policy T HT U socket_state numa_count noht Hsock m) N (d_x M).
Proof.
  intros Hpool HN. apply (dp_reachable_inv T U numa_cfg nops cyc (Numa.numa_init T) get_bulk ingress N HT HU
    (SchedPolicy0 := numa_policy T HT U socket_state numa_count noht Hsock m)); auto. exact (numa_init_ok T HT).
Qed.
End numa.

(** C40.  Both policies keep their books right.  In every state that is reachable with the
    simple policy, for any processes, or with the NUMA policy, for processes that ask for a
    preferred socket that exists ([numa_cfg], which the code does not check, see
    [numa_socket_unchecked]), each client, and only a client, has a record; the number of
    active threads in it is the number of cores the policy has given to it; the list of
    congested processes holds exactly the flagged ones, once; no core and no history entry
    names a process that was removed; a core marked as idle may be used and belongs to
    nobody; and the cores the NUMA policy remembers as recently used by a process exist. *)
Theorem policies_account_cores T U cfgok {F} (load0 : F) load_ewma mok socket_state numa_count noht cyc :
  topo_ok T -> (length U <= NCPU)%nat -> Z.of_nat (length socket_state) = NNUMA ->
  (forall M, iok_reachable T U cfgok (simple_ops T load0 load_ewma mok) cyc (simple_init T) M ->
     books_ok T (m_w M).1 (cl (m_w M).2)) /\
  (forall M, iok_reachable T U numa_cfg (Numa.numa_ops T socket_state numa_count noht mok) cyc (Numa.numa_init T) M ->
     books_ok T (proj (m_w M).1) (cl (m_w M).2) /\
     forall p x c, Numa.sds (m_w M).1 !! p = Some x -> c ∈ Numa.recent_cores x -> (c < NCPU)%nat).
Proof.
  intros HT HU Hsock. split.
  - intros M Hr. apply inv_books. exact (proj2 (simple_reachable T U cfgok load0 load_ewma mok HT HU cyc M Hr)).
  - intros M Hr. destruct (numa_reachable T U socket_state numa_count noht mok cyc HT HU Hsock M Hr) as [_ [Hb Hd]].
    split; [by apply inv_books|]. intros p x c Hx. destruct (Hd p x Hx) as [[H1 H2] H3]. apply H3.
Qed.

(** What a request for a core does under the NUMA policy, in any reachable state.  It
    succeeds unless the process is at its maximum, has no idle kthread, no core it may
    have is idle, or the hyperthread the policy chose may not be used; on success the
    process, which was below its maximum, gets one core that may be used, either a free
    one or one of a process above its guarantee while it is itself below its own; and
    all other cores stay with their processes. *)
Theorem numa_core_needed_ok T U socket_state numa_count noht mok cyc M p :
  topo_ok T -> (length U <= NCPU)%nat -> Z.of_nat (length socket_state) = NNUMA ->
  iok_reachable T U numa_cfg (Numa.numa_ops T socket_state numa_count noht mok) cyc (Numa.numa_init T) M -> p ∈ clients (m_w M).2 ->
  let d := (m_w M).1 in let s := (m_w M).2 in
  exists x ret d' s', Numa.sds d !! p = Some x /\
    Numa.numa_notify_core_needed T socket_state numa_count noht p (d, s) = Ok (ret, (d', s')) /\
    (ret <> 0 -> Numa.run_on d' = Numa.run_on d /\
       (Numa.threads_max x <= Numa.threads_active x \/ no_idle_core T socket_state numa_count d x \/
        sched_threads_avail <$> procs s !! p = Some 0 \/
        exists c, (c ∉ sched_allowed_cores T) /\ own_sibling T noht p c d)) /\
    (ret = 0 -> Numa.threads_active x < Numa.threads_max x /\
       exists c, c ∈ sched_allowed_cores T /\ may_take p c (proj d) /\ Numa.run_on d' = <[c := Some p]> (Numa.run_on d)).
Proof.
  intros HT HU Hsock Hr Hp d s. destruct (numa_reachable T U socket_state numa_count noht mok cyc HT HU Hsock M Hr) as [Hs Hd].
  fold s in Hs, Hp, Hd. fold d in Hd.
  destruct (add_kthread_numa T HT U socket_state numa_count noht Hsock _ d s p Hs Hd Hp) as (ret & d' & s' & E & _ & _ & _ & [Hno Hyes]).
  destruct (numa_sd T d (cl s) p Hd (cl_elem s p Hp)) as (x & Hx & _).
  exists x, ret, d', s'. split_and!; auto.
  - intros Hret. destruct (Hno Hret) as (Er & x' & Hx' & Hw). assert (x' = x) as -> by congruence. auto.
  - intros Hret. destruct (Hyes Hret) as (x' & c & Hx' & Hlt & Hrest). assert (x' = x) as -> by congruence. eauto.
Qed.

(** ** Witnesses

    The machine of IokThms.v with two sockets; process 1 prefers the second. *)

Definition wit_sockets : list (gset nat) := [{[2; 3]}; {[4; 5]}; ∅; ∅]%nat.
Definition wit_proc_on (socket mx g : Z) (ids : list Z) : proc :=
  set_sched_cfg (SchedSpec 1 mx g 0 0 socket) (wit_proc mx g ids).
Definition nwit_ops : sched_ops Numa.numa := Numa.numa_ops wit_topo wit_sockets 2 false true.
Definition nwit_run : list iok_op :=
  [OpAdd 1 (wit_proc_on 1 3 1 [11; 12; 13]%Z); OpAdd 2 (wit_proc_on 0 2 2 [21; 22]%Z); OpCoreNeeded 1; OpCoreNeeded 1; OpCoreNeeded 1;
   OpCoreNeeded 2; OpPoll 10 10 wit_done].
Definition nwit_start : mach (D := Numa.numa) := mach_init (Numa.numa_init wit_topo).
Definition nwit_mach : mach (D := Numa.numa) := default nwit_start (iok_run wit_topo wit_U nwit_ops 1 nwit_run nwit_start).

(** Process 1 fills its socket first; process 2 takes back a core of the other one. *)
Example nwit_cores : take 6 (Numa.run_on (m_w nwit_mach).1) = [None; None; Some 2; None; Some 1; Some 1]%nat.
Proof. vm_compute. reflexivity. Qed.

Lemma nwit_cfg p pr : OpAdd p pr ∈ nwit_run -> numa_cfg (sched_cfg pr).
Proof.
  unfold nwit_run. rewrite !elem_of_cons. intros H. repeat destruct H as [[= -> ->]|H]; try done; try (by apply elem_of_nil in H).
Qed.

Lemma nwit_reach : iok_reachable wit_topo wit_U numa_cfg nwit_ops 1 (Numa.numa_init wit_topo) nwit_mach.
Proof.
  apply (iok_run_reachable _ _ _ _ _ _ nwit_run nwit_start); [exact nwit_cfg|constructor|]. unfold nwit_mach.
  destruct (iok_run wit_topo wit_U nwit_ops 1 nwit_run nwit_start) eqn:E; [done|]. exfalso. revert E. vm_compute. congruence.
Qed.

Lemma policies_account_cores_witness :
  (exists x, sds (m_w wit_mach).1 !! 1%nat = Some x /\ threads_active x = 3) /\
  (exists x, Numa.sds (m_w nwit_mach).1 !! 1%nat = Some x /\ Numa.threads_active x = 2).
Proof.
  destruct (policies_account_cores wit_topo wit_U any_cfg 0 (fun l a m => l + a) true wit_sockets 2 false 1 wit_topo_ok wit_room eq_refl)
    as [Hs Hn]. specialize (Hs _ wit_reach). specialize (Hn _ nwit_reach). split.
  - assert (E : exists x, sds (m_w wit_mach).1 !! 1%nat = Some x) by (vm_compute; eexists; reflexivity).
    destruct E as [x E]. exists x. split; [exact E|]. rewrite (proj1 (proj1 (proj2 Hs) 1%nat x E)). vm_compute. reflexivity.
  - assert (E : exists x, Numa.sds (m_w nwit_mach).1 !! 1%nat = Some x) by (vm_compute; eexists; reflexivity).
    destruct E as [x E]. exists x. split; [exact E|].
    assert (E' : sds (proj (m_w nwit_mach).1) !! 1%nat = Some (proj_data x)).
    { unfold proj. cbn [sds]. rewrite lookup_fmap, E. reflexivity. }
    refine (eq_trans (proj1 (proj1 (proj2 (proj1 Hn)) 1%nat _ E')) _). vm_compute. reflexivity.
Defined.

(** Process 2 gets the hyperthread of its core. *)
Lemma numa_core_needed_ok_witness :
  exists ret d' s', Numa.numa_notify_core_needed wit_topo wit_sockets 2 false 2 (m_w nwit_mach) = Ok (ret, (d', s')) /\ ret = 0 /\
    exists c, may_take 2 c (proj (m_w nwit_mach).1) /\ Numa.run_on d' = <[c := Some 2%nat]> (Numa.run_on (m_w nwit_mach).1).
Proof.
  assert (Hp : 2%nat ∈ clients (m_w nwit_mach).2) by (apply (bool_decide_eq_true_1 _); vm_compute; reflexivity).
  destruct (numa_core_needed_ok wit_topo wit_U wit_sockets 2 false true 1 nwit_mach 2 wit_topo_ok wit_room eq_refl nwit_reach Hp)
    as (x & ret & d' & s' & _ & E & _ & Hyes).
  assert (Hret : (fun r => r.1) <$> (match Numa.numa_notify_core_needed wit_topo wit_sockets 2 false 2 (m_w nwit_mach) with Ok r => Some r | Bug => None end) = Some 0)
    by (vm_compute; reflexivity).
  rewrite <- surjective_pairing in E. exists ret, d', s'. split; [exact E|].
  rewrite E in Hret. injection Hret as ->. split; [reflexivity|]. destruct (Hyes eq_refl) as (_ & c & _ & Hm & Hr). exists c. split; assumption.
Defined.

(** ** Requests that go wrong *)

(** Core 3, the hyperthread of core 2, may not be used. *)
Definition lone_topo : topo := Topo {[2; 4; 5]}%nat (sched_siblings wit_topo) [2; 4; 5]%nat [].
Definition lone_ops : sched_ops Numa.numa := Numa.numa_ops lone_topo wit_sockets 2 false true.
Definition lone_mach (socket : Z) : option (mach (D := Numa.numa)) :=
  iok_run lone_topo wit_U lone_ops 1 [OpAdd 1 (wit_proc_on socket 3 1 [11; 12; 13]%Z); OpCoreNeeded 1] (mach_init (Numa.numa_init lone_topo)).

(** A request is refused while two cores are idle, because the policy chose a hyperthread
    that may not be used. *)
Lemma numa_sibling_refused :
  exists M, lone_mach 0 = Some M /\ (4%nat ∈ Numa.numa_idle_cores (m_w M).1) /\ (5%nat ∈ Numa.numa_idle_cores (m_w M).1) /\
    exists w, Numa.numa_notify_core_needed lone_topo wit_sockets 2 false 1 (m_w M) = Ok (- EINVAL, w).
Proof.
  assert (H : (fun M => bool_decide (4%nat ∈ Numa.numa_idle_cores (m_w M).1) && bool_decide (5%nat ∈ Numa.numa_idle_cores (m_w M).1) &&
    match Numa.numa_notify_core_needed lone_topo wit_sockets 2 false 1 (m_w M) with Ok (r, _) => r =? - EINVAL | Bug => false end) <$> lone_mach 0 = Some true)
    by (vm_compute; reflexivity).
  destruct (lone_mach 0) as [M|]; [|done]. exists M. cbn in H. injection H as H.
  apply andb_prop in H as [[H1%bool_decide_eq_true H2%bool_decide_eq_true]%andb_prop H3]. split_and!; [done..|].
  destruct (Numa.numa_notify_core_needed _ _ _ _ _ _) as [[r w]|]; [|done]. apply Z.eqb_eq in H3 as ->. by exists w.
Qed.

(** The preferred socket a process asks for is not checked: the first request for a core
    reads beyond [socket_state]. *)
Lemma numa_socket_unchecked : lone_mach 4 = None /\ is_Some (lone_mach 1).
Proof. split; [vm_compute; reflexivity|]. vm_compute. eauto. Qed.
