(* ===== verification/Kthread.v ===== *)
(** * runtime/kthread.c: parking kthreads and steering flows

    The kthreads of a process as a machine whose steps are single accesses to shared
    memory, in any interleaving: parking (with the count of running kthreads), blocking in
    the kernel, waking, and, with direct hardware access, [flows_update], which tells the
    card which kthread is to have which flows.  The 64-bit counters [kthread_gen] and
    [flow_assignment_gen] are kept at their width. *)

From S2P Require Import Prelude Stddef IokState.

Definition BITMAP_LONGS : nat := NCPU / 64.

(** ** The map of flows *)

(** The rounds over the kthreads that sleep, from position [pos] of [awakeks] on. *)
Fixpoint spread (awakeks : list nat) (pos : nat) (l : list nat) (fg : list (option nat)) : res (list (option nat)) :=
  match l with
  | [] => Ok fg
  | i :: l =>
      match awakeks !! pos with
      | None => Bug
      | Some a => spread awakeks (if (S pos =? length awakeks)%nat then 0 else S pos) l (<[i := Some a]> fg)
      end
  end.

(** The entries of [fg_map]; it is on the stack and not initialised ([None]). *)
Definition fg_map (kawake_local : gset nat) (maxks : nat) : res (list (option nat)) :=
  let awakeks := filter (fun i => i ∈ kawake_local) (seq 0 maxks) in
  let fg := foldl (fun fg i => <[i := Some i]> fg) (replicate maxks None) awakeks in
  spread awakeks 0 (filter (fun i => i ∉ kawake_local) (seq 0 maxks)) fg.

(** ** Kthreads *)

(** What follows [flows_update]. *)
Inductive whence := Parking | Waking.

(** The next access of a kthread. *)
Inductive kpc :=
| Attach                                   (* kthread_wait_to_attach: blocked for the first time *)
| Run                                      (* outside of these functions *)
| ParkCheck                                (* kthread_park(true): runningks <= spinks? *)
| ParkSub (vol : bool)                     (* --runningks *)
| ParkUndo                                 (* ++runningks, and not parked *)
| Clear (vol : bool) | ClearInc (vol : bool)
| YieldClear | Ioctl                       (* kthread_yield_to_iokernel *)
| WakeInc | SetAwake | SetInc
| TryLock (w : whence)                     (* flows_update *)
| ReadGen (w : whence)
| Same (w : whence)                        (* unlock: nothing has changed *)
| SetGen (cur : Z) (w : whence)
| Copy (i : nat) (acc : gset nat) (w : whence)
| Steer (acc : gset nat) (w : whence)
| Unlock (w : whence)
| LoadFag (w : whence) | LoadGen (v : Z) (w : whence).

Record kts := Kts {
  runningks : Z;
  kthread_awake : gset nat;
  kthread_gen : Z;
  flow_assignment_gen : Z;
  flow_assignment_lock : bool;
  steered : option (list (option nat));    (* what the card was told last *)
  cpu_map : gmap nat nat;
  curr_cpu : gmap nat nat;
  preempted : gset nat;                    (* [preempt_needed] of each kthread *)
  pcs : list kpc;
}.

Definition set_runningks v s := Kts v (kthread_awake s) (kthread_gen s) (flow_assignment_gen s) (flow_assignment_lock s) (steered s) (cpu_map s) (curr_cpu s) (preempted s) (pcs s).
Definition set_awake v s := Kts (runningks s) v (kthread_gen s) (flow_assignment_gen s) (flow_assignment_lock s) (steered s) (cpu_map s) (curr_cpu s) (preempted s) (pcs s).
Definition set_gen v s := Kts (runningks s) (kthread_awake s) v (flow_assignment_gen s) (flow_assignment_lock s) (steered s) (cpu_map s) (curr_cpu s) (preempted s) (pcs s).
Definition set_fag v s := Kts (runningks s) (kthread_awake s) (kthread_gen s) v (flow_assignment_lock s) (steered s) (cpu_map s) (curr_cpu s) (preempted s) (pcs s).
Definition set_flock v s := Kts (runningks s) (kthread_awake s) (kthread_gen s) (flow_assignment_gen s) v (steered s) (cpu_map s) (curr_cpu s) (preempted s) (pcs s).
Definition set_steered v s := Kts (runningks s) (kthread_awake s) (kthread_gen s) (flow_assignment_gen s) (flow_assignment_lock s) v (cpu_map s) (curr_cpu s) (preempted s) (pcs s).
Definition set_cpus t c s := Kts (runningks s) (kthread_awake s) (kthread_gen s) (flow_assignment_gen s) (flow_assignment_lock s) (steered s) (<[c := t]> (cpu_map s)) (<[t := c]> (curr_cpu s)) (preempted s) (pcs s).
Definition set_preempted v s := Kts (runningks s) (kthread_awake s) (kthread_gen s) (flow_assignment_gen s) (flow_assignment_lock s) (steered s) (cpu_map s) (curr_cpu s) v (pcs s).
Definition goto (t : nat) (p : kpc) s := Kts (runningks s) (kthread_awake s) (kthread_gen s) (flow_assignment_gen s) (flow_assignment_lock s) (steered s) (cpu_map s) (curr_cpu s) (preempted s) (<[t := p]> (pcs s)).

(** What happens: the next access, a call of [kthread_park], the return of [ioctl] (the
    core, or an error), the signal of a preemption. *)
Inductive kchoice := KGo | KPark (vol : bool) | KRet (s : option nat) | KSignal.

Section kthread.
Context (spinks : Z) (directpath : bool).

Definition after_flows (w : whence) : kpc := match w with Parking => YieldClear | Waking => Run end.

(** One step of kthread [t], if it is possible. *)
Definition kstep (t : nat) (c : kchoice) (s : kts) : option (res kts) :=
  match pcs s !! t, c with
  | Some Attach, KRet (Some core) => Some (Ok (goto t WakeInc (set_cpus t core s)))
  | Some Attach, KRet None => Some Bug
  | Some Run, KPark vol => Some (Ok (goto t (if vol then ParkCheck else ParkSub false) s))
  | Some Run, KSignal => Some (Ok (set_preempted ({[t]} ∪ preempted s) s))
  | Some ParkCheck, KGo => Some (Ok (goto t (if u32 (runningks s) <=? spinks then Run else ParkSub true) s))
  | Some (ParkSub vol), KGo =>
      let remaining := runningks s - 1 in
      Some (Ok (goto t (if vol && (u32 remaining <? spinks) then ParkUndo
                        else if directpath then Clear vol else YieldClear) (set_runningks remaining s)))
  | Some ParkUndo, KGo => Some (Ok (goto t Run (set_runningks (runningks s + 1) s)))
  | Some (Clear vol), KGo => Some (Ok (goto t (ClearInc vol) (set_awake (kthread_awake s ∖ {[t]}) s)))
  | Some (ClearInc vol), KGo =>
      Some (Ok (goto t (if vol then TryLock Parking else YieldClear) (set_gen (u64 (kthread_gen s + 1)) s)))
  | Some YieldClear, KGo => Some (Ok (goto t Ioctl (set_preempted (preempted s ∖ {[t]}) s)))
  | Some Ioctl, KSignal => Some (Ok (set_preempted ({[t]} ∪ preempted s) s))
  | Some Ioctl, KRet r =>
      if bool_decide (t ∈ preempted s) then Some (Ok (goto t YieldClear s))
      else match r with
           | None => Some (Ok (goto t YieldClear s))
           | Some core => Some (Ok (goto t WakeInc (set_cpus t core s)))
           end
  | Some WakeInc, KGo => Some (Ok (goto t (if directpath then SetAwake else Run) (set_runningks (runningks s + 1) s)))
  | Some SetAwake, KGo => Some (Ok (goto t SetInc (set_awake ({[t]} ∪ kthread_awake s) s)))
  | Some SetInc, KGo => Some (Ok (goto t (TryLock Waking) (set_gen (u64 (kthread_gen s + 1)) s)))
  | Some (TryLock w), KGo =>
      Some (Ok (if flow_assignment_lock s then goto t (after_flows w) s else goto t (ReadGen w) (set_flock true s)))
  | Some (ReadGen w), KGo =>
      Some (Ok (goto t (if kthread_gen s =? flow_assignment_gen s then Same w else SetGen (kthread_gen s) w) s))
  | Some (Same w), KGo => Some (Ok (goto t (after_flows w) (set_flock false s)))
  | Some (SetGen cur w), KGo => Some (Ok (goto t (Copy 0 ∅ w) (set_fag cur s)))
  | Some (Copy i acc w), KGo =>
      Some (Ok (if (i <? BITMAP_LONGS)%nat
                then goto t (Copy (S i) (acc ∪ filter (fun j => (j / 64 = i)%nat) (kthread_awake s)) w) s
                else goto t (Steer acc w) s))
  | Some (Steer acc w), KGo =>
      if bool_decide (filter (fun i => i ∈ acc) (seq 0 (length (pcs s))) = []) then Some (Ok (goto t (Unlock w) s))
      else Some (m ← fg_map acc (length (pcs s)); Ok (goto t (Unlock w) (set_steered (Some m) s)))
  | Some (Unlock w), KGo => Some (Ok (goto t (LoadFag w) (set_flock false s)))
  | Some (LoadFag w), KGo => Some (Ok (goto t (LoadGen (flow_assignment_gen s) w) s))
  | Some (LoadGen v w), KGo => Some (Ok (goto t (if v =? kthread_gen s then after_flows w else TryLock w) s))
  | _, _ => None
  end.

Fixpoint krun (l : list (nat * kchoice)) (s : kts) : option (res kts) :=
  match l with
  | [] => Some (Ok s)
  | (t, c) :: l => match kstep t c s with Some (Ok s) => krun l s | r => r end
  end.
End kthread.

(** [n] kthreads that wait for their first core. *)
Definition kts_init (n : nat) : kts := Kts 0 ∅ 0 0 false None ∅ ∅ ∅ (replicate n Attach).

(** ** The map *)

Lemma spread_ok aws l : forall pos fg,
  (pos < length aws)%nat -> NoDup l -> (forall i, i ∈ l -> (i < length fg)%nat) ->
  exists m, spread aws pos l fg = Ok m /\ length m = length fg /\ (forall i, i ∉ l -> m !! i = fg !! i) /\
    forall k i, l !! k = Some i -> m !! i = Some (aws !! ((pos + k) mod length aws)%nat).
Proof.
  induction l as [|i l IH]; intros pos fg Hp Hn Hl; cbn [spread]; [by exists fg|].
  apply list.NoDup_cons in Hn as [Hi Hn]. destruct (lookup_lt_is_Some_2 aws pos Hp) as [a Ha]. rewrite Ha.
  set (pos' := if (S pos =? length aws)%nat then 0%nat else S pos).
  assert (Hpos : (pos' < length aws)%nat /\ forall k, ((pos' + k) mod length aws = (pos + S k) mod length aws)%nat).
  { unfold pos'. destruct (Nat.eqb_spec (S pos) (length aws)) as [E|E].
    - split; [lia|]. intros k. replace (pos + S k)%nat with (k + 1 * length aws)%nat by lia. by rewrite Nat.Div0.mod_add.
    - split; [lia|]. intros k. f_equal. lia. }
  destruct Hpos as [Hlt Hmod]. destruct (IH pos' (<[i := Some a]> fg) Hlt Hn) as (m & E & L & Hout & Hin).
  { intros j Hj. rewrite length_insert. apply Hl. by right. }
  exists m. rewrite length_insert in L. split_and!; [done|done| |].
  - intros j [Hj1 Hj2]%not_elem_of_cons. rewrite Hout, list_lookup_insert_ne by done. done.
  - intros [|k] j Hk; cbn in Hk.
    + injection Hk as <-. rewrite Hout, list_lookup_insert_eq by (done || (apply Hl; by left)). rewrite Nat.add_0_r, Nat.mod_small by done. by rewrite Ha.
    + rewrite (Hin k j Hk). by rewrite Hmod.
Qed.

Lemma mark_awake l : forall fg, (forall i, i ∈ l -> (i < length fg)%nat) ->
  let fg' := foldl (fun fg i => <[i := Some i]> fg) fg l in
  length fg' = length fg /\ (forall i, i ∉ l -> fg' !! i = fg !! i) /\ forall i, i ∈ l -> fg' !! i = Some (Some i).
Proof.
  induction l as [|j l IH]; intros fg Hl; cbn [foldl]; [split_and!; [done|done|by intros i ?%elem_of_nil]|].
  destruct (IH (<[j := Some j]> fg)) as (H1 & H2 & H3). { intros i Hi. rewrite length_insert. apply Hl. by right. }
  rewrite length_insert in H1. split_and!; [done| |].
  - intros i [Hi1 Hi2]%not_elem_of_cons. rewrite H2, list_lookup_insert_ne by done. done.
  - intros i Hi. destruct (decide (i ∈ l)) as [Hil|Hil]; [by apply H3|]. apply elem_of_cons in Hi as [->|]; [|done].
    rewrite H2, list_lookup_insert_eq by (done || (apply Hl; by left)). done.
Qed.

Definition awake_of (acc : gset nat) (n : nat) : list nat := filter (fun i => i ∈ acc) (seq 0 n).
Definition asleep_of (acc : gset nat) (n : nat) : list nat := filter (fun i => i ∉ acc) (seq 0 n).

Lemma elem_awake acc n i : i ∈ awake_of acc n <-> i ∈ acc /\ (i < n)%nat.
Proof. unfold awake_of. rewrite list_elem_of_filter, elem_of_seq. intuition lia. Qed.

Lemma elem_asleep acc n i : i ∈ asleep_of acc n <-> (i ∉ acc) /\ (i < n)%nat.
Proof. unfold asleep_of. rewrite list_elem_of_filter, elem_of_seq. intuition lia. Qed.

(** Each kthread that is awake has its own flows, and those of the others are dealt out to
    the kthreads that are awake in turn. *)
Lemma fg_map_ok acc n : awake_of acc n <> [] ->
  exists m, fg_map acc n = Ok m /\ length m = n /\ (forall i, i ∈ awake_of acc n -> m !! i = Some (Some i)) /\
    forall k i, asleep_of acc n !! k = Some i -> m !! i = Some (awake_of acc n !! (k mod length (awake_of acc n))%nat).
Proof.
  intros Hne. unfold fg_map. fold (awake_of acc n) (asleep_of acc n). set (aws := awake_of acc n) in *.
  assert (Hr : forall i, i ∈ aws -> (i < length (replicate n (@None nat)))%nat) by (intros i Hi; rewrite length_replicate; apply elem_awake in Hi; tauto).
  destruct (mark_awake aws (replicate n None) Hr) as (H1 & H2 & H3). rewrite length_replicate in H1.
  destruct (spread_ok aws (asleep_of acc n) 0 (foldl (fun fg i => <[i := Some i]> fg) (replicate n None) aws)) as (m & E & L & Ho & Hi).
  - destruct aws; [done|cbn; lia].
  - apply list.NoDup_filter, NoDup_ListNoDup, seq_NoDup.
  - intros i Hi%elem_asleep. rewrite H1. tauto.
  - exists m. split_and!; [done|by rewrite L| |done]. intros i Hi'. rewrite Ho; [by apply H3|]. rewrite elem_asleep. apply elem_awake in Hi'. tauto.
Qed.

(** ** Invariants *)

(** Between a change of [kthread_awake] and the count of it. *)
Definition noisy (p : kpc) : bool := match p with ClearInc _ | SetInc => true | _ => false end.
Definition holds (p : kpc) : bool :=
  match p with ReadGen _ | Same _ | SetGen _ _ | Copy _ _ _ | Steer _ _ | Unlock _ => true | _ => false end.
Definition working (p : kpc) : bool := match p with Copy _ _ _ | Steer _ _ => true | _ => false end.
Definition waking (w : whence) : bool := match w with Waking => true | Parking => false end.
(** Its bit in [kthread_awake] is set. *)
Definition listens (p : kpc) : bool :=
  match p with
  | Attach | ClearInc _ | YieldClear | Ioctl | WakeInc | SetAwake => false
  | Run | ParkCheck | ParkSub _ | ParkUndo | Clear _ | SetInc => true
  | TryLock w | ReadGen w | Same w | SetGen _ w | Copy _ _ w | Steer _ w | Unlock w | LoadFag w | LoadGen _ w => waking w
  end.
(** It is counted in [runningks]. *)
Definition counted (p : kpc) : bool :=
  match p with
  | Attach | ParkUndo | Clear _ | ClearInc _ | YieldClear | Ioctl | WakeInc => false
  | Run | ParkCheck | ParkSub _ | SetAwake | SetInc => true
  | TryLock w | ReadGen w | Same w | SetGen _ w | Copy _ _ w | Steer _ w | Unlock w | LoadFag w | LoadGen _ w => waking w
  end.
(** It keeps its core. *)
Definition up (p : kpc) : bool := counted p || match p with ParkUndo => true | _ => false end.

Definition count (f : kpc -> bool) (l : list kpc) : Z := Z.of_nat (length (List.filter f l)).

Lemma count_insert f l t p q : l !! t = Some q -> count f (<[t := p]> l) = count f l - Z.b2z (f q) + Z.b2z (f p).
Proof.
  unfold count. revert t. induction l as [|x l IH]; intros [|t] H; [done|done| |].
  - injection H as ->. change (<[0%nat := p]> (q :: l)) with (p :: l). cbn [List.filter]. destruct (f p), (f q); cbn [length Z.b2z]; lia.
  - change (l !! t = Some q) in H. change (<[S t := p]> (x :: l)) with (x :: <[t := p]> l). specialize (IH t H).
    cbn [List.filter]. destruct (f x); cbn [length]; lia.
Qed.

Lemma count_bound f l : 0 <= count f l <= Z.of_nat (length l).
Proof. unfold count. pose proof (List.filter_length_le f l). lia. Qed.

Lemma count_elem f l t p : l !! t = Some p -> f p = true -> 1 <= count f l.
Proof.
  unfold count. revert t. induction l as [|x l IH]; intros [|t] H Hf; [done|done| |]; cbn [List.filter].
  - injection H as ->. rewrite Hf. cbn [length]. lia.
  - specialize (IH t H Hf). destruct (f x); cbn [length]; lia.
Qed.

Ltac step_cases H E :=
  unfold kstep in H;
  match type of H with context [match pcs ?s !! ?t with _ => _ end] => let p := fresh "p" in destruct (pcs s !! t) as [p|] eqn:E; [|done]; destruct p end;
  match type of H with context [match ?c with KGo => _ | _ => _ end] => destruct c end; try done;
  repeat case_match; try done;
  try (apply (inj Some) in H; apply res_bind_ok in H as (? & ? & H));
  try (injection H as <-).

Section inv.
Context (spinks : Z) (directpath : bool).
Abbreviation step := (kstep spinks directpath).

(** *** The number of running kthreads *)

Definition running_ok (s : kts) : Prop := runningks s = count counted (pcs s) /\ (length (pcs s) <= NCPU)%nat.

Lemma runs_small s : running_ok s -> 0 <= runningks s <= 256.
Proof. intros [-> H]. pose proof (count_bound counted (pcs s)). unfold NCPU in H. lia. Qed.

Lemma step_running t c s s' : running_ok s -> step t c s = Some (Ok s') -> running_ok s'.
Proof.
  intros [Hr Hl] H. step_cases H Hpc.
  all: split; cbn; rewrite ?length_insert; [|done]; rewrite ?(count_insert _ _ _ _ _ Hpc).
  all: try (destruct w). all: cbn; try lia.
Qed.

Lemma count_mono (f g : kpc -> bool) l : (forall p, f p = true -> g p = true) -> count f l <= count g l.
Proof.
  intros Hfg. unfold count. induction l as [|x l IH]; [done|]. cbn [List.filter]. specialize (Hfg x).
  destruct (f x), (g x); cbn [length]; (lia || by specialize (Hfg eq_refl)).
Qed.

(** A kthread that parks of its own accord leaves enough others behind. *)
Lemma step_up t c s s' :
  0 <= spinks < M32 -> running_ok s -> spinks <= count up (pcs s) -> pcs s !! t <> Some (ParkSub false) ->
  step t c s = Some (Ok s') -> spinks <= count up (pcs s').
Proof.
  intros Hs Hr Hup Hinv H. assert (Hsmall := runs_small s Hr). destruct Hr as [Hr _].
  assert (Hle : count counted (pcs s) <= count up (pcs s)).
  { apply count_mono. intros p Hp. unfold up. by rewrite Hp. }
  step_cases H Hpc.
  all: cbn [pcs goto set_runningks set_awake set_gen set_fag set_flock set_steered set_cpus set_preempted];
    rewrite ?(count_insert _ _ _ _ _ Hpc); try (destruct w); cbn [up counted orb waking after_flows Z.b2z]; try lia.
  all: destruct vol; [|done]; cbn [andb] in *.
  all: pose proof (count_elem counted (pcs s) t _ Hpc eq_refl).
  all: assert (u32 (runningks s - 1) = runningks s - 1) as E by (apply u32_id; unfold in_u32, M32; lia).
  all: rewrite E in *; lia.
Qed.
End inv.

(** *** The flows *)

Definition quiet (s : kts) : Prop := forall t p, pcs s !! t = Some p -> noisy p = false.
Definition fresh (s : kts) : Prop := quiet s /\ flow_assignment_gen s = kthread_gen s.
Definition word_below (i j : nat) : Prop := (j / 64 < i)%nat.
#[local] Instance word_below_dec i j : Decision (word_below i j).
Proof. unfold word_below. apply _. Defined.

(** What a kthread in [flows_update] relies on. *)
Definition pc_ok (s : kts) (p : kpc) : Prop :=
  match p with
  | SetGen cur _ => flow_assignment_gen s <= cur <= kthread_gen s
  | Copy i acc _ => (i <= BITMAP_LONGS)%nat /\ (fresh s -> acc = filter (word_below i) (kthread_awake s))
  | Steer acc _ => fresh s -> acc = kthread_awake s
  | _ => True
  end.

Record finv (n : Z) (s : kts) : Prop := {
  fi_gen : 0 <= flow_assignment_gen s <= kthread_gen s /\ kthread_gen s <= n;
  fi_one : forall t t' p p', pcs s !! t = Some p -> pcs s !! t' = Some p' -> holds p = true -> holds p' = true -> t = t';
  fi_lock : flow_assignment_lock s = true <-> exists t p, pcs s !! t = Some p /\ holds p = true;
  fi_pc : forall t p, pcs s !! t = Some p -> pc_ok s p;
  fi_awake : forall t, t ∈ kthread_awake s <-> exists p, pcs s !! t = Some p /\ listens p = true;
  fi_done : fresh s -> (forall t p, pcs s !! t = Some p -> working p = false) -> awake_of (kthread_awake s) (length (pcs s)) <> [] ->
    exists m, steered s = Some m /\ fg_map (kthread_awake s) (length (pcs s)) = Ok m;
  fi_len : (length (pcs s) <= NCPU)%nat
}.

Lemma pcs_goto t p q (s : kts) t' :
  pcs s !! t = Some q -> pcs (goto t p s) !! t' = if decide (t' = t) then Some p else pcs s !! t'.
Proof.
  intros H. cbn. destruct (decide (t' = t)) as [->|Hne]; [|by rewrite list_lookup_insert_ne].
  apply list_lookup_insert_eq. by eapply lookup_lt_Some.
Qed.

(** The state of the flows is the same. *)
Definition same_flows (s s' : kts) : Prop :=
  kthread_awake s' = kthread_awake s /\ kthread_gen s' = kthread_gen s /\ flow_assignment_gen s' = flow_assignment_gen s /\
  flow_assignment_lock s' = flow_assignment_lock s /\ steered s' = steered s /\ pcs s' = pcs s.

Lemma finv_same n s s' : same_flows s s' -> finv n s -> finv n s'.
Proof.
  destruct s, s'. intros (E1 & E2 & E3 & E4 & E5 & E6) [H1 H2 H3 H4 H5 H6 H7]. cbn in *. subst. by split.
Qed.

(** A step of [t] from [p] to [p'], the rest of the state going from [s] to [s1]. *)
Lemma finv_upd n n' s s1 t p p' :
  finv n s -> pcs s1 = pcs s -> pcs s !! t = Some p -> (holds p' = true -> holds p = true \/ flow_assignment_lock s = false) ->
  flow_assignment_lock s1 = (if holds p' then true else if holds p then false else flow_assignment_lock s) ->
  (forall x, x ∈ kthread_awake s1 <-> if decide (x = t) then listens p' = true else x ∈ kthread_awake s) ->
  0 <= flow_assignment_gen s1 <= kthread_gen s1 /\ kthread_gen s1 <= n' ->
  pc_ok (goto t p' s1) p' -> (forall t' q, t' <> t -> pcs s !! t' = Some q -> pc_ok (goto t p' s1) q) ->
  (fresh (goto t p' s1) -> working p' = false -> (forall t' q, t' <> t -> pcs s !! t' = Some q -> working q = false) ->
    awake_of (kthread_awake s1) (length (pcs s)) <> [] -> exists m, steered s1 = Some m /\ fg_map (kthread_awake s1) (length (pcs s)) = Ok m) ->
  finv n' (goto t p' s1).
Proof.
  intros [H1 H2 H3 H4 H5 H6 H7] Es Hp Hone Hlock Haw Hgen Hok Hoth Hdone.
  assert (Hp1 : pcs s1 !! t = Some p) by (by rewrite Es).
  assert (L : forall t', pcs (goto t p' s1) !! t' = if decide (t' = t) then Some p' else pcs s !! t').
  { intros t'. rewrite (pcs_goto t p' p s1 t' Hp1). by rewrite Es. }
  assert (Hlen : length (pcs (goto t p' s1)) = length (pcs s)) by (cbn; by rewrite length_insert, Es).
  assert (Hno : forall t' q, pcs s !! t' = Some q -> holds q = true -> flow_assignment_lock s = true) by (intros t' q Hq Hh; apply H3; by exists t', q).
  split; [exact Hgen| | | | | |by rewrite Hlen].
  - intros t1 t2 q1 q2. rewrite !L. destruct (decide (t1 = t)) as [->|], (decide (t2 = t)) as [->|]; intros A1 A2 B1 B2; try done; simplify_eq.
    + destruct (Hone B1) as [Hh|Hf]; [by eapply H2|]. by rewrite (Hno _ _ A2 B2) in Hf.
    + destruct (Hone B2) as [Hh|Hf]; [by eapply H2|]. by rewrite (Hno _ _ A1 B1) in Hf.
    + by eapply H2.
  - change (flow_assignment_lock (goto t p' s1)) with (flow_assignment_lock s1). rewrite Hlock. destruct (holds p') eqn:E1.
    + split; [|done]. intros _. exists t, p'. by rewrite L, decide_True.
    + destruct (holds p) eqn:E2.
      * split; [done|]. intros (t' & q & Hq & Hh). rewrite L in Hq. destruct (decide (t' = t)) as [->|Hne]; [congruence|].
        exfalso. apply Hne. by eapply H2.
      * rewrite H3. split; intros (t' & q & Hq & Hh).
        -- exists t', q. rewrite L, decide_False by congruence. done.
        -- rewrite L in Hq. destruct (decide (t' = t)) as [->|]; [congruence|by exists t', q].
  - intros t' q. rewrite L. destruct (decide (t' = t)) as [->|]; [by intros [= <-]|]. by apply Hoth.
  - intros t'. change (kthread_awake (goto t p' s1)) with (kthread_awake s1). rewrite Haw, L. destruct (decide (t' = t)) as [->|]; [|apply H5].
    split; [intros Hl; by exists p'|by intros (q & [= <-] & ?)].
  - rewrite Hlen. intros Hf Hw Ha. apply Hdone; [done| | |done].
    + apply (Hw t). by rewrite L, decide_True.
    + intros t' q Hne Hq. apply (Hw t'). by rewrite L, decide_False.
Qed.

Lemma quiet_goto s s1 t p p' :
  pcs s1 = pcs s -> pcs s !! t = Some p -> noisy p = false -> quiet (goto t p' s1) -> quiet s.
Proof.
  intros Es Hp Hn Hq t' q Hq'. destruct (decide (t' = t)) as [->|Hne]; [congruence|]. apply (Hq t').
  rewrite (pcs_goto t p' p s1) by (by rewrite Es). by rewrite decide_False, Es.
Qed.

Lemma not_quiet s t p' : (t < length (pcs s))%nat -> noisy p' = true -> ~ fresh (goto t p' s).
Proof. intros Hl Hn [Hq _]. specialize (Hq t p'). cbn in Hq. rewrite list_lookup_insert_eq in Hq by done. by rewrite Hq in Hn. Qed.

Lemma others_not_holding n s t p t' q : finv n s -> pcs s !! t = Some p -> holds p = true -> t' <> t -> pcs s !! t' = Some q -> holds q = false.
Proof. intros I Hp Hh Hne Hq. destruct (holds q) eqn:E; [|done]. exfalso. apply Hne. by eapply (fi_one n s I). Qed.

Lemma pc_ok_free s p : holds p = false -> pc_ok s p.
Proof. by destruct p. Qed.

Lemma working_holds p : holds p = false -> working p = false.
Proof. by destruct p. Qed.

Lemma keep_bit n s t p p' x :
  finv n s -> pcs s !! t = Some p -> listens p' = listens p -> x ∈ kthread_awake s <-> if decide (x = t) then listens p' = true else x ∈ kthread_awake s.
Proof.
  intros I Hp El. destruct (decide (x = t)) as [->|]; [|done]. rewrite (fi_awake n s I), El. split; [by intros (q & ? & ?); simplify_eq|by exists p].
Qed.

(** A step of [t] from [p] to [p'] that changes nothing else. *)
Lemma finv_move n s t p p' :
  finv n s -> pcs s !! t = Some p -> noisy p = false -> noisy p' = false -> holds p' = holds p -> listens p' = listens p ->
  (working p = true -> working p' = true) -> pc_ok s p' -> finv n (goto t p' s).
Proof.
  intros I Hp N1 N2 Eh El Ew Hok.
  assert (F : fresh (goto t p' s) -> fresh s) by (intros [Hq E]; split; [by eapply quiet_goto|done]).
  assert (P : forall q, pc_ok s q -> pc_ok (goto t p' s) q) by (intros [] Hq; cbn in *; intuition auto).
  apply (finv_upd n n s s t p p'); [done|done|done|rewrite Eh; by left| |intros x; exact (keep_bit n s t p p' x I Hp El)|apply I|by apply P| |].
  - rewrite Eh. destruct (holds p) eqn:E; [|done]. apply (fi_lock n s I). by exists t, p.
  - intros t' q _ Hq. by apply P, (fi_pc n s I t').
  - intros Hf Hw Hoth Ha. apply (fi_done n s I); [by apply F| |done]. intros t' q Hq. destruct (decide (t' = t)) as [->|]; [|by eapply Hoth].
    assert (q = p) as -> by congruence. destruct (working p); [by rewrite Ew in Hw|done].
Qed.

(** A bit changes. *)
Lemma finv_bit n s t p p' A :
  finv n s -> pcs s !! t = Some p -> holds p = false -> noisy p' = true ->
  (forall x, x ∈ A <-> if decide (x = t) then listens p' = true else x ∈ kthread_awake s) -> finv n (goto t p' (set_awake A s)).
Proof.
  intros I Hp Hh Hn HA. assert (Hnf : ~ fresh (goto t p' (set_awake A s))) by (apply not_quiet; [by eapply lookup_lt_Some|done]).
  apply (finv_upd n n s _ t p p'); [done|done|done|by destruct p'|by destruct p'; rewrite ?Hh|done|apply I|by apply pc_ok_free; destruct p'| |done].
  intros t' q _ Hq. pose proof (fi_pc n s I t' q Hq) as Hok. destruct q; cbn in *; tauto.
Qed.

(** A change is counted. *)
Lemma finv_count n s t p p' :
  finv n s -> n + 1 < M64 -> pcs s !! t = Some p -> holds p = false -> holds p' = false -> listens p' = listens p ->
  finv (n + 1) (goto t p' (set_gen (u64 (kthread_gen s + 1)) s)).
Proof.
  intros I Hn Hp Hh Hh' El. destruct (fi_gen n s I) as [G1 G2].
  assert (E : u64 (kthread_gen s + 1) = kthread_gen s + 1) by (apply u64_id; unfold in_u64; lia). rewrite E.
  assert (Hnf : ~ fresh (goto t p' (set_gen (kthread_gen s + 1) s))) by (intros [_ Hf]; cbn in Hf; lia).
  apply (finv_upd n (n + 1) s _ t p p'); [done|done|done|by rewrite Hh'|by rewrite Hh, Hh'|intros x; exact (keep_bit n s t p p' x I Hp El)|cbn; lia|by apply pc_ok_free| |done].
  intros t' q _ Hq. pose proof (fi_pc n s I t' q Hq) as Hok. destruct q; cbn in *; (tauto || lia).
Qed.

(** The lock is taken, or released. *)
Lemma finv_take n s t p p' :
  finv n s -> pcs s !! t = Some p -> flow_assignment_lock s = false -> noisy p = false -> holds p = false -> holds p' = true -> working p' = false ->
  pc_ok s p' -> listens p' = listens p -> finv n (goto t p' (set_flock true s)).
Proof.
  intros I Hp Hl Hn Hh Hh' Hw Hok El. assert (P : forall q, pc_ok s q -> pc_ok (goto t p' (set_flock true s)) q).
  { assert (F : fresh (goto t p' (set_flock true s)) -> fresh s) by (intros [Hq E]; split; [by eapply (quiet_goto s (set_flock true s))|done]).
    intros [] Hq; cbn in *; intuition auto. }
  apply (finv_upd n n s _ t p p'); [done|done|done|by right|by rewrite Hh'|intros x; exact (keep_bit n s t p p' x I Hp El)|apply I|by apply P| |].
  - intros t' q _ Hq. by apply P, (fi_pc n s I t').
  - intros [Hq E] _ Hoth Ha. apply (fi_done n s I); [split; [by eapply (quiet_goto s (set_flock true s))|done]| |done].
    intros t' q Hq'. destruct (decide (t' = t)) as [->|]; [|by eapply Hoth]. assert (q = p) as -> by congruence. by apply working_holds.
Qed.

Lemma finv_release n s t p p' :
  finv n s -> pcs s !! t = Some p -> noisy p = false -> holds p = true -> working p = false -> holds p' = false ->
  listens p' = listens p -> finv n (goto t p' (set_flock false s)).
Proof.
  intros I Hp Hn Hh Hw Hh' El.
  apply (finv_upd n n s _ t p p'); [done|done|done|by rewrite Hh'|by rewrite Hh', Hh|intros x; exact (keep_bit n s t p p' x I Hp El)|apply I|by apply pc_ok_free| |].
  - intros t' q Hne Hq. apply pc_ok_free. by eapply (others_not_holding n s t p).
  - intros [Hq E] _ Hoth Ha. apply (fi_done n s I); [split; [by eapply (quiet_goto s (set_flock false s))|done]| |done].
    intros t' q Hq'. destruct (decide (t' = t)) as [->|]; [congruence|by eapply Hoth].
Qed.

(** A copy is begun for the changes counted so far. *)
Lemma finv_set_gen n s t cur w :
  finv n s -> pcs s !! t = Some (SetGen cur w) -> finv n (goto t (Copy 0 ∅ w) (set_fag cur s)).
Proof.
  intros I Hp. pose proof (fi_pc n s I t _ Hp) as Hc. cbn in Hc. destruct (fi_gen n s I) as [G1 G2].
  apply (finv_upd n n s _ t (SetGen cur w) (Copy 0 ∅ w)); [done|done|done|by left| | | |split; [lia|]| |done].
  - cbn. apply (fi_lock n s I). by exists t, (SetGen cur w).
  - intros x. exact (keep_bit n s t (SetGen cur w) (Copy 0 ∅ w) x I Hp eq_refl).
  - cbn. lia.
  - intros _. symmetry. apply set_eq. intros x. rewrite elem_of_filter. unfold word_below. split; [lia|by intros ?%elem_of_empty].
  - intros t' q Hne Hq. apply pc_ok_free. by eapply (others_not_holding n s t (SetGen cur w)).
Qed.

(** The card is told. *)
Lemma finv_steer n s t acc w o :
  finv n s -> pcs s !! t = Some (Steer acc w) ->
  (fresh s -> awake_of acc (length (pcs s)) <> [] -> exists m, o = Some m /\ fg_map acc (length (pcs s)) = Ok m) ->
  finv n (goto t (Unlock w) (set_steered o s)).
Proof.
  intros I Hp Ho. pose proof (fi_pc n s I t _ Hp) as Hc. cbn in Hc.
  assert (F : fresh (goto t (Unlock w) (set_steered o s)) -> fresh s) by (intros [Hq E]; split; [by eapply (quiet_goto s (set_steered o s))|done]).
  apply (finv_upd n n s _ t (Steer acc w) (Unlock w)); [done|done|done|by left| | |apply I|done| |].
  - cbn. apply (fi_lock n s I). by exists t, (Steer acc w).
  - intros x. exact (keep_bit n s t (Steer acc w) (Unlock w) x I Hp eq_refl).
  - intros t' q Hne Hq. apply pc_ok_free. by eapply (others_not_holding n s t (Steer acc w)).
  - intros Hf _ _ Ha. cbn in *. rewrite <- (Hc (F Hf)) in *. by apply Ho, Ha; apply F.
Qed.

Lemma awake_small n s x : finv n s -> x ∈ kthread_awake s -> (x < NCPU)%nat.
Proof. intros I Hx. apply (fi_awake n s I) in Hx as (p & Hp & _). apply lookup_lt_Some in Hp. pose proof (fi_len n s I). lia. Qed.

Lemma next_word (A : gset nat) i : filter (word_below i) A ∪ filter (fun j => (j / 64 = i)%nat) A = filter (word_below (S i)) A.
Proof.
  apply set_eq. intros x. rewrite elem_of_union, !elem_of_filter. unfold word_below.
  destruct (decide (x ∈ A)); [|tauto]. split; [intros [[? _]|[? _]]; split; (lia || done)|]. intros [Hx _].
  destruct (decide (x / 64 = i)%nat); [right|left]; split; (lia || done).
Qed.

Section flows.
Context (spinks : Z).
Abbreviation step := (kstep spinks true).

Lemma step_flows n t c s s' : finv n s -> n + 1 < M64 -> step t c s = Some (Ok s') -> finv (n + 1) s'.
Proof.
  intros I Hn H.
  assert (Hmore : finv n s' -> finv (n + 1) s') by (intros [[K1 K1'] K2 K3 K4 K5 K6 K7]; split; [lia|done..]).
  assert (Hsame : forall s1, same_flows s s1 -> finv n s1) by (intros; by eapply finv_same).
  step_cases H Hpc.
  all: try (apply Hmore; first
    [ by apply Hsame
    | eapply finv_move; [by apply Hsame|exact Hpc|done|done|done|done|done|done] ]).
  all: try (destruct w; apply Hmore; eapply finv_move; [done|exact Hpc|done|done|done|done|done|done]).
  all: try (eapply finv_count; [done|done|exact Hpc|done|done|done]).
  all: try (apply Hmore; eapply finv_release; [done|exact Hpc|done..]).
  all: try (apply Hmore; eapply finv_set_gen; done).
  all: try (apply Hmore; eapply finv_move; [done|exact Hpc|done|by destruct w|by destruct w|by destruct w|done|by destruct w]).
  all: try (apply Hmore; eapply finv_release; [done|exact Hpc|done|done|done|by destruct w|by destruct w]).
  - apply Hmore, (finv_bit n s t (Clear vol)); [done|done|done|done|]. intros x. rewrite elem_of_difference, elem_of_singleton.
    destruct (decide (x = t)) as [->|]; cbn; [|tauto]. split; [tauto|done].
  - apply Hmore, (finv_bit n s t SetAwake); [done|done|done|done|]. intros x. rewrite elem_of_union, elem_of_singleton.
    destruct (decide (x = t)) as [->|]; cbn; tauto.
  - apply Hmore. by eapply finv_take.
  - apply Hmore. eapply finv_move; [done|exact Hpc|done..|]. cbn. destruct (fi_gen n s I). lia.
  - apply Hmore. eapply finv_move; [done|exact Hpc|done..|]. pose proof (fi_pc n s I t _ Hpc) as [Hi Hc]. split; [by apply Nat.ltb_lt|].
    intros Hf. rewrite (Hc Hf) at 1. apply next_word.
  - apply Hmore. eapply finv_move; [done|exact Hpc|done..|]. pose proof (fi_pc n s I t _ Hpc) as [Hi Hc]. apply Nat.ltb_ge in H0.
    intros Hf. rewrite (Hc Hf). apply set_eq. intros x. rewrite elem_of_filter. split; [tauto|]. intros Hx. split; [|done].
    unfold word_below. apply (awake_small n s x I) in Hx. assert (EB : BITMAP_LONGS = 4%nat) by (vm_compute; reflexivity). rewrite EB in *. unfold NCPU in *.
    apply Nat.Div0.div_lt_upper_bound. lia.
  - apply Hmore. replace s with (set_steered (steered s) s) by (by destruct s). eapply finv_steer; [done|exact Hpc|].
    intros _ Ha. by apply bool_decide_eq_true_1 in H0.
  - apply Hmore. eapply finv_steer; [done|exact Hpc|]. intros _ _. by exists x.
Qed.

Lemma step_length t c s s' : step t c s = Some (Ok s') -> length (pcs s') = length (pcs s).
Proof. intros H. step_cases H Hpc; cbn; by rewrite ?length_insert. Qed.

(** Every step succeeds, except the first [ioctl] if the kernel module refuses. *)
Lemma step_ok t c s : step t c s = Some Bug -> pcs s !! t = Some Attach /\ c = KRet None.
Proof.
  intros H. unfold kstep in H. destruct (pcs s !! t) as [p|]; [|done]. destruct p; destruct c; try done; repeat case_match; try done.
  apply (inj Some) in H. destruct (fg_map_ok acc (length (pcs s))) as (m & E & _).
  - by apply bool_decide_eq_false_1 in H0.
  - rewrite E in H. done.
Qed.
End flows.

(** ** Properties *)

(** After [k] steps of [n] kthreads. *)
Inductive kreach (spinks : Z) (directpath : bool) (n : nat) : Z -> kts -> Prop :=
| kr_init : kreach spinks directpath n 0 (kts_init n)
| kr_step k s t c s' : kreach spinks directpath n k s -> kstep spinks directpath t c s = Some (Ok s') -> kreach spinks directpath n (k + 1) s'.

(** Nobody is on the way into or out of the kernel. *)
Definition settled (s : kts) : Prop := forall t p, pcs s !! t = Some p -> p = Attach \/ p = Run \/ p = Ioctl.

Lemma init_flows n : (n <= NCPU)%nat -> finv 0 (kts_init n).
Proof.
  intros Hn. assert (HA : forall t p, pcs (kts_init n) !! t = Some p -> p = Attach) by (intros t p Hp; by apply lookup_replicate in Hp as [-> _]).
  split; cbn [pcs kts_init flow_assignment_gen kthread_gen kthread_awake flow_assignment_lock steered]; [done| | | | | |by rewrite length_replicate].
  - intros t t' p p' Hp _ Hh _. by rewrite (HA t p Hp) in Hh.
  - split; [done|]. intros (t & p & Hp & Hh). by rewrite (HA t p Hp) in Hh.
  - intros t p Hp. by rewrite (HA t p Hp).
  - intros t. split; [by intros ?%elem_of_empty|]. intros (p & Hp & Hl). by rewrite (HA t p Hp) in Hl.
  - intros _ _ Ha. exfalso. apply Ha. destruct (awake_of ∅ _) as [|x l] eqn:E; [done|].
    assert (Hx : x ∈ awake_of ∅ (length (replicate n Attach))) by (rewrite E; by left). apply elem_awake in Hx as [Hx _]. by apply elem_of_empty in Hx.
Qed.

Lemma reach_flows spinks n k s : (n <= NCPU)%nat -> kreach spinks true n k s -> k < M64 -> finv k s /\ length (pcs s) = n /\ 0 <= k.
Proof.
  intros Hn. induction 1 as [|k s t c s' _ IH E]; intros Hk; [split_and!; [by apply init_flows|apply length_replicate|done]|].
  destruct IH as (I & L & P); [lia|]. split_and!; [by eapply step_flows|by rewrite (step_length _ _ _ _ _ E)|lia].
Qed.

(** C19.  The card steers flows by who is awake: whenever no kthread is on its way into or
    out of the kernel and the last change that was counted has been seen by
    [flows_update], then the map given to the card last has an entry for every kthread, a
    kthread that runs has its own flows, and those of the kthreads that sleep are dealt
    out in turn to those that run; however the loads and stores of all kthreads
    interleave, and although the bitmap is copied word by word.  No step fails, but for an
    error of the kernel module at the first attachment. *)
Theorem kthread_flows_current spinks n k s :
  (n <= NCPU)%nat -> kreach spinks true n k s -> k < M64 ->
  (forall t c, kstep spinks true t c s = Some Bug -> pcs s !! t = Some Attach /\ c = KRet None) /\
  (settled s -> flow_assignment_gen s = kthread_gen s -> (exists t, pcs s !! t = Some Run) ->
   exists m, steered s = Some m /\ length m = n /\
     (forall t, pcs s !! t = Some Run -> m !! t = Some (Some t)) /\
     exists running sleeping : list nat, (forall t, t ∈ running <-> pcs s !! t = Some Run) /\ (forall t, t ∈ sleeping <-> (t < n)%nat /\ pcs s !! t <> Some Run) /\
       forall i t, sleeping !! i = Some t -> m !! t = Some (running !! (i mod length running)%nat)).
Proof.
  intros Hn Hr Hk. destruct (reach_flows spinks n k s Hn Hr Hk) as (I & L & _). split; [intros t c; apply step_ok|].
  intros Hset Hg [t0 Ht0]. set (A := kthread_awake s).
  assert (HA : forall t, t ∈ awake_of A n <-> pcs s !! t = Some Run).
  { intros t. rewrite elem_awake. unfold A. rewrite (fi_awake k s I). split.
    - intros [(p & Hp & Hl) _]. by destruct (Hset t p Hp) as [-> | [-> | ->]].
    - intros Hp. split; [by exists Run|]. rewrite <- L. by eapply lookup_lt_Some. }
  assert (Hne : awake_of A n <> []) by (intros E; apply HA in Ht0; rewrite E in Ht0; by apply elem_of_nil in Ht0).
  destruct (fi_done k s I) as (m & Hm & E).
  - split; [|done]. intros t p Hp. by destruct (Hset t p Hp) as [-> | [-> | ->]].
  - intros t p Hp. by destruct (Hset t p Hp) as [-> | [-> | ->]].
  - by rewrite L.
  - rewrite L in E. destruct (fg_map_ok A n Hne) as (m' & E' & Lm & Hin & Hout). assert (m' = m) as -> by (unfold A in E'; congruence).
    exists m. split_and!; [done|done|intros t Ht; apply Hin; by apply HA|]. exists (awake_of A n), (asleep_of A n). split_and!; [done| |done].
    intros t. rewrite <- HA, elem_awake, elem_asleep. tauto.
Qed.

(** C38.  Enough kthreads keep spinning: as long as kthreads only park of their own accord,
    if at least [spinks] of them are up then at least [spinks] stay up, however they
    interleave; a kthread that would leave too few takes its decrement back.  The counter
    [runningks] is the number of kthreads that are counted as running. *)
Theorem kthread_park_keeps_spinning spinks directpath n k s l s' :
  (n <= NCPU)%nat -> 0 <= spinks < M32 -> kreach spinks directpath n k s -> krun spinks directpath l s = Some (Ok s') ->
  (forall t, pcs s !! t <> Some (ParkSub false)) -> (forall t, (t, KPark false) ∉ l) ->
  runningks s' = count counted (pcs s') /\ (spinks <= count up (pcs s) -> spinks <= count up (pcs s')).
Proof.
  intros Hn Hs Hr.
  assert (R : running_ok s).
  { induction Hr as [|k s0 t c s1 _ IH E]; [|by eapply step_running]. split; [|cbn; by rewrite length_replicate].
    clear. induction n as [|n IH]; [done|exact IH]. }
  clear Hr. revert s R. induction l as [|[t c] l IH]; intros s R E Hi Hl; cbn [krun] in E; [injection E as <-; split; [apply R|done]|].
  destruct (kstep spinks directpath t c s) as [[s1|]|] eqn:E1; try done.
  destruct (IH s1) as [H1 H2]; [by eapply step_running|done| | |].
  - intros t' Ht'. assert (Hc : c <> KPark false) by (intros ->; apply (Hl t); by left). clear IH E.
    destruct (decide (t' = t)) as [->|Hne].
    + step_cases E1 Hpc; cbn in Ht'; rewrite ?list_lookup_insert_eq in Ht' by (by eapply lookup_lt_Some); try congruence; try (by destruct w); by eapply Hi.
    + apply (Hi t'). rewrite <- Ht'. step_cases E1 Hpc; cbn; by rewrite ?list_lookup_insert_ne.
  - intros t' Ht'. apply (Hl t'). by right.
  - split; [done|]. intros Hup. apply H2. by eapply step_up.
Qed.

(** ** Witnesses *)

Lemma krun_reach spinks directpath n l : forall k s s',
  kreach spinks directpath n k s -> krun spinks directpath l s = Some (Ok s') -> kreach spinks directpath n (k + Z.of_nat (length l)) s'.
Proof.
  induction l as [|[t c] l IH]; intros k s s' Hr E; cbn [krun] in E; [injection E as <-; cbn; by rewrite Z.add_0_r|].
  destruct (kstep spinks directpath t c s) as [[s1|]|] eqn:E1; try done.
  replace (k + Z.of_nat (length ((t, c) :: l))) with (k + 1 + Z.of_nat (length l)) by (cbn [length]; lia).
  eapply IH; [|exact E]. by eapply kr_step.
Qed.

Definition krun_state (n : nat) (l : list (nat * kchoice)) : kts := match krun 1 true l (kts_init n) with Some (Ok s) => s | _ => kts_init 0 end.

Definition go (t k : nat) : list (nat * kchoice) := replicate k (t, KGo).
(** A kthread gets a core and goes all the way through [flows_update]. *)
Definition wakes (t c : nat) : list (nat * kchoice) := (t, KRet (Some c)) :: go t 15.
(** It parks. *)
Definition parks (t : nat) : list (nat * kchoice) := (t, KPark true) :: go t 17.

Definition wit_kruns : list (nat * kchoice) := wakes 0 4 ++ wakes 1 5 ++ wakes 2 6 ++ wakes 3 7 ++ parks 1 ++ parks 2.

Lemma wit_kreach : kreach 1 true 4 (Z.of_nat (length wit_kruns)) (krun_state 4 wit_kruns).
Proof.
  apply (krun_reach 1 true 4 wit_kruns 0 (kts_init 4)); [constructor|]. unfold krun_state.
  destruct (krun 1 true wit_kruns (kts_init 4)) as [[s|]|] eqn:E; [reflexivity| |]; exfalso; revert E; vm_compute; discriminate.
Qed.

Lemma kthread_flows_current_witness :
  let s := krun_state 4 wit_kruns in
  pcs s = [Run; Ioctl; Ioctl; Run] /\ exists m, steered s = Some m /\ m !! 0%nat = Some (Some 0%nat) /\ m = [Some 0; Some 0; Some 3; Some 3]%nat.
Proof.
  destruct (kthread_flows_current 1 4 _ _ ltac:(unfold NCPU; lia) wit_kreach ltac:(vm_compute; reflexivity)) as [_ H].
  assert (E : pcs (krun_state 4 wit_kruns) = [Run; Ioctl; Ioctl; Run]) by (vm_compute; reflexivity).
  split; [exact E|]. destruct H as (m & Hm & _ & Hrun & _).
  - intros t p Hp. rewrite E in Hp. destruct t as [|[|[|[|t]]]]; cbn in Hp; try discriminate Hp; injection Hp as <-; auto.
  - vm_compute. reflexivity.
  - exists 0%nat. rewrite E. reflexivity.
  - exists m. split; [exact Hm|]. split; [apply Hrun; rewrite E; reflexivity|].
    assert (Es : steered (krun_state 4 wit_kruns) = Some [Some 0; Some 0; Some 3; Some 3]%nat) by (vm_compute; reflexivity).
    rewrite Hm in Es. injection Es as ->. reflexivity.
Defined.

(** Kthreads 0 and 3 run and both try to park; one of them stays. *)
Definition wit_both : list (nat * kchoice) := [(0%nat, KPark true); (3%nat, KPark true)] ++ go 0 1 ++ go 3 1 ++ go 0 1 ++ go 3 1 ++ go 3 1.

Lemma kthread_park_keeps_spinning_witness :
  exists s', krun 1 true wit_both (krun_state 4 wit_kruns) = Some (Ok s') /\ 1 <= count up (pcs s') /\ pcs s' !! 3%nat = Some Run.
Proof.
  destruct (krun 1 true wit_both (krun_state 4 wit_kruns)) as [[s'|]|] eqn:E; [|exfalso; revert E; vm_compute; discriminate..].
  exists s'. split; [reflexivity|]. split.
  - destruct (kthread_park_keeps_spinning 1 true 4 _ _ wit_both s' ltac:(unfold NCPU; lia) ltac:(unfold M32; lia) wit_kreach E) as [_ H].
    + assert (Ep : pcs (krun_state 4 wit_kruns) = [Run; Ioctl; Ioctl; Run]) by (vm_compute; reflexivity). rewrite Ep.
      intros [|[|[|[|t]]]] Ht; cbn in Ht; discriminate Ht.
    + intros t Ht. repeat (apply elem_of_cons in Ht as [Ht|Ht]; [discriminate Ht|]). by apply elem_of_nil in Ht.
    + apply H. vm_compute. discriminate.
  - assert (Ep : (match krun 1 true wit_both (krun_state 4 wit_kruns) with Some (Ok s) => pcs s !! 3%nat | _ => None end) = Some Run) by (vm_compute; reflexivity).
    rewrite E in Ep. exact Ep.
Defined.

(** [flows_update] can miss a change.  Kthread 0 is awake and counted, but kthread 1 has
    told the card for both; kthread 0 takes the lock, finds nothing to do, and before it
    releases the lock kthread 2 wakes, counts its change and does not get the lock.
    Nobody looks again: kthread 2 runs, and its flows are another kthread's. *)
Lemma flows_update_misses_change :
  let s := krun_state 3 ([(0%nat, KRet (Some 4%nat))] ++ go 0 3 ++ wakes 1 5 ++ go 0 2 ++ [(2%nat, KRet (Some 6%nat))] ++ go 2 4 ++ go 0 1) in
  pcs s = [Run; Run; Run] /\ kthread_gen s = 3 /\ flow_assignment_gen s = 2 /\ steered s = Some [Some 0; Some 1; Some 0]%nat.
Proof. vm_compute. auto. Qed.
